(* ===== verification/_CoqProject ===== *)
-Q . S2P
Prelude.v
Methods.v
Domain.v
DomainLaws.v
DomainTheorems.v
Oracle.v
OracleLemmas.v
OracleInvariant.v
OracleTheorems.v
Environment.v
EnvironmentTheorems.v
Rl.v
RlTheorems.v
RlPolicy.v
Protocol.v
Bytes.v
ProtocolTheorems.v
Frames.v
FrameTheorems.v
SessionState.v
OracleSession.v
SessionMachine.v
InProcess.v
SessionValid.v
SessionPreserve.v
SessionDecide.v
SessionLog.v
SessionTheorems.v
InProcessRuns.v
InProcessRecovery.v
InProcessLedger.v
SessionProperties.v
InProcessProperties.v
GovernanceWire.v
Retrospective.v
RetrospectiveTheorems.v
Governance.v
GovernanceInvariant.v
GovernanceTheorems.v
Replication.v
Replicated.v
ReplicatedInvariant.v
ReplicatedTheorems.v
ReplicatedLog.v
ReplicatedLogTheorems.v
ReplicatedLogProperties.v
DeviceWire.v
DeviceAction.v
Cooperation.v
CooperationTheorems.v
Gateway.v
Formal.v
FormalTyping.v
FormalEvaluation.v
FormalProperties.v
ModelFinite.v
ModelKernels.v
ModelState.v
ModelSemantics.v
ModelDeals.v
ModelInvariant.v
ModelRules.v
ModelProperty.v
ModelTheorems.v
Explore.v
ExploreTheorems.v
ExploreModel.v
Safety.v
Liveness.v
ExploreProperties.v
LivenessCsr.v
LivenessScc.v
LivenessAnalysis.v
LivenessTheorems.v
Spatial.v
SpatialRealize.v
SpatialPlay.v
SpatialRound.v
SpatialTheorems.v
