(* ===== verification/Prelude.v ===== *)
(** * Poche: verification library

    Poche is a trick-taking card game for two to seven players, written as a set of
    Rust crates: the rules and their finite encodings, an environment boundary for
    engines and learners, a wire protocol, a session machine that gates the game
    behind rooms, seats, policies and chat, and an in-process authority that serves
    a room to its clients.  This library models those crates as executable
    definitions and proves what makes them correct.

    ** Parts and files

    Each part lists the crate it models (under src/crates/) and its files here.

    - Shared vocabulary: Prelude.v.  The result type [outcome] keeps the three ends
      of a Rust function apart: a value, its error type, and a panic ([expect], an
      index out of range, checked arithmetic).  Machine integers are [Z] with
      [checked], [saturating_add], [wrapping_add] and [wrapping_mul] written out; [foldM] is a loop
      with [?]; [sort_by] is a stable sort.  Methods.v holds the monad [M] of methods on
      [&mut self], in which an error keeps the state reached.  Bytes.v holds what the
      protocol extensions share: the class [StrictOrder] of [Ord] types, sorted slices
      with
      binary search, ordered sets and maps, hexadecimal text.

    - Finite domains, poche-domain/src/lib.rs: Domain.v (types, refinements,
      encoders, decoders, the class [FiniteDomain]), DomainLaws.v (the laws of every
      instance), DomainTheorems.v (enumeration is exact, codes round trip, the
      bit-level sets and the wire form).

    - Rule oracle, poche-oracle-rust/src/lib.rs: Oracle.v (cards, piles, tricks,
      the phase-indexed game, every transition, legal actions, observations),
      OracleLemmas.v and OracleInvariant.v (the invariant [game_inv] of each phase,
      what each transition does, reachable games), OracleTheorems.v (the properties).

    - Environment boundary, poche-environment/src/lib.rs: Environment.v (the trait
      [GameEnvironment] as a record of operations and its laws, the seeded shuffle,
      the oracle as an instance), EnvironmentTheorems.v (the boundary is the oracle,
      seeded play finishes).

    - Reinforcement learning boundary, poche-rl/src/environment.rs, policy.rs and
      part of spec.rs: Rl.v (reset, decision, step, the automatic moves in between,
      in a state monad), RlTheorems.v, RlPolicy.v (the three policies).

    - Wire protocol, poche-protocol/src/ids.rs, types.rs and codec.rs: Protocol.v
      (identifiers, commands, their validation, canonical writer and signing
      bytes), Frames.v (the other frames and the line codec), ProtocolTheorems.v,
      FrameTheorems.v.

    - Session machine, poche-session/src/lib.rs, state.rs, machine.rs and
      projection.rs: SessionState.v (the room and its validation; the class
      [SessionGame] is the trait of the same name), SessionMachine.v (authorize,
      decide, apply, what a viewer is sent), then the proofs:
      SessionValid.v (validation as a proposition), SessionPreserve.v (apply keeps
      it), SessionDecide.v (decisions), SessionLog.v (the batches they stamp and the
      command log), SessionTheorems.v (served rooms,
      what apply leaves alone), SessionProperties.v (the properties, with a
      demonstration room).

    - Oracle behind the session gate, poche-runtime/src/oracle_session.rs:
      OracleSession.v (the rules as an instance of [SessionGame]).

    - In-process authority, poche-runtime/src/in_process.rs and chat.rs:
      InProcess.v (the transport with its faults, the clock, the chat tail, serving
      and recovery, in a state monad whose errors keep the state reached),
      InProcessRuns.v (serving an input is serving it on the session machine; runs of
      clients and authority), InProcessRecovery.v (a run
      and the replay of its journal in lockstep), InProcessLedger.v (the committed
      events, the clock and the countdown), InProcessProperties.v (the
      properties, and the runs in which clock and room part).

    - Governance, poche-protocol/src/governance.rs and poche-session/src/governance.rs:
      GovernanceWire.v (the typed commands and their codec), Governance.v (the overlay:
      proposals, votes, tallies, expiry, capabilities, score amendments, recovery),
      GovernanceInvariant.v (what each method does, the invariant of every reachable
      overlay), GovernanceTheorems.v (the properties, and that no method panics).

    - Retrospective audit, poche-session/src/retrospective.rs: Retrospective.v,
      RetrospectiveTheorems.v.

    - Replicated session, poche-protocol/src/replication.rs and
      poche-session/src/replicated.rs: Replication.v (every shape, its validation and the
      bytes that are signed and hashed), Replicated.v (device registration, revocations,
      commit certificates, forks, membership changes),
      ReplicatedInvariant.v (quorums, validation as a proposition; the replicas reachable by the
      operations), ReplicatedTheorems.v.

    - Delivery log, poche-runtime/src/replicated.rs and signature.rs: ReplicatedLog.v
      (membership, pools, certification, delivery with its buffer, snapshots, the
      Ed25519 adapter, the registered scenario),
      ReplicatedLogTheorems.v (chains, buffers, pools), ReplicatedLogProperties.v.

    - Device messages and cooperation, poche-protocol/src/device_cooperation.rs,
      device_action.rs and poche-session/src/device_cooperation.rs: DeviceWire.v
      (consents, requests, progress, completions and the bytes that are signed),
      DeviceAction.v (remote actions and observations), Cooperation.v (authorization of
      captures, the replay window), CooperationTheorems.v.

    - Gateway disclosure, poche-protocol/src/gateway.rs and secret.rs: Gateway.v (what a
      gateway tells a browser about who can read a table, and that it is so).

    - Expression dialect, poche-formal/src/lib.rs: Formal.v (types, values, the graph
      builder, lowering, the evaluator), FormalTyping.v (a declarative typing, and that
      the builder only makes typed graphs), FormalEvaluation.v (the meaning of a graph, the
      order of its code, the work list, running it), FormalProperties.v.

    - Six-card model, poche-model/src/finite.rs, formal.rs, state.rs, semantics.rs and
      property.rs: ModelFinite.v (cards, card sets, deals and their codes),
      ModelKernels.v (the six rule kernels, built and run in the expression dialect),
      ModelState.v (phases, observations, offered actions), ModelSemantics.v (the
      transition function), ModelProperty.v (the catalog of claims and their
      evaluators), then the proofs: ModelDeals.v (card sets, zones, deals),
      ModelInvariant.v (the invariant of each phase and what keeps it), ModelRules.v
      (settlement, what is refused and what is offered), ModelTheorems.v.

    - Explicit-state exploration, poche-check/src/lib.rs, safety.rs and liveness.rs:
      Explore.v (the breadth-first explorer for any transition system, its table, traces
      and counterexamples, and the six-card model as the system it explores), Safety.v
      (the pass over the catalog), Liveness.v (ranks, adjacency, strongly connected
      components, lassos), then the proofs: ExploreTheorems.v (the search, for any
      system), ExploreModel.v (the six-card model as a system), ExploreProperties.v (the
      graph, counterexamples and the safety pass), LivenessCsr.v (the rows of the
      adjacency), LivenessScc.v (Tarjan's search), LivenessAnalysis.v (the way back within
      a component; what a report says, for any graph), LivenessTheorems.v (the liveness
      pass over the six-card model).

    - Spatial refinement, poche-spatial/src (every file) and poche-runtime/src/spatial.rs:
      Spatial.v (millimetre geometry, identities, scenes, layouts and the classification
      of a released object), SpatialRealize.v (from a viewer's projection to a scene and
      back), SpatialPlay.v (named and dragged plays and the command they become, the
      fingerprint of a scene, physical cards, shared poses), SpatialRound.v (realized
      scenes, and what is read off them), SpatialTheorems.v (the properties).

    Parts meet at interfaces: [FiniteDomain] gives every encoder its laws;
    [GameEnvironment] is the boundary engines use and the oracle implements;
    [SessionGame] is what the session machine asks of a game, proved about for any
    game and instantiated by the oracle; the authority is proved against the session
    machine's serving functions for any game.

    ** What the theorems show

    - The rules.  A legal transition is taken and any other refused with the
      documented error, without a panic; the fifty-two cards are conserved; legal
      actions are exactly the accepted ones; every game ends; observations show a
      viewer its own hand and the sizes of the others; scores, pot and winners are
      those of the rules.
    - The encodings.  Enumeration lists each value once; encode and decode are
      inverse and reject every other word.
    - The boundary and learners.  The environment is the oracle; a seeded shuffle is
      a permutation; seeded play and episodes end; policies choose legal actions;
      step reports exactly what happened.
    - The protocol.  Signing bytes determine the signed fields and the kind of
      object; a frame has one accepted line.
    - The session.  Authorization is deny-override and default-deny; what is decided
      can be committed; applying an event is idempotent and gap-free; a room is the
      replay of its log; the game moves only for those whose turn it is.
    - The authority.  Every ingress is served once and in order; committed events
      are the room's history; a journal replays to the same authority, provided a client
      connected in the clock's name has spoken; the clock holds the countdown's expiry
      and ends it on time, as long as commands are not repeated and no client speaks for
      the clock.  Six small runs show where repetition, closing, reused identifiers and
      clients in the clock's name break these properties.
    - Governance.  An effect by vote has one approved proposal, short of a collision of
      identifiers, after which the room accepts nothing; an effect by capability has its
      holder; the status of a proposal follows its votes; scores, kicks and rights are the
      replay of the bootstrap grants and the committed actions; a failed command changes
      nothing; no command panics.  The audit reports exactly the plays that broke the suit rule.
    - Replication.  Two replicas that applied as many events, neither of which saw two
      certificates, hold the same events; two certificates for one height name a player
      whose registered, unrevoked devices signed both; an applied event carries the certificate of a quorum of its
      membership; the operations keep a replica well formed.
    - Delivery.  Events of a chain may arrive in any order, with gaps and repetitions:
      the log applies the longest delivered prefix and ends at the same state; a
      snapshot stands for its prefix; a batch does not depend on the order of proposals;
      a certified event applies.  Two small runs show how a log halts without a fork.
    - Devices.  A capture completes only with the artifacts that were offered, each once
      and within its size; the replay window takes a request once; messages of different
      kinds are never signed with the same bytes.  A gateway's disclosure says what it is.
    - Expressions.  Graphs are well typed and acyclic; lowering ends with the nodes in
      order; a lowered program gives the graph's meaning on the inputs it declares and
      refuses every other.
    - The six-card model.  It offers exactly the actions it accepts; every claim of its
      catalog holds wherever play can get to; every play takes twenty transitions; a
      round is settled by the score table; a deal tells a player their hand and the
      trump only; the kernels compute the rules.
    - Exploration.  The explorer finds every game play can reach, each once, with its
      distance and a shortest trace, and never runs out of identifiers; a counterexample is
      a shortest one; the safety pass accepts every explored graph.  On any graph the
      liveness pass reports exactly the stuck states, the edges that do not descend, the
      strongly connected components with a cycle, and a real lasso when there is one; on the
      six-card model it reports that every play terminates, and it notices an injected loop
      and removed successors.
    - The table.  A released object is put in the one zone that holds it, or the reason
      none does is named (off the table, free, between volumes, several zones), never an
      arbitrary choice; realizing a projection on a registered
      layout and reading it back gives the projection; a card dragged to the play area is
      the play that names it, recorded with its slot of the hand, and the command it becomes
      is the one typed; the
      fingerprint of a scene covers every field of it.

    ** Fuel and bounds

    Loops whose recursion is not structural take fuel with a proof that it is
    enough: [auto_loop] of Rl.v needs no more turns than a game has transitions;
    [rejection_loop] has, from every generator state, a number of draws after which
    it answers; [drive_all] takes one turn more than the queue holds; [drain] of
    ReplicatedLog.v takes one turn more than there are buffered heights; [lower_loop] of
    Formal.v takes two turns for each instruction it emits; a kernel is lowered with
    [kernel_fuel] = 300, more than twice the instructions of the longest; the search of
    Explore.v takes one turn for each state it numbers, fewer than 2^32; a visit of
    Liveness.v nests at most as deep as there are states.  Session properties of counters assume [headroom]: revision, chat count
    and projection epoch are at least three, one and one below 2^64.

    ** Parameters

    Third-party code is a parameter: the JSON of payloads and frames
    ([payload_json], the class [Serde]) with the laws [serde_laws] where a theorem
    needs parsing to undo printing ([GovernanceSerde], [ReplicationSerde], [CaptureSerde],
    [ActionSerde] and [GatewaySerde] for theirs), the interpreter Weavy that runs lowered
    expressions (the class [Weavy], of straight-line code), the hash [blake3], the signature verifier of the replicated session and Ed25519.  Where
    agreement rests on the hash or on signatures, the theorem says so in its hypotheses.

    ** Not modelled

    - Statistics and transcripts of learners (poche-rl: batch.rs, evaluation.rs,
      transcript.rs, benchmark.rs; poche-burn): floating-point aggregates, timings and
      learning on the Burn library.
    - Scripted checks and comparisons (poche-check: session.rs, spatial.rs, evidence.rs;
      poche-conformance, poche-native-tools, poche-interchange): fixed scenarios over the
      crates modelled here, harnesses that run other provers, and records carried through
      third-party libraries.
    - Composition with transports and storage (poche-runtime: device_client.rs,
      transcript.rs, trustless.rs, text.rs, accusation.rs; poche-player-client,
      poche-puppet, poche-capture): input and output, protected key storage, images and
      process control around the parts modelled here.
    - Cryptography wrappers, rendering, user interfaces, networking, command line
      (poche-crypto-prototype, poche-slug, poche-ui, poche-native-ui, poche-veilid,
      poche-web-spike, poche-cli, poche-xtask): glue around third-party libraries.

    Of the modelled crates the following is left out: serde derives and [Display]
    texts; read-only accessors that return a field; hash iteration order, which the
    code does not use (its maps are ordered).  References and clones are values:
    the code mutates through [&mut self] only, which is explicit state passing here. *)

From stdpp Require Import base strings numbers option list sorting.

(** ** Outcomes

    A Rust function returns a value, returns its error type, or panics
    ([expect], an index out of range, an arithmetic overflow under the checked
    profile).  The three cases are kept apart so that absence of panics is
    itself a theorem. *)
Inductive outcome (E A : Type) : Type :=
  | Ok (a : A)
  | Err (e : E)
  | Panic.
Arguments Ok {_ _} _.
Arguments Err {_ _} _.
Arguments Panic {_ _}.

#[export] Instance outcome_ret {E} : MRet (outcome E) := λ A a, Ok a.

#[export] Instance outcome_bind {E} : MBind (outcome E) :=
  λ A B f m, match m with Ok a => f a | Err e => Err e | Panic => Panic end.

#[export] Instance outcome_fmap {E} : FMap (outcome E) :=
  λ A B f m, match m with Ok a => Ok (f a) | Err e => Err e | Panic => Panic end.

#[export] Instance outcome_eq_dec {E A} `{EqDecision E, EqDecision A} :
  EqDecision (outcome E A).
Proof. solve_decision. Defined.

Declare Scope poche_scope.
Delimit Scope poche_scope with poche.

(** [?] on a Boolean guard: continue when it holds, otherwise return the error. *)
Definition ensure {E} (b : bool) (e : E) : outcome E unit :=
  if b then Ok tt else Err e.

(** [Option::expect] *)
Definition expect {E A} (m : option A) : outcome E A :=
  match m with Some a => Ok a | None => Panic end.

(** [Option::ok_or] *)
Definition ok_or {E A} (m : option A) (e : E) : outcome E A :=
  match m with Some a => Ok a | None => Err e end.

(** [Result::expect] *)
Definition expect_ok {E E' A} (m : outcome E A) : outcome E' A :=
  match m with Ok a => Ok a | _ => Panic end.

(** [Result::map_err] *)
Definition map_err {E E' A} (f : E → E') (m : outcome E A) : outcome E' A :=
  match m with Ok a => Ok a | Err e => Err (f e) | Panic => Panic end.

(** [Result::ok] *)
Definition ok {E E' A} (m : outcome E A) : outcome E' (option A) :=
  match m with Ok a => Ok (Some a) | Err _ => Ok None | Panic => Panic end.

(** [iter().filter_map(..).collect()] *)
Fixpoint filter_mapM {E A B} (f : A → outcome E (option B)) (l : list A) : outcome E (list B) :=
  match l with
  | [] => Ok []
  | x :: l => o ← f x; rest ← filter_mapM f l; Ok (option_list o ++ rest)
  end.

Definition is_ok {E A} (m : outcome E A) : bool :=
  match m with Ok _ => true | _ => false end.

(** A loop whose body may return early or panic. *)
Fixpoint foldM {E A B} (f : A → B → outcome E A) (l : list B) (a : A) : outcome E A :=
  match l with
  | [] => Ok a
  | x :: l => a' ← f a x; foldM f l a'
  end.

Lemma bind_Ok {E A B} (m : outcome E A) (f : A → outcome E B) b :
  m ≫= f = Ok b ↔ ∃ a, m = Ok a ∧ f a = Ok b.
Proof. destruct m; naive_solver. Qed.

Lemma bind_Err {E A B} (m : outcome E A) (f : A → outcome E B) e :
  m ≫= f = Err e ↔ m = Err e ∨ ∃ a, m = Ok a ∧ f a = Err e.
Proof. destruct m; naive_solver. Qed.

Lemma bind_Panic {E A B} (m : outcome E A) (f : A → outcome E B) :
  m ≫= f = Panic ↔ m = Panic ∨ ∃ a, m = Ok a ∧ f a = Panic.
Proof. destruct m; naive_solver. Qed.

Lemma bind_Ok_r {E A} (m : outcome E A) : m ≫= Ok = m.
Proof. by destruct m. Qed.

Lemma bind_assoc {E A B C} (m : outcome E A) (f : A → outcome E B) (g : B → outcome E C) :
  (m ≫= f) ≫= g = m ≫= (λ a, f a ≫= g).
Proof. by destruct m. Qed.

Lemma ensure_Ok {E} b (e : E) u : ensure b e = Ok u ↔ b = true.
Proof. destruct b, u; naive_solver. Qed.

Lemma ensure_Err {E} b (e e' : E) : ensure b e = Err e' ↔ b = false ∧ e = e'.
Proof. destruct b; naive_solver. Qed.

Lemma expect_Ok {E A} (m : option A) (a : A) : expect (E := E) m = Ok a ↔ m = Some a.
Proof. destruct m; naive_solver. Qed.

Lemma ok_or_Ok {E A} (m : option A) (e : E) (a : A) : ok_or m e = Ok a ↔ m = Some a.
Proof. destruct m; naive_solver. Qed.

Lemma expect_ok_Ok {E E' A} (m : outcome E A) (a : A) :
  expect_ok (E' := E') m = Ok a ↔ m = Ok a.
Proof. destruct m; naive_solver. Qed.

Lemma map_err_Ok {E E' A} (f : E → E') (m : outcome E A) (a : A) :
  map_err f m = Ok a ↔ m = Ok a.
Proof. destruct m; naive_solver. Qed.

(** Inverts the successful run of a monadic program, one step at a time. *)
Ltac inv_ok_step :=
  match goal with
  | H : mbind _ _ = Ok _ |- _ =>
      apply bind_Ok in H; let a := fresh "a" in destruct H as (a & ? & H)
  | H : ensure _ _ = Ok _ |- _ => apply ensure_Ok in H
  | H : expect _ = Ok _ |- _ => apply expect_Ok in H
  | H : ok_or _ _ = Ok _ |- _ => apply ok_or_Ok in H
  | H : expect_ok _ = Ok _ |- _ => apply expect_ok_Ok in H
  | H : map_err _ _ = Ok _ |- _ => apply map_err_Ok in H
  | H : Ok _ = Ok _ |- _ => injection H as H
  | H : mret _ = Ok _ |- _ => injection H as H
  | H : Err _ = Ok _ |- _ => discriminate H
  | H : Panic = Ok _ |- _ => discriminate H
  end.

Ltac inv_ok := repeat (inv_ok_step; simplify_eq).

(** Splits on the scrutinee of an [if] or a [match] in hypothesis [H]. *)
Ltac case_in H :=
  match type of H with
  | context [match ?x with _ => _ end] => destruct x eqn:?
  end.

Section foldM.
Context {E A B : Type} (f : A → B → outcome E A).

Lemma foldM_cons x l a : foldM f (x :: l) a = f a x ≫= foldM f l.
Proof. done. Qed.

Lemma foldM_app l1 l2 a : foldM f (l1 ++ l2) a = foldM f l1 a ≫= foldM f l2.
Proof.
  revert a; induction l1 as [|x l1 IH]; intros a; simpl; [done|].
  destruct (f a x); simpl; auto.
Qed.

Lemma foldM_snoc l x a : foldM f (l ++ [x]) a = foldM f l a ≫= λ a', f a' x.
Proof. rewrite foldM_app. destruct (foldM f l a); simpl; [|done..]. by destruct (f a0 x). Qed.

(** Loop rule: an invariant indexed by the prefix already processed. *)
Lemma foldM_invariant (P : list B → A → Prop) l a :
  P [] a →
  (∀ pre x post a, l = pre ++ x :: post → P pre a → ∃ a', f a x = Ok a' ∧ P (pre ++ [x]) a') →
  ∃ a', foldM f l a = Ok a' ∧ P l a'.
Proof.
  intros H0 Hstep. cut (∀ pre post a, l = pre ++ post → P pre a →
    ∃ a', foldM f post a = Ok a' ∧ P l a').
  { intros H. by apply (H [] l a). }
  intros pre post; revert pre.
  induction post as [|x post IH]; intros pre b Hl HP; simpl.
  { exists b. rewrite Hl, app_nil_r. by rewrite ?app_nil_r in Hl |- *. }
  destruct (Hstep pre x post b Hl HP) as (b' & -> & HP'). simpl.
  apply (IH (pre ++ [x])); [|done]. by rewrite <-app_assoc.
Qed.
End foldM.

(** ** Iterators *)

(** [iter().position(..)] *)
Fixpoint position {A} (P : A → bool) (l : list A) : option nat :=
  match l with
  | [] => None
  | x :: l => if P x then Some 0 else S <$> position P l
  end.

Lemma position_spec {A} (f : A → bool) l :
  match position f l with
  | Some i => ∃ x, l !! i = Some x ∧ f x = true ∧ ∀ j y, j < i → l !! j = Some y → f y = false
  | None => ∀ x, x ∈ l → f x = false
  end.
Proof.
  induction l as [|x l IH]; cbn [position]; [by intros x ?%elem_of_nil|]. destruct (f x) eqn:Hx.
  - exists x. split_and!; [done|done|lia].
  - destruct (position f l) as [i|]; cbn [fmap option_fmap option_map].
    + destruct IH as (y & Hy & Hf & Hmin). exists y. split_and!; [done|done|].
      intros [|j] z Hj Hz; cbn in Hz; [by simplify_eq|]. eapply Hmin; [|exact Hz]. lia.
    + intros y [->|Hy]%elem_of_cons; auto.
Qed.

(** [Iterator::max_by_key] keeps the last of the greatest elements: [gt acc y]
    says that the key of [acc] exceeds the key of [y]. *)
Definition max_by {A} (gt : A → A → bool) (first : A) (rest : list A) : A :=
  foldl (λ acc y, if gt acc y then acc else y) first rest.

(** [Option::is_some_and] *)
Definition is_some_and {A} (m : option A) (p : A → bool) : bool :=
  match m with Some a => p a | None => false end.

(** Some element and a later one satisfy [rel]:
    [iter().enumerate().any(|(i, a)| l\[i + 1..\].iter().any(|b| rel(a, b)))] *)
Fixpoint later_pair {A} (rel : A → A → bool) (l : list A) : bool :=
  match l with
  | [] => false
  | a :: l => existsb (rel a) l || later_pair rel l
  end.

Section Sorting.
Context {A : Type} (le : A → A → bool).

Fixpoint insert_by (x : A) (l : list A) : list A :=
  match l with
  | [] => [x]
  | y :: rest => if le x y then x :: l else y :: insert_by x rest
  end.

(** [slice::sort_by], a stable sort: [le x y] says that the comparison of [x] with
    [y] is not [Greater]. *)
Fixpoint sort_by (l : list A) : list A :=
  match l with
  | [] => []
  | x :: l => insert_by x (sort_by l)
  end.

Lemma insert_by_perm x l : insert_by x l ≡ₚ x :: l.
Proof. induction l as [|y l IH]; simpl; [done|]. destruct (le x y); [done|]. rewrite IH. constructor. Qed.

Lemma sort_by_perm l : sort_by l ≡ₚ l.
Proof. induction l as [|x l IH]; simpl; [done|]. by rewrite insert_by_perm, IH. Qed.

Lemma elem_of_sort_by x l : x ∈ sort_by l ↔ x ∈ l.
Proof. by rewrite sort_by_perm. Qed.

Hypothesis le_total : ∀ x y, le x y = false → le y x = true.
Hypothesis le_trans : ∀ x y z, le x y = true → le y z = true → le x z = true.

Lemma insert_by_sorted x l : StronglySorted (λ x y, le x y = true) l → StronglySorted (λ x y, le x y = true) (insert_by x l).
Proof.
  induction 1 as [|y l Hs IH Hy]; simpl; [by repeat constructor|].
  destruct (le x y) eqn:Hxy.
  - constructor; [by constructor|]. constructor; [done|]. eapply Forall_impl; [exact Hy|]. eauto.
  - constructor; [done|]. rewrite insert_by_perm. constructor; auto.
Qed.

Lemma sort_by_sorted l : StronglySorted (λ x y, le x y = true) (sort_by l).
Proof. induction l as [|x l IH]; simpl; [constructor|]. by apply insert_by_sorted. Qed.
End Sorting.

(** ** Machine integers

    An unsigned [w]-bit integer is a [Z] in [0, 2^w).  The checked operations
    panic on overflow, as rustc's arithmetic does under overflow checks; the
    wrapping and saturating ones are total. *)
Section Words.
Local Open Scope Z_scope.

Definition umax (w : Z) : Z := 2 ^ w - 1.

Definition in_width (w x : Z) : Prop := 0 ≤ x < 2 ^ w.

Definition in_widthb (w x : Z) : bool := (0 <=? x) && (x <? 2 ^ w).

(** [x] if it is representable on [w] bits *)
Definition checked (w x : Z) : option Z := if in_widthb w x then Some x else None.

Definition u_add {E} (w a b : Z) : outcome E Z := expect (checked w (a + b)).
Definition u_sub {E} (w a b : Z) : outcome E Z := expect (checked w (a - b)).
Definition u_mul {E} (w a b : Z) : outcome E Z := expect (checked w (a * b)).

Definition wrapping_add (w a b : Z) : Z := (a + b) mod 2 ^ w.
Definition wrapping_mul (w a b : Z) : Z := (a * b) mod 2 ^ w.
Definition saturating_sub (a b : Z) : Z := Z.max 0 (a - b).
Definition saturating_add (w a b : Z) : Z := Z.min (umax w) (a + b).

(** [leading_zeros] of a [w]-bit integer *)
Definition leading_zeros (w x : Z) : Z := if x =? 0 then w else w - (Z.log2 x + 1).

(** [i32] *)
Definition i32_min : Z := -2147483648.
Definition i32_max : Z := 2147483647.
Definition in_i32 (v : Z) : bool := (i32_min <=? v) && (v <=? i32_max).

(** [i32::checked_add] *)
Definition i32_checked_add (a b : Z) : option Z := if in_i32 (a + b) then Some (a + b) else None.

Lemma in_widthb_spec w x : in_widthb w x = true ↔ in_width w x.
Proof. unfold in_widthb, in_width. lia. Qed.

Lemma checked_Some w x y : checked w x = Some y ↔ x = y ∧ in_width w x.
Proof.
  unfold checked. destruct (in_widthb w x) eqn:Hx; [|split; [done|]].
  - apply in_widthb_spec in Hx. naive_solver.
  - intros [-> H%in_widthb_spec]. congruence.
Qed.

Lemma u_add_ok {E} w a b : in_width w (a + b) → u_add (E := E) w a b = Ok (a + b).
Proof. intros H. apply expect_Ok, checked_Some. done. Qed.

Lemma u_mul_ok {E} w a b : in_width w (a * b) → u_mul (E := E) w a b = Ok (a * b).
Proof. intros H. apply expect_Ok, checked_Some. done. Qed.

Lemma u_sub_ok {E} w a b : in_width w (a - b) → u_sub (E := E) w a b = Ok (a - b).
Proof. intros H. apply expect_Ok, checked_Some. done. Qed.

Lemma u_add_Ok {E} w a b c : u_add (E := E) w a b = Ok c ↔ c = a + b ∧ in_width w c.
Proof. unfold u_add. rewrite expect_Ok, checked_Some. naive_solver. Qed.

Lemma in_width_mono w w' x : 0 ≤ w ≤ w' → in_width w x → in_width w' x.
Proof.
  unfold in_width. intros. pose proof (Z.pow_le_mono_r 2 w w'). lia.
Qed.

Lemma wrapping_add_in_width w a b : 0 ≤ w → in_width w (wrapping_add w a b).
Proof. intros. apply Z.mod_pos_bound, Z.pow_pos_nonneg; lia. Qed.

Lemma wrapping_mul_in_width w a b : 0 ≤ w → in_width w (wrapping_mul w a b).
Proof. intros. apply Z.mod_pos_bound, Z.pow_pos_nonneg; lia. Qed.
End Words.

#[global] Arguments u_add : simpl never.
#[global] Arguments u_sub : simpl never.
#[global] Arguments u_mul : simpl never.
#[global] Arguments checked : simpl never.

Create HintDb poche.
#[export] Hint Rewrite @bind_Ok @ensure_Ok @expect_Ok @ok_or_Ok @expect_ok_Ok @map_err_Ok : poche.
#[export] Hint Resolve wrapping_add_in_width wrapping_mul_in_width : poche.

(** ** Changing one element *)

(** [iter_mut().find(..)]: the first element that satisfies [P], changed by [f] *)
Fixpoint update_first {A} (P : A → bool) (f : A → A) (l : list A) : option (list A) :=
  match l with
  | [] => None
  | x :: l => if P x then Some (f x :: l) else cons x <$> update_first P f l
  end.

Lemma update_first_Some {A} (P : A → bool) (f : A → A) l l' : update_first P f l = Some l' ↔
  ∃ l1 x l2, l = l1 ++ x :: l2 ∧ l' = l1 ++ f x :: l2 ∧ P x = true ∧ Forall (λ y, P y = false) l1.
Proof.
  revert l'. induction l as [|x l IH]; intros l'; cbn.
  { split; [done|]. intros ([|? ?] & ? & ? & ? & _); discriminate. }
  destruct (P x) eqn:HP.
  - split.
    + intros [= <-]. exists [], x, l. by repeat constructor.
    + intros ([|y l1] & z & l2 & [= -> ->] & -> & Hz & Hall); [done|]. apply Forall_cons in Hall as [Hy _]. congruence.
  - destruct (update_first P f l) as [r|] eqn:Hr; cbn.
    + pose proof (proj1 (IH r) eq_refl) as (l1 & y & l2 & -> & -> & Hy & Hall). split.
      * intros [= <-]. exists (x :: l1), y, l2. by repeat constructor.
      * intros ([|z l3] & w & l4 & [= -> Hl] & -> & Hw & Hall'); [congruence|]. apply Forall_cons in Hall' as [_ Hall'].
        cbn. do 2 f_equal. assert (Some (l1 ++ f y :: l2) = Some (l3 ++ f w :: l4)) as [=]; [|done].
        apply IH. by exists l3, w, l4.
    + split; [done|]. intros ([|z l3] & w & l4 & [= -> Hl] & -> & Hw & Hall'); [congruence|].
      apply Forall_cons in Hall' as [_ Hall']. assert (None = Some (l3 ++ f w :: l4)); [|done].
      apply IH. by exists l3, w, l4.
Qed.

(** No key of a list is repeated exactly when the scan for clashing pairs finds none. *)
Lemma later_pair_key {A K} `{EqDecision K} (key : A → K) l :
  later_pair (λ a b, bool_decide (key b = key a)) l = false ↔ NoDup (key <$> l).
Proof.
  induction l as [|a l IH]; cbn [later_pair fmap list_fmap]; [split; [constructor|done]|].
  rewrite orb_false_iff, IH, NoDup_cons. f_equiv. rewrite list_elem_of_fmap. split.
  - intros Hf (b & Hb & Hin). assert (existsb (λ b, bool_decide (key b = key a)) l = true) as Ht; [|congruence].
    apply existsb_exists. exists b. split; [by apply list_elem_of_In|]. by apply bool_decide_eq_true.
  - intros Hn. destruct (existsb _ _) eqn:E; [|done]. exfalso. apply Hn.
    apply existsb_exists in E as (b & Hb%list_elem_of_In & Hk%bool_decide_eq_true). by exists b.
Qed.

(** ** Lists searched and filtered by a Boolean *)

Lemma List_find_Some {A} (P : A → bool) l x : List.find P l = Some x → x ∈ l ∧ P x = true.
Proof. intros [Hin HP]%List.find_some. split; [by apply list_elem_of_In|done]. Qed.

Lemma List_find_None {A} (P : A → bool) l : List.find P l = None ↔ ∀ x, x ∈ l → P x = false.
Proof.
  split.
  - intros Hf x Hin%list_elem_of_In. by eapply List.find_none.
  - induction l as [|x l IH]; cbn; [done|]. intros Hall. rewrite Hall by left. apply IH. intros y Hy. apply Hall. by right.
Qed.

Lemma existsb_false_iff {A} (P : A → bool) l : existsb P l = false ↔ Forall (λ x, P x = false) l.
Proof.
  induction l as [|x l IH]; cbn; [split; [constructor|done]|]. rewrite orb_false_iff, IH, Forall_cons. done.
Qed.

Lemma existsb_neg_false {A} (P : A → bool) l : existsb (λ x, negb (P x)) l = false ↔ ∀ x, x ∈ l → P x = true.
Proof.
  induction l as [|y l IH]; cbn; [split; [intros _ x Hx; by apply elem_of_nil in Hx|done]|].
  rewrite orb_false_iff, negb_false_iff, IH. split.
  - intros [Hy Hl] x [->|Hx]%elem_of_cons; auto.
  - intros Hall. split; [apply Hall; left|]. intros x Hx. apply Hall. by right.
Qed.

Lemma filter_Permutation {A} (P : A → bool) l k : l ≡ₚ k → List.filter P l ≡ₚ List.filter P k.
Proof.
  induction 1 as [|x l k _ IH|x y l|l1 l2 l3 _ IH1 _ IH2]; cbn; [done| | |by etrans].
  - destruct (P x); [by constructor|done].
  - destruct (P x), (P y); try done. by constructor.
Qed.

Lemma filter_fmap {A B} (f : A → B) (P : B → bool) l : List.filter P (f <$> l) = f <$> List.filter (λ x, P (f x)) l.
Proof. induction l as [|x l IH]; [done|]. cbn. rewrite IH. by destruct (P (f x)). Qed.

Lemma filter_ext_in {A} (P Q : A → bool) l : (∀ x, P x = Q x) → List.filter P l = List.filter Q l.
Proof. intros He. induction l as [|x l IH]; [done|]. cbn. by rewrite IH, He. Qed.

Lemma filter_length_mono {A} (P Q : A → bool) l : (∀ x, x ∈ l → P x = true → Q x = true) →
  length (List.filter P l) <= length (List.filter Q l).
Proof.
  induction l as [|x l IH]; intros Hi; [done|]. cbn. pose proof (IH (λ y Hy, Hi y (list_elem_of_further _ _ _ Hy))).
  pose proof (Hi x ltac:(left)). destruct (P x), (Q x); cbn; try lia; naive_solver.
Qed.
