(* ===== verification/Methods.v ===== *)
(** * Methods on mutable objects

    A Rust method on [&mut self] that returns a [Result] keeps, when it fails, what
    it had already changed.  [M S E A] is such a method: it gives the new object
    whatever its result. *)

From stdpp Require Import base list.
From S2P Require Import Prelude.

Definition M (S E A : Type) : Type := S → S * outcome E A.

#[export] Instance M_ret {S E} : MRet (M S E) := λ A a s, (s, Ok a).

#[export] Instance M_bind {S E} : MBind (M S E) := λ A B f m s,
  match m s with
  | (s, Ok a) => f a s
  | (s, Err e) => (s, Err e)
  | (s, Panic) => (s, Panic)
  end.

Definition read {S E A} (f : S → A) : M S E A := λ s, (s, Ok (f s)).
Definition update {S E} (f : S → S) : M S E unit := λ s, (f s, Ok tt).
Definition lift {S E A} (m : outcome E A) : M S E A := λ s, (s, m).
Definition throw {S E A} (e : E) : M S E A := λ s, (s, Err e).

(** [for x in l { .. }] with [?] in its body *)
Fixpoint for_each {S E A} (f : A → M S E unit) (l : list A) : M S E unit :=
  match l with
  | [] => mret tt
  | x :: l => _ ← f x; for_each f l
  end.

(** ** Runs of methods *)

Section Runs.
Context {S E A B : Type}.

Lemma M_bind_Ok (m : M S E A) (f : A → M S E B) s s' b :
  (m ≫= f) s = (s', Ok b) ↔ ∃ s1 a, m s = (s1, Ok a) ∧ f a s1 = (s', Ok b).
Proof. unfold mbind, M_bind. destruct (m s) as [s1 [a|e|]]; naive_solver. Qed.

(** A relation between the states before and after, whatever the result. *)
Definition steps_by (R : S → S → Prop) (m : M S E A) : Prop := ∀ s, R s (m s).1.

Lemma read_Ok (f : S → A) s s' a : read (E := E) f s = (s', Ok a) ↔ s' = s ∧ a = f s.
Proof. unfold read. naive_solver. Qed.

Lemma lift_Ok (m : outcome E A) (s s' : S) a : lift m s = (s', Ok a) ↔ s' = s ∧ m = Ok a.
Proof. unfold lift. naive_solver. Qed.

Lemma update_Ok (f : S → S) s s' a : update (E := E) f s = (s', Ok a) ↔ s' = f s.
Proof. unfold update. destruct a. naive_solver. Qed.

Lemma mret_Ok (a b : A) (s s' : S) : (mret a : M S E A) s = (s', Ok b) ↔ s' = s ∧ b = a.
Proof. unfold mret, M_ret. naive_solver. Qed.
End Runs.

Section StepsBy.
Context {S E : Type} (R : S → S → Prop) `{!PreOrder R}.

Lemma steps_bind {A B} (m : M S E A) (f : A → M S E B) :
  steps_by R m → (∀ a, steps_by R (f a)) → steps_by R (m ≫= f).
Proof.
  intros Hm Hf s. unfold mbind, M_bind. specialize (Hm s). destruct (m s) as [s1 [a|e|]]; [|done..].
  etrans; [exact Hm|apply Hf].
Qed.

Lemma steps_read {A} (f : S → A) : steps_by R (read (E := E) f).
Proof. intros s. done. Qed.

Lemma steps_lift {A} (m : outcome E A) : steps_by R (lift m).
Proof. intros s. done. Qed.

Lemma steps_throw {A} (e : E) : steps_by (A := A) R (throw e).
Proof. intros s. done. Qed.

Lemma steps_ret {A} (a : A) : steps_by R (mret a : M S E A).
Proof. intros s. done. Qed.

Lemma steps_for_each {A} (f : A → M S E unit) l : (∀ x, steps_by R (f x)) → steps_by R (for_each f l).
Proof. intros Hf. induction l; simpl; [apply steps_ret|]. by apply steps_bind. Qed.
End StepsBy.

(** Inverts successful runs of methods, one step at a time. *)
Ltac inv_M :=
  repeat match goal with
  | H : mbind _ _ _ = (_, Ok _) |- _ =>
      apply M_bind_Ok in H; let s := fresh "s" in let x := fresh "x" in let Hm := fresh "Hm" in
      destruct H as (s & x & Hm & H); cbv beta in H
  | H : read _ _ = (_, Ok _) |- _ => apply read_Ok in H; destruct H as [? ?]; subst
  | H : lift _ _ = (_, Ok _) |- _ => apply lift_Ok in H; destruct H as [? H]; subst
  | H : update _ _ = (_, Ok _) |- _ => apply update_Ok in H; subst
  | H : mret _ _ = (_, Ok _) |- _ => apply mret_Ok in H; destruct H as [? ?]; subst
  | H : throw _ _ = (_, Ok _) |- _ => discriminate H
  | H : ok_or _ _ = Ok _ |- _ => apply ok_or_Ok in H
  | H : expect _ = Ok _ |- _ => apply expect_Ok in H
  | H : map_err _ _ = Ok _ |- _ => apply map_err_Ok in H
  end.
