(* ===== verification/Domain.v ===== *)
(** * Finite domains (crates/poche-domain)

    The [FiniteDomain] trait, the semantic refinements built on it, the card
    names and the selected-scope wire shape.  Definitions only; their laws are
    in [DomainLaws].  [u128], [u8] and [usize] values are [Z]; const-generic
    parameters are the parameters of the types. *)

From S2P Require Import Prelude.
From stdpp Require Import base strings numbers option list.

Local Open Scope Z_scope.

Inductive DecodeError : Type :=
  | OutOfRange (code cardinality : Z) (domain : string)
  | InvalidRefinement (refinement reason : string).

#[export] Instance DecodeError_eq_dec : EqDecision DecodeError.
Proof. solve_decision. Defined.

(** The trait's required methods.  [cardinality] and [encode] may panic
    (a checked product, a set too wide for its mask). *)
Class FiniteDomain (A : Type) : Type := {
  cardinality : outcome DecodeError Z;
  encode : A → outcome DecodeError Z;
  decode : Z → outcome DecodeError A;
}.
Arguments cardinality A {_}.

Definition out_of_range (A : Type) `{FiniteDomain A} {B} (code : Z) (domain : string)
    : outcome DecodeError B :=
  card ← cardinality A; Err (OutOfRange code card domain).

(** Provided method: every value in increasing code order. *)
Definition enumerate (A : Type) `{FiniteDomain A} : outcome DecodeError (list A) :=
  card ← cardinality A; mapM (λ code, expect_ok (decode code)) (seqZ 0 card).

(** Provided method: bits of the largest code. *)
Definition bit_width (A : Type) `{FiniteDomain A} : outcome DecodeError Z :=
  card ← cardinality A;
  let maximum := saturating_sub card 1 in
  Ok (128 - leading_zeros 128 maximum).

(** ** Bounded integers *)

Record BoundedU8 (MIN MAX : Z) : Type := BoundedU8Of { bounded_get : Z }.
Arguments BoundedU8Of {_ _} _.
Arguments bounded_get {_ _} _.

Definition BoundedU8_new (MIN MAX : Z) (value : Z) : outcome DecodeError (BoundedU8 MIN MAX) :=
  if (MIN <=? MAX) && (MIN <=? value) && (value <=? MAX) then Ok (BoundedU8Of value)
  else Err (InvalidRefinement "BoundedU8" "value is outside inclusive bounds").

Definition BoundedU8_cardinality (MIN MAX : Z) : outcome DecodeError Z :=
  u_add 128 (saturating_sub MAX MIN) (if MIN <=? MAX then 1 else 0).

Definition BoundedU8_encode {MIN MAX : Z} (b : BoundedU8 MIN MAX) : outcome DecodeError Z :=
  u_sub 8 (bounded_get b) MIN.

Definition BoundedU8_decode (MIN MAX : Z) (code : Z) : outcome DecodeError (BoundedU8 MIN MAX) :=
  card ← BoundedU8_cardinality MIN MAX;
  if card <=? code then Err (OutOfRange code card "BoundedU8")
  else
    offset ← expect (checked 8 code);
    value ← u_add 8 MIN offset;
    Ok (BoundedU8Of value).

#[export] Instance BoundedU8_domain MIN MAX : FiniteDomain (BoundedU8 MIN MAX) := {|
  cardinality := BoundedU8_cardinality MIN MAX;
  encode := BoundedU8_encode;
  decode := BoundedU8_decode MIN MAX;
|}.

(** A supported player count, 2 through 51. *)
Record PlayerCount : Type := PlayerCountOf { player_count_inner : BoundedU8 2 51 }.

Definition PlayerCount_new (value : Z) : outcome DecodeError PlayerCount :=
  PlayerCountOf <$> BoundedU8_new 2 51 value.

Definition PlayerCount_get (p : PlayerCount) : Z := bounded_get (player_count_inner p).

#[export] Instance PlayerCount_domain : FiniteDomain PlayerCount := {|
  cardinality := cardinality (BoundedU8 2 51);
  encode := λ p, encode (player_count_inner p);
  decode := λ code, PlayerCountOf <$> decode code;
|}.

(** [Bid<HAND_SIZE>], [MicroSuit], [MicroRank] are bounded integers. *)
Definition Bid (HAND_SIZE : Z) : Type := BoundedU8 0 HAND_SIZE.
Definition MicroSuit : Type := BoundedU8 0 1.
Definition MicroRank : Type := BoundedU8 0 2.

(** ** Enumerated components of the micro scope *)

Inductive MicroPhase : Type := AwaitingDeal | Bidding | Playing | Scoring | Finished.

Definition MicroPhase_encode (p : MicroPhase) : Z :=
  match p with
  | AwaitingDeal => 0 | Bidding => 1 | Playing => 2 | Scoring => 3 | Finished => 4
  end.

Definition MicroPhase_decode (code : Z) : outcome DecodeError MicroPhase :=
  match code with
  | 0 => Ok AwaitingDeal
  | 1 => Ok Bidding
  | 2 => Ok Playing
  | 3 => Ok Scoring
  | 4 => Ok Finished
  | _ => Err (OutOfRange code 5 "MicroPhase")
  end.

#[export] Instance MicroPhase_domain : FiniteDomain MicroPhase := {|
  cardinality := Ok 5;
  encode := λ p, Ok (MicroPhase_encode p);
  decode := MicroPhase_decode;
|}.

Inductive MicroTurn : Type :=
  | TurnChance | TurnPlayer0 | TurnPlayer1 | TurnEnvironment | TurnFinished.

Definition MicroTurn_encode (t : MicroTurn) : Z :=
  match t with
  | TurnChance => 0 | TurnPlayer0 => 1 | TurnPlayer1 => 2
  | TurnEnvironment => 3 | TurnFinished => 4
  end.

Definition MicroTurn_decode (code : Z) : outcome DecodeError MicroTurn :=
  match code with
  | 0 => Ok TurnChance
  | 1 => Ok TurnPlayer0
  | 2 => Ok TurnPlayer1
  | 3 => Ok TurnEnvironment
  | 4 => Ok TurnFinished
  | _ => Err (OutOfRange code 5 "MicroTurn")
  end.

#[export] Instance MicroTurn_domain : FiniteDomain MicroTurn := {|
  cardinality := Ok 5;
  encode := λ t, Ok (MicroTurn_encode t);
  decode := MicroTurn_decode;
|}.

(** Dense identity of one of the six micro cards. *)
Record MicroCardCode : Type := MicroCardCodeOf { micro_card_inner : BoundedU8 0 5 }.

Definition MicroCardCode_new (code : Z) : outcome DecodeError MicroCardCode :=
  MicroCardCodeOf <$> BoundedU8_new 0 5 code.

Definition MicroCardCode_get (c : MicroCardCode) : Z := bounded_get (micro_card_inner c).

#[export] Instance MicroCardCode_domain : FiniteDomain MicroCardCode := {|
  cardinality := Ok 6;
  encode := λ c, encode (micro_card_inner c);
  decode := λ code, MicroCardCodeOf <$> decode code;
|}.

Inductive MicroAction : Type :=
  | Deal | Bid0 | Bid1 | Bid2 | Play (card : MicroCardCode) | Settle.

Definition MicroAction_encode (a : MicroAction) : outcome DecodeError Z :=
  match a with
  | Deal => Ok 0
  | Bid0 => Ok 1
  | Bid1 => Ok 2
  | Bid2 => Ok 3
  | Play card => c ← encode card; u_add 128 4 c
  | Settle => Ok 10
  end.

Definition MicroAction_decode (code : Z) : outcome DecodeError MicroAction :=
  if code =? 0 then Ok Deal
  else if code =? 1 then Ok Bid0
  else if code =? 2 then Ok Bid1
  else if code =? 3 then Ok Bid2
  else if (4 <=? code) && (code <=? 9) then Play <$> decode (code - 4)
  else if code =? 10 then Ok Settle
  else Err (OutOfRange code 11 "MicroAction").

#[export] Instance MicroAction_domain : FiniteDomain MicroAction := {|
  cardinality := Ok 11;
  encode := MicroAction_encode;
  decode := MicroAction_decode;
|}.

Inductive MicroRoundScore : Type := Miss | ExactZero | ExactOne | AllTwo.

Definition MicroRoundScore_points (s : MicroRoundScore) : Z :=
  match s with Miss => 0 | ExactZero => 10 | ExactOne => 11 | AllTwo => 22 end.

Definition MicroRoundScore_encode (s : MicroRoundScore) : Z :=
  match s with Miss => 0 | ExactZero => 1 | ExactOne => 2 | AllTwo => 3 end.

Definition MicroRoundScore_decode (code : Z) : outcome DecodeError MicroRoundScore :=
  match code with
  | 0 => Ok Miss
  | 1 => Ok ExactZero
  | 2 => Ok ExactOne
  | 3 => Ok AllTwo
  | _ => Err (OutOfRange code 4 "MicroRoundScore")
  end.

#[export] Instance MicroRoundScore_domain : FiniteDomain MicroRoundScore := {|
  cardinality := Ok 4;
  encode := λ s, Ok (MicroRoundScore_encode s);
  decode := MicroRoundScore_decode;
|}.

(** ** Indices, options, pairs, arrays, sets *)

Record FiniteIndex (N : Z) : Type := FiniteIndexOf { index_get : Z }.
Arguments FiniteIndexOf {_} _.
Arguments index_get {_} _.

Definition FiniteIndex_new (N : Z) (index : Z) : outcome DecodeError (FiniteIndex N) :=
  if index <? N then Ok (FiniteIndexOf index)
  else Err (InvalidRefinement "FiniteIndex" "index is outside the finite collection").

Definition FiniteIndex_decode (N : Z) (code : Z) : outcome DecodeError (FiniteIndex N) :=
  if N <=? code then Err (OutOfRange code N "FiniteIndex")
  else index ← expect (checked 64 code); Ok (FiniteIndexOf index).

#[export] Instance FiniteIndex_domain N : FiniteDomain (FiniteIndex N) := {|
  cardinality := Ok N;
  encode := λ i, Ok (index_get i);
  decode := FiniteIndex_decode N;
|}.

Record Optional (T : Type) : Type := OptionalOf { optional_value : option T }.
Arguments OptionalOf {_} _.
Arguments optional_value {_} _.

Definition Optional_cardinality (T : Type) `{FiniteDomain T} : outcome DecodeError Z :=
  card ← cardinality T; u_add 128 card 1.

Definition Optional_encode {T} `{FiniteDomain T} (o : Optional T) : outcome DecodeError Z :=
  match optional_value o with
  | None => Ok 0
  | Some value => code ← encode value; u_add 128 code 1
  end.

Definition Optional_decode (T : Type) `{FiniteDomain T} (code : Z)
    : outcome DecodeError (Optional T) :=
  if code =? 0 then Ok (OptionalOf None)
  else
    card ← Optional_cardinality T;
    if code <? card then value ← decode (code - 1); Ok (OptionalOf (Some value))
    else Err (OutOfRange code card "Optional").

#[export] Instance Optional_domain T `{FiniteDomain T} : FiniteDomain (Optional T) := {|
  cardinality := Optional_cardinality T;
  encode := Optional_encode;
  decode := Optional_decode T;
|}.

Record Pair (A B : Type) : Type := PairOf { pair_fst : A; pair_snd : B }.
Arguments PairOf {_ _} _ _.
Arguments pair_fst {_ _} _.
Arguments pair_snd {_ _} _.

Definition Pair_cardinality (A B : Type) `{FiniteDomain A, FiniteDomain B}
    : outcome DecodeError Z :=
  a ← cardinality A; b ← cardinality B; u_mul 128 a b.

Definition Pair_encode {A B} `{FiniteDomain A, FiniteDomain B} (p : Pair A B)
    : outcome DecodeError Z :=
  a ← encode (pair_fst p);
  radix ← cardinality B;
  high ← u_mul 128 a radix;
  b ← encode (pair_snd p);
  u_add 128 high b.

Definition Pair_decode (A B : Type) `{FiniteDomain A, FiniteDomain B} (code : Z)
    : outcome DecodeError (Pair A B) :=
  card ← Pair_cardinality A B;
  if card <=? code then Err (OutOfRange code card "Pair")
  else
    radix ← cardinality B;
    a ← decode (code / radix);
    b ← decode (code mod radix);
    Ok (PairOf a b).

#[export] Instance Pair_domain A B `{FiniteDomain A, FiniteDomain B} : FiniteDomain (Pair A B) := {|
  cardinality := Pair_cardinality A B;
  encode := Pair_encode;
  decode := Pair_decode A B;
|}.

(** [MicroCard = Pair<MicroSuit, MicroRank>] *)
Definition MicroCard : Type := Pair MicroSuit MicroRank.

(** [[T; N]]: a list whose length is [N] (the invariant of the Rust type). *)
Record FixedArray (T : Type) (N : nat) : Type := FixedArrayOf { fixed_items : list T }.
Arguments FixedArrayOf {_ _} _.
Arguments fixed_items {_ _} _.

Definition FixedArray_cardinality (T : Type) (N : nat) `{FiniteDomain T}
    : outcome DecodeError Z :=
  card ← cardinality T; expect (checked 128 (card ^ Z.of_nat N)).

(** the closure of the encoding [fold] *)
Definition FixedArray_encode_step {T} `{FiniteDomain T} (code : Z) (value : T)
    : outcome DecodeError Z :=
  radix ← cardinality T;
  high ← u_mul 128 code radix;
  low ← encode value;
  u_add 128 high low.

Definition FixedArray_encode {T} {N : nat} `{FiniteDomain T} (a : FixedArray T N)
    : outcome DecodeError Z :=
  foldM FixedArray_encode_step (fixed_items a) 0.

(** The decoding loop: [count] digits from the least significant one. *)
Fixpoint FixedArray_digits (T : Type) `{FiniteDomain T} (count : nat) (code : Z)
    : outcome DecodeError (list T) :=
  match count with
  | O => Ok []
  | S count =>
      radix ← cardinality T;
      digit ← decode (code mod radix);
      rest ← FixedArray_digits T count (code / radix);
      Ok (digit :: rest)
  end.

Definition FixedArray_decode (T : Type) (N : nat) `{FiniteDomain T} (code : Z)
    : outcome DecodeError (FixedArray T N) :=
  card ← FixedArray_cardinality T N;
  if card <=? code then Err (OutOfRange code card "FixedArray")
  else reversed ← FixedArray_digits T N code; Ok (FixedArrayOf (reverse reversed)).

#[export] Instance FixedArray_domain T N `{FiniteDomain T} : FiniteDomain (FixedArray T N) := {|
  cardinality := FixedArray_cardinality T N;
  encode := FixedArray_encode;
  decode := FixedArray_decode T N;
|}.

(** A set as its membership mask. *)
Record FiniteSet (T : Type) : Type := FiniteSetOf { set_bits : Z }.
Arguments FiniteSetOf {_} _.
Arguments set_bits {_} _.

(** [assert!(T::cardinality() < 128)] *)
Definition assert_mask_width (T : Type) `{FiniteDomain T} : outcome DecodeError unit :=
  card ← cardinality T; if card <? 128 then Ok tt else Panic.

(** [1_u128 << amount] *)
Definition u128_bit (amount : Z) : outcome DecodeError Z :=
  if amount <? 128 then Ok (Z.shiftl 1 amount) else Panic.

Definition FiniteSet_from_values {T} `{FiniteDomain T} (values : list T)
    : outcome DecodeError (FiniteSet T) :=
  _ ← assert_mask_width T;
  bits ← foldM (λ bits value,
    code ← encode value; bit ← u128_bit code; Ok (Z.lor bits bit)) values 0;
  Ok (FiniteSetOf bits).

Definition FiniteSet_contains {T} `{FiniteDomain T} (s : FiniteSet T) (value : T)
    : outcome DecodeError bool :=
  code ← encode value;
  bit ← u128_bit code;
  Ok (negb (Z.land (set_bits s) bit =? 0)).

Definition FiniteSet_cardinality (T : Type) `{FiniteDomain T} : outcome DecodeError Z :=
  _ ← assert_mask_width T; card ← cardinality T; u128_bit card.

Definition FiniteSet_decode (T : Type) `{FiniteDomain T} (code : Z)
    : outcome DecodeError (FiniteSet T) :=
  card ← FiniteSet_cardinality T;
  if card <=? code then Err (OutOfRange code card "FiniteSet") else Ok (FiniteSetOf code).

#[export] Instance FiniteSet_domain T `{FiniteDomain T} : FiniteDomain (FiniteSet T) := {|
  cardinality := FiniteSet_cardinality T;
  encode := λ s, Ok (set_bits s);
  decode := FiniteSet_decode T;
|}.

(** ** Cards *)

Inductive Suit : Type := Clubs | Diamonds | Hearts | Spades.

Definition Suit_encode (s : Suit) : Z :=
  match s with Clubs => 0 | Diamonds => 1 | Hearts => 2 | Spades => 3 end.

Definition Suit_decode (code : Z) : outcome DecodeError Suit :=
  match code with
  | 0 => Ok Clubs
  | 1 => Ok Diamonds
  | 2 => Ok Hearts
  | 3 => Ok Spades
  | _ => Err (OutOfRange code 4 "Suit")
  end.

#[export] Instance Suit_domain : FiniteDomain Suit := {|
  cardinality := Ok 4;
  encode := λ s, Ok (Suit_encode s);
  decode := Suit_decode;
|}.

(** A rank, 2 through Ace (14). *)
Record Rank : Type := RankOf { rank_inner : BoundedU8 2 14 }.

Definition Rank_new (value : Z) : outcome DecodeError Rank :=
  RankOf <$> BoundedU8_new 2 14 value.

Definition Rank_get (r : Rank) : Z := bounded_get (rank_inner r).

#[export] Instance Rank_domain : FiniteDomain Rank := {|
  cardinality := Ok 13;
  encode := λ r, encode (rank_inner r);
  decode := λ code, RankOf <$> decode code;
|}.

(** A standard card, [suit * 13 + rank]. *)
Record CardId : Type := CardIdOf { card_code : Z }.

#[export] Instance CardId_eq_dec : EqDecision CardId.
Proof. solve_decision. Defined.

Definition CardId_new (suit : Suit) (rank : Rank) : outcome DecodeError CardId :=
  s ← encode suit;
  high ← u_mul 128 s 13;
  r ← encode rank;
  code ← u_add 128 high r;
  code ← expect (checked 8 code);
  Ok (CardIdOf code).

Definition CardId_suit (c : CardId) : outcome DecodeError Suit :=
  expect_ok (Suit_decode (card_code c / 13)).

Definition CardId_rank (c : CardId) : outcome DecodeError Rank :=
  expect_ok (decode (card_code c mod 13)).

Definition CardId_decode (code : Z) : outcome DecodeError CardId :=
  if 52 <=? code then Err (OutOfRange code 52 "CardId")
  else value ← expect (checked 8 code); Ok (CardIdOf value).

#[export] Instance CardId_domain : FiniteDomain CardId := {|
  cardinality := Ok 52;
  encode := λ c, Ok (card_code c);
  decode := CardId_decode;
|}.

(** *** Canonical card names *)

Inductive CardNameError : Type := MalformedCardName.

(** the separator, ASCII 45 *)
Definition dash : Ascii.ascii := Ascii.ascii_of_nat 45.

(** [str::split_once] on an ASCII separator *)
Fixpoint split_once (sep : Ascii.ascii) (value : string) : option (string * string) :=
  match value with
  | EmptyString => None
  | String c rest =>
      if decide (c = sep) then Some (EmptyString, rest)
      else '(before, after) ← split_once sep rest; Some (String c before, after)
  end.

(** [str::contains] on an ASCII character *)
Fixpoint contains_char (sep : Ascii.ascii) (value : string) : bool :=
  match value with
  | EmptyString => false
  | String c rest => if decide (c = sep) then true else contains_char sep rest
  end.

Definition rank_named (name : string) : option Z :=
  if decide (name = "two") then Some 2
  else if decide (name = "three") then Some 3
  else if decide (name = "four") then Some 4
  else if decide (name = "five") then Some 5
  else if decide (name = "six") then Some 6
  else if decide (name = "seven") then Some 7
  else if decide (name = "eight") then Some 8
  else if decide (name = "nine") then Some 9
  else if decide (name = "ten") then Some 10
  else if decide (name = "jack") then Some 11
  else if decide (name = "queen") then Some 12
  else if decide (name = "king") then Some 13
  else if decide (name = "ace") then Some 14
  else None.

Definition suit_named (name : string) : option Suit :=
  if decide (name = "clubs") then Some Clubs
  else if decide (name = "diamonds") then Some Diamonds
  else if decide (name = "hearts") then Some Hearts
  else if decide (name = "spades") then Some Spades
  else None.

Definition parse_card_name (value : string) : outcome CardNameError CardId :=
  '(rank, suit) ← ok_or (split_once dash value) MalformedCardName;
  if contains_char dash suit then Err MalformedCardName
  else
    rank ← ok_or (rank_named rank) MalformedCardName;
    suit ← ok_or (suit_named suit) MalformedCardName;
    rank ← map_err (λ _, MalformedCardName) (Rank_new rank);
    expect_ok (CardId_new suit rank).

(** *** Sequences of distinct cards *)

Record UniqueCards (N : nat) : Type := UniqueCardsOf { unique_cards : list CardId }.
Arguments UniqueCardsOf {_} _.
Arguments unique_cards {_} _.

(** The uniqueness loop: each card is compared with the cards before it. *)
Fixpoint no_repeats (before cards : list CardId) : bool :=
  match cards with
  | [] => true
  | card :: rest =>
      if decide (card ∈ before) then false else no_repeats (before ++ [card]) rest
  end.

Definition UniqueCards_new (N : nat) (cards : list CardId) : outcome DecodeError (UniqueCards N) :=
  if (52 <? N)%nat
  then Err (InvalidRefinement "UniqueCards" "more cards requested than exist in the deck")
  else if no_repeats [] cards then Ok (UniqueCardsOf cards)
  else Err (InvalidRefinement "UniqueCards" "duplicate card").

Definition UniqueCards_cardinality (N : nat) : outcome DecodeError Z :=
  if (52 <? N)%nat then Panic
  else foldM (λ total index, radix ← u_sub 64 52 (Z.of_nat index); u_mul 128 total radix)
         (seq 0 N) 1.

(** [iter().position] *)
Fixpoint list_position {A} (P : A → bool) (l : list A) : option nat :=
  match l with
  | [] => None
  | x :: l => if P x then Some 0%nat else S <$> list_position P l
  end.

Fixpoint UniqueCards_encode_loop (available : list CardId) (index : nat) (cards : list CardId)
    (code : Z) : outcome DecodeError Z :=
  match cards with
  | [] => Ok code
  | card :: rest =>
      position ← expect (list_position (λ candidate, bool_decide (candidate = card)) available);
      radix ← u_sub 64 52 (Z.of_nat index);
      high ← u_mul 128 code radix;
      code ← u_add 128 high (Z.of_nat position);
      UniqueCards_encode_loop (delete position available) (S index) rest code
  end.

Definition UniqueCards_encode {N} (u : UniqueCards N) : outcome DecodeError Z :=
  available ← enumerate CardId;
  UniqueCards_encode_loop available 0 (unique_cards u) 0.

(** Positions from the last one to the first: [for index in (0..N).rev()]. *)
Fixpoint UniqueCards_positions (count : nat) (code : Z) : outcome DecodeError (list nat) :=
  match count with
  | O => Ok []
  | S index =>
      radix ← u_sub 64 52 (Z.of_nat index);
      if radix =? 0 then Panic
      else
        rest ← UniqueCards_positions index (code / radix);
        Ok (Z.to_nat (code mod radix) :: rest)
  end.

(** [available.remove(position)] for each position in turn *)
Fixpoint take_positions {A} (available : list A) (positions : list nat) : outcome DecodeError (list A) :=
  match positions with
  | [] => Ok []
  | position :: rest =>
      card ← expect (available !! position);
      cards ← take_positions (delete position available) rest;
      Ok (card :: cards)
  end.

Definition UniqueCards_decode (N : nat) (code : Z) : outcome DecodeError (UniqueCards N) :=
  card ← UniqueCards_cardinality N;
  if card <=? code then Err (OutOfRange code card "UniqueCards")
  else
    positions ← UniqueCards_positions N code;
    available ← enumerate CardId;
    cards ← take_positions available (reverse positions);
    Ok (UniqueCardsOf cards).

#[export] Instance UniqueCards_domain N : FiniteDomain (UniqueCards N) := {|
  cardinality := UniqueCards_cardinality N;
  encode := UniqueCards_encode;
  decode := UniqueCards_decode N;
|}.

(** ** The micro-scope partition *)

Inductive MicroZone : Type := ZonePlayer0 | ZonePlayer1 | ZoneTrump | ZoneUndealt.

#[export] Instance MicroZone_eq_dec : EqDecision MicroZone.
Proof. solve_decision. Defined.

Definition MicroZone_wire_code (z : MicroZone) : Z :=
  match z with ZonePlayer0 => 0 | ZonePlayer1 => 1 | ZoneTrump => 2 | ZoneUndealt => 3 end.

Definition MicroZone_encode (z : MicroZone) : Z :=
  match z with ZonePlayer0 => 0 | ZonePlayer1 => 1 | ZoneTrump => 2 | ZoneUndealt => 3 end.

Definition MicroZone_decode (code : Z) : outcome DecodeError MicroZone :=
  match code with
  | 0 => Ok ZonePlayer0
  | 1 => Ok ZonePlayer1
  | 2 => Ok ZoneTrump
  | 3 => Ok ZoneUndealt
  | _ => Err (OutOfRange code 4 "MicroZone")
  end.

#[export] Instance MicroZone_domain : FiniteDomain MicroZone := {|
  cardinality := Ok 4;
  encode := λ z, Ok (MicroZone_encode z);
  decode := MicroZone_decode;
|}.

(** The six zones, one per micro card. *)
Record MicroPartition : Type := MicroPartitionOf { zones : list MicroZone }.

#[export] Instance MicroPartition_eq_dec : EqDecision MicroPartition.
Proof. solve_decision. Defined.

Definition zone_counts (zs : list MicroZone) : outcome DecodeError (list nat) :=
  all ← enumerate MicroZone;
  Ok (map (λ zone, length (filter (λ candidate, candidate = zone) zs)) all).

Definition MicroPartition_new (zs : list MicroZone) : outcome DecodeError MicroPartition :=
  counts ← zone_counts zs;
  if decide (counts = [2; 2; 1; 1]%nat) then Ok (MicroPartitionOf zs)
  else Err (InvalidRefinement "MicroPartition" "expected zone counts [2,2,1,1]").

Definition raw_partitions : outcome DecodeError (list MicroPartition) :=
  raws ← enumerate (FixedArray MicroZone 6);
  filter_mapM (λ raw : FixedArray MicroZone 6, ok (MicroPartition_new (fixed_items raw))) raws.

Definition MicroPartition_encode (p : MicroPartition) : outcome DecodeError Z :=
  raws ← raw_partitions;
  position ← expect (list_position (λ candidate, bool_decide (candidate = p)) raws);
  Ok (Z.of_nat position).

Definition MicroPartition_decode (code : Z) : outcome DecodeError MicroPartition :=
  if 180 <=? code then Err (OutOfRange code 180 "MicroPartition")
  else
    raws ← raw_partitions;
    match raws !! Z.to_nat code with
    | Some p => Ok p
    | None => Err (OutOfRange code 180 "MicroPartition")
    end.

#[export] Instance MicroPartition_domain : FiniteDomain MicroPartition := {|
  cardinality := Ok 180;
  encode := MicroPartition_encode;
  decode := MicroPartition_decode;
|}.

(** ** Selected-scope wire shape *)

Record SelectedScopeWire : Type := {
  wire_player_count : Z;
  wire_bid : Z;
  wire_distinct_cards : list Z;
  wire_partition : list Z;
}.

Record SelectedScopeFixture : Type := {
  fixture_player_count : PlayerCount;
  fixture_bid : Bid 2;
  fixture_distinct_cards : UniqueCards 2;
  fixture_partition : MicroPartition;
}.

(** [From<&SelectedScopeFixture> for SelectedScopeWire] *)
Definition to_wire (f : SelectedScopeFixture) : SelectedScopeWire := {|
  wire_player_count := PlayerCount_get (fixture_player_count f);
  wire_bid := bounded_get (fixture_bid f);
  wire_distinct_cards := card_code <$> unique_cards (fixture_distinct_cards f);
  wire_partition := MicroZone_wire_code <$> zones (fixture_partition f);
|}.

(** [TryFrom<SelectedScopeWire> for SelectedScopeFixture] *)
Definition from_wire (w : SelectedScopeWire) : outcome DecodeError SelectedScopeFixture :=
  distinct_cards ← mapM CardId_decode (wire_distinct_cards w);
  partition ← mapM MicroZone_decode (wire_partition w);
  player_count ← PlayerCount_new (wire_player_count w);
  bid ← BoundedU8_new 0 2 (wire_bid w);
  distinct_cards ← UniqueCards_new 2 distinct_cards;
  partition ← MicroPartition_new partition;
  Ok {| fixture_player_count := player_count;
        fixture_bid := bid;
        fixture_distinct_cards := distinct_cards;
        fixture_partition := partition |}.
