(* ===== verification/DomainLaws.v ===== *)
(** * Laws of the finite domains

    A domain is lawful when its codes are exactly [0 .. dom_size), every valid
    value has one code, and spare codes are refused.  Every instance of
    [Domain] is lawful, and the provided methods are correct for all lawful
    domains. *)

From S2P Require Import Prelude Domain.
From stdpp Require Import base strings numbers option list.

Local Open Scope Z_scope.

Class LawfulDomain (A : Type) `{FiniteDomain A} : Type := {
  valid : A → Prop;
  dom_size : Z;
  size_in_width : in_width 128 dom_size;
  cardinality_size : cardinality A = Ok dom_size;
  encode_valid a : valid a → ∃ c, encode a = Ok c ∧ 0 ≤ c < dom_size ∧ decode c = Ok a;
  decode_valid c : 0 ≤ c < dom_size → ∃ a, decode c = Ok a ∧ valid a ∧ encode a = Ok c;
  decode_spare c : dom_size ≤ c → in_width 128 c →
    ∃ card name, decode (A := A) c = Err (OutOfRange c card name);
}.
Arguments valid {A _ _} _.
Arguments dom_size A {_ _}.

Create HintDb domain.
#[export] Hint Resolve size_in_width cardinality_size : domain.

Section Lawful.
Context {A : Type} `{LawfulDomain A}.

Lemma encode_decode a c : valid a → encode a = Ok c → decode c = Ok a.
Proof. intros (c' & Hc & _ & Hd)%encode_valid Hc'. congruence. Qed.

Lemma encode_range a c : valid a → encode a = Ok c → 0 ≤ c < dom_size A.
Proof. intros (c' & Hc & Hr & _)%encode_valid Hc'. congruence. Qed.

Lemma decode_Ok c a : in_width 128 c →
  decode c = Ok a → 0 ≤ c < dom_size A ∧ valid a ∧ encode a = Ok c.
Proof.
  intros Hw Hd. unfold in_width in *. destruct (decide (c < dom_size A)) as [Hlt|Hge].
  - destruct (decode_valid c) as (a' & Ha & Hv & He); [lia|].
    assert (a = a') as -> by congruence. split_and!; [lia|lia|done..].
  - destruct (decode_spare c) as (? & ? & Hs); [lia|done|congruence].
Qed.

Lemma encode_inj a b c : valid a → valid b → encode a = Ok c → encode b = Ok c → a = b.
Proof. intros Ha Hb Hea Heb. apply encode_decode in Hea, Heb; congruence. Qed.
End Lawful.

(** *** Enumeration *)

Section Enumerate.
Context {A : Type} `{LawfulDomain A}.

Lemma mapM_decode_Ok (l : list Z) :
  (∀ c, c ∈ l → 0 ≤ c < dom_size A) →
  ∃ vs, mapM (λ code, expect_ok (E' := DecodeError) (decode (A := A) code)) l = Ok vs ∧
        Forall2 (λ c a, decode c = Ok a) l vs.
Proof.
  induction l as [|c l IH]; intros Hl; simpl.
  { exists []. split; [done|constructor]. }
  destruct (decode_valid c) as (a & Hd & _); [apply Hl; left|].
  destruct IH as (vs & -> & Hvs); [intros; apply Hl; by right|].
  exists (a :: vs). rewrite Hd. simpl. split; [done|by constructor].
Qed.

Lemma enumerate_Ok : ∃ vs, enumerate A = Ok vs ∧
  Forall2 (λ c a, decode c = Ok a) (seqZ 0 (dom_size A)) vs.
Proof.
  unfold enumerate. rewrite cardinality_size. simpl.
  apply mapM_decode_Ok. intros c Hc%elem_of_seqZ. lia.
Qed.

Lemma enumerate_lookup vs i a : enumerate A = Ok vs → vs !! i = Some a →
  decode (Z.of_nat i) = Ok a ∧ Z.of_nat i < dom_size A.
Proof.
  destruct enumerate_Ok as (vs' & Henum & Hall). intros Hvs Hi.
  assert (vs' = vs) as -> by congruence.
  destruct (Forall2_lookup_r _ _ _ _ _ Hall Hi) as (c & Hc & Hd).
  apply lookup_seqZ in Hc as [-> Hlt]. rewrite Z.add_0_l in Hd. split; [done|lia].
Qed.

Lemma enumerate_length vs : enumerate A = Ok vs → Z.of_nat (length vs) = dom_size A.
Proof.
  destruct enumerate_Ok as (vs' & Henum & Hall). intros Hvs.
  assert (vs' = vs) as -> by congruence.
  apply Forall2_length in Hall. rewrite length_seqZ in Hall.
  pose proof size_in_width as [??]. lia.
Qed.

Lemma elem_of_enumerate vs a : enumerate A = Ok vs → a ∈ vs ↔ valid a.
Proof.
  intros Hvs. pose proof (enumerate_length vs Hvs) as Hlen. pose proof size_in_width as [Hs Hs'].
  rewrite list_elem_of_lookup. split.
  - intros [i Hi]. destruct (enumerate_lookup vs i a Hvs Hi) as [Hd Hlt].
    apply decode_Ok in Hd as (_ & Hv & _); [done|unfold in_width; lia].
  - intros (c & He & Hr & Hd)%encode_valid.
    destruct (lookup_lt_is_Some_2 vs (Z.to_nat c)) as [b Hb]; [lia|].
    destruct (enumerate_lookup vs _ b Hvs Hb) as [Hd' _].
    rewrite Z2Nat.id in Hd' by lia. exists (Z.to_nat c). congruence.
Qed.

Lemma enumerate_NoDup vs : enumerate A = Ok vs → NoDup vs.
Proof.
  intros Hvs. pose proof size_in_width as [Hs Hs'].
  apply NoDup_alt. intros i j a Hi Hj.
  destruct (enumerate_lookup vs i a Hvs Hi) as [Hdi ?].
  destruct (enumerate_lookup vs j a Hvs Hj) as [Hdj ?].
  apply decode_Ok in Hdi as (_ & _ & Hei); [|unfold in_width; lia].
  apply decode_Ok in Hdj as (_ & _ & Hej); [|unfold in_width; lia].
  rewrite Hei in Hej. injection Hej. lia.
Qed.
End Enumerate.

(** ** Instances *)

(** Solves the laws of an enumeration given by two matches. *)
Ltac solve_enum :=
  lazymatch goal with
  | |- in_width _ _ => unfold in_width; lia
  | |- cardinality _ = _ => reflexivity
  | |- ∀ a, _ → ∃ c, encode _ = _ ∧ _ => intros []; intros _; eexists; repeat split; simpl; lia
  | |- ∀ c, 0 ≤ c < _ → _ =>
      intros c Hc; simpl;
      destruct c as [|p|p]; [|do 4 (try destruct p as [p|p|]; try lia)|lia];
      eexists; repeat split
  | |- ∀ c, _ ≤ c → in_width _ c → _ =>
      intros c Hc Hw; simpl; unfold in_width in Hw;
      destruct c as [|p|p]; [lia| |lia];
      do 4 (try destruct p as [p|p|]; try lia); do 2 eexists; reflexivity
  end.

Ltac lawful V n := refine (Build_LawfulDomain _ _ V n _ _ _ _ _).

#[export] Instance Suit_lawful : LawfulDomain Suit.
Proof. lawful (λ _ : Suit, True) 4; solve_enum. Defined.

#[export] Instance MicroPhase_lawful : LawfulDomain MicroPhase.
Proof. lawful (λ _ : MicroPhase, True) 5; solve_enum. Defined.

#[export] Instance MicroTurn_lawful : LawfulDomain MicroTurn.
Proof. lawful (λ _ : MicroTurn, True) 5; solve_enum. Defined.

#[export] Instance MicroRoundScore_lawful : LawfulDomain MicroRoundScore.
Proof. lawful (λ _ : MicroRoundScore, True) 4; solve_enum. Defined.

#[export] Instance MicroZone_lawful : LawfulDomain MicroZone.
Proof. lawful (λ _ : MicroZone, True) 4; solve_enum. Defined.

(** *** Bounded integers and their wrappers *)

Lemma BoundedU8_size_eq MIN MAX : in_width 8 MIN → in_width 8 MAX →
  BoundedU8_cardinality MIN MAX = Ok (Z.max 0 (MAX - MIN + 1)).
Proof.
  unfold in_width, BoundedU8_cardinality, saturating_sub. intros.
  destruct (MIN <=? MAX) eqn:?; rewrite u_add_ok; unfold in_width; f_equal; lia.
Qed.

Section Bounded.
Context (MIN MAX : Z) (HMIN : in_width 8 MIN) (HMAX : in_width 8 MAX).

Definition BoundedU8_valid (b : BoundedU8 MIN MAX) : Prop := MIN ≤ bounded_get b ≤ MAX.

Lemma BoundedU8_decode_in c : 0 ≤ c < Z.max 0 (MAX - MIN + 1) →
  BoundedU8_decode MIN MAX c = Ok (BoundedU8Of (MIN + c)).
Proof.
  unfold in_width in *. intros Hc. unfold BoundedU8_decode.
  rewrite BoundedU8_size_eq by done. simpl.
  destruct (Z.leb_spec (Z.max 0 (MAX - MIN + 1)) c); [lia|].
  rewrite (proj2 (expect_Ok _ c)) by (apply checked_Some; unfold in_width; lia). simpl.
  rewrite u_add_ok by (unfold in_width; lia). done.
Qed.

Definition BoundedU8_lawful : LawfulDomain (BoundedU8 MIN MAX).
Proof.
  lawful BoundedU8_valid (Z.max 0 (MAX - MIN + 1)).
  - unfold in_width in *; lia.
  - by apply BoundedU8_size_eq.
  - intros [v] Hv. unfold BoundedU8_valid, in_width in *; simpl in *.
    exists (v - MIN). unfold BoundedU8_encode; simpl.
    rewrite u_sub_ok by (unfold in_width; lia).
    rewrite BoundedU8_decode_in by lia. split_and!; [done|lia|lia|].
    repeat f_equal. lia.
  - intros c Hc. exists (BoundedU8Of (MIN + c)). simpl.
    rewrite BoundedU8_decode_in by done. unfold BoundedU8_valid, BoundedU8_encode, in_width in *.
    simpl. rewrite u_sub_ok by (unfold in_width; lia). split_and!; [done|lia|lia|f_equal; lia].
  - intros c Hc Hw. simpl. unfold BoundedU8_decode. rewrite BoundedU8_size_eq by done. simpl.
    destruct (Z.leb_spec (Z.max 0 (MAX - MIN + 1)) c); [eauto|lia].
Defined.
End Bounded.

#[export] Hint Extern 1 (LawfulDomain (BoundedU8 _ _)) =>
  apply BoundedU8_lawful; done : typeclass_instances.

(** A newtype inherits the laws of the domain it wraps. *)
Lemma newtype_lawful {A B} `{LawfulDomain A} `{FiniteDomain B} (wrap : A → B) (unwrap : B → A) :
  (∀ b, wrap (unwrap b) = b) → (∀ a, unwrap (wrap a) = a) →
  cardinality B = cardinality A →
  (∀ b, encode b = encode (unwrap b)) →
  (∀ c, decode c = wrap <$> decode c) →
  LawfulDomain B.
Proof.
  intros Hwu Huw Hcard Henc Hdec. lawful (λ b, valid (unwrap b)) (dom_size A).
  - apply size_in_width.
  - rewrite Hcard. apply cardinality_size.
  - intros b (c & He & Hr & Hd)%encode_valid. exists c.
    rewrite Henc, Hdec, Hd. simpl. by rewrite Hwu.
  - intros c (a & Hd & Hv & He)%decode_valid. exists (wrap a).
    rewrite Hdec, Hd, Henc, Huw. done.
  - intros c Hc Hw. destruct (decode_spare c Hc Hw) as (k & n & Hd).
    exists k, n. by rewrite Hdec, Hd.
Defined.

#[export] Instance PlayerCount_lawful : LawfulDomain PlayerCount.
Proof. by apply (newtype_lawful PlayerCountOf player_count_inner); (done || by intros []). Defined.

#[export] Instance MicroCardCode_lawful : LawfulDomain MicroCardCode.
Proof. by apply (newtype_lawful MicroCardCodeOf micro_card_inner); (done || by intros []). Defined.

#[export] Instance Rank_lawful : LawfulDomain Rank.
Proof. by apply (newtype_lawful RankOf rank_inner); (done || by intros []). Defined.

Lemma CardId_decode_in c : 0 ≤ c < 52 → CardId_decode c = Ok (CardIdOf c).
Proof.
  intros Hc. unfold CardId_decode. destruct (Z.leb_spec 52 c); [lia|].
  by rewrite (proj2 (expect_Ok _ c)) by (apply checked_Some; unfold in_width; lia).
Qed.

#[export] Instance CardId_lawful : LawfulDomain CardId.
Proof.
  lawful (λ c, 0 ≤ card_code c < 52) 52.
  - done.
  - done.
  - intros [c] Hc. exists c. split_and!; [done|apply Hc..|]. by apply CardId_decode_in.
  - intros c Hc. exists (CardIdOf c). split_and!; [by apply CardId_decode_in|apply Hc..|done].
  - intros c Hc Hw. simpl. unfold CardId_decode. destruct (Z.leb_spec 52 c); [eauto|lia].
Defined.

#[export] Instance MicroAction_lawful : LawfulDomain MicroAction.
Proof.
  lawful (λ a, match a with Play card => valid card | _ => True end) 11.
  - done.
  - done.
  - intros [| | | |card|] Hv; try solve [eexists; repeat split; simpl; lia].
    destruct (encode_valid card Hv) as (c & He & Hr & Hd). change (dom_size MicroCardCode) with 6 in Hr.
    exists (4 + c). split_and!; [|lia|lia|].
    + change (encode (Play card)) with (encode card ≫= u_add (E := DecodeError) 128 4).
      rewrite He. simpl. by rewrite u_add_ok by (unfold in_width; lia).
    + change (MicroAction_decode (4 + c) = Ok (Play card)). unfold MicroAction_decode. repeat case_match; try lia.
      replace (4 + c - 4) with c by lia. by rewrite Hd.
  - intros c Hc. change (decode c) with (MicroAction_decode c). unfold MicroAction_decode.
    repeat case_match; try lia; try (eexists; split_and!; [done..|simpl; f_equal; lia]).
    + destruct (decode_valid (A := MicroCardCode) (c - 4)) as (a & Hd & Hv & He).
      { change (dom_size MicroCardCode) with 6. lia. }
      exists (Play a). split_and!; [by rewrite Hd|done|].
      change (encode (Play a)) with (encode a ≫= u_add (E := DecodeError) 128 4).
      rewrite He. simpl. rewrite u_add_ok by (unfold in_width; lia). f_equal; lia.
  - intros c Hc Hw. simpl. unfold MicroAction_decode. repeat case_match; try lia. eauto.
Defined.

#[local] Arguments encode : simpl never.
#[local] Arguments decode : simpl never.
#[local] Arguments cardinality : simpl never.
#[local] Arguments enumerate : simpl never.
#[local] Arguments reverse : simpl never.

Definition FiniteIndex_lawful N : in_width 64 N → LawfulDomain (FiniteIndex N).
Proof.
  intros HN. lawful (λ i : FiniteIndex N, 0 ≤ index_get i < N) N.
  - eapply in_width_mono, HN; lia.
  - done.
  - intros [i] Hi; simpl in *. exists i. split_and!; [done|lia..|].
    change (FiniteIndex_decode N i = Ok (FiniteIndexOf i)). unfold FiniteIndex_decode.
    destruct (Z.leb_spec N i); [lia|].
    by rewrite (proj2 (expect_Ok _ i)) by (apply checked_Some; unfold in_width in *; lia).
  - intros c Hc. exists (FiniteIndexOf c). split_and!; [|simpl; lia..|done].
    change (FiniteIndex_decode N c = Ok (FiniteIndexOf c)). unfold FiniteIndex_decode.
    destruct (Z.leb_spec N c); [lia|].
    by rewrite (proj2 (expect_Ok _ c)) by (apply checked_Some; unfold in_width in *; lia).
  - intros c Hc Hw. change (decode c) with (FiniteIndex_decode N c). unfold FiniteIndex_decode.
    destruct (Z.leb_spec N c); [eauto|lia].
Defined.

Section Combinators.
Context {A B : Type} `{LawfulDomain A, LawfulDomain B}.

Lemma Optional_cardinality_Ok : dom_size A + 1 < 2 ^ 128 →
  Optional_cardinality A = Ok (dom_size A + 1).
Proof.
  intros Hs. unfold Optional_cardinality. rewrite cardinality_size. simpl.
  pose proof (size_in_width (A := A)) as [??]. apply u_add_ok. unfold in_width; lia.
Qed.

Definition Optional_lawful : dom_size A + 1 < 2 ^ 128 → LawfulDomain (Optional A).
Proof.
  intros Hs. pose proof (size_in_width (A := A)) as [? ?].
  lawful (λ o : Optional A, match optional_value o with Some a => valid a | None => True end)
         (dom_size A + 1).
  - unfold in_width; lia.
  - by apply Optional_cardinality_Ok.
  - intros [[a|]] Hv; simpl in *; [|exists 0; split_and!; [done|lia..|done]].
    destruct (encode_valid a Hv) as (c & He & Hr & Hd). exists (c + 1). split_and!; [|lia..|].
    + change (Optional_encode (OptionalOf (Some a)) = Ok (c + 1)). unfold Optional_encode; simpl.
      rewrite He. simpl. apply u_add_ok. unfold in_width; lia.
    + change (Optional_decode A (c + 1) = Ok (OptionalOf (Some a))). unfold Optional_decode.
      destruct (Z.eqb_spec (c + 1) 0); [lia|]. rewrite Optional_cardinality_Ok by done. simpl.
      destruct (Z.ltb_spec (c + 1) (dom_size A + 1)); [|lia].
      replace (c + 1 - 1) with c by lia. by rewrite Hd.
  - intros c Hc. change (decode c) with (Optional_decode A c). unfold Optional_decode.
    destruct (Z.eqb_spec c 0) as [->|Hc0]; [by exists (OptionalOf None)|].
    rewrite Optional_cardinality_Ok by done. simpl.
    destruct (Z.ltb_spec c (dom_size A + 1)); [|lia].
    destruct (decode_valid (A := A) (c - 1)) as (a & Hd & Hv & He); [lia|].
    exists (OptionalOf (Some a)). rewrite Hd. simpl. split_and!; [done..|].
    change (Optional_encode (OptionalOf (Some a)) = Ok c). unfold Optional_encode; simpl.
    rewrite He. simpl. rewrite u_add_ok by (unfold in_width in *; lia). f_equal; lia.
  - intros c Hc Hw. change (decode c) with (Optional_decode A c). unfold Optional_decode.
    destruct (Z.eqb_spec c 0); [lia|]. rewrite Optional_cardinality_Ok by done. simpl.
    destruct (Z.ltb_spec c (dom_size A + 1)); [lia|eauto].
Defined.

Lemma Pair_cardinality_Ok : dom_size A * dom_size B < 2 ^ 128 →
  Pair_cardinality A B = Ok (dom_size A * dom_size B).
Proof.
  intros Hs. unfold Pair_cardinality. rewrite !cardinality_size. simpl.
  pose proof (size_in_width (A := A)) as [??]. pose proof (size_in_width (A := B)) as [??].
  apply u_mul_ok. unfold in_width; nia.
Qed.

Lemma Pair_encode_Ok (a : A) (b : B) x y : encode a = Ok x → encode b = Ok y →
  0 ≤ x < dom_size A → 0 ≤ y < dom_size B → dom_size A * dom_size B < 2 ^ 128 →
  Pair_encode (PairOf a b) = Ok (x * dom_size B + y).
Proof.
  intros Ha Hb Hx Hy Hs. unfold Pair_encode; simpl. rewrite Ha, cardinality_size. simpl.
  rewrite u_mul_ok by (unfold in_width; nia). simpl. rewrite Hb. simpl.
  apply u_add_ok. unfold in_width; nia.
Qed.

Definition Pair_lawful : dom_size A * dom_size B < 2 ^ 128 → LawfulDomain (Pair A B).
Proof.
  intros Hs. pose proof (size_in_width (A := A)) as [? ?].
  pose proof (size_in_width (A := B)) as [? ?].
  lawful (λ p : Pair A B, valid (pair_fst p) ∧ valid (pair_snd p)) (dom_size A * dom_size B).
  - unfold in_width; nia.
  - by apply Pair_cardinality_Ok.
  - intros [a b] [Ha Hb]; simpl in *.
    destruct (encode_valid a Ha) as (x & Hx & Hxr & Hxd).
    destruct (encode_valid b Hb) as (y & Hy & Hyr & Hyd).
    exists (x * dom_size B + y). split_and!; [exact (Pair_encode_Ok a b x y Hx Hy Hxr Hyr Hs)|nia..|].
    change (decode (x * dom_size B + y)) with (Pair_decode A B (x * dom_size B + y)). unfold Pair_decode.
    rewrite Pair_cardinality_Ok by done. simpl.
    destruct (Z.leb_spec (dom_size A * dom_size B) (x * dom_size B + y)); [nia|].
    rewrite cardinality_size. simpl.
    rewrite Z.div_add_l, Z.div_small, Z.add_0_r, Hxd by lia. simpl.
    rewrite Z.add_comm, Z_mod_plus_full, Z.mod_small, Hyd by lia. done.
  - intros c Hc. assert (0 < dom_size B) by nia.
    destruct (decode_valid (A := A) (c / dom_size B)) as (a & Had & Hav & Hae).
    { split; [apply Z.div_pos; lia|apply Z.div_lt_upper_bound; lia]. }
    destruct (decode_valid (A := B) (c mod dom_size B)) as (b & Hbd & Hbv & Hbe).
    { apply Z.mod_pos_bound; lia. }
    exists (PairOf a b). split_and!; [|done..|].
    + change (decode c) with (Pair_decode A B c). unfold Pair_decode.
      rewrite Pair_cardinality_Ok by done. simpl.
      destruct (Z.leb_spec (dom_size A * dom_size B) c); [lia|].
      rewrite cardinality_size. simpl. rewrite Had. simpl. by rewrite Hbd.
    + change (encode (PairOf a b)) with (Pair_encode (PairOf a b)).
      rewrite (Pair_encode_Ok a b (c / dom_size B) (c mod dom_size B)); [|done..| | |done].
      * f_equal. rewrite Z.mul_comm. symmetry. by apply Z_div_mod_eq_full.
      * split; [apply Z.div_pos; lia|apply Z.div_lt_upper_bound; lia].
      * apply Z.mod_pos_bound; lia.
  - intros c Hc Hw. change (decode c) with (Pair_decode A B c). unfold Pair_decode.
    rewrite Pair_cardinality_Ok by done. simpl.
    destruct (Z.leb_spec (dom_size A * dom_size B) c); [eauto|lia].
Defined.
End Combinators.

(** ** Mixed radix

    [mixed acc rds] is the accumulator loop [code * radix + digit]; [digits]
    reads the digits back, least significant first. *)

Definition mixed (acc : Z) (rds : list (Z * Z)) : Z :=
  foldl (λ acc rd, acc * rd.1 + rd.2) acc rds.

Definition prod (rs : list Z) : Z := foldr Z.mul 1 rs.

Fixpoint digits (rs : list Z) (code : Z) : list Z :=
  match rs with [] => [] | r :: rs => code mod r :: digits rs (code / r) end.

Definition digit_ok (rd : Z * Z) : Prop := 0 ≤ rd.2 < rd.1.

Lemma prod_app rs rs' : prod (rs ++ rs') = prod rs * prod rs'.
Proof. induction rs as [|r rs IH]; simpl; [lia|]. unfold prod in *. simpl. rewrite IH. lia. Qed.

Lemma prod_pos rs : Forall (λ r, 0 < r) rs → 0 < prod rs.
Proof. induction 1; simpl; [done|]. unfold prod in *. simpl. nia. Qed.

Lemma prod_replicate n r : prod (replicate n r) = r ^ Z.of_nat n.
Proof.
  induction n as [|n IH]; [done|].
  change (prod (replicate (S n) r)) with (r * prod (replicate n r)).
  rewrite IH, Nat2Z.inj_succ, Z.pow_succ_r by lia. done.
Qed.

Lemma mixed_app acc l l' : mixed acc (l ++ l') = mixed (mixed acc l) l'.
Proof. apply foldl_app. Qed.

Lemma mixed_bound l acc : Forall digit_ok l → 0 ≤ acc →
  0 ≤ mixed acc l ∧ mixed acc l < (acc + 1) * prod (l.*1).
Proof.
  intros Hl; revert acc; induction Hl as [|[r d] l Hd Hl IH]; intros acc Hacc.
  { unfold prod. simpl. lia. }
  unfold digit_ok in Hd; simpl in Hd. specialize (IH (acc * r + d) ltac:(nia)).
  change (mixed acc ((r, d) :: l)) with (mixed (acc * r + d) l).
  change (prod (((r, d) :: l).*1)) with (r * prod (l.*1)).
  assert (0 < prod (l.*1)).
  { apply prod_pos, Forall_fmap. eapply Forall_impl; [exact Hl|]. intros []; unfold digit_ok; simpl; lia. }
  split; [lia|]. apply (Z.lt_le_trans _ ((acc * r + d + 1) * prod (l.*1))); [lia|]. nia.
Qed.

Lemma mixed_snoc acc l r d : mixed acc (l ++ [(r, d)]) = mixed acc l * r + d.
Proof. rewrite mixed_app. done. Qed.

Lemma digits_mixed l : Forall digit_ok l →
  digits (reverse (l.*1)) (mixed 0 l) = reverse (l.*2).
Proof.
  induction l as [|rd l IH] using rev_ind; intros Hl; [done|]. destruct rd as [r d].
  apply Forall_app in Hl as [Hl [Hd _]%Forall_cons]. unfold digit_ok in Hd; simpl in Hd.
  rewrite !fmap_app, mixed_snoc. simpl. rewrite !reverse_app. simpl.
  rewrite Z.add_comm, Z_mod_plus_full, Z.mod_small by lia.
  rewrite Z.div_add, Z.div_small, Z.add_0_l, IH by (done || lia). done.
Qed.

Lemma digits_length rs c : length (digits rs c) = length rs.
Proof. revert c; induction rs; simpl; auto. Qed.

Lemma mixed_digits rs c : Forall (λ r, 0 < r) rs → 0 ≤ c < prod rs →
  mixed 0 (zip rs (reverse (digits (reverse rs) c))) = c ∧
  Forall digit_ok (zip rs (reverse (digits (reverse rs) c))).
Proof.
  revert c; induction rs as [|r rs IH] using rev_ind; intros c Hrs Hc.
  { unfold prod in Hc; simpl in Hc. split; [simpl; lia|constructor]. }
  apply Forall_app in Hrs as [Hrs [Hr _]%Forall_cons].
  rewrite prod_app in Hc. change (prod [r]) with (r * 1) in Hc. rewrite Z.mul_1_r in Hc.
  rewrite reverse_app. simpl. rewrite reverse_cons.
  destruct (IH (c / r)) as [IHv IHd]; [done|split; [apply Z.div_pos; lia|apply Z.div_lt_upper_bound; lia]|].
  rewrite zip_with_app by (rewrite length_reverse, digits_length, length_reverse; done).
  simpl. rewrite mixed_snoc, IHv. split.
  - rewrite Z.mul_comm. symmetry. by apply Z_div_mod_eq_full.
  - apply Forall_app; split; [done|]. constructor; [|done]. change (0 ≤ c mod r < r). apply Z.mod_pos_bound; lia.
Qed.

(** One step of an encoding loop that still has to multiply by [prod rs]. *)
Lemma mixed_step_bound acc r d P M :
  0 ≤ d < r → 0 ≤ acc → 0 < P → (acc + 1) * (r * P) ≤ M →
  0 ≤ acc * r < M ∧ 0 ≤ acc * r + d < M ∧ (acc * r + d + 1) * P ≤ M.
Proof.
  intros Hd Ha HP HM.
  assert (0 ≤ acc * r) by (apply Z.mul_nonneg_nonneg; lia).
  assert ((acc * r + d + 1) * P ≤ (acc + 1) * (r * P)).
  { rewrite (Z.mul_assoc (acc + 1)). apply Z.mul_le_mono_nonneg_r; lia. }
  assert ((acc * r + d + 1) * 1 ≤ (acc * r + d + 1) * P) by (apply Z.mul_le_mono_nonneg_l; lia).
  lia.
Qed.

(** ** Fixed arrays *)

Section FixedArray.
Context {T : Type} `{LawfulDomain T}.

Lemma FixedArray_cardinality_Ok N : dom_size T ^ Z.of_nat N < 2 ^ 128 →
  FixedArray_cardinality T N = Ok (dom_size T ^ Z.of_nat N).
Proof.
  intros Hs. unfold FixedArray_cardinality. rewrite cardinality_size. simpl.
  apply expect_Ok, checked_Some. split; [done|].
  pose proof (size_in_width (A := T)) as [??]. split; [|done]. apply Z.pow_nonneg. lia.
Qed.

Lemma FixedArray_encode_step_Ok acc v d : encode v = Ok d →
  in_width 128 (acc * dom_size T) → in_width 128 (acc * dom_size T + d) →
  FixedArray_encode_step acc v = Ok (acc * dom_size T + d).
Proof.
  intros He Hm Ha. unfold FixedArray_encode_step. rewrite cardinality_size. simpl.
  rewrite u_mul_ok by done. simpl. rewrite He. simpl. by apply u_add_ok.
Qed.

Lemma FixedArray_encode_Ok (vs : list T) ds acc :
  Forall2 (λ v d, encode v = Ok d ∧ 0 ≤ d < dom_size T) vs ds →
  0 ≤ acc → (acc + 1) * dom_size T ^ Z.of_nat (length vs) ≤ 2 ^ 128 →
  foldM FixedArray_encode_step vs acc
  = Ok (mixed acc (zip (replicate (length vs) (dom_size T)) ds)).
Proof.
  intros Hvs; revert acc; induction Hvs as [|v d vs ds [He Hd] Hvs IH]; intros acc Hacc Hb; [done|].
  simpl length in Hb. rewrite Nat2Z.inj_succ, Z.pow_succ_r in Hb by lia.
  assert (0 < dom_size T ^ Z.of_nat (length vs)) by (apply Z.pow_pos_nonneg; lia).
  destruct (mixed_step_bound acc (dom_size T) d (dom_size T ^ Z.of_nat (length vs)) (2 ^ 128))
    as (Hm & Ha & Hn); [done..|].
  rewrite foldM_cons, (FixedArray_encode_step_Ok acc v d) by done.
  simpl. rewrite IH by (done || lia). done.
Qed.

Lemma FixedArray_digits_Ok n c : 0 < dom_size T →
  ∃ vs, FixedArray_digits T n c = Ok vs ∧
    Forall2 (λ v d, encode v = Ok d ∧ 0 ≤ d < dom_size T) vs (digits (replicate n (dom_size T)) c) ∧
    Forall valid vs.
Proof.
  intros Hs. revert c; induction n as [|n IH]; intros c; simpl; [by exists []|].
  destruct (decode_valid (A := T) (c mod dom_size T)) as (v & Hd & Hv & He).
  { apply Z.mod_pos_bound. lia. }
  destruct (IH (c / dom_size T)) as (vs & Hvs & Hall & Hval).
  exists (v :: vs). rewrite cardinality_size. simpl. rewrite Hd. simpl. rewrite Hvs.
  split_and!; [done|constructor; [|done]|by constructor].
  split; [done|]. apply Z.mod_pos_bound. lia.
Qed.

Lemma FixedArray_digits_complete vs ds :
  Forall2 (λ v d, encode v = Ok d ∧ 0 ≤ d < dom_size T) vs ds → Forall valid vs →
  ∀ c, digits (replicate (length vs) (dom_size T)) c = ds → FixedArray_digits T (length vs) c = Ok vs.
Proof.
  induction 1 as [|v d vs ds [He Hd] Hvs IH]; intros Hval c Hc; [done|]. simpl in *.
  apply Forall_cons in Hval as [Hv Hval]. simplify_eq.
  rewrite cardinality_size. simpl. erewrite encode_decode by done. simpl. by rewrite IH.
Qed.

Lemma encode_all (vs : list T) : Forall valid vs →
  ∃ ds, Forall2 (λ v d, encode v = Ok d ∧ 0 ≤ d < dom_size T) vs ds.
Proof.
  induction 1 as [|v vs Hv Hvs [ds IH]]; [by exists []|].
  destruct (encode_valid v Hv) as (d & He & Hd & _). exists (d :: ds). by constructor.
Qed.

Lemma zip_digits_ok (vs : list T) ds :
  Forall2 (λ v d, encode v = Ok d ∧ 0 ≤ d < dom_size T) vs ds →
  Forall digit_ok (zip (replicate (length vs) (dom_size T)) ds).
Proof. induction 1 as [|v d vs ds [He Hd] Hvs IH]; simpl; constructor; done. Qed.

Definition FixedArray_lawful (N : nat) : dom_size T ^ Z.of_nat N < 2 ^ 128 → LawfulDomain (FixedArray T N).
Proof.
  intros Hs. lawful (λ a : FixedArray T N, length (fixed_items a) = N ∧ Forall valid (fixed_items a))
    (dom_size T ^ Z.of_nat N).
  - split; [|done]. apply Z.pow_nonneg. pose proof (size_in_width (A := T)) as [??]. lia.
  - by apply FixedArray_cardinality_Ok.
  - intros [vs] [Hlen Hval]; simpl in *. destruct (encode_all vs Hval) as [ds Hds].
    pose proof (zip_digits_ok vs ds Hds) as Hok. pose proof Hds as Hlen'; apply Forall2_length in Hlen'.
    destruct (mixed_bound _ 0 Hok) as [Hlo Hhi]; [done|].
    pose proof (digits_mixed _ Hok) as Hdig.
    assert (FixedArray_encode (FixedArrayOf (N := N) vs)
            = Ok (mixed 0 (zip (replicate (length vs) (dom_size T)) ds))) as Henc.
    { apply FixedArray_encode_Ok; [done|lia|rewrite Hlen; lia]. }
    set (code := mixed 0 _) in *.
    rewrite fst_zip, prod_replicate, Hlen in Hhi by (rewrite length_replicate; lia).
    rewrite fst_zip, snd_zip, reverse_replicate in Hdig by (rewrite length_replicate; lia).
    exists code. split_and!; [done|lia..|].
    change (FixedArray_decode T N code = Ok (FixedArrayOf vs)).
    unfold FixedArray_decode. rewrite FixedArray_cardinality_Ok by done. simpl.
    destruct (Z.leb_spec (dom_size T ^ Z.of_nat N) code); [lia|].
    assert (FixedArray_digits T N code = Ok (reverse vs)) as ->;
      [|simpl; by rewrite reverse_involutive].
    rewrite <-Hlen, <-(length_reverse vs). apply (FixedArray_digits_complete _ (reverse ds)).
    + by apply Forall2_reverse.
    + by apply Forall_reverse.
    + by rewrite length_reverse.
  - intros c Hc. assert (0 < dom_size T ∨ N = O) as [HT| ->].
    { destruct N; [by right|left]. pose proof (size_in_width (A := T)) as [??].
      destruct (decide (dom_size T = 0)) as [Hz|]; [|lia]. rewrite Hz, Z.pow_0_l in Hc by lia. lia. }
    + destruct (FixedArray_digits_Ok N c HT) as (vs & Hvs & Hds & Hval).
      pose proof Hds as Hlen; apply Forall2_length in Hlen. rewrite digits_length, length_replicate in Hlen.
      destruct (mixed_digits (replicate N (dom_size T)) c) as [Hmix _].
      { by apply Forall_replicate. } { by rewrite prod_replicate. }
      rewrite reverse_replicate in Hmix.
      exists (FixedArrayOf (reverse vs)). split_and!.
      * change (decode c) with (FixedArray_decode T N c). unfold FixedArray_decode.
        rewrite FixedArray_cardinality_Ok by done. simpl.
        destruct (Z.leb_spec (dom_size T ^ Z.of_nat N) c); [lia|]. by rewrite Hvs.
      * simpl. by rewrite length_reverse.
      * by apply Forall_reverse.
      * change (FixedArray_encode (FixedArrayOf (N := N) (reverse vs)) = Ok c). unfold FixedArray_encode.
        simpl. rewrite (FixedArray_encode_Ok _ (reverse (digits (replicate N (dom_size T)) c)));
          [|by apply Forall2_reverse|lia|rewrite length_reverse, Hlen; lia].
        rewrite length_reverse, Hlen, Hmix. done.
    + exists (FixedArrayOf []). change (dom_size T ^ Z.of_nat 0) with 1 in *.
      assert (c = 0) as -> by lia. split_and!; [|done..].
      change (FixedArray_decode T 0 0 = Ok (FixedArrayOf [])). unfold FixedArray_decode.
      rewrite FixedArray_cardinality_Ok by done. done.
  - intros c Hc Hw. change (decode c) with (FixedArray_decode T N c). unfold FixedArray_decode.
    rewrite FixedArray_cardinality_Ok by done. simpl.
    destruct (Z.leb_spec (dom_size T ^ Z.of_nat N) c); [eauto|lia].
Defined.
End FixedArray.

(** ** Sets as masks *)

Section FiniteSet.
Context {T : Type} `{LawfulDomain T} (Hsize : dom_size T < 128).

Lemma assert_mask_width_Ok : assert_mask_width T = Ok tt.
Proof.
  unfold assert_mask_width. rewrite cardinality_size. simpl.
  by destruct (Z.ltb_spec (dom_size T) 128); [|lia].
Qed.

Lemma u128_bit_Ok n : n < 128 → u128_bit n = Ok (Z.shiftl 1 n).
Proof. intros. unfold u128_bit. by destruct (Z.ltb_spec n 128); [|lia]. Qed.

Lemma FiniteSet_cardinality_Ok : FiniteSet_cardinality T = Ok (2 ^ dom_size T).
Proof.
  unfold FiniteSet_cardinality. rewrite assert_mask_width_Ok, cardinality_size. simpl.
  pose proof (size_in_width (A := T)) as [??].
  rewrite u128_bit_Ok, Z.shiftl_1_l by done. done.
Qed.

Definition FiniteSet_lawful : LawfulDomain (FiniteSet T).
Proof.
  pose proof (size_in_width (A := T)) as [? _].
  lawful (λ s : FiniteSet T, 0 ≤ set_bits s < 2 ^ dom_size T) (2 ^ dom_size T).
  - split; [apply Z.pow_nonneg; lia|]. apply Z.pow_lt_mono_r; lia.
  - apply FiniteSet_cardinality_Ok.
  - intros [bits] Hb. simpl in Hb. exists bits. split_and!; [done|lia..|].
    change (FiniteSet_decode T bits = Ok (FiniteSetOf bits)). unfold FiniteSet_decode.
    rewrite FiniteSet_cardinality_Ok. simpl. by destruct (Z.leb_spec (2 ^ dom_size T) bits); [lia|].
  - intros c Hc. exists (FiniteSetOf c). split_and!; [|simpl; lia..|done].
    change (FiniteSet_decode T c = Ok (FiniteSetOf c)). unfold FiniteSet_decode.
    rewrite FiniteSet_cardinality_Ok. simpl. by destruct (Z.leb_spec (2 ^ dom_size T) c); [lia|].
  - intros c Hc Hw. change (decode c) with (FiniteSet_decode T c). unfold FiniteSet_decode.
    rewrite FiniteSet_cardinality_Ok. simpl. destruct (Z.leb_spec (2 ^ dom_size T) c); [eauto|lia].
Defined.

(** The mask loop: bit [k] of the result is set iff it was set before or some
    value has code [k]. *)
Lemma mask_loop_Ok (vs : list T) bits : Forall valid vs →
  ∃ bits', foldM (λ bits value,
      code ← encode value; bit ← u128_bit code; Ok (Z.lor bits bit)) vs bits = Ok bits' ∧
    ∀ k, 0 ≤ k → Z.testbit bits' k = true ↔
      (Z.testbit bits k = true ∨ ∃ v, v ∈ vs ∧ encode v = Ok k).
Proof.
  intros Hvs; revert bits; induction Hvs as [|v vs Hv Hvs IH]; intros bits.
  { exists bits. split; [done|]. intros k _. split; [auto|].
    intros [?|(? & []%not_elem_of_nil & _)]; done. }
  destruct (encode_valid v Hv) as (c & He & Hr & _). rewrite foldM_cons, He. simpl.
  rewrite u128_bit_Ok by lia. simpl. destruct (IH (Z.lor bits (Z.shiftl 1 c))) as (bits' & Hf & Hk).
  exists bits'. split; [done|]. intros k Hk0. rewrite Hk by done.
  rewrite Z.lor_spec, Z.shiftl_1_l, Z.pow2_bits_eqb by lia.
  setoid_rewrite elem_of_cons.
  destruct (Z.eqb_spec c k) as [<-|Hne]; rewrite ?orb_true_r, ?orb_false_r; [naive_solver|].
  split; [naive_solver|]. intros [?|(v' & [->|?] & ?)]; [auto|congruence|eauto].
Qed.

Lemma FiniteSet_contains_spec (s : FiniteSet T) v k : encode v = Ok k → 0 ≤ k < 128 →
  FiniteSet_contains s v = Ok (Z.testbit (set_bits s) k).
Proof.
  intros He Hk. unfold FiniteSet_contains. rewrite He. simpl. rewrite u128_bit_Ok by lia. simpl.
  f_equal. rewrite Z.shiftl_1_l. destruct (Z.testbit (set_bits s) k) eqn:Hb.
  - destruct (Z.eqb_spec (Z.land (set_bits s) (2 ^ k)) 0) as [Hz|]; [|done].
    assert (Z.testbit (Z.land (set_bits s) (2 ^ k)) k = false) as Hf by (rewrite Hz; apply Z.bits_0).
    rewrite Z.land_spec, Hb, Z.pow2_bits_true in Hf by lia. done.
  - replace (Z.land (set_bits s) (2 ^ k)) with 0; [done|]. symmetry.
    apply Z.bits_inj'. intros n Hn. rewrite Z.bits_0, Z.land_spec, Z.pow2_bits_eqb by lia.
    destruct (Z.eqb_spec k n) as [<-|]; [by rewrite Hb|by rewrite andb_false_r].
Qed.
End FiniteSet.

(** ** Sequences of distinct cards *)

Section Positions.
Context {A : Type} `{EqDecision A}.
Implicit Types (av cs l : list A) (ps : list nat).

Lemma list_position_Some (P : A → bool) l i :
  list_position P l = Some i → ∃ x, l !! i = Some x ∧ P x = true.
Proof.
  revert i; induction l as [|x l IH]; intros i; simpl; [done|]. destruct (P x) eqn:HP.
  - intros [= <-]. by exists x.
  - destruct (list_position P l) as [j|]; [|done]. intros [= <-]. simpl. auto.
Qed.

Lemma list_position_NoDup l i x : NoDup l → l !! i = Some x →
  list_position (λ y, bool_decide (y = x)) l = Some i.
Proof.
  intros Hl; revert i; induction Hl as [|y l Hy Hl IH]; intros i Hi; simpl; [done|].
  case_bool_decide as Hyx; subst.
  - destruct i as [|i]; [done|]. simpl in Hi. apply list_elem_of_lookup_2 in Hi. done.
  - destruct i as [|i]; [simplify_eq/=|]. simpl in Hi. by rewrite (IH i).
Qed.

Lemma list_position_eq l i x : list_position (λ y, bool_decide (y = x)) l = Some i → l !! i = Some x.
Proof. intros (y & Hy & ->%bool_decide_eq_true)%list_position_Some. done. Qed.

(** [lehmer av cs ps]: [cs] is drawn from [av] by removing positions [ps]. *)
Inductive lehmer : list A → list A → list nat → Prop :=
  | lehmer_nil av : lehmer av [] []
  | lehmer_cons av c cs p ps :
      av !! p = Some c → lehmer (delete p av) cs ps → lehmer av (c :: cs) (p :: ps).

Lemma delete_NoDup l p : NoDup l → NoDup (delete p l).
Proof. intros Hl. eapply sublist_NoDup; [done|]. apply sublist_delete. Qed.

Lemma elem_of_delete_NoDup l p x y : NoDup l → l !! p = Some x → y ∈ delete p l ↔ y ∈ l ∧ y ≠ x.
Proof.
  intros Hl Hp. rewrite <-(delete_Permutation l p x Hp) at 2 || idtac.
  pose proof (delete_Permutation l p x Hp) as Hperm.
  rewrite Hperm in Hl. apply NoDup_cons in Hl as [Hx Hl].
  assert (y ∈ l ↔ y = x ∨ y ∈ delete p l) as -> by (rewrite <-elem_of_cons; by apply elem_of_Permutation_proper).
  naive_solver.
Qed.

Lemma lehmer_exists cs : NoDup cs → ∀ av, NoDup av → (∀ c, c ∈ cs → c ∈ av) →
  ∃ ps, lehmer av cs ps.
Proof.
  induction 1 as [|c cs Hc Hcs IH]; intros av Hav Hsub; [exists []; constructor|].
  destruct (proj1 (list_elem_of_lookup _ _) (Hsub c (list_elem_of_here _ _))) as [p Hp].
  destruct (IH (delete p av)) as [ps Hps]; [by apply delete_NoDup| |].
  { intros c' Hc'. rewrite elem_of_delete_NoDup by done. split; [|congruence].
    apply Hsub. by right. }
  exists (p :: ps). by econstructor.
Qed.

Lemma lehmer_of_positions ps : ∀ av, NoDup av →
  Forall2 (λ p j, (p + j < length av)%nat) ps (seq 0 (length ps)) →
  ∃ cs, lehmer av cs ps.
Proof.
  induction ps as [|p ps IH]; intros av Hav Hps; [exists []; constructor|]. simpl in Hps.
  apply Forall2_cons_iff in Hps as [Hp Hps].
  destruct (lookup_lt_is_Some_2 av p) as [c Hc]; [lia|].
  destruct (IH (delete p av)) as [cs Hcs]; [by apply delete_NoDup| |].
  { rewrite <-fmap_S_seq, Forall2_fmap_r in Hps. eapply Forall2_impl; [done|].
    intros q j Hq. simpl in Hq. rewrite length_delete by eauto. lia. }
  exists (c :: cs). by econstructor.
Qed.

Lemma lehmer_spec av cs ps : lehmer av cs ps → NoDup av →
  NoDup cs ∧ (∀ c, c ∈ cs → c ∈ av) ∧ length ps = length cs ∧
  Forall2 (λ p j, (p + j < length av)%nat) ps (seq 0 (length ps)).
Proof.
  induction 1 as [av|av c cs p ps Hp Hl IH]; intros Hav.
  { split_and!; [constructor|by intros ? ?%not_elem_of_nil|done|constructor]. }
  destruct IH as (Hnd & Hsub & Hlen & Hall); [by apply delete_NoDup|]. split_and!.
  - constructor; [|done]. intros Hc%Hsub. apply (elem_of_delete_NoDup _ _ c) in Hc; naive_solver.
  - intros c' [->|Hc']%elem_of_cons; [by eapply list_elem_of_lookup_2|].
    apply Hsub in Hc'. apply (elem_of_delete_NoDup _ _ c) in Hc'; naive_solver.
  - simpl. by rewrite Hlen.
  - simpl. pose proof (lookup_lt_Some _ _ _ Hp). constructor; [lia|].
    rewrite <-fmap_S_seq, Forall2_fmap_r. eapply Forall2_impl; [done|].
    intros q j Hq. simpl in *. rewrite length_delete in Hq by eauto. lia.
Qed.

Lemma lehmer_take av cs ps : lehmer av cs ps → take_positions av ps = Ok cs.
Proof. induction 1 as [|av c cs p ps Hp Hl IH]; simpl; [done|]. rewrite Hp. simpl. by rewrite IH. Qed.
End Positions.

Definition radices (index n : nat) : list Z := (λ j, 52 - Z.of_nat j) <$> seq index n.

Lemma radices_cons index n : radices index (S n) = (52 - Z.of_nat index) :: radices (S index) n.
Proof. done. Qed.

Lemma radices_pos index n : (index + n ≤ 52)%nat → Forall (λ r, 0 < r) (radices index n).
Proof.
  intros Hn. apply Forall_fmap, Forall_forall. intros j Hj%elem_of_seq. simpl. lia.
Qed.

Section UniqueCards.
Context (N : nat) (HN : (N ≤ 52)%nat) (Hprod : prod (radices 0 N) < 2 ^ 128).

Definition UniqueCards_valid (u : UniqueCards N) : Prop :=
  length (unique_cards u) = N ∧ NoDup (unique_cards u) ∧ Forall valid (unique_cards u).

Lemma cardinality_loop n index total : (index + n ≤ 52)%nat → 0 ≤ total →
  total * prod (radices index n) < 2 ^ 128 →
  foldM (λ total index, radix ← u_sub (E := DecodeError) 64 52 (Z.of_nat index); u_mul 128 total radix)
    (seq index n) total = Ok (total * prod (radices index n)).
Proof.
  revert index total; induction n as [|n IH]; intros index total Hn Ht Hb.
  { simpl. f_equal. unfold prod; simpl. lia. }
  rewrite radices_cons in *. change (prod (?r :: ?rs)) with (r * prod rs) in *.
  assert (0 < prod (radices (S index) n)) by (apply prod_pos, radices_pos; lia).
  assert (0 ≤ total * (52 - Z.of_nat index)) by nia.
  simpl seq. rewrite foldM_cons, u_sub_ok by (unfold in_width; lia). simpl.
  rewrite u_mul_ok by (unfold in_width; nia). simpl. rewrite IH by (lia || nia). f_equal. lia.
Qed.

Lemma UniqueCards_cardinality_Ok : UniqueCards_cardinality N = Ok (prod (radices 0 N)).
Proof.
  unfold UniqueCards_cardinality. destruct (Nat.ltb_spec 52 N); [lia|].
  rewrite cardinality_loop by lia. f_equal. lia.
Qed.

Definition deck : list CardId := CardIdOf <$> seqZ 0 52.
#[local] Arguments deck : simpl never.

Lemma enumerate_CardId : enumerate CardId = Ok deck.
Proof. vm_compute. done. Qed.

Lemma length_deck : length deck = 52%nat.
Proof. done. Qed.

Lemma deck_NoDup : NoDup deck.
Proof. apply NoDup_fmap_2; [by intros ?? [= ->]|apply NoDup_seqZ]. Qed.

Lemma elem_of_deck c : valid c ↔ c ∈ deck.
Proof.
  unfold deck. rewrite list_elem_of_fmap. simpl. split.
  - intros Hc. exists (card_code c). destruct c. rewrite elem_of_seqZ. simpl in *. auto with lia.
  - intros (z & -> & Hz%elem_of_seqZ). simpl. lia.
Qed.

Lemma encode_loop_Ok av cs ps : lehmer av cs ps → NoDup av → ∀ index code,
  length av = (52 - index)%nat → (index + length cs ≤ 52)%nat → 0 ≤ code →
  (code + 1) * prod (radices index (length cs)) ≤ 2 ^ 128 →
  UniqueCards_encode_loop av index cs code
    = Ok (mixed code (zip (radices index (length cs)) (Z.of_nat <$> ps))).
Proof.
  induction 1 as [|av c cs p ps Hp Hl IH]; intros Hav index code Hlen Hi Hc Hb; [done|].
  simpl length in *. rewrite radices_cons in *. change (prod (?r :: ?rs)) with (r * prod rs) in Hb.
  pose proof (lookup_lt_Some _ _ _ Hp).
  assert (0 < prod (radices (S index) (length cs))) by (apply prod_pos, radices_pos; lia).
  destruct (mixed_step_bound code (52 - Z.of_nat index) (Z.of_nat p)
    (prod (radices (S index) (length cs))) (2 ^ 128)) as (Hm & Ha & Hn); [lia..|].
  simpl. rewrite (list_position_NoDup _ p) by done. simpl.
  rewrite u_sub_ok by (unfold in_width; lia). simpl.
  rewrite u_mul_ok by done. simpl. rewrite u_add_ok by done. simpl.
  rewrite IH; [done|by apply delete_NoDup|rewrite length_delete by eauto; lia|lia..].
Qed.

Lemma positions_Ok n code : (n ≤ 52)%nat → 0 ≤ code →
  UniqueCards_positions n code = Ok (Z.to_nat <$> digits (reverse (radices 0 n)) code).
Proof.
  revert code; induction n as [|n IH]; intros code Hn Hc; [done|].
  unfold radices. rewrite seq_S, fmap_app, reverse_app. simpl.
  rewrite u_sub_ok by (unfold in_width; lia). simpl.
  destruct (Z.eqb_spec (52 - Z.of_nat n) 0); [lia|].
  rewrite IH by (lia || (apply Z.div_pos; lia)). done.
Qed.

Lemma lehmer_digits ps len : Forall2 (λ p j, (p + j < len)%nat) ps (seq 0 (length ps)) → len = 52%nat →
  Forall digit_ok (zip (radices 0 (length ps)) (Z.of_nat <$> ps)).
Proof.
  intros Hps ->. unfold radices. rewrite zip_with_fmap_l, zip_with_fmap_r.
  revert Hps. generalize (seq 0 (length ps)). intros js.
  induction 1 as [|p j ps js Hp Hall IH]; simpl; constructor; [|done].
  unfold digit_ok; simpl. lia.
Qed.

Lemma length_radices n : length (radices 0 n) = n.
Proof. unfold radices. by rewrite length_fmap, length_seq. Qed.

(** Encoding a valid sequence, then decoding its code. *)
Lemma UniqueCards_encode_decode cs : UniqueCards_valid (UniqueCardsOf cs) → ∃ code,
  UniqueCards_encode (UniqueCardsOf (N := N) cs) = Ok code ∧ 0 ≤ code < prod (radices 0 N) ∧
  UniqueCards_decode N code = Ok (UniqueCardsOf cs).
Proof.
  intros (Hlen & Hnd & Hval). simpl in *.
  destruct (lehmer_exists cs Hnd _ deck_NoDup) as [ps Hps].
  { intros c Hc. apply elem_of_deck. rewrite Forall_forall in Hval. by apply Hval. }
  destruct (lehmer_spec _ _ _ Hps deck_NoDup) as (_ & _ & Hpl & Hall).
  apply lehmer_digits in Hall; [|done]. rewrite Hpl, Hlen in Hall.
  destruct (mixed_bound _ 0 Hall) as [Hlo Hhi]; [done|].
  assert (UniqueCards_encode (UniqueCardsOf (N := N) cs)
          = Ok (mixed 0 (zip (radices 0 N) (Z.of_nat <$> ps)))) as Henc.
  { unfold UniqueCards_encode. rewrite enumerate_CardId. simpl.
    rewrite (encode_loop_Ok _ _ ps); rewrite ?Hlen; (done || lia || apply deck_NoDup). }
  pose proof (digits_mixed _ Hall) as Hdig. set (code := mixed 0 _) in *.
  rewrite fst_zip in Hhi, Hdig by (rewrite length_radices, length_fmap; lia).
  rewrite snd_zip in Hdig by (rewrite length_radices, length_fmap; lia).
  exists code. split_and!; [done|lia..|]. unfold UniqueCards_decode.
  rewrite UniqueCards_cardinality_Ok, enumerate_CardId. simpl.
  destruct (Z.leb_spec (prod (radices 0 N)) code); [lia|].
  rewrite positions_Ok, Hdig, <-fmap_reverse, <-list_fmap_compose by lia. simpl.
  rewrite (list_fmap_ext _ id) by (intros; simpl; lia). rewrite list_fmap_id, reverse_involutive.
  by rewrite (lehmer_take _ cs).
Qed.

(** The digits of a code are positions in the shrinking deck. *)
Lemma digits_positions c : 0 ≤ c < prod (radices 0 N) →
  let ds := reverse (digits (reverse (radices 0 N)) c) in
  mixed 0 (zip (radices 0 N) ds) = c ∧ length ds = N ∧
  Forall2 (λ p j, (p + j < 52)%nat) (Z.to_nat <$> ds) (seq 0 N) ∧
  Z.of_nat <$> (Z.to_nat <$> ds) = ds.
Proof.
  intros Hc ds. destruct (mixed_digits _ c (radices_pos 0 N HN) Hc) as [Hmix Hok].
  fold ds in Hmix, Hok.
  assert (length ds = N) as Hds.
  { unfold ds. by rewrite length_reverse, digits_length, length_reverse, length_radices. }
  assert (Forall2 (λ d j, 0 ≤ d < 52 - Z.of_nat j) ds (seq 0 N)) as Hrange.
  { unfold radices in Hok. clear -Hok Hds. rewrite zip_with_fmap_l in Hok.
    clearbody ds. revert Hok Hds. generalize 0%nat. revert N.
    induction ds as [|d ds IH]; intros n i Hok Hn; [by destruct n|].
    destruct n as [|n]; [done|]. simpl in *. apply Forall_cons in Hok as [Hd Hok].
    constructor; [exact Hd|]. apply IH; [done|lia]. }
  split_and!; [done..| |].
  - apply Forall2_fmap_l. eapply Forall2_impl; [exact Hrange|]. intros d j Hd. simpl in *. lia.
  - clear -Hrange. induction Hrange as [|d j ds' js Hd Hr IH]; [done|].
    rewrite !fmap_cons. f_equal; [lia|exact IH].
Qed.

Lemma UniqueCards_decode_encode c : 0 ≤ c < prod (radices 0 N) → ∃ cs,
  UniqueCards_decode N c = Ok (UniqueCardsOf cs) ∧ UniqueCards_valid (UniqueCardsOf cs) ∧
  UniqueCards_encode (UniqueCardsOf (N := N) cs) = Ok c.
Proof.
  intros Hc. destruct (digits_positions c Hc) as (Hmix & Hds & Hps & Hback).
  set (ds := reverse (digits (reverse (radices 0 N)) c)) in *.
  destruct (lehmer_of_positions (Z.to_nat <$> ds) _ deck_NoDup) as [cs Hcs].
  { by rewrite length_fmap, Hds, length_deck. }
  destruct (lehmer_spec _ _ _ Hcs deck_NoDup) as (Hnd & Hsub & Hpl & _).
  rewrite length_fmap, Hds in Hpl. exists cs. split_and!.
  - unfold UniqueCards_decode. rewrite UniqueCards_cardinality_Ok, enumerate_CardId. simpl.
    destruct (Z.leb_spec (prod (radices 0 N)) c); [lia|].
    rewrite positions_Ok by lia. simpl.
    rewrite <-fmap_reverse. fold ds. by rewrite (lehmer_take _ cs).
  - split_and!; [simpl; lia|done|]. apply Forall_forall. intros c' Hc'. by apply elem_of_deck, Hsub.
  - unfold UniqueCards_encode. rewrite enumerate_CardId. simpl.
    rewrite (encode_loop_Ok _ _ _ Hcs deck_NoDup); rewrite <-?Hpl;
      first [by rewrite Hback, Hmix|done|lia].
Qed.

Definition UniqueCards_lawful : LawfulDomain (UniqueCards N).
Proof.
  lawful UniqueCards_valid (prod (radices 0 N)).
  - split; [|done]. pose proof (prod_pos (radices 0 N) (radices_pos 0 N HN)). lia.
  - apply UniqueCards_cardinality_Ok.
  - intros [cs]. apply UniqueCards_encode_decode.
  - intros c (cs & ?)%UniqueCards_decode_encode. by exists (UniqueCardsOf cs).
  - intros c Hc Hw. change (decode c) with (UniqueCards_decode N c). unfold UniqueCards_decode.
    rewrite UniqueCards_cardinality_Ok. simpl.
    destruct (Z.leb_spec (prod (radices 0 N)) c); [eauto|lia].
Defined.
End UniqueCards.

(** ** The micro-scope partition *)

Definition MicroPartition_valid (p : MicroPartition) : Prop :=
  length (zones p) = 6%nat ∧ zone_counts (zones p) = Ok [2; 2; 1; 1]%nat.

Lemma zone_counts_total zs : ∃ ns, zone_counts zs = Ok ns.
Proof.
  unfold zone_counts. assert (enumerate MicroZone = Ok [ZonePlayer0; ZonePlayer1; ZoneTrump; ZoneUndealt])
    as -> by reflexivity. simpl. eauto.
Qed.

Lemma MicroPartition_new_spec zs :
  ok (E' := DecodeError) (MicroPartition_new zs)
    = Ok (if decide (zone_counts zs = Ok [2; 2; 1; 1]%nat) then Some (MicroPartitionOf zs) else None).
Proof.
  unfold MicroPartition_new. destruct (zone_counts_total zs) as [ns ->]. simpl.
  repeat case_decide; naive_solver.
Qed.

Lemma filter_mapM_omap {E A B} (f : A → outcome E (option B)) (g : A → option B) l :
  (∀ x, f x = Ok (g x)) → filter_mapM f l = Ok (omap (M:=list) g l).
Proof.
  intros Hf. induction l as [|x l IH]; [done|]. simpl. rewrite Hf. simpl. rewrite IH. simpl.
  by destruct (g x).
Qed.

#[local] Instance zone_array_lawful : LawfulDomain (FixedArray MicroZone 6) :=
  FixedArray_lawful 6 eq_refl.

Lemma zone_array_valid (raw : FixedArray MicroZone 6) : valid raw ↔ length (fixed_items raw) = 6%nat.
Proof.
  change (length (fixed_items raw) = 6%nat ∧ Forall (λ _, True) (fixed_items raw)
          ↔ length (fixed_items raw) = 6%nat).
  split; [by intros [? _]|]. split; [done|]. by apply Forall_true.
Qed.

Definition partition_of (raw : FixedArray MicroZone 6) : option MicroPartition :=
  if decide (zone_counts (fixed_items raw) = Ok [2; 2; 1; 1]%nat)
  then Some (MicroPartitionOf (fixed_items raw)) else None.

Lemma raw_partitions_spec : ∃ ps, raw_partitions = Ok ps ∧ NoDup ps ∧ length ps = 180%nat ∧
  ∀ p, p ∈ ps ↔ MicroPartition_valid p.
Proof.
  destruct (enumerate_Ok (A := FixedArray MicroZone 6)) as (raws & Henum & _).
  assert (raw_partitions = Ok (omap (M:=list) partition_of raws)) as Hraw.
  { unfold raw_partitions. rewrite Henum. simpl. apply filter_mapM_omap.
    intros raw. apply MicroPartition_new_spec. }
  exists (omap (M:=list) partition_of raws). split_and!; [done|..].
  - pose proof (enumerate_NoDup raws Henum) as Hnd. clear -Hnd.
    induction Hnd as [|raw raws Hraw Hnd IH]; simpl; [constructor|].
    unfold partition_of at 1. case_decide; [|done]. constructor; [|done].
    intros (raw' & Hin & Heq)%list_elem_of_omap. unfold partition_of in Heq. case_decide; simplify_eq.
    apply Hraw. destruct raw, raw'; simpl in *. congruence.
  - assert (match raw_partitions with Ok l => length l | _ => O end = 180%nat) as Hlen
      by (vm_compute; reflexivity).
    by rewrite Hraw in Hlen.
  - intros p. rewrite list_elem_of_omap. unfold MicroPartition_valid. split.
    + intros (raw & Hin & Heq).
      assert (length (fixed_items raw) = 6%nat).
      { apply (proj1 (zone_array_valid raw)), (proj1 (elem_of_enumerate raws raw Henum)), Hin. }
      unfold partition_of in Heq. destruct (decide _); [|discriminate Heq].
      injection Heq as <-. by split.
    + intros [Hlen Hc]. exists (FixedArrayOf (zones p)). split.
      * apply (proj2 (elem_of_enumerate raws _ Henum)), (proj2 (zone_array_valid _)), Hlen.
      * unfold partition_of; simpl. rewrite decide_True by done. by destruct p.
Qed.

Lemma MicroPartition_encode_decode p : MicroPartition_valid p → ∃ c,
  MicroPartition_encode p = Ok c ∧ 0 ≤ c < 180 ∧ MicroPartition_decode c = Ok p.
Proof.
  destruct raw_partitions_spec as (ps & Hps & Hnd & Hlen & Hval).
  intros Hp%Hval. apply list_elem_of_lookup in Hp as [i Hi].
  pose proof (lookup_lt_Some _ _ _ Hi). exists (Z.of_nat i).
  unfold MicroPartition_encode, MicroPartition_decode. rewrite Hps. simpl.
  rewrite (list_position_NoDup _ i) by done. split_and!; [done|lia..|].
  destruct (Z.leb_spec 180 (Z.of_nat i)); [lia|]. by rewrite Nat2Z.id, Hi.
Qed.

Lemma MicroPartition_decode_encode c : 0 ≤ c < 180 → ∃ p,
  MicroPartition_decode c = Ok p ∧ MicroPartition_valid p ∧ MicroPartition_encode p = Ok c.
Proof.
  destruct raw_partitions_spec as (ps & Hps & Hnd & Hlen & Hval). intros Hc.
  destruct (lookup_lt_is_Some_2 ps (Z.to_nat c)) as [p Hp]; [lia|]. exists p.
  unfold MicroPartition_encode, MicroPartition_decode. rewrite Hps. simpl.
  rewrite (list_position_NoDup _ (Z.to_nat c)) by done. split_and!.
  - destruct (Z.leb_spec 180 c); [lia|]. by rewrite Hp.
  - apply Hval. by eapply list_elem_of_lookup_2.
  - simpl. by rewrite Z2Nat.id by lia.
Qed.

#[export] Instance MicroPartition_lawful : LawfulDomain MicroPartition.
Proof.
  lawful MicroPartition_valid 180.
  - done.
  - done.
  - apply MicroPartition_encode_decode.
  - apply MicroPartition_decode_encode.
  - intros c Hc Hw. change (decode c) with (MicroPartition_decode c). unfold MicroPartition_decode.
    destruct (Z.leb_spec 180 c); [eauto|lia].
Defined.
