(* ===== verification/DomainTheorems.v ===== *)
(** * Properties of the finite domains *)

From S2P Require Import Prelude Domain DomainLaws.
From stdpp Require Import base strings numbers option list.

Local Open Scope Z_scope.

(** The canonical spelling of a card. *)
Definition rank_name (rank : Z) : string :=
  default "ace" (["two"; "three"; "four"; "five"; "six"; "seven"; "eight"; "nine"; "ten"; "jack";
                  "queen"; "king"; "ace"] !! Z.to_nat (rank - 2)).

Definition suit_name (s : Suit) : string :=
  match s with
  | Clubs => "clubs" | Diamonds => "diamonds" | Hearts => "hearts" | Spades => "spades"
  end.

Definition card_name (suit : Suit) (rank : Z) : string :=
  (rank_name rank +:+ String dash (suit_name suit))%string.

Lemma split_once_spec sep s a b :
  split_once sep s = Some (a, b) ↔ s = (a +:+ String sep b)%string ∧ contains_char sep a = false.
Proof.
  revert a b; induction s as [|c s IH]; intros a b; simpl.
  { split; [done|]. intros [H _]. by destruct a. }
  case_decide as Hc; [subst c|].
  - split; [intros [= <- <-]; done|]. intros [H Hn]. destruct a as [|c a]; simpl in *.
    + injection H as ->. done.
    + injection H as <- ->. by rewrite decide_True in Hn.
  - destruct (split_once sep s) as [[a' b']|] eqn:Hs; simpl.
    + pose proof (proj1 (IH a' b') eq_refl) as [-> Ha']. split.
      * intros [= <- <-]. simpl. by rewrite decide_False.
      * intros [H Ha]. destruct a as [|c' a]; [by injection H|].
        change (String c (a' +:+ String sep b')%string = String c' (a +:+ String sep b)%string) in H.
        simpl in Ha. injection H as <- H.
        rewrite decide_False in Ha by done.
        by pose proof (proj2 (IH a b) (conj H Ha)) as [= -> ->].
    + split; [done|]. intros [H Ha]. destruct a as [|c' a]; [by injection H|].
      change (String c s = String c' (a +:+ String sep b)%string) in H. simpl in Ha.
      injection H as <- ->. rewrite decide_False in Ha by done.
      by pose proof (proj2 (IH a b) (conj eq_refl Ha)).
Qed.

Lemma rank_named_spec name z : rank_named name = Some z ↔ 2 ≤ z ≤ 14 ∧ name = rank_name z.
Proof.
  split.
  - unfold rank_named. intros H. repeat case_decide; simplify_eq; split; by try lia.
  - intros [Hz ->].
    assert (z = 2 ∨ z = 3 ∨ z = 4 ∨ z = 5 ∨ z = 6 ∨ z = 7 ∨ z = 8 ∨ z = 9 ∨ z = 10 ∨ z = 11
            ∨ z = 12 ∨ z = 13 ∨ z = 14) as Hcases by lia.
    repeat (destruct Hcases as [->|Hcases]; [reflexivity|]). by subst z.
Qed.

Lemma suit_named_spec name s : suit_named name = Some s ↔ name = suit_name s.
Proof.
  split.
  - unfold suit_named. intros H. repeat case_decide; by simplify_eq.
  - intros ->. by destruct s.
Qed.

Lemma rank_name_no_dash z : contains_char dash (rank_name z) = false.
Proof.
  unfold rank_name. destruct (Z.to_nat (z - 2)) as [|n]; [done|].
  do 12 (destruct n as [|n]; [done|]). done.
Qed.

Lemma suit_name_no_dash s : contains_char dash (suit_name s) = false.
Proof. by destruct s. Qed.

Lemma Rank_new_Ok z : 2 ≤ z ≤ 14 → Rank_new z = Ok (RankOf (BoundedU8Of z)).
Proof. intros Hz. unfold Rank_new, BoundedU8_new. simpl. by destruct (Z.leb_spec 2 z), (Z.leb_spec z 14); try lia. Qed.

Lemma CardId_new_Ok suit z : 2 ≤ z ≤ 14 →
  CardId_new suit (RankOf (BoundedU8Of z)) = Ok (CardIdOf (Suit_encode suit * 13 + (z - 2))).
Proof.
  intros Hz. unfold CardId_new.
  change (encode suit) with (Ok (E := DecodeError) (Suit_encode suit)).
  change (encode (RankOf (BoundedU8Of z))) with (u_sub (E := DecodeError) 8 z 2).
  assert (0 ≤ Suit_encode suit ≤ 3) by (destruct suit; simpl; lia). simpl.
  rewrite u_mul_ok by (unfold in_width; lia). simpl.
  rewrite u_sub_ok by (unfold in_width; lia). simpl.
  rewrite u_add_ok by (unfold in_width; lia). simpl.
  by rewrite (proj2 (expect_Ok _ (Suit_encode suit * 13 + (z - 2)))) by
    (apply checked_Some; unfold in_width; lia).
Qed.

(** [parse_card_name] accepts exactly the 52 canonical spellings: the input
    parses to a card iff it is [rank-suit] in lower case for a rank 2..14 and one of
    the four suits, and the result is the card with code [suit * 13 + rank - 2].  It
    never panics. *)
Theorem parse_card_name_exact (s : string) (c : CardId) :
  (parse_card_name s = Ok c ↔
     ∃ suit rank, 2 ≤ rank ≤ 14 ∧ s = card_name suit rank ∧
       c = CardIdOf (Suit_encode suit * 13 + (rank - 2))) ∧
  parse_card_name s ≠ Panic.
Proof.
  unfold parse_card_name. destruct (split_once dash s) as [[r t]|] eqn:Hs; simpl; cycle 1.
  { split; [|done]. split; [done|]. intros (suit & rank & Hr & -> & _).
    assert (split_once dash (card_name suit rank) = Some (rank_name rank, suit_name suit)) as Hs'.
    { apply split_once_spec. split; [done|]. apply rank_name_no_dash. }
    congruence. }
  pose proof Hs as [-> _]%split_once_spec.
  assert (∀ suit rank, (r +:+ String dash t)%string = card_name suit rank →
            r = rank_name rank ∧ t = suit_name suit) as Hinj.
  { intros suit rank Heq.
    assert (split_once dash (card_name suit rank) = Some (rank_name rank, suit_name suit)) as Hs'.
    { apply split_once_spec. split; [done|]. apply rank_name_no_dash. }
    rewrite <-Heq, Hs in Hs'. by simplify_eq. }
  destruct (contains_char dash t) eqn:Ht.
  { split; [|done]. split; [done|]. intros (suit & rank & _ & [_ ->]%Hinj & _).
    by rewrite suit_name_no_dash in Ht. }
  destruct (rank_named r) as [z|] eqn:Hr; simpl; cycle 1.
  { split; [|done]. split; [done|]. intros (suit & rank & Hz & [-> _]%Hinj & _).
    rewrite (proj2 (rank_named_spec _ rank)) in Hr; done. }
  apply rank_named_spec in Hr as [Hz ->].
  destruct (suit_named t) as [suit|] eqn:Hsuit; simpl; cycle 1.
  { split; [|done]. split; [done|]. intros (suit & rank & _ & [_ ->]%Hinj & _).
    rewrite (proj2 (suit_named_spec _ suit)) in Hsuit; done. }
  apply suit_named_spec in Hsuit as ->.
  rewrite Rank_new_Ok by done. simpl. rewrite CardId_new_Ok by done. simpl.
  split; [|done]. split.
  - intros [= <-]. by exists suit, z.
  - intros (suit' & rank & Hrank & [Hr Hs']%Hinj & ->).
    assert (Some z = Some rank) as [= ->].
    { rewrite <-(proj2 (rank_named_spec (rank_name z) z)), Hr by done. by apply rank_named_spec. }
    assert (Some suit = Some suit') as [= ->]; [|done].
    rewrite <-(proj2 (suit_named_spec (suit_name suit) suit)), Hs' by done. by apply suit_named_spec.
Qed.

(** For every lawful domain, [enumerate] never panics and lists each valid value
    exactly once, at the index equal to its code. *)
Theorem enumerate_exact (A : Type) `{LawfulDomain A} :
  ∃ vs, enumerate A = Ok vs ∧ Z.of_nat (length vs) = dom_size A ∧ NoDup vs ∧
    (∀ a, a ∈ vs ↔ valid a) ∧
    (∀ i a, vs !! i = Some a → encode a = Ok (Z.of_nat i)).
Proof.
  destruct enumerate_Ok as (vs & Hvs & _). pose proof size_in_width as [Hs Hs'].
  exists vs. split_and!; [done|by apply enumerate_length|by apply enumerate_NoDup|..].
  - intros a. by apply elem_of_enumerate.
  - intros i a Hi. destruct (enumerate_lookup vs i a Hvs Hi) as [Hd ?].
    apply decode_Ok in Hd as (_ & _ & He); [done|]. unfold in_width; lia.
Qed.

(** [bit_width] is the least width that holds every code: codes fit in it, and a
    domain with two values or more needs its top bit. *)
Theorem bit_width_minimal (A : Type) `{LawfulDomain A} :
  ∃ w, bit_width A = Ok w ∧ 0 ≤ w ≤ 128 ∧ dom_size A ≤ 2 ^ w ∧ (1 < dom_size A → 2 ^ (w - 1) < dom_size A).
Proof.
  unfold bit_width. rewrite cardinality_size. simpl. pose proof size_in_width as [Hs Hs'].
  eexists; split; [done|]. unfold leading_zeros, saturating_sub.
  destruct (Z.eqb_spec (Z.max 0 (dom_size A - 1)) 0) as [Hz|Hz].
  - split_and!; [lia..| |lia]. change (dom_size A ≤ 1). lia.
  - assert (0 < dom_size A - 1) by lia. rewrite Z.max_r by lia.
    destruct (Z.log2_spec (dom_size A - 1)) as [Hlo Hhi]; [done|].
    pose proof (Z.log2_nonneg (dom_size A - 1)).
    assert (Z.log2 (dom_size A - 1) < 128).
    { apply Z.log2_lt_pow2; lia. }
    replace (128 - (128 - (Z.log2 (dom_size A - 1) + 1))) with (Z.log2 (dom_size A - 1) + 1) by lia.
    rewrite Z.add_simpl_r. unfold Z.succ in Hhi. split_and!; lia.
Qed.

(** A sequence of distinct cards has exactly one code below the falling factorial
    [52 * 51 * ...], and every such code decodes to a sequence of distinct cards that
    encodes back to it; no code collides and none is wasted. *)
Theorem unique_cards_roundtrip (N : nat) :
  (N ≤ 52)%nat → prod (radices 0 N) < 2 ^ 128 →
  UniqueCards_cardinality N = Ok (prod (radices 0 N)) ∧
  (∀ u : UniqueCards N, UniqueCards_valid N u → ∃ code,
     UniqueCards_encode u = Ok code ∧ 0 ≤ code < prod (radices 0 N) ∧
     UniqueCards_decode N code = Ok u) ∧
  (∀ code, 0 ≤ code < prod (radices 0 N) → ∃ u,
     UniqueCards_decode N code = Ok u ∧ UniqueCards_valid N u ∧ UniqueCards_encode u = Ok code).
Proof.
  intros HN Hp. split_and!.
  - by apply UniqueCards_cardinality_Ok.
  - intros [cs] Hv. by apply UniqueCards_encode_decode.
  - intros code Hc. destruct (UniqueCards_decode_encode N HN Hp code Hc) as (cs & ?). eauto.
Qed.

Lemma unique_cards_roundtrip_witness :
  (2 ≤ 52)%nat ∧ prod (radices 0 2) < 2 ^ 128 ∧ UniqueCards_cardinality 2 = Ok 2652.
Proof.
  split_and!; [lia|reflexivity|].
  destruct (unique_cards_roundtrip 2) as [Hc _]; [lia|reflexivity|exact Hc].
Defined.

(** The complete six-card partitions of the micro scope are dense: the 180 codes are
    exactly the partitions with zone counts [2,2,1,1], both ways. *)
Theorem micro_partition_dense :
  (∀ p, MicroPartition_valid p → ∃ c,
     MicroPartition_encode p = Ok c ∧ 0 ≤ c < 180 ∧ MicroPartition_decode c = Ok p) ∧
  (∀ c, 0 ≤ c < 180 → ∃ p,
     MicroPartition_decode c = Ok p ∧ MicroPartition_valid p ∧ MicroPartition_encode p = Ok c).
Proof. split; [apply MicroPartition_encode_decode|apply MicroPartition_decode_encode]. Qed.

Lemma zip_membership {T} `{LawfulDomain T} (vs : list T) (v : T) c :
  Forall valid vs → valid v → encode v = Ok c → (∃ v', v' ∈ vs ∧ encode v' = Ok c) ↔ v ∈ vs.
Proof.
  intros Hvs Hv He. split; [|by eauto]. intros (v' & Hin & He').
  rewrite Forall_forall in Hvs. by rewrite (encode_inj v v' c) by auto.
Qed.

(** A mask built by [from_values] contains exactly the values it was built from. *)
Theorem finite_set_membership {T : Type} `{LawfulDomain T} (vs : list T) (v : T) :
  dom_size T < 128 → Forall valid vs → valid v →
  ∃ s, FiniteSet_from_values vs = Ok s ∧
       (FiniteSet_contains s v = Ok true ↔ v ∈ vs) ∧ FiniteSet_contains s v ≠ Panic.
Proof.
  intros Hs Hvs Hv. destruct (mask_loop_Ok Hs vs 0 Hvs) as (bits & Hloop & Hbits).
  exists (FiniteSetOf bits). unfold FiniteSet_from_values. rewrite assert_mask_width_Ok by done. simpl.
  rewrite Hloop. split; [done|].
  destruct (encode_valid v Hv) as (c & He & Hr & _).
  rewrite (FiniteSet_contains_spec _ v c) by (done || lia). simpl. split; [|done].
  rewrite <-(zip_membership vs v c Hvs Hv He). specialize (Hbits c ltac:(lia)).
  rewrite Z.bits_0 in Hbits. split.
  - intros [= Hb]. apply Hbits in Hb as [?|?]; done.
  - intros Hin. f_equal. apply Hbits. by right.
Qed.

Lemma finite_set_membership_witness :
  ∃ s, FiniteSet_from_values [Clubs; Spades] = Ok s ∧
       (FiniteSet_contains s Spades = Ok true ↔ Spades ∈ [Clubs; Spades]) ∧
       FiniteSet_contains s Spades ≠ Panic.
Proof. apply (finite_set_membership [Clubs; Spades] Spades); [reflexivity|by repeat constructor|done]. Defined.

(** ** The wire shape *)

#[local] Arguments PlayerCount_new : simpl never.
#[local] Arguments BoundedU8_new : simpl never.
#[local] Arguments UniqueCards_new : simpl never.
#[local] Arguments MicroPartition_new : simpl never.

Lemma no_repeats_spec before cards :
  no_repeats before cards = true ↔ NoDup cards ∧ ∀ c, c ∈ cards → c ∉ before.
Proof.
  revert before; induction cards as [|c cards IH]; intros before; simpl.
  { split; [|done]. intros _. split; [constructor|]. by intros c ?%not_elem_of_nil. }
  rewrite NoDup_cons. setoid_rewrite elem_of_cons. case_decide as Hc.
  { split; [done|]. intros [_ Hb]. by destruct (Hb c (or_introl eq_refl)). }
  rewrite IH. setoid_rewrite elem_of_app. setoid_rewrite list_elem_of_singleton. naive_solver.
Qed.

Lemma UniqueCards_new_Ok N cs (u : UniqueCards N) : (N ≤ 52)%nat →
  UniqueCards_new N cs = Ok u ↔ NoDup cs ∧ u = UniqueCardsOf cs.
Proof.
  intros HN. unfold UniqueCards_new. destruct (Nat.ltb_spec 52 N); [lia|].
  destruct (no_repeats [] cs) eqn:Hr.
  - apply no_repeats_spec in Hr as [Hnd _]. naive_solver.
  - split; [done|]. intros [Hnd _]. assert (no_repeats [] cs = true) as Ht; [|congruence].
    apply no_repeats_spec. split; [done|]. intros c _. apply not_elem_of_nil.
Qed.

Lemma BoundedU8_new_Ok MIN MAX v (b : BoundedU8 MIN MAX) :
  BoundedU8_new MIN MAX v = Ok b ↔ MIN ≤ v ≤ MAX ∧ b = BoundedU8Of v.
Proof.
  unfold BoundedU8_new.
  destruct (Z.leb_spec MIN MAX), (Z.leb_spec MIN v), (Z.leb_spec v MAX); simpl; naive_solver lia.
Qed.

Lemma PlayerCount_new_Ok v p : PlayerCount_new v = Ok p ↔ 2 ≤ v ≤ 51 ∧ p = PlayerCountOf (BoundedU8Of v).
Proof.
  unfold PlayerCount_new. destruct (BoundedU8_new 2 51 v) as [b| |] eqn:Hb; simpl.
  - apply BoundedU8_new_Ok in Hb as [? ->]. naive_solver.
  - split; [done|]. intros [Hv _]. by rewrite (proj2 (BoundedU8_new_Ok 2 51 v _) (conj Hv eq_refl)) in Hb.
  - split; [done|]. intros [Hv _]. by rewrite (proj2 (BoundedU8_new_Ok 2 51 v _) (conj Hv eq_refl)) in Hb.
Qed.

Lemma MicroPartition_new_Ok zs p :
  MicroPartition_new zs = Ok p ↔ zone_counts zs = Ok [2; 2; 1; 1]%nat ∧ p = MicroPartitionOf zs.
Proof.
  unfold MicroPartition_new. destruct (zone_counts zs) as [ns| |]; simpl; [|naive_solver..].
  case_decide; naive_solver.
Qed.

Lemma mapM_CardId_decode zs cs : Forall (in_width 8) zs →
  mapM CardId_decode zs = Ok cs ↔ zs = card_code <$> cs ∧ Forall valid cs.
Proof.
  intros Hzs; revert cs; induction Hzs as [|z zs Hz Hzs IH]; intros cs; simpl.
  { split; [by intros [= <-]|]. intros [Hcs _]. by destruct cs. }
  rewrite bind_Ok. setoid_rewrite bind_Ok. split.
  - intros (c & Hc & cs' & Hcs' & [= <-]). apply IH in Hcs' as [-> Hv].
    unfold in_width in Hz. unfold CardId_decode in Hc. destruct (Z.leb_spec 52 z); [done|].
    inv_ok. apply checked_Some in H0 as [-> _]. simpl. split; [done|]. constructor; [simpl; lia|done].
  - intros [Heq Hv]. destruct cs as [|[c] cs]; [done|]. simplify_eq/=.
    apply Forall_cons in Hv as [Hc Hv]. simpl in Hc.
    exists (CardIdOf c). rewrite CardId_decode_in by done. split; [done|].
    exists cs. split; [by apply IH|done].
Qed.

Lemma mapM_MicroZone_decode cs zs :
  mapM MicroZone_decode cs = Ok zs ↔ cs = MicroZone_wire_code <$> zs.
Proof.
  revert zs; induction cs as [|c cs IH]; intros zs; simpl.
  { split; [by intros [= <-]|]. by destruct zs. }
  rewrite bind_Ok. setoid_rewrite bind_Ok. split.
  - intros (z & Hz & zs' & Hzs' & [= <-]). apply IH in Hzs' as ->. simpl. f_equal.
    revert Hz. unfold MicroZone_decode. repeat case_match; naive_solver.
  - intros Heq. destruct zs as [|z zs]; [done|]. simplify_eq/=.
    exists z. split; [by destruct z|]. exists zs. split; [by apply IH|done].
Qed.

Definition fixture_valid (f : SelectedScopeFixture) : Prop :=
  valid (fixture_player_count f) ∧ 0 ≤ bounded_get (fixture_bid f) ≤ 2 ∧
  UniqueCards_valid 2 (fixture_distinct_cards f) ∧ MicroPartition_valid (fixture_partition f).

(** the [u8] and array shapes of the wire record *)
Definition wire_shaped (w : SelectedScopeWire) : Prop :=
  in_width 8 (wire_player_count w) ∧ in_width 8 (wire_bid w) ∧
  length (wire_distinct_cards w) = 2%nat ∧ Forall (in_width 8) (wire_distinct_cards w) ∧
  length (wire_partition w) = 6%nat.

(** Decoding the wire shape revalidates the semantics and is inverse to encoding:
    a wire record is accepted exactly when it is the encoding of a valid fixture, and
    then the fixture is recovered unchanged.  Duplicate cards, wrong zone counts, bids
    and player counts out of range are therefore all refused. *)
Theorem wire_roundtrip (w : SelectedScopeWire) (f : SelectedScopeFixture) :
  wire_shaped w → (from_wire w = Ok f ↔ fixture_valid f ∧ to_wire f = w).
Proof.
  intros (_ & _ & Hlen2 & Hcards & Hlen6). unfold from_wire. split.
  - intros H. inv_ok.
    match goal with H : mapM CardId_decode _ = _ |- _ => apply mapM_CardId_decode in H as [Hc Hv]; [|done] end.
    match goal with H : mapM MicroZone_decode _ = _ |- _ => apply mapM_MicroZone_decode in H as Hz end.
    match goal with H : PlayerCount_new _ = _ |- _ => apply PlayerCount_new_Ok in H as [? ->] end.
    match goal with H : BoundedU8_new _ _ _ = _ |- _ => apply BoundedU8_new_Ok in H as [? ->] end.
    match goal with H : UniqueCards_new _ _ = _ |- _ => apply UniqueCards_new_Ok in H as [? ->]; [|lia] end.
    match goal with H : MicroPartition_new _ = _ |- _ => apply MicroPartition_new_Ok in H as [? ->] end.
    rewrite Hc, length_fmap in Hlen2. rewrite Hz, length_fmap in Hlen6.
    split.
    { unfold fixture_valid, UniqueCards_valid, MicroPartition_valid, BoundedU8_valid. simpl.
      split_and!; done || lia. }
    destruct w; unfold to_wire; simpl in *. by rewrite Hc, Hz.
  - intros [([Hp1 Hp2] & Hb & (Hl & Hnd & Hv) & Hl6 & Hzc) <-]. destruct f as [[[p]] [b] [cs] [zs]].
    simpl in *. rewrite (proj2 (mapM_CardId_decode _ cs Hcards)) by done. simpl.
    rewrite (proj2 (mapM_MicroZone_decode _ zs) eq_refl). simpl.
    change (PlayerCount_get _) with p. rewrite (proj2 (PlayerCount_new_Ok p _) (conj (conj Hp1 Hp2) eq_refl)). simpl.
    rewrite (proj2 (BoundedU8_new_Ok 0 2 b _) (conj Hb eq_refl)). simpl.
    rewrite (proj2 (UniqueCards_new_Ok 2 cs _ ltac:(lia)) (conj Hnd eq_refl)). simpl.
    by rewrite (proj2 (MicroPartition_new_Ok zs _) (conj Hzc eq_refl)).
Qed.

Lemma wire_roundtrip_witness :
  let w := {| wire_player_count := 2; wire_bid := 2; wire_distinct_cards := [0; 51];
              wire_partition := [0; 0; 1; 1; 2; 3] |} in
  ∃ f, from_wire w = Ok f ∧ fixture_valid f ∧ to_wire f = w.
Proof.
  intros w. destruct (from_wire w) as [f| |] eqn:Hf; [|discriminate Hf..].
  exists f. split; [reflexivity|]. apply (wire_roundtrip w f); [|exact Hf].
  repeat split; try done; by repeat constructor.
Defined.
