(* ===== verification/Oracle.v ===== *)
(** * The conventional rule oracle (crates/poche-oracle-rust)

    Cards, card zones, tricks, the phase-indexed game state and its transition
    function, the observation of one viewer and the physical selection
    methods.  Definitions only; the const generic [PLAYERS] is the section
    parameter.  A [Seat] is its index, an array is a list, [u8], [u16] and
    [u32] fields are [Z], and [usize] indices and lengths are [nat]. *)

From S2P Require Import Prelude.
From stdpp Require Import base strings numbers option list.

Definition DECK_SIZE : nat := 52.
Definition MAX_HAND_SIZE : nat := 7.
Definition OPENING_ANTE_CENTS : Z := 25.
Definition MISSED_BID_PAYMENT_CENTS : Z := 10.

(** ** Cards *)

Inductive Suit : Type := Clubs | Diamonds | Hearts | Spades.

Inductive Rank : Type :=
  | Two | Three | Four | Five | Six | Seven | Eight | Nine | Ten
  | Jack | Queen | King | Ace.

#[export] Instance Suit_eq_dec : EqDecision Suit.
Proof. solve_decision. Defined.
#[export] Instance Rank_eq_dec : EqDecision Rank.
Proof. solve_decision. Defined.
#[export] Instance Suit_inhabited : Inhabited Suit := populate Clubs.
#[export] Instance Rank_inhabited : Inhabited Rank := populate Two.

Definition Suit_ALL : list Suit := [Clubs; Diamonds; Hearts; Spades].

Definition Rank_ALL : list Rank :=
  [Two; Three; Four; Five; Six; Seven; Eight; Nine; Ten; Jack; Queen; King; Ace].

(** the [as usize] casts of the field-less enums, which also give the derived order *)
Definition suit_index (s : Suit) : nat :=
  match s with Clubs => 0 | Diamonds => 1 | Hearts => 2 | Spades => 3 end.

Definition rank_index (r : Rank) : nat :=
  match r with
  | Two => 0 | Three => 1 | Four => 2 | Five => 3 | Six => 4 | Seven => 5 | Eight => 6
  | Nine => 7 | Ten => 8 | Jack => 9 | Queen => 10 | King => 11 | Ace => 12
  end.

Record Card : Type := CardOf { suit : Suit; rank : Rank }.

#[export] Instance Card_eq_dec : EqDecision Card.
Proof. solve_decision. Defined.

Definition standard_deck : list Card :=
  (λ index, CardOf (Suit_ALL !!! (index / length Rank_ALL)) (Rank_ALL !!! (index mod length Rank_ALL)))
  <$> seq 0 DECK_SIZE.

Definition card_index (c : Card) : nat := suit_index (suit c) * length Rank_ALL + rank_index (rank c).

(** ** Errors *)

Inductive RuleViolation : Type :=
  | InvalidPlayerCount (players : nat)
  | InvalidSeat (index players : nat)
  | DuplicateCard (card : Card)
  | IncompleteDeck
  | CardZoneFull
  | WrongPhase
  | WrongActor
  | BidOutOfRange (bid hand_size : Z)
  | CardNotInHand (card : Card)
  | MustFollowSuit (lead : Suit)
  | TrickFull
  | NoSelectionCandidates
  | CardConservation (card : Card) (count : Z).

Notation result A := (outcome RuleViolation A).

(** ** Card zones *)

(** [FixedCards<CAPACITY>]: [slots] has length [CAPACITY]. *)
Record FixedCards : Type := FixedCardsOf { slots : list (option Card); len : nat }.

Definition FixedCards_default (CAPACITY : nat) : FixedCards :=
  FixedCardsOf (replicate CAPACITY None) 0.

Definition is_empty (f : FixedCards) : bool := len f =? 0.

(** [slots.iter().flatten().copied()] *)
Definition iter (f : FixedCards) : list Card := omap id (slots f).

Definition contains (f : FixedCards) (card : Card) : bool :=
  existsb (λ candidate, bool_decide (candidate = card)) (iter f).

Definition contains_suit (f : FixedCards) (s : Suit) : bool :=
  existsb (λ card, bool_decide (suit card = s)) (iter f).

(** Replaces the first slot that satisfies [P], as [iter_mut().find(..)] does. *)
Fixpoint replace_first {A} (P : A → bool) (x : A) (l : list A) : option (list A) :=
  match l with
  | [] => None
  | y :: l => if P y then Some (x :: l) else cons y <$> replace_first P x l
  end.

Definition push (f : FixedCards) (card : Card) : result FixedCards :=
  match replace_first (λ slot, match slot with None => true | _ => false end) (Some card) (slots f) with
  | None => Err CardZoneFull
  | Some slots' => Ok (FixedCardsOf slots' (S (len f)))
  end.

Definition remove (f : FixedCards) (card : Card) : result FixedCards :=
  match replace_first (λ slot, bool_decide (slot = Some card)) None (slots f) with
  | None => Err (CardNotInHand card)
  | Some slots' => match len f with O => Panic | S n => Ok (FixedCardsOf slots' n) end
  end.

Definition Hand_default : FixedCards := FixedCards_default MAX_HAND_SIZE.
Definition CardPile_default : FixedCards := FixedCards_default DECK_SIZE.

(** ** Seats and decks *)

(** [Seat<PLAYERS>] is a private index below [PLAYERS]. *)
Notation Seat := nat (only parsing).

Definition validate_player_count (players : nat) : result unit :=
  if (2 <=? players) && (players <=? 51) then Ok tt else Err (InvalidPlayerCount players).

(** [DeckOrder]: a validated list of 52 cards. *)
Notation DeckOrder := (list Card) (only parsing).

Fixpoint DeckOrder_scan (seen : list bool) (cards : list Card) : result (list bool) :=
  match cards with
  | [] => Ok seen
  | card :: rest =>
      present ← expect (seen !! card_index card);
      if (present : bool) then Err (DuplicateCard card)
      else DeckOrder_scan (<[card_index card := true]> seen) rest
  end.

Definition DeckOrder_new (cards : list Card) : result DeckOrder :=
  seen ← DeckOrder_scan (replicate DECK_SIZE false) cards;
  if existsb negb seen then Err IncompleteDeck else Ok cards.

Definition DeckOrder_standard : DeckOrder := standard_deck.

(** ** Schedule and scoring *)

(** [const fn]s over [usize]: division by zero and subtraction below zero panic. *)
Definition usize_sub (a b : nat) : result nat := if b <=? a then Ok (a - b) else Panic.
Definition usize_div (a b : nat) : result nat := if b =? 0 then Panic else Ok (a / b).

Definition max_hand_size (players : nat) : result nat :=
  deck_limited ← usize_div 51 players;
  Ok (if deck_limited <? MAX_HAND_SIZE then deck_limited else MAX_HAND_SIZE).

Definition round_count (players : nat) : result nat :=
  maximum ← max_hand_size players; usize_sub (maximum * 2) 1.

Definition hand_size_for_round (players round_index : nat) : result nat :=
  maximum ← max_hand_size players;
  if round_index <? maximum then Ok (round_index + 1)
  else n ← usize_sub (maximum * 2) round_index; usize_sub n 1.

Inductive BidOutcome : Type := Missed | Exact | AllTricks.

Record RoundScore : Type := {
  score_bid : Z; score_tricks : Z; score_outcome : BidOutcome; points : Z; payment_cents : Z;
}.

Definition score_round (bid tricks hand_size : Z) : RoundScore :=
  if negb (tricks =? bid)%Z then
    {| score_bid := bid; score_tricks := tricks; score_outcome := Missed;
       points := 0; payment_cents := MISSED_BID_PAYMENT_CENTS |}
  else if (tricks =? hand_size)%Z then
    {| score_bid := bid; score_tricks := tricks; score_outcome := AllTricks;
       points := 20 + bid; payment_cents := 0 |}
  else
    {| score_bid := bid; score_tricks := tricks; score_outcome := Exact;
       points := 10 + bid; payment_cents := 0 |}.

Inductive ScoreCell : Type :=
  | CellPoche | CellExact (bid written : Z) | CellAllTricks (bid written : Z).

Definition score_cell (s : RoundScore) : result ScoreCell :=
  match score_outcome s with
  | Missed => Ok CellPoche
  | Exact => written ← u_add 8 10 (score_bid s); Ok (CellExact (score_bid s) written)
  | AllTricks => written ← u_add 8 20 (score_bid s); Ok (CellAllTricks (score_bid s) written)
  end.

(** ** Tricks *)

Record PlayedCard : Type := PlayedCardOf { player : Seat; card : Card }.

Record Trick : Type := TrickOf { trick_cards : list (option PlayedCard); trick_len : nat }.

Definition Trick_iter (t : Trick) : list PlayedCard := omap id (trick_cards t).

Definition lead_suit (t : Trick) : option Suit :=
  match trick_cards t with
  | Some item :: _ => Some (suit (card item))
  | _ => None
  end.

(** The lexicographic order on [(u8, Rank)] keys. *)
Definition key_gt (a b : nat * nat) : bool :=
  (b.1 <? a.1) || ((a.1 =? b.1) && (b.2 <? a.2)).

Definition play_key (trump lead : Suit) (p : PlayedCard) : nat * nat :=
  ((if decide (suit (card p) = trump) then 2
    else if decide (suit (card p) = lead) then 1 else 0),
   rank_index (rank (card p))).

(** ** States *)

Inductive PhaseTag : Type :=
  | TagAwaitingDeal | TagBidding | TagPlaying | TagScoring | TagFinished.

Inductive Turn : Type :=
  | TurnChance | TurnPlayer (seat : Seat) | TurnEnvironment | TurnFinished.

Record Ledger : Type := {
  dealer : Seat; round_index : nat; scores : list Z; pot_cents : Z;
}.

Record Bidding : Type := {
  bd_ledger : Ledger;
  bd_hand_size : Z;
  bd_hands : list FixedCards;
  bd_trump : Card;
  bd_stock : FixedCards;
  bd_bids : list (option Z);
  bd_actor : Seat;
  bd_bids_made : nat;
}.

Record Playing : Type := {
  pl_ledger : Ledger;
  pl_hand_size : Z;
  pl_hands : list FixedCards;
  pl_trump : Card;
  pl_stock : FixedCards;
  pl_bids : list Z;
  pl_actor : Seat;
  pl_leader : Seat;
  pl_trick : Trick;
  pl_captured : list FixedCards;
  pl_tricks_won : list Z;
}.

Record Scoring : Type := {
  sc_ledger : Ledger;
  sc_hand_size : Z;
  sc_trump : Card;
  sc_stock : FixedCards;
  sc_bids : list Z;
  sc_captured : list FixedCards;
  sc_tricks_won : list Z;
}.

Record Finished : Type := {
  fin_scores : list Z; fin_pot_cents : Z; fin_winners : list bool;
}.

(** [Game]'s only field is its state; [AwaitingDeal] holds only the ledger. *)
Inductive GameState : Type :=
  | SAwaitingDeal (ledger : Ledger)
  | SBidding (s : Bidding)
  | SPlaying (s : Playing)
  | SScoring (s : Scoring)
  | SFinished (s : Finished).

Inductive Action : Type :=
  | ADeal (deck : DeckOrder)
  | ABid (player : Seat) (tricks : Z)
  | APlay (player : Seat) (card : Card)
  | ASettleRound.

Record PotDivision : Type := {
  winner_count : nat; cents_per_winner : Z; remainder_cents : Z;
}.

Definition pot_division (f : Finished) : option PotDivision :=
  let count := length (filter (λ winner, winner = true) (fin_winners f)) in
  divisor ← checked 32 (Z.of_nat count);
  if (divisor =? 0)%Z then None
  else Some {| winner_count := count;
               cents_per_winner := fin_pot_cents f / divisor;
               remainder_cents := fin_pot_cents f mod divisor |}.

Record Transition : Type := {
  next : GameState; round_scores : option (list RoundScore);
}.

Record Observation : Type := {
  obs_phase : PhaseTag;
  obs_viewer : Seat;
  obs_dealer : option Seat;
  obs_actor : Turn;
  obs_round_index : nat;
  obs_hand_size : Z;
  obs_private_hand : FixedCards;
  obs_hand_counts : list Z;
  obs_trump : option Card;
  obs_current_trick : Trick;
  obs_bids : list (option Z);
  obs_tricks_won : list Z;
  obs_scores : list Z;
  obs_pot_cents : Z;
}.

Record HighCardDraw : Type := {
  dealt : list (option Card); tied : list bool; selected : option Seat;
}.

(** Element assignment of an array: out of range panics. *)
Definition assign {A} (l : list A) (i : nat) (x : A) : result (list A) :=
  if i <? length l then Ok (<[i := x]> l) else Panic.

Section Game.
Context (PLAYERS : nat).

(** *** Seats *)

Definition Seat_new (index : nat) : result Seat :=
  _ ← validate_player_count PLAYERS;
  if index <? PLAYERS then Ok index else Err (InvalidSeat index PLAYERS).

Definition advance (s : Seat) (count : nat) : Seat := (s + count) mod PLAYERS.

Definition left (s : Seat) : Seat := (s + 1) mod PLAYERS.

(** *** Tricks *)

Definition Trick_default : Trick := TrickOf (replicate PLAYERS None) 0.

Definition Trick_push (t : Trick) (played : PlayedCard) : result Trick :=
  if PLAYERS <=? trick_len t then Err TrickFull
  else
    cards ← assign (trick_cards t) (trick_len t) (Some played);
    Ok (TrickOf cards (S (trick_len t))).

Definition winner_from_plays (trump : Suit) (plays : list PlayedCard) (length : nat) : option Seat :=
  if negb (length =? PLAYERS) then None
  else
    match plays with
    | [] => None
    | first :: rest =>
        let lead := suit (card first) in
        Some (player (max_by (λ a b, key_gt (play_key trump lead a) (play_key trump lead b)) first rest))
    end.

Definition Trick_winner (t : Trick) (trump : Suit) : option Seat :=
  winner_from_plays trump (Trick_iter t) (trick_len t).

(** The duplicate scan of [trick_winner]: [None] as soon as a player repeats. *)
Fixpoint players_distinct (seen : list bool) (plays : list PlayedCard) : result bool :=
  match plays with
  | [] => Ok true
  | play :: rest =>
      present ← expect (seen !! player play);
      if (present : bool) then Ok false
      else players_distinct (<[player play := true]> seen) rest
  end.

Definition trick_winner (trump : Suit) (plays : list PlayedCard) : result (option Seat) :=
  distinct ← players_distinct (replicate PLAYERS false) plays;
  Ok (if (distinct : bool) then winner_from_plays trump plays (length plays) else None).

(** *** Card conservation *)

(** [counts[card.index()] += 1] over the cards of every zone *)
Definition count_card (counts : list Z) (card : Card) : result (list Z) :=
  n ← expect (counts !! card_index card);
  n' ← u_add 8 n 1;
  Ok (<[card_index card := n']> counts).

Fixpoint check_counts (index : nat) (counts : list Z) : result unit :=
  match counts with
  | [] => Ok tt
  | count :: rest =>
      if negb (count =? 1)%Z
      then card ← expect (standard_deck !! index); Err (CardConservation card count)
      else check_counts (S index) rest
  end.

Definition validate_card_zones (hands : list FixedCards) (trump : Card) (stock : FixedCards)
    (trick : Trick) (captured : list FixedCards) : result unit :=
  counts ← count_card (replicate DECK_SIZE 0%Z) trump;
  counts ← foldM count_card
    ((hands ≫= iter) ++ iter stock ++ (card <$> Trick_iter trick) ++ (captured ≫= iter)) counts;
  check_counts 0 counts.

Definition validate (g : GameState) : result unit :=
  match g with
  | SBidding s =>
      validate_card_zones (bd_hands s) (bd_trump s) (bd_stock s) Trick_default
        (replicate PLAYERS CardPile_default)
  | SPlaying s =>
      validate_card_zones (pl_hands s) (pl_trump s) (pl_stock s) (pl_trick s) (pl_captured s)
  | SScoring s =>
      validate_card_zones (replicate PLAYERS Hand_default) (sc_trump s) (sc_stock s) Trick_default
        (sc_captured s)
  | SAwaitingDeal _ | SFinished _ => Ok tt
  end.

(** *** Construction, phase, turn and legal actions *)

Definition Game_new (first_dealer : Seat) : result GameState :=
  _ ← validate_player_count PLAYERS;
  player_count ← ok_or (checked 32 (Z.of_nat PLAYERS)) (InvalidPlayerCount PLAYERS);
  pot ← u_mul 32 OPENING_ANTE_CENTS player_count;
  Ok (SAwaitingDeal {| dealer := first_dealer; round_index := 0;
                       scores := replicate PLAYERS 0%Z; pot_cents := pot |}).

Definition phase (g : GameState) : PhaseTag :=
  match g with
  | SAwaitingDeal _ => TagAwaitingDeal
  | SBidding _ => TagBidding
  | SPlaying _ => TagPlaying
  | SScoring _ => TagScoring
  | SFinished _ => TagFinished
  end.

Definition turn (g : GameState) : Turn :=
  match g with
  | SAwaitingDeal _ => TurnChance
  | SBidding s => TurnPlayer (bd_actor s)
  | SPlaying s => TurnPlayer (pl_actor s)
  | SScoring _ => TurnEnvironment
  | SFinished _ => TurnFinished
  end.

Definition legal_card_actions (s : Playing) : result (list Action) :=
  hand ← expect (pl_hands s !! pl_actor s);
  let lead := lead_suit (pl_trick s) in
  let must_follow := match lead with Some l => contains_suit hand l | None => false end in
  Ok (APlay (pl_actor s) <$>
        filter (λ c, negb must_follow || bool_decide (Some (suit c) = lead) = true) (iter hand)).

Definition legal_player_actions (g : GameState) : result (list Action) :=
  match g with
  | SBidding s => Ok (ABid (bd_actor s) <$> seqZ 0 (bd_hand_size s + 1))
  | SPlaying s => legal_card_actions s
  | _ => Ok []
  end.

(** *** Transitions *)

(** One card of the deal: the body of the inner loop. *)
Definition deal_card (first : Seat) (deck : DeckOrder) (acc : list FixedCards * nat) (offset : nat)
    : result (list FixedCards * nat) :=
  let '(hands, cursor) := acc in
  hand ← expect (hands !! advance first offset);
  card ← expect (deck !! cursor);
  hand ← push hand card;
  Ok (<[advance first offset := hand]> hands, S cursor).

Definition deal (ledger : Ledger) (deck : DeckOrder) : result Transition :=
  hand_size ← hand_size_for_round PLAYERS (round_index ledger);
  let first := left (dealer ledger) in
  '(hands, cursor) ← foldM (λ acc _, foldM (deal_card first deck) (seq 0 PLAYERS) acc)
                       (seq 0 hand_size) (replicate PLAYERS Hand_default, 0);
  trump ← expect (deck !! cursor);
  stock ← foldM push (drop (S cursor) deck) CardPile_default;
  hand_size ← expect (checked 8 (Z.of_nat hand_size));
  let next := SBidding {|
    bd_ledger := ledger; bd_hand_size := hand_size; bd_hands := hands; bd_trump := trump;
    bd_stock := stock; bd_bids := replicate PLAYERS None; bd_actor := first; bd_bids_made := 0 |} in
  _ ← validate next;
  Ok {| next := next; round_scores := None |}.

Definition place_bid (s : Bidding) (player : Seat) (tricks : Z) : result Transition :=
  _ ← ensure (bool_decide (player = bd_actor s)) WrongActor;
  _ ← ensure (negb (bd_hand_size s <? tricks)%Z) (BidOutOfRange tricks (bd_hand_size s));
  bids ← assign (bd_bids s) player (Some tricks);
  let bids_made := S (bd_bids_made s) in
  if bids_made =? PLAYERS then
    bids ← mapM expect bids;
    let leader := left (dealer (bd_ledger s)) in
    Ok {| next := SPlaying {|
            pl_ledger := bd_ledger s; pl_hand_size := bd_hand_size s; pl_hands := bd_hands s;
            pl_trump := bd_trump s; pl_stock := bd_stock s; pl_bids := bids;
            pl_actor := leader; pl_leader := leader; pl_trick := Trick_default;
            pl_captured := replicate PLAYERS CardPile_default;
            pl_tricks_won := replicate PLAYERS 0%Z |};
          round_scores := None |}
  else
    Ok {| next := SBidding {|
            bd_ledger := bd_ledger s; bd_hand_size := bd_hand_size s; bd_hands := bd_hands s;
            bd_trump := bd_trump s; bd_stock := bd_stock s; bd_bids := bids;
            bd_actor := left (bd_actor s); bd_bids_made := bids_made |};
          round_scores := None |}.

Definition checked_playing_transition (s : Playing) : result Transition :=
  let next := SPlaying s in
  _ ← validate next;
  Ok {| next := next; round_scores := None |}.

(** One card of the completed trick: [captured[winner.index()].push(..)]. *)
Definition collect_card (winner : Seat) (captured : list FixedCards) (played : PlayedCard)
    : result (list FixedCards) :=
  pile ← expect (captured !! winner);
  pile ← push pile (card played);
  Ok (<[winner := pile]> captured).

Definition complete_trick (s : Playing) : result Transition :=
  winner ← expect (Trick_winner (pl_trick s) (suit (pl_trump s)));
  captured ← foldM (collect_card winner) (Trick_iter (pl_trick s)) (pl_captured s);
  won ← expect (pl_tricks_won s !! winner);
  won ← u_add 8 won 1;
  let tricks_won := <[winner := won]> (pl_tricks_won s) in
  if forallb is_empty (pl_hands s) then
    let next := SScoring {|
      sc_ledger := pl_ledger s; sc_hand_size := pl_hand_size s; sc_trump := pl_trump s;
      sc_stock := pl_stock s; sc_bids := pl_bids s; sc_captured := captured;
      sc_tricks_won := tricks_won |} in
    _ ← validate next;
    Ok {| next := next; round_scores := None |}
  else
    checked_playing_transition {|
      pl_ledger := pl_ledger s; pl_hand_size := pl_hand_size s; pl_hands := pl_hands s;
      pl_trump := pl_trump s; pl_stock := pl_stock s; pl_bids := pl_bids s;
      pl_actor := winner; pl_leader := winner; pl_trick := Trick_default;
      pl_captured := captured; pl_tricks_won := tricks_won |}.

Definition play_card (s : Playing) (player : Seat) (card : Card) : result Transition :=
  _ ← ensure (bool_decide (player = pl_actor s)) WrongActor;
  hand ← expect (pl_hands s !! player);
  _ ← ensure (contains hand card) (CardNotInHand card);
  _ ← match lead_suit (pl_trick s) with
      | Some lead =>
          ensure (negb (contains_suit hand lead && negb (bool_decide (suit card = lead))))
            (MustFollowSuit lead)
      | None => Ok tt
      end;
  hand ← remove hand card;
  trick ← Trick_push (pl_trick s) (PlayedCardOf player card);
  let next actor := {|
    pl_ledger := pl_ledger s; pl_hand_size := pl_hand_size s;
    pl_hands := <[player := hand]> (pl_hands s);
    pl_trump := pl_trump s; pl_stock := pl_stock s; pl_bids := pl_bids s;
    pl_actor := actor; pl_leader := pl_leader s; pl_trick := trick;
    pl_captured := pl_captured s; pl_tricks_won := pl_tricks_won s |} in
  if trick_len trick =? PLAYERS then complete_trick (next (pl_actor s))
  else checked_playing_transition (next (left player)).

Definition winner_mask (scores : list Z) : result (list bool) :=
  match scores with
  | [] => Panic
  | s :: rest => let maximum := foldl Z.max s rest in Ok ((λ score, bool_decide (score = maximum)) <$> scores)
  end.

(** The accumulation loop of [settle_round]. *)
Definition settle_score (acc : list Z * Z) (entry : nat * RoundScore) : result (list Z * Z) :=
  let '(scores, pot) := acc in
  let '(index, score) := entry in
  old ← expect (scores !! index);
  total ← u_add 16 old (points score);
  pot ← u_add 32 pot (payment_cents score);
  Ok (<[index := total]> scores, pot).

Definition settle_round (s : Scoring) : result Transition :=
  round_scores ← mapM (λ index,
    bid ← expect (sc_bids s !! index);
    won ← expect (sc_tricks_won s !! index);
    Ok (score_round bid won (sc_hand_size s))) (seq 0 PLAYERS);
  let ledger := sc_ledger s in
  '(scores', pot) ← foldM settle_score (imap pair round_scores) (scores ledger, pot_cents ledger);
  let round_index' := S (round_index ledger) in
  rounds ← round_count PLAYERS;
  if round_index' =? rounds then
    winners ← winner_mask scores';
    Ok {| next := SFinished {| fin_scores := scores'; fin_pot_cents := pot; fin_winners := winners |};
          round_scores := Some round_scores |}
  else
    Ok {| next := SAwaitingDeal {| dealer := left (dealer ledger); round_index := round_index';
                                   scores := scores'; pot_cents := pot |};
          round_scores := Some round_scores |}.

Definition transition (g : GameState) (a : Action) : result Transition :=
  match g, a with
  | SAwaitingDeal ledger, ADeal deck => deal ledger deck
  | SBidding s, ABid player tricks => place_bid s player tricks
  | SPlaying s, APlay player card => play_card s player card
  | SScoring s, ASettleRound => settle_round s
  | _, _ => Err WrongPhase
  end.

(** *** Observations *)

Definition hand_counts (hands : list FixedCards) : result (list Z) :=
  mapM (λ hand, expect (checked 8 (Z.of_nat (len hand)))) hands.

Definition empty_observation (viewer : Seat) (phase : PhaseTag) (actor : Turn)
    (ledger : option Ledger) : result Observation :=
  hand_size ← match ledger with
              | None => Ok 0%Z
              | Some value =>
                  size ← hand_size_for_round PLAYERS (round_index value);
                  expect (checked 8 (Z.of_nat size))
              end;
  Ok {| obs_phase := phase; obs_viewer := viewer;
        obs_dealer := match ledger with Some value => Some (dealer value) | None => None end;
        obs_actor := actor;
        obs_round_index := match ledger with Some value => round_index value | None => 0 end;
        obs_hand_size := hand_size;
        obs_private_hand := Hand_default;
        obs_hand_counts := replicate PLAYERS 0%Z;
        obs_trump := None;
        obs_current_trick := Trick_default;
        obs_bids := replicate PLAYERS None;
        obs_tricks_won := replicate PLAYERS 0%Z;
        obs_scores := match ledger with Some value => scores value | None => replicate PLAYERS 0%Z end;
        obs_pot_cents := match ledger with Some value => pot_cents value | None => 0%Z end |}.

Definition observe (g : GameState) (viewer : Seat) : result Observation :=
  match g with
  | SAwaitingDeal ledger => empty_observation viewer TagAwaitingDeal TurnChance (Some ledger)
  | SBidding s =>
      hand ← expect (bd_hands s !! viewer);
      counts ← hand_counts (bd_hands s);
      Ok {| obs_phase := TagBidding; obs_viewer := viewer;
            obs_dealer := Some (dealer (bd_ledger s)); obs_actor := TurnPlayer (bd_actor s);
            obs_round_index := round_index (bd_ledger s); obs_hand_size := bd_hand_size s;
            obs_private_hand := hand; obs_hand_counts := counts; obs_trump := Some (bd_trump s);
            obs_current_trick := Trick_default; obs_bids := bd_bids s;
            obs_tricks_won := replicate PLAYERS 0%Z; obs_scores := scores (bd_ledger s);
            obs_pot_cents := pot_cents (bd_ledger s) |}
  | SPlaying s =>
      hand ← expect (pl_hands s !! viewer);
      counts ← hand_counts (pl_hands s);
      Ok {| obs_phase := TagPlaying; obs_viewer := viewer;
            obs_dealer := Some (dealer (pl_ledger s)); obs_actor := TurnPlayer (pl_actor s);
            obs_round_index := round_index (pl_ledger s); obs_hand_size := pl_hand_size s;
            obs_private_hand := hand; obs_hand_counts := counts; obs_trump := Some (pl_trump s);
            obs_current_trick := pl_trick s; obs_bids := Some <$> pl_bids s;
            obs_tricks_won := pl_tricks_won s; obs_scores := scores (pl_ledger s);
            obs_pot_cents := pot_cents (pl_ledger s) |}
  | SScoring s =>
      Ok {| obs_phase := TagScoring; obs_viewer := viewer;
            obs_dealer := Some (dealer (sc_ledger s)); obs_actor := TurnEnvironment;
            obs_round_index := round_index (sc_ledger s); obs_hand_size := sc_hand_size s;
            obs_private_hand := Hand_default; obs_hand_counts := replicate PLAYERS 0%Z;
            obs_trump := Some (sc_trump s); obs_current_trick := Trick_default;
            obs_bids := Some <$> sc_bids s; obs_tricks_won := sc_tricks_won s;
            obs_scores := scores (sc_ledger s); obs_pot_cents := pot_cents (sc_ledger s) |}
  | SFinished s =>
      rounds ← round_count PLAYERS;
      Ok {| obs_phase := TagFinished; obs_viewer := viewer; obs_dealer := None;
            obs_actor := TurnFinished; obs_round_index := rounds; obs_hand_size := 0%Z;
            obs_private_hand := Hand_default; obs_hand_counts := replicate PLAYERS 0%Z;
            obs_trump := None; obs_current_trick := Trick_default;
            obs_bids := replicate PLAYERS None; obs_tricks_won := replicate PLAYERS 0%Z;
            obs_scores := fin_scores s; obs_pot_cents := fin_pot_cents s |}
  end.

(** *** Physical selection of the first dealer *)

Definition first_jack_recipient (first_recipient : Seat) (deck : DeckOrder) : option Seat :=
  index ← position (λ c, bool_decide (rank c = Jack)) deck;
  Some (advance first_recipient (index mod PLAYERS)).

Definition draw_card (candidates : list bool) (first_recipient : Seat) (deck : DeckOrder)
    (acc : list (option Card) * nat) (offset : nat) : result (list (option Card) * nat) :=
  let '(dealt, cursor) := acc in
  let seat := advance first_recipient offset in
  candidate ← expect (candidates !! seat);
  if (candidate : bool) then
    card ← expect (deck !! cursor);
    dealt ← assign dealt seat (Some card);
    Ok (dealt, S cursor)
  else Ok (dealt, cursor).

Definition high_card_draw (candidates : list bool) (first_recipient : Seat) (deck : DeckOrder)
    : result HighCardDraw :=
  _ ← ensure (existsb id candidates) NoSelectionCandidates;
  '(dealt, _) ← foldM (draw_card candidates first_recipient deck) (seq 0 PLAYERS)
                  (replicate PLAYERS None, 0);
  let ranks := (λ c, rank_index (rank c)) <$> omap id dealt in
  let highest := match ranks with [] => None | r :: rest => Some (foldl Nat.max r rest) end in
  let tied := (λ slot : option Card, match slot with
                      | Some c => bool_decide (Some (rank_index (rank c)) = highest)
                      | None => false
                      end) <$> dealt in
  let tied_seats := omap id (imap (λ index (is_tied : bool), if is_tied then Some index else None) tied) in
  let selected := match tied_seats with [first] => Some first | _ => None end in
  Ok {| dealt := dealt; tied := tied; selected := selected |}.
End Game.
