(* ===== verification/OracleLemmas.v ===== *)
(** * Lemmas on cards, zones, seats, tricks and the schedule *)

From stdpp Require Import base strings numbers option sets list.
From S2P Require Import Prelude Oracle.

Create HintDb oracle.

(** ** The deck *)

Lemma card_index_lt c : card_index c < 52.
Proof. destruct c as [[] []]; vm_compute; lia. Qed.

Lemma standard_deck_index c : standard_deck !! card_index c = Some c.
Proof. by destruct c as [[] []]. Qed.

Lemma card_index_deck : card_index <$> standard_deck = seq 0 52.
Proof. by vm_compute. Qed.

Lemma standard_deck_lookup i c : standard_deck !! i = Some c ↔ i = card_index c.
Proof.
  split; [|intros ->; apply standard_deck_index]. intros Hi.
  assert ((card_index <$> standard_deck) !! i = Some (card_index c)) as H by by rewrite list_lookup_fmap, Hi.
  rewrite card_index_deck in H. apply lookup_seq in H. lia.
Qed.

Lemma card_index_inj c d : card_index c = card_index d → c = d.
Proof. intros H. apply (inj Some). by rewrite <-!standard_deck_index, H. Qed.

Lemma standard_deck_NoDup : NoDup standard_deck.
Proof. apply NoDup_alt. intros i j c ->%standard_deck_lookup ->%standard_deck_lookup. done. Qed.

Lemma elem_of_standard_deck c : c ∈ standard_deck.
Proof. eapply list_elem_of_lookup_2, standard_deck_index. Qed.

Lemma length_standard_deck : length standard_deck = 52.
Proof. done. Qed.

Lemma full_deck_perm cards : NoDup cards → (∀ c, c ∈ cards) → cards ≡ₚ standard_deck.
Proof.
  intros Hnd Hall. apply NoDup_Permutation; [done|apply standard_deck_NoDup|].
  intros c. split; intros _; [apply elem_of_standard_deck|apply Hall].
Qed.

#[export] Hint Resolve card_index_lt elem_of_standard_deck standard_deck_NoDup : oracle.

(** ** Validation of a deck order *)

Definition seen_of (cards : list Card) : list bool :=
  (λ c, bool_decide (c ∈ cards)) <$> standard_deck.

Lemma seen_of_lookup cards c : seen_of cards !! card_index c = Some (bool_decide (c ∈ cards)).
Proof. unfold seen_of. by rewrite list_lookup_fmap, standard_deck_index. Qed.

Lemma seen_of_insert cards c : <[card_index c := true]> (seen_of cards) = seen_of (cards ++ [c]).
Proof.
  apply list_eq. intros i. unfold seen_of.
  destruct (decide (i = card_index c)) as [->|Hne].
  - rewrite list_lookup_insert_eq by (rewrite length_fmap; apply card_index_lt).
    rewrite list_lookup_fmap, standard_deck_index. simpl. f_equal. symmetry.
    apply bool_decide_eq_true. set_solver.
  - rewrite list_lookup_insert_ne, !list_lookup_fmap by done.
    destruct (standard_deck !! i) as [d|] eqn:Hd; [|done]. simpl. f_equal.
    apply standard_deck_lookup in Hd as ->. apply bool_decide_ext.
    rewrite elem_of_app, list_elem_of_singleton. naive_solver.
Qed.

Lemma DeckOrder_scan_spec done cards : NoDup done →
  match DeckOrder_scan (seen_of done) cards with
  | Ok seen => NoDup (done ++ cards) ∧ seen = seen_of (done ++ cards)
  | Err e => ¬ NoDup (done ++ cards) ∧
      ∃ before c after, done ++ cards = before ++ c :: after ∧ NoDup before ∧ c ∈ before ∧
        e = DuplicateCard c
  | Panic => False
  end.
Proof.
  revert done; induction cards as [|c cards IH]; intros done Hd; simpl.
  { by rewrite app_nil_r. }
  rewrite seen_of_lookup. simpl. case_bool_decide as Hc.
  - split; [|by exists done, c, cards]. rewrite NoDup_app. set_solver.
  - rewrite seen_of_insert. assert (NoDup (done ++ [c])) as Hd'.
    { apply NoDup_app. split_and!; [done|set_solver|apply NoDup_singleton]. }
    specialize (IH (done ++ [c]) Hd').
    rewrite <-app_assoc in IH. simpl in IH.
    by destruct (DeckOrder_scan _ _).
Qed.

Lemma seen_of_nil : replicate DECK_SIZE false = seen_of [].
Proof. by vm_compute. Qed.

Lemma seen_of_incomplete cards : existsb negb (seen_of cards) = false ↔ ∀ c, c ∈ cards.
Proof.
  unfold seen_of. rewrite <-not_true_iff_false, existsb_exists. split.
  - intros H c. destruct (decide (c ∈ cards)) as [|Hc]; [done|]. destruct H.
    exists false. split; [|done]. apply list_elem_of_In, list_elem_of_fmap.
    exists c. split; [by rewrite bool_decide_eq_false_2|apply elem_of_standard_deck].
  - intros Hall (b & Hb & Hn). apply list_elem_of_In, list_elem_of_fmap in Hb as (c & -> & _).
    by rewrite bool_decide_eq_true_2 in Hn by done.
Qed.

(** A deck order is accepted iff it is a permutation of the standard deck. *)
Lemma DeckOrder_new_Ok cards d :
  DeckOrder_new cards = Ok d ↔ d = cards ∧ cards ≡ₚ standard_deck.
Proof.
  unfold DeckOrder_new. rewrite seen_of_nil.
  pose proof (DeckOrder_scan_spec [] cards (NoDup_nil_2)) as Hs.
  destruct (DeckOrder_scan _ _) as [seen|e|]; simpl in *; [|split; [done|]|done].
  - destruct Hs as [Hnd ->]. destruct (existsb negb (seen_of cards)) eqn:He.
    + split; [done|]. intros [_ Hp].
      assert (existsb negb (seen_of cards) = false); [|congruence].
      apply seen_of_incomplete. intros c. rewrite Hp. apply elem_of_standard_deck.
    + rewrite seen_of_incomplete in He. split; [|by intros [-> _]].
      intros [= ->]. split; [done|by apply full_deck_perm].
  - intros [_ Hp]. destruct Hs as [Hnd _]. destruct Hnd. rewrite Hp. apply standard_deck_NoDup.
Qed.

Lemma DeckOrder_new_no_panic cards : DeckOrder_new cards ≠ Panic.
Proof.
  unfold DeckOrder_new. rewrite seen_of_nil.
  pose proof (DeckOrder_scan_spec [] cards (NoDup_nil_2)) as Hs.
  destruct (DeckOrder_scan _ _); simpl; [by case_match|done|done].
Qed.

(** ** Zones *)

Record zone_wf (CAPACITY : nat) (f : FixedCards) : Prop := {
  zone_capacity : length (slots f) = CAPACITY;
  zone_len : len f = length (iter f);
}.

Lemma omap_id_replicate {A} n : omap id (replicate n (@None A)) = [].
Proof. by induction n. Qed.

Lemma iter_default n : iter (FixedCards_default n) = [].
Proof. apply omap_id_replicate. Qed.

Lemma zone_wf_default n : zone_wf n (FixedCards_default n).
Proof. split; [apply length_replicate|by rewrite iter_default]. Qed.

Lemma omap_id_cons {A} (s : option A) l : omap id (s :: l) = option_list s ++ omap id l.
Proof. by destruct s. Qed.

Lemma omap_id_app {A} (l k : list (option A)) : omap id (l ++ k) = omap id l ++ omap id k.
Proof. induction l as [|s l IH]; [done|]. by rewrite <-app_comm_cons, !omap_id_cons, IH, (assoc_L (++)). Qed.

Lemma length_omap_id {A} (l : list (option A)) : length (omap id l) ≤ length l.
Proof. induction l as [|[c|] l IH]; [done|..]; rewrite omap_id_cons; simpl; lia. Qed.

Lemma push_slot_spec (l : list (option Card)) c : length (omap id l) < length l →
  ∃ l', replace_first (λ slot, match slot with None => true | _ => false end) (Some c) l = Some l' ∧
    length l' = length l ∧ omap id l' ≡ₚ c :: omap id l.
Proof.
  induction l as [|[d|] l IH]; intros Hl; [simpl in Hl; lia| |].
  - rewrite omap_id_cons in Hl. simpl in Hl. destruct IH as (l' & Hr & Hlen & Hp); [lia|].
    exists (Some d :: l'). simpl. rewrite Hr. split_and!; [done|by rewrite Hlen|].
    rewrite Hp. apply Permutation_swap.
  - by exists (Some c :: l).
Qed.

Lemma push_Ok CAP f c : zone_wf CAP f → len f < CAP →
  ∃ f', push f c = Ok f' ∧ zone_wf CAP f' ∧ iter f' ≡ₚ c :: iter f ∧ len f' = S (len f).
Proof.
  intros [Hcap Hlen] Hlt. destruct (push_slot_spec (slots f) c) as (l' & Hr & Hl' & Hp).
  { fold (iter f). lia. }
  exists (FixedCardsOf l' (S (len f))). unfold push. rewrite Hr.
  split_and!; [done| |done|done]. split; [simpl; lia|]. unfold iter at 1; simpl.
  rewrite Hp. simpl. by rewrite Hlen.
Qed.

Lemma remove_slot_spec (l : list (option Card)) c : c ∈ omap id l →
  ∃ l', replace_first (λ slot, bool_decide (slot = Some c)) None l = Some l' ∧
    length l' = length l ∧ omap id l ≡ₚ c :: omap id l'.
Proof.
  induction l as [|s l IH]; simpl; intros Hl; [by apply not_elem_of_nil in Hl|].
  case_bool_decide as Hs; [subst s; by exists (None :: l)|].
  assert (c ∈ omap id l) as Hc.
  { destruct s as [d|]; simpl in Hl; [|done]. apply elem_of_cons in Hl as [->|]; done. }
  destruct (IH Hc) as (l' & -> & Hlen & Hp). exists (s :: l'). simpl.
  split_and!; [done|by rewrite Hlen|]. destruct s as [d|]; simpl; [|done].
  rewrite Hp. apply Permutation_swap.
Qed.

Lemma remove_Ok CAP f c : zone_wf CAP f → c ∈ iter f →
  ∃ f', remove f c = Ok f' ∧ zone_wf CAP f' ∧ iter f ≡ₚ c :: iter f' ∧ len f = S (len f').
Proof.
  intros [Hcap Hlen] Hc. destruct (remove_slot_spec (slots f) c Hc) as (l' & Hr & Hl' & Hp).
  fold (iter f) in Hp. assert (length (iter f) = S (length (omap id l'))) as Hlf by by rewrite Hp.
  exists (FixedCardsOf l' (length (omap id l'))). unfold remove. rewrite Hr, Hlen, Hlf.
  split_and!; [done| |done|done]. split; [simpl; lia|done].
Qed.

Lemma contains_spec f c : contains f c = true ↔ c ∈ iter f.
Proof.
  unfold contains. rewrite existsb_exists. setoid_rewrite <-list_elem_of_In. split.
  - intros (d & Hd & ->%bool_decide_eq_true). done.
  - intros Hc. exists c. split; [done|by apply bool_decide_eq_true].
Qed.

Lemma contains_suit_spec f s : contains_suit f s = true ↔ ∃ c, c ∈ iter f ∧ suit c = s.
Proof.
  unfold contains_suit. rewrite existsb_exists. setoid_rewrite <-list_elem_of_In.
  by setoid_rewrite bool_decide_eq_true.
Qed.

Lemma is_empty_spec CAP f : zone_wf CAP f → is_empty f = true ↔ iter f = [].
Proof. intros [_ Hl]. unfold is_empty. rewrite Nat.eqb_eq, Hl. by rewrite length_zero_iff_nil. Qed.

(** Moving one card into or out of one zone of an array of zones. *)
Lemma bind_insert_perm (zones : list FixedCards) i z z' : zones !! i = Some z →
  ∃ rest, (zones ≫= iter) ≡ₚ iter z ++ rest ∧ (<[i := z']> zones ≫= iter) ≡ₚ iter z' ++ rest.
Proof.
  intros Hi. exists ((take i zones ++ drop (S i) zones) ≫= iter).
  assert (zones = take i zones ++ z :: drop (S i) zones) as Heq by by rewrite take_drop_middle.
  pose proof (lookup_lt_Some _ _ _ Hi).
  rewrite insert_take_drop by done. rewrite Heq at 1.
  rewrite !bind_app, !bind_cons. split; rewrite !(assoc_L (++)); apply Permutation_app; try done;
    apply Permutation_app_comm.
Qed.

Lemma bind_push_perm zones i z z' c : zones !! i = Some z → iter z' ≡ₚ c :: iter z →
  (<[i := z']> zones ≫= iter) ≡ₚ c :: (zones ≫= iter).
Proof.
  intros Hi Hz. destruct (bind_insert_perm zones i z z' Hi) as (rest & -> & ->). by rewrite Hz.
Qed.

Lemma bind_remove_perm zones i z z' c : zones !! i = Some z → iter z ≡ₚ c :: iter z' →
  (zones ≫= iter) ≡ₚ c :: (<[i := z']> zones ≫= iter).
Proof.
  intros Hi Hz. destruct (bind_insert_perm zones i z z' Hi) as (rest & -> & ->). by rewrite Hz.
Qed.

Lemma bind_replicate_default n m : (replicate n (FixedCards_default m) ≫= iter) = [].
Proof. induction n as [|n IH]; [done|]. cbn [replicate]. by rewrite bind_cons, IH, iter_default. Qed.

(** ** Card conservation *)

Definition tally (l : list Card) (c : Card) : nat := count_occ Card_eq_dec l c.

Definition counts_of (l : list Card) : list Z := (λ c, Z.of_nat (tally l c)) <$> standard_deck.

Lemma tally_app l k c : tally (l ++ k) c = tally l c + tally k c.
Proof. apply count_occ_app. Qed.

Lemma tally_cons d l c : tally (d :: l) c = (if decide (d = c) then 1 else 0) + tally l c.
Proof.
  unfold tally; simpl. destruct (Card_eq_dec d c), (decide (d = c)); try done; simpl; lia.
Qed.

Lemma tally_perm l k : l ≡ₚ k ↔ ∀ c, tally l c = tally k c.
Proof. apply (Permutation_count_occ Card_eq_dec). Qed.

Lemma tally_le l c : tally l c ≤ length l.
Proof. unfold tally. pose proof (count_occ_bound Card_eq_dec c l). lia. Qed.

Lemma tally_deck c : tally standard_deck c = 1.
Proof. apply NoDup_count_occ'; [apply NoDup_ListNoDup, standard_deck_NoDup|]. apply list_elem_of_In, elem_of_standard_deck. Qed.

Lemma counts_of_lookup l c : counts_of l !! card_index c = Some (Z.of_nat (tally l c)).
Proof. unfold counts_of. by rewrite list_lookup_fmap, standard_deck_index. Qed.

Lemma counts_of_insert l c :
  <[card_index c := (Z.of_nat (tally l c) + 1)%Z]> (counts_of l) = counts_of (l ++ [c]).
Proof.
  apply list_eq. intros i. unfold counts_of.
  destruct (decide (i = card_index c)) as [->|Hne].
  - rewrite list_lookup_insert_eq by (rewrite length_fmap; apply card_index_lt).
    rewrite list_lookup_fmap, standard_deck_index. simpl. rewrite tally_app, tally_cons.
    rewrite decide_True by done. unfold tally at 3; simpl. f_equal. lia.
  - rewrite list_lookup_insert_ne, !list_lookup_fmap by done.
    destruct (standard_deck !! i) as [d|] eqn:Hd; [|done]. simpl.
    apply standard_deck_lookup in Hd as ->. rewrite tally_app, tally_cons.
    rewrite decide_False by naive_solver. unfold tally at 3; simpl. do 2 f_equal. lia.
Qed.

Lemma count_card_counts l c :
  count_card (counts_of l) c =
    if decide (tally l c < 255) then Ok (counts_of (l ++ [c])) else Panic.
Proof.
  unfold count_card. rewrite counts_of_lookup. simpl. unfold u_add, checked.
  rewrite <-counts_of_insert. case_decide as Hlt.
  - rewrite (proj2 (in_widthb_spec 8 _)); [done|]. unfold in_width. lia.
  - destruct (in_widthb 8 _) eqn:Hw; [|done]. apply in_widthb_spec in Hw. unfold in_width in Hw. lia.
Qed.

Lemma foldM_count_card_Ok l k : (∀ c, tally (l ++ k) c < 256) →
  foldM count_card k (counts_of l) = Ok (counts_of (l ++ k)).
Proof.
  revert l; induction k as [|c k IH]; intros l Hk; cbn [foldM]; [by rewrite app_nil_r|].
  rewrite count_card_counts, decide_True; cbn [mbind outcome_bind].
  - rewrite IH, <-(assoc_L (++)); [done|]. intros d. rewrite <-(assoc_L (++)). apply Hk.
  - specialize (Hk c). rewrite tally_app, tally_cons, decide_True in Hk by done. lia.
Qed.

Lemma foldM_count_card_inv l k :
  foldM count_card k (counts_of l) = Ok (counts_of (l ++ k)) ∨ foldM count_card k (counts_of l) = Panic.
Proof.
  revert l; induction k as [|c k IH]; intros l; cbn [foldM]; [left; by rewrite app_nil_r|].
  rewrite count_card_counts. case_decide; cbn [mbind outcome_bind]; [|by right].
  destruct (IH (l ++ [c])) as [->| ->]; [left|by right]. by rewrite <-(assoc_L (++)).
Qed.

Lemma check_counts_drop l n : n ≤ 52 → check_counts n (drop n (counts_of l)) =
  match filter (λ c, tally l c ≠ 1) (drop n standard_deck) with
  | [] => Ok tt
  | c :: _ => Err (CardConservation c (Z.of_nat (tally l c)))
  end.
Proof.
  intros Hn. unfold counts_of. rewrite <-fmap_drop.
  remember (drop n standard_deck) as k eqn:Hk. revert n Hn Hk.
  induction k as [|c k IH]; intros n Hn Hk; [done|]. cbn [fmap list_fmap check_counts].
  assert (standard_deck !! n = Some c) as Hc.
  { by rewrite <-(Nat.add_0_r n), <-lookup_drop, <-Hk. }
  assert (n < 52) by (apply lookup_lt_Some in Hc; done).
  assert (k = drop (S n) standard_deck) as Hk'.
  { rewrite <-Nat.add_1_r, <-drop_drop, <-Hk. done. }
  rewrite filter_cons. destruct (decide (tally l c = 1)) as [Hone|Hone].
  - rewrite Hone, decide_False by lia. simpl. apply IH; [lia|done].
  - rewrite decide_True by done. rewrite (proj2 (Z.eqb_neq _ _)) by lia. simpl. by rewrite Hc.
Qed.

Definition zone_cards (hands : list FixedCards) (trump : Card) (stock : FixedCards) (trick : Trick)
    (captured : list FixedCards) : list Card :=
  trump :: (hands ≫= iter) ++ iter stock ++ (card <$> Trick_iter trick) ++ (captured ≫= iter).

Lemma validate_card_zones_cases hands trump stock trick captured :
  let cards := zone_cards hands trump stock trick captured in
  validate_card_zones hands trump stock trick captured = Panic ∧ (∃ c, 256 ≤ tally cards c) ∨
  validate_card_zones hands trump stock trick captured =
    match filter (λ c, tally cards c ≠ 1) standard_deck with
    | [] => Ok tt
    | c :: _ => Err (CardConservation c (Z.of_nat (tally cards c)))
    end.
Proof.
  intros cards. unfold validate_card_zones.
  change (replicate DECK_SIZE 0%Z) with (counts_of []).
  rewrite count_card_counts, decide_True by (unfold tally; simpl; lia). cbn [mbind outcome_bind].
  set (rest := (hands ≫= iter) ++ _).
  assert (cards = [] ++ [trump] ++ rest) as Hcards by done.
  destruct (foldM_count_card_inv ([] ++ [trump]) rest) as [Heq|Heq].
  - right. rewrite Heq. cbn [mbind outcome_bind]. rewrite <-(assoc_L (++)), <-Hcards.
    apply (check_counts_drop cards 0). lia.
  - left. rewrite Heq. split; [done|].
    destruct (decide (Forall (λ c, tally cards c < 256) standard_deck)) as [Hall|Hex].
    + rewrite foldM_count_card_Ok in Heq; [done|]. intros c. rewrite <-(assoc_L (++)), <-Hcards.
      rewrite Forall_forall in Hall. apply Hall, elem_of_standard_deck.
    + apply not_Forall_Exists in Hex; [|solve_decision]. apply Exists_exists in Hex as (c & _ & Hc).
      exists c. unfold compose in Hc. clear -Hc. lia.
Qed.

(** Validation succeeds exactly when the zones hold the 52 cards once each. *)
Lemma validate_card_zones_Ok hands trump stock trick captured :
  validate_card_zones hands trump stock trick captured = Ok tt ↔
  zone_cards hands trump stock trick captured ≡ₚ standard_deck.
Proof.
  set (cards := zone_cards _ _ _ _ _).
  assert (cards ≡ₚ standard_deck ↔ ∀ c, tally cards c = 1) as ->.
  { rewrite tally_perm. by setoid_rewrite tally_deck. }
  destruct (validate_card_zones_cases hands trump stock trick captured) as [[-> (c & Hc)]| ->];
    fold cards; [fold cards in Hc|].
  - split; [done|]. intros Hall. rewrite Hall in Hc. lia.
  - split.
    + destruct (filter _ _) as [|d l] eqn:Hf; [|done]. intros _ c.
      destruct (decide (tally cards c = 1)) as [|Hne]; [done|].
      assert (c ∈ filter (λ c, tally cards c ≠ 1) standard_deck) as Hin.
      { apply list_elem_of_filter. split; [done|apply elem_of_standard_deck]. }
      rewrite Hf in Hin. by apply not_elem_of_nil in Hin.
    + intros Hall. destruct (filter _ _) as [|d l] eqn:Hf; [done|].
      assert (d ∈ filter (λ c, tally cards c ≠ 1) standard_deck) as Hin by (rewrite Hf; left).
      apply list_elem_of_filter in Hin as [Hne _]. by rewrite Hall in Hne.
Qed.

(** ** Zones filled from the front *)

Definition packed (CAPACITY : nat) (l : list Card) : FixedCards :=
  FixedCardsOf ((Some <$> l) ++ replicate (CAPACITY - length l) None) (length l).

Lemma omap_id_fmap_Some {A} (l : list A) : omap id (Some <$> l) = l.
Proof. induction l as [|x l IH]; [done|]. cbn [fmap list_fmap]. rewrite omap_id_cons. simpl. by rewrite IH. Qed.

Lemma iter_packed CAP l : iter (packed CAP l) = l.
Proof. unfold iter, packed; simpl. by rewrite omap_id_app, omap_id_fmap_Some, omap_id_replicate, app_nil_r. Qed.

Lemma packed_wf CAP l : length l ≤ CAP → zone_wf CAP (packed CAP l).
Proof.
  intros Hl. split; [|by rewrite iter_packed].
  simpl. rewrite length_app, length_fmap, length_replicate. lia.
Qed.

Lemma packed_nil CAP : FixedCards_default CAP = packed CAP [].
Proof. unfold packed, FixedCards_default; simpl. by rewrite Nat.sub_0_r. Qed.

Lemma replace_first_prefix (l : list Card) c rest :
  replace_first (λ slot, match slot with None => true | _ => false end) (Some c)
    ((Some <$> l) ++ None :: rest) = Some ((Some <$> l) ++ Some c :: rest).
Proof. induction l as [|d l IH]; [done|]. cbn [fmap list_fmap app replace_first] in *. by rewrite IH. Qed.

Lemma push_packed CAP l c : length l < CAP → push (packed CAP l) c = Ok (packed CAP (l ++ [c])).
Proof.
  intros Hl. unfold push, packed; simpl.
  replace (CAP - length l) with (S (CAP - S (length l))) by lia. cbn [replicate].
  rewrite replace_first_prefix, fmap_app, length_app, <-(assoc_L (++)). simpl.
  by rewrite Nat.add_comm.
Qed.

Lemma foldM_push_packed CAP l k : length l + length k ≤ CAP →
  foldM push k (packed CAP l) = Ok (packed CAP (l ++ k)).
Proof.
  revert l; induction k as [|c k IH]; intros l Hl; simpl; [by rewrite app_nil_r|].
  simpl in Hl. rewrite push_packed by lia. cbn [mbind outcome_bind].
  rewrite IH by (rewrite length_app; simpl; lia). by rewrite <-(assoc_L (++)).
Qed.

(** ** Sums of integers *)

Definition zsum (l : list Z) : Z := foldr Z.add 0%Z l.

Lemma zsum_cons x l : zsum (x :: l) = (x + zsum l)%Z.
Proof. done. Qed.

Lemma zsum_app l k : zsum (l ++ k) = (zsum l + zsum k)%Z.
Proof. induction l as [|x l IH]; [done|]. rewrite <-app_comm_cons, !zsum_cons, IH. lia. Qed.

Lemma zsum_insert l i x y : l !! i = Some x → zsum (<[i := y]> l) = (zsum l - x + y)%Z.
Proof.
  revert i; induction l as [|z l IH]; intros [|i]; simpl; intros Hi; [done..| |].
  - simplify_eq. lia.
  - rewrite (IH i Hi). lia.
Qed.

Lemma zsum_replicate n x : zsum (replicate n x) = (Z.of_nat n * x)%Z.
Proof. induction n as [|n IH]; [done|]. cbn [replicate]. rewrite zsum_cons, IH. lia. Qed.

Lemma zsum_nonneg l : Forall (λ x, 0 ≤ x)%Z l → (0 ≤ zsum l)%Z.
Proof. induction 1; simpl; lia. Qed.

Lemma zsum_lookup_le l i x : Forall (λ x, 0 ≤ x)%Z l → l !! i = Some x → (x ≤ zsum l)%Z.
Proof.
  intros H. revert i. induction H as [|y l Hy Hl IH]; intros [|i]; cbn [lookup list_lookup zsum foldr]; intros Hi; [done..| |].
  - simplify_eq. pose proof (zsum_nonneg l Hl). unfold zsum in *. lia.
  - specialize (IH i Hi). unfold zsum in *. lia.
Qed.

Lemma zsum_le_bound l b : Forall (λ x, x ≤ b)%Z l → (zsum l ≤ Z.of_nat (length l) * b)%Z.
Proof. induction 1; cbn [length zsum foldr]; unfold zsum in *; lia. Qed.

(** ** Seats and the schedule, for a valid table size *)

(** The largest hand dealt at a table of [P], the number of rounds and the hand
    size of round [r]. *)
Definition hand_max (P : nat) : nat := Nat.min 7 (51 / P).
Definition rounds (P : nat) : nat := 2 * hand_max P - 1.
Definition hand_at (P r : nat) : nat := if r <? hand_max P then r + 1 else 2 * hand_max P - r - 1.

Section Table.
Context (P : nat) (HP : 2 ≤ P ≤ 51).

Lemma validate_player_count_Ok : validate_player_count P = Ok tt.
Proof using HP.
  unfold validate_player_count. rewrite (proj2 (andb_true_iff _ _)); [done|].
  split; apply Nat.leb_le; lia.
Qed.

Lemma hand_max_bounds : 1 ≤ hand_max P ≤ 7.
Proof using HP.
  unfold hand_max. assert (1 ≤ 51 / P) by (apply Nat.div_le_lower_bound; lia). lia.
Qed.

Lemma hand_max_fits : P * hand_max P ≤ 51.
Proof using HP.
  unfold hand_max. pose proof (Nat.mul_div_le 51 P). nia.
Qed.

Lemma max_hand_size_Ok : max_hand_size P = Ok (hand_max P).
Proof using HP.
  unfold max_hand_size, usize_div. rewrite (proj2 (Nat.eqb_neq _ _)) by lia. simpl.
  unfold hand_max, MAX_HAND_SIZE. destruct (51 / P <? 7) eqn:Hlt; f_equal.
  - apply Nat.ltb_lt in Hlt. lia.
  - apply Nat.ltb_ge in Hlt. lia.
Qed.

Lemma round_count_Ok : round_count P = Ok (rounds P).
Proof using HP.
  unfold round_count. rewrite max_hand_size_Ok. cbn [mbind outcome_bind]. unfold usize_sub.
  pose proof hand_max_bounds. rewrite (proj2 (Nat.leb_le _ _)) by lia. unfold rounds. f_equal. lia.
Qed.

Lemma hand_size_for_round_Ok r : r < rounds P → hand_size_for_round P r = Ok (hand_at P r).
Proof using HP.
  intros Hr. unfold hand_size_for_round. rewrite max_hand_size_Ok. cbn [mbind outcome_bind].
  unfold hand_at, rounds in *. destruct (r <? hand_max P) eqn:Hlt; [done|]. apply Nat.ltb_ge in Hlt.
  unfold usize_sub. rewrite (proj2 (Nat.leb_le _ _)) by lia. cbn [mbind outcome_bind].
  rewrite (proj2 (Nat.leb_le _ _)) by lia. f_equal. lia.
Qed.

Lemma rounds_bounds : 1 ≤ rounds P ≤ 13.
Proof using HP. pose proof hand_max_bounds. unfold rounds. lia. Qed.

Lemma hand_at_bounds r : r < rounds P → 1 ≤ hand_at P r ≤ hand_max P.
Proof using HP.
  pose proof hand_max_bounds. unfold rounds, hand_at. intros Hr.
  destruct (r <? hand_max P) eqn:Hlt; [apply Nat.ltb_lt in Hlt|apply Nat.ltb_ge in Hlt]; lia.
Qed.

Lemma hand_at_fits r : r < rounds P → P * hand_at P r ≤ 51.
Proof using HP.
  intros Hr. pose proof (hand_at_bounds r Hr). pose proof hand_max_fits. nia.
Qed.

(** *** Seats *)

Lemma advance_lt s k : advance P s k < P.
Proof using HP. apply Nat.mod_upper_bound. lia. Qed.

Lemma left_advance s : left P s = advance P s 1.
Proof using P. done. Qed.

Lemma advance_0 s : s < P → advance P s 0 = s.
Proof using P. intros. unfold advance. rewrite Nat.add_0_r. by apply Nat.mod_small. Qed.

Lemma advance_add s a b : advance P (advance P s a) b = advance P s (a + b).
Proof using HP. unfold advance. rewrite Nat.Div0.add_mod_idemp_l. f_equal. lia. Qed.

Lemma advance_mod s a : advance P s (a mod P) = advance P s a.
Proof using HP. unfold advance. by rewrite Nat.Div0.add_mod_idemp_r. Qed.

Lemma advance_inj s a b : a < P → b < P → advance P s a = advance P s b → a = b.
Proof using HP.
  unfold advance. intros Ha Hb H.
  pose proof (Nat.div_mod_eq (s + a) P). pose proof (Nat.div_mod_eq (s + b) P).
  assert ((s + a) / P = (s + b) / P) by nia. nia.
Qed.

(** The distance from [s] to [q] going left. *)
Definition offset (s q : nat) : nat := (q + (P - s mod P)) mod P.

Lemma offset_lt s q : offset s q < P.
Proof using HP. apply Nat.mod_upper_bound. lia. Qed.

Lemma advance_offset s q : q < P → advance P s (offset s q) = q.
Proof using HP.
  intros Hq. unfold advance, offset. rewrite Nat.Div0.add_mod_idemp_r.
  pose proof (Nat.div_mod_eq s P). pose proof (Nat.mod_upper_bound s P).
  replace (s + (q + (P - s mod P))) with (q + (s / P + 1) * P) by nia.
  rewrite Nat.Div0.mod_add. by apply Nat.mod_small.
Qed.

Lemma offset_advance s a : a < P → offset s (advance P s a) = a.
Proof using HP.
  intros Ha. apply (advance_inj s); [apply offset_lt|done|]. apply advance_offset, advance_lt.
Qed.

(** Every seat is reached exactly once when going round from [s]. *)
Lemma seats_cover s q : q < P → ∃ a, a < P ∧ advance P s a = q.
Proof using HP. intros Hq. exists (offset s q). split; [apply offset_lt|by apply advance_offset]. Qed.

Lemma seats_NoDup s n : n ≤ P → NoDup (advance P s <$> seq 0 n).
Proof using HP.
  intros Hn. apply NoDup_fmap_2_strong; [|apply NoDup_seq].
  intros a b Ha%elem_of_seq Hb%elem_of_seq. apply advance_inj; lia.
Qed.
End Table.

#[export] Hint Resolve hand_max_bounds rounds_bounds advance_lt offset_lt : oracle.

(** ** Tricks *)

(** The trick that holds the plays [l], in order. *)
Definition trick_of (P : nat) (l : list PlayedCard) : Trick :=
  TrickOf ((Some <$> l) ++ replicate (P - length l) None) (length l).

Lemma trick_of_nil P : Trick_default P = trick_of P [].
Proof. unfold Trick_default, trick_of; simpl. by rewrite Nat.sub_0_r. Qed.

Lemma Trick_iter_of P l : Trick_iter (trick_of P l) = l.
Proof. unfold Trick_iter, trick_of; simpl. by rewrite omap_id_app, omap_id_fmap_Some, omap_id_replicate, app_nil_r. Qed.

Lemma trick_len_of P l : trick_len (trick_of P l) = length l.
Proof. done. Qed.

Lemma lead_suit_of P l : lead_suit (trick_of P l) = (λ p, suit (card p)) <$> head l.
Proof. destruct l as [|p l]; [|done]. unfold lead_suit, trick_of; simpl. by destruct (P - 0). Qed.

Lemma Trick_push_of P l p : length l < P → Trick_push P (trick_of P l) p = Ok (trick_of P (l ++ [p])).
Proof.
  intros Hl. unfold Trick_push. rewrite trick_len_of. rewrite (proj2 (Nat.leb_gt _ _)) by done.
  unfold assign. cbn [trick_of trick_cards].
  rewrite (proj2 (Nat.ltb_lt _ _)) by (rewrite length_app, length_fmap, length_replicate; lia).
  cbn [mbind outcome_bind]. unfold trick_of. do 2 f_equal; [|rewrite length_app; simpl; lia].
  replace (P - length l) with (S (P - S (length l))) by lia. cbn [replicate].
  rewrite insert_app_r_alt by (rewrite length_fmap; lia). rewrite length_fmap, Nat.sub_diag.
  rewrite fmap_app, length_app, <-(assoc_L (++)). simpl. by rewrite Nat.add_1_r.
Qed.

(** ** The winner of a trick *)

Section Max.
Context {A : Type} (gt : A → A → bool).
Context (gt_trans : ∀ a b c, gt a b = false → gt b c = false → gt a c = false).
Context (gt_asym : ∀ a b, gt a b = true → gt b a = false).

Lemma max_by_spec first rest :
  max_by gt first rest ∈ first :: rest ∧
  ∀ y, y ∈ first :: rest → gt y (max_by gt first rest) = false.
Proof using All.
  assert (∀ a, gt a a = false) as Hirr.
  { intros a. destruct (gt a a) eqn:Ha; [|done]. rewrite <-Ha. by apply gt_asym. }
  unfold max_by. revert first; induction rest as [|x rest IH]; intros first; simpl.
  { split; [left|]. by intros y ->%list_elem_of_singleton. }
  set (acc := if gt first x then first else x).
  destruct (IH acc) as [Hin Hmax]. split.
  { apply elem_of_cons in Hin as [Hin|Hin]; [|by do 2 right].
    rewrite Hin. subst acc. destruct (gt first x); [left|right; left]. }
  assert (gt acc (foldl (λ a y, if gt a y then a else y) acc rest) = false) as Hacc by (apply Hmax; left).
  intros y [->|[->|Hy]%elem_of_cons]%elem_of_cons; [| |apply Hmax; by right];
    (eapply gt_trans; [|exact Hacc]); subst acc; destruct (gt first x) eqn:Hg; auto.
Qed.
End Max.

Lemma key_gt_spec a b : key_gt a b = true ↔ b.1 < a.1 ∨ a.1 = b.1 ∧ b.2 < a.2.
Proof. unfold key_gt. rewrite orb_true_iff, andb_true_iff, !Nat.ltb_lt, Nat.eqb_eq. done. Qed.

Lemma key_gt_false a b : key_gt a b = false ↔ ¬ (b.1 < a.1 ∨ a.1 = b.1 ∧ b.2 < a.2).
Proof. by rewrite <-key_gt_spec, not_true_iff_false. Qed.

(** The rule of the game: trumps beat everything, then the suit led; within a
    suit the higher rank wins; an off-suit card beats nothing. *)
Inductive beats (trump lead : Suit) (c d : Card) : Prop :=
  | beats_trump : suit c = trump → suit d ≠ trump → beats trump lead c d
  | beats_lead : suit c = lead → suit d ≠ trump → suit d ≠ lead → beats trump lead c d
  | beats_rank : suit c = suit d → suit c = trump ∨ suit c = lead →
      rank_index (rank d) < rank_index (rank c) → beats trump lead c d.

Lemma rank_index_inj r r' : rank_index r = rank_index r' → r = r'.
Proof. by destruct r, r'. Qed.

Lemma card_eq c d : suit c = suit d → rank c = rank d → c = d.
Proof. destruct c, d; simpl; intros; by subst. Qed.

Lemma play_key_not_gt_beats trump lead p w :
  suit (card w) = trump ∨ suit (card w) = lead →
  key_gt (play_key trump lead p) (play_key trump lead w) = false →
  card p ≠ card w → beats trump lead (card w) (card p).
Proof.
  rewrite key_gt_false. unfold play_key; cbn [fst snd]. intros Hw Hgt Hne.
  destruct (decide (suit (card w) = trump)) as [Hwt|Hwt], (decide (suit (card p) = trump)) as [Hpt|Hpt].
  - apply beats_rank; [congruence|by left|].
    assert (rank_index (rank (card p)) ≠ rank_index (rank (card w))); [|lia].
    intros Hr%rank_index_inj. destruct Hne. apply card_eq; congruence.
  - by apply beats_trump.
  - case_decide; lia.
  - destruct Hw as [|Hwl]; [done|]. rewrite (decide_True _ _ Hwl) in Hgt.
    destruct (decide (suit (card p) = lead)) as [Hpl|Hpl]; [|by apply beats_lead].
    apply beats_rank; [congruence|by right|].
    assert (rank_index (rank (card p)) ≠ rank_index (rank (card w))); [|lia].
    intros Hr%rank_index_inj. destruct Hne. apply card_eq; congruence.
Qed.

Lemma winner_from_plays_spec P trump first rest : length (first :: rest) = P →
  ∃ w, winner_from_plays P trump (first :: rest) P = Some (player w) ∧ w ∈ first :: rest ∧
    ∀ p, p ∈ first :: rest → card p ≠ card w →
      beats trump (suit (card first)) (card w) (card p).
Proof.
  intros Hlen. unfold winner_from_plays. rewrite Nat.eqb_refl. cbn [negb].
  set (lead := suit (card first)). set (gt := λ a b, key_gt (play_key trump lead a) (play_key trump lead b)).
  destruct (max_by_spec gt) with (first := first) (rest := rest) as [Hin Hmax].
  { intros a b c. unfold gt. rewrite !key_gt_false. lia. }
  { intros a b. unfold gt. rewrite key_gt_spec, key_gt_false. lia. }
  exists (max_by gt first rest). split_and!; [done|done|]. intros p Hp Hne.
  apply play_key_not_gt_beats; [|by apply Hmax|done].
  assert (gt first (max_by gt first rest) = false) as Hf by (apply Hmax; left).
  unfold gt in Hf. rewrite key_gt_false in Hf. unfold play_key in Hf; cbn [fst snd] in Hf.
  fold lead in Hf. rewrite (decide_True (P := lead = lead)) in Hf by done.
  destruct (decide (suit (card (max_by gt first rest)) = trump)) as [|Ht]; [by left|right].
  unfold gt in Ht. destruct (decide (suit (card (max_by gt first rest)) = lead)) as [|Hl]; [done|].
  unfold gt in Hl. rewrite (decide_False _ _ Ht), (decide_False _ _ Hl) in Hf. case_decide; lia.
Qed.
