(* ===== verification/OracleInvariant.v ===== *)
(** * The invariant of a game and its preservation

    What a state reached from [Game_new] by accepted actions satisfies: the
    ledger bounds, the seat order of bids and plays, the sizes of the hands and
    captured piles, and the conservation of the 52 cards.  Each operation of the
    oracle is shown to succeed on every input its guards admit, and to establish
    the invariant of the phase it moves to; then the games that play reaches. *)

From stdpp Require Import base strings numbers option sets list.
From S2P Require Import Prelude Oracle OracleLemmas.

#[export] Instance Card_inhabited : Inhabited Card := populate (CardOf Clubs Two).

(** ** The invariant *)

Record ledger_inv (P : nat) (l : Ledger) : Prop := {
  li_dealer : dealer l < P;
  li_round : round_index l < rounds P;
  li_scores_len : length (scores l) = P;
  li_scores : Forall (λ s, 0 ≤ s ≤ 27 * Z.of_nat (round_index l))%Z (scores l);
  li_pot : (25 * Z.of_nat P ≤ pot_cents l ≤ 25 * Z.of_nat P + 10 * Z.of_nat (P * round_index l))%Z;
}.

Definition bid_ok (h : nat) (b : Z) : Prop := (0 ≤ b ≤ Z.of_nat h)%Z.

Record bidding_inv (P : nat) (s : Bidding) : Prop := {
  bi_ledger : ledger_inv P (bd_ledger s);
  bi_size : bd_hand_size s = Z.of_nat (hand_at P (round_index (bd_ledger s)));
  bi_hands_len : length (bd_hands s) = P;
  bi_hands : Forall (λ f, zone_wf 7 f ∧ len f = hand_at P (round_index (bd_ledger s))) (bd_hands s);
  bi_bids_len : length (bd_bids s) = P;
  bi_made : bd_bids_made s < P;
  bi_actor : bd_actor s = advance P (left P (dealer (bd_ledger s))) (bd_bids_made s);
  (** the seats left of the dealer have bid, in order *)
  bi_bids : ∀ i, i < P →
    match bd_bids s !! advance P (left P (dealer (bd_ledger s))) i with
    | Some (Some b) => i < bd_bids_made s ∧ bid_ok (hand_at P (round_index (bd_ledger s))) b
    | Some None => bd_bids_made s ≤ i
    | None => False
    end;
  bi_cards : zone_cards (bd_hands s) (bd_trump s) (bd_stock s) (Trick_default P)
               (replicate P CardPile_default) ≡ₚ standard_deck;
}.

(** [l] is the list of the plays of the current trick. *)
Record playing_inv (P : nat) (s : Playing) (l : list PlayedCard) : Prop := {
  pi_ledger : ledger_inv P (pl_ledger s);
  pi_size : pl_hand_size s = Z.of_nat (hand_at P (round_index (pl_ledger s)));
  pi_trick : pl_trick s = trick_of P l;
  pi_leader : pl_leader s < P;
  pi_players : player <$> l = advance P (pl_leader s) <$> seq 0 (length l);
  pi_won_len : length (pl_tricks_won s) = P;
  pi_won : Forall (λ n, 0 ≤ n)%Z (pl_tricks_won s);
  pi_won_sum : (zsum (pl_tricks_won s) < pl_hand_size s)%Z;
  pi_hands_len : length (pl_hands s) = P;
  (** the seats that have played the current trick hold one card less *)
  pi_hands : ∀ i f, i < P → pl_hands s !! advance P (pl_leader s) i = Some f →
    zone_wf 7 f ∧
    (Z.of_nat (len f) + zsum (pl_tricks_won s) + (if (i <? length l)%nat then 1 else 0) = pl_hand_size s)%Z;
  pi_bids_len : length (pl_bids s) = P;
  pi_bids : Forall (bid_ok (hand_at P (round_index (pl_ledger s)))) (pl_bids s);
  pi_captured_len : length (pl_captured s) = P;
  pi_captured : ∀ i f n, pl_captured s !! i = Some f → pl_tricks_won s !! i = Some n →
    zone_wf 52 f ∧ Z.of_nat (len f) = (Z.of_nat P * n)%Z;
  pi_cards : zone_cards (pl_hands s) (pl_trump s) (pl_stock s) (pl_trick s) (pl_captured s)
               ≡ₚ standard_deck;
}.

Record scoring_inv (P : nat) (s : Scoring) : Prop := {
  si_ledger : ledger_inv P (sc_ledger s);
  si_size : sc_hand_size s = Z.of_nat (hand_at P (round_index (sc_ledger s)));
  si_won_len : length (sc_tricks_won s) = P;
  si_won : Forall (λ n, 0 ≤ n)%Z (sc_tricks_won s);
  si_won_sum : zsum (sc_tricks_won s) = sc_hand_size s;
  si_bids_len : length (sc_bids s) = P;
  si_bids : Forall (bid_ok (hand_at P (round_index (sc_ledger s)))) (sc_bids s);
  si_cards : zone_cards (replicate P Hand_default) (sc_trump s) (sc_stock s) (Trick_default P)
               (sc_captured s) ≡ₚ standard_deck;
}.

Record finished_inv (P : nat) (s : Finished) : Prop := {
  fi_scores_len : length (fin_scores s) = P;
  fi_scores : Forall (λ s, 0 ≤ s ≤ 27 * Z.of_nat (rounds P))%Z (fin_scores s);
  fi_pot : (25 * Z.of_nat P ≤ fin_pot_cents s ≤ 25 * Z.of_nat P + 10 * Z.of_nat (P * rounds P))%Z;
  fi_winners : winner_mask (fin_scores s) = Ok (fin_winners s);
}.

(** [l] fixes the plays of the current trick of a playing state: a playing
    state is a game state between actions when its trick is not full. *)
Definition game_inv (P : nat) (g : GameState) : Prop :=
  match g with
  | SAwaitingDeal l => ledger_inv P l
  | SBidding s => bidding_inv P s
  | SPlaying s => ∃ l, playing_inv P s l ∧ length l < P ∧ pl_actor s = advance P (pl_leader s) (length l)
  | SScoring s => scoring_inv P s
  | SFinished s => finished_inv P s
  end.

(** The values a Rust [Action<PLAYERS>] can hold. *)
Definition action_typed (P : nat) (a : Action) : Prop :=
  match a with
  | ADeal deck => deck ≡ₚ standard_deck
  | ABid p b => p < P ∧ in_width 8 b
  | APlay p _ => p < P
  | ASettleRound => True
  end.

Section Preservation.
Context (P : nat) (HP : 2 ≤ P ≤ 51).

Lemma game_new_inv first : first < P →
  ∃ g, Game_new P first = Ok g ∧ game_inv P g.
Proof using HP.
  intros Hf. unfold Game_new. rewrite validate_player_count_Ok by done. cbn [mbind outcome_bind].
  assert (checked 32 (Z.of_nat P) = Some (Z.of_nat P)) as ->.
  { apply checked_Some. unfold in_width. lia. }
  cbn [ok_or mbind outcome_bind]. rewrite u_mul_ok by (unfold in_width, OPENING_ANTE_CENTS; lia).
  eexists. split; [done|]. pose proof (rounds_bounds P HP).
  split; cbn [dealer round_index scores pot_cents].
  - done.
  - lia.
  - apply length_replicate.
  - apply Forall_replicate. lia.
  - unfold OPENING_ANTE_CENTS. lia.
Qed.

(** *** Dealing *)

(** The cards seat [i] (counted from the seat left of the dealer) holds after
    [n] rounds of the table. *)
Definition dealt_to (deck : list Card) (i n : nat) : list Card :=
  (λ k, deck !!! (k * P + i)) <$> seq 0 n.

Lemma dealt_to_S deck i n : dealt_to deck i (S n) = dealt_to deck i n ++ [deck !!! (n * P + i)].
Proof using Type. unfold dealt_to. by rewrite seq_S, fmap_app. Qed.

Lemma length_dealt_to deck i n : length (dealt_to deck i n) = n.
Proof using Type. unfold dealt_to. by rewrite length_fmap, length_seq. Qed.

(** After [k] rounds of the table and [j] cards of the next one. *)
Record dealt_state (first : Seat) (deck : list Card) (k j : nat) (acc : list FixedCards * nat) : Prop := {
  ds_cursor : acc.2 = k * P + j;
  ds_len : length acc.1 = P;
  ds_hands : ∀ i, i < P →
    acc.1 !! advance P first i = Some (packed 7 (dealt_to deck i (if i <? j then S k else k)));
  ds_cards : (acc.1 ≫= iter) ≡ₚ take (k * P + j) deck;
}.

Lemma deal_card_step first deck k j acc : length deck = 52 → S k ≤ 7 → k * P + j < 52 → j < P →
  dealt_state first deck k j acc →
  ∃ acc', deal_card P first deck acc j = Ok acc' ∧ dealt_state first deck k (S j) acc'.
Proof using HP.
  intros Hdeck Hk Hc Hj [Hcur Hlen Hhands Hcards]. destruct acc as [hands cursor]; cbn [fst snd] in *. subst cursor.
  unfold deal_card. rewrite (Hhands j Hj). rewrite Nat.ltb_irrefl. cbn [expect mbind outcome_bind].
  destruct (lookup_lt_is_Some_2 deck (k * P + j)) as [c Hc']; [lia|].
  rewrite Hc'. cbn [expect mbind outcome_bind].
  rewrite push_packed by (rewrite length_dealt_to; lia). cbn [mbind outcome_bind].
  assert (dealt_to deck j k ++ [c] = dealt_to deck j (S k)) as ->.
  { rewrite dealt_to_S. do 2 f_equal. symmetry. by apply list_lookup_total_correct. }
  eexists. split; [done|]. split; cbn [fst snd].
  - lia.
  - by rewrite length_insert.
  - intros i Hi. destruct (decide (i = j)) as [->|Hij].
    + rewrite list_lookup_insert_eq by (rewrite Hlen; by apply advance_lt).
      rewrite (proj2 (Nat.ltb_lt j (S j))) by lia. done.
    + rewrite list_lookup_insert_ne; [|intros Heq%advance_inj; [congruence|done..]].
      rewrite Hhands by done. destruct (i <? j) eqn:H1, (i <? S j) eqn:H2; try done;
        rewrite ?Nat.ltb_lt, ?Nat.ltb_ge in *; lia.
  - rewrite (bind_push_perm hands (advance P first j) (packed 7 (dealt_to deck j k)) _ c).
    + rewrite Hcards, Nat.add_succ_r, (take_S_r _ _ c) by done. apply Permutation_cons_append.
    + rewrite (Hhands j Hj), Nat.ltb_irrefl. done.
    + rewrite !iter_packed, dealt_to_S. rewrite (list_lookup_total_correct _ _ _ Hc').
      symmetry. apply Permutation_cons_append.
Qed.

Lemma dealt_state_start first deck : dealt_state first deck 0 0 (replicate P Hand_default, 0).
Proof using HP.
  split; cbn [fst snd].
  - done.
  - apply length_replicate.
  - intros i Hi. rewrite lookup_replicate_2 by (by apply advance_lt). by rewrite <-packed_nil.
  - unfold Hand_default. by rewrite bind_replicate_default.
Qed.

Lemma dealt_state_next first deck k acc :
  dealt_state first deck k P acc → dealt_state first deck (S k) 0 acc.
Proof using HP.
  intros [Hcur Hlen Hhands Hcards]. split; [lia|done| |].
  - intros i Hi. rewrite Hhands by done. by rewrite (proj2 (Nat.ltb_lt i P)).
  - rewrite Hcards. by replace (S k * P + 0) with (k * P + P) by lia.
Qed.

Lemma deal_round_step first deck k acc : length deck = 52 → S k ≤ 7 → S k * P ≤ 52 →
  dealt_state first deck k 0 acc →
  ∃ acc', foldM (deal_card P first deck) (seq 0 P) acc = Ok acc' ∧ dealt_state first deck (S k) 0 acc'.
Proof using HP.
  intros Hdeck Hk Hc Hst.
  destruct (foldM_invariant (deal_card P first deck)
    (λ pre, dealt_state first deck k (length pre)) (seq 0 P) acc) as (acc' & Hr & Hst'); [done| |].
  - intros pre x post b Heq Hb.
    assert (x = length pre ∧ length pre < P) as [-> Hlt].
    { assert (seq 0 P !! length pre = Some x) as Hx by (rewrite Heq; by apply list_lookup_middle).
      apply lookup_seq in Hx. lia. }
    rewrite length_app, Nat.add_1_r. apply deal_card_step; [done..|nia|done|done].
  - exists acc'. split; [done|]. apply dealt_state_next. by rewrite length_seq in Hst'.
Qed.

Lemma deal_rounds first deck h : length deck = 52 → h ≤ 7 → h * P ≤ 52 →
  ∃ acc, foldM (λ acc (_ : nat), foldM (deal_card P first deck) (seq 0 P) acc) (seq 0 h)
           (replicate P Hand_default, 0) = Ok acc ∧ dealt_state first deck h 0 acc.
Proof using HP.
  intros Hdeck Hh Hc.
  destruct (foldM_invariant (λ acc (_ : nat), foldM (deal_card P first deck) (seq 0 P) acc)
    (λ pre, dealt_state first deck (length pre) 0) (seq 0 h) (replicate P Hand_default, 0))
    as (acc & Hr & Hst).
  - apply dealt_state_start.
  - intros pre x post b Heq Hb. rewrite length_app, Nat.add_1_r.
    assert (length pre < h).
    { apply (f_equal length) in Heq. rewrite length_seq, length_app in Heq. simpl in Heq. lia. }
    apply deal_round_step; [done|lia|nia|done].
  - exists acc. split; [done|]. by rewrite length_seq in Hst.
Qed.

(** The state a deal produces: the table is served round-robin from the seat
    left of the dealer, the next card is trump and the rest is the stock. *)
Record dealt_from (ledger : Ledger) (deck : list Card) (s : Bidding) : Prop := {
  df_ledger : bd_ledger s = ledger;
  df_size : bd_hand_size s = Z.of_nat (hand_at P (round_index ledger));
  df_hands_len : length (bd_hands s) = P;
  df_hands : ∀ i, i < P →
    bd_hands s !! advance P (left P (dealer ledger)) i =
      Some (packed 7 (dealt_to deck i (hand_at P (round_index ledger))));
  df_trump : deck !! (P * hand_at P (round_index ledger)) = Some (bd_trump s);
  df_stock : bd_stock s = packed 52 (drop (S (P * hand_at P (round_index ledger))) deck);
  df_bids : bd_bids s = replicate P None;
  df_actor : bd_actor s = left P (dealer ledger);
  df_made : bd_bids_made s = 0;
}.

Lemma deal_spec ledger deck : ledger_inv P ledger → deck ≡ₚ standard_deck →
  ∃ s, deal P ledger deck = Ok {| next := SBidding s; round_scores := None |} ∧
       dealt_from ledger deck s ∧ bidding_inv P s.
Proof using HP.
  intros Hl Hdeck. pose proof (li_round _ _ Hl) as Hr. set (h := hand_at P (round_index ledger)).
  pose proof (hand_at_bounds P HP _ Hr) as Hh. pose proof (hand_at_fits P HP _ Hr) as Hfit.
  pose proof (hand_max_bounds P HP). fold h in Hh, Hfit.
  assert (length deck = 52) as Hlen by by rewrite Hdeck.
  unfold deal. rewrite (hand_size_for_round_Ok P HP) by done. cbn [mbind outcome_bind]. fold h.
  destruct (deal_rounds (left P (dealer ledger)) deck h) as ([hands cursor] & -> & Hst); [done|lia..|].
  destruct Hst as [Hcur Hhl Hhands Hcards]; cbn [fst snd] in *. rewrite Nat.add_0_r in *.
  cbn [mbind outcome_bind]. subst cursor. rewrite (Nat.mul_comm h P) in *.
  destruct (lookup_lt_is_Some_2 deck (P * h)) as [trump Htrump]; [lia|].
  rewrite Htrump. cbn [expect mbind outcome_bind].
  unfold CardPile_default at 1. rewrite packed_nil, foldM_push_packed
    by (rewrite length_drop; simpl; unfold DECK_SIZE; lia). cbn [mbind outcome_bind app].
  assert (checked 8 (Z.of_nat h) = Some (Z.of_nat h)) as ->.
  { apply checked_Some. unfold in_width. lia. }
  cbn [expect mbind outcome_bind].
  set (s := {| bd_ledger := ledger |}).
  assert (zone_cards (bd_hands s) (bd_trump s) (bd_stock s) (Trick_default P)
             (replicate P CardPile_default) ≡ₚ standard_deck) as Hzones.
  { unfold zone_cards, s; cbn [bd_hands bd_trump bd_stock]. unfold CardPile_default.
    rewrite bind_replicate_default, trick_of_nil, Trick_iter_of, iter_packed, Hcards. simpl.
    rewrite app_nil_r, <-Hdeck. etrans; [apply Permutation_middle|].
    by rewrite (take_drop_middle deck (P * h) trump). }
  unfold validate. rewrite (proj2 (validate_card_zones_Ok _ _ _ _ _) Hzones). cbn [mbind outcome_bind].
  exists s. split; [done|]. split.
  { by split. }
  split; try done; cbn.
  - rewrite Forall_forall. intros f Hf. apply list_elem_of_lookup in Hf as [q Hq].
    assert (q < P) as Hq' by (rewrite <-Hhl; by eapply lookup_lt_Some).
    destruct (seats_cover P HP (left P (dealer ledger)) q Hq') as (i & Hi & <-).
    rewrite Hhands in Hq by done. simplify_eq. cbn [Nat.ltb Nat.leb]. fold h.
    split; [apply packed_wf; rewrite length_dealt_to; unfold h in *; lia|]. apply length_dealt_to.
  - apply length_replicate.
  - lia.
  - rewrite advance_0; [done|]. apply advance_lt, HP.
  - intros i Hi. rewrite lookup_replicate_2 by (by apply advance_lt). lia.
Qed.

(** *** Bidding *)

Lemma all_Some {A} (l : list (option A)) :
  (∀ i o, l !! i = Some o → is_Some o) → ∃ l', l = Some <$> l'.
Proof using Type.
  induction l as [|o l IH]; intros H; [by exists []|].
  destruct (H 0 o eq_refl) as [x ->]. destruct IH as [l' ->]; [intros i; apply (H (S i))|].
  by exists (x :: l').
Qed.

Lemma mapM_expect {A} (l : list A) : mapM (M := outcome RuleViolation) expect (Some <$> l) = Ok l.
Proof using Type.
  induction l as [|x l IH]; [done|]. cbn [fmap list_fmap mapM expect mbind outcome_bind].
  change (list_fmap _ _ Some l) with (Some <$> l). by rewrite IH.
Qed.

(** The guards of [place_bid], in their order. *)
Lemma place_bid_guards s p b :
  place_bid P s p b =
    if negb (bool_decide (p = bd_actor s)) then Err WrongActor
    else if (bd_hand_size s <? b)%Z then Err (BidOutOfRange b (bd_hand_size s))
    else place_bid P s p b.
Proof using Type.
  unfold place_bid. case_bool_decide; [|done]. cbn [ensure mbind outcome_bind negb].
  by destruct (bd_hand_size s <? b)%Z.
Qed.

Definition bid_next (s : Bidding) (b : Z) : Bidding :=
  {| bd_ledger := bd_ledger s; bd_hand_size := bd_hand_size s; bd_hands := bd_hands s;
     bd_trump := bd_trump s; bd_stock := bd_stock s;
     bd_bids := <[bd_actor s := Some b]> (bd_bids s);
     bd_actor := left P (bd_actor s); bd_bids_made := S (bd_bids_made s) |}.

Definition bids_complete (s : Bidding) (bids : list Z) : Playing :=
  let leader := left P (dealer (bd_ledger s)) in
  {| pl_ledger := bd_ledger s; pl_hand_size := bd_hand_size s; pl_hands := bd_hands s;
     pl_trump := bd_trump s; pl_stock := bd_stock s; pl_bids := bids;
     pl_actor := leader; pl_leader := leader; pl_trick := Trick_default P;
     pl_captured := replicate P CardPile_default; pl_tricks_won := replicate P 0%Z |}.

(** The slots of the bids after one more bid. *)
Lemma bids_after s b : bidding_inv P s → bid_ok (hand_at P (round_index (bd_ledger s))) b →
  ∀ i, i < P →
  match <[bd_actor s := Some b]> (bd_bids s) !! advance P (left P (dealer (bd_ledger s))) i with
  | Some (Some b) => i < S (bd_bids_made s) ∧ bid_ok (hand_at P (round_index (bd_ledger s))) b
  | Some None => S (bd_bids_made s) ≤ i
  | None => False
  end.
Proof using HP.
  intros Hs Hb i Hi. rewrite (bi_actor _ _ Hs). pose proof (bi_made _ _ Hs).
  destruct (decide (i = bd_bids_made s)) as [->|Hne].
  - rewrite list_lookup_insert_eq; [|rewrite (bi_bids_len _ _ Hs); by apply advance_lt]. split; [lia|done].
  - rewrite list_lookup_insert_ne; [|intros Heq%advance_inj; [congruence|done..]].
    pose proof (bi_bids _ _ Hs i Hi) as Hold. destruct (bd_bids s !! _) as [[?|]|]; [|lia|done].
    split; [lia|apply Hold].
Qed.

Lemma bid_next_inv s b : bidding_inv P s → S (bd_bids_made s) ≠ P →
  bid_ok (hand_at P (round_index (bd_ledger s))) b → bidding_inv P (bid_next s b).
Proof using HP.
  intros Hs Hk Hb. split; cbn [bid_next bd_ledger bd_hand_size bd_hands bd_trump bd_stock bd_bids bd_actor bd_bids_made];
    try apply Hs.
  - rewrite length_insert. apply Hs.
  - pose proof (bi_made _ _ Hs). lia.
  - rewrite (bi_actor _ _ Hs) at 1. rewrite left_advance, advance_add by done. f_equal. lia.
  - by apply bids_after.
Qed.

Lemma bids_complete_inv s b bids : bidding_inv P s → S (bd_bids_made s) = P →
  bid_ok (hand_at P (round_index (bd_ledger s))) b →
  <[bd_actor s := Some b]> (bd_bids s) = Some <$> bids →
  playing_inv P (bids_complete s bids) [].
Proof using HP.
  intros Hs Hk Hb Hbids. pose proof (li_dealer _ _ (bi_ledger _ _ Hs)).
  pose proof (hand_at_bounds P HP _ (li_round _ _ (bi_ledger _ _ Hs))).
  assert (length bids = P) as Hbl.
  { rewrite <-(length_fmap (Some : Z → _)), <-Hbids, length_insert. apply Hs. }
  split; cbn [bids_complete pl_ledger pl_hand_size pl_hands pl_trump pl_stock pl_bids pl_actor
              pl_leader pl_trick pl_captured pl_tricks_won length]; try apply Hs; try done.
  - apply trick_of_nil.
  - by apply advance_lt.
  - apply length_replicate.
  - by apply Forall_replicate.
  - rewrite zsum_replicate, (bi_size _ _ Hs). lia.
  - intros i f Hi Hf. pose proof (bi_hands _ _ Hs) as Hh. rewrite Forall_forall in Hh.
    destruct (Hh f) as [Hwf Hlen]; [by eapply list_elem_of_lookup_2|]. split; [done|].
    rewrite zsum_replicate, (bi_size _ _ Hs), Hlen. simpl. lia.
  - rewrite Forall_lookup. intros q x Hq.
    assert (q < P) as HqP by (rewrite <-Hbl; by eapply lookup_lt_Some).
    destruct (seats_cover P HP (left P (dealer (bd_ledger s))) q HqP) as (i & Hi & <-).
    pose proof (bids_after s b Hs Hb i Hi) as Ha. rewrite Hbids, list_lookup_fmap, Hq in Ha. by apply Ha.
  - apply length_replicate.
  - intros i f n [-> _]%lookup_replicate [-> _]%lookup_replicate. split; [apply zone_wf_default|].
    simpl. lia.
Qed.

Lemma place_bid_spec s b : bidding_inv P s → (0 ≤ b ≤ bd_hand_size s)%Z →
  (S (bd_bids_made s) ≠ P ∧
   place_bid P s (bd_actor s) b = Ok {| next := SBidding (bid_next s b); round_scores := None |}) ∨
  (S (bd_bids_made s) = P ∧ ∃ bids, <[bd_actor s := Some b]> (bd_bids s) = Some <$> bids ∧
   place_bid P s (bd_actor s) b =
     Ok {| next := SPlaying (bids_complete s bids); round_scores := None |}).
Proof using HP.
  intros Hs Hb. unfold place_bid. rewrite bool_decide_eq_true_2 by done. cbn [ensure mbind outcome_bind].
  assert ((bd_hand_size s <? b)%Z = false) as -> by lia. cbn [negb ensure mbind outcome_bind].
  unfold assign. assert (bd_actor s < length (bd_bids s)) as Hlt.
  { rewrite (bi_bids_len _ _ Hs), (bi_actor _ _ Hs). by apply advance_lt. }
  rewrite (proj2 (Nat.ltb_lt _ _) Hlt). cbn [mbind outcome_bind].
  destruct (S (bd_bids_made s) =? P) eqn:Hk; [right|left]; [apply Nat.eqb_eq in Hk|apply Nat.eqb_neq in Hk]; [|done].
  split; [done|]. destruct (all_Some (<[bd_actor s := Some b]> (bd_bids s))) as [bids Hbids].
  - intros q o Hq. assert (q < P) as HqP.
    { rewrite <-(bi_bids_len _ _ Hs), <-(length_insert (bd_bids s) (bd_actor s) (Some b)). by eapply lookup_lt_Some. }
    destruct (seats_cover P HP (left P (dealer (bd_ledger s))) q HqP) as (i & Hi & <-).
    assert (bid_ok (hand_at P (round_index (bd_ledger s))) b) as Hb'.
    { unfold bid_ok. rewrite <-(bi_size _ _ Hs). done. }
    pose proof (bids_after s b Hs Hb' i Hi) as Ha. rewrite Hq in Ha. destruct o; [done|]. lia.
  - exists bids. split; [done|]. rewrite Hbids, mapM_expect. done.
Qed.

(** *** Playing a card *)

Lemma checked_playing_Ok s l : playing_inv P s l →
  checked_playing_transition P s = Ok {| next := SPlaying s; round_scores := None |}.
Proof using Type.
  intros Hs. unfold checked_playing_transition, validate.
  by rewrite (proj2 (validate_card_zones_Ok _ _ _ _ _) (pi_cards _ _ _ Hs)).
Qed.

(** The state after [card] has moved from the actor's hand to the trick. *)
Definition play_next (s : Playing) (hand' : FixedCards) (trick' : Trick) (actor : nat) : Playing :=
  {| pl_ledger := pl_ledger s; pl_hand_size := pl_hand_size s;
     pl_hands := <[pl_actor s := hand']> (pl_hands s);
     pl_trump := pl_trump s; pl_stock := pl_stock s; pl_bids := pl_bids s;
     pl_actor := actor; pl_leader := pl_leader s; pl_trick := trick';
     pl_captured := pl_captured s; pl_tricks_won := pl_tricks_won s |}.

Lemma play_next_inv s l hand c hand' actor : playing_inv P s l → length l < P →
  pl_actor s = advance P (pl_leader s) (length l) →
  pl_hands s !! pl_actor s = Some hand →
  zone_wf 7 hand' → iter hand ≡ₚ c :: iter hand' → len hand = S (len hand') →
  playing_inv P (play_next s hand' (trick_of P (l ++ [PlayedCardOf (pl_actor s) c])) actor)
    (l ++ [PlayedCardOf (pl_actor s) c]).
Proof using HP.
  intros Hs Hl Hactor Hhand Hwf' Hperm Hlen'.
  split; cbn [play_next pl_ledger pl_hand_size pl_hands pl_trump pl_stock pl_bids pl_actor
              pl_leader pl_trick pl_captured pl_tricks_won]; try apply Hs; try done.
  - rewrite length_app, Nat.add_1_r, seq_S, !fmap_app, (pi_players _ _ _ Hs).
    cbn [fmap list_fmap player Nat.add]. by rewrite <-Hactor.
  - rewrite length_insert. apply Hs.
  - intros i f Hi. rewrite length_app, Nat.add_1_r, Hactor. rewrite Hactor in Hhand.
    destruct (decide (i = length l)) as [->|Hne].
    + rewrite list_lookup_insert_eq by (rewrite (pi_hands_len _ _ _ Hs); by apply advance_lt).
      intros [= <-]. destruct (pi_hands _ _ _ Hs (length l) hand) as [_ Hsz]; [done..|].
      split; [done|]. rewrite Nat.ltb_irrefl in Hsz. rewrite (proj2 (Nat.ltb_lt (length l) (S (length l)))) by lia. lia.
    + rewrite list_lookup_insert_ne; [|intros Heq%advance_inj; [congruence|done..]].
      intros Hf. destruct (pi_hands _ _ _ Hs i f) as [Hwf Hsz]; [done..|]. split; [done|].
      destruct (i <? length l) eqn:H1, (i <? S (length l)) eqn:H2; try done;
        rewrite ?Nat.ltb_lt, ?Nat.ltb_ge in *; lia.
  - pose proof (pi_cards _ _ _ Hs) as Hcards. rewrite <-Hcards. unfold zone_cards.
    rewrite (pi_trick _ _ _ Hs), !Trick_iter_of.
    rewrite (bind_remove_perm (pl_hands s) _ _ _ _ Hhand Hperm), fmap_app. simpl.
    apply perm_skip. rewrite <-!(assoc_L (++)). simpl.
    rewrite Permutation_middle. apply Permutation_app_head. rewrite Permutation_middle.
    apply Permutation_app_head. by rewrite <-Permutation_middle.
Qed.

(** *** Completing a trick *)

Lemma collect_trick captured w pile (l : list PlayedCard) : captured !! w = Some pile → zone_wf 52 pile →
  len pile + length l ≤ 52 →
  ∃ pile', foldM (collect_card w) l captured = Ok (<[w := pile']> captured) ∧
    zone_wf 52 pile' ∧ iter pile' ≡ₚ (card <$> l) ++ iter pile ∧ len pile' = len pile + length l.
Proof using HP.
  revert captured pile; induction l as [|p l IH]; intros captured pile Hw Hwf Hlen.
  { exists pile. simpl. rewrite list_insert_id by done. by rewrite Nat.add_0_r. }
  simpl in Hlen. destruct (push_Ok 52 pile (card p)) as (pile1 & Hpush & Hwf1 & Hp1 & Hl1); [done|lia|].
  assert (collect_card w captured p = Ok (<[w := pile1]> captured)) as Hstep.
  { unfold collect_card. rewrite Hw. cbn [expect mbind outcome_bind]. by rewrite Hpush. }
  rewrite foldM_cons, Hstep. cbn [mbind outcome_bind].
  destruct (IH (<[w := pile1]> captured) pile1) as (pile' & -> & Hwf' & Hp' & Hl').
  - apply list_lookup_insert_eq. by eapply lookup_lt_Some.
  - done.
  - lia.
  - exists pile'. rewrite list_insert_insert_eq. split_and!; [done|done| |simpl; lia].
    rewrite Hp', Hp1. simpl. symmetry. apply Permutation_middle.
Qed.

Lemma trick_winner_seat s l : playing_inv P s l → length l = P →
  ∃ w, Trick_winner P (trick_of P l) (suit (pl_trump s)) = Some (player w) ∧ w ∈ l ∧ player w < P ∧
    ∀ p, p ∈ l → card p ≠ card w →
      ∃ first, head l = Some first ∧ beats (suit (pl_trump s)) (suit (card first)) (card w) (card p).
Proof using HP.
  intros Hs Hl. unfold Trick_winner. rewrite Trick_iter_of, trick_len_of, Hl.
  destruct l as [|first rest]; [simpl in Hl; lia|].
  destruct (winner_from_plays_spec P (suit (pl_trump s)) first rest Hl) as (w & -> & Hw & Hb).
  exists w. split_and!; [done|done| |].
  - assert (player w ∈ player <$> first :: rest) as Hin by (apply list_elem_of_fmap; by exists w).
    rewrite (pi_players _ _ _ Hs) in Hin. apply list_elem_of_fmap in Hin as (a & -> & _). by apply advance_lt.
  - intros p Hp Hne. exists first. split; [done|by apply Hb].
Qed.

(** The zones after the trick has moved to a captured pile. *)
Lemma collect_cards s l w pile pile' : playing_inv P s l → pl_captured s !! w = Some pile →
  iter pile' ≡ₚ (card <$> l) ++ iter pile →
  zone_cards (pl_hands s) (pl_trump s) (pl_stock s) (Trick_default P) (<[w := pile']> (pl_captured s))
    ≡ₚ standard_deck.
Proof using Type.
  intros Hs Hw Hp. rewrite <-(pi_cards _ _ _ Hs). unfold zone_cards.
  rewrite (pi_trick _ _ _ Hs), trick_of_nil, !Trick_iter_of. simpl. apply perm_skip.
  do 2 apply Permutation_app_head.
  destruct (bind_insert_perm (pl_captured s) w pile pile' Hw) as (rest & -> & ->).
  by rewrite Hp, <-(assoc_L (++)).
Qed.

Definition trick_scored (s : Playing) (captured : list FixedCards) (won : list Z) : Scoring :=
  {| sc_ledger := pl_ledger s; sc_hand_size := pl_hand_size s; sc_trump := pl_trump s;
     sc_stock := pl_stock s; sc_bids := pl_bids s; sc_captured := captured; sc_tricks_won := won |}.

Definition trick_next (s : Playing) (w : nat) (captured : list FixedCards) (won : list Z) : Playing :=
  {| pl_ledger := pl_ledger s; pl_hand_size := pl_hand_size s; pl_hands := pl_hands s;
     pl_trump := pl_trump s; pl_stock := pl_stock s; pl_bids := pl_bids s;
     pl_actor := w; pl_leader := w; pl_trick := Trick_default P;
     pl_captured := captured; pl_tricks_won := won |}.

(** With every seat having played, each hand holds the cards of the tricks to come. *)
Lemma full_trick_hands s l q f : playing_inv P s l → length l = P → pl_hands s !! q = Some f →
  zone_wf 7 f ∧ (Z.of_nat (len f) + zsum (pl_tricks_won s) + 1 = pl_hand_size s)%Z.
Proof using HP.
  intros Hs Hl Hq. assert (q < P) as HqP by (rewrite <-(pi_hands_len _ _ _ Hs); by eapply lookup_lt_Some).
  destruct (seats_cover P HP (pl_leader s) q HqP) as (i & Hi & <-).
  pose proof (pi_hands _ _ _ Hs i f Hi Hq) as [Hwf Hsz]. rewrite Hl, (proj2 (Nat.ltb_lt i P) Hi) in Hsz. done.
Qed.

Lemma hands_empty s l : playing_inv P s l → length l = P →
  forallb is_empty (pl_hands s) = true ↔ (zsum (pl_tricks_won s) + 1 = pl_hand_size s)%Z.
Proof using HP.
  intros Hs Hl. rewrite forallb_forall. setoid_rewrite <-list_elem_of_In. split.
  - intros Hall. destruct (lookup_lt_is_Some_2 (pl_hands s) 0) as [f Hf].
    { rewrite (pi_hands_len _ _ _ Hs). lia. }
    destruct (full_trick_hands s l 0 f Hs Hl Hf) as [Hwf Hsz].
    specialize (Hall f (list_elem_of_lookup_2 _ _ _ Hf)). unfold is_empty in Hall.
    apply Nat.eqb_eq in Hall. lia.
  - intros Hsum f (q & Hq)%list_elem_of_lookup. destruct (full_trick_hands s l q f Hs Hl Hq) as [_ Hsz].
    unfold is_empty. apply Nat.eqb_eq. lia.
Qed.

Lemma empty_zones (zones : list FixedCards) CAP : Forall (zone_wf CAP) zones →
  forallb is_empty zones = true → zones ≫= iter = [].
Proof using Type.
  intros Hwf. induction Hwf as [|f zones Hf _ IH]; [done|]. cbn [forallb]. intros [He Hall]%andb_true_iff.
  rewrite bind_cons, (IH Hall). apply (is_empty_spec _ _ Hf) in He. by rewrite He.
Qed.

(** What collecting the full trick [l] for its winner [w] establishes: [n] is
    the number of tricks [w] had won, [captured] the piles afterwards. *)
Record collected (s : Playing) (l : list PlayedCard) (w : nat) (n : Z) (captured : list FixedCards)
    : Prop := {
  co_winner : Trick_winner P (trick_of P l) (suit (pl_trump s)) = Some w;
  co_seat : w < P;
  co_won : pl_tricks_won s !! w = Some n;
  co_won_bounds : (0 ≤ n)%Z ∧ (n + 1 ≤ 7)%Z;
  co_loop : foldM (collect_card w) l (pl_captured s) = Ok captured;
  co_captured_len : length captured = P;
  co_captured : ∀ q f m, captured !! q = Some f →
    <[w := (n + 1)%Z]> (pl_tricks_won s) !! q = Some m →
    zone_wf 52 f ∧ Z.of_nat (len f) = (Z.of_nat P * m)%Z;
  co_cards : zone_cards (pl_hands s) (pl_trump s) (pl_stock s) (Trick_default P) captured ≡ₚ standard_deck;
}.

(** The winner's pile has room for the trick. *)
Lemma captured_room s l w n pile : playing_inv P s l → length l = P →
  pl_tricks_won s !! w = Some n → pl_captured s !! w = Some pile → len pile + length l ≤ 52.
Proof using HP.
  intros Hs Hl Hn Hpile. destruct (pi_captured _ _ _ Hs _ _ _ Hpile Hn) as [_ Hplen].
  pose proof (zsum_lookup_le _ _ _ (pi_won _ _ _ Hs) Hn) as Hnle.
  pose proof (pi_won_sum _ _ _ Hs) as Hsum. rewrite (pi_size _ _ _ Hs) in Hsum.
  pose proof (hand_at_fits P HP _ (li_round _ _ (pi_ledger _ _ _ Hs))). nia.
Qed.

Lemma collected_exists s l : playing_inv P s l → length l = P → ∃ w n captured, collected s l w n captured.
Proof using HP.
  intros Hs Hl. destruct (trick_winner_seat s l Hs Hl) as (wp & Hwin & _ & HwP & _).
  set (w := player wp) in *.
  destruct (lookup_lt_is_Some_2 (pl_tricks_won s) w) as [n Hn]; [by rewrite (pi_won_len _ _ _ Hs)|].
  destruct (lookup_lt_is_Some_2 (pl_captured s) w) as [pile Hpile]; [by rewrite (pi_captured_len _ _ _ Hs)|].
  destruct (pi_captured _ _ _ Hs _ _ _ Hpile Hn) as [Hpwf Hplen].
  pose proof (zsum_lookup_le _ _ _ (pi_won _ _ _ Hs) Hn) as Hnle.
  pose proof (pi_won_sum _ _ _ Hs) as Hsum. rewrite (pi_size _ _ _ Hs) in Hsum.
  pose proof (hand_at_bounds P HP _ (li_round _ _ (pi_ledger _ _ _ Hs))) as Hhb.
  pose proof (hand_max_bounds P HP) as Hmb.
  assert (0 ≤ n)%Z as Hn0 by (pose proof (pi_won _ _ _ Hs) as H; rewrite Forall_lookup in H; by eapply H).
  destruct (collect_trick (pl_captured s) w pile l) as (pile' & Hfold & Hpwf' & Hperm & Hplen');
    [done|done|by eapply captured_room|].
  exists w, n, (<[w := pile']> (pl_captured s)). split; try done; [lia|..].
  - rewrite length_insert. apply Hs.
  - intros q f m Hq Hm. destruct (decide (q = w)) as [->|Hne].
    + rewrite list_lookup_insert_eq in Hq by (by eapply lookup_lt_Some).
      rewrite list_lookup_insert_eq in Hm by (by eapply lookup_lt_Some). simplify_eq. split; [done|lia].
    + rewrite list_lookup_insert_ne in Hq by done. rewrite list_lookup_insert_ne in Hm by done.
      by eapply (pi_captured _ _ _ Hs).
  - by eapply collect_cards.
Qed.

Lemma collected_won s l w n captured : playing_inv P s l → collected s l w n captured →
  Forall (λ k, 0 ≤ k)%Z (<[w := (n + 1)%Z]> (pl_tricks_won s)) ∧
  zsum (<[w := (n + 1)%Z]> (pl_tricks_won s)) = (zsum (pl_tricks_won s) + 1)%Z.
Proof using HP.
  intros Hs Hc. destruct (co_won_bounds _ _ _ _ _ Hc). split; [apply Forall_insert; [apply Hs|lia]|].
  rewrite (zsum_insert _ w n (n + 1) (co_won _ _ _ _ _ Hc)). lia.
Qed.

Lemma trick_scored_inv s l w n captured : playing_inv P s l → length l = P →
  collected s l w n captured → (zsum (pl_tricks_won s) + 1 = pl_hand_size s)%Z →
  scoring_inv P (trick_scored s captured (<[w := (n + 1)%Z]> (pl_tricks_won s))).
Proof using HP.
  intros Hs Hl Hc Hlast. destruct (collected_won _ _ _ _ _ Hs Hc) as [Hnonneg Hzs].
  assert (Forall (zone_wf 7) (pl_hands s)) as Hwf.
  { rewrite Forall_lookup. intros q f Hq. by apply (full_trick_hands s l q f). }
  split; cbn [trick_scored sc_ledger sc_hand_size sc_trump sc_stock sc_bids sc_captured sc_tricks_won];
    try apply Hs; try done.
  - rewrite length_insert. apply Hs.
  - lia.
  - rewrite <-(co_cards _ _ _ _ _ Hc). unfold zone_cards.
    rewrite (empty_zones _ _ Hwf (proj2 (hands_empty s l Hs Hl) Hlast)). unfold Hand_default.
    by rewrite bind_replicate_default.
Qed.

Lemma trick_next_inv s l w n captured : playing_inv P s l → length l = P →
  collected s l w n captured → (zsum (pl_tricks_won s) + 1 < pl_hand_size s)%Z →
  playing_inv P (trick_next s w captured (<[w := (n + 1)%Z]> (pl_tricks_won s))) [].
Proof using HP.
  intros Hs Hl Hc Hmore. destruct (collected_won _ _ _ _ _ Hs Hc) as [Hnonneg Hzs].
  split; cbn [trick_next pl_ledger pl_hand_size pl_hands pl_trump pl_stock pl_bids pl_actor
              pl_leader pl_trick pl_captured pl_tricks_won length]; try apply Hs; try apply Hc; try done.
  - apply trick_of_nil.
  - rewrite length_insert. apply Hs.
  - lia.
  - intros i f _ Hf. destruct (full_trick_hands s l _ f Hs Hl Hf) as [Hwf Hsz]. split; [done|]. simpl. lia.
Qed.

Lemma complete_trick_spec s l : playing_inv P s l → length l = P →
  ∃ w n captured, collected s l w n captured ∧
    let won := <[w := (n + 1)%Z]> (pl_tricks_won s) in
    ((zsum (pl_tricks_won s) + 1 = pl_hand_size s)%Z ∧ scoring_inv P (trick_scored s captured won) ∧
     complete_trick P s = Ok {| next := SScoring (trick_scored s captured won); round_scores := None |}) ∨
    ((zsum (pl_tricks_won s) + 1 < pl_hand_size s)%Z ∧ playing_inv P (trick_next s w captured won) [] ∧
     complete_trick P s = Ok {| next := SPlaying (trick_next s w captured won); round_scores := None |}).
Proof using HP.
  intros Hs Hl. destruct (collected_exists s l Hs Hl) as (w & n & captured & Hc).
  exists w, n, captured. split; [done|]. cbv zeta.
  unfold complete_trick. rewrite (pi_trick _ _ _ Hs), (co_winner _ _ _ _ _ Hc), Trick_iter_of.
  cbn [expect mbind outcome_bind]. rewrite (co_loop _ _ _ _ _ Hc). cbn [mbind outcome_bind].
  rewrite (co_won _ _ _ _ _ Hc). cbn [expect mbind outcome_bind].
  rewrite u_add_ok by (destruct (co_won_bounds _ _ _ _ _ Hc); unfold in_width; lia). cbn [mbind outcome_bind].
  destruct (forallb is_empty (pl_hands s)) eqn:He; [left|right].
  - pose proof (proj1 (hands_empty s l Hs Hl) He) as Hlast.
    pose proof (trick_scored_inv s l w n captured Hs Hl Hc Hlast) as Hinv.
    split_and!; [done|done|]. fold (trick_scored s captured (<[w := (n + 1)%Z]> (pl_tricks_won s))).
    unfold validate. by rewrite (proj2 (validate_card_zones_Ok _ _ _ _ _) (si_cards _ _ Hinv)).
  - assert ((zsum (pl_tricks_won s) + 1 < pl_hand_size s)%Z) as Hmore.
    { pose proof (pi_won_sum _ _ _ Hs).
      assert ((zsum (pl_tricks_won s) + 1)%Z ≠ pl_hand_size s); [|lia].
      intros Hlast. apply (hands_empty s l Hs Hl) in Hlast. congruence. }
    pose proof (trick_next_inv s l w n captured Hs Hl Hc Hmore) as Hinv.
    split_and!; [done|done|]. exact (checked_playing_Ok _ _ Hinv).
Qed.

(** *** Settling a round *)

(** The round scores in seat order. *)
Definition round_scores_of (bids won : list Z) (hand_size : Z) : list RoundScore :=
  zip_with (λ b w, score_round b w hand_size) bids won.

Lemma score_round_bounds bid won size : (0 ≤ bid ≤ 7)%Z →
  (0 ≤ points (score_round bid won size) ≤ 27)%Z ∧
  (0 ≤ payment_cents (score_round bid won size) ≤ 10)%Z.
Proof using All.
  intros Hb. unfold score_round. destruct (negb _); [|destruct (won =? size)%Z];
    cbn [points payment_cents]; unfold MISSED_BID_PAYMENT_CENTS; lia.
Qed.

Lemma settle_scores_loop bids won size :
  mapM (M := outcome RuleViolation) (λ index,
    bid ← expect (bids !! index); w ← expect (won !! index); Ok (score_round bid w size))
    (seq 0 (length bids)) =
  (if length bids <=? length won then Ok (round_scores_of bids won size) else Panic).
Proof using All.
  enough (∀ k pb pw, length pb = k → length pw = k →
    mapM (M := outcome RuleViolation) (λ index,
      bid ← expect ((pb ++ bids) !! index); w ← expect ((pw ++ won) !! index);
      Ok (score_round bid w size)) (seq k (length bids)) =
    (if length bids <=? length won then Ok (round_scores_of bids won size) else Panic)) as H.
  { by apply (H 0 [] []). }
  revert won; induction bids as [|b bids IH]; intros won k pb pw Hpb Hpw; [done|].
  cbn [length seq mapM]. rewrite (list_lookup_middle pb bids b k) by done. cbn [expect mbind outcome_bind].
  destruct won as [|w won].
  { rewrite app_nil_r, lookup_ge_None_2 by lia. done. }
  rewrite (list_lookup_middle pw won w k) by done. cbn [expect mbind outcome_bind].
  pose proof (IH won (S k) (pb ++ [b]) (pw ++ [w])) as Hrec.
  rewrite <-!(assoc_L (++)) in Hrec. cbn [app] in Hrec. rewrite Hrec by (rewrite length_app; simpl; lia).
  cbn [length Nat.leb]. by destruct (length bids <=? length won).
Qed.

(** Adding the points to the running totals. *)
Definition settled_scores (old : list Z) (rs : list RoundScore) : list Z :=
  zip_with (λ o r, o + points r)%Z old rs.

Lemma settle_loop rs prev rest pot : length rest = length rs →
  Forall2 (λ o r, in_width 16 (o + points r)) rest rs →
  Forall (λ r, 0 ≤ payment_cents r ≤ 10)%Z rs → (0 ≤ pot)%Z →
  (pot + 10 * Z.of_nat (length rs) < 2 ^ 32)%Z →
  foldM settle_score (imap (λ i, pair (length prev + i)) rs) (prev ++ rest, pot) =
    Ok (prev ++ settled_scores rest rs, (pot + zsum (payment_cents <$> rs))%Z).
Proof using All.
  revert prev rest pot; induction rs as [|r rs IH]; intros prev rest pot Hlen Hpts Hpay Hpot Hbound.
  { apply nil_length_inv in Hlen as ->. simpl. by rewrite Z.add_0_r. }
  destruct rest as [|o rest]; [done|]. apply Forall2_cons in Hpts as [Hw Hpts].
  apply Forall_cons in Hpay as [Hr Hpay]. cbn [length] in *.
  assert (settle_score (prev ++ o :: rest, pot) (length prev + 0, r) =
            Ok (prev ++ (o + points r)%Z :: rest, (pot + payment_cents r)%Z)) as Hstep.
  { unfold settle_score. rewrite Nat.add_0_r, list_lookup_middle by done. cbn [expect mbind outcome_bind].
    rewrite (u_add_ok 16) by done. cbn [mbind outcome_bind].
    rewrite (u_add_ok 32) by (unfold in_width; lia). cbn [mbind outcome_bind].
    by rewrite insert_app_r_alt, Nat.sub_diag. }
  rewrite imap_cons, foldM_cons, Hstep. cbn [mbind outcome_bind].
  pose proof (IH (prev ++ [(o + points r)%Z]) rest (pot + payment_cents r)%Z) as Hrec.
  rewrite <-!(assoc_L (++)), length_app in Hrec. cbn [app length] in Hrec.
  erewrite imap_ext; [rewrite Hrec; [|lia|done|done|lia|lia]|].
  - cbn [settled_scores zip_with fmap list_fmap]. rewrite zsum_cons. by rewrite Z.add_assoc.
  - intros i x _. cbn [compose]. f_equal. lia.
Qed.

Definition scoring_scores (s : Scoring) : list RoundScore :=
  round_scores_of (sc_bids s) (sc_tricks_won s) (sc_hand_size s).

Definition scoring_totals (s : Scoring) : list Z := settled_scores (scores (sc_ledger s)) (scoring_scores s).

Definition scoring_pot (s : Scoring) : Z :=
  (pot_cents (sc_ledger s) + zsum (payment_cents <$> scoring_scores s))%Z.

Lemma scoring_scores_bounds s : scoring_inv P s →
  length (scoring_scores s) = P ∧
  Forall (λ r, 0 ≤ points r ≤ 27 ∧ 0 ≤ payment_cents r ≤ 10)%Z (scoring_scores s).
Proof using HP.
  intros Hs. unfold scoring_scores, round_scores_of.
  pose proof (hand_at_bounds P HP _ (li_round _ _ (si_ledger _ _ Hs))). pose proof (hand_max_bounds P HP).
  split; [rewrite length_zip_with, (si_bids_len _ _ Hs), (si_won_len _ _ Hs); lia|].
  rewrite Forall_lookup. intros i r Hi. apply lookup_zip_with_Some in Hi as (b & w & -> & Hb & _).
  pose proof (si_bids _ _ Hs) as Hbids. rewrite Forall_lookup in Hbids. specialize (Hbids _ _ Hb).
  unfold bid_ok in Hbids. split; apply score_round_bounds; lia.
Qed.

Lemma scoring_totals_bounds s : scoring_inv P s →
  length (scoring_totals s) = P ∧
  Forall (λ t, 0 ≤ t ≤ 27 * Z.of_nat (S (round_index (sc_ledger s))))%Z (scoring_totals s) ∧
  Forall2 (λ o r, in_width 16 (o + points r)) (scores (sc_ledger s)) (scoring_scores s).
Proof using HP.
  intros Hs. destruct (scoring_scores_bounds s Hs) as [Hlen Hb]. rewrite Forall_lookup in Hb.
  pose proof (li_scores_len _ _ (si_ledger _ _ Hs)) as Hol.
  pose proof (li_scores _ _ (si_ledger _ _ Hs)) as Hold. rewrite Forall_lookup in Hold.
  pose proof (li_round _ _ (si_ledger _ _ Hs)). pose proof (rounds_bounds P HP).
  split_and!.
  - unfold scoring_totals, settled_scores. rewrite length_zip_with. lia.
  - rewrite Forall_lookup. intros i t Hi. apply lookup_zip_with_Some in Hi as (o & r & -> & Ho & Hr).
    specialize (Hold _ _ Ho). specialize (Hb _ _ Hr). cbv beta in *. lia.
  - apply Forall2_same_length_lookup_2; [lia|]. intros i o r Ho Hr.
    specialize (Hold _ _ Ho). specialize (Hb _ _ Hr). cbv beta in *. unfold in_width. lia.
Qed.

Lemma scoring_pot_bounds s : scoring_inv P s →
  (25 * Z.of_nat P ≤ scoring_pot s ≤
     25 * Z.of_nat P + 10 * Z.of_nat (P * S (round_index (sc_ledger s))))%Z.
Proof using HP.
  intros Hs. destruct (scoring_scores_bounds s Hs) as [Hlen Hb].
  pose proof (li_pot _ _ (si_ledger _ _ Hs)).
  assert (Forall (λ x, 0 ≤ x)%Z (payment_cents <$> scoring_scores s)) as H0%zsum_nonneg.
  { apply Forall_fmap. eapply Forall_impl; [exact Hb|]. intros r [_ Hr]; unfold compose; lia. }
  assert (Forall (λ x, x ≤ 10)%Z (payment_cents <$> scoring_scores s)) as H1%zsum_le_bound.
  { apply Forall_fmap. eapply Forall_impl; [exact Hb|]. intros r [_ Hr]; unfold compose; lia. }
  rewrite length_fmap, Hlen in H1. unfold scoring_pot. lia.
Qed.

Lemma winner_mask_Ok (l : list Z) : 0 < length l → ∃ m, winner_mask l = Ok m.
Proof using All. destruct l; simpl; [lia|]. intros _. by eexists. Qed.

(** The loops of [settle_round] compute the totals and the pot without overflow. *)
Lemma settle_round_computes s : scoring_inv P s →
  settle_round P s =
    (if S (round_index (sc_ledger s)) =? rounds P then
      winners ← winner_mask (scoring_totals s);
      Ok {| next := SFinished {| fin_scores := scoring_totals s; fin_pot_cents := scoring_pot s;
                                 fin_winners := winners |};
            round_scores := Some (scoring_scores s) |}
    else
      Ok {| next := SAwaitingDeal {| dealer := left P (dealer (sc_ledger s));
              round_index := S (round_index (sc_ledger s));
              scores := scoring_totals s; pot_cents := scoring_pot s |};
            round_scores := Some (scoring_scores s) |}).
Proof using HP.
  intros Hs. destruct (scoring_scores_bounds s Hs) as [Hlen Hb].
  destruct (scoring_totals_bounds s Hs) as (_ & _ & Hw).
  pose proof (rounds_bounds P HP). pose proof (li_round _ _ (si_ledger _ _ Hs)) as Hr.
  pose proof (li_pot _ _ (si_ledger _ _ Hs)).
  assert (P * round_index (sc_ledger s) ≤ 51 * 13) by (apply Nat.mul_le_mono; lia).
  unfold settle_round. pose proof (settle_scores_loop (sc_bids s) (sc_tricks_won s) (sc_hand_size s)) as Hloop.
  rewrite (si_bids_len _ _ Hs), (si_won_len _ _ Hs), Nat.leb_refl in Hloop. rewrite Hloop.
  cbn [mbind outcome_bind]. fold (scoring_scores s).
  assert (foldM settle_score (imap pair (scoring_scores s)) (scores (sc_ledger s), pot_cents (sc_ledger s))
          = Ok (scoring_totals s, scoring_pot s)) as ->.
  { apply (settle_loop _ []).
    - rewrite Hlen. apply Hs.
    - done.
    - eapply Forall_impl; [exact Hb|]. intros r [_ Hr']; done.
    - lia.
    - rewrite Hlen. lia. }
  cbn [mbind outcome_bind]. by rewrite (round_count_Ok P HP).
Qed.

Lemma settle_round_spec s : scoring_inv P s →
  (S (round_index (sc_ledger s)) = rounds P ∧ ∃ f,
     fin_scores f = scoring_totals s ∧ fin_pot_cents f = scoring_pot s ∧ finished_inv P f ∧
     settle_round P s = Ok {| next := SFinished f; round_scores := Some (scoring_scores s) |}) ∨
  (S (round_index (sc_ledger s)) < rounds P ∧
   let l := {| dealer := left P (dealer (sc_ledger s)); round_index := S (round_index (sc_ledger s));
               scores := scoring_totals s; pot_cents := scoring_pot s |} in
   ledger_inv P l ∧
   settle_round P s = Ok {| next := SAwaitingDeal l; round_scores := Some (scoring_scores s) |}).
Proof using HP.
  intros Hs. rewrite (settle_round_computes s Hs).
  destruct (scoring_totals_bounds s Hs) as (Htl & Htb & _). pose proof (scoring_pot_bounds s Hs) as Hpot.
  pose proof (rounds_bounds P HP). pose proof (li_round _ _ (si_ledger _ _ Hs)) as Hr.
  destruct (S _ =? rounds P) eqn:Hlast; [left|right].
  - apply Nat.eqb_eq in Hlast. split; [done|].
    destruct (winner_mask_Ok (scoring_totals s)) as [m Hm]; [lia|]. rewrite Hm. cbn [mbind outcome_bind].
    eexists. split; [|split; [|split; [|done]]]; [done..|].
    split; cbn [fin_scores fin_pot_cents fin_winners]; try done; by rewrite <-Hlast.
  - apply Nat.eqb_neq in Hlast. split; [lia|]. cbv zeta. split; [|done].
    split; cbn [dealer round_index scores pot_cents]; [by apply advance_lt|lia|done..].
Qed.

(** *** The play guards and the effect of a play *)

(** A card of the hand that follows the suit led when the hand can. *)
Definition may_play (hand : FixedCards) (lead : option Suit) (c : Card) : Prop :=
  c ∈ iter hand ∧
  ∀ ld, lead = Some ld → (∃ d, d ∈ iter hand ∧ suit d = ld) → suit c = ld.

Lemma actor_hand s l : playing_inv P s l → pl_actor s < P → ∃ hand, pl_hands s !! pl_actor s = Some hand.
Proof using Type. intros Hs Ha. apply lookup_lt_is_Some_2. by rewrite (pi_hands_len _ _ _ Hs). Qed.

(** What [play_card] answers when a guard fails. *)
Lemma play_card_rejects s l hand p c : playing_inv P s l → pl_actor s < P →
  pl_hands s !! pl_actor s = Some hand →
  ¬ (p = pl_actor s ∧ may_play hand (lead_suit (pl_trick s)) c) →
  (p ≠ pl_actor s ∧ play_card P s p c = Err WrongActor) ∨
  (p = pl_actor s ∧ c ∉ iter hand ∧ play_card P s p c = Err (CardNotInHand c)) ∨
  (p = pl_actor s ∧ c ∈ iter hand ∧ ∃ ld, lead_suit (pl_trick s) = Some ld ∧ suit c ≠ ld ∧
     (∃ d, d ∈ iter hand ∧ suit d = ld) ∧ play_card P s p c = Err (MustFollowSuit ld)).
Proof using Type.
  intros Hs Ha Hhand Hno. unfold play_card.
  destruct (decide (p = pl_actor s)) as [->|Hp].
  2:{ left. split; [done|]. by rewrite bool_decide_eq_false_2. }
  right. rewrite bool_decide_eq_true_2 by done. cbn [ensure mbind outcome_bind].
  rewrite Hhand. cbn [expect mbind outcome_bind].
  destruct (contains hand c) eqn:Hc.
  2:{ left. split_and!; [done| |done]. rewrite <-contains_spec. by rewrite Hc. }
  apply contains_spec in Hc. right. split; [done|]. split; [done|]. cbn [ensure mbind outcome_bind].
  destruct (lead_suit (pl_trick s)) as [ld|] eqn:Hlead.
  2:{ destruct Hno. by split_and!. }
  exists ld. split; [done|]. destruct (contains_suit hand ld) eqn:Hcs.
  - apply contains_suit_spec in Hcs. destruct (decide (suit c = ld)) as [He|Hne].
    + destruct Hno. split; [done|]. split; [done|]. by intros ? [= <-].
    + split_and!; [done|done|]. by rewrite bool_decide_eq_false_2.
  - destruct Hno. split; [done|]. split; [done|]. intros ? [= <-] Hd%contains_suit_spec. congruence.
Qed.

Lemma play_card_accepts s l hand c : playing_inv P s l → length l < P →
  pl_actor s = advance P (pl_leader s) (length l) → pl_hands s !! pl_actor s = Some hand →
  may_play hand (lead_suit (pl_trick s)) c →
  ∃ hand', iter hand ≡ₚ c :: iter hand' ∧ len hand = S (len hand') ∧ zone_wf 7 hand' ∧
    let l' := l ++ [PlayedCardOf (pl_actor s) c] in
    play_card P s (pl_actor s) c =
      (if S (length l) =? P then complete_trick P (play_next s hand' (trick_of P l') (pl_actor s))
       else Ok {| next := SPlaying (play_next s hand' (trick_of P l') (left P (pl_actor s)));
                  round_scores := None |}).
Proof using HP.
  intros Hs Hl Ha Hhand [Hc Hfollow].
  assert (zone_wf 7 hand) as Hwf.
  { rewrite Ha in Hhand. by apply (pi_hands _ _ _ Hs _ _ Hl Hhand). }
  destruct (remove_Ok 7 hand c Hwf Hc) as (hand' & Hrem & Hwf' & Hperm & Hlen).
  exists hand'. split_and!; [done..|]. cbv zeta. unfold play_card.
  rewrite bool_decide_eq_true_2 by done. cbn [ensure mbind outcome_bind].
  rewrite Hhand. cbn [expect mbind outcome_bind]. rewrite (proj2 (contains_spec _ _) Hc).
  cbn [ensure mbind outcome_bind].
  assert (match lead_suit (pl_trick s) with
          | Some lead => ensure (negb (contains_suit hand lead && negb (bool_decide (suit c = lead))))
                           (MustFollowSuit lead)
          | None => Ok tt
          end = Ok tt) as ->.
  { destruct (lead_suit (pl_trick s)) as [ld|] eqn:Hlead; [|done].
    destruct (contains_suit hand ld) eqn:Hcs; [|done]. apply contains_suit_spec in Hcs.
    by rewrite bool_decide_eq_true_2 by (by apply Hfollow). }
  cbn [mbind outcome_bind]. rewrite Hrem. cbn [mbind outcome_bind].
  rewrite (pi_trick _ _ _ Hs), Trick_push_of by done. cbn [mbind outcome_bind].
  rewrite trick_len_of, length_app, Nat.add_1_r.
  destruct (S (length l) =? P); [done|]. eapply checked_playing_Ok. by eapply play_next_inv.
Qed.

Lemma play_card_spec s l hand c : playing_inv P s l → length l < P →
  pl_actor s = advance P (pl_leader s) (length l) → pl_hands s !! pl_actor s = Some hand →
  may_play hand (lead_suit (pl_trick s)) c →
  ∃ t, play_card P s (pl_actor s) c = Ok t ∧ game_inv P (next t) ∧ round_scores t = None ∧
    ((∃ s', next t = SPlaying s' ∧ pl_ledger s' = pl_ledger s) ∨
     (∃ s', next t = SScoring s' ∧ sc_ledger s' = pl_ledger s)).
Proof using HP.
  intros Hs Hl Ha Hhand Hmay.
  destruct (play_card_accepts s l hand c) as (hand' & Hperm & Hlen & Hwf & ->); [done..|]. cbv zeta.
  destruct (S (length l) =? P) eqn:Hfull; [apply Nat.eqb_eq in Hfull|apply Nat.eqb_neq in Hfull].
  - destruct (complete_trick_spec (play_next s hand' (trick_of P (l ++ [PlayedCardOf (pl_actor s) c])) (pl_actor s))
      (l ++ [PlayedCardOf (pl_actor s) c])) as (w & n & captured & Hco & [(_ & Hinv & ->)|(_ & Hinv & ->)]).
    + by eapply play_next_inv.
    + rewrite length_app. simpl. lia.
    + eexists. split; [done|]. split; [done|]. split; [done|]. right. by eexists.
    + eexists. split; [done|]. split; [|split; [done|left; by eexists]]. exists [].
      split_and!; [done|simpl; lia|].
      cbn [trick_next pl_actor pl_leader length]. rewrite advance_0; [done|]. apply (co_seat _ _ _ _ _ Hco).
  - eexists. split; [done|]. split; [|split; [done|left; by eexists]]. exists (l ++ [PlayedCardOf (pl_actor s) c]).
    split_and!; [by eapply play_next_inv|rewrite length_app; simpl; lia|].
    cbn [play_next pl_actor pl_leader]. rewrite length_app, Ha, left_advance, advance_add by done. done.
Qed.
End Preservation.

(** ** Reachable games
    The step relation of the oracle, the states reachable from [Game_new], the
    invariant on all of them, the exact outcome of every action and the number
    of actions a game takes. *)

(** ** Steps *)

Inductive step (P : nat) (g : GameState) (a : Action) (g' : GameState) : Prop :=
  | step_intro t : action_typed P a → transition P g a = Ok t → g' = next t → step P g a g'.

Inductive reachable (P : nat) : GameState → Prop :=
  | reachable_new first g : first < P → Game_new P first = Ok g → reachable P g
  | reachable_step g a g' : reachable P g → step P g a g' → reachable P g'.

(** A scripted game. *)
Definition run (P : nat) (g : GameState) (actions : list Action) : result GameState :=
  foldM (λ g a, t ← transition P g a; Ok (next t)) actions g.

#[export] Instance action_typed_dec P a : Decision (action_typed P a).
Proof. destruct a; simpl; unfold in_width; apply _. Defined.

(** What the rules allow in [g]. *)
Definition admissible (P : nat) (g : GameState) (a : Action) : Prop :=
  match g, a with
  | SAwaitingDeal _, ADeal _ => True
  | SBidding s, ABid p b => p = bd_actor s ∧ (b ≤ bd_hand_size s)%Z
  | SPlaying s, APlay p c =>
      p = pl_actor s ∧
      ∃ hand, pl_hands s !! pl_actor s = Some hand ∧ may_play hand (lead_suit (pl_trick s)) c
  | SScoring _, ASettleRound => True
  | _, _ => False
  end.

(** Which error answers an action the rules refuse. *)
Definition refusal (g : GameState) (a : Action) (e : RuleViolation) : Prop :=
  match g, a with
  | SBidding s, ABid p b =>
      (p ≠ bd_actor s ∧ e = WrongActor) ∨
      (p = bd_actor s ∧ (bd_hand_size s < b)%Z ∧ e = BidOutOfRange b (bd_hand_size s))
  | SPlaying s, APlay p c =>
      (p ≠ pl_actor s ∧ e = WrongActor) ∨
      (p = pl_actor s ∧ ∃ hand, pl_hands s !! pl_actor s = Some hand ∧
        ((c ∉ iter hand ∧ e = CardNotInHand c) ∨
         (c ∈ iter hand ∧ ∃ ld, lead_suit (pl_trick s) = Some ld ∧ suit c ≠ ld ∧
            (∃ d, d ∈ iter hand ∧ suit d = ld) ∧ e = MustFollowSuit ld)))
  | SAwaitingDeal _, ADeal _ | SScoring _, ASettleRound => False
  | _, _ => e = WrongPhase
  end.

Section Reach.
Context (P : nat) (HP : 2 ≤ P ≤ 51).

Lemma transition_cases g a : game_inv P g → action_typed P a →
  (admissible P g a ∧ ∃ t, transition P g a = Ok t ∧ game_inv P (next t)) ∨
  (¬ admissible P g a ∧ ∃ e, transition P g a = Err e ∧ refusal g a e).
Proof using HP.
  intros Hg Ha. destruct g as [ld|s|s|s|s], a as [deck|p b|p c|]; cbn [transition admissible refusal] in *;
    try (right; split; [tauto|eauto]; fail).
  - left. split; [done|]. destruct (deal_spec P HP ld deck Hg Ha) as (s & Hd & _ & Hinv). eauto.
  - rewrite place_bid_guards. case_bool_decide as Hp; cbn [negb].
    2:{ right. split; [tauto|]. eauto. }
    subst p. destruct (bd_hand_size s <? b)%Z eqn:Hb.
    { right. split; [lia|]. eexists. split; [done|]. right. split_and!; [done|lia|done]. }
    left. split; [split; [done|lia]|]. destruct Ha as [_ Hw]. unfold in_width in Hw.
    assert (bid_ok (hand_at P (round_index (bd_ledger s))) b) as Hok.
    { unfold bid_ok. rewrite <-(bi_size _ _ Hg). lia. }
    destruct (place_bid_spec P HP s b Hg) as [[Hk ->]|(Hk & bids & Hbids & ->)]; [lia|..];
      (eexists; split; [done|]); cbn [next game_inv].
    + by apply bid_next_inv.
    + exists []. split_and!; [by eapply bids_complete_inv|simpl; lia|].
      cbn [bids_complete pl_actor pl_leader length]. symmetry. apply advance_0.
      by apply advance_lt.
  - destruct Hg as (l & Hinv & Hl & Hactor).
    assert (pl_actor s < P) as HaP by (rewrite Hactor; by apply advance_lt).
    destruct (actor_hand P s l Hinv HaP) as [hand Hhand].
    assert (Decision (may_play hand (lead_suit (pl_trick s)) c)) as Hdec.
    { unfold may_play. destruct (decide (c ∈ iter hand)) as [Hc|Hc]; [|right; tauto].
      destruct (lead_suit (pl_trick s)) as [ld|]; [|left; by split].
      destruct (decide (suit c = ld)) as [He|He]; [left; split; congruence|].
      destruct (contains_suit hand ld) eqn:Hcs.
      - right. intros [_ Hf]. apply He, (Hf ld eq_refl). by apply contains_suit_spec.
      - left. split; [done|]. intros ? [= <-] Hd%contains_suit_spec. congruence. }
    destruct (decide (p = pl_actor s ∧ may_play hand (lead_suit (pl_trick s)) c)) as [[-> Hmay]|Hno].
    + left. split; [eauto|].
      destruct (play_card_spec P HP s l hand c) as (t & Ht & Hinv' & _); [done..|]. eauto.
    + right. split; [naive_solver|].
      destruct (play_card_rejects P s l hand p c Hinv HaP Hhand Hno)
        as [[? ->]|[(-> & ? & ->)|(-> & ? & ld & ? & ? & ? & ->)]]; eexists; (split; [done|]).
      * by left.
      * right. split; [done|]. exists hand. split; [done|]. by left.
      * right. split; [done|]. exists hand. split; [done|]. right. split; [done|]. by exists ld.
  - left. split; [done|].
    destruct (settle_round_spec P HP s Hg) as [(_ & f & _ & _ & Hinv & ->)|(_ & Hinv & ->)]; eauto.
Qed.

Lemma step_inv g a g' : game_inv P g → step P g a g' → game_inv P g'.
Proof using HP.
  intros Hg [t Ha Ht ->]. destruct (transition_cases g a Hg Ha) as [(_ & t' & Ht' & Hinv)|(_ & e & He & _)].
  - rewrite Ht in Ht'. by simplify_eq.
  - congruence.
Qed.

Lemma reachable_inv g : reachable P g → game_inv P g.
Proof using HP.
  induction 1 as [first g Hf Hnew|g a g' _ IH Hstep]; [|by eapply step_inv].
  destruct (game_new_inv P HP first Hf) as (g' & Hg' & Hinv). congruence.
Qed.

Lemma reachable_run g actions g' : reachable P g → Forall (action_typed P) actions →
  run P g actions = Ok g' → reachable P g'.
Proof using Type.
  intros Hg Hact. revert g Hg; induction Hact as [|a actions Ha _ IH]; intros g Hg Hrun.
  { unfold run in Hrun. simpl in Hrun. by simplify_eq. }
  unfold run in Hrun. rewrite foldM_cons in Hrun. apply bind_Ok in Hrun as (g1 & H1 & Hrun).
  apply bind_Ok in H1 as (t & Ht & [= <-]). eapply IH; [|exact Hrun].
  eapply reachable_step; [exact Hg|]. by econstructor.
Qed.
End Reach.

(** ** The number of actions of a game *)

(** A round is one deal, one bid per seat, one play per card and one settlement. *)
Definition round_steps (P r : nat) : nat := 2 + P + P * hand_at P r.

Definition rounds_steps (P first count : nat) : nat := sum_list (round_steps P <$> seq first count).

(** The actions of the rounds after round [r]. *)
Definition later_steps (P r : nat) : nat := rounds_steps P (S r) (rounds P - S r).

(** The actions left before the game is finished. *)
Definition steps_left (P : nat) (g : GameState) : nat :=
  match g with
  | SAwaitingDeal l => rounds_steps P (round_index l) (rounds P - round_index l)
  | SBidding s =>
      (P - bd_bids_made s) + P * hand_at P (round_index (bd_ledger s)) + 1
      + later_steps P (round_index (bd_ledger s))
  | SPlaying s => sum_list (len <$> pl_hands s) + 1 + later_steps P (round_index (pl_ledger s))
  | SScoring s => 1 + later_steps P (round_index (sc_ledger s))
  | SFinished _ => 0
  end.

Lemma sum_list_insert (l : list nat) i x y : l !! i = Some x →
  sum_list (<[i := y]> l) + x = sum_list l + y.
Proof.
  revert i; induction l as [|z l IH]; intros [|i] Hi; try done; cbn [lookup list_lookup] in Hi.
  - simplify_eq. simpl. lia.
  - specialize (IH i Hi). change (<[S i := y]> (z :: l)) with (z :: <[i := y]> l).
    change (sum_list (?n :: ?k)) with (n + sum_list k). lia.
Qed.

Lemma sum_list_const (l : list FixedCards) n : Forall (λ f, len f = n) l →
  sum_list (len <$> l) = length l * n.
Proof. induction 1 as [|f l Hf _ IH]; [done|].
  rewrite fmap_cons. change (sum_list (?n :: ?k)) with (n + sum_list k). rewrite IH, Hf. simpl. lia.
Qed.

Section Steps.
Context (P : nat) (HP : 2 ≤ P ≤ 51).

Lemma rounds_steps_cons r : r < rounds P →
  rounds_steps P r (rounds P - r) = round_steps P r + later_steps P r.
Proof using All.
  intros Hr. unfold later_steps, rounds_steps.
  replace (rounds P - r) with (S (rounds P - S r)) by lia. done.
Qed.

Lemma steps_left_play s l hand c t : playing_inv P s l → length l < P →
  pl_actor s = advance P (pl_leader s) (length l) → pl_hands s !! pl_actor s = Some hand →
  may_play hand (lead_suit (pl_trick s)) c → play_card P s (pl_actor s) c = Ok t →
  steps_left P (SPlaying s) = S (steps_left P (next t)).
Proof using HP.
  intros Hs Hl Ha Hhand Hmay Ht.
  destruct (play_card_accepts P HP s l hand c) as (hand' & Hperm & Hlen & Hwf & Heq); [done..|].
  cbv zeta in Heq. rewrite Heq in Ht. clear Heq.
  set (trick' := trick_of P _) in Ht.
  assert (∀ a, sum_list (len <$> pl_hands (play_next s hand' trick' a)) + 1 = sum_list (len <$> pl_hands s)) as Hsum.
  { intros a. cbn [play_next pl_hands]. rewrite list_fmap_insert.
    pose proof (sum_list_insert (len <$> pl_hands s) (pl_actor s) (len hand) (len hand')) as Hi.
    rewrite list_lookup_fmap, Hhand in Hi. specialize (Hi eq_refl). lia. }
  destruct (S (length l) =? P) eqn:Hfull; [apply Nat.eqb_eq in Hfull|].
  - destruct (complete_trick_spec P HP (play_next s hand' trick' (pl_actor s)) (l ++ [PlayedCardOf (pl_actor s) c]))
      as (w & n & captured & Hco & Hcases); [by eapply play_next_inv|rewrite length_app; simpl; lia|].
    destruct Hcases as [(Hlast & _ & Hc)|(_ & _ & Hc)]; rewrite Hc in Ht; injection Ht as <-; cbn [next steps_left].
    + cbn [trick_scored sc_ledger play_next pl_ledger]. specialize (Hsum (pl_actor s)).
      rewrite (sum_list_const _ 0) in Hsum; [lia|]. rewrite Forall_lookup. intros q f Hq.
      destruct (full_trick_hands P HP (play_next s hand' trick' (pl_actor s))
        (l ++ [PlayedCardOf (pl_actor s) c]) q f) as [_ Hsz];
        [by eapply play_next_inv|rewrite length_app; simpl; lia|done|]. lia.
    + cbn [trick_next pl_ledger pl_hands]. specialize (Hsum (pl_actor s)). cbn [play_next pl_ledger] in *. lia.
  - simplify_eq. cbn [next steps_left]. specialize (Hsum (left P (pl_actor s))). cbn [play_next pl_ledger] in *. lia.
Qed.

Lemma steps_left_step g a g' : game_inv P g → step P g a g' → steps_left P g = S (steps_left P g').
Proof using HP.
  intros Hg [t Ha Ht ->]. destruct (transition_cases P HP g a Hg Ha) as [(Hadm & _)|(_ & e & He & _)]; [|congruence].
  destruct g as [ld|s|s|s|s], a as [deck|p b|p c|]; try done; cbn [transition] in Ht.
  - destruct (deal_spec P HP ld deck Hg Ha) as (s & Hd & Hdf & _). rewrite Hd in Ht. simplify_eq.
    cbn [next steps_left]. rewrite (df_ledger _ _ _ _ Hdf), (df_made _ _ _ _ Hdf).
    rewrite rounds_steps_cons by apply Hg. unfold round_steps. lia.
  - destruct Hadm as [-> Hb]. destruct Ha as [_ Hw]. unfold in_width in Hw. pose proof (bi_made _ _ Hg) as Hmade.
    destruct (place_bid_spec P HP s b Hg) as [[Hk Heq]|(Hk & bids & _ & Heq)]; [lia|..];
      rewrite Heq in Ht; injection Ht as <-; cbn [next steps_left].
    + cbn [bid_next bd_ledger bd_bids_made]. lia.
    + cbn [bids_complete pl_ledger pl_hands].
      rewrite (sum_list_const _ (hand_at P (round_index (bd_ledger s)))).
      * rewrite (bi_hands_len _ _ Hg). lia.
      * eapply Forall_impl; [apply (bi_hands _ _ Hg)|]. by intros f [_ ?].
  - destruct Hadm as [-> (hand & Hhand & Hmay)]. destruct Hg as (l & Hinv & Hl & Hactor).
    by eapply steps_left_play.
  - destruct (settle_round_spec P HP s Hg) as [(Hr & f & _ & _ & _ & Heq)|(Hr & _ & Heq)];
      rewrite Heq in Ht; simplify_eq; cbn [next steps_left round_index]; [|done].
    unfold later_steps. rewrite Hr, Nat.sub_diag. done.
Qed.

(** A state with no action left is finished, and conversely. *)
Lemma steps_left_0 g : game_inv P g → steps_left P g = 0 ↔ ∃ f, g = SFinished f.
Proof using HP.
  intros Hg. split; [|by intros [f ->]].
  destruct g as [ld|s|s|s|f]; cbn [steps_left]; [|lia..|eauto].
  rewrite rounds_steps_cons by apply Hg. unfold round_steps. lia.
Qed.

(** The hands grow from one card to the maximum and back. *)
Lemma rounds_steps_closed :
  rounds_steps P 0 (rounds P) = (2 + P) * rounds P + P * (hand_max P * hand_max P).
Proof using HP.
  unfold rounds_steps, round_steps, rounds, hand_at. pose proof (hand_max_bounds P HP) as Hm.
  destruct (hand_max P) as [|[|[|[|[|[|[|[|m]]]]]]]]; [lia|cbn; lia..|lia].
Qed.
End Steps.

(** ** A scripted player, for concrete games *)

(** The standard deck at every deal and the first legal action of every player. *)
Definition auto_action (P : nat) (g : GameState) : option Action :=
  match turn g with
  | TurnChance => Some (ADeal standard_deck)
  | TurnEnvironment => Some ASettleRound
  | TurnPlayer _ => match legal_player_actions g with Ok (a :: _) => Some a | _ => None end
  | TurnFinished => None
  end.

Definition auto_step (P : nat) (g : GameState) : GameState :=
  match auto_action P g with
  | Some a => if decide (action_typed P a) then
                match transition P g a with Ok t => next t | _ => g end
              else g
  | None => g
  end.

Definition new_game (P first : nat) : GameState :=
  match Game_new P first with
  | Ok g => g
  | _ => SFinished {| fin_scores := []; fin_pot_cents := 0; fin_winners := [] |}
  end.

Definition auto (P n : nat) : GameState := Nat.iter n (auto_step P) (new_game P 0).

Fixpoint auto_actions (P n : nat) (g : GameState) : list Action :=
  match n, auto_action P g with
  | S n, Some a => a :: auto_actions P n (auto_step P g)
  | _, _ => []
  end.

Lemma auto_reachable P n : 2 ≤ P ≤ 51 → reachable P (auto P n).
Proof.
  intros HP. unfold auto. induction n as [|n IH]; cbn [Nat.iter].
  - destruct (game_new_inv P HP 0) as (g & Hg & _); [lia|]. unfold new_game. rewrite Hg.
    eapply reachable_new; [|exact Hg]. lia.
  - rewrite Nat.iter_succ. set (g := Nat.iter n _ _) in *. unfold auto_step. destruct (auto_action P g) as [a|]; [|done].
    destruct (decide _) as [Ha|]; [|done]. destruct (transition P g a) as [t| |] eqn:Ht; [|done..].
    eapply reachable_step; [exact IH|]. by econstructor.
Qed.
