(* ===== verification/OracleTheorems.v ===== *)
(** * Properties of the rule oracle

    What the conventional rules guarantee of every game that can be played
    through [Game_new] and [transition], of the validation of decks and zones,
    of the trick winner, of scoring, of observations and of the selection of the
    first dealer. *)

From stdpp Require Import base strings numbers option sets list.
From S2P Require Import Prelude Oracle OracleLemmas OracleInvariant.

(** ** Every action has a decided outcome *)

(** [C1] In every reachable game, an action is accepted exactly when the rules
    admit it, and the game it leads to satisfies the invariant; otherwise the
    answer is the error the failing guard names.  No action panics and none
    reports a broken invariant ([CardConservation], [CardZoneFull], ...). *)
Theorem transition_decides P g a : 2 ≤ P ≤ 51 → reachable P g → action_typed P a →
  (admissible P g a ∧ ∃ t, transition P g a = Ok t ∧ game_inv P (next t)) ∨
  (¬ admissible P g a ∧ ∃ e, transition P g a = Err e ∧ refusal g a e).
Proof. intros HP Hg Ha. apply transition_cases; [done|by apply reachable_inv|done]. Qed.

Lemma transition_decides_witness :
  (2 ≤ 2 ≤ 51 ∧ reachable 2 (auto 2 3) ∧ action_typed 2 (APlay 1 (CardOf Spades Ace))) ∧
  ((admissible 2 (auto 2 3) (APlay 1 (CardOf Spades Ace)) ∧
    ∃ t, transition 2 (auto 2 3) (APlay 1 (CardOf Spades Ace)) = Ok t ∧ game_inv 2 (next t)) ∨
   (¬ admissible 2 (auto 2 3) (APlay 1 (CardOf Spades Ace)) ∧
    ∃ e, transition 2 (auto 2 3) (APlay 1 (CardOf Spades Ace)) = Err e ∧
         refusal (auto 2 3) (APlay 1 (CardOf Spades Ace)) e)).
Proof.
  assert (2 ≤ 2 ≤ 51) as HP by lia. assert (reachable 2 (auto 2 3)) as Hr by by apply auto_reachable.
  assert (action_typed 2 (APlay 1 (CardOf Spades Ace))) as Ha by (simpl; lia).
  split; [done|]. exact (transition_decides 2 (auto 2 3) _ HP Hr Ha).
Defined.

(** The cards of all zones of a round in progress. *)
Definition game_cards (P : nat) (g : GameState) : option (list Card) :=
  match g with
  | SBidding s => Some (zone_cards (bd_hands s) (bd_trump s) (bd_stock s) (Trick_default P)
                         (replicate P CardPile_default))
  | SPlaying s => Some (zone_cards (pl_hands s) (pl_trump s) (pl_stock s) (pl_trick s) (pl_captured s))
  | SScoring s => Some (zone_cards (replicate P Hand_default) (sc_trump s) (sc_stock s) (Trick_default P)
                         (sc_captured s))
  | SAwaitingDeal _ | SFinished _ => None
  end.

(** [C2] No card is lost, duplicated or invented: in every reachable round the
    hands, the trump card, the stock, the current trick and the captured piles
    hold each of the 52 cards exactly once, so [Game::validate] always succeeds. *)
Theorem cards_conserved P g : 2 ≤ P ≤ 51 → reachable P g →
  validate P g = Ok tt ∧ ∀ cards, game_cards P g = Some cards → cards ≡ₚ standard_deck.
Proof.
  intros HP Hg. apply reachable_inv in Hg; [|done].
  destruct g as [l|s|s|s|f]; cbn [validate game_cards] in *; [by split|..|by split].
  - split; [apply validate_card_zones_Ok, Hg|]. intros ? [= <-]. apply Hg.
  - destruct Hg as (l & Hg & _). split; [apply validate_card_zones_Ok, Hg|]. intros ? [= <-]. apply Hg.
  - split; [apply validate_card_zones_Ok, Hg|]. intros ? [= <-]. apply Hg.
Qed.

Lemma cards_conserved_witness :
  (2 ≤ 2 ≤ 51 ∧ reachable 2 (auto 2 4)) ∧
  validate 2 (auto 2 4) = Ok tt ∧ ∀ cards, game_cards 2 (auto 2 4) = Some cards → cards ≡ₚ standard_deck.
Proof.
  assert (2 ≤ 2 ≤ 51) as HP by lia. assert (reachable 2 (auto 2 4)) as Hr by by apply auto_reachable.
  split; [done|]. exact (cards_conserved 2 (auto 2 4) HP Hr).
Defined.

(** ** Validation *)

(** [Game::validate] accepts a round exactly when its zones hold the 52
    cards once each; otherwise, unless a card counter overflows its byte, it
    names the first card of the deck whose count is not one. *)
Theorem validate_exact hands trump stock trick captured :
  let cards := zone_cards hands trump stock trick captured in
  (validate_card_zones hands trump stock trick captured = Ok tt ↔ cards ≡ₚ standard_deck) ∧
  (validate_card_zones hands trump stock trick captured = Panic → ∃ c, 256 ≤ tally cards c) ∧
  (∀ e, validate_card_zones hands trump stock trick captured = Err e →
     ∃ c before after, standard_deck = before ++ c :: after ∧
       e = CardConservation c (Z.of_nat (tally cards c)) ∧ tally cards c ≠ 1 ∧
       ∀ d, d ∈ before → tally cards d = 1).
Proof.
  intros cards. split; [apply validate_card_zones_Ok|].
  destruct (validate_card_zones_cases hands trump stock trick captured) as [[-> Hc]| ->]; [done|].
  fold cards. split; [by destruct (filter _ _)|]. intros e He.
  assert (∀ l, match filter (λ c, tally cards c ≠ 1) l with [] => Ok tt
             | c :: _ => Err (CardConservation c (Z.of_nat (tally cards c))) end = Err e →
    ∃ c before after, l = before ++ c :: after ∧
       e = CardConservation c (Z.of_nat (tally cards c)) ∧ tally cards c ≠ 1 ∧
       ∀ d, d ∈ before → tally cards d = 1) as Hl; [|by apply Hl].
  clear He. intros l. induction l as [|d l IH]; [done|]. rewrite filter_cons.
  case_decide as Hd.
  - intros [= <-]. exists d, [], l. split_and!; [done|done|done|set_solver].
  - intros (c & before & after & -> & -> & Hne & Hb)%IH. exists c, (d :: before), after.
    split_and!; [done|done|done|]. intros x [->|Hx]%elem_of_cons; [|by apply Hb].
    destruct (decide (tally cards d = 1)); [done|lia].
Qed.

(** [DeckOrder::new] accepts exactly the permutations of the standard deck.
    A list with a repeated card is answered by [DuplicateCard] of the first card
    that repeats an earlier one, any other incomplete list by [IncompleteDeck]. *)
Theorem deck_order_exact cards :
  (∀ d, DeckOrder_new cards = Ok d ↔ d = cards ∧ cards ≡ₚ standard_deck) ∧
  DeckOrder_new cards ≠ Panic ∧
  (NoDup cards → DeckOrder_new cards = Ok cards ∨ DeckOrder_new cards = Err IncompleteDeck) ∧
  (¬ NoDup cards → ∃ before c after, cards = before ++ c :: after ∧ NoDup before ∧ c ∈ before ∧
     DeckOrder_new cards = Err (DuplicateCard c)).
Proof.
  split; [intros d; apply DeckOrder_new_Ok|]. split; [apply DeckOrder_new_no_panic|].
  unfold DeckOrder_new. rewrite seen_of_nil.
  pose proof (DeckOrder_scan_spec [] cards NoDup_nil_2) as Hs.
  destruct (DeckOrder_scan _ _) as [seen|e|]; simpl in *; [| |done].
  - destruct Hs as [Hnd ->]. split; [|done]. intros _. destruct (existsb _ _); auto.
  - destruct Hs as (Hnd & before & c & after & Heq & Hb & Hc & ->). split; [done|]. intros _.
    by exists before, c, after.
Qed.

(** ** Legal actions *)

Definition actor_of (a : Action) : option nat :=
  match a with ABid p _ | APlay p _ => Some p | ADeal _ | ASettleRound => None end.

Lemma legal_cards_spec s hand : pl_hands s !! pl_actor s = Some hand →
  ∃ acts, legal_card_actions s = Ok acts ∧
    ∀ a, a ∈ acts ↔ ∃ c, a = APlay (pl_actor s) c ∧ may_play hand (lead_suit (pl_trick s)) c.
Proof.
  intros Hhand. unfold legal_card_actions. rewrite Hhand. cbn [expect mbind outcome_bind].
  eexists. split; [done|]. intros a. rewrite list_elem_of_fmap. apply exist_proper. intros c.
  rewrite list_elem_of_filter. apply and_iff_compat_l. unfold may_play. rewrite (and_comm _ (c ∈ _)).
  apply and_iff_compat_l. destruct (lead_suit (pl_trick s)) as [ld|]; [|by split].
  destruct (contains_suit hand ld) eqn:Hcs; cbn [negb orb].
  - apply contains_suit_spec in Hcs. rewrite bool_decide_eq_true. split.
    + intros [= Hs] ? [= <-] _. done.
    + intros Hf. f_equal. by apply Hf.
  - split; [|done]. intros _ ? [= <-] Hd%contains_suit_spec. congruence.
Qed.

(** A player who has cards can always play one. *)
Lemma may_play_exists hand lead : iter hand ≠ [] → ∃ c, may_play hand lead c.
Proof.
  intros Hne. destruct (iter hand) as [|c l] eqn:Hi; [done|]. destruct lead as [ld|].
  - destruct (contains_suit hand ld) eqn:Hcs.
    + apply contains_suit_spec in Hcs as (d & Hd & Hs). exists d. split; [done|]. by intros ? [= <-].
    + exists c. split; [rewrite Hi; left|]. intros ? [= <-] Hd%contains_suit_spec. congruence.
  - exists c. split; [rewrite Hi; left|done].
Qed.

Lemma actor_has_cards P s l : 2 ≤ P ≤ 51 → playing_inv P s l → length l < P →
  pl_actor s = advance P (pl_leader s) (length l) →
  ∃ hand, pl_hands s !! pl_actor s = Some hand ∧ iter hand ≠ [].
Proof.
  intros HP Hs Hl Ha. destruct (actor_hand P s l Hs) as [hand Hhand]; [rewrite Ha; by apply advance_lt|].
  exists hand. split; [done|]. rewrite Ha in Hhand.
  destruct (pi_hands _ _ _ Hs _ _ Hl Hhand) as [Hwf Hsz]. rewrite Nat.ltb_irrefl in Hsz.
  pose proof (pi_won_sum _ _ _ Hs). pose proof (zone_len _ _ Hwf) as Hz. intros Hnil. rewrite Hnil in Hz.
  simpl in Hz. lia.
Qed.

Lemma legal_actions_spec P g : 2 ≤ P ≤ 51 → game_inv P g →
  ∃ acts, legal_player_actions g = Ok acts ∧
    (∀ a, a ∈ acts ↔ is_Some (actor_of a) ∧ action_typed P a ∧ is_ok (transition P g a) = true) ∧
    (∀ p, turn g = TurnPlayer p → acts ≠ [] ∧ ∀ a, a ∈ acts → actor_of a = Some p).
Proof.
  intros HP Hg.
  assert (∀ a, action_typed P a → is_ok (transition P g a) = true ↔ admissible P g a) as Hok.
  { intros a Ha. destruct (transition_cases P HP g a Hg Ha) as [(? & t & -> & _)|(? & e & -> & _)]; naive_solver. }
  assert (∀ acts : list Action, (∀ a, a ∈ acts ↔ is_Some (actor_of a) ∧ action_typed P a ∧ admissible P g a) →
    ∀ a, a ∈ acts ↔ is_Some (actor_of a) ∧ action_typed P a ∧ is_ok (transition P g a) = true) as Hacts.
  { intros acts Hs a. rewrite Hs. split; intros (? & Ha & ?); (split; [done|]); (split; [done|]); by apply Hok. }
  destruct g as [l|s|s|s|f]; cbn [legal_player_actions turn].
  1, 4, 5: exists []; split; [done|]; split; [|done]; apply Hacts; intros []; cbn; rewrite elem_of_nil;
    (split; [done|]); intros (Hs & _ & Ha); try done; by apply is_Some_None in Hs.
  - pose proof (bi_size _ _ Hg) as Hsz.
    pose proof (hand_at_bounds P HP _ (li_round _ _ (bi_ledger _ _ Hg))). pose proof (hand_max_bounds P HP).
    exists (ABid (bd_actor s) <$> seqZ 0 (bd_hand_size s + 1)). split; [done|]. split.
    + apply Hacts. intros a. rewrite list_elem_of_fmap. setoid_rewrite elem_of_seqZ. split.
      * intros (b & -> & Hb). cbn. split; [done|]. split; [split; [|unfold in_width; lia]|split; [done|lia]].
        rewrite (bi_actor _ _ Hg). by apply advance_lt.
      * intros (Hs & Hty & Had). destruct a as [|p b| |]; try done. destruct Had as [-> Hle], Hty as [_ Hw].
        exists b. unfold in_width in Hw. split; [done|lia].
    + intros p [= <-]. rewrite seqZ_cons by lia. split; [done|].
      by intros a (b & -> & _)%list_elem_of_fmap.
  - destruct Hg as (l & Hinv & Hl & Ha). destruct (actor_has_cards P s l HP Hinv Hl Ha) as (hand & Hhand & Hne).
    destruct (legal_cards_spec s hand Hhand) as (acts & -> & Hspec). exists acts. split; [done|]. split.
    + apply Hacts. intros a. rewrite Hspec. split.
      * intros (c & -> & Hmay). cbn. split; [done|]. split; [rewrite Ha; by apply advance_lt|]. eauto.
      * intros (Hs & Hty & Had). destruct a as [| |p c|]; try done.
        destruct Had as (-> & hand' & Hh & Hmay). simplify_eq. eauto.
    + intros p [= <-]. destruct (may_play_exists hand (lead_suit (pl_trick s)) Hne) as [c Hc]. split.
      * assert (APlay (pl_actor s) c ∈ acts) as Hin by (apply Hspec; eauto). by intros ->; apply not_elem_of_nil in Hin.
      * by intros a (d & -> & _)%Hspec.
Qed.

(** [C3] [Game::legal_player_actions] enumerates, for every reachable game,
    exactly the typed player actions that [transition] accepts; they belong to the
    player whose turn it is, who always has at least one. *)
Theorem legal_actions_exact P g : 2 ≤ P ≤ 51 → reachable P g →
  ∃ acts, legal_player_actions g = Ok acts ∧
    (∀ a, a ∈ acts ↔ is_Some (actor_of a) ∧ action_typed P a ∧ is_ok (transition P g a) = true) ∧
    (∀ p, turn g = TurnPlayer p → acts ≠ [] ∧ ∀ a, a ∈ acts → actor_of a = Some p).
Proof. intros HP Hg. by apply legal_actions_spec, reachable_inv. Qed.

Lemma legal_actions_exact_witness :
  (2 ≤ 2 ≤ 51 ∧ reachable 2 (auto 2 4)) ∧
  ∃ acts, legal_player_actions (auto 2 4) = Ok acts ∧
    (∀ a, a ∈ acts ↔ is_Some (actor_of a) ∧ action_typed 2 a ∧ is_ok (transition 2 (auto 2 4) a) = true) ∧
    (∀ p, turn (auto 2 4) = TurnPlayer p → acts ≠ [] ∧ ∀ a, a ∈ acts → actor_of a = Some p).
Proof.
  assert (2 ≤ 2 ≤ 51) as HP by lia. assert (reachable 2 (auto 2 4)) as Hr by by apply auto_reachable.
  split; [done|]. exact (legal_actions_exact 2 (auto 2 4) HP Hr).
Defined.

(** ** Progress and termination *)

(** The game never deadlocks: in every reachable game that is not finished
    some typed action is accepted, and a finished game accepts none. *)
Theorem game_progress P g : 2 ≤ P ≤ 51 → reachable P g →
  (∃ a g', step P g a g') ↔ phase g ≠ TagFinished.
Proof.
  intros HP Hr. pose proof (reachable_inv P HP g Hr) as Hg. split.
  { intros (a & g' & [t Ha Ht _]) Hf. by destruct g. }
  assert (∀ a, action_typed P a → admissible P g a → ∃ a g', step P g a g') as Hstep.
  { intros a Ha Had. destruct (transition_cases P HP g a Hg Ha) as [(_ & t & Ht & _)|[? _]]; [|done].
    exists a, (next t). by econstructor. }
  intros Hf. destruct g as [l|s|s|s|f]; [| | | |done].
  - apply (Hstep (ADeal standard_deck)); [apply Permutation_refl|done].
  - pose proof (bi_size _ _ Hg). apply (Hstep (ABid (bd_actor s) 0)); (split; [|unfold in_width; lia]); [|done].
    rewrite (bi_actor _ _ Hg). by apply advance_lt.
  - destruct Hg as (l & Hinv & Hl & Ha). destruct (actor_has_cards P s l HP Hinv Hl Ha) as (hand & Hhand & Hne).
    destruct (may_play_exists hand (lead_suit (pl_trick s)) Hne) as [c Hc].
    apply (Hstep (APlay (pl_actor s) c)); cbn; [rewrite Ha; by apply advance_lt|eauto].
  - by apply (Hstep ASettleRound).
Qed.

Lemma game_progress_witness :
  (2 ≤ 2 ≤ 51 ∧ reachable 2 (auto 2 1)) ∧
  ((∃ a g', step 2 (auto 2 1) a g') ↔ phase (auto 2 1) ≠ TagFinished).
Proof.
  assert (2 ≤ 2 ≤ 51) as HP by lia. assert (reachable 2 (auto 2 1)) as Hr by by apply auto_reachable.
  split; [done|]. exact (game_progress 2 (auto 2 1) HP Hr).
Defined.

(** The actions of a whole game: rounds of hands 1, 2, .., M, .., 2, 1. *)
Definition game_length (P : nat) : nat := (2 + P) * rounds P + P * (hand_max P * hand_max P).

Lemma run_steps P g actions g' : 2 ≤ P ≤ 51 → game_inv P g → Forall (action_typed P) actions →
  run P g actions = Ok g' → game_inv P g' ∧ steps_left P g = length actions + steps_left P g'.
Proof.
  intros HP Hg Hact. revert g Hg; induction Hact as [|a actions Ha _ IH]; intros g Hg Hrun.
  { unfold run in Hrun. simpl in Hrun. simplify_eq. by split. }
  unfold run in Hrun. rewrite foldM_cons in Hrun. apply bind_Ok in Hrun as (g1 & H1 & Hrun).
  apply bind_Ok in H1 as (t & Ht & [= <-]).
  assert (step P g a (next t)) as Hstep by by econstructor.
  destruct (IH (next t)) as [Hinv Hlen]; [by eapply step_inv|exact Hrun|]. split; [done|].
  rewrite (steps_left_step P HP g a (next t) Hg Hstep), Hlen. done.
Qed.

Lemma game_new_steps P first g : 2 ≤ P ≤ 51 → Game_new P first = Ok g → steps_left P g = game_length P.
Proof.
  intros HP Hnew. unfold Game_new in Hnew. apply bind_Ok in Hnew as (_ & _ & Hnew). inv_ok.
  cbn [steps_left round_index]. rewrite Nat.sub_0_r. by apply rounds_steps_closed.
Qed.

(** [C4] Every game ends after the same number of actions: a sequence of accepted
    actions from [Game_new] is never longer than [game_length], and it is of that
    length exactly when it finishes the game. *)
Theorem game_terminates P first g0 actions g : 2 ≤ P ≤ 51 → first < P →
  Game_new P first = Ok g0 → Forall (action_typed P) actions → run P g0 actions = Ok g →
  length actions ≤ game_length P ∧ (length actions = game_length P ↔ phase g = TagFinished).
Proof.
  intros HP Hf Hnew Hact Hrun. destruct (game_new_inv P HP first Hf) as (g0' & Hg0 & Hinv0).
  assert (g0' = g0) as -> by congruence.
  destruct (run_steps P g0 actions g HP Hinv0 Hact Hrun) as [Hinv Hlen].
  pose proof (game_new_steps P first g0 HP Hnew) as Hstart.
  split; [lia|]. assert (phase g = TagFinished ↔ steps_left P g = 0) as ->; [|lia].
  rewrite (steps_left_0 P HP g Hinv). split; [destruct g; try done; eauto|by intros [f ->]].
Qed.

Lemma game_terminates_witness :
  let actions := auto_actions 2 150 (new_game 2 0) in
  (2 ≤ 2 ≤ 51 ∧ 0 < 2 ∧ Game_new 2 0 = Ok (new_game 2 0) ∧ Forall (action_typed 2) actions ∧
   run 2 (new_game 2 0) actions = Ok (auto 2 150) ∧ phase (auto 2 150) = TagFinished) ∧
  length actions ≤ game_length 2 ∧
  (length actions = game_length 2 ↔ phase (auto 2 150) = TagFinished).
Proof.
  intros actions.
  assert (2 ≤ 2 ≤ 51) as HP by lia. assert (0 < 2) as H0 by lia.
  assert (Game_new 2 0 = Ok (new_game 2 0)) as Hnew by reflexivity.
  assert (Forall (action_typed 2) actions) as Hact.
  { apply (bool_decide_unpack _). vm_compute. exact I. }
  assert (run 2 (new_game 2 0) actions = Ok (auto 2 150)) as Hrun by (vm_compute; reflexivity).
  assert (phase (auto 2 150) = TagFinished) as Hfin by (vm_compute; reflexivity).
  split; [exact (conj HP (conj H0 (conj Hnew (conj Hact (conj Hrun Hfin)))))|].
  exact (game_terminates 2 0 (new_game 2 0) actions (auto 2 150) HP H0 Hnew Hact Hrun).
Defined.

(** ** Dealing *)

(** A deal serves the table round-robin: in the hand of the [i]-th seat from
    the left of the dealer are the cards [i], [P + i], [2 P + i], ... of the deck,
    as many as the hand size of the round; the next card is the trump and the
    rest, in order, the stock.  Bidding opens with that first seat. *)
Theorem deal_round_robin P l deck t : 2 ≤ P ≤ 51 → reachable P (SAwaitingDeal l) →
  deck ≡ₚ standard_deck → transition P (SAwaitingDeal l) (ADeal deck) = Ok t →
  ∃ s, next t = SBidding s ∧ bd_actor s = left P (dealer l) ∧ bd_bids s = replicate P None ∧
    let h := hand_at P (round_index l) in
    bd_hand_size s = Z.of_nat h ∧
    (∀ i k, i < P → k < h → ∃ hand, bd_hands s !! advance P (left P (dealer l)) i = Some hand ∧
       length (iter hand) = h ∧ iter hand !! k = deck !! (k * P + i)) ∧
    deck !! (P * h) = Some (bd_trump s) ∧
    iter (bd_stock s) = drop (S (P * h)) deck.
Proof.
  intros HP Hr Hdeck Ht. apply reachable_inv in Hr; [|done]. cbn [transition] in Ht.
  destruct (deal_spec P HP l deck Hr Hdeck) as (s & Hd & Hdf & Hinv). rewrite Hd in Ht.
  injection Ht as <-. exists s. cbv zeta. split_and!; try apply Hdf; [done| |].
  - intros i k Hi Hk. eexists. split; [by apply Hdf|]. rewrite iter_packed.
    split; [apply length_dealt_to|]. unfold dealt_to.
    rewrite list_lookup_fmap, lookup_seq_lt by done. simpl.
    symmetry. apply list_lookup_lookup_total_lt. rewrite Hdeck, length_standard_deck.
    pose proof (hand_at_fits P HP _ (li_round _ _ Hr)). nia.
  - rewrite (df_stock _ _ _ _ Hdf). apply iter_packed.
Qed.

Lemma deal_round_robin_witness : ∃ l t s,
  (2 ≤ 3 ≤ 51 ∧ reachable 3 (SAwaitingDeal l) ∧ standard_deck ≡ₚ standard_deck ∧
   transition 3 (SAwaitingDeal l) (ADeal standard_deck) = Ok t) ∧
  next t = SBidding s ∧ bd_actor s = left 3 (dealer l) ∧ bd_bids s = replicate 3 None ∧
    let h := hand_at 3 (round_index l) in
    bd_hand_size s = Z.of_nat h ∧
    (∀ i k, i < 3 → k < h → ∃ hand, bd_hands s !! advance 3 (left 3 (dealer l)) i = Some hand ∧
       length (iter hand) = h ∧ iter hand !! k = standard_deck !! (k * 3 + i)) ∧
    standard_deck !! (3 * h) = Some (bd_trump s) ∧
    iter (bd_stock s) = drop (S (3 * h)) standard_deck.
Proof.
  set (l := {| dealer := 0; round_index := 0; scores := replicate 3 0%Z; pot_cents := 75 |}).
  assert (2 ≤ 3 ≤ 51) as HP by lia.
  assert (reachable 3 (SAwaitingDeal l)) as Hr by exact (auto_reachable 3 0 HP).
  assert (∃ t, transition 3 (SAwaitingDeal l) (ADeal standard_deck) = Ok t) as [t Ht].
  { vm_compute. by eexists. }
  pose proof (Permutation_refl standard_deck) as Hd.
  destruct (deal_round_robin 3 l standard_deck t HP Hr Hd Ht) as (s & Hs).
  exists l, t, s. split; [exact (conj HP (conj Hr (conj Hd Ht)))|exact Hs].
Defined.

(** The hand sizes of a game are 1, 2, .., M, .., 2, 1 for the largest M of at
    most seven cards that leaves a trump card for every table: the schedule
    functions never panic on a valid table size, a round index below the number
    of rounds gives a hand between one card and M, the schedule is symmetric and
    every deal fits the deck. *)
Theorem hand_schedule P : 2 ≤ P ≤ 51 →
  ∃ M, max_hand_size P = Ok M ∧ round_count P = Ok (2 * M - 1) ∧
    1 ≤ M ≤ 7 ∧ P * M < DECK_SIZE ∧ (M < 7 → DECK_SIZE ≤ P * (M + 1)) ∧
    (∀ r, r < M → hand_size_for_round P r = Ok (r + 1)) ∧
    (∀ r, r < 2 * M - 1 → ∃ h, hand_size_for_round P r = Ok h ∧ 1 ≤ h ≤ M ∧
       hand_size_for_round P (2 * M - 2 - r) = Ok h).
Proof.
  intros HP. exists (hand_max P). pose proof (hand_max_bounds P HP). pose proof (hand_max_fits P HP).
  split_and!; try lia; [by apply max_hand_size_Ok|by apply round_count_Ok|unfold DECK_SIZE; lia|..].
  - unfold hand_max, DECK_SIZE. intros Hlt. assert (51 / P < 7) by lia.
    pose proof (Nat.mul_succ_div_gt 51 P). replace (Nat.min 7 (51 / P)) with (51 / P) by lia. lia.
  - intros r Hr. rewrite (hand_size_for_round_Ok P HP) by (unfold rounds; lia). unfold hand_at.
    by rewrite (proj2 (Nat.ltb_lt _ _)).
  - intros r Hr. exists (hand_at P r). rewrite !(hand_size_for_round_Ok P HP) by (unfold rounds; lia).
    split_and!; [done|apply (hand_at_bounds P HP); unfold rounds; lia..|]. f_equal. unfold hand_at.
    destruct (r <? _) eqn:H1, (_ - r <? _) eqn:H2; rewrite ?Nat.ltb_lt, ?Nat.ltb_ge in *; lia.
Qed.

Lemma hand_schedule_witness : 2 ≤ 8 ≤ 51 ∧
  ∃ M, max_hand_size 8 = Ok M ∧ round_count 8 = Ok (2 * M - 1) ∧
    1 ≤ M ≤ 7 ∧ 8 * M < DECK_SIZE ∧ (M < 7 → DECK_SIZE ≤ 8 * (M + 1)) ∧
    (∀ r, r < M → hand_size_for_round 8 r = Ok (r + 1)) ∧
    (∀ r, r < 2 * M - 1 → ∃ h, hand_size_for_round 8 r = Ok h ∧ 1 ≤ h ≤ M ∧
       hand_size_for_round 8 (2 * M - 2 - r) = Ok h).
Proof. assert (2 ≤ 8 ≤ 51) as HP by lia. split; [exact HP|exact (hand_schedule 8 HP)]. Defined.

(** ** The winner of a trick *)

Lemma players_distinct_spec P pre plays : Forall (λ p, player p < P) (pre ++ plays) →
  NoDup (player <$> pre) →
  players_distinct ((λ q, bool_decide (q ∈ player <$> pre)) <$> seq 0 P) plays =
    Ok (bool_decide (NoDup (player <$> (pre ++ plays)))).
Proof.
  revert pre; induction plays as [|p plays IH]; intros pre Hlt Hnd.
  { rewrite app_nil_r, bool_decide_eq_true_2 by done. done. }
  assert (player p < P) as Hp by (apply Forall_app in Hlt as [_ Hlt]; by inversion Hlt).
  cbn [players_distinct]. rewrite list_lookup_fmap, lookup_seq_lt by done. cbn [fmap option_fmap option_map expect mbind outcome_bind Nat.add].
  rewrite fmap_app, fmap_cons. case_bool_decide as Hin.
  - rewrite bool_decide_eq_false_2; [done|]. rewrite NoDup_app. intros (_ & Hd & _). apply (Hd _ Hin). left.
  - assert (<[player p:=true]> ((λ q, bool_decide (q ∈ player <$> pre)) <$> seq 0 P) =
            (λ q, bool_decide (q ∈ player <$> (pre ++ [p]))) <$> seq 0 P) as ->.
    { apply list_eq. intros i. destruct (decide (i = player p)) as [->|Hne].
      - rewrite list_lookup_insert_eq by (by rewrite length_fmap, length_seq).
        rewrite list_lookup_fmap, lookup_seq_lt by done. simpl. f_equal. symmetry. apply bool_decide_eq_true.
        rewrite fmap_app. set_solver.
      - rewrite list_lookup_insert_ne, !list_lookup_fmap by done. destruct (seq 0 P !! i) as [q|] eqn:Hq; [|done].
        apply lookup_seq in Hq as [-> _]. simpl. f_equal. apply bool_decide_ext. rewrite fmap_app. set_solver. }
    rewrite IH.
    + by rewrite fmap_app, fmap_app, <-(assoc_L (++)).
    + by rewrite <-(assoc_L (++)).
    + rewrite fmap_app, NoDup_app. split_and!; [done|set_solver|apply NoDup_singleton].
Qed.

Lemma players_distinct_start P plays : Forall (λ p, player p < P) plays →
  players_distinct (replicate P false) plays = Ok (bool_decide (NoDup (player <$> plays))).
Proof.
  intros Hlt. etrans; [|apply (players_distinct_spec P [] plays Hlt), NoDup_nil_2]. f_equal.
  apply list_eq. intros i. rewrite list_lookup_fmap. destruct (decide (i < P)).
  - by rewrite lookup_replicate_2, lookup_seq_lt.
  - rewrite !lookup_ge_None_2; [done|rewrite length_seq; lia|rewrite length_replicate; lia].
Qed.

(** [trick_winner] on the plays of the seats of a table: it names a winner
    exactly when each seat has played once; with distinct cards the winning card
    beats every other one (trumps beat the rest, then the suit led, the higher
    rank within a suit), and no two cards beat each other. *)
Theorem trick_winner_rule P trump plays : 0 < P → Forall (λ p, player p < P) plays →
  NoDup (card <$> plays) →
  match trick_winner P trump plays with
  | Ok (Some seat) =>
      length plays = P ∧ NoDup (player <$> plays) ∧
      ∃ first w, head plays = Some first ∧ w ∈ plays ∧ player w = seat ∧
        ∀ p, p ∈ plays → p ≠ w → beats trump (suit (card first)) (card w) (card p) ∧
                                 ¬ beats trump (suit (card first)) (card p) (card w)
  | Ok None => length plays ≠ P ∨ ¬ NoDup (player <$> plays)
  | _ => False
  end.
Proof.
  intros HP Hlt Hcards. unfold trick_winner. rewrite players_distinct_start by done.
  cbn [mbind outcome_bind]. case_bool_decide as Hnd; [|by right].
  destruct (decide (length plays = P)) as [Hlen|Hlen].
  2:{ unfold winner_from_plays. rewrite (proj2 (Nat.eqb_neq _ _)) by done. by left. }
  destruct plays as [|first rest]; [simpl in Hlen; lia|].
  destruct (winner_from_plays_spec P trump first rest Hlen) as (w & Hw & Hin & Hb). rewrite Hlen, Hw.
  split; [done|]. split; [done|]. exists first, w. split_and!; [done..|].
  intros p Hp Hne. assert (card p ≠ card w) as Hcne.
  { intros Heq. apply Hne. apply list_elem_of_lookup in Hp as [i Hi], Hin as [j Hj].
    assert (i = j) as ->; [|congruence].
    apply (NoDup_lookup (card <$> first :: rest) i j (card w) Hcards); rewrite list_lookup_fmap;
      [by rewrite Hi, <-Heq|by rewrite Hj]. }
  pose proof (Hb p Hp Hcne) as Hbeats. split; [done|].
  intros Hback. destruct Hbeats, Hback; try congruence; try lia; naive_solver.
Qed.

Lemma trick_winner_rule_witness :
  let plays := [PlayedCardOf 1 (CardOf Hearts Ten); PlayedCardOf 2 (CardOf Spades Two);
                PlayedCardOf 0 (CardOf Hearts King)] in
  (0 < 3 ∧ Forall (λ p, player p < 3) plays ∧ NoDup (card <$> plays) ∧
   trick_winner 3 Spades plays = Ok (Some 2)) ∧
  length plays = 3 ∧ NoDup (player <$> plays) ∧
  ∃ first w, head plays = Some first ∧ w ∈ plays ∧ player w = 2 ∧
    ∀ p, p ∈ plays → p ≠ w → beats Spades (suit (card first)) (card w) (card p) ∧
                             ¬ beats Spades (suit (card first)) (card p) (card w).
Proof.
  intros plays. assert (0 < 3) as HP by lia.
  assert (Forall (λ p, player p < 3) plays) as Hlt by (repeat constructor; simpl; lia).
  assert (NoDup (card <$> plays)) as Hnd by (apply (bool_decide_unpack _); vm_compute; exact I).
  assert (trick_winner 3 Spades plays = Ok (Some 2)) as Hw by reflexivity.
  split; [exact (conj HP (conj Hlt (conj Hnd Hw)))|].
  pose proof (trick_winner_rule 3 Spades plays HP Hlt Hnd) as H. rewrite Hw in H. exact H.
Defined.

(** ** Scoring *)

Definition game_scores (g : GameState) : list Z :=
  match g with
  | SAwaitingDeal l => scores l
  | SBidding s => scores (bd_ledger s)
  | SPlaying s => scores (pl_ledger s)
  | SScoring s => scores (sc_ledger s)
  | SFinished f => fin_scores f
  end.

Definition game_pot (g : GameState) : Z :=
  match g with
  | SAwaitingDeal l => pot_cents l
  | SBidding s => pot_cents (bd_ledger s)
  | SPlaying s => pot_cents (pl_ledger s)
  | SScoring s => pot_cents (sc_ledger s)
  | SFinished f => fin_pot_cents f
  end.

(** The points of a bid: ten plus the bid when it is made exactly, twenty plus
    the bid when it is made and takes every trick, nothing when it is missed. *)
Definition bid_points (bid won size : Z) : Z :=
  if (won =? bid)%Z then ((if (won =? size)%Z then 20 else 10) + bid)%Z else 0%Z.

Lemma score_round_points bid won size :
  points (score_round bid won size) = bid_points bid won size ∧
  payment_cents (score_round bid won size) = (if (won =? bid)%Z then 0 else 10)%Z ∧
  score_bid (score_round bid won size) = bid ∧ score_tricks (score_round bid won size) = won.
Proof. unfold score_round, bid_points. destruct (won =? bid)%Z; cbn [negb]; [|done]. by destruct (won =? size)%Z. Qed.

Lemma score_cell_Ok bid won size : (0 ≤ bid ≤ 7)%Z → ∃ c, score_cell (score_round bid won size) = Ok c.
Proof.
  intros Hb. unfold score_cell, score_round.
  destruct (negb _); [|destruct (won =? size)%Z]; cbn [score_outcome score_bid]; [by eexists|..];
    rewrite u_add_ok by (unfold in_width; lia); by eexists.
Qed.

Lemma settle_round_next P s t : 2 ≤ P ≤ 51 → scoring_inv P s → settle_round P s = Ok t →
  round_scores t = Some (scoring_scores s) ∧ game_scores (next t) = scoring_totals s ∧
  game_pot (next t) = scoring_pot s.
Proof.
  intros HP Hs Ht. destruct (settle_round_spec P HP s Hs) as [(_ & f & H1 & H2 & _ & Heq)|(_ & _ & Heq)];
    rewrite Heq in Ht; by simplify_eq.
Qed.

(** Settlement: all tricks of the round have been won by someone; every seat
    gets the points of its bid added to its running score, the pot grows by ten
    cents for each missed bid, and each score has a written cell. *)
Theorem settlement_accounting P s t : 2 ≤ P ≤ 51 → reachable P (SScoring s) →
  transition P (SScoring s) ASettleRound = Ok t →
  zsum (sc_tricks_won s) = sc_hand_size s ∧
  (∃ rs, round_scores t = Some rs ∧ length rs = P ∧
    (∀ i, i < P → ∃ bid won old r,
       sc_bids s !! i = Some bid ∧ sc_tricks_won s !! i = Some won ∧
       game_scores (SScoring s) !! i = Some old ∧ rs !! i = Some r ∧
       score_bid r = bid ∧ score_tricks r = won ∧ points r = bid_points bid won (sc_hand_size s) ∧
       game_scores (next t) !! i = Some (old + bid_points bid won (sc_hand_size s))%Z ∧
       (∃ c, score_cell r = Ok c)) ∧
    game_pot (next t) = (game_pot (SScoring s) +
      10 * Z.of_nat (length (filter (λ r, score_tricks r ≠ score_bid r) rs)))%Z).
Proof.
  intros HP Hr Ht. apply reachable_inv in Hr; [|done]. cbn [game_inv transition] in *.
  destruct (settle_round_next P s t HP Hr Ht) as (Hrs & Hsc & Hpot). split; [apply Hr|].
  exists (scoring_scores s). split; [done|]. destruct (scoring_scores_bounds P HP s Hr) as [Hlen _]. split; [done|].
  split.
  - intros i Hi. rewrite Hsc.
    destruct (lookup_lt_is_Some_2 (sc_bids s) i) as [bid Hbid]; [by rewrite (si_bids_len _ _ Hr)|].
    destruct (lookup_lt_is_Some_2 (sc_tricks_won s) i) as [won Hwon]; [by rewrite (si_won_len _ _ Hr)|].
    destruct (lookup_lt_is_Some_2 (scores (sc_ledger s)) i) as [old Hold];
      [by rewrite (li_scores_len _ _ (si_ledger _ _ Hr))|].
    assert (scoring_scores s !! i = Some (score_round bid won (sc_hand_size s))) as Hri.
    { unfold scoring_scores, round_scores_of. rewrite lookup_zip_with, Hbid. cbn. by rewrite Hwon. }
    destruct (score_round_points bid won (sc_hand_size s)) as (Hp & _ & Hb & Hw).
    exists bid, won, old, (score_round bid won (sc_hand_size s)). split_and!; try done.
    + unfold scoring_totals, settled_scores. rewrite lookup_zip_with, Hold. cbn. rewrite Hri. cbn. by rewrite Hp.
    + apply score_cell_Ok. pose proof (si_bids _ _ Hr) as Hbids. rewrite Forall_lookup in Hbids.
      specialize (Hbids _ _ Hbid). unfold bid_ok in Hbids.
      pose proof (hand_at_bounds P HP _ (li_round _ _ (si_ledger _ _ Hr))). pose proof (hand_max_bounds P HP). lia.
  - rewrite Hpot. unfold scoring_pot. f_equal. unfold scoring_scores, round_scores_of.
    generalize (sc_bids s) (sc_tricks_won s). clear. intros bids.
    induction bids as [|b bids IH]; intros [|w won]; try done. cbn [zip_with]. rewrite fmap_cons, zsum_cons, IH.
    destruct (score_round_points b w (sc_hand_size s)) as (_ & Hp & Hb & Hw). rewrite Hp, filter_cons, Hb, Hw.
    destruct (w =? b)%Z eqn:Heq.
    + rewrite decide_False by lia. lia.
    + rewrite decide_True by lia. cbn [length]. lia.
Qed.

Lemma settlement_accounting_witness : ∃ s t,
  (2 ≤ 2 ≤ 51 ∧ reachable 2 (SScoring s) ∧ transition 2 (SScoring s) ASettleRound = Ok t) ∧
  zsum (sc_tricks_won s) = sc_hand_size s ∧
  (∃ rs, round_scores t = Some rs ∧ length rs = 2 ∧
    (∀ i, i < 2 → ∃ bid won old r,
       sc_bids s !! i = Some bid ∧ sc_tricks_won s !! i = Some won ∧
       game_scores (SScoring s) !! i = Some old ∧ rs !! i = Some r ∧
       score_bid r = bid ∧ score_tricks r = won ∧ points r = bid_points bid won (sc_hand_size s) ∧
       game_scores (next t) !! i = Some (old + bid_points bid won (sc_hand_size s))%Z ∧
       (∃ c, score_cell r = Ok c)) ∧
    game_pot (next t) = (game_pot (SScoring s) +
      10 * Z.of_nat (length (filter (λ r, score_tricks r ≠ score_bid r) rs)))%Z).
Proof.
  assert (2 ≤ 2 ≤ 51) as HP by lia.
  assert (∃ s, auto 2 5 = SScoring s) as [s Hs] by (vm_compute; by eexists).
  assert (reachable 2 (SScoring s)) as Hr by (rewrite <-Hs; exact (auto_reachable 2 5 HP)).
  assert (∃ t, transition 2 (SScoring s) ASettleRound = Ok t) as [t Ht].
  { rewrite <-Hs. vm_compute. by eexists. }
  exists s, t. split; [exact (conj HP (conj Hr Ht))|exact (settlement_accounting 2 s t HP Hr Ht)].
Defined.

(** Scores and pot stay far below their machine widths: in every reachable
    game each of the [P] scores is at most 351 points and the pot is between the
    antes and 155 cents per player. *)
Theorem ledger_bounds P g : 2 ≤ P ≤ 51 → reachable P g →
  length (game_scores g) = P ∧ Forall (λ s, 0 ≤ s ≤ 351)%Z (game_scores g) ∧
  (25 * Z.of_nat P ≤ game_pot g ≤ 155 * Z.of_nat P)%Z.
Proof.
  intros HP Hr. apply reachable_inv in Hr; [|done]. pose proof (rounds_bounds P HP) as Hrb.
  assert (∀ l, ledger_inv P l → length (scores l) = P ∧ Forall (λ s, 0 ≤ s ≤ 351)%Z (scores l) ∧
    (25 * Z.of_nat P ≤ pot_cents l ≤ 155 * Z.of_nat P)%Z) as Hl.
  { intros l [? Hround ? Hs Hp]. split_and!; [done| |lia|].
    - eapply Forall_impl; [exact Hs|]. intros x Hx; cbv beta in *. lia.
    - assert (P * round_index l ≤ P * 13) by (apply Nat.mul_le_mono_l; lia). lia. }
  destruct g as [l|s|s|s|f]; cbn [game_scores game_pot game_inv] in *; [by apply Hl|apply Hl, Hr| |apply Hl, Hr|].
  - destruct Hr as (l & Hr & _). apply Hl, Hr.
  - destruct Hr as [? Hs Hp _]. split_and!; [done| |lia|].
    + eapply Forall_impl; [exact Hs|]. intros x Hx; cbv beta in *. lia.
    + assert (P * rounds P ≤ P * 13) by (apply Nat.mul_le_mono_l; lia). lia.
Qed.

Lemma ledger_bounds_witness : (2 ≤ 2 ≤ 51 ∧ reachable 2 (auto 2 20)) ∧
  length (game_scores (auto 2 20)) = 2 ∧ Forall (λ s, 0 ≤ s ≤ 351)%Z (game_scores (auto 2 20)) ∧
  (25 * Z.of_nat 2 ≤ game_pot (auto 2 20) ≤ 155 * Z.of_nat 2)%Z.
Proof.
  assert (2 ≤ 2 ≤ 51) as HP by lia. assert (reachable 2 (auto 2 20)) as Hr by exact (auto_reachable 2 20 HP).
  split; [exact (conj HP Hr)|exact (ledger_bounds 2 (auto 2 20) HP Hr)].
Defined.

(** ** The end of the game *)

Lemma foldl_max_spec (l : list Z) a : (∀ x, x ∈ a :: l → (x ≤ foldl Z.max a l)%Z) ∧ foldl Z.max a l ∈ a :: l.
Proof.
  revert a; induction l as [|y l IH]; intros a; cbn [foldl].
  { split; [|left]. by intros x ->%list_elem_of_singleton. }
  destruct (IH (Z.max a y)) as [Hle Hin]. pose proof (Hle (Z.max a y) ltac:(left)) as Hm. split.
  - intros x [->|[->|Hx]%elem_of_cons]%elem_of_cons; [lia|lia|]. apply Hle. by right.
  - apply elem_of_cons in Hin as [Heq|Hin]; [|by do 2 right]. rewrite Heq.
    destruct (Z.max_spec a y) as [[_ ->]|[_ ->]]; [right; left|left].
Qed.

Lemma finished_winners P f : finished_inv P f → 0 < P →
  length (fin_winners f) = P ∧ true ∈ fin_winners f ∧
  ∀ i score, fin_scores f !! i = Some score →
     ∃ b, fin_winners f !! i = Some b ∧ (b = true ↔ ∀ s, s ∈ fin_scores f → (s ≤ score)%Z).
Proof.
  intros [Hlen _ _ Hw] HP. unfold winner_mask in Hw. destruct (fin_scores f) as [|s0 rest] eqn:Hf.
  { simpl in Hlen. lia. }
  rewrite <-Hf in *. injection Hw as Hw. set (m := foldl Z.max s0 rest) in *.
  destruct (foldl_max_spec rest s0) as [Hle Hin]. fold m in Hle, Hin. rewrite <-Hf in Hle, Hin.
  split_and!; [by rewrite <-Hw, length_fmap| |].
  - rewrite <-Hw. apply list_elem_of_fmap. exists m. by rewrite bool_decide_eq_true_2.
  - intros i score Hi. exists (bool_decide (score = m)). rewrite <-Hw, list_lookup_fmap, Hi.
    split; [done|]. rewrite bool_decide_eq_true. split; [by intros ->|]. intros Hall.
    specialize (Hall m Hin). pose proof (Hle score (list_elem_of_lookup_2 _ _ _ Hi)). lia.
Qed.

Lemma pot_division_spec P f : 2 ≤ P ≤ 51 → finished_inv P f →
  ∃ d, pot_division f = Some d ∧ winner_count d = length (filter (λ b, b = true) (fin_winners f)) ∧
    1 ≤ winner_count d ≤ P ∧
    (cents_per_winner d * Z.of_nat (winner_count d) + remainder_cents d = fin_pot_cents f)%Z ∧
    (0 ≤ remainder_cents d < Z.of_nat (winner_count d))%Z.
Proof.
  intros HP Hf. destruct (finished_winners P f Hf) as (Hwl & Htrue & _); [lia|].
  unfold pot_division. set (n := length (filter _ _)).
  assert (n ≤ P) as HnP by (unfold n; rewrite <-Hwl; apply length_filter).
  assert (1 ≤ n) as Hn1.
  { assert (true ∈ filter (λ b, b = true) (fin_winners f)) as Ht by by apply list_elem_of_filter.
    destruct n as [|n'] eqn:Hn; [|lia]. unfold n in Hn. apply nil_length_inv in Hn. rewrite Hn in Ht.
    by apply not_elem_of_nil in Ht. }
  assert (checked 32 (Z.of_nat n) = Some (Z.of_nat n)) as -> by (apply checked_Some; unfold in_width; lia).
  cbn [mbind option_bind]. rewrite (proj2 (Z.eqb_neq _ _)) by lia.
  eexists. split; [done|]. cbn [winner_count cents_per_winner remainder_cents].
  pose proof (Z.div_mod (fin_pot_cents f) (Z.of_nat n)). pose proof (Z.mod_pos_bound (fin_pot_cents f) (Z.of_nat n)).
  split_and!; [done|lia|lia|lia|lia|lia].
Qed.

(** A finished game is won by exactly the seats with the highest score, at
    least one; [pot_division] splits the whole pot evenly between them, the
    remainder being less than one cent per winner. *)
Theorem finished_standings P f : 2 ≤ P ≤ 51 → reachable P (SFinished f) →
  length (fin_winners f) = P ∧
  (∀ i score, fin_scores f !! i = Some score →
     ∃ b, fin_winners f !! i = Some b ∧ (b = true ↔ ∀ s, s ∈ fin_scores f → (s ≤ score)%Z)) ∧
  ∃ d, pot_division f = Some d ∧ winner_count d = length (filter (λ b, b = true) (fin_winners f)) ∧
    1 ≤ winner_count d ≤ P ∧
    (cents_per_winner d * Z.of_nat (winner_count d) + remainder_cents d = fin_pot_cents f)%Z ∧
    (0 ≤ remainder_cents d < Z.of_nat (winner_count d))%Z.
Proof.
  intros HP Hr. apply reachable_inv in Hr; [|done].
  destruct (finished_winners P f Hr) as (Hwl & _ & Hw); [lia|]. split; [done|]. split; [done|].
  by apply pot_division_spec.
Qed.

Lemma finished_standings_witness : ∃ f, (2 ≤ 2 ≤ 51 ∧ reachable 2 (SFinished f)) ∧
  length (fin_winners f) = 2 ∧
  (∀ i score, fin_scores f !! i = Some score →
     ∃ b, fin_winners f !! i = Some b ∧ (b = true ↔ ∀ s, s ∈ fin_scores f → (s ≤ score)%Z)) ∧
  ∃ d, pot_division f = Some d ∧ winner_count d = length (filter (λ b, b = true) (fin_winners f)) ∧
    1 ≤ winner_count d ≤ 2 ∧
    (cents_per_winner d * Z.of_nat (winner_count d) + remainder_cents d = fin_pot_cents f)%Z ∧
    (0 ≤ remainder_cents d < Z.of_nat (winner_count d))%Z.
Proof.
  assert (2 ≤ 2 ≤ 51) as HP by lia.
  assert (∃ f, auto 2 150 = SFinished f) as [f Hf] by (vm_compute; by eexists).
  assert (reachable 2 (SFinished f)) as Hr by (rewrite <-Hf; exact (auto_reachable 2 150 HP)).
  exists f. split; [exact (conj HP Hr)|exact (finished_standings 2 f HP Hr)].
Defined.

(** ** Observations *)

(** Two games that look alike to [viewer]: the public parts and the viewer's own
    hand agree; the other hands agree in size only, the stock and the captured
    piles do not matter. *)
Definition same_view (viewer : nat) (g g' : GameState) : Prop :=
  match g, g' with
  | SAwaitingDeal l, SAwaitingDeal l' => l = l'
  | SBidding s, SBidding s' =>
      bd_ledger s = bd_ledger s' ∧ bd_trump s = bd_trump s' ∧ bd_bids s = bd_bids s' ∧
      bd_actor s = bd_actor s' ∧
      bd_hands s !! viewer = bd_hands s' !! viewer ∧ len <$> bd_hands s = len <$> bd_hands s'
  | SPlaying s, SPlaying s' =>
      pl_ledger s = pl_ledger s' ∧ pl_trump s = pl_trump s' ∧ pl_bids s = pl_bids s' ∧
      pl_actor s = pl_actor s' ∧ pl_trick s = pl_trick s' ∧ pl_tricks_won s = pl_tricks_won s' ∧
      pl_hands s !! viewer = pl_hands s' !! viewer ∧ len <$> pl_hands s = len <$> pl_hands s'
  | SScoring s, SScoring s' =>
      sc_ledger s = sc_ledger s' ∧ sc_trump s = sc_trump s' ∧ sc_bids s = sc_bids s' ∧
      sc_tricks_won s = sc_tricks_won s'
  | SFinished f, SFinished f' => fin_scores f = fin_scores f' ∧ fin_pot_cents f = fin_pot_cents f'
  | _, _ => False
  end.

Lemma hand_counts_Ok hands : Forall (λ f, len f ≤ 7) hands →
  hand_counts hands = Ok ((λ f, Z.of_nat (len f)) <$> hands).
Proof.
  unfold hand_counts. induction 1 as [|f hands Hf _ IH]; [done|]. cbn [mapM].
  assert (checked 8 (Z.of_nat (len f)) = Some (Z.of_nat (len f))) as ->.
  { apply checked_Some. unfold in_width. lia. }
  cbn [expect mbind outcome_bind]. by rewrite IH.
Qed.

Lemma zone_len_le n f : zone_wf n f → len f ≤ n.
Proof. intros [Hc Hl]. rewrite Hl, <-Hc. apply length_omap_id. Qed.

Lemma playing_hand_sizes P s l : 2 ≤ P ≤ 51 → playing_inv P s l → Forall (λ f, len f ≤ 7) (pl_hands s).
Proof.
  intros HP Hs. rewrite Forall_lookup. intros q f Hq.
  assert (q < P) as HqP by (rewrite <-(pi_hands_len _ _ _ Hs); by eapply lookup_lt_Some).
  destruct (seats_cover P HP (pl_leader s) q HqP) as (i & Hi & <-).
  apply zone_len_le. by apply (pi_hands _ _ _ Hs i f Hi Hq).
Qed.

(** The observation a reachable game shows. *)
Lemma observe_Ok P g viewer : 2 ≤ P ≤ 51 → viewer < P → game_inv P g →
  ∃ o, observe P g viewer = Ok o ∧ obs_phase o = phase g ∧ obs_viewer o = viewer ∧
    obs_actor o = turn g ∧ obs_scores o = game_scores g ∧ obs_pot_cents o = game_pot g ∧
    match g with
    | SAwaitingDeal l => obs_dealer o = Some (dealer l) ∧ obs_round_index o = round_index l
    | SBidding s =>
        obs_dealer o = Some (dealer (bd_ledger s)) ∧ obs_round_index o = round_index (bd_ledger s) ∧
        obs_trump o = Some (bd_trump s) ∧ obs_bids o = bd_bids s ∧
        bd_hands s !! viewer = Some (obs_private_hand o) ∧
        obs_hand_counts o = (λ f, Z.of_nat (len f)) <$> bd_hands s
    | SPlaying s =>
        obs_dealer o = Some (dealer (pl_ledger s)) ∧ obs_round_index o = round_index (pl_ledger s) ∧
        obs_trump o = Some (pl_trump s) ∧ obs_bids o = Some <$> pl_bids s ∧
        pl_hands s !! viewer = Some (obs_private_hand o) ∧
        obs_hand_counts o = (λ f, Z.of_nat (len f)) <$> pl_hands s ∧
        obs_current_trick o = pl_trick s ∧ obs_tricks_won o = pl_tricks_won s
    | SScoring s =>
        obs_dealer o = Some (dealer (sc_ledger s)) ∧ obs_round_index o = round_index (sc_ledger s) ∧
        obs_trump o = Some (sc_trump s) ∧ obs_bids o = Some <$> sc_bids s ∧
        obs_tricks_won o = sc_tricks_won s
    | SFinished _ => True
    end.
Proof.
  intros HP Hv Hg. destruct g as [l|s|s|s|f]; cbn [observe game_inv] in *.
  - unfold empty_observation. rewrite (hand_size_for_round_Ok P HP) by apply Hg. cbn [mbind outcome_bind].
    pose proof (hand_at_bounds P HP _ (li_round _ _ Hg)). pose proof (hand_max_bounds P HP).
    assert (checked 8 (Z.of_nat (hand_at P (round_index l))) = Some (Z.of_nat (hand_at P (round_index l)))) as ->.
    { apply checked_Some. unfold in_width. lia. }
    by eexists.
  - destruct (lookup_lt_is_Some_2 (bd_hands s) viewer) as [hand Hh]; [by rewrite (bi_hands_len _ _ Hg)|].
    rewrite Hh. cbn [expect mbind outcome_bind]. rewrite hand_counts_Ok; [by eexists|].
    eapply Forall_impl; [apply (bi_hands _ _ Hg)|]. intros x [Hx _]; cbv beta. by apply zone_len_le.
  - destruct Hg as (l & Hg & _).
    destruct (lookup_lt_is_Some_2 (pl_hands s) viewer) as [hand Hh]; [by rewrite (pi_hands_len _ _ _ Hg)|].
    rewrite Hh. cbn [expect mbind outcome_bind].
    rewrite hand_counts_Ok by by eapply playing_hand_sizes. by eexists.
  - by eexists.
  - rewrite (round_count_Ok P HP). by eexists.
Qed.

Lemma ledger_eq l l' : dealer l = dealer l' → round_index l = round_index l' → scores l = scores l' →
  pot_cents l = pot_cents l' → l = l'.
Proof. destruct l, l'; simpl; congruence. Qed.

Lemma hand_counts_inj (l l' : list FixedCards) :
  (λ f, Z.of_nat (len f)) <$> l = (λ f, Z.of_nat (len f)) <$> l' → len <$> l = len <$> l'.
Proof.
  intros H. apply (f_equal (fmap Z.to_nat)) in H. rewrite <-!list_fmap_compose in H.
  etrans; [|etrans; [exact H|]]; apply list_fmap_ext; intros ???; unfold compose; by rewrite Nat2Z.id.
Qed.

Lemma hand_counts_len (l l' : list FixedCards) : len <$> l = len <$> l' →
  (λ f, Z.of_nat (len f)) <$> l = (λ f, Z.of_nat (len f)) <$> l'.
Proof. intros H. change (λ f, Z.of_nat (len f)) with (Z.of_nat ∘ len). by rewrite !list_fmap_compose, H. Qed.

(** [C5] An observation reveals the public state and the viewer's own hand, and
    nothing else: two reachable games give a viewer the same observation exactly
    when they agree on the ledger, trump, bids, actor, trick, tricks won, the
    viewer's own hand and the sizes of all hands. *)
Theorem observation_exact P g g' viewer : 2 ≤ P ≤ 51 → viewer < P → reachable P g → reachable P g' →
  observe P g viewer = observe P g' viewer ↔ same_view viewer g g'.
Proof.
  intros HP Hv Hr Hr'. apply reachable_inv in Hr, Hr'; [|done..]. split.
  - intros Heq. destruct (observe_Ok P g viewer HP Hv Hr) as (o & Ho & Hph & _ & Hact & Hsc & Hpot & Hm).
    destruct (observe_Ok P g' viewer HP Hv Hr') as (o' & Ho' & Hph' & _ & Hact' & Hsc' & Hpot' & Hm').
    assert (o = o') as <- by congruence. clear Heq Ho Ho'.
    destruct g as [l|s|s|s|f], g' as [l'|s'|s'|s'|f'];
      try (exfalso; rewrite Hph in Hph'; discriminate Hph'); cbn in *.
    + destruct Hm, Hm'. apply ledger_eq; congruence.
    + destruct Hm as (? & ? & ? & ? & ? & ?), Hm' as (? & ? & ? & ? & ? & ?).
      split_and!; [apply ledger_eq; congruence|congruence..|apply hand_counts_inj; congruence].
    + destruct Hm as (? & ? & ? & Hb & ? & ? & ? & ?), Hm' as (? & ? & ? & Hb' & ? & ? & ? & ?).
      split_and!; [apply ledger_eq; congruence|congruence| |congruence..|apply hand_counts_inj; congruence].
      apply (inj (fmap Some)). congruence.
    + destruct Hm as (? & ? & ? & Hb & ?), Hm' as (? & ? & ? & Hb' & ?).
      split_and!; [apply ledger_eq; congruence|congruence| |congruence].
      apply (inj (fmap Some)). congruence.
    + split; congruence.
  - intros Hsame. destruct g as [l|s|s|s|f], g' as [l'|s'|s'|s'|f']; try done; cbn [same_view game_inv] in *.
    + by subst.
    + destruct Hsame as (H1 & H2 & H3 & H4 & H5 & H6).
      assert (bd_hand_size s = bd_hand_size s') as Hsz.
      { rewrite (bi_size _ _ Hr), (bi_size _ _ Hr'). by rewrite H1. }
      cbn [observe]. rewrite H5. destruct (bd_hands s' !! viewer); [|done]. cbn [expect mbind outcome_bind].
      rewrite !hand_counts_Ok, (hand_counts_len _ _ H6), H1, H2, H3, H4, Hsz; [done|..];
        (eapply Forall_impl; [by (apply (bi_hands _ _ Hr) || apply (bi_hands _ _ Hr'))|]);
        intros x [Hx _]; cbv beta; by apply zone_len_le.
    + destruct Hsame as (H1 & H2 & H3 & H4 & H5 & H6 & H7 & H8), Hr as (pl & Hr & _), Hr' as (pl' & Hr' & _).
      assert (pl_hand_size s = pl_hand_size s') as Hsz.
      { rewrite (pi_size _ _ _ Hr), (pi_size _ _ _ Hr'). by rewrite H1. }
      cbn [observe]. rewrite H7. destruct (pl_hands s' !! viewer); [|done]. cbn [expect mbind outcome_bind].
      rewrite !hand_counts_Ok, (hand_counts_len _ _ H8), H1, H2, H3, H4, H5, H6, Hsz; [done|..];
        by eapply playing_hand_sizes.
    + destruct Hsame as (H1 & H2 & H3 & H4).
      assert (sc_hand_size s = sc_hand_size s') as Hsz.
      { rewrite (si_size _ _ Hr), (si_size _ _ Hr'). by rewrite H1. }
      cbn [observe]. by rewrite H1, H2, H3, H4, Hsz.
    + destruct Hsame as [H1 H2]. cbn [observe]. rewrite (round_count_Ok P HP). cbn [mbind outcome_bind].
      by rewrite H1, H2.
Qed.

Lemma observation_exact_witness :
  (2 ≤ 2 ≤ 51 ∧ 1 < 2 ∧ reachable 2 (auto 2 7) ∧ reachable 2 (auto 2 8)) ∧
  (observe 2 (auto 2 7) 1 = observe 2 (auto 2 8) 1 ↔ same_view 1 (auto 2 7) (auto 2 8)).
Proof.
  assert (2 ≤ 2 ≤ 51) as HP by lia. assert (1 < 2) as Hv by lia.
  assert (reachable 2 (auto 2 7)) as Hr by exact (auto_reachable 2 7 HP).
  assert (reachable 2 (auto 2 8)) as Hr' by exact (auto_reachable 2 8 HP).
  split; [exact (conj HP (conj Hv (conj Hr Hr')))|exact (observation_exact 2 _ _ 1 HP Hv Hr Hr')].
Defined.

(** ** Selection of the first dealer *)

(** The first jack: dealing a valid deck face up, one card per seat starting
    at [first_recipient], the selected dealer is the seat that receives the first
    jack, and there always is one. *)
Theorem first_jack_selects P first deck : 2 ≤ P → deck ≡ₚ standard_deck →
  ∃ i c, deck !! i = Some c ∧ rank c = Jack ∧
    (∀ j d, j < i → deck !! j = Some d → rank d ≠ Jack) ∧
    first_jack_recipient P first deck = Some (advance P first i) ∧ advance P first i < P.
Proof.
  intros HP Hdeck. unfold first_jack_recipient.
  pose proof (position_spec (λ c, bool_decide (rank c = Jack)) deck) as Hpos.
  destruct (position _ deck) as [i|].
  - destruct Hpos as (c & Hc & Hj%bool_decide_eq_true & Hmin). exists i, c. split_and!; [done|done| | |].
    + intros j d Hji Hd. specialize (Hmin j d Hji Hd). by apply bool_decide_eq_false in Hmin.
    + cbn [mbind option_bind]. f_equal. unfold advance. by rewrite Nat.Div0.add_mod_idemp_r.
    + apply Nat.mod_upper_bound. lia.
  - specialize (Hpos (CardOf Spades Jack)). rewrite Hdeck in Hpos.
    specialize (Hpos (elem_of_standard_deck _)). by rewrite bool_decide_eq_true_2 in Hpos.
Qed.

Lemma first_jack_selects_witness : (2 ≤ 4 ∧ standard_deck ≡ₚ standard_deck) ∧
  ∃ i c, standard_deck !! i = Some c ∧ rank c = Jack ∧
    (∀ j d, j < i → standard_deck !! j = Some d → rank d ≠ Jack) ∧
    first_jack_recipient 4 1 standard_deck = Some (advance 4 1 i) ∧ advance 4 1 i < 4.
Proof.
  assert (2 ≤ 4) as HP by lia. pose proof (Permutation_refl standard_deck) as Hd.
  split; [exact (conj HP Hd)|exact (first_jack_selects 4 1 standard_deck HP Hd)].
Defined.

Section Draw.
Context (P : nat) (HP : 2 ≤ P ≤ 51) (candidates : list bool) (first : nat) (deck : list Card).
Context (Hcand : length candidates = P) (Hdeck : deck ≡ₚ standard_deck).

(** The candidates among the first [k] seats, starting at [first]. *)
Definition draws_before (k : nat) : nat :=
  length (filter (λ j, candidates !! advance P first j = Some true) (seq 0 k)).

Lemma draws_before_S k : draws_before (S k) =
  draws_before k + (if decide (candidates !! advance P first k = Some true) then 1 else 0).
Proof using Type.
  unfold draws_before. rewrite seq_S, filter_app, length_app. f_equal. rewrite filter_cons. simpl.
  by destruct (decide _).
Qed.

Lemma draws_before_le k : draws_before k ≤ k.
Proof using Type. unfold draws_before. etrans; [apply length_filter|]. by rewrite length_seq. Qed.

Definition drawn (j : nat) : option Card :=
  if decide (candidates !! advance P first j = Some true) then deck !! draws_before j else None.

Lemma draw_loop :
  ∃ dealt, foldM (draw_card P candidates first deck) (seq 0 P) (replicate P None, 0) =
      Ok (dealt, draws_before P) ∧ length dealt = P ∧
    ∀ j, j < P → dealt !! advance P first j = Some (drawn j).
Proof using All.
  destruct (foldM_invariant (draw_card P candidates first deck)
    (λ pre acc, acc.2 = draws_before (length pre) ∧ length acc.1 = P ∧
      ∀ j, j < P → acc.1 !! advance P first j = Some (if j <? length pre then drawn j else None))
    (seq 0 P) (replicate P None, 0)) as ([dealt cursor] & Hrun & Hcur & Hlen & Hd).
  - split_and!; [done|apply length_replicate|]. intros j Hj. cbn [fst length Nat.ltb Nat.leb].
    by rewrite lookup_replicate_2 by by apply advance_lt.
  - intros pre x post [dealt cursor] Heq (Hcur & Hlen & Hd); cbn [fst snd] in *.
    assert (x = length pre ∧ length pre < P) as [-> Hlt].
    { assert (seq 0 P !! length pre = Some x) as Hx by (rewrite Heq; by apply list_lookup_middle).
      apply lookup_seq in Hx. lia. }
    rewrite length_app, Nat.add_1_r. set (k := length pre) in *. unfold draw_card.
    destruct (lookup_lt_is_Some_2 candidates (advance P first k)) as [b Hb];
      [rewrite Hcand; by apply advance_lt|].
    assert (∀ j, j < P → j ≠ k → (if j <? S k then drawn j else None) = (if j <? k then drawn j else None)) as Hother.
    { intros j _ Hne. destruct (j <? S k) eqn:H1, (j <? k) eqn:H2; try done;
        rewrite ?Nat.ltb_lt, ?Nat.ltb_ge in *; lia. }
    assert ((if k <? S k then drawn k else None) = drawn k) as Hk by by rewrite (proj2 (Nat.ltb_lt k (S k))) by lia.
    rewrite Hb. cbn [expect mbind outcome_bind]. destruct b.
    + destruct (lookup_lt_is_Some_2 deck cursor) as [c Hc].
      { rewrite Hdeck, length_standard_deck, Hcur. pose proof (draws_before_le k). lia. }
      rewrite Hc. cbn [expect mbind outcome_bind]. unfold assign.
      assert (advance P first k < length dealt) as Hin by (rewrite Hlen; by apply advance_lt).
      rewrite (proj2 (Nat.ltb_lt _ _) Hin). cbn [mbind outcome_bind].
      eexists. split; [done|]. cbn [fst snd]. split_and!.
      * rewrite draws_before_S, decide_True by done. fold k in Hcur |- *. lia.
      * by rewrite length_insert.
      * intros j Hj. destruct (decide (j = k)) as [->|Hne].
        -- rewrite list_lookup_insert_eq by done. f_equal. rewrite Hk. unfold drawn.
           rewrite decide_True by done. by rewrite <-Hcur.
        -- rewrite list_lookup_insert_ne; [|intros Hi%advance_inj; [congruence|done..]].
           rewrite Hother by done. by apply Hd.
    + eexists. split; [done|]. cbn [fst snd]. split_and!; [|done|].
      * rewrite draws_before_S, decide_False by congruence. fold k in Hcur |- *. lia.
      * intros j Hj. destruct (decide (j = k)) as [->|Hne]; [|rewrite Hother by done; by apply Hd].
        rewrite Hd, Hk, Nat.ltb_irrefl by done. unfold drawn. by rewrite decide_False by congruence.
  - rewrite length_seq in *. cbn [fst snd] in *. subst cursor. exists dealt. split_and!; [done|done|].
    intros j Hj. rewrite Hd by done. by rewrite (proj2 (Nat.ltb_lt j P)).
Qed.
End Draw.

Lemma foldl_nat_max_spec (l : list nat) a : (∀ x, x ∈ a :: l → x ≤ foldl Nat.max a l) ∧ foldl Nat.max a l ∈ a :: l.
Proof.
  revert a; induction l as [|y l IH]; intros a; cbn [foldl].
  { split; [|left]. by intros x ->%list_elem_of_singleton. }
  destruct (IH (Nat.max a y)) as [Hle Hin]. pose proof (Hle (Nat.max a y) ltac:(left)) as Hm. split.
  - intros x [->|[->|Hx]%elem_of_cons]%elem_of_cons; [lia|lia|]. apply Hle. by right.
  - apply elem_of_cons in Hin as [Heq|Hin]; [|by do 2 right]. rewrite Heq.
    destruct (Nat.max_spec a y) as [[_ ->]|[_ ->]]; [right; left|left].
Qed.

Definition highest (ranks : list nat) : option nat :=
  match ranks with [] => None | r :: rest => Some (foldl Nat.max r rest) end.

Lemma highest_spec ranks : ranks ≠ [] →
  ∃ m, highest ranks = Some m ∧ m ∈ ranks ∧ ∀ x, x ∈ ranks → x ≤ m.
Proof.
  destruct ranks as [|r rest]; [done|]. intros _. eexists. split; [done|].
  destruct (foldl_nat_max_spec rest r). done.
Qed.

(** The indices of the [true] entries. *)
Lemma elem_of_true_indices (l : list bool) i :
  i ∈ omap id (imap (λ index (is_tied : bool), if is_tied then Some index else None) l) ↔ l !! i = Some true.
Proof.
  rewrite list_elem_of_omap. split.
  - intros (o & Ho & Hid). apply elem_of_lookup_imap in Ho as (j & b & -> & Hb). destruct b; [|done].
    unfold id in Hid. by simplify_eq.
  - intros Hi. exists (Some i). split; [|done]. apply elem_of_lookup_imap. by exists i, true.
Qed.

Definition true_indices (l : list bool) : list nat :=
  omap id (imap (λ index (is_tied : bool), if is_tied then Some index else None) l).

Lemma true_indices_cons b l : true_indices (b :: l) = (if b then [0] else []) ++ (S <$> true_indices l).
Proof.
  unfold true_indices. rewrite imap_cons.
  assert (∀ f : nat → bool → option nat, omap id (imap (λ i b, S <$> f i b) l) = S <$> omap id (imap f l)) as Hs.
  { intros f. revert f. induction l as [|c l IH]; intros f; [done|].
    rewrite !imap_cons, !omap_id_cons, fmap_app. f_equal; [by destruct (f 0 c)|]. apply (IH (f ∘ S)). }
  rewrite omap_id_cons, <-(Hs (λ i (t : bool), if t then Some i else None)). f_equal; [by destruct b|].
  f_equal. apply imap_ext. intros i c _. unfold compose. by destruct c.
Qed.

Lemma true_indices_NoDup l : NoDup (true_indices l).
Proof.
  induction l as [|b l IH]; [apply NoDup_nil_2|]. rewrite true_indices_cons.
  apply NoDup_app. split_and!; [destruct b; [apply NoDup_singleton|apply NoDup_nil_2]| |].
  - destruct b; [|set_solver]. intros x ->%list_elem_of_singleton (y & Hy & _)%list_elem_of_fmap. done.
  - apply NoDup_fmap_2; [apply _|done].
Qed.

(** The only [true] entry, when there is exactly one. *)
Lemma sole_true_index (l : list bool) s :
  match true_indices l with [x] => Some x | _ => None end = Some s ↔ ∀ i, l !! i = Some true ↔ i = s.
Proof.
  pose proof (true_indices_NoDup l) as Hnd.
  setoid_rewrite <-elem_of_true_indices. fold (true_indices l). destruct (true_indices l) as [|x [|y k]].
  - split; [done|]. intros H. specialize (proj2 (H s) eq_refl) as Hs. by apply not_elem_of_nil in Hs.
  - setoid_rewrite list_elem_of_singleton. split; [by intros [= ->]|]. intros H. f_equal. by apply H.
  - split; [done|]. intros H. pose proof (proj1 (H x) ltac:(left)). pose proof (proj1 (H y) ltac:(right; left)).
    apply NoDup_cons in Hnd as [Hx _]. destruct Hx. subst. left.
Qed.

(** The high-card draw: it fails exactly without candidates; otherwise each
    candidate, in seat order from [first_recipient], gets the next card of the
    deck and nobody else a card, the tied seats are those that hold a card of the
    highest rank drawn, at least one, and a dealer is selected exactly when one
    seat is tied. *)
Theorem high_card_draw_selects P candidates first deck : 2 ≤ P ≤ 51 → length candidates = P →
  deck ≡ₚ standard_deck →
  (true ∉ candidates → high_card_draw P candidates first deck = Err NoSelectionCandidates) ∧
  (true ∈ candidates → ∃ r, high_card_draw P candidates first deck = Ok r ∧ length (dealt r) = P ∧
    (∀ j, j < P → dealt r !! advance P first j = Some (drawn P candidates first deck j)) ∧
    (∀ s, tied r !! s = Some true ↔ ∃ c, dealt r !! s = Some (Some c) ∧
       ∀ s' c', dealt r !! s' = Some (Some c') → rank_index (rank c') ≤ rank_index (rank c)) ∧
    (∃ s, tied r !! s = Some true) ∧
    (∀ s, selected r = Some s ↔ ∀ s', tied r !! s' = Some true ↔ s' = s)).
Proof.
  intros HP Hcand Hdeck. unfold high_card_draw. split.
  { intros Hno. assert (existsb id candidates = false) as ->; [|done]. apply not_true_iff_false.
    rewrite existsb_exists. intros (b & Hb%list_elem_of_In & Ht). unfold id in Ht. by subst b. }
  intros Htrue. assert (existsb id candidates = true) as ->.
  { apply existsb_exists. exists true. split; [by apply list_elem_of_In|done]. }
  cbn [ensure mbind outcome_bind].
  destruct (draw_loop P HP candidates first deck Hcand Hdeck) as (dealt' & -> & Hlen & Hd).
  cbn [mbind outcome_bind]. eexists. split; [done|]. cbn [dealt tied selected].
  set (ranks := (λ c, rank_index (rank c)) <$> omap id dealt').
  fold (highest ranks). fold (true_indices ((λ slot : option Card,
    match slot with
    | Some c => bool_decide (Some (rank_index (rank c)) = highest ranks)
    | None => false
    end) <$> dealt')).
  assert (∀ s c, dealt' !! s = Some (Some c) → rank_index (rank c) ∈ ranks) as Hranks.
  { intros s c Hs. apply list_elem_of_fmap. exists c. split; [done|]. apply list_elem_of_omap.
    exists (Some c). split; [by eapply list_elem_of_lookup_2|done]. }
  destruct (highest_spec ranks) as (m & Hm & Hin & Hmax).
  { apply list_elem_of_lookup in Htrue as [q Hq].
    assert (q < P) as HqP by (rewrite <-Hcand; by eapply lookup_lt_Some).
    destruct (seats_cover P HP first q HqP) as (j & Hj & <-).
    specialize (Hd j Hj). unfold drawn in Hd. rewrite decide_True in Hd by done.
    destruct (lookup_lt_is_Some_2 deck (draws_before P candidates first j)) as [c Hc].
    { rewrite Hdeck, length_standard_deck. pose proof (draws_before_le P candidates first j). lia. }
    rewrite Hc in Hd. specialize (Hranks _ _ Hd). by intros Hn; rewrite Hn in Hranks; apply not_elem_of_nil in Hranks. }
  rewrite Hm.
  assert (∀ s c, dealt' !! s = Some (Some c) → rank_index (rank c) ≤ m) as Hle by eauto.
  assert (∃ s c, dealt' !! s = Some (Some c) ∧ rank_index (rank c) = m) as (sm & cm & Hsm & Hcm).
  { apply list_elem_of_fmap in Hin as (c & -> & (o & Ho & Hid)%list_elem_of_omap). unfold id in Hid. subst o.
    apply list_elem_of_lookup in Ho as [s Hs]. by exists s, c. }
  set (tied' := _ <$> dealt').
  assert (∀ s, tied' !! s = Some true ↔ ∃ c, dealt' !! s = Some (Some c) ∧ rank_index (rank c) = m) as Htied.
  { intros s. unfold tied'. rewrite list_lookup_fmap. destruct (dealt' !! s) as [[c|]|]; cbn; [|naive_solver..].
    split; [intros [= H%bool_decide_eq_true]; eexists; split; [done|congruence]|].
    intros (d & [= <-] & Hr). f_equal. apply bool_decide_eq_true. congruence. }
  split_and!; [done|done| | |apply sole_true_index].
  - intros s. rewrite Htied. split.
    + intros (c & Hc & Hr). exists c. split; [done|]. intros s' c' Hc'. rewrite Hr. by eapply Hle.
    + intros (c & Hc & Htop). exists c. split; [done|]. specialize (Htop _ _ Hsm). specialize (Hle _ _ Hc). lia.
  - exists sm. apply Htied. eauto.
Qed.

Lemma high_card_draw_selects_witness :
  let candidates := [true; false; true] in
  (2 ≤ 3 ≤ 51 ∧ length candidates = 3 ∧ standard_deck ≡ₚ standard_deck ∧ true ∈ candidates) ∧
  ∃ r, high_card_draw 3 candidates 1 standard_deck = Ok r ∧
    (∃ s, tied r !! s = Some true) ∧
    (∀ s, selected r = Some s ↔ ∀ s', tied r !! s' = Some true ↔ s' = s).
Proof.
  intros candidates. assert (2 ≤ 3 ≤ 51) as HP by lia. assert (length candidates = 3) as Hl by reflexivity.
  pose proof (Permutation_refl standard_deck) as Hd. assert (true ∈ candidates) as Ht by left.
  split; [exact (conj HP (conj Hl (conj Hd Ht)))|].
  destruct (proj2 (high_card_draw_selects 3 candidates 1 standard_deck HP Hl Hd) Ht)
    as (r & Hr & _ & _ & _ & Hs & Hsel).
  exists r. exact (conj Hr (conj Hs Hsel)).
Defined.

(** ** The course of a trick *)

(** The captured piles and the tricks won after an action. *)
Definition piles_of (g : GameState) : list FixedCards :=
  match g with SPlaying s => pl_captured s | SScoring s => sc_captured s | _ => [] end.

Definition won_of (g : GameState) : list Z :=
  match g with SPlaying s => pl_tricks_won s | SScoring s => sc_tricks_won s | _ => [] end.

(** An accepted card moves from the player's hand to the trick.  While the
    trick is not full the turn passes to the left; the last card of the trick
    moves all its cards to the pile of the winner, credits the trick to the winner
    alone and either gives the winner the lead or, with the hands empty, opens
    scoring. *)
Theorem play_moves_card P s p c t : 2 ≤ P ≤ 51 → reachable P (SPlaying s) →
  action_typed P (APlay p c) → transition P (SPlaying s) (APlay p c) = Ok t →
  let plays := Trick_iter (pl_trick s) ++ [PlayedCardOf p c] in
  (∃ hand hand', pl_hands s !! p = Some hand ∧ iter hand ≡ₚ c :: iter hand' ∧
    (length plays < P → ∃ s', next t = SPlaying s' ∧ pl_hands s' = <[p := hand']> (pl_hands s) ∧
       Trick_iter (pl_trick s') = plays ∧ pl_actor s' = left P p ∧ pl_leader s' = pl_leader s ∧
       pl_captured s' = pl_captured s ∧ pl_tricks_won s' = pl_tricks_won s) ∧
    (length plays = P → ∃ w n pile pile',
       trick_winner P (suit (pl_trump s)) plays = Ok (Some w) ∧
       pl_tricks_won s !! w = Some n ∧ won_of (next t) = <[w := (n + 1)%Z]> (pl_tricks_won s) ∧
       pl_captured s !! w = Some pile ∧ piles_of (next t) = <[w := pile']> (pl_captured s) ∧
       iter pile' ≡ₚ (card <$> plays) ++ iter pile ∧
       match next t with
       | SPlaying s' => pl_hands s' = <[p := hand']> (pl_hands s) ∧ pl_actor s' = w ∧ pl_leader s' = w ∧
                        Trick_iter (pl_trick s') = []
       | SScoring _ => ∀ f, f ∈ <[p := hand']> (pl_hands s) → iter f = []
       | _ => False
       end)).
Proof.
  intros HP Hr Ha Ht plays. apply reachable_inv in Hr; [|done].
  destruct (transition_cases P HP _ _ Hr Ha) as [((-> & hand & Hhand & Hmay) & _)|(_ & e & He & _)]; [|congruence].
  destruct Hr as (l & Hinv & Hl & Hactor). cbn [transition] in Ht.
  assert (plays = l ++ [PlayedCardOf (pl_actor s) c]) as Hplays.
  { unfold plays. by rewrite (pi_trick _ _ _ Hinv), Trick_iter_of. }
  destruct (play_card_accepts P HP s l hand c) as (hand' & Hperm & Hhl & Hwf & Heq); [done..|].
  cbv zeta in Heq. rewrite Heq in Ht. clear Heq. rewrite <-Hplays in Ht.
  exists hand, hand'. split; [done|]. split; [done|].
  assert (length plays = S (length l)) as Hlen by (rewrite Hplays, length_app; simpl; lia).
  destruct (S (length l) =? P) eqn:Hfull; [apply Nat.eqb_eq in Hfull|apply Nat.eqb_neq in Hfull].
  - split; [lia|]. intros _.
    set (s1 := play_next s hand' (trick_of P plays) (pl_actor s)) in *.
    assert (playing_inv P s1 plays) as Hinv1 by (subst s1; rewrite Hplays; by eapply play_next_inv).
    assert (length plays = P) as HlP by lia.
    destruct (complete_trick_spec P HP s1 plays Hinv1 HlP) as (w & n & captured & Hco & Hcases).
    destruct (lookup_lt_is_Some_2 (pl_captured s) w) as [pile Hpile].
    { rewrite (pi_captured_len _ _ _ Hinv). apply Hco. }
    destruct (pi_captured _ _ _ Hinv1 w pile n Hpile (co_won _ _ _ _ _ _ Hco)) as [Hpwf Hpl].
    pose proof (captured_room P HP s1 plays w n pile Hinv1 HlP (co_won _ _ _ _ _ _ Hco) Hpile) as Hroom.
    destruct (collect_trick P HP (pl_captured s) w pile plays Hpile Hpwf Hroom) as (pile' & Hfold & _ & Hp' & _).
    assert (captured = <[w := pile']> (pl_captured s)) as ->.
    { pose proof (co_loop _ _ _ _ _ _ Hco) as Hloop. cbn [s1 play_next pl_captured] in Hloop. congruence. }
    exists w, n, pile, pile'.
    assert (trick_winner P (suit (pl_trump s)) plays = Ok (Some w)) as Hwin.
    { pose proof (co_winner _ _ _ _ _ _ Hco) as Hw. unfold Trick_winner in Hw. rewrite Trick_iter_of, trick_len_of in Hw.
      unfold trick_winner. rewrite players_distinct_start.
      - rewrite (pi_players _ _ _ Hinv1), bool_decide_eq_true_2 by (apply seats_NoDup; lia).
        cbn [mbind outcome_bind]. exact (f_equal Ok Hw).
      - rewrite Forall_forall. intros q Hq. assert (player q ∈ player <$> plays) as Hin by (apply list_elem_of_fmap; eauto).
        rewrite (pi_players _ _ _ Hinv1) in Hin. apply list_elem_of_fmap in Hin as (i & -> & _). by apply advance_lt. }
    destruct Hcases as [(Hlast & _ & Hc)|(_ & _ & Hc)]; rewrite Hc in Ht; injection Ht as <-;
      cbn [next won_of piles_of trick_scored trick_next sc_tricks_won sc_captured pl_tricks_won pl_captured
           pl_actor pl_leader pl_trick pl_hands s1 play_next].
    + split_and!; try done; [apply Hco|]. intros f (q & Hq)%list_elem_of_lookup.
      destruct (full_trick_hands P HP s1 plays q f Hinv1 HlP Hq) as [Hfwf Hsz].
      apply nil_length_inv. rewrite <-(zone_len _ _ Hfwf). lia.
    + split_and!; try done; [apply Hco|]. by rewrite trick_of_nil, Trick_iter_of.
  - split; [intros _|lia]. injection Ht as <-. eexists. split; [done|].
    cbn [play_next pl_hands pl_trick pl_actor pl_leader pl_captured pl_tricks_won]. by rewrite Trick_iter_of.
Qed.

Lemma play_moves_card_witness : ∃ s t,
  let p := pl_actor s in
  let plays c := Trick_iter (pl_trick s) ++ [PlayedCardOf p c] in
  ∃ c, (2 ≤ 2 ≤ 51 ∧ reachable 2 (SPlaying s) ∧ action_typed 2 (APlay p c) ∧
        transition 2 (SPlaying s) (APlay p c) = Ok t) ∧
  (∃ w n, trick_winner 2 (suit (pl_trump s)) (plays c) = Ok (Some w) ∧
     pl_tricks_won s !! w = Some n ∧ won_of (next t) = <[w := (n + 1)%Z]> (pl_tricks_won s)).
Proof.
  assert (2 ≤ 2 ≤ 51) as HP by lia.
  destruct (auto 2 4) as [| |s| |] eqn:Hs; try (vm_compute in Hs; discriminate Hs).
  assert (reachable 2 (SPlaying s)) as Hr by (rewrite <-Hs; exact (auto_reachable 2 4 HP)).
  assert (∃ c t, action_typed 2 (APlay (pl_actor s) c) ∧ transition 2 (SPlaying s) (APlay (pl_actor s) c) = Ok t ∧
            length (Trick_iter (pl_trick s) ++ [PlayedCardOf (pl_actor s) c]) = 2) as (c & t & Ha & Ht & Hl).
  { vm_compute in Hs. injection Hs as <-. exists (CardOf Clubs Three). vm_compute.
    eexists. split; [lia|]. split; reflexivity. }
  exists s, t. cbv zeta. exists c. split; [exact (conj HP (conj Hr (conj Ha Ht)))|].
  destruct (play_moves_card 2 s (pl_actor s) c t HP Hr Ha Ht) as (hand & hand' & _ & _ & _ & Hfull).
  destruct (Hfull Hl) as (w & n & _ & _ & Hw & Hn & Hwon & _). exists w, n. exact (conj Hw (conj Hn Hwon)).
Defined.
