(* ===== verification/Environment.v ===== *)
(** * The policy-neutral environment boundary (crates/poche-environment)

    The [GameEnvironment] trait as a record of types and operations, the
    conventional-oracle implementation of it, and the replayable chance
    actions: [splitmix64] and the seeded shuffle.  [u64] values are [Z] in
    [0, 2^64); wrapping operations are written out. *)

From stdpp Require Import base strings numbers option list.
From S2P Require Import Prelude Oracle.

(** ** Boundary data *)

Record RuleOrigin : Type := RuleOriginOf { rule_id : string }.

Inductive TurnOwner (AgentId : Type) : Type :=
  | OwnerChance | OwnerAgent (agent : AgentId) | OwnerEnvironment | OwnerFinished.
Arguments OwnerChance {_}.
Arguments OwnerAgent {_} _.
Arguments OwnerEnvironment {_}.
Arguments OwnerFinished {_}.

Inductive TerminalStatus (Outcome : Type) : Type :=
  | Ongoing | StatusFinished (outcome : Outcome).
Arguments Ongoing {_}.
Arguments StatusFinished {_} _.

Inductive OraclePlayerAction : Type :=
  | PlayerBid (player : nat) (tricks : Z)
  | PlayerPlay (player : nat) (card : Card).

Inductive ChanceProvenance : Type :=
  | Explicit | Seeded (seed deal_ordinal : Z).

Record OracleChanceAction : Type := { deck : list Card; provenance : ChanceProvenance }.

Inductive EnvironmentAction (PlayerAction ChanceAction : Type) : Type :=
  | EnvPlayer (action : PlayerAction) | EnvChance (chance : ChanceAction) | EnvSettle.
Arguments EnvPlayer {_ _} _.
Arguments EnvChance {_ _} _.
Arguments EnvSettle {_ _}.

Record RoundScoreEvent (AgentId : Type) : Type := {
  agent : AgentId; event_score : RoundScore; score_origin : RuleOrigin; money_origin : RuleOrigin;
}.
Arguments agent {_} _.
Arguments event_score {_} _.
Arguments score_origin {_} _.
Arguments money_origin {_} _.

Record OracleGameOutcome : Type := {
  out_scores : list Z; out_pot_cents : Z; out_winners : list bool; out_pot_division : PotDivision;
}.

Record TransitionOutcome (State RoundScores GameOutcome : Type) : Type := {
  out_state : State; out_round_scores : option RoundScores; game_outcome : option GameOutcome;
}.
Arguments out_state {_ _ _} _.
Arguments out_round_scores {_ _ _} _.
Arguments game_outcome {_ _ _} _.

(** ** Chance *)

Definition splitmix64 (value : Z) : Z :=
  let value := wrapping_add 64 value 0x9e3779b97f4a7c15 in
  let value := wrapping_mul 64 (Z.lxor value (Z.shiftr value 30)) 0xbf58476d1ce4e5b9 in
  let value := wrapping_mul 64 (Z.lxor value (Z.shiftr value 27)) 0x94d049bb133111eb in
  Z.lxor value (Z.shiftr value 31).

(** [slice::swap] *)
Definition swap {E A} (l : list A) (i j : nat) : outcome E (list A) :=
  x ← expect (l !! i);
  y ← expect (l !! j);
  Ok (<[i := y]> (<[j := x]> l)).

(** One iteration of the shuffle. *)
Definition shuffle_step {E} (acc : Z * list Card) (upper : nat) : outcome E (Z * list Card) :=
  let '(state, cards) := acc in
  let state := splitmix64 state in
  bound ← expect (checked 64 (Z.of_nat (upper + 1)));
  index ← expect (checked 64 (state mod bound)%Z);
  cards ← swap cards upper (Z.to_nat index);
  Ok (state, cards).

Definition seed_state (seed deal_ordinal : Z) : Z :=
  Z.lxor (Z.lxor seed (wrapping_mul 64 deal_ordinal 0x9e3779b97f4a7c15)) 0xd1b54a32d192ed03.

Definition explicit (cards : list Card) : OracleChanceAction :=
  {| deck := cards; provenance := Explicit |}.

Definition seeded {E} (seed deal_ordinal : Z) : outcome E OracleChanceAction :=
  '(_, cards) ← foldM shuffle_step (reverse (seq 1 (DECK_SIZE - 1)))
                  (seed_state seed deal_ordinal, standard_deck);
  cards ← expect_ok (DeckOrder_new cards);
  Ok {| deck := cards; provenance := Seeded seed deal_ordinal |}.

(** ** The trait *)

Record GameEnvironment : Type := {
  State : Type;
  AgentId : Type;
  EnvObservation : Type;
  PlayerAction : Type;
  ChanceAction : Type;
  RoundScores : Type;
  GameOutcome : Type;
  Error : Type;
  env_turn : State → TurnOwner AgentId;
  env_observe : State → AgentId → outcome Error EnvObservation;
  legal_actions : State → outcome Error (list PlayerAction);
  env_transition : State → EnvironmentAction PlayerAction ChanceAction →
    outcome Error (TransitionOutcome State RoundScores GameOutcome);
  terminal_status : State → TerminalStatus GameOutcome;
}.

(** ** The conventional oracle behind the trait *)

Definition outcome_from_finished (finished : Finished) : option OracleGameOutcome :=
  division ← pot_division finished;
  Some {| out_scores := fin_scores finished; out_pot_cents := fin_pot_cents finished;
          out_winners := fin_winners finished; out_pot_division := division |}.

Definition outcome_from_state (g : GameState) : option OracleGameOutcome :=
  match g with SFinished finished => outcome_from_finished finished | _ => None end.

Definition oracle_turn (g : GameState) : TurnOwner nat :=
  match turn g with
  | TurnChance => OwnerChance
  | TurnPlayer player => OwnerAgent player
  | TurnEnvironment => OwnerEnvironment
  | TurnFinished => OwnerFinished
  end.

Definition player_action (a : Action) : option OraclePlayerAction :=
  match a with
  | ABid player tricks => Some (PlayerBid player tricks)
  | APlay player card => Some (PlayerPlay player card)
  | ADeal _ | ASettleRound => None
  end.

Definition oracle_legal_actions (g : GameState) : result (list OraclePlayerAction) :=
  actions ← legal_player_actions g; Ok (omap (M := list) player_action actions).

Definition oracle_action (a : EnvironmentAction OraclePlayerAction OracleChanceAction) : Action :=
  match a with
  | EnvPlayer (PlayerBid player tricks) => ABid player tricks
  | EnvPlayer (PlayerPlay player card) => APlay player card
  | EnvChance chance => ADeal (deck chance)
  | EnvSettle => ASettleRound
  end.

Definition score_rule (o : BidOutcome) : string :=
  match o with
  | Missed => "R-SCORE-002" | Exact => "R-SCORE-003" | AllTricks => "R-SCORE-004"
  end.

Definition money_rule (payment : Z) : string :=
  if (payment =? 0)%Z then "R-MONEY-002" else "R-MONEY-001".

Section OracleEnvironment.
Context (PLAYERS : nat).

(** The closure that builds one round-score event. *)
Definition score_event (scores : list RoundScore) (index : nat) : result (RoundScoreEvent nat) :=
  score ← expect (scores !! index);
  seat ← expect_ok (Seat_new PLAYERS index);
  Ok {| agent := seat; event_score := score;
        score_origin := RuleOriginOf (score_rule (score_outcome score));
        money_origin := RuleOriginOf (money_rule (payment_cents score)) |}.

Definition oracle_transition (g : GameState)
    (action : EnvironmentAction OraclePlayerAction OracleChanceAction)
    : result (TransitionOutcome GameState (list (RoundScoreEvent nat)) OracleGameOutcome) :=
  t ← transition PLAYERS g (oracle_action action);
  round_scores ← match round_scores t with
                 | Some scores => events ← mapM (score_event scores) (seq 0 PLAYERS); Ok (Some events)
                 | None => Ok None
                 end;
  Ok {| out_state := next t; out_round_scores := round_scores;
        game_outcome := outcome_from_state (next t) |}.

Definition oracle_terminal_status (g : GameState) : TerminalStatus OracleGameOutcome :=
  match outcome_from_state g with Some outcome => StatusFinished outcome | None => Ongoing end.

Definition initial (first_dealer : nat) : result GameState := Game_new PLAYERS first_dealer.

Definition OracleEnvironment : GameEnvironment := {|
  State := GameState;
  AgentId := nat;
  EnvObservation := Observation;
  PlayerAction := OraclePlayerAction;
  ChanceAction := OracleChanceAction;
  RoundScores := list (RoundScoreEvent nat);
  GameOutcome := OracleGameOutcome;
  Error := RuleViolation;
  env_turn := oracle_turn;
  env_observe := observe PLAYERS;
  legal_actions := oracle_legal_actions;
  env_transition := oracle_transition;
  terminal_status := oracle_terminal_status;
|}.

End OracleEnvironment.
