(* ===== verification/EnvironmentTheorems.v ===== *)
(** * Properties of the environment boundary

    The laws a [GameEnvironment] owes its clients, as a class; a generic client,
    the rollout, proved to finish from the laws alone; the instance that
    discharges them for the conventional oracle; and the validity of seeded
    chance. *)

From stdpp Require Import base strings numbers option sets list.
From S2P Require Import Prelude Oracle OracleLemmas OracleInvariant OracleTheorems Environment.

(** ** Seeded chance *)

Lemma in_width_lxor w a b : (0 ≤ w)%Z → in_width w a → in_width w b → in_width w (Z.lxor a b).
Proof.
  intros Hw [Ha Ha'] [Hb Hb']. unfold in_width.
  assert (0 ≤ Z.lxor a b)%Z as H0 by (apply Z.lxor_nonneg; lia). split; [done|].
  destruct (decide (Z.lxor a b = 0)%Z) as [->|Hne]; [lia|].
  apply Z.log2_lt_pow2; [lia|]. pose proof (Z.log2_lxor a b Ha Hb) as Hl.
  destruct (decide (w = 0)%Z) as [->|Hw0].
  { simpl in *. assert (a = 0 ∧ b = 0)%Z as [-> ->] by lia. done. }
  assert (∀ x, 0 ≤ x < 2 ^ w → Z.log2 x < w)%Z as Hlog.
  { intros x [Hx0 Hx]. destruct (decide (x = 0)%Z) as [->|]; [simpl; lia|]. apply Z.log2_lt_pow2; lia. }
  pose proof (Hlog a ltac:(lia)). pose proof (Hlog b ltac:(lia)). lia.
Qed.

Lemma in_width_shiftr w a n : (0 ≤ n)%Z → in_width w a → in_width w (Z.shiftr a n).
Proof.
  intros Hn [Ha Hb]. unfold in_width. rewrite Z.shiftr_div_pow2 by done.
  assert (0 < 2 ^ n)%Z by (apply Z.pow_pos_nonneg; lia). split; [apply Z.div_pos; lia|].
  apply Z.div_lt_upper_bound; nia.
Qed.

#[export] Hint Resolve in_width_lxor in_width_shiftr : poche.

Lemma splitmix64_width v : in_width 64 (splitmix64 v).
Proof.
  unfold splitmix64. apply in_width_lxor; [lia|apply wrapping_mul_in_width; lia|].
  apply in_width_shiftr; [lia|apply wrapping_mul_in_width; lia].
Qed.

Lemma tally_insert (l : list Card) i x y c : l !! i = Some x →
  tally (<[i := y]> l) c + (if decide (x = c) then 1 else 0) =
  tally l c + (if decide (y = c) then 1 else 0).
Proof.
  revert i; induction l as [|z l IH]; intros [|i] Hi; try done; cbn [lookup list_lookup] in Hi.
  - simplify_eq. change (<[0 := y]> (x :: l)) with (y :: l). rewrite !tally_cons. lia.
  - specialize (IH i Hi). change (<[S i := y]> (z :: l)) with (z :: <[i := y]> l). rewrite !tally_cons. lia.
Qed.

Lemma swap_perm {E} (l : list Card) i j : i < length l → j < length l →
  ∃ l', swap (E := E) l i j = Ok l' ∧ l' ≡ₚ l.
Proof.
  intros Hi Hj. destruct (lookup_lt_is_Some_2 l i Hi) as [x Hx], (lookup_lt_is_Some_2 l j Hj) as [y Hy].
  unfold swap. rewrite Hx, Hy. cbn [expect mbind outcome_bind]. eexists. split; [done|].
  apply tally_perm. intros c. pose proof (tally_insert l j y x c Hy) as H1.
  assert (<[j:=x]> l !! i = Some x) as Hx'.
  { destruct (decide (i = j)) as [->|]; [by rewrite list_lookup_insert_eq|by rewrite list_lookup_insert_ne]. }
  pose proof (tally_insert (<[j:=x]> l) i x y c Hx') as H2. lia.
Qed.

Lemma shuffle_step_perm {E} st cards upper : cards ≡ₚ standard_deck → upper < 52 →
  ∃ st' cards', shuffle_step (E := E) (st, cards) upper = Ok (st', cards') ∧ cards' ≡ₚ standard_deck ∧
    in_width 64 st'.
Proof.
  intros Hp Hu. unfold shuffle_step. pose proof (splitmix64_width st) as Hw. set (s := splitmix64 st) in *.
  assert (checked 64 (Z.of_nat (upper + 1)) = Some (Z.of_nat (upper + 1))) as ->.
  { apply checked_Some. unfold in_width. lia. }
  cbn [expect mbind outcome_bind].
  assert (0 ≤ s mod Z.of_nat (upper + 1) < Z.of_nat (upper + 1))%Z as Hm by (apply Z.mod_pos_bound; lia).
  assert (checked 64 (s mod Z.of_nat (upper + 1)) = Some (s mod Z.of_nat (upper + 1)))%Z as ->.
  { apply checked_Some. unfold in_width. lia. }
  cbn [expect mbind outcome_bind].
  assert (length cards = 52) as Hl by by rewrite Hp.
  destruct (swap_perm (E := E) cards upper (Z.to_nat (s mod Z.of_nat (upper + 1)))) as (cards' & -> & Hp'); [lia|lia|].
  cbn [mbind outcome_bind]. eexists _, _. split; [done|]. split; [by rewrite Hp'|done].
Qed.

Lemma seeded_permutes seed deal_ordinal :
  ∃ a, seeded (E := RuleViolation) seed deal_ordinal = Ok a ∧ deck a ≡ₚ standard_deck ∧
    provenance a = Seeded seed deal_ordinal ∧ ∀ d, DeckOrder_new (deck a) = Ok d ↔ d = deck a.
Proof.
  unfold seeded.
  destruct (foldM_invariant (shuffle_step (E := RuleViolation))
    (λ _ acc, acc.2 ≡ₚ standard_deck) (reverse (seq 1 (DECK_SIZE - 1)))
    (seed_state seed deal_ordinal, standard_deck)) as ([st cards] & -> & Hp); [done| |].
  - intros pre upper post [st cards] Heq Hp. cbn [snd] in Hp.
    assert (upper ∈ seq 1 (DECK_SIZE - 1)) as Hin.
    { apply (elem_of_reverse _ (seq _ _)). rewrite Heq. apply elem_of_app. right. left. }
    apply elem_of_seq in Hin. unfold DECK_SIZE in Hin.
    destruct (shuffle_step_perm (E := RuleViolation) st cards upper Hp) as (st' & cards' & -> & Hp' & _); [lia|].
    by eexists.
  - cbn [snd mbind outcome_bind] in *.
    rewrite (proj2 (DeckOrder_new_Ok cards cards)) by done. cbn [expect_ok mbind outcome_bind].
    eexists. split; [done|]. cbn [deck provenance]. split; [done|]. split; [done|].
    intros d. rewrite DeckOrder_new_Ok. naive_solver.
Qed.

(** The error type is immaterial: seeding never fails. *)
Lemma seeded_any_error {E} seed deal_ordinal a : seeded (E := RuleViolation) seed deal_ordinal = Ok a →
  seeded (E := E) seed deal_ordinal = Ok a.
Proof.
  unfold seeded. intros H. apply bind_Ok in H as ([st cards] & Hf & H).
  assert (foldM (shuffle_step (E := E)) (reverse (seq 1 (DECK_SIZE - 1))) (seed_state seed deal_ordinal, standard_deck)
          = Ok (st, cards)) as ->.
  { revert Hf. generalize (reverse (seq 1 (DECK_SIZE - 1))) (seed_state seed deal_ordinal, standard_deck).
    intros l. induction l as [|u l IH]; intros acc; cbn [foldM]; [by intros [= ->]|].
    intros Hf. apply bind_Ok in Hf as (acc' & Hs & Hf). specialize (IH acc' Hf). clear Hf.
    enough (shuffle_step (E := E) acc u = Ok acc') as Hstep by (rewrite Hstep; exact IH). clear IH.
    unfold shuffle_step in *. destruct acc as [s cs]. inv_ok.
    repeat match goal with H : _ = Some _ |- _ => rewrite H end. cbn [expect mbind outcome_bind].
    unfold swap in *. inv_ok. repeat match goal with H : _ = Some _ |- _ => rewrite H end. cbn [expect mbind outcome_bind]. by rewrite H4. }
  cbn [mbind outcome_bind]. destruct (DeckOrder_new cards); cbn in *; congruence.
Qed.

(** Seeded chance is total and always a valid deal: for every seed and deal
    ordinal the shuffle stays in bounds, no conversion fails, and the result is a
    permutation of the standard deck with the seed and ordinal recorded. *)
Theorem seeded_chance_valid seed deal_ordinal :
  ∃ a, seeded (E := RuleViolation) seed deal_ordinal = Ok a ∧ deck a ≡ₚ standard_deck ∧
    provenance a = Seeded seed deal_ordinal ∧ ∀ d, DeckOrder_new (deck a) = Ok d ↔ d = deck a.
Proof. apply seeded_permutes. Qed.

(** ** The laws of an environment *)

Definition owner_matches {A PA CA} (o : TurnOwner A) (a : EnvironmentAction PA CA) : Prop :=
  match o, a with
  | OwnerChance, EnvChance _ | OwnerAgent _, EnvPlayer _ | OwnerEnvironment, EnvSettle => True
  | _, _ => False
  end.

Class LawfulEnvironment (E : GameEnvironment) : Type := {
  env_valid : State E → Prop;
  (** the values the action types can hold *)
  env_typed : EnvironmentAction (PlayerAction E) (ChanceAction E) → Prop;
  (** the transitions left *)
  env_measure : State E → nat;
  law_step s a t : env_valid s → env_typed a → env_transition E s a = Ok t →
    env_valid (out_state t) ∧ owner_matches (env_turn E s) a ∧
    env_measure s = S (env_measure (out_state t)) ∧
    terminal_status E (out_state t) =
      match game_outcome t with Some o => StatusFinished o | None => Ongoing end;
  law_no_panic s a : env_valid s → env_typed a → env_transition E s a ≠ Panic;
  law_chance s c : env_valid s → env_typed (EnvChance c) → env_turn E s = OwnerChance →
    ∃ t, env_transition E s (EnvChance c) = Ok t;
  law_settle s : env_valid s → env_turn E s = OwnerEnvironment → ∃ t, env_transition E s EnvSettle = Ok t;
  law_settle_typed : env_typed EnvSettle;
  law_legal s : env_valid s → ∃ acts, legal_actions E s = Ok acts ∧
    (∀ a, a ∈ acts ↔ env_typed (EnvPlayer a) ∧ ∃ t, env_transition E s (EnvPlayer a) = Ok t) ∧
    (∀ p, env_turn E s = OwnerAgent p → acts ≠ []);
  law_finished s : env_valid s →
    (env_measure s = 0 ↔ env_turn E s = OwnerFinished) ∧
    (env_turn E s = OwnerFinished ↔ ∃ o, terminal_status E s = StatusFinished o);
}.

(** ** A client of the interface

    Plays an environment to its end: [pick] chooses an index into the legal
    actions, [chance] supplies the chance actions. *)
Section Rollout.
Context (E : GameEnvironment).
Context (pick : State E → list (PlayerAction E) → nat) (chance : State E → ChanceAction E).

Fixpoint rollout (fuel : nat) (s : State E) : outcome (Error E) (State E) :=
  match fuel with
  | O => Ok s
  | S fuel =>
      match env_turn E s with
      | OwnerFinished => Ok s
      | OwnerChance => t ← env_transition E s (EnvChance (chance s)); rollout fuel (out_state t)
      | OwnerEnvironment => t ← env_transition E s EnvSettle; rollout fuel (out_state t)
      | OwnerAgent _ =>
          acts ← legal_actions E s;
          a ← expect (acts !! (pick s acts mod length acts));
          t ← env_transition E s (EnvPlayer a); rollout fuel (out_state t)
      end
  end.

Lemma rollout_finishes `{!LawfulEnvironment E} fuel s : env_valid s →
  (∀ s, env_typed (EnvChance (chance s))) → env_measure s ≤ fuel →
  ∃ s', rollout fuel s = Ok s' ∧ env_valid s' ∧ env_turn E s' = OwnerFinished ∧
    ∃ o, terminal_status E s' = StatusFinished o.
Proof.
  intros Hs Hc. revert s Hs; induction fuel as [|fuel IH]; intros s Hs Hm; cbn [rollout].
  { destruct (law_finished s Hs) as [H1 H2]. exists s. split_and!; [done|done|apply H1; lia|].
    apply H2, H1. lia. }
  assert (∀ a t, env_typed a → env_transition E s a = Ok t → ∃ s', rollout fuel (out_state t) = Ok s' ∧
    env_valid s' ∧ env_turn E s' = OwnerFinished ∧ ∃ o, terminal_status E s' = StatusFinished o) as Hstep.
  { intros a t Ha Ht. destruct (law_step s a t Hs Ha Ht) as (Hv & _ & Hdec & _). apply IH; [done|lia]. }
  destruct (env_turn E s) as [|p| |] eqn:Hturn.
  - destruct (law_chance s (chance s)) as [t Ht]; [done|apply Hc|done|]. rewrite Ht.
    cbn [mbind outcome_bind]. by eapply Hstep.
  - destruct (law_legal s Hs) as (acts & -> & Hacts & Hne). cbn [mbind outcome_bind].
    assert (length acts ≠ 0) as Hlen by (rewrite length_zero_iff_nil; by eapply Hne).
    destruct (lookup_lt_is_Some_2 acts (pick s acts mod length acts)) as [a Ha]; [by apply Nat.mod_upper_bound|].
    rewrite Ha. cbn [expect mbind outcome_bind].
    destruct (proj1 (Hacts a) (list_elem_of_lookup_2 _ _ _ Ha)) as (Hty & t & Ht). rewrite Ht.
    cbn [mbind outcome_bind]. by eapply Hstep.
  - destruct (law_settle s Hs Hturn) as [t Ht]. rewrite Ht. cbn [mbind outcome_bind].
    eapply Hstep; [apply law_settle_typed|done].
  - exists s. split_and!; [done..|]. by apply (law_finished s Hs).
Qed.
End Rollout.

(** ** The conventional oracle is lawful *)

Section Oracle.
Context (P : nat) (HP : 2 ≤ P ≤ 51).

Definition boundary_typed (a : EnvironmentAction OraclePlayerAction OracleChanceAction) : Prop :=
  action_typed P (oracle_action a).

Definition event_of (scores : list RoundScore) (i : nat) (r : RoundScore) : RoundScoreEvent nat :=
  {| agent := i; event_score := r; score_origin := RuleOriginOf (score_rule (score_outcome r));
     money_origin := RuleOriginOf (money_rule (payment_cents r)) |}.

Lemma Seat_new_Ok i : i < P → Seat_new P i = Ok i.
Proof using HP.
  intros Hi. unfold Seat_new. rewrite (validate_player_count_Ok P HP). cbn [mbind outcome_bind].
  by rewrite (proj2 (Nat.ltb_lt _ _) Hi).
Qed.

Lemma score_events_Ok scores : length scores = P →
  mapM (score_event P scores) (seq 0 P) = Ok (imap (event_of scores) scores).
Proof using HP.
  intros Hlen.
  enough (∀ pre post, scores = pre ++ post →
    mapM (score_event P scores) (seq (length pre) (length post)) =
      Ok (imap (λ i, event_of scores (length pre + i)) post)) as H.
  { specialize (H [] scores eq_refl). cbn [length] in H. rewrite Hlen in H. exact H. }
  intros pre post; revert pre; induction post as [|r post IH]; intros pre Heq; [done|].
  cbn [length seq mapM].
  assert (score_event P scores (length pre) = Ok (event_of scores (length pre) r)) as ->.
  { unfold score_event. rewrite Heq at 1. rewrite list_lookup_middle by done. cbn [expect mbind outcome_bind].
    rewrite Seat_new_Ok; [done|]. rewrite <-Hlen, Heq, length_app. simpl. lia. }
  cbn [mbind outcome_bind]. specialize (IH (pre ++ [r])). rewrite length_app, Nat.add_1_r in IH.
  rewrite IH by by rewrite <-(assoc_L (++)). cbn [mbind outcome_bind mret outcome_ret].
  rewrite imap_cons, Nat.add_0_r. do 2 f_equal. apply imap_ext. intros i x _. unfold compose. f_equal. lia.
Qed.

(** The round scores an accepted action reports have one entry per seat. *)
Lemma transition_scores g a t : game_inv P g → action_typed P a → transition P g a = Ok t →
  match round_scores t with Some rs => length rs = P ∧ phase g = TagScoring | None => phase g ≠ TagScoring end.
Proof using HP.
  intros Hg Ha Ht. destruct (transition_cases P HP g a Hg Ha) as [[Hadm _]|(_ & e & He & _)]; [|congruence].
  destruct g as [l|s|s|s|f], a as [deck|p b|p c|]; try done; cbn [transition] in Ht.
  - destruct (deal_spec P HP l deck Hg Ha) as (s & Hd & _). rewrite Hd in Ht. by injection Ht as <-.
  - destruct Hadm as [-> Hb], Ha as [_ Hw]. unfold in_width in Hw.
    destruct (place_bid_spec P HP s b Hg) as [[_ Heq]|(_ & bids & _ & Heq)]; [lia|..];
      rewrite Heq in Ht; by injection Ht as <-.
  - destruct Hadm as [-> (hand & Hhand & Hmay)]. destruct Hg as (l & Hinv & Hl & Hactor).
    destruct (play_card_spec P HP s l hand c) as (t' & Heq & _ & Hn & _); [done..|].
    rewrite Heq in Ht. injection Ht as <-. by rewrite Hn.
  - destruct (settle_round_next P s t HP Hg Ht) as (Hrs & _). rewrite Hrs.
    split; [by apply scoring_scores_bounds|done].
Qed.

(** The boundary transition is the oracle's, with its result re-expressed. *)
Lemma oracle_transition_spec g a : game_inv P g → boundary_typed a →
  oracle_transition P g a =
    match transition P g (oracle_action a) with
    | Ok t => Ok {| out_state := next t;
                    out_round_scores := (λ rs, imap (event_of rs) rs) <$> round_scores t;
                    game_outcome := outcome_from_state (next t) |}
    | Err e => Err e
    | Panic => Panic
    end.
Proof using HP.
  intros Hg Ha. unfold oracle_transition. destruct (transition P g (oracle_action a)) as [t|e|] eqn:Ht; [|done..].
  cbn [mbind outcome_bind]. pose proof (transition_scores g _ t Hg Ha Ht) as Hs.
  destruct (round_scores t) as [rs|]; [|done]. destruct Hs as [Hlen _]. by rewrite (score_events_Ok rs Hlen).
Qed.

Lemma outcome_finished f : finished_inv P f → ∃ o, outcome_from_state (SFinished f) = Some o ∧
  out_scores o = fin_scores f ∧ out_pot_cents o = fin_pot_cents f ∧ out_winners o = fin_winners f.
Proof using HP.
  intros Hf. cbn [outcome_from_state]. unfold outcome_from_finished.
  destruct (pot_division_spec P f HP Hf) as (d & -> & _). by eexists.
Qed.

Lemma outcome_iff_finished g : game_inv P g → is_Some (outcome_from_state g) ↔ phase g = TagFinished.
Proof using HP.
  intros Hg. destruct g as [l|s|s|s|f]; [by split; [intros [? ?]|]..|].
  destruct (outcome_finished f Hg) as (o & -> & _). by split; [|eexists].
Qed.

Lemma owner_of_phase g : oracle_turn g = OwnerFinished ↔ phase g = TagFinished.
Proof using Type. by destruct g. Qed.

(** The oracle action a player action stands for. *)
Lemma elem_of_player_actions (acts : list Action) a :
  a ∈ omap player_action acts ↔ oracle_action (EnvPlayer a) ∈ acts.
Proof using Type.
  rewrite list_elem_of_omap. split.
  - intros (x & Hx & Ha). destruct x; cbn in Ha; simplify_eq; exact Hx.
  - intros Ha. eexists. split; [exact Ha|]. by destruct a.
Qed.

Lemma boundary_legal g : game_inv P g → ∃ acts, oracle_legal_actions g = Ok acts ∧
  (∀ a, a ∈ acts ↔ boundary_typed (EnvPlayer a) ∧ ∃ t, oracle_transition P g (EnvPlayer a) = Ok t) ∧
  (∀ p, oracle_turn g = OwnerAgent p → acts ≠ []).
Proof using HP.
  intros Hg. destruct (legal_actions_spec P g HP Hg) as (acts & Hacts & Hspec & Hne).
  exists (omap player_action acts). unfold oracle_legal_actions. rewrite Hacts. split; [done|].
  assert (∀ a, a ∈ omap player_action acts ↔ oracle_action (EnvPlayer a) ∈ acts) as Hin.
  { intros a. apply elem_of_player_actions. }
  split.
  - intros a. rewrite Hin, Hspec. unfold boundary_typed. split.
    + intros (_ & Ha & Hok). split; [done|]. rewrite (oracle_transition_spec g _ Hg Ha).
      destruct (transition _ _ _); [by eexists|done..].
    + intros (Ha & t & Ht). split; [destruct a; by eexists|]. split; [done|].
      rewrite (oracle_transition_spec g _ Hg Ha) in Ht. by destruct (transition _ _ _).
  - intros p Hp. destruct (Hne p) as [Hnil Hact]; [destruct g; cbn in *; by simplify_eq|].
    destruct acts as [|x acts]; [done|]. specialize (Hact x ltac:(left)). by destruct x.
Qed.

#[export] Instance oracle_lawful : LawfulEnvironment (OracleEnvironment P).
Proof using HP.
  refine {| env_valid := game_inv P : State (OracleEnvironment P) → Prop;
            env_typed := boundary_typed : EnvironmentAction (PlayerAction (OracleEnvironment P))
                           (ChanceAction (OracleEnvironment P)) → Prop;
            env_measure := steps_left P : State (OracleEnvironment P) → nat |};
    cbn [OracleEnvironment State PlayerAction ChanceAction RoundScores GameOutcome Error AgentId env_turn
         env_transition legal_actions terminal_status].
  - intros g a t Hg Ha Ht. rewrite (oracle_transition_spec g a Hg Ha) in Ht.
    destruct (transition P g (oracle_action a)) as [t0|e|] eqn:Ht0; [|done..]. injection Ht as <-. cbn [out_state game_outcome].
    assert (step P g (oracle_action a) (next t0)) as Hstep by by econstructor.
    split_and!; [by eapply step_inv| |by apply (steps_left_step P HP g (oracle_action a))|done].
    destruct g, a as [[]| |]; done.
  - intros g a Hg Ha. rewrite (oracle_transition_spec g a Hg Ha).
    destruct (transition_cases P HP g _ Hg Ha) as [(_ & t & -> & _)|(_ & e & -> & _)]; done.
  - intros g c Hg Hc Ht. rewrite (oracle_transition_spec g _ Hg Hc). destruct g as [l|s|s|s|f]; try done.
    destruct (deal_spec P HP l (deck c) Hg Hc) as (s & Hd & _). cbn [transition oracle_action]. rewrite Hd. by eexists.
  - intros g Hg Ht. rewrite (oracle_transition_spec g EnvSettle Hg I). destruct g as [l|s|s|s|f]; try done.
    cbn [transition oracle_action].
    destruct (settle_round_spec P HP s Hg) as [(_ & f & _ & _ & _ & ->)|(_ & _ & ->)]; by eexists.
  - exact I.
  - exact boundary_legal.
  - intros g Hg. rewrite (steps_left_0 P HP g Hg), owner_of_phase. split; [destruct g; naive_solver|].
    rewrite <-(outcome_iff_finished g Hg). unfold oracle_terminal_status.
    destruct (outcome_from_state g) as [o|]; split; naive_solver.
Defined.
End Oracle.

(** ** What the boundary reports *)

(** Through the boundary, a reachable game accepts an action exactly when the
    oracle accepts the corresponding one, with the same successor or the same
    error, and only from the owner of the turn; a round's score events are present
    exactly when a round was settled, one per seat with the rule ids of its
    outcome and payment; a game outcome is present exactly when the successor is
    finished, and it carries the final scores, pot and winners. *)
Theorem boundary_refines_oracle P g a : 2 ≤ P ≤ 51 → reachable P g → boundary_typed P a →
  match oracle_transition P g a, transition P g (oracle_action a) with
  | Ok out, Ok t =>
      out_state out = next t ∧ owner_matches (oracle_turn g) a ∧
      (is_Some (out_round_scores out) ↔ a = EnvSettle) ∧
      (∀ events, out_round_scores out = Some events → length events = P ∧
         ∃ rs, round_scores t = Some rs ∧ ∀ i e, events !! i = Some e →
           agent e = i ∧ rs !! i = Some (event_score e) ∧
           rule_id (score_origin e) = score_rule (score_outcome (event_score e)) ∧
           (rule_id (money_origin e) = "R-MONEY-001"%string ↔ payment_cents (event_score e) ≠ 0%Z)) ∧
      (is_Some (game_outcome out) ↔ oracle_turn (out_state out) = OwnerFinished) ∧
      (∀ o, game_outcome out = Some o → oracle_terminal_status (out_state out) = StatusFinished o ∧
         ∃ f, out_state out = SFinished f ∧ out_scores o = fin_scores f ∧
           out_pot_cents o = fin_pot_cents f ∧ out_winners o = fin_winners f)
  | Err e, Err e' => e = e'
  | _, _ => False
  end.
Proof.
  intros HP Hr Ha. apply reachable_inv in Hr; [|done]. rewrite (oracle_transition_spec P HP g a Hr Ha).
  destruct (transition_cases P HP g (oracle_action a) Hr Ha) as [(Had & t & Ht & Hinv)|(_ & e & -> & _)]; [|done].
  rewrite Ht. cbn [out_state out_round_scores game_outcome]. pose proof (transition_scores P HP g _ t Hr Ha Ht) as Hs.
  split_and!; [done| | | |by rewrite (outcome_iff_finished P HP), owner_of_phase|].
  - destruct g, a as [[]| |]; done.
  - rewrite fmap_is_Some. destruct (round_scores t) as [rs|].
    + destruct Hs as [_ Hph]. destruct g; try done. destruct a as [[]| |]; done.
    + split; [by intros [? ?]|]. intros ->. by destruct g.
  - intros events. destruct (round_scores t) as [rs|]; [|done]. cbn. intros [= <-].
    destruct Hs as [Hlen _]. split; [by rewrite length_imap|]. exists rs. split; [done|].
    intros i e He. apply list_lookup_imap_Some in He as (r & Hr' & ->). cbn [agent event_score score_origin money_origin rule_id event_of].
    split_and!; [done|done|done|]. unfold money_rule. destruct (payment_cents r =? 0)%Z eqn:Hp; [split; [done|lia]|split; [lia|done]].
  - intros o Ho. unfold oracle_terminal_status. rewrite Ho. split; [done|].
    destruct (next t) as [| | | |f]; try done. exists f.
    destruct (outcome_finished P HP f Hinv) as (o' & Ho' & H). split; [done|]. assert (o = o') as -> by congruence. done.
Qed.

Lemma boundary_refines_oracle_witness : ∃ out,
  (2 ≤ 2 ≤ 51 ∧ reachable 2 (auto 2 5) ∧ boundary_typed 2 EnvSettle ∧
   oracle_transition 2 (auto 2 5) EnvSettle = Ok out) ∧
  is_Some (out_round_scores out) ∧ (is_Some (game_outcome out) ↔ oracle_turn (out_state out) = OwnerFinished).
Proof.
  assert (2 ≤ 2 ≤ 51) as HP by lia. assert (reachable 2 (auto 2 5)) as Hr by exact (auto_reachable 2 5 HP).
  assert (boundary_typed 2 EnvSettle) as Ha by exact I.
  assert (∃ out t, oracle_transition 2 (auto 2 5) EnvSettle = Ok out ∧
    transition 2 (auto 2 5) (oracle_action EnvSettle) = Ok t) as (out & t & Ho & Ht).
  { vm_compute. by do 2 eexists. }
  pose proof (boundary_refines_oracle 2 (auto 2 5) EnvSettle HP Hr Ha) as H. rewrite Ho, Ht in H.
  destruct H as (_ & _ & Hs & _ & Hg & _). exists out.
  split; [exact (conj HP (conj Hr (conj Ha Ho)))|]. exact (conj (proj2 Hs eq_refl) Hg).
Defined.

(** The chance action of a seeded table: the seed, at the ordinal of the round. *)
Definition seeded_chance (seed : Z) (g : GameState) : OracleChanceAction :=
  match seeded (E := RuleViolation) seed (match g with SAwaitingDeal l => Z.of_nat (round_index l) | _ => 0 end) with
  | Ok a => a
  | _ => explicit standard_deck
  end.

Lemma seeded_chance_typed P seed g : boundary_typed P (EnvChance (seeded_chance seed g)).
Proof.
  unfold boundary_typed, seeded_chance. cbn [oracle_action action_typed].
  set (ordinal := match g with SAwaitingDeal l => Z.of_nat (round_index l) | _ => 0%Z end).
  destruct (seeded_permutes seed ordinal) as (a & -> & Ha & _). exact Ha.
Qed.

(** Every seeded game of every policy finishes: whatever player actions are
    picked among the legal ones and whatever the seed, playing the oracle
    environment from its initial state reaches, within [game_length] transitions
    and without panic or error, a finished state that has a game outcome. *)
Theorem seeded_play_finishes P seed first pick g0 : 2 ≤ P ≤ 51 → first < P → initial P first = Ok g0 →
  ∃ s o, rollout (OracleEnvironment P) pick (seeded_chance seed) (game_length P) g0 = Ok s ∧
    oracle_turn s = OwnerFinished ∧ oracle_terminal_status s = StatusFinished o.
Proof.
  intros HP Hf Hg0. destruct (game_new_inv P HP first Hf) as (g' & Hg' & Hinv).
  assert (g' = g0) as -> by (unfold initial in Hg0; congruence).
  pose proof (oracle_lawful P HP) as Hlaw.
  destruct (@rollout_finishes (OracleEnvironment P) pick (seeded_chance seed) (oracle_lawful P HP) (game_length P) g0)
    as (s & Hrun & _ & Hfin & o & Ho).
  - exact Hinv.
  - intros s. apply seeded_chance_typed.
  - change (steps_left P g0 ≤ game_length P). by rewrite (game_new_steps P first g0 HP Hg').
  - exists s, o. done.
Qed.

Lemma seeded_play_finishes_witness :
  let pick (_ : GameState) (acts : list OraclePlayerAction) := length acts - 1 in
  (2 ≤ 2 ≤ 51 ∧ 0 < 2 ∧ initial 2 0 = Ok (new_game 2 0)) ∧
  ∃ s o, rollout (OracleEnvironment 2) pick (seeded_chance 0x5eed) (game_length 2) (new_game 2 0) = Ok s ∧
    oracle_turn s = OwnerFinished ∧ oracle_terminal_status s = StatusFinished o.
Proof.
  intros pick. assert (2 ≤ 2 ≤ 51) as HP by lia. assert (0 < 2) as H0 by lia.
  assert (initial 2 0 = Ok (new_game 2 0)) as Hi by reflexivity.
  split; [exact (conj HP (conj H0 Hi))|]. exact (seeded_play_finishes 2 0x5eed 0 pick (new_game 2 0) HP H0 Hi).
Defined.
