(* ===== verification/Rl.v ===== *)
(** * The reinforcement-learning boundary (crates/poche-rl)

    The fixed two-player action vocabulary, the exact observation vector, the
    episode state machine of environment.rs and the baseline policies of
    policy.rs.  [f32] is IEEE binary32 through [SpecFloat]; the BLAKE3 digest is
    a parameter. *)

From Stdlib Require Import Floats.SpecFloat.
From stdpp Require Import base strings numbers option list.
From S2P Require Import Prelude Oracle Environment.

Definition ACTION_COUNT : nat := 60.
Definition OBSERVATION_SIZE : nat := 307.
Definition BID_OFFSET : nat := 0.
Definition CARD_OFFSET : nat := 8.

(** ** binary32 *)

Notation f32 := spec_float (only parsing).

Definition f32_from (n : Z) : f32 := binary_normalize 24 128 n 0 false.
Definition f32_zero : f32 := S754_zero false.
Definition f32_one : f32 := f32_from 1.
Definition f32_div (x y : f32) : f32 := SFdiv 24 128 x y.
Definition f32_add (x y : f32) : f32 := SFadd 24 128 x y.
Definition f32_half : f32 := f32_div (f32_from 1) (f32_from 2).

(** [f32::to_bits] and its little-endian bytes *)
Definition f32_bits (x : f32) : Z :=
  match x with
  | S754_zero s => if s then 2 ^ 31 else 0
  | S754_infinity s => (if s then 2 ^ 31 else 0) + 255 * 2 ^ 23
  | S754_nan => 255 * 2 ^ 23 + 2 ^ 22
  | S754_finite s m e =>
      (if s then 2 ^ 31 else 0) +
      (if Z.pos m <? 2 ^ 23 then Z.pos m else (e + 150) * 2 ^ 23 + (Z.pos m - 2 ^ 23))
  end%Z.

Definition le_bytes (x : f32) : list Z :=
  (λ k, (f32_bits x / 2 ^ (8 * Z.of_nat k)) mod 256)%Z <$> seq 0 4.

(** ** Vocabulary and errors *)

Record ActionIndex : Type := ActionIndexOf { index_value : nat }.

Inductive IllegalActionPolicy : Type := Reject | CountAndReject.

#[export] Instance IllegalActionPolicy_eq_dec : EqDecision IllegalActionPolicy.
Proof. solve_decision. Defined.

Inductive RlEnvironmentError : Type :=
  | InvalidActionIndex | IllegalAction | NoAgentTurn | TransitionBufferFull | OracleError (e : RuleViolation).

Definition ActionIndex_new (index : nat) : outcome RlEnvironmentError ActionIndex :=
  if index <? ACTION_COUNT then Ok (ActionIndexOf index) else Err InvalidActionIndex.

Record DecisionView : Type := {
  view_seat : nat; observation : list f32; legal_mask : list bool; view_hash : string;
}.

Record RlStep : Type := {
  step_actor : nat;
  step_action : ActionIndex;
  instant_rewards : list f32;
  round_points : option (list Z);
  exact_bids : option (list bool);
  next_decision : option DecisionView;
  terminal : bool;
  terminal_outcome : option OracleGameOutcome;
  environment_transitions : Z;
}.

Record PocheRlEnv : Type := {
  rl_game : GameState;
  rl_seed : Z;
  deal_ordinal : Z;
  public_played : list bool;
  illegal_action_policy : IllegalActionPolicy;
  illegal_action_count : Z;
  decision_count : Z;
}.

Record AutoAdvance : Type := {
  rewards : list f32; auto_points : option (list Z); auto_exact : option (list bool); transitions : Z;
}.

Definition AutoAdvance_default : AutoAdvance :=
  {| rewards := [f32_zero; f32_zero]; auto_points := None; auto_exact := None; transitions := 0 |}.

(** [From<RuleViolation>], through [?] *)
Definition lift {A} (m : result A) : outcome RlEnvironmentError A := map_err OracleError m.

Definition card_from_index (index : nat) : outcome RlEnvironmentError Card :=
  suit ← expect (Suit_ALL !! (index / length Rank_ALL));
  rank ← expect (Rank_ALL !! (index mod length Rank_ALL));
  Ok (CardOf suit rank).

Definition relative_seats (viewer : nat) : list nat := [viewer; left 2 viewer].

(** ** The observation vector *)

Definition u16_or_max (n : Z) : Z := default (umax 16) (checked 16 n).

(** The assignments [out\[i\] = v] of [encode_observation], in program order. *)
Definition phase_slot (p : PhaseTag) : nat :=
  match p with
  | TagAwaitingDeal => 0 | TagBidding => 1 | TagPlaying => 2 | TagScoring => 3 | TagFinished => 4
  end.

Definition dealer_slot (o : Observation) : nat :=
  match obs_dealer o with
  | None => 0
  | Some dealer => if bool_decide (dealer = obs_viewer o) then 1 else 2
  end.

Definition actor_slot (o : Observation) : nat :=
  match obs_actor o with
  | TurnChance => 0 | TurnEnvironment => 1 | TurnFinished => 2
  | TurnPlayer actor => if bool_decide (actor = obs_viewer o) then 3 else 4
  end.

Definition hand_writes (o : Observation) : list (nat * f32) :=
  (λ card, (15 + card_index card, f32_one)) <$> iter (obs_private_hand o).

Definition hand_count_writes (o : Observation) : outcome RlEnvironmentError (list (nat * f32)) :=
  mapM (λ '(relative_index, seat),
    n ← expect (obs_hand_counts o !! seat);
    Ok (67 + relative_index, f32_div (f32_from n) (f32_from 7))) (imap pair (relative_seats (obs_viewer o))).

Definition trick_writes (o : Observation) : list (nat * f32) :=
  concat (imap (λ slot played,
    let start := 122 + slot * 55 in
    [(start, f32_one);
     (start + 1 + (if bool_decide (player played = obs_viewer o) then 0 else 1), f32_one);
     (start + 3 + card_index (card played), f32_one)]) (Trick_iter (obs_current_trick o))).

Definition seat_writes (o : Observation) : outcome RlEnvironmentError (list (nat * f32)) :=
  rows ← mapM (λ '(relative_index, seat),
    bid ← expect (obs_bids o !! seat);
    won ← expect (obs_tricks_won o !! seat);
    score ← expect (obs_scores o !! seat);
    let bid_slot := match bid with Some b => 1 + Z.to_nat b | None => 0 end in
    Ok [(232 + relative_index * 9 + bid_slot, f32_one);
        (250 + relative_index, f32_div (f32_from won) (f32_from 7));
        (252 + relative_index, f32_div (f32_from score) (f32_from 351))])
    (imap pair (relative_seats (obs_viewer o)));
  Ok (concat rows).

Definition played_writes (public_played : list bool) : list (nat * f32) :=
  imap (λ index (present : bool), (255 + index, if present then f32_one else f32_zero)) public_played.

Definition observation_writes (o : Observation) (public_played : list bool)
    : outcome RlEnvironmentError (list (nat * f32)) :=
  counts ← hand_count_writes o;
  seats ← seat_writes o;
  Ok ([(phase_slot (obs_phase o), f32_one); (5 + dealer_slot o, f32_one); (8 + actor_slot o, f32_one);
       (13, f32_div (f32_from (u16_or_max (Z.of_nat (obs_round_index o)))) (f32_from 13));
       (14, f32_div (f32_from (obs_hand_size o)) (f32_from 7))]
      ++ hand_writes o ++ counts
      ++ [(69 + match obs_trump o with Some card => 1 + card_index card | None => 0 end, f32_one)]
      ++ trick_writes o ++ seats
      ++ [(254, f32_div (f32_from (u16_or_max (obs_pot_cents o))) (f32_from 512))]
      ++ played_writes public_played).

Definition write_feature (out : list f32) (w : nat * f32) : outcome RlEnvironmentError (list f32) :=
  if w.1 <? length out then Ok (<[w.1 := w.2]> out) else Panic.

Definition encode_observation (o : Observation) (public_played : list bool)
    : outcome RlEnvironmentError (list f32) :=
  writes ← observation_writes o public_played;
  foldM write_feature writes (replicate OBSERVATION_SIZE f32_zero).

(** ** Actions *)

Definition action_slot (a : OraclePlayerAction) : nat :=
  match a with
  | PlayerBid _ tricks => BID_OFFSET + Z.to_nat tricks
  | PlayerPlay _ card => CARD_OFFSET + card_index card
  end.

Definition mark_action (mask : list bool) (a : OraclePlayerAction) : outcome RlEnvironmentError (list bool) :=
  if action_slot a <? length mask then Ok (<[action_slot a := true]> mask) else Panic.

Definition legal_action_mask (g : GameState) : outcome RlEnvironmentError (list bool) :=
  actions ← expect_ok (oracle_legal_actions g);
  foldM mark_action actions (replicate ACTION_COUNT false).

Definition action_to_player_action (action : ActionIndex) (actor : nat)
    : outcome RlEnvironmentError OraclePlayerAction :=
  let index := index_value action in
  if (BID_OFFSET <=? index) && (index <? CARD_OFFSET) then
    tricks ← ok_or (checked 8 (Z.of_nat index)) InvalidActionIndex;
    Ok (PlayerBid actor tricks)
  else if (CARD_OFFSET <=? index) && (index <? ACTION_COUNT) then
    card ← card_from_index (index - CARD_OFFSET);
    Ok (PlayerPlay actor card)
  else Err InvalidActionIndex.

(** ** The episode

    A method that mutates [self] and may fail returns the object it leaves
    behind next to its outcome. *)
Definition Rl (A : Type) : Type := PocheRlEnv → PocheRlEnv * outcome RlEnvironmentError A.

Definition rl_ret {A} (a : A) : Rl A := λ self, (self, Ok a).
Definition rl_bind {A B} (m : Rl A) (k : A → Rl B) : Rl B := λ self,
  match m self with
  | (self', Ok a) => k a self'
  | (self', Err e) => (self', Err e)
  | (self', Panic) => (self', Panic)
  end.
Definition rl_get : Rl PocheRlEnv := λ self, (self, Ok self).
Definition rl_put (self : PocheRlEnv) : Rl unit := λ _, (self, Ok tt).
Definition rl_lift {A} (m : outcome RlEnvironmentError A) : Rl A := λ self, (self, m).

Declare Scope rl_scope.
Delimit Scope rl_scope with rl.
Notation "x ⇐ m ; k" := (rl_bind m (λ x, k)) (at level 100, m at next level, k at level 200, right associativity) : rl_scope.

Definition set_game (self : PocheRlEnv) (g : GameState) : PocheRlEnv :=
  {| rl_game := g; rl_seed := rl_seed self; deal_ordinal := deal_ordinal self;
     public_played := public_played self; illegal_action_policy := illegal_action_policy self;
     illegal_action_count := illegal_action_count self; decision_count := decision_count self |}.

Definition set_ordinal (self : PocheRlEnv) (n : Z) : PocheRlEnv :=
  {| rl_game := rl_game self; rl_seed := rl_seed self; deal_ordinal := n;
     public_played := public_played self; illegal_action_policy := illegal_action_policy self;
     illegal_action_count := illegal_action_count self; decision_count := decision_count self |}.

Definition set_played (self : PocheRlEnv) (played : list bool) : PocheRlEnv :=
  {| rl_game := rl_game self; rl_seed := rl_seed self; deal_ordinal := deal_ordinal self;
     public_played := played; illegal_action_policy := illegal_action_policy self;
     illegal_action_count := illegal_action_count self; decision_count := decision_count self |}.

Definition set_illegal (self : PocheRlEnv) (n : Z) : PocheRlEnv :=
  {| rl_game := rl_game self; rl_seed := rl_seed self; deal_ordinal := deal_ordinal self;
     public_played := public_played self; illegal_action_policy := illegal_action_policy self;
     illegal_action_count := n; decision_count := decision_count self |}.

Definition set_decisions (self : PocheRlEnv) (n : Z) : PocheRlEnv :=
  {| rl_game := rl_game self; rl_seed := rl_seed self; deal_ordinal := deal_ordinal self;
     public_played := public_played self; illegal_action_policy := illegal_action_policy self;
     illegal_action_count := illegal_action_count self; decision_count := n |}.

(** One score of a settled round: the body of the inner loop of [auto_advance]. *)
Definition add_score (acc : list f32 * list Z * list bool) (score : RoundScoreEvent nat)
    : outcome RlEnvironmentError (list f32 * list Z * list bool) :=
  let '(rewards, points_, exact) := acc in
  let index := agent score in
  if index <? 2 then
    reward ← expect (rewards !! index);
    Ok (<[index := f32_add reward (f32_from (points (event_score score)))]> rewards,
        <[index := points (event_score score)]> points_,
        <[index := match score_outcome (event_score score) with
                   | Exact | AllTricks => true
                   | Missed => false
                   end]> exact)
  else Panic.

Section Episode.
Context (blake3_hex : list Z → string).

Definition observation_hash (features : list f32) : string :=
  blake3_hex ((Z.of_nat ∘ Ascii.nat_of_ascii <$> String.list_ascii_of_string "poche-observation-v1") ++ [0%Z]
              ++ (features ≫= le_bytes)).

Definition decision (self : PocheRlEnv) : outcome RlEnvironmentError (option DecisionView) :=
  match oracle_turn (rl_game self) with
  | OwnerAgent seat =>
      o ← expect_ok (observe 2 (rl_game self) seat);
      encoded ← encode_observation o (public_played self);
      mask ← legal_action_mask (rl_game self);
      Ok (Some {| view_seat := seat; observation := encoded; legal_mask := mask;
                  view_hash := observation_hash encoded |})
  | _ => Ok None
  end.

(** [fuel] bounds the iterations; running out is a panic of the model. *)
Fixpoint auto_loop (fuel : nat) (acc : AutoAdvance) : Rl AutoAdvance :=
  match fuel with
  | O => rl_lift Panic
  | S fuel => (
      self ⇐ rl_get;
      match oracle_turn (rl_game self) with
      | OwnerChance =>
          chance ⇐ rl_lift (seeded (rl_seed self) (deal_ordinal self));
          _ ⇐ rl_put (set_ordinal self (saturating_add 32 (deal_ordinal self) 1));
          t ⇐ rl_lift (lift (oracle_transition 2 (rl_game self) (EnvChance chance)));
          self ⇐ rl_get;
          _ ⇐ rl_put (set_game self (out_state t));
          auto_loop fuel
            {| rewards := rewards acc; auto_points := auto_points acc; auto_exact := auto_exact acc;
               transitions := saturating_add 32 (transitions acc) 1 |}
      | OwnerEnvironment =>
          t ⇐ rl_lift (lift (oracle_transition 2 (rl_game self) EnvSettle));
          acc ⇐ rl_lift (match out_round_scores t with
                | Some scores =>
                    '(rewards, points_, exact) ←
                      foldM add_score scores (rewards acc, [0%Z; 0%Z], [false; false]);
                    Ok {| rewards := rewards; auto_points := Some points_; auto_exact := Some exact;
                          transitions := transitions acc |}
                | None => Ok acc
                end);
          _ ⇐ rl_put (set_game self (out_state t));
          auto_loop fuel
            {| rewards := rewards acc; auto_points := auto_points acc; auto_exact := auto_exact acc;
               transitions := saturating_add 32 (transitions acc) 1 |}
      | OwnerAgent _ | OwnerFinished => rl_ret acc
      end)%rl
  end.

(** A settlement, a deal and the turn that stops the loop. *)
Definition AUTO_FUEL : nat := 3.

Definition auto_advance : Rl AutoAdvance := auto_loop AUTO_FUEL AutoAdvance_default.

Definition reset_with_policy (seed : Z) (policy : IllegalActionPolicy) : outcome RlEnvironmentError PocheRlEnv :=
  first_dealer ← lift (Seat_new 2 (if (Z.land seed 1 =? 0)%Z then 0 else 1));
  game ← lift (initial 2 first_dealer);
  let value := {| rl_game := game; rl_seed := seed; deal_ordinal := 0;
                  public_played := replicate 52 false; illegal_action_policy := policy;
                  illegal_action_count := 0; decision_count := 0 |} in
  match auto_advance value with
  | (value, Ok _) => Ok value
  | (_, Err e) => Err e
  | (_, Panic) => Panic
  end.

Definition reset (seed : Z) : outcome RlEnvironmentError PocheRlEnv := reset_with_policy seed Reject.

(** [self.public_played\[card_index(card)\] = true] for a card play *)
Definition record_play (self : PocheRlEnv) (a : OraclePlayerAction) : Rl unit :=
  match a with
  | PlayerPlay _ card =>
      if card_index card <? length (public_played self)
      then rl_put (set_played self (<[card_index card := true]> (public_played self)))
      else rl_lift Panic
  | PlayerBid _ _ => rl_ret tt
  end.

Definition rl_step (action : ActionIndex) : Rl RlStep := (
  self ⇐ rl_get;
  view ⇐ rl_lift (decision self);
  match view with
  | None => rl_lift (Err NoAgentTurn)
  | Some view =>
      allowed ⇐ rl_lift (expect (legal_mask view !! index_value action));
      if negb allowed then
        _ ⇐ (if bool_decide (illegal_action_policy self = CountAndReject)
              then rl_put (set_illegal self (saturating_add 64 (illegal_action_count self) 1))
              else rl_ret tt);
        rl_lift (Err IllegalAction)
      else
        player_action ⇐ rl_lift (action_to_player_action action (view_seat view));
        _ ⇐ record_play self player_action;
        t ⇐ rl_lift (lift (oracle_transition 2 (rl_game self) (EnvPlayer player_action)));
        self ⇐ rl_get;
        _ ⇐ rl_put (set_decisions (set_game self (out_state t)) (saturating_add 64 (decision_count self) 1));
        auto ⇐ auto_advance;
        self ⇐ rl_get;
        let outcome := match oracle_terminal_status (rl_game self) with
                       | Ongoing => None
                       | StatusFinished o => Some o
                       end in
        following ⇐ rl_lift (decision self);
        rl_ret {| step_actor := view_seat view; step_action := action; instant_rewards := rewards auto;
                  round_points := auto_points auto; exact_bids := auto_exact auto;
                  next_decision := following; terminal := bool_decide (is_Some outcome);
                  terminal_outcome := outcome; environment_transitions := transitions auto |}
  end)%rl.

End Episode.

(** ** Baseline policies *)

Inductive PolicyError : Type := NoLegalAction.

Record ReplayRng : Type := ReplayRngOf { rng_state : Z }.

Definition next_u64 (rng : ReplayRng) : ReplayRng * Z :=
  let state := wrapping_add 64 (rng_state rng) 0x9e3779b97f4a7c15 in
  let value := wrapping_mul 64 (Z.lxor state (Z.shiftr state 30)) 0xbf58476d1ce4e5b9 in
  let value := wrapping_mul 64 (Z.lxor value (Z.shiftr value 27)) 0x94d049bb133111eb in
  (ReplayRngOf state, Z.lxor value (Z.shiftr value 31)).

Definition below (rng : ReplayRng) (upper : nat) : outcome PolicyError (ReplayRng * nat) :=
  upper ← expect (checked 64 (Z.of_nat upper));
  let '(rng, value) := next_u64 rng in
  if (upper =? 0)%Z then Panic
  else n ← expect (checked 64 (value mod upper)%Z); Ok (rng, Z.to_nat n).

(** The rejection loop, for at most [fuel] draws. *)
Fixpoint rejection_loop (fuel : nat) (rng : ReplayRng) (mask : list bool)
    : outcome PolicyError (ReplayRng * ActionIndex) :=
  match fuel with
  | O => Panic
  | S fuel =>
      '(rng, index) ← below rng ACTION_COUNT;
      allowed ← expect (mask !! index);
      if (allowed : bool) then
        action ← map_err (λ _, NoLegalAction) (ActionIndex_new index);
        Ok (rng, action)
      else rejection_loop fuel rng mask
  end.

Definition uniform_random_select (fuel : nat) (rng : ReplayRng) (mask : list bool)
    : outcome PolicyError (ReplayRng * ActionIndex) :=
  if negb (existsb id mask) then Err NoLegalAction else rejection_loop fuel rng mask.

(** [enumerate().filter(allowed)] *)
Definition legal_indices (mask : list bool) : list nat :=
  omap (λ p : nat * bool, if p.2 then Some p.1 else None) (imap pair mask).

Definition legal_random_select (rng : ReplayRng) (mask : list bool)
    : outcome PolicyError (ReplayRng * ActionIndex) :=
  let legal_count := length (legal_indices mask) in
  if legal_count =? 0 then Err NoLegalAction
  else
    '(rng, wanted) ← below rng legal_count;
    index ← ok_or (legal_indices mask !! wanted) NoLegalAction;
    action ← map_err (λ _, NoLegalAction) (ActionIndex_new index);
    Ok (rng, action).

Definition estimate_card (features : list f32) (trump : option nat) (estimate card : nat)
    : outcome PolicyError nat :=
  value ← expect (features !! (15 + card));
  if SFltb value f32_half then Ok estimate
  else
    let rank := card mod 13 in
    Ok (if (9 <=? rank) || bool_decide (trump = Some card) then S estimate else estimate).

Definition high_card_select (features : list f32) (mask : list bool) : outcome PolicyError ActionIndex :=
  let bids := take CARD_OFFSET mask in
  if existsb id bids then
    let trump := position (λ value, SFltb f32_half value) (take 52 (drop 70 features)) in
    estimate ← foldM (estimate_card features trump) (seq 0 52) 0;
    let chosen := list_find (λ index, index ≤ estimate ∧ mask !! index = Some true)
                    (reverse (seq 0 CARD_OFFSET)) in
    index ← ok_or (match chosen with
                   | Some (_, index) => Some index
                   | None => position id bids
                   end) NoLegalAction;
    map_err (λ _, NoLegalAction) (ActionIndex_new index)
  else
    index ← ok_or (position id (drop CARD_OFFSET mask)) NoLegalAction;
    map_err (λ _, NoLegalAction) (ActionIndex_new (CARD_OFFSET + index)).
