(* ===== verification/RlTheorems.v ===== *)
(** * Properties of the reinforcement-learning boundary

    The observation vector is total and carries the viewer's cards; the mask is
    the set of legal actions; the episode state machine never fails on an
    unmasked action and ends after a fixed number of decisions; the baseline
    policies always find a legal action. *)

From Stdlib Require Import Floats.SpecFloat.
From stdpp Require Import base strings numbers option sets list.
From S2P Require Import Prelude Oracle OracleLemmas OracleInvariant OracleTheorems Environment EnvironmentTheorems Rl.

Lemma two_players : 2 ≤ 2 ≤ 51.
Proof. lia. Qed.
#[local] Hint Resolve two_players : core.

(** ** Writing features *)

(** The value at [i] after the writes: that of the last one at [i]. *)
Definition final_value (writes : list (nat * f32)) (i : nat) (v : f32) : f32 :=
  foldl (λ acc w, if decide (w.1 = i) then w.2 else acc) v writes.

Lemma final_value_app ws ws' i v : final_value (ws ++ ws') i v = final_value ws' i (final_value ws i v).
Proof. apply foldl_app. Qed.

Lemma final_value_other ws i v : (∀ w, w ∈ ws → w.1 ≠ i) → final_value ws i v = v.
Proof.
  revert v; induction ws as [|w ws IH]; intros v Hne; [done|]. unfold final_value in *. cbn [foldl].
  rewrite decide_False by (apply Hne; left). apply IH. intros w' Hw. apply Hne. by right.
Qed.

(** All writes at [i] put the same value [x]. *)
Lemma final_value_same ws i v x : (∀ w, w ∈ ws → w.1 = i → w.2 = x) → (∃ w, w ∈ ws ∧ w.1 = i) →
  final_value ws i v = x.
Proof.
  intros Hx (w & Hw & Hi). revert Hx Hw. induction ws as [|w' ws IH] using rev_ind; intros Hx Hw;
    [by apply not_elem_of_nil in Hw|].
  rewrite final_value_app. unfold final_value at 1. cbn [foldl].
  destruct (decide (w'.1 = i)) as [Hi'|Hne]; [apply Hx; [set_solver|done]|].
  apply IH; [intros w0 Hw0; apply Hx; set_solver|]. apply elem_of_app in Hw as [|Hw]; [done|].
  apply list_elem_of_singleton in Hw. congruence.
Qed.

Lemma write_features_Ok ws out : Forall (λ w, w.1 < length out) ws →
  ∃ out', foldM write_feature ws out = Ok out' ∧ length out' = length out ∧
    ∀ i v, out !! i = Some v → out' !! i = Some (final_value ws i v).
Proof.
  revert out; induction ws as [|w ws IH]; intros out Hws; cbn [foldM]; [by exists out|].
  apply Forall_cons in Hws as [Hw Hws].
  assert (write_feature out w = Ok (<[w.1 := w.2]> out)) as ->.
  { unfold write_feature. by rewrite (proj2 (Nat.ltb_lt _ _) Hw). }
  cbn [mbind outcome_bind]. destruct (IH (<[w.1 := w.2]> out)) as (out' & -> & Hlen & Hout).
  { by rewrite length_insert. }
  exists out'. split; [done|]. split; [by rewrite Hlen, length_insert|]. intros i v Hi.
  unfold final_value. cbn [foldl]. apply Hout. destruct (decide (w.1 = i)) as [<-|Hne].
  - by rewrite list_lookup_insert_eq.
  - by rewrite list_lookup_insert_ne.
Qed.

(** The features of chunk [c] lie in [lo, hi). *)
Definition in_span (lo hi : nat) (ws : list (nat * f32)) : Prop := Forall (λ w, lo ≤ w.1 < hi) ws.

Lemma in_span_other lo hi ws i v : in_span lo hi ws → ¬ (lo ≤ i < hi) → final_value ws i v = v.
Proof.
  intros Hs Hi. apply final_value_other. intros w Hw. unfold in_span in Hs. rewrite Forall_forall in Hs.
  specialize (Hs w Hw). lia.
Qed.

Lemma in_span_bound lo hi ws n : in_span lo hi ws → hi ≤ n → Forall (λ w, w.1 < n) ws.
Proof. intros Hs Hn. eapply Forall_impl; [exact Hs|]. intros w Hw. cbv beta in *. lia. Qed.

(** What an observation of an agent's turn satisfies. *)
Record encodable (o : Observation) : Prop := {
  en_viewer : obs_viewer o < 2;
  en_counts : length (obs_hand_counts o) = 2;
  en_bids_len : length (obs_bids o) = 2;
  en_bids : ∀ i b, obs_bids o !! i = Some (Some b) → (0 ≤ b ≤ 7)%Z;
  en_won : length (obs_tricks_won o) = 2;
  en_scores : length (obs_scores o) = 2;
  en_trick : length (Trick_iter (obs_current_trick o)) ≤ 2;
}.

Lemma hand_writes_span o : in_span 15 67 (hand_writes o).
Proof.
  unfold in_span, hand_writes. apply Forall_fmap, Forall_forall. intros c _. unfold compose. cbn [fst].
  pose proof (card_index_lt c). lia.
Qed.

Lemma relative_seats_lt v k s : v < 2 → (k, s) ∈ imap pair (relative_seats v) → k < 2 ∧ s < 2.
Proof.
  intros Hv Hin. apply elem_of_lookup_imap in Hin as (i & x & [= -> ->] & Hx).
  unfold relative_seats in Hx. destruct i as [|[|i]]; cbn in Hx; [| |done]; simplify_eq; split; try lia.
Qed.

(** A row-by-row computation whose rows succeed and satisfy [Q]. *)
Lemma mapM_Forall {A B} (f : A → outcome RlEnvironmentError B) (Q : B → Prop) l :
  (∀ x, x ∈ l → ∃ y, f x = Ok y ∧ Q y) → ∃ ys, mapM f l = Ok ys ∧ Forall Q ys.
Proof.
  induction l as [|x l IH]; intros H; [by exists []|].
  destruct (H x ltac:(left)) as (y & Hy & HQ). destruct IH as (ys & Hys & HQs).
  { intros z Hz. apply H. by right. }
  exists (y :: ys). cbn [mapM]. rewrite Hy. cbn [mbind outcome_bind]. rewrite Hys. split; [done|by constructor].
Qed.

Lemma hand_count_writes_span o : encodable o →
  ∃ ws, hand_count_writes o = Ok ws ∧ in_span 67 69 ws.
Proof.
  intros Ho. apply mapM_Forall. intros [k s] Hks. apply relative_seats_lt in Hks as [Hk Hs]; [|apply Ho].
  destruct (lookup_lt_is_Some_2 (obs_hand_counts o) s) as [n Hn]; [by rewrite (en_counts _ Ho)|].
  rewrite Hn. eexists. split; [done|]. cbn [fst]. lia.
Qed.

Lemma seat_writes_span o : encodable o → ∃ ws, seat_writes o = Ok ws ∧ in_span 232 254 ws.
Proof.
  intros Ho. unfold seat_writes.
  match goal with |- context [mapM ?f ?l] => destruct (mapM_Forall f (in_span 232 254) l) as (rows & -> & Hrows) end.
  - intros [k s] Hks. apply relative_seats_lt in Hks as [Hk Hs]; [|apply Ho].
    destruct (lookup_lt_is_Some_2 (obs_bids o) s) as [b Hb]; [by rewrite (en_bids_len _ Ho)|].
    destruct (lookup_lt_is_Some_2 (obs_tricks_won o) s) as [w Hw]; [by rewrite (en_won _ Ho)|].
    destruct (lookup_lt_is_Some_2 (obs_scores o) s) as [sc Hsc]; [by rewrite (en_scores _ Ho)|].
    rewrite Hb, Hw, Hsc. eexists. split; [done|].
    assert (match b with Some b => 1 + Z.to_nat b | None => 0 end ≤ 8) as Hslot.
    { destruct b as [b|]; [|lia]. pose proof (en_bids _ Ho s b Hb). lia. }
    unfold in_span. rewrite !Forall_cons, Forall_nil. cbn [fst]. lia.
  - eexists. split; [done|]. unfold in_span in *. by apply Forall_concat.
Qed.

Lemma trick_writes_span o : encodable o → in_span 122 232 (trick_writes o).
Proof.
  intros Ho. unfold trick_writes, in_span. apply Forall_concat, Forall_lookup. intros i ws Hi.
  apply list_lookup_imap_Some in Hi as (p & Hp & ->). apply lookup_lt_Some in Hp. pose proof (en_trick _ Ho).
  pose proof (card_index_lt (card p)).
  rewrite !Forall_cons, Forall_nil. cbn [fst]. case_bool_decide; lia.
Qed.

Lemma played_writes_span played : length played = 52 → in_span 255 307 (played_writes played).
Proof.
  intros Hl. unfold in_span, played_writes. apply Forall_lookup. intros i w Hi.
  apply list_lookup_imap_Some in Hi as (b & Hb & ->). apply lookup_lt_Some in Hb. cbn [fst]. lia.
Qed.

Lemma actor_slot_le o : actor_slot o ≤ 4.
Proof. unfold actor_slot. destruct (obs_actor o); try lia. case_bool_decide; lia. Qed.

Lemma dealer_slot_le o : dealer_slot o ≤ 2.
Proof. unfold dealer_slot. destruct (obs_dealer o); [|lia]. case_bool_decide; lia. Qed.

Definition bit (b : bool) : f32 := if b then f32_one else f32_zero.

Lemma trump_slot_lt t : match t with Some card => 1 + card_index card | None => 0 end < 53.
Proof. destruct t as [c|]; [pose proof (card_index_lt c)|]; lia. Qed.

(** The encoding of an encodable observation, with the segments that hold card
    identities. *)
Lemma encode_spec o played : encodable o → length played = 52 →
  ∃ out, encode_observation o played = Ok out ∧ length out = OBSERVATION_SIZE ∧
    (∀ c, out !! (15 + card_index c) = Some (bit (bool_decide (c ∈ iter (obs_private_hand o))))) ∧
    (∀ c, out !! (70 + card_index c) = Some (bit (bool_decide (obs_trump o = Some c)))) ∧
    (∀ c b, played !! card_index c = Some b → out !! (255 + card_index c) = Some (bit b)).
Proof.
  intros Ho Hpl. unfold encode_observation, observation_writes.
  destruct (hand_count_writes_span o Ho) as (counts & -> & Hcounts).
  destruct (seat_writes_span o Ho) as (seats & -> & Hseats). cbn [mbind outcome_bind].
  pose proof (hand_writes_span o) as Hhand. pose proof (trick_writes_span o Ho) as Htrick.
  pose proof (played_writes_span played Hpl) as Hplayed.
  pose proof (actor_slot_le o). pose proof (dealer_slot_le o).
  assert (phase_slot (obs_phase o) ≤ 4) by (destruct (obs_phase o); simpl; lia).
  pose proof (trump_slot_lt (obs_trump o)) as Htr.
  set (head := [_; _; _; _; _]). set (tr := [(69 + _, f32_one)]). set (pot := [(254, _)]).
  assert (in_span 0 15 head) as Hhead by (unfold in_span, head; rewrite !Forall_cons, Forall_nil; cbn [fst]; lia).
  assert (in_span 69 122 tr) as Htrump by (unfold in_span, tr; rewrite !Forall_cons, Forall_nil; cbn [fst]; lia).
  assert (in_span 254 255 pot) as Hpot by (unfold in_span, pot; rewrite !Forall_cons, Forall_nil; cbn [fst]; lia).
  destruct (write_features_Ok (head ++ hand_writes o ++ counts ++ tr ++ trick_writes o ++ seats ++ pot ++
    played_writes played) (replicate OBSERVATION_SIZE f32_zero)) as (out & -> & Hlen & Hout).
  { rewrite length_replicate. unfold OBSERVATION_SIZE. rewrite !Forall_app.
    split_and!; eapply in_span_bound; try done; lia. }
  rewrite length_replicate in Hlen. exists out. split; [done|]. split; [done|].
  assert (∀ i, i < OBSERVATION_SIZE → out !! i = Some (final_value (head ++ hand_writes o ++ counts ++ tr ++
    trick_writes o ++ seats ++ pot ++ played_writes played) i f32_zero)) as Hval.
  { intros i Hi. apply Hout. by apply lookup_replicate_2. }
  unfold OBSERVATION_SIZE in Hval. split_and!.
  - intros c. pose proof (card_index_lt c). rewrite Hval by lia. f_equal. rewrite !final_value_app.
    rewrite (in_span_other _ _ _ _ _ Hplayed), (in_span_other _ _ _ _ _ Hpot), (in_span_other _ _ _ _ _ Hseats),
      (in_span_other _ _ _ _ _ Htrick), (in_span_other _ _ _ _ _ Htrump), (in_span_other _ _ _ _ _ Hcounts),
      (in_span_other _ _ _ _ _ Hhead) by lia.
    case_bool_decide as Hc; cbn [bit].
    + apply final_value_same; [by intros w (d & -> & _)%list_elem_of_fmap|].
      exists (15 + card_index c, f32_one). split; [apply list_elem_of_fmap; by exists c|done].
    + apply final_value_other. intros w (d & -> & Hd)%list_elem_of_fmap. cbn [fst]. intros Heq.
      assert (d = c) as -> by (apply card_index_inj; lia). done.
  - intros c. pose proof (card_index_lt c). rewrite Hval by lia. f_equal. rewrite !final_value_app.
    rewrite (in_span_other _ _ _ _ _ Hplayed), (in_span_other _ _ _ _ _ Hpot), (in_span_other _ _ _ _ _ Hseats),
      (in_span_other _ _ _ _ _ Htrick), (in_span_other _ _ _ _ _ Hcounts), (in_span_other _ _ _ _ _ Hhand),
      (in_span_other _ _ _ _ _ Hhead) by lia.
    unfold tr, final_value. cbn [foldl fst snd]. case_bool_decide as Hc; cbn [bit].
    + rewrite Hc, decide_True by lia. done.
    + rewrite decide_False; [done|]. destruct (obs_trump o) as [d|]; [|lia]. intros Heq.
      apply Hc. f_equal. apply card_index_inj. lia.
  - intros c b Hb. pose proof (card_index_lt c). rewrite Hval by lia. f_equal. rewrite !final_value_app.
    apply final_value_same.
    + intros w Hw Hi. unfold played_writes in Hw. apply elem_of_lookup_imap in Hw as (j & b' & -> & Hb').
      cbn [fst snd] in *. assert (j = card_index c) as -> by lia. by simplify_eq.
    + exists (255 + card_index c, bit b). split; [|done]. apply elem_of_lookup_imap. by exists (card_index c), b.
Qed.

(** ** What a decision shows *)

Lemma observe_encodable g seat : game_inv 2 g → oracle_turn g = OwnerAgent seat →
  ∃ o, observe 2 g seat = Ok o ∧ encodable o ∧ seat < 2 ∧ obs_viewer o = seat.
Proof.
  intros Hg Ht. pose proof two_players as HP.
  assert (seat < 2) as Hs.
  { destruct g as [l|s|s|s|f]; cbn in Ht; simplify_eq.
    - rewrite (bi_actor _ _ Hg). by apply advance_lt.
    - destruct Hg as (l & Hi & Hl & ->). by apply advance_lt. }
  destruct (observe_Ok 2 g seat HP Hs Hg) as (o & Ho & _ & Hv & _ & Hsc & _ & Hm).
  exists o. split; [done|]. split; [|done].
  destruct g as [l|s|s|s|f]; cbn in Ht; try done.
  - cbn [observe] in Ho. destruct Hm as (_ & _ & _ & Hb & Hh & Hc).
    pose proof (hand_at_bounds 2 HP _ (li_round _ _ (bi_ledger _ _ Hg))). pose proof (hand_max_bounds 2 HP).
    split.
    + lia.
    + by rewrite Hc, length_fmap, (bi_hands_len _ _ Hg).
    + by rewrite Hb, (bi_bids_len _ _ Hg).
    + intros i b Hi. rewrite Hb in Hi.
      assert (i < 2) as Hi2 by (rewrite <-(bi_bids_len _ _ Hg); by eapply lookup_lt_Some).
      destruct (seats_cover 2 HP (left 2 (dealer (bd_ledger s))) i Hi2) as (j & Hj & <-).
      pose proof (bi_bids _ _ Hg j Hj) as Hbid. rewrite Hi in Hbid. destruct Hbid as [_ Hbid].
      unfold bid_ok in Hbid. lia.
    + destruct (expect (bd_hands s !! seat)); [|done..]. cbn [mbind outcome_bind] in Ho.
      destruct (hand_counts (bd_hands s)); [|done..]. cbn [mbind outcome_bind] in Ho. injection Ho as <-.
      done.
    + rewrite Hsc. apply (li_scores_len _ _ (bi_ledger _ _ Hg)).
    + destruct (expect (bd_hands s !! seat)); [|done..]. cbn [mbind outcome_bind] in Ho.
      destruct (hand_counts (bd_hands s)); [|done..]. cbn [mbind outcome_bind] in Ho. injection Ho as <-.
      cbn. lia.
  - destruct Hm as (_ & _ & _ & Hb & Hh & Hc & Htr & Hw), Hg as (l & Hg & Hl & _).
    pose proof (hand_at_bounds 2 HP _ (li_round _ _ (pi_ledger _ _ _ Hg))). pose proof (hand_max_bounds 2 HP).
    split.
    + lia.
    + by rewrite Hc, length_fmap, (pi_hands_len _ _ _ Hg).
    + by rewrite Hb, length_fmap, (pi_bids_len _ _ _ Hg).
    + intros i b Hi. rewrite Hb, list_lookup_fmap in Hi. destruct (pl_bids s !! i) as [b'|] eqn:Hi'; [|done].
      cbn in Hi. simplify_eq. pose proof (pi_bids _ _ _ Hg) as Hbids. rewrite Forall_lookup in Hbids.
      specialize (Hbids _ _ Hi'). unfold bid_ok in Hbids. lia.
    + by rewrite Hw, (pi_won_len _ _ _ Hg).
    + rewrite Hsc. apply (li_scores_len _ _ (pi_ledger _ _ _ Hg)).
    + rewrite Htr, (pi_trick _ _ _ Hg), Trick_iter_of. lia.
Qed.

(** ** The mask *)

Lemma mark_actions acts mask : (∀ a, a ∈ acts → action_slot a < length mask) →
  ∃ mask', foldM mark_action acts mask = Ok mask' ∧ length mask' = length mask ∧
    ∀ i, mask' !! i = Some true ↔ mask !! i = Some true ∨ ∃ a, a ∈ acts ∧ action_slot a = i.
Proof.
  revert mask; induction acts as [|a acts IH]; intros mask Hin; cbn [foldM].
  { exists mask. split_and!; [done|done|]. intros i. split; [by left|]. intros [|(a & Ha & _)]; [done|].
    by apply not_elem_of_nil in Ha. }
  assert (action_slot a < length mask) as Ha by (apply Hin; left).
  assert (mark_action mask a = Ok (<[action_slot a := true]> mask)) as ->.
  { unfold mark_action. by rewrite (proj2 (Nat.ltb_lt _ _) Ha). }
  cbn [mbind outcome_bind]. destruct (IH (<[action_slot a := true]> mask)) as (mask' & -> & Hlen & Hm).
  { intros b Hb. rewrite length_insert. apply Hin. by right. }
  rewrite length_insert in Hlen. exists mask'. split_and!; [done|done|]. intros i. rewrite Hm.
  setoid_rewrite elem_of_cons. destruct (decide (action_slot a = i)) as [<-|Hne].
  - rewrite list_lookup_insert_eq by done. split; [eauto|by left].
  - rewrite list_lookup_insert_ne by done. naive_solver.
Qed.

Lemma card_from_index_card c : card_from_index (card_index c) = Ok c.
Proof. by destruct c as [[] []]. Qed.

(** A typed action at its slot. *)
Lemma slot_action actor a : boundary_typed 2 (EnvPlayer a) → actor_of (oracle_action (EnvPlayer a)) = Some actor →
  (∀ p b, a = PlayerBid p b → (b ≤ 7)%Z) →
  action_slot a < ACTION_COUNT ∧ action_to_player_action (ActionIndexOf (action_slot a)) actor = Ok a.
Proof.
  intros Hty Hact Hb. unfold action_to_player_action, ACTION_COUNT. cbn [index_value].
  destruct a as [p b|p c]; cbn [action_slot oracle_action actor_of] in *; injection Hact as ->.
  - unfold BID_OFFSET, CARD_OFFSET. specialize (Hb actor b eq_refl). destruct Hty as [_ [Hw _]].
    rewrite (proj2 (Nat.leb_le _ _)) by lia. rewrite (proj2 (Nat.ltb_lt _ 8)) by lia. cbn [andb].
    split; [lia|]. cbn [Nat.add]. rewrite Z2Nat.id by done.
    assert (checked 8 b = Some b) as -> by (apply checked_Some; unfold in_width; lia). done.
  - pose proof (card_index_lt c). unfold BID_OFFSET, CARD_OFFSET.
    rewrite (proj2 (Nat.ltb_ge (8 + card_index c) 8)), andb_false_r by lia.
    rewrite (proj2 (Nat.leb_le 8 _)) by lia. rewrite (proj2 (Nat.ltb_lt _ 60)) by lia. cbn [andb].
    split; [lia|]. replace (8 + card_index c - 8) with (card_index c) by lia.
    by rewrite card_from_index_card.
Qed.

Lemma suit_index_lookup k su : Suit_ALL !! k = Some su → suit_index su = k.
Proof. do 4 (destruct k as [|k]; [by intros [= <-]|]). done. Qed.

Lemma rank_index_lookup k ra : Rank_ALL !! k = Some ra → rank_index ra = k.
Proof. do 13 (destruct k as [|k]; [by intros [= <-]|]). done. Qed.

Lemma card_index_from n c : card_from_index n = Ok c → card_index c = n.
Proof.
  unfold card_from_index. intros H.
  destruct (Suit_ALL !! (n / length Rank_ALL)) as [su|] eqn:Hs; [|done]. cbn [expect mbind outcome_bind] in H.
  destruct (Rank_ALL !! (n mod length Rank_ALL)) as [ra|] eqn:Hr; [|done]. cbn [expect mbind outcome_bind] in H.
  injection H as <-. unfold card_index. cbn [suit rank].
  rewrite (suit_index_lookup _ _ Hs), (rank_index_lookup _ _ Hr).
  pose proof (Nat.div_mod_eq n (length Rank_ALL)). lia.
Qed.

Lemma slot_of_action i actor a : action_to_player_action (ActionIndexOf i) actor = Ok a → action_slot a = i.
Proof.
  unfold action_to_player_action. cbn [index_value]. destruct (_ && _) eqn:H1.
  - apply andb_true_iff in H1 as [_ H1%Nat.ltb_lt]. unfold CARD_OFFSET in H1.
    assert (checked 8 (Z.of_nat i) = Some (Z.of_nat i)) as -> by (apply checked_Some; unfold in_width; lia).
    intros [= <-]. cbn. lia.
  - destruct ((CARD_OFFSET <=? i) && (i <? ACTION_COUNT)) eqn:H2; [|intros [=]]. apply andb_true_iff in H2 as [H2%Nat.leb_le _].
    destruct (card_from_index _) as [c| |] eqn:Hc; cbn [mbind outcome_bind]; intros Ha; try discriminate Ha. injection Ha as <-.
    apply card_index_from in Hc. cbn [action_slot]. lia.
Qed.

(** The mask is the characteristic function of the legal actions. *)
Lemma mask_spec g seat : game_inv 2 g → oracle_turn g = OwnerAgent seat →
  ∃ mask acts, legal_action_mask g = Ok mask ∧ length mask = ACTION_COUNT ∧
    oracle_legal_actions g = Ok acts ∧
    (∀ i, mask !! i = Some true ↔
       ∃ a, action_to_player_action (ActionIndexOf i) seat = Ok a ∧ a ∈ acts) ∧
    (∃ i, mask !! i = Some true) ∧
    (∀ a, a ∈ acts → boundary_typed 2 (EnvPlayer a) ∧ ∃ t, oracle_transition 2 g (EnvPlayer a) = Ok t).
Proof.
  intros Hg Ht. pose proof two_players as HP.
  destruct (boundary_legal 2 HP g Hg) as (acts & Hacts & Hspec & Hne).
  destruct (legal_actions_spec 2 g HP Hg) as (oacts & Hoacts & _ & Hturn).
  assert (turn g = TurnPlayer seat) as Hts by (destruct g; cbn in *; by simplify_eq).
  destruct (Hturn seat Hts) as [_ Hactor].
  assert (acts = omap player_action oacts) as Hmap.
  { unfold oracle_legal_actions in Hacts. rewrite Hoacts in Hacts. cbn in Hacts. congruence. }
  assert (∀ a, a ∈ acts → action_slot a < ACTION_COUNT ∧
    action_to_player_action (ActionIndexOf (action_slot a)) seat = Ok a) as Hslots.
  { intros a Ha. apply slot_action.
    - by apply Hspec.
    - apply Hactor, elem_of_player_actions. by rewrite <-Hmap.
    - intros p b ->. apply Hspec in Ha as (Hty & t & Hok).
      rewrite (oracle_transition_spec 2 HP g _ Hg Hty) in Hok. cbn [oracle_action] in Hok.
      destruct (transition_cases 2 HP g _ Hg Hty) as [(Had & _)|(_ & e & He & _)];
        [|cbn [oracle_action] in He; by rewrite He in Hok].
      destruct g as [|s| | |]; try done. destruct Had as [_ Hle]. rewrite (bi_size _ _ Hg) in Hle.
      pose proof (hand_at_bounds 2 HP _ (li_round _ _ (bi_ledger _ _ Hg))). pose proof (hand_max_bounds 2 HP). lia. }
  destruct (mark_actions acts (replicate ACTION_COUNT false)) as (mask & Hm & Hlen & Hmask).
  { intros a Ha. rewrite length_replicate. by apply Hslots. }
  rewrite length_replicate in Hlen. exists mask, acts. unfold legal_action_mask. rewrite Hacts.
  assert (∀ i, mask !! i = Some true ↔ ∃ a, a ∈ acts ∧ action_slot a = i) as Hmask'.
  { intros i. rewrite Hmask. split; [|by right]. intros [Hr|]; [|done].
    by apply lookup_replicate in Hr as [? _]. }
  split_and!; [done|done|done| | |intros a Ha; by apply Hspec].
  - intros i. rewrite Hmask'. split.
    + intros (a & Ha & <-). exists a. split; [by apply Hslots|done].
    + intros (a & Hi & Ha). exists a. split; [done|].
      by apply slot_of_action in Hi.
  - destruct acts as [|a acts]; [by destruct (Hne seat)|]. exists (action_slot a). apply Hmask'.
    exists a. split; [left|done].
Qed.

(** ** Automatic progress *)

(** The deals and settlements left. *)
Definition admin_left (g : GameState) : nat :=
  match g with
  | SAwaitingDeal l => 2 * (rounds 2 - round_index l)
  | SBidding s => 1 + 2 * (rounds 2 - S (round_index (bd_ledger s)))
  | SPlaying s => 1 + 2 * (rounds 2 - S (round_index (pl_ledger s)))
  | SScoring s => 1 + 2 * (rounds 2 - S (round_index (sc_ledger s)))
  | SFinished _ => 0
  end.

(** The player decisions left. *)
Definition decisions_left (g : GameState) : nat := steps_left 2 g - admin_left g.

Lemma later_steps_admin r : r < rounds 2 → 2 * (rounds 2 - S r) ≤ later_steps 2 r.
Proof.
  intros Hr. change (rounds 2) with 13 in *. unfold later_steps, rounds_steps. change (rounds 2) with 13.
  do 13 (destruct r as [|r]; [vm_compute; lia|]). lia.
Qed.

Lemma admin_le_steps g : game_inv 2 g → admin_left g ≤ steps_left 2 g.
Proof.
  intros Hg. destruct g as [l|s|s|s|f]; cbn [admin_left steps_left game_inv] in *; [| | | |lia].
  - pose proof (li_round _ _ Hg) as Hr. rewrite (rounds_steps_cons 2 two_players _ Hr).
    pose proof (later_steps_admin _ Hr). unfold round_steps. lia.
  - pose proof (later_steps_admin _ (li_round _ _ (bi_ledger _ _ Hg))). lia.
  - destruct Hg as (l & Hg & _). pose proof (later_steps_admin _ (li_round _ _ (pi_ledger _ _ _ Hg))). lia.
  - pose proof (later_steps_admin _ (li_round _ _ (si_ledger _ _ Hg))). lia.
Qed.

(** How one transition changes the administrative count. *)
Lemma admin_step g a t : game_inv 2 g → action_typed 2 a → transition 2 g a = Ok t →
  admin_left g = admin_left (next t) + match actor_of a with Some _ => 0 | None => 1 end.
Proof.
  intros Hg Ha Ht. pose proof two_players as HP.
  destruct (transition_cases 2 HP g a Hg Ha) as [[Had _]|(_ & e & He & _)]; [|congruence].
  destruct g as [l|s|s|s|f], a as [deck|p b|p c|]; try done; cbn [transition actor_of] in *.
  - destruct (deal_spec 2 HP l deck Hg Ha) as (s & Hd & Hdf & _). rewrite Hd in Ht. injection Ht as <-.
    cbn [next admin_left]. rewrite (df_ledger _ _ _ _ Hdf). pose proof (li_round _ _ Hg). lia.
  - destruct Had as [-> Hb], Ha as [_ Hw]. unfold in_width in Hw.
    destruct (place_bid_spec 2 HP s b Hg) as [[_ Heq]|(_ & bids & _ & Heq)]; [lia|..];
      rewrite Heq in Ht; injection Ht as <-; cbn [next admin_left bid_next bids_complete bd_ledger pl_ledger]; lia.
  - destruct Had as [-> (hand & Hhand & Hmay)]. destruct Hg as (l & Hinv & Hl & Hactor).
    destruct (play_card_spec 2 HP s l hand c) as (t' & Heq & _ & _ & Hcases); [done..|].
    rewrite Heq in Ht. injection Ht as <-.
    destruct Hcases as [(s' & -> & Hld)|(s' & -> & Hld)]; cbn [admin_left]; rewrite Hld; lia.
  - destruct (settle_round_spec 2 HP s Hg) as [(Hr & f & _ & _ & _ & Heq)|(Hr & _ & Heq)];
      rewrite Heq in Ht; injection Ht as <-; cbn [next admin_left round_index]; lia.
Qed.

Lemma decisions_step g a t : game_inv 2 g → action_typed 2 a → transition 2 g a = Ok t →
  decisions_left g = decisions_left (next t) + match actor_of a with Some _ => 1 | None => 0 end.
Proof.
  intros Hg Ha Ht. assert (step 2 g a (next t)) as Hstep by by econstructor.
  pose proof (steps_left_step 2 two_players g a _ Hg Hstep). pose proof (admin_step g a t Hg Ha Ht).
  pose proof (admin_le_steps _ (step_inv 2 two_players g a _ Hg Hstep)). pose proof (admin_le_steps g Hg).
  unfold decisions_left. destruct (actor_of a); lia.
Qed.

(** Adding non-negative points to zero is exact. *)
Lemma reward_exact p : (0 ≤ p ≤ 27)%Z → f32_add f32_zero (f32_from p) = f32_from p.
Proof.
  intros Hp. rewrite <-(Z2Nat.id p) by lia. assert (Z.to_nat p < 28) as Hn by lia. clear Hp.
  generalize dependent (Z.to_nat p). clear p. intros n Hn.
  do 28 (destruct n as [|n]; [vm_compute; reflexivity|]). lia.
Qed.

Definition exact_bid (r : RoundScore) : bool :=
  match score_outcome r with Exact | AllTricks => true | Missed => false end.

Lemma add_scores_exact rs : length rs = 2 → Forall (λ r, 0 ≤ points r ≤ 27 ∧ 0 ≤ payment_cents r ≤ 10)%Z rs →
  foldM add_score (imap (event_of rs) rs) ([f32_zero; f32_zero], [0%Z; 0%Z], [false; false]) =
    Ok (f32_from ∘ points <$> rs, points <$> rs, exact_bid <$> rs).
Proof.
  intros Hlen Hb. destruct rs as [|r0 [|r1 [|]]]; try done.
  apply Forall_cons in Hb as [[H0 _] Hb]. apply Forall_cons in Hb as [[H1 _] _].
  cbn [imap foldM add_score event_of agent event_score Nat.ltb Nat.leb lookup list_lookup expect mbind outcome_bind
       insert list_insert fmap list_fmap compose].
  rewrite !reward_exact by done. done.
Qed.

Definition settled_turn (g : GameState) : Prop :=
  (∃ seat, oracle_turn g = OwnerAgent seat) ∨ oracle_turn g = OwnerFinished.

(** What automatic progress may change of the object: the game and the ordinal. *)
Definition same_episode (self self' : PocheRlEnv) : Prop :=
  rl_seed self' = rl_seed self ∧ public_played self' = public_played self ∧
  illegal_action_policy self' = illegal_action_policy self ∧
  illegal_action_count self' = illegal_action_count self ∧ decision_count self' = decision_count self.

Definition count_transition (acc : AutoAdvance) : AutoAdvance :=
  {| rewards := rewards acc; auto_points := auto_points acc; auto_exact := auto_exact acc;
     transitions := saturating_add 32 (transitions acc) 1 |}.

Lemma auto_stop n acc self : settled_turn (rl_game self) → auto_loop (S n) acc self = (self, Ok acc).
Proof.
  intros Ht. cbn [auto_loop]. unfold rl_bind, rl_get, rl_ret. by destruct Ht as [[seat ->]| ->].
Qed.

Lemma auto_deal n acc self l : rl_game self = SAwaitingDeal l → game_inv 2 (rl_game self) →
  ∃ s self', auto_loop (S n) acc self = auto_loop n (count_transition acc) self' ∧
    rl_game self' = SBidding s ∧ game_inv 2 (rl_game self') ∧ same_episode self self' ∧
    decisions_left (rl_game self') = decisions_left (rl_game self).
Proof.
  intros Hself Hg. pose proof two_players as HP. rewrite Hself in Hg.
  destruct (seeded_permutes (rl_seed self) (deal_ordinal self)) as (chance & Hch & Hdeck & _).
  destruct (deal_spec 2 HP l (deck chance) Hg Hdeck) as (s & Hd & _ & Hinv).
  assert (boundary_typed 2 (EnvChance chance)) as Hty by exact Hdeck.
  exists s, (set_game (set_ordinal self (saturating_add 32 (deal_ordinal self) 1)) (SBidding s)).
  split; [|split_and!; try done].
  - cbn [auto_loop]. unfold rl_bind, rl_get, rl_ret, rl_lift, rl_put. rewrite Hself. cbn [oracle_turn turn].
    assert (seeded (E := RlEnvironmentError) (rl_seed self) (deal_ordinal self) = Ok chance) as ->.
    { exact (seeded_any_error _ _ _ Hch). }
    rewrite (oracle_transition_spec 2 HP (SAwaitingDeal l) _ Hg Hty). cbn [oracle_action transition]. rewrite Hd.
    done.
  - rewrite Hself. cbn [rl_game set_game].
    pose proof (decisions_step (SAwaitingDeal l) (ADeal (deck chance)) _ Hg Hdeck Hd) as H.
    cbn [next actor_of] in H. lia.
Qed.

Lemma auto_settle n acc self s : rl_game self = SScoring s → game_inv 2 (rl_game self) →
  rewards acc = [f32_zero; f32_zero] →
  ∃ self' acc', auto_loop (S n) acc self = auto_loop n acc' self' ∧
    ((∃ l, rl_game self' = SAwaitingDeal l) ∨ ∃ f, rl_game self' = SFinished f) ∧
    game_inv 2 (rl_game self') ∧ same_episode self self' ∧
    decisions_left (rl_game self') = decisions_left (rl_game self) ∧
    rewards acc' = (f32_from ∘ points <$> scoring_scores s) ∧
    auto_points acc' = Some (points <$> scoring_scores s) ∧
    auto_exact acc' = Some (exact_bid <$> scoring_scores s).
Proof.
  intros Hself Hg Hrew. pose proof two_players as HP. rewrite Hself in Hg.
  assert (∃ t, settle_round 2 s = Ok t ∧ game_inv 2 (next t) ∧ round_scores t = Some (scoring_scores s) ∧
    ((∃ l, next t = SAwaitingDeal l) ∨ ∃ f, next t = SFinished f)) as (t & Ht & Hinv & Hrs & Hnext).
  { destruct (settle_round_spec 2 HP s Hg) as [(_ & f & _ & _ & Hf & ->)|(_ & Hl & ->)]; eexists;
      (split; [done|]); (split; [done|]); (split; [done|]); [right|left]; by eexists. }
  destruct (scoring_scores_bounds 2 HP s Hg) as [Hlen Hb].
  exists (set_game self (next t)), (count_transition
    {| rewards := f32_from ∘ points <$> scoring_scores s; auto_points := Some (points <$> scoring_scores s);
       auto_exact := Some (exact_bid <$> scoring_scores s); transitions := transitions acc |}).
  split; [|split_and!; try done].
  - cbn [auto_loop]. unfold rl_bind, rl_get, rl_ret, rl_lift, rl_put. rewrite Hself. cbn [oracle_turn turn].
    rewrite (oracle_transition_spec 2 HP (SScoring s) EnvSettle Hg I). cbn [oracle_action transition]. rewrite Ht.
    cbn [lift map_err out_round_scores fmap option_fmap option_map]. rewrite Hrs.
    cbn [fmap option_fmap option_map]. rewrite Hrew, (add_scores_exact _ Hlen Hb). done.
  - rewrite Hself. cbn [rl_game set_game].
    pose proof (decisions_step (SScoring s) ASettleRound t Hg I Ht) as H. cbn [actor_of] in H. lia.
Qed.

Lemma same_episode_trans a b c : same_episode a b → same_episode b c → same_episode a c.
Proof. unfold same_episode. naive_solver congruence. Qed.

(** Automatic progress always reaches a player's turn or the end of the game. *)
Lemma auto_advance_spec self : game_inv 2 (rl_game self) →
  ∃ self' acc, auto_advance self = (self', Ok acc) ∧ game_inv 2 (rl_game self') ∧
    settled_turn (rl_game self') ∧ same_episode self self' ∧
    decisions_left (rl_game self') = decisions_left (rl_game self) ∧
    match rl_game self with
    | SScoring s => rewards acc = (f32_from ∘ points <$> scoring_scores s) ∧
                    auto_points acc = Some (points <$> scoring_scores s) ∧
                    auto_exact acc = Some (exact_bid <$> scoring_scores s)
    | _ => rewards acc = [f32_zero; f32_zero] ∧ auto_points acc = None ∧ auto_exact acc = None
    end.
Proof.
  intros Hg. unfold auto_advance, AUTO_FUEL.
  destruct (rl_game self) as [l|s|s|s|f] eqn:Hself; rewrite <-Hself in Hg.
  - destruct (auto_deal 2 AutoAdvance_default self l Hself Hg) as (s & self' & -> & Hs' & Hg' & Hsame & Hdec).
    assert (settled_turn (rl_game self')) as Hturn by (rewrite Hs'; left; by eexists).
    rewrite auto_stop by done. eexists _, _. split; [done|]. rewrite <-Hself. by split_and!.
  - rewrite auto_stop by (rewrite Hself; left; by eexists). eexists _, _. split; [done|]. rewrite Hself in *.
    split_and!; try done. left. by eexists.
  - rewrite auto_stop by (rewrite Hself; left; by eexists). eexists _, _. split; [done|]. rewrite Hself in *.
    split_and!; try done. left. by eexists.
  - destruct (auto_settle 2 AutoAdvance_default self s Hself Hg) as
      (self' & acc' & -> & [(l & Hl)|(f & Hf)] & Hg' & Hsame & Hdec & Hr & Hp & He); [done| |].
    + destruct (auto_deal 1 acc' self' l Hl Hg') as (s' & self'' & -> & Hs' & Hg'' & Hsame' & Hdec').
      assert (settled_turn (rl_game self'')) as Hturn by (rewrite Hs'; left; by eexists).
      rewrite auto_stop by done. eexists _, _. split; [done|]. rewrite <-Hself.
      split_and!; try done; [by eapply same_episode_trans|by rewrite Hdec', Hdec].
    + assert (settled_turn (rl_game self')) as Hturn by (rewrite Hf; by right).
      rewrite auto_stop by done. eexists _, _. split; [done|]. rewrite <-Hself. by split_and!.
  - rewrite auto_stop by (rewrite Hself; by right). eexists _, _. split; [done|]. rewrite Hself in *.
    split_and!; try done. by right.
Qed.

(** ** The episode *)

Record rl_inv (self : PocheRlEnv) : Prop := {
  rl_game_inv : game_inv 2 (rl_game self);
  rl_turn : settled_turn (rl_game self);
  rl_played : length (public_played self) = 52;
}.

Section Episode.
Context (blake3_hex : list Z → string).

Lemma decision_agent self seat : rl_inv self → oracle_turn (rl_game self) = OwnerAgent seat →
  ∃ v o, decision blake3_hex self = Ok (Some v) ∧ view_seat v = seat ∧
    observe 2 (rl_game self) seat = Ok o ∧ encodable o ∧
    encode_observation o (public_played self) = Ok (observation v) ∧
    legal_action_mask (rl_game self) = Ok (legal_mask v).
Proof using Type.
  intros Hs Ht. destruct (observe_encodable _ seat (rl_game_inv _ Hs) Ht) as (o & Ho & Henc & _ & _).
  destruct (encode_spec o (public_played self) Henc (rl_played _ Hs)) as (out & Hout & _).
  destruct (mask_spec _ seat (rl_game_inv _ Hs) Ht) as (mask & acts & Hmask & _).
  unfold decision. rewrite Ht, Ho. cbn [expect_ok mbind outcome_bind]. rewrite Hout. cbn [mbind outcome_bind].
  rewrite Hmask. cbn [mbind outcome_bind]. eexists _, o. split; [done|]. by split_and!.
Qed.

Lemma decision_finished self : oracle_turn (rl_game self) = OwnerFinished →
  decision blake3_hex self = Ok None.
Proof using Type. intros Ht. unfold decision. by rewrite Ht. Qed.

Lemma decision_Ok self : rl_inv self → ∃ d, decision blake3_hex self = Ok d ∧
  (is_Some d ↔ phase (rl_game self) ≠ TagFinished).
Proof using Type.
  intros Hs. destruct (rl_turn _ Hs) as [[seat Ht]|Ht].
  - destruct (decision_agent self seat Hs Ht) as (v & o & Hv & _). exists (Some v). split; [done|].
    split; [|by eexists]. intros _ Hph. apply owner_of_phase in Hph. congruence.
  - exists None. split; [by apply decision_finished|]. apply owner_of_phase in Ht. by split; [intros [? ?]|].
Qed.

Lemma terminal_iff g : game_inv 2 g →
  (∃ o, oracle_terminal_status g = StatusFinished o) ↔ phase g = TagFinished.
Proof using Type.
  intros Hg. rewrite <-(outcome_iff_finished 2 two_players g Hg). unfold oracle_terminal_status.
  destruct (outcome_from_state g) as [o|]; split; naive_solver.
Qed.

Definition mark_played (self : PocheRlEnv) (a : OraclePlayerAction) : PocheRlEnv :=
  match a with
  | PlayerPlay _ card => set_played self (<[card_index card := true]> (public_played self))
  | PlayerBid _ _ => self
  end.

(** The rewards of a step: the points of the round it settled, if any. *)
Definition step_rewards (t : Transition) (r : RlStep) : Prop :=
  match next t with
  | SScoring s => instant_rewards r = (f32_from ∘ points <$> scoring_scores s) ∧
                  round_points r = Some (points <$> scoring_scores s) ∧
                  exact_bids r = Some (exact_bid <$> scoring_scores s)
  | _ => instant_rewards r = [f32_zero; f32_zero] ∧ round_points r = None ∧ exact_bids r = None
  end.

(** A step on a legal slot. *)
Lemma rl_step_legal self seat a i : rl_inv self → oracle_turn (rl_game self) = OwnerAgent seat →
  action_to_player_action (ActionIndexOf i) seat = Ok a →
  (∃ v, decision blake3_hex self = Ok (Some v) ∧ legal_mask v !! i = Some true ∧ view_seat v = seat) →
  boundary_typed 2 (EnvPlayer a) → (∃ t, oracle_transition 2 (rl_game self) (EnvPlayer a) = Ok t) →
  ∃ self' r t, rl_step blake3_hex (ActionIndexOf i) self = (self', Ok r) ∧
    transition 2 (rl_game self) (oracle_action (EnvPlayer a)) = Ok t ∧ rl_inv self' ∧
    public_played self' = public_played (mark_played self a) ∧
    decisions_left (rl_game self) = S (decisions_left (rl_game self')) ∧
    decision_count self' = saturating_add 64 (decision_count self) 1 ∧
    illegal_action_count self' = illegal_action_count self ∧
    (terminal r = true ↔ phase (rl_game self') = TagFinished) ∧
    (is_Some (next_decision r) ↔ phase (rl_game self') ≠ TagFinished) ∧ step_rewards t r.
Proof using Type.
  intros Hs Hturn Hact (v & Hv & Hmask & Hseat) Hty [out Hout]. pose proof two_players as HP.
  pose proof (rl_game_inv _ Hs) as Hg.
  rewrite (oracle_transition_spec 2 HP _ _ Hg Hty) in Hout.
  destruct (transition 2 (rl_game self) (oracle_action (EnvPlayer a))) as [t|e|] eqn:Ht; [|done..].
  assert (game_inv 2 (next t)) as Hg1 by (eapply step_inv; [done|exact Hg|by econstructor]).
  set (self1 := mark_played self a).
  set (self2 := set_decisions (set_game self1 (next t)) (saturating_add 64 (decision_count self1) 1)).
  destruct (auto_advance_spec self2 Hg1) as (self3 & acc & Hauto & Hg3 & Hturn3 & Hsame & Hdec & Hrew).
  destruct Hsame as (_ & Hplayed3 & _ & Hill3 & Hcount3).
  assert (length (public_played self1) = 52) as Hpl1.
  { unfold self1. destruct a; cbn [mark_played set_played public_played]; [apply Hs|].
    rewrite length_insert. apply Hs. }
  assert (rl_inv self3) as Hs3 by (split; [done|done|by rewrite Hplayed3]).
  destruct (decision_Ok self3 Hs3) as (d & Hd & Hdsome).
  pose proof (decisions_step _ _ t Hg Hty Ht) as Hdstep.
  assert (actor_of (oracle_action (EnvPlayer a)) = Some seat ∨ ∃ p, actor_of (oracle_action (EnvPlayer a)) = Some p)
    as Hactor by (right; destruct a; by eexists).
  eexists self3, _, t. split; [|split; [done|split; [done|]]].
  - unfold rl_step, rl_bind, rl_get, rl_lift, rl_put, rl_ret. rewrite Hv. cbn [index_value]. rewrite Hmask.
    cbn [expect negb]. rewrite Hseat, Hact.
    assert (record_play self a self = (self1, Ok tt)) as ->.
    { unfold self1. destruct a as [|p c]; [done|]. cbn [record_play mark_played].
      by rewrite (rl_played _ Hs), (proj2 (Nat.ltb_lt _ _) (card_index_lt c)). }
    rewrite (oracle_transition_spec 2 HP _ _ Hg Hty), Ht. cbn [lift map_err out_state]. fold self2.
    rewrite Hauto, Hd. reflexivity.
  - cbn [terminal next_decision]. split_and!.
    + rewrite Hplayed3. done.
    + rewrite Hdec, Hdstep. cbn [self2 set_decisions rl_game set_game].
      destruct Hactor as [->|[p ->]]; lia.
    + rewrite Hcount3. cbn [self2 set_decisions decision_count]. by destruct a.
    + rewrite Hill3. unfold self2, self1. by destruct a.
    + rewrite bool_decide_eq_true, <-(terminal_iff _ Hg3).
      destruct (oracle_terminal_status (rl_game self3)) as [|o]; split; naive_solver.
    + exact Hdsome.
    + unfold step_rewards. cbn [self2 set_decisions rl_game set_game] in Hrew.
      destruct (next t); exact Hrew.
Qed.

(** A step on a masked slot only counts, if at all. *)
Lemma rl_step_illegal self v i : rl_inv self → decision blake3_hex self = Ok (Some v) →
  legal_mask v !! i = Some false →
  rl_step blake3_hex (ActionIndexOf i) self =
    ((if bool_decide (illegal_action_policy self = CountAndReject)
      then set_illegal self (saturating_add 64 (illegal_action_count self) 1) else self), Err IllegalAction).
Proof using Type.
  intros Hs Hv Hm. unfold rl_step, rl_bind, rl_get, rl_lift, rl_put, rl_ret. rewrite Hv. cbn [index_value].
  rewrite Hm. cbn [expect negb]. by case_bool_decide.
Qed.

Lemma reset_inv seed policy : ∃ self, reset_with_policy seed policy = Ok self ∧ rl_inv self ∧
  decisions_left (rl_game self) = 124 ∧ decision_count self = 0%Z ∧ illegal_action_count self = 0%Z.
Proof using Type.
  unfold reset_with_policy. pose proof two_players as HP.
  set (dealer := if (Z.land seed 1 =? 0)%Z then 0 else 1).
  assert (dealer < 2) as Hd by (unfold dealer; destruct (_ =? _)%Z; lia).
  rewrite (Seat_new_Ok 2 HP dealer Hd). cbn [lift map_err mbind outcome_bind].
  destruct (game_new_inv 2 HP dealer Hd) as (g & Hnew & Hg). unfold initial. rewrite Hnew.
  cbn [lift map_err mbind outcome_bind]. set (self0 := {| rl_game := g |}).
  destruct (auto_advance_spec self0 Hg) as (self & acc & -> & Hg' & Hturn & Hsame & Hdec & _).
  exists self. destruct Hsame as (_ & Hpl & _ & Hill & Hcnt). split; [done|]. split.
  { split; [done|done|]. rewrite Hpl. apply length_replicate. }
  split_and!; [|by rewrite Hcnt|by rewrite Hill].
  rewrite Hdec. cbn [self0 rl_game]. unfold decisions_left. rewrite (game_new_steps 2 dealer g HP Hnew).
  unfold Game_new in Hnew. apply bind_Ok in Hnew as (_ & _ & Hnew). inv_ok. reflexivity.
Qed.
End Episode.

(** ** Episodes *)

Section Reachable.
Context (blake3_hex : list Z → string).

(** An environment object after any calls, accepted or not. *)
Inductive rl_reachable : PocheRlEnv → Prop :=
  | rl_reset seed policy self : reset_with_policy seed policy = Ok self → rl_reachable self
  | rl_stepped self i self' o : rl_reachable self → i < ACTION_COUNT →
      rl_step blake3_hex (ActionIndexOf i) self = (self', o) → rl_reachable self'.

(** The outcome of a step on any slot of the vocabulary. *)
Lemma rl_step_cases self i : rl_inv self → i < ACTION_COUNT →
  (phase (rl_game self) = TagFinished ∧ decision blake3_hex self = Ok None ∧
   rl_step blake3_hex (ActionIndexOf i) self = (self, Err NoAgentTurn)) ∨
  (∃ v (b : bool), decision blake3_hex self = Ok (Some v) ∧ legal_mask v !! i = Some b ∧
    if b then
      ∃ self' r a t, action_to_player_action (ActionIndexOf i) (view_seat v) = Ok a ∧
        rl_step blake3_hex (ActionIndexOf i) self = (self', Ok r) ∧
        transition 2 (rl_game self) (oracle_action (EnvPlayer a)) = Ok t ∧ rl_inv self' ∧
        decisions_left (rl_game self) = S (decisions_left (rl_game self')) ∧
        decision_count self' = saturating_add 64 (decision_count self) 1 ∧
        (terminal r = true ↔ phase (rl_game self') = TagFinished) ∧
        (is_Some (next_decision r) ↔ phase (rl_game self') ≠ TagFinished) ∧ step_rewards t r
    else
      rl_step blake3_hex (ActionIndexOf i) self =
        ((if bool_decide (illegal_action_policy self = CountAndReject)
          then set_illegal self (saturating_add 64 (illegal_action_count self) 1) else self), Err IllegalAction)).
Proof using Type.
  intros Hs Hi. destruct (rl_turn _ Hs) as [[seat Ht]|Ht].
  - right. destruct (decision_agent blake3_hex self seat Hs Ht) as (v & o & Hv & Hseat & _ & _ & _ & Hm).
    destruct (mask_spec _ seat (rl_game_inv _ Hs) Ht) as (mask & acts & Hmask & Hlen & _ & Hspec & _ & Hacts).
    assert (mask = legal_mask v) as -> by congruence.
    destruct (lookup_lt_is_Some_2 (legal_mask v) i) as [b Hb]; [by rewrite Hlen|]. exists v, b.
    split; [done|]. split; [done|]. destruct b; [|by eapply rl_step_illegal].
    destruct (proj1 (Hspec i) Hb) as (a & Ha & Hin). destruct (Hacts a Hin) as [Hty Hok].
    destruct (rl_step_legal blake3_hex self seat a i Hs Ht Ha) as (self' & r & t & H1 & H2 & H3 & _ & H4 & H5 & _ & H6 & H7 & H8);
      [by exists v|done|done|].
    exists self', r, a, t. rewrite Hseat. by split_and!.
  - left. apply owner_of_phase in Ht as Hp. split; [done|].
    pose proof (decision_finished blake3_hex self Ht) as Hd. split; [done|].
    unfold rl_step, rl_bind, rl_get, rl_lift. by rewrite Hd.
Qed.

Lemma rl_reachable_inv self : rl_reachable self → rl_inv self.
Proof using Type.
  induction 1 as [seed policy self Hr|self i self' o _ IH Hi Hstep].
  - destruct (reset_inv seed policy) as (self' & Hr' & Hinv & _). congruence.
  - destruct (rl_step_cases self i IH Hi) as [(_ & _ & Heq)|(v & [] & _ & _ & Hb)].
    + congruence.
    + destruct Hb as (self'' & r & a & t & _ & Heq & _ & Hinv & _). congruence.
    + rewrite Hb in Hstep. injection Hstep as <- <-. case_bool_decide; [|done]. destruct IH as [H1 H2 H3]. by split.
Qed.
End Reachable.

(** A step on any slot of any episode has one of three outcomes.  After the
    end of the game it is refused; on a masked slot it is refused and leaves the
    object as it was, but for the diagnostic counter of the counting policy; on a
    legal slot it succeeds: the oracle accepts the action the slot names, deals and
    settlements are played out, exactly the two seats' points of a round settled
    on the way are the rewards, and the step is terminal exactly when the game is
    finished and no decision follows. *)
Theorem rl_step_outcome blake3_hex self i : rl_reachable blake3_hex self → i < ACTION_COUNT →
  (phase (rl_game self) = TagFinished ∧
   rl_step blake3_hex (ActionIndexOf i) self = (self, Err NoAgentTurn)) ∨
  (∃ v (b : bool), decision blake3_hex self = Ok (Some v) ∧ legal_mask v !! i = Some b ∧
    if b then
      ∃ self' r a t, action_to_player_action (ActionIndexOf i) (view_seat v) = Ok a ∧
        rl_step blake3_hex (ActionIndexOf i) self = (self', Ok r) ∧
        transition 2 (rl_game self) (oracle_action (EnvPlayer a)) = Ok t ∧
        decision_count self' = saturating_add 64 (decision_count self) 1 ∧
        (terminal r = true ↔ phase (rl_game self') = TagFinished) ∧
        (is_Some (next_decision r) ↔ terminal r = false) ∧ step_rewards t r
    else
      rl_step blake3_hex (ActionIndexOf i) self =
        ((if bool_decide (illegal_action_policy self = CountAndReject)
          then set_illegal self (saturating_add 64 (illegal_action_count self) 1) else self), Err IllegalAction)).
Proof.
  intros Hr%rl_reachable_inv Hi. destruct (rl_step_cases blake3_hex self i Hr Hi) as [(? & _ & ?)|(v & b & Hv & Hm & Hb)];
    [by left|right]. exists v, b. split; [done|]. split; [done|]. destruct b; [|done].
  destruct Hb as (self' & r & a & t & H1 & H2 & H3 & _ & _ & H5 & H6 & H7 & H8).
  exists self', r, a, t. split_and!; try done. rewrite H7, <-H6. by destruct (terminal r).
Qed.

(** Evaluating a first decision, for the witnesses. *)
Definition first_decision (blake3_hex : list Z → string) (seed : Z) (policy : IllegalActionPolicy)
    : option (PocheRlEnv * DecisionView) :=
  match reset_with_policy seed policy with
  | Ok self => match decision blake3_hex self with Ok (Some v) => Some (self, v) | _ => None end
  | _ => None
  end.

Lemma first_decision_Some blake3_hex seed policy self v :
  first_decision blake3_hex seed policy = Some (self, v) →
  reset_with_policy seed policy = Ok self ∧ decision blake3_hex self = Ok (Some v) ∧ rl_reachable blake3_hex self.
Proof.
  unfold first_decision. destruct (reset_with_policy seed policy) as [s|e|] eqn:Hs; [|done..].
  destruct (decision blake3_hex s) as [[w|]|e|] eqn:Hw; [|done..].
  intros [= -> ->]. split_and!; [done|done|by eapply rl_reset].
Qed.

Definition no_digest (bytes : list Z) : string := "digest".

Lemma rl_step_outcome_witness : ∃ self v,
  (rl_reachable no_digest self ∧ 0 < ACTION_COUNT ∧ decision no_digest self = Ok (Some v) ∧
   legal_mask v !! 0 = Some true) ∧
  ∃ self' r, rl_step no_digest (ActionIndexOf 0) self = (self', Ok r) ∧
    (terminal r = true ↔ phase (rl_game self') = TagFinished).
Proof.
  destruct (first_decision no_digest 9 CountAndReject) as [[self v]|] eqn:Hfirst;
    [|exfalso; revert Hfirst; vm_compute; discriminate].
  assert (((λ p, legal_mask (snd p) !! 0) <$> first_decision no_digest 9 CountAndReject) = Some (Some true)) as Hm
    by (vm_compute; reflexivity).
  rewrite Hfirst in Hm. cbn [fmap option_fmap option_map snd] in Hm. injection Hm as Hm.
  destruct (first_decision_Some _ _ _ _ _ Hfirst) as (Hs & Hv & Hr).
  assert (0 < ACTION_COUNT) as H0 by (unfold ACTION_COUNT; lia).
  exists self, v. split; [exact (conj Hr (conj H0 (conj Hv Hm)))|].
  destruct (rl_step_outcome no_digest self 0 Hr H0) as [(Hf & Hstep)|(v' & b & Hv' & Hm' & Hb)].
  - exfalso. assert (∃ seat, oracle_turn (rl_game self) = OwnerAgent seat) as [seat Hseat].
    { destruct (rl_turn _ (rl_reachable_inv _ _ Hr)) as [|Hfin]; [done|].
      unfold decision in Hv. rewrite Hfin in Hv. discriminate Hv. }
    apply owner_of_phase in Hf. congruence.
  - rewrite Hv in Hv'. injection Hv' as <-. rewrite Hm in Hm'. injection Hm' as <-.
    destruct Hb as (self' & r & _ & _ & _ & Hstep & _ & _ & Hterm & _). exists self', r. exact (conj Hstep Hterm).
Defined.

(** Playing a list of slots, all of which must be accepted. *)
Definition rl_run (blake3_hex : list Z → string) (slots : list nat) (self : PocheRlEnv) : option PocheRlEnv :=
  foldl (λ acc i, self ← acc;
           match rl_step blake3_hex (ActionIndexOf i) self with (self', Ok _) => Some self' | _ => None end)
    (Some self) slots.

Lemma rl_run_steps blake3_hex slots self self' : rl_inv self → Forall (λ i, i < ACTION_COUNT) slots →
  rl_run blake3_hex slots self = Some self' →
  rl_inv self' ∧ decisions_left (rl_game self) = length slots + decisions_left (rl_game self').
Proof.
  intros Hs Hall. revert self Hs; induction Hall as [|i slots Hi _ IH]; intros self Hs Hrun.
  { unfold rl_run in Hrun. cbn in Hrun. simplify_eq. by split. }
  unfold rl_run in Hrun. cbn [foldl mbind option_bind] in Hrun.
  assert (∀ l, foldl (λ acc i, self ← acc;
     match rl_step blake3_hex (ActionIndexOf i) self with (self', Ok _) => Some self' | _ => None end) None l
     = None) as Hnone by (intros l; induction l; done).
  destruct (rl_step_cases blake3_hex self i Hs Hi) as [(_ & _ & Heq)|(v & [] & _ & _ & Hb)].
  - rewrite Heq, Hnone in Hrun. discriminate Hrun.
  - destruct Hb as (self1 & r & a & t & _ & Heq & _ & Hinv & Hdec & _). rewrite Heq in Hrun.
    destruct (IH self1 Hinv Hrun) as [Hinv' Hlen]. split; [done|]. rewrite Hdec, Hlen. done.
  - rewrite Hb, Hnone in Hrun. discriminate Hrun.
Qed.

Lemma decisions_left_0 g : game_inv 2 g → settled_turn g → decisions_left g = 0 ↔ phase g = TagFinished.
Proof.
  intros Hg Ht. split.
  - intros H0. destruct Ht as [[seat Hseat]|Hf]; [|by apply owner_of_phase].
    exfalso. unfold decisions_left in H0. pose proof two_players as HP.
    destruct g as [l|s|s|s|f]; try done; cbn [steps_left admin_left game_inv] in *.
    + pose proof (later_steps_admin _ (li_round _ _ (bi_ledger _ _ Hg))). pose proof (bi_made _ _ Hg). lia.
    + destruct Hg as (l & Hg & Hl & Ha). pose proof (later_steps_admin _ (li_round _ _ (pi_ledger _ _ _ Hg))).
      destruct (actor_has_cards 2 s l HP Hg Hl Ha) as (hand & Hhand & Hne).
      rewrite Ha in Hhand. destruct (pi_hands _ _ _ Hg _ _ Hl Hhand) as [Hwf _].
      assert (len hand ≠ 0) as Hlen by (rewrite (zone_len _ _ Hwf); by rewrite length_zero_iff_nil).
      pose proof (sum_list_insert (len <$> pl_hands s) (advance 2 (pl_leader s) (length l)) (len hand) 0) as Hsum.
      rewrite list_lookup_fmap, Hhand in Hsum. specialize (Hsum eq_refl). lia.
  - by destruct g.
Qed.

(** Every two-player episode lasts exactly 124 decisions: from any reset,
    with either policy for masked actions, a sequence of accepted slots is at most
    that long and ends the game exactly when it is that long. *)
Theorem episode_length blake3_hex seed policy self slots self' :
  reset_with_policy seed policy = Ok self → Forall (λ i, i < ACTION_COUNT) slots →
  rl_run blake3_hex slots self = Some self' →
  length slots ≤ 124 ∧ (length slots = 124 ↔ phase (rl_game self') = TagFinished).
Proof.
  intros Hr Hall Hrun. destruct (reset_inv seed policy) as (self0 & Hr' & Hinv & Hdec & _).
  assert (self0 = self) as -> by congruence.
  destruct (rl_run_steps blake3_hex slots self self' Hinv Hall Hrun) as [Hinv' Hlen].
  split; [lia|]. rewrite <-(decisions_left_0 _ (rl_game_inv _ Hinv') (rl_turn _ Hinv')). lia.
Qed.

Lemma episode_length_witness : ∃ self self',
  (reset_with_policy 5 Reject = Ok self ∧ Forall (λ i, i < ACTION_COUNT) [0; 0] ∧
   rl_run no_digest [0; 0] self = Some self') ∧
  length [0; 0] ≤ 124 ∧ (length [0; 0] = 124 ↔ phase (rl_game self') = TagFinished).
Proof.
  assert (Forall (λ i, i < ACTION_COUNT) [0; 0]) as Hall by (repeat constructor; unfold ACTION_COUNT; lia).
  assert (∃ self, reset_with_policy 5 Reject = Ok self ∧
    ∃ self', rl_run no_digest [0; 0] self = Some self') as (self & Hs & self' & Hrun).
  { assert ((match reset_with_policy 5 Reject with
      | Ok s => match rl_run no_digest [0; 0] s with Some _ => true | None => false end | _ => false end) = true)
      as H by (vm_compute; reflexivity).
    destruct (reset_with_policy 5 Reject) as [self|e|]; [|discriminate H..]. exists self. split; [reflexivity|].
    destruct (rl_run no_digest [0; 0] self) as [self'|]; [|discriminate H]. by exists self'. }
  exists self, self'. split; [exact (conj Hs (conj Hall Hrun))|].
  exact (episode_length no_digest 5 Reject self [0; 0] self' Hs Hall Hrun).
Defined.

(** [C27] A decision shows the exact legal mask and the exact cards: a slot is
    allowed exactly when the action it names is accepted by the oracle, some slot
    is allowed, and in the 307 features the bit of a card in the private-hand,
    trump and public-history segments is one exactly when the card is in the
    viewer's hand, is the trump card, or is marked in the public history. *)
Theorem decision_exact blake3_hex self v : rl_reachable blake3_hex self →
  decision blake3_hex self = Ok (Some v) →
  oracle_turn (rl_game self) = OwnerAgent (view_seat v) ∧
  length (legal_mask v) = ACTION_COUNT ∧ (∃ i, legal_mask v !! i = Some true) ∧
  (∀ i, i < ACTION_COUNT → legal_mask v !! i = Some true ↔
     ∃ a, action_to_player_action (ActionIndexOf i) (view_seat v) = Ok a ∧ boundary_typed 2 (EnvPlayer a) ∧
       is_ok (transition 2 (rl_game self) (oracle_action (EnvPlayer a))) = true) ∧
  ∃ o, observe 2 (rl_game self) (view_seat v) = Ok o ∧ length (observation v) = OBSERVATION_SIZE ∧
    (∀ c, observation v !! (15 + card_index c) = Some (bit (bool_decide (c ∈ iter (obs_private_hand o))))) ∧
    (∀ c, observation v !! (70 + card_index c) = Some (bit (bool_decide (obs_trump o = Some c)))) ∧
    (∀ c b, public_played self !! card_index c = Some b → observation v !! (255 + card_index c) = Some (bit b)).
Proof.
  intros Hr%rl_reachable_inv Hv. pose proof two_players as HP. pose proof (rl_game_inv _ Hr) as Hg.
  destruct (rl_turn _ Hr) as [[seat Ht]|Ht]; [|by rewrite (decision_finished blake3_hex self Ht) in Hv].
  destruct (decision_agent blake3_hex self seat Hr Ht) as (v' & o & Hv' & Hseat & Ho & Henc & Hobs & Hm).
  assert (v' = v) as -> by congruence. rewrite Hseat.
  destruct (mask_spec _ seat Hg Ht) as (mask & acts & Hmask & Hlen & Hacts & Hspec & Hex & Hall).
  assert (mask = legal_mask v) as -> by congruence.
  split_and!; [done|done|done| |].
  - intros i Hi. rewrite Hspec. split.
    + intros (a & Ha & Hin). exists a. split; [done|]. destruct (Hall a Hin) as [Hty [t Hok]]. split; [done|].
      rewrite (oracle_transition_spec 2 HP _ _ Hg Hty) in Hok. by destruct (transition _ _ _).
    + intros (a & Ha & Hty & Hok). exists a. split; [done|].
      destruct (boundary_legal 2 HP _ Hg) as (acts' & Hacts' & Hin & _).
      assert (acts' = acts) as -> by congruence. apply Hin. split; [done|].
      rewrite (oracle_transition_spec 2 HP _ _ Hg Hty). destruct (transition _ _ _); [by eexists|done..].
  - exists o. split; [done|].
    destruct (encode_spec o (public_played self) Henc (rl_played _ Hr)) as (out & Hout & H1 & H2 & H3 & H4).
    assert (out = observation v) as -> by congruence. done.
Qed.

Lemma decision_exact_witness : ∃ self v,
  (rl_reachable no_digest self ∧ decision no_digest self = Ok (Some v)) ∧
  oracle_turn (rl_game self) = OwnerAgent (view_seat v) ∧ (∃ i, legal_mask v !! i = Some true).
Proof.
  destruct (first_decision no_digest 5 Reject) as [[self v]|] eqn:Hfirst;
    [|exfalso; revert Hfirst; vm_compute; discriminate].
  destruct (first_decision_Some _ _ _ _ _ Hfirst) as (Hs & Hv & Hr).
  exists self, v. split; [exact (conj Hr Hv)|].
  destruct (decision_exact no_digest self v Hr Hv) as (H1 & _ & H2 & _). exact (conj H1 H2).
Defined.
