(* ===== verification/RlPolicy.v ===== *)
(** * The baseline policies

    The replay generator visits every 64-bit value, so that rejection sampling
    terminates; every baseline policy returns a legal action whenever one
    exists. *)

From Stdlib Require Import Floats.SpecFloat.
From stdpp Require Import base strings numbers option sets list.
From S2P Require Import Prelude Oracle OracleLemmas OracleTheorems Environment EnvironmentTheorems Rl RlTheorems.

(** ** The mixing function is onto *)

Definition xorshift (k v : Z) : Z := Z.lxor v (Z.shiftr v k).

(** The inverse of [xorshift k] on words of at most [3 k] bits. *)
Definition unshift (k x : Z) : Z := Z.lxor x (Z.lxor (Z.shiftr x k) (Z.shiftr x (k + k))).

Lemma shiftr_width x n : (0 ≤ n)%Z → in_width n x → Z.shiftr x n = 0%Z.
Proof. intros Hn [H0 H1]. rewrite Z.shiftr_div_pow2 by done. apply Z.div_small. done. Qed.

Lemma xorshift_unshift k x : (0 ≤ k)%Z → (64 ≤ 3 * k)%Z → in_width 64 x → xorshift k (unshift k x) = x.
Proof.
  intros Hk Hk3 Hx. unfold xorshift, unshift. rewrite !Z.shiftr_lxor, !Z.shiftr_shiftr by lia.
  replace (k + k + k)%Z with (3 * k)%Z by lia.
  assert (Z.shiftr x (3 * k) = 0%Z) as ->.
  { apply shiftr_width; [lia|]. eapply in_width_mono; [|exact Hx]. lia. }
  rewrite Z.lxor_0_r. set (a := Z.shiftr x k). set (b := Z.shiftr x (k + k)).
  rewrite Z.lxor_assoc, Z.lxor_nilpotent. apply Z.lxor_0_r.
Qed.

Lemma unshift_width k x : (0 ≤ k)%Z → in_width 64 x → in_width 64 (unshift k x).
Proof.
  intros Hk Hx. unfold unshift. apply in_width_lxor; [lia|done|].
  apply in_width_lxor; [lia|apply in_width_shiftr; [lia|done]..].
Qed.

(** Multiplication by [c] modulo 2^64, undone by the inverse [d] of [c]. *)
Lemma wrapping_mul_inverse c d x : ((d * c) mod 2 ^ 64 = 1)%Z → in_width 64 x →
  wrapping_mul 64 (wrapping_mul 64 x d) c = x.
Proof.
  intros Hd Hx. unfold wrapping_mul. rewrite Z.mul_mod_idemp_l by lia.
  rewrite <-Z.mul_assoc, <-Z.mul_mod_idemp_r, Hd, Z.mul_1_r by lia. by apply Z.mod_small.
Qed.

(** The output function of [next_u64]. *)
Definition mix (state : Z) : Z :=
  xorshift 31 (wrapping_mul 64 (xorshift 27 (wrapping_mul 64 (xorshift 30 state) 0xbf58476d1ce4e5b9))
                 0x94d049bb133111eb).

Definition unmix (v : Z) : Z :=
  unshift 30 (wrapping_mul 64 (unshift 27 (wrapping_mul 64 (unshift 31 v) 0x319642b2d24d8ec3))
                0x96de1b173f119089).

Lemma mix_unmix v : in_width 64 v → mix (unmix v) = v.
Proof.
  intros Hv. unfold mix, unmix.
  pose proof (unshift_width 31 v ltac:(lia) Hv) as H1.
  assert (∀ x d, in_width 64 (wrapping_mul 64 x d)) as Hm by (intros; apply wrapping_mul_in_width; lia).
  rewrite (xorshift_unshift 30) by (lia || apply Hm).
  rewrite wrapping_mul_inverse; [|by vm_compute|by apply unshift_width].
  rewrite (xorshift_unshift 27) by (lia || apply Hm).
  rewrite wrapping_mul_inverse; [|by vm_compute|done].
  by apply xorshift_unshift.
Qed.

Definition GAMMA : Z := 0x9e3779b97f4a7c15.
Definition GAMMA_INV : Z := 0xf1de83e19937733d.

(** The state after [n] draws. *)
Definition state_after (s : Z) (n : nat) : Z := (s + Z.of_nat n * GAMMA) mod 2 ^ 64.

Lemma state_after_S s n : state_after (wrapping_add 64 s GAMMA) n = state_after s (S n).
Proof.
  unfold state_after, wrapping_add. rewrite Z.add_mod_idemp_l by lia. f_equal. lia.
Qed.

(** Every state is reached. *)
Lemma state_reached s target : in_width 64 target → ∃ n, state_after s (S n) = target.
Proof.
  intros Ht. set (n := (((target - s - GAMMA) * GAMMA_INV) mod 2 ^ 64)%Z).
  assert (0 ≤ n)%Z as Hn by (apply Z.mod_pos_bound; lia).
  exists (Z.to_nat n). unfold state_after. rewrite Nat2Z.inj_succ, Z2Nat.id by done.
  replace (s + Z.succ n * GAMMA)%Z with (s + GAMMA + n * GAMMA)%Z by lia.
  unfold n. rewrite <-Z.add_mod_idemp_r, Z.mul_mod_idemp_l, <-Z.mul_assoc by lia.
  rewrite <-(Z.mul_mod_idemp_r _ (GAMMA_INV * GAMMA)) by lia.
  assert (((GAMMA_INV * GAMMA) mod 2 ^ 64)%Z = 1%Z) as -> by by vm_compute.
  rewrite Z.mul_1_r, Z.add_mod_idemp_r by lia.
  replace (s + GAMMA + (target - s - GAMMA))%Z with target by lia. by apply Z.mod_small.
Qed.

Lemma next_u64_spec rng :
  next_u64 rng = (ReplayRngOf (wrapping_add 64 (rng_state rng) GAMMA), mix (wrapping_add 64 (rng_state rng) GAMMA)).
Proof. done. Qed.

Lemma below_Ok rng upper : 0 < upper → (Z.of_nat upper < 2 ^ 64)%Z →
  below rng upper = Ok ((next_u64 rng).1, Z.to_nat ((next_u64 rng).2 mod Z.of_nat upper)) ∧
  Z.to_nat ((next_u64 rng).2 mod Z.of_nat upper) < upper.
Proof.
  intros Hpos Hw. unfold below. rewrite (proj2 (checked_Some 64 _ _)) by (split; [done|unfold in_width; lia]).
  cbn [expect mbind outcome_bind]. destruct (next_u64 rng) as [rng' value]. cbn [fst snd].
  pose proof (Z.mod_pos_bound value (Z.of_nat upper) ltac:(lia)) as Hm.
  rewrite (proj2 (Z.eqb_neq _ _)) by lia.
  rewrite (proj2 (checked_Some 64 (value mod Z.of_nat upper) _)) by (split; [done|unfold in_width; lia]).
  split; [done|]. lia.
Qed.

(** If the [n]-th draw from now hits a legal slot, the loop has returned by then. *)
Lemma rejection_loop_hits n rng mask i : length mask = ACTION_COUNT → mask !! i = Some true →
  mix (state_after (rng_state rng) (S n)) = Z.of_nat i →
  ∃ fuel rng' a, mask !! index_value a = Some true ∧
    ∀ more, rejection_loop (fuel + more) rng mask = Ok (rng', a).
Proof.
  intros Hlen Hi. assert (i < ACTION_COUNT) as Hi60 by (rewrite <-Hlen; by eapply lookup_lt_Some).
  revert rng; induction n as [|n IH]; intros rng Hhit;
    destruct (below_Ok rng ACTION_COUNT) as [Hb Hlt]; try (unfold ACTION_COUNT; lia);
    set (j := Z.to_nat _) in Hb, Hlt;
    (destruct (lookup_lt_is_Some_2 mask j) as [b Hbj]; [by rewrite Hlen|]); destruct b.
  1, 3: exists 1, (next_u64 rng).1, (ActionIndexOf j); split; [done|]; intros more;
    cbn [Nat.add rejection_loop]; rewrite Hb; cbn [mbind outcome_bind]; rewrite Hbj;
    cbn [expect mbind outcome_bind]; unfold ActionIndex_new; by rewrite (proj2 (Nat.ltb_lt _ _) Hlt).
  - exfalso. assert (j = i) as ->; [|congruence]. unfold j. rewrite next_u64_spec. cbn [snd].
    unfold state_after in Hhit. rewrite Z.mul_1_l in Hhit. unfold wrapping_add. rewrite Hhit.
    rewrite Z.mod_small; [lia|]. unfold ACTION_COUNT in *. lia.
  - destruct (IH (next_u64 rng).1) as (fuel & rng' & a & Ha & Hrun).
    { rewrite next_u64_spec. cbn [fst rng_state]. by rewrite state_after_S. }
    exists (S fuel), rng', a. split; [done|]. intros more. cbn [Nat.add rejection_loop]. rewrite Hb.
    cbn [mbind outcome_bind]. rewrite Hbj. cbn [expect mbind outcome_bind]. apply Hrun.
Qed.

Lemma existsb_mask mask : existsb id mask = true ↔ ∃ i, mask !! i = Some true.
Proof.
  rewrite existsb_exists. split.
  - intros (b & Hb%list_elem_of_In & Ht). unfold id in Ht. subst b. by apply list_elem_of_lookup in Hb.
  - intros (i & Hi). exists true. split; [|done]. by apply list_elem_of_In, (list_elem_of_lookup_2 _ i).
Qed.

(** Rejection sampling terminates: the replay generator steps through all
    2^64 states and its output function is onto, so from every generator state the
    uniform policy draws a legal slot after finitely many draws, whatever more
    fuel it is given, and returns it; it fails exactly when the mask is empty. *)
Theorem uniform_random_terminates rng mask : length mask = ACTION_COUNT →
  ((∃ i, mask !! i = Some true) → ∃ fuel rng' a, mask !! index_value a = Some true ∧
     ∀ more, uniform_random_select (fuel + more) rng mask = Ok (rng', a)) ∧
  ((¬ ∃ i, mask !! i = Some true) → ∀ fuel, uniform_random_select fuel rng mask = Err NoLegalAction).
Proof.
  intros Hlen. unfold uniform_random_select. split.
  - intros [i Hi]. rewrite (proj2 (existsb_mask mask)) by by exists i.
    assert (i < ACTION_COUNT) as Hi60 by (rewrite <-Hlen; by eapply lookup_lt_Some).
    assert (in_width 64 (Z.of_nat i)) as Hw by (unfold in_width, ACTION_COUNT in *; lia).
    assert (in_width 64 (unmix (Z.of_nat i))) as Hu.
    { apply unshift_width; [lia|]. apply wrapping_mul_in_width. lia. }
    destruct (state_reached (rng_state rng) (unmix (Z.of_nat i)) Hu) as [n Hn].
    destruct (rejection_loop_hits n rng mask i Hlen Hi) as (fuel & rng' & a & Ha & Hrun).
    { rewrite Hn. by apply mix_unmix. }
    exists fuel, rng', a. by split.
  - intros Hno fuel. destruct (existsb id mask) eqn:He; [|done]. apply existsb_mask in He. done.
Qed.

Lemma uniform_random_terminates_witness :
  let mask := <[59 := true]> (replicate 60 false) in
  (length mask = ACTION_COUNT ∧ mask !! 59 = Some true) ∧
  ∃ fuel rng' a, mask !! index_value a = Some true ∧
    ∀ more, uniform_random_select (fuel + more) (ReplayRngOf 8) mask = Ok (rng', a).
Proof.
  intros mask. assert (length mask = ACTION_COUNT) as Hl by reflexivity.
  assert (mask !! 59 = Some true) as Hi by reflexivity.
  split; [exact (conj Hl Hi)|].
  exact (proj1 (uniform_random_terminates (ReplayRngOf 8) mask Hl) (ex_intro _ 59 Hi)).
Defined.

(** ** Policies without loops *)

Lemma elem_of_legal_indices mask i : i ∈ legal_indices mask ↔ mask !! i = Some true.
Proof.
  unfold legal_indices. rewrite list_elem_of_omap. split.
  - intros ([j b] & Hj & Hb). apply elem_of_lookup_imap in Hj as (k & b' & [= -> ->] & Hk).
    cbn in Hb. destruct b'; by simplify_eq.
  - intros Hi. exists (i, true). split; [|done]. apply elem_of_lookup_imap. by exists i, true.
Qed.

Lemma ActionIndex_new_Ok i : i < ACTION_COUNT → ActionIndex_new i = Ok (ActionIndexOf i).
Proof. intros Hi. unfold ActionIndex_new. by rewrite (proj2 (Nat.ltb_lt _ _) Hi). Qed.

Lemma length_legal_indices mask : length (legal_indices mask) ≤ length mask.
Proof.
  unfold legal_indices. rewrite <-(length_imap pair mask). generalize (imap pair mask). intros l.
  induction l as [|[j [|]] l IH]; cbn in *; lia.
Qed.

Lemma position_id mask : (∃ i, mask !! i = Some true) → ∃ i, position id mask = Some i ∧ mask !! i = Some true.
Proof.
  intros (i & Hi). pose proof (position_spec id mask) as Hp. destruct (position id mask) as [j|].
  - destruct Hp as (b & Hb & Ht & _). exists j. unfold id in Ht. by subst b.
  - specialize (Hp true (list_elem_of_lookup_2 _ _ _ Hi)). done.
Qed.

Lemma estimate_Ok features trump : length features = OBSERVATION_SIZE →
  ∃ n, foldM (estimate_card features trump) (seq 0 52) 0 = Ok n.
Proof.
  intros Hl. destruct (foldM_invariant (estimate_card features trump) (λ _ _, True) (seq 0 52) 0) as (n & Hn & _);
    [done| |by exists n].
  intros pre card post a Heq _.
  assert (card ∈ seq 0 52) as Hin by (rewrite Heq; apply elem_of_app; right; left). apply elem_of_seq in Hin.
  destruct (lookup_lt_is_Some_2 features (15 + card)) as [x Hx]; [rewrite Hl; unfold OBSERVATION_SIZE; lia|].
  unfold estimate_card. rewrite Hx. cbn [expect mbind outcome_bind]. destruct (SFltb x f32_half); by eexists.
Qed.

(** The loop-free policies are total on a decision: the legal-random policy
    and the high-card heuristic return a slot of the mask, for every generator
    state and every observation vector, whenever the mask is not empty. *)
Theorem policies_choose_legal rng features mask : length mask = ACTION_COUNT →
  length features = OBSERVATION_SIZE → (∃ i, mask !! i = Some true) →
  (∃ rng' a, legal_random_select rng mask = Ok (rng', a) ∧ mask !! index_value a = Some true) ∧
  (∃ a, high_card_select features mask = Ok a ∧ mask !! index_value a = Some true).
Proof.
  intros Hlen Hfeat (i & Hi). assert (∀ j, mask !! j = Some true → j < ACTION_COUNT) as Hbound.
  { intros j Hj. rewrite <-Hlen. by eapply lookup_lt_Some. }
  split.
  - unfold legal_random_select. assert (length (legal_indices mask) ≠ 0) as Hne.
    { intros Hz%nil_length_inv. apply elem_of_legal_indices in Hi. rewrite Hz in Hi. by apply not_elem_of_nil in Hi. }
    rewrite (proj2 (Nat.eqb_neq _ _) Hne). pose proof (length_legal_indices mask) as Hle. rewrite Hlen in Hle.
    destruct (below_Ok rng (length (legal_indices mask))) as [-> Hlt]; [lia|unfold ACTION_COUNT in Hle; lia|].
    cbn [mbind outcome_bind]. destruct (lookup_lt_is_Some_2 _ _ Hlt) as [j Hj]. rewrite Hj.
    cbn [ok_or mbind outcome_bind].
    assert (mask !! j = Some true) as Hjm by (apply elem_of_legal_indices; by eapply list_elem_of_lookup_2).
    rewrite ActionIndex_new_Ok by by apply Hbound. cbn [map_err mbind outcome_bind]. by do 2 eexists.
  - unfold high_card_select. destruct (existsb id (take CARD_OFFSET mask)) eqn:He.
    + apply existsb_mask in He. destruct (position_id _ He) as (p & Hp & Hpm).
      apply lookup_take_Some in Hpm as [Hpm _].
      match goal with |- context [foldM (estimate_card _ ?t)] => destruct (estimate_Ok features t Hfeat) as [n ->] end.
      cbn [mbind outcome_bind]. destruct (list_find _ _) as [[k j]|] eqn:Hf.
      * apply list_find_Some in Hf as (_ & [_ Hj] & _). cbn [ok_or mbind outcome_bind].
        rewrite ActionIndex_new_Ok by by apply Hbound. cbn [map_err]. by eexists.
      * rewrite Hp. cbn [ok_or mbind outcome_bind]. rewrite ActionIndex_new_Ok by by apply Hbound.
        cbn [map_err]. by eexists.
    + destruct (position_id (drop CARD_OFFSET mask)) as (j & -> & Hj).
      { exists (i - CARD_OFFSET). rewrite lookup_drop. destruct (decide (i < CARD_OFFSET)) as [Hlt|Hge].
        - exfalso. assert (existsb id (take CARD_OFFSET mask) = true); [|congruence]. apply existsb_mask.
          exists i. rewrite lookup_take_lt by done. done.
        - by replace (CARD_OFFSET + (i - CARD_OFFSET)) with i by lia. }
      rewrite lookup_drop in Hj. cbn [ok_or mbind outcome_bind].
      rewrite ActionIndex_new_Ok by by apply Hbound. cbn [map_err]. by eexists.
Qed.

Lemma policies_choose_legal_witness :
  let mask := <[3 := true]> (replicate 60 false) in
  let features := replicate 307 f32_zero in
  (length mask = ACTION_COUNT ∧ length features = OBSERVATION_SIZE ∧ ∃ i, mask !! i = Some true) ∧
  (∃ rng' a, legal_random_select (ReplayRngOf 8) mask = Ok (rng', a) ∧ mask !! index_value a = Some true) ∧
  (∃ a, high_card_select features mask = Ok a ∧ mask !! index_value a = Some true).
Proof.
  intros mask features. assert (length mask = ACTION_COUNT) as Hl by reflexivity.
  assert (length features = OBSERVATION_SIZE) as Hf by reflexivity.
  assert (∃ i, mask !! i = Some true) as Hi by (exists 3; reflexivity).
  split; [exact (conj Hl (conj Hf Hi))|exact (policies_choose_legal (ReplayRngOf 8) features mask Hl Hf Hi)].
Defined.
