(* ===== verification/Protocol.v ===== *)
(** * The wire protocol (crates/poche-protocol, ids.rs, types.rs and codec.rs)

    Identifiers, command payloads and envelopes, the structural validation of
    commands and viewer projections, and the length-framed canonical bytes that
    are signed and hashed.  Text is a byte string, as Rust's [String] is; seats
    and card codes ([u8] indices) are [nat], other integers are [Z].  Serde's
    JSON text of a payload and the BLAKE3 hash are parameters. *)

From Stdlib Require Import Ascii.
From stdpp Require Import base strings numbers option list.
From S2P Require Import Prelude.

Definition PROTOCOL_VERSION_V1 : Z := 1.
Definition SIGNATURE_DOMAIN_V1 : Z := 1.
Definition MAX_CHAT_BYTES : nat := 2048.
Definition MAX_DECK_CARDS : nat := 52.
Definition MAX_PROTOCOL_PLAYERS : nat := 8.
Definition MAX_CARD_CODE_EXCLUSIVE : nat := 52.

(** ** Identifiers *)

(** The newtypes of [text_identifier!] *)
Notation RoomId := string (only parsing).
Notation PrincipalId := string (only parsing).
Notation CommandId := string (only parsing).
Notation EventId := string (only parsing).
Notation CorrelationId := string (only parsing).
Notation CountdownToken := string (only parsing).
Notation PolicyId := string (only parsing).
Notation InviteProof := string (only parsing).
Notation SignatureBytes := string (only parsing).

Inductive IdentifierError : Type := InvalidIdentifierText.

Definition text_bytes (text : string) : list Z :=
  (λ a, Z.of_N (N_of_ascii a)) <$> String.list_ascii_of_string text.

Definition is_ascii_digit (byte : Z) : bool := ((48 <=? byte) && (byte <=? 57))%Z.

Definition is_ascii_alphanumeric (byte : Z) : bool :=
  (is_ascii_digit byte || ((65 <=? byte) && (byte <=? 90)) || ((97 <=? byte) && (byte <=? 122)))%Z.

Definition identifier_byte (byte : Z) : bool :=
  (is_ascii_alphanumeric byte || ((byte =? 45) || (byte =? 95) || (byte =? 46)))%Z.

Definition is_valid_identifier (value : string) : bool :=
  negb (String.length value =? 0) && (String.length value <=? 64) &&
  forallb identifier_byte (text_bytes value).

Definition identifier_new (value : string) : outcome IdentifierError string :=
  if is_valid_identifier value then Ok value else Err InvalidIdentifierText.

(** ** Shapes *)

Record SemanticHash : Type := SemanticHashOf { hash_bytes : list Z }.

Inductive SignatureAlgorithm : Type := Ed25519.

Record SignatureIntent : Type := {
  intent_domain_version : Z; intent_algorithm : SignatureAlgorithm; intent_key_id : PrincipalId;
}.

Record SignatureMetadata : Type := {
  domain_version : Z; algorithm : SignatureAlgorithm; key_id : PrincipalId; signature_text : SignatureBytes;
}.

Definition intent (self : SignatureMetadata) : SignatureIntent :=
  {| intent_domain_version := domain_version self; intent_algorithm := algorithm self;
     intent_key_id := key_id self |}.

Inductive RoomPhase : Type :=
  | RoomLobby | RoomCountdown | RoomRunning | RoomPaused | RoomPostGame | RoomClosedPhase.

Inductive PublicGamePhase : Type :=
  | PublicAwaitingDeal | PublicBidding | PublicPlaying | PublicScoring | PublicFinished.

Inductive PublicTurnWire : Type :=
  | WireChance | WirePlayer (seat : nat) | WireEnvironment | WireFinished.

Record PlayedCardWire : Type := { played_seat : nat; played_card : nat }.

Record GamePublicStateWire : Type := {
  schema_version : Z; public_phase : PublicGamePhase; public_dealer : option nat; public_actor : PublicTurnWire;
  public_round_index : Z; public_hand_size : Z; public_hand_counts : list Z; public_trump : option nat;
  public_current_trick : list PlayedCardWire; public_bids : list (option Z); public_tricks_won : list Z;
  public_scores : list Z; public_pot_cents : Z;
}.

Inductive GameActionWire : Type :=
  | WireBid (tricks : Z)
  | WirePlay (card : nat).

Inductive PublicGameEventWire : Type :=
  | PublicGameStarted (command_id : CommandId)
  | PublicPlayerAction (command_id : CommandId) (event_index : Z) (seat : nat) (action : GameActionWire)
  | PublicRoundScored (command_id : CommandId) (event_index : Z) (scores : list Z) (terminal : bool).

Record ChanceWire : Type := {
  chance_cards : list nat; chance_seed : option Z; chance_deal_ordinal : option Z;
}.

Inductive CommandPayload : Type :=
  | CreateRoom
  | RedeemInvite (invite : InviteProof)
  | TakeSeat (seat : nat)
  | ReleaseSeat
  | Ready
  | Unready
  | ArmCountdown (deadline_tick : Z) (countdown_token : CountdownToken)
  | AbortCountdown
  | CountdownExpired (countdown_token : CountdownToken)
  | Pause
  | Unpause
  | GameAction (action : GameActionWire)
  | ApplyChance (chance : ChanceWire)
  | Settle
  | Chat (text : string)
  | RequestHand (player : PrincipalId)
  | GrantHand (request_id : CommandId) (player recipient : PrincipalId) (grant_epoch : Z)
  | DenyHand (request_id : CommandId) (player recipient : PrincipalId)
  | RevokeHand (player recipient : PrincipalId) (grant_epoch : Z)
  | Reconnect
  | Leave
  | RemoveMember (target : PrincipalId)
  | ResetLobby
  | CloseRoom.

Inductive CommandKind : Type :=
  | KCreateRoom | KRedeemInvite | KTakeSeat | KReleaseSeat | KReady | KUnready | KArmCountdown
  | KAbortCountdown | KCountdownExpired | KPause | KUnpause | KGameAction | KApplyChance | KSettle
  | KChat | KRequestHand | KGrantHand | KDenyHand | KRevokeHand | KReconnect | KLeave
  | KRemoveMember | KResetLobby | KCloseRoom.

Definition kind (self : CommandPayload) : CommandKind :=
  match self with
  | CreateRoom => KCreateRoom
  | RedeemInvite _ => KRedeemInvite
  | TakeSeat _ => KTakeSeat
  | ReleaseSeat => KReleaseSeat
  | Ready => KReady
  | Unready => KUnready
  | ArmCountdown _ _ => KArmCountdown
  | AbortCountdown => KAbortCountdown
  | CountdownExpired _ => KCountdownExpired
  | Pause => KPause
  | Unpause => KUnpause
  | GameAction _ => KGameAction
  | ApplyChance _ => KApplyChance
  | Settle => KSettle
  | Chat _ => KChat
  | RequestHand _ => KRequestHand
  | GrantHand _ _ _ _ => KGrantHand
  | DenyHand _ _ _ => KDenyHand
  | RevokeHand _ _ _ => KRevokeHand
  | Reconnect => KReconnect
  | Leave => KLeave
  | RemoveMember _ => KRemoveMember
  | ResetLobby => KResetLobby
  | CloseRoom => KCloseRoom
  end.

Record UnsignedCommandEnvelope : Type := {
  u_protocol_version : Z; u_room_id : RoomId; u_session_epoch : Z; u_command_id : CommandId;
  u_principal_id : PrincipalId; u_expected_revision : Z; u_correlation_id : CorrelationId;
  u_causation_id : option EventId; u_payload : CommandPayload; signature_intent : SignatureIntent;
}.

Record CommandEnvelope : Type := {
  protocol_version : Z; room_id : RoomId; session_epoch : Z; command_id : CommandId;
  principal_id : PrincipalId; expected_revision : Z; correlation_id : CorrelationId;
  causation_id : option EventId; payload : CommandPayload; signature : SignatureMetadata;
}.

Definition attach_signature (self : UnsignedCommandEnvelope) (text : SignatureBytes) : CommandEnvelope :=
  {| protocol_version := u_protocol_version self; room_id := u_room_id self;
     session_epoch := u_session_epoch self; command_id := u_command_id self;
     principal_id := u_principal_id self; expected_revision := u_expected_revision self;
     correlation_id := u_correlation_id self; causation_id := u_causation_id self;
     payload := u_payload self;
     signature := {| domain_version := intent_domain_version (signature_intent self);
                     algorithm := intent_algorithm (signature_intent self);
                     key_id := intent_key_id (signature_intent self); signature_text := text |} |}.

Inductive DenyReason : Type :=
  | Malformed | Oversize | UnknownVersion | UnknownCommand | UnknownRole | UnknownPrincipal
  | BadSignature | WrongRoom | StaleEpoch | StaleRevision | Revoked | MissingCapability | DenyPolicy
  | WrongPhase | DClosed | NotSeated | SeatOccupied | AlreadySeated | NotConnected | NotReady
  | CountdownInactive | NotActor | DPaused | NotPaused | AlreadyPaused | InviteInvalid | InviteExpired
  | GrantScope | ChatSize | ChatRate | EnvironmentOnly.

Record MemberProjection : Type := {
  mp_principal_id : PrincipalId; mp_connected : bool; mp_seat : option nat; mp_ready : bool; mp_host : bool;
}.

Record HandProjection : Type := { hand_player : PrincipalId; hand_grant_epoch : Z; hand_cards : list nat }.

Record ProjectionPayload : Type := {
  pp_phase : RoomPhase; pp_members : list MemberProjection; pp_public_game_state : option GamePublicStateWire;
  pp_own_hand : option HandProjection; pp_granted_hands : list HandProjection;
  pp_public_history : list PublicGameEventWire;
}.

#[export] Instance SemanticHash_eq_dec : EqDecision SemanticHash.
Proof. solve_decision. Defined.
#[export] Instance GameActionWire_eq_dec : EqDecision GameActionWire.
Proof. solve_decision. Defined.
#[export] Instance ChanceWire_eq_dec : EqDecision ChanceWire.
Proof. solve_decision. Defined.
#[export] Instance PublicGameEventWire_eq_dec : EqDecision PublicGameEventWire.
Proof. solve_decision. Defined.
#[export] Instance CommandKind_eq_dec : EqDecision CommandKind.
Proof. solve_decision. Defined.
#[export] Instance DenyReason_eq_dec : EqDecision DenyReason.
Proof. solve_decision. Defined.

(** ** Validation *)

Inductive EnvelopeValidationError : Type :=
  | UnknownEnvelopeVersion | InvalidIdentifier | PrincipalKeyMismatch | InvalidSignature | InvalidPayload
  | PrivateProjectionOverlap.

Definition signature_byte (byte : Z) : bool := is_ascii_digit byte || ((97 <=? byte) && (byte <=? 102))%Z.

Definition signature_validate (self : SignatureBytes) : outcome EnvelopeValidationError unit :=
  if (String.length self =? 128) && forallb signature_byte (text_bytes self)
  then Ok tt else Err InvalidSignature.

Definition SignatureBytes_new (value : string) : outcome EnvelopeValidationError SignatureBytes :=
  _ ← signature_validate value; Ok value.

Definition InviteProof_new (value : string) : outcome EnvelopeValidationError InviteProof :=
  if (String.length value =? 0) || (256 <? String.length value) then Err InvalidPayload else Ok value.

Definition require_ids (valid : bool) : outcome EnvelopeValidationError unit :=
  ensure valid InvalidIdentifier.

Definition validate_common (version : Z) (room principal correlation : string) (sig : SignatureMetadata)
    : outcome EnvelopeValidationError unit :=
  if negb (version =? PROTOCOL_VERSION_V1)%Z || negb (domain_version sig =? SIGNATURE_DOMAIN_V1)%Z
  then Err UnknownEnvelopeVersion
  else
    _ ← require_ids (is_valid_identifier room && is_valid_identifier principal &&
                     is_valid_identifier correlation);
    if negb (is_valid_identifier (key_id sig)) then Err InvalidIdentifier
    else if bool_decide (key_id sig ≠ principal) then Err PrincipalKeyMismatch
    else signature_validate (signature_text sig).

Definition validate_unsigned_common (version : Z) (room principal correlation : string) (sig : SignatureIntent)
    : outcome EnvelopeValidationError unit :=
  if negb (version =? PROTOCOL_VERSION_V1)%Z || negb (intent_domain_version sig =? SIGNATURE_DOMAIN_V1)%Z
  then Err UnknownEnvelopeVersion
  else
    _ ← require_ids (is_valid_identifier room && is_valid_identifier principal &&
                     is_valid_identifier correlation && is_valid_identifier (intent_key_id sig));
    if bool_decide (intent_key_id sig ≠ principal) then Err PrincipalKeyMismatch else Ok tt.

Definition chance_invalid (chance : ChanceWire) : bool :=
  negb (length (chance_cards chance) =? MAX_DECK_CARDS) ||
  existsb (λ card, MAX_CARD_CODE_EXCLUSIVE <=? card) (chance_cards chance) ||
  negb (Bool.eqb (bool_decide (is_Some (chance_seed chance)))
                 (bool_decide (is_Some (chance_deal_ordinal chance)))).

Definition validate_command_payload (p : CommandPayload) : outcome EnvelopeValidationError unit :=
  match p with
  | Chat text => ensure (negb ((String.length text =? 0) || (MAX_CHAT_BYTES <? String.length text))) InvalidPayload
  | RedeemInvite invite =>
      ensure (negb ((String.length invite =? 0) || (256 <? String.length invite))) InvalidPayload
  | ApplyChance chance => ensure (negb (chance_invalid chance)) InvalidPayload
  | GameAction (WirePlay card) => ensure (negb (MAX_CARD_CODE_EXCLUSIVE <=? card)) InvalidPayload
  | RequestHand player => ensure (is_valid_identifier player) InvalidIdentifier
  | GrantHand request_id player recipient _ | DenyHand request_id player recipient =>
      ensure (is_valid_identifier request_id && is_valid_identifier player && is_valid_identifier recipient)
        InvalidIdentifier
  | RevokeHand player recipient _ =>
      ensure (is_valid_identifier player && is_valid_identifier recipient) InvalidIdentifier
  | RemoveMember target => ensure (is_valid_identifier target) InvalidIdentifier
  | ArmCountdown _ token | CountdownExpired token => ensure (is_valid_identifier token) InvalidIdentifier
  | _ => Ok tt
  end.

(** [causation_id.is_some_and(|id| !id.validate())] *)
Definition causation_invalid (id : option EventId) : bool :=
  match id with Some id => negb (is_valid_identifier id) | None => false end.

Definition unsigned_command_validate (self : UnsignedCommandEnvelope) : outcome EnvelopeValidationError unit :=
  _ ← validate_unsigned_common (u_protocol_version self) (u_room_id self) (u_principal_id self)
        (u_correlation_id self) (signature_intent self);
  if negb (is_valid_identifier (u_command_id self)) || causation_invalid (u_causation_id self)
  then Err InvalidIdentifier
  else validate_command_payload (u_payload self).

Definition command_validate (self : CommandEnvelope) : outcome EnvelopeValidationError unit :=
  _ ← validate_common (protocol_version self) (room_id self) (principal_id self) (correlation_id self)
        (signature self);
  if negb (is_valid_identifier (command_id self)) || causation_invalid (causation_id self)
  then Err InvalidIdentifier
  else validate_command_payload (payload self).

(** ** Canonical bytes *)

Inductive CodecError : Type :=
  | CodecOversize | MissingLineTerminator | AmbiguousControlInput | InvalidUtf8 | InvalidJson | NonCanonical
  | WrongFrameKind | InvalidEnvelope (e : EnvelopeValidationError) | Serialization.

(** [to_be_bytes] of an [n]-byte integer *)
Fixpoint be_bytes (n : nat) (x : Z) : list Z :=
  match n with
  | O => []
  | S n => be_bytes n (x / 256)%Z ++ [(x mod 256)%Z]
  end.

(** "POCHE\0COMMAND\0V1" *)
Definition COMMAND_SIGNING_DOMAIN : list Z := text_bytes "POCHE" ++ [0%Z] ++ text_bytes "COMMAND" ++ [0%Z] ++ text_bytes "V1".

Module CanonicalWriter.

(** The accumulated [bytes] *)
Definition t : Type := list Z.

Definition new (domain : list Z) : t := domain.
Definition u8 (self : t) (value : Z) : t := self ++ [value].
Definition u16 (self : t) (value : Z) : t := self ++ be_bytes 2 value.
Definition u64 (self : t) (value : Z) : t := self ++ be_bytes 8 value.

Definition bytes (self : t) (value : list Z) : outcome CodecError t :=
  n ← ok_or (checked 32 (Z.of_nat (length value))) CodecOversize;
  Ok (self ++ be_bytes 4 n ++ value).

Definition text (self : t) (value : string) : outcome CodecError t := bytes self (text_bytes value).

Definition optional_text (self : t) (value : option string) : outcome CodecError t :=
  match value with
  | Some value => text (u8 self 1) value
  | None => Ok (u8 self 0)
  end.

End CanonicalWriter.

(** [to_vec] is [serde_json::to_vec] of the payload. *)

Definition signing_bytes {T} (to_vec : T → option (list Z)) (domain : list Z) (version : Z) (room : string)
    (epoch : Z) (object principal : string) (revision : Z) (correlation : string) (causation : option string)
    (p : T) (sig : SignatureIntent) : outcome CodecError (list Z) :=
  p ← ok_or (to_vec p) Serialization;
  let w := CanonicalWriter.u16 (CanonicalWriter.new domain) version in
  w ← CanonicalWriter.text w room;
  w ← CanonicalWriter.text (CanonicalWriter.u64 w epoch) object;
  w ← CanonicalWriter.text w principal;
  w ← CanonicalWriter.text (CanonicalWriter.u64 w revision) correlation;
  w ← CanonicalWriter.optional_text w causation;
  w ← CanonicalWriter.bytes w p;
  let w := CanonicalWriter.u16 w (intent_domain_version sig) in
  let w := CanonicalWriter.u8 w (match intent_algorithm sig with Ed25519 => 1%Z end) in
  CanonicalWriter.text w (intent_key_id sig).

Section Codec.
(** [serde_json::to_vec] of a payload, and [blake3::hash] *)
Context (payload_json : CommandPayload → option (list Z)) (blake3 : list Z → list Z).

Definition canonical_command_signed_bytes (command : UnsignedCommandEnvelope) : outcome CodecError (list Z) :=
  _ ← map_err InvalidEnvelope (unsigned_command_validate command);
  signing_bytes payload_json COMMAND_SIGNING_DOMAIN (u_protocol_version command) (u_room_id command)
    (u_session_epoch command) (u_command_id command) (u_principal_id command) (u_expected_revision command)
    (u_correlation_id command) (u_causation_id command) (u_payload command) (signature_intent command).

Definition canonical_command_verification_bytes (command : CommandEnvelope) : outcome CodecError (list Z) :=
  _ ← map_err InvalidEnvelope (command_validate command);
  signing_bytes payload_json COMMAND_SIGNING_DOMAIN (protocol_version command) (room_id command)
    (session_epoch command) (command_id command) (principal_id command) (expected_revision command)
    (correlation_id command) (causation_id command) (payload command) (intent (signature command)).

Definition command_semantic_hash (command : UnsignedCommandEnvelope) : outcome CodecError SemanticHash :=
  bytes ← canonical_command_signed_bytes command; Ok (SemanticHashOf (blake3 bytes)).

Definition verified_command_semantic_hash (command : CommandEnvelope) : outcome CodecError SemanticHash :=
  bytes ← canonical_command_verification_bytes command; Ok (SemanticHashOf (blake3 bytes)).
End Codec.

(** ** Viewer projections *)

Definition validate_members (members : list MemberProjection) : outcome EnvelopeValidationError unit :=
  if (MAX_PROTOCOL_PLAYERS <? length members) ||
     existsb (λ m, negb (is_valid_identifier (mp_principal_id m))) members ||
     later_pair (λ m other, bool_decide (mp_principal_id other = mp_principal_id m)) members
  then Err InvalidIdentifier else Ok tt.

Definition history_command_id (event : PublicGameEventWire) : CommandId :=
  match event with
  | PublicGameStarted id | PublicPlayerAction id _ _ _ | PublicRoundScored id _ _ _ => id
  end.

Definition invalid_history_event (event : PublicGameEventWire) : bool :=
  match event with
  | PublicGameStarted _ => false
  | PublicPlayerAction _ _ seat action =>
      (MAX_PROTOCOL_PLAYERS <=? seat) ||
      match action with WirePlay card => MAX_CARD_CODE_EXCLUSIVE <=? card | WireBid _ => false end
  | PublicRoundScored _ _ scores _ => (length scores =? 0) || (MAX_PROTOCOL_PLAYERS <? length scores)
  end.

Definition invalid_public_game_state (game : GamePublicStateWire) : bool :=
  let players := length (public_hand_counts game) in
  negb (schema_version game =? 1)%Z ||
  negb ((2 <=? players) && (players <=? MAX_PROTOCOL_PLAYERS)) ||
  negb (length (public_bids game) =? players) ||
  negb (length (public_tricks_won game) =? players) ||
  negb (length (public_scores game) =? players) ||
  is_some_and (public_dealer game) (λ seat, players <=? seat) ||
  match public_actor game with WirePlayer seat => players <=? seat | _ => false end ||
  is_some_and (public_trump game) (λ card, MAX_CARD_CODE_EXCLUSIVE <=? card) ||
  (players <? length (public_current_trick game)) ||
  existsb (λ played, (players <=? played_seat played) || (MAX_CARD_CODE_EXCLUSIVE <=? played_card played))
    (public_current_trick game).

Definition hand_overlaps (recipient : PrincipalId) (members : list MemberProjection) (hand : HandProjection) : bool :=
  bool_decide (hand_player hand = recipient) ||
  negb (existsb (λ m, bool_decide (mp_principal_id m = hand_player hand) && bool_decide (is_Some (mp_seat m)))
          members).

Definition hand_invalid (hand : HandProjection) : bool :=
  negb (is_valid_identifier (hand_player hand)) || (MAX_DECK_CARDS <? length (hand_cards hand)) ||
  existsb (λ card, MAX_CARD_CODE_EXCLUSIVE <=? card) (hand_cards hand).

Definition validate_projection (p : ProjectionPayload) (recipient : PrincipalId)
    : outcome EnvelopeValidationError unit :=
  _ ← validate_members (pp_members p);
  recipient_seat ←
    ok_or (mp_seat <$> find (λ m, bool_decide (mp_principal_id m = recipient)) (pp_members p)) InvalidIdentifier;
  if existsb (λ event, negb (is_valid_identifier (history_command_id event))) (pp_public_history p)
  then Err InvalidIdentifier
  else if existsb invalid_history_event (pp_public_history p) then Err InvalidPayload
  else if is_some_and (pp_public_game_state p) invalid_public_game_state then Err InvalidPayload
  else if
    is_some_and (pp_own_hand p) (λ hand,
      bool_decide (hand_player hand ≠ recipient) || bool_decide (recipient_seat = None)) ||
    (negb (length (pp_granted_hands p) =? 0) && bool_decide (is_Some recipient_seat)) ||
    existsb (hand_overlaps recipient (pp_members p)) (pp_granted_hands p) ||
    later_pair (λ hand other, bool_decide (hand_player other = hand_player hand)) (pp_granted_hands p)
  then Err PrivateProjectionOverlap
  else if existsb hand_invalid (option_list (pp_own_hand p) ++ pp_granted_hands p) then Err InvalidPayload
  else if is_some_and (pp_own_hand p) (λ own,
    existsb (λ granted, bool_decide (hand_player granted = hand_player own)) (pp_granted_hands p))
  then Err PrivateProjectionOverlap
  else Ok tt.
