(* ===== verification/Bytes.v ===== *)
(** * Byte strings in order

    The order of Rust's [Ord] on the types the protocol sorts by, strictly sorted
    slices and their binary search, lowercase hexadecimal text, and ordered maps. *)

From Stdlib Require Import Ascii.
From stdpp Require Import base strings numbers option list.
From S2P Require Import Prelude Protocol.

(** ** Strict orders *)

Class StrictOrder (A : Type) : Type := {
  ltb : A → A → bool;
  ltb_irrefl x : ltb x x = false;
  ltb_trans x y z : ltb x y = true → ltb y z = true → ltb x z = true;
  ltb_total x y : ltb x y = false → ltb y x = false → x = y;
}.

Lemma ltb_asym `{StrictOrder A} (x y : A) : ltb x y = true → ltb y x = false.
Proof. intros Hxy. destruct (ltb y x) eqn:Hyx; [|done]. pose proof (ltb_trans _ _ _ Hxy Hyx) as Hx. by rewrite ltb_irrefl in Hx. Qed.

(** [Ord::cmp] *)
Definition cmp `{StrictOrder A} (x y : A) : comparison := if ltb x y then Lt else if ltb y x then Gt else Eq.

Lemma cmp_Eq `{StrictOrder A} (x y : A) : cmp x y = Eq ↔ x = y.
Proof.
  unfold cmp. split.
  - destruct (ltb x y) eqn:H1; [done|]. destruct (ltb y x) eqn:H2; [done|]. intros _. by apply ltb_total.
  - intros ->. by rewrite ltb_irrefl.
Qed.

#[export] Program Instance Z_order : StrictOrder Z := {| ltb := Z.ltb |}.
Next Obligation. intros. apply Z.ltb_irrefl. Qed.
Next Obligation. intros x y z. rewrite !Z.ltb_lt. lia. Qed.
Next Obligation. intros x y. rewrite !Z.ltb_ge. lia. Qed.

(** The order of slices: the first difference decides, a proper prefix is smaller. *)
Fixpoint lex_ltb `{StrictOrder A} (l k : list A) : bool :=
  match l, k with
  | _, [] => false
  | [], _ :: _ => true
  | x :: l, y :: k => if ltb x y then true else if ltb y x then false else lex_ltb l k
  end.

#[export] Program Instance list_order `{StrictOrder A} : StrictOrder (list A) := {| ltb := lex_ltb |}.
Next Obligation. intros A ? x. induction x as [|a x IH]; cbn; [done|]. by rewrite ltb_irrefl. Qed.
Next Obligation.
  intros A ? x. induction x as [|a x IH]; intros [|b y] [|c z]; cbn; try done.
  destruct (ltb a b) eqn:Hab.
  - intros _. destruct (ltb b c) eqn:Hbc; [by rewrite (ltb_trans a b c)|]. destruct (ltb c b) eqn:Hcb; [done|].
    rewrite <-(ltb_total b c) by done. by rewrite Hab.
  - destruct (ltb b a) eqn:Hba; [done|]. rewrite (ltb_total a b) by done. intros Hxy.
    destruct (ltb b c); [done|]. destruct (ltb c b); [done|]. by apply IH.
Qed.
Next Obligation.
  intros A ? x. induction x as [|a x IH]; intros [|b y]; cbn; try done.
  destruct (ltb a b) eqn:Hab; [done|]. destruct (ltb b a) eqn:Hba; [done|]. intros H1 H2.
  rewrite (ltb_total a b) by done. f_equal. by apply IH.
Qed.

#[export] Program Instance prod_order `{StrictOrder A, StrictOrder B} : StrictOrder (A * B) :=
  {| ltb p q := if ltb p.1 q.1 then true else if ltb q.1 p.1 then false else ltb p.2 q.2 |}.
Next Obligation. intros A ? B ? [a b]; cbn. by rewrite !ltb_irrefl. Qed.
Next Obligation.
  intros A ? B ? [a b] [a' b'] [a'' b'']; cbn. destruct (ltb a a') eqn:H1.
  - intros _. destruct (ltb a' a'') eqn:H2; [by rewrite (ltb_trans a a' a'')|]. destruct (ltb a'' a') eqn:H3; [done|].
    rewrite <-(ltb_total a' a'') by done. by rewrite H1.
  - destruct (ltb a' a) eqn:H2; [done|]. rewrite (ltb_total a a') by done. intros Hb.
    destruct (ltb a' a''); [done|]. destruct (ltb a'' a'); [done|]. by apply ltb_trans.
Qed.
Next Obligation.
  intros A ? B ? [a b] [a' b']; cbn. destruct (ltb a a') eqn:H1; [done|]. destruct (ltb a' a) eqn:H2; [done|]. intros H3 H4.
  f_equal; by apply ltb_total.
Qed.

#[export] Instance text_bytes_inj : Inj (=) (=) text_bytes.
Proof.
  intros s t. unfold text_bytes. revert t. induction s as [|a s IH]; intros [|b t]; cbn; try done. intros [= Hab Hst].
  apply IH in Hst as ->. f_equal. apply N2Z.inj in Hab. by rewrite <-(ascii_N_embedding a), Hab, ascii_N_embedding.
Qed.

(** Text is ordered by its bytes. *)
#[export] Program Instance string_order : StrictOrder string := {| ltb s t := ltb (text_bytes s) (text_bytes t) |}.
Next Obligation. intros. apply ltb_irrefl. Qed.
Next Obligation. intros x y z. apply ltb_trans. Qed.
Next Obligation. intros x y ? ?. apply (inj text_bytes). by apply ltb_total. Qed.

(** ** Sorted slices *)

(** [windows(2).all(..)] *)
Fixpoint windows2 {A} (R : A → A → bool) (l : list A) : bool :=
  match l with
  | x :: l' => match l' with y :: _ => R x y | [] => true end && windows2 R l'
  | [] => true
  end.

Definition strict_sorted_unique `{StrictOrder A} (values : list A) : bool := windows2 ltb values.

Lemma windows2_spec {A} (R : A → A → bool) l :
  windows2 R l = true ↔ ∀ i x y, l !! i = Some x → l !! S i = Some y → R x y = true.
Proof.
  induction l as [|x l IH]; [split; [by intros _ [|]|done]|]. cbn [windows2]. rewrite andb_true_iff, IH. split.
  - intros [Hx Hl] [|i] a b Ha Hb; cbn in Ha, Hb; [|by eapply Hl]. injection Ha as <-. destruct l; [done|]. by injection Hb as <-.
  - intros Hall. split; [|intros i a b Ha Hb; by apply (Hall (S i) a b)]. destruct l as [|y l]; [done|]. by apply (Hall 0).
Qed.

Lemma windows2_fmap {A B} (f : A → B) (R : B → B → bool) l : windows2 (λ x y, R (f x) (f y)) l = windows2 R (f <$> l).
Proof. induction l as [|x l IH]; [done|]. cbn [windows2 fmap list_fmap]. rewrite IH. by destruct l. Qed.

(** Every element is below the later ones. *)
Definition ascending `{StrictOrder A} (l : list A) : Prop := ∀ i j x y, i < j → l !! i = Some x → l !! j = Some y → ltb x y = true.

Lemma ascending_cons `{StrictOrder A} (x : A) l : ascending (x :: l) ↔ (∀ y, y ∈ l → ltb x y = true) ∧ ascending l.
Proof.
  split.
  - intros Ha. split.
    + intros y (j & Hj)%list_elem_of_lookup. apply (Ha 0 (S j)); [lia|done..].
    + intros i j y z Hij Hi Hj. apply (Ha (S i) (S j)); [lia|done..].
  - intros [Hx Ha] [|i] [|j] y z Hij Hi Hj; cbn in *; [lia| |lia|].
    + injection Hi as <-. apply Hx. by eapply list_elem_of_lookup_2.
    + apply (Ha i j); [lia|done..].
Qed.

Lemma strict_sorted_ascending `{StrictOrder A} (l : list A) : strict_sorted_unique l = true ↔ ascending l.
Proof.
  unfold strict_sorted_unique. induction l as [|x l IH]; [split; [by intros _ [|] ?|done]|].
  rewrite ascending_cons, <-IH. cbn. destruct l as [|y l]; [split; [intros _; split; [by intros y ?%elem_of_nil|done]|done]|].
  rewrite andb_true_iff. split; [|intros [Hx Hl]; split; [apply Hx; left|done]].
  intros [Hxy Hl]. split; [|done]. apply IH, ascending_cons in Hl as [Hy _]. intros z [->|Hz]%elem_of_cons; [done|].
  eapply ltb_trans; [exact Hxy|by apply Hy].
Qed.

Lemma ascending_NoDup `{StrictOrder A} (l : list A) : ascending l → NoDup l.
Proof.
  induction l as [|x l IH]; [constructor|]. rewrite ascending_cons. intros [Hx Hl]. constructor; [|by apply IH].
  intros Hin%Hx. by rewrite ltb_irrefl in Hin.
Qed.

Lemma ascending_nil `{StrictOrder A} : ascending ([] : list A).
Proof. by intros [|] ?. Qed.

Lemma ascending_app `{StrictOrder A} (l k : list A) : ascending l → ascending k → (∀ x y, x ∈ l → y ∈ k → ltb x y = true) →
  ascending (l ++ k).
Proof.
  intros Hl Hk Hlk. induction l as [|x l IH]; [done|]. cbn. apply ascending_cons in Hl as [Hx Hl]. apply ascending_cons. split.
  - intros y [Hy|Hy]%elem_of_app; [by apply Hx|]. apply Hlk; [left|done].
  - apply IH; [done|]. intros a b Ha. apply Hlk. by right.
Qed.

Lemma ascending_filter `{StrictOrder A} (P : A → bool) l : ascending l → ascending (List.filter P l).
Proof.
  induction l as [|x l IH]; intros Hl; [done|]. apply ascending_cons in Hl as [Hx Hl]. cbn. destruct (P x); [|by apply IH].
  apply ascending_cons. split; [|by apply IH]. intros y Hy. apply Hx. apply list_elem_of_In, List.filter_In in Hy as [Hy _].
  by apply list_elem_of_In.
Qed.

(** ** Sorted collections *)

(** A [BTreeSet] as the strictly ascending list of its elements *)
Fixpoint btree_insert `{StrictOrder A} (x : A) (l : list A) : list A :=
  match l with
  | [] => [x]
  | y :: l' => if ltb x y then x :: l else if ltb y x then y :: btree_insert x l' else l
  end.

Lemma elem_of_btree_insert `{StrictOrder A} (x : A) l z : z ∈ btree_insert x l ↔ z = x ∨ z ∈ l.
Proof.
  induction l as [|y l IH]; cbn; [by rewrite list_elem_of_singleton, elem_of_nil; naive_solver|].
  destruct (ltb x y) eqn:H1; [by rewrite elem_of_cons|]. destruct (ltb y x) eqn:H2.
  - rewrite !elem_of_cons, IH. naive_solver.
  - rewrite (ltb_total x y) by done. rewrite elem_of_cons. naive_solver.
Qed.

Lemma btree_insert_ascending `{StrictOrder A} (x : A) l : ascending l → ascending (btree_insert x l).
Proof.
  induction l as [|y l IH]; intros Hl; cbn; [apply ascending_cons; split; [by intros ? ?%elem_of_nil|apply ascending_nil]|].
  pose proof Hl as [Hy Hl']%ascending_cons. destruct (ltb x y) eqn:H1.
  - apply ascending_cons. split; [|done]. intros z [->|Hz]%elem_of_cons; [done|]. eapply ltb_trans; [exact H1|by apply Hy].
  - destruct (ltb y x) eqn:H2; [|done]. apply ascending_cons. split; [|by apply IH].
    intros z [->|Hz]%elem_of_btree_insert; [done|by apply Hy].
Qed.

(** [sort_by] a key *)
Definition sort_by_key `{StrictOrder K} {A} (key : A → K) (l : list A) : list A :=
  sort_by (λ x y, negb (ltb (key y) (key x))) l.

Lemma insert_by_ascending `{StrictOrder K} {A} (key : A → K) x l : key x ∉ key <$> l → ascending (key <$> l) →
  ascending (key <$> insert_by (λ x y, negb (ltb (key y) (key x))) x l).
Proof.
  induction l as [|y l IH]; intros Hx Hl; cbn; [apply ascending_cons; split; [by intros ? ?%elem_of_nil|apply ascending_nil]|].
  rewrite fmap_cons in Hx, Hl. apply not_elem_of_cons in Hx as [Hxy Hx]. pose proof Hl as [Hy Hl']%ascending_cons.
  destruct (ltb (key y) (key x)) eqn:Hlt; cbn; apply ascending_cons.
  - split; [|by apply IH]. intros z. rewrite insert_by_perm, fmap_cons. intros [->|Hz]%elem_of_cons; [done|by apply Hy].
  - assert (ltb (key x) (key y) = true) as Hlt'.
    { destruct (ltb (key x) (key y)) eqn:Hlt'; [done|]. by rewrite (ltb_total (key x) (key y)) in Hxy. }
    split; [|done]. intros z [->|Hz]%elem_of_cons; [done|]. eapply ltb_trans; [exact Hlt'|by apply Hy].
Qed.

Lemma sort_by_key_ascending `{StrictOrder K} {A} (key : A → K) l : NoDup (key <$> l) → ascending (key <$> sort_by_key key l).
Proof.
  unfold sort_by_key. induction l as [|x l IH]; intros Hn; [apply ascending_nil|]. rewrite fmap_cons in Hn.
  apply NoDup_cons in Hn as [Hx Hn]. cbn. apply insert_by_ascending; [|by apply IH]. by rewrite sort_by_perm.
Qed.

(** ** [slice::binary_search_by] *)

(** The halving loop: the last [base] at which the element is not above the target. *)
Fixpoint search_base {A} (f : A → comparison) (l : list A) (fuel base size : nat) : nat :=
  match fuel with
  | O => base
  | S fuel =>
      if size <=? 1 then base
      else
        let half := size / 2 in
        let mid := base + half in
        let base := match l !! mid with Some x => match f x with Gt => base | _ => mid end | None => base end in
        search_base f l fuel base (size - half)
  end.

(** [Ok(index)] as an option *)
Definition binary_search_by {A} (f : A → comparison) (l : list A) : option nat :=
  match l with
  | [] => None
  | _ :: _ =>
      let base := search_base f l (length l) 0 (length l) in
      match l !! base with
      | Some x => match f x with Eq => Some base | _ => None end
      | None => None
      end
  end.

Definition binary_search `{StrictOrder A} (target : A) (l : list A) : option nat := binary_search_by (λ x, cmp x target) l.

Definition search_ok `{StrictOrder A} (target : A) (l : list A) : bool :=
  match binary_search target l with Some _ => true | None => false end.

Lemma binary_search_by_eq {A} (f : A → comparison) l : binary_search_by f l =
  match l !! search_base f l (length l) 0 (length l) with
  | Some x => match f x with Eq => Some (search_base f l (length l) 0 (length l)) | _ => None end
  | None => None
  end.
Proof. by destruct l. Qed.

Section Search.
Context {A K : Type} `{StrictOrder K} (key : A → K) (l : list A) (target : K) (Hl : ascending (key <$> l)).

Lemma search_base_spec fuel base size k x : l !! k = Some x → key x = target →
  base <= k < base + size → base + size <= length l → size <= fuel →
  search_base (λ x, cmp (key x) target) l fuel base size = k.
Proof using Hl.
  revert base size. induction fuel as [|fuel IH]; intros base size Hk Hx Hrange Hlen Hfuel; [lia|]. cbn [search_base]. cbv zeta.
  destruct (Nat.leb_spec size 1); [lia|].
  assert (1 <= size / 2 /\ 2 * (size / 2) <= size) as [Hh1 Hh2].
  { pose proof (Nat.div_mod size 2). pose proof (Nat.mod_bound_pos size 2). lia. }
  destruct (lookup_lt_is_Some_2 l (base + size / 2)) as [y Hy]; [lia|]. rewrite Hy.
  assert (∀ i j u v, i < j → l !! i = Some u → l !! j = Some v → ltb (key u) (key v) = true) as Hlt.
  { intros i j u v Hij Hi Hj. eapply (Hl i j); [done|by rewrite list_lookup_fmap, Hi|by rewrite list_lookup_fmap, Hj]. }
  subst target. unfold cmp. destruct (Nat.lt_trichotomy k (base + size / 2)) as [Hlow|[Heq|Hhigh]].
  - pose proof (Hlt _ _ _ _ Hlow Hk Hy) as Hxy. rewrite (ltb_asym _ _ Hxy), Hxy. apply IH; try done; lia.
  - rewrite <-Heq in Hy. assert (y = x) as -> by congruence. rewrite ltb_irrefl. apply IH; try done; lia.
  - rewrite (Hlt _ _ _ _ Hhigh Hy Hk). apply IH; try done; lia.
Qed.

(** On a strictly sorted slice the search finds exactly the element with the key. *)
Lemma binary_search_by_spec k : binary_search_by (λ x, cmp (key x) target) l = Some k ↔ ∃ x, l !! k = Some x ∧ key x = target.
Proof using Hl.
  rewrite binary_search_by_eq. split.
  - destruct (l !! _) as [x|] eqn:Hx; [|done]. destruct (cmp _ _) eqn:Hc; [|done..]. intros [= <-]. exists x. split; [done|].
    by apply cmp_Eq.
  - intros (x & Hk & Hx). pose proof (lookup_lt_Some _ _ _ Hk). rewrite (search_base_spec _ _ _ k x) by (done || lia).
    rewrite Hk. rewrite (proj2 (cmp_Eq _ _)) by done. done.
Qed.
End Search.

Lemma search_ok_spec `{StrictOrder A} (target : A) l : ascending l → search_ok target l = true ↔ target ∈ l.
Proof.
  intros Hl. unfold search_ok. rewrite <-(list_fmap_id l) in Hl.
  assert (∀ k, binary_search target l = Some k ↔ ∃ x, l !! k = Some x ∧ x = target) as Hs.
  { intros k. exact (binary_search_by_spec id l target Hl k). }
  split.
  - destruct (binary_search target l) as [k|] eqn:Hb; [|done]. intros _. destruct (proj1 (Hs k) eq_refl) as (x & Hk & ->).
    by eapply list_elem_of_lookup_2.
  - intros (k & Hk)%list_elem_of_lookup. rewrite (proj2 (Hs k)); [done|]. by exists target.
Qed.

(** ** Text *)

(** [str::repeat] *)
Fixpoint text_repeat (s : string) (n : nat) : string :=
  match n with O => EmptyString | S n => s +:+ text_repeat s n end.

Lemma text_bytes_append a b : text_bytes (a +:+ b) = text_bytes a ++ text_bytes b.
Proof.
  unfold text_bytes. induction a as [|c a IH]; [done|]. change (String c a +:+ b) with (String c (a +:+ b)).
  cbn [String.list_ascii_of_string fmap list_fmap app]. f_equal. exact IH.
Qed.

Lemma string_length_append a b : String.length (a +:+ b) = String.length a + String.length b.
Proof.
  induction a as [|c a IH]; [done|]. change (String c a +:+ b) with (String c (a +:+ b)). cbn [String.length]. by rewrite IH.
Qed.

(** One digit of ["{byte:02x}"] *)
Definition hex_digit (n : Z) : ascii :=
  ascii_of_N (Z.to_N (if (n <? 10)%Z then 48 + n else 87 + n)%Z).

Fixpoint hex (bytes : list Z) : string :=
  match bytes with
  | [] => EmptyString
  | byte :: bytes => String (hex_digit (byte / 16)%Z) (String (hex_digit (byte mod 16)%Z) (hex bytes))
  end.

(** ** Ascending lists are determined by their elements *)

Lemma ascending_unique `{StrictOrder A} (l k : list A) : ascending l → ascending k → (∀ x, x ∈ l ↔ x ∈ k) → l = k.
Proof.
  revert k. induction l as [|x l IH]; intros [|y k] Hl Hk Heq; [done| | |].
  - destruct (proj1 (elem_of_nil y)). apply Heq. left.
  - destruct (proj1 (elem_of_nil x)). apply Heq. left.
  - apply ascending_cons in Hl as [Hx Hl]. apply ascending_cons in Hk as [Hy Hk].
    assert (x = y) as ->.
    { assert (x ∈ y :: k) as [->|Hxk]%elem_of_cons by (apply Heq; left); [done|].
      assert (y ∈ x :: l) as [->|Hyl]%elem_of_cons by (apply Heq; left); [done|].
      pose proof (ltb_asym _ _ (Hy _ Hxk)) as Hn. by rewrite (Hx _ Hyl) in Hn. }
    f_equal. apply IH; [done..|]. intros z. split; intros Hz.
    + assert (z ∈ y :: k) as [->|?]%elem_of_cons by (apply Heq; by right); [|done]. pose proof (Hx _ Hz) as Hn. by rewrite ltb_irrefl in Hn.
    + assert (z ∈ y :: l) as [->|?]%elem_of_cons by (apply Heq; by right); [|done]. pose proof (Hy _ Hz) as Hn. by rewrite ltb_irrefl in Hn.
Qed.

(** ** Ordered maps
    [std::collections::BTreeMap] as its entries in ascending order of keys. *)

Fixpoint map_insert {K A} `{StrictOrder K} (key : K) (x : A) (l : list (K * A)) : list (K * A) :=
  match l with
  | [] => [(key, x)]
  | (k, y) :: l' => if ltb key k then (key, x) :: l else if ltb k key then (k, y) :: map_insert key x l' else (key, x) :: l'
  end.

Definition map_get {K A} `{StrictOrder K} (key : K) (l : list (K * A)) : option A :=
  snd <$> List.find (λ e, match cmp e.1 key with Eq => true | _ => false end) l.

Section Maps.
Context {K A : Type} `{StrictOrder K}.
Implicit Types (l : list (K * A)).

Lemma elem_of_map_insert_keys key x l k : k ∈ (map_insert key x l).*1 → k = key ∨ k ∈ l.*1.
Proof using Type.
  induction l as [|[k' y] l IH]; cbn; [by rewrite list_elem_of_singleton; left|].
  destruct (ltb key k'); [rewrite fmap_cons; by rewrite elem_of_cons; naive_solver|]. destruct (ltb k' key) eqn:H2.
  - rewrite !fmap_cons, !elem_of_cons. cbn. naive_solver.
  - rewrite fmap_cons, elem_of_cons. cbn. intros [->|Hk]; [by left|]. right. by right.
Qed.

Lemma map_insert_ascending key x l : ascending l.*1 → ascending (map_insert key x l).*1.
Proof using Type.
  induction l as [|[k y] l IH]; intros Hl; [apply ascending_cons; split; [by intros ? ?%elem_of_nil|apply ascending_nil]|].
  cbn [map_insert]. pose proof Hl as [Hy Hl']%ascending_cons. destruct (ltb key k) eqn:H1; [|destruct (ltb k key) eqn:H2].
  - apply ascending_cons. split; [|done]. intros z [->|Hz]%elem_of_cons; [done|]. eapply ltb_trans; [exact H1|by apply Hy].
  - apply ascending_cons. split; [|by apply IH]. intros z [->|Hz]%elem_of_map_insert_keys; [done|by apply Hy].
  - rewrite fmap_cons in Hl |- *. cbn in Hl |- *. by rewrite (ltb_total key k).
Qed.

Lemma map_get_cons key k y l : map_get key ((k, y) :: l) = match cmp k key with Eq => Some y | _ => map_get key l end.
Proof using Type. unfold map_get. cbn. by destruct (cmp k key). Qed.

Lemma map_get_find key l : map_get key l = None ↔ key ∉ l.*1.
Proof using Type.
  induction l as [|[k y] l IH]; [split; [by intros _ ?%elem_of_nil|done]|].
  rewrite map_get_cons, fmap_cons, not_elem_of_cons. cbn [fst]. destruct (cmp k key) eqn:Hc.
  - apply cmp_Eq in Hc as ->. split; [done|]. by intros [? _].
  - split; [intros Hn; split; [|by apply IH]|intros [_ Hn]; by apply IH]. intros ->. by rewrite (proj2 (cmp_Eq k k)) in Hc.
  - split; [intros Hn; split; [|by apply IH]|intros [_ Hn]; by apply IH]. intros ->. by rewrite (proj2 (cmp_Eq k k)) in Hc.
Qed.

Lemma map_get_elem key x l : map_get key l = Some x → (key, x) ∈ l.
Proof using Type.
  unfold map_get. intros ([k y] & [Hin Hc]%List_find_Some & ->)%fmap_Some. cbn in *. destruct (cmp k key) eqn:Hk; [|done..].
  by apply cmp_Eq in Hk as ->.
Qed.

Lemma elem_of_map_insert key x l e : key ∉ l.*1 → e ∈ map_insert key x l ↔ e = (key, x) ∨ e ∈ l.
Proof using Type.
  induction l as [|[k y] l IH]; [intros _; cbn; rewrite list_elem_of_singleton, elem_of_nil; naive_solver|].
  rewrite fmap_cons, not_elem_of_cons. intros [Hk Hl]. cbn [map_insert]. destruct (ltb key k) eqn:H1; [by rewrite elem_of_cons|]. destruct (ltb k key) eqn:H2.
  - rewrite !elem_of_cons, IH by done. naive_solver.
  - destruct Hk. cbn. by apply ltb_total.
Qed.

Lemma map_get_insert `{!EqDecision K} key k x l : map_get k (map_insert key x l) = if decide (k = key) then Some x else map_get k l.
Proof using Type.
  induction l as [|[k' y] l IH]; cbn [map_insert].
  { rewrite map_get_cons. destruct (decide (k = key)) as [->|Hk]; [by rewrite (proj2 (cmp_Eq key key))|].
    destruct (cmp key k) eqn:Hc; try done. apply cmp_Eq in Hc; congruence. }
  assert (map_get k ((key, x) :: (k', y) :: l) = if decide (k = key) then Some x else map_get k ((k', y) :: l)) as Hfront.
  { rewrite map_get_cons. destruct (decide (k = key)) as [->|Hk]; [by rewrite (proj2 (cmp_Eq key key))|].
    destruct (cmp key k) eqn:Hc; try done. apply cmp_Eq in Hc; congruence. }
  destruct (ltb key k') eqn:H1; [done|]. destruct (ltb k' key) eqn:H2.
  - rewrite !map_get_cons, IH. destruct (cmp k' k) eqn:Hc; [|done..]. apply cmp_Eq in Hc as ->.
    rewrite decide_False; [done|]. intros ->. by rewrite ltb_irrefl in H2.
  - pose proof (ltb_total _ _ H1 H2) as <-. rewrite !map_get_cons.
    destruct (decide (k = key)) as [->|Hk]; [by rewrite (proj2 (cmp_Eq key key))|].
    destruct (cmp key k) eqn:Hc; try done. apply cmp_Eq in Hc; congruence.
Qed.

Lemma map_get_elem_keys key l : key ∈ l.*1 ↔ is_Some (map_get key l).
Proof using Type.
  pose proof (map_get_find key l) as Hf. destruct (map_get key l) as [x|] eqn:Hg.
  - split; [by eauto|]. intros _. apply list_elem_of_fmap. exists (key, x). split; [done|]. by apply map_get_elem.
  - split; [by intros Hin; destruct (proj1 Hf eq_refl)|by intros [? ?]].
Qed.
End Maps.
