(* ===== verification/ProtocolTheorems.v ===== *)
(** * Properties of the wire protocol

    The canonical bytes of a command determine every signed field. *)

From Stdlib Require Import Ascii.
From stdpp Require Import base strings numbers option list.
From S2P Require Import Prelude Protocol.

(** ** Framing *)

(** A length-prefixed field. *)
Definition frame (value : list Z) : list Z := be_bytes 4 (Z.of_nat (length value)) ++ value.

Lemma be_bytes_length n x : length (be_bytes n x) = n.
Proof. revert x; induction n as [|n IH]; intros x; simpl; [done|]. rewrite length_app, IH. simpl. lia. Qed.

Lemma be_bytes_inj n x y : in_width (8 * Z.of_nat n) x → in_width (8 * Z.of_nat n) y →
  be_bytes n x = be_bytes n y → x = y.
Proof.
  revert x y; induction n as [|n IH]; intros x y Hx Hy Heq.
  { unfold in_width in *. simpl in *. lia. }
  simpl in Heq. apply app_inj_2 in Heq as [Heq [= Hmod]]; [|done].
  assert (∀ z, in_width (8 * Z.of_nat (S n)) z → in_width (8 * Z.of_nat n) (z / 256)) as Hdiv.
  { intros z [Hz0 Hz1]. replace (8 * Z.of_nat (S n))%Z with (8 * Z.of_nat n + 8)%Z in Hz1 by lia.
    rewrite Z.pow_add_r in Hz1 by lia. split; [by apply Z.div_pos|]. apply Z.div_lt_upper_bound; lia. }
  apply IH in Heq; [|by apply Hdiv..].
  rewrite (Z.div_mod x 256), (Z.div_mod y 256) by lia. congruence.
Qed.

Lemma be_bytes_app_inj n x y r s : in_width (8 * Z.of_nat n) x → in_width (8 * Z.of_nat n) y →
  be_bytes n x ++ r = be_bytes n y ++ s → x = y ∧ r = s.
Proof.
  intros Hx Hy Heq. apply app_inj_1 in Heq as [Heq ->]; [|by rewrite !be_bytes_length].
  split; [|done]. by apply be_bytes_inj in Heq.
Qed.

(** A field short enough for its length prefix. *)
Definition framable (value : list Z) : Prop := in_width 32 (Z.of_nat (length value)).

Lemma frame_app_inj v w r s : framable v → framable w → frame v ++ r = frame w ++ s → v = w ∧ r = s.
Proof.
  intros Hv Hw. unfold frame. rewrite <-!app_assoc. intros Heq.
  apply be_bytes_app_inj in Heq as [Hlen Heq]; [|exact Hv|exact Hw].
  by apply app_inj_1 in Heq; [|lia].
Qed.

Lemma text_bytes_inj s t : text_bytes s = text_bytes t → s = t.
Proof.
  intros Heq. rewrite <-(String.string_of_list_ascii_of_string s), <-(String.string_of_list_ascii_of_string t).
  f_equal. assert (Inj (=) (=) (λ a, Z.of_N (N_of_ascii a))) as Hinj.
  { intros a b Hab. apply N2Z.inj in Hab. by rewrite <-(ascii_N_embedding a), <-(ascii_N_embedding b), Hab. }
  unfold text_bytes in Heq. by apply (inj (fmap (λ a, Z.of_N (N_of_ascii a)))) in Heq.
Qed.

Definition optional_bytes (value : option string) : list Z :=
  match value with Some value => 1%Z :: frame (text_bytes value) | None => [0%Z] end.

Lemma writer_bytes_Ok w v w' : CanonicalWriter.bytes w v = Ok w' ↔ framable v ∧ w' = w ++ frame v.
Proof.
  unfold CanonicalWriter.bytes. rewrite bind_Ok. setoid_rewrite ok_or_Ok. setoid_rewrite checked_Some.
  unfold framable, frame. naive_solver.
Qed.

Lemma writer_optional_Ok w v w' : CanonicalWriter.optional_text w v = Ok w' →
  from_option (λ v, framable (text_bytes v)) True v ∧ w' = w ++ optional_bytes v.
Proof.
  destruct v as [v|]; simpl.
  - intros [Hv ->]%writer_bytes_Ok. split; [done|]. unfold CanonicalWriter.u8. by rewrite <-app_assoc.
  - by intros [= <-].
Qed.

Lemma optional_app_inj v w r s :
  from_option (λ v, framable (text_bytes v)) True v → from_option (λ v, framable (text_bytes v)) True w →
  optional_bytes v ++ r = optional_bytes w ++ s → v = w ∧ r = s.
Proof.
  destruct v as [v|], w as [w|]; cbn [from_option optional_bytes app]; intros Hv Hw Heq;
    [|discriminate Heq..|]; apply (f_equal tail) in Heq; cbn [tail] in Heq; [|done].
  by apply frame_app_inj in Heq as [->%text_bytes_inj ->].
Qed.

(** ** The signed fields *)

(** The layout of the signed bytes. *)
Definition layout (domain : list Z) (version : Z) (room : string) (epoch : Z) (object principal : string)
    (revision : Z) (correlation : string) (causation : option string) (p : list Z) (dv : Z) (key : string) : list Z :=
  domain ++ be_bytes 2 version ++ frame (text_bytes room) ++ be_bytes 8 epoch ++ frame (text_bytes object) ++
  frame (text_bytes principal) ++ be_bytes 8 revision ++ frame (text_bytes correlation) ++
  optional_bytes causation ++ frame p ++ be_bytes 2 dv ++ [1%Z] ++ frame (text_bytes key).

Lemma signing_bytes_layout {T} (to_vec : T → option (list Z)) domain version room epoch object principal revision correlation causation p sig b :
  signing_bytes to_vec domain version room epoch object principal revision correlation causation p sig = Ok b →
  ∃ json, to_vec p = Some json ∧
    Forall framable [text_bytes room; text_bytes object; text_bytes principal; text_bytes correlation; json;
                     text_bytes (intent_key_id sig)] ∧
    from_option (λ v, framable (text_bytes v)) True causation ∧
    b = layout domain version room epoch object principal revision correlation causation json
          (intent_domain_version sig) (intent_key_id sig).
Proof.
  unfold signing_bytes, CanonicalWriter.text. intros H.
  apply bind_Ok in H as (json & Hjson%ok_or_Ok & H). exists json. split; [done|].
  apply bind_Ok in H as (w1 & [Hr ->]%writer_bytes_Ok & H).
  apply bind_Ok in H as (w2 & [Ho ->]%writer_bytes_Ok & H).
  apply bind_Ok in H as (w3 & [Hp ->]%writer_bytes_Ok & H).
  apply bind_Ok in H as (w4 & [Hc ->]%writer_bytes_Ok & H).
  apply bind_Ok in H as (w5 & [Hca ->]%writer_optional_Ok & H).
  apply bind_Ok in H as (w6 & [Hj ->]%writer_bytes_Ok & H).
  apply writer_bytes_Ok in H as [Hk ->].
  split; [rewrite !Forall_cons; by split_and!|]. split; [done|].
  unfold layout, CanonicalWriter.u8, CanonicalWriter.u16, CanonicalWriter.u64, CanonicalWriter.new.
  destruct (intent_algorithm sig). by rewrite <-!app_assoc.
Qed.

(** Same bytes, same fields. *)
Lemma signing_bytes_inj {T} (to_vec : T → option (list Z)) domain v1 v2 r1 r2 e1 e2 o1 o2 p1 p2 n1 n2 c1 c2 a1 a2
    t1 t2 s1 s2 b :
  in_width 16 v1 → in_width 16 v2 → in_width 64 e1 → in_width 64 e2 → in_width 64 n1 → in_width 64 n2 →
  in_width 16 (intent_domain_version s1) → in_width 16 (intent_domain_version s2) →
  signing_bytes to_vec domain v1 r1 e1 o1 p1 n1 c1 a1 t1 s1 = Ok b →
  signing_bytes to_vec domain v2 r2 e2 o2 p2 n2 c2 a2 t2 s2 = Ok b →
  (v1, r1, e1, o1, p1, n1, c1, a1, s1) = (v2, r2, e2, o2, p2, n2, c2, a2, s2) ∧ to_vec t1 = to_vec t2.
Proof.
  intros V1 V2 E1 E2 N1 N2 D1 D2 H1 H2.
  apply signing_bytes_layout in H1 as (j1 & Hj1 & F1 & A1 & ->).
  apply signing_bytes_layout in H2 as (j2 & Hj2 & F2 & A2 & Heq).
  rewrite !Forall_cons in F1, F2. destruct F1 as (?&?&?&?&?&?&_), F2 as (?&?&?&?&?&?&_).
  unfold layout in Heq. apply app_inv_head in Heq.
  apply (be_bytes_app_inj 2) in Heq as [-> Heq]; [|done..].
  apply frame_app_inj in Heq as [->%text_bytes_inj Heq]; [|done..].
  apply (be_bytes_app_inj 8) in Heq as [-> Heq]; [|done..].
  apply frame_app_inj in Heq as [->%text_bytes_inj Heq]; [|done..].
  apply frame_app_inj in Heq as [->%text_bytes_inj Heq]; [|done..].
  apply (be_bytes_app_inj 8) in Heq as [-> Heq]; [|done..].
  apply frame_app_inj in Heq as [->%text_bytes_inj Heq]; [|done..].
  apply optional_app_inj in Heq as [-> Heq]; [|done..].
  apply frame_app_inj in Heq as [-> Heq]; [|done..].
  apply (be_bytes_app_inj 2) in Heq as [HD Heq]; [|done..]. apply app_inv_head in Heq.
  assert (text_bytes (intent_key_id s1) = text_bytes (intent_key_id s2)) as HK%text_bytes_inj.
  { apply (frame_app_inj _ _ [] []); [done..|]. by rewrite !app_nil_r. }
  split; [|congruence]. destruct s1 as [? [] ?], s2 as [? [] ?]. simpl in *. by subst.
Qed.

Section Signed.
Context (payload_json : CommandPayload → option (list Z)) (blake3 : list Z → list Z).

(** The machine-width typing of a command's integers. *)
Definition command_typed (c : CommandEnvelope) : Prop :=
  in_width 16 (protocol_version c) ∧ in_width 64 (session_epoch c) ∧ in_width 64 (expected_revision c) ∧
  in_width 16 (domain_version (signature c)).

(** The signed content of a command: all of it but the payload's value and the
    signature text. *)
Definition signed_fields (c : CommandEnvelope) :=
  (protocol_version c, room_id c, session_epoch c, command_id c, principal_id c, expected_revision c,
   correlation_id c, causation_id c, intent (signature c)).

Lemma verification_bytes_inj c1 c2 b : command_typed c1 → command_typed c2 →
  canonical_command_verification_bytes payload_json c1 = Ok b →
  canonical_command_verification_bytes payload_json c2 = Ok b →
  signed_fields c1 = signed_fields c2 ∧ payload_json (payload c1) = payload_json (payload c2).
Proof.
  intros (V1 & E1 & R1 & D1) (V2 & E2 & R2 & D2) H1 H2. unfold canonical_command_verification_bytes in H1, H2.
  apply bind_Ok in H1 as (_ & _ & H1). apply bind_Ok in H2 as (_ & _ & H2).
  unfold signed_fields.
  eapply signing_bytes_inj; [..|exact H1|exact H2]; done.
Qed.

Lemma validate_common_attach u sig : signature_validate sig = Ok tt →
  validate_common (u_protocol_version u) (u_room_id u) (u_principal_id u) (u_correlation_id u)
    (signature (attach_signature u sig)) =
  validate_unsigned_common (u_protocol_version u) (u_room_id u) (u_principal_id u) (u_correlation_id u)
    (signature_intent u).
Proof using Type.
  intros Hsig. unfold validate_common, validate_unsigned_common, attach_signature, require_ids.
  cbn [signature domain_version key_id signature_text]. rewrite Hsig.
  destruct (negb _ || negb _)%bool; [done|].
  destruct (is_valid_identifier (u_room_id u) && is_valid_identifier (u_principal_id u) &&
            is_valid_identifier (u_correlation_id u))%bool; [|done]. cbn [ensure mbind outcome_bind andb].
  destruct (is_valid_identifier (intent_key_id (signature_intent u))); done.
Qed.

(** Attaching a well-formed signature changes no signed byte. *)
Lemma attach_signature_bytes u sig : signature_validate sig = Ok tt →
  canonical_command_verification_bytes payload_json (attach_signature u sig) =
  canonical_command_signed_bytes payload_json u.
Proof using Type.
  intros Hsig. unfold canonical_command_verification_bytes, canonical_command_signed_bytes.
  assert (command_validate (attach_signature u sig) = unsigned_command_validate u) as ->.
  { unfold command_validate, unsigned_command_validate.
    by rewrite <-(validate_common_attach u sig Hsig). }
  destruct (map_err _ _); [|done..]. cbn [mbind outcome_bind attach_signature]. unfold intent. cbn.
  by destruct (signature_intent u).
Qed.
End Signed.

(** [C26] What is signed and hashed is the command.  Attaching a well-formed
    signature changes none of the canonical bytes, so the semantic hash does not
    depend on the signature text; and two commands with the same canonical bytes
    agree on every signed field (versions, room, epoch, identifiers, principal,
    expected revision, causation, signature intent) and on the payload's JSON. *)
Theorem canonical_bytes_bind payload_json blake3 u sig1 sig2 c1 c2 b :
  signature_validate sig1 = Ok tt → signature_validate sig2 = Ok tt →
  command_typed c1 → command_typed c2 →
  canonical_command_verification_bytes payload_json c1 = Ok b →
  canonical_command_verification_bytes payload_json c2 = Ok b →
  canonical_command_verification_bytes payload_json (attach_signature u sig1) =
    canonical_command_signed_bytes payload_json u ∧
  verified_command_semantic_hash payload_json blake3 (attach_signature u sig1) =
    verified_command_semantic_hash payload_json blake3 (attach_signature u sig2) ∧
  signed_fields c1 = signed_fields c2 ∧ payload_json (payload c1) = payload_json (payload c2).
Proof.
  intros Hs1 Hs2 T1 T2 H1 H2. split; [by apply attach_signature_bytes|]. split.
  - unfold verified_command_semantic_hash. by rewrite !attach_signature_bytes.
  - by eapply verification_bytes_inj.
Qed.

(** A concrete serializer for two payload kinds, and the chat command whose bytes
    the protocol fixes. *)
Definition sample_json (p : CommandPayload) : option (list Z) :=
  match p with
  | Chat text =>
      Some ([123; 34] ++ text_bytes "kind" ++ [34; 58; 34] ++ text_bytes "chat" ++ [34; 44; 34] ++
            text_bytes "data" ++ [34; 58; 123; 34] ++ text_bytes "text" ++ [34; 58; 34] ++ text_bytes text ++
            [34; 125; 125])%Z
  | _ => None
  end.

Definition sample_command : UnsignedCommandEnvelope := {|
  u_protocol_version := 1; u_room_id := "room-demo"; u_session_epoch := 3; u_command_id := "command-0001";
  u_principal_id := "principal-alice"; u_expected_revision := 7; u_correlation_id := "correlation-0001";
  u_causation_id := None; u_payload := Chat "hello";
  signature_intent := {| intent_domain_version := 1; intent_algorithm := Ed25519;
                         intent_key_id := "principal-alice" |} |}.

Definition sample_signature (c : ascii) : string := String.string_of_list_ascii (replicate 128 c).

(** The bytes that codec.rs fixes for [sample_command] in its own tests. *)
Definition sample_bytes : list Z :=
  [80; 79; 67; 72; 69; 0; 67; 79; 77; 77; 65; 78; 68; 0; 86; 49; 0; 1; 0; 0; 0; 9; 114; 111; 111; 109; 45; 100;
   101; 109; 111; 0; 0; 0; 0; 0; 0; 0; 3; 0; 0; 0; 12; 99; 111; 109; 109; 97; 110; 100; 45; 48; 48; 48; 49; 0;
   0; 0; 15; 112; 114; 105; 110; 99; 105; 112; 97; 108; 45; 97; 108; 105; 99; 101; 0; 0; 0; 0; 0; 0; 0; 7; 0;
   0; 0; 16; 99; 111; 114; 114; 101; 108; 97; 116; 105; 111; 110; 45; 48; 48; 48; 49; 0; 0; 0; 0; 39; 123; 34;
   107; 105; 110; 100; 34; 58; 34; 99; 104; 97; 116; 34; 44; 34; 100; 97; 116; 97; 34; 58; 123; 34; 116; 101;
   120; 116; 34; 58; 34; 104; 101; 108; 108; 111; 34; 125; 125; 0; 1; 1; 0; 0; 0; 15; 112; 114; 105; 110; 99;
   105; 112; 97; 108; 45; 97; 108; 105; 99; 101]%Z.

Lemma canonical_bytes_bind_witness :
  let c1 := attach_signature sample_command (sample_signature "0") in
  let c2 := attach_signature sample_command (sample_signature "a") in
  canonical_command_verification_bytes sample_json c1 = Ok sample_bytes ∧ signed_fields c1 = signed_fields c2.
Proof.
  assert (canonical_command_signed_bytes sample_json sample_command = Ok sample_bytes) as Hb
    by (vm_compute; reflexivity).
  assert (signature_validate (sample_signature "0") = Ok tt) as H0 by (vm_compute; reflexivity).
  assert (signature_validate (sample_signature "a") = Ok tt) as Ha by (vm_compute; reflexivity).
  pose proof (attach_signature_bytes sample_json sample_command _ H0) as E0. rewrite Hb in E0.
  pose proof (attach_signature_bytes sample_json sample_command _ Ha) as Ea. rewrite Hb in Ea.
  assert (∀ sig, command_typed (attach_signature sample_command sig)) as T.
  { intros sig. unfold command_typed, in_width. simpl. lia. }
  intros c1 c2. split; [exact E0|].
  destruct (canonical_bytes_bind sample_json id sample_command _ _ c1 c2 sample_bytes H0 Ha (T _) (T _) E0 Ea)
    as (_ & _ & H & _). exact H.
Defined.
