(* ===== verification/Frames.v ===== *)
(** * Protocol frames (crates/poche-protocol, types.rs and codec.rs)

    The host's events and snapshots, projection and error envelopes, the
    validation of every frame, its canonical signing bytes and the strict
    newline-delimited JSON codec.  The JSON text of a value, which serde
    produces and parses, is a parameter. *)

From Stdlib Require Import Ascii.
From stdpp Require Import base strings numbers option list.
From S2P Require Import Prelude Protocol.

(** The newtypes of [text_identifier!] *)
Notation ProjectionId := string (only parsing).
Notation SnapshotId := string (only parsing).

(** ** Shapes *)

Inductive HandCapabilityExpiryWire : Type :=
  | WireRoundBoundary | WireSeatRoleChanged (p : PrincipalId) | WireMembershipLost (p : PrincipalId).

Inductive EventPayload : Type :=
  | EventRoomCreated
  | EventMemberJoined (p : PrincipalId)
  | EventMemberDisconnected (p : PrincipalId)
  | EventMemberReconnected (p : PrincipalId)
  | EventMemberLeft (p : PrincipalId)
  | EventSeatTaken (p : PrincipalId) (seat : nat)
  | EventSeatReleased (p : PrincipalId) (seat : nat)
  | EventReadyChanged (p : PrincipalId) (ready : bool)
  | EventCountdownArmed (deadline_tick : Z) (countdown_token : CountdownToken)
  | EventCountdownAborted (countdown_token : CountdownToken)
  | EventPhaseChanged (phase : RoomPhase)
  | EventGameTransitioned (game_state_hash : SemanticHash)
  | EventRoundScored (scores : list Z)
  | EventChatPosted (p : PrincipalId) (text : string)
  | EventHandRequested (request_id : CommandId) (player recipient : PrincipalId)
  | EventHandGranted (player recipient : PrincipalId) (grant_epoch : Z)
  | EventHandDenied (request_id : CommandId) (player recipient : PrincipalId)
  | EventHandRevoked (player recipient : PrincipalId) (grant_epoch : Z)
  | EventHandCapabilitiesExpired (reason : HandCapabilityExpiryWire)
  | EventRoomClosed.

Record UnsignedEventEnvelope : Type := {
  ue_protocol_version : Z; ue_room_id : RoomId; ue_session_epoch : Z; ue_event_id : EventId;
  ue_principal_id : PrincipalId; ue_current_revision : Z; ue_correlation_id : CorrelationId;
  ue_causation_id : CommandId; ue_payload : EventPayload; ue_signature_intent : SignatureIntent;
}.

Record EventEnvelope : Type := {
  ee_protocol_version : Z; ee_room_id : RoomId; ee_session_epoch : Z; ee_event_id : EventId;
  ee_principal_id : PrincipalId; ee_current_revision : Z; ee_correlation_id : CorrelationId;
  ee_causation_id : CommandId; ee_payload : EventPayload; ee_signature : SignatureMetadata;
}.

Record SnapshotPayload : Type := {
  sp_schema_hash : SemanticHash; sp_state_hash : SemanticHash; sp_event_tail_revision : Z;
  sp_phase : RoomPhase; sp_members : list MemberProjection; sp_state : list Z;
}.

Record UnsignedSnapshotEnvelope : Type := {
  us_protocol_version : Z; us_room_id : RoomId; us_session_epoch : Z; us_snapshot_id : SnapshotId;
  us_principal_id : PrincipalId; us_current_revision : Z; us_correlation_id : CorrelationId;
  us_causation_id : EventId; us_payload : SnapshotPayload; us_signature_intent : SignatureIntent;
}.

Record SnapshotEnvelope : Type := {
  ss_protocol_version : Z; ss_room_id : RoomId; ss_session_epoch : Z; ss_snapshot_id : SnapshotId;
  ss_principal_id : PrincipalId; ss_current_revision : Z; ss_correlation_id : CorrelationId;
  ss_causation_id : EventId; ss_payload : SnapshotPayload; ss_signature : SignatureMetadata;
}.

Record ProjectionEnvelope : Type := {
  pe_protocol_version : Z; pe_room_id : RoomId; pe_session_epoch : Z; pe_projection_id : ProjectionId;
  pe_principal_id : PrincipalId; pe_current_revision : Z; pe_projection_epoch : Z;
  pe_correlation_id : CorrelationId; pe_causation_id : EventId; pe_payload : ProjectionPayload;
  pe_signature : SignatureMetadata;
}.

Record ErrorPayload : Type := {
  error_reason : DenyReason; error_policy_id : option PolicyId; error_public_detail : option string;
}.

Record ErrorEnvelope : Type := {
  er_protocol_version : Z; er_room_id : RoomId; er_session_epoch : Z; er_event_id : EventId;
  er_principal_id : PrincipalId; er_current_revision : Z; er_correlation_id : CorrelationId;
  er_causation_id : CommandId; er_payload : ErrorPayload; er_signature : SignatureMetadata;
}.

Inductive ProtocolFrame : Type :=
  | FrameCommand (envelope : CommandEnvelope)
  | FrameEvent (envelope : EventEnvelope)
  | FrameSnapshot (envelope : SnapshotEnvelope)
  | FrameProjection (envelope : ProjectionEnvelope)
  | FrameError (envelope : ErrorEnvelope).

(** [SignatureMetadata] of an intent and a signature *)
Definition signed_metadata (intent : SignatureIntent) (sig : SignatureBytes) : SignatureMetadata :=
  {| domain_version := intent_domain_version intent; algorithm := intent_algorithm intent;
     key_id := intent_key_id intent; signature_text := sig |}.

Definition event_attach_signature (self : UnsignedEventEnvelope) (sig : SignatureBytes) : EventEnvelope :=
  {| ee_protocol_version := ue_protocol_version self; ee_room_id := ue_room_id self;
     ee_session_epoch := ue_session_epoch self; ee_event_id := ue_event_id self;
     ee_principal_id := ue_principal_id self; ee_current_revision := ue_current_revision self;
     ee_correlation_id := ue_correlation_id self; ee_causation_id := ue_causation_id self;
     ee_payload := ue_payload self; ee_signature := signed_metadata (ue_signature_intent self) sig |}.

Definition snapshot_attach_signature (self : UnsignedSnapshotEnvelope) (sig : SignatureBytes) : SnapshotEnvelope :=
  {| ss_protocol_version := us_protocol_version self; ss_room_id := us_room_id self;
     ss_session_epoch := us_session_epoch self; ss_snapshot_id := us_snapshot_id self;
     ss_principal_id := us_principal_id self; ss_current_revision := us_current_revision self;
     ss_correlation_id := us_correlation_id self; ss_causation_id := us_causation_id self;
     ss_payload := us_payload self; ss_signature := signed_metadata (us_signature_intent self) sig |}.

(** ** Validation *)

Definition event_identifiers_valid (p : EventPayload) : bool :=
  match p with
  | EventMemberJoined p | EventMemberDisconnected p | EventMemberReconnected p | EventMemberLeft p
  | EventSeatTaken p _ | EventSeatReleased p _ | EventReadyChanged p _ | EventChatPosted p _ =>
      is_valid_identifier p
  | EventHandRequested request_id player recipient | EventHandDenied request_id player recipient =>
      is_valid_identifier request_id && is_valid_identifier player && is_valid_identifier recipient
  | EventHandGranted player recipient _ | EventHandRevoked player recipient _ =>
      is_valid_identifier player && is_valid_identifier recipient
  | EventHandCapabilitiesExpired reason =>
      match reason with
      | WireRoundBoundary => true
      | WireSeatRoleChanged p | WireMembershipLost p => is_valid_identifier p
      end
  | EventCountdownArmed _ countdown_token | EventCountdownAborted countdown_token =>
      is_valid_identifier countdown_token
  | _ => true
  end.

Definition validate_event_payload (p : EventPayload) : outcome EnvelopeValidationError unit :=
  if negb (event_identifiers_valid p) then Err InvalidIdentifier
  else match p with
       | EventChatPosted _ text =>
           ensure (negb ((String.length text =? 0) || (MAX_CHAT_BYTES <? String.length text))) InvalidPayload
       | EventRoundScored scores => ensure (negb ((length scores =? 0) || (8 <? length scores))) InvalidPayload
       | _ => Ok tt
       end.

Definition unsigned_event_validate (self : UnsignedEventEnvelope) : outcome EnvelopeValidationError unit :=
  _ ← validate_unsigned_common (ue_protocol_version self) (ue_room_id self) (ue_principal_id self)
        (ue_correlation_id self) (ue_signature_intent self);
  _ ← require_ids (is_valid_identifier (ue_event_id self) && is_valid_identifier (ue_causation_id self));
  validate_event_payload (ue_payload self).

Definition unsigned_snapshot_validate (self : UnsignedSnapshotEnvelope) : outcome EnvelopeValidationError unit :=
  _ ← validate_unsigned_common (us_protocol_version self) (us_room_id self) (us_principal_id self)
        (us_correlation_id self) (us_signature_intent self);
  _ ← require_ids (is_valid_identifier (us_snapshot_id self) && is_valid_identifier (us_causation_id self));
  validate_members (sp_members (us_payload self)).

Definition validate_error_payload (p : ErrorPayload) : outcome EnvelopeValidationError unit :=
  if is_some_and (error_policy_id p) (λ id, negb (is_valid_identifier id)) then Err InvalidIdentifier
  else if is_some_and (error_public_detail p) (λ detail, 1024 <? String.length detail) then Err InvalidPayload
  else Ok tt.

Definition frame_validate (self : ProtocolFrame) : outcome EnvelopeValidationError unit :=
  match self with
  | FrameCommand envelope => command_validate envelope
  | FrameEvent e =>
      _ ← validate_common (ee_protocol_version e) (ee_room_id e) (ee_principal_id e) (ee_correlation_id e)
            (ee_signature e);
      _ ← require_ids (is_valid_identifier (ee_event_id e) && is_valid_identifier (ee_causation_id e));
      validate_event_payload (ee_payload e)
  | FrameSnapshot e =>
      _ ← validate_common (ss_protocol_version e) (ss_room_id e) (ss_principal_id e) (ss_correlation_id e)
            (ss_signature e);
      _ ← require_ids (is_valid_identifier (ss_snapshot_id e) && is_valid_identifier (ss_causation_id e));
      validate_members (sp_members (ss_payload e))
  | FrameProjection e =>
      _ ← validate_common (pe_protocol_version e) (pe_room_id e) (pe_principal_id e) (pe_correlation_id e)
            (pe_signature e);
      _ ← require_ids (is_valid_identifier (pe_projection_id e) && is_valid_identifier (pe_causation_id e));
      validate_projection (pe_payload e) (pe_principal_id e)
  | FrameError e =>
      _ ← validate_common (er_protocol_version e) (er_room_id e) (er_principal_id e) (er_correlation_id e)
            (er_signature e);
      _ ← require_ids (is_valid_identifier (er_event_id e) && is_valid_identifier (er_causation_id e));
      validate_error_payload (er_payload e)
  end.

(** ** UTF-8 *)

Definition in_range (low high byte : Z) : bool := ((low <=? byte) && (byte <=? high))%Z.
Definition continuation : Z → bool := in_range 128 191.

(** The second byte a three-byte, or a four-byte, sequence admits. *)
Definition second_of_three (first second : Z) : bool :=
  if (first =? 224)%Z then in_range 160 191 second
  else if (first =? 237)%Z then in_range 128 159 second
  else in_range 225 239 first && continuation second.

Definition second_of_four (first second : Z) : bool :=
  if (first =? 240)%Z then in_range 144 191 second
  else if (first =? 244)%Z then in_range 128 143 second
  else in_range 241 243 first && continuation second.

(** [core::str::from_utf8(bytes).is_ok()] *)
Fixpoint is_utf8 (bytes : list Z) : bool :=
  match bytes with
  | [] => true
  | b1 :: r1 =>
      if (b1 <? 128)%Z then is_utf8 r1
      else match r1 with
           | [] => false
           | b2 :: r2 =>
               if in_range 194 223 b1 then continuation b2 && is_utf8 r2
               else match r2 with
                    | [] => false
                    | b3 :: r3 =>
                        if second_of_three b1 b2 then continuation b3 && is_utf8 r3
                        else match r3 with
                             | [] => false
                             | b4 :: r4 =>
                                 second_of_four b1 b2 && continuation b3 && continuation b4 && is_utf8 r4
                             end
                    end
           end
  end.

(** ** The frame codec *)

Definition MAX_FRAME_BYTES : nat := 30 * 1000.

(** "POCHE\0EVENT\0V1" and "POCHE\0SNAPSHOT\0V1" *)
Definition EVENT_SIGNING_DOMAIN : list Z := text_bytes "POCHE" ++ [0%Z] ++ text_bytes "EVENT" ++ [0%Z] ++ text_bytes "V1".
Definition SNAPSHOT_SIGNING_DOMAIN : list Z :=
  text_bytes "POCHE" ++ [0%Z] ++ text_bytes "SNAPSHOT" ++ [0%Z] ++ text_bytes "V1".

(** [bytes.strip_suffix(b"\n")] *)
Definition strip_newline (bytes : list Z) : option (list Z) :=
  match last bytes with Some 10%Z => Some (removelast bytes) | _ => None end.

(** What serde_json does with the registered shapes. *)
Class Serde : Type := {
  frame_json : ProtocolFrame → option (list Z);
  frame_of_json : list Z → option ProtocolFrame;
  event_json : EventPayload → option (list Z);
  snapshot_json : SnapshotPayload → option (list Z);
}.

Section Frames.
Context `{Serde}.

Definition canonical_event_signed_bytes (event : UnsignedEventEnvelope) : outcome CodecError (list Z) :=
  _ ← map_err InvalidEnvelope (unsigned_event_validate event);
  signing_bytes event_json EVENT_SIGNING_DOMAIN (ue_protocol_version event) (ue_room_id event)
    (ue_session_epoch event) (ue_event_id event) (ue_principal_id event) (ue_current_revision event)
    (ue_correlation_id event) (Some (ue_causation_id event)) (ue_payload event) (ue_signature_intent event).

Definition canonical_event_verification_bytes (event : EventEnvelope) : outcome CodecError (list Z) :=
  _ ← map_err InvalidEnvelope (frame_validate (FrameEvent event));
  signing_bytes event_json EVENT_SIGNING_DOMAIN (ee_protocol_version event) (ee_room_id event)
    (ee_session_epoch event) (ee_event_id event) (ee_principal_id event) (ee_current_revision event)
    (ee_correlation_id event) (Some (ee_causation_id event)) (ee_payload event) (intent (ee_signature event)).

Definition canonical_snapshot_signed_bytes (snapshot : UnsignedSnapshotEnvelope) : outcome CodecError (list Z) :=
  _ ← map_err InvalidEnvelope (unsigned_snapshot_validate snapshot);
  signing_bytes snapshot_json SNAPSHOT_SIGNING_DOMAIN (us_protocol_version snapshot) (us_room_id snapshot)
    (us_session_epoch snapshot) (us_snapshot_id snapshot) (us_principal_id snapshot) (us_current_revision snapshot)
    (us_correlation_id snapshot) (Some (us_causation_id snapshot)) (us_payload snapshot)
    (us_signature_intent snapshot).

Definition canonical_snapshot_verification_bytes (snapshot : SnapshotEnvelope) : outcome CodecError (list Z) :=
  _ ← map_err InvalidEnvelope (frame_validate (FrameSnapshot snapshot));
  signing_bytes snapshot_json SNAPSHOT_SIGNING_DOMAIN (ss_protocol_version snapshot) (ss_room_id snapshot)
    (ss_session_epoch snapshot) (ss_snapshot_id snapshot) (ss_principal_id snapshot) (ss_current_revision snapshot)
    (ss_correlation_id snapshot) (Some (ss_causation_id snapshot)) (ss_payload snapshot)
    (intent (ss_signature snapshot)).

Definition encode_frame_line (frame : ProtocolFrame) : outcome CodecError (list Z) :=
  _ ← map_err InvalidEnvelope (frame_validate frame);
  encoded ← ok_or (frame_json frame) Serialization;
  if MAX_FRAME_BYTES <? length encoded + 1 then Err CodecOversize else Ok (encoded ++ [10%Z]).

Definition decode_frame_line (bytes : list Z) : outcome CodecError ProtocolFrame :=
  if MAX_FRAME_BYTES <? length bytes then Err CodecOversize
  else
    body ← ok_or (strip_newline bytes) MissingLineTerminator;
    if (length body =? 0) || existsb (λ byte, (byte =? 10) || (byte =? 13))%Z body then Err AmbiguousControlInput
    else if negb (is_utf8 body) then Err InvalidUtf8
    else
      frame ← ok_or (frame_of_json body) InvalidJson;
      _ ← map_err InvalidEnvelope (frame_validate frame);
      canonical ← ok_or (frame_json frame) Serialization;
      if bool_decide (canonical ≠ body) then Err NonCanonical else Ok frame.

Definition encode_command_line (command : CommandEnvelope) : outcome CodecError (list Z) :=
  encode_frame_line (FrameCommand command).

Definition decode_command_line (bytes : list Z) : outcome CodecError CommandEnvelope :=
  frame ← decode_frame_line bytes;
  match frame with
  | FrameCommand command => Ok command
  | _ => Err WrongFrameKind
  end.
End Frames.
