(* ===== verification/FrameTheorems.v ===== *)
(** * Properties of protocol frames

    The strict frame codec accepts exactly the lines it writes, and the signed
    bytes of commands, events and snapshots never coincide. *)

From Stdlib Require Import Ascii.
From stdpp Require Import base strings numbers option list.
From S2P Require Import Prelude Protocol ProtocolTheorems Frames.

(** ** Lines *)

Lemma strip_newline_Some bytes body : strip_newline bytes = Some body ↔ bytes = body ++ [10%Z].
Proof.
  unfold strip_newline. split.
  - destruct bytes as [|x l _] using rev_ind; [done|]. rewrite last_snoc, removelast_last.
    destruct (Z.eq_dec x 10%Z) as [->|Hx]; [by intros [= ->]|].
    destruct x as [|[[[[]|[]|]|[[]|[]|]|]|[[[]|[]|]|[[]|[]|]|]|]|]; done.
  - intros ->. by rewrite last_snoc, removelast_last.
Qed.

(** No line feed or carriage return *)
Definition one_line (body : list Z) : Prop := body ≠ [] ∧ Forall (λ byte, byte ≠ 10 ∧ byte ≠ 13)%Z body.

Lemma one_line_spec body :
  ((length body =? 0) || existsb (λ byte, (byte =? 10) || (byte =? 13))%Z body) = false ↔ one_line body.
Proof.
  unfold one_line. rewrite orb_false_iff, Nat.eqb_neq.
  assert (length body ≠ 0 ↔ body ≠ []) as -> by (destruct body; simpl; naive_solver lia).
  apply and_iff_compat_l. induction body as [|x body IH]; simpl; [naive_solver|].
  rewrite orb_false_iff, IH, Forall_cons, orb_false_iff, !Z.eqb_neq. done.
Qed.

(** The checks of the codec, as one predicate. *)
Definition canonical_line `{Serde} (frame : ProtocolFrame) (bytes : list Z) : Prop :=
  ∃ body, frame_json frame = Some body ∧ bytes = body ++ [10%Z] ∧ frame_validate frame = Ok tt ∧
    length bytes <= MAX_FRAME_BYTES.

Section Codec.
Context `{Serde}.

Lemma frame_validated {A} frame (m : outcome CodecError A) a :
  (_ ← map_err InvalidEnvelope (frame_validate frame); m) = Ok a ↔ frame_validate frame = Ok tt ∧ m = Ok a.
Proof using Type. destruct (frame_validate frame) as [[]| |]; simpl; naive_solver. Qed.

Lemma encode_frame_line_Ok frame bytes : encode_frame_line frame = Ok bytes ↔ canonical_line frame bytes.
Proof using Type.
  unfold encode_frame_line, canonical_line. rewrite frame_validated. split.
  - intros [Hv Hb]. apply bind_Ok in Hb as (body & Hj%ok_or_Ok & Hb). exists body.
    destruct (MAX_FRAME_BYTES <? length body + 1) eqn:Hl; [done|]. injection Hb as <-. apply Nat.ltb_ge in Hl.
    rewrite length_app. simpl. split_and!; [done..|lia].
  - intros (body & Hj & -> & Hv & Hl). rewrite length_app in Hl. simpl in Hl. split; [done|]. rewrite Hj.
    cbn [ok_or mbind outcome_bind]. rewrite (proj2 (Nat.ltb_ge _ _)) by lia. done.
Qed.

Lemma decode_frame_line_Ok bytes frame : decode_frame_line bytes = Ok frame ↔
  canonical_line frame bytes ∧
  ∃ body, bytes = body ++ [10%Z] ∧ one_line body ∧ is_utf8 body = true ∧ frame_of_json body = Some frame.
Proof using Type.
  unfold decode_frame_line, canonical_line. split.
  - intros Hd. destruct (MAX_FRAME_BYTES <? length bytes) eqn:Hl; [done|]. apply Nat.ltb_ge in Hl.
    apply bind_Ok in Hd as (body & [=Hb]%ok_or_Ok & Hd). apply strip_newline_Some in Hb as ->.
    destruct (_ || _) eqn:H1 in Hd; [done|]. apply one_line_spec in H1.
    destruct (is_utf8 body) eqn:Hu; [|done]. cbn [negb] in Hd.
    apply bind_Ok in Hd as (frame' & Hf%ok_or_Ok & Hd). apply frame_validated in Hd as [Hv Hd].
    apply bind_Ok in Hd as (canonical & Hc%ok_or_Ok & Hd). case_bool_decide as Hcb; [done|]. injection Hd as ->.
    assert (canonical = body) as -> by (by destruct (base.decide (canonical = body)); [|done]).
    split; [by exists body|]. by exists body.
  - intros [(body & Hj & -> & Hv & Hl) (body' & [<- _]%app_inj_tail & H1 & Hu & Hf)].
    rewrite (proj2 (Nat.ltb_ge _ _)) by done. rewrite (proj2 (strip_newline_Some _ body) eq_refl).
    cbn [ok_or mbind outcome_bind]. rewrite (proj2 (one_line_spec body) H1), Hu, Hf. cbn [negb ok_or].
    apply (frame_validated frame). split; [done|]. rewrite Hj. cbn [ok_or mbind outcome_bind].
    by rewrite bool_decide_eq_false_2 by naive_solver.
Qed.
End Codec.

(** What serde_json documents of a registered shape: parsing undoes printing, and
    the compact text is UTF-8 on one line. *)
Definition serde_laws `{Serde} : Prop :=
  ∀ frame body, frame_json frame = Some body →
    frame_of_json body = Some frame ∧ one_line body ∧ is_utf8 body = true.

(** [C25] The frame codec is exact.  A decoded line is always the line that
    encoding the decoded frame gives, so a frame has at most one accepted line,
    within the size bound, and only valid frames are accepted; when the JSON
    library prints each shape on one line of UTF-8 that it parses back, every
    encoded line is also decoded to its frame.  Command lines decode to the
    command, and no other frame's line decodes as one. *)
Theorem frame_codec_exact `{Serde} : serde_laws →
  (∀ bytes frame, decode_frame_line bytes = Ok frame ↔ encode_frame_line frame = Ok bytes) ∧
  (∀ bytes frame, decode_frame_line bytes = Ok frame →
     frame_validate frame = Ok tt ∧ length bytes <= MAX_FRAME_BYTES ∧ last bytes = Some 10%Z) ∧
  (∀ bytes command, decode_command_line bytes = Ok command ↔ encode_command_line command = Ok bytes) ∧
  (∀ bytes frame, encode_frame_line frame = Ok bytes → (∀ command, frame ≠ FrameCommand command) →
     decode_command_line bytes = Err WrongFrameKind).
Proof.
  intros Hserde.
  assert (∀ bytes frame, decode_frame_line bytes = Ok frame ↔ encode_frame_line frame = Ok bytes) as Hiff.
  { intros bytes frame. rewrite decode_frame_line_Ok, encode_frame_line_Ok. split; [by intros [? _]|].
    intros Hc. split; [done|]. destruct Hc as (body & Hj & -> & _). exists body.
    apply Hserde in Hj as (? & ? & ?). done. }
  split; [done|]. split.
  { intros bytes frame [(body & _ & -> & Hv & Hl) _]%decode_frame_line_Ok. by rewrite last_snoc. }
  unfold decode_command_line, encode_command_line. split.
  - intros bytes command. rewrite <-Hiff. split.
    + intros (f & Hf & Hc)%bind_Ok. destruct f; by simplify_eq.
    + intros ->. done.
  - intros bytes frame ->%Hiff Hne. destruct frame; [by destruct (Hne envelope)|done..].
Qed.

#[local] Instance SignatureAlgorithm_eq_dec : EqDecision SignatureAlgorithm.
Proof. solve_decision. Defined.
#[local] Instance SignatureMetadata_eq_dec : EqDecision SignatureMetadata.
Proof. solve_decision. Defined.
#[local] Instance ErrorPayload_eq_dec : EqDecision ErrorPayload.
Proof. solve_decision. Defined.
#[local] Instance ErrorEnvelope_eq_dec : EqDecision ErrorEnvelope.
Proof. solve_decision. Defined.

(** A serializer for one frame, the refusal of a command. *)
Definition sample_error : ErrorEnvelope := {|
  er_protocol_version := 1; er_room_id := "room-demo"; er_session_epoch := 3; er_event_id := "error-0";
  er_principal_id := "principal-alice"; er_current_revision := 7; er_correlation_id := "correlation-0001";
  er_causation_id := "command-0001";
  er_payload := {| error_reason := StaleRevision; error_policy_id := None; error_public_detail := None |};
  er_signature := {| domain_version := 1; algorithm := Ed25519; key_id := "principal-alice";
                     signature_text := sample_signature "0" |} |}.

(** Its text, abridged. *)
Definition sample_error_text : list Z := [123%Z] ++ text_bytes "D-STALE-REVISION" ++ [125%Z].

#[local] Instance sample_serde : Serde := {|
  frame_json frame := match frame with
                      | FrameError e => if bool_decide (e = sample_error) then Some sample_error_text else None
                      | _ => None
                      end;
  frame_of_json body := if bool_decide (body = sample_error_text) then Some (FrameError sample_error) else None;
  event_json p := match p with EventRoomClosed => Some (text_bytes "room_closed") | _ => None end;
  snapshot_json p := Some (text_bytes "snapshot" ++ sp_state p);
|}.

Lemma frame_codec_exact_witness :
  serde_laws ∧ encode_frame_line (FrameError sample_error) = Ok (sample_error_text ++ [10%Z]) ∧
  decode_frame_line (sample_error_text ++ [10%Z]) = Ok (FrameError sample_error) ∧
  decode_command_line (sample_error_text ++ [10%Z]) = Err WrongFrameKind.
Proof.
  assert (serde_laws) as Hs.
  { intros [| | | |e] body; try discriminate. cbn [frame_json sample_serde]. case_bool_decide as He; [|discriminate].
    intros [= <-]. subst e. split; [by cbn; rewrite bool_decide_eq_true_2|].
    split; [apply one_line_spec; reflexivity|reflexivity]. }
  assert (encode_frame_line (FrameError sample_error) = Ok (sample_error_text ++ [10%Z])) as He
    by (vm_compute; reflexivity).
  destruct (frame_codec_exact Hs) as (Hiff & _ & _ & Hkind).
  split; [exact Hs|]. split; [exact He|]. split.
  - exact (proj2 (Hiff _ _) He).
  - exact (Hkind _ _ He (λ command, ltac:(discriminate))).
Defined.

(** ** Signed bytes *)

Section Domains.
Context `{Serde} (payload_json : CommandPayload → option (list Z)).

(** The machine-width typing of events and snapshots. *)
Definition event_typed (e : EventEnvelope) : Prop :=
  in_width 16 (ee_protocol_version e) ∧ in_width 64 (ee_session_epoch e) ∧ in_width 64 (ee_current_revision e) ∧
  in_width 16 (domain_version (ee_signature e)).

Definition snapshot_typed (s : SnapshotEnvelope) : Prop :=
  in_width 16 (ss_protocol_version s) ∧ in_width 64 (ss_session_epoch s) ∧ in_width 64 (ss_current_revision s) ∧
  in_width 16 (domain_version (ss_signature s)).

(** What the host signs, apart from the value of the payload. *)
Definition event_fields (e : EventEnvelope) :=
  (ee_protocol_version e, ee_room_id e, ee_session_epoch e, ee_event_id e, ee_principal_id e,
   ee_current_revision e, ee_correlation_id e, Some (ee_causation_id e), intent (ee_signature e)).

Definition snapshot_fields (s : SnapshotEnvelope) :=
  (ss_protocol_version s, ss_room_id s, ss_session_epoch s, ss_snapshot_id s, ss_principal_id s,
   ss_current_revision s, ss_correlation_id s, Some (ss_causation_id s), intent (ss_signature s)).

(** The signed bytes start with their domain. *)
Lemma signing_bytes_domain {T} (to_vec : T → option (list Z)) domain v r e o p n c a t s b :
  signing_bytes to_vec domain v r e o p n c a t s = Ok b → ∃ rest, b = domain ++ rest.
Proof using Type. intros (j & _ & _ & _ & ->)%signing_bytes_layout. by eexists. Qed.

Lemma command_bytes_domain c b : canonical_command_verification_bytes payload_json c = Ok b →
  ∃ rest, b = COMMAND_SIGNING_DOMAIN ++ rest.
Proof using Type. intros (_ & _ & Hb%signing_bytes_domain)%bind_Ok. done. Qed.

Lemma event_bytes_domain e b : canonical_event_verification_bytes e = Ok b → ∃ rest, b = EVENT_SIGNING_DOMAIN ++ rest.
Proof using Type. intros (_ & _ & Hb%signing_bytes_domain)%bind_Ok. done. Qed.

Lemma snapshot_bytes_domain s b : canonical_snapshot_verification_bytes s = Ok b →
  ∃ rest, b = SNAPSHOT_SIGNING_DOMAIN ++ rest.
Proof using Type. intros (_ & _ & Hb%signing_bytes_domain)%bind_Ok. done. Qed.

(** No signature can be moved from one kind of frame to another, or from one
    frame to another of the same kind.  The bytes signed for a command, an event
    and a snapshot are never equal; two events with the same signed bytes agree
    on every field and on the JSON of the payload, and so do two snapshots. *)
Theorem signed_domains_separate e1 e2 s1 s2 b :
  event_typed e1 → event_typed e2 → snapshot_typed s1 → snapshot_typed s2 →
  (∀ c, canonical_command_verification_bytes payload_json c = Ok b →
     canonical_event_verification_bytes e1 ≠ Ok b ∧ canonical_snapshot_verification_bytes s1 ≠ Ok b) ∧
  (canonical_event_verification_bytes e1 = Ok b →
     canonical_snapshot_verification_bytes s1 ≠ Ok b ∧
     (canonical_event_verification_bytes e2 = Ok b →
        event_fields e1 = event_fields e2 ∧ event_json (ee_payload e1) = event_json (ee_payload e2))) ∧
  (canonical_snapshot_verification_bytes s1 = Ok b → canonical_snapshot_verification_bytes s2 = Ok b →
     snapshot_fields s1 = snapshot_fields s2 ∧ snapshot_json (ss_payload s1) = snapshot_json (ss_payload s2)).
Proof.
  intros (?&?&?&?) (?&?&?&?) (?&?&?&?) (?&?&?&?). split_and!.
  - intros c (r & ->)%command_bytes_domain.
    split; [intros (r' & Hb)%event_bytes_domain|intros (r' & Hb)%snapshot_bytes_domain]; discriminate Hb.
  - intros He. split.
    { apply event_bytes_domain in He as (r & ->). intros (r' & Hb)%snapshot_bytes_domain. discriminate Hb. }
    intros He2. apply bind_Ok in He as (_ & _ & He). apply bind_Ok in He2 as (_ & _ & He2).
    eapply signing_bytes_inj; [..|exact He|exact He2]; done.
  - intros Hs Hs2. apply bind_Ok in Hs as (_ & _ & Hs). apply bind_Ok in Hs2 as (_ & _ & Hs2).
    eapply signing_bytes_inj; [..|exact Hs|exact Hs2]; done.
Qed.
End Domains.

Definition sample_event (sig : SignatureBytes) : EventEnvelope := {|
  ee_protocol_version := 1; ee_room_id := "room-demo"; ee_session_epoch := 3; ee_event_id := "event-8";
  ee_principal_id := "principal-alice"; ee_current_revision := 8; ee_correlation_id := "correlation-0001";
  ee_causation_id := "command-0001"; ee_payload := EventRoomClosed;
  ee_signature := {| domain_version := 1; algorithm := Ed25519; key_id := "principal-alice"; signature_text := sig |} |}.

Definition sample_snapshot (state : list Z) : SnapshotEnvelope := {|
  ss_protocol_version := 1; ss_room_id := "room-demo"; ss_session_epoch := 3; ss_snapshot_id := "snapshot-8";
  ss_principal_id := "principal-alice"; ss_current_revision := 8; ss_correlation_id := "correlation-0001";
  ss_causation_id := "event-8";
  ss_payload := {| sp_schema_hash := SemanticHashOf []; sp_state_hash := SemanticHashOf []; sp_event_tail_revision := 8;
                   sp_phase := RoomClosedPhase; sp_members := []; sp_state := state |};
  ss_signature := {| domain_version := 1; algorithm := Ed25519; key_id := "principal-alice";
                     signature_text := sample_signature "0" |} |}.

(** The same closing event under two signature texts. *)
Lemma signed_domains_separate_witness :
  ∃ b, canonical_event_verification_bytes (sample_event (sample_signature "0")) = Ok b ∧
    canonical_event_verification_bytes (sample_event (sample_signature "a")) = Ok b ∧
    canonical_snapshot_verification_bytes (sample_snapshot [1%Z]) ≠ Ok b ∧
    event_fields (sample_event (sample_signature "0")) = event_fields (sample_event (sample_signature "a")).
Proof.
  assert (∃ b, canonical_event_verification_bytes (sample_event (sample_signature "0")) = Ok b ∧
    canonical_event_verification_bytes (sample_event (sample_signature "a")) = Ok b) as (b & H0 & Ha).
  { eexists. split; vm_compute; reflexivity. }
  assert (∀ sig, event_typed (sample_event sig)) as Te.
  { intros sig. unfold event_typed, in_width. simpl. lia. }
  assert (∀ state, snapshot_typed (sample_snapshot state)) as Ts.
  { intros state. unfold snapshot_typed, in_width. simpl. lia. }
  destruct (signed_domains_separate sample_json _ _ _ _ b (Te (sample_signature "0")) (Te (sample_signature "a"))
    (Ts [1%Z]) (Ts [2%Z])) as (_ & He & _).
  destruct (He H0) as [Hs Hf]. exists b. exact (conj H0 (conj Ha (conj Hs (proj1 (Hf Ha))))).
Defined.
