(* ===== verification/SessionState.v ===== *)
(** * Session state (crates/poche-session/src/state.rs and lib.rs)

    The authoritative room: members, invites, policies, the processed-command
    log, chat windows and hand capabilities, with the structural invariants that
    [validate] checks.  The game behind the room is an interface, [SessionGame]. *)

From stdpp Require Import base strings numbers option list.
From S2P Require Import Prelude Protocol.

Definition MAX_MEMBERS : nat := 8.
Definition CHAT_MESSAGES_PER_WINDOW : Z := 5.
Definition CHAT_WINDOW_REVISIONS : Z := 20.
Definition MAX_HAND_REQUESTS : nat := 64.
Definition MAX_HAND_GRANTS : nat := 64.

Inductive PrincipalKind : Type :=
  | PUnknown | PHost | PMember | PPlayer | PSpectator | PDisconnectedMember | PAuthorityClock
  | PGameEnvironment.

Inductive ConnectionState : Type := Connected | Disconnected.

Record MemberState : Type := {
  m_principal : PrincipalId; m_membership_epoch : Z; m_connection : ConnectionState; m_seat : option nat;
  m_ready : bool; m_host : bool; m_chat_window_start_revision : Z; m_chat_messages_in_window : Z;
}.

(** [invite_verifier] is the verifier's 32 bytes. *)
Record InviteRecord : Type := {
  verifier : list Z; expires_after_revision : Z; consumed : bool; revoked : bool; reusable : bool;
}.

Inductive PrincipalSelector : Type :=
  | Exact (principal : PrincipalId)
  | OfKind (kind : PrincipalKind).

Inductive PolicyEffect : Type := EffectAllow | EffectDeny (reason : DenyReason).

Record PolicyRule : Type := {
  rule_policy_id : PolicyId; rule_priority : Z; rule_principal : PrincipalSelector;
  rule_command : CommandKind; rule_effect : PolicyEffect; rule_audit_only : bool;
}.

Record PolicyResult : Type := {
  result_policy_id : PolicyId; result_priority : Z; result_allowed : bool;
  result_reason : option DenyReason; result_audit_only : bool;
}.

Inductive PolicyDecision : Type :=
  | Allow (policy_id : PolicyId) (results : list PolicyResult)
  | Deny (reason : DenyReason) (policy_id : option PolicyId) (results : list PolicyResult).

Definition is_allowed (self : PolicyDecision) : bool :=
  match self with Allow _ _ => true | Deny _ _ _ => false end.

Record AuthorizedCommand : Type := { ac_command : CommandEnvelope; ac_decision : PolicyDecision }.

Definition from_decision (command : CommandEnvelope) (decision : PolicyDecision)
    : outcome PolicyDecision AuthorizedCommand :=
  if is_allowed decision then Ok {| ac_command := command; ac_decision := decision |} else Err decision.

Inductive GameTurn : Type := GTChance | GTPlayer (seat : nat) | GTEnvironment | GTFinished.

Record GameTransition (G : Type) : Type := {
  gt_game : G; gt_round_scores : option (list Z); gt_terminal : bool;
}.
Arguments gt_game {_} _.
Arguments gt_round_scores {_} _.
Arguments gt_terminal {_} _.

Inductive PublicGameChange : Type :=
  | ChangePlayerAction (seat : nat) (action : GameActionWire)
  | ChangeRoundScored (scores : list Z) (terminal : bool).

Record HandViewRequest : Type := {
  hr_request_id : CommandId; hr_player : PrincipalId; hr_recipient : PrincipalId;
}.

Record HandViewGrant : Type := {
  hg_player : PrincipalId; hg_recipient : PrincipalId; hg_grant_epoch : Z;
}.

Inductive HandCapabilityExpiry : Type :=
  | RoundBoundary
  | SeatRoleChanged (principal : PrincipalId)
  | MembershipLost (principal : PrincipalId).

(** The port of the game, [SessionGame]; a method that Rust can make panic
    returns an outcome. *)
Class SessionGame (G E : Type) : Type := {
  start : list (nat * PrincipalId) → outcome E G;
  game_turn : G → outcome E GameTurn;
  public_projection : G → outcome E GamePublicStateWire;
  private_hand : G → nat → outcome E (list nat);
  player_transition : G → nat → GameActionWire → outcome E (GameTransition G);
  chance_transition : G → ChanceWire → outcome E (GameTransition G);
  settle : G → outcome E (GameTransition G);
}.

Inductive SessionPhase (G : Type) : Type :=
  | Uninitialized
  | Lobby
  | Countdown (deadline_tick : Z) (token : CountdownToken)
  | Running (game : G)
  | Paused (game : G)
  | PostGame (game : G)
  | Closed.
Arguments Uninitialized {_}.
Arguments Lobby {_}.
Arguments Countdown {_} _ _.
Arguments Running {_} _.
Arguments Paused {_} _.
Arguments PostGame {_} _.
Arguments Closed {_}.

Record EventProvenance : Type := {
  ep_command_id : CommandId; ep_command_hash : SemanticHash; ep_principal_id : PrincipalId;
  ep_correlation_id : CorrelationId; ep_base_revision : Z; ep_event_index : Z; ep_decision : PolicyDecision;
}.

Inductive SessionEventKind (G : Type) : Type :=
  | RoomCreated (host : PrincipalId)
  | MemberJoined (principal : PrincipalId) (invite_index : Z)
  | SeatTaken (principal : PrincipalId) (seat : nat)
  | SeatReleased (principal : PrincipalId) (seat : nat)
  | ReadyChanged (principal : PrincipalId) (ready : bool)
  | CountdownArmed (deadline_tick : Z) (token : CountdownToken)
  | CountdownCancelled (token : CountdownToken)
  | GameStarted (game : G)
  | GameAdvanced (game : G) (round_scores : option (list Z)) (terminal : bool)
      (public_change : option PublicGameChange)
  | EvPaused
  | EvUnpaused
  | MemberDisconnected (principal : PrincipalId)
  | MemberReconnected (principal : PrincipalId)
  | MemberLeft (principal : PrincipalId)
  | MemberRemoved (principal : PrincipalId)
  | LobbyReset
  | ChatPosted (principal : PrincipalId) (text : string)
  | HandViewRequested (request_id : CommandId) (player recipient : PrincipalId)
  | HandViewGranted (request_id : CommandId) (player recipient : PrincipalId) (grant_epoch : Z)
  | HandViewDenied (request_id : CommandId) (player recipient : PrincipalId)
  | HandViewRevoked (player recipient : PrincipalId) (grant_epoch : Z)
  | HandCapabilitiesExpired (reason : HandCapabilityExpiry)
  | RoomClosed.
Arguments RoomCreated {_} _.
Arguments MemberJoined {_} _ _.
Arguments SeatTaken {_} _ _.
Arguments SeatReleased {_} _ _.
Arguments ReadyChanged {_} _ _.
Arguments CountdownArmed {_} _ _.
Arguments CountdownCancelled {_} _.
Arguments GameStarted {_} _.
Arguments GameAdvanced {_} _ _ _ _.
Arguments EvPaused {_}.
Arguments EvUnpaused {_}.
Arguments MemberDisconnected {_} _.
Arguments MemberReconnected {_} _.
Arguments MemberLeft {_} _.
Arguments MemberRemoved {_} _.
Arguments LobbyReset {_}.
Arguments ChatPosted {_} _ _.
Arguments HandViewRequested {_} _ _ _.
Arguments HandViewGranted {_} _ _ _ _.
Arguments HandViewDenied {_} _ _ _.
Arguments HandViewRevoked {_} _ _ _.
Arguments HandCapabilitiesExpired {_} _.
Arguments RoomClosed {_}.

Record SessionEvent (G : Type) : Type := { ev_provenance : EventProvenance; ev_kind : SessionEventKind G }.
Arguments ev_provenance {_} _.
Arguments ev_kind {_} _.

Record ProcessedCommand (G : Type) : Type := {
  pc_command_id : CommandId; pc_command_hash : SemanticHash; pc_decision : PolicyDecision;
  pc_events : list (SessionEvent G);
}.
Arguments pc_command_id {_} _.
Arguments pc_command_hash {_} _.
Arguments pc_decision {_} _.
Arguments pc_events {_} _.

Record SessionState (G : Type) : Type := {
  st_room_id : RoomId; st_session_epoch : Z; st_revision : Z; st_host : option PrincipalId;
  authority_clock : PrincipalId; game_environment : PrincipalId; st_phase : SessionPhase G;
  members : list MemberState; invites : list InviteRecord; policies : list PolicyRule;
  processed_commands : list (ProcessedCommand G); chat_count : Z; projection_epoch : Z;
  hand_requests : list HandViewRequest; hand_grants : list HandViewGrant;
  public_history : list PublicGameEventWire;
}.
Arguments st_room_id {_} _.
Arguments st_session_epoch {_} _.
Arguments st_revision {_} _.
Arguments st_host {_} _.
Arguments authority_clock {_} _.
Arguments game_environment {_} _.
Arguments st_phase {_} _.
Arguments members {_} _.
Arguments invites {_} _.
Arguments policies {_} _.
Arguments processed_commands {_} _.
Arguments chat_count {_} _.
Arguments projection_epoch {_} _.
Arguments hand_requests {_} _.
Arguments hand_grants {_} _.
Arguments public_history {_} _.

Inductive SessionInvariantError : Type :=
  | TooManyMembers | InvalidSeat | InvalidReadiness | DuplicateMemberOrSeat | InvalidPhaseData | MissingHost
  | InvalidCommandRecord | InvalidPolicy | InvalidInvite | TooManyHandCapabilities | InvalidHandCapability.

Inductive SessionError (E : Type) : Type :=
  | Denied (reason : DenyReason)
  | GameError (e : E)
  | Invariant (e : SessionInvariantError)
  | ConflictingCommandId
  | EventOrder
  | UnsupportedInThisTask.
Arguments Denied {_} _.
Arguments GameError {_} _.
Arguments Invariant {_} _.
Arguments ConflictingCommandId {_}.
Arguments EventOrder {_}.
Arguments UnsupportedInThisTask {_}.

#[export] Instance PrincipalKind_eq_dec : EqDecision PrincipalKind.
Proof. solve_decision. Defined.
#[export] Instance ConnectionState_eq_dec : EqDecision ConnectionState.
Proof. solve_decision. Defined.
#[export] Instance GameTurn_eq_dec : EqDecision GameTurn.
Proof. solve_decision. Defined.
#[export] Instance PolicyResult_eq_dec : EqDecision PolicyResult.
Proof. solve_decision. Defined.
#[export] Instance PolicyDecision_eq_dec : EqDecision PolicyDecision.
Proof. solve_decision. Defined.
#[export] Instance PublicGameChange_eq_dec : EqDecision PublicGameChange.
Proof. solve_decision. Defined.
#[export] Instance HandCapabilityExpiry_eq_dec : EqDecision HandCapabilityExpiry.
Proof. solve_decision. Defined.
#[export] Instance EventProvenance_eq_dec : EqDecision EventProvenance.
Proof. solve_decision. Defined.
#[export] Instance SessionEventKind_eq_dec {G} `{EqDecision G} : EqDecision (SessionEventKind G).
Proof. solve_decision. Defined.
#[export] Instance SessionEvent_eq_dec {G} `{EqDecision G} : EqDecision (SessionEvent G).
Proof. solve_decision. Defined.

(** ** Invites *)

Section Invites.
Context (blake3 : list Z → list Z).

(** "poche-session-invite-v1\0" and the candidate, hashed *)
Definition invite_verifier (candidate : string) : list Z :=
  blake3 (text_bytes "poche-session-invite-v1" ++ [0%Z] ++ text_bytes candidate).

Definition InviteRecord_new (candidate : string) (expires : Z) : outcome SessionInvariantError InviteRecord :=
  if (String.length candidate =? 0) || (256 <? String.length candidate) then Err InvalidInvite
  else Ok {| verifier := invite_verifier candidate; expires_after_revision := expires;
             consumed := false; revoked := false; reusable := false |}.

Definition InviteRecord_new_reusable (candidate : string) (expires : Z)
    : outcome SessionInvariantError InviteRecord :=
  record ← InviteRecord_new candidate expires;
  Ok {| verifier := verifier record; expires_after_revision := expires_after_revision record;
        consumed := consumed record; revoked := revoked record; reusable := true |}.

Definition constant_time_equal (left right : list Z) : bool :=
  let difference := Z.lxor (Z.of_nat (length left)) (Z.of_nat (length right)) in
  let maximum := length left `max` length right in
  let difference := foldl (λ difference index,
    let left_byte := default 0%Z (left !! index) in
    let right_byte := default 0%Z (right !! index) in
    Z.lor difference (Z.lxor left_byte right_byte)) difference (seq 0 maximum) in
  (difference =? 0)%Z.

Definition matches (self : InviteRecord) (candidate : string) : bool :=
  constant_time_equal (verifier self) (invite_verifier candidate).
End Invites.

Definition applies (self : PolicyRule) (principal : PrincipalId) (pk : PrincipalKind) (command : CommandKind) : bool :=
  bool_decide (rule_command self = command) &&
  match rule_principal self with
  | Exact candidate => bool_decide (candidate = principal)
  | OfKind candidate => bool_decide (candidate = pk)
  end.

(** ** The room *)

Section State.
Context {G : Type}.
Implicit Types self : SessionState G.

Definition pending (room clock environment : string) : SessionState G := {|
  st_room_id := room; st_session_epoch := 0; st_revision := 0; st_host := None;
  authority_clock := clock; game_environment := environment; st_phase := Uninitialized;
  members := []; invites := []; policies := []; processed_commands := []; chat_count := 0;
  projection_epoch := 0; hand_requests := []; hand_grants := []; public_history := [] |}.

(** [iter().find(..)] *)
Definition find_member (p : PrincipalId) (ms : list MemberState) : option (nat * MemberState) :=
  list_find (λ m, m_principal m = p) ms.

Definition member self (p : PrincipalId) : option MemberState := snd <$> find_member p (members self).

Definition seat_owner self (s : nat) : option MemberState :=
  snd <$> list_find (λ m, m_seat m = Some s) (members self).

Definition seated (m : MemberState) : bool := bool_decide (is_Some (m_seat m)).

Definition connected (m : MemberState) : bool := bool_decide (m_connection m = Connected).

Definition accepts_invite (blake3 : list Z → list Z) self (invite : InviteProof) : bool :=
  (length (members self) <? MAX_MEMBERS) &&
  existsb (λ record, matches blake3 record invite && negb (consumed record) && negb (revoked record) &&
                     (st_revision self <=? expires_after_revision record)%Z) (invites self).

Definition principal_kind self (p : PrincipalId) : PrincipalKind :=
  if bool_decide (p = authority_clock self) then PAuthorityClock
  else if bool_decide (p = game_environment self) then PGameEnvironment
  else match member self p with
       | None => PUnknown
       | Some m =>
           if bool_decide (m_connection m = Disconnected) then PDisconnectedMember
           else if m_host m then PHost
           else if seated m then PPlayer else PSpectator
       end.

(** ** Structural invariants *)

Definition ready_and_connected (m : MemberState) : bool := m_ready m && connected m.

(** The loop over [members]; [rest] is [members\[index + 1..\]]. *)
Fixpoint validate_member_list (epoch : Z) (ms : list MemberState) : outcome SessionInvariantError unit :=
  match ms with
  | [] => Ok tt
  | m :: rest =>
      if ((m_membership_epoch m =? 0) || (epoch <? m_membership_epoch m))%Z then Err InvalidPhaseData
      else if is_some_and (m_seat m) (λ s, MAX_MEMBERS <=? s) then Err InvalidSeat
      else if m_ready m && (negb (connected m) || negb (seated m)) then Err InvalidReadiness
      else if existsb (λ other, bool_decide (m_principal other = m_principal m) ||
                                (seated m && bool_decide (m_seat other = m_seat m))) rest
      then Err DuplicateMemberOrSeat
      else validate_member_list epoch rest
  end.

Definition validate_phase self : outcome SessionInvariantError unit :=
  match st_phase self with
  | Uninitialized =>
      ensure ((st_session_epoch self =? 0)%Z && bool_decide (st_host self = None) &&
              (length (members self) =? 0)) InvalidPhaseData
  | phase =>
      if (st_session_epoch self =? 0)%Z then Err InvalidPhaseData
      else match phase with
           | Countdown _ _ =>
               let seated_members := List.filter seated (members self) in
               ensure (negb ((length seated_members <? 2) ||
                             existsb (λ m, negb (ready_and_connected m)) seated_members)) InvalidReadiness
           | _ => Ok tt
           end
  end.

Definition validate_host self : outcome SessionInvariantError unit :=
  match st_host self with
  | None => Ok tt
  | Some host =>
      m ← ok_or (member self host) MissingHost;
      ensure (m_host m && (length (List.filter m_host (members self)) =? 1)) MissingHost
  end.

(** The recipient may see the player's hand: the player is seated, the recipient
    is not, and they differ. *)
Definition capability_pair self (player recipient : PrincipalId) : bool :=
  is_some_and (member self player) seated &&
  is_some_and (member self recipient) (λ m, negb (seated m)) &&
  negb (bool_decide (player = recipient)).

Definition valid_request self (r : HandViewRequest) : bool := capability_pair self (hr_player r) (hr_recipient r).

Definition valid_grant self (g : HandViewGrant) : bool :=
  capability_pair self (hg_player g) (hg_recipient g) &&
  negb (hg_grant_epoch g =? 0)%Z && (hg_grant_epoch g <=? projection_epoch self)%Z.

(** A loop that rejects an ill-formed element or one that clashes with a later one. *)
Definition validate_list {A} (valid : A → bool) (clash : A → A → bool) (e : SessionInvariantError) (l : list A)
    : outcome SessionInvariantError unit :=
  ensure (forallb valid l && negb (later_pair clash l)) e.

Definition request_clash (r other : HandViewRequest) : bool :=
  bool_decide (hr_request_id other = hr_request_id r) || bool_decide (hr_recipient other = hr_recipient r).

Definition grant_clash (g other : HandViewGrant) : bool := bool_decide (hg_recipient other = hg_recipient g).

Definition valid_record (record : ProcessedCommand G) : bool :=
  forallb (λ p : nat * SessionEvent G,
    bool_decide (ep_command_id (ev_provenance p.2) = pc_command_id record) &&
    bool_decide (ep_command_hash (ev_provenance p.2) = pc_command_hash record) &&
    (ep_event_index (ev_provenance p.2) =? Z.of_nat p.1)%Z) (imap pair (pc_events record)).

Definition record_clash (record other : ProcessedCommand G) : bool :=
  bool_decide (pc_command_id other = pc_command_id record).

Definition policy_clash (p other : PolicyRule) : bool := bool_decide (rule_policy_id other = rule_policy_id p).

Definition validate self : outcome SessionInvariantError unit :=
  if MAX_MEMBERS <? length (members self) then Err TooManyMembers
  else if (MAX_HAND_REQUESTS <? length (hand_requests self)) || (MAX_HAND_GRANTS <? length (hand_grants self))
  then Err TooManyHandCapabilities
  else
    _ ← validate_member_list (st_session_epoch self) (members self);
    _ ← validate_list (λ _, true) policy_clash InvalidPolicy (policies self);
    _ ← validate_phase self;
    _ ← validate_host self;
    _ ← validate_list (valid_request self) request_clash InvalidHandCapability (hand_requests self);
    _ ← validate_list (valid_grant self) grant_clash InvalidHandCapability (hand_grants self);
    validate_list valid_record record_clash InvalidCommandRecord (processed_commands self).

(** ** Field updates *)

Definition with_phase self (phase : SessionPhase G) : SessionState G :=
  {| st_room_id := st_room_id self; st_session_epoch := st_session_epoch self; st_revision := st_revision self;
     st_host := st_host self; authority_clock := authority_clock self; game_environment := game_environment self;
     st_phase := phase; members := members self; invites := invites self; policies := policies self;
     processed_commands := processed_commands self; chat_count := chat_count self;
     projection_epoch := projection_epoch self; hand_requests := hand_requests self;
     hand_grants := hand_grants self; public_history := public_history self |}.

Definition with_members self (ms : list MemberState) : SessionState G :=
  {| st_room_id := st_room_id self; st_session_epoch := st_session_epoch self; st_revision := st_revision self;
     st_host := st_host self; authority_clock := authority_clock self; game_environment := game_environment self;
     st_phase := st_phase self; members := ms; invites := invites self; policies := policies self;
     processed_commands := processed_commands self; chat_count := chat_count self;
     projection_epoch := projection_epoch self; hand_requests := hand_requests self;
     hand_grants := hand_grants self; public_history := public_history self |}.

(** [session_epoch = 1; host = Some(..)] of a created room *)
Definition with_host self (host : PrincipalId) : SessionState G :=
  {| st_room_id := st_room_id self; st_session_epoch := 1; st_revision := st_revision self;
     st_host := Some host; authority_clock := authority_clock self; game_environment := game_environment self;
     st_phase := st_phase self; members := members self; invites := invites self; policies := policies self;
     processed_commands := processed_commands self; chat_count := chat_count self;
     projection_epoch := projection_epoch self; hand_requests := hand_requests self;
     hand_grants := hand_grants self; public_history := public_history self |}.

Definition with_invites self (records : list InviteRecord) : SessionState G :=
  {| st_room_id := st_room_id self; st_session_epoch := st_session_epoch self; st_revision := st_revision self;
     st_host := st_host self; authority_clock := authority_clock self; game_environment := game_environment self;
     st_phase := st_phase self; members := members self; invites := records; policies := policies self;
     processed_commands := processed_commands self; chat_count := chat_count self;
     projection_epoch := projection_epoch self; hand_requests := hand_requests self;
     hand_grants := hand_grants self; public_history := public_history self |}.

Definition with_chat_count self (n : Z) : SessionState G :=
  {| st_room_id := st_room_id self; st_session_epoch := st_session_epoch self; st_revision := st_revision self;
     st_host := st_host self; authority_clock := authority_clock self; game_environment := game_environment self;
     st_phase := st_phase self; members := members self; invites := invites self; policies := policies self;
     processed_commands := processed_commands self; chat_count := n;
     projection_epoch := projection_epoch self; hand_requests := hand_requests self;
     hand_grants := hand_grants self; public_history := public_history self |}.

Definition with_capabilities self (epoch : Z) (rs : list HandViewRequest) (gs : list HandViewGrant) : SessionState G :=
  {| st_room_id := st_room_id self; st_session_epoch := st_session_epoch self; st_revision := st_revision self;
     st_host := st_host self; authority_clock := authority_clock self; game_environment := game_environment self;
     st_phase := st_phase self; members := members self; invites := invites self; policies := policies self;
     processed_commands := processed_commands self; chat_count := chat_count self;
     projection_epoch := epoch; hand_requests := rs; hand_grants := gs;
     public_history := public_history self |}.

Definition with_history self (h : list PublicGameEventWire) : SessionState G :=
  {| st_room_id := st_room_id self; st_session_epoch := st_session_epoch self; st_revision := st_revision self;
     st_host := st_host self; authority_clock := authority_clock self; game_environment := game_environment self;
     st_phase := st_phase self; members := members self; invites := invites self; policies := policies self;
     processed_commands := processed_commands self; chat_count := chat_count self;
     projection_epoch := projection_epoch self; hand_requests := hand_requests self;
     hand_grants := hand_grants self; public_history := h |}.

Definition with_log self (revision : Z) (records : list (ProcessedCommand G)) : SessionState G :=
  {| st_room_id := st_room_id self; st_session_epoch := st_session_epoch self; st_revision := revision;
     st_host := st_host self; authority_clock := authority_clock self; game_environment := game_environment self;
     st_phase := st_phase self; members := members self; invites := invites self; policies := policies self;
     processed_commands := records; chat_count := chat_count self;
     projection_epoch := projection_epoch self; hand_requests := hand_requests self;
     hand_grants := hand_grants self; public_history := public_history self |}.
End State.
