(* ===== verification/OracleSession.v ===== *)
(** * The oracle behind the session gate (crates/poche-runtime/src/oracle_session.rs)

    [OracleSessionGame] adapts the full rules to the session's game port: seats in
    order, card codes of the canonical deck, and replayable chance inputs. *)

From stdpp Require Import base strings numbers option list.
From S2P Require Import Prelude Oracle Environment Protocol SessionState.

Record OracleSessionGame : Type := OracleSessionGameOf { game : GameState }.

Inductive OracleSessionGameError : Type :=
  | InvalidSeatComposition | InvalidCardCode | ChanceProvenanceMismatch | InvalidProjection
  | Rule (violation : RuleViolation).

#[export] Instance FixedCards_eq_dec : EqDecision FixedCards.
Proof. solve_decision. Defined.
#[export] Instance PlayedCard_eq_dec : EqDecision PlayedCard.
Proof. solve_decision. Defined.
#[export] Instance Trick_eq_dec : EqDecision Trick.
Proof. solve_decision. Defined.
#[export] Instance Ledger_eq_dec : EqDecision Ledger.
Proof. solve_decision. Defined.
#[export] Instance Bidding_eq_dec : EqDecision Bidding.
Proof. solve_decision. Defined.
#[export] Instance Playing_eq_dec : EqDecision Playing.
Proof. solve_decision. Defined.
#[export] Instance Scoring_eq_dec : EqDecision Scoring.
Proof. solve_decision. Defined.
#[export] Instance Finished_eq_dec : EqDecision Finished.
Proof. solve_decision. Defined.
#[export] Instance GameState_eq_dec : EqDecision GameState.
Proof. solve_decision. Defined.
#[export] Instance OracleSessionGame_eq_dec : EqDecision OracleSessionGame.
Proof. solve_decision. Defined.

Local Notation result A := (outcome OracleSessionGameError A).

(** [From]-style lifting of the oracle's errors *)
Definition rule {A} (m : outcome RuleViolation A) : result A := map_err Rule m.

Definition card_from_code (code : nat) : result Card := ok_or (standard_deck !! code) InvalidCardCode.

(** [u8::try_from(index).ok()] *)
Definition u8_index (index : nat) : option nat := if index <? 256 then Some index else None.

Definition card_code (c : Card) : result nat :=
  ok_or (index ← position (λ candidate, bool_decide (candidate = c)) standard_deck; u8_index index)
    InvalidProjection.

Definition seat_code (seat : nat) : result nat := ok_or (u8_index seat) InvalidProjection.

(** [Option::transpose] *)
Definition transpose {A B} (f : A → result B) (m : option A) : result (option B) :=
  match m with Some a => b ← f a; Ok (Some b) | None => Ok None end.

Definition public_phase_of (p : PhaseTag) : PublicGamePhase :=
  match p with
  | TagAwaitingDeal => PublicAwaitingDeal | TagBidding => PublicBidding | TagPlaying => PublicPlaying
  | TagScoring => PublicScoring | TagFinished => PublicFinished
  end.

Definition public_turn_of (t : Turn) : result PublicTurnWire :=
  match t with
  | TurnChance => Ok WireChance
  | TurnPlayer seat => s ← seat_code seat; Ok (WirePlayer s)
  | TurnEnvironment => Ok WireEnvironment
  | TurnFinished => Ok WireFinished
  end.

Definition played_wire (p : PlayedCard) : result PlayedCardWire :=
  s ← seat_code (player p); c ← card_code (card p); Ok {| played_seat := s; played_card := c |}.

Section OracleSession.
Context (PLAYERS : nat).

Definition wire_action (a : Action) : option GameActionWire :=
  match a with
  | ABid _ tricks => Some (WireBid tricks)
  | APlay _ card =>
      index ← position (λ candidate, bool_decide (candidate = card)) standard_deck;
      index ← u8_index index; Some (WirePlay index)
  | ADeal _ | ASettleRound => None
  end.

Definition wire_legal_actions (self : OracleSessionGame) : outcome RuleViolation (list GameActionWire) :=
  actions ← legal_player_actions (game self); Ok (omap (M := list) wire_action actions).

Definition seeded_chance (seed deal_ordinal : Z) : result ChanceWire :=
  chance ← rule (seeded seed deal_ordinal);
  cards ← mapM card_code (deck chance);
  Ok {| chance_cards := cards; chance_seed := Some seed; chance_deal_ordinal := Some deal_ordinal |}.

Definition oracle_start (seats : list (nat * PrincipalId)) : result OracleSessionGame :=
  if negb (length seats =? PLAYERS) || existsb (λ p, negb (p.2.1 =? p.1)) (imap pair seats)
  then Err InvalidSeatComposition
  else
    first_dealer ← rule (Seat_new PLAYERS 0);
    game ← rule (initial PLAYERS first_dealer);
    Ok (OracleSessionGameOf game).

Definition oracle_game_turn (self : OracleSessionGame) : result GameTurn :=
  match oracle_turn (game self) with
  | OwnerChance => Ok GTChance
  | OwnerAgent seat => s ← expect (u8_index seat); Ok (GTPlayer s)
  | OwnerEnvironment => Ok GTEnvironment
  | OwnerFinished => Ok GTFinished
  end.

Definition oracle_public_projection (self : OracleSessionGame) : result GamePublicStateWire :=
  viewer ← rule (Seat_new PLAYERS 0);
  o ← rule (observe PLAYERS (game self) viewer);
  dealer ← transpose seat_code (obs_dealer o);
  actor ← public_turn_of (obs_actor o);
  round_index ← ok_or (checked 16 (Z.of_nat (obs_round_index o))) InvalidProjection;
  trump ← transpose card_code (obs_trump o);
  current_trick ← mapM played_wire (Trick_iter (obs_current_trick o));
  Ok {| schema_version := 1; public_phase := public_phase_of (obs_phase o); public_dealer := dealer;
        public_actor := actor; public_round_index := round_index; public_hand_size := obs_hand_size o;
        public_hand_counts := obs_hand_counts o; public_trump := trump;
        public_current_trick := current_trick; public_bids := obs_bids o;
        public_tricks_won := obs_tricks_won o; public_scores := obs_scores o;
        public_pot_cents := obs_pot_cents o |}.

Definition oracle_private_hand (self : OracleSessionGame) (seat : nat) : result (list nat) :=
  seat ← rule (Seat_new PLAYERS seat);
  o ← rule (observe PLAYERS (game self) seat);
  mapM card_code (iter (obs_private_hand o)).

Definition session_transition (g : GameState) (action : EnvironmentAction OraclePlayerAction OracleChanceAction)
    : result (GameTransition OracleSessionGame) :=
  t ← rule (oracle_transition PLAYERS g action);
  Ok {| gt_game := OracleSessionGameOf (out_state t);
        gt_round_scores := option_map (map (λ event, points (event_score event))) (out_round_scores t);
        gt_terminal := bool_decide (is_Some (game_outcome t)) |}.

Definition oracle_player_transition (self : OracleSessionGame) (seat : nat) (action : GameActionWire)
    : result (GameTransition OracleSessionGame) :=
  seat ← rule (Seat_new PLAYERS seat);
  action ← match action with
           | WireBid tricks => Ok (PlayerBid seat tricks)
           | WirePlay card => c ← card_from_code card; Ok (PlayerPlay seat c)
           end;
  session_transition (game self) (EnvPlayer action).

Definition oracle_chance_transition (self : OracleSessionGame) (chance : ChanceWire)
    : result (GameTransition OracleSessionGame) :=
  _ ← ensure (length (chance_cards chance) =? 52) InvalidCardCode;
  cards ← mapM card_from_code (chance_cards chance);
  _ ← ensure (length cards =? 52) InvalidCardCode;
  deck_order ← rule (DeckOrder_new cards);
  chance_action ← match chance_seed chance, chance_deal_ordinal chance with
    | None, None => Ok (explicit deck_order)
    | Some seed, Some deal_ordinal =>
        seeded ← rule (seeded seed deal_ordinal);
        if bool_decide (deck seeded ≠ deck_order) then Err ChanceProvenanceMismatch else Ok seeded
    | _, _ => Err ChanceProvenanceMismatch
    end;
  session_transition (game self) (EnvChance chance_action).

Definition oracle_settle (self : OracleSessionGame) : result (GameTransition OracleSessionGame) :=
  session_transition (game self) EnvSettle.

Definition OracleSession : SessionGame OracleSessionGame OracleSessionGameError := {|
  start := oracle_start;
  game_turn := oracle_game_turn;
  public_projection := oracle_public_projection;
  private_hand := oracle_private_hand;
  player_transition := oracle_player_transition;
  chance_transition := oracle_chance_transition;
  settle := oracle_settle;
|}.
End OracleSession.
