(* ===== verification/SessionMachine.v ===== *)
(** * The session machine (crates/poche-session/src/machine.rs)

    [authorize], [decide] and [apply]: a command is first authorized against
    structure, baseline capabilities and room policies, then decided into a batch
    of events, and each event is applied to the state.  A viewer is sent a projection of
    the state (projection.rs). *)

From stdpp Require Import base strings numbers option list.
From S2P Require Import Prelude Protocol SessionState.

Definition MIN_PLAYERS : nat := 2.

Definition policy_id (value : string) : PolicyId := value.

Definition structural_deny (reason : DenyReason) : PolicyDecision := Deny reason None [].

Section Machine.
Context {G E : Type} `{EqDecision G} `{SessionGame G E}.
Context (payload_json : CommandPayload → option (list Z)) (blake3 : list Z → list Z).
Implicit Types (state : SessionState G) (command : CommandEnvelope).

Local Notation result A := (outcome (SessionError E) A).

Definition denied {A} (reason : DenyReason) : result A := Err (Denied reason).

Definition semantic_hash command : outcome CodecError SemanticHash :=
  verified_command_semantic_hash payload_json blake3 command.

(** ** Authorization *)

Definition find_record state (id : CommandId) : option (nat * ProcessedCommand G) :=
  list_find (λ record, pc_command_id record = id) (processed_commands state).

Definition seat_required (k : CommandKind) : bool :=
  match k with
  | KReleaseSeat | KReady | KUnready | KAbortCountdown | KPause | KUnpause | KGameAction => true
  | _ => false
  end.

(** The chain of structural conditions, in order. *)
Definition structural_reason state command (k : CommandKind) (pk : PrincipalKind) : option DenyReason :=
  if bool_decide (room_id command ≠ st_room_id state) then Some WrongRoom
  else if negb (session_epoch command =? st_session_epoch state)%Z then Some StaleEpoch
  else if negb (expected_revision command =? st_revision state)%Z then Some StaleRevision
  else if match st_phase state with Closed => true | _ => false end then Some DClosed
  else if bool_decide (pk = PUnknown) &&
          negb (match k with KCreateRoom | KRedeemInvite => true | _ => false end)
  then Some UnknownPrincipal
  else if seat_required k && is_some_and (member state (principal_id command)) (λ m, negb (seated m))
  then Some NotSeated
  else if bool_decide (k ≠ KReconnect) &&
          is_some_and (member state (principal_id command))
            (λ m, bool_decide (m_connection m = Disconnected) && bool_decide (k ≠ KCloseRoom))
  then Some NotConnected
  else if (bool_decide (k = KCountdownExpired) && bool_decide (pk ≠ PAuthorityClock)) ||
          (match k with KApplyChance | KSettle => true | _ => false end && bool_decide (pk ≠ PGameEnvironment))
  then Some EnvironmentOnly
  else None.

Definition structural_decision state command (hash : SemanticHash) (k : CommandKind) (pk : PrincipalKind)
    : option PolicyDecision :=
  match find_record state (command_id command) with
  | Some (_, record) =>
      Some (if bool_decide (pc_command_hash record = hash) then pc_decision record
            else structural_deny Malformed)
  | None => structural_deny <$> structural_reason state command k pk
  end.

Definition connected_and_seated state (p : PrincipalId) : bool :=
  is_some_and (member state p) (λ m, connected m && seated m).

Definition baseline_allows state command : bool :=
  let pk := principal_kind state (principal_id command) in
  match kind (payload command) with
  | KCreateRoom =>
      match st_phase state with Uninitialized => true | _ => false end &&
      bool_decide (st_host state = None) && bool_decide (pk = PUnknown)
  | KRedeemInvite => bool_decide (pk = PUnknown) && negb (length (invites state) =? 0)
  | KTakeSeat | KChat | KLeave =>
      match pk with PHost | PMember | PPlayer | PSpectator => true | _ => false end
  | KReleaseSeat | KReady | KUnready | KAbortCountdown | KPause | KUnpause | KGameAction =>
      connected_and_seated state (principal_id command)
  | KArmCountdown | KRemoveMember | KResetLobby | KCloseRoom => bool_decide (pk = PHost)
  | KCountdownExpired => bool_decide (pk = PAuthorityClock)
  | KApplyChance | KSettle => bool_decide (pk = PGameEnvironment)
  | KReconnect => bool_decide (pk = PDisconnectedMember)
  | KRequestHand => bool_decide (pk = PSpectator)
  | KGrantHand | KDenyHand | KRevokeHand => connected_and_seated state (principal_id command)
  end.

(** Higher priorities first, then smaller policy identifiers. *)
Definition rule_le (left right : PolicyRule) : bool :=
  (rule_priority right <? rule_priority left)%Z ||
  ((rule_priority right =? rule_priority left)%Z &&
   String.leb (rule_policy_id left) (rule_policy_id right)).

Definition applicable state (p : PrincipalId) (pk : PrincipalKind) (k : CommandKind) : list PolicyRule :=
  sort_by rule_le (List.filter (λ rule, applies rule p pk k) (policies state)).

Definition rule_result (rule : PolicyRule) : PolicyResult :=
  let '(allowed, reason) := match rule_effect rule with
                            | EffectAllow => (true, None)
                            | EffectDeny reason => (false, Some reason)
                            end in
  {| result_policy_id := rule_policy_id rule; result_priority := rule_priority rule;
     result_allowed := allowed; result_reason := reason; result_audit_only := rule_audit_only rule |}.

(** One pass of the loop over the applicable rules: the accumulated results,
    [enforce_allow] and [enforce_deny]. *)
Definition evaluate_rule (acc : list PolicyResult * bool * option (PolicyId * DenyReason)) (rule : PolicyRule)
    : list PolicyResult * bool * option (PolicyId * DenyReason) :=
  let '(results, enforce_allow, enforce_deny) := acc in
  let results := results ++ [rule_result rule] in
  if rule_audit_only rule then (results, enforce_allow, enforce_deny)
  else match rule_effect rule with
       | EffectAllow => (results, true, enforce_deny)
       | EffectDeny reason =>
           (results, enforce_allow,
            match enforce_deny with Some d => Some d | None => Some (rule_policy_id rule, reason) end)
       end.

Definition baseline_result (baseline_allowed : bool) : PolicyResult :=
  {| result_policy_id := policy_id (if baseline_allowed then "P-BASELINE-ALLOW" else "P-DEFAULT-DENY");
     result_priority := (- 2 ^ 31)%Z; result_allowed := baseline_allowed;
     result_reason := if baseline_allowed then None else Some MissingCapability;
     result_audit_only := false |}.

(** [max_by] on the priority, then on the smaller policy identifier. *)
Definition result_gt (left right : PolicyResult) : bool :=
  (result_priority right <? result_priority left)%Z ||
  ((result_priority left =? result_priority right)%Z &&
   String.ltb (result_policy_id left) (result_policy_id right)).

Definition winning_allow (results : list PolicyResult) : PolicyId :=
  match List.filter (λ result, negb (result_audit_only result) && result_allowed result) results with
  | [] => policy_id "P-BASELINE-ALLOW"
  | first :: rest => result_policy_id (max_by result_gt first rest)
  end.

Definition policy_decision (baseline_allowed : bool) (rules : list PolicyRule) : PolicyDecision :=
  let '(results, enforce_allow, enforce_deny) :=
    foldl evaluate_rule ([baseline_result baseline_allowed], baseline_allowed, None) rules in
  match enforce_deny with
  | Some (id, reason) => Deny reason (Some id) results
  | None =>
      if enforce_allow then Allow (winning_allow results) results
      else Deny MissingCapability (Some (policy_id "P-DEFAULT-DENY")) results
  end.

Definition authorize state command : PolicyDecision :=
  match semantic_hash command with
  | Ok hash =>
      let k := kind (payload command) in
      let pk := principal_kind state (principal_id command) in
      match structural_decision state command hash k pk with
      | Some decision => decision
      | None => policy_decision (baseline_allows state command) (applicable state (principal_id command) pk k)
      end
  | _ => structural_deny Malformed
  end.

(** ** Deciding *)

Definition require_member state (p : PrincipalId) : result MemberState :=
  ok_or (member state p) (Denied UnknownPrincipal).

Definition cancel_countdown_first state : list (SessionEventKind G) :=
  match st_phase state with Countdown _ token => [CountdownCancelled token] | _ => [] end.

Definition affects_pair (reason : HandCapabilityExpiry) (player recipient : PrincipalId) : bool :=
  match reason with
  | RoundBoundary => true
  | SeatRoleChanged p | MembershipLost p => bool_decide (player = p) || bool_decide (recipient = p)
  end.

Definition expire_capabilities_for state (reason : HandCapabilityExpiry) : list (SessionEventKind G) :=
  if existsb (λ r, affects_pair reason (hr_player r) (hr_recipient r)) (hand_requests state) ||
     existsb (λ g, affects_pair reason (hg_player g) (hg_recipient g)) (hand_grants state)
  then [HandCapabilitiesExpired reason] else [].

Definition decide_create state command : result (list (SessionEventKind G)) :=
  match st_phase state, st_host state with
  | Uninitialized, None => Ok [RoomCreated (principal_id command)]
  | _, _ => denied WrongPhase
  end.

Definition decide_join state command (invite : string) : result (list (SessionEventKind G)) :=
  match st_phase state with
  | Uninitialized | Closed => denied WrongPhase
  | _ =>
      if bool_decide (is_Some (member state (principal_id command))) || (MAX_MEMBERS <=? length (members state))
      then denied DenyPolicy
      else match list_find (λ record, matches blake3 record invite = true) (invites state) with
           | None => denied InviteInvalid
           | Some (index, record) =>
               if revoked record || consumed record then denied Revoked
               else if (expires_after_revision record <? st_revision state)%Z then denied InviteExpired
               else index ← ok_or (checked 16 (Z.of_nat index)) EventOrder;
                    Ok [MemberJoined (principal_id command) index]
           end
  end.

Definition decide_take_seat state command (seat : nat) : result (list (SessionEventKind G)) :=
  match st_phase state with
  | Lobby =>
      if MAX_MEMBERS <=? seat then denied Malformed
      else
        m ← require_member state (principal_id command);
        if negb (connected m) then denied NotConnected
        else if seated m then denied AlreadySeated
        else if bool_decide (is_Some (seat_owner state seat)) then denied SeatOccupied
        else Ok (expire_capabilities_for state (SeatRoleChanged (principal_id command)) ++
                 [SeatTaken (principal_id command) seat])
  | _ => denied WrongPhase
  end.

Definition decide_release_seat state command : result (list (SessionEventKind G)) :=
  match st_phase state with
  | Lobby | Countdown _ _ =>
      m ← require_member state (principal_id command);
      seat ← ok_or (m_seat m) (Denied NotSeated);
      Ok (cancel_countdown_first state ++
          expire_capabilities_for state (SeatRoleChanged (principal_id command)) ++
          [SeatReleased (principal_id command) seat])
  | _ => denied WrongPhase
  end.

Definition decide_ready state command (ready : bool) : result (list (SessionEventKind G)) :=
  let phase_ok := match st_phase state with Lobby => true | Countdown _ _ => negb ready | _ => false end in
  if negb phase_ok then denied WrongPhase
  else
    m ← require_member state (principal_id command);
    if negb (seated m) then denied NotSeated
    else if ready && negb (connected m) then denied NotConnected
    else Ok ((if ready then [] else cancel_countdown_first state) ++ [ReadyChanged (principal_id command) ready]).

Definition decide_arm_countdown state (deadline_tick : Z) (token : CountdownToken)
    : result (list (SessionEventKind G)) :=
  match st_phase state with
  | Lobby =>
      let seated_members := List.filter seated (members state) in
      if (length seated_members <? MIN_PLAYERS) || existsb (λ m, negb (ready_and_connected m)) seated_members
      then denied NotReady
      else Ok [CountdownArmed deadline_tick token]
  | _ => denied WrongPhase
  end.

Definition decide_abort_countdown state : result (list (SessionEventKind G)) :=
  match st_phase state with
  | Countdown _ token => Ok [CountdownCancelled token]
  | _ => denied CountdownInactive
  end.

(** The seats, in seat order, of [canonical_seats]. *)
Definition seat_entries state : list (nat * MemberState) :=
  omap (M := list) (λ m, (λ s, (s, m)) <$> m_seat m) (members state).

Definition canonical_seats state : result (list (nat * PrincipalId)) :=
  let seats := sort_by (λ x y : nat * MemberState, x.1 <=? y.1) (seat_entries state) in
  if (length seats <? MIN_PLAYERS) || existsb (λ x, negb (ready_and_connected x.2)) seats
  then denied NotReady
  else Ok ((λ x, (x.1, m_principal x.2)) <$> seats).

Definition decide_countdown_expired state (token : CountdownToken) : result (list (SessionEventKind G)) :=
  match st_phase state with
  | Countdown _ active =>
      if bool_decide (active ≠ token) then denied CountdownInactive
      else
        seats ← canonical_seats state;
        game ← map_err GameError (start seats);
        Ok [GameStarted game]
  | _ => denied CountdownInactive
  end.

Definition decide_pause state : result (list (SessionEventKind G)) :=
  match st_phase state with
  | Running _ => Ok [EvPaused]
  | Paused _ => denied AlreadyPaused
  | _ => denied WrongPhase
  end.

Definition decide_unpause state : result (list (SessionEventKind G)) :=
  match st_phase state with Paused _ => Ok [EvUnpaused] | _ => denied NotPaused end.

Definition running_game state : result G :=
  match st_phase state with
  | Running game => Ok game
  | Paused _ => denied DPaused
  | _ => denied WrongPhase
  end.

Definition transition_event state (t : GameTransition G) (public_change : option PublicGameChange)
    : list (SessionEventKind G) :=
  (if bool_decide (is_Some (gt_round_scores t)) then expire_capabilities_for state RoundBoundary else []) ++
  [GameAdvanced (gt_game t) (gt_round_scores t) (gt_terminal t) public_change].

Definition decide_game_action state command (action : GameActionWire) : result (list (SessionEventKind G)) :=
  game ← running_game state;
  m ← require_member state (principal_id command);
  seat ← ok_or (m_seat m) (Denied NotSeated);
  turn ← map_err GameError (game_turn game);
  if bool_decide (turn ≠ GTPlayer seat) then denied NotActor
  else
    t ← map_err GameError (player_transition game seat action);
    Ok (transition_event state t (Some (ChangePlayerAction seat action))).

Definition decide_chance state (chance : ChanceWire) : result (list (SessionEventKind G)) :=
  game ← running_game state;
  turn ← map_err GameError (game_turn game);
  if bool_decide (turn ≠ GTChance) then denied EnvironmentOnly
  else
    t ← map_err GameError (chance_transition game chance);
    Ok (transition_event state t None).

Definition decide_settle state : result (list (SessionEventKind G)) :=
  game ← running_game state;
  turn ← map_err GameError (game_turn game);
  if bool_decide (turn ≠ GTEnvironment) then denied EnvironmentOnly
  else
    t ← map_err GameError (settle game);
    Ok (transition_event state t ((λ scores, ChangeRoundScored scores (gt_terminal t)) <$> gt_round_scores t)).

Definition chat_in_window state (m : MemberState) : bool :=
  (saturating_sub (st_revision state) (m_chat_window_start_revision m) <? CHAT_WINDOW_REVISIONS)%Z.

Definition decide_chat state command (text : string) : result (list (SessionEventKind G)) :=
  match st_phase state with
  | Closed | Uninitialized => denied DClosed
  | _ =>
      m ← require_member state (principal_id command);
      if chat_in_window state m && (CHAT_MESSAGES_PER_WINDOW <=? m_chat_messages_in_window m)%Z
      then denied ChatRate
      else Ok [ChatPosted (principal_id command) text]
  end.

Definition decide_request_hand state command (player : PrincipalId) : result (list (SessionEventKind G)) :=
  match st_phase state with
  | Running _ | Paused _ =>
      recipient ← require_member state (principal_id command);
      if m_host recipient || seated recipient then denied GrantScope
      else
        target ← require_member state player;
        if negb (connected target) || negb (seated target) then denied GrantScope
        else if (MAX_HAND_REQUESTS <=? length (hand_requests state)) ||
                existsb (λ r, bool_decide (hr_recipient r = principal_id command)) (hand_requests state) ||
                existsb (λ g, bool_decide (hg_recipient g = principal_id command)) (hand_grants state)
        then denied GrantScope
        else Ok [HandViewRequested (command_id command) player (principal_id command)]
  | _ => denied WrongPhase
  end.

Definition is_request (request_id : CommandId) (player recipient : PrincipalId) (r : HandViewRequest) : bool :=
  bool_decide (hr_request_id r = request_id) && bool_decide (hr_player r = player) &&
  bool_decide (hr_recipient r = recipient).

Definition is_grant (player recipient : PrincipalId) (grant_epoch : Z) (g : HandViewGrant) : bool :=
  bool_decide (hg_player g = player) && bool_decide (hg_recipient g = recipient) &&
  (hg_grant_epoch g =? grant_epoch)%Z.

Definition decide_grant_hand state command (request_id : CommandId) (player recipient : PrincipalId)
    (grant_epoch : Z) : result (list (SessionEventKind G)) :=
  if bool_decide (principal_id command ≠ player) || (MAX_HAND_GRANTS <=? length (hand_grants state)) ||
     negb (grant_epoch =? saturating_add 64 (projection_epoch state) 1)%Z ||
     negb (existsb (is_request request_id player recipient) (hand_requests state))
  then denied GrantScope
  else
    owner ← require_member state player;
    viewer ← require_member state recipient;
    if negb (connected owner) || negb (seated owner) || negb (connected viewer) || seated viewer || m_host viewer
    then denied GrantScope
    else Ok [HandViewGranted request_id player recipient grant_epoch].

Definition decide_revoke_hand state command (player recipient : PrincipalId) (grant_epoch : Z)
    : result (list (SessionEventKind G)) :=
  if bool_decide (principal_id command ≠ player) ||
     negb (existsb (is_grant player recipient grant_epoch) (hand_grants state))
  then denied GrantScope
  else Ok [HandViewRevoked player recipient grant_epoch].

Definition decide_deny_hand state command (request_id : CommandId) (player recipient : PrincipalId)
    : result (list (SessionEventKind G)) :=
  if bool_decide (principal_id command ≠ player) ||
     negb (existsb (is_request request_id player recipient) (hand_requests state))
  then denied GrantScope
  else Ok [HandViewDenied request_id player recipient].

Definition decide_reconnect state command : result (list (SessionEventKind G)) :=
  m ← require_member state (principal_id command);
  if bool_decide (m_connection m ≠ Disconnected) then denied NotConnected
  else Ok [MemberReconnected (principal_id command)].

Definition decide_close state : result (list (SessionEventKind G)) :=
  match st_phase state with Closed => denied DClosed | _ => Ok [RoomClosed] end.

Definition decide_leave state command : result (list (SessionEventKind G)) :=
  m ← require_member state (principal_id command);
  if m_host m then
    if length (members state) =? 1 then decide_close state else denied DenyPolicy
  else if seated m && match st_phase state with Running _ | Paused _ | PostGame _ => true | _ => false end
  then denied WrongPhase
  else Ok ((if seated m then cancel_countdown_first state else []) ++
           expire_capabilities_for state (MembershipLost (principal_id command)) ++
           [MemberLeft (principal_id command)]).

Definition decide_remove state command (target : PrincipalId) : result (list (SessionEventKind G)) :=
  m ← require_member state target;
  if m_host m || bool_decide (target = principal_id command) then denied DenyPolicy
  else Ok ((if seated m then cancel_countdown_first state else []) ++
           expire_capabilities_for state (MembershipLost target) ++ [MemberRemoved target]).

Definition decide_reset state : result (list (SessionEventKind G)) :=
  match st_phase state with PostGame _ => Ok [LobbyReset] | _ => denied WrongPhase end.

Definition decide_payload state command : result (list (SessionEventKind G)) :=
  match payload command with
  | CreateRoom => decide_create state command
  | RedeemInvite invite => decide_join state command invite
  | TakeSeat seat => decide_take_seat state command seat
  | ReleaseSeat => decide_release_seat state command
  | Ready => decide_ready state command true
  | Unready => decide_ready state command false
  | ArmCountdown deadline_tick token => decide_arm_countdown state deadline_tick token
  | AbortCountdown => decide_abort_countdown state
  | CountdownExpired token => decide_countdown_expired state token
  | Pause => decide_pause state
  | Unpause => decide_unpause state
  | GameAction action => decide_game_action state command action
  | ApplyChance chance => decide_chance state chance
  | Settle => decide_settle state
  | Chat text => decide_chat state command text
  | Reconnect => decide_reconnect state command
  | Leave => decide_leave state command
  | RemoveMember target => decide_remove state command target
  | ResetLobby => decide_reset state
  | CloseRoom => decide_close state
  | RequestHand player => decide_request_hand state command player
  | GrantHand request_id player recipient epoch => decide_grant_hand state command request_id player recipient epoch
  | DenyHand request_id player recipient => decide_deny_hand state command request_id player recipient
  | RevokeHand player recipient epoch => decide_revoke_hand state command player recipient epoch
  end.

(** One event of a batch, numbered. *)
Definition stamp (id : CommandId) (hash : SemanticHash) (principal correlation : string) (revision : Z)
    (decision : PolicyDecision) (p : nat * SessionEventKind G) : result (SessionEvent G) :=
  index ← ok_or (checked 16 (Z.of_nat p.1)) EventOrder;
  Ok {| ev_provenance := {| ep_command_id := id; ep_command_hash := hash; ep_principal_id := principal;
                            ep_correlation_id := correlation; ep_base_revision := revision;
                            ep_event_index := index; ep_decision := decision |};
        ev_kind := p.2 |}.

Definition lift_invariant {A} (m : outcome SessionInvariantError A) : result A := map_err Invariant m.

Definition decide state (authorized : AuthorizedCommand) : result (list (SessionEvent G)) :=
  _ ← lift_invariant (validate state);
  let command := ac_command authorized in
  hash ← map_err (λ _, Denied Malformed) (semantic_hash command);
  match find_record state (command_id command) with
  | Some (_, record) =>
      if bool_decide (pc_command_hash record = hash) then Ok (pc_events record) else Err ConflictingCommandId
  | None =>
      if negb (expected_revision command =? st_revision state)%Z then denied StaleRevision
      else
        kinds ← decide_payload state command;
        mapM (stamp (command_id command) hash (principal_id command) (correlation_id command)
                (st_revision state) (ac_decision authorized)) (imap pair kinds)
  end.

Definition transport_decision : PolicyDecision :=
  let id := policy_id "P-TRANSPORT-DISCONNECT" in
  Allow id [{| result_policy_id := id; result_priority := 0; result_allowed := true;
               result_reason := None; result_audit_only := false |}].

Definition decide_transport_disconnect state (target : PrincipalId) (observation_id : CommandId)
    (observation_hash : SemanticHash) (correlation : CorrelationId) : result (list (SessionEvent G)) :=
  _ ← lift_invariant (validate state);
  m ← require_member state target;
  if negb (connected m) then denied NotConnected
  else
    let kinds := (if seated m then cancel_countdown_first state else []) ++ [MemberDisconnected target] in
    mapM (stamp observation_id observation_hash target correlation (st_revision state) transport_decision)
      (imap pair kinds).
(** ** Applying *)

(** [member_mut] and an update of the member it finds. *)
Definition update_member state (p : PrincipalId) (f : MemberState → result MemberState) : result (SessionState G) :=
  '(i, m) ← ok_or (find_member p (members state)) (Denied UnknownPrincipal);
  m ← f m;
  Ok (with_members state (<[i := m]> (members state))).

Definition new_member (p : PrincipalId) (epoch : Z) (host : bool) (revision : Z) : MemberState :=
  {| m_principal := p; m_membership_epoch := epoch; m_connection := Connected; m_seat := None; m_ready := false;
     m_host := host; m_chat_window_start_revision := revision; m_chat_messages_in_window := 0 |}.

Definition set_seat (m : MemberState) (seat : option nat) : MemberState :=
  {| m_principal := m_principal m; m_membership_epoch := m_membership_epoch m; m_connection := m_connection m;
     m_seat := seat; m_ready := false; m_host := m_host m;
     m_chat_window_start_revision := m_chat_window_start_revision m;
     m_chat_messages_in_window := m_chat_messages_in_window m |}.

Definition set_ready (m : MemberState) (ready : bool) : MemberState :=
  {| m_principal := m_principal m; m_membership_epoch := m_membership_epoch m; m_connection := m_connection m;
     m_seat := m_seat m; m_ready := ready; m_host := m_host m;
     m_chat_window_start_revision := m_chat_window_start_revision m;
     m_chat_messages_in_window := m_chat_messages_in_window m |}.

Definition set_connection (m : MemberState) (c : ConnectionState) : MemberState :=
  {| m_principal := m_principal m; m_membership_epoch := m_membership_epoch m; m_connection := c;
     m_seat := m_seat m; m_ready := m_ready m; m_host := m_host m;
     m_chat_window_start_revision := m_chat_window_start_revision m;
     m_chat_messages_in_window := m_chat_messages_in_window m |}.

Definition set_chat (m : MemberState) (start_revision count : Z) : MemberState :=
  {| m_principal := m_principal m; m_membership_epoch := m_membership_epoch m; m_connection := m_connection m;
     m_seat := m_seat m; m_ready := m_ready m; m_host := m_host m;
     m_chat_window_start_revision := start_revision; m_chat_messages_in_window := count |}.

(** [for member in &mut state.members { member.ready = false }] *)
Definition clear_ready state : SessionState G := with_members state ((λ m, set_ready m false) <$> members state).

Definition consume_invite (record : InviteRecord) : InviteRecord :=
  {| verifier := verifier record; expires_after_revision := expires_after_revision record;
     consumed := negb (reusable record); revoked := revoked record; reusable := reusable record |}.

Definition apply_joined state (p : PrincipalId) (invite_index : Z) : result (SessionState G) :=
  let i := Z.to_nat invite_index in
  invite ← ok_or (invites state !! i) (Invariant InvalidInvite);
  if consumed invite || revoked invite then denied Revoked
  else
    let state := with_invites state (<[i := consume_invite invite]> (invites state)) in
    Ok (with_members state (members state ++ [new_member p (st_session_epoch state) false (st_revision state)])).

Definition apply_chat state (p : PrincipalId) : result (SessionState G) :=
  let revision := st_revision state in
  state ← update_member state p (λ m,
    m ← (if (CHAT_WINDOW_REVISIONS <=? saturating_sub revision (m_chat_window_start_revision m))%Z
         then Ok (set_chat m revision 0)
         else if (CHAT_MESSAGES_PER_WINDOW <=? m_chat_messages_in_window m)%Z then denied ChatRate
         else Ok m);
    n ← ok_or (checked 16 (m_chat_messages_in_window m + 1)) EventOrder;
    Ok (set_chat m (m_chat_window_start_revision m) n));
  n ← ok_or (checked 64 (chat_count state + 1)) EventOrder;
  Ok (with_chat_count state n).

Definition public_event (provenance : EventProvenance) (change : PublicGameChange) : PublicGameEventWire :=
  match change with
  | ChangePlayerAction seat action =>
      PublicPlayerAction (ep_command_id provenance) (ep_event_index provenance) seat action
  | ChangeRoundScored scores terminal =>
      PublicRoundScored (ep_command_id provenance) (ep_event_index provenance) scores terminal
  end.

Definition apply_advanced state (provenance : EventProvenance) (game : G) (terminal : bool)
    (public_change : option PublicGameChange) : result (SessionState G) :=
  match st_phase state with
  | Running _ =>
      let state := with_phase state (if terminal then PostGame game else Running game) in
      Ok (with_history state (public_history state ++ option_list (public_event provenance <$> public_change)))
  | Paused _ => denied DPaused
  | _ => denied WrongPhase
  end.

(** [position(..)] and [remove(index)] of one request or grant. *)
Definition remove_first {A} (P : A → bool) (l : list A) : result (list A) :=
  i ← ok_or (position P l) (Denied GrantScope); Ok (delete i l).

Definition apply_removed state (p : PrincipalId) : result (SessionState G) :=
  '(i, m) ← ok_or (find_member p (members state)) (Denied UnknownPrincipal);
  if m_host m then denied DenyPolicy else Ok (with_members state (delete i (members state))).

Definition apply_expired state (reason : HandCapabilityExpiry) : result (SessionState G) :=
  let rs := List.filter (λ r, negb (affects_pair reason (hr_player r) (hr_recipient r))) (hand_requests state) in
  let gs := List.filter (λ g, negb (affects_pair reason (hg_player g) (hg_recipient g))) (hand_grants state) in
  epoch ← (if negb (length (hand_grants state) =? length gs)
           then ok_or (checked 64 (projection_epoch state + 1)) EventOrder
           else Ok (projection_epoch state));
  Ok (with_capabilities state epoch rs gs).

Definition apply_kind state (k : SessionEventKind G) (provenance : EventProvenance) : result (SessionState G) :=
  match k with
  | RoomCreated host =>
      match st_phase state with
      | Uninitialized =>
          let state := with_host state host in
          let state := with_members state (members state ++
                         [new_member host (st_session_epoch state) true (st_revision state)]) in
          Ok (with_phase state Lobby)
      | _ => denied WrongPhase
      end
  | MemberJoined p invite_index => apply_joined state p invite_index
  | SeatTaken p seat => update_member state p (λ m, Ok (set_seat m (Some seat)))
  | SeatReleased p seat =>
      update_member state p (λ m,
        if bool_decide (m_seat m ≠ Some seat) then denied NotSeated else Ok (set_seat m None))
  | ReadyChanged p ready => update_member state p (λ m, Ok (set_ready m ready))
  | CountdownArmed deadline_tick token => Ok (with_phase state (Countdown deadline_tick token))
  | CountdownCancelled token =>
      match st_phase state with
      | Countdown _ active =>
          if bool_decide (active ≠ token) then denied CountdownInactive else Ok (with_phase state Lobby)
      | _ => denied CountdownInactive
      end
  | GameStarted game =>
      match st_phase state with
      | Countdown _ _ =>
          let state := with_history (clear_ready state) [PublicGameStarted (ep_command_id provenance)] in
          Ok (with_phase state (Running game))
      | _ => denied CountdownInactive
      end
  | GameAdvanced game _ terminal public_change => apply_advanced state provenance game terminal public_change
  | EvPaused =>
      match st_phase state with Running game => Ok (with_phase state (Paused game)) | _ => denied WrongPhase end
  | EvUnpaused =>
      match st_phase state with Paused game => Ok (with_phase state (Running game)) | _ => denied NotPaused end
  | MemberDisconnected p => update_member state p (λ m, Ok (set_ready (set_connection m Disconnected) false))
  | MemberReconnected p => update_member state p (λ m, Ok (set_connection m Connected))
  | MemberLeft p | MemberRemoved p => apply_removed state p
  | LobbyReset =>
      match st_phase state with
      | PostGame _ => Ok (with_phase (clear_ready state) Lobby)
      | _ => denied WrongPhase
      end
  | ChatPosted p _ => apply_chat state p
  | HandViewRequested request_id player recipient =>
      if MAX_HAND_REQUESTS <=? length (hand_requests state) then Err (Invariant TooManyHandCapabilities)
      else Ok (with_capabilities state (projection_epoch state)
                 (hand_requests state ++
                  [{| hr_request_id := request_id; hr_player := player; hr_recipient := recipient |}])
                 (hand_grants state))
  | HandViewGranted request_id player recipient grant_epoch =>
      if negb (grant_epoch =? saturating_add 64 (projection_epoch state) 1)%Z ||
         (MAX_HAND_GRANTS <=? length (hand_grants state))
      then denied GrantScope
      else
        rs ← remove_first (is_request request_id player recipient) (hand_requests state);
        Ok (with_capabilities state grant_epoch rs
              (hand_grants state ++
               [{| hg_player := player; hg_recipient := recipient; hg_grant_epoch := grant_epoch |}]))
  | HandViewDenied request_id player recipient =>
      rs ← remove_first (is_request request_id player recipient) (hand_requests state);
      Ok (with_capabilities state (projection_epoch state) rs (hand_grants state))
  | HandViewRevoked player recipient grant_epoch =>
      gs ← remove_first (is_grant player recipient grant_epoch) (hand_grants state);
      epoch ← ok_or (checked 64 (projection_epoch state + 1)) EventOrder;
      Ok (with_capabilities state epoch (hand_requests state) gs)
  | HandCapabilitiesExpired reason => apply_expired state reason
  | RoomClosed => Ok (clear_ready (with_phase state Closed))
  end.

Definition append_event (event : SessionEvent G) (record : ProcessedCommand G) : ProcessedCommand G :=
  {| pc_command_id := pc_command_id record; pc_command_hash := pc_command_hash record;
     pc_decision := pc_decision record; pc_events := pc_events record ++ [event] |}.

Definition new_record (event : SessionEvent G) : ProcessedCommand G :=
  {| pc_command_id := ep_command_id (ev_provenance event);
     pc_command_hash := ep_command_hash (ev_provenance event);
     pc_decision := ep_decision (ev_provenance event); pc_events := [event] |}.

(** The event as a new one of the state: the order check, the update, the log
    and the final validation. *)
Definition apply_new state (event : SessionEvent G) (record_index : option nat) : result (SessionState G) :=
  let provenance := ev_provenance event in
  expected ← ok_or (checked 64 (ep_base_revision provenance + ep_event_index provenance)) EventOrder;
  if negb (st_revision state =? expected)%Z then Err EventOrder
  else
    next ← apply_kind state (ev_kind event) provenance;
    revision ← ok_or (checked 64 (st_revision next + 1)) EventOrder;
    let records :=
      match record_index with
      | Some index => alter (append_event event) index (processed_commands next)
      | None => processed_commands next ++ [new_record event]
      end in
    let next := with_log next revision records in
    _ ← lift_invariant (validate next);
    Ok next.

Definition apply state (event : SessionEvent G) : result (SessionState G) :=
  _ ← lift_invariant (validate state);
  let provenance := ev_provenance event in
  match find_record state (ep_command_id provenance) with
  | Some (index, record) =>
      if bool_decide (pc_command_hash record ≠ ep_command_hash provenance) then Err ConflictingCommandId
      else match pc_events record !! Z.to_nat (ep_event_index provenance) with
           | Some existing => if bool_decide (existing = event) then Ok state else Err ConflictingCommandId
           | None =>
               if negb (Z.of_nat (length (pc_events record)) =? ep_event_index provenance)%Z ||
                  bool_decide (pc_decision record ≠ ep_decision provenance)
               then Err EventOrder
               else apply_new state event (Some index)
           end
  | None =>
      if negb (ep_event_index provenance =? 0)%Z then Err EventOrder else apply_new state event None
  end.

(** ** Serving a room

    What one authenticated command, or one observed disconnection, does to the
    room: the events of an authorized and decided command are all applied, or
    none is.  [InProcess] models the authority that does it and shows that its
    room evolves by these functions. *)

Inductive AuthorityDisposition : Type :=
  | Applied | DispositionDenied (reason : DenyReason) | DispositionDisconnected.

Definition commit_batch state (events : list (SessionEvent G)) : result (SessionState G) :=
  foldM apply events state.

Definition serve_command state command : result (SessionState G * AuthorityDisposition) :=
  match from_decision command (authorize state command) with
  | Err (Deny reason _ _) => Ok (state, DispositionDenied reason)
  | Err (Allow _ _) | Panic => Panic
  | Ok authorized =>
      match decide state authorized with
      | Ok events => state ← commit_batch state events; Ok (state, Applied)
      | Err (Denied reason) => Ok (state, DispositionDenied reason)
      | Err error => Err error
      | Panic => Panic
      end
  end.

Definition serve_disconnect state (p : PrincipalId) (observation_id : CommandId) : result (SessionState G) :=
  let observation_hash := SemanticHashOf (blake3 (text_bytes observation_id)) in
  events ← decide_transport_disconnect state p observation_id observation_hash ("cor-" +:+ observation_id)%string;
  commit_batch state events.
End Machine.

(** ** Viewer projections (crates/poche-session/src/projection.rs)
    The only network-safe view of a room: public state, the viewer's own hand and
    the hands granted to it; and the separate local diagnostic of the host. *)

Inductive ProjectionError (E : Type) : Type :=
  | UnknownViewer | ViewerNotConnected | StaleProjectionEpoch | ProjectionGame (e : E).
Arguments UnknownViewer {_}.
Arguments ViewerNotConnected {_}.
Arguments StaleProjectionEpoch {_}.
Arguments ProjectionGame {_} _.

Record LocalHostDiagnosticCapability : Type := {
  cap_room_id : RoomId; cap_session_epoch : Z; cap_host : PrincipalId;
}.

Definition active_game {G} (phase : SessionPhase G) : option G :=
  match phase with
  | Running game | Paused game | PostGame game => Some game
  | Uninitialized | Lobby | Countdown _ _ | Closed => None
  end.

Definition room_phase {G} (phase : SessionPhase G) : RoomPhase :=
  match phase with
  | Uninitialized | Lobby => RoomLobby
  | Countdown _ _ => RoomCountdown
  | Running _ => RoomRunning
  | Paused _ => RoomPaused
  | PostGame _ => RoomPostGame
  | Closed => RoomClosedPhase
  end.

Definition member_projection (m : MemberState) : MemberProjection :=
  {| mp_principal_id := m_principal m; mp_connected := connected m; mp_seat := m_seat m;
     mp_ready := m_ready m; mp_host := m_host m |}.

Section Projection.
Context {G E : Type} `{SessionGame G E}.
Implicit Types state : SessionState G.

Local Notation result A := (outcome (ProjectionError E) A).

Definition local_host_diagnostic_capability state (host : PrincipalId) : option LocalHostDiagnosticCapability :=
  m ← member state host;
  if m_host m && connected m
  then Some {| cap_room_id := st_room_id state; cap_session_epoch := st_session_epoch state; cap_host := host |}
  else None.

(** One hand of a game, in the shape of the wire. *)
Definition project_hand (game : G) (player : PrincipalId) (epoch : Z) (seat : nat) : result HandProjection :=
  cards ← map_err ProjectionGame (private_hand game seat);
  Ok {| hand_player := player; hand_grant_epoch := epoch; hand_cards := cards |}.

Definition own_hand (game : option G) (recipient : PrincipalId) (m : MemberState) : result (option HandProjection) :=
  match game, m_seat m with
  | Some game, Some seat =>
      hand ← project_hand game recipient (m_membership_epoch m) seat; Ok (Some hand)
  | _, _ => Ok None
  end.

Definition granted_hand state (game : G) (grant : HandViewGrant) : result HandProjection :=
  seat ← ok_or (owner ← member state (hg_player grant); m_seat owner) UnknownViewer;
  project_hand game (hg_player grant) (hg_grant_epoch grant) seat.

Definition project_viewer state (recipient : PrincipalId) (expected_projection_epoch : Z) : result ProjectionPayload :=
  m ← ok_or (member state recipient) UnknownViewer;
  if negb (connected m) then Err ViewerNotConnected
  else if negb (expected_projection_epoch =? projection_epoch state)%Z then Err StaleProjectionEpoch
  else
    let game := active_game (st_phase state) in
    public_game_state ← match game with
                        | Some game => p ← map_err ProjectionGame (public_projection game); Ok (Some p)
                        | None => Ok None
                        end;
    own ← own_hand game recipient m;
    granted ← match game with
              | Some game =>
                  mapM (granted_hand state game)
                    (List.filter (λ grant, bool_decide (hg_recipient grant = recipient)) (hand_grants state))
              | None => Ok []
              end;
    Ok {| pp_phase := room_phase (st_phase state); pp_members := member_projection <$> members state;
          pp_public_game_state := public_game_state; pp_own_hand := own; pp_granted_hands := granted;
          pp_public_history := public_history state |}.

Definition project_local_host_diagnostics state (capability : LocalHostDiagnosticCapability)
    : result (list HandProjection) :=
  let valid :=
    bool_decide (cap_room_id capability = st_room_id state) &&
    (cap_session_epoch capability =? st_session_epoch state)%Z &&
    bool_decide (st_host state = Some (cap_host capability)) &&
    is_some_and (member state (cap_host capability)) (λ m, m_host m && connected m) in
  if negb valid then Err UnknownViewer
  else match active_game (st_phase state) with
       | None => Ok []
       | Some game =>
           mapM (λ '(m, seat), project_hand game (m_principal m) (m_membership_epoch m) seat)
             (omap (M := list) (λ m, (λ seat, (m, seat)) <$> m_seat m) (members state))
       end.
End Projection.
