(* ===== verification/InProcess.v ===== *)
(** * The in-process authority (crates/poche-runtime, in_process.rs and chat.rs)

    The deterministic multi-client transport with its faults, the logical clock,
    the chat tail, and the authority that serves a room: it takes one ingress at a
    time, journals it, authorizes, decides and commits it through the session
    machine, and sends every connected member its projection.  It can rebuild
    itself from its journal.  A method that fails keeps what it had already
    changed, so methods run in a state monad whose errors keep the state. *)

From Stdlib Require Import Ascii.
From stdpp Require Import base strings numbers option list gmap pretty.
From S2P Require Import Prelude Methods Protocol Frames SessionState SessionMachine.

(** ** Chat tail *)

Definition DEFAULT_CHAT_TAIL_CAPACITY : nat := 64.

Record ChatEntry : Type := { ce_revision : Z; ce_principal_id : PrincipalId; ce_text : string }.

Record ChatTail : Type := { capacity : nat; chat_entries : list ChatEntry }.

Definition ChatTail_new (capacity : nat) : ChatTail := {| capacity := capacity; chat_entries := [] |}.

(** [while entries.len() >= capacity { entries.pop_front() }] *)
Fixpoint evict (capacity : nat) (entries : list ChatEntry) : list ChatEntry :=
  match entries with
  | [] => []
  | _ :: rest => if capacity <=? length entries then evict capacity rest else entries
  end.

Definition chat_push (self : ChatTail) (entry : ChatEntry) : ChatTail :=
  if capacity self =? 0 then self
  else {| capacity := capacity self; chat_entries := evict (capacity self) (chat_entries self) ++ [entry] |}.

(** ** Logical clock *)

Record ScheduledExpiry : Type := {
  expiry_room_id : RoomId; expiry_deadline_tick : Z; expiry_token : CountdownToken;
}.

Record ManualClock : Type := { now : Z; scheduled : list ScheduledExpiry }.

(** Tuples [(deadline_tick, token)] in lexicographic order *)
Definition expiry_le (left right : ScheduledExpiry) : bool :=
  (expiry_deadline_tick left <? expiry_deadline_tick right)%Z ||
  ((expiry_deadline_tick left =? expiry_deadline_tick right)%Z &&
   String.leb (expiry_token left) (expiry_token right)).

(** [partition_point] of a partitioned slice *)
Fixpoint partition_point {A} (P : A → bool) (l : list A) : nat :=
  match l with
  | [] => 0
  | x :: l => if P x then S (partition_point P l) else 0
  end.

Definition clock_advance_to (self : ManualClock) (tick : Z) : ManualClock * list ScheduledExpiry :=
  let now := Z.max (now self) tick in
  let scheduled := sort_by expiry_le (scheduled self) in
  let first_future := partition_point (λ expiry, expiry_deadline_tick expiry <=? now)%Z scheduled in
  ({| now := now; scheduled := drop first_future scheduled |}, take first_future scheduled).

Definition clock_cancel_countdown (self : ManualClock) (room : RoomId) (token : CountdownToken) : ManualClock :=
  {| now := now self;
     scheduled := List.filter (λ expiry, bool_decide (expiry_room_id expiry ≠ room) ||
                                         bool_decide (expiry_token expiry ≠ token)) (scheduled self) |}.

Definition clock_arm_countdown (self : ManualClock) (room : RoomId) (deadline_tick : Z) (token : CountdownToken)
    : ManualClock :=
  {| now := now self;
     scheduled := scheduled (clock_cancel_countdown self room token) ++
                  [{| expiry_room_id := room; expiry_deadline_tick := deadline_tick; expiry_token := token |}] |}.

(** ** Transport *)

Inductive LoopbackCodec : Type := Typed | CanonicalNdjson.

Inductive InProcessFault : Type := DuplicateNext | ReorderNextPair | DisconnectNext.

Notation ConnectionId := Z (only parsing).

Record ScriptedClient : Type := { client_connection_id : ConnectionId; client_principal_id : PrincipalId }.

Record Connection : Type := {
  conn_principal_id : PrincipalId; conn_connected : bool; outbox : list ProtocolFrame;
}.

Inductive AuthenticatedIngress : Type :=
  | IngressCommand (connection_id : ConnectionId) (principal : PrincipalId) (command : CommandEnvelope)
  | IngressDisconnected (connection_id : ConnectionId) (principal : PrincipalId) (observation_id : CommandId).

Inductive AuthorityJournalInput : Type :=
  | JournalCommand (principal : PrincipalId) (command : CommandEnvelope)
  | JournalDisconnected (principal : PrincipalId) (observation_id : CommandId)
  | JournalClockAdvance (tick : Z) (next_delivery_before : Z).

Inductive InProcessTransportError : Type :=
  | UnknownConnection | ConnectionClosed | PrincipalBindingMismatch | NoConnectedRecipient
  | TransportInvalidIdentifier | TransportCodec (e : CodecError) | DisconnectedByFault.

Record InProcessTransport : Type := {
  codec : LoopbackCodec; next_connection : Z; next_observation : Z;
  connections : gmap Z Connection; ingress : list AuthenticatedIngress;
  faults : list InProcessFault; held_for_reorder : option AuthenticatedIngress;
}.

Definition transport_new (codec : LoopbackCodec) : InProcessTransport :=
  {| codec := codec; next_connection := 0; next_observation := 0; connections := ∅; ingress := [];
     faults := []; held_for_reorder := None |}.

Definition with_connections (self : InProcessTransport) (cs : gmap Z Connection) : InProcessTransport :=
  {| codec := codec self; next_connection := next_connection self; next_observation := next_observation self;
     connections := cs; ingress := ingress self; faults := faults self; held_for_reorder := held_for_reorder self |}.

Definition with_counters (self : InProcessTransport) (connection observation : Z) : InProcessTransport :=
  {| codec := codec self; next_connection := connection; next_observation := observation;
     connections := connections self; ingress := ingress self; faults := faults self;
     held_for_reorder := held_for_reorder self |}.

Definition with_ingress (self : InProcessTransport) (queue : list AuthenticatedIngress) : InProcessTransport :=
  {| codec := codec self; next_connection := next_connection self; next_observation := next_observation self;
     connections := connections self; ingress := queue; faults := faults self;
     held_for_reorder := held_for_reorder self |}.

Definition with_faults (self : InProcessTransport) (fs : list InProcessFault) : InProcessTransport :=
  {| codec := codec self; next_connection := next_connection self; next_observation := next_observation self;
     connections := connections self; ingress := ingress self; faults := fs;
     held_for_reorder := held_for_reorder self |}.

Definition with_held (self : InProcessTransport) (held : option AuthenticatedIngress) : InProcessTransport :=
  {| codec := codec self; next_connection := next_connection self; next_observation := next_observation self;
     connections := connections self; ingress := ingress self; faults := faults self; held_for_reorder := held |}.

Definition close_connection (c : Connection) : Connection :=
  {| conn_principal_id := conn_principal_id c; conn_connected := false; outbox := outbox c |}.

Definition push_frame (frame : ProtocolFrame) (c : Connection) : Connection :=
  {| conn_principal_id := conn_principal_id c; conn_connected := conn_connected c; outbox := outbox c ++ [frame] |}.

(** A connected route of [principal] *)
Definition live_route (principal : PrincipalId) (c : Connection) : bool :=
  conn_connected c && bool_decide (conn_principal_id c = principal).

Definition any_connection (P : Connection → bool) (cs : gmap Z Connection) : bool :=
  existsb (λ p, P p.2) (map_to_list cs).

(** [format!("{prefix}{number}")] of a [u64] *)
Definition numbered (prefix : string) (number : Z) : string := prefix +:+ pretty number.

Definition frame_principal (frame : ProtocolFrame) : PrincipalId :=
  match frame with
  | FrameCommand envelope => principal_id envelope
  | FrameEvent envelope => ee_principal_id envelope
  | FrameSnapshot envelope => ss_principal_id envelope
  | FrameProjection envelope => pe_principal_id envelope
  | FrameError envelope => er_principal_id envelope
  end.

Section Transport.
Context `{Serde}.

Local Notation T A := (M InProcessTransport InProcessTransportError A).

Definition connect (principal : PrincipalId) : T ScriptedClient :=
  id ← read next_connection;
  _ ← update (λ self, with_counters self (saturating_add 64 (next_connection self) 1) (next_observation self));
  _ ← update (λ self, with_connections self
        (<[id := {| conn_principal_id := principal; conn_connected := true; outbox := [] |}]> (connections self)));
  mret {| client_connection_id := id; client_principal_id := principal |}.

Definition inject_fault (fault : InProcessFault) : T unit :=
  update (λ self, with_faults self (faults self ++ [fault])).

Definition restore_route (principal : PrincipalId) (connected : bool) : T ScriptedClient :=
  client ← connect principal;
  route ← read (λ self : InProcessTransport, connections self !! client_connection_id client);
  route ← lift (expect route);
  _ ← update (λ self, with_connections self
        (<[client_connection_id client := {| conn_principal_id := conn_principal_id route;
             conn_connected := connected; outbox := outbox route |}]> (connections self)));
  mret client.

Definition push_ingress (input : AuthenticatedIngress) : T unit :=
  update (λ self, with_ingress self (ingress self ++ [input])).

Definition disconnect (id : ConnectionId) : T unit :=
  found ← read (λ self : InProcessTransport, connections self !! id);
  connection ← lift (ok_or found UnknownConnection);
  if negb (conn_connected connection) then throw ConnectionClosed
  else
    _ ← update (λ self, with_connections self (<[id := close_connection connection]> (connections self)));
    let principal := conn_principal_id connection in
    remaining ← read (λ self : InProcessTransport, any_connection (live_route principal) (connections self));
    if (remaining : bool) then mret tt
    else
      observation ← read next_observation;
      observation_id ← lift (map_err (λ _, TransportInvalidIdentifier)
                               (identifier_new (numbered "disconnect-" observation)));
      _ ← update (λ self, with_counters self (next_connection self) (saturating_add 64 (next_observation self) 1));
      push_ingress (IngressDisconnected id principal observation_id).

Definition round_trip_command (command : CommandEnvelope) : T CommandEnvelope :=
  mode ← read codec;
  match mode with
  | Typed => mret command
  | CanonicalNdjson =>
      line ← lift (map_err TransportCodec (encode_command_line command));
      lift (map_err TransportCodec (decode_command_line line))
  end.

Definition round_trip_frame (frame : ProtocolFrame) : T ProtocolFrame :=
  mode ← read codec;
  match mode with
  | Typed => mret frame
  | CanonicalNdjson =>
      line ← lift (map_err TransportCodec (encode_frame_line frame));
      lift (map_err TransportCodec (decode_frame_line line))
  end.

Definition submit (id : ConnectionId) (command : CommandEnvelope) : T unit :=
  found ← read (λ self : InProcessTransport, connections self !! id);
  connection ← lift (ok_or found UnknownConnection);
  if negb (conn_connected connection) then throw ConnectionClosed
  else if bool_decide (conn_principal_id connection ≠ principal_id command) then throw PrincipalBindingMismatch
  else
    command ← round_trip_command command;
    let input := IngressCommand id (conn_principal_id connection) command in
    held ← read held_for_reorder;
    _ ← update (λ self, with_held self None);
    match held with
    | Some held => _ ← push_ingress input; push_ingress held
    | None =>
        pending_faults ← read faults;
        _ ← update (λ self, with_faults self (tail (faults self)));
        match head pending_faults with
        | Some DuplicateNext => _ ← push_ingress input; push_ingress input
        | Some ReorderNextPair => update (λ self, with_held self (Some input))
        | Some DisconnectNext => _ ← disconnect id; throw DisconnectedByFault
        | None => push_ingress input
        end
    end.

Definition client_receive (id : ConnectionId) : T (option ProtocolFrame) :=
  found ← read (λ self : InProcessTransport, connections self !! id);
  connection ← lift (ok_or found UnknownConnection);
  _ ← update (λ self, with_connections self
        (<[id := {| conn_principal_id := conn_principal_id connection; conn_connected := conn_connected connection;
                    outbox := tail (outbox connection) |}]> (connections self)));
  mret (head (outbox connection)).

(** Every connected route of the frame's principal gets the frame. *)
Definition send (frame : ProtocolFrame) : T unit :=
  let principal := frame_principal frame in
  found ← read (λ self : InProcessTransport, any_connection (live_route principal) (connections self));
  if negb found then throw NoConnectedRecipient
  else
    frame ← round_trip_frame frame;
    update (λ self, with_connections self
      ((λ c, if live_route principal c then push_frame frame c else c) <$> connections self)).

Definition receive : T (option AuthenticatedIngress) :=
  queue ← read ingress;
  _ ← update (λ self, with_ingress self (tail (ingress self)));
  mret (head queue).
End Transport.

(** ** Authority *)

Inductive InProcessAuthorityError (E : Type) : Type :=
  | AuthorityTransport (e : InProcessTransportError)
  | AuthoritySession (e : SessionError E)
  | AuthorityProjection (e : ProjectionError E)
  | AuthorityInvalidIdentifier.
Arguments AuthorityTransport {_} _.
Arguments AuthoritySession {_} _.
Arguments AuthorityProjection {_} _.
Arguments AuthorityInvalidIdentifier {_}.

Record AuthorityOutcome : Type := {
  outcome_principal_id : PrincipalId; outcome_command_id : CommandId;
  disposition : AuthorityDisposition; outcome_events : nat; outcome_revision : Z;
}.

Record CommittedAuthorityEvent (G : Type) : Type := { committed_revision : Z; committed_event : SessionEvent G }.
Arguments committed_revision {_} _.
Arguments committed_event {_} _.

Record AuthorityRecoveryJournal : Type := {
  arj_schema_version : Z; arj_room_id : RoomId; arj_revision : Z; arj_inputs : list AuthorityJournalInput;
  arj_next_delivery : Z; arj_next_connection : Z; arj_next_observation : Z;
}.

Record InProcessAuthority (G : Type) : Type := {
  journal : list AuthorityJournalInput; room : SessionState G; clock : ManualClock;
  transport : InProcessTransport; chat_tail : ChatTail; next_delivery : Z;
  committed_events : list (CommittedAuthorityEvent G);
}.
Arguments journal {_} _.
Arguments room {_} _.
Arguments clock {_} _.
Arguments transport {_} _.
Arguments chat_tail {_} _.
Arguments next_delivery {_} _.
Arguments committed_events {_} _.

(** The parts of an authority that outlive its routes. *)
Record AuthorityCheckpoint (G : Type) : Type := {
  cp_journal : list AuthorityJournalInput; cp_state : SessionState G; cp_clock : ManualClock;
  cp_chat_tail : ChatTail; cp_next_delivery : Z; cp_committed_events : list (CommittedAuthorityEvent G);
  cp_next_connection : Z; cp_next_observation : Z;
}.
Arguments cp_journal {_} _.
Arguments cp_state {_} _.
Arguments cp_clock {_} _.
Arguments cp_chat_tail {_} _.
Arguments cp_next_delivery {_} _.
Arguments cp_committed_events {_} _.
Arguments cp_next_connection {_} _.
Arguments cp_next_observation {_} _.

Section Fields.
Context {G : Type}.
Implicit Types self : InProcessAuthority G.

Definition with_transport self (t : InProcessTransport) : InProcessAuthority G :=
  {| journal := journal self; room := room self; clock := clock self; transport := t; chat_tail := chat_tail self;
     next_delivery := next_delivery self; committed_events := committed_events self |}.

Definition with_next_delivery self (n : Z) : InProcessAuthority G :=
  {| journal := journal self; room := room self; clock := clock self; transport := transport self;
     chat_tail := chat_tail self; next_delivery := n; committed_events := committed_events self |}.

Definition with_journal self (inputs : list AuthorityJournalInput) : InProcessAuthority G :=
  {| journal := inputs; room := room self; clock := clock self; transport := transport self;
     chat_tail := chat_tail self; next_delivery := next_delivery self; committed_events := committed_events self |}.

Definition with_clock self (c : ManualClock) : InProcessAuthority G :=
  {| journal := journal self; room := room self; clock := c; transport := transport self;
     chat_tail := chat_tail self; next_delivery := next_delivery self; committed_events := committed_events self |}.

Definition with_room self (state : SessionState G) : InProcessAuthority G :=
  {| journal := journal self; room := state; clock := clock self; transport := transport self;
     chat_tail := chat_tail self; next_delivery := next_delivery self; committed_events := committed_events self |}.

Definition with_committed self (tail : ChatTail) (events : list (CommittedAuthorityEvent G)) : InProcessAuthority G :=
  {| journal := journal self; room := room self; clock := clock self; transport := transport self;
     chat_tail := tail; next_delivery := next_delivery self; committed_events := events |}.

Definition with_chat_capacity (state : SessionState G) (transport : InProcessTransport) (chat_capacity : nat)
    : InProcessAuthority G :=
  {| journal := []; room := state; clock := {| now := 0; scheduled := [] |}; transport := transport;
     chat_tail := ChatTail_new chat_capacity; next_delivery := 0; committed_events := [] |}.

Definition authority_new (state : SessionState G) (transport : InProcessTransport) : InProcessAuthority G :=
  with_chat_capacity state transport DEFAULT_CHAT_TAIL_CAPACITY.

Definition durable_journal self : AuthorityRecoveryJournal :=
  {| arj_schema_version := 1; arj_room_id := st_room_id (room self); arj_revision := st_revision (room self);
     arj_inputs := journal self; arj_next_delivery := next_delivery self;
     arj_next_connection := next_connection (transport self);
     arj_next_observation := next_observation (transport self) |}.

Definition checkpoint self : AuthorityCheckpoint G :=
  {| cp_journal := journal self; cp_state := room self; cp_clock := clock self; cp_chat_tail := chat_tail self;
     cp_next_delivery := next_delivery self; cp_committed_events := committed_events self;
     cp_next_connection := next_connection (transport self);
     cp_next_observation := next_observation (transport self) |}.

Definition from_checkpoint (cp : AuthorityCheckpoint G) (t : InProcessTransport) : InProcessAuthority G :=
  {| journal := cp_journal cp; room := cp_state cp; clock := cp_clock cp;
     transport := with_counters t (Z.max (next_connection t) (cp_next_connection cp))
                    (Z.max (next_observation t) (cp_next_observation cp));
     chat_tail := cp_chat_tail cp; next_delivery := cp_next_delivery cp;
     committed_events := cp_committed_events cp |}.

Definition committed_events_after self (revision : Z) : list (CommittedAuthorityEvent G) :=
  List.filter (λ entry, revision <? committed_revision entry)%Z (committed_events self).

(** [iter().rev().find_map(..)]: the revision of the last committed event that satisfies [P] *)
Definition latest_revision (P : SessionEventKind G → bool) (entries : list (CommittedAuthorityEvent G)) : option Z :=
  committed_revision <$> head (List.filter (λ entry, P (ev_kind (committed_event entry))) (rev entries)).

Definition current_countdown_revision self : option Z :=
  match st_phase (room self) with
  | Countdown _ _ =>
      latest_revision (λ k, match k with CountdownArmed _ _ => true | _ => false end) (committed_events self)
  | _ => None
  end.

Definition latest_game_start_revision self : option Z :=
  latest_revision (λ k, match k with GameStarted _ => true | _ => false end) (committed_events self).
End Fields.

Section Authority.
Context {G E : Type} `{EqDecision G} `{SessionGame G E} `{Serde}.
Context (payload_json : CommandPayload → option (list Z)) (blake3 : list Z → list Z).

Local Notation A T := (M (InProcessAuthority G) (InProcessAuthorityError E) T).

Definition on_transport {T} (m : M InProcessTransport InProcessTransportError T) : A T :=
  λ self, let '(t, r) := m (transport self) in (with_transport self t, map_err AuthorityTransport r).

Definition new_identifier (value : string) : A string :=
  lift (map_err (λ _, AuthorityInvalidIdentifier) (identifier_new value)).

Definition next_sequence : A Z :=
  sequence ← read next_delivery;
  _ ← update (λ self, with_next_delivery self (saturating_add 64 (next_delivery self) 1));
  mret sequence.

(** ["0".repeat(128)] *)
Definition zeros : string := String.string_of_list_ascii (replicate 128 "0"%char).

Definition loopback_signature_bytes : outcome InProcessTransportError SignatureBytes :=
  map_err (λ _, TransportInvalidIdentifier) (SignatureBytes_new zeros).

Definition loopback_signature (principal : PrincipalId) : outcome InProcessTransportError SignatureMetadata :=
  bytes ← loopback_signature_bytes;
  Ok {| domain_version := SIGNATURE_DOMAIN_V1; algorithm := Ed25519; key_id := principal; signature_text := bytes |}.

(** The unsigned command of [ScriptedClient::command] and [runtime_command] *)
Definition loopback_command (state : SessionState G) (principal : PrincipalId) (id : CommandId)
    (correlation : CorrelationId) (p : CommandPayload) : UnsignedCommandEnvelope :=
  {| u_protocol_version := PROTOCOL_VERSION_V1; u_room_id := st_room_id state;
     u_session_epoch := st_session_epoch state; u_command_id := id; u_principal_id := principal;
     u_expected_revision := st_revision state; u_correlation_id := correlation; u_causation_id := None;
     u_payload := p;
     signature_intent := {| intent_domain_version := SIGNATURE_DOMAIN_V1; intent_algorithm := Ed25519;
                            intent_key_id := principal |} |}.

Definition client_command (self : ScriptedClient) (state : SessionState G) (id : string) (p : CommandPayload)
    : outcome InProcessTransportError CommandEnvelope :=
  command_id ← map_err (λ _, TransportInvalidIdentifier) (identifier_new id);
  correlation ← map_err (λ _, TransportInvalidIdentifier) (identifier_new ("cor-" +:+ command_id));
  sig ← loopback_signature_bytes;
  Ok (attach_signature (loopback_command state (client_principal_id self) command_id correlation p) sig).

Definition runtime_command (state : SessionState G) (principal : PrincipalId) (id : string) (p : CommandPayload)
    : outcome (InProcessAuthorityError E) CommandEnvelope :=
  command_id ← map_err (λ _, AuthorityInvalidIdentifier) (identifier_new id);
  correlation ← map_err (λ _, AuthorityInvalidIdentifier) (identifier_new ("cor-" +:+ command_id));
  sig ← map_err AuthorityTransport loopback_signature_bytes;
  Ok (attach_signature (loopback_command state principal command_id correlation p) sig).

Definition decision_reason (decision : PolicyDecision) : option DenyReason :=
  match decision with Allow _ _ => None | Deny reason _ _ => Some reason end.

Definition decision_policy (decision : PolicyDecision) : option PolicyId :=
  match decision with Allow _ _ => None | Deny _ id _ => id end.

(** *** Deliveries *)

Definition projection_frame (state : SessionState G) (recipient : PrincipalId) (correlation : CorrelationId)
    (projection_id causation : string) (p : ProjectionPayload) (sig : SignatureMetadata) : ProtocolFrame :=
  FrameProjection {|
    pe_protocol_version := PROTOCOL_VERSION_V1; pe_room_id := st_room_id state;
    pe_session_epoch := st_session_epoch state; pe_projection_id := projection_id; pe_principal_id := recipient;
    pe_current_revision := st_revision state; pe_projection_epoch := projection_epoch state;
    pe_correlation_id := correlation; pe_causation_id := causation; pe_payload := p; pe_signature := sig |}.

(** One recipient of [broadcast_projections] *)
Definition send_projection (correlation : CorrelationId) (recipient : PrincipalId) : A unit :=
  state ← read room;
  p ← lift (map_err AuthorityProjection (project_viewer state recipient (projection_epoch state)));
  sequence ← next_sequence;
  projection_id ← new_identifier (numbered "projection-" sequence);
  causation ← new_identifier (numbered "cause-" sequence);
  sig ← lift (map_err AuthorityTransport (loopback_signature recipient));
  on_transport (send (projection_frame state recipient correlation projection_id causation p sig)).

Definition broadcast_projections (correlation : CorrelationId) : A unit :=
  recipients ← read (λ self : InProcessAuthority G, m_principal <$> List.filter connected (members (room self)));
  for_each (send_projection correlation) recipients.

Definition error_frame (state : SessionState G) (command : CommandEnvelope) (reason : DenyReason)
    (policy : option PolicyId) (event_id : string) (sig : SignatureMetadata) : ProtocolFrame :=
  FrameError {|
    er_protocol_version := PROTOCOL_VERSION_V1; er_room_id := st_room_id state;
    er_session_epoch := st_session_epoch state; er_event_id := event_id; er_principal_id := principal_id command;
    er_current_revision := st_revision state; er_correlation_id := correlation_id command;
    er_causation_id := command_id command;
    er_payload := {| error_reason := reason; error_policy_id := policy; error_public_detail := None |};
    er_signature := sig |}.

Definition send_denial (command : CommandEnvelope) (reason : DenyReason) (policy : option PolicyId) : A unit :=
  sequence ← next_sequence;
  state ← read room;
  event_id ← new_identifier (numbered "error-" sequence);
  sig ← lift (map_err AuthorityTransport (loopback_signature (principal_id command)));
  on_transport (send (error_frame state command reason policy event_id sig)).

(** *** Committing *)

(** The revision an event brings the room to *)
Definition saturating_revision (e : SessionEvent G) : Z :=
  saturating_add 64 (saturating_add 64 (ep_base_revision (ev_provenance e)) (ep_event_index (ev_provenance e))) 1.

(** [base_revision + event_index + 1] *)
Definition chat_revision (e : SessionEvent G) : outcome (InProcessAuthorityError E) Z :=
  r ← expect (checked 64 (ep_base_revision (ev_provenance e) + ep_event_index (ev_provenance e)));
  expect (checked 64 (r + 1)).

Definition record_committed (e : SessionEvent G) : A unit :=
  _ ← update (λ self, with_committed self (chat_tail self)
        (committed_events self ++ [{| committed_revision := saturating_revision e; committed_event := e |}]));
  match ev_kind e with
  | ChatPosted p text =>
      revision ← lift (chat_revision e);
      update (λ self, with_committed self
        (chat_push (chat_tail self) {| ce_revision := revision; ce_principal_id := p; ce_text := text |})
        (committed_events self))
  | _ => mret tt
  end.

Definition drive_clock (e : SessionEvent G) : A unit :=
  update (λ self, match ev_kind e with
    | CountdownArmed deadline_tick token =>
        with_clock self (clock_arm_countdown (clock self) (st_room_id (room self)) deadline_tick token)
    | CountdownCancelled token =>
        with_clock self (clock_cancel_countdown (clock self) (st_room_id (room self)) token)
    | _ => self
    end).

Definition already_applied (state : SessionState G) (events : list (SessionEvent G)) : bool :=
  is_some_and (head events) (λ e,
    existsb (λ record,
      bool_decide (pc_command_id record = ep_command_id (ev_provenance e)) &&
      bool_decide (pc_command_hash record = ep_command_hash (ev_provenance e))) (processed_commands state)).

Definition commit_events (events : list (SessionEvent G)) : A unit :=
  state ← read room;
  let applied := already_applied state events in
  candidate ← lift (map_err AuthoritySession (foldM apply events state));
  _ ← update (λ self, with_room self candidate);
  _ ← (if applied then mret tt else for_each record_committed events);
  for_each drive_clock events.

(** *** Serving *)

Definition answer (principal : PrincipalId) (id : CommandId) (d : AuthorityDisposition) (events : nat)
    : A AuthorityOutcome :=
  state ← read room;
  mret {| outcome_principal_id := principal; outcome_command_id := id; disposition := d; outcome_events := events;
          outcome_revision := st_revision state |}.

Definition process_command (principal : PrincipalId) (command : CommandEnvelope) : A AuthorityOutcome :=
  state ← read room;
  let decision := authorize payload_json blake3 state command in
  if negb (is_allowed decision) then
    reason ← lift (expect (decision_reason decision));
    _ ← send_denial command reason (decision_policy decision);
    answer principal (command_id command) (DispositionDenied reason) 0
  else
    authorized ← lift (expect_ok (from_decision command decision));
    match decide (E := E) payload_json blake3 state authorized with
    | Ok events =>
        _ ← commit_events events;
        _ ← broadcast_projections (correlation_id command);
        answer principal (command_id command) Applied (length events)
    | Err (Denied reason) =>
        _ ← send_denial command reason None;
        answer principal (command_id command) (DispositionDenied reason) 0
    | Err error => throw (AuthoritySession error)
    | Panic => lift Panic
    end.

Definition process_disconnect (principal : PrincipalId) (observation_id : CommandId) : A AuthorityOutcome :=
  correlation ← new_identifier ("cor-" +:+ observation_id);
  let observation_hash := SemanticHashOf (blake3 (text_bytes observation_id)) in
  state ← read room;
  events ← lift (map_err AuthoritySession
             (decide_transport_disconnect state principal observation_id observation_hash correlation));
  _ ← commit_events events;
  _ ← broadcast_projections correlation;
  answer principal observation_id DispositionDisconnected (length events).

Definition append_journal (input : AuthorityJournalInput) : A unit :=
  update (λ self, with_journal self (journal self ++ [input])).

Definition journal_input (input : AuthenticatedIngress) : AuthorityJournalInput :=
  match input with
  | IngressCommand _ principal command => JournalCommand principal command
  | IngressDisconnected _ principal observation_id => JournalDisconnected principal observation_id
  end.

Definition process_ingress (input : AuthenticatedIngress) : A AuthorityOutcome :=
  match input with
  | IngressCommand _ principal command => process_command principal command
  | IngressDisconnected _ principal observation_id => process_disconnect principal observation_id
  end.

Definition drive_one : A (option AuthorityOutcome) :=
  input ← on_transport receive;
  match input with
  | None => mret None
  | Some input =>
      _ ← append_journal (journal_input input);
      outcome ← process_ingress input;
      mret (Some outcome)
  end.

(** The loop of [drive_all]; [None] when [fuel] runs out. *)
Fixpoint drive_all_loop (fuel : nat) (outcomes : list AuthorityOutcome) : A (option (list AuthorityOutcome)) :=
  match fuel with
  | O => mret None
  | S fuel =>
      driven ← drive_one;
      match driven with
      | Some outcome => drive_all_loop fuel (outcomes ++ [outcome])
      | None => mret (Some outcomes)
      end
  end.

(** Driving never queues an ingress, so one turn more than the queue holds is enough. *)
Definition drive_all : A (option (list AuthorityOutcome)) :=
  λ self, drive_all_loop (S (length (ingress (transport self)))) [] self.

(** One due expiry *)
Definition expire_countdown (expiry : ScheduledExpiry) : A AuthorityOutcome :=
  sequence ← next_sequence;
  state ← read room;
  let principal := authority_clock state in
  command ← lift (runtime_command state principal (numbered "clock-" sequence)
                    (CountdownExpired (expiry_token expiry)));
  process_command principal command.

(** The loop over the due expiries *)
Fixpoint expire_all (expiries : list ScheduledExpiry) (outcomes : list AuthorityOutcome) : A (list AuthorityOutcome) :=
  match expiries with
  | [] => mret outcomes
  | expiry :: expiries => outcome ← expire_countdown expiry; expire_all expiries (outcomes ++ [outcome])
  end.

Definition advance_clock_to (tick : Z) : A (list AuthorityOutcome) :=
  advanced ← read (λ self : InProcessAuthority G, clock_advance_to (clock self) tick);
  _ ← update (λ self, with_clock self (fst advanced));
  before ← read next_delivery;
  _ ← append_journal (JournalClockAdvance tick before);
  expire_all (snd advanced) [].

(** *** Recovery *)

(** One journaled input, with the principals already given a route *)
Definition replay_input (principals : gset string) (input : AuthorityJournalInput) : A (gset string) :=
  match input with
  | JournalCommand principal command =>
      _ ← (if bool_decide (principal ∈ principals) then mret tt
           else _ ← on_transport (connect principal); mret tt);
      _ ← process_command principal command;
      _ ← append_journal input;
      mret ({[principal]} ∪ principals)
  | JournalDisconnected principal observation_id =>
      _ ← process_disconnect principal observation_id;
      _ ← append_journal input;
      mret principals
  | JournalClockAdvance tick next_delivery_before =>
      _ ← update (λ self, with_next_delivery self next_delivery_before);
      _ ← advance_clock_to tick;
      mret principals
  end.

Fixpoint replay_inputs (principals : gset string) (inputs : list AuthorityJournalInput) : A (gset string) :=
  match inputs with
  | [] => mret principals
  | input :: inputs => principals ← replay_input principals input; replay_inputs principals inputs
  end.

Definition replay_journal (initial : SessionState G) (inputs : list AuthorityJournalInput)
    : outcome (InProcessAuthorityError E) (InProcessAuthority G) :=
  let '(self, r) := replay_inputs ∅ inputs (authority_new initial (transport_new Typed)) in
  _ ← r; Ok self.

Definition from_durable_journal (initial : SessionState G) (j : AuthorityRecoveryJournal)
    : outcome string (InProcessAuthority G) :=
  if negb (arj_schema_version j =? 1)%Z || bool_decide (arj_room_id j ≠ st_room_id initial)
  then Err "incompatible authority recovery journal"%string
  else
    self ← map_err (λ _, "authority recovery replay failed"%string) (replay_journal initial (arj_inputs j));
    if negb (st_revision (room self) =? arj_revision j)%Z
    then Err "authority recovery revision mismatch"%string
    else
      let t := transport self in
      Ok (with_next_delivery
            (with_transport self (with_counters t (Z.max (next_connection t) (arj_next_connection j))
                                    (Z.max (next_observation t) (arj_next_observation j))))
            (arj_next_delivery j)).
End Authority.
