(* ===== verification/SessionValid.v ===== *)
(** * Structural validity of a room

    [validate] is equivalent to a proposition, [valid], whose parts (roster,
    phase, host, hand capabilities, log) are preserved by the roster updates the
    events make. *)

From stdpp Require Import base strings numbers option sets list.
From S2P Require Import Prelude Protocol SessionState SessionMachine.

(** ** Scans for clashing pairs *)

Lemma later_pair_false {A} (rel : A → A → bool) l :
  later_pair rel l = false ↔ ForallOrdPairs (λ a b, rel a b = false) l.
Proof.
  induction l as [|a l IH]; simpl; [split; [constructor|done]|]. rewrite orb_false_iff, IH. split.
  - intros [Ha Hl]. constructor; [|done]. apply Forall_forall. intros b Hb.
    destruct (rel a b) eqn:E; [|done]. exfalso.
    assert (existsb (rel a) l = true) as Ht; [|congruence].
    apply existsb_exists. exists b. split; [by apply list_elem_of_In|done].
  - inversion 1 as [|? ? Ha Hl]; subst. split; [|done]. destruct (existsb _ _) eqn:E; [|done]. exfalso.
    apply existsb_exists in E as (b & Hb & Hr). rewrite Forall_forall in Ha.
    rewrite Ha in Hr; [done|]. by apply list_elem_of_In.
Qed.

Lemma later_pair_or {A} (p q : A → A → bool) l :
  later_pair (λ a b, p a b || q a b) l = later_pair p l || later_pair q l.
Proof.
  induction l as [|a l IH]; simpl; [done|]. rewrite IH.
  assert (existsb (λ b, p a b || q a b) l = existsb (p a) l || existsb (q a) l)%bool as ->.
  { clear. induction l as [|b l IH]; simpl; [done|]. rewrite IH.
    by destruct (p a b), (q a b), (existsb (p a) l), (existsb (q a) l). }
  by destruct (existsb (p a) l), (existsb (q a) l), (later_pair p l), (later_pair q l).
Qed.

Lemma existsb_false {A} (P : A → bool) l : existsb P l = false ↔ ∀ x, x ∈ l → P x = false.
Proof.
  split.
  - intros H x Hx. destruct (P x) eqn:E; [|done]. assert (existsb P l = true) as Ht; [|congruence].
    apply existsb_exists. exists x. by rewrite <-list_elem_of_In.
  - intros H. destruct (existsb P l) eqn:E; [|done]. apply existsb_exists in E as (x & Hx%list_elem_of_In & Hp).
    by rewrite H in Hp.
Qed.

Lemma existsb_true {A} (P : A → bool) l : existsb P l = true ↔ ∃ x, x ∈ l ∧ P x = true.
Proof. rewrite existsb_exists. by setoid_rewrite list_elem_of_In. Qed.

Lemma forallb_true {A} (P : A → bool) l : forallb P l = true ↔ ∀ x, x ∈ l → P x = true.
Proof. rewrite forallb_forall. by setoid_rewrite list_elem_of_In. Qed.

(** ** Rosters *)

Definition member_ok (epoch : Z) (m : MemberState) : Prop :=
  m_membership_epoch m ≠ 0%Z ∧ (m_membership_epoch m <= epoch)%Z ∧
  (∀ s, m_seat m = Some s → s < MAX_MEMBERS) ∧
  (m_ready m = true → m_connection m = Connected ∧ is_Some (m_seat m)).

Record roster_ok (epoch : Z) (ms : list MemberState) : Prop := {
  ro_count : length ms ≤ MAX_MEMBERS;
  ro_members : Forall (member_ok epoch) ms;
  ro_principals : NoDup (m_principal <$> ms);
  ro_seats : NoDup (omap m_seat ms);
}.

Lemma seat_not_taken m ms : seated m = true →
  existsb (λ other, bool_decide (m_seat other = m_seat m)) ms = false ↔ default 0 (m_seat m) ∉ omap m_seat ms.
Proof.
  unfold seated. intros [s Hs]%bool_decide_eq_true. rewrite Hs. cbn [default]. rewrite existsb_false.
  rewrite list_elem_of_omap. split.
  - intros H (o & Ho & Hos). specialize (H o Ho). by rewrite bool_decide_eq_false in H.
  - intros H o Ho. apply bool_decide_eq_false. intros Hos. apply H. by exists o.
Qed.

Lemma validate_member_list_spec epoch ms :
  validate_member_list epoch ms = Ok tt ↔
  Forall (member_ok epoch) ms ∧ NoDup (m_principal <$> ms) ∧ NoDup (omap m_seat ms).
Proof.
  induction ms as [|m ms IH]; [split; [by repeat constructor|done]|].
  cbn [validate_member_list]. rewrite Forall_cons, fmap_cons, NoDup_cons.
  assert (existsb (λ other, bool_decide (m_principal other = m_principal m) ||
                            (seated m && bool_decide (m_seat other = m_seat m))) ms = false ↔
          m_principal m ∉ (m_principal <$> ms) ∧ (∀ s, m_seat m = Some s → s ∉ omap m_seat ms)) as Hdup.
  { rewrite existsb_false, list_elem_of_fmap. split.
    - intros H. split.
      + intros (o & Ho & Hin). specialize (H o Hin). apply orb_false_iff in H as [H%bool_decide_eq_false _]. congruence.
      + intros s Hs (o & Ho & Hos)%list_elem_of_omap. specialize (H o Ho). apply orb_false_iff in H as [_ H].
        unfold seated in H. rewrite bool_decide_eq_true_2 in H by (by exists s). cbn in H.
        apply bool_decide_eq_false in H. congruence.
    - intros [Hp Hs] o Ho. apply orb_false_iff. split.
      + apply bool_decide_eq_false. intros E. apply Hp. by exists o.
      + unfold seated. destruct (m_seat m) as [s|] eqn:E; [|done]. cbn.
        apply bool_decide_eq_false. intros Hos. apply (Hs s eq_refl). apply list_elem_of_omap. by exists o. }
  assert (NoDup (omap m_seat (m :: ms)) ↔ (∀ s, m_seat m = Some s → s ∉ omap m_seat ms) ∧ NoDup (omap m_seat ms)) as ->.
  { cbn [omap list_omap]. destruct (m_seat m) as [s|]; [rewrite NoDup_cons; naive_solver|naive_solver]. }
  destruct ((m_membership_epoch m =? 0) || (epoch <? m_membership_epoch m))%Z eqn:E1.
  { split; [done|]. intros [[H _] _]. unfold member_ok in H. lia. }
  destruct (is_some_and (m_seat m) _) eqn:E2.
  { split; [done|]. intros [[H _] _]. unfold is_some_and in E2. destruct (m_seat m) as [s|] eqn:Hs; [|done].
    destruct H as (_ & _ & H & _). specialize (H s Hs). apply Nat.leb_le in E2. lia. }
  destruct (m_ready m && _) eqn:E3.
  { split; [done|]. intros [[H _] _]. destruct H as (_ & _ & _ & H). apply andb_true_iff in E3 as [Hr E3].
    destruct (H Hr) as [Hc Hse]. unfold connected, seated in E3. by rewrite !bool_decide_eq_true_2 in E3. }
  destruct (existsb _ ms) eqn:E4.
  { split; [done|]. intros (_ & [Hp _] & Hs & _).
    discriminate (proj2 Hdup (conj Hp Hs)). }
  rewrite IH. pose proof (proj1 Hdup eq_refl) as Hd.
  assert (member_ok epoch m); [|naive_solver].
  split_and!; [lia|lia| |].
  - intros s Hs. rewrite Hs in E2. cbn [is_some_and] in E2. by apply Nat.leb_gt in E2.
  - intros Hr. rewrite Hr in E3. cbn in E3. apply orb_false_iff in E3 as [Hc Hse].
    apply negb_false_iff in Hc, Hse. by apply bool_decide_eq_true in Hc, Hse.
Qed.

(** ** Members by principal *)

Lemma find_member_Some p ms i m :
  find_member p ms = Some (i, m) → ms !! i = Some m ∧ m_principal m = p.
Proof. unfold find_member. intros (? & ? & _)%list_find_Some. done. Qed.

Lemma find_member_None p ms : find_member p ms = None ↔ p ∉ (m_principal <$> ms).
Proof.
  unfold find_member. rewrite list_find_None, Forall_forall, list_elem_of_fmap. naive_solver.
Qed.

Lemma find_member_unique p ms m : NoDup (m_principal <$> ms) → m ∈ ms → m_principal m = p →
  ∃ i, find_member p ms = Some (i, m).
Proof.
  intros Hnd Hm Hp. destruct (find_member p ms) as [[i m']|] eqn:E.
  - exists i. do 2 f_equal. apply find_member_Some in E as [Hi Hp'].
    apply list_elem_of_lookup in Hm as [j Hj].
    assert (i = j) as ->; [|congruence]. eapply (NoDup_lookup (m_principal <$> ms) i j p); [done|..];
      rewrite list_lookup_fmap; [by rewrite Hi; simpl; rewrite Hp'|by rewrite Hj; simpl; rewrite Hp].
  - apply find_member_None in E. exfalso. apply E, list_elem_of_fmap. by exists m.
Qed.

Section Members.
Context {G : Type}.
Implicit Types st : SessionState G.

Lemma member_spec st p m : NoDup (m_principal <$> members st) →
  member st p = Some m ↔ m ∈ members st ∧ m_principal m = p.
Proof.
  intros Hnd. unfold member. split.
  - intros H. apply fmap_Some in H as ([i m'] & Hf & ->). apply find_member_Some in Hf as [Hi Hp].
    split; [|done]. by eapply list_elem_of_lookup_2.
  - intros [Hm Hp]. destruct (find_member_unique p _ m Hnd Hm Hp) as [i ->]. done.
Qed.

Lemma member_None st p : member st p = None ↔ p ∉ (m_principal <$> members st).
Proof. unfold member. rewrite fmap_None. apply find_member_None. Qed.

(** ** Capabilities *)

(** The player is seated, the recipient is not. *)
Definition pair_ok (ms : list MemberState) (player recipient : PrincipalId) : Prop :=
  player ≠ recipient ∧
  (∃ m, m ∈ ms ∧ m_principal m = player ∧ is_Some (m_seat m)) ∧
  (∃ m, m ∈ ms ∧ m_principal m = recipient ∧ m_seat m = None).

Lemma capability_pair_spec st player recipient : NoDup (m_principal <$> members st) →
  capability_pair st player recipient = true ↔ pair_ok (members st) player recipient.
Proof.
  intros Hnd. unfold capability_pair, pair_ok. rewrite !andb_true_iff, negb_true_iff, bool_decide_eq_false.
  assert (∀ p f, is_some_and (member st p) f = true ↔ ∃ m, m ∈ members st ∧ m_principal m = p ∧ f m = true) as Hm.
  { intros p f. split.
    - destruct (member st p) as [m|] eqn:E; [|done]. apply member_spec in E; [|done]. intros Hf.
      destruct E. by exists m.
    - intros (m & Hm & Hp & Hf). by rewrite (proj2 (member_spec st p m Hnd) (conj Hm Hp)). }
  rewrite !Hm. unfold seated. setoid_rewrite negb_true_iff. setoid_rewrite bool_decide_eq_true.
  setoid_rewrite bool_decide_eq_false. setoid_rewrite <-eq_None_not_Some. naive_solver.
Qed.

Record capabilities_ok (ms : list MemberState) (epoch : Z) (rs : list HandViewRequest) (gs : list HandViewGrant)
    : Prop := {
  co_requests : length rs ≤ MAX_HAND_REQUESTS;
  co_grants : length gs ≤ MAX_HAND_GRANTS;
  co_request_pairs : ∀ r, r ∈ rs → pair_ok ms (hr_player r) (hr_recipient r);
  co_request_ids : NoDup (hr_request_id <$> rs);
  co_request_recipients : NoDup (hr_recipient <$> rs);
  co_grant_pairs : ∀ g, g ∈ gs → pair_ok ms (hg_player g) (hg_recipient g);
  co_grant_epochs : ∀ g, g ∈ gs → hg_grant_epoch g ≠ 0%Z ∧ (hg_grant_epoch g <= epoch)%Z;
  co_grant_recipients : NoDup (hg_recipient <$> gs);
}.

(** ** Phase and host *)

Definition countdown_ready (ms : list MemberState) : Prop :=
  MIN_PLAYERS ≤ length (omap m_seat ms) ∧
  ∀ m, m ∈ ms → is_Some (m_seat m) → m_ready m = true ∧ m_connection m = Connected.

Definition phase_ok (phase : SessionPhase G) (epoch : Z) (host : option PrincipalId) (ms : list MemberState) : Prop :=
  match phase with
  | Uninitialized => epoch = 0%Z ∧ host = None ∧ ms = []
  | Countdown _ _ => epoch ≠ 0%Z ∧ countdown_ready ms
  | _ => epoch ≠ 0%Z
  end.

Definition host_ok (host : option PrincipalId) (ms : list MemberState) : Prop :=
  match host with
  | None => True
  | Some h =>
      (∃ m, m ∈ ms ∧ m_principal m = h ∧ m_host m = true) ∧
      ∀ m, m ∈ ms → m_host m = true → m_principal m = h
  end.

Lemma seated_filter_length ms : length (List.filter seated ms) = length (omap m_seat ms).
Proof.
  induction ms as [|m ms IH]; cbn [List.filter omap list_omap]; [done|]. unfold seated at 1.
  destruct (m_seat m) eqn:E; simpl; [by rewrite IH|done].
Qed.

Lemma countdown_ready_spec ms :
  (length (List.filter seated ms) <? MIN_PLAYERS) ||
  existsb (λ m, negb (ready_and_connected m)) (List.filter seated ms) = false ↔ countdown_ready ms.
Proof.
  rewrite orb_false_iff, Nat.ltb_ge, seated_filter_length, existsb_false. unfold countdown_ready. f_equiv.
  split.
  - intros H m Hm Hs. assert (m ∈ List.filter seated ms) as Hin.
    { apply list_elem_of_In, filter_In. split; [by apply list_elem_of_In|]. by apply bool_decide_eq_true. }
    specialize (H m Hin). apply negb_false_iff in H. unfold ready_and_connected, connected in H.
    apply andb_true_iff in H as [? ?%bool_decide_eq_true]. done.
  - intros H m Hm%list_elem_of_In. apply filter_In in Hm as [Hm%list_elem_of_In Hs%bool_decide_eq_true].
    destruct (H m Hm Hs) as [Hr Hc]. unfold ready_and_connected, connected. by rewrite Hr, Hc.
Qed.

Lemma host_filter_length h ms : NoDup (m_principal <$> ms) →
  (∃ m, m ∈ ms ∧ m_principal m = h ∧ m_host m = true) →
  length (List.filter m_host ms) = 1 ↔ ∀ m, m ∈ ms → m_host m = true → m_principal m = h.
Proof.
  intros Hnd (m0 & Hm0 & Hp0 & Hh0). split.
  - intros Hlen m Hm Hh. destruct (List.filter m_host ms) as [|a [|b l]] eqn:E; try done.
    assert (∀ x, x ∈ ms → m_host x = true → x = a) as Ha.
    { intros x Hx Hxh. assert (x ∈ [a]) as Hin; [|set_solver]. rewrite <-E. apply list_elem_of_In, filter_In.
      by rewrite <-list_elem_of_In. }
    by rewrite (Ha m Hm Hh), <-(Ha m0 Hm0 Hh0).
  - intros Hall. apply list_elem_of_split in Hm0 as (l1 & l2 & ->).
    rewrite fmap_app, fmap_cons in Hnd. apply NoDup_app in Hnd as (_ & Hd1 & Hnd2).
    apply NoDup_cons in Hnd2 as [Hd2 _].
    assert (∀ l, (∀ m, m ∈ l → m ∈ l1 ++ m0 :: l2) → m_principal m0 ∉ (m_principal <$> l) →
      List.filter m_host l = []) as Hnil.
    { intros l Hsub Hn. destruct (List.filter m_host l) as [|x l'] eqn:E; [done|]. exfalso. apply Hn.
      assert (x ∈ List.filter m_host l) as [Hx%list_elem_of_In Hxh]%list_elem_of_In%filter_In by (rewrite E; left).
      apply list_elem_of_fmap. exists x. split; [|done]. rewrite Hp0. symmetry. auto. }
    rewrite List.filter_app. cbn [List.filter]. rewrite Hh0.
    rewrite (Hnil l1), (Hnil l2); [done|set_solver|done|set_solver|].
    intros Hin. apply (Hd1 (m_principal m0)); [done|left].
Qed.

(** ** The log *)

Definition record_ok (record : ProcessedCommand G) : Prop :=
  ∀ i e, pc_events record !! i = Some e →
    ep_command_id (ev_provenance e) = pc_command_id record ∧
    ep_command_hash (ev_provenance e) = pc_command_hash record ∧
    ep_event_index (ev_provenance e) = Z.of_nat i.

Record log_ok (records : list (ProcessedCommand G)) : Prop := {
  lo_records : Forall record_ok records;
  lo_ids : NoDup (pc_command_id <$> records);
}.

Lemma valid_record_spec record : valid_record record = true ↔ record_ok record.
Proof.
  unfold valid_record, record_ok. rewrite forallb_true. split.
  - intros H i e He. specialize (H (i, e)). cbn [fst snd] in H.
    rewrite !andb_true_iff, !bool_decide_eq_true, Z.eqb_eq in H.
    destruct H as [[H1 H2] H3]; [|done]. apply elem_of_lookup_imap. by exists i, e.
  - intros H [i e] (j & e' & [= -> ->] & He)%elem_of_lookup_imap. cbn [fst snd].
    rewrite !andb_true_iff, !bool_decide_eq_true, Z.eqb_eq. destruct (H j e' He) as (? & ? & ?). done.
Qed.

(** ** Validity *)

Record room_ok st : Prop := {
  rk_roster : roster_ok (st_session_epoch st) (members st);
  rk_policies : NoDup (rule_policy_id <$> policies st);
  rk_phase : phase_ok (st_phase st) (st_session_epoch st) (st_host st) (members st);
  rk_host : host_ok (st_host st) (members st);
  rk_capabilities : capabilities_ok (members st) (projection_epoch st) (hand_requests st) (hand_grants st);
}.

Definition valid st : Prop := room_ok st ∧ log_ok (processed_commands st).

Lemma validate_list_spec {A} (v : A → bool) (clash : A → A → bool) e l :
  validate_list v clash e l = Ok tt ↔ (∀ x, x ∈ l → v x = true) ∧ later_pair clash l = false.
Proof. unfold validate_list. rewrite ensure_Ok, andb_true_iff, forallb_true, negb_true_iff. done. Qed.

Lemma validate_phase_spec st :
  validate_phase st = Ok tt ↔ phase_ok (st_phase st) (st_session_epoch st) (st_host st) (members st).
Proof.
  unfold validate_phase, phase_ok. destruct (st_phase st); try (destruct (Z.eqb_spec (st_session_epoch st) 0); naive_solver).
  - rewrite ensure_Ok, !andb_true_iff, bool_decide_eq_true, Z.eqb_eq, Nat.eqb_eq, length_zero_iff_nil. naive_solver.
  - destruct (Z.eqb_spec (st_session_epoch st) 0); [naive_solver|].
    rewrite ensure_Ok, negb_true_iff. rewrite (countdown_ready_spec (members st)). naive_solver.
Qed.

Lemma validate_host_spec st : NoDup (m_principal <$> members st) →
  validate_host st = Ok tt ↔ host_ok (st_host st) (members st).
Proof.
  intros Hnd. unfold validate_host, host_ok. destruct (st_host st) as [h|]; [|done]. rewrite bind_Ok. split.
  - intros (m & Hm%ok_or_Ok & H). apply member_spec in Hm as [Hm Hp]; [|done].
    rewrite ensure_Ok, andb_true_iff, Nat.eqb_eq in H. destruct H as [Hh Hlen].
    assert (∃ m, m ∈ members st ∧ m_principal m = h ∧ m_host m = true) as Hex by (by exists m).
    split; [done|]. by apply (host_filter_length h).
  - intros [Hex Hall]. pose proof Hex as (m & Hm & Hp & Hh). exists m.
    rewrite ok_or_Ok, member_spec by done. split; [done|].
    rewrite ensure_Ok, andb_true_iff, Nat.eqb_eq. split; [done|]. by apply (host_filter_length h).
Qed.

(** [validate] accepts exactly the valid states. *)
Lemma validate_valid st : validate st = Ok tt ↔ valid st.
Proof.
  unfold validate. destruct (Nat.ltb_spec MAX_MEMBERS (length (members st))) as [Hm|Hm].
  { split; [done|]. intros [[[Hc _ _ _] _ _ _ _] _]. lia. }
  destruct ((MAX_HAND_REQUESTS <? _) || _)%bool eqn:Hc.
  { split; [done|]. intros [[_ _ _ _ [H1 H2 _ _ _ _ _ _]] _].
    apply orb_true_iff in Hc as [Hc|Hc]; apply Nat.ltb_lt in Hc; lia. }
  apply orb_false_iff in Hc as [Hrc%Nat.ltb_ge Hgc%Nat.ltb_ge].
  assert (∀ (e : SessionInvariantError) (m : outcome SessionInvariantError unit) k,
    (m ≫= λ _, k) = Ok tt ↔ m = Ok tt ∧ k = Ok tt) as Hbind.
  { intros e m k. rewrite bind_Ok. split; [intros ([] & ? & ?); done|]. intros [? ?]. by exists tt. }
  rewrite !(Hbind InvalidSeat), validate_member_list_spec, !validate_list_spec, validate_phase_spec.
  unfold policy_clash. rewrite later_pair_key.
  unfold request_clash. rewrite later_pair_or, orb_false_iff.
  rewrite (later_pair_key hr_request_id), (later_pair_key hr_recipient).
  unfold grant_clash. rewrite (later_pair_key hg_recipient).
  unfold record_clash. rewrite (later_pair_key pc_command_id). setoid_rewrite valid_record_spec.
  rewrite <-(Forall_forall record_ok). split.
  - intros ((Hmem & Hp & Hs) & [_ Hpol] & Hph & Hh & (Hr & Hid & Hrec) & (Hg & Hgr) & Hl & Hli).
    apply validate_host_spec in Hh; [|done].
    split; [|by split]. split; [by split|done|done|done|]. split; try done.
    + intros r Hin. apply capability_pair_spec; [done|]. by apply Hr.
    + intros g Hin. specialize (Hg g Hin). unfold valid_grant in Hg. rewrite !andb_true_iff in Hg.
      destruct Hg as [[Hg _] _]. by apply capability_pair_spec.
    + intros g Hin. specialize (Hg g Hin). unfold valid_grant in Hg. rewrite !andb_true_iff, negb_true_iff in Hg. lia.
  - intros [[[Hcnt Hmem Hp Hs] Hpol Hph Hh [_ _ H1 H2 H3 H4 H5 H6]] [Hl Hli]].
    split_and!; try done; try (by apply validate_host_spec).
    + intros r Hin. apply capability_pair_spec; auto.
    + intros g Hin. unfold valid_grant. rewrite !andb_true_iff, negb_true_iff. destruct (H5 g Hin).
      split; [split|lia]; [|lia]. apply capability_pair_spec; auto.
Qed.
End Members.
