(* ===== verification/SessionPreserve.v ===== *)
(** * What each event does to a valid room

    The room invariant and, for every event kind, the conditions under which
    applying it succeeds and preserves the invariant. *)

From stdpp Require Import base strings numbers option sets list.
From S2P Require Import Prelude Protocol SessionState SessionMachine SessionValid.

(** ** Roster updates *)

(** Identity, seat and host flag are kept. *)
Definition same_seat (m m' : MemberState) : Prop :=
  m_principal m' = m_principal m ∧ m_seat m' = m_seat m ∧ m_host m' = m_host m.

Definition same_roster : list MemberState → list MemberState → Prop := Forall2 same_seat.

Lemma same_seat_refl m : same_seat m m.
Proof. done. Qed.

Lemma same_roster_insert ms i m m' : ms !! i = Some m → same_seat m m' → same_roster ms (<[i := m']> ms).
Proof.
  intros Hi Hs. unfold same_roster. rewrite <-(list_insert_id ms i m Hi) at 1.
  apply Forall2_insert; [|done]. apply Forall_Forall2_diag, Forall_forall. intros x _. apply same_seat_refl.
Qed.

Lemma same_roster_fmap ms f : (∀ m, same_seat m (f m)) → same_roster ms (f <$> ms).
Proof. intros Hf. apply Forall2_fmap_r, Forall_Forall2_diag, Forall_forall. intros x _. apply Hf. Qed.

Lemma same_roster_fields ms ms' : same_roster ms ms' →
  (m_principal <$> ms') = (m_principal <$> ms) ∧ omap m_seat ms' = omap m_seat ms ∧ length ms' = length ms.
Proof.
  induction 1 as [|m m' ms ms' (Hp & Hs & Hh) _ (IH1 & IH2 & IH3)]; [done|].
  rewrite !fmap_cons, Hp, IH1. cbn [omap list_omap]. rewrite Hs, IH2. simpl. by rewrite IH3.
Qed.

Lemma same_roster_elem ms ms' m' : same_roster ms ms' → m' ∈ ms' → ∃ m, m ∈ ms ∧ same_seat m m'.
Proof.
  intros H (i & Hi)%list_elem_of_lookup. destruct (Forall2_lookup_r _ _ _ _ _ H Hi) as (m & Hm & Hs).
  exists m. split; [by eapply list_elem_of_lookup_2|done].
Qed.

Lemma same_roster_elem' ms ms' m : same_roster ms ms' → m ∈ ms → ∃ m', m' ∈ ms' ∧ same_seat m m'.
Proof.
  intros H (i & Hi)%list_elem_of_lookup. destruct (Forall2_lookup_l _ _ _ _ _ H Hi) as (m' & Hm & Hs).
  exists m'. split; [by eapply list_elem_of_lookup_2|done].
Qed.

Lemma roster_same epoch ms ms' : roster_ok epoch ms → same_roster ms ms' → Forall (member_ok epoch) ms' →
  roster_ok epoch ms'.
Proof.
  intros [H1 _ H2 H3] Hs Hm. destruct (same_roster_fields _ _ Hs) as (Ep & Es & El).
  split; [by rewrite El|done|by rewrite Ep|by rewrite Es].
Qed.

Lemma host_same host ms ms' : host_ok host ms → same_roster ms ms' → host_ok host ms'.
Proof.
  intros Hh Hs. destruct host as [h|]; [|done]. destruct Hh as [(m & Hm & Hp & Hhost) Hall]. split.
  - destruct (same_roster_elem' _ _ _ Hs Hm) as (m' & Hm' & E1 & _ & E3). exists m'. by rewrite E1, E3.
  - intros m' (x & Hx & E1 & _ & E3)%(same_roster_elem _ _ _ Hs) Hh. rewrite E1. apply Hall; congruence.
Qed.

(** The pairs of principals that hold a capability. *)
Definition capability_of (rs : list HandViewRequest) (gs : list HandViewGrant) (a b : PrincipalId) : Prop :=
  (∃ r, r ∈ rs ∧ hr_player r = a ∧ hr_recipient r = b) ∨ (∃ g, g ∈ gs ∧ hg_player g = a ∧ hg_recipient g = b).

(** Every member that holds a capability keeps its seat. *)
Definition keeps_seats (ms ms' : list MemberState) (p : PrincipalId) : Prop :=
  ∀ m, m ∈ ms → m_principal m = p → ∃ m', m' ∈ ms' ∧ m_principal m' = p ∧ m_seat m' = m_seat m.

Lemma pair_ok_keeps ms ms' a b : keeps_seats ms ms' a → keeps_seats ms ms' b → pair_ok ms a b → pair_ok ms' a b.
Proof.
  intros Ha Hb (Hne & (x & Hx & Hpx & Hsx) & (y & Hy & Hpy & Hsy)). split; [done|].
  destruct (Ha x Hx Hpx) as (x' & ? & ? & E1). destruct (Hb y Hy Hpy) as (y' & ? & ? & E2).
  split; [exists x'|exists y']; split_and!; try done; [by rewrite E1|by rewrite E2].
Qed.

Lemma capabilities_keep ms ms' epoch rs gs : capabilities_ok ms epoch rs gs →
  (∀ a b, capability_of rs gs a b → keeps_seats ms ms' a ∧ keeps_seats ms ms' b) →
  capabilities_ok ms' epoch rs gs.
Proof.
  intros [H1 H2 H3 H4 H5 H6 H7 H8] Hk. split; try done.
  - intros r Hr. destruct (Hk (hr_player r) (hr_recipient r)) as [Ka Kb]; [left; by exists r|].
    eapply pair_ok_keeps; eauto.
  - intros g Hg. destruct (Hk (hg_player g) (hg_recipient g)) as [Ka Kb]; [right; by exists g|].
    eapply pair_ok_keeps; eauto.
Qed.

Lemma same_roster_keeps ms ms' p : same_roster ms ms' → keeps_seats ms ms' p.
Proof.
  intros Hs m Hm Hp. destruct (same_roster_elem' _ _ _ Hs Hm) as (m' & ? & ? & ? & _). exists m'.
  split_and!; [done|congruence|done].
Qed.

Lemma capabilities_same ms ms' epoch rs gs : capabilities_ok ms epoch rs gs → same_roster ms ms' →
  capabilities_ok ms' epoch rs gs.
Proof. intros Hc Hs. eapply capabilities_keep; [done|]. intros a b _. split; by apply same_roster_keeps. Qed.

Lemma keeps_seats_insert ms i m m' p : ms !! i = Some m → m_principal m ≠ p → keeps_seats ms (<[i := m']> ms) p.
Proof.
  intros Hi Hne x Hx Hp. exists x. split_and!; [|done|done].
  apply list_elem_of_lookup in Hx as [j Hj]. apply list_elem_of_lookup. exists j.
  rewrite list_lookup_insert_ne; [done|]. intros ->. congruence.
Qed.

Lemma keeps_seats_delete ms i m p : ms !! i = Some m → m_principal m ≠ p → keeps_seats ms (delete i ms) p.
Proof.
  intros Hi Hne x Hx Hp. exists x. split_and!; [|done|done].
  rewrite (delete_Permutation ms i m Hi) in Hx. apply elem_of_cons in Hx as [->|Hx]; done.
Qed.

Lemma keeps_seats_app ms l p : keeps_seats ms (ms ++ l) p.
Proof. intros x Hx Hp. exists x. set_solver. Qed.

(** ** The room invariant *)

Section Preserve.
Context {G E : Type} `{EqDecision G}.
Implicit Types st next : SessionState G.

Record room_inv st : Prop := {
  ri_ok : room_ok st;
  ri_exclusive : ∀ r g, r ∈ hand_requests st → g ∈ hand_grants st → hr_recipient r ≠ hg_recipient g;
  ri_chat : ∀ m, m ∈ members st → (0 <= m_chat_messages_in_window m <= CHAT_MESSAGES_PER_WINDOW)%Z;
  ri_counts : (0 <= st_revision st)%Z ∧ (0 <= chat_count st)%Z ∧ (0 <= projection_epoch st)%Z;
}.

Lemma room_inv_log st revision records : room_inv st → (0 <= revision)%Z → room_inv (with_log st revision records).
Proof. intros [[H1 H2 H3 H4 H5] H6 H7 (H8 & H9 & H10)] Hr. split; [by split|done|done|done]. Qed.

(** The phase may change freely among those with a created room and no countdown. *)
Lemma room_inv_phase st phase : room_inv st → st_session_epoch st ≠ 0%Z →
  match phase with Uninitialized | Countdown _ _ => False | _ => True end → room_inv (with_phase st phase).
Proof.
  intros [[H1 H2 H3 H4 H5] H6 H7 H8] He Hp. split; [|done|done|done]. split; try done.
  simpl. by destruct phase.
Qed.

Lemma room_inv_history st h : room_inv st → room_inv (with_history st h).
Proof. intros [[H1 H2 H3 H4 H5] H6 H7 H8]. split; [by split|done|done|done]. Qed.

Lemma room_inv_epoch st : room_inv st → st_phase st ≠ Uninitialized → st_session_epoch st ≠ 0%Z.
Proof. intros [[_ _ H _ _] _ _ _] Hp. unfold phase_ok in H. destruct (st_phase st); naive_solver. Qed.

Definition chat_ok (m : MemberState) : Prop :=
  (0 <= m_chat_messages_in_window m <= CHAT_MESSAGES_PER_WINDOW)%Z.

(** An update that keeps seats. *)
Lemma room_inv_same st ms' : room_inv st → same_roster (members st) ms' →
  Forall (member_ok (st_session_epoch st)) ms' → Forall chat_ok ms' →
  (∀ d t, st_phase st = Countdown d t → countdown_ready ms') →
  room_inv (with_members st ms').
Proof.
  intros [[H1 H2 H3 H4 H5] H6 H7 H8] Hs Hm Hc Hcd. split; [|done| |done].
  - split; simpl; [by eapply roster_same|done| |by eapply host_same|by eapply capabilities_same].
    unfold phase_ok in *. destruct (st_phase st); try done.
    + destruct H3 as (? & ? & Hnil). rewrite Hnil in Hs. split_and!; [done|done|]. by apply Forall2_nil_inv_l in Hs.
    + split; [apply H3|]. by eapply Hcd.
  - simpl. by apply Forall_forall.
Qed.

Lemma room_inv_insert st i m m' : room_inv st → members st !! i = Some m → same_seat m m' →
  member_ok (st_session_epoch st) m' → chat_ok m' →
  (∀ d t, st_phase st = Countdown d t → is_Some (m_seat m) → m_ready m' = m_ready m ∧ (m_connection m' = Connected ∨ m_connection m' = m_connection m)) →
  room_inv (with_members st (<[i := m']> (members st))).
Proof.
  intros Hinv Hi Hs Hm Hc Hcd. apply room_inv_same; [done|by eapply same_roster_insert| | |].
  - apply Forall_insert; [|done]. apply Hinv.
  - apply Forall_insert; [|done]. apply Forall_forall, Hinv.
  - intros d t Hp. pose proof (rk_phase _ (ri_ok _ Hinv)) as Hph. rewrite Hp in Hph.
    destruct Hph as (_ & Hlen & Hall). pose proof (same_roster_insert _ _ _ _ Hi Hs) as Hr.
    split; [destruct (same_roster_fields _ _ Hr) as (_ & -> & _); done|].
    intros x Hx Hsx. apply list_elem_of_lookup in Hx as [j Hj].
    apply list_lookup_insert_Some in Hj as [(-> & <- & _)|[_ Hj]].
    + destruct Hs as (_ & Es & _). rewrite Es in Hsx.
      destruct (Hall m (list_elem_of_lookup_2 _ _ _ Hi) Hsx) as [Hr' Hc'].
      destruct (Hcd d t Hp Hsx) as [-> [? | ->]]; done.
    + apply Hall; [by eapply list_elem_of_lookup_2|done].
Qed.

(** All members unready: outside a countdown. *)
Lemma room_inv_clear st : room_inv st → (∀ d t, st_phase st ≠ Countdown d t) → room_inv (clear_ready st).
Proof.
  intros Hinv Hp. apply room_inv_same; [done|by apply same_roster_fmap| | |].
  - apply Forall_fmap. eapply Forall_impl; [exact (ro_members _ _ (rk_roster _ (ri_ok _ Hinv)))|].
    intros m (? & ? & ? & ?). unfold compose, member_ok. by split_and!.
  - apply Forall_fmap, Forall_forall. intros m Hm. exact (ri_chat _ Hinv m Hm).
  - intros d t Ht. by destruct (Hp d t).
Qed.

(** A new, unseated member that is not the host. *)
Lemma room_inv_join st m : room_inv st → length (members st) < MAX_MEMBERS →
  m_principal m ∉ (m_principal <$> members st) → st_session_epoch st ≠ 0%Z → st_phase st ≠ Uninitialized →
  member_ok (st_session_epoch st) m → m_seat m = None → m_host m = false → chat_ok m →
  room_inv (with_members st (members st ++ [m])).
Proof.
  intros [[[H1 H1' H1'' H1'''] H2 H3 H4 H5] H6 H7 H8] Hlen Hp He Hu Hm Hs Hh Hc.
  assert (omap m_seat (members st ++ [m]) = omap m_seat (members st)) as Hom.
  { rewrite omap_app. cbn [omap list_omap]. by rewrite Hs, app_nil_r. }
  split; [|done| |done].
  - split; simpl.
    + split; [rewrite length_app; simpl; lia|apply Forall_app; by rewrite Forall_singleton|rewrite fmap_app|by rewrite Hom].
      apply NoDup_app. split; [done|]. split; [|apply NoDup_singleton].
      intros x Hx ->%list_elem_of_singleton. done.
    + done.
    + unfold phase_ok, countdown_ready in *. rewrite Hom. destruct (st_phase st); try done.
      destruct H3 as (? & ? & Hall). split_and!; [done|done|].
      intros x Hx Hsx. apply elem_of_app in Hx as [Hx | ->%list_elem_of_singleton]; [by apply Hall|].
      rewrite Hs in Hsx. by destruct Hsx.
    + destruct (st_host st) as [h|]; [|done]. destruct H4 as [(x & Hx & ? & ?) Hall]. split.
      * exists x. set_solver.
      * intros y Hy Hyh. apply elem_of_app in Hy as [Hy | ->%list_elem_of_singleton]; [by apply Hall|congruence].
    + eapply capabilities_keep; [done|]. intros a b _. split; apply keeps_seats_app.
  - simpl. intros x Hx. apply elem_of_app in Hx as [Hx | ->%list_elem_of_singleton]; [by apply H7|done].
Qed.

(** A seat taken or given up by a principal that holds no capability. *)
Lemma room_inv_seat st i m m' : room_inv st → members st !! i = Some m →
  m_principal m' = m_principal m → m_host m' = m_host m → member_ok (st_session_epoch st) m' → chat_ok m' →
  (∀ s, m_seat m' = Some s → s ∉ omap m_seat (members st)) →
  (∀ a b, capability_of (hand_requests st) (hand_grants st) a b → a ≠ m_principal m ∧ b ≠ m_principal m) →
  (∀ d t, st_phase st ≠ Countdown d t) →
  room_inv (with_members st (<[i := m']> (members st))).
Proof.
  intros [[[H1 H1' H1'' H1'''] H2 H3 H4 H5] H6 H7 H8] Hi Hp Hh Hm Hc Hs Hcap Hcd.
  pose proof (lookup_lt_Some _ _ _ Hi) as Hlt.
  split; [|done| |done].
  - split; simpl.
    + split; [by rewrite length_insert|by apply Forall_insert| |].
      * rewrite list_fmap_insert, Hp, list_insert_id; [done|]. by rewrite list_lookup_fmap, Hi.
      * rewrite insert_take_drop by done. rewrite <-(take_drop_middle _ _ _ Hi) in H1''', Hs.
        rewrite !omap_app in *. cbn [omap list_omap] in *.
        assert (NoDup (omap m_seat (take i (members st)) ++ omap m_seat (drop (S i) (members st)))) as Hnd.
        { destruct (m_seat m) as [s|]; [|done]. rewrite <-Permutation_middle, NoDup_cons in H1'''. by destruct H1'''. }
        destruct (m_seat m') as [s|]; [|done]. rewrite <-Permutation_middle, NoDup_cons. split; [|done].
        specialize (Hs s eq_refl). destruct (m_seat m); set_solver.
    + done.
    + unfold phase_ok in *. destruct (st_phase st) as [| |d t| | | |]; try done.
      * destruct H3 as (? & ? & Hnil). by rewrite Hnil in Hi.
      * by destruct (Hcd d t).
    + destruct (st_host st) as [h|]; [|done]. destruct H4 as [(x & Hx & Hxp & Hxh) Hall]. split.
      * apply list_elem_of_lookup in Hx as [j Hj]. destruct (Nat.eq_dec i j) as [->|Hne].
        -- exists m'. rewrite Hp, Hh. assert (m = x) as -> by congruence.
           split_and!; [|done|done]. apply list_elem_of_insert. done.
        -- exists x. split_and!; [|done|done]. apply list_elem_of_lookup. exists j. by rewrite list_lookup_insert_ne.
      * intros y Hy Hyh. apply list_elem_of_lookup in Hy as [j Hj].
        apply list_lookup_insert_Some in Hj as [(-> & <- & _)|[_ Hj]].
        -- rewrite Hp. apply Hall; [by eapply list_elem_of_lookup_2|congruence].
        -- apply Hall; [by eapply list_elem_of_lookup_2|done].
    + eapply capabilities_keep; [done|]. intros a b Hab. destruct (Hcap a b Hab).
      split; eapply keeps_seats_insert; eauto.
  - simpl. apply Forall_forall. apply Forall_insert; [by apply Forall_forall|done].
Qed.

(** A member that is not the host and holds no capability leaves; outside a
    countdown if it was seated. *)
Lemma room_inv_remove st i m : room_inv st → members st !! i = Some m → m_host m = false →
  (∀ a b, capability_of (hand_requests st) (hand_grants st) a b → a ≠ m_principal m ∧ b ≠ m_principal m) →
  (∀ d t, st_phase st = Countdown d t → m_seat m = None) →
  room_inv (with_members st (delete i (members st))).
Proof.
  intros [[[H1 H1' H1'' H1'''] H2 H3 H4 H5] H6 H7 H8] Hi Hh Hcap Hcd.
  pose proof (delete_Permutation (members st) i m Hi) as Hperm.
  assert (∀ x, x ∈ delete i (members st) → x ∈ members st) as Hsub.
  { intros x Hx. rewrite Hperm. by right. }
  split; [|done| |done].
  - split; simpl.
    + rewrite Hperm in H1, H1', H1'', H1'''. rewrite Forall_cons in H1'. rewrite fmap_cons, NoDup_cons in H1''.
      cbn [omap list_omap] in H1'''.
      split; [simpl in H1; lia|apply H1'|apply H1''|]. destruct (m_seat m); [|done].
      rewrite NoDup_cons in H1'''. apply H1'''.
    + done.
    + unfold phase_ok in *. destruct (st_phase st) as [| |d t| | | |]; try done.
      * destruct H3 as (? & ? & Hnil). by rewrite Hnil in Hi.
      * destruct H3 as (? & Hlen & Hall). split; [done|]. split; [|naive_solver].
        rewrite Hperm in Hlen. cbn [omap list_omap] in Hlen. by rewrite (Hcd d t eq_refl) in Hlen.
    + destruct (st_host st) as [h|]; [|done]. destruct H4 as [(x & Hx & Hxp & Hxh) Hall]. split; [|naive_solver].
      exists x. split_and!; [|done|done]. rewrite Hperm in Hx. apply elem_of_cons in Hx as [-> | Hx]; [congruence|done].
    + eapply capabilities_keep; [done|]. intros a b Hab. destruct (Hcap a b Hab).
      split; eapply keeps_seats_delete; eauto.
  - simpl. naive_solver.
Qed.

(** New capability lists over the same roster. *)
Lemma room_inv_capabilities st epoch rs gs : room_inv st →
  capabilities_ok (members st) epoch rs gs → (0 <= epoch)%Z →
  (∀ r g, r ∈ rs → g ∈ gs → hr_recipient r ≠ hg_recipient g) →
  room_inv (with_capabilities st epoch rs gs).
Proof. intros [[H1 H2 H3 H4 H5] H6 H7 (H8 & H9 & H10)] Hc He Hx. split; [by split|done|done|done]. Qed.
End Preserve.
