(* ===== verification/SessionDecide.v ===== *)
(** * Decided batches can be applied

    Every batch of event kinds that a decision produces in a room that satisfies
    the invariant is feasible: its events apply one after the other, each
    preserving the invariant. *)

From stdpp Require Import base strings numbers option sets list.
From S2P Require Import Prelude Protocol SessionState SessionMachine SessionValid SessionPreserve.

(** Inverts a Boolean guard of a decision. *)
Ltac inv_guard H :=
  match type of H with
  | (if ?b then _ else _) = Ok _ =>
      let Hb := fresh "Hg" in destruct b eqn:Hb; [discriminate H|]
  end.

Section Decide.
Context {G E : Type} `{EqDecision G} `{SessionGame G E}.
Context (payload_json : CommandPayload → option (list Z)) (blake3 : list Z → list Z).
Implicit Types st next : SessionState G.

(** ** Feasible batches *)

Fixpoint feasible (id : CommandId) st (kinds : list (SessionEventKind G)) : Prop :=
  match kinds with
  | [] => True
  | k :: kinds =>
      ∀ prov, ep_command_id prov = id → ∃ next, apply_kind (E := E) st k prov = Ok next ∧ room_inv next ∧
        (∀ r, r ∈ hand_requests next → r ∈ hand_requests st ∨ hr_request_id r = id) ∧
        ∀ records, feasible id (with_log next (st_revision st + 1)%Z records) kinds
  end.

Lemma feasible_one id st k next : (∀ prov, ep_command_id prov = id → apply_kind (E := E) st k prov = Ok next) →
  room_inv next → hand_requests next = hand_requests st → feasible id st [k].
Proof using Type.
  intros Hk Hn Hr prov Hp. exists next. rewrite Hr. split_and!; [by apply Hk|done|by left|done].
Qed.

Lemma update_member_inv st p f next : update_member (E := E) st p f = Ok next →
  ∃ i m m', find_member p (members st) = Some (i, m) ∧ f m = Ok m' ∧
    next = with_members st (<[i := m']> (members st)).
Proof using Type.
  unfold update_member. intros ([i m] & Hf%ok_or_Ok & (m' & Hm & [= <-])%bind_Ok)%bind_Ok. by exists i, m, m'.
Qed.

(** The phase after an event. *)
Definition phase_after (phase : SessionPhase G) (k : SessionEventKind G) : SessionPhase G :=
  match k with
  | RoomCreated _ | CountdownCancelled _ | LobbyReset => Lobby
  | CountdownArmed deadline_tick token => Countdown deadline_tick token
  | GameStarted game => Running game
  | GameAdvanced game _ terminal _ => if terminal then PostGame game else Running game
  | EvPaused => match phase with Running game => Paused game | _ => phase end
  | EvUnpaused => match phase with Paused game => Running game | _ => phase end
  | RoomClosed => Closed
  | _ => phase
  end.

Lemma apply_kind_frame st k prov next : apply_kind (E := E) st k prov = Ok next →
  st_revision next = st_revision st ∧ processed_commands next = processed_commands st ∧
  st_phase next = phase_after (st_phase st) k.
Proof using Type.
  destruct k; cbn [apply_kind]; unfold apply_joined, apply_advanced, apply_chat, apply_removed, apply_expired, denied;
    intros Hk;
    repeat match type of Hk with
    | update_member _ _ _ = Ok _ => apply update_member_inv in Hk as (? & ? & ? & _ & _ & ->); done
    | update_member _ _ _ ≫= _ = Ok _ =>
        apply bind_Ok in Hk as (? & (? & ? & ? & _ & _ & ->)%update_member_inv & Hk)
    | _ ≫= _ = Ok _ => apply bind_Ok in Hk as (? & _ & Hk)
    | (let '(_, _) := ?x in _) = Ok _ => destruct x
    | (match ?x with _ => _ end) = Ok _ => destruct x eqn:?
    | Ok _ = Ok _ => injection Hk as <-
    | Err _ = Ok _ => discriminate Hk
    end; cbn [phase_after]; repeat match goal with Hp : st_phase st = _ |- _ => rewrite Hp end; done.
Qed.

Lemma find_member_member st p i m : find_member p (members st) = Some (i, m) → member st p = Some m.
Proof using Type. unfold member. by intros ->. Qed.

Lemma member_find st p m : member st p = Some m →
  ∃ i, find_member p (members st) = Some (i, m) ∧ members st !! i = Some m ∧ m_principal m = p.
Proof using Type.
  unfold member. intros Hm. apply fmap_Some in Hm as ([i m'] & Hf & ->). exists i.
  destruct (find_member_Some _ _ _ _ Hf). done.
Qed.

Lemma update_member_Ok st p i m f m' : find_member p (members st) = Some (i, m) → f m = Ok m' →
  update_member (E := E) st p f = Ok (with_members st (<[i := m']> (members st))).
Proof using Type. intros Hf Hm. unfold update_member. rewrite Hf. cbn. by rewrite Hm. Qed.

Lemma roster_member st i m : room_inv st → members st !! i = Some m →
  member_ok (st_session_epoch st) m ∧ chat_ok m.
Proof using Type.
  intros Hinv Hi%list_elem_of_lookup_2. split; [|by apply Hinv].
  pose proof (ro_members _ _ (rk_roster _ (ri_ok _ Hinv))) as Hall. rewrite Forall_forall in Hall. auto.
Qed.

(** ** The leading events of a batch *)

Lemma feasible_cancel id st rest : room_inv st →
  (∀ st1, room_inv st1 → members st1 = members st → hand_requests st1 = hand_requests st →
     hand_grants st1 = hand_grants st → projection_epoch st1 = projection_epoch st →
     st_phase st1 = match st_phase st with Countdown _ _ => Lobby | phase => phase end →
     feasible id st1 rest) →
  feasible id st (cancel_countdown_first st ++ rest).
Proof using Type.
  intros Hinv Hrest. unfold cancel_countdown_first.
  destruct (st_phase st) as [| |d t| | | |] eqn:Hp; cbn [app]; try (by apply Hrest; rewrite ?Hp).
  intros prov Hprov. exists (with_phase st Lobby). cbn [apply_kind]. rewrite Hp, bool_decide_eq_false_2 by auto.
  assert (room_inv (with_phase st Lobby)) as Hinv'.
  { apply room_inv_phase; [done| |done]. apply room_inv_epoch; [done|]. by rewrite Hp. }
  split_and!; [done|done|auto|]. intros records. apply Hrest; try done.
  apply room_inv_log; [done|]. pose proof (ri_counts _ Hinv). lia.
Qed.

Lemma length_filter_le {A} (P : A → bool) l : length (List.filter P l) ≤ length l.
Proof using Type. induction l as [|a l IH]; simpl; [lia|]. destruct (P a); simpl; lia. Qed.

Lemma elem_of_Filter {A} (P : A → bool) l x : x ∈ List.filter P l ↔ x ∈ l ∧ P x = true.
Proof using Type. rewrite !list_elem_of_In, filter_In. done. Qed.

Lemma NoDup_fmap_filter {A K} (key : A → K) (P : A → bool) l :
  NoDup (key <$> l) → NoDup (key <$> List.filter P l).
Proof using Type.
  induction l as [|a l IH]; [done|]. rewrite fmap_cons, NoDup_cons. intros [Ha Hl]. cbn [List.filter].
  destruct (P a); [|auto]. rewrite fmap_cons, NoDup_cons. split; [|auto].
  rewrite list_elem_of_fmap. intros (b & Hb & [Hin _]%elem_of_Filter). apply Ha, list_elem_of_fmap. by exists b.
Qed.

Lemma feasible_expire id st0 st reason rest : room_inv st →
  hand_requests st0 = hand_requests st → hand_grants st0 = hand_grants st → (projection_epoch st + 1 < 2 ^ 64)%Z →
  (∀ st1, room_inv st1 → members st1 = members st → st_phase st1 = st_phase st →
     (∀ a b, capability_of (hand_requests st1) (hand_grants st1) a b → affects_pair reason a b = false) →
     feasible id st1 rest) →
  feasible id st (expire_capabilities_for st0 reason ++ rest).
Proof using Type.
  intros Hinv Hr Hg Hroom Hrest. unfold expire_capabilities_for. rewrite Hr, Hg.
  pose proof Hinv as [[_ _ _ _ [C1 C2 C3 C4 C5 C6 C7 C8]] Hex _ (Hrev & _ & Hpe)].
  destruct (_ || _)%bool eqn:Hany; cbn [app].
  - intros prov Hprov. cbn [apply_kind]. unfold apply_expired.
    set (rs := List.filter _ (hand_requests st)). set (gs := List.filter _ (hand_grants st)).
    assert (∃ epoch, (if negb (length (hand_grants st) =? length gs)
      then ok_or (checked 64 (projection_epoch st + 1)) EventOrder else Ok (projection_epoch st))
      = Ok (E := SessionError E) epoch ∧ (projection_epoch st <= epoch)%Z) as (epoch & -> & Hle).
    { destruct (negb _).
      - exists (projection_epoch st + 1)%Z. rewrite ok_or_Ok, checked_Some. unfold in_width. lia.
      - by exists (projection_epoch st). }
    eexists. split; [reflexivity|].
    assert (room_inv (with_capabilities st epoch rs gs)) as Hinv'.
    { apply room_inv_capabilities; [done| |lia|].
      - split; try (by apply NoDup_fmap_filter).
        + pose proof (length_filter_le (λ r, negb (affects_pair reason (hr_player r) (hr_recipient r)))
            (hand_requests st)). unfold rs. lia.
        + pose proof (length_filter_le (λ g, negb (affects_pair reason (hg_player g) (hg_recipient g)))
            (hand_grants st)). unfold gs. lia.
        + intros r [Hin _]%elem_of_Filter. auto.
        + intros g [Hin _]%elem_of_Filter. auto.
        + intros g [Hin _]%elem_of_Filter. destruct (C7 g Hin). split; [done|lia].
      - intros r g [Hr1 _]%elem_of_Filter [Hg1 _]%elem_of_Filter. auto. }
    split_and!; [done| |].
    { intros r [Hin _]%elem_of_Filter. by left. }
    intros records. apply Hrest; try done; [apply room_inv_log; [done|lia]|].
    intros a b [(r & [_ Hn]%elem_of_Filter & <- & <-)|(g & [_ Hn]%elem_of_Filter & <- & <-)];
      by apply negb_true_iff in Hn.
  - apply orb_false_iff in Hany as [H1 H2]. pose proof (proj1 (existsb_false _ _) H1) as H3.
    pose proof (proj1 (existsb_false _ _) H2) as H4.
    apply Hrest; try done. intros a b [(r & Hin & <- & <-)|(g & Hin & <- & <-)]; auto.
Qed.

(** The pairs left after an expiry about one principal do not involve it. *)
Lemma unaffected_pairs (rs : list HandViewRequest) (gs : list HandViewGrant) reason p :
  reason = SeatRoleChanged p ∨ reason = MembershipLost p →
  (∀ a b, capability_of rs gs a b → affects_pair reason a b = false) →
  ∀ a b, capability_of rs gs a b → a ≠ p ∧ b ≠ p.
Proof using Type.
  intros Hreason Hall a b Hab. specialize (Hall a b Hab). unfold affects_pair in Hall.
  destruct Hreason as [-> | ->]; apply orb_false_iff in Hall as [H1 H2];
    by apply bool_decide_eq_false in H1, H2.
Qed.

(** ** The final event of a batch *)

Lemma feasible_seat_taken id st p m s : room_inv st → member st p = Some m → connected m = true →
  m_seat m = None → s < MAX_MEMBERS → s ∉ omap m_seat (members st) → st_phase st = Lobby →
  (∀ a b, capability_of (hand_requests st) (hand_grants st) a b → a ≠ p ∧ b ≠ p) →
  feasible id st [SeatTaken p s].
Proof using Type.
  intros Hinv (i & Hf & Hi & Hp)%member_find Hc Hs Hlt Hfree Hph Hcap.
  destruct (roster_member _ _ _ Hinv Hi) as [(? & ? & ? & ?) Hchat].
  eapply feasible_one; [intros prov _; cbn [apply_kind]; by eapply update_member_Ok| |done].
  eapply room_inv_seat; [done|exact Hi|done|done| |done| | |].
  - split_and!; [done|done| |done]. intros s' [= <-]. done.
  - intros s' [= <-]. done.
  - rewrite Hp. done.
  - by rewrite Hph.
Qed.

Lemma feasible_seat_released id st p m s : room_inv st → member st p = Some m → m_seat m = Some s →
  st_phase st = Lobby → (∀ a b, capability_of (hand_requests st) (hand_grants st) a b → a ≠ p ∧ b ≠ p) →
  feasible id st [SeatReleased p s].
Proof using Type.
  intros Hinv (i & Hf & Hi & Hp)%member_find Hs Hph Hcap.
  destruct (roster_member _ _ _ Hinv Hi) as [(? & ? & ? & ?) Hchat].
  eapply feasible_one; [intros prov _; cbn [apply_kind]; eapply update_member_Ok; [exact Hf|]| |done].
  - by rewrite bool_decide_eq_false_2 by auto.
  - eapply room_inv_seat; [done|exact Hi|done|done| |done|done| |by rewrite Hph].
    + by split_and!.
    + rewrite Hp. done.
Qed.

Lemma feasible_ready id st p m ready : room_inv st → member st p = Some m →
  (ready = true → connected m = true ∧ seated m = true) → (∀ d t, st_phase st ≠ Countdown d t) →
  feasible id st [ReadyChanged p ready].
Proof using Type.
  intros Hinv (i & Hf & Hi & Hp)%member_find Hr Hph.
  destruct (roster_member _ _ _ Hinv Hi) as [(? & ? & ? & ?) Hchat].
  eapply feasible_one; [intros prov _; cbn [apply_kind]; by eapply update_member_Ok| |done].
  eapply room_inv_insert; [done|exact Hi|done| |done|by intros d t ?%Hph].
  split_and!; [done|done|done|]. intros Ht. destruct (Hr Ht) as [?%bool_decide_eq_true ?%bool_decide_eq_true]. done.
Qed.

Lemma feasible_disconnect id st p m : room_inv st → member st p = Some m →
  (∀ d t, st_phase st = Countdown d t → m_seat m = None) → feasible id st [MemberDisconnected p].
Proof using Type.
  intros Hinv (i & Hf & Hi & Hp)%member_find Hph.
  destruct (roster_member _ _ _ Hinv Hi) as [(? & ? & ? & ?) Hchat].
  eapply feasible_one; [intros prov _; cbn [apply_kind]; by eapply update_member_Ok| |done].
  eapply room_inv_insert; [done|exact Hi|done|by split_and!|done|].
  intros d t Hd [s Hs]. rewrite (Hph d t Hd) in Hs. done.
Qed.

Lemma feasible_reconnect id st p m : room_inv st → member st p = Some m → feasible id st [MemberReconnected p].
Proof using Type.
  intros Hinv (i & Hf & Hi & Hp)%member_find.
  destruct (roster_member _ _ _ Hinv Hi) as [(? & ? & ? & Hr) Hchat].
  eapply feasible_one; [intros prov _; cbn [apply_kind]; by eapply update_member_Ok| |done].
  eapply room_inv_insert; [done|exact Hi|done| |done|].
  - split_and!; [done|done|done|]. intros Ht. split; [done|]. by apply Hr.
  - intros d t _ _. split; [done|by left].
Qed.

Lemma feasible_removed id st p m k : room_inv st → member st p = Some m → m_host m = false →
  (∀ a b, capability_of (hand_requests st) (hand_grants st) a b → a ≠ p ∧ b ≠ p) →
  (∀ d t, st_phase st = Countdown d t → m_seat m = None) → k = MemberLeft p ∨ k = MemberRemoved p →
  feasible id st [k].
Proof using Type.
  intros Hinv (i & Hf & Hi & Hp)%member_find Hh Hcap Hph Hk.
  apply (feasible_one id st k (with_members st (delete i (members st)))).
  - intros prov _. destruct Hk as [-> | ->]; cbn [apply_kind]; unfold apply_removed; rewrite Hf; cbn; by rewrite Hh.
  - eapply room_inv_remove; [done|exact Hi|done|by rewrite Hp|done].
  - done.
Qed.

Lemma feasible_advanced id st game scores terminal change g : room_inv st → st_phase st = Running g →
  feasible id st [GameAdvanced game scores terminal change].
Proof using Type.
  intros Hinv Hph prov Hprov. cbn [apply_kind]. unfold apply_advanced. rewrite Hph. eexists. split; [reflexivity|].
  split; [|split; [by left|done]]. apply room_inv_history, room_inv_phase; [done| |by destruct terminal].
  apply room_inv_epoch; [done|]. by rewrite Hph.
Qed.

Lemma feasible_chat id st p m text : room_inv st → member st p = Some m → (chat_count st + 1 < 2 ^ 64)%Z →
  chat_in_window st m && (CHAT_MESSAGES_PER_WINDOW <=? m_chat_messages_in_window m)%Z = false →
  feasible id st [ChatPosted p text].
Proof using Type.
  intros Hinv (i & Hf & Hi & Hp)%member_find Hcount Hrate.
  destruct (roster_member _ _ _ Hinv Hi) as [(? & ? & ? & ?) Hchat].
  pose proof (ri_counts _ Hinv) as (_ & Hc & _).
  unfold chat_in_window, chat_ok, CHAT_WINDOW_REVISIONS, CHAT_MESSAGES_PER_WINDOW in *.
  assert (∃ start n, (m ← (if (20 <=? saturating_sub (st_revision st) (m_chat_window_start_revision m))%Z
      then Ok (set_chat m (st_revision st) 0)
      else if (5 <=? m_chat_messages_in_window m)%Z then denied ChatRate else Ok m);
     n ← ok_or (checked 16 (m_chat_messages_in_window m + 1)) EventOrder;
     Ok (set_chat m (m_chat_window_start_revision m) n)) = Ok (E := SessionError E) (set_chat m start n) ∧
     (0 <= n <= 5)%Z) as (start_revision & n & Hm & Hn).
  { destruct (Z.leb_spec 20 (saturating_sub (st_revision st) (m_chat_window_start_revision m))) as [Hw|Hw].
    - exists (st_revision st), 1%Z. done.
    - rewrite (proj2 (Z.ltb_lt _ _) Hw) in Hrate. cbn [andb] in Hrate. rewrite Hrate. apply Z.leb_gt in Hrate.
      exists (m_chat_window_start_revision m), (m_chat_messages_in_window m + 1)%Z. cbn [mbind outcome_bind].
      assert (checked 16 (m_chat_messages_in_window m + 1) = Some (m_chat_messages_in_window m + 1)%Z) as ->
        by (apply checked_Some; unfold in_width; lia).
      split; [done|lia]. }
  assert (checked 64 (chat_count st + 1) = Some (chat_count st + 1)%Z) as Hcc.
  { apply checked_Some. unfold in_width. lia. }
  apply (feasible_one id st _ (with_chat_count (with_members st (<[i := set_chat m start_revision n]> (members st)))
    (chat_count st + 1)%Z)); [|  |done].
  - intros prov _. cbn [apply_kind]. unfold apply_chat.
    rewrite (update_member_Ok st p i m _ _ Hf Hm). cbn [mbind outcome_bind with_members chat_count]. by rewrite Hcc.
  - assert (room_inv (with_members st (<[i:=set_chat m start_revision n]> (members st)))) as [[R1 R2 R3 R4 R5] R6 R7 R8].
    { eapply room_inv_insert; [done|exact Hi|done|by split_and!|done|]. intros d t _ _. split; [done|by right]. }
    split; [by split|done|done|]. simpl in *. lia.
Qed.

Lemma feasible_requested id st p player : room_inv st → length (hand_requests st) < MAX_HAND_REQUESTS →
  (∀ r, r ∈ hand_requests st → hr_request_id r ≠ id ∧ hr_recipient r ≠ p) →
  (∀ g, g ∈ hand_grants st → hg_recipient g ≠ p) → pair_ok (members st) player p →
  feasible id st [HandViewRequested id player p].
Proof using Type.
  intros Hinv Hlen Hr Hg Hpair prov Hprov. cbn [apply_kind].
  rewrite (proj2 (Nat.leb_gt _ _) Hlen). eexists. split; [reflexivity|].
  pose proof Hinv as [[_ _ _ _ [C1 C2 C3 C4 C5 C6 C7 C8]] Hex _ (_ & _ & Hpe)].
  split_and!; [|simpl; intros r [? | ->%list_elem_of_singleton]%elem_of_app; [by left|by right]|done].
  apply room_inv_capabilities; [done| |done|].
  - split; try done.
    + rewrite length_app. simpl. lia.
    + intros r [Hin | ->%list_elem_of_singleton]%elem_of_app; auto.
    + rewrite fmap_app. apply NoDup_app. split; [done|]. split; [|apply NoDup_singleton].
      intros x (r & -> & Hin)%list_elem_of_fmap Hx%list_elem_of_singleton. by destruct (Hr r Hin).
    + rewrite fmap_app. apply NoDup_app. split; [done|]. split; [|apply NoDup_singleton].
      intros x (r & -> & Hin)%list_elem_of_fmap Hx%list_elem_of_singleton. by destruct (Hr r Hin).
  - intros r g [Hin | ->%list_elem_of_singleton]%elem_of_app Hgin; [auto|]. simpl. intros Heq. by apply (Hg g Hgin).
Qed.

(** Removing the first match of a list. *)
Lemma remove_first_Ok {A} (P : A → bool) l : existsb P l = true →
  ∃ i x, remove_first (E := E) P l = Ok (delete i l) ∧ l !! i = Some x ∧ P x = true.
Proof using Type.
  intros (x & Hx & Hp)%existsb_true. unfold remove_first. pose proof (position_spec P l) as Hs.
  destruct (position P l) as [i|].
  - destruct Hs as (y & Hy & Hpy & _). by exists i, y.
  - by rewrite Hs in Hp.
Qed.

Lemma NoDup_fmap_delete {A K} (key : A → K) l i x : l !! i = Some x → NoDup (key <$> l) →
  NoDup (key <$> delete i l) ∧ key x ∉ (key <$> delete i l).
Proof using Type.
  intros Hi Hnd. rewrite (delete_Permutation l i x Hi), fmap_cons, NoDup_cons in Hnd. by destruct Hnd.
Qed.

Lemma elem_of_delete {A} (l : list A) i x y : l !! i = Some x → y ∈ delete i l → y ∈ l.
Proof using Type. intros Hi Hy. rewrite (delete_Permutation l i x Hi). by right. Qed.

Lemma length_delete_le {A} (l : list A) i x : l !! i = Some x → length (delete i l) < length l.
Proof using Type. intros Hi. rewrite length_delete by done. apply lookup_lt_Some in Hi. lia. Qed.

Lemma feasible_denied id st request_id player p : room_inv st →
  existsb (is_request request_id player p) (hand_requests st) = true →
  feasible id st [HandViewDenied request_id player p].
Proof using Type.
  intros Hinv (i & x & Hrm & Hi & _)%remove_first_Ok prov Hprov. cbn [apply_kind]. rewrite Hrm.
  eexists. split; [reflexivity|].
  pose proof Hinv as [[_ _ _ _ [C1 C2 C3 C4 C5 C6 C7 C8]] Hex _ (_ & _ & Hpe)].
  pose proof (length_delete_le _ _ _ Hi).
  split_and!; [|simpl; intros r Hr; left; by eapply elem_of_delete|done].
  apply room_inv_capabilities; [done| |done|].
  - split; try done; [lia| | |].
    + intros r Hr. apply C3. by eapply elem_of_delete.
    + by apply (NoDup_fmap_delete _ _ _ _ Hi).
    + by apply (NoDup_fmap_delete _ _ _ _ Hi).
  - intros r g Hr Hg. apply Hex; [by eapply elem_of_delete|done].
Qed.

Lemma feasible_revoked id st player p epoch : room_inv st → (projection_epoch st + 1 < 2 ^ 64)%Z →
  existsb (is_grant player p epoch) (hand_grants st) = true →
  feasible id st [HandViewRevoked player p epoch].
Proof using Type.
  intros Hinv Hroom (i & x & Hrm & Hi & _)%remove_first_Ok prov Hprov. cbn [apply_kind]. rewrite Hrm.
  pose proof Hinv as [[_ _ _ _ [C1 C2 C3 C4 C5 C6 C7 C8]] Hex _ (_ & _ & Hpe)].
  assert (checked 64 (projection_epoch st + 1) = Some (projection_epoch st + 1)%Z) as Hc.
  { apply checked_Some. unfold in_width. lia. }
  cbn [mbind outcome_bind]. rewrite Hc. eexists. split; [reflexivity|].
  pose proof (length_delete_le _ _ _ Hi).
  split_and!; [|by auto|done].
  apply room_inv_capabilities; [done| |lia|].
  - split; try done; [lia| | |].
    + intros g Hg. apply C6. by eapply elem_of_delete.
    + intros g Hg. destruct (C7 g (elem_of_delete _ _ _ _ Hi Hg)). split; [done|lia].
    + by apply (NoDup_fmap_delete _ _ _ _ Hi).
  - intros r g Hr Hg. apply Hex; [done|by eapply elem_of_delete].
Qed.

Lemma feasible_granted id st request_id player p epoch : room_inv st → (projection_epoch st + 1 < 2 ^ 64)%Z →
  epoch = (projection_epoch st + 1)%Z → length (hand_grants st) < MAX_HAND_GRANTS →
  existsb (is_request request_id player p) (hand_requests st) = true →
  feasible id st [HandViewGranted request_id player p epoch].
Proof using Type.
  intros Hinv Hroom -> Hlen Hreq prov Hprov. cbn [apply_kind].
  pose proof Hinv as [[_ _ _ _ [C1 C2 C3 C4 C5 C6 C7 C8]] Hex _ (_ & _ & Hpe)].
  assert (saturating_add 64 (projection_epoch st) 1 = projection_epoch st + 1)%Z as Hsat.
  { unfold saturating_add, umax. lia. }
  rewrite Hsat, Z.eqb_refl, (proj2 (Nat.leb_gt _ _) Hlen). cbn [negb orb].
  destruct (remove_first_Ok _ _ Hreq) as (i & x & -> & Hi & Hx).
  unfold is_request in Hx. rewrite !andb_true_iff, !bool_decide_eq_true in Hx. destruct Hx as [[_ Hpl] Hrc].
  eexists. split; [reflexivity|].
  assert (∀ r, r ∈ delete i (hand_requests st) → r ∈ hand_requests st ∧ hr_recipient r ≠ p) as Hdel.
  { intros r Hr. split; [by eapply elem_of_delete|]. intros Heq.
    destruct (NoDup_fmap_delete hr_recipient _ _ _ Hi C5) as [_ Hn]. apply Hn, list_elem_of_fmap.
    exists r. split; [congruence|done]. }
  pose proof (length_delete_le _ _ _ Hi). pose proof (list_elem_of_lookup_2 _ _ _ Hi) as Hxin.
  split_and!; [|simpl; intros r Hr; left; by apply Hdel|done].
  apply room_inv_capabilities; [done| |lia|].
  - split.
    + lia.
    + rewrite length_app. simpl. lia.
    + intros r Hr. apply C3, Hdel, Hr.
    + by apply (NoDup_fmap_delete _ _ _ _ Hi).
    + by apply (NoDup_fmap_delete _ _ _ _ Hi).
    + intros g [Hin | ->%list_elem_of_singleton]%elem_of_app; [auto|]. simpl. rewrite <-Hpl, <-Hrc. auto.
    + intros g [Hin | ->%list_elem_of_singleton]%elem_of_app; simpl; [destruct (C7 g Hin); lia|lia].
    + rewrite fmap_app. apply NoDup_app. split; [done|]. split; [|apply NoDup_singleton].
      intros y (g & -> & Hin)%list_elem_of_fmap Hy%list_elem_of_singleton. simpl in Hy.
      apply (Hex x g); [done|done|congruence].
  - intros r g Hr [Hin | ->%list_elem_of_singleton]%elem_of_app; [apply Hex; [by apply Hdel|done]|].
    simpl. by apply Hdel.
Qed.
End Decide.
