(* ===== verification/SessionLog.v ===== *)
(** * From decisions to the log

    Every decision of the machine is a feasible batch, and applying a feasible
    batch extends the log by one complete record. *)

From stdpp Require Import base strings numbers option sets list.
From S2P Require Import Prelude Protocol SessionState SessionMachine SessionValid SessionPreserve SessionDecide.

Section Batch.
Context {G E : Type} `{EqDecision G} `{SessionGame G E}.
Context (payload_json : CommandPayload → option (list Z)) (blake3 : list Z → list Z).
Implicit Types (st next : SessionState G) (command : CommandEnvelope).

(** ** Decisions *)

(** The counters are not at the end of their 64-bit range. *)
Definition headroom st : Prop :=
  (st_revision st + 3 < 2 ^ 64 ∧ chat_count st + 1 < 2 ^ 64 ∧ projection_epoch st + 1 < 2 ^ 64)%Z.

(** A non-empty feasible batch of at most three events. *)
Definition good (id : CommandId) st (kinds : list (SessionEventKind G)) : Prop :=
  feasible (E := E) id st kinds ∧ 1 ≤ length kinds ≤ 3.

Lemma cancel_length st : length (cancel_countdown_first st) ≤ 1.
Proof using Type. unfold cancel_countdown_first. destruct (st_phase st); simpl; lia. Qed.

Lemma expire_length st reason : length (expire_capabilities_for st reason) ≤ 1.
Proof using Type. unfold expire_capabilities_for. destruct (_ || _)%bool; simpl; lia. Qed.

Lemma good_one id st k : feasible (E := E) id st [k] → good id st [k].
Proof using Type. intros Hf. split; [done|simpl; lia]. Qed.

Lemma member_of_members st st1 p : members st1 = members st → member st1 p = member st p.
Proof using Type. intros Hm. unfold member. by rewrite Hm. Qed.

(** A batch that first cancels a countdown, then expires a principal's
    capabilities, then ends with one event. *)
Lemma good_cancel_expire id st p reason k (cancel : bool) : room_inv st → headroom st →
  reason = SeatRoleChanged p ∨ reason = MembershipLost p →
  (∀ st1, room_inv st1 → members st1 = members st →
     st_phase st1 = (if cancel then match st_phase st with Countdown _ _ => Lobby | phase => phase end
                     else st_phase st) →
     (∀ a b, capability_of (hand_requests st1) (hand_grants st1) a b → a ≠ p ∧ b ≠ p) →
     feasible (E := E) id st1 [k]) →
  good id st ((if cancel then cancel_countdown_first st else []) ++ expire_capabilities_for st reason ++ [k]).
Proof using Type.
  intros Hinv (_ & _ & Hpe) Hreason Hk. pose proof (cancel_length st). pose proof (expire_length st reason).
  split; [|rewrite !length_app; destruct cancel; simpl; lia].
  assert (∀ st1, room_inv st1 → members st1 = members st → hand_requests st1 = hand_requests st →
    hand_grants st1 = hand_grants st → projection_epoch st1 = projection_epoch st →
    st_phase st1 = (if cancel then match st_phase st with Countdown _ _ => Lobby | phase => phase end
                    else st_phase st) →
    feasible (E := E) id st1 (expire_capabilities_for st reason ++ [k])) as Hrest.
  { intros st1 Hinv1 Hm Hr Hg Hp Hph. apply feasible_expire; [done|done|done|lia|].
    intros st2 Hinv2 Hm2 Hph2 Hcap. apply Hk; [done|congruence|congruence|].
    intros a b Hab. by eapply unaffected_pairs. }
  destruct cancel; [|by apply Hrest]. apply feasible_cancel; [done|]. intros st1 ? ? ? ? ? ?. by apply Hrest.
Qed.

Lemma decide_create_good st command kinds : room_inv st →
  decide_create (E := E) st command = Ok kinds → good (command_id command) st kinds.
Proof using Type.
  unfold decide_create, denied. intros Hinv. destruct (st_phase st) eqn:Hp; try done.
  destruct (st_host st) eqn:Hh; [done|]. intros [= <-]. apply good_one.
  pose proof Hinv as [[R1 R2 R3 R4 R5] R6 R7 R8]. unfold phase_ok in R3. rewrite Hp in R3.
  destruct R3 as (_ & _ & Hm). eapply feasible_one; [intros prov _; cbn [apply_kind]; by rewrite Hp| |done].
  assert (capabilities_ok [new_member (principal_id command) 1 true (st_revision st)] (projection_epoch st)
    (hand_requests st) (hand_grants st)) as Hcap.
  { eapply capabilities_keep; [exact R5|]. rewrite Hm. intros a b _. split; intros m Hin; by apply elem_of_nil in Hin. }
  split; [|done| |done].
  - split; simpl; rewrite ?Hm; simpl.
    + split; simpl; [unfold MAX_MEMBERS; lia| |apply NoDup_singleton|apply NoDup_nil_2].
      apply Forall_singleton. by split_and!.
    + done.
    + done.
    + split; [eexists; split_and!; [by left|done|done]|]. intros m ->%list_elem_of_singleton. done.
    + done.
  - simpl. rewrite Hm. intros m ->%list_elem_of_singleton. simpl. unfold CHAT_MESSAGES_PER_WINDOW. lia.
Qed.

Lemma decide_join_good st command invite kinds : room_inv st →
  decide_join (E := E) blake3 st command invite = Ok kinds → good (command_id command) st kinds.
Proof using Type.
  unfold decide_join, denied. intros Hinv Hd.
  assert (st_phase st ≠ Uninitialized) as Hu by (intros Hp; by rewrite Hp in Hd).
  pose proof (room_inv_epoch _ Hinv Hu) as He. pose proof Hinv as [[[_ _ _ _] R2 R3 R4 R5] R6 R7 R8].
  assert (∀ kinds', match st_phase st with Uninitialized | Closed => Err (Denied WrongPhase) | _ => kinds' end
    = Ok (E := SessionError E) kinds → kinds' = Ok kinds) as Hphase by (intros k; destruct (st_phase st); done).
  apply Hphase in Hd. inv_guard Hd. apply orb_false_iff in Hg as [Hnone%bool_decide_eq_false Hlen%Nat.leb_gt].
  destruct (list_find _ (invites st)) as [[index record]|] eqn:Hf; [|done].
  inv_guard Hd. apply orb_false_iff in Hg as [Hrev Hcon]. inv_guard Hd.
  apply bind_Ok in Hd as (j & (<- & _)%ok_or_Ok%checked_Some & [= <-]).
  apply list_find_Some in Hf as (Hi & _ & _). apply good_one.
  apply eq_None_not_Some, member_None in Hnone.
  set (st1 := with_invites st (<[index := consume_invite record]> (invites st))).
  eapply feasible_one with (next := with_members st1 (members st1 ++
    [new_member (principal_id command) (st_session_epoch st1) false (st_revision st1)])).
  - intros prov _. cbn [apply_kind]. unfold apply_joined. rewrite Nat2Z.id, Hi. cbn [ok_or mbind outcome_bind].
    by rewrite Hrev, Hcon.
  - assert (room_inv st1) as Hinv1 by (destruct Hinv as [[] ? ? ?]; by split).
    apply room_inv_join; done.
  - done.
Qed.

Lemma decide_take_seat_good st command seat kinds : room_inv st → headroom st →
  decide_take_seat (E := E) st command seat = Ok kinds → good (command_id command) st kinds.
Proof using Type.
  unfold decide_take_seat, denied, require_member. intros Hinv Hroom Hd. destruct (st_phase st) eqn:Hp; try done.
  inv_guard Hd. apply bind_Ok in Hd as (m & Hm%ok_or_Ok & Hd).
  inv_guard Hd. inv_guard Hd. inv_guard Hd. injection Hd as <-.
  apply negb_false_iff in Hg0. apply Nat.leb_gt in Hg. apply bool_decide_eq_false in Hg1, Hg2.
  apply (good_cancel_expire (command_id command) st (principal_id command)
           (SeatRoleChanged (principal_id command)) _ false); [done|done|by left|].
  intros st1 Hinv1 Hms Hph Hcap. eapply feasible_seat_taken; try done.
  - by rewrite (member_of_members st st1).
  - by apply eq_None_not_Some.
  - rewrite Hms. unfold seat_owner in Hg2. apply eq_None_not_Some, fmap_None, list_find_None in Hg2.
    rewrite Forall_forall in Hg2. intros (x & Hx & Hs)%list_elem_of_omap. by apply (Hg2 x).
  - by rewrite Hph.
Qed.

Lemma decide_release_seat_good st command kinds : room_inv st → headroom st →
  decide_release_seat (E := E) st command = Ok kinds → good (command_id command) st kinds.
Proof using Type.
  unfold decide_release_seat, denied, require_member. intros Hinv Hroom Hd.
  assert (∃ m seat, member st (principal_id command) = Some m ∧ m_seat m = Some seat ∧
    kinds = cancel_countdown_first st ++ expire_capabilities_for st (SeatRoleChanged (principal_id command)) ++
            [SeatReleased (principal_id command) seat] ∧
    match st_phase st with Countdown _ _ => Lobby | phase => phase end = Lobby) as (m & seat & Hm & Hs & -> & Hph).
  { destruct (st_phase st); try done; apply bind_Ok in Hd as (m & Hm%ok_or_Ok & Hd);
      apply bind_Ok in Hd as (seat & Hs%ok_or_Ok & [= <-]); by exists m, seat. }
  apply (good_cancel_expire (command_id command) st (principal_id command)
           (SeatRoleChanged (principal_id command)) _ true); [done|done|by left|].
  intros st1 Hinv1 Hms Hph1 Hcap. eapply feasible_seat_released; try done.
  - by rewrite (member_of_members st st1).
  - congruence.
Qed.

Lemma decide_ready_good st command ready kinds : room_inv st →
  decide_ready (E := E) st command ready = Ok kinds → good (command_id command) st kinds.
Proof using Type.
  unfold decide_ready, denied, require_member. intros Hinv Hd. inv_guard Hd.
  apply bind_Ok in Hd as (m & Hm%ok_or_Ok & Hd). inv_guard Hd. inv_guard Hd. injection Hd as <-.
  apply negb_false_iff in Hg, Hg0. pose proof (cancel_length st).
  split; [|rewrite length_app; destruct ready; simpl; lia].
  destruct ready; cbn [app].
  - apply andb_false_iff in Hg1 as [|Hc%negb_false_iff]; [done|].
    eapply feasible_ready; [done|exact Hm|done|]. intros d t Hp. by rewrite Hp in Hg.
  - apply feasible_cancel; [done|]. intros st1 Hinv1 Hms _ _ _ Hph.
    eapply feasible_ready; [done|by rewrite (member_of_members st st1)|done|].
    intros d t Hp. rewrite Hp in Hph. by destruct (st_phase st).
Qed.

Lemma decide_arm_good st deadline token id kinds : room_inv st →
  decide_arm_countdown (E := E) st deadline token = Ok kinds → good id st kinds.
Proof using Type.
  unfold decide_arm_countdown, denied. intros Hinv Hd. destruct (st_phase st) eqn:Hp; try done.
  inv_guard Hd. injection Hd as <-. apply good_one. apply countdown_ready_spec in Hg.
  eapply feasible_one; [by intros prov _| |done].
  assert (st_session_epoch st ≠ 0%Z) as He by (apply room_inv_epoch; [done|by rewrite Hp]).
  destruct Hinv as [[R1 R2 R3 R4 R5] R6 R7 R8]. split; [|done|done|done]. by split.
Qed.

Lemma decide_abort_good st id kinds : room_inv st →
  decide_abort_countdown (E := E) st = Ok kinds → good id st kinds.
Proof using Type.
  unfold decide_abort_countdown, denied. intros Hinv Hd. destruct (st_phase st) eqn:Hp; try done.
  injection Hd as <-. apply good_one.
  pose proof (feasible_cancel (E := E) id st [] Hinv) as Hf. unfold cancel_countdown_first in Hf. rewrite Hp in Hf.
  apply Hf. done.
Qed.

Lemma decide_expired_good st token id kinds : room_inv st →
  decide_countdown_expired (E := E) st token = Ok kinds → good id st kinds.
Proof using Type.
  unfold decide_countdown_expired, denied. intros Hinv Hd. destruct (st_phase st) eqn:Hp; try done.
  inv_guard Hd. apply bind_Ok in Hd as (seats & _ & Hd). apply bind_Ok in Hd as (game & _ & [= <-]).
  apply good_one. intros prov Hprov. cbn [apply_kind]. rewrite Hp. eexists. split; [reflexivity|].
  split; [|split; [by left|done]].
  apply (room_inv_history (clear_ready (with_phase st (Running game)))), room_inv_clear; [|done].
  apply room_inv_phase; [done| |done]. apply room_inv_epoch; [done|by rewrite Hp].
Qed.

Lemma decide_pause_good st id kinds : room_inv st → decide_pause (E := E) st = Ok kinds → good id st kinds.
Proof using Type.
  unfold decide_pause, denied. intros Hinv Hd. destruct (st_phase st) eqn:Hp; try done. injection Hd as <-.
  apply good_one. eapply feasible_one; [intros prov _; cbn [apply_kind]; by rewrite Hp| |done].
  apply room_inv_phase; [done| |done]. apply room_inv_epoch; [done|by rewrite Hp].
Qed.

Lemma decide_unpause_good st id kinds : room_inv st → decide_unpause (E := E) st = Ok kinds → good id st kinds.
Proof using Type.
  unfold decide_unpause, denied. intros Hinv Hd. destruct (st_phase st) eqn:Hp; try done. injection Hd as <-.
  apply good_one. eapply feasible_one; [intros prov _; cbn [apply_kind]; by rewrite Hp| |done].
  apply room_inv_phase; [done| |done]. apply room_inv_epoch; [done|by rewrite Hp].
Qed.

Lemma running_game_Ok st g : running_game (E := E) st = Ok g ↔ st_phase st = Running g.
Proof using Type. unfold running_game, denied. destruct (st_phase st); naive_solver. Qed.

Lemma transition_good st id g t change : room_inv st → headroom st → st_phase st = Running g →
  good id st (transition_event st t change).
Proof using Type.
  intros Hinv (_ & _ & Hpe) Hp. pose proof (expire_length st RoundBoundary). unfold transition_event.
  split; [|rewrite length_app; destruct (bool_decide _); simpl; lia].
  destruct (bool_decide _); cbn [app]; [|by eapply feasible_advanced].
  apply feasible_expire; try done. intros st1 Hinv1 _ Hph _. eapply feasible_advanced; [done|by rewrite Hph].
Qed.

Lemma decide_game_action_good st command action kinds : room_inv st → headroom st →
  decide_game_action (E := E) st command action = Ok kinds → good (command_id command) st kinds.
Proof using Type.
  unfold decide_game_action, denied. intros Hinv Hroom Hd.
  apply bind_Ok in Hd as (game & Hp%running_game_Ok & Hd). apply bind_Ok in Hd as (m & _ & Hd).
  apply bind_Ok in Hd as (seat & _ & Hd). apply bind_Ok in Hd as (turn & _ & Hd). inv_guard Hd.
  apply bind_Ok in Hd as (t & _ & [= <-]). by eapply transition_good.
Qed.

Lemma decide_chance_good st chance id kinds : room_inv st → headroom st →
  decide_chance (E := E) st chance = Ok kinds → good id st kinds.
Proof using Type.
  unfold decide_chance, denied. intros Hinv Hroom Hd.
  apply bind_Ok in Hd as (game & Hp%running_game_Ok & Hd). apply bind_Ok in Hd as (turn & _ & Hd). inv_guard Hd.
  apply bind_Ok in Hd as (t & _ & [= <-]). by eapply transition_good.
Qed.

Lemma decide_settle_good st id kinds : room_inv st → headroom st →
  decide_settle (E := E) st = Ok kinds → good id st kinds.
Proof using Type.
  unfold decide_settle, denied. intros Hinv Hroom Hd.
  apply bind_Ok in Hd as (game & Hp%running_game_Ok & Hd). apply bind_Ok in Hd as (turn & _ & Hd). inv_guard Hd.
  apply bind_Ok in Hd as (t & _ & [= <-]). by eapply transition_good.
Qed.

Lemma decide_chat_good st command text kinds : room_inv st → headroom st →
  decide_chat (E := E) st command text = Ok kinds → good (command_id command) st kinds.
Proof using Type.
  unfold decide_chat, denied, require_member. intros Hinv (_ & Hc & _) Hd.
  assert (∀ k, match st_phase st with Closed | Uninitialized => Err (Denied DClosed) | _ => k end
    = Ok (E := SessionError E) kinds → k = Ok kinds) as Hphase by (intros k; destruct (st_phase st); done).
  apply Hphase in Hd. apply bind_Ok in Hd as (m & Hm%ok_or_Ok & Hd). inv_guard Hd. injection Hd as <-.
  by eapply good_one, feasible_chat.
Qed.

Lemma decide_request_good st command player kinds : room_inv st →
  (∀ r, r ∈ hand_requests st → hr_request_id r ≠ command_id command) →
  decide_request_hand (E := E) st command player = Ok kinds → good (command_id command) st kinds.
Proof using Type.
  unfold decide_request_hand, denied, require_member. intros Hinv Hfresh Hd.
  assert (∀ k, match st_phase st with Running _ | Paused _ => k | _ => Err (Denied WrongPhase) end
    = Ok (E := SessionError E) kinds → k = Ok kinds) as Hphase by (intros k; destruct (st_phase st); done).
  apply Hphase in Hd. apply bind_Ok in Hd as (m & Hm%ok_or_Ok & Hd). inv_guard Hd.
  apply bind_Ok in Hd as (t & Ht%ok_or_Ok & Hd). inv_guard Hd. inv_guard Hd. injection Hd as <-.
  apply orb_false_iff in Hg as [_ Hs%bool_decide_eq_false], Hg0 as [_ Hts%negb_false_iff%bool_decide_eq_true].
  apply orb_false_iff in Hg1 as [[Hlen%Nat.leb_gt Hr]%orb_false_iff Hgr].
  pose proof (ro_principals _ _ (rk_roster _ (ri_ok _ Hinv))) as Hnd.
  apply member_spec in Hm as [Hm Hmp], Ht as [Ht Htp]; [|done..].
  apply good_one, feasible_requested; [done|done| | |].
  - intros r Hin. split; [auto|]. pose proof (proj1 (existsb_false _ _) Hr r Hin) as Hx.
    by apply bool_decide_eq_false in Hx.
  - intros g Hin. pose proof (proj1 (existsb_false _ _) Hgr g Hin) as Hx. by apply bool_decide_eq_false in Hx.
  - split; [|split; [by exists t|exists m; split_and!; [done|done|by apply eq_None_not_Some]]].
    intros ->. apply Hs. assert (m = t) as ->; [|done].
    assert (member st (principal_id command) = Some m) as E1 by (by apply member_spec).
    assert (member st (principal_id command) = Some t) as E2 by (by apply member_spec). congruence.
Qed.

Lemma decide_grant_good st command request_id player p epoch kinds : room_inv st → headroom st →
  decide_grant_hand (E := E) st command request_id player p epoch = Ok kinds → good (command_id command) st kinds.
Proof using Type.
  unfold decide_grant_hand, denied. intros Hinv (_ & _ & Hpe) Hd. inv_guard Hd.
  apply bind_Ok in Hd as (o & _ & Hd). apply bind_Ok in Hd as (v & _ & Hd). inv_guard Hd. injection Hd as <-.
  rewrite !orb_false_iff, !negb_false_iff, Nat.leb_gt, Z.eqb_eq in Hg. destruct Hg as [[[_ Hlen] ->] Hr].
  apply good_one, feasible_granted; try done.
  pose proof (ri_counts _ Hinv). unfold saturating_add, umax. lia.
Qed.

Lemma decide_deny_good st command request_id player p kinds : room_inv st →
  decide_deny_hand (E := E) st command request_id player p = Ok kinds → good (command_id command) st kinds.
Proof using Type.
  unfold decide_deny_hand, denied. intros Hinv Hd. inv_guard Hd. injection Hd as <-.
  apply orb_false_iff in Hg as [_ Hr%negb_false_iff]. by apply good_one, feasible_denied.
Qed.

Lemma decide_revoke_good st command player p epoch kinds : room_inv st → headroom st →
  decide_revoke_hand (E := E) st command player p epoch = Ok kinds → good (command_id command) st kinds.
Proof using Type.
  unfold decide_revoke_hand, denied. intros Hinv (_ & _ & Hpe) Hd. inv_guard Hd. injection Hd as <-.
  apply orb_false_iff in Hg as [_ Hr%negb_false_iff]. by apply good_one, feasible_revoked.
Qed.

Lemma decide_reconnect_good st command kinds : room_inv st →
  decide_reconnect (E := E) st command = Ok kinds → good (command_id command) st kinds.
Proof using Type.
  unfold decide_reconnect, denied, require_member. intros Hinv Hd. apply bind_Ok in Hd as (m & Hm%ok_or_Ok & Hd).
  inv_guard Hd. injection Hd as <-. by eapply good_one, feasible_reconnect.
Qed.

Lemma decide_close_good st id kinds : room_inv st → st_phase st ≠ Uninitialized →
  decide_close (E := E) st = Ok kinds → good id st kinds.
Proof using Type.
  unfold decide_close, denied. intros Hinv Hu Hd.
  assert (kinds = [RoomClosed]) as -> by (destruct (st_phase st); naive_solver).
  apply good_one. eapply feasible_one; [by intros prov _| |done].
  apply room_inv_clear; [|done]. apply room_inv_phase; [done| |done]. by apply room_inv_epoch.
Qed.

(** The end of a membership. *)
Lemma good_member_end st id p m k : room_inv st → headroom st → member st p = Some m → m_host m = false →
  k = MemberLeft p ∨ k = MemberRemoved p →
  good id st ((if seated m then cancel_countdown_first st else []) ++
              expire_capabilities_for st (MembershipLost p) ++ [k]).
Proof using Type.
  intros Hinv Hroom Hm Hh Hk. apply (good_cancel_expire id st p (MembershipLost p)); [done|done|by right|].
  intros st1 Hinv1 Hms Hph Hcap. eapply feasible_removed; [done|by rewrite (member_of_members st st1)|done|done| |done].
  intros d t Hp. rewrite Hp in Hph. unfold seated in Hph. case_bool_decide as Hs.
  - by destruct (st_phase st).
  - by apply eq_None_not_Some.
Qed.

Lemma decide_leave_good st command kinds : room_inv st → headroom st →
  decide_leave (E := E) st command = Ok kinds → good (command_id command) st kinds.
Proof using Type.
  unfold decide_leave, denied, require_member. intros Hinv Hroom Hd. apply bind_Ok in Hd as (m & Hm%ok_or_Ok & Hd).
  destruct (m_host m) eqn:Hh.
  - destruct (length (members st) =? 1); [|done]. apply decide_close_good; [done| |done]. intros Hp.
    pose proof (rk_phase _ (ri_ok _ Hinv)) as Hph. unfold phase_ok in Hph. rewrite Hp in Hph.
    destruct Hph as (_ & _ & Hnil). unfold member in Hm. by rewrite Hnil in Hm.
  - inv_guard Hd. injection Hd as <-. apply good_member_end; [done|done|done|done|by left].
Qed.

Lemma decide_remove_good st command target kinds : room_inv st → headroom st →
  decide_remove (E := E) st command target = Ok kinds → good (command_id command) st kinds.
Proof using Type.
  unfold decide_remove, denied, require_member. intros Hinv Hroom Hd. apply bind_Ok in Hd as (m & Hm%ok_or_Ok & Hd).
  inv_guard Hd. injection Hd as <-. apply orb_false_iff in Hg as [Hh _].
  apply good_member_end; [done|done|done|done|by right].
Qed.

Lemma decide_reset_good st id kinds : room_inv st → decide_reset (E := E) st = Ok kinds → good id st kinds.
Proof using Type.
  unfold decide_reset, denied. intros Hinv Hd. destruct (st_phase st) eqn:Hp; try done. injection Hd as <-.
  apply good_one. eapply feasible_one; [intros prov _; cbn [apply_kind]; by rewrite Hp| |done].
  apply (room_inv_clear (with_phase st Lobby)); [|done]. apply room_inv_phase; [done| |done].
  apply room_inv_epoch; [done|by rewrite Hp].
Qed.

Lemma decide_payload_good st command kinds : room_inv st → headroom st →
  (∀ r, r ∈ hand_requests st → hr_request_id r ≠ command_id command) →
  (payload command = CloseRoom → st_phase st ≠ Uninitialized) →
  decide_payload (E := E) blake3 st command = Ok kinds → good (command_id command) st kinds.
Proof using Type.
  intros Hinv Hroom Hfresh Hclose Hd. unfold decide_payload in Hd. destruct (payload command) eqn:Hpl.
  - by apply decide_create_good.
  - by eapply decide_join_good.
  - by eapply decide_take_seat_good.
  - by eapply decide_release_seat_good.
  - by eapply decide_ready_good.
  - by eapply decide_ready_good.
  - by eapply decide_arm_good.
  - by eapply decide_abort_good.
  - by eapply decide_expired_good.
  - by eapply decide_pause_good.
  - by eapply decide_unpause_good.
  - by eapply decide_game_action_good.
  - by eapply decide_chance_good.
  - by eapply decide_settle_good.
  - by eapply decide_chat_good.
  - by eapply decide_request_good.
  - by eapply decide_grant_good.
  - by eapply decide_deny_good.
  - by eapply decide_revoke_good.
  - by eapply decide_reconnect_good.
  - by eapply decide_leave_good.
  - by eapply decide_remove_good.
  - by eapply decide_reset_good.
  - by eapply decide_close_good; auto.
Qed.
End Batch.

(** ** The processed-command log
    Applying the events of a decided batch appends one complete record to the
    log; applying them again changes nothing. *)

Section Log.
Context {G E : Type} `{EqDecision G} `{SessionGame G E}.
Context (payload_json : CommandPayload → option (list Z)) (blake3 : list Z → list Z).
Implicit Types (st next : SessionState G) (command : CommandEnvelope).

Record session_inv st : Prop := {
  si_room : room_inv st;
  si_log : log_ok (processed_commands st);
  si_requests : ∀ r, r ∈ hand_requests st → hr_request_id r ∈ (pc_command_id <$> processed_commands st);
}.

Lemma session_inv_validate st : session_inv st → validate st = Ok tt.
Proof using Type. intros [Hr Hl _]. apply validate_valid. split; [by apply Hr|done]. Qed.

(** ** One record in progress *)

(** The events [evs] of a batch have been applied to a state with log [base]. *)
Definition batch_log (base : list (ProcessedCommand G)) (id : CommandId) (hash : SemanticHash)
    (decision : PolicyDecision) (evs : list (SessionEvent G)) : list (ProcessedCommand G) :=
  match evs with
  | [] => base
  | _ => base ++ [{| pc_command_id := id; pc_command_hash := hash; pc_decision := decision; pc_events := evs |}]
  end.

Definition stamped (id : CommandId) (hash : SemanticHash) (decision : PolicyDecision) (revision : Z)
    (evs : list (SessionEvent G)) : Prop :=
  ∀ i e, evs !! i = Some e →
    ep_command_id (ev_provenance e) = id ∧ ep_command_hash (ev_provenance e) = hash ∧
    ep_decision (ev_provenance e) = decision ∧ ep_base_revision (ev_provenance e) = revision ∧
    ep_event_index (ev_provenance e) = Z.of_nat i.

Lemma batch_log_ok base id hash decision revision evs : log_ok base → id ∉ (pc_command_id <$> base) →
  stamped id hash decision revision evs → log_ok (batch_log base id hash decision evs).
Proof using Type.
  intros [Hr Hn] Hid Hst. unfold batch_log. destruct evs as [|e evs]; [by split|]. split.
  - apply Forall_app. split; [done|]. apply Forall_singleton. intros i x Hx.
    destruct (Hst i x Hx) as (? & ? & _ & _ & ?). done.
  - rewrite fmap_app. apply NoDup_app. split; [done|]. split; [|apply NoDup_singleton].
    intros x Hx ->%list_elem_of_singleton. done.
Qed.

Lemma find_record_fresh st id : id ∉ (pc_command_id <$> processed_commands st) → find_record st id = None.
Proof using Type.
  intros Hid. apply list_find_None, Forall_forall. intros r Hr Heq. apply Hid, list_elem_of_fmap. by exists r.
Qed.

Lemma find_record_None st id : find_record st id = None → id ∉ (pc_command_id <$> processed_commands st).
Proof using Type.
  intros Hf. apply list_find_None in Hf. rewrite Forall_forall in Hf. intros (r & -> & Hr)%list_elem_of_fmap.
  by apply (Hf r).
Qed.

Lemma find_record_last st base record : processed_commands st = base ++ [record] →
  pc_command_id record ∉ (pc_command_id <$> base) →
  find_record st (pc_command_id record) = Some (length base, record).
Proof using Type.
  intros Hl Hid. unfold find_record. rewrite Hl. apply list_find_Some. split.
  - rewrite lookup_app_r by done. by rewrite Nat.sub_diag.
  - split; [done|]. intros j r Hj Hlt. rewrite lookup_app_l in Hj by done. intros Heq. apply Hid, list_elem_of_fmap.
    exists r. split; [done|]. by eapply list_elem_of_lookup_2.
Qed.

(** The next event of a batch: accepted, logged, and the invariant is kept. *)
Lemma apply_next st base id hash decision revision evs k e next :
  session_inv st → log_ok base → id ∉ (pc_command_id <$> base) →
  processed_commands st = batch_log base id hash decision evs →
  stamped id hash decision revision (evs ++ [e]) → ev_kind e = k →
  st_revision st = (revision + Z.of_nat (length evs))%Z → (0 <= revision)%Z → (st_revision st + 1 < 2 ^ 64)%Z →
  apply_kind (E := E) st k (ev_provenance e) = Ok next → room_inv next →
  (∀ r, r ∈ hand_requests next → r ∈ hand_requests st ∨ hr_request_id r = id) →
  let st' := with_log next (st_revision st + 1) (batch_log base id hash decision (evs ++ [e])) in
  apply (E := E) st e = Ok st' ∧ session_inv st'.
Proof using Type.
  intros Hinv Hbase Hid Hlog Hst Hk Hrev Hrev0 Hroom Happly Hnext Hreq st'.
  destruct (apply_kind_frame _ _ _ _ Happly) as (Hr' & Hp' & _).
  assert (session_inv st') as Hinv'.
  { split; [by apply room_inv_log; [|lia]|by eapply batch_log_ok|].
    intros r [Hin|Heq]%Hreq; simpl.
    - apply (si_requests _ Hinv) in Hin. rewrite Hlog in Hin. unfold batch_log in *.
      destruct evs as [|e0 evs]; simpl; [set_solver|]. rewrite fmap_app in Hin |- *. exact Hin.
    - rewrite Heq. unfold batch_log. destruct (evs ++ [e]) as [|e0 l] eqn:E1; [by destruct evs|].
      rewrite fmap_app. set_solver. }
  split; [|done].
  destruct (Hst (length evs) e) as (Hei & Heh & Hed & Heb & Hex); [by rewrite lookup_app_r, Nat.sub_diag|].
  assert (∀ idx, (match idx with
      | Some index => alter (append_event e) index (processed_commands next)
      | None => processed_commands next ++ [new_record e]
      end) = batch_log base id hash decision (evs ++ [e]) →
    apply_new (E := E) st e idx = Ok st') as Hnew.
  { intros idx Hidx. unfold apply_new. rewrite Heb, Hex, <-Hrev.
    assert (checked 64 (st_revision st) = Some (st_revision st)) as -> by (apply checked_Some; unfold in_width; lia).
    cbn [ok_or mbind outcome_bind]. rewrite Z.eqb_refl. cbn [negb]. rewrite Hk, Happly. cbn [mbind outcome_bind].
    assert (checked 64 (st_revision next + 1) = Some (st_revision st + 1)%Z) as ->
      by (apply checked_Some; unfold in_width; lia).
    cbn [ok_or mbind outcome_bind]. rewrite Hidx. fold st'. by rewrite (session_inv_validate _ Hinv'). }
  unfold apply. rewrite (session_inv_validate _ Hinv). cbn [lift_invariant map_err mbind outcome_bind].
  rewrite Hei. destruct evs as [|e0 evs].
  - cbn [batch_log] in Hlog. rewrite find_record_fresh by (by rewrite Hlog). rewrite Hex. cbn.
    apply Hnew. rewrite Hp', Hlog. cbn. unfold new_record. by rewrite Hei, Heh, Hed.
  - cbn [batch_log] in Hlog. pose proof (find_record_last st base _ Hlog Hid) as Hf. cbn [pc_command_id] in Hf.
    rewrite Hf. cbn [pc_command_hash pc_events pc_decision]. rewrite bool_decide_eq_false_2 by auto.
    rewrite Hex, Nat2Z.id. rewrite lookup_ge_None_2 by done. rewrite Z.eqb_refl.
    rewrite bool_decide_eq_false_2 by auto. cbn [negb orb]. apply Hnew. rewrite Hp', Hlog.
    rewrite alter_app_r_alt by done. rewrite Nat.sub_diag. done.
Qed.

(** ** Whole batches *)

Lemma mapM_stamp_cons id hash principal correlation revision decision off k kinds (events : list (SessionEvent G)) :
  mapM (stamp (E := E) id hash principal correlation revision decision) (imap (λ i, pair (off + i)) (k :: kinds)) = Ok events →
  ∃ e rest, events = e :: rest ∧ ev_kind e = k ∧
    (ep_command_id (ev_provenance e) = id ∧ ep_command_hash (ev_provenance e) = hash ∧
     ep_decision (ev_provenance e) = decision ∧ ep_base_revision (ev_provenance e) = revision ∧
     ep_event_index (ev_provenance e) = Z.of_nat off) ∧
    mapM (stamp (E := E) id hash principal correlation revision decision) (imap (λ i, pair (S off + i)) kinds) = Ok rest.
Proof using Type.
  rewrite imap_cons. cbn [mapM]. intros (e & He & Hrest)%bind_Ok. apply bind_Ok in Hrest as (rest & Hrest & [= <-]).
  exists e, rest. split; [done|]. unfold stamp in He.
  apply bind_Ok in He as (j & (<- & _)%ok_or_Ok%checked_Some & [= <-]). cbn. rewrite Nat.add_0_r.
  split_and!; try done. erewrite imap_ext; [exact Hrest|]. intros i x _. cbn. by rewrite Nat.add_succ_r.
Qed.

Lemma stamped_snoc id hash decision revision evs e : stamped id hash decision revision evs →
  ep_command_id (ev_provenance e) = id ∧ ep_command_hash (ev_provenance e) = hash ∧
  ep_decision (ev_provenance e) = decision ∧ ep_base_revision (ev_provenance e) = revision ∧
  ep_event_index (ev_provenance e) = Z.of_nat (length evs) →
  stamped id hash decision revision (evs ++ [e]).
Proof using Type.
  intros Hst He i x Hx. apply lookup_app_Some in Hx as [Hx|[Hlen Hx]]; [by apply Hst|].
  apply list_lookup_singleton_Some in Hx as [Hi <-]. assert (i = length evs) as -> by lia. done.
Qed.

(** Applying a feasible batch from where it stands. *)
Lemma apply_batch base id hash principal correlation revision decision :
  log_ok base → id ∉ (pc_command_id <$> base) → (0 <= revision)%Z →
  ∀ kinds evs st events, session_inv st → processed_commands st = batch_log base id hash decision evs →
  stamped id hash decision revision evs → st_revision st = (revision + Z.of_nat (length evs))%Z →
  (st_revision st + Z.of_nat (length kinds) < 2 ^ 64)%Z → feasible (E := E) id st kinds →
  mapM (stamp (E := E) id hash principal correlation revision decision) (imap (λ i, pair (length evs + i)) kinds) = Ok events →
  ∃ st', foldM (apply (E := E)) events st = Ok st' ∧ session_inv st' ∧
    processed_commands st' = batch_log base id hash decision (evs ++ events) ∧
    st_revision st' = (st_revision st + Z.of_nat (length kinds))%Z ∧ length events = length kinds ∧
    st_phase st' = foldl phase_after (st_phase st) kinds.
Proof using Type.
  intros Hbase Hid Hrev0. induction kinds as [|k kinds IH]; intros evs st events Hinv Hlog Hst Hrev Hroom Hf Hm.
  { cbn in Hm. injection Hm as <-. exists st. cbn. rewrite app_nil_r, Z.add_0_r. done. }
  apply mapM_stamp_cons in Hm as (e & rest & -> & Hk & He & Hm). destruct He as (He1 & He').
  destruct (Hf (ev_provenance e) He1) as (next & Happly & Hnext & Hreq & Hrest).
  cbn [length] in Hroom.
  pose proof (stamped_snoc _ _ _ _ _ e Hst (conj He1 He')) as Hst'.
  destruct (apply_next st base id hash decision revision evs k e next) as [Ha Hinv']; try done; [lia|].
  destruct (IH (evs ++ [e]) (with_log next (st_revision st + 1) (batch_log base id hash decision (evs ++ [e]))) rest)
    as (st' & Hfold & Hinv'' & Hlog' & Hrev' & Hlen & Hph); try done.
  - rewrite length_app. simpl. lia.
  - simpl. lia.
  - apply Hrest.
  - rewrite length_app. simpl. rewrite Nat.add_1_r. exact Hm.
  - exists st'. rewrite foldM_cons, Ha. cbn [mbind outcome_bind]. rewrite <-app_assoc in Hlog'.
    destruct (apply_kind_frame _ _ _ _ Happly) as (_ & _ & Hph1).
    split_and!; [done|done|done| |simpl; lia|by rewrite Hph; simpl; rewrite Hph1]. rewrite Hrev'. simpl. lia.
Qed.

(** Events already in the log are absorbed. *)
Lemma apply_logged st i record j e : validate st = Ok tt → find_record st (pc_command_id record) = Some (i, record) →
  pc_events record !! j = Some e → apply (E := E) st e = Ok st.
Proof using Type.
  intros Hv Hf He. unfold apply. rewrite Hv. cbn [lift_invariant map_err mbind outcome_bind].
  pose proof (lo_records _ (proj2 (proj1 (validate_valid st) Hv))) as Hall. rewrite Forall_forall in Hall.
  pose proof Hf as (Hi & _ & _)%list_find_Some.
  destruct (Hall record (list_elem_of_lookup_2 _ _ _ Hi) j e He) as (Hid & Hh & Hx).
  rewrite Hid, Hf, bool_decide_eq_false_2 by auto. rewrite Hx, Nat2Z.id, He. by rewrite bool_decide_eq_true_2.
Qed.

Lemma foldM_logged st i record evs : validate st = Ok tt → find_record st (pc_command_id record) = Some (i, record) →
  (∀ e, e ∈ evs → e ∈ pc_events record) → foldM (apply (E := E)) evs st = Ok st.
Proof using Type.
  intros Hv Hf. induction evs as [|e evs IH]; intros Hsub; [done|]. cbn [foldM].
  destruct (proj1 (list_elem_of_lookup _ _) (Hsub e (list_elem_of_here _ _))) as [j Hj].
  rewrite (apply_logged st i record j e Hv Hf Hj). cbn [mbind outcome_bind]. apply IH.
  intros x Hx. apply Hsub. by right.
Qed.

Lemma find_record_id st id i record : find_record st id = Some (i, record) → pc_command_id record = id.
Proof using Type. intros (_ & ? & _)%list_find_Some. done. Qed.

(** What a decided batch does to the session. *)
Definition batch_outcome st (authorized : AuthorizedCommand) (events : list (SessionEvent G)) st' : Prop :=
  let id := command_id (ac_command authorized) in
  match find_record st id with
  | Some _ => st' = st
  | None =>
      events ≠ [] ∧ st_revision st' = (st_revision st + Z.of_nat (length events))%Z ∧
      ∃ hash, semantic_hash payload_json blake3 (ac_command authorized) = Ok hash ∧
        processed_commands st' = processed_commands st ++
          [{| pc_command_id := id; pc_command_hash := hash; pc_decision := ac_decision authorized;
              pc_events := events |}] ∧
        ∃ kinds, decide_payload (E := E) blake3 st (ac_command authorized) = Ok kinds ∧
          st_phase st' = foldl phase_after (st_phase st) kinds
  end.

(** Every decided batch is applied to the end. *)
Lemma decide_apply st authorized events : session_inv st → headroom st →
  (find_record st (command_id (ac_command authorized)) = None →
   payload (ac_command authorized) = CloseRoom → st_phase st ≠ Uninitialized) →
  decide (E := E) payload_json blake3 st authorized = Ok events →
  ∃ st', foldM (apply (E := E)) events st = Ok st' ∧ session_inv st' ∧ batch_outcome st authorized events st'.
Proof using Type.
  intros Hinv Hroom Hclose Hd. unfold decide in Hd. rewrite (session_inv_validate _ Hinv) in Hd.
  cbn [lift_invariant map_err mbind outcome_bind] in Hd.
  apply bind_Ok in Hd as (hash & Hhash%map_err_Ok & Hd). unfold batch_outcome.
  destruct (find_record st (command_id (ac_command authorized))) as [[i record]|] eqn:Hf.
  - destruct (bool_decide _); [|done]. injection Hd as <-. exists st. split_and!; [|done|done].
    pose proof (find_record_id _ _ _ _ Hf) as Hid. rewrite <-Hid in Hf.
    by eapply foldM_logged; [apply session_inv_validate|..].
  - pose proof (find_record_None _ _ Hf) as Hid. inv_guard Hd.
    apply bind_Ok in Hd as (kinds & Hk & Hm).
    destruct (decide_payload_good blake3 st (ac_command authorized) kinds) as [Hfeas Hlen]; try done.
    { by apply Hinv. }
    { intros r Hr Heq. apply Hid. rewrite <-Heq. by apply Hinv. }
    { by apply Hclose. }
    pose proof (ri_counts _ (si_room _ Hinv)) as (Hrev & _). destruct Hroom as [Hroom _].
    destruct (apply_batch (processed_commands st) (command_id (ac_command authorized)) hash
      (principal_id (ac_command authorized)) (correlation_id (ac_command authorized)) (st_revision st)
      (ac_decision authorized) (si_log _ Hinv) Hid Hrev kinds [] st events)
      as (st' & Hfold & Hinv' & Hlog & Hrev' & Hlen' & Hph); try done.
    { simpl. lia. }
    { lia. }
    cbn [app] in Hlog. exists st'. split; [done|]. split; [done|].
    destruct events as [|e events]; [simpl in Hlen'; lia|]. split; [done|]. split; [by rewrite Hlen'|].
    exists hash. split; [done|]. split; [done|]. by exists kinds.
Qed.

(** A room that was never created cannot be closed: the decision is taken, but
    the event is refused by the final validation. *)
Lemma close_uninitialized st authorized events : session_inv st → headroom st →
  st_phase st = Uninitialized → payload (ac_command authorized) = CloseRoom →
  find_record st (command_id (ac_command authorized)) = None →
  decide (E := E) payload_json blake3 st authorized = Ok events →
  foldM (apply (E := E)) events st = Err (Invariant InvalidPhaseData).
Proof using Type.
  intros Hinv Hroom Hp Hpl Hf Hd. unfold decide in Hd. rewrite (session_inv_validate _ Hinv), Hf in Hd.
  cbn [lift_invariant map_err mbind outcome_bind] in Hd.
  apply bind_Ok in Hd as (hash & _ & Hd). inv_guard Hd.
  unfold decide_payload in Hd. rewrite Hpl in Hd. unfold decide_close in Hd. rewrite Hp in Hd.
  cbn [mbind outcome_bind] in Hd. apply (mapM_stamp_cons _ _ _ _ _ _ 0) in Hd as (e & rest & -> & Hk & He & Hrest).
  cbn in Hrest. injection Hrest as <-. destruct He as (He1 & He2 & He3 & He4 & He5).
  cbn [foldM]. unfold apply. rewrite (session_inv_validate _ Hinv). cbn [lift_invariant map_err mbind outcome_bind].
  rewrite He1, Hf, He5. cbn [Z.of_nat Z.eqb negb]. unfold apply_new. rewrite He4, He5, Z.add_0_r, Hk.
  pose proof (ri_counts _ (si_room _ Hinv)) as (Hrev & _). destruct Hroom as [Hroom _].
  assert (checked 64 (st_revision st) = Some (st_revision st)) as -> by (apply checked_Some; unfold in_width; lia).
  cbn [ok_or mbind outcome_bind]. rewrite Z.eqb_refl. cbn [negb apply_kind mbind outcome_bind].
  assert (checked 64 (st_revision (clear_ready (with_phase st Closed)) + 1) = Some (st_revision st + 1)%Z) as ->
    by (apply checked_Some; unfold in_width; simpl; lia).
  cbn [ok_or mbind outcome_bind]. set (records := processed_commands _ ++ _).
  pose proof (si_room _ Hinv) as [[_ Hpol Hph _ [Hc1 Hc2 _ _ _ _ _ _]] _ _ _]. unfold phase_ok in Hph. rewrite Hp in Hph.
  destruct Hph as (Hep & _ & Hms).
  assert (validate (with_log (clear_ready (with_phase st Closed)) (st_revision st + 1) records) = Err InvalidPhaseData)
    as ->; [|by rewrite Z.eqb_refl].
  unfold validate, clear_ready.
  cbn [with_members with_phase with_log members hand_requests hand_grants policies st_session_epoch].
  rewrite Hms. cbn [fmap list_fmap length]. rewrite (proj2 (Nat.ltb_ge _ _) Hc1), (proj2 (Nat.ltb_ge _ _) Hc2).
  cbn [validate_member_list mbind outcome_bind orb].
  assert (validate_list (λ _ : PolicyRule, true) policy_clash InvalidPolicy (policies st) = Ok tt) as ->.
  { apply validate_list_spec. split; [done|]. by apply (later_pair_key rule_policy_id). }
  cbn [mbind outcome_bind]. unfold validate_phase. simpl. by rewrite Hep.
Qed.
End Log.
