(* ===== verification/SessionTheorems.v ===== *)
(** * Lemmas about the session machine

    Policy evaluation, the cases of [apply], and the states an authority goes
    through; then what an event leaves alone. *)

From Stdlib Require Import Ascii.
From stdpp Require Import base strings numbers option sets list sorting.
From S2P Require Import Prelude Protocol SessionState SessionMachine SessionValid SessionPreserve SessionDecide SessionLog.

(** ** The order of policy rules *)

Lemma ascii_compare_trans a b c : Ascii.compare a b = Lt → Ascii.compare b c = Lt → Ascii.compare a c = Lt.
Proof. unfold Ascii.compare. rewrite !N.compare_lt_iff. apply N.lt_trans. Qed.

Lemma ascii_compare_refl a : Ascii.compare a a = Eq.
Proof. unfold Ascii.compare. by rewrite N.compare_eq_iff. Qed.

Lemma string_leb_trans s1 s2 s3 : String.leb s1 s2 = true → String.leb s2 s3 = true → String.leb s1 s3 = true.
Proof.
  unfold String.leb. revert s2 s3. induction s1 as [|a s1 IH]; intros [|b s2] [|c s3]; simpl; try done.
  destruct (Ascii.compare a b) eqn:E1; [|destruct (Ascii.compare b c) eqn:E2|done].
  - apply Ascii.compare_eq_iff in E1 as ->. destruct (Ascii.compare b c); [|done..]. apply IH.
  - apply Ascii.compare_eq_iff in E2 as ->. by rewrite E1.
  - by rewrite (ascii_compare_trans a b c).
  - done.
Qed.

Lemma rule_le_total x y : rule_le x y = false → rule_le y x = true.
Proof.
  unfold rule_le. intros Hf. apply orb_false_iff in Hf as [H1 H2]. apply orb_true_iff. apply Z.ltb_ge in H1.
  destruct (Z.eqb_spec (rule_priority y) (rule_priority x)) as [Heq|Hne].
  - right. rewrite Heq, Z.eqb_refl. cbn [andb] in *.
    destruct (String.leb_total (rule_policy_id x) (rule_policy_id y)); congruence.
  - left. apply Z.ltb_lt. lia.
Qed.

Lemma rule_le_trans x y z : rule_le x y = true → rule_le y z = true → rule_le x z = true.
Proof.
  unfold rule_le. rewrite !orb_true_iff, !andb_true_iff, !Z.ltb_lt, !Z.eqb_eq.
  intros [H1|[H1 L1]] [H2|[H2 L2]]; [left; lia|left; lia|left; lia|right].
  split; [lia|]. by eapply string_leb_trans.
Qed.

(** Filtering commutes with a stable sort. *)
Lemma filter_sort_by {A} (le : A → A → bool) (P : A → bool) l :
  (∀ x y, le x y = false → le y x = true) → (∀ x y z, le x y = true → le y z = true → le x z = true) →
  List.filter P (sort_by le l) = sort_by le (List.filter P l).
Proof.
  intros Htot Htr.
  assert (∀ x l, StronglySorted (λ x y, le x y = true) l →
    List.filter P (insert_by le x l) = if P x then insert_by le x (List.filter P l) else List.filter P l) as Hins.
  { clear l. intros x l Hs. induction Hs as [|y l Hs IH Hy]; cbn [insert_by List.filter]; [by destruct (P x)|].
    destruct (le x y) eqn:Hxy.
    - assert (∀ l', (∀ z, z ∈ l' → le x z = true) → insert_by le x l' = x :: l') as Hfront.
      { intros [|z l'] Hz; [done|]. cbn [insert_by]. by rewrite (Hz z) by left. }
      change (List.filter P (x :: y :: l)) with
        (if P x then x :: List.filter P (y :: l) else List.filter P (y :: l)).
      destruct (P x); [|done]. symmetry. apply Hfront. intros z [Hz _]%elem_of_Filter.
      rewrite Forall_forall in Hy. apply elem_of_cons in Hz as [-> |Hz]; eauto.
    - cbn [List.filter]. destruct (P y) eqn:Hpy; rewrite IH; destruct (P x); try done.
      cbn [insert_by]. by rewrite Hxy. }
  induction l as [|x l IH]; [done|]. cbn [sort_by List.filter].
  rewrite Hins by (by apply sort_by_sorted). rewrite IH. by destruct (P x).
Qed.

(** ** Policy evaluation *)

Definition enforced_deny (rule : PolicyRule) : bool :=
  negb (rule_audit_only rule) && match rule_effect rule with EffectDeny _ => true | EffectAllow => false end.

Definition enforced_allow (rule : PolicyRule) : bool :=
  negb (rule_audit_only rule) && match rule_effect rule with EffectDeny _ => false | EffectAllow => true end.

(** The verdict without the evidence. *)
Definition verdict (d : PolicyDecision) : PolicyId + DenyReason * option PolicyId :=
  match d with Allow id _ => inl id | Deny reason id _ => inr (reason, id) end.

Definition enforced_result (r : PolicyResult) : bool := negb (result_audit_only r).

Lemma evaluate_rules baseline rules :
  foldl evaluate_rule ([baseline_result baseline], baseline, None) rules =
    (baseline_result baseline :: (rule_result <$> rules), baseline || existsb enforced_allow rules,
     (λ rule, (rule_policy_id rule, match rule_effect rule with EffectDeny r => r | EffectAllow => Malformed end)) <$>
       head (List.filter enforced_deny rules)).
Proof.
  induction rules as [|rule rules IH] using rev_ind; [by rewrite orb_false_r|].
  rewrite foldl_app, IH. cbn [foldl evaluate_rule]. rewrite fmap_app, List.filter_app, existsb_app.
  cbn [fmap list_fmap List.filter existsb].
  pose proof (eq_refl (enforced_allow rule)) as Ea. unfold enforced_allow at 2 in Ea.
  pose proof (eq_refl (enforced_deny rule)) as Ed. unfold enforced_deny at 2 in Ed.
  rewrite app_comm_cons. destruct (rule_audit_only rule), (rule_effect rule) as [|reason] eqn:He; cbn [negb andb] in *;
    rewrite Ea, Ed, ?app_nil_r, ?orb_false_r, ?orb_true_r; try done.
  destruct (List.filter enforced_deny rules); [|done]. cbn. by rewrite He.
Qed.

(** Audit-only rules change only the evidence. *)
Lemma policy_decision_audit baseline rules :
  verdict (policy_decision baseline rules) =
  verdict (policy_decision baseline (List.filter (λ rule, negb (rule_audit_only rule)) rules)).
Proof.
  unfold policy_decision. rewrite !evaluate_rules.
  assert (List.filter enforced_deny (List.filter (λ rule, negb (rule_audit_only rule)) rules) =
          List.filter enforced_deny rules) as ->.
  { induction rules as [|rule rules IH]; [done|]. cbn [List.filter].
    destruct (rule_audit_only rule) eqn:Ha; cbn [negb List.filter]; rewrite IH; [|done].
    assert (enforced_deny rule = false) as -> by (unfold enforced_deny; by rewrite Ha). done. }
  assert (existsb enforced_allow (List.filter (λ rule, negb (rule_audit_only rule)) rules) =
          existsb enforced_allow rules) as ->.
  { induction rules as [|rule rules IH]; [done|]. cbn [List.filter existsb].
    destruct (rule_audit_only rule) eqn:Ha; cbn [negb existsb]; rewrite IH; [|done].
    assert (enforced_allow rule = false) as -> by (unfold enforced_allow; by rewrite Ha). done. }
  destruct (head _); [done|]. cbn [fmap option_fmap option_map]. destruct (baseline || _)%bool; [|done].
  cbn [verdict]. f_equal. unfold winning_allow. cbn [List.filter].
  assert (List.filter (λ r, negb (result_audit_only r) && result_allowed r)
            (rule_result <$> List.filter (λ rule, negb (rule_audit_only rule)) rules) =
          List.filter (λ r, negb (result_audit_only r) && result_allowed r) (rule_result <$> rules)) as ->; [|done].
  induction rules as [|rule rules IH]; [done|]. cbn [List.filter fmap list_fmap].
  destruct (rule_audit_only rule) eqn:Ha; cbn [negb].
  - rewrite IH. assert (result_audit_only (rule_result rule) = true) as ->; [|done].
    unfold rule_result. by destruct (rule_effect rule).
  - cbn [fmap list_fmap List.filter]. by rewrite IH.
Qed.

Section Authorize.
Context {G E : Type} `{EqDecision G} `{SessionGame G E}.
Context (payload_json : CommandPayload → option (list Z)) (blake3 : list Z → list Z).
Implicit Types (st : SessionState G) (command : CommandEnvelope).

(** The rules of the room that apply to a command. *)
Definition relevant st command : list PolicyRule :=
  List.filter (λ rule, applies rule (principal_id command) (principal_kind st (principal_id command))
                         (kind (payload command))) (policies st).

(** The room without its audit-only rules. *)
Definition without_audit st : SessionState G :=
  {| st_room_id := st_room_id st; st_session_epoch := st_session_epoch st; st_revision := st_revision st;
     st_host := st_host st; authority_clock := authority_clock st; game_environment := game_environment st;
     st_phase := st_phase st; members := members st; invites := invites st;
     policies := List.filter (λ rule, negb (rule_audit_only rule)) (policies st);
     processed_commands := processed_commands st; chat_count := chat_count st;
     projection_epoch := projection_epoch st; hand_requests := hand_requests st;
     hand_grants := hand_grants st; public_history := public_history st |}.

Lemma authorize_without_audit st command :
  verdict (authorize payload_json blake3 st command) =
  verdict (authorize payload_json blake3 (without_audit st) command).
Proof using Type.
  unfold authorize. destruct (semantic_hash payload_json blake3 command) as [hash| |]; [|done..].
  change (structural_decision (without_audit st) command hash) with (structural_decision st command hash).
  change (principal_kind (without_audit st)) with (principal_kind st).
  change (baseline_allows (without_audit st)) with (baseline_allows st).
  destruct (structural_decision st command hash _ _); [done|].
  rewrite policy_decision_audit. do 2 f_equal. unfold applicable.
  rewrite filter_sort_by by (apply rule_le_total || apply rule_le_trans). f_equal. cbn [without_audit policies].
  induction (policies st) as [|rule rules IH]; [done|]. cbn [List.filter].
  destruct (applies rule _ _ _) eqn:Ea, (rule_audit_only rule) eqn:Eb; cbn [List.filter negb];
    rewrite ?Ea, ?Eb; cbn [negb]; by rewrite IH.
Qed.
End Authorize.

(** ** Applying one event *)

Section Sessions.
Context {G E : Type} `{EqDecision G} `{SessionGame G E}.
Context (payload_json : CommandPayload → option (list Z)) (blake3 : list Z → list Z).
Implicit Types (st : SessionState G) (e : SessionEvent G).

(** The event is in the log, at its index in the record of its command. *)
Definition logged st e : Prop :=
  ∃ i record, find_record st (ep_command_id (ev_provenance e)) = Some (i, record) ∧
    pc_command_hash record = ep_command_hash (ev_provenance e) ∧
    pc_events record !! Z.to_nat (ep_event_index (ev_provenance e)) = Some e.

Lemma find_record_log st st' i record record' id :
  find_record st id = Some (i, record) → pc_command_id record' = id →
  processed_commands st' = <[i := record']> (processed_commands st) → find_record st' id = Some (i, record').
Proof using Type.
  intros (Hi & Hid & Hmin)%list_find_Some Hid' Hl. unfold find_record. apply list_find_Some. rewrite Hl.
  pose proof (lookup_lt_Some _ _ _ Hi). split; [by apply list_lookup_insert_eq|]. split; [done|].
  intros j y Hj Hlt. rewrite list_lookup_insert_ne in Hj by lia. by eapply Hmin.
Qed.

(** What [apply] accepts: an event it has, or the next event. *)
Lemma apply_cases st e st' : (0 <= ep_event_index (ev_provenance e))%Z → apply (E := E) st e = Ok st' →
  validate st' = Ok tt ∧ logged st' e ∧
  (st' = st ∨
   st_revision st' = (st_revision st + 1)%Z ∧
   st_revision st = (ep_base_revision (ev_provenance e) + ep_event_index (ev_provenance e))%Z ∧
   match find_record st (ep_command_id (ev_provenance e)) with
   | Some (i, record) =>
       length (pc_events record) = Z.to_nat (ep_event_index (ev_provenance e)) ∧
       pc_decision record = ep_decision (ev_provenance e) ∧
       processed_commands st' = <[i := append_event e record]> (processed_commands st)
   | None =>
       ep_event_index (ev_provenance e) = 0%Z ∧ processed_commands st' = processed_commands st ++ [new_record e]
   end).
Proof using Type.
  intros Hidx Ha. unfold apply in Ha. apply bind_Ok in Ha as ([] & Hv%map_err_Ok & Ha).
  assert (∀ idx, apply_new (E := E) st e idx = Ok st' → validate st' = Ok tt ∧
    st_revision st' = (st_revision st + 1)%Z ∧
    st_revision st = (ep_base_revision (ev_provenance e) + ep_event_index (ev_provenance e))%Z ∧
    processed_commands st' = match idx with
      | Some i => alter (append_event e) i (processed_commands st)
      | None => processed_commands st ++ [new_record e]
      end) as Hnew.
  { intros idx Hn. unfold apply_new in Hn.
    apply bind_Ok in Hn as (x & (<- & _)%ok_or_Ok%checked_Some & Hn). inv_guard Hn.
    apply negb_false_iff, Z.eqb_eq in Hg.
    apply bind_Ok in Hn as (nx & Hk & Hn). apply bind_Ok in Hn as (r & (<- & _)%ok_or_Ok%checked_Some & Hn).
    apply bind_Ok in Hn as ([] & Hv'%map_err_Ok & [= <-]).
    destruct (apply_kind_frame _ _ _ _ Hk) as (Hr & Hp & _). split; [done|]. simpl. rewrite Hr, Hp. by destruct idx. }
  destruct (find_record st (ep_command_id (ev_provenance e))) as [[i record]|] eqn:Hf.
  - inv_guard Ha. apply bool_decide_eq_false, dec_stable in Hg.
    destruct (pc_events record !! Z.to_nat (ep_event_index (ev_provenance e))) as [x|] eqn:Hx.
    + case_bool_decide as Hxe; [|done]. injection Ha as <-. split; [done|]. split; [|by left].
      exists i, record. rewrite Hxe in Hx. done.
    + inv_guard Ha. apply orb_false_iff in Hg0 as [Hlen%negb_false_iff%Z.eqb_eq Hdec%bool_decide_eq_false%dec_stable].
      apply Hnew in Ha as (Hv' & Hr & Hb & Hp). split; [done|].
      pose proof Hf as (Hi & Hid & _)%list_find_Some.
      assert (processed_commands st' = <[i := append_event e record]> (processed_commands st)) as Hp'.
      { rewrite Hp. apply list_eq. intros j. destruct (Nat.eq_dec i j) as [->|Hne].
        - rewrite list_lookup_alter_eq, Hi. symmetry. apply list_lookup_insert_eq. by eapply lookup_lt_Some.
        - by rewrite list_lookup_alter_ne, list_lookup_insert_ne. }
      split.
      * exists i, (append_event e record). split; [by eapply find_record_log|]. split; [done|]. simpl.
        rewrite lookup_app_r by lia. replace (_ - _) with 0 by lia. done.
      * right. split_and!; [done|done|lia|done|done].
  - inv_guard Ha. apply negb_false_iff, Z.eqb_eq in Hg. apply Hnew in Ha as (Hv' & Hr & Hb & Hp). split; [done|]. split.
    + exists (length (processed_commands st)), (new_record e). split; [|split; [done|by rewrite Hg]].
      change (ep_command_id (ev_provenance e)) with (pc_command_id (new_record e)).
      apply find_record_last; [done|]. by apply find_record_None.
    + right. done.
Qed.

(** A logged event is absorbed, and the slot it holds is taken. *)
Lemma apply_logged_event st e e' : validate st = Ok tt → logged st e →
  ep_command_id (ev_provenance e') = ep_command_id (ev_provenance e) →
  ep_event_index (ev_provenance e') = ep_event_index (ev_provenance e) →
  apply (E := E) st e' = if bool_decide (e' = e) then Ok st else Err ConflictingCommandId.
Proof using Type.
  intros Hv (i & record & Hf & Hh & Hx) Hid Hidx. unfold apply. rewrite Hv. cbn [lift_invariant map_err mbind outcome_bind].
  rewrite Hid, Hf, Hidx, Hx. case_bool_decide as Hhash.
  - rewrite bool_decide_eq_false_2; [done|]. intros ->. congruence.
  - case_bool_decide as He; [by rewrite bool_decide_eq_true_2|]. by rewrite bool_decide_eq_false_2.
Qed.

(** ** Sessions *)

(** A room slot before its first command: the pending state, with any invites and
    any policies with distinct identifiers. *)
Definition fresh_room st : Prop :=
  ∃ room clock environment records ps, NoDup (rule_policy_id <$> ps) ∧
    st = {| st_room_id := room; st_session_epoch := 0; st_revision := 0; st_host := None;
            authority_clock := clock; game_environment := environment; st_phase := Uninitialized;
            members := []; invites := records; policies := ps; processed_commands := []; chat_count := 0;
            projection_epoch := 0; hand_requests := []; hand_grants := []; public_history := [] |}.

(** The states an authority goes through from [initial_room], serving commands and
    observing disconnections under new identifiers, as long as its counters are
    not exhausted. *)
Inductive served (initial_room : SessionState G) : SessionState G → Prop :=
  | served_initial : served initial_room initial_room
  | served_command st command st' disposition : served initial_room st → headroom st →
      serve_command (E := E) payload_json blake3 st command = Ok (st', disposition) → served initial_room st'
  | served_disconnect st p id st' : served initial_room st → headroom st → find_record st id = None →
      serve_disconnect (E := E) blake3 st p id = Ok st' → served initial_room st'.

Lemma fresh_room_inv st : fresh_room st → session_inv st.
Proof using Type.
  intros (room & clock & environment & records & ps & Hps & ->). split; [| |by intros r ?%elem_of_nil].
  - split; simpl; [|by intros r g ?%elem_of_nil|by intros m ?%elem_of_nil|lia].
    split; simpl; [|done|done|done|].
    + split; simpl; [unfold MAX_MEMBERS; lia|constructor|constructor|constructor].
    + split; simpl; try apply NoDup_nil_2; try lia; by intros ? ?%elem_of_nil.
  - split; [constructor|constructor].
Qed.

Lemma stamped_kinds id hash principal correlation revision decision off kinds (events : list (SessionEvent G)) :
  mapM (stamp (E := E) id hash principal correlation revision decision) (imap (λ i, pair (off + i)) kinds) = Ok events →
  ev_kind <$> events = kinds.
Proof using Type.
  revert off events. induction kinds as [|k kinds IH]; intros off events Hm; [by injection Hm as <-|].
  apply mapM_stamp_cons in Hm as (e & rest & -> & <- & _ & Hrest). cbn. f_equal. by eapply IH.
Qed.

(** The kinds of a new command's events are the decided ones. *)
Lemma decide_new st authorized events : decide (E := E) payload_json blake3 st authorized = Ok events →
  find_record st (command_id (ac_command authorized)) = None →
  ∃ kinds, decide_payload (E := E) blake3 st (ac_command authorized) = Ok kinds ∧ ev_kind <$> events = kinds.
Proof using Type.
  intros Hd Hf. unfold decide in Hd. apply bind_Ok in Hd as ([] & _ & Hd). apply bind_Ok in Hd as (hash & _ & Hd).
  rewrite Hf in Hd. inv_guard Hd. apply bind_Ok in Hd as (kinds & Hk & Hm). exists kinds. split; [done|].
  by apply (stamped_kinds _ _ _ _ _ _ 0) in Hm.
Qed.

(** The events a served input adds to the room, and its effect. *)
Record extends st (events : list (SessionEvent G)) st' : Prop := {
  ex_apply : foldM (apply (E := E)) events st = Ok st';
  ex_revision : st_revision st' = (st_revision st + Z.of_nat (length events))%Z;
  ex_phase : st_phase st' = foldl phase_after (st_phase st) (ev_kind <$> events);
  ex_records : ∃ records, processed_commands st' = processed_commands st ++ records ∧
    concat (pc_events <$> records) = events ∧ Forall (λ r, pc_events r ≠ []) records;
}.

Lemma extends_nil st : extends st [] st.
Proof using Type. split; [done|cbn; lia|done|]. exists []. by rewrite app_nil_r. Qed.

Lemma extends_log st events st' : extends st events st' →
  concat (pc_events <$> processed_commands st') = concat (pc_events <$> processed_commands st) ++ events.
Proof using Type. intros [_ _ _ (records & -> & <- & _)]. by rewrite fmap_app, concat_app. Qed.

Lemma extends_record st events st' record : foldM (apply (E := E)) events st = Ok st' →
  st_revision st' = (st_revision st + Z.of_nat (length events))%Z →
  st_phase st' = foldl phase_after (st_phase st) (ev_kind <$> events) →
  processed_commands st' = processed_commands st ++ [record] → pc_events record = events → events ≠ [] →
  extends st events st'.
Proof using Type.
  intros Hf Hr Hp Hl He Hne. split; [done..|]. exists [record]. cbn. rewrite He, app_nil_r.
  split_and!; [done|done|]. apply Forall_singleton. by rewrite He.
Qed.

(** The events that are new to the room. *)
Definition fresh_events st (id : CommandId) (events : list (SessionEvent G)) : list (SessionEvent G) :=
  match find_record st id with Some _ => [] | None => events end.

Lemma decide_extends st authorized events st' : session_inv st → headroom st →
  decide (E := E) payload_json blake3 st authorized = Ok events → commit_batch (E := E) st events = Ok st' →
  session_inv st' ∧ batch_outcome (E := E) payload_json blake3 st authorized events st' ∧
  extends st (fresh_events st (command_id (ac_command authorized)) events) st'.
Proof using Type.
  intros Hinv Hroom Hd Hc. unfold fresh_events.
  destruct (find_record st (command_id (ac_command authorized))) as [[i record]|] eqn:Hf.
  - destruct (decide_apply payload_json blake3 st authorized events Hinv Hroom) as (st'' & Ha & Hinv' & Hb); [by rewrite Hf|done|].
    assert (st'' = st') as -> by (unfold commit_batch in Hc; congruence).
    unfold batch_outcome in *. rewrite Hf in *. subst st'. split; [done|]. split; [done|]. apply extends_nil.
  - assert (payload (ac_command authorized) = CloseRoom → st_phase st ≠ Uninitialized) as Hclose.
    { intros Hp Hu. pose proof (close_uninitialized payload_json blake3 st authorized events Hinv Hroom Hu Hp Hf Hd) as He.
      unfold commit_batch in Hc. congruence. }
    destruct (decide_apply payload_json blake3 st authorized events Hinv Hroom) as (st'' & Ha & Hinv' & Hb); [done|done|].
    assert (st'' = st') as -> by (unfold commit_batch in Hc; congruence).
    split; [done|]. split; [done|]. unfold batch_outcome in Hb. rewrite Hf in Hb.
    destruct Hb as (Hne & Hr & hash & _ & Hl & kinds & Hk & Hph).
    destruct (decide_new st authorized events Hd Hf) as (kinds' & Hk' & Hev).
    eapply extends_record; [done|done| |exact Hl|done|exact Hne]. rewrite Hev, Hph. congruence.
Qed.

Lemma serve_command_extends st command st' d : session_inv st → headroom st →
  serve_command (E := E) payload_json blake3 st command = Ok (st', d) →
  session_inv st' ∧ ∃ events, extends st events st'.
Proof using Type.
  intros Hinv Hroom Hp. unfold serve_command in Hp.
  destruct (from_decision _ _) as [a|[|reason id results]|]; [|done| |done].
  - destruct (decide payload_json blake3 st a) as [events|[]|] eqn:Hd; try done.
    + apply bind_Ok in Hp as (s & Hc & [= <- <-]). destruct (decide_extends st a events s Hinv Hroom Hd Hc) as (? & _ & ?).
      split; [done|]. by eexists.
    + injection Hp as <- <-. split; [done|]. exists []. apply extends_nil.
  - injection Hp as <- <-. split; [done|]. exists []. apply extends_nil.
Qed.

Lemma disconnect_extends st p id hash correlation events st' : session_inv st → headroom st → find_record st id = None →
  decide_transport_disconnect (E := E) st p id hash correlation = Ok events → commit_batch (E := E) st events = Ok st' →
  session_inv st' ∧ extends st events st'.
Proof using Type.
  intros Hinv Hroom Hf Hd Hc. unfold decide_transport_disconnect in Hd.
  rewrite (session_inv_validate _ Hinv) in Hd. cbn [lift_invariant map_err mbind outcome_bind] in Hd.
  apply bind_Ok in Hd as (m & Hm%ok_or_Ok & Hd). inv_guard Hd.
  pose proof (cancel_length st) as Hlen. pose proof (ri_counts _ (si_room _ Hinv)) as (Hrev & _).
  destruct Hroom as [Hroom _].
  assert (feasible (E := E) id st ((if seated m then cancel_countdown_first st else []) ++ [MemberDisconnected p])) as Hfeas.
  { unfold seated. case_bool_decide as Hs.
    - apply feasible_cancel; [by apply Hinv|]. intros st1 Hinv1 Hms _ _ _ Hph.
      eapply feasible_disconnect; [done|by rewrite (member_of_members st st1)|].
      intros d t Ht. rewrite Ht in Hph. by destruct (st_phase st).
    - eapply feasible_disconnect; [by apply Hinv|done|]. intros _ _ _. by apply eq_None_not_Some. }
  pose proof (find_record_None _ _ Hf) as Hid.
  set (kinds := (if seated m then cancel_countdown_first st else []) ++ [MemberDisconnected p]) in *.
  destruct (apply_batch (E := E) (processed_commands st) id hash p
    correlation (st_revision st) transport_decision (si_log _ Hinv) Hid Hrev
    kinds [] st events Hinv eq_refl) as (st'' & Hfold & Hinv' & Hlog & Hrev' & Hlen' & Hph); [done| | |exact Hfeas|exact Hd|].
  - simpl. lia.
  - unfold kinds. rewrite length_app. destruct (seated m); simpl; lia.
  - assert (st'' = st') as -> by (unfold commit_batch in Hc; congruence). split; [done|].
    assert (events ≠ []) as Hne.
    { intros ->. unfold kinds in Hlen'. rewrite length_app in Hlen'. simpl in Hlen'. lia. }
    cbn [app] in Hlog. destruct events as [|e0 events]; [done|]. cbn [batch_log] in Hlog.
    eapply extends_record; [done|by rewrite Hrev', Hlen'| |exact Hlog|done|done].
    apply (stamped_kinds _ _ _ _ _ _ 0) in Hd as ->. by rewrite Hph.
Qed.

Lemma serve_disconnect_extends st p id st' : session_inv st → headroom st → find_record st id = None →
  serve_disconnect (E := E) blake3 st p id = Ok st' → session_inv st' ∧ ∃ events, extends st events st'.
Proof using Type.
  intros Hinv Hroom Hf (events & Hd & Hc)%bind_Ok. eapply disconnect_extends in Hc as [? ?]; [|done..]. by eauto.
Qed.

(** Served rooms keep the invariant and replay from their log. *)
Lemma served_inv initial_room st : fresh_room initial_room → served initial_room st →
  session_inv st ∧ foldM (apply (E := E)) (concat (pc_events <$> processed_commands st)) initial_room = Ok st ∧
  st_revision st = Z.of_nat (length (concat (pc_events <$> processed_commands st))).
Proof using Type.
  intros Hfresh. induction 1 as [|st command st' d _ (Hinv & Hfold & Hrev) Hroom Hp|st p id st' _ (Hinv & Hfold & Hrev) Hroom Hf Hp].
  - split; [by apply fresh_room_inv|]. destruct Hfresh as (? & ? & ? & ? & ? & _ & ->). done.
  - apply serve_command_extends in Hp as (Hinv' & events & He); [|done|done]. split; [done|].
    rewrite (extends_log _ _ _ He), foldM_app, Hfold, length_app. destruct He as [Hf Hr _ _]. cbn. split; [done|lia].
  - apply serve_disconnect_extends in Hp as (Hinv' & events & He); [|done|done|done]. split; [done|].
    rewrite (extends_log _ _ _ He), foldM_app, Hfold, length_app. destruct He as [Hf' Hr _ _]. cbn. split; [done|lia].
Qed.

(** The errors of a decision in a valid room. *)
Lemma decide_payload_errors st command (err : SessionError E) : decide_payload (E := E) blake3 st command = Err err →
  (∃ reason, err = Denied reason) ∨ (∃ g, err = GameError g) ∨
  (err = EventOrder ∧ 2 ^ 16 <= Z.of_nat (length (invites st)))%Z.
Proof using Type.
  unfold decide_payload, denied. destruct (payload command);
    unfold decide_create, decide_join, decide_take_seat, decide_release_seat, decide_ready, decide_arm_countdown,
      decide_abort_countdown, decide_countdown_expired, decide_pause, decide_unpause, decide_game_action,
      decide_chance, decide_settle, decide_chat, decide_reconnect, decide_leave, decide_remove, decide_reset,
      decide_close, decide_request_hand, decide_grant_hand, decide_deny_hand, decide_revoke_hand, canonical_seats,
      running_game, require_member, denied; intros Hd;
    repeat match goal with
    | Hx : _ ≫= _ = Err _ |- _ => apply bind_Err in Hx as [Hx|(? & ? & Hx)]
    | Hx : (if ?b then _ else _) = Err _ |- _ => destruct b eqn:?
    | Hx : (match ?m with _ => _ end) = Err _ |- _ => destruct m eqn:?
    | Hx : Ok _ = Err _ |- _ => discriminate Hx
    | Hx : Panic = Err _ |- _ => discriminate Hx
    | Hx : Err _ = Err _ |- _ => injection Hx as <-
    | Hx : ok_or ?m _ = Err _ |- _ => destruct m eqn:?; cbn [ok_or] in Hx
    | Hx : map_err _ ?m = Err _ |- _ => destruct m eqn:?; cbn [map_err] in Hx
    end; try (left; by eexists); try (right; left; by eexists).
  all: right; right; split; [done|].
  all: match goal with Hl : list_find _ _ = Some (_, _), Hc : checked 16 _ = None |- _ =>
    apply list_find_Some in Hl as (Hl%lookup_lt_Some & _); unfold checked, in_widthb in Hc;
    match type of Hc with (if ?b then _ else _) = None => destruct b eqn:?; [discriminate Hc|lia] end end.
Qed.
End Sessions.

(** ** What events leave alone
    Frame facts of the session machine: the identities of a room never change,
    only a creating or joining event adds a member, and counters only grow. *)

(** Every event of a batch satisfies [P]. *)
Definition all_kinds {G} (P : SessionEventKind G → Prop) (events : list (SessionEvent G)) : Prop :=
  Forall (λ e, P (ev_kind e)) events.

(** The principal an event makes a member. *)
Definition joins {G} (k : SessionEventKind G) : option PrincipalId :=
  match k with RoomCreated p | MemberJoined p _ => Some p | _ => None end.

Definition principals {G} (st : SessionState G) : list PrincipalId := m_principal <$> members st.

Section Frame.
Context {G E : Type} `{EqDecision G} `{SessionGame G E}.
Context (payload_json : CommandPayload → option (list Z)) (blake3 : list Z → list Z).
Implicit Types (st : SessionState G) (e : SessionEvent G) (k : SessionEventKind G).

(** The fields that identify a room. *)
Definition identity st := (st_room_id st, authority_clock st, game_environment st).

(** How [st'] may differ from [st] after an event of kind [k]. *)
Record framed st k st' : Prop := {
  fr_identity : identity st' = identity st;
  fr_members : ∀ p, p ∈ principals st' → p ∈ principals st ∨ joins k = Some p;
  fr_chat : (chat_count st <= chat_count st')%Z;
  fr_epoch : (projection_epoch st' + 1 < 2 ^ 64 → projection_epoch st + 1 < 2 ^ 64)%Z;
}.

Lemma framed_refl st k : framed st k st.
Proof using Type. split; auto; lia. Qed.

Lemma principals_insert st i m m' : members st !! i = Some m → m_principal m' = m_principal m →
  principals (with_members st (<[i := m']> (members st))) = principals st.
Proof using Type.
  intros Hi Hm. unfold principals. cbn [members with_members]. rewrite list_fmap_insert, Hm.
  apply list_insert_id. by rewrite list_lookup_fmap, Hi.
Qed.

Lemma framed_members st k ms : (∀ p, p ∈ m_principal <$> ms → p ∈ principals st ∨ joins k = Some p) →
  framed st k (with_members st ms).
Proof using Type. intros Hms. split; simpl; try done; try lia. Qed.

Lemma framed_update st k p f st' : (∀ m m', f m = Ok m' → m_principal m' = m_principal m) →
  update_member (E := E) st p f = Ok st' → framed st k st'.
Proof using Type.
  intros Hf (i & m & m' & Hm & Hfm & ->)%update_member_inv. apply framed_members.
  apply list_find_Some in Hm as (Hi & _). intros q Hq. left.
  fold (principals (with_members st (<[i := m']> (members st)))) in Hq.
  change (m_principal <$> <[i := m']> (members st)) with (principals (with_members st (<[i := m']> (members st)))) in Hq.
  by rewrite (principals_insert st i m m' Hi (Hf _ _ Hfm)) in Hq.
Qed.

Lemma framed_clear st k : framed st k (clear_ready st).
Proof using Type.
  apply framed_members. intros p Hp. left. rewrite <-list_fmap_compose in Hp. exact Hp.
Qed.

(** Changes outside the framed fields. *)
Lemma framed_same st k st1 st' : framed st k st1 → identity st' = identity st1 → members st' = members st1 →
  chat_count st' = chat_count st1 → projection_epoch st' = projection_epoch st1 → framed st k st'.
Proof using Type.
  intros [H1 H2 H3 H4] Hi Hm Hc He. split; [congruence| |lia|by rewrite He].
  unfold principals. by rewrite Hm.
Qed.

Lemma framed_joined st p i st' : apply_joined (E := E) st p i = Ok st' → framed st (MemberJoined p i) st'.
Proof using Type.
  unfold apply_joined, denied. intros (inv & _ & Ha)%bind_Ok. inv_guard Ha. injection Ha as <-.
  eapply (framed_same _ _ (with_members st (members st ++ [new_member p (st_session_epoch st) false (st_revision st)])));
    [|done..].
  apply framed_members. intros q. rewrite fmap_app, elem_of_app. intros [Hq|Hq]; [by left|].
  apply list_elem_of_singleton in Hq as ->. by right.
Qed.

Lemma framed_chat st p text st' : apply_chat (E := E) st p = Ok st' → framed st (ChatPosted p text) st'.
Proof using Type.
  unfold apply_chat. intros (st1 & Hu & (n & (<- & _)%ok_or_Ok%checked_Some & [= <-])%bind_Ok)%bind_Ok.
  assert (framed st (ChatPosted p text) st1) as [H1 H2 H3 H4].
  { eapply framed_update; [|exact Hu]. intros m m' (m1 & Hm1 & (n & _ & [= <-])%bind_Ok)%bind_Ok.
    cbn. revert Hm1. destruct (_ <=? _)%Z; [by intros [= <-]|]. by destruct (_ <=? _)%Z; [|intros [= <-]]. }
  apply update_member_inv in Hu as (i & m & m' & _ & _ & ->). split; simpl in *; try done. lia.
Qed.

Lemma framed_expired st reason st' : apply_expired (E := E) st reason = Ok st' →
  framed st (HandCapabilitiesExpired reason) st'.
Proof using Type.
  unfold apply_expired. intros (epoch & He & [= <-])%bind_Ok. split; simpl; try done; try lia; auto.
  intros Hx. destruct (negb _); [apply ok_or_Ok, checked_Some in He as [<- _]; lia|by injection He as <-].
Qed.

Lemma framed_removed st p k st' : apply_removed (E := E) st p = Ok st' → framed st k st'.
Proof using Type.
  unfold apply_removed, denied. intros ([i m] & Hf%ok_or_Ok & Hk)%bind_Ok. inv_guard Hk. injection Hk as <-.
  apply framed_members. intros q (x & -> & Hx)%list_elem_of_fmap. left. apply list_elem_of_fmap.
  exists x. split; [done|]. apply list_find_Some in Hf as (Hi & _). by eapply elem_of_delete.
Qed.

Lemma apply_kind_framed st k prov st' : apply_kind (E := E) st k prov = Ok st' → framed st k st'.
Proof using Type.
  destruct k; cbn [apply_kind]; unfold denied; intros Hk.
  - destruct (st_phase st); try done. injection Hk as <-.
    eapply (framed_same _ _ (with_members st (members st ++ [new_member host 1 true (st_revision st)])));
      [|done..].
    apply framed_members. intros q. rewrite fmap_app, elem_of_app. intros [Hq|Hq]; [by left|].
    apply list_elem_of_singleton in Hq as ->. by right.
  - by apply framed_joined in Hk.
  - eapply framed_update; [|exact Hk]. by intros m m' [= <-].
  - eapply framed_update; [|exact Hk]. intros m m'; cbn beta. case_bool_decide; [done|]. by intros [= <-].
  - eapply framed_update; [|exact Hk]. by intros m m' [= <-].
  - injection Hk as <-. by eapply framed_same; [apply framed_refl|..].
  - destruct (st_phase st); try done. case_bool_decide; [done|]. injection Hk as <-.
    by eapply framed_same; [apply framed_refl|..].
  - destruct (st_phase st); try done. injection Hk as <-. by eapply framed_same; [apply framed_clear|..].
  - unfold apply_advanced, denied in Hk. destruct (st_phase st); try done. injection Hk as <-.
    by eapply framed_same; [apply framed_refl|..].
  - destruct (st_phase st); try done. injection Hk as <-. by eapply framed_same; [apply framed_refl|..].
  - destruct (st_phase st); try done. injection Hk as <-. by eapply framed_same; [apply framed_refl|..].
  - eapply framed_update; [|exact Hk]. by intros m m' [= <-].
  - eapply framed_update; [|exact Hk]. by intros m m' [= <-].
  - by eapply framed_removed.
  - by eapply framed_removed.
  - destruct (st_phase st); try done. injection Hk as <-. by eapply framed_same; [apply framed_clear|..].
  - by apply framed_chat.
  - inv_guard Hk. injection Hk as <-. by eapply framed_same; [apply framed_refl|..].
  - inv_guard Hk. apply bind_Ok in Hk as (rs & _ & [= <-]). apply orb_false_iff in Hg as [Hg%negb_false_iff%Z.eqb_eq _].
    split; simpl; try done; try lia; auto. unfold saturating_add in Hg.
    assert (umax 64 = 2 ^ 64 - 1)%Z by reflexivity. lia.
  - apply bind_Ok in Hk as (rs & _ & [= <-]). by eapply framed_same; [apply framed_refl|..].
  - apply bind_Ok in Hk as (gs & _ & Hk). apply bind_Ok in Hk as (n & (<- & _)%ok_or_Ok%checked_Some & [= <-]).
    split; simpl; try done; try lia; auto.
  - by apply framed_expired.
  - injection Hk as <-. by eapply framed_same; [apply framed_clear|..].
Qed.

(** ** Batches *)

(** What a batch of events may change. *)
Record batch_framed st (events : list (SessionEvent G)) st' : Prop := {
  bf_identity : identity st' = identity st;
  bf_members : ∀ p, p ∈ principals st' → p ∈ principals st ∨ ∃ e, e ∈ events ∧ joins (ev_kind e) = Some p;
  bf_headroom : headroom st' → headroom st;
}.

Lemma apply_framed st e st' : apply (E := E) st e = Ok st' → batch_framed st [e] st'.
Proof using Type.
  intros Ha. unfold apply in Ha. apply bind_Ok in Ha as ([] & _ & Ha).
  assert (∀ idx, apply_new (E := E) st e idx = Ok st' → batch_framed st [e] st') as Hnew.
  { intros idx Hn. unfold apply_new in Hn. apply bind_Ok in Hn as (x & _ & Hn). inv_guard Hn.
    apply bind_Ok in Hn as (nx & Hk & Hn). apply bind_Ok in Hn as (r & (<- & _)%ok_or_Ok%checked_Some & Hn).
    apply bind_Ok in Hn as ([] & _ & [= <-]).
    destruct (apply_kind_frame _ _ _ _ Hk) as (Hr & _). apply apply_kind_framed in Hk as [H1 H2 H3 H4].
    split; [done| |].
    - intros p [Hp|Hp]%H2; [by left|]. right. exists e. split; [left|done].
    - intros (Hx & Hy & Hz). cbn [st_revision chat_count projection_epoch with_log] in *. apply H4 in Hz. split_and!; lia. }
  assert (batch_framed st [e] st) as Hsame by (split; auto).
  destruct (find_record _ _) as [[i record]|].
  - inv_guard Ha. destruct (pc_events record !! _).
    + case_bool_decide; [|done]. by injection Ha as <-.
    + inv_guard Ha. by eapply Hnew.
  - inv_guard Ha. by eapply Hnew.
Qed.

Lemma foldM_framed events st st' : foldM (apply (E := E)) events st = Ok st' → batch_framed st events st'.
Proof using Type.
  revert st. induction events as [|e events IH]; intros st Hf.
  { injection Hf as <-. split; auto. }
  apply bind_Ok in Hf as (st1 & Ha%apply_framed & [H4 H5 H6]%IH). destruct Ha as [H1 H2 H3].
  split; [congruence| |auto].
  intros p [[Hp|(x & ->%list_elem_of_singleton & Hx)]%H2|(x & Hx & Hj)]%H5; [by left|right..].
  - exists e. split; [left|done].
  - exists x. split; [by right|done].
Qed.

(** ** Decisions *)

Lemma decide_payload_joins st command kinds k p : decide_payload (E := E) blake3 st command = Ok kinds →
  k ∈ kinds → joins k = Some p →
  p = principal_id command ∧ (payload command = CreateRoom ∨ ∃ invite, payload command = RedeemInvite invite).
Proof using Type.
  assert (∀ k', k' ∈ cancel_countdown_first st → joins k' = None) as Hcancel.
  { intros k'. unfold cancel_countdown_first. destruct (st_phase st); intros Hk; try by apply elem_of_nil in Hk.
    by apply list_elem_of_singleton in Hk as ->. }
  assert (∀ r k', k' ∈ expire_capabilities_for st r → joins k' = None) as Hexpire.
  { intros r k'. unfold expire_capabilities_for. destruct (_ || _)%bool; intros Hk; [|by apply elem_of_nil in Hk].
    by apply list_elem_of_singleton in Hk as ->. }
  intros Hd Hk Hj. unfold decide_payload in Hd. destruct (payload command) eqn:Hpl;
    unfold decide_create, decide_join, decide_take_seat, decide_release_seat, decide_ready, decide_arm_countdown,
      decide_abort_countdown, decide_countdown_expired, decide_pause, decide_unpause, decide_game_action,
      decide_chance, decide_settle, decide_chat, decide_reconnect, decide_leave, decide_remove, decide_reset,
      decide_close, decide_request_hand, decide_grant_hand, decide_deny_hand, decide_revoke_hand, transition_event,
      denied in Hd;
    repeat match type of Hd with
    | _ ≫= _ = Ok _ => apply bind_Ok in Hd as (? & _ & Hd)
    | Ok _ = Ok _ => injection Hd as <-
    | Err _ = Ok _ => discriminate Hd
    | (if ?b then _ else _) = Ok _ => destruct b
    | (match ?x with _ => _ end) = Ok _ => destruct x eqn:?
    end;
    repeat match goal with
    | Hk : _ ∈ (if ?b then _ else _) ++ _ |- _ => destruct b
    | Hk : _ ∈ (match ?b with _ => _ end) ++ _ |- _ => destruct b
    | Hk : _ ∈ _ ++ _ |- _ => apply elem_of_app in Hk as [Hk|Hk]
    | Hk : _ ∈ [] |- _ => by apply elem_of_nil in Hk
    | Hk : _ ∈ [_] |- _ => apply list_elem_of_singleton in Hk as ->
    end; try discriminate Hj; try (injection Hj as <-; eauto; fail);
    try (by rewrite (Hexpire _ _ Hk) in Hj); by rewrite (Hcancel _ Hk) in Hj.
Qed.

(** The events of a repeated command change nothing. *)
Lemma decide_known st authorized events : decide (E := E) payload_json blake3 st authorized = Ok events →
  is_Some (find_record st (command_id (ac_command authorized))) → foldM (apply (E := E)) events st = Ok st.
Proof using Type.
  intros Hd [[i record] Hf]. unfold decide in Hd. apply bind_Ok in Hd as ([] & Hv%map_err_Ok & Hd).
  apply bind_Ok in Hd as (hash & _ & Hd). rewrite Hf in Hd. destruct (bool_decide _); [|done]. injection Hd as <-.
  pose proof (find_record_id _ _ _ _ Hf) as Hid. rewrite <-Hid in Hf. by eapply foldM_logged.
Qed.

(** Only the commanding principal can become a member. *)
Lemma decide_members st authorized events st' : decide (E := E) payload_json blake3 st authorized = Ok events →
  foldM (apply (E := E)) events st = Ok st' →
  identity st' = identity st ∧ (headroom st' → headroom st) ∧
  ∀ p, p ∈ principals st' → p ∈ principals st ∨
    p = principal_id (ac_command authorized) ∧
    (payload (ac_command authorized) = CreateRoom ∨ ∃ invite, payload (ac_command authorized) = RedeemInvite invite).
Proof using Type.
  intros Hd Hf. destruct (find_record st (command_id (ac_command authorized))) as [r|] eqn:Hr.
  - pose proof (decide_known st authorized events Hd (mk_is_Some _ _ Hr)) as Hs.
    assert (st' = st) as -> by congruence. auto.
  - destruct (decide_new _ _ st authorized events Hd Hr) as (kinds & Hk & Hev).
    apply foldM_framed in Hf as [H1 H2 H3]. split_and!; [done|done|].
    intros p [Hp|(e & He & Hj)]%H2; [by left|]. right. eapply decide_payload_joins; [exact Hk| |exact Hj].
    rewrite <-Hev. apply list_elem_of_fmap. by exists e.
Qed.
End Frame.
