(* ===== verification/InProcessRuns.v ===== *)
(** * The authority and its room

    What the methods of the authority do: deliveries leave everything but the
    outboxes alone, and serving an input moves the room exactly as the session
    machine's [serve_command] and [serve_disconnect] do; then runs of clients and authority. *)

From stdpp Require Import base strings numbers option list gmap pretty.
From S2P Require Import Prelude Methods Protocol Frames FrameTheorems SessionState SessionMachine InProcess SessionValid SessionPreserve SessionDecide SessionLog SessionTheorems.

(** ** Deliveries *)

Definition route (c : Connection) : PrincipalId * bool := (conn_principal_id c, conn_connected c).

(** The transports differ in their outboxes only. *)
Record same_routes (t t' : InProcessTransport) : Prop := {
  sr_codec : codec t' = codec t;
  sr_connection : next_connection t' = next_connection t;
  sr_observation : next_observation t' = next_observation t;
  sr_ingress : ingress t' = ingress t;
  sr_faults : faults t' = faults t;
  sr_held : held_for_reorder t' = held_for_reorder t;
  sr_routes : route <$> connections t' = route <$> connections t;
}.

#[export] Instance same_routes_preorder : PreOrder same_routes.
Proof.
  split; [by intros t|]. intros t1 t2 t3 [] []. split; congruence.
Qed.

(** A principal has a connected route. *)
Definition routed (t : InProcessTransport) (p : PrincipalId) : Prop :=
  ∃ id c, connections t !! id = Some c ∧ live_route p c = true.

Lemma any_connection_spec P (cs : gmap Z Connection) :
  any_connection P cs = true ↔ ∃ id c, cs !! id = Some c ∧ P c = true.
Proof.
  unfold any_connection. rewrite existsb_exists. split.
  - intros ([id c] & Hin & HP). apply list_elem_of_In, elem_of_map_to_list in Hin. by exists id, c.
  - intros (id & c & Hc & HP). exists (id, c). split; [|done]. by apply list_elem_of_In, elem_of_map_to_list.
Qed.

Lemma any_routed t p : any_connection (live_route p) (connections t) = true ↔ routed t p.
Proof. apply any_connection_spec. Qed.

Lemma live_route_route p c c' : route c = route c' → live_route p c = live_route p c'.
Proof. unfold route, live_route. intros [= -> ->]. done. Qed.

Lemma same_routes_lookup t t' id : same_routes t t' → (route <$> connections t' !! id) = (route <$> connections t !! id).
Proof. intros [_ _ _ _ _ _ Hr]. by rewrite <-!lookup_fmap, Hr. Qed.

Lemma same_routes_routed t t' p : same_routes t t' → routed t' p ↔ routed t p.
Proof.
  intros Hs. unfold routed. split; intros (id & c & Hc & Hl); pose proof (same_routes_lookup t t' id Hs) as Hx;
    rewrite Hc in Hx; cbn in Hx.
  - destruct (connections t !! id) as [c'|] eqn:Hc'; [|done]. injection Hx as Hx. exists id, c'. split; [done|].
    rewrite <-Hl. apply live_route_route. unfold route. congruence.
  - destruct (connections t' !! id) as [c'|] eqn:Hc'; [|done]. injection Hx as Hx. exists id, c'. split; [done|].
    rewrite <-Hl. apply live_route_route. unfold route. congruence.
Qed.

Section Send.
Context `{Serde}.

Lemma round_trip_frame_state frame t : (round_trip_frame frame t).1 = t.
Proof using Type.
  unfold round_trip_frame, mbind, M_bind, read. destruct (codec t); [done|]. unfold lift.
  by destruct (map_err _ _).
Qed.

Lemma push_routes (P : Connection → bool) frame (cs : gmap Z Connection) :
  route <$> ((λ c, if P c then push_frame frame c else c) <$> cs) = route <$> cs.
Proof using Type. rewrite <-map_fmap_compose. apply map_fmap_ext. intros id c _. cbn. by destruct (P c). Qed.

Lemma send_routes frame : steps_by same_routes (send frame).
Proof using Type.
  intros t. unfold send, mbind, M_bind, read, throw. destruct (negb _); [done|].
  pose proof (round_trip_frame_state frame t) as Ht. destruct (round_trip_frame frame t) as [t1 [f|e|]]; simpl in Ht; subst t1;
    [|done..]. split; try done. apply push_routes.
Qed.

(** A typed transport delivers whatever has a recipient. *)
Lemma send_typed frame t : codec t = Typed → routed t (frame_principal frame) → ∃ t', send frame t = (t', Ok tt).
Proof using Type.
  intros Hc Hr%any_routed. unfold send, round_trip_frame, mbind, M_bind, read. rewrite Hr. cbn [negb]. rewrite Hc.
  by eexists.
Qed.

(** A delivery needs a recipient. *)
Lemma send_routed frame t t' : send frame t = (t', Ok tt) → routed t (frame_principal frame).
Proof using Type.
  unfold send. intros (t1 & b & [-> ->]%read_Ok & Hs)%M_bind_Ok. apply any_routed.
  by destruct (any_connection _ _).
Qed.
End Send.

Section Authority.
Context {G E : Type} `{EqDecision G} `{SessionGame G E} `{Serde}.
Context (payload_json : CommandPayload → option (list Z)) (blake3 : list Z → list Z).
Implicit Types a : InProcessAuthority G.
Local Notation AM T := (M (InProcessAuthority G) (InProcessAuthorityError E) T).

(** Only deliveries, and their numbering, happened. *)
Record delivered a a' : Prop := {
  dl_journal : journal a' = journal a;
  dl_room : room a' = room a;
  dl_clock : clock a' = clock a;
  dl_chat : chat_tail a' = chat_tail a;
  dl_committed : committed_events a' = committed_events a;
  dl_transport : same_routes (transport a) (transport a');
}.

#[export] Instance delivered_preorder : PreOrder delivered.
Proof using Type.
  split; [by intros a|]. intros a1 a2 a3 [] []. split; try congruence. by etrans.
Qed.

Lemma steps_on_transport {T} (m : M InProcessTransport InProcessTransportError T) :
  steps_by same_routes m → steps_by delivered (on_transport (E := E) (G := G) m).
Proof using Type.
  intros Hm a. unfold on_transport. specialize (Hm (transport a)). destruct (m (transport a)) as [t r].
  split; try done.
Qed.

Lemma steps_next_sequence : steps_by delivered (next_sequence (E := E) (G := G)).
Proof using Type. intros a. split; done. Qed.

Lemma steps_identifier value : steps_by delivered (new_identifier (E := E) (G := G) value).
Proof using Type. apply steps_lift; apply _. Qed.

Hint Resolve steps_next_sequence steps_identifier : deliver.
Hint Extern 3 (steps_by delivered (on_transport _)) => apply steps_on_transport, send_routes : deliver.
Hint Extern 3 (steps_by delivered (read _)) => apply steps_read; apply _ : deliver.
Hint Extern 3 (steps_by delivered (lift _)) => apply steps_lift; apply _ : deliver.
Hint Extern 3 (steps_by delivered (mret _)) => apply steps_ret; apply _ : deliver.
Ltac deliver := repeat (apply steps_bind; [apply _|eauto with deliver|intros ?]); eauto with deliver.

Lemma steps_send_projection correlation p : steps_by delivered (send_projection (E := E) (G := G) correlation p).
Proof using Type. unfold send_projection. deliver. Qed.

Lemma steps_broadcast correlation : steps_by delivered (broadcast_projections (E := E) (G := G) correlation).
Proof using Type.
  unfold broadcast_projections. apply steps_bind; [apply _|by eauto with deliver|].
  intros ps. apply steps_for_each; [apply _|apply steps_send_projection].
Qed.

Lemma steps_send_denial command reason policy : steps_by delivered (send_denial (E := E) (G := G) command reason policy).
Proof using Type. unfold send_denial. deliver. Qed.

Lemma steps_answer p id d n : steps_by delivered (answer (E := E) (G := G) p id d n).
Proof using Type. unfold answer. deliver. Qed.

(** ** Commits *)

Definition committed (e : SessionEvent G) : CommittedAuthorityEvent G :=
  {| committed_revision := saturating_revision e; committed_event := e |}.

(** The chat entry of an event. *)
Definition chat_of (e : SessionEvent G) : option ChatEntry :=
  match ev_kind e with
  | ChatPosted p text => Some {|
      ce_revision := ep_base_revision (ev_provenance e) + ep_event_index (ev_provenance e) + 1;
      ce_principal_id := p; ce_text := text |}
  | _ => None
  end.

Definition clock_effect (r : RoomId) (c : ManualClock) (k : SessionEventKind G) : ManualClock :=
  match k with
  | CountdownArmed deadline_tick token => clock_arm_countdown c r deadline_tick token
  | CountdownCancelled token => clock_cancel_countdown c r token
  | _ => c
  end.

Lemma record_committed_Ok e a a' : record_committed (E := E) e a = (a', Ok tt) →
  a' = with_committed a (foldl chat_push (chat_tail a) (option_list (chat_of e))) (committed_events a ++ [committed e]).
Proof using Type.
  unfold record_committed, chat_of. intros (a1 & u & ->%update_Ok & Ha)%M_bind_Ok.
  destruct (ev_kind e); try (apply mret_Ok in Ha as [-> _]; by destruct a).
  apply M_bind_Ok in Ha as (a2 & r & [-> Hr]%lift_Ok & ->%update_Ok). unfold chat_revision in Hr.
  apply bind_Ok in Hr as (x & (<- & _)%expect_Ok%checked_Some & (<- & _)%expect_Ok%checked_Some). done.
Qed.

Lemma record_all_Ok events a a' : for_each (record_committed (E := E)) events a = (a', Ok tt) →
  a' = with_committed a (foldl chat_push (chat_tail a) (omap chat_of events)) (committed_events a ++ (committed <$> events)).
Proof using Type.
  revert a. induction events as [|e events IH]; intros a Hf; cbn [for_each] in Hf.
  { apply mret_Ok in Hf as [-> _]. cbn. rewrite app_nil_r. by destruct a. }
  apply M_bind_Ok in Hf as (a1 & [] & ->%record_committed_Ok & ->%IH). cbn -[chat_push].
  rewrite <-app_assoc. f_equal. destruct (chat_of e); done.
Qed.

Lemma drive_all_Ok events a a' : for_each (drive_clock (E := E)) events a = (a', Ok tt) →
  a' = with_clock a (foldl (clock_effect (st_room_id (room a))) (clock a) (ev_kind <$> events)).
Proof using Type.
  revert a. induction events as [|e events IH]; intros a Hf; cbn [for_each] in Hf.
  { apply mret_Ok in Hf as [-> _]. by destruct a. }
  apply M_bind_Ok in Hf as (a1 & [] & ->%update_Ok & ->%IH). cbn [fmap list_fmap foldl]. unfold clock_effect at 2.
  by destruct a, e as [? []].
Qed.

(** What committing a batch leaves. *)
Definition after_commit a (events : list (SessionEvent G)) (candidate : SessionState G) : InProcessAuthority G :=
  let fresh := if already_applied (room a) events then [] else events in
  {| journal := journal a; room := candidate;
     clock := foldl (clock_effect (st_room_id candidate)) (clock a) (ev_kind <$> events);
     transport := transport a; chat_tail := foldl chat_push (chat_tail a) (omap chat_of fresh);
     next_delivery := next_delivery a; committed_events := committed_events a ++ (committed <$> fresh) |}.

Lemma commit_events_Ok events a a' : commit_events (E := E) events a = (a', Ok tt) →
  ∃ candidate, foldM (apply (E := E)) events (room a) = Ok candidate ∧ a' = after_commit a events candidate.
Proof using Type.
  unfold commit_events. intros (a1 & state & [-> ->]%read_Ok & Hc)%M_bind_Ok. cbv zeta in Hc.
  apply M_bind_Ok in Hc as (a2 & candidate & [-> Hf%map_err_Ok]%lift_Ok & Hc).
  apply M_bind_Ok in Hc as (a3 & u & ->%update_Ok & Hc). apply M_bind_Ok in Hc as (a4 & [] & Hr & Hd%drive_all_Ok).
  exists candidate. split; [done|]. subst a'. unfold after_commit. destruct (already_applied (room a) events).
  - apply mret_Ok in Hr as [-> _]. cbn. by rewrite app_nil_r.
  - apply record_all_Ok in Hr as ->. done.
Qed.

(** ** Serving *)

Lemma from_decision_allowed command decision : is_allowed decision = true →
  from_decision command decision = Ok {| ac_command := command; ac_decision := decision |}.
Proof using Type. unfold from_decision. by intros ->. Qed.

(** The two ways a command is served. *)
Inductive served_as a (command : CommandEnvelope) a' (o : AuthorityOutcome) : Prop :=
  | served_refusal reason :
      serve_command (E := E) payload_json blake3 (room a) command = Ok (room a, DispositionDenied reason) →
      disposition o = DispositionDenied reason → delivered a a' → routed (transport a) (principal_id command) →
      served_as a command a' o
  | served_batch authorized events candidate :
      ac_command authorized = command → decide (E := E) payload_json blake3 (room a) authorized = Ok events →
      foldM (apply (E := E)) events (room a) = Ok candidate →
      serve_command (E := E) payload_json blake3 (room a) command = Ok (candidate, Applied) →
      disposition o = Applied → delivered (after_commit a events candidate) a' → served_as a command a' o.

Lemma answer_Ok a a' p id d n o : answer (E := E) p id d n a = (a', Ok o) → a' = a ∧ disposition o = d.
Proof using Type. unfold answer. intros (a1 & s & [-> _]%read_Ok & [-> ->]%mret_Ok)%M_bind_Ok. done. Qed.

Lemma send_denial_Ok a a' command reason policy u : send_denial (E := E) command reason policy a = (a', Ok u) →
  delivered a a' ∧ routed (transport a) (principal_id command).
Proof using Type.
  intros Hs. pose proof (steps_send_denial command reason policy a) as Hd. rewrite Hs in Hd. split; [done|].
  unfold send_denial in Hs.
  apply M_bind_Ok in Hs as (a1 & sequence & Hn & Hs). pose proof (steps_next_sequence a) as D1. rewrite Hn in D1.
  apply M_bind_Ok in Hs as (a2 & state & [-> ->]%read_Ok & Hs).
  apply M_bind_Ok in Hs as (a3 & id & [-> Hid]%lift_Ok & Hs).
  apply M_bind_Ok in Hs as (a4 & sig & [-> _]%lift_Ok & Hs).
  unfold on_transport in Hs. destruct (send _ _) as [t [[]| |]] eqn:Ht; try done. apply send_routed in Ht.
  by rewrite (same_routes_routed _ _ _ (dl_transport _ _ D1)) in Ht.
Qed.

Lemma process_command_Ok p command a a' o :
  process_command (E := E) payload_json blake3 p command a = (a', Ok o) → served_as a command a' o.
Proof using Type.
  unfold process_command. intros (a1 & state & [-> ->]%read_Ok & Hp)%M_bind_Ok. cbv zeta in Hp.
  destruct (authorize payload_json blake3 (room a) command) as [id results|reason id results] eqn:Hauth; cbn [is_allowed negb] in Hp.
  - set (authorized := {| ac_command := command; ac_decision := Allow id results |}) in *.
    cbn in Hp. apply M_bind_Ok in Hp as (a2 & x & [-> [= <-]]%lift_Ok & Hp). fold authorized in Hp.
    assert (∀ r, decide (E := E) payload_json blake3 (room a) authorized = r →
      serve_command (E := E) payload_json blake3 (room a) command =
      match r with
      | Ok events => state ← commit_batch (room a) events; Ok (state, Applied)
      | Err (Denied reason) => Ok (room a, DispositionDenied reason)
      | Err error => Err error
      | Panic => Panic
      end) as Hserve.
    { intros r <-. unfold serve_command. rewrite Hauth. done. }
    destruct (decide payload_json blake3 (room a) authorized) as [events|[]|] eqn:Hd; try done.
    + apply M_bind_Ok in Hp as (a3 & [] & (candidate & Hf & ->)%commit_events_Ok & Hp).
      apply M_bind_Ok in Hp as (a4 & u & Hb & [-> Ho]%answer_Ok).
      eapply (served_batch _ _ _ _ authorized events candidate); try done.
      * rewrite (Hserve _ eq_refl). unfold commit_batch. by rewrite Hf.
      * pose proof (steps_broadcast (correlation_id command) (after_commit a events candidate)) as Hx. by rewrite Hb in Hx.
    + apply M_bind_Ok in Hp as (a3 & u & [Hx Hy]%send_denial_Ok & [-> Ho]%answer_Ok).
      eapply served_refusal; [exact (Hserve _ eq_refl)|done..].
  - apply M_bind_Ok in Hp as (a2 & x & [-> [= <-]]%lift_Ok & Hp).
    apply M_bind_Ok in Hp as (a3 & u & [Hx Hy]%send_denial_Ok & [-> Ho]%answer_Ok).
    eapply served_refusal; [|done..]. unfold serve_command. by rewrite Hauth.
Qed.

Lemma process_disconnect_Ok p id a a' o : process_disconnect (E := E) blake3 p id a = (a', Ok o) →
  ∃ events candidate,
    decide_transport_disconnect (E := E) (room a) p id (SemanticHashOf (blake3 (text_bytes id))) ("cor-" +:+ id) = Ok events ∧
    foldM (apply (E := E)) events (room a) = Ok candidate ∧
    serve_disconnect (E := E) blake3 (room a) p id = Ok candidate ∧
    disposition o = DispositionDisconnected ∧ delivered (after_commit a events candidate) a'.
Proof using Type.
  unfold process_disconnect. intros (a1 & correlation & [-> Hc%map_err_Ok]%lift_Ok & Hp)%M_bind_Ok. cbv zeta in Hp.
  assert (correlation = "cor-" +:+ id) as ->.
  { unfold identifier_new in Hc. destruct (is_valid_identifier _); [by injection Hc|done]. }
  apply M_bind_Ok in Hp as (a2 & state & [-> ->]%read_Ok & Hp).
  apply M_bind_Ok in Hp as (a3 & events & [-> Hd%map_err_Ok]%lift_Ok & Hp).
  apply M_bind_Ok in Hp as (a4 & [] & (candidate & Hf & ->)%commit_events_Ok & Hp).
  apply M_bind_Ok in Hp as (a5 & u & Hb & [-> Ho]%answer_Ok). exists events, candidate. split_and!; try done.
  - unfold serve_disconnect. cbv zeta. rewrite Hd. exact Hf.
  - pose proof (steps_broadcast ("cor-" +:+ id) (after_commit a events candidate)) as Hx. by rewrite Hb in Hx.
Qed.
End Authority.

(** ** Runs of an in-process authority
    The operations of clients on the transport, the steps of the authority, and
    what holds along every run: the transport never lets one principal speak for
    another, and the authority's committed events and chat tail are those of the
    room it serves. *)

(** What clients do to the transport. *)
Inductive TransportOp : Type :=
  | OpConnect (principal : PrincipalId)
  | OpInjectFault (fault : InProcessFault)
  | OpDisconnect (id : ConnectionId)
  | OpSubmit (id : ConnectionId) (command : CommandEnvelope)
  | OpReceive (id : ConnectionId).

Definition transport_op `{Serde} (op : TransportOp) (t : InProcessTransport) : InProcessTransport :=
  match op with
  | OpConnect p => (connect p t).1
  | OpInjectFault fault => (inject_fault fault t).1
  | OpDisconnect id => (disconnect id t).1
  | OpSubmit id command => (submit id command t).1
  | OpReceive id => (client_receive id t).1
  end.

Section Bound.
Context `{Serde}.

(** An ingress carries the principal its command names. *)
Definition ingress_bound (input : AuthenticatedIngress) : Prop :=
  match input with
  | IngressCommand _ p command => principal_id command = p
  | IngressDisconnected _ _ _ => True
  end.

Record bound (t : InProcessTransport) : Prop := {
  bd_codec : codec t = CanonicalNdjson → serde_laws;
  bd_ingress : Forall ingress_bound (ingress t);
  bd_held : ∀ input, held_for_reorder t = Some input → ingress_bound input;
}.

Lemma bound_new c : (c = CanonicalNdjson → serde_laws) → bound (transport_new c).
Proof using Type. intros Hc. by split. Qed.

Lemma bound_same t t' : same_routes t t' → bound t → bound t'.
Proof using Type. intros [S1 S2 S3 S4 S5 S6 S7] [H1 H2 H3]. split; [by rewrite S1|by rewrite S4|by rewrite S6]. Qed.

Lemma bound_connections t cs : bound t → bound (with_connections t cs).
Proof using Type. intros []. by split. Qed.

Lemma bound_push t input : bound t → ingress_bound input → bound (push_ingress input t).1.
Proof using Type. intros [H1 H2 H3] Hi. split; try done. apply Forall_app. split; [done|by apply Forall_singleton]. Qed.

Lemma bound_connect p t : bound t → bound (connect p t).1.
Proof using Type. intros []. by split. Qed.

Lemma bound_disconnect id t : bound t → bound (disconnect id t).1.
Proof using Type.
  intros Hb. unfold disconnect, mbind, M_bind, read, lift, throw, update, mret, M_ret.
  destruct (connections t !! id) as [c|]; cbn [ok_or]; [|done]. destruct (negb (conn_connected c)); [done|].
  pose proof (bound_connections t (<[id := close_connection c]> (connections t)) Hb) as Hb1. destruct (any_connection _ _); [done|].
  destruct (map_err _ _); [|done..]. apply bound_push; [|done]. destruct Hb1. by split.
Qed.

Lemma round_trip_command_Ok command t t' command' : (codec t = CanonicalNdjson → serde_laws) →
  round_trip_command command t = (t', Ok command') → t' = t ∧ command' = command.
Proof using Type.
  intros Hlaws. unfold round_trip_command. intros (t1 & mode & [-> ->]%read_Ok & Hr)%M_bind_Ok.
  destruct (codec t); [by apply mret_Ok in Hr as [-> ->]|].
  apply M_bind_Ok in Hr as (t2 & line & [-> He%map_err_Ok]%lift_Ok & [-> Hd%map_err_Ok]%lift_Ok). split; [done|].
  unfold decode_command_line, encode_command_line in *. apply encode_frame_line_Ok in He as (body & Hj & -> & _).
  apply bind_Ok in Hd as (f & (_ & body' & [<- _]%app_inj_tail & _ & _ & Hof)%decode_frame_line_Ok & Hd).
  destruct (Hlaws eq_refl _ _ Hj) as [Hof' _]. rewrite Hof in Hof'. injection Hof' as ->. by injection Hd.
Qed.

Lemma round_trip_command_state command t : (round_trip_command command t).1 = t.
Proof using Type.
  unfold round_trip_command, mbind, M_bind, read, lift, mret, M_ret. destruct (codec t); [done|].
  destruct (map_err _ (encode_command_line _)); [|done..]. by destruct (map_err _ _).
Qed.

Lemma bound_submit id command t : bound t → bound (submit id command t).1.
Proof using Type.
  intros Hb. unfold submit. unfold mbind at 1, M_bind at 1, read at 1.
  unfold mbind at 1, M_bind at 1, lift at 1. destruct (connections t !! id) as [c|] eqn:Hc; cbn [ok_or]; [|done].
  destruct (negb (conn_connected c)); [done|]. case_bool_decide as Hp; [done|].
  unfold mbind at 1, M_bind at 1. pose proof (round_trip_command_state command t) as Ht.
  destruct (round_trip_command command t) as [t1 [command'|e|]] eqn:Hr; simpl in Ht; subst t1; [|done..].
  apply round_trip_command_Ok in Hr as [_ ->]; [|apply Hb].
  assert (ingress_bound (IngressCommand id (conn_principal_id c) command)) as Hi by done.
  cbv zeta. unfold mbind at 1, M_bind at 1, read at 1. unfold mbind at 1, M_bind at 1, update at 1.
  assert (bound (with_held t None)) as Hb1 by (destruct Hb; by split).
  destruct (held_for_reorder t) as [held|] eqn:Hheld.
  - unfold mbind, M_bind. apply bound_push; [by apply bound_push|]. by eapply (bd_held _ Hb).
  - unfold mbind, M_bind, read, update. cbn [faults with_held].
    assert (bound (with_faults (with_held t None) (tail (faults t)))) as Hb2 by (destruct Hb1; by split).
    destruct (head (faults t)) as [[]|].
    + by apply bound_push; [apply bound_push|].
    + destruct Hb2. split; try done. by intros input [= <-].
    + pose proof (bound_disconnect id _ Hb2) as Hd.
      by destruct (disconnect id _) as [t2 [|e|]].
    + by apply bound_push.
Qed.

Lemma bound_receive id t : bound t → bound (client_receive id t).1.
Proof using Type.
  intros Hb. unfold client_receive, mbind, M_bind, read, lift, update, mret, M_ret.
  destruct (connections t !! id) as [c|]; cbn [ok_or]; [|done]. by apply bound_connections.
Qed.

Lemma bound_op op t : bound t → bound (transport_op op t).
Proof using Type.
  destruct op; intros Hb; cbn [transport_op].
  - by apply bound_connect.
  - destruct Hb. by split.
  - by apply bound_disconnect.
  - by apply bound_submit.
  - by apply bound_receive.
Qed.
End Bound.

Section Runs.
Context {G E : Type} `{EqDecision G} `{SessionGame G E} `{Serde}.
Context (payload_json : CommandPayload → option (list Z)) (blake3 : list Z → list Z).
Implicit Types a : InProcessAuthority G.
Local Notation process_command := (process_command (E := E) payload_json blake3).
Local Notation process_disconnect := (process_disconnect (E := E) blake3).
Local Notation process_ingress := (process_ingress (E := E) payload_json blake3).
Local Notation drive_one := (drive_one (E := E) payload_json blake3).
Local Notation expire_countdown := (expire_countdown (E := E) payload_json blake3).
Local Notation expire_all := (expire_all (E := E) payload_json blake3).
Local Notation advance_clock_to := (advance_clock_to (E := E) payload_json blake3).

(** ** What an input changes *)

(** Everything an input may change in the room's identity, membership and
    routes; [N] are the principals it may make members. *)
Record effect (N : PrincipalId → Prop) a a' : Prop := {
  ef_routes : same_routes (transport a) (transport a');
  ef_identity : identity (room a') = identity (room a);
  ef_headroom : headroom (room a') → headroom (room a);
  ef_members : ∀ p, p ∈ principals (room a') → p ∈ principals (room a) ∨ N p;
}.

Definition nobody (p : PrincipalId) : Prop := False.

#[export] Instance effect_preorder N : PreOrder (effect N).
Proof using Type.
  split; [intros a; split; auto; done|]. intros a1 a2 a3 [R1 I1 H1 M1] [R2 I2 H2 M2].
  split; [by etrans|congruence|auto|]. intros p [Hp|Hp]%M2; [by apply M1|by right].
Qed.

(** Same room, same routes. *)
Lemma effect_same N a a' : room a' = room a → same_routes (transport a) (transport a') → effect N a a'.
Proof using Type. intros Hr Ht. split; rewrite ?Hr; auto. Qed.

Lemma effect_delivered N a a' : delivered a a' → effect N a a'.
Proof using Type. intros [_ Hr _ _ _ Ht]. by apply effect_same. Qed.

Lemma process_command_effect p command a a' o : process_command p command a = (a', Ok o) →
  journal a' = journal a ∧
  effect (λ q, q = principal_id command ∧ ∀ token, payload command ≠ CountdownExpired token) a a'.
Proof using Type.
  intros [reason _ _ Hd _|authorized events candidate Hc Hd Hf _ _ Hdl]%process_command_Ok.
  - split; [apply Hd|by apply effect_delivered].
  - split; [by rewrite (dl_journal _ _ Hdl)|].
    etrans; [|by apply effect_delivered]. destruct (decide_members _ _ _ _ _ _ Hd Hf) as (Hi & Hh & Hm).
    split; try done. intros q [Hq|[-> Hpl]]%Hm; [by left|]. right. rewrite Hc in *. split; [done|].
    intros token Ht. rewrite Ht in Hpl. by destruct Hpl as [|[]].
Qed.

Lemma disconnect_joins st p id hash correlation (events : list (SessionEvent G)) e :
  decide_transport_disconnect (E := E) st p id hash correlation = Ok events → e ∈ events → joins (ev_kind e) = None.
Proof using Type.
  unfold decide_transport_disconnect. intros (u & _ & (m & _ & Hd)%bind_Ok)%bind_Ok He. inv_guard Hd.
  apply (stamped_kinds _ _ _ _ _ _ 0) in Hd.
  assert (ev_kind e ∈ (if seated m then cancel_countdown_first st else []) ++ [MemberDisconnected p]) as Hk.
  { rewrite <-Hd. apply list_elem_of_fmap. by exists e. }
  apply elem_of_app in Hk as [Hk|Hk]; [|by apply list_elem_of_singleton in Hk as ->].
  unfold cancel_countdown_first in Hk. destruct (seated m), (st_phase st); try by apply elem_of_nil in Hk.
  by apply list_elem_of_singleton in Hk as ->.
Qed.

Lemma process_disconnect_effect p id a a' o : process_disconnect p id a = (a', Ok o) →
  journal a' = journal a ∧ effect nobody a a'.
Proof using Type.
  intros (events & candidate & Hd & Hf & _ & _ & Hdl)%process_disconnect_Ok.
  split; [by rewrite (dl_journal _ _ Hdl)|]. etrans; [|by apply effect_delivered].
  apply foldM_framed in Hf as [Hi Hm Hh]. split; try done.
  intros q [Hq|(e & He & Hj)]%Hm; [by left|]. by rewrite (disconnect_joins _ _ _ _ _ _ _ Hd He) in Hj.
Qed.

(** ** Steps of the authority *)

(** The authority with the next ingress taken and journaled. *)
Definition take_input a (input : AuthenticatedIngress) (rest : list AuthenticatedIngress) : InProcessAuthority G :=
  with_journal (with_transport a (with_ingress (transport a) rest)) (journal a ++ [journal_input input]).

Lemma with_ingress_same t : with_ingress t (ingress t) = t.
Proof using Type. by destruct t. Qed.

Lemma drive_one_Ok a a' o : drive_one a = (a', Ok o) →
  match ingress (transport a) with
  | [] => a' = a ∧ o = None
  | input :: rest => ∃ o', o = Some o' ∧ process_ingress input (take_input a input rest) = (a', Ok o')
  end.
Proof using Type.
  unfold InProcess.drive_one. intros (a1 & input & Hr & Hd)%M_bind_Ok. unfold on_transport, receive, read, update in Hr.
  cbn in Hr. injection Hr as <- <-. destruct (ingress (transport a)) as [|input rest] eqn:Hq; cbn in Hd.
  - apply mret_Ok in Hd as [-> ->]. split; [|done]. destruct a as [? ? ? t]; cbn in *. rewrite <-Hq, with_ingress_same. done.
  - apply M_bind_Ok in Hd as (a2 & u & ->%update_Ok & Hd). apply M_bind_Ok in Hd as (a3 & o' & Hp & [-> ->]%mret_Ok).
    by exists o'.
Qed.

Lemma expire_countdown_Ok expiry a a' o : expire_countdown expiry a = (a', Ok o) →
  ∃ command, principal_id command = authority_clock (room a) ∧
    payload command = CountdownExpired (expiry_token expiry) ∧
    command_id command = numbered "clock-" (next_delivery a) ∧
    runtime_command (E := E) (room a) (authority_clock (room a)) (numbered "clock-" (next_delivery a))
      (CountdownExpired (expiry_token expiry)) = Ok command ∧
    process_command (authority_clock (room a)) command
      (with_next_delivery a (saturating_add 64 (next_delivery a) 1)) = (a', Ok o).
Proof using Type.
  unfold InProcess.expire_countdown. intros (a1 & n & Hn & Hd)%M_bind_Ok.
  unfold next_sequence in Hn. apply M_bind_Ok in Hn as (a2 & m & [-> ->]%read_Ok & Hn).
  apply M_bind_Ok in Hn as (a3 & u & ->%update_Ok & [-> ->]%mret_Ok).
  apply M_bind_Ok in Hd as (a4 & st & [-> ->]%read_Ok & Hd). cbv zeta in Hd.
  apply M_bind_Ok in Hd as (a5 & command & [-> Hc]%lift_Ok & Hd).
  exists command. cbn [room with_next_delivery] in *. split_and!; try done; unfold runtime_command in Hc.
  all: apply bind_Ok in Hc as (id & Hid%map_err_Ok & Hc); apply bind_Ok in Hc as (cor & _ & Hc);
    apply bind_Ok in Hc as (sg & _ & [= <-]); try done.
  unfold identifier_new in Hid. destruct (is_valid_identifier _); [|done]. by injection Hid as <-.
Qed.

Lemma expire_countdown_effect expiry a a' o : expire_countdown expiry a = (a', Ok o) →
  journal a' = journal a ∧ effect nobody a a'.
Proof using Type.
  intros (command & _ & Hpl & _ & _ & Hp)%expire_countdown_Ok.
  apply process_command_effect in Hp as [Hj [Hr Hi Hh Hm]]. split; [done|]. split; try done.
  intros p [Hp|[_ Ht]]%Hm; [by left|]. by destruct (Ht _ Hpl).
Qed.

Lemma expire_all_effect expiries outcomes a a' os : expire_all expiries outcomes a = (a', Ok os) →
  journal a' = journal a ∧ effect nobody a a'.
Proof using Type.
  revert outcomes a. induction expiries as [|expiry expiries IH]; intros outcomes a He; cbn [InProcess.expire_all] in He.
  - apply mret_Ok in He as [-> _]. done.
  - apply M_bind_Ok in He as (a1 & o & [Hj He1]%expire_countdown_effect & [Hj' He2]%IH).
    split; [congruence|by etrans].
Qed.

(** The authority at the moment its clock has been advanced. *)
Definition tick_clock a (tick : Z) : InProcessAuthority G :=
  with_journal (with_clock a (clock_advance_to (clock a) tick).1)
    (journal a ++ [JournalClockAdvance tick (next_delivery a)]).

Lemma advance_clock_Ok tick a a' os : advance_clock_to tick a = (a', Ok os) →
  expire_all (clock_advance_to (clock a) tick).2 [] (tick_clock a tick) = (a', Ok os).
Proof using Type.
  unfold InProcess.advance_clock_to. intros (a1 & c & [-> ->]%read_Ok & Ha)%M_bind_Ok.
  apply M_bind_Ok in Ha as (a2 & u & ->%update_Ok & Ha). apply M_bind_Ok in Ha as (a3 & n & [-> ->]%read_Ok & Ha).
  apply M_bind_Ok in Ha as (a4 & u' & ->%update_Ok & Ha). done.
Qed.

Lemma advance_clock_effect tick a a' os : advance_clock_to tick a = (a', Ok os) →
  journal a' = journal a ++ [JournalClockAdvance tick (next_delivery a)] ∧ effect nobody a a'.
Proof using Type.
  intros [Hj He]%advance_clock_Ok%expire_all_effect. split; [done|]. etrans; [|exact He]. by apply effect_same.
Qed.

(** ** Runs *)

(** An authority started on [initial] whose steps all succeed, whatever clients do in
    between; [P] is assumed before it serves an input, [Q] before its clock advances. *)
Inductive run (P Q : InProcessAuthority G → Prop) (initial : SessionState G) : InProcessAuthority G → Prop :=
  | run_new c : (c = CanonicalNdjson → serde_laws) → run P Q initial (authority_new initial (transport_new c))
  | run_transport a op : run P Q initial a → run P Q initial (with_transport a (transport_op op (transport a)))
  | run_drive a a' o : run P Q initial a → P a → drive_one a = (a', Ok o) → run P Q initial a'
  | run_clock a a' tick os : run P Q initial a → Q a → advance_clock_to tick a = (a', Ok os) → run P Q initial a'.

Lemma process_ingress_effect input a a' o : ingress_bound input → process_ingress input a = (a', Ok o) →
  journal a' = journal a ∧
  effect (λ p, match input with IngressCommand _ q _ => p = q | IngressDisconnected _ _ _ => False end) a a'.
Proof using Type.
  destruct input as [id p command|id p observation]; cbn [InProcess.process_ingress ingress_bound].
  - intros Hid [Hj [Hr Hi Hh Hm]]%process_command_effect. split; [done|]. split; try done.
    intros q [Hq|[-> _]]%Hm; [by left|by right].
  - intros _ [Hj [Hr Hi Hh Hm]]%process_disconnect_effect. split; [done|]. split; try done.
Qed.

Lemma bound_take t input rest : bound t → ingress t = input :: rest →
  bound (with_ingress t rest) ∧ ingress_bound input.
Proof using Type.
  intros [H1 H2 H3] Hq. rewrite Hq, Forall_cons in H2. destruct H2. split; [by split|done].
Qed.

(** The standing facts of a run. *)
Lemma run_bound P Q initial a : run P Q initial a →
  bound (transport a) ∧ identity (room a) = identity initial.
Proof using Type.
  induction 1 as [c Hc|a op _ [Hb Hi]|a a' o _ [Hb Hi] _ Hd|a a' tick os _ [Hb Hi] _ Hd].
  - split; [by apply bound_new|done].
  - split; [by apply bound_op|done].
  - apply drive_one_Ok in Hd. destruct (ingress (transport a)) as [|input rest] eqn:Hq; [by destruct Hd as [-> _]|].
    destruct Hd as (o' & _ & Hp). destruct (bound_take _ _ _ Hb Hq) as [Hb1 Hin].
    apply (process_ingress_effect _ _ _ _ Hin) in Hp as [_ [Hr Hi' _ _]]. split; [|by rewrite Hi'].
    eapply bound_same; [exact Hr|done].
  - apply advance_clock_effect in Hd as [_ [Hr Hi' _ _]]. split; [by eapply bound_same|congruence].
Qed.

(** ** Recovery: who has a route *)

Definition journaled (inputs : list AuthorityJournalInput) : gset string :=
  list_to_set (omap (λ input, match input with JournalCommand p _ => Some p | _ => None end) inputs).

Lemma journaled_snoc inputs input : journaled (inputs ++ [input]) =
  match input with JournalCommand p _ => {[p]} | _ => ∅ end ∪ journaled inputs.
Proof using Type.
  unfold journaled. rewrite omap_app, list_to_set_app_L. destruct input; cbn; set_solver.
Qed.

(** Every member has sent a command. *)
Lemma run_members P Q initial a : members initial = [] → run P Q initial a →
  ∀ p, p ∈ principals (room a) → p ∈ journaled (journal a).
Proof using Type.
  intros Hnone. induction 1 as [c Hc|a op _ IH|a a' o Hrun IH _ Hd|a a' tick os _ IH _ Hd]; intros p Hp.
  - unfold principals in Hp. cbn in Hp. rewrite Hnone in Hp. by apply elem_of_nil in Hp.
  - by apply IH.
  - apply drive_one_Ok in Hd. destruct (ingress (transport a)) as [|input rest] eqn:Hq.
    { destruct Hd as [-> _]. by apply IH. }
    destruct Hd as (o' & _ & Hd). destruct (run_bound _ _ _ _ Hrun) as [Hb _].
    destruct (bound_take _ _ _ Hb Hq) as [_ Hin].
    apply (process_ingress_effect _ _ _ _ Hin) in Hd as [Hj [_ _ _ Hm]]. rewrite Hj.
    change (journal (take_input a input rest)) with (journal a ++ [journal_input input]). rewrite journaled_snoc. apply Hm in Hp as [Hp|Hp]; [apply IH in Hp; set_solver|].
    destruct input; cbn in *; [set_solver|done].
  - apply advance_clock_effect in Hd as [Hj [_ _ _ Hm]]. rewrite Hj, journaled_snoc.
    apply Hm in Hp as [Hp|[]]. apply IH in Hp. set_solver.
Qed.
End Runs.
