(* ===== verification/InProcessRecovery.v ===== *)
(** * Recovery from the journal

    Replaying an authority's journal on a fresh transport rebuilds the authority:
    room, clock, chat tail, committed events, delivery counter and journal. *)

From stdpp Require Import base strings numbers option list gmap pretty.
From S2P Require Import Prelude Methods Protocol Frames FrameTheorems SessionState SessionMachine InProcess SessionTheorems InProcessRuns.

Section Recovery.
Context {G E : Type} `{EqDecision G} `{SessionGame G E} `{Serde}.
Context (payload_json : CommandPayload → option (list Z)) (blake3 : list Z → list Z).
Implicit Types (a r : InProcessAuthority G) (P : gset string).
Local Notation AM T := (M (InProcessAuthority G) (InProcessAuthorityError E) T).
Local Notation process_command := (process_command (E := E) payload_json blake3).
Local Notation process_disconnect := (process_disconnect (E := E) blake3).
Local Notation expire_countdown := (expire_countdown (E := E) payload_json blake3).
Local Notation expire_all := (expire_all (E := E) payload_json blake3).
Local Notation advance_clock_to := (advance_clock_to (E := E) payload_json blake3).
Local Notation replay_input := (replay_input (E := E) payload_json blake3).
Local Notation replay_inputs := (replay_inputs (E := E) payload_json blake3).

(** [r] holds what [a] holds, on a typed transport with a route for everyone in [P]. *)
Record mirrors P a r : Prop := {
  mi_room : room r = room a;
  mi_clock : clock r = clock a;
  mi_chat : chat_tail r = chat_tail a;
  mi_delivery : next_delivery r = next_delivery a;
  mi_committed : committed_events r = committed_events a;
  mi_codec : codec (transport r) = Typed;
  mi_routed : ∀ p, p ∈ P → routed (transport r) p;
}.

(** A successful step of [a] is a successful step of its mirror. *)
Definition mirrored P {T} (m : AM T) a a' (x : T) : Prop :=
  ∀ r, mirrors P a r → ∃ r', m r = (r', Ok x) ∧ mirrors P a' r'.

Lemma mirrored_bind P {T U} (m : AM T) (f : T → AM U) a a' y : (m ≫= f) a = (a', Ok y) →
  (∀ a1 x, m a = (a1, Ok x) → f x a1 = (a', Ok y) → mirrored P m a a1 x ∧ mirrored P (f x) a1 a' y) →
  mirrored P (m ≫= f) a a' y.
Proof using Type.
  intros (a1 & x & Hm & Hf)%M_bind_Ok Hboth r Hr. destruct (Hboth a1 x Hm Hf) as [H1 H2].
  destruct (H1 r Hr) as (r1 & Hr1 & M1). destruct (H2 r1 M1) as (r2 & Hr2 & M2). exists r2. split; [|done].
  apply M_bind_Ok. by exists r1, x.
Qed.

Lemma mirrored_read P {T} (f : InProcessAuthority G → T) a a' x : read (E := InProcessAuthorityError E) f a = (a', Ok x) →
  (∀ r, mirrors P a r → f r = f a) → mirrored P (read f) a a' x.
Proof using Type. intros [-> ->]%read_Ok Hf r Hr. exists r. unfold read. by rewrite (Hf r Hr). Qed.

Lemma mirrored_lift P {T} (m : outcome (InProcessAuthorityError E) T) a a' x : lift m a = (a', Ok x) →
  mirrored P (lift m) a a' x.
Proof using Type. intros [-> ->]%lift_Ok r Hr. by exists r. Qed.

Lemma mirrored_ret P {T} (y : T) a a' x : (mret y : AM T) a = (a', Ok x) → mirrored P (mret y) a a' x.
Proof using Type. intros [-> ->]%mret_Ok r Hr. by exists r. Qed.

Lemma mirrored_update P (f : InProcessAuthority G → InProcessAuthority G) a a' x :
  update (E := InProcessAuthorityError E) f a = (a', Ok x) →
  (∀ r, mirrors P a r → mirrors P (f a) (f r)) → mirrored P (update f) a a' x.
Proof using Type. intros ->%update_Ok Hf r Hr. exists (f r). destruct x. split; [done|by apply Hf]. Qed.

Lemma mirrored_for_each P {T} (f : T → AM unit) l a a' x : for_each f l a = (a', Ok x) →
  (∀ y a1 a2 u, y ∈ l → f y a1 = (a2, Ok u) → mirrored P (f y) a1 a2 u) → mirrored P (for_each f l) a a' x.
Proof using Type.
  revert a. induction l as [|y l IH]; intros a Hf Hall; cbn [for_each] in *; [by apply mirrored_ret|].
  apply mirrored_bind; [done|]. intros a1 u Hy Hl. split.
  - eapply Hall; [left|done].
  - apply IH; [done|]. intros z a2 a3 w Hz. apply Hall. by right.
Qed.

(** ** Deliveries *)

Lemma mirrored_send P frame a a' x : on_transport (E := E) (send frame) a = (a', Ok x) →
  (routed (transport a) (frame_principal frame) → frame_principal frame ∈ P) →
  mirrored P (on_transport (send frame)) a a' x.
Proof using Type.
  unfold on_transport. intros Hs Hp r Hr. destruct (send frame (transport a)) as [t res] eqn:Ht.
  injection Hs as <- Hres. apply map_err_Ok in Hres as ->. destruct x. pose proof (send_routed _ _ _ Ht) as Hrt.
  destruct (send_typed frame (transport r) (mi_codec _ _ _ Hr) (mi_routed _ _ _ Hr _ (Hp Hrt))) as (t' & Ht').
  rewrite Ht'. eexists. split; [done|].
  pose proof (send_routes frame (transport r)) as Hsr. rewrite Ht' in Hsr. cbn in Hsr.
  destruct Hr as [H1 H2 H3 H4 H5 H6 H7]. split; try done.
  - cbn. by rewrite (sr_codec _ _ Hsr).
  - intros p Hin. cbn. rewrite (same_routes_routed _ _ _ Hsr). by apply H7.
Qed.

Lemma mirrored_sequence P a a' x : next_sequence (E := E) a = (a', Ok x) → mirrored P next_sequence a a' x.
Proof using Type.
  unfold next_sequence. intros Hn. apply mirrored_bind; [done|]. intros a1 n Hr Hu. split.
  - apply mirrored_read; [done|]. by intros r [].
  - apply mirrored_bind; [done|]. intros a2 u Hup Hret. split; [|by apply mirrored_ret].
    apply mirrored_update; [done|]. intros r []. split; cbn; (done || congruence).
Qed.

Lemma mirrored_identifier P v a a' x : new_identifier (E := E) v a = (a', Ok x) → mirrored P (new_identifier v) a a' x.
Proof using Type. apply mirrored_lift. Qed.

Lemma mirrored_room P a a' x : read (E := InProcessAuthorityError E) room a = (a', Ok x) → mirrored P (read room) a a' x.
Proof using Type. intros Hr. apply mirrored_read; [done|]. by intros r []. Qed.

Lemma mirrored_denial P command reason policy a a' x : send_denial (E := E) command reason policy a = (a', Ok x) →
  (routed (transport a) (principal_id command) → principal_id command ∈ P) →
  mirrored P (send_denial command reason policy) a a' x.
Proof using Type.
  unfold send_denial. intros Hs Hp. apply mirrored_bind; [done|]. intros a1 n Hn Hs1.
  pose proof (steps_next_sequence (E := E) a) as D1. rewrite Hn in D1. split; [by apply mirrored_sequence|].
  apply mirrored_bind; [done|]. intros a2 st Hrd Hs2. split; [by apply mirrored_room|].
  apply read_Ok in Hrd as [-> ->]. apply mirrored_bind; [done|]. intros a3 id Hid Hs3.
  split; [by apply mirrored_identifier|]. apply lift_Ok in Hid as [-> _].
  apply mirrored_bind; [done|]. intros a4 sg Hsg Hs4. split; [by apply mirrored_lift|]. apply lift_Ok in Hsg as [-> _].
  apply mirrored_send; [done|]. cbn. intros Hrt. apply Hp.
  by rewrite (same_routes_routed _ _ _ (dl_transport _ _ D1)) in Hrt.
Qed.

Lemma mirrored_projection P correlation p a a' x : send_projection (E := E) correlation p a = (a', Ok x) → p ∈ P →
  mirrored P (send_projection correlation p) a a' x.
Proof using Type.
  unfold send_projection. intros Hs Hp. apply mirrored_bind; [done|]. intros a1 st Hrd Hs1. split; [by apply mirrored_room|].
  apply mirrored_bind; [done|]. intros a2 pl Hpl Hs2. split; [by apply mirrored_lift|].
  apply mirrored_bind; [done|]. intros a3 n Hn Hs3. split; [by apply mirrored_sequence|].
  apply mirrored_bind; [done|]. intros a4 id Hid Hs4. split; [by apply mirrored_identifier|].
  apply mirrored_bind; [done|]. intros a5 ca Hca Hs5. split; [by apply mirrored_identifier|].
  apply mirrored_bind; [done|]. intros a6 sg Hsg Hs6. split; [by apply mirrored_lift|].
  by apply mirrored_send.
Qed.

Lemma mirrored_broadcast P correlation a a' x : broadcast_projections (E := E) correlation a = (a', Ok x) →
  (∀ p, p ∈ principals (room a) → p ∈ P) → mirrored P (broadcast_projections correlation) a a' x.
Proof using Type.
  unfold broadcast_projections. intros Hs Hp. apply mirrored_bind; [done|]. intros a1 ps Hrd Hs1. split.
  - apply mirrored_read; [done|]. intros r Hr. by rewrite (mi_room _ _ _ Hr).
  - apply mirrored_for_each; [done|]. intros p a2 a3 u Hin Hf. apply mirrored_projection; [done|].
    apply Hp. apply read_Ok in Hrd as [_ ->]. apply list_elem_of_fmap in Hin as (m & -> & Hm).
    apply list_elem_of_fmap. exists m. split; [done|]. apply list_elem_of_In, List.filter_In in Hm as [Hm _].
    by apply list_elem_of_In.
Qed.

(** ** Commits *)

Lemma mirrored_record P e a a' x : record_committed (E := E) e a = (a', Ok x) → mirrored P (record_committed e) a a' x.
Proof using Type.
  unfold record_committed. intros Hs. apply mirrored_bind; [done|]. intros a1 u Hu Hs1. split.
  - apply mirrored_update; [done|]. intros r []. split; cbn; (done || congruence).
  - destruct (ev_kind e); try by apply mirrored_ret. apply mirrored_bind; [done|]. intros a2 n Hn Hs2.
    split; [by apply mirrored_lift|]. apply mirrored_update; [done|]. intros r []. split; cbn; (done || congruence).
Qed.

Lemma mirrored_clock P e a a' x : drive_clock (E := E) e a = (a', Ok x) → mirrored P (drive_clock e) a a' x.
Proof using Type.
  intros Hs. apply mirrored_update; [done|]. intros r []. destruct (ev_kind e); try done; split; cbn; (done || congruence).
Qed.

Lemma mirrored_commit P events a a' x : commit_events (E := E) events a = (a', Ok x) →
  mirrored P (commit_events events) a a' x.
Proof using Type.
  unfold commit_events. intros Hs. apply mirrored_bind; [done|]. intros a1 st Hrd Hs1. split; [by apply mirrored_room|].
  cbv zeta in *. apply mirrored_bind; [done|]. intros a2 c Hc Hs2. split; [by apply mirrored_lift|].
  apply mirrored_bind; [done|]. intros a3 u Hu Hs3. split.
  { apply mirrored_update; [done|]. intros r []. split; cbn; (done || congruence). }
  apply mirrored_bind; [done|]. intros a4 u' Hu' Hs4. split.
  - destruct (already_applied st events); [by apply mirrored_ret|].
    apply mirrored_for_each; [done|]. intros. by apply mirrored_record.
  - apply mirrored_for_each; [done|]. intros. by apply mirrored_clock.
Qed.

Lemma mirrored_answer P p id d n a a' x : answer (E := E) p id d n a = (a', Ok x) → mirrored P (answer p id d n) a a' x.
Proof using Type.
  unfold answer. intros Hs. apply mirrored_bind; [done|]. intros a1 st Hrd Hs1. split; [by apply mirrored_room|].
  by apply mirrored_ret.
Qed.

(** ** Inputs *)

Lemma mirrored_command P p command a a' x : process_command p command a = (a', Ok x) →
  (routed (transport a) (principal_id command) → principal_id command ∈ P) →
  (∀ q, q ∈ principals (room a') → q ∈ P) → mirrored P (process_command p command) a a' x.
Proof using Type.
  unfold InProcess.process_command. intros Hs Hp Hm. apply mirrored_bind; [done|]. intros a1 st Hrd Hs1.
  split; [by apply mirrored_room|]. apply read_Ok in Hrd as [-> ->]. cbv zeta in *. destruct (negb _).
  { apply mirrored_bind; [done|]. intros a2 reason Hr Hs2. split; [by apply mirrored_lift|]. apply lift_Ok in Hr as [-> _].
    apply mirrored_bind; [done|]. intros a3 u Hd Hs3. split; [by apply mirrored_denial|by apply mirrored_answer]. }
  apply mirrored_bind; [done|]. intros a2 au Hr Hs2. split; [by apply mirrored_lift|]. apply lift_Ok in Hr as [-> _].
  destruct (decide payload_json blake3 (room a) au) as [events|[]|]; try done.
  - apply mirrored_bind; [done|]. intros a3 u Hc Hs3. split; [by apply mirrored_commit|].
    apply mirrored_bind; [done|]. intros a4 u' Hb Hs4. split; [|by apply mirrored_answer].
    apply answer_Ok in Hs4 as [-> _]. apply mirrored_broadcast; [done|].
    pose proof (steps_broadcast (E := E) (correlation_id command) a3) as Hd. rewrite Hb in Hd. by rewrite <-(dl_room _ _ Hd).
  - apply mirrored_bind; [done|]. intros a3 u Hd Hs3. split; [by apply mirrored_denial|by apply mirrored_answer].
Qed.

Lemma mirrored_disconnect P p id a a' x : process_disconnect p id a = (a', Ok x) →
  (∀ q, q ∈ principals (room a') → q ∈ P) → mirrored P (process_disconnect p id) a a' x.
Proof using Type.
  unfold InProcess.process_disconnect. intros Hs Hm. apply mirrored_bind; [done|]. intros a1 c Hc Hs1.
  split; [by apply mirrored_identifier|]. cbv zeta in *.
  apply mirrored_bind; [done|]. intros a2 st Hrd Hs2. split; [by apply mirrored_room|].
  apply mirrored_bind; [done|]. intros a3 events He Hs3. split; [by apply mirrored_lift|].
  apply mirrored_bind; [done|]. intros a4 u Hco Hs4. split; [by apply mirrored_commit|].
  apply mirrored_bind; [done|]. intros a5 u' Hb Hs5. split; [|by apply mirrored_answer].
  apply answer_Ok in Hs5 as [-> _]. apply mirrored_broadcast; [done|].
  pose proof (steps_broadcast (E := E) c a4) as Hd. rewrite Hb in Hd. by rewrite <-(dl_room _ _ Hd).
Qed.

Lemma mirrored_expiry P expiry a a' x : expire_countdown expiry a = (a', Ok x) →
  (routed (transport a) (authority_clock (room a)) → authority_clock (room a) ∈ P) → (∀ q, q ∈ principals (room a) → q ∈ P) →
  mirrored P (expire_countdown expiry) a a' x.
Proof using Type.
  intros Hs Hr Hm. pose proof Hs as (command & Hid & _ & _ & Hc & Hp)%expire_countdown_Ok.
  pose proof Hs as [_ He]%expire_countdown_effect.
  unfold InProcess.expire_countdown in *. apply mirrored_bind; [done|]. intros a1 n Hn Hs1.
  split; [by apply mirrored_sequence|]. unfold next_sequence in Hn.
  apply M_bind_Ok in Hn as (a2 & n' & [-> ->]%read_Ok & Hn).
  apply M_bind_Ok in Hn as (a3 & u & ->%update_Ok & [-> ->]%mret_Ok).
  apply mirrored_bind; [done|]. intros a2 st Hrd Hs2. split; [by apply mirrored_room|]. cbv zeta in *.
  apply read_Ok in Hrd as [-> ->]. apply mirrored_bind; [done|]. intros a3 command' Hc' Hs3.
  split; [by apply mirrored_lift|]. apply lift_Ok in Hc' as [-> Hc']. cbn [room with_next_delivery] in *.
  assert (command' = command) as -> by congruence. apply mirrored_command; [done|by rewrite Hid|].
  intros q [Hq|[]]%(ef_members _ _ _ He). by apply Hm.
Qed.

Lemma mirrored_expiries P expiries outcomes a a' x : expire_all expiries outcomes a = (a', Ok x) →
  (routed (transport a) (authority_clock (room a)) → authority_clock (room a) ∈ P) → (∀ q, q ∈ principals (room a) → q ∈ P) →
  mirrored P (expire_all expiries outcomes) a a' x.
Proof using Type.
  revert outcomes a. induction expiries as [|expiry expiries IH]; intros outcomes a Hs Hr Hm; cbn [InProcess.expire_all] in *.
  { by apply mirrored_ret. }
  apply mirrored_bind; [done|]. intros a1 o Ho Hs1. split; [by apply mirrored_expiry|].
  apply expire_countdown_effect in Ho as [_ [Hro Hi _ Hmo]]. apply IH; [done| |].
  - injection Hi as _ Hi _. by rewrite Hi, (same_routes_routed _ _ _ Hro).
  - intros q [Hq|[]]%Hmo. by apply Hm.
Qed.

Lemma mirrored_advance P tick a a' x : advance_clock_to tick a = (a', Ok x) →
  (routed (transport a) (authority_clock (room a)) → authority_clock (room a) ∈ P) → (∀ q, q ∈ principals (room a) → q ∈ P) →
  mirrored P (advance_clock_to tick) a a' x.
Proof using Type.
  intros Hs Hr Hm. unfold InProcess.advance_clock_to in *. apply mirrored_bind; [done|]. intros a1 c Hc Hs1. split.
  { apply mirrored_read; [done|]. intros r Hx. by rewrite (mi_clock _ _ _ Hx). }
  apply read_Ok in Hc as [-> ->]. apply mirrored_bind; [done|]. intros a2 u Hu Hs2. split.
  { apply mirrored_update; [done|]. intros r []. split; cbn; (done || congruence). }
  apply update_Ok in Hu as ->. apply mirrored_bind; [done|]. intros a3 n Hn Hs3. split.
  { apply mirrored_read; [done|]. by intros r []. }
  apply read_Ok in Hn as [-> ->]. apply mirrored_bind; [done|]. intros a4 u' Hu' Hs4. split.
  { apply mirrored_update; [done|]. intros r []. split; cbn; (done || congruence). }
  apply update_Ok in Hu' as ->. by apply mirrored_expiries.
Qed.

(** ** Replaying a run *)

Lemma replay_inputs_app P inputs1 inputs2 r :
  replay_inputs P (inputs1 ++ inputs2) r = (replay_inputs P inputs1 ≫= λ P', replay_inputs P' inputs2) r.
Proof using Type.
  revert P r. induction inputs1 as [|input inputs1 IH]; intros P r; [done|]. cbn [app InProcess.replay_inputs].
  unfold mbind, M_bind. destruct (replay_input P input r) as [r1 [P1|e|]]; [|done..]. apply IH.
Qed.

Lemma replay_snoc P P1 P2 inputs input r r1 r2 : replay_inputs P inputs r = (r1, Ok P1) →
  replay_input P1 input r1 = (r2, Ok P2) → replay_inputs P (inputs ++ [input]) r = (r2, Ok P2).
Proof using Type.
  intros H1 H2. rewrite replay_inputs_app. apply M_bind_Ok. exists r1, P1. split; [done|].
  cbn [InProcess.replay_inputs]. apply M_bind_Ok. by exists r2, P2.
Qed.

(** At most [n] connections were opened, each under its own number. *)
Record numbered_routes (n : nat) (t : InProcessTransport) : Prop := {
  nr_ids : ∀ id c, connections t !! id = Some c → (id < next_connection t)%Z;
  nr_next : (0 <= next_connection t <= Z.of_nat n)%Z;
}.

Lemma numbered_same n t t' : same_routes t t' → numbered_routes n t → numbered_routes n t'.
Proof using Type.
  intros Hs [H1 H2]. split; rewrite (sr_connection _ _ Hs); [|done]. intros id c Hc.
  pose proof (same_routes_lookup _ _ id Hs) as Hx. rewrite Hc in Hx.
  destruct (connections t !! id) as [c'|] eqn:Hc'; [by eapply H1|done].
Qed.

Lemma numbered_le n n' t : n ≤ n' → numbered_routes n t → numbered_routes n' t.
Proof using Type. intros Hn [H1 H2]. split; [done|lia]. Qed.

Lemma mirrors_connect P a r p n : (Z.of_nat n + 1 < 2 ^ 64)%Z → mirrors P a r → numbered_routes n (transport r) →
  ∃ r', (if bool_decide (p ∈ P) then mret tt else _ ← on_transport (E := E) (connect p); mret tt) r = (r', Ok tt) ∧
    mirrors ({[p]} ∪ P) a r' ∧ journal r' = journal r ∧ numbered_routes (S n) (transport r').
Proof using Type.
  intros Hlt Hr Hn. case_bool_decide as Hp.
  { exists r. replace ({[p]} ∪ P) with P by set_solver. split_and!; try done. by eapply numbered_le; [|exact Hn]; lia. }
  eexists. split; [reflexivity|]. destruct Hr as [H1 H2 H3 H4 H5 H6 H7], Hn as [Hids Hnext].
  assert (saturating_add 64 (next_connection (transport r)) 1 = next_connection (transport r) + 1)%Z as Hsat.
  { unfold saturating_add, umax. lia. }
  split; [|split; [done|]].
  - split; try done. intros q Hq. cbn. destruct (base.decide (q = p)) as [->|Hne].
    + exists (next_connection (transport r)). eexists. split; [apply lookup_insert_eq|].
      unfold live_route. cbn. by rewrite bool_decide_eq_true_2.
    + destruct (H7 q) as (id & c & Hc & Hl); [set_solver|]. exists id, c. split; [|done].
      refine (eq_trans (lookup_insert_ne _ _ _ _ _) Hc). apply Hids in Hc. lia.
  - split; cbn; rewrite Hsat; [|lia].
    intros id c [[<- _]|[_ Hc]]%lookup_insert_Some; [lia|]. apply Hids in Hc. lia.
Qed.

(** One journaled command replayed. *)
Lemma replay_command P a a' r p command o n : (Z.of_nat n + 1 < 2 ^ 64)%Z →
  process_command p command a = (a', Ok o) → principal_id command = p →
  (∀ q, q ∈ principals (room a') → q ∈ {[p]} ∪ P) → mirrors P a r → numbered_routes n (transport r) →
  ∃ r', replay_input P (JournalCommand p command) r = (r', Ok ({[p]} ∪ P)) ∧ mirrors ({[p]} ∪ P) a' r' ∧
    journal r' = journal r ++ [JournalCommand p command] ∧ numbered_routes (S n) (transport r').
Proof using Type.
  intros Hlt Hp Hid Hm Hr Hn. destruct (mirrors_connect P a r p n Hlt Hr Hn) as (r1 & Hc & Hr1 & Hj1 & Hn1).
  destruct (mirrored_command ({[p]} ∪ P) p command a a' o Hp) with (r := r1) as (r2 & Hp2 & Hr2); [set_solver|done|done|].
  pose proof (process_command_effect _ _ _ _ _ _ _ Hp2) as [Hj2 He2].
  exists (with_journal r2 (journal r2 ++ [JournalCommand p command])). split.
  - cbn [InProcess.replay_input]. apply M_bind_Ok. exists r1, tt. split; [exact Hc|].
    apply M_bind_Ok. exists r2, o. split; [exact Hp2|]. reflexivity.
  - split; [by destruct Hr2; split|]. split; [cbn; congruence|]. by apply (numbered_same _ _ _ (ef_routes _ _ _ He2)).
Qed.

Lemma replay_disconnect P a a' r p id o n : process_disconnect p id a = (a', Ok o) →
  (∀ q, q ∈ principals (room a') → q ∈ P) → mirrors P a r → numbered_routes n (transport r) →
  ∃ r', replay_input P (JournalDisconnected p id) r = (r', Ok P) ∧ mirrors P a' r' ∧
    journal r' = journal r ++ [JournalDisconnected p id] ∧ numbered_routes n (transport r').
Proof using Type.
  intros Hp Hm Hr Hn. destruct (mirrored_disconnect P p id a a' o Hp Hm r Hr) as (r2 & Hp2 & Hr2).
  pose proof (process_disconnect_effect _ _ _ _ _ _ Hp2) as [Hj2 He2].
  exists (with_journal r2 (journal r2 ++ [JournalDisconnected p id])). split.
  - cbn [InProcess.replay_input]. apply M_bind_Ok. exists r2, o. split; [exact Hp2|]. reflexivity.
  - split; [by destruct Hr2; split|]. split; [cbn; congruence|]. by apply (numbered_same _ _ _ (ef_routes _ _ _ He2)).
Qed.

Lemma replay_clock P a a' r tick os n : advance_clock_to tick a = (a', Ok os) →
  (routed (transport a) (authority_clock (room a)) → authority_clock (room a) ∈ P) → (∀ q, q ∈ principals (room a) → q ∈ P) →
  mirrors P a r → numbered_routes n (transport r) →
  ∃ r', replay_input P (JournalClockAdvance tick (next_delivery a)) r = (r', Ok P) ∧ mirrors P a' r' ∧
    journal r' = journal r ++ [JournalClockAdvance tick (next_delivery a)] ∧ numbered_routes n (transport r').
Proof using Type.
  intros Hp Hu Hm Hr Hn.
  assert (mirrors P a (with_next_delivery r (next_delivery a))) as Hr1 by (by destruct Hr; split).
  destruct (mirrored_advance P tick a a' os Hp Hu Hm _ Hr1) as (r2 & Hp2 & Hr2).
  pose proof (advance_clock_effect _ _ _ _ _ _ Hp2) as [Hj2 He2].
  exists r2. split.
  - cbn [InProcess.replay_input]. apply M_bind_Ok. eexists _, tt. split; [reflexivity|].
    apply M_bind_Ok. by exists r2, os.
  - split; [done|]. split; [done|]. by apply (numbered_same _ _ _ (ef_routes _ _ _ He2)).
Qed.

(** What replaying the journal of [a] leads to. *)
Definition replayed (initial : SessionState G) a : Prop :=
  ∃ r, replay_inputs ∅ (journal a) (authority_new initial (transport_new Typed)) = (r, Ok (journaled (journal a))) ∧
    mirrors (journaled (journal a)) a r ∧ journal r = journal a ∧
    numbered_routes (length (journal a)) (transport r).

Lemma replayed_input P initial a a' input r r' : journal a' = journal a ++ [input] →
  replay_inputs ∅ (journal a) (authority_new initial (transport_new Typed)) = (r, Ok P) → P = journaled (journal a) →
  journal r = journal a → replay_input P input r = (r', Ok (journaled (journal a'))) →
  mirrors (journaled (journal a')) a' r' → journal r' = journal r ++ [input] →
  numbered_routes (S (length (journal a))) (transport r') → replayed initial a'.
Proof using Type.
  intros Hj Hre -> Hjr Hin Hmi Hjr' Hn. exists r'. split; [|split; [done|split; [congruence|]]].
  - rewrite Hj at 1. eapply replay_snoc; [exact Hre|exact Hin].
  - rewrite Hj, length_app. cbn. by rewrite Nat.add_1_r.
Qed.

(** When a client is connected as the clock, a command in its name has been served. *)
Definition clock_known a : Prop :=
  routed (transport a) (authority_clock (room a)) → authority_clock (room a) ∈ journaled (journal a).

Lemma run_replayed (before : InProcessAuthority G → Prop) initial a : members initial = [] → run (E := E) payload_json blake3 before clock_known initial a →
  (Z.of_nat (length (journal a)) < 2 ^ 64)%Z → replayed initial a.
Proof using Type.
  intros Hnone Hrun. pose proof (run_members payload_json blake3 before clock_known initial a Hnone Hrun) as Hmem.
  induction Hrun as [c Hc|a op Hrun IH|a a' o Hrun IH _ Hd|a a' tick os Hrun IH Hknown Hd]; intros Hlen.
  - eexists. split; [reflexivity|]. split; [|split; [done|]].
    + by split.
    + split; [|done]. intros id x Hx. destruct (lookup_empty_Some _ _ Hx).
  - destruct (IH Hmem Hlen) as (r & Hre & [] & Hj & Hn). exists r. by split_and!.
  - pose proof (run_members payload_json blake3 before clock_known initial a Hnone Hrun) as Hmem0.
    pose proof (run_bound _ _ _ _ _ _ Hrun) as [Hb _].
    apply drive_one_Ok in Hd. destruct (ingress (transport a)) as [|input rest] eqn:Hq.
    { destruct Hd as [-> _]. by apply IH. }
    destruct Hd as (o' & _ & Hd). destruct (bound_take _ _ _ Hb Hq) as [_ Hin].
    assert (journal a' = journal a ++ [journal_input input]) as Hj'.
    { by apply (process_ingress_effect _ _ _ _ _ _ Hin) in Hd as [Hj _]. }
    rewrite Hj', length_app in Hlen. cbn in Hlen.
    destruct (IH Hmem0) as (r & Hre & Hmi & Hjr & Hn); [lia|].
    assert (mirrors (journaled (journal a)) (take_input a input rest) r) as Hmi' by (by destruct Hmi; split).
    rewrite Hj' in Hmem. setoid_rewrite journaled_snoc in Hmem.
    destruct input as [id p command|id p observation]; cbn [InProcess.process_ingress ingress_bound journal_input] in *.
    + destruct (replay_command _ _ _ r p command o' (length (journal a)) ltac:(lia) Hd Hin Hmem Hmi' Hn) as (r' & Hre' & Hmi1 & Hjr' & Hn').
      eapply (replayed_input _ initial a a' _ r r'); [exact Hj'|exact Hre|done|done|..]; rewrite ?Hj', ?journaled_snoc; done.
    + destruct (replay_disconnect (journaled (journal a)) _ a' r p observation o' (length (journal a)) Hd)
        as (r' & Hre' & Hmi1 & Hjr' & Hn'); [|done|done|].
      { intros q Hx. apply Hmem in Hx. set_solver. }
      eapply (replayed_input _ initial a a' _ r r'); [exact Hj'|exact Hre|done|done|..]; rewrite ?Hj', ?journaled_snoc, ?(left_id_L ∅ (∪)); try done.
      by eapply numbered_le; [|exact Hn']; lia.
  - pose proof (run_members payload_json blake3 before clock_known initial a Hnone Hrun) as Hmem0.
    pose proof (run_bound _ _ _ _ _ _ Hrun) as [Hb Hid]. pose proof Hd as [Hj' _]%advance_clock_effect.
    rewrite Hj', length_app in Hlen. cbn in Hlen. destruct (IH Hmem0) as (r & Hre & Hmi & Hjr & Hn); [lia|].
    destruct (replay_clock (journaled (journal a)) a a' r tick os (length (journal a)) Hd)
      as (r' & Hre' & Hmi1 & Hjr' & Hn'); [|done|done|done|].
    { exact Hknown. }
    eapply (replayed_input _ initial a a' _ r r'); [exact Hj'|exact Hre|done|done|..]; rewrite ?Hj', ?journaled_snoc, ?(left_id_L ∅ (∪)); try done.
    by eapply numbered_le; [|exact Hn']; lia.
Qed.
End Recovery.
