(* ===== verification/InProcessLedger.v ===== *)
(** * The committed events of an authority

    Along a run, the committed events are the log of the room, numbered without a
    gap, and the chat tail is the end of its chat.  The clock holds the expiry of the
    countdown that the room is in. *)

From stdpp Require Import base strings numbers option list gmap pretty.
From S2P Require Import Prelude Methods Protocol Frames FrameTheorems SessionState SessionMachine InProcess SessionValid SessionPreserve SessionDecide SessionLog SessionTheorems InProcessRuns.

(** ** Chat tail *)

(** The last [n] elements. *)
Definition last_n {A} (n : nat) (l : list A) : list A := drop (length l - n) l.

Lemma evict_drop c l : c ≠ 0 → evict c l = drop (S (length l) - c) l.
Proof.
  intros Hc. induction l as [|e l IH]; cbn [evict]; [by rewrite drop_nil|].
  destruct (Nat.leb_spec c (length (e :: l))) as [Hl|Hl].
  - rewrite IH. simpl in Hl. cbn [length].
    replace (S (S (length l)) - c) with (S (S (length l) - c)) by lia. done.
  - replace (S (length (e :: l)) - c) with 0 by lia. done.
Qed.

Lemma last_n_snoc {A} n (l : list A) x : n ≠ 0 → last_n n (l ++ [x]) = drop (S (length (last_n n l)) - n) (last_n n l) ++ [x].
Proof.
  intros Hn. unfold last_n. rewrite length_app, length_drop. cbn [length]. rewrite drop_drop.
  replace (length l - n + (S (length l - (length l - n)) - n)) with (length l + 1 - n) by lia.
  apply drop_app_le. lia.
Qed.

Lemma chat_push_last n l e t : capacity t = n → n ≠ 0 → chat_entries t = last_n n l →
  capacity (chat_push t e) = n ∧ chat_entries (chat_push t e) = last_n n (l ++ [e]).
Proof.
  intros Hc Hn Hl. unfold chat_push. rewrite (proj2 (Nat.eqb_neq _ _)) by congruence. cbn. split; [done|].
  rewrite evict_drop by congruence. rewrite Hc, Hl. symmetry. by apply last_n_snoc.
Qed.

Lemma chat_pushes_last n l es t : capacity t = n → n ≠ 0 → chat_entries t = last_n n l →
  capacity (foldl chat_push t es) = n ∧ chat_entries (foldl chat_push t es) = last_n n (l ++ es).
Proof.
  revert l t. induction es as [|e es IH]; intros l t Hc Hn Hl; cbn [foldl]; [by rewrite app_nil_r|].
  destruct (chat_push_last n l e t Hc Hn Hl) as [Hc' Hl']. destruct (IH (l ++ [e]) _ Hc' Hn Hl') as [H1 H2].
  split; [done|]. by rewrite H2, <-app_assoc.
Qed.

Section Ledger.
Context {G E : Type} `{EqDecision G} `{SessionGame G E} `{Serde}.
Context (payload_json : CommandPayload → option (list Z)) (blake3 : list Z → list Z).
Implicit Types (a : InProcessAuthority G) (st : SessionState G) (e : SessionEvent G).

Definition log st : list (SessionEvent G) := concat (pc_events <$> processed_commands st).

(** The revision of the room before the event. *)
Definition event_position e : Z := (ep_base_revision (ev_provenance e) + ep_event_index (ev_provenance e))%Z.

(** ** Stamps *)

Lemma stamp_lookup id hash principal correlation revision decision off kinds (events : list (SessionEvent G)) j e :
  mapM (stamp (E := E) id hash principal correlation revision decision) (imap (λ i, pair (off + i)) kinds) = Ok events →
  events !! j = Some e → ep_command_id (ev_provenance e) = id ∧ ep_command_hash (ev_provenance e) = hash ∧
  event_position e = (revision + Z.of_nat (off + j))%Z.
Proof using Type.
  revert off events j. induction kinds as [|k kinds IH]; intros off events j Hm Hj; [by injection Hm as <-|].
  apply mapM_stamp_cons in Hm as (e0 & rest & -> & _ & (H1 & H2 & _ & H3 & H4) & Hrest). destruct j as [|j].
  - injection Hj as <-. unfold event_position. split_and!; [done|done|lia].
  - destruct (IH (S off) rest j Hrest Hj) as (? & ? & ->). split_and!; [done|done|lia].
Qed.

(** The events of a batch stand right after the log. *)
Definition positioned st (id : CommandId) (events : list (SessionEvent G)) : Prop :=
  ∀ j e, events !! j = Some e →
    ep_command_id (ev_provenance e) = id ∧ event_position e = (st_revision st + Z.of_nat j)%Z.

Lemma decide_positioned st authorized events : decide (E := E) payload_json blake3 st authorized = Ok events →
  find_record st (command_id (ac_command authorized)) = None → positioned st (command_id (ac_command authorized)) events.
Proof using Type.
  intros Hd Hf. unfold decide in Hd. apply bind_Ok in Hd as ([] & _ & Hd). apply bind_Ok in Hd as (hash & _ & Hd).
  rewrite Hf in Hd. inv_guard Hd. apply bind_Ok in Hd as (kinds & _ & Hm).
  intros j e Hj. destruct (stamp_lookup _ _ _ _ _ _ 0 _ _ _ _ Hm Hj) as (? & _ & ?). done.
Qed.

Lemma disconnect_positioned st p id hash correlation events :
  decide_transport_disconnect (E := E) st p id hash correlation = Ok events → positioned st id events.
Proof using Type.
  unfold decide_transport_disconnect. intros (u & _ & (m & _ & Hd)%bind_Ok)%bind_Ok. inv_guard Hd.
  intros j e Hj. destruct (stamp_lookup _ _ _ _ _ _ 0 _ _ _ _ Hd Hj) as (? & _ & ?). done.
Qed.

(** ** What is new in a batch *)

Lemma not_applied st id events : positioned st id events → find_record st id = None →
  already_applied st events = false.
Proof using Type.
  intros Hp Hf. unfold already_applied. destruct events as [|e events]; [done|]. cbn [head is_some_and].
  destruct (Hp 0 e eq_refl) as [-> _]. apply not_true_is_false. intros (record & Hin & Hr)%existsb_exists.
  apply list_elem_of_In in Hin. apply andb_true_iff in Hr as [Hr _]. apply bool_decide_eq_true in Hr.
  apply list_find_None in Hf. rewrite Forall_forall in Hf. by apply (Hf _ Hin).
Qed.

Lemma known_applied st authorized events : decide (E := E) payload_json blake3 st authorized = Ok events →
  is_Some (find_record st (command_id (ac_command authorized))) → events = [] ∨ already_applied st events = true.
Proof using Type.
  intros Hd [[i record] Hf]. unfold decide in Hd. apply bind_Ok in Hd as ([] & Hv%map_err_Ok & Hd).
  apply bind_Ok in Hd as (hash & _ & Hd). rewrite Hf in Hd. destruct (bool_decide _); [|done]. injection Hd as <-.
  destruct (pc_events record) as [|e events] eqn:He; [by left|right].
  pose proof (lo_records _ (proj2 (proj1 (validate_valid st) Hv))) as Hall. rewrite Forall_forall in Hall.
  apply list_find_Some in Hf as (Hi & _). pose proof (list_elem_of_lookup_2 _ _ _ Hi) as Hin.
  destruct (Hall record Hin 0 e) as (H1 & H2 & _); [by rewrite He|].
  unfold already_applied. cbn [head is_some_and]. apply existsb_exists. exists record.
  split; [by apply list_elem_of_In|]. by rewrite !bool_decide_eq_true_2.
Qed.

(** ** Ledgers *)

Record ledger (initial : SessionState G) a : Prop := {
  lg_served : served (E := E) payload_json blake3 initial (room a);
  lg_positions : ∀ i e, log (room a) !! i = Some e → event_position e = Z.of_nat i;
  lg_nonempty : Forall (λ r, pc_events r ≠ []) (processed_commands (room a));
  lg_committed : committed_events a = committed <$> log (room a);
  lg_capacity : capacity (chat_tail a) = DEFAULT_CHAT_TAIL_CAPACITY;
  lg_chat : chat_entries (chat_tail a) = last_n DEFAULT_CHAT_TAIL_CAPACITY (omap chat_of (log (room a)));
}.

Lemma ledger_same initial a a' : room a' = room a → committed_events a' = committed_events a →
  chat_tail a' = chat_tail a → ledger initial a → ledger initial a'.
Proof using Type. intros Hr Hc Ht [H1 H2 H3 H4 H5 H6]. split; rewrite ?Hr, ?Hc, ?Ht; done. Qed.

Lemma ledger_delivered initial a a' : delivered a a' → ledger initial a → ledger initial a'.
Proof using Type. intros []. by apply ledger_same. Qed.

(** One batch, of which [fresh] is new. *)
Lemma ledger_commit initial a id events fresh candidate : fresh_room initial → ledger initial a →
  fresh = (if already_applied (room a) events then [] else events) →
  extends (E := E) (room a) fresh candidate → positioned (room a) id fresh →
  served (E := E) payload_json blake3 initial candidate → ledger initial (after_commit a events candidate).
Proof using Type.
  intros Hinit Hl -> He Hp Hs. set (fresh := if already_applied (room a) events then [] else events) in *.
  destruct (served_inv _ _ _ _ Hinit (lg_served _ _ Hl)) as (_ & _ & Hrev).
  pose proof (extends_log _ _ _ He) as Hlog. fold (log candidate) (log (room a)) in Hlog.
  destruct (chat_pushes_last DEFAULT_CHAT_TAIL_CAPACITY (omap chat_of (log (room a))) (omap chat_of fresh) (chat_tail a)) as [Hcap Hchat];
    [apply Hl|done|apply Hl|].
  split; cbn [room committed_events chat_tail after_commit]; fold fresh; try done.
  - intros i e Hi. rewrite Hlog in Hi. apply lookup_app_Some in Hi as [Hi|[Hlen Hi]]; [by apply Hl|].
    destruct (Hp _ _ Hi) as [_ ->]. fold (log (room a)) in Hrev. lia.
  - destruct He as [_ _ _ (records & -> & _ & Hne)]. apply Forall_app. split; [apply Hl|done].
  - by rewrite (lg_committed _ _ Hl), Hlog, fmap_app.
  - by rewrite Hlog, omap_app.
Qed.

Lemma ledger_command initial a a' p command o : fresh_room initial → ledger initial a → headroom (room a) →
  process_command (E := E) payload_json blake3 p command a = (a', Ok o) → ledger initial a'.
Proof using Type.
  intros Hinit Hl Hroom Hp. apply process_command_Ok in Hp as [reason _ _ Hd _|authorized events candidate Hc Hd Hf Hs _ Hdl].
  { by eapply ledger_delivered. }
  apply (ledger_delivered _ _ _ Hdl). destruct (served_inv _ _ _ _ Hinit (lg_served _ _ Hl)) as (Hinv & _ & _).
  destruct (decide_extends _ _ _ _ _ _ Hinv Hroom Hd Hf) as (_ & _ & He). unfold fresh_events in He.
  assert (served (E := E) payload_json blake3 initial candidate) as Hsv by (eapply served_command; [apply Hl|done|exact Hs]).
  destruct (find_record (room a) (command_id (ac_command authorized))) as [r|] eqn:Hr.
  - destruct (known_applied _ _ _ Hd) as [->|Ha]; [by rewrite Hr| |].
    + eapply (ledger_commit _ _ (command_id command)); [done|done|reflexivity|destruct (already_applied _ _); exact He| |done].
      intros j e Hj. by destruct (already_applied _ _).
    + eapply (ledger_commit _ _ (command_id command)); [done|done|reflexivity|rewrite Ha; exact He| |done].
      intros j e Hj. by rewrite Ha in Hj.
  - pose proof (decide_positioned _ _ _ Hd Hr) as Hpos. pose proof (not_applied _ _ _ Hpos Hr) as Hna.
    eapply ledger_commit; [done|done|by rewrite Hna|exact He|exact Hpos|done].
Qed.

(** An observation is always new: an old identifier is a conflict. *)
Lemma disconnect_fresh initial a p id hash correlation events candidate : fresh_room initial → ledger initial a →
  decide_transport_disconnect (E := E) (room a) p id hash correlation = Ok events →
  foldM (apply (E := E)) events (room a) = Ok candidate → find_record (room a) id = None.
Proof using Type.
  intros Hinit Hl Hd Hf. destruct (find_record (room a) id) as [[i record]|] eqn:Hr; [exfalso|done].
  destruct (served_inv _ _ _ _ Hinit (lg_served _ _ Hl)) as (_ & _ & Hrev). fold (log (room a)) in Hrev.
  pose proof (disconnect_positioned _ _ _ _ _ _ Hd) as Hpos.
  destruct events as [|e events].
  { unfold decide_transport_disconnect in Hd. apply bind_Ok in Hd as (u & _ & Hd). apply bind_Ok in Hd as (m & _ & Hd).
    inv_guard Hd. apply (stamped_kinds _ _ _ _ _ _ 0) in Hd. symmetry in Hd. by apply app_eq_nil in Hd as [_ ?]. }
  destruct (Hpos 0 e eq_refl) as [Hid Hat]. apply bind_Ok in Hf as (st1 & Ha & _).
  pose proof Hr as (Hi & _ & _)%list_find_Some.
  pose proof (lg_nonempty _ _ Hl) as Hne. rewrite Forall_forall in Hne. pose proof (list_elem_of_lookup_2 _ _ _ Hi) as Hin.
  unfold apply in Ha. apply bind_Ok in Ha as ([] & _ & Ha). rewrite Hid, Hr in Ha. inv_guard Ha.
  assert (ep_event_index (ev_provenance e) = 0%Z) as Hix.
  { unfold decide_transport_disconnect in Hd. apply bind_Ok in Hd as (u & _ & Hd). apply bind_Ok in Hd as (m & _ & Hd).
    inv_guard Hd. destruct ((if seated m then cancel_countdown_first (room a) else []) ++ [MemberDisconnected p]) as [|k ks];
      [by injection Hd|]. apply (mapM_stamp_cons _ _ _ _ _ _ 0) in Hd as (e0 & rest & [= -> ->] & _ & (_ & _ & _ & _ & ->) & _). done. }
  rewrite Hix in Ha. destruct (pc_events record) as [|e0 es] eqn:He; [by apply (Hne _ Hin)|].
  clear Hg. change ((e0 :: es) !! Z.to_nat 0) with (Some e0) in Ha. cbn iota in Ha. case_bool_decide as Hee; [|done]. subst e0.
  assert (e ∈ log (room a)) as (k & Hk)%list_elem_of_lookup.
  { apply list_elem_of_In, in_concat. exists (pc_events record). rewrite He. split; [|by left].
    apply list_elem_of_In, list_elem_of_fmap. by exists record. }
  pose proof (lg_positions _ _ Hl _ _ Hk) as Hkp. pose proof (lookup_lt_Some _ _ _ Hk). lia.
Qed.

Lemma ledger_disconnect initial a a' p id o : fresh_room initial → ledger initial a → headroom (room a) →
  process_disconnect (E := E) blake3 p id a = (a', Ok o) → ledger initial a'.
Proof using Type.
  intros Hinit Hl Hroom (events & candidate & Hd & Hf & Hs & _ & Hdl)%process_disconnect_Ok.
  apply (ledger_delivered _ _ _ Hdl). destruct (served_inv _ _ _ _ Hinit (lg_served _ _ Hl)) as (Hinv & _ & _).
  pose proof (disconnect_fresh _ _ _ _ _ _ _ _ Hinit Hl Hd Hf) as Hr.
  pose proof (disconnect_positioned _ _ _ _ _ _ Hd) as Hpos. pose proof (not_applied _ _ _ Hpos Hr) as Hna.
  destruct (disconnect_extends _ _ _ _ _ _ _ Hinv Hroom Hr Hd Hf) as [_ He].
  eapply ledger_commit; [done|done|by rewrite Hna|exact He|exact Hpos|]. eapply served_disconnect; [apply Hl|done..].
Qed.

Lemma ledger_expiries initial expiries outcomes a a' os : fresh_room initial → ledger initial a →
  expire_all (E := E) payload_json blake3 expiries outcomes a = (a', Ok os) → headroom (room a') → ledger initial a'.
Proof using Type.
  intros Hinit. revert outcomes a. induction expiries as [|expiry expiries IH]; intros outcomes a Hl He Hroom; cbn [expire_all] in He.
  { by apply mret_Ok in He as [-> _]. }
  apply M_bind_Ok in He as (a1 & o & Ho & He).
  pose proof He as [_ [_ _ Hh _]]%expire_all_effect. pose proof Ho as [_ [_ _ Hh1 _]]%expire_countdown_effect.
  apply expire_countdown_Ok in Ho as (command & _ & _ & _ & _ & Hp). eapply IH; [|exact He|done].
  eapply (ledger_command _ (with_next_delivery a (saturating_add 64 (next_delivery a) 1)) a1); [done| |by apply Hh1, Hh|exact Hp]. by apply (ledger_same _ a).
Qed.

Lemma run_ledger P Q initial a : fresh_room initial → run (E := E) payload_json blake3 P Q initial a → headroom (room a) →
  ledger initial a.
Proof using Type.
  intros Hinit. induction 1 as [c Hc|a op Hrun IH|a a' o Hrun IH _ Hd|a a' tick os Hrun IH _ Hd]; intros Hroom.
  - destruct Hinit as (? & ? & ? & ? & ? & _ & Hi). split; cbn; rewrite ?Hi; try done. apply served_initial.
  - apply (ledger_same _ a); [done..|by apply IH].
  - apply drive_one_Ok in Hd. destruct (ingress (transport a)) as [|input rest] eqn:Hq; [by destruct Hd as [-> _]; apply IH|].
    destruct Hd as (o' & _ & Hd). destruct (run_bound _ _ _ _ _ _ Hrun) as [Hb _].
    destruct (bound_take _ _ _ Hb Hq) as [_ Hin].
    pose proof Hd as [_ [_ _ Hh _]]%(process_ingress_effect _ _ _ _ _ _ Hin).
    assert (headroom (room a)) as Hroom0 by by apply Hh.
    assert (ledger initial (take_input a input rest)) as Hl by (apply (ledger_same _ a); [done..|by apply IH]).
    destruct input; [by eapply ledger_command|by eapply ledger_disconnect].
  - pose proof Hd as [_ [_ _ Hh _]]%advance_clock_effect. apply advance_clock_Ok in Hd.
    eapply ledger_expiries; [done| |exact Hd|done]. apply (ledger_same _ a); [done..|]. by apply IH, Hh.
Qed.
End Ledger.

(** ** The clock and the countdown
    As long as no command is repeated, the clock of an authority holds exactly the
    expiry of the room's countdown, and a countdown does not survive its deadline. *)

Section Clock.
Context {G E : Type} `{EqDecision G} `{SessionGame G E} `{Serde}.
Context (payload_json : CommandPayload → option (list Z)) (blake3 : list Z → list Z).
Implicit Types (a : InProcessAuthority G) (st : SessionState G) (r : RoomId) (c : ManualClock).

(** The expiry a phase asks for. *)
Definition schedule_of r (phase : SessionPhase G) : list ScheduledExpiry :=
  match phase with
  | Countdown deadline_tick token =>
      [{| expiry_room_id := r; expiry_deadline_tick := deadline_tick; expiry_token := token |}]
  | _ => []
  end.

(** The clock holds the expiry of the phase; a closed room's clock is not constrained. *)
Definition tracks r c (phase : SessionPhase G) : Prop := phase ≠ Closed → scheduled c = schedule_of r phase.

(** Every event keeps the clock in step. *)
Fixpoint tracked r (phase : SessionPhase G) (kinds : list (SessionEventKind G)) : Prop :=
  match kinds with
  | [] => True
  | k :: kinds => (∀ c, tracks r c phase → tracks r (clock_effect r c k) (phase_after phase k)) ∧
                  tracked r (phase_after phase k) kinds
  end.

Lemma tracked_fold r phase kinds c : tracked r phase kinds → tracks r c phase →
  tracks r (foldl (clock_effect r) c kinds) (foldl phase_after phase kinds).
Proof using Type.
  revert phase c. induction kinds as [|k kinds IH]; intros phase c Ht Hc; [done|]. destruct Ht as [Hk Ht].
  cbn [foldl]. apply IH; [done|]. by apply Hk.
Qed.

Lemma tracked_app r phase kinds1 kinds2 : tracked r phase kinds1 → tracked r (foldl phase_after phase kinds1) kinds2 →
  tracked r phase (kinds1 ++ kinds2).
Proof using Type.
  revert phase. induction kinds1 as [|k kinds1 IH]; intros phase; [done|]. intros [Hk H1] H2. split; [done|]. by apply IH.
Qed.

(** Events that touch neither the phase nor the clock. *)
Definition still (k : SessionEventKind G) : Prop :=
  match k with
  | MemberJoined _ _ | SeatTaken _ _ | SeatReleased _ _ | ReadyChanged _ _ | MemberDisconnected _ | MemberReconnected _
  | MemberLeft _ | MemberRemoved _ | ChatPosted _ _ | HandViewRequested _ _ _ | HandViewGranted _ _ _ _
  | HandViewDenied _ _ _ | HandViewRevoked _ _ _ | HandCapabilitiesExpired _ => True
  | _ => False
  end.

Lemma tracked_still r phase kinds : Forall still kinds → tracked r phase kinds.
Proof using Type.
  revert phase. induction kinds as [|k kinds IH]; intros phase Hs; [done|]. apply Forall_cons in Hs as [Hk Hs].
  split; [by destruct k|]. by apply IH.
Qed.

Lemma tracked_cancel r st : tracked r (st_phase st) (cancel_countdown_first st).
Proof using Type.
  unfold cancel_countdown_first. destruct (st_phase st) as [| |d t| | | |] eqn:Hp; try done.
  split; [|done]. intros c Hc _. unfold tracks in Hc. cbn in *. rewrite Hc by done. cbn.
  by rewrite !bool_decide_eq_false_2 by auto.
Qed.

Lemma still_expire st reason : Forall still (expire_capabilities_for st reason).
Proof using Type. unfold expire_capabilities_for. destruct (_ || _)%bool; by repeat constructor. Qed.

Lemma tracked_last r phase k : (∀ c, tracks r c phase → tracks r (clock_effect r c k) (phase_after phase k)) →
  tracked r phase [k].
Proof using Type. done. Qed.

(** An optional cancellation, then still events. *)
Lemma tracked_cancel_still r st (cancel : bool) kinds : Forall still kinds →
  tracked r (st_phase st) ((if cancel then cancel_countdown_first st else []) ++ kinds).
Proof using Type.
  intros Hs. destruct cancel; cbn [app]; [|by apply tracked_still].
  apply tracked_app; [apply tracked_cancel|by apply tracked_still].
Qed.

Lemma tracked_transition r st g t change : st_phase st = Running g → tracked r (st_phase st) (transition_event st t change).
Proof using Type.
  intros Hp. unfold transition_event. apply tracked_app.
  { destruct (bool_decide _); [apply tracked_still, still_expire|done]. }
  apply tracked_last. intros c Hc _.
  assert (∀ b : bool, foldl phase_after (st_phase st) (if b then expire_capabilities_for st RoundBoundary else []) =
    st_phase st) as Heq.
  { intros []; [|done]. unfold expire_capabilities_for. by destruct (_ || _)%bool. }
  rewrite Heq, Hp in *. cbn in *. rewrite (Hc ltac:(done)). by destruct (gt_terminal t).
Qed.

(** Every decision keeps the clock in step, except the start of a game, whose
    expiry the clock has already given up. *)
Lemma decide_payload_clock st command kinds : decide_payload (E := E) blake3 st command = Ok kinds →
  (∃ g d t, kinds = [GameStarted g] ∧ payload command = CountdownExpired t ∧ st_phase st = Countdown d t) ∨
  (∀ r, tracked r (st_phase st) kinds) ∧ ∀ t, payload command ≠ CountdownExpired t.
Proof using Type.
  unfold decide_payload. destruct (payload command) eqn:Hpl; intros Hd;
    unfold decide_create, decide_join, decide_take_seat, decide_release_seat, decide_ready, decide_arm_countdown,
      decide_abort_countdown, decide_pause, decide_unpause, decide_chat, decide_reconnect, decide_remove, decide_reset,
      decide_close, decide_request_hand, decide_grant_hand, decide_deny_hand, decide_revoke_hand, denied in Hd.
  9: { left. unfold decide_countdown_expired, denied in Hd. destruct (st_phase st) eqn:Hp; try done. inv_guard Hd.
       apply bool_decide_eq_false, dec_stable in Hg as ->.
       apply bind_Ok in Hd as (seats & _ & Hd). apply bind_Ok in Hd as (g & _ & [= <-]). by repeat eexists. }
  all: right; split; [intros r|done].
  - destruct (st_phase st) eqn:Hp; try done. destruct (st_host st); [done|]. injection Hd as <-.
    apply tracked_last. intros c Hc _. cbn in *. by apply Hc.
  - destruct (st_phase st); try done;
      (destruct (_ || _)%bool; [done|]; destruct (list_find _ _) as [[index record]|]; [|done];
       destruct (_ || _)%bool; [done|]; destruct (_ <? _)%Z; [done|];
       apply bind_Ok in Hd as (j & _ & [= <-]); apply tracked_still; by repeat constructor).
  - destruct (st_phase st) eqn:Hp; try done. inv_guard Hd. apply bind_Ok in Hd as (m & _ & Hd).
    inv_guard Hd. inv_guard Hd. inv_guard Hd. injection Hd as <-. apply tracked_still.
    apply Forall_app. split; [apply still_expire|by repeat constructor].
  - assert (∃ s, kinds = cancel_countdown_first st ++ (expire_capabilities_for st (SeatRoleChanged (principal_id command)) ++
      [SeatReleased (principal_id command) s])) as (s & ->).
    { destruct (st_phase st); try done; apply bind_Ok in Hd as (m & _ & Hd); apply bind_Ok in Hd as (s & _ & [= <-]);
        by exists s. }
    apply (tracked_cancel_still r st true). apply Forall_app. split; [apply still_expire|by repeat constructor].
  - inv_guard Hd. apply bind_Ok in Hd as (m & _ & Hd). inv_guard Hd. inv_guard Hd. injection Hd as <-.
    apply tracked_still. by repeat constructor.
  - inv_guard Hd. apply bind_Ok in Hd as (m & _ & Hd). inv_guard Hd. inv_guard Hd. injection Hd as <-.
    apply (tracked_cancel_still r st true). by repeat constructor.
  - destruct (st_phase st) eqn:Hp; try done. inv_guard Hd. injection Hd as <-. apply tracked_last. intros c Hc _.
    unfold tracks in Hc. cbn in *. by rewrite Hc.
  - destruct (st_phase st) eqn:Hp; try done. injection Hd as <-. rewrite <-Hp.
    pose proof (tracked_cancel r st) as Ht. unfold cancel_countdown_first in Ht. by rewrite Hp in Ht |- *.
  - destruct (st_phase st) eqn:Hp; try done. injection Hd as <-. apply tracked_last. intros c Hc _. cbn in *. by apply Hc.
  - destruct (st_phase st) eqn:Hp; try done. injection Hd as <-. apply tracked_last. intros c Hc _. cbn in *. by apply Hc.
  - unfold decide_game_action, denied, require_member in Hd.
    apply bind_Ok in Hd as (g & Hg%running_game_Ok & Hd). apply bind_Ok in Hd as (m & _ & Hd).
    apply bind_Ok in Hd as (seat & _ & Hd). apply bind_Ok in Hd as (turn & _ & Hd). inv_guard Hd.
    apply bind_Ok in Hd as (t & _ & [= <-]). by eapply tracked_transition.
  - unfold decide_chance, denied in Hd.
    apply bind_Ok in Hd as (g & Hg%running_game_Ok & Hd). apply bind_Ok in Hd as (turn & _ & Hd). inv_guard Hd.
    apply bind_Ok in Hd as (t & _ & [= <-]). by eapply tracked_transition.
  - unfold decide_settle, denied in Hd.
    apply bind_Ok in Hd as (g & Hg%running_game_Ok & Hd). apply bind_Ok in Hd as (turn & _ & Hd). inv_guard Hd.
    apply bind_Ok in Hd as (t & _ & [= <-]). by eapply tracked_transition.
  - apply tracked_still. destruct (st_phase st) eqn:Hp; try done; apply bind_Ok in Hd as (m & _ & Hd); inv_guard Hd;
      injection Hd as <-; by repeat constructor.
  - apply tracked_still. destruct (st_phase st) eqn:Hp; try done; apply bind_Ok in Hd as (m & _ & Hd); inv_guard Hd;
      apply bind_Ok in Hd as (m' & _ & Hd); inv_guard Hd; inv_guard Hd; injection Hd as <-; by repeat constructor.
  - apply tracked_still. inv_guard Hd. apply bind_Ok in Hd as (o & _ & Hd). apply bind_Ok in Hd as (v & _ & Hd).
    inv_guard Hd. injection Hd as <-. by repeat constructor.
  - apply tracked_still. inv_guard Hd. injection Hd as <-. by repeat constructor.
  - apply tracked_still. inv_guard Hd. injection Hd as <-. by repeat constructor.
  - apply tracked_still. apply bind_Ok in Hd as (m & _ & Hd). inv_guard Hd. injection Hd as <-. by repeat constructor.
  - unfold decide_leave, decide_close, denied in Hd. apply bind_Ok in Hd as (m & _ & Hd). destruct (m_host m).
    + destruct (length (members st) =? 1); [|done].
      destruct (st_phase st) eqn:Hp; try done; injection Hd as <-; apply tracked_last; intros c Hc Hx; by destruct Hx.
    + inv_guard Hd. injection Hd as <-. apply tracked_cancel_still.
      apply Forall_app. split; [apply still_expire|by repeat constructor].
  - apply bind_Ok in Hd as (m & _ & Hd). inv_guard Hd. injection Hd as <-. apply tracked_cancel_still.
    apply Forall_app. split; [apply still_expire|by repeat constructor].
  - destruct (st_phase st) eqn:Hp; try done. injection Hd as <-. apply tracked_last. intros c Hc _. cbn in *. by apply Hc.
  - destruct (st_phase st) eqn:Hp; try done; injection Hd as <-; apply tracked_last; intros c Hc Hx; by destruct Hx.
Qed.

(** ** Authorities in step *)

Definition in_step a : Prop := tracks (st_room_id (room a)) (clock a) (st_phase (room a)).

Lemma in_step_same a a' : room a' = room a → clock a' = clock a → in_step a → in_step a'.
Proof using Type. unfold in_step. by intros -> ->. Qed.

Lemma in_step_delivered a a' : delivered a a' → in_step a → in_step a'.
Proof using Type. intros []. by apply in_step_same. Qed.

(** A batch that keeps the clock in step. *)
Lemma in_step_commit a events fresh candidate : extends (E := E) (room a) fresh candidate → fresh = events →
  st_room_id candidate = st_room_id (room a) → tracked (st_room_id (room a)) (st_phase (room a)) (ev_kind <$> events) →
  in_step a → in_step (after_commit a events candidate).
Proof using Type.
  intros He -> Hid Ht Hs. unfold in_step in *. cbn. rewrite Hid, (ex_phase _ _ _ He). by apply tracked_fold.
Qed.

(** No other principal's expiry passes the structural checks. *)
Lemma structural_expiry st command pk : pk ≠ PAuthorityClock →
  structural_reason st command KCountdownExpired pk ≠ None.
Proof using Type.
  intros Hpk. unfold structural_reason. rewrite (bool_decide_eq_true_2 (pk ≠ PAuthorityClock)) by done.
  rewrite (bool_decide_eq_true_2 (KCountdownExpired = _)) by done. by repeat case_match.
Qed.

(** Only the clock may report an expiry. *)
Lemma expiry_by_clock st command id results t : authorize payload_json blake3 st command = Allow id results →
  find_record st (command_id command) = None → payload command = CountdownExpired t →
  principal_id command = authority_clock st.
Proof using Type.
  unfold authorize. intros Ha Hf Hp. destruct (semantic_hash payload_json blake3 command) as [hash| |]; [|done..].
  unfold structural_decision in Ha. rewrite Hf, Hp in Ha. cbn [kind] in Ha. cbv zeta in Ha.
  destruct (base.decide (principal_id command = authority_clock st)) as [|Hne]; [done|exfalso].
  assert (principal_kind st (principal_id command) ≠ PAuthorityClock) as Hpk.
  { unfold principal_kind. rewrite bool_decide_eq_false_2 by done. case_bool_decide; [done|].
    destruct (member _ _) as [m|]; [|done]. by repeat case_match. }
  pose proof (structural_expiry st command _ Hpk). by destruct (structural_reason st command KCountdownExpired _).
Qed.

Lemma serve_applied st command st' : serve_command (E := E) payload_json blake3 st command = Ok (st', Applied) →
  ∃ id results, authorize payload_json blake3 st command = Allow id results.
Proof using Type.
  unfold serve_command, from_decision. destruct (authorize _ _ _ _) as [id results|reason id results]; [by eauto|done].
Qed.

Lemma in_step_command initial a a' p command o : fresh_room initial → ledger (E := E) payload_json blake3 initial a →
  headroom (room a) → find_record (room a) (command_id command) = None →
  principal_id command ≠ authority_clock (room a) →
  process_command (E := E) payload_json blake3 p command a = (a', Ok o) → in_step a → in_step a'.
Proof using Type.
  intros Hinit Hl Hroom Hnew Hp Hs Hin.
  apply process_command_Ok in Hs as [reason _ _ Hd _|authorized events candidate Hc Hd Hf Hs _ Hdl].
  { by eapply in_step_delivered. }
  apply (in_step_delivered _ _ Hdl). destruct (served_inv _ _ _ _ Hinit (lg_served _ _ _ _ Hl)) as (Hinv & _ & _).
  rewrite <-Hc in Hnew. destruct (decide_extends _ _ _ _ _ _ Hinv Hroom Hd Hf) as (_ & _ & He).
  destruct (decide_new _ _ _ _ _ Hd Hnew) as (kinds & Hk & Hev).
  destruct (decide_members _ _ _ _ _ _ Hd Hf) as ([= Hid _ _] & _ & _).
  unfold fresh_events in He. rewrite Hnew in He.
  apply decide_payload_clock in Hk as [(g & d & t & _ & Hpl & _)|[Ht _]].
  - apply serve_applied in Hs as (id & results & Ha). rewrite Hc in *. by destruct Hp; eapply expiry_by_clock.
  - eapply in_step_commit; [exact He|done|done| |done]. rewrite Hev. apply Ht.
Qed.

Lemma in_step_disconnect initial a a' p id o : fresh_room initial → ledger (E := E) payload_json blake3 initial a →
  headroom (room a) → process_disconnect (E := E) blake3 p id a = (a', Ok o) → in_step a → in_step a'.
Proof using Type.
  intros Hinit Hl Hroom (events & candidate & Hd & Hf & Hs & _ & Hdl)%process_disconnect_Ok Hin.
  apply (in_step_delivered _ _ Hdl). destruct (served_inv _ _ _ _ Hinit (lg_served _ _ _ _ Hl)) as (Hinv & _ & _).
  pose proof (disconnect_fresh _ _ _ _ _ _ _ _ _ _ Hinit Hl Hd Hf) as Hr.
  destruct (disconnect_extends _ _ _ _ _ _ _ Hinv Hroom Hr Hd Hf) as [_ He].
  apply foldM_framed in Hf as [[= Hid _ _] _ _]. eapply in_step_commit; [exact He|done|done| |done].
  unfold decide_transport_disconnect in Hd. apply bind_Ok in Hd as (u & _ & Hd). apply bind_Ok in Hd as (m & _ & Hd).
  inv_guard Hd. apply (stamped_kinds _ _ _ _ _ _ 0) in Hd as ->. apply tracked_cancel_still. by repeat constructor.
Qed.

(** ** Expiry *)

(** A due countdown starts its game. *)
Lemma expiry_starts initial a a' expiry o : fresh_room initial → ledger (E := E) payload_json blake3 initial a →
  headroom (room a) → ¬ routed (transport a) (authority_clock (room a)) →
  find_record (room a) (numbered "clock-" (next_delivery a)) = None →
  expire_countdown (E := E) payload_json blake3 expiry a = (a', Ok o) →
  ∃ g d, st_phase (room a) = Countdown d (expiry_token expiry) ∧ st_phase (room a') = Running g ∧ clock a' = clock a.
Proof using Type.
  intros Hinit Hl Hroom Hr Hnew (command & Hp & Hpl & Hid & _ & Hs)%expire_countdown_Ok.
  apply process_command_Ok in Hs as [reason _ _ _ Hrt|authorized events candidate Hc Hd Hf Hs _ Hdl].
  { by rewrite Hp in Hrt. }
  cbn [room with_next_delivery] in *. rewrite <-Hid, <-Hc in Hnew.
  destruct (served_inv _ _ _ _ Hinit (lg_served _ _ _ _ Hl)) as (Hinv & _ & _).
  destruct (decide_extends _ _ _ _ _ _ Hinv Hroom Hd Hf) as (_ & _ & He).
  destruct (decide_new _ _ _ _ _ Hd Hnew) as (kinds & Hk & Hev). unfold fresh_events in He. rewrite Hnew in He.
  apply decide_payload_clock in Hk as [(g & d & t & -> & Hpl' & Hph)|[_ Hn]]; rewrite Hc in *; [|by destruct (Hn _ Hpl)].
  assert (t = expiry_token expiry) as -> by congruence. exists g, d. split; [done|].
  pose proof (ex_phase _ _ _ He) as Hpe. rewrite Hev in Hpe. cbn in Hpe.
  rewrite (dl_room _ _ Hdl), (dl_clock _ _ Hdl). cbn. split; [done|]. by rewrite Hev.
Qed.

Definition due (now_tick : Z) (expiry : ScheduledExpiry) : bool := (expiry_deadline_tick expiry <=? now_tick)%Z.

Lemma advance_one c tick expiry : scheduled c = [expiry] →
  clock_advance_to c tick =
    let n := Z.max (now c) tick in
    if due n expiry then ({| now := n; scheduled := [] |}, [expiry]) else ({| now := n; scheduled := [expiry] |}, []).
Proof using Type. intros Hs. unfold clock_advance_to. rewrite Hs. cbn. unfold due. by destruct (_ <=? _)%Z. Qed.

Lemma advance_none c tick : scheduled c = [] → clock_advance_to c tick = ({| now := Z.max (now c) tick; scheduled := [] |}, []).
Proof using Type. intros Hs. unfold clock_advance_to. by rewrite Hs. Qed.

(** Advancing the clock of an open room: either nothing is due, or the countdown's
    game starts. *)
Lemma in_step_advance initial a a' tick os : fresh_room initial → ledger (E := E) payload_json blake3 initial a →
  headroom (room a) → ¬ routed (transport a) (authority_clock (room a)) →
  find_record (room a) (numbered "clock-" (next_delivery a)) = None → st_phase (room a) ≠ Closed →
  advance_clock_to (E := E) payload_json blake3 tick a = (a', Ok os) → in_step a →
  in_step a' ∧
  (∀ d t, st_phase (room a) = Countdown d t → (d <= Z.max (now (clock a)) tick)%Z → ∃ g, st_phase (room a') = Running g).
Proof using Type.
  intros Hinit Hl Hroom Hr Hnew Hopen Hs%advance_clock_Ok Hin. pose proof (Hin Hopen) as Hsch.
  destruct (st_phase (room a)) as [| |d t| | | |] eqn:Hp; cbn [schedule_of] in Hsch.
  3: { rewrite (advance_one _ tick _ Hsch) in Hs. unfold tick_clock in Hs. rewrite (advance_one _ tick _ Hsch) in Hs.
       cbv zeta in Hs. destruct (due _ _) eqn:Hdue; cbn [fst snd expire_all] in Hs.
       - apply M_bind_Ok in Hs as (a1 & o & Ho & [-> _]%mret_Ok).
         assert (ledger (E := E) payload_json blake3 initial (tick_clock a tick)) as Hl1 by (by apply (ledger_same _ _ _ a)).
         unfold tick_clock in Hl1. rewrite (advance_one _ tick _ Hsch) in Hl1. cbv zeta in Hl1. rewrite Hdue in Hl1.
         destruct (expiry_starts _ _ _ _ _ Hinit Hl1 Hroom Hr Hnew Ho) as (g & d' & _ & Hph & Hck).
         split; [|intros d0 t0 _ _; by exists g]. unfold in_step, tracks. rewrite Hph, Hck. done.
       - apply mret_Ok in Hs as [-> _]. split; [by intros _; cbn; rewrite Hp|].
         intros d0 t0 [= <- <-] Hle. unfold due in Hdue. cbn in Hdue. lia. }
  all: rewrite (advance_none _ tick Hsch) in Hs; unfold tick_clock in Hs; rewrite (advance_none _ tick Hsch) in Hs;
    cbn [snd expire_all] in Hs; apply mret_Ok in Hs as [-> _]; split; [by intros _; cbn; rewrite Hp|done].
Qed.

(** A closed room reports no expiry. *)
Lemma closed_advance initial a a' tick os : fresh_room initial → ledger (E := E) payload_json blake3 initial a →
  headroom (room a) → ¬ routed (transport a) (authority_clock (room a)) →
  find_record (room a) (numbered "clock-" (next_delivery a)) = None → st_phase (room a) = Closed →
  expire_all (E := E) payload_json blake3 (snd (clock_advance_to (clock a) tick)) [] (tick_clock a tick) = (a', Ok os) →
  room a' = room a.
Proof using Type.
  intros Hinit Hl Hroom Hr Hnew Hcl. destruct (snd (clock_advance_to (clock a) tick)) as [|expiry expiries]; cbn [expire_all].
  { by intros [-> _]%mret_Ok. }
  intros (a1 & o & Ho & _)%M_bind_Ok. exfalso.
  assert (ledger (E := E) payload_json blake3 initial (tick_clock a tick)) as Hl1 by (by apply (ledger_same _ _ _ a)).
  destruct (expiry_starts _ _ _ _ _ Hinit Hl1 Hroom Hr Hnew Ho) as (g & d & Hp & _). cbn in Hp. by rewrite Hcl in Hp.
Qed.

(** Nothing happens before the deadline. *)
Lemma advance_waits initial a a' tick os : fresh_room initial → ledger (E := E) payload_json blake3 initial a →
  headroom (room a) → ¬ routed (transport a) (authority_clock (room a)) →
  find_record (room a) (numbered "clock-" (next_delivery a)) = None → in_step a →
  advance_clock_to (E := E) payload_json blake3 tick a = (a', Ok os) →
  (∀ d t, st_phase (room a) = Countdown d t → (Z.max (now (clock a)) tick < d)%Z) → room a' = room a.
Proof using Type.
  intros Hinit Hl Hroom Hr Hnew Hin Hs%advance_clock_Ok Hearly.
  destruct (st_phase (room a)) as [| |d t| | | |] eqn:Hp; try (by eapply closed_advance).
  all: unfold in_step, tracks in Hin; rewrite Hp in Hin; specialize (Hin ltac:(done)); cbn [schedule_of] in Hin.
  3: { specialize (Hearly d t eq_refl). unfold tick_clock in Hs. rewrite (advance_one _ tick _ Hin) in Hs. cbv zeta in Hs.
       unfold due in Hs. cbn [expiry_deadline_tick] in Hs. rewrite (proj2 (Z.leb_gt _ _) Hearly) in Hs.
       by apply mret_Ok in Hs as [-> _]. }
  all: unfold tick_clock in Hs; rewrite (advance_none _ tick Hin) in Hs; by apply mret_Ok in Hs as [-> _].
Qed.

(** ** Runs without repetitions *)

(** The next input is a new one, and not a command in the name of the clock. *)
Definition input_new a : Prop :=
  match ingress (transport a) with
  | IngressCommand _ p command :: _ => find_record (room a) (command_id command) = None ∧ p ≠ authority_clock (room a)
  | _ => True
  end ∧ headroom (room a).

(** The authority's own identifier is free, and no client is connected as the clock. *)
Definition clock_free a : Prop :=
  ¬ routed (transport a) (authority_clock (room a)) ∧ find_record (room a) (numbered "clock-" (next_delivery a)) = None ∧
  headroom (room a).

Lemma run_in_step initial a : fresh_room initial →
  run (E := E) payload_json blake3 input_new clock_free initial a → headroom (room a) → in_step a.
Proof using Type.
  intros Hinit. induction 1 as [c Hc|a op Hrun IH|a a' o Hrun IH (Hnew & Hroom) Hd|a a' tick os Hrun IH (Hfree & Hnew & Hroom) Hd]; intros Hroom'.
  - destruct Hinit as (? & ? & ? & ? & ? & _ & Hi). unfold in_step. cbn. by rewrite Hi.
  - apply (in_step_same a); [done..|]. by apply IH.
  - pose proof (run_ledger _ _ _ _ _ _ Hinit Hrun Hroom) as Hl. specialize (IH Hroom).
    apply drive_one_Ok in Hd. destruct (ingress (transport a)) as [|input rest] eqn:Hq; [by destruct Hd as [-> _]|].
    destruct Hd as (o' & _ & Hd). destruct (run_bound _ _ _ _ _ _ Hrun) as [Hb Hid].
    destruct (bound_take _ _ _ Hb Hq) as [_ Hin].
    assert (ledger (E := E) payload_json blake3 initial (take_input a input rest)) as Hl1 by (by apply (ledger_same _ _ _ a)).
    assert (in_step (take_input a input rest)) as Hs1 by done.
    destruct input as [id p command|id p observation]; cbn [process_ingress] in Hd.
    + destruct Hnew as [Hnew Hne]. eapply in_step_command; [done|exact Hl1|done|exact Hnew| |exact Hd|done].
      cbn in Hin. by rewrite Hin.
    + by eapply in_step_disconnect.
  - pose proof (run_ledger _ _ _ _ _ _ Hinit Hrun Hroom) as Hl. specialize (IH Hroom).
    assert (st_phase (room a) = Closed ∨ st_phase (room a) ≠ Closed) as [Hcl|Hop].
    { destruct (st_phase (room a)); [right; congruence..|by left]. }
    + apply advance_clock_Ok in Hd. eapply closed_advance in Hd; [|exact Hinit|exact Hl|exact Hroom|exact Hfree|exact Hnew|exact Hcl].
      intros Hx. by rewrite Hd in Hx.
    + eapply in_step_advance; [done..|exact Hd|done].
Qed.
End Clock.
