(* ===== verification/SessionProperties.v ===== *)
(** * Properties of the session machine *)

From Stdlib Require Import Ascii.
From stdpp Require Import base strings numbers option sets list sorting.
From S2P Require Import Prelude Oracle Environment Protocol SessionState OracleSession SessionMachine SessionValid SessionPreserve SessionDecide SessionLog SessionTheorems.

(** ** A demonstration room *)

(** A two-player oracle room with one single-use invite and one audit-only rule,
    run with a constant serializer and the identity in place of the hash. *)
Definition demo_json (p : CommandPayload) : option (list Z) := Some [].

Definition demo_hash (bytes : list Z) : list Z := bytes.

#[local] Instance oracle_two : SessionGame OracleSessionGame OracleSessionGameError := OracleSession 2.

Definition demo_invite : InviteRecord :=
  {| verifier := invite_verifier demo_hash "guest-invite"; expires_after_revision := 100; consumed := false;
     revoked := false; reusable := false |}.

Definition demo_policy : PolicyRule :=
  {| rule_policy_id := "watch-chat"; rule_priority := 5; rule_principal := OfKind PHost; rule_command := KChat;
     rule_effect := EffectDeny ChatSize; rule_audit_only := true |}.

Definition demo_room : SessionState OracleSessionGame :=
  {| st_room_id := "room"; st_session_epoch := 0; st_revision := 0; st_host := None;
     authority_clock := "clock"; game_environment := "game"; st_phase := Uninitialized;
     members := []; invites := [demo_invite]; policies := [demo_policy]; processed_commands := [];
     chat_count := 0; projection_epoch := 0; hand_requests := []; hand_grants := []; public_history := [] |}.

Definition demo_command (st : SessionState OracleSessionGame) (id principal : string) (p : CommandPayload)
    : CommandEnvelope :=
  {| protocol_version := 1; room_id := "room"; session_epoch := st_session_epoch st; command_id := id;
     principal_id := principal; expected_revision := st_revision st; correlation_id := "cor"; causation_id := None;
     payload := p;
     signature := {| domain_version := 1; algorithm := Ed25519; key_id := principal;
                     signature_text := String.string_of_list_ascii (replicate 128 "0"%char) |} |}.

Definition demo_step (acc : option (SessionState OracleSessionGame)) (input : string * string * CommandPayload)
    : option (SessionState OracleSessionGame) :=
  st ← acc;
  let '(id, principal, p) := input in
  match serve_command demo_json demo_hash st (demo_command st id principal p) with
  | Ok (st, Applied) => Some st
  | _ => None
  end.

Definition demo_run (inputs : list (string * string * CommandPayload)) : option (SessionState OracleSessionGame) :=
  foldl demo_step (Some demo_room) inputs.

(** Two players sit down, start a game and receive their first deal. *)
Definition demo_inputs : list (string * string * CommandPayload) :=
  [("c1", "alice", CreateRoom); ("c2", "bob", RedeemInvite "guest-invite"); ("c3", "alice", TakeSeat 0);
   ("c4", "bob", TakeSeat 1); ("c5", "alice", Ready); ("c6", "bob", Ready);
   ("c7", "alice", ArmCountdown 10 "token"); ("c8", "clock", CountdownExpired "token");
   ("c9", "game", ApplyChance {| chance_cards := seq 0 52; chance_seed := None; chance_deal_ordinal := None |})].

Definition headroomb {G} (st : SessionState G) : bool :=
  ((st_revision st + 3 <? 2 ^ 64) && (chat_count st + 1 <? 2 ^ 64) && (projection_epoch st + 1 <? 2 ^ 64))%Z.

Lemma headroomb_spec {G} (st : SessionState G) : headroomb st = true → headroom st.
Proof. unfold headroomb, headroom. lia. Qed.

Lemma demo_fresh : fresh_room demo_room.
Proof.
  exists "room", "clock", "game", [demo_invite], [demo_policy]. split; [apply NoDup_singleton|reflexivity].
Qed.

Lemma demo_served_from st inputs st' : served (E := OracleSessionGameError) demo_json demo_hash demo_room st →
  foldl (λ acc i, st ← acc; if headroomb st then demo_step (Some st) i else None) (Some st) inputs = Some st' →
  served (E := OracleSessionGameError) demo_json demo_hash demo_room st'.
Proof.
  revert st. induction inputs as [|[[id principal] p] inputs IH]; intros st Hs Hrun; [cbn in Hrun; congruence|].
  cbn [foldl mbind option_bind] in Hrun.
  assert (∀ l, foldl (λ acc i, st ← acc; if headroomb st then demo_step (Some st) i else None) None l = None) as Hnone
    by (intros l; induction l; done).
  destruct (headroomb st) eqn:Hroom; [|by rewrite Hnone in Hrun].
  cbn [demo_step mbind option_bind] in Hrun.
  destruct (serve_command demo_json demo_hash st _) as [[st1 []]| |] eqn:Hp; try (by rewrite Hnone in Hrun).
  apply (IH st1); [|done]. eapply served_command; [exact Hs|by apply headroomb_spec|exact Hp].
Qed.

(** The demonstration runs, and its states are served ones. *)
Definition demo_checked (inputs : list (string * string * CommandPayload)) : option (SessionState OracleSessionGame) :=
  foldl (λ acc i, st ← acc; if headroomb st then demo_step (Some st) i else None) (Some demo_room) inputs.

Lemma demo_served inputs st : demo_checked inputs = Some st → served (E := OracleSessionGameError) demo_json demo_hash demo_room st.
Proof. apply demo_served_from. apply served_initial. Qed.

(** ** Authorization *)

(** [C7] Authorization is deny-override and default-deny.  For a well-formed new
    command that passes the structural checks: it is allowed exactly when no
    enforced rule that applies denies it and the baseline capabilities or an
    enforced rule allow it; a refusal by a rule carries the reason and identifier
    of the applicable enforced deny rule of highest priority, ties going to the
    smallest identifier; and removing every audit-only rule from the room changes
    neither the verdict nor the policy it names.  A structural failure is a refusal
    with that reason, whatever the rules say. *)
Theorem authorize_verdict {G : Type} payload_json blake3 (st : SessionState G) command hash :
  semantic_hash payload_json blake3 command = Ok hash → find_record st (command_id command) = None →
  let d := authorize payload_json blake3 st command in
  (∀ reason, structural_reason st command (kind (payload command))
               (principal_kind st (principal_id command)) = Some reason → d = Deny reason None []) ∧
  (structural_reason st command (kind (payload command)) (principal_kind st (principal_id command)) = None →
     (is_allowed d = true ↔
        (∀ rule, rule ∈ relevant st command → enforced_deny rule = false) ∧
        (baseline_allows st command = true ∨ ∃ rule, rule ∈ relevant st command ∧ enforced_allow rule = true)) ∧
     (∀ rule, rule ∈ relevant st command → enforced_deny rule = true →
        ∃ winner reason results, d = Deny reason (Some (rule_policy_id winner)) results ∧
          winner ∈ relevant st command ∧ rule_audit_only winner = false ∧
          rule_effect winner = EffectDeny reason ∧ rule_le winner rule = true) ∧
     ((∀ rule, rule ∈ relevant st command → enforced_deny rule = false ∧ enforced_allow rule = false) →
        baseline_allows st command = false →
        ∃ results, d = Deny MissingCapability (Some (policy_id "P-DEFAULT-DENY")) results)) ∧
  verdict d = verdict (authorize payload_json blake3 (without_audit st) command).
Proof.
  intros Hh Hf d. split; [|split; [|apply authorize_without_audit]].
  { intros reason Hr. unfold d, authorize, structural_decision. by rewrite Hh, Hf, Hr. }
  intros Hr. set (rules := sort_by rule_le (relevant st command)).
  assert (d = policy_decision (baseline_allows st command) rules) as ->.
  { unfold d, authorize, structural_decision. by rewrite Hh, Hf, Hr. }
  assert (∀ rule, rule ∈ rules ↔ rule ∈ relevant st command) as Hin by (intros; apply elem_of_sort_by).
  assert (StronglySorted (λ x y, rule_le x y = true) rules) as Hsort
    by (apply sort_by_sorted; [apply rule_le_total|apply rule_le_trans]).
  setoid_rewrite <-Hin. clearbody rules. unfold policy_decision. rewrite evaluate_rules.
  destruct (List.filter enforced_deny rules) as [|winner rest] eqn:Hden; cbn [head fmap option_fmap option_map].
  - assert (∀ rule, rule ∈ rules → enforced_deny rule = false) as Hno.
    { intros rule Hrule. destruct (enforced_deny rule) eqn:Ed; [|done].
      assert (rule ∈ List.filter enforced_deny rules) as Hx by (by apply elem_of_Filter). rewrite Hden in Hx.
      by apply elem_of_nil in Hx. }
    split_and!.
    + destruct (baseline_allows st command || existsb enforced_allow rules)%bool eqn:Ha; cbn [is_allowed].
      * split; [|done]. intros _. split; [done|]. apply orb_true_iff in Ha as [?|Ha]; [by left|right].
        by apply existsb_true in Ha.
      * split; [done|]. apply orb_false_iff in Ha as [Hb Ha]. rewrite existsb_false in Ha.
        intros [_ [Hb'|(rule & Hrule & Hx)]]; [congruence|]. by rewrite Ha in Hx.
    + intros rule Hrule Hx. by rewrite Hno in Hx.
    + intros Hall Hb. rewrite Hb. assert (existsb enforced_allow rules = false) as ->.
      { apply existsb_false. intros rule Hrule. by apply Hall. }
      cbn. by eexists.
  - assert (winner ∈ rules ∧ enforced_deny winner = true) as [Hw Hwd]
      by (apply elem_of_Filter; rewrite Hden; left).
    assert (∃ reason, rule_audit_only winner = false ∧ rule_effect winner = EffectDeny reason) as (reason & Hwa & Hwe).
    { unfold enforced_deny in Hwd. apply andb_true_iff in Hwd as [Ha He]. apply negb_true_iff in Ha.
      destruct (rule_effect winner) as [|reason]; [done|]. by exists reason. }
    rewrite Hwe. split_and!.
    + cbn [is_allowed]. split; [done|]. intros [Hall _]. by rewrite Hall in Hwd.
    + intros rule Hrule Hrd. exists winner, reason, (baseline_result (baseline_allows st command) :: (rule_result <$> rules)).
      split_and!; [done|done|done|done|].
      assert (rule ∈ winner :: rest) as Hx by (rewrite <-Hden; by apply elem_of_Filter).
      clear -Hsort Hden Hx. revert winner rest Hden Hx. induction Hsort as [|r rules Hs IH Hr]; intros winner rest Hden Hx; [done|].
      cbn [List.filter] in Hden. destruct (enforced_deny r); [|by eapply IH].
      injection Hden as <- <-. apply elem_of_cons in Hx as [-> |[Hx _]%elem_of_Filter].
      * unfold rule_le. rewrite Z.ltb_irrefl, Z.eqb_refl. cbn [andb orb].
        destruct (String.leb_total (rule_policy_id r) (rule_policy_id r)); done.
      * rewrite Forall_forall in Hr. by apply Hr.
    + intros Hall Hb. exfalso. destruct (Hall winner Hw). congruence.
Qed.


(** The audit-only rule against the host's chat is recorded and has no effect. *)
Lemma authorize_verdict_witness : ∃ st hash,
  let command := demo_command st "c10" "alice" (Chat "hello") in
  (semantic_hash demo_json demo_hash command = Ok hash ∧ find_record st (command_id command) = None ∧
   length (relevant st command) = 1) ∧
  is_allowed (authorize demo_json demo_hash st command) = true ∧
  verdict (authorize demo_json demo_hash st command) =
    verdict (authorize demo_json demo_hash (without_audit st) command).
Proof.
  destruct (demo_checked demo_inputs) as [st|] eqn:Hrun; [|exfalso; revert Hrun; vm_compute; discriminate].
  set (command := demo_command st "c10" "alice" (Chat "hello")).
  assert ((λ st, is_ok (semantic_hash demo_json demo_hash (demo_command st "c10" "alice" (Chat "hello"))) &&
      bool_decide (find_record st "c10" = None) &&
      (length (relevant st (demo_command st "c10" "alice" (Chat "hello"))) =? 1) &&
      bool_decide (structural_reason st (demo_command st "c10" "alice" (Chat "hello")) KChat PHost = None) &&
      bool_decide (principal_kind st "alice" = PHost) &&
      forallb (λ rule, negb (enforced_deny rule)) (relevant st (demo_command st "c10" "alice" (Chat "hello"))) &&
      baseline_allows st (demo_command st "c10" "alice" (Chat "hello")))%bool <$> demo_checked demo_inputs
      = Some true) as Hc by (vm_compute; reflexivity).
  rewrite Hrun in Hc. cbn [fmap option_fmap option_map] in Hc. injection Hc as Hc. fold command in Hc.
  rewrite !andb_true_iff, !bool_decide_eq_true, Nat.eqb_eq in Hc.
  destruct Hc as [[[[[Hf Hl] Hs] Hk] Hd] Hb].
  assert (is_ok (semantic_hash demo_json demo_hash command) = true) as Hh by reflexivity.
  destruct (semantic_hash demo_json demo_hash command) as [hash|err|] eqn:Hhash; [|discriminate Hh..].
  exists st, hash. intros command'. split; [exact (conj Hhash (conj Hf Hl))|].
  destruct (authorize_verdict demo_json demo_hash st command hash Hhash Hf) as (_ & Hall & Hv).
  split; [|exact Hv]. change (principal_id command) with "alice" in Hall. rewrite Hk in Hall.
  destruct (Hall Hs) as (Hiff & _). apply Hiff. split; [|left; exact Hb].
  intros rule Hrule. rewrite forallb_true in Hd. specialize (Hd rule Hrule). by apply negb_true_iff in Hd.
Defined.

(** ** Applying events *)

(** Applying an event is idempotent and gap-free.  When [apply] accepts an
    event, the resulting room passes [validate] and either is the room unchanged,
    because the event was already logged, or is one revision later, the event
    being exactly the next one of its command.  Applying the event again changes
    nothing, and any other event that claims the same command and index is refused
    as a conflict. *)
Theorem apply_idempotent {G E : Type} `{EqDecision G} `{SessionGame G E} (st st' : SessionState G) e :
  (0 <= ep_event_index (ev_provenance e))%Z → apply (E := E) st e = Ok st' →
  validate st' = Ok tt ∧ apply (E := E) st' e = Ok st' ∧
  (∀ e', ep_command_id (ev_provenance e') = ep_command_id (ev_provenance e) →
     ep_event_index (ev_provenance e') = ep_event_index (ev_provenance e) → e' ≠ e →
     apply (E := E) st' e' = Err ConflictingCommandId) ∧
  (st' = st ∨
   st_revision st' = (st_revision st + 1)%Z ∧
   st_revision st = (ep_base_revision (ev_provenance e) + ep_event_index (ev_provenance e))%Z ∧
   match find_record st (ep_command_id (ev_provenance e)) with
   | Some (i, record) =>
       length (pc_events record) = Z.to_nat (ep_event_index (ev_provenance e)) ∧
       pc_decision record = ep_decision (ev_provenance e) ∧
       processed_commands st' = <[i := append_event e record]> (processed_commands st)
   | None =>
       ep_event_index (ev_provenance e) = 0%Z ∧ processed_commands st' = processed_commands st ++ [new_record e]
   end).
Proof.
  intros Hidx Ha. destruct (apply_cases st e st' Hidx Ha) as (Hv & Hl & Hc).
  split; [done|]. split; [|split; [|done]].
  - rewrite (apply_logged_event st' e e) by done. by rewrite bool_decide_eq_true_2.
  - intros e' Hid Hi Hne. rewrite (apply_logged_event st' e e') by done. by rewrite bool_decide_eq_false_2.
Qed.

Definition demo_created : SessionEvent OracleSessionGame :=
  {| ev_provenance := {| ep_command_id := "c1"; ep_command_hash := SemanticHashOf [7%Z]; ep_principal_id := "alice";
                         ep_correlation_id := "cor"; ep_base_revision := 0; ep_event_index := 0;
                         ep_decision := Allow "P-BASELINE-ALLOW" [] |};
     ev_kind := RoomCreated "alice" |}.

Lemma apply_idempotent_witness : ∃ st',
  ((0 <= ep_event_index (ev_provenance demo_created))%Z ∧ apply (E := OracleSessionGameError) demo_room demo_created = Ok st') ∧
  apply (E := OracleSessionGameError) st' demo_created = Ok st' ∧ st_revision st' = 1%Z.
Proof.
  assert (0 <= ep_event_index (ev_provenance demo_created))%Z as H0 by (simpl; lia).
  destruct (apply (E := OracleSessionGameError) demo_room demo_created) as [st'|err|] eqn:Ha; [|exfalso; revert Ha; vm_compute; discriminate..].
  assert ((λ st, st_revision st) <$> (apply (E := OracleSessionGameError) demo_room demo_created) = Ok 1%Z) as Hr by (vm_compute; reflexivity).
  rewrite Ha in Hr. injection Hr as Hr. exists st'. split; [exact (conj H0 eq_refl)|]. split; [|exact Hr].
  exact (proj1 (proj2 (apply_idempotent demo_room st' demo_created H0 Ha))).
Defined.

(** ** Serving commands *)

Section Commit.
Context {G E : Type} `{EqDecision G} `{SessionGame G E}.
Context (payload_json : CommandPayload → option (list Z)) (blake3 : list Z → list Z).
Implicit Types st : SessionState G.

Lemma stamp_total id hash principal correlation revision decision (kinds : list (SessionEventKind G)) off :
  off + length kinds ≤ 3 →
  ∃ events, mapM (stamp (E := E) id hash principal correlation revision decision) (imap (λ i, pair (off + i)) kinds) = Ok events.
Proof using Type.
  revert off; induction kinds as [|k kinds IH]; intros off Hlen; [by eexists|]. simpl in Hlen.
  rewrite imap_cons. destruct (IH (S off)) as [events He]; [lia|].
  rewrite (imap_ext _ (λ i, pair (S off + i))); [|intros i x _; cbn; by rewrite Nat.add_succ_r].
  assert (∃ e, stamp (E := E) id hash principal correlation revision decision (off + 0, k) = Ok e) as [e Hst].
  { assert (checked 16 (Z.of_nat (off + 0)) = Some (Z.of_nat (off + 0))) as Hc
      by (apply checked_Some; unfold in_width; lia).
    eexists. unfold stamp. cbn [fst]. rewrite Hc. reflexivity. }
  exists (e :: events). cbn [mapM]. rewrite Hst. cbn [mbind outcome_bind]. by rewrite He.
Qed.

(** A decision in a served room fails only by a denial or a game error. *)
Lemma decide_errors st authorized (err : SessionError E) : session_inv st → headroom st →
  (Z.of_nat (length (invites st)) < 2 ^ 16)%Z →
  (payload (ac_command authorized) = CloseRoom → st_phase st ≠ Uninitialized) →
  decide payload_json blake3 st authorized = Err err →
  (∃ reason, err = Denied reason) ∨ (∃ g, err = GameError g) ∨
  (err = ConflictingCommandId ∧ ∃ i record hash, find_record st (command_id (ac_command authorized)) = Some (i, record) ∧
     semantic_hash payload_json blake3 (ac_command authorized) = Ok hash ∧ pc_command_hash record ≠ hash).
Proof using Type.
  intros Hinv Hroom Hlen Hclose Hd. unfold decide in Hd. rewrite (session_inv_validate _ Hinv) in Hd.
  cbn [lift_invariant map_err mbind outcome_bind] in Hd.
  destruct (semantic_hash payload_json blake3 (ac_command authorized)) as [hash|ce|] eqn:Hh; cbn in Hd; [|left|done].
  2: { injection Hd as <-. by eexists. }
  destruct (find_record st (command_id (ac_command authorized))) as [[i record]|] eqn:Hf.
  - case_bool_decide as Hx; [done|]. injection Hd as <-. right; right. split; [done|]. by exists i, record, hash.
  - destruct (negb _); [injection Hd as <-; left; by eexists|].
    apply bind_Err in Hd as [Hd|(kinds & Hk & Hd)].
    + destruct (decide_payload_errors _ _ _ _ Hd) as [?|[?|[_ ?]]]; [by left|right; by left|lia].
    + exfalso. destruct (decide_payload_good blake3 st (ac_command authorized) kinds) as [_ Hl]; try done.
      { by apply Hinv. }
      { intros r Hr Heq. apply (find_record_None _ _ Hf). rewrite <-Heq. by apply Hinv. }
      destruct (stamp_total (command_id (ac_command authorized)) hash (principal_id (ac_command authorized))
        (correlation_id (ac_command authorized)) (st_revision st) (ac_decision authorized) kinds 0) as [events He]; [lia|].
      change (imap (λ i, pair (0 + i)) kinds) with (imap pair kinds) in He. congruence.
Qed.
End Commit.

(** [C8] Whatever is decided can be committed.  In every room an authority
    reaches, the events of a decision are all applied, one after the other, and
    lead to a valid room: for a new command, with one more log record holding
    exactly those events and as many more revisions; for a repeated command, the
    same room.  Processing a command, allowed or not, fails only when the game
    itself does.  (The one command set aside closes a room that was never
    created.) *)
Theorem decided_batches_commit {G E : Type} `{EqDecision G} `{SessionGame G E} payload_json blake3
    (initial_room st : SessionState G) :
  fresh_room initial_room → served (E := E) payload_json blake3 initial_room st → headroom st →
  (∀ authorized events, decide (E := E) payload_json blake3 st authorized = Ok events →
     (payload (ac_command authorized) = CloseRoom → st_phase st ≠ Uninitialized) →
     ∃ st', commit_batch (E := E) st events = Ok st' ∧ validate st' = Ok tt ∧
       batch_outcome (E := E) payload_json blake3 st authorized events st') ∧
  (∀ command (err : SessionError E), (Z.of_nat (length (invites st)) < 2 ^ 16)%Z →
     (payload command = CloseRoom → st_phase st ≠ Uninitialized) →
     serve_command payload_json blake3 st command = Err err → ∃ g, err = GameError g).
Proof.
  intros Hfresh Hs Hroom. destruct (served_inv payload_json blake3 initial_room st Hfresh Hs) as (Hinv & _).
  split.
  - intros a events Hd Hclose.
    destruct (decide_apply payload_json blake3 st a events Hinv Hroom) as (st' & Ha & Hinv' & Hb); [by intros _|done|].
    exists st'. split; [done|]. split; [by apply session_inv_validate|done].
  - intros command err Hlen Hclose Hp. unfold serve_command in Hp.
    destruct (from_decision command (authorize payload_json blake3 st command)) as [a|[|? ? ?]|] eqn:Hfd; try done.
    unfold from_decision in Hfd. destruct (is_allowed _) eqn:Hal; [|done]. injection Hfd as <-.
    set (a := {| ac_command := command; ac_decision := _ |}) in *.
    destruct (decide payload_json blake3 st a) as [events|derr|] eqn:Hd; [| |done].
    + destruct (decide_apply payload_json blake3 st a events Hinv Hroom) as (st' & Ha & _); [by intros _|done|].
      unfold commit_batch in Hp. by rewrite Ha in Hp.
    + destruct (decide_errors payload_json blake3 st a derr Hinv Hroom Hlen Hclose Hd) as [[r ->]|[[g ->]|[-> Hc]]].
      * done.
      * injection Hp as <-. by exists g.
      * exfalso. destruct Hc as (i & record & hash & Hf & Hh & Hne). unfold a in Hf, Hh. cbn [ac_command] in Hf, Hh.
        unfold authorize, structural_decision in Hal. rewrite Hh, Hf in Hal. by rewrite bool_decide_eq_false_2 in Hal.
Qed.

Lemma decided_batches_commit_witness : ∃ st,
  (fresh_room demo_room ∧ served (E := OracleSessionGameError) demo_json demo_hash demo_room st ∧ headroom st) ∧ st_revision st = 9%Z ∧
  (∀ authorized events, decide (E := OracleSessionGameError) demo_json demo_hash st authorized = Ok events →
     (payload (ac_command authorized) = CloseRoom → st_phase st ≠ Uninitialized) →
     ∃ st', commit_batch (E := OracleSessionGameError) st events = Ok st' ∧ validate st' = Ok tt ∧
       batch_outcome (E := OracleSessionGameError) demo_json demo_hash st authorized events st').
Proof.
  destruct (demo_checked demo_inputs) as [st|] eqn:Hrun; [|exfalso; revert Hrun; vm_compute; discriminate].
  assert ((λ st, (st_revision st, headroomb st)) <$> demo_checked demo_inputs = Some (9%Z, true)) as Hr
    by (vm_compute; reflexivity).
  rewrite Hrun in Hr. injection Hr as Hr Hroom%headroomb_spec. pose proof (demo_served _ _ Hrun) as Hs.
  exists st. split; [exact (conj demo_fresh (conj Hs Hroom))|]. split; [exact Hr|].
  exact (proj1 (decided_batches_commit demo_json demo_hash demo_room st demo_fresh Hs Hroom)).
Defined.

(** [C9] The log is the room.  In every room an authority reaches, replaying the
    logged events in order from the initial room gives back exactly that room; the
    revision counts the logged events, and every command identifier has one
    record. *)
Theorem log_replays {G E : Type} `{EqDecision G} `{SessionGame G E} payload_json blake3
    (initial_room st : SessionState G) :
  fresh_room initial_room → served (E := E) payload_json blake3 initial_room st →
  commit_batch (E := E) initial_room (concat (pc_events <$> processed_commands st)) = Ok st ∧
  st_revision st = Z.of_nat (length (concat (pc_events <$> processed_commands st))) ∧
  NoDup (pc_command_id <$> processed_commands st).
Proof.
  intros Hfresh Hs. destruct (served_inv payload_json blake3 initial_room st Hfresh Hs) as (Hinv & Hfold & Hrev).
  split_and!; [done|done|]. apply Hinv.
Qed.

Lemma log_replays_witness : ∃ st,
  (fresh_room demo_room ∧ served (E := OracleSessionGameError) demo_json demo_hash demo_room st) ∧ length (processed_commands st) = 9 ∧
  commit_batch (E := OracleSessionGameError) demo_room (concat (pc_events <$> processed_commands st)) = Ok st.
Proof.
  destruct (demo_checked demo_inputs) as [st|] eqn:Hrun; [|exfalso; revert Hrun; vm_compute; discriminate].
  assert ((λ st, length (processed_commands st)) <$> demo_checked demo_inputs = Some 9) as Hr
    by (vm_compute; reflexivity).
  rewrite Hrun in Hr. injection Hr as Hr. pose proof (demo_served _ _ Hrun) as Hs.
  exists st. split; [exact (conj demo_fresh Hs)|]. split; [exact Hr|].
  exact (proj1 (log_replays demo_json demo_hash demo_room st demo_fresh Hs)).
Defined.

(** ** The game behind the gate *)

Section Gate.
Context {G E : Type} `{EqDecision G} `{SessionGame G E}.
Implicit Types st : SessionState G.

Lemma phases_app (phase : SessionPhase G) kinds k :
  foldl phase_after phase (kinds ++ [k]) = phase_after (foldl phase_after phase kinds) k.
Proof using Type. by rewrite foldl_app. Qed.

Lemma cancel_phase st : active_game (foldl phase_after (st_phase st) (cancel_countdown_first st)) = active_game (st_phase st).
Proof using Type. unfold cancel_countdown_first. by destruct (st_phase st). Qed.

Lemma expire_phase st (phase : SessionPhase G) reason : foldl phase_after phase (expire_capabilities_for st reason) = phase.
Proof using Type. unfold expire_capabilities_for. by destruct (_ || _)%bool. Qed.

(** The move of the game that a command makes. *)
Definition game_move st (p : CommandPayload) (who : PrincipalId) (g : G) (t : GameTransition G) : Prop :=
  match p with
  | GameAction action => ∃ m seat, member st who = Some m ∧ m_seat m = Some seat ∧
      game_turn (E := E) g = Ok (GTPlayer seat) ∧ player_transition (E := E) g seat action = Ok t
  | ApplyChance chance => game_turn (E := E) g = Ok GTChance ∧ chance_transition (E := E) g chance = Ok t
  | Settle => game_turn (E := E) g = Ok GTEnvironment ∧ settle (E := E) g = Ok t
  | _ => False
  end.

Lemma transition_phase st t change :
  foldl phase_after (st_phase st) (transition_event st t change) =
    if gt_terminal t then PostGame (gt_game t) else Running (gt_game t).
Proof using Type.
  unfold transition_event. rewrite phases_app. by destruct (gt_terminal t).
Qed.

Lemma decide_payload_gate blake3 st command kinds : decide_payload (E := E) blake3 st command = Ok kinds →
  let phase' := foldl phase_after (st_phase st) kinds in
  active_game phase' = active_game (st_phase st) ∨
  (active_game phase' = None ∧ (payload command = CloseRoom ∨ payload command = Leave ∨ payload command = ResetLobby)) ∨
  (∃ token seats g, payload command = CountdownExpired token ∧ canonical_seats (E := E) st = Ok seats ∧
     start (E := E) seats = Ok g ∧ phase' = Running g) ∨
  (∃ g t, st_phase st = Running g ∧ game_move st (payload command) (principal_id command) g t ∧
     phase' = if gt_terminal t then PostGame (gt_game t) else Running (gt_game t)).
Proof using Type.
  unfold decide_payload. destruct (payload command) eqn:Hpl; intros Hd;
    unfold decide_create, decide_join, decide_take_seat, decide_release_seat, decide_ready, decide_arm_countdown,
      decide_abort_countdown, decide_pause, decide_unpause, decide_chat, decide_reconnect, decide_remove, decide_reset,
      decide_close, decide_request_hand, decide_grant_hand, decide_deny_hand, decide_revoke_hand, denied in Hd.
  - destruct (st_phase st) eqn:Hp; try done. destruct (st_host st); [done|]. injection Hd as <-. by left.
  - left. destruct (st_phase st); try done;
      (destruct (_ || _)%bool; [done|]; destruct (list_find _ _) as [[index record]|]; [|done];
       destruct (_ || _)%bool; [done|]; destruct (_ <? _)%Z; [done|];
       apply bind_Ok in Hd as (j & _ & [= <-]); done).
  - left. destruct (st_phase st) eqn:Hp; try done. inv_guard Hd. apply bind_Ok in Hd as (m & _ & Hd).
    inv_guard Hd. inv_guard Hd. inv_guard Hd. injection Hd as <-. cbn zeta. by rewrite phases_app, expire_phase.
  - left. assert (∃ s, kinds = (cancel_countdown_first st ++ expire_capabilities_for st (SeatRoleChanged (principal_id command))) ++
      [SeatReleased (principal_id command) s]) as (s & ->).
    { destruct (st_phase st); try done; apply bind_Ok in Hd as (m & _ & Hd); apply bind_Ok in Hd as (s & _ & [= <-]);
        exists s; by rewrite <-app_assoc. }
    cbn zeta. rewrite phases_app. cbn [phase_after]. by rewrite foldl_app, expire_phase, cancel_phase.
  - left. inv_guard Hd. apply bind_Ok in Hd as (m & _ & Hd). inv_guard Hd. inv_guard Hd. injection Hd as <-. done.
  - left. inv_guard Hd. apply bind_Ok in Hd as (m & _ & Hd). inv_guard Hd. inv_guard Hd. injection Hd as <-.
    cbn zeta. rewrite phases_app. cbn [phase_after]. by rewrite cancel_phase.
  - left. destruct (st_phase st) eqn:Hp; try done. inv_guard Hd. injection Hd as <-. done.
  - left. destruct (st_phase st) eqn:Hp; try done. injection Hd as <-. done.
  - right; right; left. unfold decide_countdown_expired, denied in Hd. destruct (st_phase st) eqn:Hp; try done.
    inv_guard Hd. apply bind_Ok in Hd as (seats & Hs & Hd). apply bind_Ok in Hd as (g & Hg' & [= <-]).
    apply map_err_Ok in Hg'. eexists _, seats, g. by split_and!.
  - left. destruct (st_phase st) eqn:Hp; try done. injection Hd as <-. done.
  - left. destruct (st_phase st) eqn:Hp; try done. injection Hd as <-. done.
  - right; right; right. unfold decide_game_action, denied, require_member in Hd.
    apply bind_Ok in Hd as (g & Hg%running_game_Ok & Hd). apply bind_Ok in Hd as (m & Hm%ok_or_Ok & Hd).
    apply bind_Ok in Hd as (seat & Hseat%ok_or_Ok & Hd). apply bind_Ok in Hd as (turn & Ht%map_err_Ok & Hd). inv_guard Hd.
    apply bool_decide_eq_false, dec_stable in Hg0 as ->. apply bind_Ok in Hd as (t & Htr%map_err_Ok & [= <-]).
    exists g, t. split; [done|]. split; [by exists m, seat|apply transition_phase].
  - right; right; right. unfold decide_chance, denied in Hd.
    apply bind_Ok in Hd as (g & Hg%running_game_Ok & Hd). apply bind_Ok in Hd as (turn & Ht%map_err_Ok & Hd). inv_guard Hd.
    apply bool_decide_eq_false, dec_stable in Hg0 as ->. apply bind_Ok in Hd as (t & Htr%map_err_Ok & [= <-]).
    exists g, t. split; [done|]. split; [done|apply transition_phase].
  - right; right; right. unfold decide_settle, denied in Hd.
    apply bind_Ok in Hd as (g & Hg%running_game_Ok & Hd). apply bind_Ok in Hd as (turn & Ht%map_err_Ok & Hd). inv_guard Hd.
    apply bool_decide_eq_false, dec_stable in Hg0 as ->. apply bind_Ok in Hd as (t & Htr%map_err_Ok & [= <-]).
    exists g, t. split; [done|]. split; [done|apply transition_phase].
  - left. destruct (st_phase st) eqn:Hp; try done; apply bind_Ok in Hd as (m & _ & Hd); inv_guard Hd; injection Hd as <-; done.
  - left. destruct (st_phase st) eqn:Hp; try done; apply bind_Ok in Hd as (m & _ & Hd); inv_guard Hd;
      apply bind_Ok in Hd as (m' & _ & Hd); inv_guard Hd; inv_guard Hd; injection Hd as <-; done.
  - left. inv_guard Hd. apply bind_Ok in Hd as (o & _ & Hd). apply bind_Ok in Hd as (v & _ & Hd). inv_guard Hd. by injection Hd as <-.
  - left. inv_guard Hd. by injection Hd as <-.
  - left. inv_guard Hd. by injection Hd as <-.
  - left. apply bind_Ok in Hd as (m & _ & Hd). inv_guard Hd. by injection Hd as <-.
  - unfold decide_leave, decide_close, denied in Hd. apply bind_Ok in Hd as (m & _ & Hd). destruct (m_host m).
    + destruct (length (members st) =? 1); [|done]. right; left. destruct (st_phase st) eqn:Hp; try done; injection Hd as <-; by auto.
    + left. inv_guard Hd. injection Hd as <-. cbn zeta. rewrite app_assoc, phases_app. cbn [phase_after].
      rewrite foldl_app, expire_phase. destruct (seated m); [apply cancel_phase|done].
  - left. apply bind_Ok in Hd as (m & _ & Hd). inv_guard Hd. injection Hd as <-. cbn zeta.
    rewrite app_assoc, phases_app. cbn [phase_after]. rewrite foldl_app, expire_phase.
    destruct (seated m); [apply cancel_phase|done].
  - destruct (st_phase st) eqn:Hp; try done. injection Hd as <-. right; left. by auto.
  - right; left. destruct (st_phase st) eqn:Hp; try done; injection Hd as <-; by auto.
Qed.
End Gate.

(** [C6] The game moves only through its gate.  Serving any command leaves the
    game of the room as it is, except that closing, leaving or resetting may drop
    it, an expired countdown starts one for the seated members in seat order, and
    in a running room a move is made: by the member whose seat is to act, with the
    action it sent; or, on chance's or the environment's turn, by a chance or
    settlement command; the new game is then exactly the game's own transition.  A
    paused room, and any other phase, admits no move. *)
Theorem game_gate {G E : Type} `{EqDecision G} `{SessionGame G E} payload_json blake3
    (initial_room st st' : SessionState G) command d :
  fresh_room initial_room → served (E := E) payload_json blake3 initial_room st → headroom st →
  serve_command (E := E) payload_json blake3 st command = Ok (st', d) →
  active_game (st_phase st') = active_game (st_phase st) ∨
  (active_game (st_phase st') = None ∧
     (payload command = CloseRoom ∨ payload command = Leave ∨ payload command = ResetLobby)) ∨
  (∃ token seats g, payload command = CountdownExpired token ∧ canonical_seats (E := E) st = Ok seats ∧
     start (E := E) seats = Ok g ∧ st_phase st' = Running g) ∨
  (∃ g t, st_phase st = Running g ∧ game_move (E := E) st (payload command) (principal_id command) g t ∧
     st_phase st' = if gt_terminal t then PostGame (gt_game t) else Running (gt_game t)).
Proof.
  intros Hfresh Hs Hroom Hp. destruct (served_inv payload_json blake3 initial_room st Hfresh Hs) as (Hinv & _).
  unfold serve_command in Hp. destruct (from_decision _ _) as [a|[|reason id results]|] eqn:Hfd; [|done| |done].
  2: { injection Hp as <- <-. by left. }
  assert (ac_command a = command) as Hac.
  { unfold from_decision in Hfd. destruct (is_allowed _); [|done]. by injection Hfd as <-. }
  destruct (decide payload_json blake3 st a) as [events|[]|] eqn:Hd; try done.
  2: { injection Hp as <- <-. by left. }
  apply bind_Ok in Hp as (s & Hc & [= -> <-]).
  destruct (decide_extends payload_json blake3 st a events st' Hinv Hroom Hd Hc) as (_ & Hb & _).
  unfold batch_outcome in Hb. destruct (find_record st (command_id (ac_command a))); [subst st'; by left|].
  destruct Hb as (_ & _ & hash & _ & _ & kinds & Hk & ->). rewrite Hac in Hk.
  exact (decide_payload_gate blake3 st command kinds Hk).
Qed.

Lemma game_gate_witness : ∃ st st',
  let command := demo_command st "c9" "game"
    (ApplyChance {| chance_cards := seq 0 52; chance_seed := None; chance_deal_ordinal := None |}) in
  (fresh_room demo_room ∧ served (E := OracleSessionGameError) demo_json demo_hash demo_room st ∧ headroom st ∧
   serve_command (E := OracleSessionGameError) demo_json demo_hash st command = Ok (st', Applied)) ∧
  ∃ g t, st_phase st = Running g ∧
    game_move (E := OracleSessionGameError) st (payload command) (principal_id command) g t.
Proof.
  destruct (demo_checked (take 8 demo_inputs)) as [st|] eqn:Hrun; [|exfalso; revert Hrun; vm_compute; discriminate].
  set (chance := {| chance_cards := seq 0 52; chance_seed := None; chance_deal_ordinal := None |}).
  assert ((λ st, (headroomb st, match serve_command (E := OracleSessionGameError) demo_json demo_hash st
      (demo_command st "c9" "game" (ApplyChance chance)) with Ok (st', Applied) =>
        negb (bool_decide (active_game (st_phase st') = active_game (st_phase st))) | _ => false end))
      <$> demo_checked (take 8 demo_inputs) = Some (true, true)) as Hc by (vm_compute; reflexivity).
  rewrite Hrun in Hc. cbn [fmap option_fmap option_map] in Hc. injection Hc as Hroom Hc. apply headroomb_spec in Hroom.
  destruct (serve_command demo_json demo_hash st _) as [[st' []]|err|] eqn:Hp; try discriminate Hc.
  pose proof (demo_served _ _ Hrun) as Hs. exists st, st'. intros command.
  split; [exact (conj demo_fresh (conj Hs (conj Hroom Hp)))|].
  apply negb_true_iff, bool_decide_eq_false in Hc.
  destruct (game_gate demo_json demo_hash demo_room st st' command Applied demo_fresh Hs Hroom Hp)
    as [Heq|[(_ & [Hx|[Hx|Hx]])|[(tok & seats & g & Hx & _)|(g & t & Hg & Hm & _)]]];
    [contradiction|discriminate Hx..|]. exists g, t. exact (conj Hg Hm).
Defined.
