(* ===== verification/InProcessProperties.v ===== *)
(** * Properties of the in-process authority

    Draining the queue, recovery from the journal, the ledger of committed events,
    and the countdown, with the demonstration runs that exercise them. *)

From stdpp Require Import base strings numbers option list gmap pretty.
From S2P Require Import Prelude Methods Environment Protocol Frames FrameTheorems SessionState OracleSession SessionMachine InProcess SessionValid SessionPreserve SessionDecide SessionLog SessionTheorems InProcessRuns InProcessRecovery InProcessLedger SessionProperties.

(** ** Demonstration runs *)

#[local] Existing Instance oracle_two.
#[local] Existing Instance sample_serde.

Notation DemoAuthority := (InProcessAuthority OracleSessionGame) (only parsing).
Notation DemoError := OracleSessionGameError (only parsing).

(** A client's operation, or a step of the authority. *)
Inductive DemoOp : Type :=
  | DemoTransport (op : TransportOp)
  | DemoSubmit (id : Z) (command principal : string) (p : CommandPayload)
  | DemoDrive
  | DemoClock (tick : Z).

Definition demo_authority : DemoAuthority := authority_new demo_room (transport_new Typed).

(** A submitted command is written for the room as it is. *)
Definition demo_op (a : DemoAuthority) (op : DemoOp) : option DemoAuthority :=
  match op with
  | DemoTransport op => Some (with_transport a (transport_op op (transport a)))
  | DemoSubmit id command principal p =>
      Some (with_transport a (transport_op (OpSubmit id (demo_command (room a) command principal p)) (transport a)))
  | DemoDrive =>
      match drive_one (E := DemoError) demo_json demo_hash a with (a, Ok _) => Some a | _ => None end
  | DemoClock tick =>
      match advance_clock_to (E := DemoError) demo_json demo_hash tick a with (a, Ok _) => Some a | _ => None end
  end.

Definition is_new (st : SessionState OracleSessionGame) (id : CommandId) : bool :=
  match find_record st id with None => true | Some _ => false end.

Definition clock_routed (a : DemoAuthority) : bool := any_connection (live_route (authority_clock (room a))) (connections (transport a)).

Definition input_newb (a : DemoAuthority) : bool :=
  match ingress (transport a) with
  | IngressCommand _ p command :: _ => is_new (room a) (command_id command) && negb (bool_decide (p = authority_clock (room a)))
  | _ => true
  end && headroomb (room a).

Definition clock_freeb (a : DemoAuthority) : bool :=
  negb (clock_routed a) && is_new (room a) (numbered "clock-" (next_delivery a)) && headroomb (room a).

Definition clock_knownb (a : DemoAuthority) : bool :=
  negb (clock_routed a) || bool_decide (authority_clock (room a) ∈ journaled (journal a)).

(** What is asked before each step: of the countdown when [checked], of recovery otherwise. *)
Definition demo_guardb (checked : bool) (op : DemoOp) (a : DemoAuthority) : bool :=
  match op with
  | DemoDrive => negb checked || input_newb a
  | DemoClock _ => if checked then clock_freeb a else clock_knownb a
  | _ => true
  end.

Fixpoint demo_ops (checked : bool) (ops : list DemoOp) (a : DemoAuthority) : option DemoAuthority :=
  match ops with
  | [] => Some a
  | op :: ops => if demo_guardb checked op a then a ← demo_op a op; demo_ops checked ops a else None
  end.

Definition demo_room_ops : list DemoOp :=
  [DemoTransport (OpConnect "alice"); DemoTransport (OpConnect "bob");
   DemoSubmit 0 "c1" "alice" CreateRoom; DemoDrive; DemoSubmit 1 "c2" "bob" (RedeemInvite "guest-invite"); DemoDrive;
   DemoSubmit 0 "c3" "alice" (TakeSeat 0); DemoDrive; DemoSubmit 1 "c4" "bob" (TakeSeat 1); DemoDrive;
   DemoSubmit 0 "c5" "alice" Ready; DemoDrive; DemoSubmit 1 "c6" "bob" Ready; DemoDrive;
   DemoSubmit 0 "c7" "alice" (Chat "hello"); DemoDrive; DemoSubmit 0 "c8" "alice" (ArmCountdown 10 "token"); DemoDrive].

Definition demo_input (checked : bool) (a : DemoAuthority) : Prop := if checked then input_new a else True.
Definition demo_clock (checked : bool) (a : DemoAuthority) : Prop := if checked then clock_free a else clock_known a.

Notation demo_runs checked a :=
  (run (E := DemoError) demo_json demo_hash (demo_input checked) (demo_clock checked) demo_room a) (only parsing).

Lemma clock_routed_spec a : clock_routed a = true ↔ routed (transport a) (authority_clock (room a)).
Proof. apply any_routed. Qed.

Lemma is_new_spec st id : is_new st id = true → find_record st id = None.
Proof. unfold is_new. by destruct (find_record _ _). Qed.

Lemma input_newb_spec a : input_newb a = true → input_new a.
Proof.
  unfold input_newb, input_new. intros [Hi Hr%headroomb_spec]%andb_true_iff. split; [|done].
  destruct (ingress (transport a)) as [|[? p command|] ?]; [done| |done].
  apply andb_true_iff in Hi as [Hn%is_new_spec Hp%negb_true_iff%bool_decide_eq_false]. done.
Qed.

Lemma clock_freeb_spec a : clock_freeb a = true → clock_free a.
Proof.
  unfold clock_freeb, clock_free. rewrite !andb_true_iff, negb_true_iff. intros [[Hc Hn%is_new_spec] Hr%headroomb_spec].
  split_and!; try done. rewrite <-clock_routed_spec. congruence.
Qed.

Lemma clock_knownb_spec a : clock_knownb a = true → clock_known a.
Proof.
  unfold clock_knownb, clock_known. rewrite <-clock_routed_spec. destruct (clock_routed a); [|done]. cbn. by intros Hb%bool_decide_eq_true.
Qed.

(** The operations of a demonstration make a run. *)
Lemma demo_ops_run checked ops a a' : demo_runs checked a → demo_ops checked ops a = Some a' → demo_runs checked a'.
Proof.
  revert a. induction ops as [|op ops IH]; intros a Hrun Hops; cbn [demo_ops] in Hops; [by injection Hops as <-|].
  destruct (demo_guardb checked op a) eqn:Hg; [|done]. destruct (demo_op a op) as [a1|] eqn:Ho; [|done]. cbn in Hops.
  apply (IH a1); [|done]. clear IH Hops. destruct op as [op|id command principal p| |tick]; cbn [demo_op] in Ho.
  - injection Ho as <-. by apply run_transport.
  - injection Ho as <-. by apply (run_transport _ _ _ _ _ _ (OpSubmit id (demo_command (room a) command principal p))).
  - destruct (drive_one _ _ a) as [a2 [o|e|]] eqn:Hd; [|done..]. injection Ho as <-. eapply run_drive; [done| |exact Hd].
    destruct checked; [by apply input_newb_spec|done].
  - destruct (advance_clock_to _ _ tick a) as [a2 [o|e|]] eqn:Hd; [|done..]. injection Ho as <-. eapply run_clock; [done| |exact Hd].
    destruct checked; [by apply clock_freeb_spec|by apply clock_knownb_spec].
Qed.

Lemma demo_start checked : demo_runs checked demo_authority.
Proof. by apply run_new. Qed.

(** ** Draining the queue *)

(** What driving leaves of the queue and adds to the journal, even when it fails. *)
Record drained {G} (n : nat) (a a' : InProcessAuthority G) : Prop := {
  dr_queue : ingress (transport a') = drop n (ingress (transport a));
  dr_journal : journal a' = journal a ++ (journal_input <$> take n (ingress (transport a)));
}.

Section Drain.
Context {G E : Type} `{EqDecision G} `{SessionGame G E} `{Serde}.
Context (payload_json : CommandPayload → option (list Z)) (blake3 : list Z → list Z).
Implicit Types a : InProcessAuthority G.

(** Serving leaves the queue and the journal alone. *)
Definition kept a a' : Prop := ingress (transport a') = ingress (transport a) ∧ journal a' = journal a.

#[export] Instance kept_preorder : PreOrder kept.
Proof using Type. split; [done|]. intros a1 a2 a3 [] []. split; congruence. Qed.

Lemma kept_delivered {T} (m : M (InProcessAuthority G) (InProcessAuthorityError E) T) :
  steps_by delivered m → steps_by kept m.
Proof using Type. intros Hm a. destruct (Hm a) as [? _ _ _ _ Ht]. split; [by destruct Ht|done]. Qed.

Lemma kept_commit events : steps_by kept (commit_events (E := E) (G := G) events).
Proof using Type.
  unfold commit_events. apply steps_bind; [apply _|apply steps_read; apply _|]. intros state. cbv zeta.
  apply steps_bind; [apply _|apply steps_lift; apply _|]. intros candidate.
  apply steps_bind; [apply _|by intros a|]. intros _.
  apply steps_bind; [apply _| |].
  - destruct (already_applied _ _); [apply steps_ret; apply _|]. apply steps_for_each; [apply _|]. intros e.
    unfold record_committed. apply steps_bind; [apply _|by intros a|]. intros _.
    destruct (ev_kind e); try (apply steps_ret; apply _).
    apply steps_bind; [apply _|apply steps_lift; apply _|]. by intros r a.
  - intros _. apply steps_for_each; [apply _|]. intros e a. unfold drive_clock, update. cbn. by destruct (ev_kind e).
Qed.

Lemma kept_ingress input : steps_by kept (process_ingress (E := E) payload_json blake3 input).
Proof using Type.
  destruct input as [id p command|id p observation]; cbn [process_ingress].
  - unfold process_command. apply steps_bind; [apply _|apply steps_read; apply _|]. intros st. cbv zeta.
    destruct (negb _).
    + apply steps_bind; [apply _|apply steps_lift; apply _|]. intros reason.
      apply steps_bind; [apply _|apply kept_delivered, steps_send_denial|]. intros _. apply kept_delivered, steps_answer.
    + apply steps_bind; [apply _|apply steps_lift; apply _|]. intros authorized.
      destruct (SessionMachine.decide _ _ _ _) as [events|[]|];
        try (apply steps_throw; apply _); try (apply steps_lift; apply _).
      * apply steps_bind; [apply _|apply kept_commit|]. intros _.
        apply steps_bind; [apply _|apply kept_delivered, steps_broadcast|]. intros _. apply kept_delivered, steps_answer.
      * apply steps_bind; [apply _|apply kept_delivered, steps_send_denial|]. intros _. apply kept_delivered, steps_answer.
  - unfold process_disconnect. apply steps_bind; [apply _|apply kept_delivered, steps_identifier|]. intros cor. cbv zeta.
    apply steps_bind; [apply _|apply steps_read; apply _|]. intros st.
    apply steps_bind; [apply _|apply steps_lift; apply _|]. intros events.
    apply steps_bind; [apply _|apply kept_commit|]. intros _.
    apply steps_bind; [apply _|apply kept_delivered, steps_broadcast|]. intros _. apply kept_delivered, steps_answer.
Qed.

(** One turn takes one ingress, served or not. *)
Lemma drive_one_drains a : match ingress (transport a), drive_one (E := E) payload_json blake3 a with
  | [], (a', r) => drained 0 a a' ∧ r = Ok None
  | _ :: _, (a', r) => drained 1 a a' ∧ r ≠ Ok None
  end.
Proof using Type.
  unfold drive_one, mbind, M_bind at 1. unfold on_transport, receive, mbind, M_bind, read, update, mret, M_ret.
  destruct (ingress (transport a)) as [|input rest] eqn:Hq; cbn [head tail map_err].
  { split; [|done]. split; cbn; rewrite ?Hq, ?app_nil_r; done. }
  unfold append_journal, update.
  match goal with |- context [process_ingress payload_json blake3 input ?s] =>
    pose proof (kept_ingress input s) as [H1 H2]; destruct (process_ingress payload_json blake3 input s) as [a' [o|e|]] end;
    cbn in H1, H2; (split; [split; rewrite ?Hq, ?H1, ?H2; done|done]).
Qed.

Lemma drive_loop_drains fuel outcomes a : length (ingress (transport a)) < fuel →
  ∃ n, n <= length (ingress (transport a)) ∧
    match drive_all_loop (E := E) payload_json blake3 fuel outcomes a with
    | (a', Ok None) => False
    | (a', Ok (Some all)) =>
        drained n a a' ∧ n = length (ingress (transport a)) ∧ length all = length outcomes + n
    | (a', _) => drained n a a' ∧ 0 < n
    end.
Proof using Type.
  revert outcomes a. induction fuel as [|fuel IH]; intros outcomes a Hfuel; [lia|]. cbn [drive_all_loop].
  pose proof (drive_one_drains a) as Hone. unfold mbind, M_bind at 1.
  destruct (ingress (transport a)) as [|input rest] eqn:Hq;
    destruct (drive_one payload_json blake3 a) as [a1 r]; destruct Hone as [[Hq1 Hj1] Hr].
  { subst r. exists 0. split; [done|]. cbn. rewrite !Nat.add_0_r. done. }
  rewrite Hq in Hq1, Hj1. cbn [drop take] in Hq1; rewrite drop_0 in Hq1. cbn [take] in Hj1. cbn [length] in *.
  destruct r as [[o|]|e|]; [|done|exists 1..].
  - destruct (IH (outcomes ++ [o]) a1) as (n & Hn & Hloop); [rewrite Hq1; lia|]. rewrite Hq1 in Hn.
    exists (S n). split; [lia|]. assert (∀ a', drained n a1 a' → drained (S n) a a') as Hstep.
    { intros a' [H1 H2]. rewrite Hq1 in H1, H2. rewrite Hj1 in H2. split; rewrite Hq; cbn; [done|]. by rewrite H2, <-app_assoc. }
    destruct (drive_all_loop _ _ _ _ a1) as [a' [[all|]|e|]]; [|done|destruct Hloop; split; [auto|lia]..].
    rewrite Hq1, length_app in Hloop. cbn in Hloop. destruct Hloop as (Hd & Hn1 & Hn2).
    split_and!; [by apply Hstep|by f_equal|lia].
  - split; [lia|]. split; [|lia]. by split; rewrite Hq.
  - split; [lia|]. split; [|lia]. by split; rewrite Hq.
Qed.

(** Draining the queue terminates and serves every ingress once, in order.
    [drive_all] never runs out of turns.  When it succeeds the queue is empty, the
    journal has gained exactly the queued inputs in their order, and there is one
    outcome for each; when it fails, it stopped at an input it had already taken
    and journaled, and every later input is still queued. *)
Theorem drive_all_drains a :
  ∃ n, n <= length (ingress (transport a)) ∧
    let '(a', r) := drive_all (E := E) payload_json blake3 a in
    ingress (transport a') = drop n (ingress (transport a)) ∧
    journal a' = journal a ++ (journal_input <$> take n (ingress (transport a))) ∧
    match r with
    | Ok None => False
    | Ok (Some outcomes) => n = length (ingress (transport a)) ∧ length outcomes = n
    | _ => 0 < n
    end.
Proof using Type.
  destruct (drive_loop_drains (S (length (ingress (transport a)))) [] a) as (n & Hn & Hd); [lia|].
  exists n. split; [done|]. unfold drive_all. destruct (drive_all_loop _ _ _ _ a) as [a' [[all|]|e|]];
    [|done|destruct Hd as [[] ?]; by split_and!..].
  destruct Hd as ([] & Hl & Ho). by split_and!.
Qed.
End Drain.

(** ** Recovery *)

(** [C10] Recovery restores the authority.  Take an authority that started on a
    room without members and every step of which succeeded, whatever clients did
    to the transport, its faults included, provided that each time the clock was
    advanced while a client was connected as the clock, a command in the clock's
    name had been served.  Replaying its durable journal from the initial room
    succeeds, and gives the same room, clock, chat tail, committed events, journal
    and delivery counter; the connection and observation counters are not behind, so
    no identifier is given out twice. *)
Theorem recovery_restores {G E : Type} `{EqDecision G} `{SessionGame G E} `{Serde} payload_json blake3
    (initial : SessionState G) (a : InProcessAuthority G) :
  members initial = [] → run (E := E) payload_json blake3 (λ _, True) clock_known initial a →
  (Z.of_nat (length (journal a)) < 2 ^ 64)%Z →
  ∃ r, from_durable_journal (E := E) payload_json blake3 initial (durable_journal a) = Ok r ∧
    room r = room a ∧ clock r = clock a ∧ chat_tail r = chat_tail a ∧ committed_events r = committed_events a ∧
    journal r = journal a ∧ next_delivery r = next_delivery a ∧
    (next_connection (transport a) <= next_connection (transport r))%Z ∧
    (next_observation (transport a) <= next_observation (transport r))%Z.
Proof.
  intros Hnone Hrun Hlen. destruct (run_replayed _ _ _ _ _ Hnone Hrun Hlen) as (r & Hre & [] & Hj & _).
  destruct (run_bound _ _ _ _ _ _ Hrun) as [_ Hid]. injection Hid as Hid _ _.
  unfold from_durable_journal, replay_journal, durable_journal. cbn [arj_schema_version arj_room_id arj_inputs arj_revision].
  rewrite Z.eqb_refl, bool_decide_eq_false_2 by naive_solver. cbn [negb orb]. rewrite Hre.
  cbn [mbind outcome_bind map_err]. rewrite mi_room, Z.eqb_refl. cbn [negb].
  eexists. split; [done|]. cbn. split_and!; try done; lia.
Qed.

(** The demonstration with a client that speaks as the clock and starts the game, the
    expiry that this leaves on the clock, a retransmission, a disconnection and a
    reconnection. *)
Definition demo_long_ops : list DemoOp :=
  demo_room_ops ++
  [DemoTransport (OpConnect "clock"); DemoSubmit 2 "c9" "clock" (CountdownExpired "token"); DemoDrive; DemoClock 12;
   DemoTransport (OpInjectFault DuplicateNext); DemoSubmit 1 "c10" "bob" (Chat "again"); DemoDrive; DemoDrive;
   DemoTransport (OpDisconnect 1); DemoDrive; DemoTransport (OpConnect "bob"); DemoSubmit 3 "c11" "bob" Reconnect; DemoDrive].

Lemma recovery_restores_witness : ∃ a r,
  (members demo_room = [] ∧ demo_runs false a ∧ (Z.of_nat (length (journal a)) < 2 ^ 64)%Z) ∧
  (length (journal a) = 14 ∧ st_revision (room a) = 12%Z) ∧
  from_durable_journal (E := DemoError) demo_json demo_hash demo_room (durable_journal a) = Ok r ∧ room r = room a.
Proof.
  destruct (demo_ops false demo_long_ops demo_authority) as [a|] eqn:Ha; [|exfalso; revert Ha; vm_compute; discriminate].
  assert ((λ a, (length (journal a), st_revision (room a))) <$> demo_ops false demo_long_ops demo_authority = Some (14, 12%Z)) as Hc
    by (vm_compute; reflexivity).
  rewrite Ha in Hc. injection Hc as Hj Hr. pose proof (demo_ops_run _ _ _ _ (demo_start false) Ha) as Hrun.
  assert (Z.of_nat (length (journal a)) < 2 ^ 64)%Z as Hlen by (rewrite Hj; reflexivity).
  destruct (recovery_restores demo_json demo_hash demo_room a eq_refl Hrun Hlen) as (r & Hf & Hroom & _).
  exists a, r. split; [exact (conj eq_refl (conj Hrun Hlen))|]. split; [exact (conj Hj Hr)|]. exact (conj Hf Hroom).
Defined.

(** ** The ledger *)

Lemma skip_numbered {A} (number : A → Z) l r off :
  (∀ i x, l !! i = Some x → number x = Z.of_nat (off + i) + 1)%Z → (Z.of_nat off <= r)%Z →
  List.filter (λ x, r <? number x)%Z l = drop (Z.to_nat r - off) l.
Proof.
  revert off. induction l as [|x l IH]; intros off Hl Hr; [by rewrite drop_nil|]. cbn [List.filter].
  pose proof (Hl 0 x eq_refl) as Hx. destruct (Z.ltb_spec r (number x)) as [Hlt|Hge].
  - replace (Z.to_nat r - off) with 0 by lia. cbn [drop]. f_equal.
    rewrite (forallb_filter_id _ l); [done|]. apply forallb_forall. intros y (i & Hi)%list_elem_of_In%list_elem_of_lookup.
    pose proof (Hl (S i) y Hi). apply Z.ltb_lt. lia.
  - replace (Z.to_nat r - off) with (S (Z.to_nat r - S off)) by lia. cbn [drop]. apply IH; [|lia].
    intros i y Hi. rewrite (Hl (S i) y Hi). lia.
Qed.

(** [C11] An authority's committed events are the history of its room.  Along any
    run of successful steps: event [i] carries revision [i + 1] and the last one is
    the room's revision, so no revision is skipped or repeated; applying the events
    to the initial room gives the room; the room is one the session machine alone
    would serve; the events after a revision are those past that many; and the
    chat tail is the last sixty-four chat messages of the history. *)
Theorem authority_ledger {G E : Type} `{EqDecision G} `{SessionGame G E} `{Serde} payload_json blake3
    (P Q : InProcessAuthority G → Prop) (initial : SessionState G) (a : InProcessAuthority G) :
  fresh_room initial → run (E := E) payload_json blake3 P Q initial a → headroom (room a) →
  let events := committed_event <$> committed_events a in
  (∀ i entry, committed_events a !! i = Some entry → committed_revision entry = Z.of_nat i + 1)%Z ∧
  st_revision (room a) = Z.of_nat (length (committed_events a)) ∧
  commit_batch (E := E) initial events = Ok (room a) ∧
  served (E := E) payload_json blake3 initial (room a) ∧
  (∀ r, (0 <= r)%Z → committed_events_after a r = drop (Z.to_nat r) (committed_events a)) ∧
  chat_entries (chat_tail a) = last_n DEFAULT_CHAT_TAIL_CAPACITY (omap chat_of events).
Proof.
  intros Hinit Hrun Hroom. destruct (run_ledger _ _ _ _ _ _ Hinit Hrun Hroom) as [Hs Hp _ Hc _ Ht].
  destruct (served_inv _ _ _ _ Hinit Hs) as (_ & Hfold & Hrev). fold (log (room a)) in Hfold, Hrev. cbv zeta.
  assert (committed_event <$> committed_events a = log (room a)) as Hev.
  { rewrite Hc, <-list_fmap_compose. by apply list_fmap_id. }
  assert (∀ i entry, committed_events a !! i = Some entry → committed_revision entry = Z.of_nat i + 1)%Z as Hnum.
  { intros i entry Hi. rewrite Hc, list_lookup_fmap in Hi. destruct (log (room a) !! i) as [e|] eqn:He; [|done].
    injection Hi as <-. pose proof (Hp i e He) as Hpos. pose proof (lookup_lt_Some _ _ _ He).
    destruct Hroom as (? & _). cbn. unfold saturating_revision, saturating_add, umax, event_position in *. lia. }
  rewrite Hev. split_and!; try done.
  - by rewrite Hrev, Hc, length_fmap.
  - intros r Hr. unfold committed_events_after. rewrite (skip_numbered _ _ r 0); [by rewrite Nat.sub_0_r|done|lia].
Qed.

Lemma authority_ledger_witness : ∃ a,
  (fresh_room demo_room ∧ demo_runs false a ∧ headroom (room a)) ∧ length (committed_events a) = 12 ∧
  length (committed_events_after a 10) = 2 ∧
  commit_batch (E := DemoError) demo_room (committed_event <$> committed_events a) = Ok (room a).
Proof.
  destruct (demo_ops false demo_long_ops demo_authority) as [a|] eqn:Ha; [|exfalso; revert Ha; vm_compute; discriminate].
  assert ((λ a, (length (committed_events a), headroomb (room a))) <$> demo_ops false demo_long_ops demo_authority = Some (12, true)) as Hc
    by (vm_compute; reflexivity).
  rewrite Ha in Hc. injection Hc as Hj Hr%headroomb_spec. pose proof (demo_ops_run _ _ _ _ (demo_start false) Ha) as Hrun.
  destruct (authority_ledger demo_json demo_hash (demo_input false) (demo_clock false) demo_room a demo_fresh Hrun Hr) as (_ & _ & Hb & _ & Hd & _).
  exists a. split; [exact (conj demo_fresh (conj Hrun Hr))|]. split; [exact Hj|].
  split; [rewrite (Hd 10%Z) by lia; rewrite length_drop, Hj; reflexivity|exact Hb].
Defined.

(** ** The countdown *)

(** [C12] The clock follows the room and a countdown ends on time.  Along a run of
    successful steps in which every command served is new and none is sent in the
    name of the clock, and in which, whenever the clock is advanced, no client is
    connected as the clock and the authority's own identifier is free, the clock of
    an open room holds exactly the expiry of its countdown, and none without one.
    Then advancing the clock to or past the deadline starts the game, and advancing
    it to any earlier tick, or without a countdown, leaves the room as it is. *)
Theorem countdown_expires {G E : Type} `{EqDecision G} `{SessionGame G E} `{Serde} payload_json blake3
    (initial : SessionState G) (a a' : InProcessAuthority G) tick outcomes :
  fresh_room initial → run (E := E) payload_json blake3 input_new clock_free initial a → clock_free a →
  advance_clock_to (E := E) payload_json blake3 tick a = (a', Ok outcomes) →
  let reached := Z.max (now (clock a)) tick in
  (st_phase (room a) ≠ Closed → scheduled (clock a) = schedule_of (st_room_id (room a)) (st_phase (room a))) ∧
  (∀ deadline token, st_phase (room a) = Countdown deadline token → (deadline <= reached)%Z →
     ∃ g, st_phase (room a') = Running g) ∧
  ((∀ deadline token, st_phase (room a) = Countdown deadline token → (reached < deadline)%Z) → room a' = room a).
Proof.
  intros Hinit Hrun (Hr & Hnew & Hroom) Hadv. cbv zeta.
  pose proof (run_in_step _ _ _ _ Hinit Hrun Hroom) as Hin. pose proof (run_ledger _ _ _ _ _ _ Hinit Hrun Hroom) as Hl.
  split; [exact Hin|]. split.
  - intros d t Hp. eapply in_step_advance; [done..| |done|done|done]. by rewrite Hp.
  - intros Hearly. by eapply advance_waits.
Qed.

Lemma countdown_expires_witness : ∃ a a' outcomes,
  (fresh_room demo_room ∧ demo_runs true a ∧ clock_free a ∧
   advance_clock_to (E := DemoError) demo_json demo_hash 10 a = (a', Ok outcomes)) ∧
  st_phase (room a) = Countdown 10 "token" ∧ ∃ g, st_phase (room a') = Running g.
Proof.
  destruct (demo_ops true demo_room_ops demo_authority) as [a|] eqn:Ha; [|exfalso; revert Ha; vm_compute; discriminate].
  assert ((λ a, (clock_freeb a, st_phase (room a), now (clock a),
      is_ok (advance_clock_to (E := DemoError) demo_json demo_hash 10 a).2)) <$> demo_ops true demo_room_ops demo_authority
    = Some (true, Countdown 10 "token", 0%Z, true)) as Hc by (vm_compute; reflexivity).
  rewrite Ha in Hc. injection Hc as Hu%clock_freeb_spec Hp Hn Hok.
  destruct (advance_clock_to (E := DemoError) demo_json demo_hash 10 a) as [a' [os|e|]] eqn:Hadv; [|discriminate Hok..].
  pose proof (demo_ops_run _ _ _ _ (demo_start true) Ha) as Hrun.
  destruct (countdown_expires demo_json demo_hash demo_room a a' 10 os demo_fresh Hrun Hu Hadv) as (_ & Hstart & _).
  exists a, a', os. split; [exact (conj demo_fresh (conj Hrun (conj Hu Hadv)))|]. split; [exact Hp|].
  apply (Hstart 10%Z "token" Hp). rewrite Hn. lia.
Defined.

(** ** Where the clock and the room part *)

(** A retransmitted [ArmCountdown] puts its expiry back after the countdown was
    abandoned; the clock command of that expiry is refused and fails for want of
    anyone to tell. *)
Definition arm_repeated : option DemoAuthority :=
  a ← demo_ops false (take 16 demo_room_ops) demo_authority;
  let arm := OpSubmit 0 (demo_command (room a) "c8" "alice" (ArmCountdown 10 "token")) in
  demo_ops false [DemoTransport arm; DemoDrive; DemoSubmit 0 "c9" "alice" AbortCountdown; DemoDrive;
                  DemoTransport arm; DemoDrive] a.

Lemma repeated_arm_rearms : ∃ a, arm_repeated = Some a ∧ st_phase (room a) = Lobby ∧ length (scheduled (clock a)) = 1 ∧
  (advance_clock_to (E := DemoError) demo_json demo_hash 10 a).2 = Err (AuthorityTransport NoConnectedRecipient).
Proof.
  destruct arm_repeated as [a|] eqn:Ha; [|exfalso; revert Ha; vm_compute; discriminate].
  assert ((λ a, (st_phase (room a), length (scheduled (clock a)),
      (advance_clock_to (E := DemoError) demo_json demo_hash 10 a).2)) <$> arm_repeated
    = Some (Lobby, 1, Err (AuthorityTransport NoConnectedRecipient))) as Hc by (vm_compute; reflexivity).
  rewrite Ha in Hc. injection Hc as H1 H2 H3. exists a. exact (conj eq_refl (conj H1 (conj H2 H3))).
Qed.

(** A client connected as the clock is told of that refusal, so the authority goes on;
    the journal knows of the client only by its commands, and no longer replays. *)
Lemma unknown_clock_breaks_recovery : ∃ a a' os, arm_repeated ≫= (λ a, demo_op a (DemoTransport (OpConnect "clock"))) = Some a ∧
  ¬ clock_known a ∧ advance_clock_to (E := DemoError) demo_json demo_hash 10 a = (a', Ok os) ∧
  from_durable_journal (E := DemoError) demo_json demo_hash demo_room (durable_journal a') = Err "authority recovery replay failed".
Proof.
  destruct (arm_repeated ≫= _) as [a|] eqn:Ha; [|exfalso; revert Ha; vm_compute; discriminate].
  assert ((λ a, let '(a', r) := advance_clock_to (E := DemoError) demo_json demo_hash 10 a in
      (clock_routed a, bool_decide (authority_clock (room a) ∈ journaled (journal a)), is_ok r,
       match from_durable_journal (E := DemoError) demo_json demo_hash demo_room (durable_journal a') with Err e => Some e | _ => None end)) <$>
      (arm_repeated ≫= (λ a, demo_op a (DemoTransport (OpConnect "clock"))))
    = Some (true, false, true, Some "authority recovery replay failed")) as Hc by (vm_compute; reflexivity).
  rewrite Ha in Hc. cbn [fmap option_fmap option_map] in Hc. destruct (advance_clock_to _ _ 10 a) as [a' [os|e|]] eqn:Hadv; [|discriminate Hc..].
  injection Hc as H1%clock_routed_spec H2%bool_decide_eq_false H3. exists a, a', os. split; [reflexivity|].
  split; [intros Hk; exact (H2 (Hk H1))|]. split; [exact Hadv|].
  destruct (from_durable_journal _ _ _ _) as [x|e|]; [discriminate H3|injection H3 as ->; reflexivity|discriminate H3].
Qed.

(** A client that reports the expiry as the clock starts the game and leaves the expiry
    on the clock. *)
Lemma clock_client_keeps_expiry : ∃ a g, demo_ops false (take 21 demo_long_ops) demo_authority = Some a ∧
  st_phase (room a) = Running g ∧ length (scheduled (clock a)) = 1.
Proof.
  destruct (demo_ops false (take 21 demo_long_ops) demo_authority) as [a|] eqn:Ha; [|exfalso; revert Ha; vm_compute; discriminate].
  assert ((λ a, (match st_phase (room a) with Running _ => true | _ => false end, length (scheduled (clock a)))) <$>
      demo_ops false (take 21 demo_long_ops) demo_authority = Some (true, 1)) as Hc by (vm_compute; reflexivity).
  rewrite Ha in Hc. injection Hc as H1 H2. destruct (st_phase (room a)) as [| | |g| | |] eqn:Hp; try discriminate H1.
  exists a, g. exact (conj eq_refl (conj Hp H2)).
Qed.

(** Closing a room leaves its countdown on the clock; the next tick past it fails
    and the journal it leaves no longer replays. *)
Definition closed_in_countdown : option DemoAuthority :=
  demo_ops true (demo_room_ops ++ [DemoSubmit 0 "c9" "alice" CloseRoom; DemoDrive]) demo_authority.

Lemma closed_room_keeps_expiry : ∃ a, closed_in_countdown = Some a ∧ st_phase (room a) = Closed ∧
  let '(a', r) := advance_clock_to (E := DemoError) demo_json demo_hash 10 a in
  r = Err (AuthorityTransport NoConnectedRecipient) ∧
  from_durable_journal (E := DemoError) demo_json demo_hash demo_room (durable_journal a')
    = Err "authority recovery replay failed".
Proof.
  destruct closed_in_countdown as [a|] eqn:Ha; [|exfalso; revert Ha; vm_compute; discriminate]. exists a. split; [reflexivity|].
  assert ((λ a, let '(a', r) := advance_clock_to (E := DemoError) demo_json demo_hash 10 a in
      (st_phase (room a), r, match from_durable_journal (E := DemoError) demo_json demo_hash demo_room (durable_journal a') with
        Err e => Some e | _ => None end)) <$> closed_in_countdown
    = Some (Closed, Err (AuthorityTransport NoConnectedRecipient), Some "authority recovery replay failed")) as Hc
    by (vm_compute; reflexivity).
  rewrite Ha in Hc. cbn [fmap option_fmap option_map] in Hc. destruct (advance_clock_to _ _ 10 a) as [a' r].
  injection Hc as H1 H2 H3. split; [exact H1|]. split; [exact H2|].
  destruct (from_durable_journal _ _ _ _) as [x|e|]; [discriminate H3|injection H3 as ->; reflexivity|discriminate H3].
Qed.

(** A client that has used the identifier of the next disconnect observation
    makes that observation fail. *)
Definition observation_taken : option DemoAuthority :=
  demo_ops true (take 14 demo_room_ops ++
    [DemoSubmit 0 "disconnect-0" "alice" (Chat "hello"); DemoDrive; DemoTransport (OpDisconnect 1)]) demo_authority.

Lemma observation_id_conflicts : ∃ a, observation_taken = Some a ∧
  (drive_one (E := DemoError) demo_json demo_hash a).2 = Err (AuthoritySession ConflictingCommandId).
Proof.
  destruct observation_taken as [a|] eqn:Ha; [|exfalso; revert Ha; vm_compute; discriminate]. exists a. split; [reflexivity|].
  assert ((λ a, (drive_one (E := DemoError) demo_json demo_hash a).2) <$> observation_taken
    = Some (Err (AuthoritySession ConflictingCommandId))) as Hc by (vm_compute; reflexivity).
  rewrite Ha in Hc. injection Hc as Hc. exact Hc.
Qed.

(** A client that has used the identifier of the next clock command makes that
    command fail, and the countdown it was for has left the clock. *)
Definition clock_id_taken : option DemoAuthority :=
  demo_ops false (take 14 demo_room_ops ++
    [DemoSubmit 0 "clock-15" "alice" (Chat "hello"); DemoDrive;
     DemoSubmit 0 "c8" "alice" (ArmCountdown 10 "token"); DemoDrive]) demo_authority.

Lemma clock_id_conflicts : ∃ a, clock_id_taken = Some a ∧ st_phase (room a) = Countdown 10 "token" ∧
  let '(a', r) := advance_clock_to (E := DemoError) demo_json demo_hash 10 a in
  r = Err (AuthorityTransport NoConnectedRecipient) ∧ st_phase (room a') = Countdown 10 "token" ∧ scheduled (clock a') = [].
Proof.
  destruct clock_id_taken as [a|] eqn:Ha; [|exfalso; revert Ha; vm_compute; discriminate]. exists a. split; [reflexivity|].
  assert ((λ a, let '(a', r) := advance_clock_to (E := DemoError) demo_json demo_hash 10 a in
      (st_phase (room a), r, st_phase (room a'), scheduled (clock a'))) <$> clock_id_taken
    = Some (Countdown 10 "token", Err (AuthorityTransport NoConnectedRecipient), Countdown 10 "token", [])) as Hc
    by (vm_compute; reflexivity).
  rewrite Ha in Hc. cbn [fmap option_fmap option_map] in Hc. destruct (advance_clock_to _ _ 10 a) as [a' r].
  injection Hc as H1 H2 H3 H4. exact (conj H1 (conj H2 (conj H3 H4))).
Qed.
