(* ===== verification/GovernanceWire.v ===== *)
(** * Governance commands (crates/poche-protocol, governance.rs)

    The typed commands of governance with their refinements, authority
    requirements and canonical codec.  Serde's JSON text is a parameter. *)

From stdpp Require Import base strings numbers option list.
From S2P Require Import Prelude Protocol.

Notation ProposalId := string (only parsing).

Definition GOVERNANCE_COMMAND_VERSION_V1 : Z := 1.
Definition MAX_SCORE_AMENDMENT : Z := 1000000.
Definition MAX_GOVERNANCE_COMMAND_BYTES : nat := 4096.

Inductive RuleLayerWire : Type := Structural | GameLegality | Governable.

Inductive GovernanceCapabilityWire : Type := CapAdjustScore | CapChangeRights | CapResolveRecovery.

Inductive AuthorityRequirementWire : Type :=
  | CurrentGameActor | ActivePlayer | VoteOrCapability (capability : GovernanceCapabilityWire).

Inductive RightsChangeWire : Type := RightsGrant | RightsRevoke.

Inductive RecoveryActionWire : Type := Redeal | Kick (target : PrincipalId) | EndGame.

Inductive VoteChoiceWire : Type := Approve | Reject | Abstain.

Inductive GovernedActionWire : Type :=
  | GovernedGame (action : GameActionWire)
  | AdjustScore (target : PrincipalId) (delta : Z)
  | ChangeRights (target : PrincipalId) (capability : GovernanceCapabilityWire) (change : RightsChangeWire)
  | Accuse (offending_event_id : EventId)
  | Recover (recovery : RecoveryActionWire).

Inductive GovernanceCommandWire : Type :=
  | Execute (action : GovernedActionWire)
  | StartVote (action : GovernedActionWire)
  | Vote (proposal_id : ProposalId) (choice : VoteChoiceWire).

Record GovernanceCommandV1 : Type := { schema_version : Z; gc_command : GovernanceCommandWire }.

Inductive GovernanceCommandError : Type :=
  | GcUnknownVersion | GcOversize | GcInvalidJson | GcNonCanonical | GcInvalidProposal | GcInvalidPrincipal
  | GcInvalidEvent | GcInvalidGameAction | GcInvalidScoreAmendment.

#[export] Instance GovernanceCapabilityWire_eq_dec : EqDecision GovernanceCapabilityWire.
Proof. solve_decision. Defined.
#[export] Instance RightsChangeWire_eq_dec : EqDecision RightsChangeWire.
Proof. solve_decision. Defined.
#[export] Instance RecoveryActionWire_eq_dec : EqDecision RecoveryActionWire.
Proof. solve_decision. Defined.
#[export] Instance VoteChoiceWire_eq_dec : EqDecision VoteChoiceWire.
Proof. solve_decision. Defined.
#[export] Instance GovernedActionWire_eq_dec : EqDecision GovernedActionWire.
Proof. solve_decision. Defined.
#[export] Instance GovernanceCommandWire_eq_dec : EqDecision GovernanceCommandWire.
Proof. solve_decision. Defined.

Definition rule_layer (self : GovernedActionWire) : RuleLayerWire :=
  match self with GovernedGame _ => GameLegality | _ => Governable end.

Definition action_authority (self : GovernedActionWire) : AuthorityRequirementWire :=
  match self with
  | GovernedGame _ => CurrentGameActor
  | Accuse _ => ActivePlayer
  | AdjustScore _ _ => VoteOrCapability CapAdjustScore
  | ChangeRights _ _ _ => VoteOrCapability CapChangeRights
  | Recover _ => VoteOrCapability CapResolveRecovery
  end.

Definition command_authority (self : GovernanceCommandWire) : AuthorityRequirementWire :=
  match self with Execute action => action_authority action | StartVote _ | Vote _ _ => ActivePlayer end.

(** [i32::checked_abs] *)
Definition checked_abs (delta : Z) : option Z := if (delta =? - 2 ^ 31)%Z then None else Some (Z.abs delta).

Definition delta_invalid (delta : Z) : bool :=
  (delta =? 0)%Z || match checked_abs delta with Some value => (MAX_SCORE_AMENDMENT <? value)%Z | None => true end.

Definition action_validate (self : GovernedActionWire) : outcome GovernanceCommandError unit :=
  match self with
  | GovernedGame (WireBid tricks) => ensure (negb (7 <? tricks)%Z) GcInvalidGameAction
  | GovernedGame (WirePlay card) => ensure (negb (52 <=? card)) GcInvalidGameAction
  | AdjustScore target delta =>
      ensure (negb (negb (is_valid_identifier target) || delta_invalid delta)) GcInvalidScoreAmendment
  | ChangeRights target _ _ => ensure (is_valid_identifier target) GcInvalidPrincipal
  | Accuse offending => ensure (is_valid_identifier offending) GcInvalidEvent
  | Recover (Kick target) => ensure (is_valid_identifier target) GcInvalidPrincipal
  | Recover _ => Ok tt
  end.

Definition validate_proposal (proposal : ProposalId) : outcome GovernanceCommandError unit :=
  ensure (is_valid_identifier proposal) GcInvalidProposal.

Definition wire_command_validate (self : GovernanceCommandWire) : outcome GovernanceCommandError unit :=
  match self with
  | Execute action | StartVote action => action_validate action
  | Vote proposal_id _ => validate_proposal proposal_id
  end.

Definition governance_command_validate (self : GovernanceCommandV1) : outcome GovernanceCommandError unit :=
  if negb (schema_version self =? GOVERNANCE_COMMAND_VERSION_V1)%Z then Err GcUnknownVersion
  else wire_command_validate (gc_command self).

Definition GovernanceCommandV1_new (command : GovernanceCommandWire) : outcome GovernanceCommandError GovernanceCommandV1 :=
  let result := {| schema_version := GOVERNANCE_COMMAND_VERSION_V1; gc_command := command |} in
  _ ← governance_command_validate result;
  Ok result.

(** ** Codec *)

(** [serde_json::to_vec] and [serde_json::from_slice] of the command *)
Class GovernanceSerde : Type := {
  governance_json : GovernanceCommandV1 → option (list Z);
  governance_of_json : list Z → option GovernanceCommandV1;
}.

Definition encode_governance_command `{GovernanceSerde} (command : GovernanceCommandV1)
    : outcome GovernanceCommandError (list Z) :=
  _ ← governance_command_validate command;
  encoded ← ok_or (governance_json command) GcInvalidJson;
  if MAX_GOVERNANCE_COMMAND_BYTES <? length encoded then Err GcOversize else Ok encoded.

Definition decode_governance_command `{GovernanceSerde} (bytes : list Z)
    : outcome GovernanceCommandError GovernanceCommandV1 :=
  if MAX_GOVERNANCE_COMMAND_BYTES <? length bytes then Err GcOversize
  else
    command ← ok_or (governance_of_json bytes) GcInvalidJson;
    _ ← governance_command_validate command;
    encoded ← encode_governance_command command;
    if bool_decide (encoded ≠ bytes) then Err GcNonCanonical else Ok command.
