(* ===== verification/Retrospective.v ===== *)
(** * Retrospective audit (crates/poche-session, retrospective.rs)

    The append-only history of accepted and attempted actions with what was known
    at the time, the disclosures that follow, and the audit that confirms earlier
    failures to follow suit.  No method changes the audit before it fails, so a
    failed method leaves it as it was.  BLAKE3 is a parameter. *)

From Stdlib Require Import Ascii.
From stdpp Require Import base strings numbers option list.
From S2P Require Import Prelude Protocol Bytes.

Notation FindingId := string (only parsing).
Notation AccusationId := string (only parsing).

Definition FOLLOW_SUIT_RULE_ID : string := "R-TRICK-005".

Inductive HistoryActionDisposition : Type := Accepted | AttemptedStructurallyValid.

Record AuditedGameAction : Type := {
  aa_event_id : EventId; aa_sequence : Z; aa_round_id : Z; aa_actor : PrincipalId;
  aa_disposition : HistoryActionDisposition; aa_action : GameActionWire; aa_led_suit : option nat;
  known_held_cards_before : list nat;
}.

Record HandDisclosure : Type := {
  evidence_id : EventId; hd_sequence : Z; hd_round_id : Z; hd_player : PrincipalId;
  complete_remaining_hand : list nat;
}.

Inductive FindingConfidence : Type := ImmediateHeldCard | DelayedPublicPlay | RoundEndDisclosure.

Record RuleFinding : Type := {
  rf_finding_id : FindingId; rule_id : string; offending_action_id : EventId;
  offending_disposition : HistoryActionDisposition; revealing_evidence_id : EventId; revealed_card : nat;
  detector : PrincipalId; confidence : FindingConfidence;
}.

Record ManualAccusation : Type := {
  accusation_id : AccusationId; ma_detector : PrincipalId; ma_offending_action_id : EventId;
}.

Inductive UnfoundedReason : Type := UnknownAction | ActionNotViolation | InsufficientEvidence.

Inductive AccusationOutcome : Type :=
  | Confirmed (finding : FindingId)
  | Unfounded (reason : UnfoundedReason).

Record AccusationRecord : Type := { accusation : ManualAccusation; accusation_outcome : AccusationOutcome }.

Record RetrospectiveAudit : Type := {
  actions : list AuditedGameAction; disclosures : list HandDisclosure;
  findings : list RuleFinding; accusations : list AccusationRecord;
}.

Inductive AuditError : Type :=
  | DuplicateEventId | NonIncreasingSequence | InvalidAction | InvalidCards | AuditInvalidIdentifier
  | InvalidFindingId | ConflictingAccusationId.

#[export] Instance ManualAccusation_eq_dec : EqDecision ManualAccusation.
Proof. solve_decision. Defined.

Definition audit_default : RetrospectiveAudit :=
  {| actions := []; disclosures := []; findings := []; accusations := [] |}.

Definition with_actions (self : RetrospectiveAudit) (l : list AuditedGameAction) : RetrospectiveAudit :=
  {| actions := l; disclosures := disclosures self; findings := findings self; accusations := accusations self |}.

Definition with_disclosures (self : RetrospectiveAudit) (l : list HandDisclosure) : RetrospectiveAudit :=
  {| actions := actions self; disclosures := l; findings := findings self; accusations := accusations self |}.

Definition with_findings (self : RetrospectiveAudit) (l : list RuleFinding) : RetrospectiveAudit :=
  {| actions := actions self; disclosures := disclosures self; findings := l; accusations := accusations self |}.

Definition with_accusations (self : RetrospectiveAudit) (l : list AccusationRecord) : RetrospectiveAudit :=
  {| actions := actions self; disclosures := disclosures self; findings := findings self; accusations := l |}.

(** [iter().find_map(..)] *)
Fixpoint find_map {A B} (f : A → option B) (l : list A) : option B :=
  match l with
  | [] => None
  | x :: l => match f x with Some y => Some y | None => find_map f l end
  end.

(** ** Well-formedness *)

Definition validate_cards (cards : list nat) : outcome AuditError unit :=
  _ ← foldM (λ seen card, if (52 <=? card) || bool_decide (card ∈ seen) then Err InvalidCards else Ok (seen ++ [card]))
        cards [];
  Ok tt.

Definition card_suit (card : nat) : nat := card `div` 13.

Definition sequences (self : RetrospectiveAudit) : list Z := (aa_sequence <$> actions self) ++ (hd_sequence <$> disclosures self).

(** [Iterator::max] *)
Definition max_of (l : list Z) : option Z :=
  match l with [] => None | x :: l => Some (foldl Z.max x l) end.

Definition validate_event (self : RetrospectiveAudit) (event_id : EventId) (sequence : Z) : outcome AuditError unit :=
  let last := max_of (sequences self) in
  if is_some_and last (λ last, sequence <=? last)%Z then Err NonIncreasingSequence
  else if existsb (λ action, bool_decide (aa_event_id action = event_id)) (actions self) ||
          existsb (λ evidence, bool_decide (evidence_id evidence = event_id)) (disclosures self)
  then Err DuplicateEventId
  else Ok tt.

Definition action_malformed (action : AuditedGameAction) : bool :=
  match aa_action action with
  | WireBid tricks => (7 <? tricks)%Z || match aa_led_suit action with Some _ => true | None => false end
  | WirePlay card => (52 <=? card) || is_some_and (aa_led_suit action) (λ suit, 4 <=? suit)
  end.

Definition append_action (self : RetrospectiveAudit) (action : AuditedGameAction) : outcome AuditError RetrospectiveAudit :=
  if negb (is_valid_identifier (aa_event_id action)) || negb (is_valid_identifier (aa_actor action))
  then Err AuditInvalidIdentifier
  else
    _ ← validate_event self (aa_event_id action) (aa_sequence action);
    _ ← validate_cards (known_held_cards_before action);
    if action_malformed action then Err InvalidAction
    else Ok (with_actions self (actions self ++ [action])).

Definition append_disclosure (self : RetrospectiveAudit) (disclosure : HandDisclosure)
    : outcome AuditError RetrospectiveAudit :=
  if negb (is_valid_identifier (evidence_id disclosure)) || negb (is_valid_identifier (hd_player disclosure))
  then Err AuditInvalidIdentifier
  else
    _ ← validate_event self (evidence_id disclosure) (hd_sequence disclosure);
    _ ← validate_cards (complete_remaining_hand disclosure);
    Ok (with_disclosures self (disclosures self ++ [disclosure])).

(** ** Findings *)

(** The sequence, identifier and card of a piece of evidence *)
Notation Evidence := (Z * EventId * nat * FindingConfidence)%type (only parsing).

Definition evidence_sequence (e : Evidence) : Z := e.1.1.1.

Definition immediate_evidence (led_suit : nat) (action : AuditedGameAction) : option Evidence :=
  (λ revealed, (aa_sequence action, aa_event_id action, revealed, ImmediateHeldCard)) <$>
    List.find (λ known, card_suit known =? led_suit) (known_held_cards_before action).

Definition play_evidence (led_suit : nat) (action candidate : AuditedGameAction) : option Evidence :=
  if (aa_sequence candidate <=? aa_sequence action)%Z || negb (aa_round_id candidate =? aa_round_id action)%Z ||
     bool_decide (aa_actor candidate ≠ aa_actor action)
  then None
  else match aa_action candidate with
       | WireBid _ => None
       | WirePlay card =>
           if card_suit card =? led_suit
           then Some (aa_sequence candidate, aa_event_id candidate, card, DelayedPublicPlay) else None
       end.

Definition disclosure_evidence (led_suit : nat) (action : AuditedGameAction) (evidence : HandDisclosure) : option Evidence :=
  if (hd_sequence evidence <=? aa_sequence action)%Z || negb (hd_round_id evidence =? aa_round_id action)%Z ||
     bool_decide (hd_player evidence ≠ aa_actor action)
  then None
  else (λ revealed, (hd_sequence evidence, evidence_id evidence, revealed, RoundEndDisclosure)) <$>
         List.find (λ known, card_suit known =? led_suit) (complete_remaining_hand evidence).

(** The earlier of two pieces of evidence *)
Definition earlier (later_play disclosure : option Evidence) : option Evidence :=
  match later_play, disclosure with
  | Some l, Some r => Some (if (evidence_sequence l <=? evidence_sequence r)%Z then l else r)
  | Some value, None | None, Some value => Some value
  | None, None => None
  end.

Definition find_evidence (self : RetrospectiveAudit) (led_suit : nat) (action : AuditedGameAction) : option Evidence :=
  match immediate_evidence led_suit action with
  | Some evidence => Some evidence
  | None => earlier (find_map (play_evidence led_suit action) (actions self))
                    (find_map (disclosure_evidence led_suit action) (disclosures self))
  end.

Section Audit.
Context (blake3 : list Z → list Z).

Definition finding_id (offending : EventId) : outcome AuditError FindingId :=
  let digest := blake3 (text_bytes "poche-rule-finding-v1" ++ [0%Z] ++ text_bytes FOLLOW_SUIT_RULE_ID ++ [0%Z] ++
                        text_bytes offending) in
  map_err (λ _, InvalidFindingId) (identifier_new ("finding-" +:+ hex (take 12 digest))).

Definition follow_suit_finding (self : RetrospectiveAudit) (action : AuditedGameAction) (by_whom : PrincipalId)
    : outcome AuditError (option RuleFinding) :=
  match aa_action action, aa_led_suit action with
  | WirePlay card, Some led_suit =>
      if card_suit card =? led_suit then Ok None
      else match find_evidence self led_suit action with
           | None => Ok None
           | Some (_, revealing, revealed, confidence) =>
               id ← finding_id (aa_event_id action);
               Ok (Some {| rf_finding_id := id; rule_id := FOLLOW_SUIT_RULE_ID;
                           offending_action_id := aa_event_id action;
                           offending_disposition := aa_disposition action;
                           revealing_evidence_id := revealing; revealed_card := revealed;
                           detector := by_whom; confidence := confidence |})
           end
  | _, _ => Ok None
  end.

(** One candidate of the emission loop *)
Definition emit (acc : list RuleFinding * list RuleFinding) (finding : RuleFinding) : list RuleFinding * list RuleFinding :=
  let '(all, emitted) := acc in
  if existsb (λ existing, bool_decide (rf_finding_id existing = rf_finding_id finding)) all then (all, emitted)
  else (all ++ [finding], emitted ++ [finding]).

Definition audit (self : RetrospectiveAudit) (by_whom : PrincipalId)
    : outcome AuditError (RetrospectiveAudit * list RuleFinding) :=
  if negb (is_valid_identifier by_whom) then Err AuditInvalidIdentifier
  else
    candidates ← mapM (λ action, follow_suit_finding self action by_whom) (actions self);
    let '(all, emitted) := foldl emit (findings self, []) (omap id candidates) in
    Ok (with_findings self all, emitted).

Definition unfounded_reason (self : RetrospectiveAudit) (offending : EventId) : UnfoundedReason :=
  match List.find (λ action, bool_decide (aa_event_id action = offending)) (actions self) with
  | None => UnknownAction
  | Some action =>
      match aa_action action with
      | WirePlay card =>
          if is_some_and (aa_led_suit action) (λ led_suit, negb (card_suit card =? led_suit))
          then InsufficientEvidence else ActionNotViolation
      | WireBid _ => ActionNotViolation
      end
  end.

Definition accuse (self : RetrospectiveAudit) (a : ManualAccusation)
    : outcome AuditError (RetrospectiveAudit * AccusationRecord) :=
  if negb (is_valid_identifier (accusation_id a)) || negb (is_valid_identifier (ma_detector a)) ||
     negb (is_valid_identifier (ma_offending_action_id a))
  then Err AuditInvalidIdentifier
  else
    match List.find (λ record, bool_decide (accusation_id (accusation record) = accusation_id a)) (accusations self) with
    | Some existing =>
        if bool_decide (accusation existing = a) then Ok (self, existing) else Err ConflictingAccusationId
    | None =>
        '(self, _) ← audit self (ma_detector a);
        let result :=
          match List.find (λ finding, bool_decide (offending_action_id finding = ma_offending_action_id a)) (findings self) with
          | Some finding => Confirmed (rf_finding_id finding)
          | None => Unfounded (unfounded_reason self (ma_offending_action_id a))
          end in
        let record := {| accusation := a; accusation_outcome := result |} in
        Ok (with_accusations self (accusations self ++ [record]), record)
    end.
End Audit.
