(* ===== verification/RetrospectiveTheorems.v ===== *)
(** * Properties of the retrospective audit

    Over every history the audit can reach: findings are exactly the off-suit plays
    for which evidence exists, each names its earliest evidence whenever it was
    found, and truthful records of lawful play never lead to one. *)

From Stdlib Require Import Ascii Sorting.Sorted.
From stdpp Require Import base strings numbers option list sorting.
From S2P Require Import Prelude Methods Protocol Bytes ProtocolTheorems Retrospective.

#[local] Arguments card_suit : simpl never.

(** ** Lists *)

Lemma find_map_Some {A B} (f : A → option B) l y : find_map f l = Some y → ∃ x, x ∈ l ∧ f x = Some y.
Proof.
  induction l as [|x l IH]; cbn; [done|]. destruct (f x) as [z|] eqn:Hf.
  - intros [= ->]. exists x. split; [left|done].
  - intros (x' & Hin & Hx')%IH. exists x'. split; [by right|done].
Qed.

Lemma find_map_None {A B} (f : A → option B) l : find_map f l = None ↔ ∀ x, x ∈ l → f x = None.
Proof.
  induction l as [|x l IH]; cbn; [split; [by intros _ x ?%elem_of_nil|done]|]. destruct (f x) as [z|] eqn:Hf.
  - split; [done|]. intros Hall. by rewrite Hall in Hf by left.
  - rewrite IH. split; [intros Hall x' [->|Hin]%elem_of_cons; auto|intros Hall x' Hin; apply Hall; by right].
Qed.

Lemma find_map_app {A B} (f : A → option B) l1 l2 :
  find_map f (l1 ++ l2) = match find_map f l1 with Some y => Some y | None => find_map f l2 end.
Proof. induction l1 as [|x l1 IH]; cbn; [done|]. by destruct (f x). Qed.

Lemma max_of_spec l m : max_of l = Some m → Forall (λ x, x <= m)%Z l ∧ m ∈ l.
Proof.
  destruct l as [|x l]; [done|]. cbn. intros [= <-]. revert x. induction l as [|y l IH]; intros x; cbn.
  - split; [by repeat constructor|left].
  - destruct (IH (Z.max x y)) as [Hall Hin]. apply Forall_cons in Hall as [Hm Hall]. split.
    + repeat constructor; [lia..|done].
    + apply elem_of_cons in Hin as [Hin|Hin]; [|by do 2 right].
      destruct (Z.max_spec x y) as [[_ Hx]|[_ Hx]]; rewrite Hin, Hx; [by do 2 constructor|left].
Qed.

(** The guard on sequences: the new one is past all. *)
Lemma max_guard l s : is_some_and (max_of l) (λ last, s <=? last)%Z = false ↔ Forall (λ x, x < s)%Z l.
Proof.
  destruct (max_of l) as [m|] eqn:Hm; cbn.
  - apply max_of_spec in Hm as [Hall Hin]. rewrite Z.leb_gt, Forall_forall in *. split.
    + intros Hs x Hx. specialize (Hall x Hx). cbn in Hall. lia.
    + intros Hx. by apply Hx.
  - destruct l; [|done]. split; [by constructor|done].
Qed.

(** ** Identifiers *)

(** What BLAKE3 documents: thirty-two bytes. *)
Definition digest_laws (blake3 : list Z → list Z) : Prop :=
  ∀ input, length (blake3 input) = 32 ∧ Forall (in_width 8) (blake3 input).

Lemma hex_digit_byte n : (0 <= n < 16)%Z → identifier_byte (Z.of_N (N_of_ascii (hex_digit n))) = true.
Proof.
  intros Hn. assert (forallb (λ n, identifier_byte (Z.of_N (N_of_ascii (hex_digit n)))) (seqZ 0 16) = true) as Hall
    by (vm_compute; reflexivity).
  rewrite forallb_forall in Hall. apply Hall. apply list_elem_of_In, elem_of_seqZ. lia.
Qed.

Lemma hex_valid bytes : Forall (in_width 8) bytes →
  String.length (hex bytes) = 2 * length bytes ∧ forallb identifier_byte (text_bytes (hex bytes)) = true.
Proof.
  induction 1 as [|b bytes Hb Hall [IHl IHb]]; [done|]. unfold in_width in Hb.
  assert (0 <= b / 16 < 16)%Z by (split; [apply Z.div_pos; lia|apply Z.div_lt_upper_bound; lia]).
  pose proof (Z.mod_pos_bound b 16 ltac:(lia)). split; [cbn; lia|].
  change (text_bytes (hex (b :: bytes))) with
    (Z.of_N (N_of_ascii (hex_digit (b / 16))) :: Z.of_N (N_of_ascii (hex_digit (b mod 16))) :: text_bytes (hex bytes)).
  cbn [forallb]. by rewrite !hex_digit_byte, IHb by lia.
Qed.

(** An identifier derived from twelve bytes of a digest is well formed. *)
Lemma derived_identifier prefix bytes : is_valid_identifier prefix = true → String.length prefix <= 40 →
  Forall (in_width 8) bytes → length bytes = 12 → is_valid_identifier (prefix +:+ hex bytes) = true.
Proof.
  unfold is_valid_identifier. rewrite !andb_true_iff, !negb_true_iff, !Nat.eqb_neq, !Nat.leb_le.
  intros [[Hp0 Hp1] Hp2] Hp Hb Hl. destruct (hex_valid bytes Hb) as [Hlen Hhex].
  rewrite string_length_append, text_bytes_append, forallb_app, Hp2, Hhex. split_and!; [lia|lia|done].
Qed.

(** ** Evidence *)

Implicit Types (self : RetrospectiveAudit) (a : AuditedGameAction) (d : HandDisclosure) (f : RuleFinding).

Notation evidence_card e := (e.1.2).

(** What the history shows of the hand [a]'s actor held when acting. *)
Inductive shows self a : Evidence → Prop :=
  | shown_held c : c ∈ known_held_cards_before a → shows self a (aa_sequence a, aa_event_id a, c, ImmediateHeldCard)
  | shown_play b c : b ∈ actions self → (aa_sequence a < aa_sequence b)%Z → aa_round_id b = aa_round_id a →
      aa_actor b = aa_actor a → aa_action b = WirePlay c →
      shows self a (aa_sequence b, aa_event_id b, c, DelayedPublicPlay)
  | shown_hand d c : d ∈ disclosures self → (aa_sequence a < hd_sequence d)%Z → hd_round_id d = aa_round_id a →
      hd_player d = aa_actor a → c ∈ complete_remaining_hand d →
      shows self a (hd_sequence d, evidence_id d, c, RoundEndDisclosure).

(** A play that did not follow the led suit although the history shows it could. *)
Definition violation self a : Prop :=
  ∃ card suit e, aa_action a = WirePlay card ∧ aa_led_suit a = Some suit ∧ card_suit card ≠ suit ∧
    shows self a e ∧ card_suit (evidence_card e) = suit.

Lemma play_evidence_Some suit a b e : play_evidence suit a b = Some e ↔
  ∃ c, (aa_sequence a < aa_sequence b)%Z ∧ aa_round_id b = aa_round_id a ∧ aa_actor b = aa_actor a ∧
    aa_action b = WirePlay c ∧ card_suit c = suit ∧ e = (aa_sequence b, aa_event_id b, c, DelayedPublicPlay).
Proof.
  unfold play_evidence. split.
  - destruct (_ || _)%bool eqn:Hg; [done|]. rewrite !orb_false_iff, Z.leb_gt, negb_false_iff, Z.eqb_eq, bool_decide_eq_false in Hg.
    destruct Hg as [[H1 H2] H3%dec_stable]. destruct (aa_action b) as [|c]; [done|].
    destruct (card_suit c =? suit) eqn:Hc; [|done]. apply Nat.eqb_eq in Hc. intros [= <-]. by exists c.
  - intros (c & H1 & H2 & H3 & H4 & H5 & ->). rewrite H2, H3, H4, Z.eqb_refl, bool_decide_eq_false_2 by naive_solver.
    rewrite (proj2 (Z.leb_gt _ _) H1). cbn [negb orb]. by rewrite (proj2 (Nat.eqb_eq _ _) H5).
Qed.

Lemma disclosure_evidence_Some suit a d e : disclosure_evidence suit a d = Some e →
  ∃ c, (aa_sequence a < hd_sequence d)%Z ∧ hd_round_id d = aa_round_id a ∧ hd_player d = aa_actor a ∧
    c ∈ complete_remaining_hand d ∧ card_suit c = suit ∧ e = (hd_sequence d, evidence_id d, c, RoundEndDisclosure).
Proof.
  unfold disclosure_evidence. destruct (_ || _)%bool eqn:Hg; [done|].
  rewrite !orb_false_iff, Z.leb_gt, negb_false_iff, Z.eqb_eq, bool_decide_eq_false in Hg. destruct Hg as [[H1 H2] H3%dec_stable].
  destruct (List.find _ _) as [c|] eqn:Hf; [|done]. apply List_find_Some in Hf as [Hin Hc%Nat.eqb_eq]. intros [= <-]. by exists c.
Qed.

Lemma disclosure_evidence_None suit a d c : disclosure_evidence suit a d = None → (aa_sequence a < hd_sequence d)%Z →
  hd_round_id d = aa_round_id a → hd_player d = aa_actor a → c ∈ complete_remaining_hand d → card_suit c ≠ suit.
Proof.
  unfold disclosure_evidence. intros Hn H1 H2 H3 Hc Hs. rewrite H2, H3, Z.eqb_refl, bool_decide_eq_false_2 in Hn by naive_solver.
  rewrite (proj2 (Z.leb_gt _ _) H1) in Hn. cbn [negb orb] in Hn. destruct (List.find _ _) eqn:Hf; [done|].
  rewrite List_find_None in Hf. apply Hf in Hc. by apply Nat.eqb_neq in Hc.
Qed.

(** Elements of a list ordered by [key]. *)
Definition ordered {A} (key : A → Z) (l : list A) : Prop := StronglySorted (λ x y, key x < key y)%Z l.

Lemma ordered_snoc {A} (key : A → Z) l x : ordered key l → Forall (λ y, key y < key x)%Z l → ordered key (l ++ [x]).
Proof.
  unfold ordered. induction 1 as [|y l Hs IH Hy]; cbn; intros Hx; [by repeat constructor|].
  apply Forall_cons in Hx as [Hyx Hx]. constructor; [by apply IH|]. apply Forall_app. split; [done|]. by apply Forall_singleton.
Qed.

(** The first hit of an ordered list is the least. *)
Lemma find_map_first {A B} (f : A → option B) (key : A → Z) l y : ordered key l → find_map f l = Some y →
  ∃ x, x ∈ l ∧ f x = Some y ∧ ∀ x', x' ∈ l → is_Some (f x') → (key x <= key x')%Z.
Proof.
  induction 1 as [|x l Hs IH Hx]; cbn; [done|]. destruct (f x) as [z|] eqn:Hf.
  - intros [= ->]. exists x. split_and!; [left|done|]. intros x' [->|Hin]%elem_of_cons _; [lia|].
    rewrite Forall_forall in Hx. specialize (Hx x' Hin). cbn in Hx. lia.
  - intros (x' & Hin & Hx' & Hmin)%IH. exists x'. split_and!; [by right|done|].
    intros x'' [->|Hin']%elem_of_cons Hsome; [rewrite Hf in Hsome; by destruct Hsome|by apply Hmin].
Qed.

Lemma shows_after self a e : shows self a e → (aa_sequence a <= evidence_sequence e)%Z.
Proof. destruct 1; cbn; lia. Qed.

Lemma find_evidence_None self suit a : find_evidence self suit a = None ↔
  ∀ e, shows self a e → card_suit (evidence_card e) ≠ suit.
Proof.
  unfold find_evidence, immediate_evidence. split.
  - destruct (List.find _ _) eqn:Hi; [done|]. cbn. rewrite List_find_None in Hi.
    destruct (find_map (play_evidence suit a) _) eqn:Hp; [by destruct (find_map (disclosure_evidence suit a) _); intros Hx|].
    destruct (find_map (disclosure_evidence suit a) _) eqn:Hd; [done|]. intros _ e He Hs.
    rewrite find_map_None in Hp. rewrite find_map_None in Hd. destruct He as [c Hc|b c Hb H1 H2 H3 H4|d c Hin H1 H2 H3 Hc]; cbn in Hs.
    + apply Hi in Hc. by apply Nat.eqb_neq in Hc.
    + specialize (Hp b Hb). assert (play_evidence suit a b = Some (aa_sequence b, aa_event_id b, c, DelayedPublicPlay)) as Hx
        by (apply play_evidence_Some; by exists c). congruence.
    + by eapply disclosure_evidence_None; [apply Hd| | | | |].
  - intros Hall. destruct (List.find _ _) as [c|] eqn:Hi.
    { apply List_find_Some in Hi as [Hc Hs%Nat.eqb_eq]. by destruct (Hall _ (shown_held self a c Hc)). }
    cbn. destruct (find_map (play_evidence suit a) _) as [e|] eqn:Hp.
    { apply find_map_Some in Hp as (b & Hb & (c & H1 & H2 & H3 & H4 & H5 & ->)%play_evidence_Some).
      by destruct (Hall _ (shown_play self a b c Hb H1 H2 H3 H4)). }
    destruct (find_map (disclosure_evidence suit a) _) as [e|] eqn:Hd; [|done].
    apply find_map_Some in Hd as (d & Hd & (c & H1 & H2 & H3 & H4 & H5 & ->)%disclosure_evidence_Some).
    by destruct (Hall _ (shown_hand self a d c Hd H1 H2 H3 H4)).
Qed.

Lemma find_evidence_Some self suit a e : ordered aa_sequence (actions self) → ordered hd_sequence (disclosures self) →
  find_evidence self suit a = Some e →
  shows self a e ∧ card_suit (evidence_card e) = suit ∧
  ∀ e', shows self a e' → card_suit (evidence_card e') = suit → (evidence_sequence e <= evidence_sequence e')%Z.
Proof.
  intros Ha Hd. unfold find_evidence, immediate_evidence. destruct (List.find _ _) as [c|] eqn:Hi; cbn.
  { apply List_find_Some in Hi as [Hc Hs%Nat.eqb_eq]. intros [= <-]. split_and!; [by constructor|done|].
    intros e' He' _. by apply shows_after in He'. }
  rewrite List_find_None in Hi.
  assert (∀ e', shows self a e' → card_suit (evidence_card e') = suit →
    (∃ b, b ∈ actions self ∧ play_evidence suit a b = Some e') ∨
    (∃ d, d ∈ disclosures self ∧ is_Some (disclosure_evidence suit a d) ∧ evidence_sequence e' = hd_sequence d)) as Hall.
  { intros e' [c Hc|b c Hb H1 H2 H3 H4|d c Hin H1 H2 H3 Hc] Hs; cbn in Hs.
    - apply Hi in Hc. by apply Nat.eqb_neq in Hc.
    - left. exists b. split; [done|]. apply play_evidence_Some. by exists c.
    - right. exists d. split_and!; [done| |done]. destruct (disclosure_evidence suit a d) eqn:Hx; [by eexists|].
      by destruct (disclosure_evidence_None _ _ _ _ Hx H1 H2 H3 Hc). }
  assert (∀ e1, find_map (play_evidence suit a) (actions self) = Some e1 → shows self a e1 ∧ card_suit (evidence_card e1) = suit ∧
    ∀ b e', b ∈ actions self → play_evidence suit a b = Some e' → (evidence_sequence e1 <= evidence_sequence e')%Z) as Hp.
  { intros e1 (b & Hb & Hx & Hmin)%(find_map_first _ aa_sequence); [|done]. apply play_evidence_Some in Hx as (c & H1 & H2 & H3 & H4 & H5 & ->).
    split_and!; [by apply shown_play|done|]. intros b' e' Hb' Hx. specialize (Hmin b' Hb' ltac:(by eexists)).
    by apply play_evidence_Some in Hx as (c' & _ & _ & _ & _ & _ & ->). }
  assert (∀ e2, find_map (disclosure_evidence suit a) (disclosures self) = Some e2 → shows self a e2 ∧ card_suit (evidence_card e2) = suit ∧
    ∀ d, d ∈ disclosures self → is_Some (disclosure_evidence suit a d) → (evidence_sequence e2 <= hd_sequence d)%Z) as Hq.
  { intros e2 (d & Hin & Hx & Hmin)%(find_map_first _ hd_sequence); [|done].
    apply disclosure_evidence_Some in Hx as (c & H1 & H2 & H3 & H4 & H5 & ->). by split_and!; [apply shown_hand|..]. }
  destruct (find_map (play_evidence suit a) _) as [e1|] eqn:Hp1, (find_map (disclosure_evidence suit a) _) as [e2|] eqn:Hp2;
    cbn [earlier]; intros Hres; simplify_eq.
  - destruct (Hp e1 eq_refl) as (P1 & P2 & P3), (Hq e2 eq_refl) as (Q1 & Q2 & Q3).
    destruct (Z.leb_spec (evidence_sequence e1) (evidence_sequence e2)); simplify_eq; split_and!; try done;
      intros e' He' Hs; destruct (Hall e' He' Hs) as [(b & Hb & Hx)|(d & Hin & Hx & ->)];
      try (specialize (P3 _ _ Hb Hx)); try (specialize (Q3 _ Hin Hx)); lia.
  - destruct (Hp e eq_refl) as (P1 & P2 & P3). split_and!; try done. intros e' He' Hs.
    destruct (Hall e' He' Hs) as [(b & Hb & Hx)|(d & Hin & Hx & ->)]; [by eapply P3|].
    rewrite find_map_None in Hp2. rewrite Hp2 in Hx by done. by destruct Hx.
  - destruct (Hq e eq_refl) as (Q1 & Q2 & Q3). split_and!; try done. intros e' He' Hs.
    destruct (Hall e' He' Hs) as [(b & Hb & Hx)|(d & Hin & Hx & ->)]; [|by apply Q3].
    rewrite find_map_None in Hp1. rewrite Hp1 in Hx by done. done.
Qed.

(** ** Histories *)

Section Histories.
Context (blake3 : list Z → list Z).

(** What the audit can reach from an empty one. *)
Inductive history : RetrospectiveAudit → Prop :=
  | history_new : history audit_default
  | history_action self a self' : history self → append_action self a = Ok self' → history self'
  | history_disclosure self d self' : history self → append_disclosure self d = Ok self' → history self'
  | history_audit self by_whom self' emitted : history self → audit blake3 self by_whom = Ok (self', emitted) → history self'
  | history_accuse self accused self' record : history self → accuse blake3 self accused = Ok (self', record) → history self'.

Definition event_ids self : list EventId := (aa_event_id <$> actions self) ++ (evidence_id <$> disclosures self).

Record audit_inv self : Prop := {
  ai_actions : ordered aa_sequence (actions self);
  ai_disclosures : ordered hd_sequence (disclosures self);
  ai_ids : NoDup (event_ids self);
  ai_findings : ∀ f, f ∈ findings self →
    ∃ a, a ∈ actions self ∧ follow_suit_finding blake3 self a (detector f) = Ok (Some f);
  ai_once : NoDup (rf_finding_id <$> findings self);
  ai_accusations : NoDup (accusation_id ∘ accusation <$> accusations self);
  ai_confirmed : ∀ r id, r ∈ accusations self → accusation_outcome r = Confirmed id →
    ∃ f, f ∈ findings self ∧ rf_finding_id f = id ∧ offending_action_id f = ma_offending_action_id (accusation r);
}.

Lemma validate_event_Ok self id s : validate_event self id s = Ok tt ↔
  Forall (λ x, x < s)%Z (sequences self) ∧ id ∉ event_ids self.
Proof.
  unfold validate_event. cbv zeta. rewrite <-max_guard. destruct (is_some_and _ _); [naive_solver|].
  assert (∀ A (f : A → EventId) l, existsb (λ x, bool_decide (f x = id)) l = true ↔ id ∈ f <$> l) as Hex.
  { intros A f l. rewrite existsb_exists, list_elem_of_fmap. split.
    - intros (x & Hin%list_elem_of_In & Hx%bool_decide_eq_true). by exists x.
    - intros (x & Hx & Hin). exists x. split; [by apply list_elem_of_In|by apply bool_decide_eq_true]. }
  pose proof (Hex _ aa_event_id (actions self)) as H1. pose proof (Hex _ evidence_id (disclosures self)) as H2.
  unfold event_ids. rewrite elem_of_app. destruct (_ || _)%bool eqn:Hd.
  - apply orb_true_iff in Hd as [Hd|Hd]; [apply H1 in Hd|apply H2 in Hd]; naive_solver.
  - apply orb_false_iff in Hd as [Hx Hy]. rewrite Hx in H1. rewrite Hy in H2. naive_solver.
Qed.

(** What the history shows keeps its place when the history grows. *)
Lemma find_evidence_grows self self' suit a e s : ordered aa_sequence (actions self) → ordered hd_sequence (disclosures self) →
  Forall (λ x, x < s)%Z (sequences self) →
  ((∃ b, aa_sequence b = s ∧ self' = with_actions self (actions self ++ [b])) ∨
   (∃ d, hd_sequence d = s ∧ self' = with_disclosures self (disclosures self ++ [d]))) →
  find_evidence self suit a = Some e → find_evidence self' suit a = Some e.
Proof.
  intros Ha Hd Hs Hself'. unfold find_evidence. destruct (immediate_evidence suit a); [done|].
  unfold sequences in Hs. apply Forall_app in Hs as [Hsa Hsd]. rewrite Forall_fmap, Forall_forall in Hsa.
  rewrite Forall_fmap, Forall_forall in Hsd. destruct Hself' as [(b & Hb & ->)|(d & Hds & ->)]; cbn [actions disclosures with_actions with_disclosures];
    rewrite find_map_app; cbn [find_map].
  - destruct (find_map (play_evidence suit a) (actions self)) as [e1|]; [done|].
    destruct (play_evidence suit a b) as [e1|] eqn:Hx; [|done]. apply play_evidence_Some in Hx as (c & _ & _ & _ & _ & _ & ->).
    destruct (find_map (disclosure_evidence suit a) _) as [e2|] eqn:Hf; [|done]. cbn [earlier]. intros [= <-].
    apply find_map_Some in Hf as (d & Hin & (c' & _ & _ & _ & _ & _ & ->)%disclosure_evidence_Some).
    specialize (Hsd d Hin). cbn in Hsd |- *. destruct (Z.leb_spec (aa_sequence b) (hd_sequence d)); [lia|done].
  - destruct (find_map (disclosure_evidence suit a) (disclosures self)) as [e2|] eqn:Hf; [done|].
    destruct (disclosure_evidence suit a d) as [e2|] eqn:Hx; [|done].
    apply disclosure_evidence_Some in Hx as (c & _ & _ & _ & _ & _ & ->).
    destruct (find_map (play_evidence suit a) _) as [e1|] eqn:Hf1; [|done]. cbn [earlier]. intros [= <-].
    apply find_map_Some in Hf1 as (b & Hin & (c' & _ & _ & _ & _ & _ & ->)%play_evidence_Some).
    specialize (Hsa b Hin). cbn in Hsa |- *. destruct (Z.leb_spec (aa_sequence b) (hd_sequence d)); [done|lia].
Qed.

Lemma finding_inv self a by_whom f : follow_suit_finding blake3 self a by_whom = Ok (Some f) →
  ∃ card suit e, aa_action a = WirePlay card ∧ aa_led_suit a = Some suit ∧ card_suit card ≠ suit ∧
    find_evidence self suit a = Some e ∧ finding_id blake3 (aa_event_id a) = Ok (rf_finding_id f) ∧
    f = {| rf_finding_id := rf_finding_id f; rule_id := FOLLOW_SUIT_RULE_ID; offending_action_id := aa_event_id a;
           offending_disposition := aa_disposition a; revealing_evidence_id := e.1.1.2; revealed_card := evidence_card e;
           detector := by_whom; confidence := e.2 |}.
Proof.
  unfold follow_suit_finding. destruct (aa_action a) as [|card] eqn:Hc; [done|]. destruct (aa_led_suit a) as [suit|]; [|done].
  destruct (card_suit card =? suit) eqn:Hs; [done|]. apply Nat.eqb_neq in Hs.
  destruct (find_evidence self suit a) as [[[[s id] c] conf]|] eqn:Hf; [|done].
  intros (fid & Hid & [= <-])%bind_Ok. exists card, suit, (s, id, c, conf). by split_and!.
Qed.

Lemma finding_intro self a by_whom card suit e id : aa_action a = WirePlay card → aa_led_suit a = Some suit →
  card_suit card ≠ suit → find_evidence self suit a = Some e → finding_id blake3 (aa_event_id a) = Ok id →
  follow_suit_finding blake3 self a by_whom = Ok (Some
    {| rf_finding_id := id; rule_id := FOLLOW_SUIT_RULE_ID; offending_action_id := aa_event_id a;
       offending_disposition := aa_disposition a; revealing_evidence_id := e.1.1.2; revealed_card := evidence_card e;
       detector := by_whom; confidence := e.2 |}).
Proof.
  intros Hc Hl Hs He Hid. unfold follow_suit_finding. rewrite Hc, Hl, (proj2 (Nat.eqb_neq _ _) Hs), He.
  destruct e as [[[s i] c] conf]. by rewrite Hid.
Qed.

Lemma finding_grows self self' a by_whom f s : ordered aa_sequence (actions self) → ordered hd_sequence (disclosures self) →
  Forall (λ x, x < s)%Z (sequences self) →
  ((∃ b, aa_sequence b = s ∧ self' = with_actions self (actions self ++ [b])) ∨
   (∃ d, hd_sequence d = s ∧ self' = with_disclosures self (disclosures self ++ [d]))) →
  follow_suit_finding blake3 self a by_whom = Ok (Some f) → follow_suit_finding blake3 self' a by_whom = Ok (Some f).
Proof.
  intros Ha Hd Hs Hself' (card & suit & e & H1 & H2 & H3 & H4 & H5 & ->)%finding_inv.
  eapply find_evidence_grows in H4; [|done..]. by rewrite (finding_intro _ _ _ _ _ _ _ H1 H2 H3 H4 H5).
Qed.

(** ** Emission *)

Lemma emit_all fs em cands all emitted base : foldl emit (fs, em) cands = (all, emitted) → fs = base ++ em →
  all = base ++ emitted ∧ (∀ f, f ∈ emitted → f ∈ em ∨ f ∈ cands) ∧ (∀ f, f ∈ fs → f ∈ all) ∧
  (NoDup (rf_finding_id <$> fs) → NoDup (rf_finding_id <$> all)) ∧
  (∀ c, c ∈ cands → ∃ f, f ∈ all ∧ rf_finding_id f = rf_finding_id c).
Proof.
  revert fs em. induction cands as [|c cands IH]; intros fs em Hf ->.
  { injection Hf as <- <-. split_and!; try done; [by left|by intros c ?%elem_of_nil]. }
  cbn [foldl emit] in Hf. destruct (existsb _ _) eqn:Hex.
  - destruct (IH _ _ Hf eq_refl) as (H1 & H2 & H3 & H4 & H5). split_and!; try done.
    + intros f [Hin|Hin]%H2; [by left|right; by right].
    + apply existsb_exists in Hex as (g & Hg%list_elem_of_In & Heq%bool_decide_eq_true).
      intros c' [->|Hin]%elem_of_cons; [|by apply H5]. exists g. split; [by apply H3|done].
  - destruct (IH _ _ Hf (eq_sym (app_assoc base em [c]))) as (H1 & H2 & H3 & H4 & H5). split_and!; try done.
    + intros f [[Hin|Hin%list_elem_of_singleton]%elem_of_app|Hin]%H2; [by left|right; subst; left|right; by right].
    + intros f Hin. apply H3, elem_of_app. by left.
    + intros Hnd. apply H4. rewrite fmap_app. apply NoDup_app. split_and!; [done| |apply NoDup_singleton].
      intros x (g & -> & Hg)%list_elem_of_fmap Hx%list_elem_of_singleton.
      apply not_true_iff_false in Hex. apply Hex. apply existsb_exists. exists g.
      split; [by apply list_elem_of_In|by apply bool_decide_eq_true].
    + intros c' [->|Hin]%elem_of_cons; [|by apply H5]. exists c. split; [apply H3, elem_of_app; right; left|done].
Qed.

Lemma audit_Ok self by_whom self' emitted : audit blake3 self by_whom = Ok (self', emitted) →
  self' = with_findings self (findings self ++ emitted) ∧
  (∀ f, f ∈ emitted → ∃ a, a ∈ actions self ∧ follow_suit_finding blake3 self a by_whom = Ok (Some f)) ∧
  (NoDup (rf_finding_id <$> findings self) → NoDup (rf_finding_id <$> findings self')) ∧
  (∀ a c, a ∈ actions self → follow_suit_finding blake3 self a by_whom = Ok (Some c) →
     ∃ f, f ∈ findings self' ∧ rf_finding_id f = rf_finding_id c).
Proof.
  unfold audit. destruct (negb _); [done|]. intros (cands & Hm & Hf)%bind_Ok.
  destruct (foldl emit _ _) as [all em] eqn:He. injection Hf as <- <-.
  destruct (emit_all _ _ _ _ _ (findings self) He (eq_sym (app_nil_r _))) as (-> & H2 & H3 & H4 & H5).
  assert (∀ c, c ∈ omap id cands ↔ ∃ a, a ∈ actions self ∧ follow_suit_finding blake3 self a by_whom = Ok (Some c)) as Hc.
  { clear -Hm. revert cands Hm. induction (actions self) as [|a l IH]; intros cands Hm; cbn in Hm.
    - injection Hm as <-. cbn. intros c. split; [by intros ?%elem_of_nil|by intros (a & ?%elem_of_nil & _)].
    - apply bind_Ok in Hm as (o & Ho & Hm). apply bind_Ok in Hm as (rest & Hr & [= <-]). intros c.
      specialize (IH _ Hr c). destruct o as [o|]; cbn; rewrite ?elem_of_cons, IH.
      + split; [intros [->|(x & Hin & Hx)]; [exists a; split; [left|done]|exists x; split; [by right|done]]|].
        intros (x & [->|Hin]%elem_of_cons & Hx); [left; congruence|right; by exists x].
      + split; [intros (x & Hin & Hx); exists x; split; [by right|done]|].
        intros (x & [->|Hin]%elem_of_cons & Hx); [congruence|by exists x]. }
  split_and!; [done| |done|].
  - intros f [Hx|Hx]%H2; [by apply elem_of_nil in Hx|]. by apply Hc.
  - intros a c Hin Hx. apply H5, Hc. by exists a.
Qed.

(** ** The invariant *)

Lemma accuse_Ok self m self' record : accuse blake3 self m = Ok (self', record) →
  (self' = self ∧ record ∈ accusations self ∧ accusation record = m) ∨
  ∃ self1 emitted, audit blake3 self (ma_detector m) = Ok (self1, emitted) ∧
    accusation_id m ∉ (accusation_id ∘ accusation <$> accusations self) ∧
    self' = with_accusations self1 (accusations self1 ++ [record]) ∧
    record = {| accusation := m; accusation_outcome :=
      match List.find (λ f, bool_decide (offending_action_id f = ma_offending_action_id m)) (findings self1) with
      | Some f => Confirmed (rf_finding_id f)
      | None => Unfounded (unfounded_reason self1 (ma_offending_action_id m))
      end |}.
Proof.
  unfold accuse. destruct (_ || _)%bool; [done|]. destruct (List.find _ (accusations self)) as [existing|] eqn:Hf.
  - apply List_find_Some in Hf as [Hin _]. case_bool_decide as Hm; [|done]. intros [= <- <-]. by left.
  - intros ([self1 emitted] & Ha & [= <- <-])%bind_Ok. right. exists self1, emitted. split_and!; try done.
    intros (r & Hr & Hin)%list_elem_of_fmap. rewrite List_find_None in Hf. specialize (Hf r Hin).
    by apply bool_decide_eq_false in Hf.
Qed.

Lemma audit_inv_audit self by_whom self' emitted : audit_inv self → audit blake3 self by_whom = Ok (self', emitted) → audit_inv self'.
Proof.
  intros [H1 H2 H3 H4 H5 H6 H7] (-> & He & Hn & _)%audit_Ok. split; try done; cbn [findings with_findings accusations].
  - intros f [Hf|(a & Hin & Hx)%He]%elem_of_app; [by apply H4|].
    exists a. split; [done|]. assert (detector f = by_whom) as ->; [|exact Hx].
    apply finding_inv in Hx as (? & ? & ? & _ & _ & _ & _ & _ & Heq). rewrite Heq. reflexivity.
  - by apply Hn.
  - intros r id Hr Ho. destruct (H7 r id Hr Ho) as (f & Hf & Hx). exists f. split; [|done]. apply elem_of_app. by left.
Qed.

Lemma history_inv self : history self → audit_inv self.
Proof.
  induction 1 as [|self a self' _ IH Ha|self d self' _ IH Hd|self by_whom self' emitted _ IH Ha|self m self' record _ IH Ha].
  - split; [constructor..| |constructor|constructor|]; [intros f Hf|intros r id Hr _]; [by apply elem_of_nil in Hf|by apply elem_of_nil in Hr].
  - unfold append_action in Ha. destruct (_ || _)%bool; [done|].
    apply bind_Ok in Ha as ([] & [Hs Hid]%validate_event_Ok & Ha). apply bind_Ok in Ha as ([] & _ & Ha).
    destruct (action_malformed a); [done|]. injection Ha as <-. destruct IH as [H1 H2 H3 H4 H5 H6 H7].
    split; try done.
    + apply ordered_snoc; [done|]. unfold sequences in Hs. apply Forall_app in Hs as [Hs _]. by rewrite Forall_fmap in Hs.
    + unfold event_ids in *. cbn [actions disclosures with_actions]. rewrite fmap_app, <-app_assoc.
      cbn [fmap list_fmap app]. rewrite <-(Permutation_middle _ _ (aa_event_id a)). by constructor.
    + intros f Hf. destruct (H4 f Hf) as (b & Hb & Hx). exists b. split; [apply elem_of_app; by left|].
      eapply finding_grows; [done|done|exact Hs| |exact Hx]. left. by exists a.
  - unfold append_disclosure in Hd. destruct (_ || _)%bool; [done|].
    apply bind_Ok in Hd as ([] & [Hs Hid]%validate_event_Ok & Hd). apply bind_Ok in Hd as ([] & _ & [= <-]).
    destruct IH as [H1 H2 H3 H4 H5 H6 H7]. split; try done.
    + apply ordered_snoc; [done|]. unfold sequences in Hs. apply Forall_app in Hs as [_ Hs]. by rewrite Forall_fmap in Hs.
    + unfold event_ids in *. cbn [actions disclosures with_disclosures]. rewrite fmap_app, app_assoc.
      apply NoDup_app. split_and!; [done| |apply NoDup_singleton]. intros x Hx ->%list_elem_of_singleton. done.
    + intros f Hf. destruct (H4 f Hf) as (b & Hb & Hx). exists b. split; [done|].
      eapply finding_grows; [done|done|exact Hs| |exact Hx]. right. by exists d.
  - by eapply audit_inv_audit.
  - apply accuse_Ok in Ha as [(-> & _)|(self1 & emitted & Ha & Hnew & -> & ->)]; [done|].
    pose proof (audit_inv_audit _ _ _ _ IH Ha) as [H1 H2 H3 H4 H5 H6 H7]. apply audit_Ok in Ha as (Hself & _).
    split; try done; cbn [accusations with_accusations findings].
    + rewrite fmap_app. apply NoDup_app. split_and!; [done| |apply NoDup_singleton].
      intros x Hx ->%list_elem_of_singleton. apply Hnew. by rewrite Hself in Hx.
    + intros r id [Hr|Hr%list_elem_of_singleton]%elem_of_app; [by apply H7|]. subst r. cbn.
      destruct (List.find _ _) as [f|] eqn:Hf; [|done]. apply List_find_Some in Hf as [Hin Hx%bool_decide_eq_true].
      intros [= <-]. by exists f.
Qed.

(** ** Exactness *)

Lemma finding_id_Ok id : digest_laws blake3 → ∃ i, finding_id blake3 id = Ok i.
Proof.
  intros Hb. unfold finding_id. set (input := text_bytes _ ++ _). destruct (Hb input) as [Hl Hw].
  unfold identifier_new. rewrite derived_identifier; [by eexists|done|cbn; lia|by apply Forall_take|by rewrite length_take, Hl].
Qed.

Lemma follow_suit_total self a by_whom : digest_laws blake3 → audit_inv self →
  ∃ o, follow_suit_finding blake3 self a by_whom = Ok o ∧
    match o with Some f => violation self a ∧ offending_action_id f = aa_event_id a ∧ finding_id blake3 (aa_event_id a) = Ok (rf_finding_id f)
               | None => ¬ violation self a end.
Proof.
  intros Hb [H1 H2 _ _ _ _ _]. destruct (finding_id_Ok (aa_event_id a) Hb) as [i Hi]. unfold follow_suit_finding.
  destruct (aa_action a) as [t|card] eqn:Hc; [exists None; split; [done|]; intros (? & ? & ? & ? & _); congruence|].
  destruct (aa_led_suit a) as [suit|] eqn:Hl; [|exists None; split; [done|]; intros (? & ? & ? & _ & ? & _); congruence].
  destruct (card_suit card =? suit) eqn:Hs.
  { apply Nat.eqb_eq in Hs. exists None. split; [done|]. intros (? & ? & ? & ? & ? & ? & _). congruence. }
  apply Nat.eqb_neq in Hs. destruct (find_evidence self suit a) as [e|] eqn:He.
  - destruct (find_evidence_Some _ _ _ _ H1 H2 He) as (Hsh & Hcs & _). destruct e as [[[s id] c] conf]. rewrite Hi.
    eexists. split; [done|]. split_and!; [|done|done]. by exists card, suit, (s, id, c, conf).
  - rewrite find_evidence_None in He. exists None. split; [done|]. intros (? & suit' & e & ? & ? & ? & Hsh & Hx).
    assert (suit' = suit) as -> by congruence. by apply (He e Hsh).
Qed.

Lemma candidates_total self by_whom l : digest_laws blake3 → audit_inv self →
  ∃ cands, mapM (λ a, follow_suit_finding blake3 self a by_whom) l = Ok cands.
Proof.
  intros Hb Hinv. induction l as [|a l [cands IH]]; cbn; [by eexists|].
  destruct (follow_suit_total self a by_whom Hb Hinv) as (o & -> & _). cbn. rewrite IH. by eexists.
Qed.

(** Distinct actions of the history have distinct finding identifiers. *)
Definition no_collisions self : Prop :=
  ∀ a b, a ∈ actions self → b ∈ actions self →
    finding_id blake3 (aa_event_id a) = finding_id blake3 (aa_event_id b) → aa_event_id a = aa_event_id b.

Lemma same_event self a b : audit_inv self → a ∈ actions self → b ∈ actions self → aa_event_id a = aa_event_id b → a = b.
Proof.
  intros Hinv (i & Hi)%list_elem_of_lookup (j & Hj)%list_elem_of_lookup Hab. pose proof (ai_ids _ Hinv) as Hn.
  unfold event_ids in Hn. apply NoDup_app in Hn as (Hn & _). rewrite NoDup_alt in Hn.
  assert (i = j) as -> by (eapply Hn; rewrite list_lookup_fmap; [by rewrite Hi|by rewrite Hj, Hab]). congruence.
Qed.

Lemma audit_confirms self by_whom : digest_laws blake3 → audit_inv self → no_collisions self → is_valid_identifier by_whom = true →
  ∃ self' emitted, audit blake3 self by_whom = Ok (self', emitted) ∧
    self' = with_findings self (findings self ++ emitted) ∧ audit_inv self' ∧
    ∀ a, a ∈ actions self → (∃ f, f ∈ findings self' ∧ offending_action_id f = aa_event_id a) ↔ violation self a.
Proof.
  intros Hb Hinv Hnc Hd. destruct (audit blake3 self by_whom) as [[self' emitted]|e|] eqn:Ha.
  2-3: exfalso; destruct (candidates_total self by_whom (actions self) Hb Hinv) as [l Hm]; unfold audit in Ha;
    rewrite Hd, Hm in Ha; cbn in Ha; by destruct (foldl _ _ _).
  pose proof (audit_inv_audit _ _ _ _ Hinv Ha) as Hinv'. apply audit_Ok in Ha as (Hself & He & _ & Hc).
  exists self', emitted. split_and!; [done|done|done|]. intros a Hin. split.
  - intros (f & Hf & Hx). destruct (ai_findings _ Hinv' f Hf) as (b & Hbin & Hfs). rewrite Hself in Hbin, Hfs.
    destruct (follow_suit_total self b (detector f) Hb Hinv) as (o & Ho & Hspec).
    change (follow_suit_finding blake3 (with_findings self (findings self ++ emitted)) b (detector f))
      with (follow_suit_finding blake3 self b (detector f)) in Hfs.
    assert (o = Some f) as -> by congruence. destruct Hspec as (Hv & Hoff & _).
    by rewrite (same_event self a b Hinv Hin Hbin ltac:(congruence)).
  - intros Hv. destruct (follow_suit_total self a by_whom Hb Hinv) as ([c|] & Ho & Hspec); [|done].
    destruct Hspec as (_ & Hoff & Hid). destruct (Hc a c Hin Ho) as (f & Hf & Hfc). exists f. split; [done|].
    destruct (ai_findings _ Hinv' f Hf) as (b & Hbin & Hfs). rewrite Hself in Hbin, Hfs.
    apply finding_inv in Hfs as (? & ? & ? & _ & _ & _ & _ & Hfid & ->). cbn in Hfc |- *.
    symmetry. apply Hnc; [done|done|]. rewrite Hid, Hfid. by rewrite <-Hfc.
Qed.

Lemma audit_again self by_whom other self' emitted : digest_laws blake3 → audit_inv self → no_collisions self →
  is_valid_identifier other = true → audit blake3 self by_whom = Ok (self', emitted) → audit blake3 self' other = Ok (self', []).
Proof.
  intros Hb Hinv Hnc Ho Ha. pose proof (audit_inv_audit _ _ _ _ Hinv Ha) as Hinv'. apply audit_Ok in Ha as (Hself & _ & _ & Hc).
  assert (no_collisions self') as Hnc' by (intros a b Hia Hib; rewrite Hself in Hia, Hib; by apply Hnc).
  destruct (audit_confirms self' other Hb Hinv' Hnc' Ho) as (self2 & emitted2 & Ha2 & Hself2 & Hinv2 & _). pose proof (audit_Ok _ _ _ _ Ha2) as (_ & He & _ & _).
  assert (emitted2 = []) as ->.
  { destruct emitted2 as [|g emitted2]; [done|exfalso]. destruct (He g) as (a & Hin & Hfs); [left|].
    apply finding_inv in Hfs as (card & suit & e & H1 & H2 & H3 & H4 & H5 & Hg).
    rewrite Hself in Hin, H4. pose proof (finding_intro self a by_whom card suit e _ H1 H2 H3 H4 H5) as Hfs.
    destruct (Hc a _ Hin Hfs) as (f & Hf & Hid). cbn in Hid. pose proof (ai_once _ Hinv2) as Hn.
    rewrite Hself2 in Hn. cbn [findings with_findings] in Hn. rewrite fmap_app in Hn. apply NoDup_app in Hn as (_ & Hn & _).
    apply (Hn (rf_finding_id g)); [rewrite <-Hid; apply list_elem_of_fmap; by exists f|left]. }
  rewrite Ha2, Hself2, app_nil_r. by destruct self'.
Qed.
End Histories.

(** [C24] The audit finds exactly the violations the history proves.  Over any
    history it can reach, and unless two finding identifiers collide, the audit
    succeeds for any valid detector, keeps every earlier finding, and afterwards an
    action has a finding if and only if it is an off-suit play whose actor is shown
    to have held the led suit: by a card known at the time, by a later play of the
    same round, or by the hand disclosed after it.  Auditing again, by anyone, finds
    nothing new. *)
Theorem audit_exact blake3 self by_whom : digest_laws blake3 → history blake3 self → no_collisions blake3 self →
  is_valid_identifier by_whom = true →
  ∃ self' emitted, audit blake3 self by_whom = Ok (self', emitted) ∧
    self' = with_findings self (findings self ++ emitted) ∧
    (∀ a, a ∈ actions self → (∃ f, f ∈ findings self' ∧ offending_action_id f = aa_event_id a) ↔ violation self a) ∧
    (∀ other, is_valid_identifier other = true → audit blake3 self' other = Ok (self', [])).
Proof.
  intros Hb Hh%history_inv Hnc Hd. destruct (audit_confirms _ _ _ Hb Hh Hnc Hd) as (self' & emitted & Ha & Hself & _ & Hiff).
  exists self', emitted. split_and!; [done|done|done|]. intros other Ho. by eapply audit_again.
Qed.

(** Findings are canonical.  In any history the audit can reach, no finding is
    recorded twice, and each one, whenever and by whomever it was found, points to
    an off-suit play and to the earliest evidence the whole history holds against
    it. *)
Theorem findings_canonical blake3 self : history blake3 self →
  NoDup (rf_finding_id <$> findings self) ∧
  ∀ f, f ∈ findings self → ∃ a card suit seq, a ∈ actions self ∧ offending_action_id f = aa_event_id a ∧
    aa_action a = WirePlay card ∧ aa_led_suit a = Some suit ∧ card_suit card ≠ suit ∧ card_suit (revealed_card f) = suit ∧
    shows self a (seq, revealing_evidence_id f, revealed_card f, confidence f) ∧
    ∀ e, shows self a e → card_suit (evidence_card e) = suit → (seq <= evidence_sequence e)%Z.
Proof.
  intros Hh%history_inv. split; [apply Hh|]. intros f Hf. destruct (ai_findings _ _ Hh f Hf) as (a & Hin & Hfs).
  apply finding_inv in Hfs as (card & suit & e & H1 & H2 & H3 & H4 & H5 & Heq).
  destruct (find_evidence_Some _ _ _ _ (ai_actions _ _ Hh) (ai_disclosures _ _ Hh) H4) as (Hs & Hc & Hmin).
  rewrite Heq. exists a, card, suit, (evidence_sequence e). cbn. destruct e as [[[s id] c] conf]. by split_and!.
Qed.

(** What a table of honest players records: [hand p r s] is the hand of [p] in
    round [r] before sequence number [s], and everyone follows suit. *)
Record lawful (hand : PrincipalId → Z → Z → list nat) self : Prop := {
  hand_shrinks : ∀ p r s s', (s <= s')%Z → hand p r s' ⊆ hand p r s;
  knowledge_true : ∀ a, a ∈ actions self → known_held_cards_before a ⊆ hand (aa_actor a) (aa_round_id a) (aa_sequence a);
  plays_held : ∀ a card, a ∈ actions self → aa_action a = WirePlay card →
    card ∈ hand (aa_actor a) (aa_round_id a) (aa_sequence a);
  disclosures_true : ∀ d, d ∈ disclosures self → complete_remaining_hand d ⊆ hand (hd_player d) (hd_round_id d) (hd_sequence d);
  suit_followed : ∀ a card suit, a ∈ actions self → aa_action a = WirePlay card → aa_led_suit a = Some suit →
    card_suit card ≠ suit → ∀ c, c ∈ hand (aa_actor a) (aa_round_id a) (aa_sequence a) → card_suit c ≠ suit;
}.

(** Lawful players are never found out.  If the recorded knowledge, plays and
    disclosures are true of hands that only shrink, and every off-suit play was
    made from a hand without the led suit, then the history holds no finding,
    whatever audits and accusations it contains, and no accusation is confirmed. *)
Theorem lawful_never_found blake3 hand self : history blake3 self → lawful hand self →
  findings self = [] ∧ ∀ r id, r ∈ accusations self → accusation_outcome r ≠ Confirmed id.
Proof.
  intros Hh%history_inv Hl.
  assert (∀ f, f ∉ findings self) as Hno.
  { intros f Hf. destruct (ai_findings _ _ Hh f Hf) as (a & Hin & Hfs).
    apply finding_inv in Hfs as (card & suit & e & H1 & H2 & H3 & H4 & _).
    destruct (find_evidence_Some _ _ _ _ (ai_actions _ _ Hh) (ai_disclosures _ _ Hh) H4) as (Hs & Hc & _).
    refine (suit_followed _ _ Hl a card suit Hin H1 H2 H3 (evidence_card e) _ Hc).
    destruct Hs as [c Hk|b c Hb Hlt Hr Hac Hplay|d c Hd Hlt Hr Hpl Hk]; cbn.
    - by apply (knowledge_true _ _ Hl).
    - apply (hand_shrinks _ _ Hl _ _ _ (aa_sequence b)); [lia|]. rewrite <-Hr, <-Hac. by apply (plays_held _ _ Hl).
    - apply (hand_shrinks _ _ Hl _ _ _ (hd_sequence d)); [lia|]. rewrite <-Hr, <-Hpl. by apply (disclosures_true _ _ Hl). }
  split; [destruct (findings self) as [|f l]; [done|by destruct (Hno f); left]|].
  intros r id Hr Ho. destruct (ai_confirmed _ _ Hh r id Hr Ho) as (f & Hf & _). by destruct (Hno f).
Qed.

(** ** Accusations *)

(** What a history says of an accused action. *)
Definition unfounded_because self offending (reason : UnfoundedReason) : Prop :=
  match reason with
  | UnknownAction => ∀ a, a ∈ actions self → aa_event_id a ≠ offending
  | ActionNotViolation => ∃ a, a ∈ actions self ∧ aa_event_id a = offending ∧
      ∀ card suit, aa_action a = WirePlay card → aa_led_suit a = Some suit → card_suit card = suit
  | InsufficientEvidence => ∃ a card suit, a ∈ actions self ∧ aa_event_id a = offending ∧
      aa_action a = WirePlay card ∧ aa_led_suit a = Some suit ∧ card_suit card ≠ suit ∧ ¬ violation self a
  end.

(** Accusations are decided by the history alone.  Over any reachable history,
    and unless identifiers collide, a new accusation with valid identifiers is
    confirmed exactly when the accused action is a proven violation, and otherwise
    carries the true reason: no such action, an action that broke no rule, or too
    little evidence.  Repeating an accusation gives its recorded outcome and changes
    nothing; reusing its identifier for another is refused. *)
Theorem accusation_exact blake3 self m : digest_laws blake3 → history blake3 self → no_collisions blake3 self →
  is_valid_identifier (accusation_id m) = true → is_valid_identifier (ma_detector m) = true →
  is_valid_identifier (ma_offending_action_id m) = true →
  match List.find (λ r, bool_decide (accusation_id (accusation r) = accusation_id m)) (accusations self) with
  | Some r => accuse blake3 self m = if bool_decide (accusation r = m) then Ok (self, r) else Err ConflictingAccusationId
  | None => ∃ self' r, accuse blake3 self m = Ok (self', r) ∧ accusation r = m ∧
      accusations self' = accusations self ++ [r] ∧ actions self' = actions self ∧ disclosures self' = disclosures self ∧
      ((∃ id, accusation_outcome r = Confirmed id) ↔ ∃ a, a ∈ actions self ∧ aa_event_id a = ma_offending_action_id m ∧ violation self a) ∧
      (∀ reason, accusation_outcome r = Unfounded reason → unfounded_because self (ma_offending_action_id m) reason)
  end.
Proof.
  intros Hb Hh%history_inv Hnc Hv1 Hv2 Hv3. unfold accuse. rewrite Hv1, Hv2, Hv3. cbn [negb orb].
  destruct (List.find _ (accusations self)) as [r|] eqn:Hf; [done|].
  destruct (audit_confirms _ _ _ Hb Hh Hnc Hv2) as (self1 & emitted & -> & Hself1 & Hinv1 & Hiff). cbn [mbind outcome_bind].
  eexists _, _. split; [reflexivity|]. cbn [accusation accusation_outcome accusations actions disclosures with_accusations].
  split_and!; [done|by rewrite Hself1|by rewrite Hself1|by rewrite Hself1| |].
  - destruct (List.find _ (findings self1)) as [f|] eqn:Hff.
    + apply List_find_Some in Hff as [Hin Hx%bool_decide_eq_true]. split; [intros _|by eexists].
      destruct (ai_findings _ _ Hinv1 f Hin) as (a & Ha & Hfs). rewrite Hself1 in Ha.
      apply finding_inv in Hfs as (? & ? & ? & _ & _ & _ & _ & _ & Heq).
      assert (offending_action_id f = aa_event_id a) as Hoff by (by rewrite Heq).
      exists a. split_and!; [done|congruence|]. apply Hiff; [done|]. by exists f.
    + rewrite List_find_None in Hff. split; [by intros []|]. intros (a & Ha & Hid & Hv). exfalso.
      apply Hiff in Hv as (f & Hf' & Hoff); [|done]. specialize (Hff f Hf'). apply bool_decide_eq_false in Hff. congruence.
  - intros reason. destruct (List.find _ (findings self1)) as [f|] eqn:Hff; [done|]. intros [= <-].
    rewrite List_find_None in Hff. unfold unfounded_reason. rewrite Hself1. cbn [actions with_findings].
    destruct (List.find _ (actions self)) as [a|] eqn:Ha.
    + apply List_find_Some in Ha as [Ha Hid%bool_decide_eq_true]. destruct (aa_action a) as [t|card] eqn:Hc.
      { exists a. split_and!; [done|done|]. intros. congruence. }
      destruct (aa_led_suit a) as [suit|] eqn:Hl; cbn [is_some_and].
      2: { exists a. split_and!; [done|done|]. intros. congruence. }
      destruct (card_suit card =? suit) eqn:Hs; cbn [negb].
      * apply Nat.eqb_eq in Hs. exists a. split_and!; [done|done|]. intros. congruence.
      * apply Nat.eqb_neq in Hs. exists a, card, suit. split_and!; try done. intros Hv.
        apply Hiff in Hv as (f & Hf' & Hoff); [|done]. specialize (Hff f Hf'). apply bool_decide_eq_false in Hff. congruence.
    + rewrite List_find_None in Ha. intros a Hin Hid. specialize (Ha a Hin). by apply bool_decide_eq_false in Ha.
Qed.

(** ** A demonstration history *)

(** Thirty-two bytes that depend on every byte of the input, in place of BLAKE3. *)
Definition demo_digest (input : list Z) : list Z := reverse (be_bytes 32 (foldl (λ acc b, acc * 257 + b + 1) 7 input)%Z).

Lemma demo_digest_laws : digest_laws demo_digest.
Proof.
  intros input. unfold demo_digest. rewrite length_reverse, be_bytes_length. split; [done|]. apply Forall_reverse.
  generalize (foldl (λ acc b, acc * 257 + b + 1) 7 input)%Z. generalize 32. intros n. induction n as [|n IH]; intros x; cbn [be_bytes]; [constructor|].
  apply Forall_app. split; [apply IH|]. apply Forall_singleton. unfold in_width. apply Z.mod_pos_bound. lia.
Qed.

Definition demo_play (event : string) (sequence : Z) (who : string) (card : nat) (led : option nat) : AuditedGameAction :=
  {| aa_event_id := event; aa_sequence := sequence; aa_round_id := 7; aa_actor := who; aa_disposition := Accepted;
     aa_action := WirePlay card; aa_led_suit := led; known_held_cards_before := [] |}.

(** John leaves the led suit at 2 and plays it at 3; Alice follows suit. *)
Definition demo_actions : list AuditedGameAction :=
  [demo_play "lead" 1 "alice" 5 None; demo_play "off-suit" 2 "john" 26 (Some 0); demo_play "late" 3 "john" 4 (Some 0)].

Definition demo_history : RetrospectiveAudit := with_actions audit_default demo_actions.

Lemma demo_history_reached : history demo_digest demo_history.
Proof.
  eapply (history_action _ (with_actions audit_default (take 2 demo_actions)) (demo_play "late" 3 "john" 4 (Some 0)));
    [|vm_compute; reflexivity].
  eapply (history_action _ (with_actions audit_default (take 1 demo_actions)) (demo_play "off-suit" 2 "john" 26 (Some 0)));
    [|vm_compute; reflexivity].
  eapply (history_action _ audit_default (demo_play "lead" 1 "alice" 5 None)); [constructor|vm_compute; reflexivity].
Qed.

Lemma demo_no_collisions : no_collisions demo_digest demo_history.
Proof.
  intros a b Ha Hb. change (a ∈ demo_actions) in Ha. change (b ∈ demo_actions) in Hb. unfold demo_actions in Ha, Hb.
  rewrite !elem_of_cons in Ha. rewrite !elem_of_cons in Hb. destruct Ha as [->|[->|[->|Ha]]], Hb as [->|[->|[->|Hb]]];
    try (destruct (proj1 (elem_of_nil _) Ha)); try (destruct (proj1 (elem_of_nil _) Hb));
    (reflexivity || (vm_compute; discriminate)).
Qed.

Lemma audit_exact_witness :
  (digest_laws demo_digest ∧ history demo_digest demo_history ∧ no_collisions demo_digest demo_history ∧
   is_valid_identifier "alice" = true) ∧
  ∃ self' emitted, audit demo_digest demo_history "alice" = Ok (self', emitted) ∧
    (offending_action_id <$> emitted) = ["off-suit"] ∧ audit demo_digest self' "john" = Ok (self', []).
Proof.
  assert (is_valid_identifier "alice" = true) as Hv by (vm_compute; reflexivity).
  destruct (audit_exact demo_digest demo_history "alice" demo_digest_laws demo_history_reached demo_no_collisions Hv)
    as (self' & emitted & Ha & _ & _ & Hagain).
  split; [exact (conj demo_digest_laws (conj demo_history_reached (conj demo_no_collisions Hv)))|].
  exists self', emitted. split; [exact Ha|]. split; [|apply Hagain; vm_compute; reflexivity].
  assert (match audit demo_digest demo_history "alice" with Ok (_, em) => offending_action_id <$> em | _ => [] end = ["off-suit"]) as Hc
    by (vm_compute; reflexivity).
  rewrite Ha in Hc. exact Hc.
Defined.

Lemma findings_canonical_witness : ∃ self f a seq,
  (history demo_digest self ∧ f ∈ findings self) ∧ a ∈ actions self ∧ offending_action_id f = aa_event_id a ∧
  shows self a (seq, revealing_evidence_id f, revealed_card f, confidence f) ∧ revealing_evidence_id f = "late".
Proof.
  destruct (audit demo_digest demo_history "alice") as [[self' emitted]|e|] eqn:Ha; [|exfalso; revert Ha; vm_compute; discriminate..].
  assert (history demo_digest self') as Hh by (eapply history_audit; [exact demo_history_reached|exact Ha]).
  assert (match audit demo_digest demo_history "alice" with Ok (self, _) => revealing_evidence_id <$> findings self | _ => [] end = ["late"]) as Hc
    by (vm_compute; reflexivity).
  rewrite Ha in Hc.
  destruct (findings self') as [|f [|g l]] eqn:Hf; [discriminate Hc| |discriminate Hc]. injection Hc as Hrev.
  destruct (findings_canonical demo_digest self' Hh) as (_ & Hall).
  assert (f ∈ findings self') as Hin by (rewrite Hf; left).
  destruct (Hall f Hin) as (a & card & suit & seq & Hina & Hoff & _ & _ & _ & _ & Hs & _).
  exists self', f, a, seq. split; [exact (conj Hh Hin)|]. split; [exact Hina|]. split; [exact Hoff|]. split; [exact Hs|exact Hrev].
Defined.

Lemma accusation_exact_witness :
  let m := {| accusation_id := "claim"; ma_detector := "alice"; ma_offending_action_id := "lead" |} in
  (digest_laws demo_digest ∧ history demo_digest demo_history ∧ no_collisions demo_digest demo_history ∧
   is_valid_identifier (accusation_id m) = true ∧ is_valid_identifier (ma_detector m) = true ∧
   is_valid_identifier (ma_offending_action_id m) = true) ∧
  ∃ self' r, accuse demo_digest demo_history m = Ok (self', r) ∧ accusation_outcome r = Unfounded ActionNotViolation ∧
    unfounded_because demo_history "lead" ActionNotViolation.
Proof.
  intros m. assert (is_valid_identifier (accusation_id m) = true) as H1 by (vm_compute; reflexivity).
  assert (is_valid_identifier (ma_detector m) = true) as H2 by (vm_compute; reflexivity).
  assert (is_valid_identifier (ma_offending_action_id m) = true) as H3 by (vm_compute; reflexivity).
  split; [exact (conj demo_digest_laws (conj demo_history_reached (conj demo_no_collisions (conj H1 (conj H2 H3)))))|].
  pose proof (accusation_exact demo_digest demo_history m demo_digest_laws demo_history_reached demo_no_collisions H1 H2 H3) as Hx.
  destruct Hx as (self' & r & Ha & _ & _ & _ & _ & _ & Hreason). exists self', r. split; [exact Ha|].
  assert (match accuse demo_digest demo_history m with Ok (_, r) => Some (accusation_outcome r) | _ => None end
    = Some (Unfounded ActionNotViolation)) as Hc by (vm_compute; reflexivity).
  rewrite Ha in Hc. injection Hc as Hc. split; [exact Hc|]. exact (Hreason _ Hc).
Defined.

(** Alice's hand is her led card until she plays it. *)
Definition demo_hand (p : PrincipalId) (r s : Z) : list nat := if (s <=? 1)%Z then [5] else [].

Definition lawful_history : RetrospectiveAudit := with_actions audit_default (take 1 demo_actions).

Lemma lawful_never_found_witness :
  (history demo_digest lawful_history ∧ lawful demo_hand lawful_history) ∧ findings lawful_history = [].
Proof.
  assert (history demo_digest lawful_history) as Hh.
  { eapply (history_action _ audit_default (demo_play "lead" 1 "alice" 5 None)); [constructor|vm_compute; reflexivity]. }
  assert (lawful demo_hand lawful_history) as Hl.
  { split.
    - intros p r s s' Hs. unfold demo_hand. destruct (Z.leb_spec s 1), (Z.leb_spec s' 1); [done|apply list_subseteq_nil|lia|done].
    - intros a Ha. apply list_elem_of_singleton in Ha. subst a. apply list_subseteq_nil.
    - intros a card Ha Hc. apply list_elem_of_singleton in Ha. subst a. cbn in Hc. injection Hc as <-. left.
    - intros d Hd. by apply elem_of_nil in Hd.
    - intros a card suit Ha Hc Hs. apply list_elem_of_singleton in Ha. subst a. discriminate Hs. }
  split; [exact (conj Hh Hl)|]. exact (proj1 (lawful_never_found demo_digest demo_hand lawful_history Hh Hl)).
Defined.
