(* ===== verification/Governance.v ===== *)
(** * Governance (crates/poche-session, governance.rs)

    The deterministic overlay of proposals, votes, unilateral capabilities, score
    amendments and recovery.  Methods run in the monad of Methods.v; [submit] and
    [advance_to] restore the state they started from when they fail.  BLAKE3 and
    Serde's JSON text are parameters. *)

From stdpp Require Import base strings numbers option list.
From S2P Require Import Prelude Methods Protocol Bytes GovernanceWire Retrospective.

Definition DEFAULT_VOTE_DURATION_TICKS : Z := 10.

Record GovernanceMember : Type := { gm_principal_id : PrincipalId; gm_connected : bool; kicked : bool }.

Record GovernedScore : Type := { gs_principal_id : PrincipalId; points : Z }.

Record CapabilityGrant : Type := { cg_principal_id : PrincipalId; capability : GovernanceCapabilityWire }.

Record AccusedMember : Type := { am_principal_id : PrincipalId; am_finding_id : FindingId }.

Inductive EligibilityExclusion : Type :=
  | DisconnectedAtSnapshot | KickedAtSnapshot | TargetOfKick | ConfirmedAccusedSubject.

Record EligibilityRecord : Type := {
  er_voter : PrincipalId; eligible : bool; exclusion : option EligibilityExclusion;
}.

Record GovernanceVoteRecord : Type := {
  vr_command_id : CommandId; voter : PrincipalId; choice : VoteChoiceWire; counted : bool;
  vr_exclusion : option EligibilityExclusion;
}.

Record ProposalTally : Type := { t_eligible : Z; approvals : Z; rejections : Z; abstentions : Z }.

Definition has_approval_majority (self : ProposalTally) : bool := (t_eligible self / 2 <? approvals self)%Z.

Definition has_rejection_majority (self : ProposalTally) : bool := (t_eligible self / 2 <? rejections self)%Z.

Definition every_eligible_voted {E} (self : ProposalTally) : outcome E bool :=
  votes ← u_add 16 (approvals self) (rejections self);
  votes ← u_add 16 votes (abstentions self);
  Ok (votes =? t_eligible self)%Z.

Inductive ProposalRejection : Type := MajorityRejected | AllVotesNoMajority | DeadlineNoMajority.

Inductive ProposalStatus : Type :=
  | Pending
  | Approved (tally : ProposalTally) (effect_id : EventId)
  | Rejected (tally : ProposalTally) (reason : ProposalRejection).

Record GovernanceProposal : Type := {
  gp_proposal_id : ProposalId; gp_command_id : CommandId; proposer : PrincipalId; opened_tick : Z;
  deadline_tick : Z; gp_action : GovernedActionWire; eligibility : list EligibilityRecord;
  votes : list GovernanceVoteRecord; status : ProposalStatus;
}.

Inductive EffectAuthority : Type :=
  | ApprovedVote (proposal_id : ProposalId)
  | UnilateralCapability (principal : PrincipalId) (capability : GovernanceCapabilityWire).

Record GovernanceEffect : Type := {
  effect_id : EventId; ge_action : GovernedActionWire; effect_authority : EffectAuthority; ge_logical_tick : Z;
}.

Record GovernanceInvocation : Type := {
  gi_command_id : CommandId; issuer : PrincipalId; gi_logical_tick : Z; gi_command : GovernanceCommandV1;
}.

Record GovernanceReceipt : Type := {
  gr_command_id : CommandId; gr_proposal_id : option ProposalId; gr_effect_id : option EventId;
  vote_counted : option bool;
}.

Record ProcessedGovernanceCommand : Type := {
  pg_command_id : CommandId; pg_command_hash : SemanticHash; receipt : GovernanceReceipt;
}.

Record GovernanceState : Type := {
  logical_tick : Z; vote_duration_ticks : Z; gv_members : list GovernanceMember; gv_scores : list GovernedScore;
  capabilities : list CapabilityGrant; accused : list AccusedMember; proposals : list GovernanceProposal;
  effects : list GovernanceEffect; processed : list ProcessedGovernanceCommand; redeal_epoch : Z; game_ended : bool;
}.

Inductive GovernanceError : Type :=
  | InvalidRoster | GvInvalidCommand | GvInvalidIdentifier | UnknownPrincipal | GvNotConnected | GvMissingCapability
  | DelegatedAction | StructuralInvariant | UnknownProposal | ProposalClosed | AlreadyVoted | NoEligibleVoters
  | UnconfirmedFinding | StaleTick | GvConflictingCommandId | ArithmeticOverflow | GvInvariant.

#[export] Instance EligibilityExclusion_eq_dec : EqDecision EligibilityExclusion.
Proof. solve_decision. Defined.
#[export] Instance EligibilityRecord_eq_dec : EqDecision EligibilityRecord.
Proof. solve_decision. Defined.

(** ** Fields *)

Definition with_tick (self : GovernanceState) (t : Z) : GovernanceState :=
  {| logical_tick := t; vote_duration_ticks := vote_duration_ticks self; gv_members := gv_members self;
     gv_scores := gv_scores self; capabilities := capabilities self; accused := accused self; proposals := proposals self;
     effects := effects self; processed := processed self; redeal_epoch := redeal_epoch self; game_ended := game_ended self |}.

Definition with_members (self : GovernanceState) (l : list GovernanceMember) : GovernanceState :=
  {| logical_tick := logical_tick self; vote_duration_ticks := vote_duration_ticks self; gv_members := l;
     gv_scores := gv_scores self; capabilities := capabilities self; accused := accused self; proposals := proposals self;
     effects := effects self; processed := processed self; redeal_epoch := redeal_epoch self; game_ended := game_ended self |}.

Definition with_scores (self : GovernanceState) (l : list GovernedScore) : GovernanceState :=
  {| logical_tick := logical_tick self; vote_duration_ticks := vote_duration_ticks self; gv_members := gv_members self;
     gv_scores := l; capabilities := capabilities self; accused := accused self; proposals := proposals self;
     effects := effects self; processed := processed self; redeal_epoch := redeal_epoch self; game_ended := game_ended self |}.

Definition with_capabilities (self : GovernanceState) (l : list CapabilityGrant) : GovernanceState :=
  {| logical_tick := logical_tick self; vote_duration_ticks := vote_duration_ticks self; gv_members := gv_members self;
     gv_scores := gv_scores self; capabilities := l; accused := accused self; proposals := proposals self;
     effects := effects self; processed := processed self; redeal_epoch := redeal_epoch self; game_ended := game_ended self |}.

Definition with_accused (self : GovernanceState) (l : list AccusedMember) : GovernanceState :=
  {| logical_tick := logical_tick self; vote_duration_ticks := vote_duration_ticks self; gv_members := gv_members self;
     gv_scores := gv_scores self; capabilities := capabilities self; accused := l; proposals := proposals self;
     effects := effects self; processed := processed self; redeal_epoch := redeal_epoch self; game_ended := game_ended self |}.

Definition with_proposals (self : GovernanceState) (l : list GovernanceProposal) : GovernanceState :=
  {| logical_tick := logical_tick self; vote_duration_ticks := vote_duration_ticks self; gv_members := gv_members self;
     gv_scores := gv_scores self; capabilities := capabilities self; accused := accused self; proposals := l;
     effects := effects self; processed := processed self; redeal_epoch := redeal_epoch self; game_ended := game_ended self |}.

Definition with_effects (self : GovernanceState) (l : list GovernanceEffect) : GovernanceState :=
  {| logical_tick := logical_tick self; vote_duration_ticks := vote_duration_ticks self; gv_members := gv_members self;
     gv_scores := gv_scores self; capabilities := capabilities self; accused := accused self; proposals := proposals self;
     effects := l; processed := processed self; redeal_epoch := redeal_epoch self; game_ended := game_ended self |}.

Definition with_processed (self : GovernanceState) (l : list ProcessedGovernanceCommand) : GovernanceState :=
  {| logical_tick := logical_tick self; vote_duration_ticks := vote_duration_ticks self; gv_members := gv_members self;
     gv_scores := gv_scores self; capabilities := capabilities self; accused := accused self; proposals := proposals self;
     effects := effects self; processed := l; redeal_epoch := redeal_epoch self; game_ended := game_ended self |}.

Definition with_recovery (self : GovernanceState) (epoch : Z) (ended : bool) : GovernanceState :=
  {| logical_tick := logical_tick self; vote_duration_ticks := vote_duration_ticks self; gv_members := gv_members self;
     gv_scores := gv_scores self; capabilities := capabilities self; accused := accused self; proposals := proposals self;
     effects := effects self; processed := processed self; redeal_epoch := epoch; game_ended := ended |}.

Definition with_status (p : GovernanceProposal) (s : ProposalStatus) : GovernanceProposal :=
  {| gp_proposal_id := gp_proposal_id p; gp_command_id := gp_command_id p; proposer := proposer p;
     opened_tick := opened_tick p; deadline_tick := deadline_tick p; gp_action := gp_action p;
     eligibility := eligibility p; votes := votes p; status := s |}.

Definition with_votes (p : GovernanceProposal) (l : list GovernanceVoteRecord) : GovernanceProposal :=
  {| gp_proposal_id := gp_proposal_id p; gp_command_id := gp_command_id p; proposer := proposer p;
     opened_tick := opened_tick p; deadline_tick := deadline_tick p; gp_action := gp_action p;
     eligibility := eligibility p; votes := l; status := status p |}.

(** ** Pure helpers *)

Definition required_capability (action : GovernedActionWire) : outcome GovernanceError GovernanceCapabilityWire :=
  match rule_layer action with
  | Structural => Err StructuralInvariant
  | _ =>
      match action with
      | AdjustScore _ _ => Ok CapAdjustScore
      | ChangeRights _ _ _ => Ok CapChangeRights
      | Recover _ => Ok CapResolveRecovery
      | GovernedGame _ | Accuse _ => Err DelegatedAction
      end
  end.

Definition action_subject (action : GovernedActionWire) : option PrincipalId :=
  match action with
  | AdjustScore target _ | ChangeRights target _ _ | Recover (Kick target) => Some target
  | GovernedGame _ | Accuse _ | Recover Redeal | Recover EndGame => None
  end.

(** [u16::try_from(count).unwrap_or(u16::MAX)] *)
Definition u16_or_max (count : nat) : Z := match checked 16 (Z.of_nat count) with Some n => n | None => umax 16 end.

Definition tally_vote (tally : ProposalTally) (vote : GovernanceVoteRecord) : outcome GovernanceError ProposalTally :=
  match choice vote with
  | Approve =>
      n ← u_add 16 (approvals tally) 1;
      Ok {| t_eligible := t_eligible tally; approvals := n; rejections := rejections tally; abstentions := abstentions tally |}
  | Reject =>
      n ← u_add 16 (rejections tally) 1;
      Ok {| t_eligible := t_eligible tally; approvals := approvals tally; rejections := n; abstentions := abstentions tally |}
  | Abstain =>
      n ← u_add 16 (abstentions tally) 1;
      Ok {| t_eligible := t_eligible tally; approvals := approvals tally; rejections := rejections tally; abstentions := n |}
  end.

Definition proposal_tally (proposal : GovernanceProposal) : outcome GovernanceError ProposalTally :=
  foldM tally_vote (List.filter counted (votes proposal))
    {| t_eligible := u16_or_max (length (List.filter eligible (eligibility proposal)));
       approvals := 0; rejections := 0; abstentions := 0 |}.

Definition is_pending (p : GovernanceProposal) : bool := match status p with Pending => true | _ => false end.

Definition active_as (principal : PrincipalId) (member : GovernanceMember) : bool :=
  bool_decide (gm_principal_id member = principal) && negb (kicked member).

Definition is_active_member (self : GovernanceState) (principal : PrincipalId) : bool :=
  existsb (active_as principal) (gv_members self).

Definition has_capability (self : GovernanceState) (principal : PrincipalId) (c : GovernanceCapabilityWire) : bool :=
  existsb (λ grant, bool_decide (cg_principal_id grant = principal) && bool_decide (capability grant = c)) (capabilities self).

Definition governed_score (self : GovernanceState) (principal : PrincipalId) : option Z :=
  points <$> List.find (λ score, bool_decide (gs_principal_id score = principal)) (gv_scores self).

Definition is_kicked (self : GovernanceState) (principal : PrincipalId) : bool :=
  existsb (λ member, bool_decide (gm_principal_id member = principal) && kicked member) (gv_members self).

Definition require_connected_member (self : GovernanceState) (principal : PrincipalId) : outcome GovernanceError unit :=
  match List.find (λ member, bool_decide (gm_principal_id member = principal)) (gv_members self) with
  | Some member => if gm_connected member && negb (kicked member) then Ok tt else Err GvNotConnected
  | None => Err UnknownPrincipal
  end.

Definition grant_capability (self : GovernanceState) (principal : PrincipalId) (c : GovernanceCapabilityWire) : GovernanceState :=
  if has_capability self principal c then self
  else with_capabilities self (capabilities self ++ [{| cg_principal_id := principal; capability := c |}]).

Definition validate (self : GovernanceState) : outcome GovernanceError unit :=
  if later_pair (λ p other, bool_decide (gp_proposal_id other = gp_proposal_id p)) (proposals self) ||
     later_pair (λ e other, bool_decide (effect_id other = effect_id e)) (effects self)
  then Err GvInvariant else Ok tt.

Definition member_exclusion (self : GovernanceState) (action : GovernedActionWire) (member : GovernanceMember)
    : option EligibilityExclusion :=
  let kick_target := match action with Recover (Kick _) => true | _ => false end in
  let is_subject := bool_decide (action_subject action = Some (gm_principal_id member)) in
  if kicked member then Some KickedAtSnapshot
  else if negb (gm_connected member) then Some DisconnectedAtSnapshot
  else if is_subject && kick_target then Some TargetOfKick
  else if is_subject && existsb (λ a, bool_decide (am_principal_id a = gm_principal_id member)) (accused self)
  then Some ConfirmedAccusedSubject
  else None.

Definition eligibility_for (self : GovernanceState) (action : GovernedActionWire) : list EligibilityRecord :=
  (λ member,
     let exclusion := member_exclusion self action member in
     {| er_voter := gm_principal_id member; eligible := match exclusion with None => true | Some _ => false end;
        exclusion := exclusion |}) <$> gv_members self.

Definition governance_new (principals : list PrincipalId) (vote_duration_ticks : Z) : outcome GovernanceError GovernanceState :=
  let members := (λ p, {| gm_principal_id := p; gm_connected := true; kicked := false |}) <$> principals in
  if (vote_duration_ticks =? 0)%Z || (length members <? 2) ||
     existsb (λ member, negb (is_valid_identifier (gm_principal_id member))) members ||
     later_pair (λ member other, bool_decide (gm_principal_id other = gm_principal_id member)) members
  then Err InvalidRoster
  else Ok {| logical_tick := 0; vote_duration_ticks := vote_duration_ticks; gv_members := members;
             gv_scores := (λ member, {| gs_principal_id := gm_principal_id member; points := 0 |}) <$> members;
             capabilities := []; accused := []; proposals := []; effects := []; processed := [];
             redeal_epoch := 0; game_ended := false |}.

(** One proposal under [advance_to], with the identifiers it finalizes *)
Definition expire_proposal (tick : Z) (p : GovernanceProposal) : outcome GovernanceError (GovernanceProposal * list ProposalId) :=
  if is_pending p && (deadline_tick p <=? tick)%Z then
    tally ← proposal_tally p;
    Ok (with_status p (Rejected tally DeadlineNoMajority), [gp_proposal_id p])
  else Ok (p, []).

(** ** Methods *)

Section Governance.
Context `{GovernanceSerde} (blake3 : list Z → list Z).

Local Notation A T := (M GovernanceState GovernanceError T).

(** [hash_field]: the length and the bytes *)
Definition hash_field (bytes : list Z) : list Z :=
  be_bytes 8 (match checked 64 (Z.of_nat (length bytes)) with Some n => n | None => umax 64 end) ++ bytes.

Definition invocation_hash (invocation : GovernanceInvocation) : outcome GovernanceError SemanticHash :=
  encoded ← map_err (λ _, GvInvalidCommand) (encode_governance_command (gi_command invocation));
  Ok (SemanticHashOf (blake3 (text_bytes "poche-governance-invocation-v1" ++ [0%Z] ++
        hash_field (text_bytes (gi_command_id invocation)) ++ hash_field (text_bytes (issuer invocation)) ++
        hash_field (be_bytes 8 (gi_logical_tick invocation)) ++ hash_field encoded))).

Definition derived_id (kind basis : string) : outcome GovernanceError string :=
  let digest := blake3 (text_bytes "poche-governance-id-v1" ++ [0%Z] ++
                        hash_field (text_bytes kind) ++ hash_field (text_bytes basis)) in
  map_err (λ _, GvInvalidIdentifier) (identifier_new (kind +:+ "-" +:+ hex (take 12 digest))).

Definition proposal_id (command_id : CommandId) : outcome GovernanceError ProposalId := derived_id "proposal" command_id.

Definition event_id (kind basis : string) : outcome GovernanceError EventId := derived_id kind basis.

Definition add_bootstrap_capability (principal : PrincipalId) (c : GovernanceCapabilityWire) : A unit :=
  refused ← read (λ self, negb (length (processed self) =? 0) || negb (is_active_member self principal));
  if (refused : bool) then throw GvMissingCapability else update (λ self, grant_capability self principal c).

Definition set_connected (principal : PrincipalId) (connected : bool) : A unit :=
  found ← read (λ self, update_first (active_as principal)
    (λ member, {| gm_principal_id := gm_principal_id member; gm_connected := connected; kicked := kicked member |})
    (gv_members self));
  members ← lift (ok_or found UnknownPrincipal);
  update (λ self, with_members self members).

Definition register_confirmed_finding (audit : RetrospectiveAudit) (finding : FindingId) : A PrincipalId :=
  found ← lift (ok_or (List.find (λ f, bool_decide (rf_finding_id f = finding)) (findings audit)) UnconfirmedFinding);
  action ← lift (ok_or (List.find (λ a, bool_decide (aa_event_id a = offending_action_id found)) (actions audit))
                       UnconfirmedFinding);
  let actor := aa_actor action in
  active ← read (λ self, is_active_member self actor);
  if negb active then throw UnknownPrincipal
  else
    _ ← update (λ self,
          if existsb (λ a, bool_decide (am_finding_id a = finding)) (accused self) then self
          else with_accused self (accused self ++ [{| am_principal_id := actor; am_finding_id := finding |}]));
    mret actor.

(** [let before = self.clone(); .. *self = before] around a fallible body *)
Definition or_restore {T} (body : A T) : A T := λ before,
  match body before with
  | (self, Err error) => (before, Err error)
  | result => result
  end.

Definition advance_to (tick : Z) : A (list ProposalId) :=
  now ← read logical_tick;
  if (tick <? now)%Z then throw StaleTick
  else or_restore (
    _ ← update (λ self, with_tick self tick);
    open ← read proposals;
    results ← lift (mapM (expire_proposal tick) open);
    _ ← update (λ self, with_proposals self (fst <$> results));
    self ← read (λ self, self);
    _ ← lift (validate self);
    mret (concat (snd <$> results))).

Definition recover (recovery : RecoveryActionWire) : A unit :=
  match recovery with
  | Redeal =>
      epoch ← read redeal_epoch;
      epoch ← lift (ok_or (checked 64 (epoch + 1)) ArithmeticOverflow);
      update (λ self, with_recovery self epoch (game_ended self))
  | Kick target =>
      found ← read (λ self, update_first (active_as target)
        (λ member, {| gm_principal_id := gm_principal_id member; gm_connected := false; kicked := true |}) (gv_members self));
      members ← lift (ok_or found UnknownPrincipal);
      _ ← update (λ self, with_members self members);
      update (λ self, with_capabilities self
        (List.filter (λ grant, negb (bool_decide (cg_principal_id grant = target))) (capabilities self)))
  | EndGame => update (λ self, with_recovery self (redeal_epoch self) true)
  end.

(** [i64::checked_add] *)
Definition checked_i64 (x : Z) : option Z := if ((- 2 ^ 63 <=? x) && (x <? 2 ^ 63))%Z then Some x else None.

Definition adjust_score (target : PrincipalId) (delta : Z) : A unit :=
  found ← read (λ self, List.find (λ score, bool_decide (gs_principal_id score = target)) (gv_scores self));
  score ← lift (ok_or found UnknownPrincipal);
  total ← lift (ok_or (checked_i64 (points score + delta)) ArithmeticOverflow);
  scores ← read (λ self, update_first (λ score, bool_decide (gs_principal_id score = target))
    (λ score, {| gs_principal_id := gs_principal_id score; points := total |}) (gv_scores self));
  scores ← lift (expect scores);
  update (λ self, with_scores self scores).

Definition change_rights (target : PrincipalId) (c : GovernanceCapabilityWire) (change : RightsChangeWire) : A unit :=
  active ← read (λ self, is_active_member self target);
  if negb active then throw UnknownPrincipal
  else match change with
       | RightsGrant => update (λ self, grant_capability self target c)
       | RightsRevoke => update (λ self, with_capabilities self
           (List.filter (λ grant, negb (bool_decide (cg_principal_id grant = target)) || negb (bool_decide (capability grant = c)))
              (capabilities self)))
       end.

Definition apply_effect (id : EventId) (action : GovernedActionWire) (authority : EffectAuthority) : A unit :=
  _ ← match action with
      | AdjustScore target delta => adjust_score target delta
      | ChangeRights target c change => change_rights target c change
      | Recover recovery => recover recovery
      | GovernedGame _ | Accuse _ => throw DelegatedAction
      end;
  update (λ self, with_effects self (effects self ++
    [{| effect_id := id; ge_action := action; effect_authority := authority; ge_logical_tick := logical_tick self |}])).

Definition set_proposal (index : nat) (p : GovernanceProposal) : A unit :=
  update (λ self, with_proposals self (<[index := p]> (proposals self))).

Definition maybe_finalize_from_votes (index : nat) : A (option EventId) :=
  open ← read proposals;
  p ← lift (expect (open !! index));
  tally ← lift (proposal_tally p);
  if has_approval_majority tally then
    id ← lift (event_id "proposal" (gp_proposal_id p));
    _ ← apply_effect id (gp_action p) (ApprovedVote (gp_proposal_id p));
    _ ← set_proposal index (with_status p (Approved tally id));
    mret (Some id)
  else
    all ← lift (if has_rejection_majority tally then Ok true else every_eligible_voted tally);
    if (all : bool) then
      _ ← set_proposal index (with_status p
            (Rejected tally (if has_rejection_majority tally then MajorityRejected else AllVotesNoMajority)));
      mret None
    else mret None.

Definition cast_vote (invocation : GovernanceInvocation) (id : ProposalId) (c : VoteChoiceWire) : A GovernanceReceipt :=
  open ← read proposals;
  index ← lift (ok_or (position (λ p, bool_decide (gp_proposal_id p = id)) open) UnknownProposal);
  p ← lift (expect (open !! index));
  if negb (is_pending p) then throw ProposalClosed
  else if existsb (λ v, bool_decide (voter v = issuer invocation)) (votes p) then throw AlreadyVoted
  else
    record ← lift (ok_or (List.find (λ r, bool_decide (er_voter r = issuer invocation)) (eligibility p)) UnknownPrincipal);
    let counted := eligible record in
    _ ← set_proposal index (with_votes p (votes p ++
          [{| vr_command_id := gi_command_id invocation; voter := issuer invocation; choice := c; counted := counted;
              vr_exclusion := exclusion record |}]));
    effect ← maybe_finalize_from_votes index;
    mret {| gr_command_id := gi_command_id invocation; gr_proposal_id := Some id; gr_effect_id := effect;
            vote_counted := Some counted |}.

Definition execute (invocation : GovernanceInvocation) (action : GovernedActionWire) : A GovernanceReceipt :=
  c ← lift (required_capability action);
  held ← read (λ self, has_capability self (issuer invocation) c);
  if negb held then throw GvMissingCapability
  else
    id ← lift (event_id "direct" (gi_command_id invocation));
    _ ← apply_effect id action (UnilateralCapability (issuer invocation) c);
    mret {| gr_command_id := gi_command_id invocation; gr_proposal_id := None; gr_effect_id := Some id; vote_counted := None |}.

Definition start_vote (invocation : GovernanceInvocation) (action : GovernedActionWire) : A GovernanceReceipt :=
  _ ← lift (required_capability action);
  id ← lift (proposal_id (gi_command_id invocation));
  records ← read (λ self, eligibility_for self action);
  if negb (existsb eligible records) then throw NoEligibleVoters
  else
    duration ← read vote_duration_ticks;
    deadline ← lift (ok_or (checked 64 (gi_logical_tick invocation + duration)) ArithmeticOverflow);
    _ ← update (λ self, with_proposals self (proposals self ++
          [{| gp_proposal_id := id; gp_command_id := gi_command_id invocation; proposer := issuer invocation;
              opened_tick := gi_logical_tick invocation; deadline_tick := deadline; gp_action := action;
              eligibility := records; votes := []; status := Pending |}]));
    mret {| gr_command_id := gi_command_id invocation; gr_proposal_id := Some id; gr_effect_id := None; vote_counted := None |}.

Definition submit_unchecked (invocation : GovernanceInvocation) : A GovernanceReceipt :=
  _ ← advance_to (gi_logical_tick invocation);
  self ← read (λ self, self);
  _ ← lift (require_connected_member self (issuer invocation));
  match gc_command (gi_command invocation) with
  | Execute action => execute invocation action
  | StartVote action => start_vote invocation action
  | Vote id choice => cast_vote invocation id choice
  end.

Definition submit (invocation : GovernanceInvocation) : A GovernanceReceipt :=
  _ ← lift (map_err (λ _, GvInvalidCommand) (governance_command_validate (gi_command invocation)));
  hash ← lift (invocation_hash invocation);
  known ← read (λ self, List.find (λ p, bool_decide (pg_command_id p = gi_command_id invocation)) (processed self));
  match known with
  | Some p => if bool_decide (pg_command_hash p = hash) then mret (receipt p) else throw GvConflictingCommandId
  | None =>
      now ← read logical_tick;
      if (gi_logical_tick invocation <? now)%Z then throw StaleTick
      else
        result ← or_restore (submit_unchecked invocation);
        _ ← update (λ self, with_processed self (processed self ++
              [{| pg_command_id := gi_command_id invocation; pg_command_hash := hash; receipt := result |}]));
        mret result
  end.
End Governance.
