(* ===== verification/GovernanceInvariant.v ===== *)
(** * What governance methods do

    The effect of an enacted action on the overlay, the tally of a proposal, and the
    single proposal a vote changes; then the invariant of every reachable overlay. *)

From Stdlib Require Import ZifyBool.
From stdpp Require Import base strings numbers option list.
From S2P Require Import Prelude Methods Protocol Bytes GovernanceWire Retrospective RetrospectiveTheorems Governance.

Implicit Types (self : GovernanceState) (p : GovernanceProposal) (e : GovernanceEffect) (action : GovernedActionWire).

(** ** Enacting an action *)

(** What an action adds to a player's score. *)
Definition delta_for (who : PrincipalId) action : Z :=
  match action with AdjustScore target delta => if bool_decide (target = who) then delta else 0 | _ => 0 end%Z.

(** The unilateral rights after an action. *)
Definition rights (grants : list CapabilityGrant) action : list CapabilityGrant :=
  match action with
  | ChangeRights target c RightsGrant =>
      if existsb (λ g, bool_decide (cg_principal_id g = target) && bool_decide (capability g = c)) grants then grants
      else grants ++ [{| cg_principal_id := target; capability := c |}]
  | ChangeRights target c RightsRevoke =>
      List.filter (λ g, negb (bool_decide (cg_principal_id g = target)) || negb (bool_decide (capability g = c))) grants
  | Recover (Kick target) => List.filter (λ g, negb (bool_decide (cg_principal_id g = target))) grants
  | _ => grants
  end.

Definition kicks action (who : PrincipalId) : bool :=
  match action with Recover (Kick target) => bool_decide (target = who) | _ => false end.

Definition redeals action : bool := match action with Recover Redeal => true | _ => false end.

Definition ends_game action : bool := match action with Recover EndGame => true | _ => false end.

Definition fields self := (logical_tick self, vote_duration_ticks self, accused self, proposals self, processed self).

(** The overlay before and after an action. *)
Record enacted action self self' : Prop := {
  en_members : (gm_principal_id <$> gv_members self') = (gm_principal_id <$> gv_members self);
  en_kicked : ∀ who, is_kicked self' who = is_kicked self who || kicks action who && bool_decide (who ∈ gm_principal_id <$> gv_members self);
  en_scores : gv_scores self' = (λ s, {| gs_principal_id := gs_principal_id s;
                                         points := points s + delta_for (gs_principal_id s) action |}%Z) <$> gv_scores self;
  en_range : Forall (λ s, (- 2 ^ 63 <= points s < 2 ^ 63)%Z) (gv_scores self) → Forall (λ s, (- 2 ^ 63 <= points s < 2 ^ 63)%Z) (gv_scores self');
  en_rights : capabilities self' = rights (capabilities self) action;
  en_epoch : redeal_epoch self' = (redeal_epoch self + Z.b2z (redeals action))%Z;
  en_ended : game_ended self' = game_ended self || ends_game action;
  en_governed : rule_layer action = Governable ∧ ∀ id, action ≠ Accuse id;
}.

Lemma scores_same (l : list GovernedScore) action : (∀ s, s ∈ l → delta_for (gs_principal_id s) action = 0%Z) →
  l = (λ s, {| gs_principal_id := gs_principal_id s; points := points s + delta_for (gs_principal_id s) action |}%Z) <$> l.
Proof.
  induction l as [|s l IH]; intros Hz; [done|]. cbn. rewrite (Hz s) by left. rewrite <-IH by (intros; apply Hz; by right).
  rewrite Z.add_0_r. by destruct s.
Qed.

Lemma checked_i64_Some x y : checked_i64 x = Some y ↔ y = x ∧ (- 2 ^ 63 <= x < 2 ^ 63)%Z.
Proof. unfold checked_i64. destruct (_ && _)%bool eqn:Hx; [|split; [done|]]; [split; [intros [= <-]|intros [-> _]; done]|]; lia. Qed.

Lemma adjust_score_Ok target delta self self' u : NoDup (gs_principal_id <$> gv_scores self) →
  adjust_score target delta self = (self', Ok u) → enacted (AdjustScore target delta) self self' ∧ fields self' = fields self ∧
    effects self' = effects self.
Proof.
  intros Hn. unfold adjust_score. intros Ha. inv_M.
  match goal with H : update_first _ _ _ = Some _ |- _ => apply update_first_Some in H as (l1 & s & l2 & Hl & -> & Hs & Hl1) end.
  match goal with H : checked_i64 _ = Some _ |- _ => apply checked_i64_Some in H as [-> Hr] end.
  match goal with H : List.find _ _ = Some _ |- _ => rename H into Hf end.
  rewrite Hl in Hf. assert (List.find (λ score, bool_decide (gs_principal_id score = target)) (l1 ++ s :: l2) = Some s) as Hs'.
  { clear -Hs Hl1. induction Hl1 as [|y l1 Hy _ IH]; cbn; [by rewrite Hs|by rewrite Hy]. }
  rewrite Hs' in Hf. injection Hf as <-. apply bool_decide_eq_true in Hs as <-.
  rewrite Hl, fmap_app, fmap_cons in Hn. apply NoDup_app in Hn as (_ & Hd & [Hs1 _]%NoDup_cons).
  assert (∀ y, y ∈ l1 ++ l2 → delta_for (gs_principal_id y) (AdjustScore (gs_principal_id s) delta) = 0%Z) as Hz.
  { intros y Hy. cbn. rewrite bool_decide_eq_false_2; [done|]. intros Heq. apply elem_of_app in Hy as [Hy|Hy].
    - rewrite Forall_forall in Hl1. specialize (Hl1 y Hy). cbn in Hl1. by rewrite bool_decide_eq_false in Hl1.
    - apply Hs1. rewrite Heq. apply list_elem_of_fmap. by exists y. }
  split; [|done]. split; cbn; rewrite ?andb_false_r, ?orb_false_r, ?Z.add_0_r; try done.
  - intros who. by rewrite orb_false_r.
  - rewrite Hl, fmap_app, fmap_cons. f_equal; [apply (scores_same _ (AdjustScore (gs_principal_id s) delta)); intros; apply Hz, elem_of_app; by left|].
    f_equal; [cbn; by rewrite bool_decide_eq_true_2 by done|].
    apply (scores_same _ (AdjustScore (gs_principal_id s) delta)); intros; apply Hz, elem_of_app; by right.
  - rewrite Hl, !Forall_app, !Forall_cons. cbn. naive_solver.
Qed.

Lemma enacted_overlay action self self' : rule_layer action = Governable → (∀ id, action ≠ Accuse id) →
  gv_members self' = gv_members self → gv_scores self' = gv_scores self → (∀ who, delta_for who action = 0%Z) →
  (∀ who, kicks action who = false) → capabilities self' = rights (capabilities self) action →
  redeal_epoch self' = (redeal_epoch self + Z.b2z (redeals action))%Z → game_ended self' = game_ended self || ends_game action →
  enacted action self self'.
Proof.
  intros Hl Ha Hm Hs Hz Hk Hr He Hg. split; try done; rewrite ?Hm, ?Hs; try done.
  - intros who. unfold is_kicked. by rewrite Hm, Hk, orb_false_r.
  - by apply scores_same.
Qed.

Lemma change_rights_Ok target c change self self' u : change_rights target c change self = (self', Ok u) →
  enacted (ChangeRights target c change) self self' ∧ fields self' = fields self ∧ effects self' = effects self.
Proof.
  unfold change_rights. intros Ha. inv_M. destruct (negb _); [discriminate Ha|]. destruct change; inv_M.
  - split; [|unfold grant_capability; by destruct (has_capability _ _ _)].
    apply enacted_overlay; unfold grant_capability, has_capability; cbn; try done; destruct (existsb _ _); cbn;
      rewrite ?orb_false_r; try done; lia.
  - split; [|done]. apply enacted_overlay; cbn; rewrite ?orb_false_r; try done; lia.
Qed.

Lemma kick_members target ms ms' : update_first (active_as target)
    (λ member, {| gm_principal_id := gm_principal_id member; gm_connected := false; kicked := true |}) ms = Some ms' →
  (gm_principal_id <$> ms') = (gm_principal_id <$> ms) ∧
  ∀ who, existsb (λ m, bool_decide (gm_principal_id m = who) && kicked m) ms' =
    existsb (λ m, bool_decide (gm_principal_id m = who) && kicked m) ms ||
    bool_decide (target = who) && bool_decide (who ∈ gm_principal_id <$> ms).
Proof.
  intros (l1 & m & l2 & -> & -> & Hm & _)%update_first_Some. unfold active_as in Hm.
  apply andb_true_iff in Hm as [<-%bool_decide_eq_true Hk%negb_true_iff].
  split; [by rewrite !fmap_app|]. intros who. rewrite !existsb_app. cbn [existsb kicked gm_principal_id].
  rewrite Hk, andb_false_r, andb_true_r, orb_false_l. case_bool_decide as Hw; cbn [andb orb].
  - rewrite bool_decide_eq_true_2; [by rewrite !orb_true_r|]. rewrite fmap_app, fmap_cons, <-Hw. apply elem_of_app. right. left.
  - by rewrite orb_false_r.
Qed.

Lemma recover_Ok recovery self self' u : recover recovery self = (self', Ok u) →
  enacted (Recover recovery) self self' ∧ fields self' = fields self ∧ effects self' = effects self.
Proof.
  unfold recover. destruct recovery as [|target|]; intros Ha; inv_M.
  - match goal with H : checked _ _ = Some _ |- _ => apply checked_Some in H as [<- _] end.
    split; [|done]. apply enacted_overlay; cbn; rewrite ?orb_false_r; try done; lia.
  - match goal with H : update_first _ _ _ = Some _ |- _ => apply kick_members in H as [Hids Hk] end.
    split; [|done]. split; cbn; rewrite ?orb_false_r, ?Z.add_0_r; try done.
    by apply (scores_same _ (Recover (Kick target))).
  - split; [|done]. apply enacted_overlay; cbn; rewrite ?orb_true_r; try done; lia.
Qed.

Lemma apply_effect_Ok id action authority self self' u : NoDup (gs_principal_id <$> gv_scores self) →
  apply_effect id action authority self = (self', Ok u) →
  enacted action self self' ∧ fields self' = fields self ∧ effects self' = effects self ++
    [{| effect_id := id; ge_action := action; effect_authority := authority; ge_logical_tick := logical_tick self |}].
Proof.
  intros Hn. unfold apply_effect. intros Ha. apply M_bind_Ok in Ha as (self1 & [] & Hact & ->%update_Ok).
  assert (enacted action self self1 ∧ fields self1 = fields self ∧ effects self1 = effects self) as (He & Hf & Hef).
  { destruct action; [discriminate Hact|by eapply adjust_score_Ok|by eapply change_rights_Ok|discriminate Hact|by eapply recover_Ok]. }
  split; [by destruct He; split|]. split; [done|]. cbn. rewrite Hef. unfold fields in Hf. by injection Hf as -> _ _ _ _.
Qed.

(** ** Tallies *)

Definition chosen (c : VoteChoiceWire) (l : list GovernanceVoteRecord) : Z :=
  Z.of_nat (length (List.filter (λ v, counted v && bool_decide (choice v = c)) l)).

Lemma chosen_cons c v l : chosen c (v :: l) = (Z.b2z (counted v && bool_decide (choice v = c)) + chosen c l)%Z.
Proof. unfold chosen. cbn. destruct (_ && _)%bool; cbn [length Z.b2z]; lia. Qed.

Definition tally_of p : ProposalTally :=
  {| t_eligible := Z.min (umax 16) (Z.of_nat (length (List.filter eligible (eligibility p))));
     approvals := chosen Approve (votes p); rejections := chosen Reject (votes p); abstentions := chosen Abstain (votes p) |}.

Lemma tally_counts l t t' : foldM tally_vote (List.filter counted l) t = Ok t' →
  t' = {| t_eligible := t_eligible t; approvals := approvals t + chosen Approve l; rejections := rejections t + chosen Reject l;
          abstentions := abstentions t + chosen Abstain l |}%Z.
Proof.
  revert t. induction l as [|v l IH]; intros t; cbn [List.filter].
  { intros [= <-]. destruct t. unfold chosen. cbn. f_equal; lia. }
  rewrite !chosen_cons. destruct (counted v) eqn:Hc; cbn [andb]; [|intros ->%IH; f_equal; cbn; lia].
  cbn [foldM]. intros (t1 & Ht & ->%IH)%bind_Ok. unfold tally_vote in Ht.
  destruct (choice v) eqn:Hch; apply bind_Ok in Ht as (n & [-> _]%u_add_Ok & [= <-]);
    repeat case_bool_decide; try done; cbn [Z.b2z t_eligible approvals rejections abstentions]; f_equal; lia.
Qed.

Lemma tally_exists l t : (0 <= approvals t)%Z → (0 <= rejections t)%Z → (0 <= abstentions t)%Z →
  (approvals t + rejections t + abstentions t + Z.of_nat (length (List.filter counted l)) <= umax 16)%Z →
  ∃ t', foldM tally_vote (List.filter counted l) t = Ok t'.
Proof.
  revert t. induction l as [|v l IH]; intros t Ha Hr Hb Hsum; cbn [List.filter] in *; [by eexists|].
  destruct (counted v); [|by apply IH]. cbn [foldM length] in *. unfold umax in Hsum.
  assert (∃ t1, tally_vote t v = Ok t1 ∧ (0 <= approvals t1 ∧ 0 <= rejections t1 ∧ 0 <= abstentions t1 ∧
    approvals t1 + rejections t1 + abstentions t1 = approvals t + rejections t + abstentions t + 1)%Z) as (t1 & -> & H1 & H2 & H3 & Hs).
  { unfold tally_vote. destruct (choice v); rewrite u_add_ok by (unfold in_width; lia); eexists; (split; [reflexivity|]);
      cbn [approvals rejections abstentions]; lia. }
  cbn [mbind outcome_bind]. apply IH; [done..|]. unfold umax. lia.
Qed.

Lemma u16_or_max_min n : u16_or_max n = Z.min (umax 16) (Z.of_nat n).
Proof.
  unfold u16_or_max. destruct (checked 16 (Z.of_nat n)) as [m|] eqn:Hc.
  - apply checked_Some in Hc as [<- Hw]. unfold in_width, umax in *. lia.
  - unfold checked in Hc. destruct (in_widthb 16 (Z.of_nat n)) eqn:Hw; [done|]. unfold in_widthb, umax in *. lia.
Qed.

Lemma proposal_tally_of p t : proposal_tally p = Ok t → t = tally_of p.
Proof. unfold proposal_tally. intros ->%tally_counts. cbn. unfold tally_of. by rewrite u16_or_max_min. Qed.

(** ** The invariant of governance
    What every successful method keeps: votes are those of snapshotted voters, a
    status is the one its votes and deadline decide, and an effect is backed by an
    approved proposal or a capability. *)

Section Invariant.
Context `{GovernanceSerde} (blake3 : list Z → list Z).

Definition all_voted (t : ProposalTally) : Prop := (approvals t + rejections t + abstentions t = t_eligible t)%Z.

Definition undecided (t : ProposalTally) : Prop :=
  has_approval_majority t = false ∧ has_rejection_majority t = false ∧ ¬ all_voted t.

(** A status is what the votes and the deadline decide. *)
Definition status_decided (tick : Z) p : Prop :=
  match status p with
  | Pending => (tick < deadline_tick p)%Z ∧ undecided (tally_of p)
  | Approved t id => t = tally_of p ∧ has_approval_majority t = true ∧ event_id blake3 "proposal" (gp_proposal_id p) = Ok id
  | Rejected t reason => t = tally_of p ∧ has_approval_majority t = false ∧
      match reason with
      | MajorityRejected => has_rejection_majority t = true
      | AllVotesNoMajority => has_rejection_majority t = false ∧ all_voted t
      | DeadlineNoMajority => (deadline_tick p <= tick)%Z ∧ undecided t
      end
  end.

(** A vote repeats its voter's snapshotted eligibility. *)
Definition vote_recorded p (v : GovernanceVoteRecord) : Prop :=
  ∃ r, r ∈ eligibility p ∧ er_voter r = voter v ∧ counted v = eligible r ∧ vr_exclusion v = exclusion r.

Record proposal_inv (tick : Z) p : Prop := {
  pi_voters : NoDup (er_voter <$> eligibility p);
  pi_excluded : ∀ r, r ∈ eligibility p → eligible r = true ↔ exclusion r = None;
  pi_some : existsb eligible (eligibility p) = true;
  pi_once : NoDup (voter <$> votes p);
  pi_votes : ∀ v, v ∈ votes p → vote_recorded p v;
  pi_opened : (opened_tick p <= tick)%Z;
  pi_action : ∃ c, required_capability (gp_action p) = Ok c;
  pi_id : proposal_id blake3 (gp_command_id p) = Ok (gp_proposal_id p);
  pi_status : status_decided tick p;
}.

Definition vote_authority e : option ProposalId :=
  match effect_authority e with ApprovedVote id => Some id | UnilateralCapability _ _ => None end.

Definition find_proposal (l : list GovernanceProposal) (id : ProposalId) : option GovernanceProposal :=
  List.find (λ p, bool_decide (gp_proposal_id p = id)) l.

Record governance_inv self : Prop := {
  gi_members : NoDup (gm_principal_id <$> gv_members self);
  gi_scores : (gs_principal_id <$> gv_scores self) = (gm_principal_id <$> gv_members self);
  gi_range : Forall (λ s, (- 2 ^ 63 <= points s < 2 ^ 63)%Z) (gv_scores self);
  gi_duration : (0 < vote_duration_ticks self)%Z;
  gi_proposals : ∀ p, p ∈ proposals self → proposal_inv (logical_tick self) p;
  gi_snapshots : ∀ p, p ∈ proposals self → (er_voter <$> eligibility p) = (gm_principal_id <$> gv_members self);
  gi_backed : ∀ e id, e ∈ effects self → effect_authority e = ApprovedVote id →
    ∃ p t, find_proposal (proposals self) id = Some p ∧ status p = Approved t (effect_id e) ∧ gp_action p = ge_action e;
  gi_capable : ∀ e who c, e ∈ effects self → effect_authority e = UnilateralCapability who c →
    required_capability (ge_action e) = Ok c;
  gi_single : NoDup (omap vote_authority (effects self));
  gi_enacted : ∀ p t id, p ∈ proposals self → status p = Approved t id →
    ∃ e, e ∈ effects self ∧ effect_id e = id ∧ effect_authority e = ApprovedVote (gp_proposal_id p) ∧ ge_action e = gp_action p;
  gi_processed : NoDup (pg_command_id <$> processed self);
}.

(** ** Finding proposals *)

Lemma find_proposal_map (f : GovernanceProposal → GovernanceProposal) l id :
  (∀ p, gp_proposal_id (f p) = gp_proposal_id p) → find_proposal (f <$> l) id = f <$> find_proposal l id.
Proof.
  intros Hf. unfold find_proposal. induction l as [|p l IH]; [done|]. cbn. rewrite Hf. by case_bool_decide.
Qed.

Lemma find_proposal_snoc l q id : find_proposal (l ++ [q]) id =
  match find_proposal l id with Some p => Some p | None => if bool_decide (gp_proposal_id q = id) then Some q else None end.
Proof.
  unfold find_proposal. induction l as [|p l IH]; cbn; [by case_bool_decide|].
  destruct (bool_decide (gp_proposal_id p = id)); [reflexivity|exact IH].
Qed.

Lemma position_find l id i p : position (λ p, bool_decide (gp_proposal_id p = id)) l = Some i → l !! i = Some p →
  gp_proposal_id p = id ∧ find_proposal l id = Some p ∧
  ∀ q k, gp_proposal_id q = id → find_proposal (<[i := q]> l) k = if bool_decide (k = id) then Some q else find_proposal l k.
Proof.
  revert i. unfold find_proposal. induction l as [|r l IH]; intros i; cbn [position]; [done|].
  destruct (bool_decide (gp_proposal_id r = id)) eqn:Hr.
  - intros [= <-] [= ->]. apply bool_decide_eq_true in Hr. split_and!; [done|cbn; by rewrite bool_decide_eq_true_2|].
    intros q k Hq. cbn. rewrite Hq, Hr. case_bool_decide; subst; [by rewrite bool_decide_eq_true_2|].
    by rewrite bool_decide_eq_false_2 by congruence.
  - destruct (position _ l) as [j|] eqn:Hj; cbn; [|done]. intros [= <-] Hp. cbn in Hp.
    destruct (IH j eq_refl Hp) as (H1 & H2 & H3). split_and!; [done|by rewrite Hr|].
    intros q k Hq. cbn. apply bool_decide_eq_false in Hr. case_bool_decide as Hk.
    + subst k. by rewrite bool_decide_eq_false_2 by congruence.
    + by rewrite H3.
Qed.

Lemma find_proposal_in l id p : find_proposal l id = Some p → p ∈ l ∧ gp_proposal_id p = id.
Proof. intros [Hin Hp%bool_decide_eq_true]%List_find_Some. done. Qed.

(** ** Expiry *)

Definition expired (tick : Z) p : GovernanceProposal :=
  if is_pending p && (deadline_tick p <=? tick)%Z then with_status p (Rejected (tally_of p) DeadlineNoMajority) else p.

Lemma advance_to_Ok tick self self' ids : advance_to tick self = (self', Ok ids) →
  (logical_tick self <= tick)%Z ∧ self' = with_proposals (with_tick self tick) (expired tick <$> proposals self).
Proof.
  unfold advance_to. intros Ha. apply M_bind_Ok in Ha as (self1 & now & [-> ->]%read_Ok & Ha). cbv beta in Ha.
  destruct (tick <? logical_tick self)%Z eqn:Ht; [discriminate Ha|]. split; [lia|]. unfold or_restore in Ha.
  match type of Ha with (match ?m with _ => _ end) = _ => destruct m as [s [x|e|]] eqn:Hm; simplify_eq end.
  inv_M. f_equal. cbn [proposals with_tick].
  match goal with H : mapM _ _ = Ok _ |- _ => rename H into Hmap end. clear -Hmap. cbn [proposals with_tick] in Hmap.
  match type of Hmap with mapM _ _ = Ok ?r => revert r Hmap end. induction (proposals self) as [|p l IH]; intros r Hmap; cbn in Hmap.
  { by injection Hmap as <-. }
  apply bind_Ok in Hmap as (y & Hy & (ys & Hys & [= <-])%bind_Ok). cbn. rewrite (IH _ Hys). f_equal.
  unfold expire_proposal in Hy. unfold expired. destruct (_ && _)%bool; [|by injection Hy as <-].
  apply bind_Ok in Hy as (t & ->%proposal_tally_of & [= <-]). done.
Qed.

Lemma expired_inv tick tick' p : (tick <= tick')%Z → proposal_inv tick p → proposal_inv tick' (expired tick' p).
Proof.
  intros Ht [H1 H2 H3 H4 H5 H6 H7 H8 H9]. unfold expired. destruct (is_pending p && _)%bool eqn:Hx.
  - apply andb_true_iff in Hx as [Hp Hd%Z.leb_le]. unfold is_pending in Hp. unfold status_decided in H9.
    destruct (status p) eqn:Hs; [|done..]. destruct H9 as [_ Hu]. split; try done; [cbn; lia|].
    unfold status_decided. cbn. split_and!; [done|apply Hu|done|done].
  - split; try done; [lia|]. unfold status_decided in *. unfold is_pending in Hx. destruct (status p) as [| |t []]; try done.
    + cbn in Hx. destruct H9. split; [lia|done].
    + destruct H9 as (? & ? & ? & ?). split_and!; try done. lia.
Qed.

Lemma governance_inv_advance tick self : (logical_tick self <= tick)%Z → governance_inv self →
  governance_inv (with_proposals (with_tick self tick) (expired tick <$> proposals self)).
Proof.
  intros Ht [H1 H2 H3 H4 H5 H6 H7 H8 H9 H10 H11].
  assert (∀ p, gp_proposal_id (expired tick p) = gp_proposal_id p ∧ gp_action (expired tick p) = gp_action p ∧
    eligibility (expired tick p) = eligibility p ∧
    (∀ t id, status (expired tick p) = Approved t id ↔ status p = Approved t id)) as Hsame.
  { intros p. unfold expired. destruct (is_pending p && _)%bool eqn:Hx; [|done]. split_and!; try done. intros t id. cbn.
    unfold is_pending in Hx. by destruct (status p). }
  split; try done; cbn [proposals with_proposals logical_tick with_tick gv_members effects].
  - intros q (p & -> & Hp)%list_elem_of_fmap. eapply expired_inv; [done|]. by apply H5.
  - intros q (p & -> & Hp)%list_elem_of_fmap. destruct (Hsame p) as (_ & _ & -> & _). by apply H6.
  - intros e id He Hau. destruct (H7 e id He Hau) as (p & t & Hf & Hs & Ha).
    destruct (Hsame p) as (Hid & Hac & _ & Hst). exists (expired tick p), t.
    rewrite find_proposal_map, Hf by (intros; apply Hsame). split_and!; [done|by apply Hst|congruence].
  - intros q t id (p & -> & Hp)%list_elem_of_fmap Hs. destruct (Hsame p) as (Hid & Hac & _ & Hst).
    rewrite Hid, Hac. apply (H10 p t id Hp). by apply Hst.
Qed.

(** ** Effects *)

Lemma fields_inv self self' : fields self' = fields self → logical_tick self' = logical_tick self ∧
  vote_duration_ticks self' = vote_duration_ticks self ∧ accused self' = accused self ∧ proposals self' = proposals self ∧
  processed self' = processed self.
Proof. by intros [= -> -> -> -> ->]. Qed.

(** The parts of the invariant an enacted action keeps. *)
Lemma enacted_keeps action self self' : governance_inv self → enacted action self self' → fields self' = fields self →
  NoDup (gm_principal_id <$> gv_members self') ∧ (gs_principal_id <$> gv_scores self') = (gm_principal_id <$> gv_members self') ∧
  Forall (λ s, (- 2 ^ 63 <= points s < 2 ^ 63)%Z) (gv_scores self').
Proof.
  intros Hi He _. rewrite (en_members _ _ _ He). split; [apply Hi|]. split.
  - rewrite (en_scores _ _ _ He), <-(gi_scores _ Hi), <-list_fmap_compose. done.
  - apply (en_range _ _ _ He), Hi.
Qed.

Lemma scores_unique self : governance_inv self → NoDup (gs_principal_id <$> gv_scores self).
Proof. intros Hi. rewrite (gi_scores _ Hi). apply Hi. Qed.

Lemma execute_Ok self self' invocation action r : NoDup (gs_principal_id <$> gv_scores self) →
  execute blake3 invocation action self = (self', Ok r) →
  ∃ c id, required_capability action = Ok c ∧ has_capability self (issuer invocation) c = true ∧
    enacted action self self' ∧ fields self' = fields self ∧ effects self' = effects self ++
      [{| effect_id := id; ge_action := action; effect_authority := UnilateralCapability (issuer invocation) c;
          ge_logical_tick := logical_tick self |}] ∧ event_id blake3 "direct" (gi_command_id invocation) = Ok id ∧
    r = {| gr_command_id := gi_command_id invocation; gr_proposal_id := None; gr_effect_id := Some id; vote_counted := None |}.
Proof.
  intros Hn. unfold execute. intros Ha. apply M_bind_Ok in Ha as (s1 & c & [-> Hc]%lift_Ok & Ha).
  apply M_bind_Ok in Ha as (s2 & held & [-> ->]%read_Ok & Ha). cbv beta in Ha. destruct (has_capability _ _ _) eqn:Hh; [|discriminate Ha].
  cbn [negb] in Ha. apply M_bind_Ok in Ha as (s3 & id & [-> Hid]%lift_Ok & Ha). apply M_bind_Ok in Ha as (s4 & u & He & [-> ->]%mret_Ok).
  apply apply_effect_Ok in He as (He & Hf & Hef); [|done]. by exists c, id.
Qed.

Lemma execute_inv self self' invocation action r : governance_inv self →
  execute blake3 invocation action self = (self', Ok r) → governance_inv self'.
Proof.
  intros Hi (c & id & Hc & Hh & He & Hf & Hef & _ & _)%execute_Ok; [|by apply scores_unique].
  destruct (enacted_keeps _ _ _ Hi He Hf) as (K1 & K2 & K3).
  destruct (fields_inv _ _ Hf) as (Ft & Fd & _ & Fp & Fpr). split; try done; rewrite ?Ft, ?Fd, ?Fp, ?Fpr; try apply Hi.
  - rewrite (en_members _ _ _ He). apply Hi.
  - intros e' pid. rewrite Hef. intros [Hin|Hin%list_elem_of_singleton]%elem_of_app Hau; [by apply (gi_backed _ Hi)|].
    subst e'. discriminate Hau.
  - intros e' who c'. rewrite Hef. intros [Hin|Hin%list_elem_of_singleton]%elem_of_app Hau; [by eapply (gi_capable _ Hi)|].
    subst e'. cbn in Hau |- *. by injection Hau as _ <-.
  - rewrite Hef, omap_app. cbn. rewrite app_nil_r. apply Hi.
  - intros p t id' Hp Hs. destruct (gi_enacted _ Hi p t id' Hp Hs) as (e' & Hin & Hx). exists e'. split; [|done].
    rewrite Hef. apply elem_of_app. by left.
Qed.

(** ** Votes *)

(** How a proposal stands after its votes have been counted. *)
Inductive finalized (i : nat) p self self' : option EventId → Prop :=
  | finalized_approved id self1 u : has_approval_majority (tally_of p) = true → event_id blake3 "proposal" (gp_proposal_id p) = Ok id →
      apply_effect id (gp_action p) (ApprovedVote (gp_proposal_id p)) self = (self1, Ok u) →
      self' = with_proposals self1 (<[i := with_status p (Approved (tally_of p) id)]> (proposals self1)) →
      finalized i p self self' (Some id)
  | finalized_rejected reason : has_approval_majority (tally_of p) = false →
      match reason with
      | MajorityRejected => has_rejection_majority (tally_of p) = true
      | AllVotesNoMajority => has_rejection_majority (tally_of p) = false ∧ all_voted (tally_of p)
      | DeadlineNoMajority => False
      end →
      self' = with_proposals self (<[i := with_status p (Rejected (tally_of p) reason)]> (proposals self)) →
      finalized i p self self' None
  | finalized_open : undecided (tally_of p) → self' = self → finalized i p self self' None.

Lemma every_voted t b : every_eligible_voted (E := GovernanceError) t = Ok b → b = true ↔ all_voted t.
Proof.
  unfold every_eligible_voted, all_voted. intros (x & [-> _]%u_add_Ok & (y & [-> _]%u_add_Ok & [= <-])%bind_Ok)%bind_Ok.
  apply Z.eqb_eq.
Qed.

Lemma maybe_finalize_Ok i p self self' o : proposals self !! i = Some p →
  maybe_finalize_from_votes blake3 i self = (self', Ok o) → finalized i p self self' o.
Proof.
  intros Hp. unfold maybe_finalize_from_votes. intros Ha. apply M_bind_Ok in Ha as (s1 & open & [-> ->]%read_Ok & Ha).
  apply M_bind_Ok in Ha as (s2 & p' & [-> Hp'%expect_Ok]%lift_Ok & Ha). assert (p' = p) as -> by congruence.
  apply M_bind_Ok in Ha as (s3 & t & [-> ->%proposal_tally_of]%lift_Ok & Ha). cbv beta in Ha.
  destruct (has_approval_majority (tally_of p)) eqn:Happ.
  - apply M_bind_Ok in Ha as (s4 & id & [-> Hid]%lift_Ok & Ha). apply M_bind_Ok in Ha as (s5 & u & He & Ha).
    apply M_bind_Ok in Ha as (s6 & u' & ->%update_Ok & [-> ->]%mret_Ok). by eapply finalized_approved.
  - apply M_bind_Ok in Ha as (s4 & b & [-> Hb]%lift_Ok & Ha). cbv beta in Ha.
    destruct (has_rejection_majority (tally_of p)) eqn:Hrej.
    + injection Hb as <-. apply M_bind_Ok in Ha as (s6 & u' & ->%update_Ok & [-> ->]%mret_Ok).
      by apply (finalized_rejected _ _ _ _ MajorityRejected).
    + apply every_voted in Hb. destruct b.
      * apply M_bind_Ok in Ha as (s6 & u' & ->%update_Ok & [-> ->]%mret_Ok).
        apply (finalized_rejected _ _ _ _ AllVotesNoMajority); [done| |done]. split; [done|by apply Hb].
      * apply mret_Ok in Ha as [-> ->]. apply finalized_open; [|done]. split_and!; [done|done|]. intros Hx%Hb. done.
Qed.

(** The vote a command casts. *)
Definition vote_of (invocation : GovernanceInvocation) (r : EligibilityRecord) (c : VoteChoiceWire) : GovernanceVoteRecord :=
  {| vr_command_id := gi_command_id invocation; voter := issuer invocation; choice := c; counted := eligible r;
     vr_exclusion := exclusion r |}.

Lemma cast_vote_Ok self self' invocation id c r : cast_vote blake3 invocation id c self = (self', Ok r) →
  ∃ i p record, position (λ p, bool_decide (gp_proposal_id p = id)) (proposals self) = Some i ∧ proposals self !! i = Some p ∧
    status p = Pending ∧ (∀ v, v ∈ votes p → voter v ≠ issuer invocation) ∧
    record ∈ eligibility p ∧ er_voter record = issuer invocation ∧
    let p1 := with_votes p (votes p ++ [vote_of invocation record c]) in
    finalized i p1 (with_proposals self (<[i := p1]> (proposals self))) self' (gr_effect_id r) ∧
    r = {| gr_command_id := gi_command_id invocation; gr_proposal_id := Some id; gr_effect_id := gr_effect_id r;
           vote_counted := Some (eligible record) |}.
Proof.
  unfold cast_vote. intros Ha. apply M_bind_Ok in Ha as (s1 & open & [-> ->]%read_Ok & Ha).
  apply M_bind_Ok in Ha as (s2 & i & [-> Hi%ok_or_Ok]%lift_Ok & Ha). apply M_bind_Ok in Ha as (s3 & p & [-> Hp%expect_Ok]%lift_Ok & Ha).
  cbv beta in Ha. destruct (is_pending p) eqn:Hpend; [|discriminate Ha]. cbn [negb] in Ha.
  destruct (existsb _ (votes p)) eqn:Hv; [discriminate Ha|].
  apply M_bind_Ok in Ha as (s4 & record & [-> Hr%ok_or_Ok]%lift_Ok & Ha). cbv zeta beta in Ha.
  apply List_find_Some in Hr as [Hrin Hr%bool_decide_eq_true].
  apply M_bind_Ok in Ha as (s5 & u & ->%update_Ok & Ha). apply M_bind_Ok in Ha as (s6 & o & Hf & [-> ->]%mret_Ok).
  exists i, p, record. cbn [gr_effect_id]. split_and!; try done.
  - unfold is_pending in Hpend. by destruct (status p).
  - intros v Hin. apply existsb_false_iff in Hv. rewrite Forall_forall in Hv. specialize (Hv v Hin). by apply bool_decide_eq_false in Hv.
  - eapply maybe_finalize_Ok in Hf; [exact Hf|]. cbn. apply list_lookup_insert_eq. by eapply lookup_lt_Some.
Qed.

(** A counted vote leaves a well-formed proposal, whatever its decided status. *)
Lemma vote_added tick p record invocation c st : proposal_inv tick p → status p = Pending →
  (∀ v, v ∈ votes p → voter v ≠ issuer invocation) → record ∈ eligibility p → er_voter record = issuer invocation →
  status_decided tick (with_status (with_votes p (votes p ++ [vote_of invocation record c])) st) →
  proposal_inv tick (with_status (with_votes p (votes p ++ [vote_of invocation record c])) st).
Proof.
  intros [H1 H2 H3 H4 H5 H6 H7 H8 H9] Hp Hnew Hr Hv Hst. split; try done; cbn [votes with_status with_votes].
  - rewrite fmap_app. apply NoDup_app. split_and!; [done| |apply NoDup_singleton].
    intros x (v & -> & Hin)%list_elem_of_fmap Hx%list_elem_of_singleton. by apply (Hnew v Hin).
  - intros v [Hin|Hin%list_elem_of_singleton]%elem_of_app; [by apply H5|]. subst v. by exists record.
Qed.

Lemma with_status_same p st : status p = st → with_status p st = p.
Proof. intros <-. by destruct p. Qed.

Section Replace.
Context self i p q id (Hi : governance_inv self)
  (Hpos : position (λ p, bool_decide (gp_proposal_id p = id)) (proposals self) = Some i)
  (Hp : proposals self !! i = Some p) (Hpend : status p = Pending)
  (Hid : gp_proposal_id q = gp_proposal_id p) (Hel : eligibility q = eligibility p) (Hac : gp_action q = gp_action p)
  (Hq : proposal_inv (logical_tick self) q).

Lemma replaced_lookup r : r ∈ <[i := q]> (proposals self) → r = q ∨ r ∈ proposals self.
Proof using Hp.
  intros (j & Hj)%list_elem_of_lookup. destruct (decide (j = i)) as [->|Hne].
  - rewrite list_lookup_insert_eq in Hj by (by eapply lookup_lt_Some). left. congruence.
  - rewrite list_lookup_insert_ne in Hj by done. right. by eapply list_elem_of_lookup_2.
Qed.

Lemma replaced_proposals r : r ∈ <[i := q]> (proposals self) → proposal_inv (logical_tick self) r ∧
  (er_voter <$> eligibility r) = (gm_principal_id <$> gv_members self).
Proof using All.
  intros [->|Hr]%replaced_lookup; [split; [done|]|split; [by apply Hi|by apply Hi]].
  rewrite Hel. apply Hi. by eapply list_elem_of_lookup_2.
Qed.

Lemma pending_unbacked e : e ∈ effects self → effect_authority e ≠ ApprovedVote id.
Proof using Hi Hpos Hp Hpend.
  intros He Hau. destruct (gi_backed _ Hi e id He Hau) as (p' & t & Hf & Hs & _).
  destruct (position_find _ _ _ _ Hpos Hp) as (_ & Hf' & _). assert (p' = p) as -> by congruence. by rewrite Hpend in Hs.
Qed.

Lemma replaced_backed e k : e ∈ effects self → effect_authority e = ApprovedVote k →
  ∃ p t, find_proposal (<[i := q]> (proposals self)) k = Some p ∧ status p = Approved t (effect_id e) ∧ gp_action p = ge_action e.
Proof using Hi Hpos Hp Hpend Hid.
  intros He Hau. destruct (position_find _ _ _ _ Hpos Hp) as (Hpid & _ & Hfind). rewrite Hfind by congruence.
  rewrite bool_decide_eq_false_2; [by apply (gi_backed _ Hi)|]. intros ->. by apply (pending_unbacked e).
Qed.

Lemma replace_open : (∀ t x, status q ≠ Approved t x) → governance_inv (with_proposals self (<[i := q]> (proposals self))).
Proof using All.
  intros Hna. pose proof Hi as [H1 H2 H3 H4 H5 H6 H7 H8 H9 H10 H11]. split; try done; cbn [proposals with_proposals logical_tick gv_members effects].
  - intros r Hr. by apply replaced_proposals.
  - intros r Hr. by apply replaced_proposals.
  - apply replaced_backed.
  - intros r t x [->|Hr]%replaced_lookup Hs; [by destruct (Hna t x)|by apply (H10 r t x)].
Qed.

(** The proposal is approved and its action enacted. *)
Lemma replace_approved self1 e : status q = Approved (tally_of q) (effect_id e) → effect_authority e = ApprovedVote id → ge_action e = gp_action p →
  enacted (gp_action p) self self1 → fields self1 = (logical_tick self, vote_duration_ticks self, accused self, <[i := q]> (proposals self), processed self) →
  effects self1 = effects self ++ [e] → governance_inv self1.
Proof using All.
  intros Hs Hau Hea He Hf Hef. injection Hf as Ft Fd Fa Fp Fpr.
  destruct (position_find _ _ _ _ Hpos Hp) as (Hpid & _ & Hfind).
  assert (∀ r, r ∈ effects self1 → r ∈ effects self ∨ r = e) as Hin.
  { intros r. rewrite Hef. intros [Hr|Hr%list_elem_of_singleton]%elem_of_app; auto. }
  split; rewrite ?Ft, ?Fd, ?Fp, ?Fpr, ?(en_members _ _ _ He); try apply Hi.
  - rewrite (en_scores _ _ _ He), <-(gi_scores _ Hi), <-list_fmap_compose. done.
  - apply (en_range _ _ _ He), Hi.
  - intros r Hr. by apply replaced_proposals.
  - intros r Hr. by apply replaced_proposals.
  - intros r k [Hr| ->]%Hin Hk; [by apply replaced_backed|]. assert (k = id) as -> by congruence.
    exists q, (tally_of q). rewrite Hfind, bool_decide_eq_true_2 by congruence. split_and!; [done|done|congruence].
  - intros r who c [Hr| ->]%Hin Hk; [by eapply (gi_capable _ Hi)|congruence].
  - rewrite Hef, omap_app. cbn. unfold vote_authority at 2. rewrite Hau. apply NoDup_app. split_and!; [apply Hi| |apply NoDup_singleton].
    intros x (r & Hr & Hx)%list_elem_of_omap Hxe%list_elem_of_singleton. subst x. apply (pending_unbacked r Hr).
    unfold vote_authority in Hx. destruct (effect_authority r); congruence.
  - intros r t x [->|Hr]%replaced_lookup Hst.
    + exists e. rewrite Hef. split; [apply elem_of_app; right; left|]. split_and!; [congruence|congruence|congruence].
    + destruct (gi_enacted _ Hi r t x Hr Hst) as (e' & He' & Hx). exists e'. split; [|done]. rewrite Hef. apply elem_of_app. by left.
Qed.
End Replace.

Lemma cast_vote_inv self self' invocation id c r : governance_inv self →
  cast_vote blake3 invocation id c self = (self', Ok r) → governance_inv self'.
Proof.
  intros Hi (i & p & record & Hpos & Hp & Hpend & Hnew & Hr & Hv & Hfin & _)%cast_vote_Ok. cbv zeta in Hfin.
  pose proof (gi_proposals _ Hi p (list_elem_of_lookup_2 _ _ _ Hp)) as Hpi.
  set (p1 := with_votes p (votes p ++ [vote_of invocation record c])) in *.
  assert (∀ st, status_decided (logical_tick self) (with_status p1 st) → proposal_inv (logical_tick self) (with_status p1 st)) as Hq.
  { intros st Hst. by apply vote_added. }
  assert (∀ st, tally_of (with_status p1 st) = tally_of p1) as Ht by done.
  destruct (position_find _ _ _ _ Hpos Hp) as (Hpid & _ & _).
  destruct Hfin as [eid self1 u Ha Heid He ->|reason Ha Hre ->|Hu ->].
  - apply apply_effect_Ok in He as (He & Hf & Hef); [|by apply (scores_unique self)].
    destruct (fields_inv _ _ Hf) as (Ft & Fd & Fa & Fp & Fpr). cbn in Ft, Fd, Fa, Fp, Fpr, Hef.
    rewrite Fp, list_insert_insert_eq.
    refine (replace_approved self i p (with_status p1 (Approved (tally_of p1) eid)) id Hi Hpos Hp Hpend eq_refl eq_refl eq_refl _
      (with_proposals self1 _) _ _ _ _ _ _ Hef).
    + apply Hq. unfold status_decided. cbn [status with_status]. split_and!; done.
    + reflexivity.
    + cbn. by rewrite <-Hpid.
    + done.
    + destruct He as [E1 E2 E3 E4 E5 E6 E7 E8]. by split.
    + unfold fields. cbn. by rewrite Ft, Fd, Fa, Fpr.
  - cbn [proposals with_proposals]. rewrite list_insert_insert_eq.
    apply (replace_open self i p (with_status p1 (Rejected (tally_of p1) reason)) id Hi Hpos Hp Hpend eq_refl eq_refl eq_refl); [|intros t x; discriminate].
    apply Hq. unfold status_decided. cbn [status with_status]. split_and!; [done|done|]. by destruct reason.
  - apply (replace_open self i p p1 id Hi Hpos Hp Hpend eq_refl eq_refl eq_refl); [|by intros t x; cbn; rewrite Hpend].
    rewrite <-(with_status_same p1 Pending Hpend). apply Hq. unfold status_decided. cbn [status with_status].
    pose proof (pi_status _ _ Hpi) as Hst. unfold status_decided in Hst. rewrite Hpend in Hst. split; [apply Hst|exact Hu].
Qed.

(** ** New proposals *)

Lemma eligibility_voters self action : (er_voter <$> eligibility_for self action) = (gm_principal_id <$> gv_members self).
Proof. unfold eligibility_for. rewrite <-list_fmap_compose. done. Qed.

Lemma tally_fresh p : votes p = [] → existsb eligible (eligibility p) = true → undecided (tally_of p).
Proof.
  intros Hv Hx. unfold tally_of, undecided, has_approval_majority, has_rejection_majority, all_voted. rewrite Hv. cbn.
  assert (1 <= length (List.filter eligible (eligibility p))) as Hl.
  { apply existsb_exists in Hx as (r & Hr & He). assert (r ∈ List.filter eligible (eligibility p)) as Hin
      by (apply list_elem_of_In, List.filter_In; done).
    destruct (List.filter _ _); [by apply elem_of_nil in Hin|cbn; lia]. }
  assert (0 <= Z.min (umax 16) (Z.of_nat (length (List.filter eligible (eligibility p)))) / 2)%Z by (apply Z.div_pos; unfold umax; lia).
  assert (∀ c, chosen c [] = 0%Z) as Hz by done. rewrite !Hz. unfold umax in *. split_and!; lia.
Qed.

Lemma start_vote_Ok self self' invocation action r : start_vote blake3 invocation action self = (self', Ok r) →
  ∃ id c, required_capability action = Ok c ∧ proposal_id blake3 (gi_command_id invocation) = Ok id ∧
    existsb eligible (eligibility_for self action) = true ∧
    self' = with_proposals self (proposals self ++
      [{| gp_proposal_id := id; gp_command_id := gi_command_id invocation; proposer := issuer invocation;
          opened_tick := gi_logical_tick invocation; deadline_tick := gi_logical_tick invocation + vote_duration_ticks self;
          gp_action := action; eligibility := eligibility_for self action; votes := []; status := Pending |}%Z]) ∧
    r = {| gr_command_id := gi_command_id invocation; gr_proposal_id := Some id; gr_effect_id := None; vote_counted := None |}.
Proof.
  unfold start_vote. intros Ha. apply M_bind_Ok in Ha as (s1 & c & [-> Hc]%lift_Ok & Ha).
  apply M_bind_Ok in Ha as (s2 & id & [-> Hid]%lift_Ok & Ha). apply M_bind_Ok in Ha as (s3 & records & [-> ->]%read_Ok & Ha).
  cbv beta in Ha. destruct (existsb _ _) eqn:Hx; [|discriminate Ha]. cbn [negb] in Ha.
  apply M_bind_Ok in Ha as (s4 & duration & [-> ->]%read_Ok & Ha).
  apply M_bind_Ok in Ha as (s5 & deadline & [-> (<- & _)%ok_or_Ok%checked_Some]%lift_Ok & Ha).
  apply M_bind_Ok in Ha as (s6 & u & ->%update_Ok & [-> ->]%mret_Ok). by exists id, c.
Qed.

Lemma start_vote_inv self self' invocation action r : governance_inv self → logical_tick self = gi_logical_tick invocation →
  start_vote blake3 invocation action self = (self', Ok r) → governance_inv self'.
Proof.
  intros Hi Ht (id & c & Hc & Hid & Hx & -> & _)%start_vote_Ok. set (q := Build_GovernanceProposal _ _ _ _ _ _ _ _ _).
  pose proof Hi as [H1 H2 H3 H4 H5 H6 H7 H8 H9 H10 H11].
  split; try done; cbn [proposals with_proposals logical_tick gv_members effects].
  - intros p [Hp|Hp%list_elem_of_singleton]%elem_of_app; [by apply H5|]. subst p. split; try done; cbn.
    + by rewrite eligibility_voters.
    + intros r' (m & -> & _)%list_elem_of_fmap. cbn. by destruct (member_exclusion _ _ _).
    + constructor.
    + intros v Hv. by apply elem_of_nil in Hv.
    + lia.
    + by exists c.
    + unfold status_decided. cbn [status q deadline_tick]. split; [lia|]. by apply tally_fresh.
  - intros p [Hp|Hp%list_elem_of_singleton]%elem_of_app; [by apply H6|]. subst p. apply eligibility_voters.
  - intros e k He Hau. destruct (H7 e k He Hau) as (p & t & Hf & Hs & Ha). exists p, t. rewrite find_proposal_snoc, Hf. done.
  - intros p t k [Hp|Hp%list_elem_of_singleton]%elem_of_app Hs; [by apply (H10 p t k)|]. by subst p.
Qed.

(** ** Submission *)

Lemma or_restore_Ok {T} (body : M GovernanceState GovernanceError T) s s' x : or_restore body s = (s', Ok x) → body s = (s', Ok x).
Proof. unfold or_restore. destruct (body s) as [s1 [y|e|]]; naive_solver. Qed.

Lemma submit_unchecked_Ok self self' invocation r : submit_unchecked blake3 invocation self = (self', Ok r) →
  let now := with_proposals (with_tick self (gi_logical_tick invocation)) (expired (gi_logical_tick invocation) <$> proposals self) in
  (logical_tick self <= gi_logical_tick invocation)%Z ∧ require_connected_member self (issuer invocation) = Ok tt ∧
  match gc_command (gi_command invocation) with
  | Execute action => execute blake3 invocation action now = (self', Ok r)
  | StartVote action => start_vote blake3 invocation action now = (self', Ok r)
  | Vote id c => cast_vote blake3 invocation id c now = (self', Ok r)
  end.
Proof.
  unfold submit_unchecked. intros Ha. apply M_bind_Ok in Ha as (s1 & ids & [Ht ->]%advance_to_Ok & Ha).
  apply M_bind_Ok in Ha as (s2 & self0 & [-> ->]%read_Ok & Ha). apply M_bind_Ok in Ha as (s3 & [] & [-> Hr]%lift_Ok & Ha).
  split_and!; [done|exact Hr|]. by destruct (gc_command _).
Qed.

Lemma submit_Ok self self' invocation r : submit blake3 invocation self = (self', Ok r) →
  ∃ hash, invocation_hash blake3 invocation = Ok hash ∧
  ((self' = self ∧ ∃ known, known ∈ processed self ∧ pg_command_id known = gi_command_id invocation ∧
      pg_command_hash known = hash ∧ receipt known = r) ∨
   (gi_command_id invocation ∉ (pg_command_id <$> processed self) ∧
    ∃ self1, submit_unchecked blake3 invocation self = (self1, Ok r) ∧
      self' = with_processed self1 (processed self1 ++
        [{| pg_command_id := gi_command_id invocation; pg_command_hash := hash; receipt := r |}]))).
Proof.
  unfold submit. intros Ha. apply M_bind_Ok in Ha as (s1 & u & [-> _]%lift_Ok & Ha).
  apply M_bind_Ok in Ha as (s2 & hash & [-> Hh]%lift_Ok & Ha). apply M_bind_Ok in Ha as (s3 & known & [-> ->]%read_Ok & Ha).
  cbv beta in Ha. exists hash. split; [done|]. destruct (List.find _ _) as [k|] eqn:Hf.
  - apply List_find_Some in Hf as [Hin Hk%bool_decide_eq_true]. case_bool_decide as Hx; [|discriminate Ha].
    apply mret_Ok in Ha as [-> ->]. left. split; [done|]. by exists k.
  - apply M_bind_Ok in Ha as (s4 & now & [-> ->]%read_Ok & Ha). cbv beta in Ha. destruct (_ <? _)%Z; [discriminate Ha|].
    apply M_bind_Ok in Ha as (s5 & x & Hs%or_restore_Ok & Ha). apply M_bind_Ok in Ha as (s6 & u' & ->%update_Ok & [-> ->]%mret_Ok).
    right. split; [|exists s5; split; [exact Hs|reflexivity]]. intros (k & Hk & Hin)%list_elem_of_fmap. rewrite List_find_None in Hf.
    specialize (Hf k Hin). by apply bool_decide_eq_false in Hf.
Qed.

Lemma submit_unchecked_processed self self' invocation r : NoDup (gs_principal_id <$> gv_scores self) →
  submit_unchecked blake3 invocation self = (self', Ok r) → processed self' = processed self.
Proof.
  intros Hn (_ & _ & Ha)%submit_unchecked_Ok. destruct (gc_command _).
  - apply execute_Ok in Ha as (? & ? & _ & _ & _ & Hf & _); [|done]. by apply fields_inv in Hf as (_ & _ & _ & _ & ->).
  - by apply start_vote_Ok in Ha as (? & ? & _ & _ & _ & -> & _).
  - apply cast_vote_Ok in Ha as (? & ? & ? & _ & _ & _ & _ & _ & _ & Hf & _). cbv zeta in Hf. destruct Hf as [? ? ? _ _ He ->| ? _ _ ->|_ ->]; [|done..].
    apply apply_effect_Ok in He as (_ & Hf & _); [|done]. by apply fields_inv in Hf as (_ & _ & _ & _ & Hp).
Qed.

Lemma submit_unchecked_inv self self' invocation r : governance_inv self →
  submit_unchecked blake3 invocation self = (self', Ok r) → governance_inv self'.
Proof.
  intros Hi (Ht & _ & Ha)%submit_unchecked_Ok. cbv zeta in Ha. apply (governance_inv_advance (gi_logical_tick invocation)) in Hi; [|done].
  destruct (gc_command _); [by eapply execute_inv|by eapply start_vote_inv|by eapply cast_vote_inv].
Qed.

Lemma submit_inv self self' invocation r : governance_inv self → submit blake3 invocation self = (self', Ok r) → governance_inv self'.
Proof.
  intros Hi (hash & _ & [[-> _]|(Hnew & self1 & Hs & ->)])%submit_Ok; [done|].
  pose proof (submit_unchecked_processed _ _ _ _ (scores_unique _ Hi) Hs) as Hp.
  apply submit_unchecked_inv in Hs; [|done]. destruct Hs as [H1 H2 H3 H4 H5 H6 H7 H8 H9 H10 H11]. split; try done.
  cbn. rewrite fmap_app. apply NoDup_app. split_and!; [done| |apply NoDup_singleton].
  intros x Hx Hy%list_elem_of_singleton. subst x. rewrite Hp in Hx. done.
Qed.

(** ** Reachable states *)

(** States the public methods reach, with the bootstrap grants made on the way, in order. *)
Inductive governed_by : list CapabilityGrant → GovernanceState → Prop :=
  | governed_by_new principals duration self : (0 <= duration)%Z → governance_new principals duration = Ok self → governed_by [] self
  | governed_by_bootstrap grants self self' who c : governed_by grants self → add_bootstrap_capability who c self = (self', Ok tt) →
      governed_by (grants ++ [{| cg_principal_id := who; capability := c |}]) self'
  | governed_by_connected grants self self' who connected : governed_by grants self →
      set_connected who connected self = (self', Ok tt) → governed_by grants self'
  | governed_by_finding grants self self' audit finding who : governed_by grants self →
      register_confirmed_finding audit finding self = (self', Ok who) → governed_by grants self'
  | governed_by_submit grants self self' invocation r : governed_by grants self →
      submit blake3 invocation self = (self', Ok r) → governed_by grants self'
  | governed_by_advance grants self self' tick ids : governed_by grants self →
      advance_to tick self = (self', Ok ids) → governed_by grants self'.

Definition governed self : Prop := ∃ grants, governed_by grants self.

(** Methods that change only members' connections, capabilities or accusations. *)
Lemma governance_inv_same self self' : governance_inv self → (gm_principal_id <$> gv_members self') = (gm_principal_id <$> gv_members self) →
  gv_scores self' = gv_scores self → logical_tick self' = logical_tick self → vote_duration_ticks self' = vote_duration_ticks self →
  proposals self' = proposals self → effects self' = effects self → processed self' = processed self → governance_inv self'.
Proof.
  intros [H1 H2 H3 H4 H5 H6 H7 H8 H9 H10 H11] Hm Hs Ht Hd Hp He Hpr. split; rewrite ?Hm, ?Hs, ?Ht, ?Hd, ?Hp, ?He, ?Hpr; done.
Qed.

Lemma set_connected_Ok self self' who connected u : set_connected who connected self = (self', Ok u) →
  ∃ ms, self' = with_members self ms ∧ (gm_principal_id <$> ms) = (gm_principal_id <$> gv_members self) ∧
    (∀ k, existsb (λ m, bool_decide (gm_principal_id m = k) && kicked m) ms = is_kicked self k).
Proof.
  unfold set_connected. intros Ha. inv_M. match goal with H : update_first _ _ _ = Some ?ms |- _ => exists ms; split; [done|];
    apply update_first_Some in H as (l1 & m & l2 & Hl & -> & _) end.
  unfold is_kicked. rewrite Hl. split; [by rewrite !fmap_app|]. intros k. by rewrite !existsb_app.
Qed.

Lemma governed_inv self : governed self → governance_inv self.
Proof.
  intros [grants Hg].
  induction Hg as [principals duration self Hd Hn|grants self self' who c _ IH Ha|grants self self' who connected _ IH Ha
    |grants self self' audit finding who _ IH Ha|grants self self' invocation r _ IH Ha|grants self self' tick ids _ IH Ha].
  - unfold governance_new in Hn. cbv zeta in Hn. destruct (_ || _)%bool eqn:Hg; [done|]. injection Hn as <-.
    rewrite !orb_false_iff in Hg. destruct Hg as [[[Hg1 _] _] Hg4%later_pair_key].
    rewrite <-list_fmap_compose, list_fmap_id in Hg4.
    split; cbn [gv_members gv_scores proposals effects processed vote_duration_ticks]; try (by intros ? ?%elem_of_nil);
      try (by intros ? ? ?%elem_of_nil); try (by intros ? ? ? ?%elem_of_nil); try constructor.
    + by rewrite <-list_fmap_compose, list_fmap_id.
    + by rewrite <-!list_fmap_compose.
    + rewrite Forall_fmap. apply Forall_true. intros. cbn. lia.
    + lia.
  - unfold add_bootstrap_capability in Ha. apply M_bind_Ok in Ha as (s & b & [-> ->]%read_Ok & Ha). cbv beta in Ha.
    destruct (_ || _)%bool; [discriminate Ha|]. apply update_Ok in Ha as ->. unfold grant_capability. destruct (has_capability _ _ _); [done|].
    by apply (governance_inv_same self).
  - apply set_connected_Ok in Ha as (ms & -> & Hm & _). by apply (governance_inv_same self).
  - unfold register_confirmed_finding in Ha. inv_M. destruct (negb _); [discriminate Ha|]. inv_M.
    destruct (existsb _ _); [done|]. by apply (governance_inv_same self).
  - by eapply submit_inv.
  - apply advance_to_Ok in Ha as [Ht ->]. by apply governance_inv_advance.
Qed.
End Invariant.
