(* ===== verification/GovernanceTheorems.v ===== *)
(** * Properties of governance

    What every sequence of governance commands keeps and shows, with a governed room as
    the concrete case, and that no method panics. *)

From Stdlib Require Import ZifyBool.
From stdpp Require Import base strings numbers option list.
From S2P Require Import Prelude Methods Protocol Bytes GovernanceWire Retrospective RetrospectiveTheorems Governance GovernanceInvariant.

(** ** Steps *)

Section Steps.
Context `{GovernanceSerde} (blake3 : list Z → list Z).
Implicit Types (self : GovernanceState) (p : GovernanceProposal) (e : GovernanceEffect) (action : GovernedActionWire).

(** What a newly served command does to the effects and the overlay. *)
Inductive served_command self (invocation : GovernanceInvocation) self' : Prop :=
  | served_quiet : effects self' = effects self → gv_scores self' = gv_scores self → gv_members self' = gv_members self →
      capabilities self' = capabilities self → redeal_epoch self' = redeal_epoch self → game_ended self' = game_ended self →
      served_command self invocation self'
  | served_effect e : effects self' = effects self ++ [e] → enacted (ge_action e) self self' →
      match effect_authority e with
      | UnilateralCapability who c => who = issuer invocation ∧ has_capability self who c = true ∧
          gc_command (gi_command invocation) = Execute (ge_action e)
      | ApprovedVote id => ∃ c, gc_command (gi_command invocation) = Vote id c
      end → served_command self invocation self'.

Lemma enacted_from action self self0 self' : gv_members self0 = gv_members self → gv_scores self0 = gv_scores self →
  capabilities self0 = capabilities self → redeal_epoch self0 = redeal_epoch self → game_ended self0 = game_ended self →
  enacted action self0 self' → enacted action self self'.
Proof.
  intros Hm Hs Hc He Hg [E1 E2 E3 E4 E5 E6 E7 E8]. rewrite ?Hm, ?Hs, ?Hc, ?He, ?Hg in *. unfold is_kicked in *. rewrite ?Hm in *. by split.
Qed.

Lemma submit_unchecked_served self self' invocation r : governance_inv blake3 self →
  submit_unchecked blake3 invocation self = (self', Ok r) → served_command self invocation self'.
Proof.
  intros Hi Hs. pose proof (scores_unique _ _ Hi) as Hn. apply submit_unchecked_Ok in Hs as (_ & _ & Ha). cbv zeta in Ha.
  destruct (gc_command (gi_command invocation)) as [action|action|id c] eqn:Hcmd.
  - apply execute_Ok in Ha as (c & eid & _ & Hcap & He & Hf & Hef & _); [|done].
    eapply served_effect; [exact Hef|by eapply enacted_from; [..|exact He]|]. cbn. by split_and!.
  - apply start_vote_Ok in Ha as (eid & c & _ & _ & _ & -> & _). by apply served_quiet.
  - apply cast_vote_Ok in Ha as (i & p & record & Hpos & Hp & _ & _ & _ & _ & Hfin & _). cbv zeta in Hfin.
    destruct Hfin as [eid self1 u _ _ He ->|? _ _ ->|_ ->]; [|by apply served_quiet..].
    apply apply_effect_Ok in He as (He & Hf & Hef); [|done].
    eapply served_effect; [exact Hef| |].
    + eapply (enacted_from _ _ (with_proposals _ _)) in He; [|reflexivity..]. destruct He as [E1 E2 E3 E4 E5 E6 E7 E8]. by split.
    + cbn. destruct (position_find _ _ _ _ Hpos Hp) as (<- & _). by exists c.
Qed.

(** A command either repeats a known one or is served and logged. *)
Lemma submit_served self self' invocation r : governance_inv blake3 self → submit blake3 invocation self = (self', Ok r) →
  self' = self ∨ (∃ r', processed self' = processed self ++ [r']) ∧ require_connected_member self (issuer invocation) = Ok tt ∧
    served_command self invocation self'.
Proof.
  intros Hi (hash & _ & [[-> _]|(_ & self1 & Hs & ->)])%submit_Ok; [by left|right].
  pose proof (submit_unchecked_processed _ _ _ _ _ (scores_unique _ _ Hi) Hs) as Hp.
  pose proof (submit_unchecked_Ok _ _ _ _ _ Hs) as (_ & Hc & _). split; [by eexists; cbn; rewrite Hp|]. split; [done|].
  apply submit_unchecked_served in Hs; [|done].
  destruct Hs as [? ? ? ? ? ?|e ? [E1 E2 E3 E4 E5 E6 E7 E8] ?]; [by apply served_quiet|by eapply served_effect; [|split|]].
Qed.

Lemma restored {T} (body : M GovernanceState GovernanceError T) s s' err : or_restore body s = (s', Err err) → s' = s.
Proof. unfold or_restore. destruct (body s) as [s1 [y|e|]]; naive_solver. Qed.

Lemma M_bind_Err {S E A B} (m : M S E A) (f : A → M S E B) s s' err :
  (m ≫= f) s = (s', Err err) → m s = (s', Err err) ∨ ∃ s1 a, m s = (s1, Ok a) ∧ f a s1 = (s', Err err).
Proof. unfold mbind, M_bind. destruct (m s) as [s1 [a|e'|]]; naive_solver. Qed.

Lemma find_logged id k l : id ∉ (pg_command_id <$> l) → pg_command_id k = id →
  List.find (λ k, bool_decide (pg_command_id k = id)) (l ++ [k]) = Some k.
Proof.
  intros Hn Hk. induction l as [|x l IH]; cbn; [by rewrite bool_decide_eq_true_2|].
  rewrite fmap_cons in Hn. apply not_elem_of_cons in Hn as [Hx Hl]. rewrite bool_decide_eq_false_2 by congruence. by apply IH.
Qed.

(** [C22] Governance commands are atomic and idempotent.  A command or a clock
    advance that fails leaves the state exactly as it was.  A command that succeeds
    succeeds again with the same receipt and without any further change, and a
    different command under its identifier is refused as a conflict. *)
Theorem governance_atomic :
  (∀ invocation self self' err, submit blake3 invocation self = (self', Err err) → self' = self) ∧
  (∀ tick self self' err, advance_to tick self = (self', Err err) → self' = self) ∧
  (∀ invocation self self' r, governed blake3 self → submit blake3 invocation self = (self', Ok r) →
     submit blake3 invocation self' = (self', Ok r) ∧
     ∀ other, gi_command_id other = gi_command_id invocation → governance_command_validate (gi_command other) = Ok tt →
       (∃ hash, invocation_hash blake3 other = Ok hash ∧ invocation_hash blake3 invocation ≠ Ok hash) →
       submit blake3 other self' = (self', Err GvConflictingCommandId)).
Proof using Type.
  split; [|split].
  - intros invocation self self' err Hs. unfold submit in Hs.
    apply M_bind_Err in Hs as [[= <- _]|(s1 & u & [-> _]%lift_Ok & Hs)]; [done|].
    apply M_bind_Err in Hs as [[= <- _]|(s2 & hash & [-> _]%lift_Ok & Hs)]; [done|].
    apply M_bind_Err in Hs as [Hx|(s3 & known & [-> ->]%read_Ok & Hs)]; [discriminate Hx|]. cbv beta in Hs.
    destruct (List.find _ _) as [k|]; [case_bool_decide; [discriminate Hs|by injection Hs]|].
    apply M_bind_Err in Hs as [Hx|(s4 & now & [-> ->]%read_Ok & Hs)]; [discriminate Hx|]. cbv beta in Hs.
    destruct (_ <? _)%Z; [by injection Hs|].
    apply M_bind_Err in Hs as [Hx|(s5 & x & _ & Hs)]; [by apply restored in Hx|].
    apply M_bind_Err in Hs as [Hx|(s6 & u' & _ & Hs)]; [discriminate Hx|discriminate Hs].
  - intros tick self self' err Ha. unfold advance_to in Ha.
    apply M_bind_Err in Ha as [Hx|(s1 & now & [-> ->]%read_Ok & Ha)]; [discriminate Hx|]. cbv beta in Ha.
    destruct (_ <? _)%Z; [by injection Ha|]. by apply restored in Ha.
  - intros invocation self self' r Hg%governed_inv Hs. pose proof (gi_processed _ _ Hg) as Hn.
    pose proof (scores_unique _ _ Hg) as Hsc.
    assert (∃ known hash, invocation_hash blake3 invocation = Ok hash ∧ pg_command_hash known = hash ∧ receipt known = r ∧
      List.find (λ k, bool_decide (pg_command_id k = gi_command_id invocation)) (processed self') = Some known) as (known & hash & Hh & Hkh & Hkr & Hfind).
    { pose proof Hs as (hash & Hh & [[-> (known & Hin & Hid & Hkh & Hkr)]|(Hnew & self1 & Hu & ->)])%submit_Ok.
      - exists known, hash. split_and!; try done. destruct (List.find _ _) as [k|] eqn:Hf.
        + apply List_find_Some in Hf as [Hkin Hk%bool_decide_eq_true]. f_equal.
          apply list_elem_of_lookup in Hin as (i & Hi). apply list_elem_of_lookup in Hkin as (j & Hj).
          rewrite NoDup_alt in Hn. assert (i = j) as -> by (eapply Hn; rewrite list_lookup_fmap; [by rewrite Hi|by rewrite Hj; cbn; congruence]). congruence.
        + rewrite List_find_None in Hf. specialize (Hf known Hin). by apply bool_decide_eq_false in Hf.
      - apply submit_unchecked_processed in Hu as Hp; [|done]. eexists _, hash. split; [done|].
        split; [|split; [|cbn [processed with_processed]; rewrite Hp]]; cycle 2.
        { by apply find_logged. }
        all: done. }
    assert (∀ other, gi_command_id other = gi_command_id invocation → governance_command_validate (gi_command other) = Ok tt →
      ∀ h, invocation_hash blake3 other = Ok h → submit blake3 other self' =
        if bool_decide (pg_command_hash known = h) then (self', Ok (receipt known)) else (self', Err GvConflictingCommandId)) as Hagain.
    { intros other Hid Hv h Hoh. unfold submit. rewrite Hv, Hoh. unfold mbind, M_bind, lift, read, throw. cbn [map_err]. rewrite Hid, Hfind.
      by case_bool_decide. }
    split.
    + assert (governance_command_validate (gi_command invocation) = Ok tt) as Hv.
      { unfold submit in Hs. apply M_bind_Ok in Hs as (s1 & [] & [_ Hv%map_err_Ok]%lift_Ok & _). done. }
      rewrite (Hagain invocation eq_refl Hv hash Hh), bool_decide_eq_true_2 by done. by rewrite Hkr.
    + intros other Hid Hv (h & Hoh & Hne). rewrite (Hagain other Hid Hv h Hoh), bool_decide_eq_false_2; [done|congruence].
Qed.

(** ** The overlay as a function of the effects *)

Definition enacted_actions self : list GovernedActionWire := ge_action <$> effects self.

(** A player's score after actions: the sum of their amendments. *)
Definition score_after (acts : list GovernedActionWire) (who : PrincipalId) : Z :=
  foldr (λ action acc, delta_for who action + acc)%Z 0%Z acts.

Definition redeals_in (acts : list GovernedActionWire) : Z := Z.of_nat (length (List.filter redeals acts)).

(** A bootstrap grant is a grant of the right. *)
Definition grant_action (grant : CapabilityGrant) : GovernedActionWire :=
  ChangeRights (cg_principal_id grant) (capability grant) RightsGrant.

(** The overlay of a state reached with these bootstrap grants. *)
Record overlay (grants : list CapabilityGrant) self : Prop := {
  ov_scores : gv_scores self = (λ who, {| gs_principal_id := who; points := score_after (enacted_actions self) who |}) <$>
    (gm_principal_id <$> gv_members self);
  ov_epoch : redeal_epoch self = redeals_in (enacted_actions self);
  ov_ended : game_ended self = existsb ends_game (enacted_actions self);
  ov_kicked : ∀ who, is_kicked self who =
    existsb (λ action, kicks action who) (enacted_actions self) && bool_decide (who ∈ gm_principal_id <$> gv_members self);
  ov_rights : capabilities self = foldl rights [] ((grant_action <$> grants) ++ enacted_actions self);
  ov_named : ∀ grant, grant ∈ grants → cg_principal_id grant ∈ gm_principal_id <$> gv_members self;
  ov_quiet : processed self = [] → effects self = [];
}.

Lemma score_after_app acts acts' who : score_after (acts ++ acts') who = (score_after acts who + score_after acts' who)%Z.
Proof. induction acts as [|action acts IH]; cbn; [done|]. unfold score_after in *. lia. Qed.

Lemma score_after_snoc acts action who : score_after (acts ++ [action]) who = (score_after acts who + delta_for who action)%Z.
Proof. rewrite score_after_app. unfold score_after at 2. cbn. lia. Qed.

Lemma enacted_actions_app self self' e : effects self' = effects self ++ [e] →
  enacted_actions self' = enacted_actions self ++ [ge_action e].
Proof. unfold enacted_actions. intros ->. by rewrite fmap_app. Qed.

(** Steps that leave effects and overlay fields alone. *)
Lemma overlay_quiet grants self self' : overlay grants self → effects self' = effects self → gv_scores self' = gv_scores self →
  (gm_principal_id <$> gv_members self') = (gm_principal_id <$> gv_members self) →
  (∀ who, is_kicked self' who = is_kicked self who) → capabilities self' = capabilities self →
  redeal_epoch self' = redeal_epoch self → game_ended self' = game_ended self →
  (processed self' = [] → effects self' = []) → overlay grants self'.
Proof.
  intros [H1 H2 H3 H4 H5 H6 H7] He Hs Hm Hk Hc Hr Hg Hp. unfold enacted_actions in *.
  split; unfold enacted_actions; rewrite ?He, ?Hs, ?Hm, ?Hc, ?Hr, ?Hg; try done; [|by rewrite He in Hp].
  intros who. by rewrite Hk, H4, ?Hm.
Qed.

Lemma overlay_enacted grants self self' e : overlay grants self → effects self' = effects self ++ [e] →
  enacted (ge_action e) self self' → processed self' ≠ [] → overlay grants self'.
Proof.
  intros [H1 H2 H3 H4 H5 H6 H7] Hef [E1 E2 E3 E4 E5 E6 E7 E8] Hp. pose proof (enacted_actions_app _ _ _ Hef) as Ha.
  split; rewrite ?Ha; try done.
  - rewrite E3, H1, E1. generalize (gm_principal_id <$> gv_members self). intros ids. clear. induction ids as [|who ids IH]; [done|].
    rewrite !fmap_cons, IH. cbn. by rewrite score_after_snoc.
  - rewrite E6, H2. unfold redeals_in. rewrite List.filter_app, length_app. cbn. destruct (redeals _); cbn; lia.
  - rewrite E7, H3, existsb_app. cbn. by rewrite orb_false_r.
  - intros who. rewrite E2, H4, E1, existsb_app. cbn. rewrite orb_false_r. symmetry. apply andb_orb_distrib_l.
  - by rewrite E5, H5, app_assoc, (foldl_app _ _ [_]).
  - by rewrite E1.
Qed.

Lemma overlay_new principals duration self : governance_new principals duration = Ok self → overlay [] self.
Proof.
  unfold governance_new. cbv zeta. destruct (_ || _)%bool; [done|]. intros [= <-]. split; cbn; try done.
  - rewrite <-!list_fmap_compose. done.
  - intros who. unfold is_kicked. cbn. apply not_true_iff_false. intros (m & Hm & Hk)%existsb_exists.
    apply list_elem_of_In, list_elem_of_fmap in Hm as (x & -> & _). by rewrite andb_false_r in Hk.
  - intros grant Hin. by apply elem_of_nil in Hin.
Qed.

(** A bootstrap grant precedes every effect and is given to a member. *)
Lemma overlay_bootstrap grants self self' who c : overlay grants self → add_bootstrap_capability who c self = (self', Ok tt) →
  overlay (grants ++ [{| cg_principal_id := who; capability := c |}]) self'.
Proof.
  intros [H1 H2 H3 H4 H5 H6 H7] Ha.
  unfold add_bootstrap_capability in Ha. apply M_bind_Ok in Ha as (s & b & [-> ->]%read_Ok & Ha). cbv beta in Ha.
  destruct (_ || _)%bool eqn:Hb; [discriminate Ha|]. apply update_Ok in Ha as ->. apply orb_false_iff in Hb as [Hb Hm].
  apply negb_false_iff, Nat.eqb_eq, nil_length_inv in Hb. pose proof (H7 Hb) as Hef. clear H7.
  assert (enacted_actions self = []) as Hea by (unfold enacted_actions; by rewrite Hef).
  assert (effects (grant_capability self who c) = effects self ∧ gv_members (grant_capability self who c) = gv_members self ∧
    gv_scores (grant_capability self who c) = gv_scores self ∧ redeal_epoch (grant_capability self who c) = redeal_epoch self ∧
    game_ended (grant_capability self who c) = game_ended self) as (He & Hms & Hs & Hr & Hg)
    by (unfold grant_capability; by destruct (has_capability _ _ _)).
  split; unfold enacted_actions, is_kicked in *; rewrite ?He, ?Hms, ?Hs, ?Hr, ?Hg; try done.
  - rewrite Hef. cbn [fmap list_fmap]. rewrite app_nil_r, fmap_app, foldl_app. rewrite Hea, app_nil_r in H5. rewrite <-H5. cbn.
    unfold grant_capability. change (existsb _ _) with (has_capability self who c). by destruct (has_capability self who c).
  - intros grant [Hin|Hin%list_elem_of_singleton]%elem_of_app; [by apply H6|]. subst grant. cbn.
    apply negb_false_iff, existsb_exists in Hm as (m & Hm%list_elem_of_In & Hw). apply andb_true_iff in Hw as [<-%bool_decide_eq_true _].
    by apply list_elem_of_fmap_2.
Qed.

Lemma governed_overlay grants self : governed_by blake3 grants self → overlay grants self.
Proof.
  induction 1 as [principals duration self Hd Hn|grants self self' who c Hg IH Ha|grants self self' who connected Hg IH Ha
    |grants self self' audit finding who Hg IH Ha|grants self self' invocation r Hg IH Ha|grants self self' tick ids Hg IH Ha].
  - by eapply overlay_new.
  - by eapply overlay_bootstrap.
  - apply set_connected_Ok in Ha as (ms & -> & Hm & Hk). eapply overlay_quiet; [exact IH|done|done|exact Hm|exact Hk|done|done|done|apply IH].
  - unfold register_confirmed_finding in Ha. inv_M. destruct (negb _); [discriminate Ha|]. inv_M.
    destruct (existsb _ _); [done|]. eapply overlay_quiet; [exact IH|try done; try apply IH..].
  - apply submit_served in Ha as [->|([r' Hp] & _ & Hs)]; [done| |apply (governed_inv blake3); by exists grants].
    assert (processed self' ≠ []) as Hne by (rewrite Hp; by intros [_ [=]]%app_nil).
    destruct Hs as [He Hsc Hm Hc Hr Hge|e Hef He _]; [|by eapply overlay_enacted].
    eapply overlay_quiet; [exact IH|done|done|by rewrite Hm| |done|done|done|done]. intros who. unfold is_kicked. by rewrite Hm.
  - apply advance_to_Ok in Ha as [_ ->]. eapply overlay_quiet; [exact IH|try done; apply IH..].
Qed.

(** ** Proposals and their identifiers
    A proposal is opened by a command that is then logged, so two proposals have
    different command identifiers. *)

Record commands_logged self : Prop := {
  cl_once : NoDup (gp_command_id <$> proposals self);
  cl_logged : ∀ id, id ∈ gp_command_id <$> proposals self → id ∈ pg_command_id <$> processed self;
}.

Lemma expired_commands tick (l : list GovernanceProposal) : (gp_command_id <$> (expired tick <$> l)) = (gp_command_id <$> l).
Proof. rewrite <-list_fmap_compose. apply list_fmap_ext. intros i p _. cbn. unfold expired. by destruct (_ && _)%bool. Qed.

Lemma replaced_commands i p q (l : list GovernanceProposal) : l !! i = Some p → gp_command_id q = gp_command_id p →
  (gp_command_id <$> <[i := q]> l) = (gp_command_id <$> l).
Proof. intros Hp Hq. rewrite list_fmap_insert, Hq. apply list_insert_id. by rewrite list_lookup_fmap, Hp. Qed.

Lemma submit_unchecked_commands self self' invocation r : NoDup (gs_principal_id <$> gv_scores self) →
  submit_unchecked blake3 invocation self = (self', Ok r) →
  (gp_command_id <$> proposals self') = (gp_command_id <$> proposals self) ∨
  (gp_command_id <$> proposals self') = (gp_command_id <$> proposals self) ++ [gi_command_id invocation].
Proof.
  intros Hn (_ & _ & Ha)%submit_unchecked_Ok. destruct (gc_command _).
  - left. apply execute_Ok in Ha as (? & ? & _ & _ & _ & (_ & _ & _ & -> & _)%fields_inv & _); [|done]. apply expired_commands.
  - right. apply start_vote_Ok in Ha as (? & ? & _ & _ & _ & -> & _). cbn. by rewrite fmap_app, expired_commands.
  - left. etrans; [|apply (expired_commands (gi_logical_tick invocation))].
    apply cast_vote_Ok in Ha as (i & p & record & _ & Hp & _ & _ & _ & _ & Hf & _). cbv zeta in Hf. cbn [proposals with_proposals] in Hp, Hf.
    destruct Hf as [? self1 ? _ _ He ->| ? _ _ ->|_ ->]; cbn [proposals with_proposals].
    + apply apply_effect_Ok in He as (_ & (_ & _ & _ & -> & _)%fields_inv & _); [|done].
      cbn [proposals with_proposals]. rewrite list_insert_insert_eq. by eapply replaced_commands.
    + rewrite list_insert_insert_eq. by eapply replaced_commands.
    + by eapply replaced_commands.
Qed.

Lemma governed_commands self : governed blake3 self → commands_logged self.
Proof.
  intros [grants Hg].
  induction Hg as [principals duration self Hd Hn|grants self self' who c Hg IH Ha|grants self self' who connected Hg IH Ha
    |grants self self' audit finding who Hg IH Ha|grants self self' invocation r Hg IH Ha|grants self self' tick ids Hg IH Ha].
  - unfold governance_new in Hn. cbv zeta in Hn. destruct (_ || _)%bool; [done|]. injection Hn as <-. split; [constructor|done].
  - unfold add_bootstrap_capability in Ha. inv_M. destruct (_ || _)%bool; [discriminate Ha|]. apply update_Ok in Ha as ->.
    unfold grant_capability. destruct (has_capability _ _ _); [done|]. destruct IH. by split.
  - apply set_connected_Ok in Ha as (ms & -> & _). destruct IH. by split.
  - unfold register_confirmed_finding in Ha. inv_M. destruct (negb _); [discriminate Ha|]. inv_M.
    destruct (existsb _ _); [done|]. destruct IH. by split.
  - apply submit_Ok in Ha as (hash & _ & [[-> _]|(Hnew & self1 & Hs & ->)]); [done|].
    assert (NoDup (gs_principal_id <$> gv_scores self)) as Hn by (apply (scores_unique blake3), (governed_inv blake3); by exists grants).
    pose proof (submit_unchecked_processed _ _ _ _ _ Hn Hs) as Hp. destruct IH as [IH1 IH2].
    split; cbn [proposals processed with_processed]; apply submit_unchecked_commands in Hs as [->| ->]; try done; rewrite ?Hp, ?fmap_app.
    + apply NoDup_app. split_and!; [done| |apply NoDup_singleton]. intros id Hid%IH2 ->%list_elem_of_singleton. done.
    + intros id Hid%IH2. apply elem_of_app. by left.
    + intros id [Hid%IH2|Hid]%elem_of_app; apply elem_of_app; [by left|by right].
  - apply advance_to_Ok in Ha as [_ ->]. destruct IH as [IH1 IH2]. split; cbn; by rewrite expired_commands.
Qed.

(** Two proposals with one identifier show two command identifiers that derive it. *)
Lemma proposal_unique self p q : governed blake3 self → p ∈ proposals self → q ∈ proposals self → gp_proposal_id q = gp_proposal_id p →
  q = p ∨ gp_command_id q ≠ gp_command_id p ∧ proposal_id blake3 (gp_command_id q) = proposal_id blake3 (gp_command_id p).
Proof.
  intros Hg Hp Hq Hid. pose proof (governed_commands _ Hg) as [Hn _]. apply governed_inv in Hg.
  destruct (decide (gp_command_id q = gp_command_id p)) as [Hc|Hc]; [left|right; split; [done|]].
  - apply list_elem_of_lookup in Hp as (i & Hi). apply list_elem_of_lookup in Hq as (j & Hj).
    assert (j = i) as ->; [|congruence]. rewrite NoDup_alt in Hn. eapply Hn; rewrite list_lookup_fmap; [by rewrite Hj|by rewrite Hi, Hc].
  - by rewrite (pi_id _ _ _ (gi_proposals _ _ Hg p Hp)), (pi_id _ _ _ (gi_proposals _ _ Hg q Hq)), Hid.
Qed.

(** The clock advances only past a state whose proposals have distinct identifiers. *)
Lemma advance_to_distinct tick self self' ids : advance_to tick self = (self', Ok ids) → NoDup (gp_proposal_id <$> proposals self).
Proof.
  intros Ha. pose proof (advance_to_Ok _ _ _ _ Ha) as [_ Hs]. unfold advance_to in Ha.
  apply M_bind_Ok in Ha as (self1 & now & [-> ->]%read_Ok & Ha). cbv beta in Ha.
  destruct (tick <? logical_tick self)%Z eqn:Ht; [discriminate Ha|]. unfold or_restore in Ha.
  match type of Ha with (match ?m with _ => _ end) = _ => destruct m as [s [x|e|]] eqn:Hm; simplify_eq end.
  inv_M. match goal with H : validate _ = Ok _ |- _ => rename H into Hv end. unfold validate in Hv.
  match goal with H : _ = with_proposals _ _ |- _ => rewrite <-H in Hv end.
  destruct (_ || _)%bool eqn:Hx; [discriminate Hv|]. apply orb_false_iff in Hx as [Hx%later_pair_key _].
  cbn [proposals with_proposals] in Hx. rewrite <-list_fmap_compose in Hx.
  assert ((gp_proposal_id ∘ expired tick <$> proposals self) = (gp_proposal_id <$> proposals self)) as Heq; [|by rewrite <-Heq].
  apply list_fmap_ext. intros i p _. cbn. unfold expired. by destruct (_ && _)%bool.
Qed.

(** ** What governance promises *)

Lemma half_below x y : (x / 2 <? y)%Z = (x <? 2 * y)%Z.
Proof. apply eq_bool_prop_intro. rewrite !Is_true_true, !Z.ltb_lt. pose proof (Z.div_mod x 2). pose proof (Z.mod_pos_bound x 2). lia. Qed.

(** [C20] A reachable proposal's status is the one its votes and its deadline decide.
    Its snapshot lists every member once, a voter votes at most once and is counted
    exactly when the snapshot found them eligible, the recorded tally is the count
    of those votes, and a proposal is pending only while neither side has a
    majority, someone may still vote and the deadline lies ahead. *)
Theorem status_follows_votes self p : governed blake3 self → p ∈ proposals self →
  (er_voter <$> eligibility p) = (gm_principal_id <$> gv_members self) ∧ NoDup (er_voter <$> eligibility p) ∧
  NoDup (voter <$> votes p) ∧
  (∀ v, v ∈ votes p → ∃ r, r ∈ eligibility p ∧ er_voter r = voter v ∧ counted v = bool_decide (exclusion r = None)) ∧
  match status p with
  | Pending => (logical_tick self < deadline_tick p)%Z ∧ undecided (tally_of p)
  | Approved t id => t = tally_of p ∧ (t_eligible t < 2 * approvals t)%Z
  | Rejected t MajorityRejected => t = tally_of p ∧ (t_eligible t < 2 * rejections t)%Z ∧ (2 * approvals t <= t_eligible t)%Z
  | Rejected t AllVotesNoMajority => t = tally_of p ∧ all_voted t ∧
      (2 * approvals t <= t_eligible t)%Z ∧ (2 * rejections t <= t_eligible t)%Z
  | Rejected t DeadlineNoMajority => t = tally_of p ∧ (deadline_tick p <= logical_tick self)%Z ∧ undecided t
  end.
Proof using Type.
  intros Hg%governed_inv Hp. pose proof (gi_snapshots _ _ Hg p Hp) as Hsnap.
  destruct (gi_proposals _ _ Hg p Hp) as [P1 P2 P3 P4 P5 P6 P7 P8 P9]. split_and!; try done.
  - intros v (r & Hr & Hw & Hc & _)%P5. exists r. split_and!; [done..|]. rewrite Hc. specialize (P2 r Hr).
    case_bool_decide; [tauto|]. by destruct (eligible r); [tauto|].
  - unfold status_decided, has_approval_majority, has_rejection_majority in P9. rewrite ?half_below in P9.
    destruct (status p) as [|t id|t []]; [done|..]; rewrite ?half_below in P9; destruct P9 as (-> & Ha & Hx); split; try done.
    + lia.
    + lia.
    + destruct Hx as [Hr Hv]. split; [done|lia].
Qed.

(** [C19] Every enacted effect is backed.  An effect by vote carries the identifier and
    the action of a proposal approved by a majority, and of no other proposal: a second
    one under that identifier would have been opened by a different command identifier
    whose digest collides with the first, and a room that holds two proposals under one
    identifier accepts no new command and no clock advance.  No proposal has two
    effects; conversely an approved proposal has its effect.  An effect by capability
    names the capability its action requires.  A command that adds an effect was issued
    by a connected member, who held that capability if no vote backs it. *)
Theorem effects_backed :
  (∀ self, governed blake3 self →
    (∀ e id, e ∈ effects self → effect_authority e = ApprovedVote id → ∃ p t,
       find_proposal (proposals self) id = Some p ∧ status p = Approved t (effect_id e) ∧ gp_action p = ge_action e ∧
       (t_eligible t < 2 * approvals t)%Z ∧ p ∈ proposals self ∧ gp_proposal_id p = id ∧
       ∀ q, q ∈ proposals self → gp_proposal_id q = id →
         q = p ∨ gp_command_id q ≠ gp_command_id p ∧ proposal_id blake3 (gp_command_id q) = proposal_id blake3 (gp_command_id p)) ∧
    (∀ p t id, p ∈ proposals self → status p = Approved t id →
       ∃ e, e ∈ effects self ∧ effect_id e = id ∧ effect_authority e = ApprovedVote (gp_proposal_id p) ∧ ge_action e = gp_action p) ∧
    NoDup (omap vote_authority (effects self)) ∧
    (∀ e who c, e ∈ effects self → effect_authority e = UnilateralCapability who c → required_capability (ge_action e) = Ok c) ∧
    (¬ NoDup (gp_proposal_id <$> proposals self) →
       (∀ invocation self' r, submit blake3 invocation self = (self', Ok r) → self' = self) ∧
       ∀ tick self' ids, advance_to tick self ≠ (self', Ok ids))) ∧
  (∀ self self' invocation r, governed blake3 self → submit blake3 invocation self = (self', Ok r) →
     effects self' = effects self ∨
     ∃ e, effects self' = effects self ++ [e] ∧ require_connected_member self (issuer invocation) = Ok tt ∧
       match effect_authority e with
       | ApprovedVote id => ∃ c, gc_command (gi_command invocation) = Vote id c
       | UnilateralCapability who c => who = issuer invocation ∧ has_capability self who c = true ∧
           gc_command (gi_command invocation) = Execute (ge_action e)
       end).
Proof using Type.
  split.
  - intros self Hg. pose proof (governed_inv _ _ Hg) as Hi. split_and!; [|apply Hi|apply Hi|apply Hi|].
    + intros e id He Hau. destruct (gi_backed _ _ Hi e id He Hau) as (p & t & Hf & Hs & Ha). exists p, t.
      pose proof (find_proposal_in _ _ _ Hf) as [Hp Hid]. split_and!; [done..| |done|done|].
      * pose proof (pi_status _ _ _ (gi_proposals _ _ Hi p Hp)) as Hd. unfold status_decided in Hd. rewrite Hs in Hd.
        destruct Hd as (_ & Hd & _). unfold has_approval_majority in Hd. rewrite half_below in Hd. lia.
      * intros q Hq Hqid. apply (proposal_unique self); [done..|congruence].
    + intros Hn. split.
      * intros invocation self' r (hash & _ & [[-> _]|(_ & self1 & Hs & _)])%submit_Ok; [done|]. destruct Hn.
        unfold submit_unchecked in Hs. apply M_bind_Ok in Hs as (s1 & ids & Ha & _). by eapply advance_to_distinct.
      * intros tick self' ids Ha. destruct Hn. by eapply advance_to_distinct.
  - intros self self' invocation r Hg%governed_inv Hs. apply submit_served in Hs as [->|(_ & Hc & Hs)]; [by left| |done].
    destruct Hs as [He _ _ _ _ _|e Hef _ Hau]; [by left|]. right. exists e. done.
Qed.

(** [C21] The overlay is a replay of the bootstrap grants and the effects.  In a state
    reached with given bootstrap grants, a player's score is the sum of the enacted
    amendments for them and fits 64 bits, the redeal epoch counts the enacted redeals,
    the game is ended and a member is kicked exactly when an effect did so, and the
    unilateral rights are those that the grants in their order and then the effects in
    theirs make out of none; grants go to members, and all come before the first
    effect. *)
Theorem overlay_replays grants self : governed_by blake3 grants self →
  (∀ who, governed_score self who =
     if bool_decide (who ∈ gm_principal_id <$> gv_members self) then Some (score_after (enacted_actions self) who) else None) ∧
  (∀ who points, governed_score self who = Some points → (- 2 ^ 63 <= points < 2 ^ 63)%Z) ∧
  redeal_epoch self = redeals_in (enacted_actions self) ∧
  game_ended self = existsb ends_game (enacted_actions self) ∧
  (∀ who, is_kicked self who =
     existsb (λ action, kicks action who) (enacted_actions self) && bool_decide (who ∈ gm_principal_id <$> gv_members self)) ∧
  capabilities self = foldl rights [] ((grant_action <$> grants) ++ enacted_actions self) ∧
  (∀ grant, grant ∈ grants → cg_principal_id grant ∈ gm_principal_id <$> gv_members self) ∧
  (effects self ≠ [] → ∀ who c self', add_bootstrap_capability who c self ≠ (self', Ok tt)).
Proof using Type.
  intros Hg. pose proof (governed_overlay _ _ Hg) as [H1 H2 H3 H4 H5 H6 H7].
  assert (governance_inv blake3 self) as Hi by (apply governed_inv; by exists grants). split_and!; try done.
  - intros who. unfold governed_score. rewrite H1. generalize (score_after (enacted_actions self)). intros f. clear.
    induction (gm_principal_id <$> gv_members self) as [|k l IH]; [done|]. cbn.
    destruct (decide (k = who)) as [->|Hne]; [rewrite !bool_decide_eq_true_2 by (done || by left); done|].
    rewrite (bool_decide_eq_false_2 (k = who)) by done. rewrite IH.
    rewrite (bool_decide_ext (who ∈ k :: l) (who ∈ l)); [done|]. rewrite elem_of_cons. naive_solver.
  - intros who n Hn. unfold governed_score in Hn. destruct (List.find _ _) as [s|] eqn:Hf; [|done]. injection Hn as <-.
    apply List_find_Some in Hf as [Hin _]. pose proof (gi_range _ _ Hi) as Hr. rewrite Forall_forall in Hr. by apply Hr.
  - intros Hne who c self' Ha. unfold add_bootstrap_capability in Ha. apply M_bind_Ok in Ha as (s & b & [-> ->]%read_Ok & Ha).
    cbv beta in Ha. destruct (_ || _)%bool eqn:Hb; [discriminate Ha|]. apply orb_false_iff in Hb as [Hb _].
    apply negb_false_iff, Nat.eqb_eq, nil_length_inv in Hb. by apply Hne, H7.
Qed.
End Steps.

(** ** A governed room *)

(** A stand-in for JSON: the witnesses only need equal commands to have equal text. *)
Definition demo_json (command : GovernanceCommandV1) : option (list Z) :=
  Some match gc_command command with
       | Execute _ => [1%Z] | StartVote _ => [2%Z] | Vote id Approve => 3%Z :: text_bytes id | Vote id _ => 4%Z :: text_bytes id
       end.

Definition demo_serde : GovernanceSerde := {| governance_json := demo_json; governance_of_json := λ _, None |}.

Definition demo_invocation (id who : string) (tick : Z) (command : GovernanceCommandWire) : GovernanceInvocation :=
  {| gi_command_id := id; issuer := who; gi_logical_tick := tick;
     gi_command := {| schema_version := GOVERNANCE_COMMAND_VERSION_V1; gc_command := command |} |}.

Definition demo_proposal : ProposalId :=
  match proposal_id demo_digest "open" with Ok id => id | _ => "none" end.

(** Alice proposes to give John five points; two of three members approve. *)
Definition demo_votes : list GovernanceInvocation :=
  [demo_invocation "open" "alice" 1 (StartVote (AdjustScore "john" 5));
   demo_invocation "yes" "alice" 2 (Vote demo_proposal Approve);
   demo_invocation "no" "john" 2 (Vote demo_proposal Reject);
   demo_invocation "yes-too" "mary" 3 (Vote demo_proposal Approve)].

Definition demo_room : outcome GovernanceError GovernanceState := governance_new ["alice"; "john"; "mary"] DEFAULT_VOTE_DURATION_TICKS.

Definition demo_submit (m : outcome GovernanceError GovernanceState) (invocation : GovernanceInvocation) : outcome GovernanceError GovernanceState :=
  self ← m;
  match submit (H := demo_serde) demo_digest invocation self with
  | (self', Ok _) => Ok self'
  | (_, Err e) => Err e
  | (_, Panic) => Panic
  end.

Lemma demo_governed_by grants l m : (∀ self, m = Ok self → governed_by (H := demo_serde) demo_digest grants self) →
  ∀ self, foldl demo_submit m l = Ok self → governed_by (H := demo_serde) demo_digest grants self.
Proof.
  revert m. induction l as [|invocation l IH]; intros m Hm self; [exact (Hm self)|]. apply IH. clear -Hm. intros self.
  unfold demo_submit. intros (s & Hs & Ha)%bind_Ok. destruct (submit _ _ _) as [s' [r|e|]] eqn:Hsub; [|done..].
  injection Ha as <-. eapply governed_by_submit; [by apply Hm|exact Hsub].
Qed.

Lemma demo_room_governed l self : foldl demo_submit demo_room l = Ok self → governed (H := demo_serde) demo_digest self.
Proof.
  intros Hs. exists []. refine (demo_governed_by [] l demo_room _ self Hs). intros s Hr.
  eapply governed_by_new; [|exact Hr]. unfold DEFAULT_VOTE_DURATION_TICKS. lia.
Qed.

Lemma governance_atomic_witness : ∃ self self' r,
  (governed (H := demo_serde) demo_digest self ∧
   submit (H := demo_serde) demo_digest (demo_invocation "open" "alice" 1 (StartVote (AdjustScore "john" 5))) self = (self', Ok r)) ∧
  submit (H := demo_serde) demo_digest (demo_invocation "open" "alice" 1 (StartVote (AdjustScore "john" 5))) self' = (self', Ok r) ∧
  submit (H := demo_serde) demo_digest (demo_invocation "open" "alice" 2 (StartVote (AdjustScore "john" 5))) self'
    = (self', Err GvConflictingCommandId).
Proof.
  set (invocation := demo_invocation "open" "alice" 1 (StartVote (AdjustScore "john" 5))).
  set (other := demo_invocation "open" "alice" 2 (StartVote (AdjustScore "john" 5))).
  assert (match demo_room with Ok self => match submit (H := demo_serde) demo_digest invocation self with (_, Ok _) => true | _ => false end
          | _ => false end = true) as Hc by (vm_compute; reflexivity).
  destruct demo_room as [self|e|] eqn:Hr; [|discriminate Hc..].
  destruct (submit (H := demo_serde) demo_digest invocation self) as [self' [r|e|]] eqn:Hs; [|discriminate Hc..].
  pose proof (demo_room_governed [] self Hr) as Hg.
  destruct (governance_atomic (H := demo_serde) demo_digest) as (_ & _ & Hagain).
  destruct (Hagain invocation self self' r Hg Hs) as [H1 H2].
  exists self, self', r. split; [exact (conj Hg Hs)|]. split; [exact H1|].
  apply H2; [reflexivity|vm_compute; reflexivity|].
  destruct (invocation_hash (H := demo_serde) demo_digest other) as [h|e|] eqn:Hh; [|exfalso; revert Hh; vm_compute; discriminate..].
  exists h. split; [reflexivity|]. rewrite <-Hh. vm_compute. discriminate.
Defined.

Lemma status_follows_votes_witness : ∃ self p t id,
  (governed (H := demo_serde) demo_digest self ∧ p ∈ proposals self) ∧ status p = Approved t id ∧ t = tally_of p ∧
  (t_eligible t < 2 * approvals t)%Z ∧ length (votes p) = 3.
Proof.
  assert (match foldl demo_submit demo_room demo_votes with
          | Ok self => match proposals self with [p] => match status p with Approved _ _ => length (votes p) | _ => 0 end | _ => 0 end
          | _ => 0 end = 3) as Hc by (vm_compute; reflexivity).
  destruct (foldl demo_submit demo_room demo_votes) as [self|e|] eqn:Hr; [|discriminate Hc..].
  pose proof (demo_room_governed _ _ Hr) as Hg.
  destruct (proposals self) as [|p [|q l]] eqn:Hp; [discriminate Hc| |discriminate Hc].
  destruct (status p) as [|t id|t reason] eqn:Hst; [discriminate Hc| |discriminate Hc].
  assert (p ∈ proposals self) as Hin by (rewrite Hp; left).
  destruct (status_follows_votes (H := demo_serde) demo_digest self p Hg Hin) as (_ & _ & _ & _ & Hx).
  rewrite Hst in Hx. exists self, p, t, id. split; [exact (conj Hg Hin)|]. split; [exact Hst|]. split; [apply Hx|]. split; [apply Hx|exact Hc].
Defined.

Lemma effects_backed_witness : ∃ self e id p t,
  (governed (H := demo_serde) demo_digest self ∧ e ∈ effects self ∧ effect_authority e = ApprovedVote id) ∧
  find_proposal (proposals self) id = Some p ∧ status p = Approved t (effect_id e) ∧ gp_action p = AdjustScore "john" 5.
Proof.
  assert (match foldl demo_submit demo_room demo_votes with
          | Ok self => match effects self with
                       | [e] => match effect_authority e with ApprovedVote _ => Some (ge_action e) | _ => None end
                       | _ => None end
          | _ => None end = Some (AdjustScore "john" 5)) as Hc by (vm_compute; reflexivity).
  destruct (foldl demo_submit demo_room demo_votes) as [self|e|] eqn:Hr; [|discriminate Hc..].
  pose proof (demo_room_governed _ _ Hr) as Hg.
  destruct (effects self) as [|e [|e' l]] eqn:He; [discriminate Hc| |discriminate Hc].
  destruct (effect_authority e) as [id|who c] eqn:Hau; [|discriminate Hc]. injection Hc as Hc.
  assert (e ∈ effects self) as Hin by (rewrite He; left).
  destruct (effects_backed (H := demo_serde) demo_digest) as [Hb _].
  destruct (Hb self Hg) as (Hvote & _). destruct (Hvote e id Hin Hau) as (p & t & H1 & H2 & H3 & _).
  exists self, e, id, p, t. split; [exact (conj Hg (conj Hin Hau))|]. split; [exact H1|]. split; [exact H2|]. rewrite H3. exact Hc.
Defined.

(** With a digest that does not tell commands apart, two proposals take one identifier:
    the second is accepted, and then the room refuses votes and the passing of time. *)
Lemma colliding_proposals_stop :
  let step := submit (H := demo_serde) (λ _, repeat 0%Z 32) in
  match demo_room with
  | Ok room =>
      let (one, first) := step (demo_invocation "open" "alice" 1 (StartVote (AdjustScore "john" 5))) room in
      let (two, second) := step (demo_invocation "other" "mary" 1 (StartVote (AdjustScore "mary" 5))) one in
      match first, second with
      | Ok r, Ok r' =>
          gr_proposal_id r = gr_proposal_id r' ∧ length (proposals two) = 2 ∧
          (step (demo_invocation "yes" "alice" 2 (Vote (default "" (gr_proposal_id r)) Approve)) two).2 = Err GvInvariant ∧
          (advance_to 3 two).2 = Err GvInvariant
      | _, _ => False
      end
  | _ => False
  end.
Proof. vm_compute. split_and!; reflexivity. Qed.

(** Alice, given the right to change rights, grants herself score amendments and uses one. *)
Definition demo_grants : list CapabilityGrant := [{| cg_principal_id := "alice"; capability := CapChangeRights |}].

Definition demo_bootstrap : outcome GovernanceError GovernanceState :=
  self ← demo_room;
  match add_bootstrap_capability "alice" CapChangeRights self with
  | (self', Ok _) => Ok self'
  | (_, Err e) => Err e
  | (_, Panic) => Panic
  end.

Definition demo_executions : list GovernanceInvocation :=
  [demo_invocation "grant-score" "alice" 1 (Execute (ChangeRights "alice" CapAdjustScore RightsGrant));
   demo_invocation "score-add" "alice" 2 (Execute (AdjustScore "john" 5))].

Lemma demo_bootstrap_governed self : foldl demo_submit demo_bootstrap demo_executions = Ok self →
  governed_by (H := demo_serde) demo_digest demo_grants self.
Proof.
  intros Hs. refine (demo_governed_by demo_grants demo_executions demo_bootstrap _ self Hs). clear. unfold demo_bootstrap.
  intros self (room & Hroom & Ha)%bind_Ok. destruct (add_bootstrap_capability _ _ _) as [self' [[]|e|]] eqn:Hb; [|done..].
  injection Ha as <-. apply (governed_by_bootstrap _ [] room); [|exact Hb].
  eapply governed_by_new; [|exact Hroom]. unfold DEFAULT_VOTE_DURATION_TICKS. lia.
Qed.

Lemma overlay_replays_witness : ∃ self,
  governed_by (H := demo_serde) demo_digest demo_grants self ∧
  enacted_actions self = [ChangeRights "alice" CapAdjustScore RightsGrant; AdjustScore "john" 5] ∧
  governed_score self "john" = Some 5%Z ∧ redeal_epoch self = 0%Z ∧
  capabilities self = demo_grants ++ [{| cg_principal_id := "alice"; capability := CapAdjustScore |}].
Proof.
  assert (match foldl demo_submit demo_bootstrap demo_executions with
          | Ok self => (enacted_actions self, gm_principal_id <$> gv_members self) | _ => ([], []) end
          = ([ChangeRights "alice" CapAdjustScore RightsGrant; AdjustScore "john" 5], ["alice"; "john"; "mary"])) as Hc by (vm_compute; reflexivity).
  destruct (foldl demo_submit demo_bootstrap demo_executions) as [self|e|] eqn:Hr; [|discriminate Hc..].
  pose proof (demo_bootstrap_governed self Hr) as Hg. injection Hc as Ha Hm.
  destruct (overlay_replays (H := demo_serde) demo_digest demo_grants self Hg) as (Hs & _ & He & _ & _ & Hcap & _).
  exists self. split; [exact Hg|]. split; [exact Ha|]. rewrite Hs, He, Hcap, Ha, Hm. split_and!; vm_compute; reflexivity.
Defined.

(** ** Governance never panics
    In a reachable state of at most 65535 members the 16-bit tallies do not
    overflow and every index and lookup that the methods take for granted exists,
    so every method returns a result or an error. *)


(** ** Methods that do not panic *)

Definition quiet {S E A} (m : M S E A) (s : S) : Prop := (m s).2 ≠ Panic.

Lemma quiet_bind {S E A B} (m : M S E A) (f : A → M S E B) s :
  quiet m s → (∀ s1 a, m s = (s1, Ok a) → quiet (f a) s1) → quiet (m ≫= f) s.
Proof.
  unfold quiet, mbind, M_bind. intros Hm Hf. destruct (m s) as [s1 [a|e|]]; cbn in *; [by apply Hf|done..].
Qed.

Lemma quiet_lift {S E A} (m : outcome E A) (s : S) : m ≠ Panic → quiet (lift m) s.
Proof. done. Qed.

Lemma ok_or_quiet {E A} (m : option A) (e : E) : ok_or m e ≠ Panic.
Proof. by destruct m. Qed.

Lemma map_err_quiet {E E' A} (f : E → E') (m : outcome E A) : m ≠ Panic → map_err f m ≠ Panic.
Proof. by destruct m. Qed.

Lemma bind_quiet {E A B} (m : outcome E A) (f : A → outcome E B) :
  m ≠ Panic → (∀ a, m = Ok a → f a ≠ Panic) → m ≫= f ≠ Panic.
Proof. destruct m; cbn; auto. Qed.

Lemma ensure_quiet {E} b (e : E) : ensure b e ≠ Panic.
Proof. by destruct b. Qed.

Lemma validate_quiet command : governance_command_validate command ≠ Panic.
Proof.
  assert (∀ action, action_validate action ≠ Panic) as Ha.
  { intros [[]| | | |[]]; cbn [action_validate]; (done || apply ensure_quiet). }
  unfold governance_command_validate. destruct (negb _); [done|]. destruct (gc_command _); [apply Ha..|apply ensure_quiet].
Qed.

Lemma identifier_quiet value : identifier_new value ≠ Panic.
Proof. unfold identifier_new. by destruct (is_valid_identifier _). Qed.

(** ** Tallies *)

Definition voters_recorded p : Prop := NoDup (voter <$> votes p) ∧ ∀ v, v ∈ votes p → vote_recorded p v.

Lemma votes_bounded p : voters_recorded p → length (votes p) <= length (eligibility p).
Proof.
  intros [Hn Hr]. rewrite <-(length_fmap voter), <-(length_fmap er_voter). apply submseteq_length, NoDup_submseteq; [done|].
  intros x (v & -> & Hv)%list_elem_of_fmap. destruct (Hr v Hv) as (r & Hin & <- & _). apply list_elem_of_fmap. by exists r.
Qed.

Lemma counted_bounded p : voters_recorded p → length (List.filter counted (votes p)) <= length (eligibility p).
Proof. intros H. etrans; [apply List.filter_length_le|by apply votes_bounded]. Qed.

Lemma chosen_sum l : (chosen Approve l + chosen Reject l + chosen Abstain l = Z.of_nat (length (List.filter counted l)))%Z.
Proof.
  induction l as [|v l IH]; [done|]. rewrite !chosen_cons. cbn [List.filter].
  destruct (counted v); cbn [andb length]; [|lia]. destruct (choice v); repeat case_bool_decide; try done; cbn [Z.b2z]; lia.
Qed.

Definition small p : Prop := (Z.of_nat (length (eligibility p)) <= umax 16)%Z.

Lemma proposal_tally_total p : voters_recorded p → small p → proposal_tally p = Ok (tally_of p).
Proof.
  intros Hv%counted_bounded Hs. unfold small in Hs.
  destruct (tally_exists (votes p) {| t_eligible := u16_or_max (length (List.filter eligible (eligibility p)));
    approvals := 0; rejections := 0; abstentions := 0 |}) as (t & Ht); [done..|cbn; lia|].
  pose proof (proposal_tally_of p t Ht) as ->. exact Ht.
Qed.

Lemma every_voted_quiet p : voters_recorded p → small p → every_eligible_voted (E := GovernanceError) (tally_of p) ≠ Panic.
Proof.
  intros Hv%counted_bounded Hs. unfold small, umax in Hs. pose proof (chosen_sum (votes p)) as Hsum.
  assert (∀ c, 0 <= chosen c (votes p))%Z as Hz by (intros; unfold chosen; lia).
  pose proof (Hz Approve). pose proof (Hz Reject). pose proof (Hz Abstain).
  unfold every_eligible_voted, tally_of. cbn [approvals rejections abstentions t_eligible].
  rewrite u_add_ok by (unfold in_width; lia). cbn [mbind outcome_bind]. rewrite u_add_ok by (unfold in_width; lia). done.
Qed.

(** ** Methods *)

Section Methods.
Context `{GovernanceSerde} (blake3 : list Z → list Z).

Definition fits self : Prop := (Z.of_nat (length (gv_members self)) <= umax 16)%Z.

Lemma inv_small self p : governance_inv blake3 self → fits self → p ∈ proposals self → voters_recorded p ∧ small p.
Proof.
  intros Hi Hf Hp. pose proof (gi_proposals _ _ Hi p Hp) as Hpi. split; [split; apply Hpi|].
  unfold small, fits in *. rewrite <-(length_fmap er_voter), (gi_snapshots _ _ Hi p Hp), length_fmap. done.
Qed.

Lemma derived_quiet kind basis : derived_id blake3 kind basis ≠ Panic.
Proof. apply map_err_quiet, identifier_quiet. Qed.

Lemma required_quiet action : required_capability action ≠ Panic.
Proof. unfold required_capability. by destruct action. Qed.

Lemma mapM_expire_quiet tick l : Forall (λ p, voters_recorded p ∧ small p) l → mapM (expire_proposal tick) l ≠ Panic.
Proof.
  induction 1 as [|p l [Hv Hs] _ IH]; [done|]. cbn. apply bind_quiet; [|intros y _; apply bind_quiet; [done|done]].
  unfold expire_proposal. destruct (_ && _)%bool; [|done]. by rewrite proposal_tally_total.
Qed.

Lemma or_restore_quiet {T} (body : M GovernanceState GovernanceError T) s : quiet body s → quiet (or_restore body) s.
Proof. unfold quiet, or_restore. by destruct (body s) as [s1 [y|e|]]. Qed.

Lemma advance_quiet tick self : governance_inv blake3 self → fits self → quiet (advance_to tick) self.
Proof.
  intros Hi Hf. apply quiet_bind; [done|]. intros s now [-> ->]%read_Ok. cbv beta. destruct (_ <? _)%Z; [done|].
  apply or_restore_quiet. apply quiet_bind; [done|]. intros s1 u ->%update_Ok. apply quiet_bind; [done|]. intros s2 l [-> ->]%read_Ok.
  apply quiet_bind; [|intros s3 results _; apply quiet_bind; [done|]; intros s4 u' _; apply quiet_bind; [done|]; intros s5 self0 _].
  - apply quiet_lift, mapM_expire_quiet, Forall_forall. intros p Hp. cbn in Hp. by eapply inv_small.
  - apply quiet_bind; [|done]. apply quiet_lift. unfold validate. by destruct (_ || _)%bool.
Qed.

Lemma update_first_found {A} (P : A → bool) f l x : List.find P l = Some x → update_first P f l ≠ None.
Proof.
  revert x. induction l as [|y l IH]; cbn; [done|]. intros x. destruct (P y); [done|]. intros Hf%IH. by destruct (update_first P f l).
Qed.

Lemma apply_effect_quiet id action authority self : quiet (apply_effect id action authority) self.
Proof.
  apply quiet_bind; [|done]. destruct action as [| target delta|target c change| |recovery]; [done| | |done|].
  - apply quiet_bind; [done|]. intros s1 found [-> ->]%read_Ok. apply quiet_bind; [apply quiet_lift, ok_or_quiet|].
    intros s2 score [-> Hf]%lift_Ok. apply quiet_bind; [apply quiet_lift, ok_or_quiet|]. intros s3 total [-> _]%lift_Ok.
    apply quiet_bind; [done|]. intros s4 scores [-> ->]%read_Ok. apply quiet_bind; [|done]. apply quiet_lift.
    apply ok_or_Ok, (update_first_found _ (λ score, {| gs_principal_id := gs_principal_id score; points := total |})) in Hf.
    by destruct (update_first _ _ _).
  - apply quiet_bind; [done|]. intros s1 active [-> ->]%read_Ok. cbv beta. destruct (negb _); [done|]. by destruct change.
  - destruct recovery as [|target|].
    + apply quiet_bind; [done|]. intros s1 epoch [-> ->]%read_Ok. apply quiet_bind; [apply quiet_lift, ok_or_quiet|done].
    + apply quiet_bind; [done|]. intros s1 found [-> ->]%read_Ok. apply quiet_bind; [apply quiet_lift, ok_or_quiet|].
      intros s2 ms _. by apply quiet_bind.
    + done.
Qed.

Lemma finalize_quiet i p self : proposals self !! i = Some p → voters_recorded p → small p →
  quiet (maybe_finalize_from_votes blake3 i) self.
Proof.
  intros Hp Hv Hs. apply quiet_bind; [done|]. intros s1 open [-> ->]%read_Ok. rewrite Hp. apply quiet_bind; [done|].
  intros s2 p' [-> [= <-]]%lift_Ok. apply quiet_bind; [apply quiet_lift; by rewrite proposal_tally_total|].
  intros s3 t [-> Ht]%lift_Ok. rewrite proposal_tally_total in Ht by done. injection Ht as <-. cbv beta.
  destruct (has_approval_majority _).
  - apply quiet_bind; [apply quiet_lift, derived_quiet|]. intros s4 id _. apply quiet_bind; [apply apply_effect_quiet|]. done.
  - apply quiet_bind; [|intros s4 [] _; done]. apply quiet_lift. destruct (has_rejection_majority _); [done|by apply every_voted_quiet].
Qed.

Lemma cast_vote_quiet invocation id c self : governance_inv blake3 self → fits self → quiet (cast_vote blake3 invocation id c) self.
Proof.
  intros Hi Hf. apply quiet_bind; [done|]. intros s1 open [-> ->]%read_Ok. apply quiet_bind; [apply quiet_lift, ok_or_quiet|].
  intros s2 i [-> Hpos%ok_or_Ok]%lift_Ok. pose proof (position_spec (λ p, bool_decide (gp_proposal_id p = id)) (proposals self)) as Hx.
  rewrite Hpos in Hx. destruct Hx as (p & Hp & _). rewrite Hp. apply quiet_bind; [done|]. intros s3 p' [-> [= <-]]%lift_Ok.
  destruct (negb _); [done|]. destruct (existsb _ _) eqn:Hex; [done|]. apply quiet_bind; [apply quiet_lift, ok_or_quiet|].
  intros s4 record [-> [Hin Hr%bool_decide_eq_true]%ok_or_Ok%List_find_Some]%lift_Ok. apply quiet_bind; [done|].
  intros s5 u ->%update_Ok. pose proof (inv_small self p Hi Hf (list_elem_of_lookup_2 _ _ _ Hp)) as [[Hn Hv] Hs].
  apply quiet_bind; [|done]. eapply finalize_quiet; [cbn; apply list_lookup_insert_eq; by eapply lookup_lt_Some| |done]. split.
  - cbn. rewrite fmap_app. apply NoDup_app. split_and!; [done| |apply NoDup_singleton].
    intros x (v & -> & Hvin)%list_elem_of_fmap Hx%list_elem_of_singleton. cbn in Hx. rewrite existsb_false_iff, Forall_forall in Hex.
    specialize (Hex v Hvin). by apply bool_decide_eq_false in Hex.
  - intros v [Hvin|Hvin%list_elem_of_singleton]%elem_of_app; [by apply Hv|]. subst v. by exists record.
Qed.

Lemma submit_quiet invocation self : governance_inv blake3 self → fits self → quiet (submit blake3 invocation) self.
Proof.
  intros Hi Hf. apply quiet_bind; [apply quiet_lift, map_err_quiet, validate_quiet|].
  intros s1 u [-> _]%lift_Ok. apply quiet_bind; [apply quiet_lift; unfold invocation_hash|].
  { apply bind_quiet; [|done]. apply map_err_quiet, bind_quiet; [apply validate_quiet|]. intros [] _.
    apply bind_quiet; [apply ok_or_quiet|]. intros bytes _. by destruct (_ <? _). }
  intros s2 hash [-> _]%lift_Ok. apply quiet_bind; [done|]. intros s3 known [-> ->]%read_Ok. cbv beta.
  destruct (List.find _ _); [by case_bool_decide|]. apply quiet_bind; [done|]. intros s4 now [-> ->]%read_Ok. cbv beta.
  destruct (_ <? _)%Z; [done|]. apply quiet_bind; [|done]. apply or_restore_quiet. unfold submit_unchecked.
  apply quiet_bind; [by apply advance_quiet|]. intros s5 ids [Ht ->]%advance_to_Ok. apply quiet_bind; [done|].
  intros s6 self0 [-> ->]%read_Ok. apply quiet_bind.
  { apply quiet_lift. unfold require_connected_member. destruct (List.find _ _); [by destruct (_ && _)%bool|done]. }
  intros s7 u' [-> _]%lift_Ok. destruct (gc_command _) as [action|action|id c].
  - apply quiet_bind; [apply quiet_lift, required_quiet|]. intros s8 c _. apply quiet_bind; [done|]. intros s9 held _.
    destruct (negb _); [done|]. apply quiet_bind; [apply quiet_lift, derived_quiet|]. intros sa id _.
    by apply quiet_bind; [apply apply_effect_quiet|].
  - apply quiet_bind; [apply quiet_lift, required_quiet|]. intros s8 c _. apply quiet_bind; [apply quiet_lift, derived_quiet|].
    intros s9 id _. apply quiet_bind; [done|]. intros sa records _. destruct (negb _); [done|]. apply quiet_bind; [done|].
    intros sb duration _. apply quiet_bind; [apply quiet_lift, ok_or_quiet|done].
  - apply cast_vote_quiet; [by apply governance_inv_advance|done].
Qed.
(** [C23] Governance never panics.  In a reachable state of a room of at most 65535
    members no command, clock advance, connection change, bootstrap grant or
    finding registration panics: 16-bit tallies do not overflow, and the indices and
    lookups the code takes for granted exist.  Every method returns. *)
Theorem governance_never_panics self : governed blake3 self → (Z.of_nat (length (gv_members self)) <= 65535)%Z →
  (∀ invocation, (submit blake3 invocation self).2 ≠ Panic) ∧
  (∀ tick, (advance_to tick self).2 ≠ Panic) ∧
  (∀ who connected, (set_connected who connected self).2 ≠ Panic) ∧
  (∀ who c, (add_bootstrap_capability who c self).2 ≠ Panic) ∧
  (∀ audit finding, (register_confirmed_finding audit finding self).2 ≠ Panic).
Proof using Type.
  intros Hg%governed_inv Hf. split_and!.
  - intros invocation. by apply submit_quiet.
  - intros tick. by apply advance_quiet.
  - intros who connected. apply quiet_bind; [done|]. intros s1 found _. apply quiet_bind; [apply quiet_lift, ok_or_quiet|done].
  - intros who c. apply quiet_bind; [done|]. intros s1 [] _; done.
  - intros audit finding. apply quiet_bind; [apply quiet_lift, ok_or_quiet|]. intros s1 f _.
    apply quiet_bind; [apply quiet_lift, ok_or_quiet|]. intros s2 a _. apply quiet_bind; [done|]. intros s3 [] _; [|done].
    by apply quiet_bind.
Qed.
End Methods.

Lemma governance_never_panics_witness : ∃ self,
  (governed (H := demo_serde) demo_digest self ∧ (Z.of_nat (length (gv_members self)) <= 65535)%Z) ∧
  (submit (H := demo_serde) demo_digest (demo_invocation "late" "mary" 4 (Vote demo_proposal Approve)) self).2 ≠ Panic.
Proof.
  assert (match foldl demo_submit demo_room demo_votes with Ok self => (length (gv_members self) =? 3) | _ => false end = true) as Hc
    by (vm_compute; reflexivity).
  destruct (foldl demo_submit demo_room demo_votes) as [self|e|] eqn:Hr; [|discriminate Hc..].
  pose proof (demo_room_governed _ _ Hr) as Hg. apply Nat.eqb_eq in Hc.
  assert (Z.of_nat (length (gv_members self)) <= 65535)%Z as Hl by (rewrite Hc; lia).
  destruct (governance_never_panics (H := demo_serde) demo_digest self Hg Hl) as (Hs & _).
  exists self. split; [exact (conj Hg Hl)|]. apply Hs.
Defined.
