(* ===== verification/Replication.v ===== *)
(** * The replicated log on the wire (crates/poche-protocol, replication.rs)

    Player roots, device certificates and revocations, consensus candidates, votes
    and commit certificates, replicated events and snapshots, each with its
    validation, and the identifiers and hashes derived from them.  Serde's JSON
    text and BLAKE3 are parameters. *)

From stdpp Require Import base strings numbers option list gmap.
From S2P Require Import Prelude Protocol Bytes.

Notation DeviceId := string (only parsing).
Notation CertificateId := string (only parsing).
Notation SnapshotId := string (only parsing).

Definition REPLICATION_SCHEMA_VERSION_V1 : Z := 1.
Definition REPLICATION_SIGNATURE_DOMAIN_V1 : Z := 1.
Definition MAX_DEVICES_PER_PLAYER : nat := 8.
Definition MAX_REPLICATED_COMMANDS : nat := 64.

(** ["POCHE\0<name>\0V1"] *)
Definition signing_domain (name : string) : list Z := text_bytes "POCHE" ++ [0%Z] ++ text_bytes name ++ [0%Z] ++ text_bytes "V1".

Definition CERTIFICATE_DOMAIN : list Z := signing_domain "DEVICE-CERTIFICATE".
Definition REVOCATION_DOMAIN : list Z := signing_domain "DEVICE-REVOCATION".
Definition CANDIDATE_BODY_DOMAIN : list Z := signing_domain "REPLICATED-CANDIDATE-BODY".
Definition CANDIDATE_SIGNATURE_DOMAIN : list Z := signing_domain "REPLICATED-CANDIDATE".
Definition VOTE_DOMAIN : list Z := signing_domain "REPLICATED-VOTE".
Definition COMMIT_DOMAIN : list Z := signing_domain "REPLICATED-COMMIT".
Definition SNAPSHOT_DOMAIN : list Z := signing_domain "REPLICATED-SNAPSHOT".

Inductive ReplicationWireError : Type :=
  | UnknownVersion | IdentityBinding | InvalidCertificate | InvalidRevocation | InvalidCapabilities
  | InvalidRootSignatureIntent | InvalidMembershipTransition | InvalidCandidate | InvalidVote
  | InvalidCommitCertificate | InvalidReplicatedEvent | InvalidSnapshot | Encoding.

(** ** Data *)

Record PlayerRootWire : Type := { pr_schema_version : Z; pr_player_id : PrincipalId; signing_public_key : string }.

Inductive DeviceCustodyWire : Type := NativeLocal | BrowserLocal | GatewayCustodied | LegacySelf.

Inductive DeviceCapabilityWire : Type :=
  | Propose | CanVote | ReceivePrivateProjection | RequestDeviceChange | RequestCapture | ProvideCapture.

Record DeviceSignatureIntentWire : Type := {
  di_domain_version : Z; di_algorithm : SignatureAlgorithm; di_key_id : DeviceId;
}.

Record DeviceSignatureMetadataWire : Type := {
  ds_domain_version : Z; ds_algorithm : SignatureAlgorithm; ds_key_id : DeviceId; ds_signature : SignatureBytes;
}.

Definition device_intent (self : DeviceSignatureMetadataWire) : DeviceSignatureIntentWire :=
  {| di_domain_version := ds_domain_version self; di_algorithm := ds_algorithm self; di_key_id := ds_key_id self |}.

Record UnsignedDeviceCertificateWire : Type := {
  uc_schema_version : Z; uc_certificate_id : CertificateId; uc_player_id : PrincipalId; uc_device_id : DeviceId;
  uc_device_signing_public_key : string; uc_device_encryption_public_key : string; uc_sequence : Z;
  uc_valid_from : Z; uc_valid_through : option Z; uc_capabilities : list DeviceCapabilityWire;
  uc_custody : DeviceCustodyWire; uc_signature_intent : SignatureIntent;
}.

Record DeviceCertificateWire : Type := {
  dc_schema_version : Z; certificate_id : CertificateId; dc_player_id : PrincipalId; device_id : DeviceId;
  device_signing_public_key : string; device_encryption_public_key : string; dc_sequence : Z;
  valid_from_membership_epoch : Z; valid_through_membership_epoch : option Z;
  dc_capabilities : list DeviceCapabilityWire; custody : DeviceCustodyWire; dc_signature : SignatureMetadata;
}.

Record UnsignedDeviceRevocationWire : Type := {
  ur_schema_version : Z; ur_player_id : PrincipalId; ur_device_id : DeviceId; ur_certificate_sequence : Z;
  ur_effective_membership_epoch : Z; ur_signature_intent : SignatureIntent;
}.

Record DeviceRevocationWire : Type := {
  dr_schema_version : Z; dr_player_id : PrincipalId; dr_device_id : DeviceId; certificate_sequence : Z;
  effective_membership_epoch : Z; dr_signature : SignatureMetadata;
}.

Record ReplicatedCommandRefWire : Type := { rc_command_id : CommandId; semantic_hash : SemanticHash }.

Record MembershipTransitionWire : Type := {
  next_membership_epoch : Z; active_players : list PrincipalId; revoked_devices : list DeviceId;
}.

Record ConsensusCandidateBodyWire : Type := {
  cb_schema_version : Z; cb_room_id : RoomId; cb_membership_epoch : Z; parent_event_id : option EventId;
  parent_event_hash : SemanticHash; cb_height : Z; cb_round : Z; proposer_player_id : PrincipalId;
  proposer_device_id : DeviceId; ordered_commands : list ReplicatedCommandRefWire;
  membership_transition : option MembershipTransitionWire;
}.

Record UnsignedConsensusCandidateWire : Type := {
  uk_body : ConsensusCandidateBodyWire; uk_proposal_id : string; uk_signature_intent : DeviceSignatureIntentWire;
}.

Record ConsensusCandidateWire : Type := {
  body : ConsensusCandidateBodyWire; cw_proposal_id : string; cw_signature : DeviceSignatureMetadataWire;
}.

Inductive ConsensusVotePhaseWire : Type := Prevote | Precommit.

Inductive ConsensusValueWire : Type := Nil | Candidate (hash : SemanticHash).

Record UnsignedConsensusVoteWire : Type := {
  uv_schema_version : Z; uv_room_id : RoomId; uv_membership_epoch : Z; uv_height : Z; uv_round : Z;
  uv_phase : ConsensusVotePhaseWire; uv_value : ConsensusValueWire; uv_voter_player_id : PrincipalId;
  uv_voter_device_id : DeviceId; uv_lock_round : option Z; uv_lock_proof_hash : option SemanticHash;
  uv_signature_intent : DeviceSignatureIntentWire;
}.

Record ConsensusVoteWire : Type := {
  cv_schema_version : Z; cv_room_id : RoomId; cv_membership_epoch : Z; cv_height : Z; cv_round : Z;
  phase : ConsensusVotePhaseWire; value : ConsensusValueWire; voter_player_id : PrincipalId;
  voter_device_id : DeviceId; lock_round : option Z; lock_proof_hash : option SemanticHash;
  cv_signature : DeviceSignatureMetadataWire;
}.

Record CommitCertificateWire : Type := {
  cc_schema_version : Z; cc_room_id : RoomId; cc_membership_epoch : Z; cc_height : Z; cc_round : Z;
  candidate_hash : SemanticHash; precommits : list ConsensusVoteWire;
}.

Record ReplicatedEventWire : Type := {
  re_schema_version : Z; re_event_id : EventId; candidate : ConsensusCandidateWire;
  certificate : CommitCertificateWire; successor_state_hash : SemanticHash;
}.

Record ReplicatedSnapshotWire : Type := {
  rs_schema_version : Z; snapshot_id : SnapshotId; rs_room_id : RoomId; rs_membership_epoch : Z; rs_height : Z;
  rs_head_event_id : EventId; rs_head_event_hash : SemanticHash; state_schema_hash : SemanticHash;
  state_hash : SemanticHash; rs_commit_certificate_hash : SemanticHash;
}.

#[export] Instance DeviceCustodyWire_eq_dec : EqDecision DeviceCustodyWire.
Proof. solve_decision. Defined.
#[export] Instance DeviceCapabilityWire_eq_dec : EqDecision DeviceCapabilityWire.
Proof. solve_decision. Defined.
#[export] Instance SignatureAlgorithm_eq_dec : EqDecision SignatureAlgorithm.
Proof. solve_decision. Defined.
#[export] Instance SignatureMetadata_eq_dec : EqDecision SignatureMetadata.
Proof. solve_decision. Defined.
#[export] Instance DeviceSignatureMetadataWire_eq_dec : EqDecision DeviceSignatureMetadataWire.
Proof. solve_decision. Defined.
#[export] Instance ReplicatedCommandRefWire_eq_dec : EqDecision ReplicatedCommandRefWire.
Proof. solve_decision. Defined.
#[export] Instance MembershipTransitionWire_eq_dec : EqDecision MembershipTransitionWire.
Proof. solve_decision. Defined.
#[export] Instance ConsensusCandidateBodyWire_eq_dec : EqDecision ConsensusCandidateBodyWire.
Proof. solve_decision. Defined.
#[export] Instance ConsensusCandidateWire_eq_dec : EqDecision ConsensusCandidateWire.
Proof. solve_decision. Defined.
#[export] Instance ConsensusVotePhaseWire_eq_dec : EqDecision ConsensusVotePhaseWire.
Proof. solve_decision. Defined.
#[export] Instance ConsensusValueWire_eq_dec : EqDecision ConsensusValueWire.
Proof. solve_decision. Defined.
#[export] Instance ConsensusVoteWire_eq_dec : EqDecision ConsensusVoteWire.
Proof. solve_decision. Defined.
#[export] Instance CommitCertificateWire_eq_dec : EqDecision CommitCertificateWire.
Proof. solve_decision. Defined.
#[export] Instance ReplicatedEventWire_eq_dec : EqDecision ReplicatedEventWire.
Proof. solve_decision. Defined.

(** The derived order of capabilities: their declaration order *)
Definition capability_index (c : DeviceCapabilityWire) : Z :=
  match c with
  | Propose => 0 | CanVote => 1 | ReceivePrivateProjection => 2 | RequestDeviceChange => 3 | RequestCapture => 4 | ProvideCapture => 5
  end.

#[export] Program Instance capability_order : StrictOrder DeviceCapabilityWire :=
  {| ltb c d := (capability_index c <? capability_index d)%Z |}.
Next Obligation. intros. apply Z.ltb_irrefl. Qed.
Next Obligation. intros x y z. rewrite !Z.ltb_lt. lia. Qed.
Next Obligation. by intros [] []. Qed.

(** ** Validation *)

Definition is_public_key (value : string) : bool := (String.length value =? 64) && forallb signature_byte (text_bytes value).

Definition validate_root_intent (sig : SignatureIntent) (player : PrincipalId) : outcome ReplicationWireError unit :=
  ensure ((intent_domain_version sig =? REPLICATION_SIGNATURE_DOMAIN_V1)%Z &&
          match intent_algorithm sig with Ed25519 => true end &&
          bool_decide (intent_key_id sig = player)) InvalidRootSignatureIntent.

Definition validate_capabilities (capabilities : list DeviceCapabilityWire) : outcome ReplicationWireError unit :=
  if (length capabilities =? 0) || (6 <? length capabilities) || negb (windows2 ltb capabilities)
  then Err InvalidCapabilities else Ok tt.

Definition command_key (c : ReplicatedCommandRefWire) : list Z * string := (hash_bytes (semantic_hash c), rc_command_id c).

Definition commands_are_canonical (commands : list ReplicatedCommandRefWire) : bool :=
  forallb (λ c, is_valid_identifier (rc_command_id c)) commands &&
  windows2 (λ a b, ltb (command_key a) (command_key b)) commands.

Definition root_validate (self : PlayerRootWire) : outcome ReplicationWireError unit :=
  if negb (pr_schema_version self =? REPLICATION_SCHEMA_VERSION_V1)%Z then Err UnknownVersion
  else if negb (is_public_key (signing_public_key self)) || bool_decide (pr_player_id self ≠ signing_public_key self)
  then Err IdentityBinding
  else Ok tt.

Definition unsigned_certificate_validate (self : UnsignedDeviceCertificateWire) : outcome ReplicationWireError unit :=
  if negb (uc_schema_version self =? REPLICATION_SCHEMA_VERSION_V1)%Z then Err UnknownVersion
  else if negb (is_valid_identifier (uc_certificate_id self)) ||
          negb (is_public_key (uc_device_signing_public_key self)) ||
          negb (is_public_key (uc_device_encryption_public_key self)) ||
          bool_decide (uc_device_signing_public_key self = uc_device_encryption_public_key self) ||
          bool_decide (uc_device_id self ≠ uc_device_signing_public_key self) ||
          (uc_sequence self =? 0)%Z || (uc_valid_from self =? 0)%Z ||
          is_some_and (uc_valid_through self) (λ through, through <? uc_valid_from self)%Z
  then Err InvalidCertificate
  else
    _ ← validate_capabilities (uc_capabilities self);
    validate_root_intent (uc_signature_intent self) (uc_player_id self).

Definition certificate_unsigned (self : DeviceCertificateWire) : UnsignedDeviceCertificateWire :=
  {| uc_schema_version := dc_schema_version self; uc_certificate_id := certificate_id self;
     uc_player_id := dc_player_id self; uc_device_id := device_id self;
     uc_device_signing_public_key := device_signing_public_key self;
     uc_device_encryption_public_key := device_encryption_public_key self; uc_sequence := dc_sequence self;
     uc_valid_from := valid_from_membership_epoch self; uc_valid_through := valid_through_membership_epoch self;
     uc_capabilities := dc_capabilities self; uc_custody := custody self;
     uc_signature_intent := intent (dc_signature self) |}.

Definition certificate_validate (self : DeviceCertificateWire) : outcome ReplicationWireError unit :=
  unsigned_certificate_validate (certificate_unsigned self).

Definition attach_root (sig : SignatureIntent) (text : SignatureBytes) : SignatureMetadata :=
  {| domain_version := intent_domain_version sig; algorithm := intent_algorithm sig; key_id := intent_key_id sig;
     signature_text := text |}.

Definition certificate_attach_signature (self : UnsignedDeviceCertificateWire) (text : SignatureBytes)
    : outcome ReplicationWireError DeviceCertificateWire :=
  _ ← unsigned_certificate_validate self;
  let signed := {| dc_schema_version := uc_schema_version self; certificate_id := uc_certificate_id self;
     dc_player_id := uc_player_id self; device_id := uc_device_id self;
     device_signing_public_key := uc_device_signing_public_key self;
     device_encryption_public_key := uc_device_encryption_public_key self; dc_sequence := uc_sequence self;
     valid_from_membership_epoch := uc_valid_from self; valid_through_membership_epoch := uc_valid_through self;
     dc_capabilities := uc_capabilities self; custody := uc_custody self;
     dc_signature := attach_root (uc_signature_intent self) text |} in
  _ ← certificate_validate signed;
  Ok signed.

Definition is_valid_at (self : DeviceCertificateWire) (epoch : Z) : bool :=
  (valid_from_membership_epoch self <=? epoch)%Z &&
  match valid_through_membership_epoch self with Some through => (epoch <=? through)%Z | None => true end.

Definition device_has (self : DeviceCertificateWire) (c : DeviceCapabilityWire) : bool := search_ok c (dc_capabilities self).

Definition unsigned_revocation_validate (self : UnsignedDeviceRevocationWire) : outcome ReplicationWireError unit :=
  if negb (ur_schema_version self =? REPLICATION_SCHEMA_VERSION_V1)%Z then Err UnknownVersion
  else if negb (is_valid_identifier (ur_device_id self)) || (ur_certificate_sequence self =? 0)%Z ||
          (ur_effective_membership_epoch self =? 0)%Z
  then Err InvalidRevocation
  else validate_root_intent (ur_signature_intent self) (ur_player_id self).

Definition revocation_unsigned (self : DeviceRevocationWire) : UnsignedDeviceRevocationWire :=
  {| ur_schema_version := dr_schema_version self; ur_player_id := dr_player_id self; ur_device_id := dr_device_id self;
     ur_certificate_sequence := certificate_sequence self;
     ur_effective_membership_epoch := effective_membership_epoch self;
     ur_signature_intent := intent (dr_signature self) |}.

Definition revocation_validate (self : DeviceRevocationWire) : outcome ReplicationWireError unit :=
  unsigned_revocation_validate (revocation_unsigned self).

Definition revocation_attach_signature (self : UnsignedDeviceRevocationWire) (text : SignatureBytes)
    : outcome ReplicationWireError DeviceRevocationWire :=
  _ ← unsigned_revocation_validate self;
  Ok {| dr_schema_version := ur_schema_version self; dr_player_id := ur_player_id self; dr_device_id := ur_device_id self;
        certificate_sequence := ur_certificate_sequence self;
        effective_membership_epoch := ur_effective_membership_epoch self;
        dr_signature := attach_root (ur_signature_intent self) text |}.

(** [u64::saturating_add] *)
Definition saturating_succ (n : Z) : Z := Z.min (n + 1) (umax 64).

Definition transition_validate (self : MembershipTransitionWire) (current_epoch : Z) : outcome ReplicationWireError unit :=
  if negb (next_membership_epoch self =? saturating_succ current_epoch)%Z || (length (active_players self) <? 2) ||
     negb (strict_sorted_unique (active_players self)) || negb (strict_sorted_unique (revoked_devices self))
  then Err InvalidMembershipTransition else Ok tt.

Definition body_validate (self : ConsensusCandidateBodyWire) : outcome ReplicationWireError unit :=
  if negb (cb_schema_version self =? REPLICATION_SCHEMA_VERSION_V1)%Z || negb (is_valid_identifier (cb_room_id self)) ||
     (cb_membership_epoch self =? 0)%Z || (cb_height self =? 0)%Z || (length (ordered_commands self) =? 0) ||
     (MAX_REPLICATED_COMMANDS <? length (ordered_commands self)) || negb (commands_are_canonical (ordered_commands self))
  then Err InvalidCandidate
  else if (cb_height self =? 1)%Z && match parent_event_id self with Some _ => true | None => false end ||
          (1 <? cb_height self)%Z && match parent_event_id self with Some _ => false | None => true end
  then Err InvalidCandidate
  else match membership_transition self with
       | Some transition => transition_validate transition (cb_membership_epoch self)
       | None => Ok tt
       end.

Definition unsigned_vote_validate (self : UnsignedConsensusVoteWire) : outcome ReplicationWireError unit :=
  if negb (uv_schema_version self =? REPLICATION_SCHEMA_VERSION_V1)%Z || (uv_membership_epoch self =? 0)%Z ||
     (uv_height self =? 0)%Z || negb (di_domain_version (uv_signature_intent self) =? REPLICATION_SIGNATURE_DOMAIN_V1)%Z ||
     match di_algorithm (uv_signature_intent self) with Ed25519 => false end ||
     bool_decide (di_key_id (uv_signature_intent self) ≠ uv_voter_device_id self) ||
     xorb (match uv_lock_round self with Some _ => true | None => false end)
          (match uv_lock_proof_hash self with Some _ => true | None => false end) ||
     is_some_and (uv_lock_round self) (λ locked, uv_round self <=? locked)%Z
  then Err InvalidVote else Ok tt.

Definition vote_unsigned (self : ConsensusVoteWire) : UnsignedConsensusVoteWire :=
  {| uv_schema_version := cv_schema_version self; uv_room_id := cv_room_id self;
     uv_membership_epoch := cv_membership_epoch self; uv_height := cv_height self; uv_round := cv_round self;
     uv_phase := phase self; uv_value := value self; uv_voter_player_id := voter_player_id self;
     uv_voter_device_id := voter_device_id self; uv_lock_round := lock_round self;
     uv_lock_proof_hash := lock_proof_hash self; uv_signature_intent := device_intent (cv_signature self) |}.

Definition vote_validate (self : ConsensusVoteWire) : outcome ReplicationWireError unit :=
  unsigned_vote_validate (vote_unsigned self).

Definition attach_device (sig : DeviceSignatureIntentWire) (text : SignatureBytes) : DeviceSignatureMetadataWire :=
  {| ds_domain_version := di_domain_version sig; ds_algorithm := di_algorithm sig; ds_key_id := di_key_id sig;
     ds_signature := text |}.

Definition vote_attach_signature (self : UnsignedConsensusVoteWire) (text : SignatureBytes)
    : outcome ReplicationWireError ConsensusVoteWire :=
  _ ← unsigned_vote_validate self;
  Ok {| cv_schema_version := uv_schema_version self; cv_room_id := uv_room_id self;
        cv_membership_epoch := uv_membership_epoch self; cv_height := uv_height self; cv_round := uv_round self;
        phase := uv_phase self; value := uv_value self; voter_player_id := uv_voter_player_id self;
        voter_device_id := uv_voter_device_id self; lock_round := uv_lock_round self;
        lock_proof_hash := uv_lock_proof_hash self; cv_signature := attach_device (uv_signature_intent self) text |}.

(** One precommit of [CommitCertificateWire::validate], with the players seen before it *)
Definition precommit_validate (self : CommitCertificateWire) (players : gset PrincipalId) (vote : ConsensusVoteWire)
    : outcome ReplicationWireError (gset PrincipalId) :=
  _ ← vote_validate vote;
  if bool_decide (cv_room_id vote ≠ cc_room_id self) || negb (cv_membership_epoch vote =? cc_membership_epoch self)%Z ||
     negb (cv_height vote =? cc_height self)%Z || negb (cv_round vote =? cc_round self)%Z ||
     bool_decide (phase vote ≠ Precommit) || bool_decide (value vote ≠ Candidate (candidate_hash self)) ||
     bool_decide (voter_player_id vote ∈ players)
  then Err InvalidCommitCertificate
  else Ok ({[ voter_player_id vote ]} ∪ players).

Definition commit_validate (self : CommitCertificateWire) : outcome ReplicationWireError unit :=
  if negb (cc_schema_version self =? REPLICATION_SCHEMA_VERSION_V1)%Z || (cc_membership_epoch self =? 0)%Z ||
     (cc_height self =? 0)%Z || (length (precommits self) =? 0)
  then Err InvalidCommitCertificate
  else
    _ ← foldM (precommit_validate self) (precommits self) ∅;
    Ok tt.

Definition unique_player_votes (self : CommitCertificateWire) : nat :=
  size (list_to_set (voter_player_id <$> precommits self) : gset PrincipalId).

Definition snapshot_validate (self : ReplicatedSnapshotWire) : outcome ReplicationWireError unit :=
  if negb (rs_schema_version self =? REPLICATION_SCHEMA_VERSION_V1)%Z || negb (is_valid_identifier (snapshot_id self)) ||
     (rs_membership_epoch self =? 0)%Z || (rs_height self =? 0)%Z
  then Err InvalidSnapshot else Ok tt.

Definition replicated_quorum (player_count : nat) : nat := player_count / 2 + 1.

Definition encode_json_domain (domain : list Z) (json : option (list Z)) : outcome ReplicationWireError (list Z) :=
  json ← ok_or json Encoding;
  length ← ok_or (checked 64 (Z.of_nat (length json))) Encoding;
  Ok (domain ++ be_bytes 8 length ++ json).

(** [derived_id]: a prefix and 28 bytes of a hash *)
Definition derive_prefixed_id (prefix : string) (hash : list Z) : outcome ReplicationWireError string :=
  map_err (λ _, Encoding) (identifier_new (prefix +:+ "." +:+ hex (take 28 hash))).

Definition derive_replicated_event_id (hash : SemanticHash) : outcome ReplicationWireError EventId :=
  derive_prefixed_id "re" (hash_bytes hash).

Definition legacy_self_device_certificate (root : PlayerRootWire) : outcome ReplicationWireError UnsignedDeviceCertificateWire :=
  _ ← root_validate root;
  id ← map_err (λ _, InvalidCertificate) (identifier_new "legacy-self-1");
  device ← map_err (λ _, IdentityBinding) (identifier_new (signing_public_key root));
  let result := {| uc_schema_version := REPLICATION_SCHEMA_VERSION_V1; uc_certificate_id := id;
     uc_player_id := pr_player_id root; uc_device_id := device; uc_device_signing_public_key := signing_public_key root;
     uc_device_encryption_public_key := text_repeat "ee" 32; uc_sequence := 1; uc_valid_from := 1;
     uc_valid_through := None;
     uc_capabilities := [Propose; CanVote; ReceivePrivateProjection; RequestDeviceChange];
     uc_custody := LegacySelf;
     uc_signature_intent := {| intent_domain_version := REPLICATION_SIGNATURE_DOMAIN_V1; intent_algorithm := Ed25519;
                               intent_key_id := pr_player_id root |} |} in
  _ ← unsigned_certificate_validate result;
  Ok result.

(** ** Canonical bytes and derived hashes *)

(** [serde_json::to_vec] of the signed and hashed shapes *)
Class ReplicationSerde : Type := {
  certificate_json : UnsignedDeviceCertificateWire → option (list Z);
  revocation_json : UnsignedDeviceRevocationWire → option (list Z);
  body_json : ConsensusCandidateBodyWire → option (list Z);
  candidate_json : UnsignedConsensusCandidateWire → option (list Z);
  vote_json : UnsignedConsensusVoteWire → option (list Z);
  commit_json : CommitCertificateWire → option (list Z);
  snapshot_json : ReplicatedSnapshotWire → option (list Z);
}.

Section Hashes.
Context `{ReplicationSerde} (blake3 : list Z → list Z).

Definition hash_of (bytes : list Z) : SemanticHash := SemanticHashOf (blake3 bytes).

Definition consensus_candidate_hash (b : ConsensusCandidateBodyWire) : outcome ReplicationWireError SemanticHash :=
  _ ← body_validate b;
  bytes ← encode_json_domain CANDIDATE_BODY_DOMAIN (body_json b);
  Ok (hash_of bytes).

Definition derive_replicated_proposal_id (b : ConsensusCandidateBodyWire) : outcome ReplicationWireError string :=
  hash ← consensus_candidate_hash b;
  derive_prefixed_id "rp" (hash_bytes hash).

Definition unsigned_candidate_validate (self : UnsignedConsensusCandidateWire) : outcome ReplicationWireError unit :=
  _ ← body_validate (uk_body self);
  proposal ← derive_replicated_proposal_id (uk_body self);
  if bool_decide (uk_proposal_id self ≠ proposal) ||
     negb (di_domain_version (uk_signature_intent self) =? REPLICATION_SIGNATURE_DOMAIN_V1)%Z ||
     match di_algorithm (uk_signature_intent self) with Ed25519 => false end ||
     bool_decide (di_key_id (uk_signature_intent self) ≠ proposer_device_id (uk_body self))
  then Err InvalidCandidate else Ok tt.

Definition candidate_unsigned (self : ConsensusCandidateWire) : UnsignedConsensusCandidateWire :=
  {| uk_body := body self; uk_proposal_id := cw_proposal_id self; uk_signature_intent := device_intent (cw_signature self) |}.

Definition candidate_validate (self : ConsensusCandidateWire) : outcome ReplicationWireError unit :=
  unsigned_candidate_validate (candidate_unsigned self).

Definition candidate_attach_signature (self : UnsignedConsensusCandidateWire) (text : SignatureBytes)
    : outcome ReplicationWireError ConsensusCandidateWire :=
  _ ← unsigned_candidate_validate self;
  Ok {| body := uk_body self; cw_proposal_id := uk_proposal_id self; cw_signature := attach_device (uk_signature_intent self) text |}.

Definition event_validate (self : ReplicatedEventWire) : outcome ReplicationWireError unit :=
  let b := body (candidate self) in
  let c := certificate self in
  _ ← candidate_validate (candidate self);
  _ ← commit_validate c;
  hash ← consensus_candidate_hash b;
  if negb (re_schema_version self =? REPLICATION_SCHEMA_VERSION_V1)%Z then Err InvalidReplicatedEvent
  else
    id ← derive_replicated_event_id hash;
    if bool_decide (re_event_id self ≠ id) || bool_decide (candidate_hash c ≠ hash) ||
       bool_decide (cc_room_id c ≠ cb_room_id b) || negb (cc_membership_epoch c =? cb_membership_epoch b)%Z ||
       negb (cc_height c =? cb_height b)%Z || negb (cc_round c =? cb_round b)%Z
    then Err InvalidReplicatedEvent else Ok tt.

Definition canonical_device_certificate_bytes (c : UnsignedDeviceCertificateWire) : outcome ReplicationWireError (list Z) :=
  _ ← unsigned_certificate_validate c; encode_json_domain CERTIFICATE_DOMAIN (certificate_json c).

Definition canonical_device_revocation_bytes (r : UnsignedDeviceRevocationWire) : outcome ReplicationWireError (list Z) :=
  _ ← unsigned_revocation_validate r; encode_json_domain REVOCATION_DOMAIN (revocation_json r).

Definition canonical_consensus_candidate_bytes (c : UnsignedConsensusCandidateWire) : outcome ReplicationWireError (list Z) :=
  _ ← unsigned_candidate_validate c; encode_json_domain CANDIDATE_SIGNATURE_DOMAIN (candidate_json c).

Definition canonical_consensus_vote_bytes (v : UnsignedConsensusVoteWire) : outcome ReplicationWireError (list Z) :=
  _ ← unsigned_vote_validate v; encode_json_domain VOTE_DOMAIN (vote_json v).

Definition commit_certificate_hash (c : CommitCertificateWire) : outcome ReplicationWireError SemanticHash :=
  _ ← commit_validate c;
  bytes ← encode_json_domain COMMIT_DOMAIN (commit_json c);
  Ok (hash_of bytes).

Definition replicated_snapshot_hash (s : ReplicatedSnapshotWire) : outcome ReplicationWireError SemanticHash :=
  _ ← snapshot_validate s;
  bytes ← encode_json_domain SNAPSHOT_DOMAIN (snapshot_json s);
  Ok (hash_of bytes).
End Hashes.
