(* ===== verification/Replicated.v ===== *)
(** * The replicated session (crates/poche-session, replicated.rs)

    One replica's membership and log head: players with their certified devices,
    epoch rosters, staged revocations and fork proofs.  Methods on [&mut self] run
    in the monad of Methods.v.  Signature verification is an interface, BLAKE3 and
    Serde's JSON text are parameters. *)

From stdpp Require Import base strings numbers option list gmap.
From S2P Require Import Prelude Methods Protocol Bytes Replication.

(** The cryptographic verification port *)
Class ReplicationSignatureVerifier : Type := {
  verify_device_certificate : PlayerRootWire → DeviceCertificateWire → bool;
  verify_device_revocation : PlayerRootWire → DeviceRevocationWire → bool;
  verify_candidate : DeviceCertificateWire → ConsensusCandidateWire → bool;
  verify_vote : DeviceCertificateWire → ConsensusVoteWire → bool;
}.

Record ReplicatedPlayerState : Type := { root : PlayerRootWire; active : bool; devices : list DeviceCertificateWire }.

(** [StagedDeviceRevocation] only wraps its revocation. *)
Notation StagedDeviceRevocation := DeviceRevocationWire (only parsing).

Record ReplicatedForkProof : Type := {
  fork_height : Z; first_event : EventId; second_event : EventId;
  first_candidate_hash : SemanticHash; second_candidate_hash : SemanticHash;
}.

Record ReplicatedEpochRoster : Type := { er_membership_epoch : Z; er_active_players : list PrincipalId }.

Inductive ReplicatedApplyResult : Type := Applied | Duplicate.

Record ReplicatedSessionState : Type := {
  r_room_id : RoomId; r_membership_epoch : Z; r_height : Z; head_event_id : option EventId;
  head_event_hash : SemanticHash; players : list ReplicatedPlayerState; epoch_rosters : list ReplicatedEpochRoster;
  staged_revocations : list StagedDeviceRevocation; last_event : option ReplicatedEventWire;
  forks : list ReplicatedForkProof;
}.

Inductive ReplicatedSessionError : Type :=
  | InvalidRoster | UnknownPlayer | UnknownDevice | DuplicateDevice | DeviceLimit | MissingVotingDevice
  | MultipleVotingDevices | RsInvalidRevocation | InvalidHeight | InvalidEvent | RsInvalidCertificate
  | RsInvalidSnapshot | DeviceNotAuthorized | BadSignature | NoQuorum | NoJointQuorum | ForkDetected | Forked | RsInvariant.

Notation player_of p := (pr_player_id (root p)) (only parsing).

(** ** Fields *)

Definition with_players (self : ReplicatedSessionState) (l : list ReplicatedPlayerState) : ReplicatedSessionState :=
  {| r_room_id := r_room_id self; r_membership_epoch := r_membership_epoch self; r_height := r_height self;
     head_event_id := head_event_id self; head_event_hash := head_event_hash self; players := l;
     epoch_rosters := epoch_rosters self; staged_revocations := staged_revocations self;
     last_event := last_event self; forks := forks self |}.

Definition with_staged (self : ReplicatedSessionState) (l : list StagedDeviceRevocation) : ReplicatedSessionState :=
  {| r_room_id := r_room_id self; r_membership_epoch := r_membership_epoch self; r_height := r_height self;
     head_event_id := head_event_id self; head_event_hash := head_event_hash self; players := players self;
     epoch_rosters := epoch_rosters self; staged_revocations := l; last_event := last_event self; forks := forks self |}.

Definition with_forks (self : ReplicatedSessionState) (l : list ReplicatedForkProof) : ReplicatedSessionState :=
  {| r_room_id := r_room_id self; r_membership_epoch := r_membership_epoch self; r_height := r_height self;
     head_event_id := head_event_id self; head_event_hash := head_event_hash self; players := players self;
     epoch_rosters := epoch_rosters self; staged_revocations := staged_revocations self;
     last_event := last_event self; forks := l |}.

Definition with_head (self : ReplicatedSessionState) (height : Z) (id : EventId) : ReplicatedSessionState :=
  {| r_room_id := r_room_id self; r_membership_epoch := r_membership_epoch self; r_height := height;
     head_event_id := Some id; head_event_hash := head_event_hash self; players := players self;
     epoch_rosters := epoch_rosters self; staged_revocations := staged_revocations self;
     last_event := last_event self; forks := forks self |}.

Definition with_head_hash (self : ReplicatedSessionState) (hash : SemanticHash) : ReplicatedSessionState :=
  {| r_room_id := r_room_id self; r_membership_epoch := r_membership_epoch self; r_height := r_height self;
     head_event_id := head_event_id self; head_event_hash := hash; players := players self;
     epoch_rosters := epoch_rosters self; staged_revocations := staged_revocations self;
     last_event := last_event self; forks := forks self |}.

Definition with_last_event (self : ReplicatedSessionState) (event : ReplicatedEventWire) : ReplicatedSessionState :=
  {| r_room_id := r_room_id self; r_membership_epoch := r_membership_epoch self; r_height := r_height self;
     head_event_id := head_event_id self; head_event_hash := head_event_hash self; players := players self;
     epoch_rosters := epoch_rosters self; staged_revocations := staged_revocations self;
     last_event := Some event; forks := forks self |}.

(** The membership changes of an applied transition *)
Definition with_transition (self : ReplicatedSessionState) (t : MembershipTransitionWire) : ReplicatedSessionState :=
  {| r_room_id := r_room_id self; r_membership_epoch := next_membership_epoch t; r_height := r_height self;
     head_event_id := head_event_id self; head_event_hash := head_event_hash self;
     players := (λ p, {| root := root p; active := search_ok (player_of p) (active_players t); devices := devices p |}) <$> players self;
     epoch_rosters := epoch_rosters self ++
       [{| er_membership_epoch := next_membership_epoch t; er_active_players := active_players t |}];
     staged_revocations := staged_revocations self; last_event := last_event self; forks := forks self |}.

(** ** Queries *)

Definition active_player_ids (self : ReplicatedSessionState) : list PrincipalId :=
  (λ p, player_of p) <$> List.filter active (players self).

Definition quorum (self : ReplicatedSessionState) : nat := replicated_quorum (length (active_player_ids self)).

Definition roster (self : ReplicatedSessionState) (epoch : Z) : option ReplicatedEpochRoster :=
  index ← binary_search_by (λ r, cmp (er_membership_epoch r) epoch) (epoch_rosters self);
  epoch_rosters self !! index.

(** A revocation of [device] in force at [epoch] *)
Definition revoked_at (self : ReplicatedSessionState) (device : DeviceId) (epoch : Z) : bool :=
  existsb (λ r, bool_decide (dr_device_id r = device) && (effective_membership_epoch r <=? epoch)%Z) (staged_revocations self).

Definition require_device_in_roster (self : ReplicatedSessionState) (player : PrincipalId) (device : DeviceId)
    (c : DeviceCapabilityWire) (epoch : Z) (r : ReplicatedEpochRoster) : outcome ReplicatedSessionError DeviceCertificateWire :=
  if negb (search_ok player (er_active_players r)) then Err UnknownPlayer
  else
    p ← ok_or (List.find (λ p, bool_decide (player_of p = player)) (players self)) UnknownPlayer;
    d ← ok_or (List.find (λ d, bool_decide (device_id d = device)) (devices p)) UnknownDevice;
    if negb (is_valid_at d epoch) || negb (device_has d c) || revoked_at self device epoch
    then Err DeviceNotAuthorized else Ok d.

Definition require_device (self : ReplicatedSessionState) (player : PrincipalId) (device : DeviceId)
    (c : DeviceCapabilityWire) (epoch : Z) : outcome ReplicatedSessionError DeviceCertificateWire :=
  r ← ok_or (roster self epoch) InvalidRoster;
  require_device_in_roster self player device c epoch r.

(** ** Validation *)

Definition add_epochs_of_device (epochs : list Z) (d : DeviceCertificateWire) : list Z :=
  if negb (device_has d CanVote) then epochs
  else
    let epochs := btree_insert (valid_from_membership_epoch d) epochs in
    match through ← valid_through_membership_epoch d; checked 64 (through + 1)%Z with
    | Some after => btree_insert after epochs
    | None => epochs
    end.

(** The epochs at which a player's voting devices can change *)
Definition change_epochs (self : ReplicatedSessionState) (p : ReplicatedPlayerState) : list Z :=
  foldl (λ epochs r, btree_insert (effective_membership_epoch r) epochs)
    (foldl add_epochs_of_device [r_membership_epoch self] (devices p))
    (List.filter (λ r, bool_decide (dr_player_id r = player_of p)) (staged_revocations self)).

Definition votes_at (self : ReplicatedSessionState) (epoch : Z) (d : DeviceCertificateWire) : bool :=
  device_has d CanVote && is_valid_at d epoch && negb (revoked_at self (device_id d) epoch).

Definition voting_devices (self : ReplicatedSessionState) (p : ReplicatedPlayerState) (epoch : Z) : list DeviceCertificateWire :=
  List.filter (votes_at self epoch) (devices p).

Definition validate_voting_epoch (self : ReplicatedSessionState) (p : ReplicatedPlayerState) (epoch : Z)
    : outcome ReplicatedSessionError unit :=
  let voting := voting_devices self p epoch in
  if 1 <? length voting then Err MultipleVotingDevices
  else if (epoch =? r_membership_epoch self)%Z && active p &&
          match head voting with Some d => negb (device_has d Propose) | None => true end
  then Err MissingVotingDevice
  else Ok tt.

(** [for x in l { body(x)?; }] *)
Fixpoint try_each {E A} (f : A → outcome E unit) (l : list A) : outcome E unit :=
  match l with
  | [] => Ok tt
  | x :: l => _ ← f x; try_each f l
  end.

Definition validate_voting_devices (self : ReplicatedSessionState) : outcome ReplicatedSessionError unit :=
  try_each (λ p, try_each (validate_voting_epoch self p) (change_epochs self p)) (players self).

Definition replicated_validate (self : ReplicatedSessionState) : outcome ReplicatedSessionError unit :=
  _ ← validate_voting_devices self;
  if (r_membership_epoch self =? 0)%Z || (length (active_player_ids self) <? 2) ||
     match last (epoch_rosters self) with
     | Some r => negb (er_membership_epoch r =? r_membership_epoch self)%Z ||
                 bool_decide (er_active_players r ≠ active_player_ids self)
     | None => true
     end ||
     negb (windows2 (λ r r', negb (negb (saturating_succ (er_membership_epoch r) =? er_membership_epoch r')%Z ||
                                   negb (windows2 ltb (er_active_players r)))) (epoch_rosters self)) ||
     negb (windows2 (λ p p', ltb (player_of p) (player_of p')) (players self)) ||
     existsb (λ p, (MAX_DEVICES_PER_PLAYER <? length (devices p)) ||
                   negb (windows2 (λ d d', ltb (device_id d) (device_id d')) (devices p))) (players self)
  then Err RsInvariant else Ok tt.

(** ** Methods *)

(** [u64::from_be_bytes] *)
Definition of_be_bytes (l : list Z) : Z := foldl (λ acc b, acc * 256 + b)%Z 0%Z l.

Section Replicated.
Context `{ReplicationSerde, ReplicationSignatureVerifier} (blake3 : list Z → list Z).

Local Notation A T := (M ReplicatedSessionState ReplicatedSessionError T).

Definition PROPOSER_DOMAIN : list Z := signing_domain "REPLICATED-PROPOSER".

Definition proposer_index (parent : SemanticHash) (height round : Z) (count : nat) : outcome ReplicatedSessionError nat :=
  if (count =? 0) || (height =? 0)%Z then Err InvalidHeight
  else
    let digest := blake3 (PROPOSER_DOMAIN ++ hash_bytes parent ++ be_bytes 8 height ++ be_bytes 4 round) in
    Ok (Z.to_nat (of_be_bytes (take 8 digest) mod Z.of_nat count)).

Definition proposer_for (self : ReplicatedSessionState) (height round : Z) : outcome ReplicatedSessionError PrincipalId :=
  let ids := active_player_ids self in
  if (length ids =? 0) || negb (height =? saturating_succ (r_height self))%Z then Err InvalidHeight
  else
    index ← proposer_index (head_event_hash self) height round (length ids);
    expect (ids !! index).

Definition add_certificate_to_players (l : list ReplicatedPlayerState) (c : DeviceCertificateWire)
    : outcome ReplicatedSessionError (list ReplicatedPlayerState) :=
  _ ← map_err (λ _, RsInvalidCertificate) (certificate_validate c);
  index ← ok_or (position (λ p, bool_decide (player_of p = dc_player_id c)) l) UnknownPlayer;
  p ← expect (l !! index);
  if negb (verify_device_certificate (root p) c) then Err BadSignature
  else if MAX_DEVICES_PER_PLAYER <=? length (devices p) then Err DeviceLimit
  else if existsb (λ d, bool_decide (device_id d = device_id c) || (dc_sequence c <=? dc_sequence d)%Z ||
                        bool_decide (certificate_id d = certificate_id c)) (devices p)
  then Err DuplicateDevice
  else Ok (<[index := {| root := root p; active := active p; devices := sort_by_key device_id (devices p ++ [c]) |}]> l).

Definition replicated_new (room : RoomId) (roots : list PlayerRootWire) (certificates : list DeviceCertificateWire)
    : outcome ReplicatedSessionError ReplicatedSessionState :=
  if (length roots <? 2) || negb (windows2 (λ a b, ltb (pr_player_id a) (pr_player_id b)) roots) ||
     existsb (λ r, negb (is_ok (root_validate r))) roots
  then Err InvalidRoster
  else
    l ← foldM add_certificate_to_players certificates ((λ r, {| root := r; active := true; devices := [] |}) <$> roots);
    if existsb (λ p, negb (existsb (λ d, is_valid_at d 1 && device_has d Propose && device_has d CanVote) (devices p))) l
    then Err MissingVotingDevice
    else
      let self := {| r_room_id := room; r_membership_epoch := 1; r_height := 0; head_event_id := None;
                     head_event_hash := SemanticHashOf (repeat 0%Z 32); players := l;
                     epoch_rosters := [{| er_membership_epoch := 1; er_active_players := (λ p, player_of p) <$> l |}];
                     staged_revocations := []; last_event := None; forks := [] |} in
      _ ← replicated_validate self;
      Ok self.

Definition register_device (c : DeviceCertificateWire) : A unit := λ self,
  match (l ← add_certificate_to_players (players self) c; _ ← replicated_validate (with_players self l); Ok l) with
  | Ok l => (with_players self l, Ok tt)
  | Err e => (self, Err e)
  | Panic => (self, Panic)
  end.

Definition stage_revocation (r : DeviceRevocationWire) : A unit :=
  _ ← lift (map_err (λ _, RsInvalidRevocation) (revocation_validate r));
  self ← read (λ self, self);
  p ← lift (ok_or (List.find (λ p, bool_decide (player_of p = dr_player_id r)) (players self)) UnknownPlayer);
  d ← lift (ok_or (List.find (λ d, bool_decide (device_id d = dr_device_id r) && (dc_sequence d =? certificate_sequence r)%Z)
                     (devices p)) UnknownDevice);
  if negb (effective_membership_epoch r =? saturating_succ (r_membership_epoch self))%Z ||
     negb (verify_device_revocation (root p) r) ||
     existsb (λ other, bool_decide (dr_device_id other = dr_device_id r) &&
                       (effective_membership_epoch other =? effective_membership_epoch r)%Z) (staged_revocations self) ||
     negb (is_valid_at d (r_membership_epoch self))
  then throw RsInvalidRevocation
  else update (λ self, with_staged self (staged_revocations self ++ [r])).

(** One precommit of [validate_commit_certificate], with the voters before it *)
Definition count_precommit (self : ReplicatedSessionState) (epoch : Z) (r : ReplicatedEpochRoster)
    (voters : list PrincipalId) (vote : ConsensusVoteWire) : outcome ReplicatedSessionError (list PrincipalId) :=
  d ← require_device_in_roster self (voter_player_id vote) (voter_device_id vote) CanVote epoch r;
  if negb (verify_vote d vote) then Err BadSignature
  else Ok (btree_insert (voter_player_id vote) voters).

Definition validate_commit_certificate (self : ReplicatedSessionState) (c : CommitCertificateWire)
    (transition : option MembershipTransitionWire) (r : ReplicatedEpochRoster) : outcome ReplicatedSessionError unit :=
  _ ← map_err (λ _, RsInvalidCertificate) (commit_validate c);
  voters ← foldM (count_precommit self (cc_membership_epoch c) r) (precommits c) [];
  if length voters <? replicated_quorum (length (er_active_players r)) then Err NoQuorum
  else match transition with
       | None => Ok tt
       | Some t =>
           if existsb (λ id, negb (existsb (λ p, bool_decide (player_of p = id)) (players self))) (active_players t)
           then Err InvalidRoster
           else if (length (List.filter (λ v, search_ok v (active_players t)) voters) <?
                    replicated_quorum (length (active_players t))) ||
                   negb (forallb (λ device, existsb (λ s, bool_decide (dr_device_id s = device) &&
                                                         (effective_membership_epoch s =? next_membership_epoch t)%Z)
                                              (staged_revocations self)) (revoked_devices t))
           then Err NoJointQuorum else Ok tt
       end.

Definition validate_event (self : ReplicatedSessionState) (event : ReplicatedEventWire) : outcome ReplicatedSessionError unit :=
  _ ← map_err (λ _, InvalidEvent) (event_validate blake3 event);
  let b := body (candidate event) in
  if bool_decide (cb_room_id b ≠ r_room_id self) || negb (cb_membership_epoch b =? r_membership_epoch self)%Z ||
     negb (cb_height b =? saturating_succ (r_height self))%Z || bool_decide (parent_event_id b ≠ head_event_id self) ||
     bool_decide (parent_event_hash b ≠ head_event_hash self)
  then Err InvalidEvent
  else
    proposer ← proposer_for self (cb_height b) (cb_round b);
    if bool_decide (proposer_player_id b ≠ proposer) then Err InvalidEvent
    else
      d ← require_device self (proposer_player_id b) (proposer_device_id b) Propose (r_membership_epoch self);
      if negb (verify_candidate d (candidate event)) then Err BadSignature
      else
        r ← ok_or (roster self (r_membership_epoch self)) InvalidRoster;
        validate_commit_certificate self (certificate event) (membership_transition b) r.

Definition validate_historical_conflict (self : ReplicatedSessionState) (event : ReplicatedEventWire)
    : outcome ReplicatedSessionError unit :=
  _ ← map_err (λ _, InvalidEvent) (event_validate blake3 event);
  let b := body (candidate event) in
  r ← ok_or (roster self (cb_membership_epoch b)) InvalidRoster;
  if bool_decide (cb_room_id b ≠ r_room_id self) || (cb_height b =? 0)%Z then Err InvalidEvent
  else
    index ← proposer_index (parent_event_hash b) (cb_height b) (cb_round b) (length (er_active_players r));
    proposer ← expect (er_active_players r !! index);
    if bool_decide (proposer_player_id b ≠ proposer) then Err InvalidEvent
    else
      d ← require_device_in_roster self (proposer_player_id b) (proposer_device_id b) Propose (cb_membership_epoch b) r;
      if negb (verify_candidate d (candidate event)) then Err BadSignature
      else validate_commit_certificate self (certificate event) (membership_transition b) r.

(** Whether [event] shares its parent with the last one *)
Definition same_parent (event last : ReplicatedEventWire) : bool :=
  bool_decide (parent_event_hash (body (candidate event)) = parent_event_hash (body (candidate last))) &&
  bool_decide (parent_event_id (body (candidate event)) = parent_event_id (body (candidate last))).

Definition record_fork (event last : ReplicatedEventWire) : A ReplicatedApplyResult :=
  self ← read (λ self, self);
  _ ← lift (validate_historical_conflict self event);
  second ← lift (map_err (λ _, InvalidEvent) (consensus_candidate_hash blake3 (body (candidate event))));
  first ← lift (map_err (λ _, InvalidEvent) (consensus_candidate_hash blake3 (body (candidate last))));
  _ ← update (λ self, with_forks self (forks self ++
        [{| fork_height := cb_height (body (candidate event)); first_event := re_event_id last;
            second_event := re_event_id event; first_candidate_hash := first; second_candidate_hash := second |}]));
  throw ForkDetected.

Definition extend_head (event : ReplicatedEventWire) : A ReplicatedApplyResult :=
  before ← read (λ self, self);
  _ ← lift (validate_event before event);
  _ ← update (λ self, with_head self (cb_height (body (candidate event))) (re_event_id event));
  hash ← lift (map_err (λ _, InvalidEvent) (consensus_candidate_hash blake3 (body (candidate event))));
  _ ← update (λ self, with_head_hash self hash);
  _ ← update (λ self, match membership_transition (body (candidate event)) with
                      | Some t => with_transition self t
                      | None => self
                      end);
  _ ← update (λ self, with_last_event self event);
  self ← read (λ self, self);
  match replicated_validate self with
  | Ok _ => mret Applied
  | Err e => _ ← update (λ _, before); throw e
  | Panic => lift Panic
  end.

Definition apply_event (event : ReplicatedEventWire) : A ReplicatedApplyResult :=
  self ← read (λ self, self);
  if negb (length (forks self) =? 0) then throw Forked
  else match last_event self with
       | Some last =>
           if (cb_height (body (candidate event)) =? cb_height (body (candidate last)))%Z then
             if bool_decide (event = last) then mret Duplicate
             else if same_parent event last then record_fork event last
             else extend_head event
           else extend_head event
       | None => extend_head event
       end.

Definition validate_snapshot_at_head (self : ReplicatedSessionState) (s : ReplicatedSnapshotWire)
    : outcome ReplicatedSessionError unit :=
  _ ← map_err (λ _, RsInvalidSnapshot) (snapshot_validate s);
  event ← ok_or (last_event self) RsInvalidSnapshot;
  hash ← map_err (λ _, RsInvalidSnapshot) (commit_certificate_hash blake3 (certificate event));
  if bool_decide (rs_room_id s ≠ r_room_id self) || negb (rs_membership_epoch s =? r_membership_epoch self)%Z ||
     negb (rs_height s =? r_height self)%Z || bool_decide (Some (rs_head_event_id s) ≠ head_event_id self) ||
     bool_decide (rs_head_event_hash s ≠ head_event_hash self) ||
     bool_decide (state_hash s ≠ successor_state_hash event) ||
     bool_decide (rs_commit_certificate_hash s ≠ hash)
  then Err RsInvalidSnapshot else Ok tt.
End Replicated.
