(* ===== verification/ReplicatedInvariant.v ===== *)
(** * What replicated methods check

    The contents of a valid commit certificate, quorums and their intersection, and
    the devices that may vote in an epoch; then validation as a proposition and the
    replicas the operations reach. *)

From Stdlib Require Import ZifyBool.
From stdpp Require Import base strings numbers option list gmap.
From S2P Require Import Prelude Methods Protocol Bytes Replication Replicated.

(** ** Loops and guards *)

Lemma try_each_Ok {E A} (f : A → outcome E unit) l : try_each f l = Ok tt ↔ ∀ x, x ∈ l → f x = Ok tt.
Proof.
  induction l as [|x l IH]; cbn; [split; [intros _ x Hx; by apply elem_of_nil in Hx|done]|]. rewrite bind_Ok. split.
  - intros ([] & Hx & Hl) y [->|Hy]%elem_of_cons; [done|]. by apply IH.
  - intros Hall. exists tt. split; [apply Hall; left|]. apply IH. intros y Hy. apply Hall. by right.
Qed.

(** A chain of guards that did not return. *)
Ltac guards H := repeat (apply orb_false_iff in H as [H ?]).

(** ** Quorums *)

Lemma quorums_meet (r l k : list PrincipalId) : NoDup l → NoDup k → l ⊆ r → k ⊆ r →
  replicated_quorum (length r) <= length l → replicated_quorum (length r) <= length k → ∃ x, x ∈ l ∧ x ∈ k.
Proof.
  intros Hl Hk Hlr Hkr Hql Hqk. destruct (decide (Exists (λ x, x ∈ k) l)) as [(x & Hx & Hxk)%Exists_exists|Hn]; [by exists x|].
  exfalso. assert (NoDup (l ++ k)) as Hd.
  { apply NoDup_app. split_and!; [done| |done]. intros x Hx Hxk. apply Hn, Exists_exists. by exists x. }
  assert (length (l ++ k) <= length r) as Hlen.
  { apply submseteq_length, NoDup_submseteq; [done|]. intros x [Hx|Hx]%elem_of_app; auto. }
  rewrite length_app in Hlen. unfold replicated_quorum in *. pose proof (Nat.div_mod (length r) 2).
  pose proof (Nat.mod_bound_pos (length r) 2). lia.
Qed.

(** ** Commit certificates *)

Lemma commit_validate_Ok c : commit_validate c = Ok tt →
  NoDup (voter_player_id <$> precommits c) ∧ precommits c ≠ [] ∧
  ∀ v, v ∈ precommits c → vote_validate v = Ok tt ∧ cv_room_id v = cc_room_id c ∧ cv_membership_epoch v = cc_membership_epoch c ∧
    cv_height v = cc_height c ∧ cv_round v = cc_round c ∧ phase v = Precommit ∧ value v = Candidate (candidate_hash c).
Proof.
  unfold commit_validate. destruct (_ || _)%bool eqn:Hg; [done|]. guards Hg.
  intros (seen & Hf & _)%bind_Ok.
  assert (∀ l s s', foldM (precommit_validate c) l s = Ok s' → NoDup (voter_player_id <$> l) ∧
    ∀ v, v ∈ l → voter_player_id v ∉ s ∧ vote_validate v = Ok tt ∧ cv_room_id v = cc_room_id c ∧
      cv_membership_epoch v = cc_membership_epoch c ∧ cv_height v = cc_height c ∧ cv_round v = cc_round c ∧
      phase v = Precommit ∧ value v = Candidate (candidate_hash c)) as Hall.
  { clear. induction l as [|v l IH]; intros s s'; cbn.
    { intros _. split; [constructor|]. intros v Hv. by apply elem_of_nil in Hv. }
    intros (s1 & Hv & Hl)%bind_Ok. apply IH in Hl as [Hn Hl]. unfold precommit_validate in Hv.
    apply bind_Ok in Hv as ([] & Hval & Hv). destruct (_ || _)%bool eqn:Hg; [done|]. injection Hv as <-. guards Hg.
    repeat match goal with H : bool_decide _ = false |- _ => apply bool_decide_eq_false in H end.
    split.
    - constructor; [|done]. intros (w & Hw & Hin)%list_elem_of_fmap. destruct (Hl w Hin) as [Hs _]. set_solver.
    - intros w [->|Hw]%elem_of_cons; [split_and!; try done; try lia; by apply dec_stable|].
      destruct (Hl w Hw) as [Hs Hrest]. split; [set_solver|done]. }
  apply Hall in Hf as [Hn Hv]. split; [done|]. split; [intros Heq; rewrite Heq in *; discriminate|]. intros v Hin. by destruct (Hv v Hin).
Qed.

(** ** Who may vote *)

Section Certified.
Context `{ReplicationSignatureVerifier}.
Implicit Types (self : ReplicatedSessionState) (r : ReplicatedEpochRoster) (c : CommitCertificateWire).

(** A certified, unrevoked device of an active player with a capability. *)
Definition authorized self r (player device : string) (cap : DeviceCapabilityWire) (epoch : Z) (d : DeviceCertificateWire) : Prop :=
  player ∈ er_active_players r ∧ device_id d = device ∧ (∃ p, p ∈ players self ∧ player_of p = player ∧ d ∈ devices p) ∧
  is_valid_at d epoch = true ∧ device_has d cap = true ∧ revoked_at self device epoch = false.

Lemma require_device_Ok self r player device cap epoch d : ascending (er_active_players r) →
  require_device_in_roster self player device cap epoch r = Ok d → authorized self r player device cap epoch d.
Proof.
  intros Hr. unfold require_device_in_roster. destruct (search_ok _ _) eqn:Hs; [|done]. cbn [negb].
  apply search_ok_spec in Hs; [|done]. intros (p & Hp%ok_or_Ok & (d' & Hd%ok_or_Ok & Hx)%bind_Ok)%bind_Ok.
  destruct (_ || _)%bool eqn:Hg; [done|]. injection Hx as <-. guards Hg.
  apply List_find_Some in Hp as [Hp Hpid%bool_decide_eq_true]. apply List_find_Some in Hd as [Hd Hdid%bool_decide_eq_true].
  unfold authorized. split_and!; try done; [by exists p|by apply negb_false_iff..].
Qed.

(** What a valid commit certificate shows in a roster. *)
Record certified self r c : Prop := {
  ct_valid : commit_validate c = Ok tt;
  ct_votes : ∀ v, v ∈ precommits c → ∃ d,
    authorized self r (voter_player_id v) (voter_device_id v) CanVote (cc_membership_epoch c) d ∧ verify_vote d v = true;
  ct_quorum : replicated_quorum (length (er_active_players r)) <= length (precommits c);
}.

Lemma count_precommits self epoch r l acc voters : ascending (er_active_players r) → ascending acc →
  foldM (count_precommit self epoch r) l acc = Ok voters →
  ascending voters ∧ (∀ x, x ∈ voters ↔ x ∈ acc ∨ x ∈ voter_player_id <$> l) ∧
  ∀ v, v ∈ l → ∃ d, authorized self r (voter_player_id v) (voter_device_id v) CanVote epoch d ∧ verify_vote d v = true.
Proof.
  intros Hr. revert acc. induction l as [|v l IH]; intros acc Ha; cbn.
  { intros [= <-]. split_and!; [done|intros x; by rewrite elem_of_nil; naive_solver|]. intros v Hv. by apply elem_of_nil in Hv. }
  intros (acc' & Hv & Hl)%bind_Ok. unfold count_precommit in Hv. apply bind_Ok in Hv as (d & Hd & Hv).
  destruct (verify_vote d v) eqn:Hver; [|done]. injection Hv as <-. apply require_device_Ok in Hd; [|done].
  apply IH in Hl as (H1 & H2 & H3); [|by apply btree_insert_ascending]. split_and!; [done| |].
  - intros x. rewrite H2, elem_of_btree_insert, elem_of_cons. naive_solver.
  - intros w [->|Hw]%elem_of_cons; [by exists d|by apply H3].
Qed.

(** The transition of a jointly certified event. *)
Record joint self c (t : MembershipTransitionWire) : Prop := {
  jt_known : ∀ id, id ∈ active_players t → id ∈ (λ p, player_of p) <$> players self;
  jt_quorum : replicated_quorum (length (active_players t)) <=
    length (List.filter (λ v, bool_decide (voter_player_id v ∈ active_players t)) (precommits c));
  jt_revoked : ∀ device, device ∈ revoked_devices t → ∃ s, s ∈ staged_revocations self ∧ dr_device_id s = device ∧
    effective_membership_epoch s = next_membership_epoch t;
}.

Lemma commit_certificate_Ok self c transition r : ascending (er_active_players r) →
  (∀ t, transition = Some t → ascending (active_players t)) →
  validate_commit_certificate self c transition r = Ok tt →
  certified self r c ∧ ∀ t, transition = Some t → joint self c t.
Proof.
  intros Hr Ht. unfold validate_commit_certificate. intros ([] & Hc%map_err_Ok & (voters & Hv & Hx)%bind_Ok)%bind_Ok.
  apply count_precommits in Hv as (Ha & Hin & Hdev); [|done|apply ascending_nil].
  pose proof (commit_validate_Ok c Hc) as (Hn & _ & _).
  assert (voters ≡ₚ voter_player_id <$> precommits c) as Hperm.
  { apply NoDup_Permutation; [by apply ascending_NoDup|done|]. intros x. rewrite Hin, elem_of_nil. naive_solver. }
  assert (length voters = length (precommits c)) as Hlen by (rewrite Hperm; apply length_fmap).
  destruct (Nat.ltb_spec (length voters) (replicated_quorum (length (er_active_players r)))); [done|].
  split; [split; [done|done|lia]|]. intros t ->. specialize (Ht t eq_refl).
  destruct (existsb _ (active_players t)) eqn:Hk; [done|]. destruct (_ || _)%bool eqn:Hg; [done|].
  apply orb_false_iff in Hg as [Hq%Nat.ltb_ge Hrev%negb_false_iff]. split.
  - intros id Hid. rewrite existsb_neg_false in Hk. specialize (Hk id Hid).
    apply existsb_exists in Hk as (p & Hp & <-%bool_decide_eq_true). apply list_elem_of_fmap. exists p.
    split; [done|]. by apply list_elem_of_In.
  - etrans; [exact Hq|]. rewrite (filter_ext_in _ (λ v, bool_decide (v ∈ active_players t))) by
      (intros x; apply eq_bool_prop_intro; rewrite bool_decide_spec, <-search_ok_spec, Is_true_true by done; done).
    rewrite (filter_Permutation _ _ _ Hperm), filter_fmap, length_fmap. done.
  - intros device Hd. rewrite forallb_forall in Hrev. apply list_elem_of_In in Hd. apply Hrev, existsb_exists in Hd as (s & Hs & Hsd).
    apply andb_true_iff in Hsd as [Hsd%bool_decide_eq_true He%Z.eqb_eq]. exists s. split; [by apply list_elem_of_In|done].
Qed.

(** The voters of a certificate are distinct active players. *)
Lemma certified_voters self r c : certified self r c →
  NoDup (voter_player_id <$> precommits c) ∧ (voter_player_id <$> precommits c) ⊆ er_active_players r.
Proof.
  intros [Hv Hd _]. split; [by apply commit_validate_Ok|]. intros x (v & -> & Hin)%list_elem_of_fmap.
  by destruct (Hd v Hin) as (d & (Hr & _) & _).
Qed.

(** Two certificates of one roster share a voter. *)
Lemma certificates_meet self self' r c c' : certified self r c → certified self' r c' →
  ∃ v v', v ∈ precommits c ∧ v' ∈ precommits c' ∧ voter_player_id v = voter_player_id v'.
Proof.
  intros Hc Hc'. destruct (certified_voters _ _ _ Hc) as [H1 H2]. destruct (certified_voters _ _ _ Hc') as [H3 H4].
  destruct (quorums_meet _ _ _ H1 H3 H2 H4) as (x & Hx & Hx').
  { rewrite length_fmap. by eapply ct_quorum. }
  { rewrite length_fmap. by eapply ct_quorum. }
  apply list_elem_of_fmap in Hx as (v & -> & Hv). apply list_elem_of_fmap in Hx' as (v' & Heq & Hv'). by exists v, v'.
Qed.
End Certified.

(** ** Voting devices *)

Lemma elem_of_foldl_insert {B} (f : list Z → B → list Z) l acc e :
  (∀ acc x, ∀ e, e ∈ acc → e ∈ f acc x) → e ∈ acc → e ∈ foldl f acc l.
Proof. intros Hf. revert acc. induction l as [|x l IH]; intros acc He; cbn; [done|]. by apply IH, Hf. Qed.

Lemma add_epochs_mono epochs d e : e ∈ epochs → e ∈ add_epochs_of_device epochs d.
Proof.
  intros He. unfold add_epochs_of_device. destruct (negb _); [done|].
  destruct (_ ≫= _); rewrite ?elem_of_btree_insert; naive_solver.
Qed.

Lemma change_epochs_current self p : r_membership_epoch self ∈ change_epochs self p.
Proof.
  unfold change_epochs. apply elem_of_foldl_insert; [intros; apply elem_of_btree_insert; by right|].
  apply elem_of_foldl_insert; [intros; by apply add_epochs_mono|]. left.
Qed.

Lemma change_epochs_from self p d : d ∈ devices p → device_has d CanVote = true → valid_from_membership_epoch d ∈ change_epochs self p.
Proof.
  intros Hd Hv. unfold change_epochs. apply elem_of_foldl_insert; [intros; apply elem_of_btree_insert; by right|].
  generalize [r_membership_epoch self]. induction (devices p) as [|d' l IH]; intros acc; [by apply elem_of_nil in Hd|].
  apply elem_of_cons in Hd as [<-|Hd]; [|by apply IH]. cbn. apply elem_of_foldl_insert; [intros; by apply add_epochs_mono|].
  unfold add_epochs_of_device. rewrite Hv. cbn [negb]. destruct (_ ≫= _); rewrite ?elem_of_btree_insert; naive_solver.
Qed.

(** A device that votes at an epoch votes at every earlier one since it became valid. *)
Lemma votes_at_earlier self epoch epoch' d : votes_at self epoch d = true →
  (valid_from_membership_epoch d <= epoch' <= epoch)%Z → votes_at self epoch' d = true.
Proof.
  unfold votes_at, is_valid_at, revoked_at. rewrite !andb_true_iff, !negb_true_iff. intros [[Hc [Hf Ht]] Hr] He. split_and!; [done|lia| |].
  - destruct (valid_through_membership_epoch d); lia.
  - apply not_true_iff_false in Hr. apply not_true_iff_false. intros (s & Hs & Hse)%existsb_exists. apply Hr, existsb_exists.
    exists s. split; [done|]. apply andb_true_iff in Hse as [H1 H2]. rewrite H1. cbn. lia.
Qed.

(** The greatest number of voting devices is reached where one becomes valid. *)
Lemma voting_devices_sampled self p epoch : 1 < length (voting_devices self p epoch) →
  ∃ epoch', epoch' ∈ change_epochs self p ∧ 1 < length (voting_devices self p epoch').
Proof.
  intros Hl. set (froms := valid_from_membership_epoch <$> voting_devices self p epoch).
  assert (∀ d, d ∈ voting_devices self p epoch → d ∈ devices p ∧ votes_at self epoch d = true) as Hin.
  { intros d Hd. apply list_elem_of_In, List.filter_In in Hd as [Hd Hv]. split; [by apply list_elem_of_In|done]. }
  assert (∃ d, d ∈ voting_devices self p epoch ∧ ∀ d', d' ∈ voting_devices self p epoch →
    (valid_from_membership_epoch d' <= valid_from_membership_epoch d)%Z) as (d & Hd & Hmax).
  { clear -Hl. destruct (voting_devices self p epoch) as [|x l]; [cbn in Hl; lia|]. clear Hl. revert x.
    induction l as [|y l IH]; intros x; [exists x; split; [left|intros ? ->%list_elem_of_singleton; lia]|].
    destruct (IH y) as (m & Hm & Hmax). destruct (decide (valid_from_membership_epoch x <= valid_from_membership_epoch m)%Z).
    - exists m. split; [by right|]. intros d' [->|Hd']%elem_of_cons; [done|by apply Hmax].
    - exists x. split; [left|]. intros d' [->|Hd']%elem_of_cons; [lia|]. specialize (Hmax _ Hd'). lia. }
  exists (valid_from_membership_epoch d). destruct (Hin d Hd) as [Hdd Hdv]. split.
  - apply change_epochs_from; [done|]. unfold votes_at in Hdv. by apply andb_true_iff in Hdv as [[? _]%andb_true_iff _].
  - eapply Nat.lt_le_trans; [exact Hl|]. apply filter_length_mono. intros d' Hd' Hv. eapply votes_at_earlier; [exact Hv|]. split.
    + apply Hmax. apply list_elem_of_In, List.filter_In. split; [by apply list_elem_of_In|done].
    + unfold votes_at, is_valid_at in Hdv. apply andb_true_iff in Hdv as [[_ [Hf _]%andb_true_iff]%andb_true_iff _]. lia.
Qed.

(** ** Replicas
    Validation as a proposition, the replicas reachable by registering devices,
    staging revocations and applying events, and what holds of each together with
    the log of the events it applied. *)

(** ** Validation *)

Record well_formed (self : ReplicatedSessionState) : Prop := {
  wf_one : ∀ p epoch, p ∈ players self → length (voting_devices self p epoch) <= 1;
  wf_voter : ∀ p, p ∈ players self → active p = true → ∃ d, voting_devices self p (r_membership_epoch self) = [d] ∧ device_has d Propose = true;
  wf_epoch : r_membership_epoch self ≠ 0%Z;
  wf_two : 2 <= length (active_player_ids self);
  wf_current : last (epoch_rosters self) =
    Some {| er_membership_epoch := r_membership_epoch self; er_active_players := active_player_ids self |};
  wf_rosters : ∀ i r r', epoch_rosters self !! i = Some r → epoch_rosters self !! S i = Some r' →
    er_membership_epoch r' = saturating_succ (er_membership_epoch r) ∧ ascending (er_active_players r);
  wf_players : ascending ((λ p, player_of p) <$> players self);
  wf_devices : ∀ p, p ∈ players self → length (devices p) <= MAX_DEVICES_PER_PLAYER ∧ ascending (device_id <$> devices p);
}.

Lemma validate_voting_Ok self : validate_voting_devices self = Ok tt ↔
  (∀ p epoch, p ∈ players self → length (voting_devices self p epoch) <= 1) ∧
  (∀ p, p ∈ players self → active p = true →
     ∃ d, voting_devices self p (r_membership_epoch self) = [d] ∧ device_has d Propose = true).
Proof.
  unfold validate_voting_devices. rewrite try_each_Ok. setoid_rewrite try_each_Ok. split.
  - intros Hall. assert (∀ p epoch, p ∈ players self → length (voting_devices self p epoch) <= 1) as Hone.
    { intros p epoch Hp. destruct (decide (1 < length (voting_devices self p epoch))) as [Hl|]; [|lia].
      apply voting_devices_sampled in Hl as (epoch' & He & Hl). specialize (Hall p Hp epoch' He).
      unfold validate_voting_epoch in Hall. apply Nat.ltb_lt in Hl. by rewrite Hl in Hall. }
    split; [done|]. intros p Hp Ha. specialize (Hall p Hp _ (change_epochs_current self p)). specialize (Hone p (r_membership_epoch self) Hp).
    unfold validate_voting_epoch in Hall. destruct (1 <? _); [done|]. rewrite Z.eqb_refl, Ha in Hall. cbn [andb] in Hall.
    destruct (voting_devices self p _) as [|d [|d' l]]; cbn in *; [done| |lia]. exists d. split; [done|].
    by destruct (device_has d Propose).
  - intros [Hone Hvote] p Hp epoch _. unfold validate_voting_epoch. specialize (Hone p epoch Hp).
    destruct (Nat.ltb_spec 1 (length (voting_devices self p epoch))); [lia|].
    destruct (epoch =? r_membership_epoch self)%Z eqn:He; [|done]. apply Z.eqb_eq in He as ->.
    destruct (active p) eqn:Ha; [|done]. destruct (Hvote p Hp Ha) as (d & -> & Hd). cbn. by rewrite Hd.
Qed.

Lemma roster_eq r epoch ids : r = {| er_membership_epoch := epoch; er_active_players := ids |} ↔
  er_membership_epoch r = epoch ∧ er_active_players r = ids.
Proof. destruct r; naive_solver. Qed.

Lemma validate_well_formed self : replicated_validate self = Ok tt ↔ well_formed self.
Proof.
  unfold replicated_validate. rewrite bind_Ok. split.
  - intros ([] & [H1 H2]%validate_voting_Ok & Hx). destruct (_ || _)%bool eqn:Hg; [done|]. guards Hg.
    repeat match goal with H : negb _ = false |- _ => apply negb_false_iff in H end. split; try done.
    + lia.
    + lia.
    + destruct (last _) as [r|]; [|done]. f_equal. apply roster_eq.
      match goal with H : (_ || bool_decide _)%bool = false |- _ => apply orb_false_iff in H as [He Hi%bool_decide_eq_false] end.
      split; [lia|by apply dec_stable].
    + intros i r r' Hr Hr'. match goal with H : windows2 _ (epoch_rosters _) = true |- _ => rewrite windows2_spec in H; specialize (H i r r' Hr Hr') end.
      match goal with H : negb _ = true |- _ => apply negb_true_iff, orb_false_iff in H as [Hs Hw] end.
      apply negb_false_iff in Hw. split; [lia|by apply strict_sorted_ascending].
    + apply strict_sorted_ascending. unfold strict_sorted_unique. by rewrite <-windows2_fmap.
    + intros p Hp. match goal with H : existsb _ _ = false |- _ => rewrite existsb_false_iff, Forall_forall in H; specialize (H p Hp);
        apply orb_false_iff in H as [Hl Hd%negb_false_iff] end.
      split; [lia|]. apply strict_sorted_ascending. unfold strict_sorted_unique. by rewrite <-windows2_fmap.
  - intros [H1 H2 H3 H4 H5 H6 H7 H8]. exists tt. split; [by apply validate_voting_Ok|].
    rewrite H5. cbn [er_membership_epoch er_active_players]. rewrite Z.eqb_refl, (bool_decide_eq_false_2 (_ ≠ _)) by tauto.
    cbn [negb orb]. destruct (_ || _)%bool eqn:Hg; [|done]. exfalso. rewrite !orb_true_iff in Hg.
    destruct Hg as [[[[[Hg|Hg]|Hg]|Hg]|Hg]|Hg]; try lia.
    + apply negb_true_iff, not_true_iff_false in Hg. apply Hg, windows2_spec. intros i r r' Hr Hr'. destruct (H6 i r r' Hr Hr') as [Hs Ha].
      apply strict_sorted_ascending in Ha. unfold strict_sorted_unique in Ha. rewrite Ha, Hs, Z.eqb_refl. done.
    + apply negb_true_iff, not_true_iff_false in Hg. apply Hg. rewrite windows2_fmap. by apply strict_sorted_ascending.
    + apply existsb_exists in Hg as (p & Hp%list_elem_of_In & Hg). destruct (H8 p Hp) as [Hl Hd]. apply orb_true_iff in Hg as [Hg|Hg]; [lia|].
      apply negb_true_iff, not_true_iff_false in Hg. apply Hg. rewrite windows2_fmap. by apply strict_sorted_ascending.
Qed.

(** ** Applying an event *)

Section Replicas.
Context `{ReplicationSerde, ReplicationSignatureVerifier} (blake3 : list Z → list Z).
Implicit Types (event : ReplicatedEventWire) (log : list ReplicatedEventWire).

Notation body_of e := (body (candidate e)).

Definition zero_hash : SemanticHash := SemanticHashOf (repeat 0%Z 32).

Definition event_hash event : SemanticHash :=
  match consensus_candidate_hash blake3 (body_of event) with Ok hash => hash | _ => zero_hash end.

(** The state after an accepted event. *)
Definition extended self event : ReplicatedSessionState :=
  let self := with_head_hash (with_head self (cb_height (body_of event)) (re_event_id event)) (event_hash event) in
  let self := match membership_transition (body_of event) with Some t => with_transition self t | None => self end in
  with_last_event self event.

Lemma event_validate_Ok event : event_validate blake3 event = Ok tt →
  commit_validate (certificate event) = Ok tt ∧ body_validate (body_of event) = Ok tt ∧
  consensus_candidate_hash blake3 (body_of event) = Ok (event_hash event) ∧
  candidate_hash (certificate event) = event_hash event ∧
  derive_replicated_event_id (event_hash event) = Ok (re_event_id event) ∧
  cc_room_id (certificate event) = cb_room_id (body_of event) ∧
  cc_membership_epoch (certificate event) = cb_membership_epoch (body_of event) ∧
  cc_height (certificate event) = cb_height (body_of event) ∧ cc_round (certificate event) = cb_round (body_of event).
Proof.
  unfold event_validate. intros ([] & Hc & ([] & Hcc & (hash & Hh & Hx)%bind_Ok)%bind_Ok)%bind_Ok.
  destruct (negb _); [done|]. apply bind_Ok in Hx as (id & Hid & Hx). destruct (_ || _)%bool eqn:Hg; [done|]. guards Hg.
  repeat match goal with H : bool_decide _ = false |- _ => apply bool_decide_eq_false, dec_stable in H end.
  assert (event_hash event = hash) as -> by (unfold event_hash; by rewrite Hh).
  assert (body_validate (body_of event) = Ok tt) as Hb by (unfold consensus_candidate_hash in Hh; by apply bind_Ok in Hh as ([] & ? & _)).
  split_and!; try done; try lia. congruence.
Qed.

Lemma extend_head_Ok event self self' r : extend_head blake3 event self = (self', Ok r) →
  r = Applied ∧ validate_event blake3 self event = Ok tt ∧ self' = extended self event ∧ well_formed self'.
Proof.
  unfold extend_head. intros Ha. apply M_bind_Ok in Ha as (s1 & before & [-> ->]%read_Ok & Ha). cbv beta in Ha.
  apply M_bind_Ok in Ha as (s2 & [] & [-> Hv]%lift_Ok & Ha). apply M_bind_Ok in Ha as (s3 & u & ->%update_Ok & Ha).
  apply M_bind_Ok in Ha as (s4 & hash & [-> Hh%map_err_Ok]%lift_Ok & Ha). apply M_bind_Ok in Ha as (s5 & u5 & ->%update_Ok & Ha).
  apply M_bind_Ok in Ha as (s6 & u6 & ->%update_Ok & Ha). apply M_bind_Ok in Ha as (s7 & u7 & ->%update_Ok & Ha).
  apply M_bind_Ok in Ha as (s8 & self1 & [-> ->]%read_Ok & Ha). cbv beta in Ha.
  assert (event_hash event = hash) as Heh by (unfold event_hash; by rewrite Hh). rewrite <-Heh in Ha.
  destruct (replicated_validate _) as [[]|e|] eqn:Hval; [|discriminate Ha..]. apply mret_Ok in Ha as [-> ->].
  split_and!; try done. by apply validate_well_formed.
Qed.

Lemma extend_head_Err event self self' e : extend_head blake3 event self = (self', Err e) → self' = self.
Proof.
  unfold extend_head, mbind, M_bind, read, update, lift, throw. destruct (validate_event _ _ _) as [[]|e'|] eqn:Hv; [|naive_solver..].
  assert (consensus_candidate_hash blake3 (body_of event) = Ok (event_hash event)) as ->.
  { unfold validate_event in Hv. apply bind_Ok in Hv as ([] & Hv%map_err_Ok & _). by apply event_validate_Ok in Hv as (_ & _ & ? & _). }
  cbn [map_err]. destruct (replicated_validate _); [done|by intros [= <- _]|done].
Qed.

(** The evidence recorded when [event] conflicts with the last applied one. *)
Definition fork_proof event other : ReplicatedForkProof :=
  {| fork_height := cb_height (body_of event); first_event := re_event_id other; second_event := re_event_id event;
     first_candidate_hash := event_hash other; second_candidate_hash := event_hash event |}.

Lemma record_fork_result event other self self' o : consensus_candidate_hash blake3 (body_of other) = Ok (event_hash other) →
  record_fork blake3 event other self = (self', o) →
  (∃ e, validate_historical_conflict blake3 self event = Err e ∧ o = Err e ∧ self' = self) ∨
  (validate_historical_conflict blake3 self event = Panic ∧ o = Panic ∧ self' = self) ∨
  (validate_historical_conflict blake3 self event = Ok tt ∧ o = Err ForkDetected ∧
   self' = with_forks self (forks self ++ [fork_proof event other])).
Proof.
  intros Hother. unfold record_fork, mbind, M_bind, read, update, lift, throw.
  destruct (validate_historical_conflict _ _ _) as [[]|e'|] eqn:Hv.
  - assert (consensus_candidate_hash blake3 (body_of event) = Ok (event_hash event)) as ->.
    { unfold validate_historical_conflict in Hv. apply bind_Ok in Hv as ([] & Hv%map_err_Ok & _). by apply event_validate_Ok in Hv as (_ & _ & ? & _). }
    rewrite Hother. cbn [map_err]. intros [= <- <-]. right. right. done.
  - intros [= <- <-]. left. by exists e'.
  - intros [= <- <-]. right. by left.
Qed.

Lemma apply_event_Applied event self self' : apply_event blake3 event self = (self', Ok Applied) →
  forks self = [] ∧ validate_event blake3 self event = Ok tt ∧ self' = extended self event ∧ well_formed self'.
Proof.
  unfold apply_event. intros Ha. apply M_bind_Ok in Ha as (s1 & s & [-> ->]%read_Ok & Ha). cbv beta in Ha.
  destruct (length (forks self) =? 0) eqn:Hf; [|discriminate Ha]. apply Nat.eqb_eq, nil_length_inv in Hf. cbn [negb] in Ha.
  assert (extend_head blake3 event self = (self', Ok Applied)) as (_ & ? & ? & ?)%extend_head_Ok; [|done].
  destruct (last_event self) as [other|]; [|done]. destruct (_ =? _)%Z; [|done]. case_bool_decide; [discriminate Ha|].
  destruct (same_parent _ _); [|done]. exfalso. revert Ha. unfold record_fork, mbind, M_bind, read, update, lift, throw.
  destruct (validate_historical_conflict _ _ _); [|discriminate..]. destruct (map_err _ (consensus_candidate_hash _ (body_of event))); [|discriminate..].
  destruct (map_err _ (consensus_candidate_hash _ (body_of other))); discriminate.
Qed.

(** ** What an accepted event shows *)

Lemma binary_search_by_found {A} (f : A → comparison) l i : binary_search_by f l = Some i → ∃ x, l !! i = Some x ∧ f x = Eq.
Proof.
  rewrite binary_search_by_eq. destruct (l !! _) as [x|] eqn:Hx; [|done]. destruct (f x) eqn:Hf; [|done..]. intros [= <-]. by exists x.
Qed.

Lemma roster_Some self epoch r : roster self epoch = Some r → r ∈ epoch_rosters self ∧ er_membership_epoch r = epoch.
Proof.
  unfold roster. intros (i & (x & Hx & He%cmp_Eq)%binary_search_by_found & Hr)%bind_Some. assert (x = r) as -> by congruence.
  split; [by eapply list_elem_of_lookup_2|done].
Qed.

(** With strictly ascending epochs the current epoch's roster is the last one. *)
Lemma roster_current self r : ascending (er_membership_epoch <$> epoch_rosters self) → well_formed self →
  roster self (r_membership_epoch self) = Some r →
  r = {| er_membership_epoch := r_membership_epoch self; er_active_players := active_player_ids self |}.
Proof.
  intros Ha Hw [Hr He]%roster_Some. pose proof (wf_current _ Hw) as Hl. rewrite last_lookup in Hl.
  apply list_elem_of_lookup in Hr as (i & Hi). apply ascending_NoDup in Ha. rewrite NoDup_alt in Ha.
  assert (i = pred (length (epoch_rosters self))) as ->; [|congruence].
  eapply Ha; rewrite list_lookup_fmap; [by rewrite Hi|rewrite Hl; cbn; by rewrite He].
Qed.

Lemma active_ids_ascending self : well_formed self → ascending (active_player_ids self).
Proof.
  intros Hw. pose proof (wf_players _ Hw) as Hp. unfold active_player_ids. revert Hp. induction (players self) as [|p l IH]; [done|].
  rewrite fmap_cons. intros [Hx Hl]%ascending_cons. cbn. destruct (active p); [|by apply IH]. cbn. apply ascending_cons. split; [|by apply IH].
  intros y (q & -> & Hq)%list_elem_of_fmap. apply Hx, list_elem_of_fmap. exists q. split; [done|].
  apply list_elem_of_In, List.filter_In in Hq as [Hq _]. by apply list_elem_of_In.
Qed.

Lemma body_transition b t : body_validate b = Ok tt → membership_transition b = Some t →
  next_membership_epoch t = saturating_succ (cb_membership_epoch b) ∧ 2 <= length (active_players t) ∧ ascending (active_players t).
Proof.
  unfold body_validate. destruct (_ || _)%bool; [done|]. destruct (_ || _)%bool; [done|]. intros Hb Ht. rewrite Ht in Hb.
  unfold transition_validate in Hb. destruct (_ || _)%bool eqn:Hg; [done|]. guards Hg.
  repeat match goal with H : negb _ = false |- _ => apply negb_false_iff in H end. split_and!; [lia|lia|by apply strict_sorted_ascending].
Qed.

(** The current roster of a well-formed state. *)
Definition now_roster self : ReplicatedEpochRoster :=
  {| er_membership_epoch := r_membership_epoch self; er_active_players := active_player_ids self |}.

Record accepted self event : Prop := {
  ac_valid : event_validate blake3 event = Ok tt;
  ac_room : cb_room_id (body_of event) = r_room_id self;
  ac_epoch : cb_membership_epoch (body_of event) = r_membership_epoch self;
  ac_height : cb_height (body_of event) = saturating_succ (r_height self);
  ac_parent_id : parent_event_id (body_of event) = head_event_id self;
  ac_parent : parent_event_hash (body_of event) = head_event_hash self;
  ac_proposer : ∃ i, proposer_index blake3 (head_event_hash self) (cb_height (body_of event)) (cb_round (body_of event))
      (length (active_player_ids self)) = Ok i ∧ active_player_ids self !! i = Some (proposer_player_id (body_of event));
  ac_device : ∃ d, authorized self (now_roster self) (proposer_player_id (body_of event)) (proposer_device_id (body_of event))
      Propose (r_membership_epoch self) d ∧ verify_candidate d (candidate event) = true;
  ac_certified : certified self (now_roster self) (certificate event);
  ac_joint : ∀ t, membership_transition (body_of event) = Some t → joint self (certificate event) t;
}.

Lemma replicated_event_Ok self event : ascending (er_membership_epoch <$> epoch_rosters self) → well_formed self →
  validate_event blake3 self event = Ok tt → accepted self event.
Proof.
  intros Ha Hw. unfold validate_event. intros ([] & Hv%map_err_Ok & Hx)%bind_Ok. cbv zeta in Hx.
  destruct (_ || _)%bool eqn:Hg; [done|]. guards Hg.
  repeat match goal with H : bool_decide _ = false |- _ => apply bool_decide_eq_false, dec_stable in H end.
  apply bind_Ok in Hx as (proposer & Hp & Hx). case_bool_decide as Hpr; [done|].
  apply bind_Ok in Hx as (d & Hd & Hx). destruct (verify_candidate _ _) eqn:Hver; [|done]. cbn [negb] in Hx.
  apply bind_Ok in Hx as (r & Hr%ok_or_Ok & Hx). pose proof (roster_current _ _ Ha Hw Hr) as ->.
  unfold require_device in Hd. rewrite Hr in Hd. cbn [ok_or mbind outcome_bind] in Hd.
  pose proof (active_ids_ascending _ Hw) as Hact. apply require_device_Ok in Hd; [|done].
  apply event_validate_Ok in Hv as Hev. destruct Hev as (_ & Hb & _).
  apply commit_certificate_Ok in Hx as [Hc Hj]; [|done|intros t Ht; by destruct (body_transition _ _ Hb Ht) as (_ & _ & ?)].
  split; try done; try lia.
  - unfold proposer_for in Hp. destruct (_ || _)%bool; [done|]. apply bind_Ok in Hp as (i & Hi & Hp%expect_Ok). exists i.
    split; [done|congruence].
  - exists d. split; [done|done].
Qed.

(** ** Replicas and their logs *)

Definition genesis (ids : list PrincipalId) : ReplicatedEpochRoster := {| er_membership_epoch := 1; er_active_players := ids |}.

Definition roster_step (r : ReplicatedEpochRoster) event : ReplicatedEpochRoster :=
  match membership_transition (body_of event) with
  | Some t => {| er_membership_epoch := next_membership_epoch t; er_active_players := active_players t |}
  | None => r
  end.

(** The roster a transition opens. *)
Definition opened_roster event : option ReplicatedEpochRoster :=
  (λ t, {| er_membership_epoch := next_membership_epoch t; er_active_players := active_players t |}) <$>
    membership_transition (body_of event).

(** The rosters a log has had, and the roster after it. *)
Definition rosters_of ids log : list ReplicatedEpochRoster := genesis ids :: omap opened_roster log.

Definition current_roster ids log : ReplicatedEpochRoster := foldl roster_step (genesis ids) log.

Definition head_of log : SemanticHash := match last log with Some event => event_hash event | None => zero_hash end.

(** The states a replica reaches, with the events it has applied. *)
Inductive replica (room : RoomId) (ids : list PrincipalId) : list ReplicatedEventWire → ReplicatedSessionState → Prop :=
  | replica_new roots certificates self : ids = pr_player_id <$> roots →
      replicated_new room roots certificates = Ok self → replica room ids [] self
  | replica_register log self self' c : replica room ids log self → register_device c self = (self', Ok tt) → replica room ids log self'
  | replica_stage log self self' r : replica room ids log self → stage_revocation r self = (self', Ok tt) → replica room ids log self'
  | replica_apply log self self' event : replica room ids log self → apply_event blake3 event self = (self', Ok Applied) →
      replica room ids (log ++ [event]) self'
  | replica_refuse log self self' event e : replica room ids log self → apply_event blake3 event self = (self', Err e) →
      replica room ids log self'.

(** Logs shorter than this keep heights and epochs below [u64::MAX]. *)
Definition counted log : Prop := (Z.of_nat (length log) < 2 ^ 64 - 2)%Z.

Record replica_inv room ids log self : Prop := {
  ri_room : r_room_id self = room;
  ri_ids : ((λ p, player_of p) <$> players self) = ids;
  ri_height : r_height self = Z.of_nat (length log);
  ri_last : last_event self = last log;
  ri_head_id : head_event_id self = re_event_id <$> last log;
  ri_head : head_event_hash self = head_of log;
  ri_now : now_roster self = current_roster ids log;
  ri_epochs : (er_membership_epoch <$> epoch_rosters self) = seqZ 1 (Z.of_nat (length (epoch_rosters self)));
  ri_count : r_membership_epoch self = Z.of_nat (length (epoch_rosters self)) ∧ (r_membership_epoch self <= 1 + Z.of_nat (length log))%Z;
  ri_rosters : epoch_rosters self = rosters_of ids log;
  ri_last_hash : ∀ event, last log = Some event → consensus_candidate_hash blake3 (body_of event) = Ok (event_hash event);
  ri_wf : well_formed self;
}.

Lemma seqZ_ascending m n : ascending (seqZ m n).
Proof.
  intros i j x y Hij Hx Hy. apply lookup_seqZ in Hx as [-> _]. apply lookup_seqZ in Hy as [-> _]. cbn. lia.
Qed.

Lemma inv_epochs_ascending room ids log self : replica_inv room ids log self → ascending (er_membership_epoch <$> epoch_rosters self).
Proof. intros Hi. rewrite (ri_epochs _ _ _ _ Hi). apply seqZ_ascending. Qed.

Lemma current_roster_last ids log : last (rosters_of ids log) = Some (current_roster ids log).
Proof.
  unfold rosters_of, current_roster. induction log as [|event log IH] using rev_ind; [done|].
  rewrite omap_app, foldl_app. cbn [omap list_omap foldl]. unfold roster_step at 1, opened_roster at 2.
  destruct (membership_transition _); cbn [fmap option_fmap option_map].
  - by rewrite app_comm_cons, last_snoc.
  - by rewrite app_nil_r.
Qed.

Lemma current_roster_in ids pre post : current_roster ids pre ∈ rosters_of ids (pre ++ post).
Proof.
  pose proof (current_roster_last ids pre) as Hl. rewrite last_lookup in Hl. apply list_elem_of_lookup_2 in Hl.
  unfold rosters_of in *. rewrite omap_app, app_comm_cons. apply elem_of_app. by left.
Qed.

(** Rosters depend only on the bodies of the events. *)
Lemma current_roster_bodies ids log log' : ((λ e, body_of e) <$> log) = ((λ e, body_of e) <$> log') →
  current_roster ids log = current_roster ids log'.
Proof.
  unfold current_roster. generalize (genesis ids). revert log'. induction log as [|e log IH]; intros [|e' log'] r; try done.
  rewrite !fmap_cons. intros [= He Hl]. cbn. unfold roster_step at 2 4. rewrite He. by apply IH.
Qed.

Lemma rosters_ascending self r : well_formed self → r ∈ epoch_rosters self → ascending (er_active_players r).
Proof.
  intros Hw (i & Hi)%list_elem_of_lookup. destruct (epoch_rosters self !! S i) as [r'|] eqn:Hn; [by eapply wf_rosters|].
  apply lookup_ge_None in Hn. pose proof (lookup_lt_Some _ _ _ Hi). pose proof (wf_current _ Hw) as Hl. rewrite last_lookup in Hl.
  replace (pred (length (epoch_rosters self))) with i in Hl by lia. assert (r = now_roster self) as -> by (unfold now_roster; congruence).
  by apply active_ids_ascending.
Qed.

Lemma active_ids_same self self' : ((λ p, (root p, active p)) <$> players self') = ((λ p, (root p, active p)) <$> players self) →
  active_player_ids self' = active_player_ids self ∧
  ((λ p, player_of p) <$> players self') = ((λ p, player_of p) <$> players self).
Proof.
  unfold active_player_ids. revert self'. generalize (players self) as l. intros l self'. generalize (players self') as k. clear.
  induction l as [|p l IH]; intros [|q k]; try done. rewrite !fmap_cons. intros [= Hr Ha Hl]. destruct (IH _ Hl) as [H1 H2].
  cbn. rewrite Ha, Hr. split; [|by f_equal]. destruct (active p); [|done]. cbn. rewrite Hr. by f_equal.
Qed.

Lemma add_certificate_players l c l' : add_certificate_to_players l c = Ok l' →
  ((λ p, (root p, active p)) <$> l') = ((λ p, (root p, active p)) <$> l).
Proof.
  unfold add_certificate_to_players. intros ([] & _ & (i & _ & (p & Hp%expect_Ok & Hx)%bind_Ok)%bind_Ok)%bind_Ok.
  destruct (negb _); [done|]. destruct (_ <=? _); [done|]. destruct (existsb _ _); [done|]. injection Hx as <-.
  rewrite list_fmap_insert. cbn. apply list_insert_id. rewrite list_lookup_fmap, Hp. done.
Qed.

Lemma add_certificates_players cs l l' : foldM add_certificate_to_players cs l = Ok l' →
  ((λ p, (root p, active p)) <$> l') = ((λ p, (root p, active p)) <$> l).
Proof.
  revert l. induction cs as [|c cs IH]; intros l; cbn; [by intros [= <-]|].
  intros (l1 & H1%add_certificate_players & H2%IH)%bind_Ok. by rewrite H2.
Qed.

Lemma replicated_new_inv room roots cs self : replicated_new room roots cs = Ok self →
  replica_inv room (pr_player_id <$> roots) [] self.
Proof.
  unfold replicated_new. destruct (_ || _)%bool; [done|]. intros (l & Hl%add_certificates_players & Hx)%bind_Ok.
  destruct (existsb _ l); [done|]. cbv zeta in Hx. apply bind_Ok in Hx as ([] & Hv%validate_well_formed & [= <-]).
  assert (((λ p, player_of p) <$> l) = pr_player_id <$> roots ∧ List.filter active l = l) as [Hids Hact].
  { clear Hv. revert l Hl. induction roots as [|r roots IH]; intros [|p l]; try done. rewrite !fmap_cons. intros [= Hr Ha Hl].
    destruct (IH _ Hl) as [H1 H2]. cbn. rewrite Ha, H1, H2, Hr. done. }
  split; cbn [players r_room_id r_height last_event head_event_id head_event_hash epoch_rosters r_membership_epoch]; try done.
  - unfold now_roster, current_roster, genesis, active_player_ids. cbn. by rewrite Hact, Hids.
  - unfold rosters_of, genesis. cbn. by rewrite Hids.
Qed.

Lemma register_device_Ok c self self' u : register_device c self = (self', Ok u) →
  well_formed self' ∧ (∃ l, self' = with_players self l) ∧
  ((λ p, (root p, active p)) <$> players self') = ((λ p, (root p, active p)) <$> players self).
Proof.
  unfold register_device. destruct (add_certificate_to_players _ _) as [l|e|] eqn:Hl; cbn [mbind outcome_bind]; [|done..].
  destruct (replicated_validate _) as [[]|e|] eqn:Hv; cbn [mbind outcome_bind]; [|done..]. intros [= <- _].
  split; [by apply validate_well_formed|]. split; [by exists l|]. by apply add_certificate_players in Hl.
Qed.

Lemma stage_revocation_Ok r self self' u : stage_revocation r self = (self', Ok u) →
  self' = with_staged self (staged_revocations self ++ [r]) ∧
  effective_membership_epoch r = saturating_succ (r_membership_epoch self).
Proof.
  unfold stage_revocation. intros Ha. apply M_bind_Ok in Ha as (s1 & [] & [-> _]%lift_Ok & Ha).
  apply M_bind_Ok in Ha as (s2 & s & [-> ->]%read_Ok & Ha). apply M_bind_Ok in Ha as (s3 & p & [-> _]%lift_Ok & Ha).
  apply M_bind_Ok in Ha as (s4 & d & [-> _]%lift_Ok & Ha). destruct (_ || _)%bool eqn:Hg; [discriminate Ha|]. guards Hg.
  apply update_Ok in Ha as ->. split; [done|lia].
Qed.

Lemma well_formed_staged self r : (r_membership_epoch self < effective_membership_epoch r)%Z → well_formed self →
  well_formed (with_staged self (staged_revocations self ++ [r])).
Proof.
  intros He [H1 H2 H3 H4 H5 H6 H7 H8].
  assert (∀ device epoch, revoked_at (with_staged self (staged_revocations self ++ [r])) device epoch =
    revoked_at self device epoch || bool_decide (dr_device_id r = device) && (effective_membership_epoch r <=? epoch)%Z) as Hrev.
  { intros device epoch. unfold revoked_at. cbn. rewrite existsb_app. cbn. by rewrite orb_false_r. }
  assert (∀ p epoch, length (voting_devices (with_staged self (staged_revocations self ++ [r])) p epoch) <=
    length (voting_devices self p epoch)) as Hless.
  { intros p epoch. apply filter_length_mono. intros d _. unfold votes_at. rewrite Hrev, !andb_true_iff, !negb_true_iff, orb_false_iff. tauto. }
  split; try done.
  - intros p epoch Hp. etrans; [apply Hless|]. by apply H1.
  - intros p Hp Ha. destruct (H2 p Hp Ha) as (d & Hd & Hpr). exists d. split; [|done]. rewrite <-Hd. unfold voting_devices.
    apply filter_ext_in. intros d'. unfold votes_at. rewrite Hrev. cbn [r_membership_epoch with_staged].
    replace (effective_membership_epoch r <=? r_membership_epoch self)%Z with false by lia. by rewrite andb_false_r, orb_false_r.
Qed.

(** Applying an accepted event. *)
Lemma extended_inv room ids log self event : counted log → replica_inv room ids log self → accepted self event →
  well_formed (extended self event) → replica_inv room ids (log ++ [event]) (extended self event).
Proof.
  unfold counted. intros Hlen Hi Hac Hw. pose proof Hi as [R1 R2 R3 R4 R5 R6 R7 R8 [R9 R9'] R12 R10 R11].
  destruct (event_validate_Ok _ (ac_valid _ _ Hac)) as (_ & Hb & Hh & _).
  assert (r_room_id (extended self event) = r_room_id self ∧ r_height (extended self event) = cb_height (body_of event) ∧
    last_event (extended self event) = Some event ∧ head_event_id (extended self event) = Some (re_event_id event) ∧
    head_event_hash (extended self event) = event_hash event ∧
    ((λ p, player_of p) <$> players (extended self event)) = ((λ p, player_of p) <$> players self)) as (E1 & E2 & E3 & E4 & E5 & E6).
  { unfold extended. destruct (membership_transition _); cbn; split_and!; try done. by rewrite <-list_fmap_compose. }
  split; rewrite ?E1, ?E2, ?E3, ?E4, ?E5, ?E6; unfold head_of; rewrite ?last_snoc; try done.
  - rewrite (ac_height _ _ Hac), R3, length_app. cbn. unfold saturating_succ, umax. lia.
  - unfold current_roster. rewrite foldl_app. cbn. fold (current_roster ids log). rewrite <-R7.
    unfold extended, roster_step in *. destruct (membership_transition (body_of event)) as [t|] eqn:Ht; [|done].
    pose proof (wf_current _ Hw) as Hc. cbn [epoch_rosters with_last_event with_transition with_head_hash with_head] in Hc.
    rewrite last_snoc in Hc. injection Hc as Ha. unfold now_roster. rewrite <-Ha. done.
  - unfold extended in *. destruct (membership_transition (body_of event)) as [t|] eqn:Ht; [|done].
    destruct (body_transition _ _ Hb Ht) as (Hn & _). cbn [epoch_rosters with_last_event with_transition with_head_hash with_head].
    rewrite fmap_app, length_app. cbn [length fmap list_fmap]. rewrite Nat2Z.inj_add, seqZ_app by lia. rewrite <-R8. f_equal.
    cbn [er_membership_epoch]. rewrite Hn, (ac_epoch _ _ Hac). unfold saturating_succ, umax.
    rewrite (seqZ_cons _ (Z.of_nat 1)), seqZ_nil by lia. f_equal. lia.
  - unfold extended in *. rewrite length_app. cbn [length]. destruct (membership_transition (body_of event)) as [t|] eqn:Ht; cbn; [|lia].
    destruct (body_transition _ _ Hb Ht) as (Hn & _). rewrite length_app, Hn, (ac_epoch _ _ Hac). cbn [length]. unfold saturating_succ, umax. lia.
  - unfold rosters_of, extended. rewrite omap_app. cbn [omap list_omap]. unfold opened_roster at 2.
    destruct (membership_transition (body_of event)) as [t|]; cbn [epoch_rosters with_last_event with_transition with_head_hash with_head fmap option_fmap option_map].
    + rewrite R12. done.
    + rewrite app_nil_r. done.
  - intros e [= <-]. done.
Qed.

(** A refused event changes nothing, unless it is recorded as a fork. *)
Lemma apply_event_Err event self self' e :
  (∀ other, last_event self = Some other → consensus_candidate_hash blake3 (body_of other) = Ok (event_hash other)) →
  apply_event blake3 event self = (self', Err e) →
  self' = self ∨ ∃ other, e = ForkDetected ∧ forks self = [] ∧ last_event self = Some other ∧ event ≠ other ∧
    cb_height (body_of event) = cb_height (body_of other) ∧ same_parent event other = true ∧
    validate_historical_conflict blake3 self event = Ok tt ∧ self' = with_forks self [fork_proof event other].
Proof.
  intros Hlast. unfold apply_event. intros Ha. unfold mbind at 1, M_bind at 1, read at 1 in Ha.
  destruct (length (forks self) =? 0) eqn:Hf; [|injection Ha as <- _; by left]. apply Nat.eqb_eq, nil_length_inv in Hf. cbn [negb] in Ha.
  destruct (last_event self) as [other|] eqn:Hl; [|apply extend_head_Err in Ha; by left].
  destruct (_ =? _)%Z eqn:Hh; [|apply extend_head_Err in Ha; by left]. case_bool_decide as Hne; [discriminate Ha|].
  destruct (same_parent event other) eqn:Hsp; [|apply extend_head_Err in Ha; by left].
  apply record_fork_result in Ha; [|by apply Hlast].
  destruct Ha as [(e' & _ & _ & ->)|[(_ & [=] & _)|(Hv & [= ->] & ->)]]; [by left|]. right. exists other. rewrite Hf.
  split_and!; try done. lia.
Qed.

Lemma well_formed_forks self l : well_formed self → well_formed (with_forks self l).
Proof. by intros [H1 H2 H3 H4 H5 H6 H7 H8]. Qed.

Lemma replica_invariant room ids log self : replica room ids log self → counted log → replica_inv room ids log self.
Proof.
  induction 1 as [roots cs self -> Hn|log self self' c _ IH Ha|log self self' r _ IH Ha|log self self' event _ IH Ha|log self self' event e _ IH Ha];
    intros Hc.
  - by eapply replicated_new_inv.
  - specialize (IH Hc). destruct (register_device_Ok _ _ _ _ Ha) as (Hw & [l ->] & Hs). pose proof IH as [R1 R2 R3 R4 R5 R6 R7 R8 R9 R12 R10 R11].
    destruct (active_ids_same _ _ Hs) as [H1 H2]. split; try done; [by rewrite H2|]. unfold now_roster in *. by rewrite H1.
  - specialize (IH Hc). apply stage_revocation_Ok in Ha as [-> He]. pose proof IH as [R1 R2 R3 R4 R5 R6 R7 R8 R9 R12 R10 R11].
    split; try done. apply well_formed_staged; [|done]. unfold counted in Hc. rewrite He. unfold saturating_succ, umax. lia.
  - assert (counted log) as Hc' by (unfold counted in *; rewrite length_app in Hc; cbn in Hc; lia). specialize (IH Hc').
    apply apply_event_Applied in Ha as (_ & Hv & -> & Hw). apply extended_inv; try done.
    apply replicated_event_Ok; [by eapply inv_epochs_ascending|apply IH|done].
  - specialize (IH Hc). apply apply_event_Err in Ha as [->|(other & _ & _ & _ & _ & _ & _ & _ & ->)]; [done| |].
    + pose proof IH as [R1 R2 R3 R4 R5 R6 R7 R8 R9 R12 R10 R11]. split; try done. by apply well_formed_forks.
    + intros other Ho. apply (ri_last_hash _ _ _ _ IH). by rewrite <-(ri_last _ _ _ _ IH).
Qed.

(** What a replica knew of devices and revocations it still knows, for the epochs it had
    reached. *)
Record grown self self' : Prop := {
  gr_epoch : (r_membership_epoch self <= r_membership_epoch self')%Z;
  gr_devices : ∀ p d, p ∈ players self → d ∈ devices p → ∃ q, q ∈ players self' ∧ player_of q = player_of p ∧ d ∈ devices q;
  gr_revoked : ∀ device epoch, (epoch <= r_membership_epoch self)%Z → revoked_at self' device epoch = revoked_at self device epoch;
}.

#[local] Instance grown_preorder : PreOrder grown.
Proof.
  split; [intros self; split; [lia|by intros p d ? ?; exists p|done]|].
  intros s1 s2 s3 [E1 D1 R1] [E2 D2 R2]. split; [lia| |].
  - intros p d Hp Hd. destruct (D1 p d Hp Hd) as (q & Hq & Hid & Hdq). destruct (D2 q d Hq Hdq) as (q' & ? & ? & ?).
    exists q'. split_and!; congruence.
  - intros device epoch He. rewrite R2, R1 by lia. done.
Qed.

Lemma authorized_grown self self' r player device cap epoch d : grown self self' → (epoch <= r_membership_epoch self)%Z →
  authorized self r player device cap epoch d → authorized self' r player device cap epoch d.
Proof.
  intros [_ Hd Hr] He (Ha & Hid & (p & Hp & Hpid & Hdp) & Hv & Hc & Hn). unfold authorized. rewrite Hr by done.
  destruct (Hd p d Hp Hdp) as (q & Hq & Hqid & Hdq). split_and!; try done. exists q. split_and!; congruence.
Qed.

Lemma grown_register c self self' u : register_device c self = (self', Ok u) → grown self self'.
Proof.
  unfold register_device. destruct (add_certificate_to_players _ _) as [l|e|] eqn:Hl; cbn [mbind outcome_bind]; [|done..].
  destruct (replicated_validate _) as [[]|e|]; cbn [mbind outcome_bind]; [|done..]. intros [= <- _].
  unfold add_certificate_to_players in Hl. apply bind_Ok in Hl as ([] & _ & Hl). apply bind_Ok in Hl as (i & _ & Hl).
  apply bind_Ok in Hl as (p & Hp%expect_Ok & Hl). destruct (negb _); [done|]. destruct (_ <=? _); [done|].
  destruct (existsb _ _); [done|]. injection Hl as <-. split; [done| |done].
  intros q d (j & Hj)%list_elem_of_lookup Hd. destruct (base.decide (j = i)) as [->|Hne].
  - rewrite Hp in Hj. injection Hj as ->. exists {| root := root q; active := active q; devices := sort_by_key device_id (devices q ++ [c]) |}.
    split; [|split; [done|]].
    + eapply list_elem_of_lookup_2. apply list_lookup_insert_eq. by eapply lookup_lt_Some.
    + cbn [devices]. unfold sort_by_key. rewrite sort_by_perm. apply elem_of_app. by left.
  - exists q. split; [|done]. apply (list_elem_of_lookup_2 _ j). cbn. by rewrite list_lookup_insert_ne.
Qed.

Lemma grown_stage self r : (r_membership_epoch self < effective_membership_epoch r)%Z →
  grown self (with_staged self (staged_revocations self ++ [r])).
Proof.
  intros He. split; [done|by intros p d ? ?; exists p|]. intros device epoch Hle. unfold revoked_at. cbn. rewrite existsb_app. cbn.
  replace (effective_membership_epoch r <=? epoch)%Z with false by lia. by rewrite andb_false_r, !orb_false_r.
Qed.

Lemma grown_extended self event : (r_membership_epoch self < 2 ^ 64)%Z → accepted self event → grown self (extended self event).
Proof.
  intros Hlt Ha. destruct (event_validate_Ok _ (ac_valid _ _ Ha)) as (_ & Hb & _). unfold extended.
  destruct (membership_transition (body_of event)) as [t|] eqn:Ht; [|split; [done|by intros p d ? ?; exists p|done]].
  destruct (body_transition _ _ Hb Ht) as (Hn & _). split; [cbn|intros p d Hp Hd|done].
  - rewrite Hn, (ac_epoch _ _ Ha). unfold saturating_succ, umax. lia.
  - eexists. cbn [players with_last_event with_transition with_head_hash with_head]. split; [apply list_elem_of_fmap; exists p; by split|].
    done.
Qed.

(** Every event of a log was accepted by the replica that had applied the events before it. *)
Lemma replica_prefix room ids log self pre event post : replica room ids log self → counted log → log = pre ++ event :: post →
  ∃ before, replica room ids pre before ∧ accepted before event ∧ grown before self.
Proof.
  intros Hr. revert post. induction Hr as [roots cs self -> Hn|log self self' c _ IH Ha|log self self' r Hr IH Ha|log self self' next Hr IH Ha|log self self' e' e Hr IH Ha];
    intros post Hc Hl; [by destruct pre| | | |].
  - destruct (IH post Hc Hl) as (b & ? & ? & ?). exists b. split_and!; [done..|]. etrans; [done|by eapply grown_register].
  - destruct (IH post Hc Hl) as (b & ? & ? & ?). exists b. split_and!; [done..|]. etrans; [done|].
    pose proof (ri_count _ _ _ _ (replica_invariant _ _ _ _ Hr Hc)) as [_ Hle]. apply stage_revocation_Ok in Ha as [-> He].
    apply grown_stage. rewrite He. unfold counted in Hc. unfold saturating_succ, umax. lia.
  - assert (counted log) as Hc' by (unfold counted in *; rewrite length_app in Hc; cbn in Hc; lia).
    pose proof (replica_invariant _ _ _ _ Hr Hc') as Hi. apply apply_event_Applied in Ha as (_ & Hv & -> & _).
    assert (accepted self next) as Hacc by (apply replicated_event_Ok; [by eapply inv_epochs_ascending|apply Hi|done]).
    assert (grown self (extended self next)) as Hg.
    { apply grown_extended; [|done]. pose proof (ri_count _ _ _ _ Hi) as [_ ?]. unfold counted in Hc'. lia. }
    destruct post as [|x post _] using rev_ind.
    + apply app_inj_tail in Hl as [-> ->]. by exists self.
    + rewrite app_comm_cons, app_assoc in Hl. apply app_inj_tail in Hl as [Hl _].
      destruct (IH post Hc' Hl) as (b & ? & ? & ?). exists b. split_and!; [done..|by etrans].
  - destruct (IH post Hc Hl) as (b & ? & ? & ?). exists b. split_and!; [done..|].
    apply apply_event_Err in Ha as [->|(other & _ & _ & _ & _ & _ & _ & _ & ->)]; [done| |].
    + etrans; [done|]. split; [done|by intros p d ? ?; exists p|done].
    + pose proof (replica_invariant _ _ _ _ Hr Hc) as Hi. intros other Ho. apply (ri_last_hash _ _ _ _ Hi).
      by rewrite <-(ri_last _ _ _ _ Hi).
Qed.
End Replicas.
