(* ===== verification/ReplicatedTheorems.v ===== *)
(** * Properties of the replicated session

    Agreement of replicas, accountability of forks, the contents of an applied event
    and the meaning of validation, with a three-player session as their witness. *)

From Stdlib Require Import ZifyBool.
From stdpp Require Import base strings numbers option list gmap.
From S2P Require Import Prelude Methods Protocol Bytes Retrospective RetrospectiveTheorems Replication Replicated ReplicatedInvariant.

Section Theorems.
Context `{ReplicationSerde, ReplicationSignatureVerifier} (blake3 : list Z → list Z).
Implicit Types (self : ReplicatedSessionState) (event : ReplicatedEventWire) (log : list ReplicatedEventWire).

Notation body_of e := (body (candidate e)).

(** No player precommits two values at one height. *)
Definition single_precommits log log' : Prop := ∀ e e' v v', e ∈ log → e' ∈ log' → v ∈ precommits (certificate e) →
  v' ∈ precommits (certificate e') → voter_player_id v = voter_player_id v' → cv_height v = cv_height v' → value v = value v'.

(** BLAKE3 and the JSON text tell the candidate bodies of two logs apart. *)
Definition no_candidate_collisions log log' : Prop := ∀ e e' h, e ∈ log → e' ∈ log' →
  consensus_candidate_hash blake3 (body_of e) = Ok h → consensus_candidate_hash blake3 (body_of e') = Ok h → body_of e = body_of e'.

Lemma take_prefix (log : list ReplicatedEventWire) i e : log !! i = Some e → log = take i log ++ e :: drop (S i) log.
Proof. intros Hi. symmetry. by apply take_drop_middle. Qed.

Lemma counted_take log i : counted log → counted (take i log).
Proof. unfold counted. rewrite length_take. lia. Qed.

Lemma committed_at room ids log self i e : replica blake3 room ids log self → counted log → log !! i = Some e →
  ∃ before, replica blake3 room ids (take i log) before ∧ accepted blake3 before e ∧
    now_roster before = current_roster ids (take i log) ∧ cb_height (body_of e) = (Z.of_nat i + 1)%Z.
Proof.
  intros Hr Hc Hi. destruct (replica_prefix blake3 _ _ _ _ _ _ _ Hr Hc (take_prefix _ _ _ Hi)) as (before & Hb & Ha & _).
  exists before. split; [done|]. split; [done|]. pose proof (counted_take _ i Hc) as Hc'.
  pose proof (replica_invariant blake3 _ _ _ _ Hb Hc') as Hinv. split; [by apply (ri_now _ _ _ _ _ Hinv)|].
  rewrite (ac_height _ _ _ Ha), (ri_height _ _ _ _ _ Hinv). pose proof (lookup_lt_Some _ _ _ Hi). rewrite length_take.
  unfold counted in Hc. unfold saturating_succ, umax. lia.
Qed.

(** A precommit of an accepted event names the event's hash and height. *)
Lemma precommit_value self e v : accepted blake3 self e → v ∈ precommits (certificate e) →
  value v = Candidate (event_hash blake3 e) ∧ cv_height v = cb_height (body_of e).
Proof.
  intros Ha Hv. destruct (event_validate_Ok _ _ (ac_valid _ _ _ Ha)) as (Hc & _ & _ & Hch & _ & _ & _ & Hh & _).
  destruct (commit_validate_Ok _ Hc) as (_ & _ & Hall). destruct (Hall v Hv) as (_ & _ & _ & Hvh & _ & _ & Hval).
  split; [congruence|congruence].
Qed.

Lemma bodies_agree room ids log log' self self' : replica blake3 room ids log self → replica blake3 room ids log' self' →
  counted log → counted log' → single_precommits log log' → no_candidate_collisions log log' →
  ∀ n i e e', i < n → log !! i = Some e → log' !! i = Some e' → body_of e = body_of e'.
Proof using Type.
  intros Hr Hr' Hc Hc' Hs Hn. induction n as [|n IH]; intros i e e' Hin Hi Hi'; [lia|].
  destruct (decide (i < n)) as [|Hge]; [by eapply IH|]. assert (i = n) as -> by lia.
  destruct (committed_at _ _ _ _ _ _ Hr Hc Hi) as (b & _ & Ha & Hnow & Hh).
  destruct (committed_at _ _ _ _ _ _ Hr' Hc' Hi') as (b' & _ & Ha' & Hnow' & Hh').
  assert (now_roster b = now_roster b') as Heq.
  { rewrite Hnow, Hnow'. apply current_roster_bodies. apply list_eq. intros j. rewrite !list_lookup_fmap.
    destruct (decide (j < n)) as [Hj|Hj].
    - rewrite !lookup_take_lt by done. pose proof (lookup_lt_Some _ _ _ Hi). pose proof (lookup_lt_Some _ _ _ Hi').
      destruct (lookup_lt_is_Some_2 log j) as [x Hx]; [lia|]. destruct (lookup_lt_is_Some_2 log' j) as [x' Hx']; [lia|].
      rewrite Hx, Hx'. cbn. f_equal. by eapply IH.
    - rewrite !lookup_take_ge by lia. done. }
  pose proof (ac_certified _ _ _ Ha) as Hcert. rewrite Heq in Hcert.
  destruct (certificates_meet _ _ _ _ _ Hcert (ac_certified _ _ _ Ha')) as (v & v' & Hv & Hv' & Hvoter).
  destruct (precommit_value _ _ _ Ha Hv) as [Hval Hvh]. destruct (precommit_value _ _ _ Ha' Hv') as [Hval' Hvh'].
  pose proof (list_elem_of_lookup_2 _ _ _ Hi) as He. pose proof (list_elem_of_lookup_2 _ _ _ Hi') as He'.
  assert (value v = value v') as Hvv by (eapply Hs; try done; congruence).
  rewrite Hval, Hval' in Hvv. injection Hvv as Hhash.
  destruct (event_validate_Ok _ _ (ac_valid _ _ _ Ha)) as (_ & _ & H1 & _). destruct (event_validate_Ok _ _ (ac_valid _ _ _ Ha')) as (_ & _ & H2 & _).
  eapply (Hn e e' (event_hash blake3 e)); try done. congruence.
Qed.

(** [C13] Replicas agree.  Two replicas of one room that started from the same players
    and applied their own sequences of events, in any interleaving with registrations
    and revocations, have the same candidate at every height both reached, provided
    no player precommits two values at a height and hashes tell candidates apart; at
    equal heights their heads, epochs and active players are equal. *)
Theorem replicas_agree room ids log log' self self' : replica blake3 room ids log self → replica blake3 room ids log' self' →
  counted log → counted log' → single_precommits log log' → no_candidate_collisions log log' →
  (∀ i e e', log !! i = Some e → log' !! i = Some e' → body_of e = body_of e' ∧ re_event_id e = re_event_id e') ∧
  (r_height self = r_height self' → head_event_hash self = head_event_hash self' ∧ head_event_id self = head_event_id self' ∧
     r_membership_epoch self = r_membership_epoch self' ∧ active_player_ids self = active_player_ids self').
Proof using Type.
  intros Hr Hr' Hc Hc' Hs Hn.
  assert (∀ i e e', log !! i = Some e → log' !! i = Some e' →
    body_of e = body_of e' ∧ event_hash blake3 e = event_hash blake3 e' ∧ re_event_id e = re_event_id e') as Hall.
  { intros i e e' Hi Hi'. pose proof (bodies_agree _ _ _ _ _ _ Hr Hr' Hc Hc' Hs Hn (S i) i e e' ltac:(lia) Hi Hi') as Hb.
    assert (event_hash blake3 e = event_hash blake3 e') as Hh by (unfold event_hash; by rewrite Hb). split; [done|]. split; [done|].
    destruct (committed_at _ _ _ _ _ _ Hr Hc Hi) as (b & _ & Ha & _). destruct (committed_at _ _ _ _ _ _ Hr' Hc' Hi') as (b' & _ & Ha' & _).
    destruct (event_validate_Ok _ _ (ac_valid _ _ _ Ha)) as (_ & _ & _ & _ & H1 & _).
    destruct (event_validate_Ok _ _ (ac_valid _ _ _ Ha')) as (_ & _ & _ & _ & H2 & _). congruence. }
  split; [intros i e e' Hi Hi'; by destruct (Hall i e e' Hi Hi') as (? & _ & ?)|]. intros Hheight.
  pose proof (replica_invariant blake3 _ _ _ _ Hr Hc) as Hinv. pose proof (replica_invariant blake3 _ _ _ _ Hr' Hc') as Hinv'.
  assert (length log = length log') as Hlen.
  { pose proof (ri_height _ _ _ _ _ Hinv). pose proof (ri_height _ _ _ _ _ Hinv'). lia. }
  assert (current_roster ids log = current_roster ids log') as Hros.
  { apply current_roster_bodies, list_eq. intros i. rewrite !list_lookup_fmap. destruct (log !! i) as [e|] eqn:Hi.
    - destruct (lookup_lt_is_Some_2 log' i) as [e' Hi']; [apply lookup_lt_Some in Hi; lia|]. rewrite Hi'. cbn. f_equal. by eapply Hall.
    - apply lookup_ge_None in Hi. rewrite (proj2 (lookup_ge_None log' i)) by lia. done. }
  rewrite <-(ri_now _ _ _ _ _ Hinv), <-(ri_now _ _ _ _ _ Hinv') in Hros. injection Hros as He Ha.
  rewrite (ri_head _ _ _ _ _ Hinv), (ri_head _ _ _ _ _ Hinv'), (ri_head_id _ _ _ _ _ Hinv), (ri_head_id _ _ _ _ _ Hinv').
  unfold head_of. rewrite !last_lookup, Hlen. destruct (log' !! _) as [e'|] eqn:Hi'; [|].
  - destruct (lookup_lt_is_Some_2 log (pred (length log'))) as [e Hi]; [apply lookup_lt_Some in Hi'; lia|]. rewrite Hi.
    destruct (Hall _ _ _ Hi Hi') as (_ & Hh & Hid). cbn. by rewrite Hh, Hid.
  - rewrite (proj2 (lookup_ge_None log (pred (length log')))) by (apply lookup_ge_None in Hi'; lia). done.
Qed.

Lemma historical_Ok self event : well_formed self → validate_historical_conflict blake3 self event = Ok tt →
  event_validate blake3 event = Ok tt ∧ cb_room_id (body_of event) = r_room_id self ∧
  ∃ r, r ∈ epoch_rosters self ∧ er_membership_epoch r = cb_membership_epoch (body_of event) ∧ certified self r (certificate event).
Proof.
  intros Hw. unfold validate_historical_conflict. intros ([] & Hv%map_err_Ok & (r & Hr%ok_or_Ok & Hx)%bind_Ok)%bind_Ok.
  apply roster_Some in Hr as [Hin He]. cbv zeta in Hx. destruct (_ || _)%bool eqn:Hg; [done|]. guards Hg.
  apply bool_decide_eq_false, dec_stable in Hg. apply bind_Ok in Hx as (i & _ & Hx). apply bind_Ok in Hx as (proposer & _ & Hx).
  case_bool_decide; [done|]. apply bind_Ok in Hx as (d & _ & Hx). destruct (negb _); [done|].
  destruct (event_validate_Ok _ _ Hv) as (_ & Hb & _).
  apply commit_certificate_Ok in Hx as [Hcert _]; [|by eapply rosters_ascending|intros t Ht; by destruct (body_transition _ _ Hb Ht) as (_ & _ & ?)].
  split; [done|]. split; [done|]. by exists r.
Qed.

(** [C14] Forks are accountable and halt the replica.  A replica that refuses an event
    is unchanged, unless the event conflicts with the last one applied; then it only
    records the two candidates and refuses every later event as forked.  When the
    two events claim the same membership epoch, some active player of that epoch
    signed a precommit for both, each time with a device that is registered with the
    replica as that player's, whose certificate is valid in that epoch and allows
    voting, and that is not revoked in it. *)
Theorem fork_accountable room ids log self self' event e : replica blake3 room ids log self → counted log →
  apply_event blake3 event self = (self', Err e) → self' = self ∨
  ∃ other, e = ForkDetected ∧ last log = Some other ∧ event ≠ other ∧
    self' = with_forks self [fork_proof blake3 event other] ∧
    (∀ next, apply_event blake3 next self' = (self', Err Forked)) ∧
    (cb_membership_epoch (body_of event) = cb_membership_epoch (body_of other) →
     ∃ v v' r d d', er_membership_epoch r = cb_membership_epoch (body_of other) ∧ r ∈ epoch_rosters self ∧
       v ∈ precommits (certificate other) ∧ v' ∈ precommits (certificate event) ∧
       voter_player_id v = voter_player_id v' ∧ value v = Candidate (event_hash blake3 other) ∧ value v' = Candidate (event_hash blake3 event) ∧
       cv_height v = cv_height v' ∧
       authorized self r (voter_player_id v) (voter_device_id v) CanVote (er_membership_epoch r) d ∧ verify_vote d v = true ∧
       authorized self r (voter_player_id v') (voter_device_id v') CanVote (er_membership_epoch r) d' ∧ verify_vote d' v' = true).
Proof using Type.
  intros Hr Hc Ha. pose proof (replica_invariant blake3 _ _ _ _ Hr Hc) as Hinv.
  apply apply_event_Err in Ha as [->|(other & -> & Hf & Hl & Hne & Hh & _ & Hv & ->)]; [by left| |].
  2:{ intros other Ho. apply (ri_last_hash _ _ _ _ _ Hinv). by rewrite <-(ri_last _ _ _ _ _ Hinv). }
  right. exists other. rewrite (ri_last _ _ _ _ _ Hinv) in Hl. split; [done|]. split; [done|]. split; [done|]. split; [done|].
  split; [done|]. intros Hepoch.
  destruct (historical_Ok _ _ (ri_wf _ _ _ _ _ Hinv) Hv) as (Hvalid & _ & r & Hrin & Hre & Hcert).
  apply last_Some in Hl as (pre & ->).
  destruct (replica_prefix blake3 _ _ _ _ _ _ [] Hr Hc eq_refl) as (before & Hb & Hacc & Hgrown).
  assert (counted pre) as Hcp by (unfold counted in *; rewrite length_app in Hc; cbn in Hc; lia).
  pose proof (replica_invariant blake3 _ _ _ _ Hb Hcp) as Hinvb.
  assert (r = now_roster before) as ->.
  { rewrite (ri_now _ _ _ _ _ Hinvb). pose proof (current_roster_in ids pre [other]) as Hcr.
    rewrite <-(ri_rosters _ _ _ _ _ Hinv) in Hcr. pose proof (ascending_NoDup _ (inv_epochs_ascending _ _ _ _ _ Hinv)) as Hnd.
    apply list_elem_of_lookup in Hrin as (i & Hi). apply list_elem_of_lookup in Hcr as (j & Hj). rewrite NoDup_alt in Hnd.
    assert (i = j) as ->; [|congruence]. eapply Hnd; rewrite list_lookup_fmap; [by rewrite Hi|]. rewrite Hj. cbn. f_equal.
    rewrite <-(ri_now _ _ _ _ _ Hinvb). cbn. rewrite Hre, Hepoch. symmetry. by apply (ac_epoch _ _ _ Hacc). }
  destruct (certificates_meet _ _ _ _ _ (ac_certified _ _ _ Hacc) Hcert) as (v & v' & Hvin & Hvin' & Hvoter).
  destruct (precommit_value _ _ _ Hacc Hvin) as [Hval Hvh].
  destruct (event_validate_Ok _ _ Hvalid) as (Hcv & _ & _ & Hch & _ & _ & Hce' & Hhe & _).
  destruct (event_validate_Ok _ _ (ac_valid _ _ _ Hacc)) as (_ & _ & _ & _ & _ & _ & Hce & _).
  destruct (commit_validate_Ok _ Hcv) as (_ & _ & Hall). destruct (Hall v' Hvin') as (_ & _ & _ & Hvh' & _ & _ & Hval').
  destruct (ct_votes _ _ _ (ac_certified _ _ _ Hacc) v Hvin) as (d & Hd & Hver).
  destruct (ct_votes _ _ _ Hcert v' Hvin') as (d' & Hd' & Hver').
  rewrite Hce, (ac_epoch _ _ _ Hacc) in Hd. rewrite Hce', <-Hre in Hd'.
  apply (authorized_grown _ _ _ _ _ _ _ _ Hgrown) in Hd; [|lia].
  exists v, v', (now_roster before), d, d'. split_and!; try done; congruence.
Qed.

(** What an applied event shows.  The replica advances by exactly the event: it
    extends the old head in the same room and epoch, comes from the player whose turn
    the parent's hash selects, and its certificate holds one verified precommit for
    it from each of more than half of the active players, by an authorized device
    each; a membership change also has more than half of the new players, all known.
    Applying an event twice reports a duplicate and changes nothing. *)
Theorem event_certified room ids log self self' event : replica blake3 room ids log self → counted log →
  apply_event blake3 event self = (self', Ok Applied) →
  accepted blake3 self event ∧ well_formed self' ∧ r_height self' = (r_height self + 1)%Z ∧
  head_event_hash self' = event_hash blake3 event ∧ head_event_id self' = Some (re_event_id event) ∧
  NoDup (voter_player_id <$> precommits (certificate event)) ∧
  (voter_player_id <$> precommits (certificate event)) ⊆ active_player_ids self ∧
  length (active_player_ids self) < 2 * length (precommits (certificate event)) ∧
  (∀ t, membership_transition (body_of event) = Some t → active_player_ids self' = active_players t ∧
     r_membership_epoch self' = (r_membership_epoch self + 1)%Z ∧ active_players t ⊆ ids ∧
     length (active_players t) <
       2 * length (List.filter (λ v, bool_decide (voter_player_id v ∈ active_players t)) (precommits (certificate event)))) ∧
  (membership_transition (body_of event) = None → active_player_ids self' = active_player_ids self ∧
     r_membership_epoch self' = r_membership_epoch self) ∧
  apply_event blake3 event self' = (self', Ok Duplicate).
Proof using Type.
  intros Hr Hc Ha. pose proof (replica_invariant blake3 _ _ _ _ Hr Hc) as Hinv.
  apply apply_event_Applied in Ha as (Hf & Hv & -> & Hw).
  apply replicated_event_Ok in Hv; [|by eapply inv_epochs_ascending|apply Hinv].
  pose proof (extended_inv blake3 _ _ _ _ _ Hc Hinv Hv Hw) as Hinv'.
  pose proof (ac_certified _ _ _ Hv) as Hcert. destruct (certified_voters _ _ _ Hcert) as [Hn Hsub].
  assert (∀ n m, replicated_quorum n <= m → n < 2 * m) as Hq.
  { intros n m. unfold replicated_quorum. pose proof (Nat.div_mod n 2). pose proof (Nat.mod_bound_pos n 2). lia. }
  destruct (event_validate_Ok _ _ (ac_valid _ _ _ Hv)) as (_ & Hb & Hh & _ & Hid & _).
  assert (now_roster (extended blake3 self event) = roster_step (now_roster self) event) as Hnow.
  { rewrite (ri_now _ _ _ _ _ Hinv'), (ri_now _ _ _ _ _ Hinv). unfold current_roster. by rewrite foldl_app. }
  unfold roster_step in Hnow. split_and!; try done.
  - rewrite (ri_height _ _ _ _ _ Hinv'), (ri_height _ _ _ _ _ Hinv), length_app. cbn. lia.
  - rewrite (ri_head _ _ _ _ _ Hinv'). unfold head_of. by rewrite last_snoc.
  - rewrite (ri_head_id _ _ _ _ _ Hinv'). by rewrite last_snoc.
  - apply Hq. apply (ct_quorum _ _ _ Hcert).
  - intros t Ht. rewrite Ht in Hnow. pose proof (f_equal er_membership_epoch Hnow) as He. pose proof (f_equal er_active_players Hnow) as Hact.
    cbn [now_roster er_membership_epoch er_active_players] in He, Hact. destruct (ac_joint _ _ _ Hv t Ht) as [Hknown Hjq _].
    destruct (body_transition _ _ Hb Ht) as (Hnext & _). split; [done|]. split; [|split].
    + rewrite He, Hnext, (ac_epoch _ _ _ Hv). destruct (ri_count _ _ _ _ _ Hinv) as [_ Hle]. unfold counted in Hc.
      unfold saturating_succ, umax. lia.
    + intros x Hx%Hknown. by rewrite <-(ri_ids _ _ _ _ _ Hinv).
    + by apply Hq.
  - intros Ht. rewrite Ht in Hnow. pose proof (f_equal er_membership_epoch Hnow) as He. pose proof (f_equal er_active_players Hnow) as Hact.
    cbn [now_roster er_membership_epoch er_active_players] in He, Hact. done.
  - unfold apply_event, mbind, M_bind, read. assert (forks (extended blake3 self event) = []) as ->.
    { unfold extended. by destruct (membership_transition _). }
    cbn [length Nat.eqb negb]. rewrite (ri_last _ _ _ _ _ Hinv'), last_snoc, Z.eqb_refl, bool_decide_eq_true_2 by done. done.
Qed.

(** Validation accepts exactly the well-formed states.  Although it inspects a
    player's devices only at the epochs where their authority changes, it succeeds
    if and only if at every epoch whatever at most one device of each player may
    vote; the rest of the state is well formed as stated. *)
Theorem validate_exact_replicated self : replicated_validate self = Ok tt ↔ well_formed self.
Proof using Type. apply validate_well_formed. Qed.

(** [C15] A reachable replica is well formed: its players are those it started with, in
    order, the rosters of its epochs 1, 2, .. are the genesis and the transitions of
    the applied events, each strictly ascending, the last is the current one, and
    at every epoch each player has at most one voting device, which for an active
    player at the current epoch exists and may propose. *)
Theorem replica_well_formed room ids log self : replica blake3 room ids log self → counted log →
  well_formed self ∧ r_room_id self = room ∧ ((λ p, player_of p) <$> players self) = ids ∧ r_height self = Z.of_nat (length log) ∧
  last_event self = last log ∧ head_event_hash self = head_of blake3 log ∧
  epoch_rosters self = rosters_of ids log ∧ now_roster self = current_roster ids log ∧
  (∀ i r, epoch_rosters self !! i = Some r → er_membership_epoch r = (1 + Z.of_nat i)%Z ∧ ascending (er_active_players r)).
Proof using Type.
  intros Hr Hc. pose proof (replica_invariant blake3 _ _ _ _ Hr Hc) as Hinv. pose proof (ri_wf _ _ _ _ _ Hinv) as Hw.
  split; [done|]. split_and!; try apply Hinv. intros i r Hi. split; [|eapply rosters_ascending; [done|by eapply list_elem_of_lookup_2]].
  assert ((er_membership_epoch <$> epoch_rosters self) !! i = Some (er_membership_epoch r)) as Hx by (by rewrite list_lookup_fmap, Hi).
  rewrite (ri_epochs _ _ _ _ _ Hinv) in Hx. by apply lookup_seqZ in Hx as [-> _].
Qed.
End Theorems.

(** ** Sessions of a few players *)

(** Signatures of the witness: the key named in a signature is the one that made it. *)
Definition demo_verifier : ReplicationSignatureVerifier := {|
  verify_device_certificate r c := bool_decide (key_id (dc_signature c) = pr_player_id r);
  verify_device_revocation r c := bool_decide (key_id (dr_signature c) = pr_player_id r);
  verify_candidate d c := bool_decide (ds_key_id (cw_signature c) = device_id d);
  verify_vote d v := bool_decide (ds_key_id (cv_signature v) = device_id d);
|}.

(** A stand-in for JSON that tells apart the heights, rounds and commands of bodies. *)
Definition demo_body_json (b : ConsensusCandidateBodyWire) : option (list Z) :=
  Some ([cb_height b; cb_round b] ++ concat ((λ c, hash_bytes (semantic_hash c)) <$> ordered_commands b)).

Definition demo_json : ReplicationSerde := {|
  certificate_json _ := Some []; revocation_json _ := Some []; body_json := demo_body_json; candidate_json _ := Some [];
  vote_json _ := Some []; commit_json _ := Some []; snapshot_json _ := Some [];
|}.

#[local] Existing Instances demo_verifier demo_json.

Definition demo_key (digits : string) : string := text_repeat digits 32.

Definition demo_players : list (PrincipalId * DeviceId) :=
  [(demo_key "01", demo_key "11"); (demo_key "02", demo_key "12"); (demo_key "03", demo_key "13");
   (demo_key "04", demo_key "14"); (demo_key "05", demo_key "15")].

Definition demo_roots (n : nat) : list PlayerRootWire :=
  (λ p, {| pr_schema_version := 1; pr_player_id := p.1; signing_public_key := p.1 |}) <$> take n demo_players.

Definition demo_certificates (n : nat) : list DeviceCertificateWire :=
  (λ p, {| dc_schema_version := 1; certificate_id := "certificate"; dc_player_id := p.1; device_id := p.2;
           device_signing_public_key := p.2; device_encryption_public_key := demo_key "ee"; dc_sequence := 1;
           valid_from_membership_epoch := 1; valid_through_membership_epoch := None; dc_capabilities := [Propose; CanVote];
           custody := BrowserLocal;
           dc_signature := {| domain_version := 1; algorithm := Ed25519; key_id := p.1; signature_text := "sig" |} |}) <$> take n demo_players.

Definition demo_session (n : nat) : outcome ReplicatedSessionError ReplicatedSessionState :=
  replicated_new "room" (demo_roots n) (demo_certificates n).

Definition demo_device (player : PrincipalId) : DeviceId :=
  match List.find (λ p, bool_decide (p.1 = player)) demo_players with Some p => p.2 | None => player end.

Definition demo_signature (device : DeviceId) : DeviceSignatureMetadataWire :=
  {| ds_domain_version := 1; ds_algorithm := Ed25519; ds_key_id := device; ds_signature := "sig" |}.

(** A candidate at the head of [self] by the proposer of an epoch's players, with one
    command of a given hash. *)
Definition demo_body (self : ReplicatedSessionState) (epoch : Z) (ids : list PrincipalId) (command : Z)
    (t : option MembershipTransitionWire) : outcome ReplicatedSessionError ConsensusCandidateBodyWire :=
  index ← proposer_index demo_digest (head_event_hash self) (r_height self + 1) 0 (length ids);
  proposer ← expect (ids !! index);
  Ok {| cb_schema_version := 1; cb_room_id := "room"; cb_membership_epoch := epoch;
        parent_event_id := head_event_id self; parent_event_hash := head_event_hash self; cb_height := r_height self + 1;
        cb_round := 0; proposer_player_id := proposer; proposer_device_id := demo_device proposer;
        ordered_commands := [{| rc_command_id := "command"; semantic_hash := SemanticHashOf [command] |}];
        membership_transition := t |}.

(** The event that carries a candidate with precommits of [voters]. *)
Definition demo_event (b : ConsensusCandidateBodyWire) (voters : list PrincipalId) : outcome ReplicationWireError ReplicatedEventWire :=
  hash ← consensus_candidate_hash demo_digest b;
  proposal ← derive_replicated_proposal_id demo_digest b;
  id ← derive_replicated_event_id hash;
  Ok {| re_schema_version := 1; re_event_id := id;
        candidate := {| body := b; cw_proposal_id := proposal; cw_signature := demo_signature (proposer_device_id b) |};
        certificate := {| cc_schema_version := 1; cc_room_id := "room"; cc_membership_epoch := cb_membership_epoch b;
          cc_height := cb_height b; cc_round := cb_round b; candidate_hash := hash;
          precommits := (λ p, {| cv_schema_version := 1; cv_room_id := "room"; cv_membership_epoch := cb_membership_epoch b;
            cv_height := cb_height b; cv_round := cb_round b; phase := Precommit; value := Candidate hash; voter_player_id := p;
            voter_device_id := demo_device p; lock_round := None; lock_proof_hash := None;
            cv_signature := demo_signature (demo_device p) |}) <$> voters |};
        successor_state_hash := SemanticHashOf [] |}.

Definition demo_next (self : ReplicatedSessionState) (command : Z) (t : option MembershipTransitionWire) (voters : list nat)
    : option ReplicatedEventWire :=
  match demo_body self (r_membership_epoch self) (active_player_ids self) command t with
  | Ok b => match demo_event b (omap (λ i, fst <$> demo_players !! i) voters) with Ok event => Some event | _ => None end
  | _ => None
  end.

Definition demo_ids (n : nat) : list PrincipalId := fst <$> take n demo_players.

Lemma demo_replica n self : demo_session n = Ok self → replica demo_digest "room" (demo_ids n) [] self.
Proof.
  intros Hs. eapply replica_new; [|exact Hs]. unfold demo_ids, demo_roots. rewrite <-list_fmap_compose. done.
Qed.

Lemma counted_short (log : list ReplicatedEventWire) : length log <= 9 → counted log.
Proof. unfold counted. lia. Qed.

(** One candidate certified by two different majorities of the same three players:
    no player signs two candidates, and yet the second certificate is recorded as a
    fork of the first and halts the replica. *)
Lemma same_candidate_forks : ∃ self event event' self' self'',
  demo_session 3 = Ok self ∧ demo_next self 7 None [0; 1] = Some event ∧ demo_next self 7 None [1; 2] = Some event' ∧
  body (candidate event) = body (candidate event') ∧ apply_event demo_digest event self = (self', Ok Applied) ∧
  apply_event demo_digest event' self' = (self'', Err ForkDetected) ∧ forks self'' ≠ [].
Proof.
  assert (match demo_session 3 with
          | Ok self =>
              match demo_next self 7 None [0; 1], demo_next self 7 None [1; 2] with
              | Some event, Some event' =>
                  bool_decide (body (candidate event) = body (candidate event')) &&
                  match apply_event demo_digest event self with
                  | (self', Ok Applied) =>
                      match apply_event demo_digest event' self' with
                      | (self'', Err ForkDetected) => negb (length (forks self'') =? 0)
                      | _ => false
                      end
                  | _ => false
                  end
              | _, _ => false
              end
          | _ => false
          end = true) as Hc by (vm_compute; reflexivity).
  destruct (demo_session 3) as [self|e|] eqn:H1; [|discriminate Hc..].
  destruct (demo_next self 7 None [0; 1]) as [event|] eqn:H2; [|discriminate Hc].
  destruct (demo_next self 7 None [1; 2]) as [event'|] eqn:H3; [|discriminate Hc].
  apply andb_true_iff in Hc as [Hb%bool_decide_eq_true Hc].
  destruct (apply_event demo_digest event self) as [self' [[|]|e|]] eqn:Ha; [|discriminate Hc..].
  destruct (apply_event demo_digest event' self') as [self'' [r|e|]] eqn:Ha'; [discriminate Hc| |discriminate Hc].
  destruct e; try discriminate Hc. exists self, event, event', self', self''.
  assert (forks self'' ≠ []) as Hf by (intros Hf; rewrite Hf in Hc; discriminate Hc).
  repeat (split; [first [assumption|reflexivity]|]). assumption.
Qed.

(** The two members who remain after three of five were removed: an event of epoch 1
    signed by the three removed players alone, placed beside the current head, halts
    the replica. *)
Definition demo_removal : MembershipTransitionWire :=
  {| next_membership_epoch := 2; active_players := drop 3 (demo_ids 5); revoked_devices := [] |}.

Lemma superseded_roster_halts : ∃ self0 self1 self2 self3 removal event b forged,
  demo_session 5 = Ok self0 ∧ demo_next self0 7 (Some demo_removal) [2; 3; 4] = Some removal ∧
  apply_event demo_digest removal self0 = (self1, Ok Applied) ∧ active_player_ids self1 = drop 3 (demo_ids 5) ∧
  demo_next self1 8 None [3; 4] = Some event ∧ apply_event demo_digest event self1 = (self2, Ok Applied) ∧
  demo_body self1 1 (demo_ids 5) 9 None = Ok b ∧ demo_event b (take 3 (demo_ids 5)) = Ok forged ∧
  apply_event demo_digest forged self2 = (self3, Err ForkDetected).
Proof.
  assert (match demo_session 5 with
          | Ok self0 =>
              match demo_next self0 7 (Some demo_removal) [2; 3; 4] with
              | Some removal =>
                  match apply_event demo_digest removal self0 with
                  | (self1, Ok Applied) =>
                      bool_decide (active_player_ids self1 = drop 3 (demo_ids 5)) &&
                      match demo_next self1 8 None [3; 4], demo_body self1 1 (demo_ids 5) 9 None with
                      | Some event, Ok b =>
                          match apply_event demo_digest event self1, demo_event b (take 3 (demo_ids 5)) with
                          | (self2, Ok Applied), Ok forged =>
                              match apply_event demo_digest forged self2 with (_, Err ForkDetected) => true | _ => false end
                          | _, _ => false
                          end
                      | _, _ => false
                      end
                  | _ => false
                  end
              | None => false
              end
          | _ => false
          end = true) as Hc by (vm_compute; reflexivity).
  destruct (demo_session 5) as [self0|e|] eqn:H7; [|discriminate Hc..].
  destruct (demo_next self0 7 (Some demo_removal) [2; 3; 4]) as [removal|] eqn:H8; [|discriminate Hc].
  destruct (apply_event demo_digest removal self0) as [self1 [[|]|e|]] eqn:H1; [|discriminate Hc..].
  apply andb_true_iff in Hc as [Hact%bool_decide_eq_true Hc].
  destruct (demo_next self1 8 None [3; 4]) as [event|] eqn:H2; [|discriminate Hc].
  destruct (demo_body self1 1 (demo_ids 5) 9 None) as [b|e|] eqn:H3; [|discriminate Hc..].
  destruct (apply_event demo_digest event self1) as [self2 [[|]|e|]] eqn:H4; [|discriminate Hc..].
  destruct (demo_event b (take 3 (demo_ids 5))) as [forged|e|] eqn:H5; [|discriminate Hc..].
  destruct (apply_event demo_digest forged self2) as [self3 [r|e|]] eqn:H6; [discriminate Hc| |discriminate Hc].
  destruct e; try discriminate Hc. exists self0, self1, self2, self3, removal, event, b, forged.
  repeat (split; [first [assumption|reflexivity]|]). assumption.
Qed.

Definition same_values (event event' : ReplicatedEventWire) : bool :=
  forallb (λ v, forallb (λ v', bool_decide (value v = value v')) (precommits (certificate event'))) (precommits (certificate event)).

Lemma same_values_single event event' : same_values event event' = true → single_precommits [event] [event'].
Proof.
  intros Hs e e' v v' He He' Hv Hv' _ _. apply list_elem_of_singleton in He as ->. apply list_elem_of_singleton in He' as ->.
  unfold same_values in Hs. rewrite forallb_forall in Hs. apply list_elem_of_In in Hv. specialize (Hs v Hv). rewrite forallb_forall in Hs.
  apply list_elem_of_In in Hv'. specialize (Hs v' Hv'). by apply bool_decide_eq_true in Hs.
Qed.

Lemma replicas_agree_witness : ∃ event event' self self',
  (replica demo_digest "room" (demo_ids 3) [event] self ∧ replica demo_digest "room" (demo_ids 3) [event'] self' ∧
   counted [event] ∧ counted [event'] ∧ single_precommits [event] [event'] ∧ no_candidate_collisions demo_digest [event] [event']) ∧
  certificate event ≠ certificate event' ∧ body (candidate event) = body (candidate event') ∧ head_event_id self = head_event_id self'.
Proof.
  assert (match demo_session 3 with
          | Ok self =>
              match demo_next self 7 None [0; 1], demo_next self 7 None [1; 2] with
              | Some event, Some event' =>
                  bool_decide (body (candidate event) = body (candidate event')) && same_values event event' &&
                  negb (bool_decide (certificate event = certificate event')) &&
                  match apply_event demo_digest event self, apply_event demo_digest event' self with
                  | (self, Ok Applied), (self', Ok Applied) => (r_height self =? r_height self')%Z
                  | _, _ => false
                  end
              | _, _ => false
              end
          | _ => false
          end = true) as Hc by (vm_compute; reflexivity).
  destruct (demo_session 3) as [self|e|] eqn:H1; [|discriminate Hc..].
  destruct (demo_next self 7 None [0; 1]) as [event|]; [|discriminate Hc].
  destruct (demo_next self 7 None [1; 2]) as [event'|]; [|discriminate Hc].
  apply andb_true_iff in Hc as [[[Hb%bool_decide_eq_true Hs]%andb_true_iff Hd%negb_true_iff%bool_decide_eq_false]%andb_true_iff Hc].
  destruct (apply_event demo_digest event self) as [self1 [[|]|e|]] eqn:Ha; [|discriminate Hc..].
  destruct (apply_event demo_digest event' self) as [self2 [[|]|e|]] eqn:Ha'; [|discriminate Hc..]. apply Z.eqb_eq in Hc.
  pose proof (demo_replica 3 self H1) as Hr.
  pose proof (replica_apply demo_digest _ _ _ _ _ _ Hr Ha) as Hr1. pose proof (replica_apply demo_digest _ _ _ _ _ _ Hr Ha') as Hr2.
  assert (counted [event] ∧ counted [event']) as [Hc1 Hc2] by (split; apply counted_short; cbn; lia).
  pose proof (same_values_single _ _ Hs) as Hsingle.
  assert (no_candidate_collisions demo_digest [event] [event']) as Hn.
  { intros e e' h He He' _ _. apply list_elem_of_singleton in He as ->. apply list_elem_of_singleton in He' as ->. exact Hb. }
  destruct (replicas_agree demo_digest "room" (demo_ids 3) [event] [event'] self1 self2 Hr1 Hr2 Hc1 Hc2 Hsingle Hn) as [Hall Hheads].
  destruct (Hall 0 event event' eq_refl eq_refl) as [Hbody _]. destruct (Hheads Hc) as (_ & Hid & _).
  exists event, event', self1, self2.
  exact (conj (conj Hr1 (conj Hr2 (conj Hc1 (conj Hc2 (conj Hsingle Hn))))) (conj Hd (conj Hbody Hid))).
Defined.

(** Two candidates at one height: Bob signs both. *)
Lemma fork_accountable_witness : ∃ other event self self' e,
  (replica demo_digest "room" (demo_ids 3) [other] self ∧ counted [other] ∧ apply_event demo_digest event self = (self', Err e)) ∧
  self' ≠ self ∧ e = ForkDetected ∧
  ∃ v v', v ∈ precommits (certificate other) ∧ v' ∈ precommits (certificate event) ∧ voter_player_id v = voter_player_id v' ∧
    value v ≠ value v'.
Proof.
  assert (match demo_session 3 with
          | Ok self =>
              match demo_next self 7 None [0; 1], demo_next self 8 None [1; 2] with
              | Some other, Some event =>
                  bool_decide (event_hash demo_digest other ≠ event_hash demo_digest event) &&
                  (cb_membership_epoch (body (candidate event)) =? cb_membership_epoch (body (candidate other)))%Z &&
                  match apply_event demo_digest other self with
                  | (self, Ok Applied) =>
                      match apply_event demo_digest event self with
                      | (self', Err _) => negb (length (forks self') =? length (forks self))
                      | _ => false
                      end
                  | _ => false
                  end
              | _, _ => false
              end
          | _ => false
          end = true) as Hc by (vm_compute; reflexivity).
  destruct (demo_session 3) as [self0|e|] eqn:H1; [|discriminate Hc..].
  destruct (demo_next self0 7 None [0; 1]) as [other|]; [|discriminate Hc].
  destruct (demo_next self0 8 None [1; 2]) as [event|]; [|discriminate Hc].
  apply andb_true_iff in Hc as [[Hne%bool_decide_eq_true He%Z.eqb_eq]%andb_true_iff Hc].
  destruct (apply_event demo_digest other self0) as [self [[|]|e|]] eqn:Ha; [|discriminate Hc..].
  destruct (apply_event demo_digest event self) as [self' [r|e|]] eqn:Ha'; [discriminate Hc| |discriminate Hc].
  pose proof (replica_apply demo_digest _ _ _ _ _ _ (demo_replica 3 self0 H1) Ha) as Hr.
  assert (counted [other]) as Hcount by (apply counted_short; cbn; lia).
  assert (self' ≠ self) as Hd by (intros ->; rewrite Nat.eqb_refl in Hc; discriminate Hc).
  destruct (fork_accountable demo_digest "room" (demo_ids 3) [other] self self' event e Hr Hcount Ha') as [Heq|Hfork]; [destruct (Hd Heq)|].
  destruct Hfork as (o & Hfe & Hl & _ & _ & _ & Hblame). injection Hl as <-.
  destruct (Hblame He) as (v & v' & _ & _ & _ & _ & _ & Hv & Hv' & Hvoter & Hval & Hval' & _).
  exists other, event, self, self', e. split; [exact (conj Hr (conj Hcount Ha'))|]. split; [exact Hd|]. split; [exact Hfe|].
  exists v, v'. split; [exact Hv|]. split; [exact Hv'|]. split; [exact Hvoter|]. rewrite Hval, Hval'. intros Hx. injection Hx as Hx.
  exact (Hne Hx).
Defined.

(** Removing three of five players, certified by the third and the two who remain. *)
Lemma event_certified_witness : ∃ self self' event,
  (replica demo_digest "room" (demo_ids 5) [] self ∧ counted [] ∧ apply_event demo_digest event self = (self', Ok Applied)) ∧
  length (active_player_ids self) < 2 * length (precommits (certificate event)) ∧
  active_player_ids self' = drop 3 (demo_ids 5) ∧ apply_event demo_digest event self' = (self', Ok Duplicate).
Proof.
  assert (match demo_session 5 with
          | Ok self =>
              match demo_next self 7 (Some demo_removal) [2; 3; 4] with
              | Some event => bool_decide (membership_transition (body (candidate event)) = Some demo_removal) &&
                  match apply_event demo_digest event self with (_, Ok Applied) => true | _ => false end
              | None => false
              end
          | _ => false
          end = true) as Hc by (vm_compute; reflexivity).
  destruct (demo_session 5) as [self|e|] eqn:H1; [|discriminate Hc..].
  destruct (demo_next self 7 (Some demo_removal) [2; 3; 4]) as [event|]; [|discriminate Hc].
  apply andb_true_iff in Hc as [Ht%bool_decide_eq_true Hc].
  destruct (apply_event demo_digest event self) as [self' [[|]|e|]] eqn:Ha; [|discriminate Hc..].
  pose proof (demo_replica 5 self H1) as Hr. assert (counted []) as Hcount by (apply counted_short; cbn; lia).
  destruct (event_certified demo_digest "room" (demo_ids 5) [] self self' event Hr Hcount Ha)
    as (_ & _ & _ & _ & _ & _ & _ & Hq & Hj & _ & Hdup).
  destruct (Hj _ Ht) as [Hact _]. exists self, self', event.
  exact (conj (conj Hr (conj Hcount Ha)) (conj Hq (conj Hact Hdup))).
Defined.

Lemma replica_well_formed_witness : ∃ self,
  (replica demo_digest "room" (demo_ids 3) [] self ∧ counted []) ∧ well_formed self ∧
  epoch_rosters self = [{| er_membership_epoch := 1; er_active_players := demo_ids 3 |}].
Proof.
  assert (match demo_session 3 with Ok _ => true | _ => false end = true) as Hc by (vm_compute; reflexivity).
  destruct (demo_session 3) as [self|e|] eqn:H1; [|discriminate Hc..].
  pose proof (demo_replica 3 self H1) as Hr. assert (counted []) as Hcount by (apply counted_short; cbn; lia).
  destruct (replica_well_formed demo_digest "room" (demo_ids 3) [] self Hr Hcount) as (Hw & _ & _ & _ & _ & _ & Hro & _).
  exists self. exact (conj (conj Hr Hcount) (conj Hw Hro)).
Defined.
