(* ===== verification/ReplicatedLog.v ===== *)
(** * The delivery log of the replicated runtime (crates/poche-runtime, replicated.rs and signature.rs)

    One replica's committed prefix with its buffer of future events, the admission
    and ordering of proposals, certification, snapshots, the Ed25519 adapter of the
    session's verification port and the registered scenario.  BLAKE3, the Ed25519
    primitive and Serde's JSON text are parameters. *)

From Stdlib Require Import Ascii.
From stdpp Require Import base strings numbers option list gmap pretty.
From S2P Require Import Prelude Methods Protocol Bytes Replication Replicated.

(** ** Hexadecimal keys and signatures *)

(** The value of a digit in base 16, either case *)
Definition hex_value (byte : Z) : option Z :=
  if is_ascii_digit byte then Some (byte - 48)%Z
  else if ((97 <=? byte) && (byte <=? 102))%Z then Some (byte - 87)%Z
  else if ((65 <=? byte) && (byte <=? 70))%Z then Some (byte - 55)%Z
  else None.

(** [u8::from_str_radix(pair, 16)] of two bytes: a leading plus sign is a sign *)
Definition hex_pair (a b : Z) : option Z :=
  if (a =? 43)%Z then hex_value b else x ← hex_value a; y ← hex_value b; Some (x * 16 + y)%Z.

Fixpoint hex_pairs (l : list Z) : option (list Z) :=
  match l with
  | [] => Some []
  | [_] => None
  | a :: b :: l => byte ← hex_pair a b; rest ← hex_pairs l; Some (byte :: rest)
  end.

Definition decode_hex (n : nat) (encoded : string) : option (list Z) :=
  if negb (String.length encoded =? n * 2) then None else hex_pairs (text_bytes encoded).

Section Verifier.
(** [VerifyingKey::from_bytes] followed by [verify_strict]: key, message, signature *)
Context `{ReplicationSerde} (blake3 : list Z → list Z) (ed25519_verify_strict : list Z → list Z → list Z → bool).

Definition verify_ed25519_hex (public_key signature : string) (bytes : list Z) : bool :=
  match decode_hex 32 public_key, decode_hex 64 signature with
  | Some key, Some signature => ed25519_verify_strict key bytes signature
  | _, _ => false
  end.

(** [is_ok_and] *)
Definition signed_by {E} (key signature : string) (bytes : outcome E (list Z)) : bool :=
  match bytes with Ok bytes => verify_ed25519_hex key signature bytes | _ => false end.

Definition Ed25519ReplicationVerifier : ReplicationSignatureVerifier := {|
  verify_device_certificate r c := bool_decide (dc_player_id c = pr_player_id r) &&
    signed_by (signing_public_key r) (signature_text (dc_signature c)) (canonical_device_certificate_bytes (certificate_unsigned c));
  verify_device_revocation r v := bool_decide (dr_player_id v = pr_player_id r) &&
    signed_by (signing_public_key r) (signature_text (dr_signature v)) (canonical_device_revocation_bytes (revocation_unsigned v));
  verify_candidate d c := bool_decide (proposer_player_id (body c) = dc_player_id d) &&
    bool_decide (proposer_device_id (body c) = device_id d) &&
    signed_by (device_signing_public_key d) (ds_signature (cw_signature c))
      (canonical_consensus_candidate_bytes blake3 (candidate_unsigned c));
  verify_vote d v := bool_decide (voter_player_id v = dc_player_id d) && bool_decide (voter_device_id v = device_id d) &&
    signed_by (device_signing_public_key d) (ds_signature (cv_signature v)) (canonical_consensus_vote_bytes (vote_unsigned v));
|}.
End Verifier.

(** ** Data *)

Record RuntimeDeviceAuthority : Type := {
  rd_device_id : DeviceId; rd_player_id : PrincipalId; valid_from_epoch : Z; revoked_from_epoch : option Z;
}.

Record RuntimeMembership : Type := { rm_epoch : Z; rm_active_players : list PrincipalId }.

Record RuntimeSemanticProposal : Type := {
  sp_player_id : PrincipalId; sp_device_id : DeviceId; sp_membership_epoch : Z; transition_key : string;
  command_hash : SemanticHash;
}.

Record RuntimeCandidateBatch : Type := {
  rb_membership_epoch : Z; rb_proposals : list RuntimeSemanticProposal; batch_hash : SemanticHash;
}.

Record CertifiedRuntimeEvent : Type := {
  ce_height : Z; ce_membership_epoch : Z; ce_parent_event_hash : SemanticHash; batch : RuntimeCandidateBatch;
  signer_players : list PrincipalId; next_membership : option RuntimeMembership;
  ce_successor_state_hash : SemanticHash; ce_event_hash : SemanticHash;
}.

Record RuntimeCertifiedSnapshot : Type := {
  sn_height : Z; sn_head_event_hash : SemanticHash; sn_state_hash : SemanticHash; sn_membership : RuntimeMembership;
  sn_certificate_hash : SemanticHash;
}.

Record ReplicatedRuntimeLog : Type := {
  membership : RuntimeMembership; height : Z; log_head_event_hash : SemanticHash; log_state_hash : SemanticHash;
  committed : list CertifiedRuntimeEvent; buffered : gmap Z (list CertifiedRuntimeEvent); forked : bool;
}.

Record RuntimeDeliveryReceipt : Type := { applied : nat; newly_buffered : nat; duplicates : nat }.

Inductive ReplicatedRuntimeError : Type :=
  | RtInvalidMembership | RtUnknownDevice | RtStaleEpoch | RtRevokedDevice | InactivePlayer | InvalidProposal
  | ConflictingProposal | RtNoQuorum | RtNoJointQuorum | WrongParent | RtInvalidEvent | RtInvalidSnapshot | CertifiedFork | RtForked.

#[export] Instance RuntimeMembership_eq_dec : EqDecision RuntimeMembership.
Proof. solve_decision. Defined.
#[export] Instance RuntimeSemanticProposal_eq_dec : EqDecision RuntimeSemanticProposal.
Proof. solve_decision. Defined.
#[export] Instance RuntimeCandidateBatch_eq_dec : EqDecision RuntimeCandidateBatch.
Proof. solve_decision. Defined.
#[export] Instance CertifiedRuntimeEvent_eq_dec : EqDecision CertifiedRuntimeEvent.
Proof. solve_decision. Defined.
#[export] Instance ReplicatedRuntimeError_eq_dec : EqDecision ReplicatedRuntimeError.
Proof. solve_decision. Defined.

(** ** Membership *)

Definition membership_validate (self : RuntimeMembership) : outcome ReplicatedRuntimeError unit :=
  if (rm_epoch self =? 0)%Z || (length (rm_active_players self) <? 2) || negb (strict_sorted_unique (rm_active_players self))
  then Err RtInvalidMembership else Ok tt.

Definition membership_quorum (self : RuntimeMembership) : nat := replicated_quorum (length (rm_active_players self)).

Definition membership_contains (self : RuntimeMembership) (player : PrincipalId) : bool := search_ok player (rm_active_players self).

Definition validate_joint_quorum (signers : list PrincipalId) (old next : RuntimeMembership) : outcome ReplicatedRuntimeError unit :=
  _ ← membership_validate next;
  if negb (rm_epoch next =? saturating_succ (rm_epoch old))%Z ||
     (length (List.filter (membership_contains old) signers) <? membership_quorum old) ||
     (length (List.filter (membership_contains next) signers) <? membership_quorum next)
  then Err RtNoJointQuorum else Ok tt.

(** ** Pools *)

Notation Pool := (list (string * RuntimeSemanticProposal)) (only parsing).

Definition admit_proposal (pool : Pool) (p : RuntimeSemanticProposal) (m : RuntimeMembership)
    (directory : list RuntimeDeviceAuthority) : outcome ReplicatedRuntimeError Pool :=
  if (String.length (transition_key p) =? 0) || (128 <? String.length (transition_key p)) then Err InvalidProposal
  else if negb (sp_membership_epoch p =? rm_epoch m)%Z then Err RtStaleEpoch
  else
    authority ← ok_or (List.find (λ a, bool_decide (rd_device_id a = sp_device_id p)) directory) RtUnknownDevice;
    if bool_decide (rd_player_id authority ≠ sp_player_id p) || (sp_membership_epoch p <? valid_from_epoch authority)%Z
    then Err RtUnknownDevice
    else if negb (membership_contains m (sp_player_id p)) then Err InactivePlayer
    else if is_some_and (revoked_from_epoch authority) (λ epoch, epoch <=? sp_membership_epoch p)%Z then Err RtRevokedDevice
    else match map_get (transition_key p) pool with
         | Some existing =>
             if bool_decide (command_hash existing ≠ command_hash p) then Err ConflictingProposal else Ok pool
         | None => Ok (map_insert (transition_key p) p pool)
         end.

Section Log.
Context (blake3 : list Z → list Z).

(** ** Hashes *)

Definition hash_part (bytes : list Z) : list Z :=
  be_bytes 8 (match checked 64 (Z.of_nat (length bytes)) with Some n => n | None => umax 64 end) ++ bytes.

Definition proposal_batch_hash (epoch : Z) (proposals : list RuntimeSemanticProposal) : SemanticHash :=
  SemanticHashOf (blake3 (hash_part (signing_domain "RUNTIME-BATCH") ++ hash_part (be_bytes 8 epoch) ++
    concat ((λ p, hash_part (text_bytes (transition_key p)) ++ hash_part (hash_bytes (command_hash p))) <$> proposals))).

Definition membership_parts (m : option RuntimeMembership) : list Z :=
  match m with
  | Some m => hash_part (be_bytes 8 (rm_epoch m)) ++ concat ((λ p, hash_part (text_bytes p)) <$> rm_active_players m)
  | None => []
  end.

Definition successor_hash (prior : SemanticHash) (b : RuntimeCandidateBatch) (next : option RuntimeMembership) : SemanticHash :=
  SemanticHashOf (blake3 (hash_part (signing_domain "RUNTIME-STATE") ++ hash_part (hash_bytes prior) ++
    hash_part (hash_bytes (batch_hash b)) ++ membership_parts next)).

Definition runtime_event_hash (height : Z) (parent b : SemanticHash) (signers : list PrincipalId)
    (next : option RuntimeMembership) (successor : SemanticHash) : SemanticHash :=
  SemanticHashOf (blake3 (hash_part (signing_domain "RUNTIME-EVENT") ++ hash_part (be_bytes 8 height) ++
    hash_part (hash_bytes parent) ++ hash_part (hash_bytes b) ++ concat ((λ p, hash_part (text_bytes p)) <$> signers) ++
    membership_parts next ++ hash_part (hash_bytes successor))).

Definition certificate_hash (event : CertifiedRuntimeEvent) : SemanticHash :=
  SemanticHashOf (blake3 (hash_part (signing_domain "RUNTIME-CERTIFICATE") ++ hash_part (hash_bytes (ce_event_hash event)) ++
    concat ((λ p, hash_part (text_bytes p)) <$> signer_players event))).

Definition candidate_from_pool (epoch : Z) (pool : Pool) : outcome ReplicatedRuntimeError RuntimeCandidateBatch :=
  if length pool =? 0 then Err InvalidProposal
  else
    let proposals := snd <$> pool in
    Ok {| rb_membership_epoch := epoch; rb_proposals := proposals; batch_hash := proposal_batch_hash epoch proposals |}.

(** ** Events *)

Definition validate_certified_event (event : CertifiedRuntimeEvent) (m : RuntimeMembership) : outcome ReplicatedRuntimeError unit :=
  if negb (ce_membership_epoch event =? rm_epoch m)%Z || negb (rb_membership_epoch (batch event) =? rm_epoch m)%Z ||
     (length (rb_proposals (batch event)) =? 0) ||
     negb (windows2 (λ a b, ltb (transition_key a) (transition_key b)) (rb_proposals (batch event))) ||
     bool_decide (proposal_batch_hash (rm_epoch m) (rb_proposals (batch event)) ≠ batch_hash (batch event)) ||
     existsb (λ player, negb (membership_contains m player)) (signer_players event) ||
     negb (windows2 ltb (signer_players event)) || (length (signer_players event) <? membership_quorum m)
  then Err RtInvalidEvent
  else
    let expected := runtime_event_hash (ce_height event) (ce_parent_event_hash event) (batch_hash (batch event))
                      (signer_players event) (next_membership event) (ce_successor_state_hash event) in
    if bool_decide (expected ≠ ce_event_hash event) then Err RtInvalidEvent else Ok tt.

Definition certify_event (log : ReplicatedRuntimeLog) (b : RuntimeCandidateBatch) (signers : list PrincipalId)
    (next : option RuntimeMembership) : outcome ReplicatedRuntimeError CertifiedRuntimeEvent :=
  let signers := sort_by_key (λ player, player) signers in
  if negb (windows2 ltb signers) || existsb (λ player, negb (membership_contains (membership log) player)) signers ||
     (length signers <? membership_quorum (membership log))
  then Err RtNoQuorum
  else if negb (rb_membership_epoch b =? rm_epoch (membership log))%Z then Err RtStaleEpoch
  else
    _ ← match next with Some next => validate_joint_quorum signers (membership log) next | None => Ok tt end;
    let height := saturating_succ (height log) in
    let successor := successor_hash (log_state_hash log) b next in
    Ok {| ce_height := height; ce_membership_epoch := rm_epoch (membership log);
          ce_parent_event_hash := log_head_event_hash log; batch := b; signer_players := signers; next_membership := next;
          ce_successor_state_hash := successor;
          ce_event_hash := runtime_event_hash height (log_head_event_hash log) (batch_hash b) signers next successor |}.

(** ** The log *)

Local Notation A T := (M ReplicatedRuntimeLog ReplicatedRuntimeError T).

Definition with_buffered (self : ReplicatedRuntimeLog) (b : gmap Z (list CertifiedRuntimeEvent)) : ReplicatedRuntimeLog :=
  {| membership := membership self; height := height self; log_head_event_hash := log_head_event_hash self;
     log_state_hash := log_state_hash self; committed := committed self; buffered := b; forked := forked self |}.

Definition with_forked (self : ReplicatedRuntimeLog) : ReplicatedRuntimeLog :=
  {| membership := membership self; height := height self; log_head_event_hash := log_head_event_hash self;
     log_state_hash := log_state_hash self; committed := committed self; buffered := buffered self; forked := true |}.

(** The assignments of [apply_next] *)
Definition with_committed (self : ReplicatedRuntimeLog) (event : CertifiedRuntimeEvent) : ReplicatedRuntimeLog :=
  {| membership := match next_membership event with Some next => next | None => membership self end;
     height := ce_height event; log_head_event_hash := ce_event_hash event;
     log_state_hash := ce_successor_state_hash event; committed := committed self ++ [event];
     buffered := buffered self; forked := forked self |}.

Definition runtime_log_new (m : RuntimeMembership) : outcome ReplicatedRuntimeError ReplicatedRuntimeLog :=
  _ ← membership_validate m;
  Ok {| membership := m; height := 0; log_head_event_hash := SemanticHashOf (repeat 0%Z 32);
        log_state_hash := SemanticHashOf (repeat 66%Z 32); committed := []; buffered := ∅; forked := false |}.

Definition check_next (self : ReplicatedRuntimeLog) (event : CertifiedRuntimeEvent) : outcome ReplicatedRuntimeError unit :=
  _ ← validate_certified_event event (membership self);
  if negb (ce_height event =? saturating_succ (height self))%Z ||
     bool_decide (ce_parent_event_hash event ≠ log_head_event_hash self)
  then Err WrongParent
  else
    _ ← match next_membership event with
        | Some next => validate_joint_quorum (signer_players event) (membership self) next
        | None => Ok tt
        end;
    if bool_decide (ce_successor_state_hash event ≠ successor_hash (log_state_hash self) (batch event) (next_membership event))
    then Err RtInvalidEvent else Ok tt.

Definition apply_next (event : CertifiedRuntimeEvent) : A unit :=
  self ← read (λ self, self);
  _ ← lift (check_next self event);
  update (λ self, with_committed self event).

(** [Vec::dedup] *)
Fixpoint dedup (l : list CertifiedRuntimeEvent) : list CertifiedRuntimeEvent :=
  match l with
  | x :: l' => match l' with y :: _ => if bool_decide (x = y) then dedup l' else x :: dedup l' | [] => [x] end
  | [] => []
  end.

(** The loop that drains a contiguous tail; [None] when [fuel] runs out *)
Fixpoint drain (fuel : nat) (receipt : RuntimeDeliveryReceipt) : A (option RuntimeDeliveryReceipt) :=
  match fuel with
  | O => mret None
  | S fuel =>
      self ← read (λ self, self);
      let next_height := saturating_succ (height self) in
      match buffered self !! next_height with
      | None => mret (Some receipt)
      | Some candidates =>
          _ ← update (λ self, with_buffered self (delete next_height (buffered self)));
          match dedup (sort_by_key (λ e, hash_bytes (ce_event_hash e)) candidates) with
          | [event] =>
              _ ← apply_next event;
              drain fuel {| applied := S (applied receipt); newly_buffered := newly_buffered receipt; duplicates := duplicates receipt |}
          | _ => _ ← update with_forked; throw CertifiedFork
          end
      end
  end.

(** Every turn of the loop removes one buffered height. *)
Definition ingest (event : CertifiedRuntimeEvent) : A (option RuntimeDeliveryReceipt) :=
  self ← read (λ self, self);
  if forked self then throw RtForked
  else match List.find (λ c, (ce_height c =? ce_height event)%Z) (committed self) with
       | Some known =>
           if bool_decide (known = event) then mret (Some {| applied := 0; newly_buffered := 0; duplicates := 1 |})
           else (_ ← update with_forked; throw CertifiedFork)
       | None =>
           if (saturating_succ (height self) <? ce_height event)%Z then
             let queue := match buffered self !! ce_height event with Some queue => queue | None => [] end in
             if existsb (λ queued, bool_decide (queued = event)) queue
             then
               _ ← update (λ self, with_buffered self (<[ce_height event := queue]> (buffered self)));
               mret (Some {| applied := 0; newly_buffered := 0; duplicates := 1 |})
             else
               _ ← update (λ self, with_buffered self (<[ce_height event := queue ++ [event]]> (buffered self)));
               mret (Some {| applied := 0; newly_buffered := 1; duplicates := 0 |})
           else
             _ ← apply_next event;
             drain (S (size (buffered self))) {| applied := 1; newly_buffered := 0; duplicates := 0 |}
       end.

Definition snapshot (self : ReplicatedRuntimeLog) : outcome ReplicatedRuntimeError RuntimeCertifiedSnapshot :=
  event ← ok_or (last (committed self)) RtInvalidSnapshot;
  Ok {| sn_height := height self; sn_head_event_hash := log_head_event_hash self; sn_state_hash := log_state_hash self;
        sn_membership := membership self; sn_certificate_hash := certificate_hash event |}.

Definition from_snapshot (s : RuntimeCertifiedSnapshot) : outcome ReplicatedRuntimeError ReplicatedRuntimeLog :=
  _ ← membership_validate (sn_membership s);
  if (sn_height s =? 0)%Z || bool_decide (sn_head_event_hash s = SemanticHashOf (repeat 0%Z 32)) ||
     bool_decide (sn_certificate_hash s = SemanticHashOf (repeat 0%Z 32))
  then Err RtInvalidSnapshot
  else Ok {| membership := sn_membership s; height := sn_height s; log_head_event_hash := sn_head_event_hash s;
             log_state_hash := sn_state_hash s; committed := []; buffered := ∅; forked := false |}.
End Log.

(** ** The registered delivery scenario (crates/poche-runtime, replicated.rs)
    Four replicas receive four certified events around a reordering, a snapshot, a
    kick and refused proposals; the report counts what happened. *)

Definition REPLICATED_MICRO_SCOPE : string := "replicated-micro-3players-5devices-4events-majority-partition-snapshot-tail".

Record ReplicatedMicroReport : Type := {
  mr_scope : string; mr_replicas : nat; mr_committed_events : Z; mr_proposal_attempts : nat; mr_unique_proposals : nat;
  mr_duplicate_deliveries : nat; mr_buffered_reorders : nat; mr_stale_device_denials : nat; mr_revoked_device_denials : nat;
  mr_minority_no_quorum_denials : nat; mr_snapshot_installs : nat; mr_snapshot_tail_events : nat; mr_quorum_before_kick : nat;
  mr_quorum_after_kick : nat; mr_final_membership_epoch : Z; mr_final_state_hash : string; mr_convergence : bool;
  mr_retained_counterexamples : list string;
}.

Local Notation R T := (outcome ReplicatedRuntimeError T).

Definition new_id (byte : string) : R string :=
  match identifier_new (text_repeat byte 32) with Ok id => Ok id | Err _ => Err RtInvalidMembership | Panic => Panic end.

Definition scenario_principal (byte : string) : R PrincipalId := new_id byte.
Definition scenario_device (byte : string) : R DeviceId := new_id byte.

Definition scenario_proposal (player : PrincipalId) (device : DeviceId) (epoch : Z) (key : string) (hash_byte : Z) :
    RuntimeSemanticProposal :=
  {| sp_player_id := player; sp_device_id := device; sp_membership_epoch := epoch; transition_key := key;
     command_hash := SemanticHashOf (repeat hash_byte 32) |}.

Definition hash_hex (hash : SemanticHash) : string := hex (hash_bytes hash).

(** [BTreeSet::intersection] of two sets in ascending order *)
Definition equivocation_counterexample (m : RuntimeMembership) (left_signers right_signers : list PrincipalId) : R string :=
  let l := foldr btree_insert [] left_signers in
  let r := foldr btree_insert [] right_signers in
  let intersection := List.filter (λ x, bool_decide (x ∈ r)) l in
  if (length l <? membership_quorum m) || (length r <? membership_quorum m) then Err RtInvalidEvent
  else match intersection with
       | [player] => Ok ("non-equivocation-removed: two " +:+ pretty (membership_quorum m) +:+ "-of-" +:+
           pretty (length (rm_active_players m)) +:+ " certificates intersect only at player " +:+ player +:+
           "; conflicting commits become possible")
       | _ => Err RtInvalidEvent
       end.

Section Scenario.
Context (blake3 : list Z → list Z).

(** [log.ingest(event)?] with the log it leaves behind *)
Definition ingest_or (log : ReplicatedRuntimeLog) (event : CertifiedRuntimeEvent) : R (ReplicatedRuntimeLog * RuntimeDeliveryReceipt) :=
  match ingest blake3 event log with
  | (log, Ok (Some receipt)) => Ok (log, receipt)
  | (_, Err error) => Err error
  | (_, _) => Panic
  end.

(** [for log in [...] { log.ingest(event.clone())?; }] *)
Fixpoint ingest_each (logs : list ReplicatedRuntimeLog) (event : CertifiedRuntimeEvent) : R (list ReplicatedRuntimeLog) :=
  match logs with
  | [] => Ok []
  | log :: logs => l ← ingest_or log event; rest ← ingest_each logs event; Ok (l.1 :: rest)
  end.

Fixpoint admit_each (pool : list (string * RuntimeSemanticProposal)) (ps : list RuntimeSemanticProposal) (m : RuntimeMembership)
    (directory : list RuntimeDeviceAuthority) : R (list (string * RuntimeSemanticProposal)) :=
  match ps with
  | [] => Ok pool
  | p :: ps => pool ← admit_proposal pool p m directory; admit_each pool ps m directory
  end.

Definition is_error {T} (x : R T) (error : ReplicatedRuntimeError) : bool :=
  match x with Err e => bool_decide (e = error) | _ => false end.

Definition denied_count {T} (x : R T) : nat := match x with Err _ => 1 | _ => 0 end.

Definition run_replicated_micro_check : R ReplicatedMicroReport :=
  alice ← scenario_principal "01"; bob ← scenario_principal "02"; carol ← scenario_principal "03";
  alice_native ← scenario_device "11"; alice_browser ← scenario_device "12"; alice_revoked ← scenario_device "13";
  bob_device ← scenario_device "21"; carol_device ← scenario_device "31";
  let m := {| rm_epoch := 1; rm_active_players := [alice; bob; carol] |} in
  _ ← membership_validate m;
  let directory := [
    {| rd_device_id := alice_native; rd_player_id := alice; valid_from_epoch := 1; revoked_from_epoch := None |};
    {| rd_device_id := alice_browser; rd_player_id := alice; valid_from_epoch := 1; revoked_from_epoch := None |};
    {| rd_device_id := bob_device; rd_player_id := bob; valid_from_epoch := 1; revoked_from_epoch := None |};
    {| rd_device_id := alice_revoked; rd_player_id := alice; valid_from_epoch := 1; revoked_from_epoch := Some 2%Z |};
    {| rd_device_id := carol_device; rd_player_id := carol; valid_from_epoch := 1; revoked_from_epoch := Some 2%Z |}] in
  canonical ← runtime_log_new m;
  let bob_log := canonical in
  let carol_log := canonical in
  (* one certified event while carol is cut off *)
  pool ← admit_proposal [] (scenario_proposal alice alice_native 1 "score.round.1" 1) m directory;
  let attempts := 1 in
  let unique := length pool in
  batch1 ← candidate_from_pool blake3 1 pool;
  event1 ← certify_event blake3 canonical batch1 [alice; bob] None;
  canonical ← ingest_or canonical event1; let canonical := canonical.1 in
  bob_log ← ingest_or bob_log event1; let bob_log := bob_log.1 in
  (* concurrent proposals, admitted in both orders *)
  let proposals := [scenario_proposal bob bob_device 1 "chat.public.1" 2; scenario_proposal alice alice_browser 1 "score.adjust.1" 3] in
  let attempts := attempts + length proposals in
  concurrent_left ← admit_each [] proposals m directory;
  concurrent_right ← admit_each [] (rev proposals) m directory;
  batch_left ← candidate_from_pool blake3 1 concurrent_left;
  batch_right ← candidate_from_pool blake3 1 concurrent_right;
  if bool_decide (batch_left ≠ batch_right) then Err ConflictingProposal
  else
  let unique := unique + length (rb_proposals batch_left) in
  event2 ← certify_event blake3 canonical batch_left [alice; bob] None;
  canonical ← ingest_or canonical event2; let canonical := canonical.1 in
  bob_log ← ingest_or bob_log event2; let bob_log := bob_log.1 in
  (* carol receives the tail reordered, and once more *)
  reorder ← ingest_or carol_log event2;
  drained ← ingest_or reorder.1 event1;
  duplicate ← ingest_or drained.1 event2;
  let carol_log := duplicate.1 in
  (* a browser starts from a snapshot of the first event *)
  first ← (match committed bob_log !! 0 with Some e => Ok e | None => Panic end);
  let snapshot_source := {| membership := m; height := 1; log_head_event_hash := ce_event_hash first;
    log_state_hash := ce_successor_state_hash first; committed := [first]; buffered := ∅; forked := false |} in
  s ← snapshot blake3 snapshot_source;
  browser_log ← from_snapshot s;
  browser_log ← ingest_or browser_log event2; let browser_log := browser_log.1 in
  (* carol is kicked *)
  let next_membership := {| rm_epoch := 2; rm_active_players := [alice; bob] |} in
  let attempts := attempts + 1 in
  recovery_pool ← admit_proposal [] (scenario_proposal alice alice_native 1 "recover.kick.current-actor.carol" 4) m directory;
  let unique := unique + length recovery_pool in
  batch3 ← candidate_from_pool blake3 1 recovery_pool;
  event3 ← certify_event blake3 canonical batch3 [alice; bob] (Some next_membership);
  logs ← ingest_each [canonical; bob_log; carol_log; browser_log] event3;
  let attempts := attempts + 2 in
  let stale_result := admit_proposal [] (scenario_proposal carol carol_device 1 "game.advance.stale" 5) next_membership directory in
  let revoked_result := admit_proposal [] (scenario_proposal alice alice_revoked 2 "game.advance.revoked" 6) next_membership directory in
  (* every device proposes the same automatic advance *)
  let auto_proposals := [scenario_proposal alice alice_native 2 "automatic.state.advance.4" 7;
    scenario_proposal alice alice_browser 2 "automatic.state.advance.4" 7;
    scenario_proposal bob bob_device 2 "automatic.state.advance.4" 7] in
  let attempts := attempts + length auto_proposals in
  automatic_pool ← admit_each [] auto_proposals next_membership directory;
  let unique := unique + length automatic_pool in
  canonical ← (match logs with l :: _ => Ok l | [] => Panic end);
  batch4 ← candidate_from_pool blake3 2 automatic_pool;
  event4 ← certify_event blake3 canonical batch4 [alice; bob] None;
  logs ← ingest_each logs event4;
  canonical ← (match logs with l :: _ => Ok l | [] => Panic end);
  let minority := certify_event blake3 canonical
    {| rb_membership_epoch := 2; rb_proposals := [scenario_proposal bob bob_device 2 "minority.must.not.commit" 8];
       batch_hash := SemanticHashOf (repeat 8%Z 32) |} [bob] None in
  counterexample ← equivocation_counterexample m [alice; bob] [bob; carol];
  let hashes := log_state_hash <$> logs in
  let convergence := forallb (λ h, bool_decide (h = log_state_hash canonical)) hashes in
  if negb convergence || negb (is_error stale_result RtStaleEpoch) || negb (is_error revoked_result RtRevokedDevice) ||
     negb (is_error minority RtNoQuorum)
  then Err RtInvalidEvent
  else
    Ok {| mr_scope := REPLICATED_MICRO_SCOPE; mr_replicas := 4; mr_committed_events := height canonical;
          mr_proposal_attempts := attempts; mr_unique_proposals := unique;
          mr_duplicate_deliveries := duplicates duplicate.2;
          mr_buffered_reorders := newly_buffered reorder.2 + (applied drained.2 - 1);
          mr_stale_device_denials := denied_count stale_result; mr_revoked_device_denials := denied_count revoked_result;
          mr_minority_no_quorum_denials := denied_count minority; mr_snapshot_installs := 1; mr_snapshot_tail_events := 1;
          mr_quorum_before_kick := membership_quorum m; mr_quorum_after_kick := membership_quorum next_membership;
          mr_final_membership_epoch := rm_epoch (membership canonical);
          mr_final_state_hash := hash_hex (log_state_hash canonical); mr_convergence := convergence;
          mr_retained_counterexamples := [counterexample] |}.
End Scenario.
