(* ===== verification/ReplicatedLogTheorems.v ===== *)
(** * Properties of the delivery log

    Delivery in any order reaches the same log, a certified snapshot and its tail
    reach the same head, and a batch does not depend on the order of proposals. *)

From Stdlib Require Import ZifyBool.
From stdpp Require Import base strings numbers option list gmap.
From S2P Require Import Prelude Methods Protocol Bytes Retrospective RetrospectiveTheorems Replication Replicated ReplicatedLog.

Section Log.
Context (blake3 : list Z → list Z).
Implicit Types (log : ReplicatedRuntimeLog) (event e : CertifiedRuntimeEvent) (chain ds : list CertifiedRuntimeEvent).

(** ** Chains *)

(** A log that has applied the events of a chain in order. *)
Definition grown log chain : ReplicatedRuntimeLog := foldl with_committed log chain.

Definition valid_chain log chain : Prop := ∀ pre e post, chain = pre ++ e :: post → check_next blake3 (grown log pre) e = Ok tt.

(** Every delivery of a list, in order; the first failure stops *)
Definition deliver ds log : ReplicatedRuntimeLog * outcome ReplicatedRuntimeError unit :=
  foldl (λ acc e, match acc.2 with Ok _ => (_ ← ingest blake3 e; mret tt) acc.1 | _ => acc end) (log, Ok tt) ds.

Lemma deliver_snoc ds e log : deliver (ds ++ [e]) log =
  match (deliver ds log).2 with Ok _ => (_ ← ingest blake3 e; mret tt) (deliver ds log).1 | _ => deliver ds log end.
Proof. unfold deliver. rewrite foldl_app. done. Qed.

Definition fresh log : Prop := committed log = [] ∧ buffered log = ∅ ∧ forked log = false.

Lemma grown_snoc log chain e : grown log (chain ++ [e]) = with_committed (grown log chain) e.
Proof. unfold grown. by rewrite foldl_app. Qed.

Lemma check_next_height log e : check_next blake3 log e = Ok tt → ce_height e = saturating_succ (height log).
Proof.
  unfold check_next. intros ([] & _ & Hx)%bind_Ok. destruct (_ || _)%bool eqn:Hg; [done|]. apply orb_false_iff in Hg as [Hg _]. lia.
Qed.

Lemma grown_fields log chain : committed (grown log chain) = committed log ++ chain ∧ buffered (grown log chain) = buffered log ∧
  forked (grown log chain) = forked log.
Proof.
  induction chain as [|e chain IH] using rev_ind; [by rewrite app_nil_r|]. rewrite grown_snoc. destruct IH as (H1 & H2 & H3).
  cbn. by rewrite H1, H2, H3, app_assoc.
Qed.

(** Heights and chains that stay below [u64::MAX]. *)
Definition in_range log chain : Prop := (0 <= height log)%Z ∧ (height log + Z.of_nat (length chain) < 2 ^ 64 - 1)%Z.

Lemma grown_height log chain : valid_chain log chain → in_range log chain →
  height (grown log chain) = (height log + Z.of_nat (length chain))%Z.
Proof.
  induction chain as [|e chain IH] using rev_ind; intros Hv [H0 Hr]; [cbn; lia|]. rewrite length_app in Hr |- *. cbn in Hr |- *.
  rewrite grown_snoc. cbn. rewrite (check_next_height (grown log chain)) by by apply (Hv chain e []).
  rewrite IH; [unfold saturating_succ, umax; lia| |split; lia]. intros pre e' post ->. apply (Hv pre e' (post ++ [e])). by rewrite <-app_assoc.
Qed.

Lemma valid_chain_app log pre post : valid_chain log (pre ++ post) ↔ valid_chain log pre ∧ valid_chain (grown log pre) post.
Proof.
  unfold valid_chain, grown. split.
  - intros Hv. split; [intros p e q ->; apply (Hv p e (q ++ post)); by rewrite <-app_assoc|]. intros p e q ->.
    rewrite <-foldl_app. apply (Hv (pre ++ p) e q). by rewrite <-app_assoc.
  - intros [H1 H2]. induction post as [|x post IH] using rev_ind; [by rewrite app_nil_r|]. intros p e q.
    destruct q as [|y q _] using rev_ind.
    + rewrite app_assoc. intros [<- <-]%app_inj_tail. rewrite foldl_app. by apply (H2 post x []).
    + rewrite app_comm_cons, !app_assoc. intros [Heq _]%app_inj_tail. eapply IH; [|exact Heq].
      intros p' e' q' ->. apply (H2 p' e' (q' ++ [x])). by rewrite <-app_assoc.
Qed.

(** A check of a whole chain *)
Fixpoint chain_ok log chain : bool :=
  match chain with
  | [] => true
  | e :: chain => match check_next blake3 log e with Ok _ => chain_ok (with_committed log e) chain | _ => false end
  end.

Lemma chain_ok_valid log chain : chain_ok log chain = true → valid_chain log chain.
Proof.
  revert log. induction chain as [|e chain IH]; intros log Hc; [by intros [|] ? ?|]. cbn in Hc.
  destruct (check_next blake3 log e) as [[]| |] eqn:He; [|done..]. apply IH in Hc. intros [|e' pre] e'' post [= <- Heq]; [done|].
  by eapply Hc.
Qed.

Section Chain.
Context log0 chain (Hfresh : fresh log0) (Hv : valid_chain log0 chain) (Hr : in_range log0 chain).

Lemma chain_height i e : chain !! i = Some e → ce_height e = (height log0 + Z.of_nat i + 1)%Z.
Proof using Hv Hr.
  intros Hi. pose proof (lookup_lt_Some _ _ _ Hi) as Hl. pose proof (take_drop_middle _ _ _ Hi) as Hm.
  rewrite (check_next_height (grown log0 (take i chain))) by by eapply Hv.
  rewrite <-Hm in Hv. apply valid_chain_app in Hv as [Hv' _]. destruct Hr as [H0 Hr'].
  rewrite grown_height; [|done|split; [done|]]; rewrite length_take; unfold saturating_succ, umax; lia.
Qed.

Lemma chain_inj i j e : chain !! i = Some e → chain !! j = Some e → i = j.
Proof using Hv Hr. intros Hi%chain_height Hj%chain_height. lia. Qed.

Lemma chain_check i e : chain !! i = Some e → check_next blake3 (grown log0 (take i chain)) e = Ok tt.
Proof using Hv. intros Hi. eapply Hv. symmetry. by apply take_drop_middle. Qed.

Lemma grown_take_S i e : chain !! i = Some e → with_committed (grown log0 (take i chain)) e = grown log0 (take (S i) chain).
Proof using Type. intros Hi. by rewrite (take_S_r _ _ _ Hi), grown_snoc. Qed.

Lemma take_height k : k <= length chain → height (grown log0 (take k chain)) = (height log0 + Z.of_nat k)%Z.
Proof using Hv Hr.
  intros Hk. rewrite <-(take_drop k chain) in Hv. apply valid_chain_app in Hv as [Hv' _]. destruct Hr as [H0 Hr'].
  rewrite grown_height; [rewrite length_take; lia|done|]. split; [done|]. rewrite length_take. lia.
Qed.

(** What has been delivered beyond the first [k] events is buffered, one event a height. *)
Definition buffers (D : list CertifiedRuntimeEvent) (k : nat) (buf : gmap Z (list CertifiedRuntimeEvent)) : Prop :=
  ∀ h q, buf !! h = Some q ↔ ∃ i e, k <= i ∧ chain !! i = Some e ∧ e ∈ D ∧ h = (height log0 + Z.of_nat i + 1)%Z ∧ q = [e].

Record delivered (D : list CertifiedRuntimeEvent) (k : nat) log : Prop := {
  dl_log : ∃ buf, log = with_buffered (grown log0 (take k chain)) buf ∧ buffers D k buf;
  dl_bound : k <= length chain;
  dl_prefix : ∀ i e, i < k → chain !! i = Some e → e ∈ D;
  dl_next : ∀ e, chain !! k = Some e → e ∉ D;
}.

Lemma check_buffered log buf e : check_next blake3 (with_buffered log buf) e = check_next blake3 log e.
Proof. done. Qed.

Lemma dedup_single e : dedup (sort_by_key (λ e, hash_bytes (ce_event_hash e)) [e]) = [e].
Proof. done. Qed.

(** Draining applies every delivered event that is contiguous with the prefix. *)
Lemma drain_delivered D fuel k buf receipt : buffers D k buf → k <= length chain → size buf < fuel →
  (∀ i e, i < k → chain !! i = Some e → e ∈ D) →
  ∃ k' log receipt', drain blake3 fuel receipt (with_buffered (grown log0 (take k chain)) buf) = (log, Ok (Some receipt')) ∧
    delivered D k' log ∧ k <= k'.
Proof using Hfresh Hv Hr.
  revert k buf receipt. induction fuel as [|fuel IH]; intros k buf receipt Hb Hk Hsize Hpre; [lia|]. cbn [drain].
  unfold mbind at 1, M_bind at 1, read at 1. cbn [buffered with_buffered height].
  rewrite take_height by done. assert (saturating_succ (height log0 + Z.of_nat k) = (height log0 + Z.of_nat k + 1)%Z) as Hs.
  { destruct Hr as [H0 Hr']. unfold saturating_succ, umax. lia. }
  change (saturating_succ (height (grown log0 (take k chain)))) with (saturating_succ (height (grown log0 (take k chain)))).
  rewrite Hs. destruct (buf !! _) as [q|] eqn:Hq.
  - pose proof (proj1 (Hb _ _) Hq) as (i & e & Hki & Hi & HeD & Hh & ->). assert (i = k) as -> by lia.
    rewrite dedup_single. unfold mbind, M_bind, update, apply_next, read, lift. unfold mbind, M_bind.
    cbn [with_buffered buffered]. rewrite !check_buffered. change (check_next blake3 (with_buffered ?l ?b) e) with (check_next blake3 l e).
    rewrite (chain_check k e Hi).
    destruct (IH (S k) (delete (height log0 + Z.of_nat k + 1)%Z buf)
      {| applied := S (applied receipt); newly_buffered := newly_buffered receipt; duplicates := duplicates receipt |}) as (k' & log & r' & Hd & Hdel & Hkk).
    + intros h q. rewrite lookup_delete_Some. pose proof (Hb h q) as Hbq. rewrite Hbq. clear Hbq. split.
      * intros (Hne & j & e' & Hj & Hje & HD & -> & ->). exists j, e'. split_and!; try done. destruct (decide (j = k)); [congruence|lia].
      * intros (j & e' & Hj & Hje & HD & -> & ->). split; [lia|]. exists j, e'. split_and!; try done. lia.
    + apply lookup_lt_Some in Hi. lia.
    + rewrite map_size_delete_Some by done. assert (size buf ≠ 0) by (apply map_size_ne_0_lookup_1 || (intros Hz%map_size_empty_iff; subst; done)). lia.
    + intros j e' Hj Hje. destruct (decide (j = k)) as [->|]; [congruence|]. apply (Hpre j); [lia|done].
    + exists k', log, r'. rewrite <-(grown_take_S k e Hi) in Hd. split; [exact Hd|]. split; [done|lia].
  - exists k, (with_buffered (grown log0 (take k chain)) buf), receipt. split; [done|]. split; [|done]. split; [|done|done|].
    + exists buf. split; [done|]. done.
    + intros e He HD. assert (buf !! (height log0 + Z.of_nat k + 1)%Z = Some [e]) as Hx; [|congruence].
      apply Hb. exists k, e. by split_and!.
Qed.

Lemma delivered_ext D D' k log : (∀ x, x ∈ D ↔ x ∈ D') → delivered D k log → delivered D' k log.
Proof using Type.
  intros Hx [(buf & -> & Hb) Hk Hp Hn]. split; [exists buf; split; [done|]|done| |].
  - intros h q. rewrite (Hb h q). by setoid_rewrite Hx.
  - intros i e Hi He. by apply Hx, (Hp i).
  - intros e He. rewrite <-Hx. by apply Hn.
Qed.

Lemma committed_find i e k : chain !! i = Some e → k <= length chain →
  List.find (λ c, (ce_height c =? ce_height e)%Z) (take k chain) = if decide (i < k) then Some e else None.
Proof using Hv Hr.
  intros Hi Hk. destruct (decide (i < k)) as [Hik|Hik].
  - destruct (List.find _ _) as [c|] eqn:Hf.
    + apply List_find_Some in Hf as [[j [Hj _]%lookup_take_Some]%list_elem_of_lookup Hh]. apply Z.eqb_eq in Hh.
      rewrite (chain_height _ _ Hi), (chain_height _ _ Hj) in Hh. assert (i = j) as <- by lia. by rewrite Hi in Hj.
    + rewrite List_find_None in Hf. specialize (Hf e). rewrite Z.eqb_refl in Hf. discriminate Hf.
      apply list_elem_of_lookup. exists i. by apply lookup_take_Some.
  - apply List_find_None. intros c [j [Hj Hjk]%lookup_take_Some]%list_elem_of_lookup. apply Z.eqb_neq.
    rewrite (chain_height _ _ Hi), (chain_height _ _ Hj). lia.
Qed.

(** Buffering a future event, and delivering the next one *)
Lemma buffers_insert D k buf i e : buffers D k buf → chain !! i = Some e → k <= i →
  buffers (D ++ [e]) k (<[(height log0 + Z.of_nat i + 1)%Z := [e]]> buf).
Proof using Hv Hr.
  intros Hb Hi Hki h q. rewrite lookup_insert_Some. pose proof (Hb h q) as Hbq. rewrite Hbq. clear Hbq. split.
  - intros [[<- <-]|(Hne & j & e' & Hkj & Hj & HeD & -> & ->)].
    + exists i, e. rewrite elem_of_app, list_elem_of_singleton. split_and!; try done. by right.
    + exists j, e'. rewrite elem_of_app. split_and!; try done. by left.
  - intros (j & e' & Hkj & Hj & HeD & -> & ->). destruct (decide (j = i)) as [->|Hji].
    + left. rewrite Hi in Hj. injection Hj as ->. done.
    + right. split; [lia|]. exists j, e'. split_and!; try done. apply elem_of_app in HeD as [|Heq%list_elem_of_singleton]; [done|].
      subst e'. destruct Hji. by eapply chain_inj.
Qed.

Lemma buffers_next D k buf e : buffers D k buf → chain !! k = Some e → e ∉ D → buffers (D ++ [e]) (S k) buf.
Proof using Hv Hr.
  intros Hb Hk HD h q. rewrite (Hb h q). split.
  - intros (j & e' & Hkj & Hj & HjD & -> & ->). exists j, e'. rewrite elem_of_app. split_and!; try done; [|by left].
    destruct (decide (j = k)) as [->|]; [congruence|lia].
  - intros (j & e' & Hkj & Hj & HjD & -> & ->). exists j, e'. split_and!; try done; [lia|].
    apply elem_of_app in HjD as [|Heq%list_elem_of_singleton]; [done|]. subst e'.
    assert (j = k) by (by eapply chain_inj). lia.
Qed.

Lemma next_take_height k : k < length chain →
  saturating_succ (height (grown log0 (take k chain))) = (height log0 + Z.of_nat k + 1)%Z.
Proof using Hv Hr. intros Hk. rewrite take_height by lia. destruct Hr as [H0 Hr']. unfold saturating_succ, umax. lia. Qed.

Lemma delivered_future D k buf i e : buffers D k buf → k <= length chain → chain !! i = Some e → k < i →
  (∀ j e', j < k → chain !! j = Some e' → e' ∈ D) → (∀ e', chain !! k = Some e' → e' ∉ D) →
  delivered (D ++ [e]) k (with_buffered (grown log0 (take k chain)) (<[(height log0 + Z.of_nat i + 1)%Z := [e]]> buf)).
Proof using Hv Hr.
  intros Hb Hk Hi Hki Hp Hn. split; [|done| |].
  - eexists. split; [reflexivity|]. apply buffers_insert; [done..|lia].
  - intros j e' Hjk Hj. apply elem_of_app. left. by apply (Hp j).
  - intros e' Hj. rewrite elem_of_app, list_elem_of_singleton. intros [| ->]; [by apply (Hn e')|].
    assert (k = i) by (by eapply chain_inj). lia.
Qed.

(** One delivery of any event of the chain *)
Lemma ingest_delivered D k log e : delivered D k log → e ∈ chain →
  ∃ k' log' receipt, ingest blake3 e log = (log', Ok (Some receipt)) ∧ delivered (D ++ [e]) k' log'.
Proof using Hfresh Hv Hr.
  intros [(buf & -> & Hb) Hk Hp Hn] [i Hi]%list_elem_of_lookup. destruct Hfresh as (Hc0 & Hb0 & Hf0).
  destruct (grown_fields log0 (take k chain)) as (Hc & _ & Hf). rewrite Hc0 in Hc. rewrite Hf0 in Hf. cbn in Hc.
  pose proof (lookup_lt_Some _ _ _ Hi) as Hil.
  assert (∀ x, e ∈ D → x ∈ D ↔ x ∈ D ++ [e]) as Hext.
  { intros x He. rewrite elem_of_app, list_elem_of_singleton. split; [by left|]. by intros [| ->]. }
  unfold ingest. unfold mbind at 1, M_bind at 1, read at 1. cbn [forked with_buffered committed]. rewrite Hf, Hc.
  rewrite (committed_find i e k Hi Hk). destruct (decide (i < k)) as [Hik|Hik].
  - rewrite bool_decide_true by done. eexists k, _, _. split; [reflexivity|].
    apply (delivered_ext D); [intros x; by apply Hext, (Hp i)|split; [by exists buf|done..]].
  - change (height (with_buffered ?l ?b)) with (height l). rewrite next_take_height by lia. rewrite (chain_height i e Hi).
    destruct (_ <? _)%Z eqn:Hlt.
    + assert (k < i) as Hki by lia. change (buffered (with_buffered ?l ?b)) with b. destruct (buf !! (height log0 + Z.of_nat i + 1)%Z) as [q|] eqn:Hq.
      * pose proof (proj1 (Hb _ _) Hq) as (j & e' & Hkj & Hj & HD & Hh & ->). assert (j = i) as -> by lia.
        assert (e' = e) as -> by congruence. cbn [existsb]. rewrite bool_decide_true by done. cbn [orb].
        eexists k, _, _. split; [reflexivity|]. by apply delivered_future.
      * cbn [existsb]. eexists k, _, _. split; [reflexivity|]. by apply delivered_future.
    + assert (i = k) as -> by lia. unfold mbind, M_bind, update, apply_next, read, lift. unfold mbind, M_bind.
      rewrite check_buffered, (chain_check k e Hi). cbn [buffered with_buffered].
      unfold update. change (with_committed (with_buffered ?l ?b) ?e) with (with_buffered (with_committed l e) b).
      rewrite (grown_take_S k e Hi).
      destruct (drain_delivered (D ++ [e]) (S (size buf)) (S k) buf
        {| applied := 1; newly_buffered := 0; duplicates := 0 |}) as (k' & log & r & Hd & Hdel & _).
      * apply buffers_next; [done..|by apply Hn].
      * lia.
      * lia.
      * intros j e' Hj Hje. rewrite elem_of_app, list_elem_of_singleton. destruct (decide (j = k)) as [->|]; [right; congruence|].
        left. apply (Hp j); [lia|done].
      * by exists k', log, r.
Qed.



Lemma delivered_nil : delivered [] 0 log0.
Proof using Hfresh Hv Hr.
  destruct Hfresh as (_ & Hb & _). split; [exists ∅; split| lia|lia|by intros e _ ?%not_elem_of_nil].
  - destruct log0. cbn in *. by subst.
  - intros h q. rewrite lookup_empty. split; [done|]. by intros (i & e & _ & _ & ?%not_elem_of_nil & _).
Qed.

Lemma deliver_delivered ds : (∀ e, e ∈ ds → e ∈ chain) →
  ∃ k log, deliver ds log0 = (log, Ok tt) ∧ delivered ds k log.
Proof using Hfresh Hv Hr.
  induction ds as [|e ds IH] using rev_ind; intros Hds; [exists 0, log0; split; [done|apply delivered_nil]|].
  destruct IH as (k & log & Hd & Hdel). { intros x Hx. apply Hds, elem_of_app. by left. }
  destruct (ingest_delivered ds k log e Hdel) as (k' & log' & r & Hi & Hdel').
  { apply Hds, elem_of_app. right. by apply list_elem_of_singleton. }
  exists k', log'. rewrite deliver_snoc, Hd. cbn [fst snd]. unfold mbind, M_bind. by rewrite Hi.
Qed.

Lemma delivered_all ds k log : delivered ds k log → (∀ e, e ∈ chain → e ∈ ds) → log = grown log0 chain.
Proof using Hfresh Hv Hr.
  intros [(buf & -> & Hb) Hk _ Hn] Hall.
  assert (k = length chain) as ->.
  { destruct (decide (k = length chain)); [done|]. destruct (lookup_lt_is_Some_2 chain k) as [e He]; [lia|].
    destruct (Hn e He). by eapply Hall, list_elem_of_lookup_2. }
  assert (buf = ∅) as ->.
  { apply map_empty. intros h. destruct (buf !! h) as [q|] eqn:Hq; [|done]. apply Hb in Hq as (i & e & Hi & He & _).
    apply lookup_lt_Some in He. lia. }
  rewrite take_ge by lia. destruct Hfresh as (_ & Hb0 & _). destruct (grown_fields log0 chain) as (_ & Hb1 & _).
  rewrite Hb0 in Hb1. destruct (grown log0 chain). cbn in *. by subst.
Qed.
End Chain.

(** ** Snapshots *)

(** Two logs at the same head: what the next event is checked against. *)
Definition same_head log log' : Prop :=
  membership log = membership log' ∧ height log = height log' ∧ log_head_event_hash log = log_head_event_hash log' ∧
  log_state_hash log = log_state_hash log'.

Lemma same_head_check log log' e : same_head log log' → check_next blake3 log e = check_next blake3 log' e.
Proof. intros (Hm & Hh & He & Hs). unfold check_next. by rewrite Hm, Hh, He, Hs. Qed.

Lemma same_head_grown log log' chain : same_head log log' → same_head (grown log chain) (grown log' chain).
Proof.
  intros Hs. induction chain as [|e chain IH] using rev_ind; [done|]. rewrite !grown_snoc. destruct IH as (Hm & _).
  split_and!; cbn; [by rewrite Hm|done..].
Qed.

Lemma same_head_valid log log' chain : same_head log log' → valid_chain log chain → valid_chain log' chain.
Proof.
  intros Hs Hv pre e post ->. rewrite <-(same_head_check (grown log pre)); [by eapply Hv|by apply same_head_grown].
Qed.

Lemma check_next_membership log e next : check_next blake3 log e = Ok tt → next_membership e = Some next →
  membership_validate next = Ok tt.
Proof.
  intros ([] & _ & Hx)%bind_Ok Hn. destruct (_ || _)%bool; [done|]. rewrite Hn in Hx.
  apply bind_Ok in Hx as ([] & Hj & _). unfold validate_joint_quorum in Hj. by apply bind_Ok in Hj as ([] & ? & _).
Qed.

Lemma grown_membership log chain : valid_chain log chain → membership_validate (membership log) = Ok tt →
  membership_validate (membership (grown log chain)) = Ok tt.
Proof.
  intros Hv Hm. induction chain as [|e chain IH] using rev_ind; [done|]. apply valid_chain_app in Hv as [Hv He].
  rewrite grown_snoc. cbn. destruct (next_membership e) as [next|] eqn:Hn; [|by apply IH].
  eapply check_next_membership; [|exact Hn]. by apply (He [] e []).
Qed.

Lemma log_new_Ok m log : runtime_log_new m = Ok log → membership_validate m = Ok tt ∧ membership log = m ∧ fresh log ∧ height log = 0%Z.
Proof. unfold runtime_log_new. intros ([] & Hm & [= <-])%bind_Ok. by split_and!. Qed.

(** A snapshot of a chain's last event restores a log at that head. *)
Lemma from_snapshot_grown m log0 pre e : runtime_log_new m = Ok log0 → valid_chain log0 (pre ++ [e]) → in_range log0 (pre ++ [e]) →
  ce_event_hash e ≠ SemanticHashOf (repeat 0%Z 32) → certificate_hash blake3 e ≠ SemanticHashOf (repeat 0%Z 32) →
  ∃ s log, snapshot blake3 (grown log0 (pre ++ [e])) = Ok s ∧ from_snapshot s = Ok log ∧ fresh log ∧
    same_head (grown log0 (pre ++ [e])) log.
Proof.
  intros (Hm & <- & Hf & Hh0)%log_new_Ok Hv Hr Hne Hnc. pose proof (grown_height _ _ Hv Hr) as Hh.
  pose proof (grown_membership _ _ Hv Hm) as Hm'. destruct (grown_fields log0 (pre ++ [e])) as (Hc & _).
  assert (log_head_event_hash (grown log0 (pre ++ [e])) = ce_event_hash e) as Hhead by by rewrite grown_snoc.
  set (log1 := grown log0 (pre ++ [e])) in *.
  exists {| sn_height := height log1; sn_head_event_hash := log_head_event_hash log1; sn_state_hash := log_state_hash log1;
            sn_membership := membership log1; sn_certificate_hash := certificate_hash blake3 e |},
    {| membership := membership log1; height := height log1; log_head_event_hash := log_head_event_hash log1;
       log_state_hash := log_state_hash log1; committed := []; buffered := ∅; forked := false |}.
  unfold snapshot, from_snapshot. rewrite Hc, app_assoc, last_snoc. split_and!; [done| |done..].
  cbn [sn_membership sn_height sn_head_event_hash sn_state_hash sn_certificate_hash]. rewrite Hm', Hhead. cbn.
  rewrite !bool_decide_false by done. rewrite Hh, Hh0, length_app. cbn [length].
  by replace (0 + Z.of_nat (length pre + 1) =? 0)%Z with false by lia.
Qed.
End Log.

(** ** Pools *)

(** Lists with ascending keys are determined by their elements. *)
Lemma ascending_keys_unique `{StrictOrder K} {A} (l l' : list (K * A)) : ascending l.*1 → ascending l'.*1 →
  (∀ e, e ∈ l ↔ e ∈ l') → l = l'.
Proof.
  revert l'. induction l as [|[k x] l IH]; intros [|[k' x'] l'] Hl Hl' He; [done|..].
  - destruct (not_elem_of_nil (k', x')). apply He. left.
  - destruct (not_elem_of_nil (k, x)). apply He. left.
  - rewrite fmap_cons in Hl, Hl'. apply ascending_cons in Hl as [Hx Hl]. apply ascending_cons in Hl' as [Hx' Hl'].
    assert (∀ k0 y (m : list (K * A)), (k0, y) ∈ m → k0 ∈ m.*1) as Hkey.
    { intros k0 y m Hin. apply list_elem_of_fmap. by exists (k0, y). }
    assert ((k, x) = (k', x')) as Heq.
    { pose proof (proj1 (He (k, x)) ltac:(left)) as [Heq|Hin]%elem_of_cons; [done|].
      pose proof (proj2 (He (k', x')) ltac:(left)) as [Heq|Hin']%elem_of_cons; [done|].
      pose proof (ltb_asym _ _ (Hx' _ (Hkey _ _ _ Hin))) as Hlt. pose proof (Hx _ (Hkey _ _ _ Hin')) as Hlt'. cbn in Hlt, Hlt'. congruence. }
    injection Heq as <- <-. f_equal. apply IH; [done..|]. intros e. specialize (He e). rewrite !elem_of_cons in He.
    assert (∀ (m : list (K * A)), (∀ y, y ∈ m.*1 → ltb k y = true) → (k, x) ∉ m) as Hnot.
    { intros m Hm Hin. pose proof (Hm k (Hkey _ _ _ Hin)) as Hlt. by rewrite ltb_irrefl in Hlt. }
    split; intros Hin.
    + destruct (proj1 He (or_intror Hin)) as [->|]; [by destruct (Hnot l)|done].
    + destruct (proj2 He (or_intror Hin)) as [->|]; [by destruct (Hnot l')|done].
Qed.

(** ** Admission *)

(** The proposals of a list, admitted one by one *)
Definition admit_all (m : RuntimeMembership) (directory : list RuntimeDeviceAuthority) (ps : list RuntimeSemanticProposal) :
    outcome ReplicatedRuntimeError (list (string * RuntimeSemanticProposal)) :=
  foldl (λ acc p, pool ← acc; admit_proposal pool p m directory) (Ok []) ps.

(** What a pool says of a key: the hash of its command *)
Definition pool_view (pool : list (string * RuntimeSemanticProposal)) : list (string * SemanticHash) :=
  prod_map id command_hash <$> pool.

Definition proposal_entry (p : RuntimeSemanticProposal) : string * SemanticHash := (transition_key p, command_hash p).

Section Admission.
Context (m : RuntimeMembership) (directory : list RuntimeDeviceAuthority).
Implicit Types (p : RuntimeSemanticProposal) (ps : list RuntimeSemanticProposal) (pool : list (string * RuntimeSemanticProposal)).

(** The checks of [admit_proposal] that do not read the pool *)
Definition admissible p : Prop := admit_proposal [] p m directory = Ok [(transition_key p, p)].

Lemma admit_proposal_Ok pool p : admissible p → admit_proposal pool p m directory =
  match map_get (transition_key p) pool with
  | Some existing => if bool_decide (command_hash existing ≠ command_hash p) then Err ConflictingProposal else Ok pool
  | None => Ok (map_insert (transition_key p) p pool)
  end.
Proof using Type.
  unfold admissible, admit_proposal. destruct (_ || _)%bool; [done|]. destruct (negb _); [done|].
  destruct (ok_or _ _) as [a| |]; cbn [mbind outcome_bind]; [|done..]. destruct (_ || _)%bool; [done|].
  destruct (negb _); [done|]. by destruct (is_some_and _ _).
Qed.

Lemma admit_proposal_admissible pool p pool' : admit_proposal pool p m directory = Ok pool' → admissible p.
Proof using Type.
  unfold admissible, admit_proposal. destruct (_ || _)%bool; [done|]. destruct (negb _); [done|].
  destruct (ok_or _ _) as [a| |]; cbn [mbind outcome_bind]; [|done..]. destruct (_ || _)%bool; [done|].
  destruct (negb _); [done|]. by destruct (is_some_and _ _).
Qed.

(** The pool holds exactly what was proposed, under ascending keys. *)
Record pooled ps pool : Prop := {
  po_keys : Forall (λ e, transition_key e.2 = e.1) pool;
  po_ascending : ascending pool.*1;
  po_view : ∀ e, e ∈ pool_view pool ↔ e ∈ proposal_entry <$> ps;
}.

(** Every proposal is admissible, and no two disagree on a key. *)
Definition compatible ps : Prop :=
  (∀ p, p ∈ ps → admissible p) ∧ ∀ p q, p ∈ ps → q ∈ ps → transition_key p = transition_key q → command_hash p = command_hash q.

Lemma pool_view_keys pool : (pool_view pool).*1 = pool.*1.
Proof using Type. unfold pool_view. rewrite <-list_fmap_compose. by apply list_fmap_ext. Qed.

Lemma pooled_hash ps pool k q : pooled ps pool → (k, q) ∈ pool → ∃ p, p ∈ ps ∧ transition_key p = k ∧ command_hash p = command_hash q.
Proof using Type.
  intros Hp Hin. assert ((k, command_hash q) ∈ pool_view pool) as Hv. { apply list_elem_of_fmap. by exists (k, q). }
  apply (po_view _ _ Hp), list_elem_of_fmap in Hv as (p & [= -> Hq] & Hps). by exists p.
Qed.

Lemma pooled_step ps p pool pool' : pooled ps pool → admit_proposal pool p m directory = Ok pool' → pooled (ps ++ [p]) pool'.
Proof using Type.
  intros Hp Ha. rewrite (admit_proposal_Ok _ _ (admit_proposal_admissible _ _ _ Ha)) in Ha.
  destruct (map_get _ _) as [q|] eqn:Hg.
  - case_bool_decide as Hc; [done|]. injection Ha as <-. destruct Hp as [Hk Ha Hv].
    split; [done..|]. intros e. rewrite fmap_app, elem_of_app, <-Hv. change (proposal_entry <$> [p]) with [proposal_entry p].
    rewrite list_elem_of_singleton. split; [by left|].
    intros [?| ->]; [done|]. apply list_elem_of_fmap. exists (transition_key p, q). split; [|by apply map_get_elem].
    unfold proposal_entry. cbn. by rewrite Hc.
  - injection Ha as <-. apply map_get_find in Hg. destruct Hp as [Hk Ha Hv]. split.
    + apply Forall_forall. intros e. rewrite elem_of_map_insert by done. intros [->|He]; [done|].
      by apply (proj1 (Forall_forall _ _) Hk).
    + by apply map_insert_ascending.
    + intros e. unfold pool_view in *. rewrite list_elem_of_fmap. setoid_rewrite elem_of_map_insert; [|done].
      rewrite fmap_app, elem_of_app, <-Hv, list_elem_of_fmap. change (proposal_entry <$> [p]) with [proposal_entry p].
      rewrite list_elem_of_singleton. unfold proposal_entry. split.
      * intros (x & -> & [->|Hx]); [by right|left; by exists x].
      * intros [(x & -> & Hx)| ->]; [exists x; auto|exists (transition_key p, p); auto].
Qed.

Lemma admit_all_snoc ps p : admit_all m directory (ps ++ [p]) = (pool ← admit_all m directory ps; admit_proposal pool p m directory).
Proof using Type. unfold admit_all. by rewrite foldl_app. Qed.

Lemma admit_all_pooled ps pool : admit_all m directory ps = Ok pool → pooled ps pool ∧ compatible ps.
Proof using Type.
  revert pool. induction ps as [|p ps IH] using rev_ind; intros pool Ha.
  - injection Ha as <-. split; [split; [constructor|apply ascending_nil|done]|]. split; [by intros ? ?%not_elem_of_nil|by intros ? ? ?%not_elem_of_nil].
  - rewrite admit_all_snoc in Ha. apply bind_Ok in Ha as (pool0 & H0 & Ha). destruct (IH _ H0) as [Hp [Hadm Hc]].
    pose proof (admit_proposal_admissible _ _ _ Ha) as Hpa. split; [by eapply pooled_step|].
    assert (∀ q, q ∈ ps → transition_key q = transition_key p → command_hash q = command_hash p) as Hnew.
    { intros q Hq Hkey. rewrite (admit_proposal_Ok _ _ Hpa) in Ha.
      assert (proposal_entry q ∈ pool_view pool0) as ([k x] & [= Hk Hx] & Hin)%list_elem_of_fmap.
      { apply (po_view _ _ Hp), list_elem_of_fmap. by exists q. }
      destruct (map_get _ _) as [y|] eqn:Hg.
      - case_bool_decide as Hy; [done|]. apply map_get_elem in Hg.
        destruct (pooled_hash _ _ _ _ Hp Hg) as (q' & Hq' & Hk' & Hh'). rewrite <-Hy, <-Hh'. apply Hc; [done..|congruence].
      - apply map_get_find in Hg. destruct Hg. apply list_elem_of_fmap. exists (k, x). split; [cbn; congruence|done]. }
    split.
    + intros q [Hq| ->%list_elem_of_singleton]%elem_of_app; [by apply Hadm|done].
    + intros q q' [Hq| ->%list_elem_of_singleton]%elem_of_app [Hq'| ->%list_elem_of_singleton]%elem_of_app Hkey; [by apply Hc|..].
      * by apply Hnew.
      * symmetry. by apply Hnew.
      * done.
Qed.

Lemma compatible_admit_all ps : compatible ps → ∃ pool, admit_all m directory ps = Ok pool ∧ pooled ps pool.
Proof using Type.
  induction ps as [|p ps IH] using rev_ind; intros [Hadm Hc].
  - exists []. split; [done|]. split; [constructor|apply ascending_nil|done].
  - destruct IH as (pool & Ha & Hp).
    { split; [|intros q q' Hq Hq'; apply Hc; apply elem_of_app; by left]. intros q Hq. apply Hadm, elem_of_app. by left. }
    assert (p ∈ ps ++ [p]) as Hin by (apply elem_of_app; right; by apply list_elem_of_singleton).
    assert (∃ pool', admit_proposal pool p m directory = Ok pool') as [pool' Hpool'].
    { rewrite admit_proposal_Ok by by apply Hadm. destruct (map_get _ _) as [q|] eqn:Hg; [|eauto].
      apply map_get_elem, (pooled_hash _ _ _ _ Hp) in Hg as (p' & Hps & Hk & Hh).
      rewrite bool_decide_false; [eauto|]. intros []. rewrite <-Hh. apply Hc; [apply elem_of_app; by left|done..]. }
    exists pool'. split; [by rewrite admit_all_snoc, Ha|]. by eapply pooled_step.
Qed.

(** The order of admission does not matter to what the pool says. *)
Lemma admit_all_order ps ps' pool : ps ≡ₚ ps' → admit_all m directory ps = Ok pool →
  ∃ pool', admit_all m directory ps' = Ok pool' ∧ pool_view pool = pool_view pool'.
Proof using Type.
  intros Hperm [Hp [Hadm Hc]]%admit_all_pooled. destruct (compatible_admit_all ps') as (pool' & Ha & Hp').
  { split; [intros p; rewrite <-Hperm; apply Hadm|]. intros p q. rewrite <-Hperm. apply Hc. }
  exists pool'. split; [done|]. apply ascending_keys_unique.
  - rewrite pool_view_keys. apply Hp.
  - rewrite pool_view_keys. apply Hp'.
  - intros e. rewrite (po_view _ _ Hp), (po_view _ _ Hp'). by rewrite Hperm.
Qed.

Lemma batch_hash_view blake3 epoch pool pool' : Forall (λ e, transition_key e.2 = e.1) pool →
  Forall (λ e, transition_key e.2 = e.1) pool' → pool_view pool = pool_view pool' →
  proposal_batch_hash blake3 epoch pool.*2 = proposal_batch_hash blake3 epoch pool'.*2.
Proof using Type.
  intros Hk Hk' Hv. unfold proposal_batch_hash. do 5 f_equal.
  assert (∀ l, Forall (λ e : string * RuntimeSemanticProposal, transition_key e.2 = e.1) l →
    ((λ p, hash_part (text_bytes (transition_key p)) ++ hash_part (hash_bytes (command_hash p))) <$> l.*2) =
    ((λ e : string * SemanticHash, hash_part (text_bytes e.1) ++ hash_part (hash_bytes e.2)) <$> pool_view l)) as Hl.
  { intros l Hf. unfold pool_view. rewrite <-!list_fmap_compose. apply list_fmap_ext. intros i [k p] Hi.
    apply (Forall_lookup_1 _ _ _ _ Hf) in Hi. cbn in *. by rewrite Hi. }
  by rewrite (Hl _ Hk), (Hl _ Hk'), Hv.
Qed.

(** The proposals of a pool, by entry and by key *)
Lemma entries_view pool : Forall (λ e, transition_key e.2 = e.1) pool → proposal_entry <$> pool.*2 = pool_view pool.
Proof using Type.
  intros Hk. unfold pool_view. rewrite <-list_fmap_compose. apply list_fmap_ext. intros i [k p] Hi.
  apply (Forall_lookup_1 _ _ _ _ Hk) in Hi. cbn in *. unfold proposal_entry. by rewrite Hi.
Qed.

Lemma pooled_keys_ascending pool : Forall (λ e, transition_key e.2 = e.1) pool → ascending pool.*1 →
  ascending (transition_key <$> pool.*2).
Proof using Type.
  intros Hk Ha. replace (transition_key <$> pool.*2) with pool.*1; [done|]. rewrite <-list_fmap_compose.
  apply list_fmap_ext. intros i e Hi. by apply (Forall_lookup_1 _ _ _ _ Hk) in Hi.
Qed.
End Admission.
