(* ===== verification/ReplicatedLogProperties.v ===== *)
(** * What the delivery log promises

    Deliveries in any order, with gaps and repetitions, reach the same log; a snapshot
    and its tail reach the same head; a batch does not depend on the order of
    proposals; what a quorum certifies applies; and two ways a log still halts. *)

From Stdlib Require Import ZifyBool.
From stdpp Require Import base strings numbers option list gmap pretty.
From S2P Require Import Prelude Methods Protocol Bytes Replication ReplicatedLog ReplicatedLogTheorems.

(** ** The drain ends *)

Section Total.
Context (blake3 : list Z → list Z).

Lemma drain_fuel fuel receipt log : size (buffered log) < fuel → (drain blake3 fuel receipt log).2 ≠ Ok None.
Proof.
  revert receipt log. induction fuel as [|fuel IH]; intros receipt log Hs; [lia|]. cbn [drain].
  unfold mbind, M_bind, read, update, throw, apply_next, lift. unfold mbind, M_bind. cbv beta iota.
  destruct (buffered log !! _) as [q|] eqn:Hq; [|done]. destruct (dedup _) as [|e [|? ?]]; [done| |done].
  unfold read, update. match goal with |- context [check_next blake3 ?l e] => destruct (check_next blake3 l e) end; [|done..]. apply IH. cbn.
  rewrite map_size_delete_Some by done. assert (size (buffered log) ≠ 0); [|lia]. intros Hz%map_size_empty_iff. by rewrite Hz in Hq.
Qed.
End Total.

(** Delivering an event always ends: the loop that drains the buffer runs at most
    once for every buffered height, whatever the log and the event. *)
Theorem ingest_ends blake3 event log : (ingest blake3 event log).2 ≠ Ok None.
Proof.
  unfold ingest. unfold mbind at 1, M_bind at 1, read at 1. cbv beta iota. destruct (forked log); [done|].
  destruct (List.find _ _) as [known|]; [by case_bool_decide|].
  destruct (_ <? _)%Z; [by destruct (existsb _ _)|].
  unfold mbind, M_bind, apply_next, update, read, lift. unfold mbind, M_bind. cbv beta iota.
  destruct (check_next blake3 log event); [|done..]. apply drain_fuel. cbn. lia.
Qed.

(** ** Delivery *)

(** [C16] Let a chain of events be valid from a fresh log.  Delivering any of its events,
    in any order, with gaps and repetitions, never fails: the log has applied exactly the
    longest prefix of the chain that was delivered in full, and buffers the rest.  Once
    every event has been delivered it is the log that applied the chain in order. *)
Theorem delivery_converges blake3 log0 chain ds : fresh log0 → valid_chain blake3 log0 chain → in_range log0 chain →
  (∀ e, e ∈ ds → e ∈ chain) →
  ∃ k buf, deliver blake3 ds log0 = (with_buffered (grown log0 (take k chain)) buf, Ok tt) ∧ k <= length chain ∧
    (∀ i e, i < k → chain !! i = Some e → e ∈ ds) ∧ (∀ e, chain !! k = Some e → e ∉ ds) ∧
    ((∀ e, e ∈ chain → e ∈ ds) → deliver blake3 ds log0 = (grown log0 chain, Ok tt)).
Proof.
  intros Hf Hv Hr Hds. destruct (deliver_delivered blake3 log0 chain Hf Hv Hr ds Hds) as (k & log & Hd & Hdel).
  pose proof (delivered_all blake3 log0 chain Hf Hv Hr ds k log Hdel) as Hall. rewrite Hd.
  destruct Hdel as [(buf & -> & _) Hk Hp Hn]. exists k, buf. split_and!; try done. intros Hin. by rewrite <-Hall.
Qed.

(** [C17] A snapshot stands for the prefix it was taken from: when a valid chain is cut after
    any event whose hash and certificate hash are not all zero, the log restored from the snapshot of the first part and given the rest, in any
    order and with repetitions, reaches the membership, height, head and state of the log
    that applied the whole chain. *)
Theorem snapshot_tail blake3 m log0 pre e post : runtime_log_new m = Ok log0 → valid_chain blake3 log0 (pre ++ e :: post) →
  in_range log0 (pre ++ e :: post) → ce_event_hash e ≠ SemanticHashOf (repeat 0%Z 32) →
  certificate_hash blake3 e ≠ SemanticHashOf (repeat 0%Z 32) →
  ∃ s log1, snapshot blake3 (grown log0 (pre ++ [e])) = Ok s ∧ from_snapshot s = Ok log1 ∧
    ∀ ds, (∀ x, x ∈ ds ↔ x ∈ post) → ∃ log2, deliver blake3 ds log1 = (log2, Ok tt) ∧
      same_head (grown log0 (pre ++ e :: post)) log2.
Proof.
  replace (pre ++ e :: post) with ((pre ++ [e]) ++ post) by by rewrite <-app_assoc. intros Hnew Hv [H0 Hr] He Hc.
  pose proof Hv as [Hv1 Hv2]%valid_chain_app. rewrite length_app in Hr.
  assert (in_range log0 (pre ++ [e])) as Hr1 by (split; [done|lia]).
  destruct (from_snapshot_grown blake3 m log0 pre e Hnew Hv1 Hr1 He Hc) as (s & log1 & Hs & Hl & Hf & Hsame).
  exists s, log1. split_and!; [done..|]. intros ds Hds.
  assert (in_range log1 post) as Hr2.
  { destruct Hsame as (_ & Hh & _). unfold in_range. rewrite <-Hh, (grown_height blake3) by done. lia. }
  pose proof (same_head_valid _ _ _ _ Hsame Hv2) as Hv3.
  destruct (deliver_delivered blake3 log1 post Hf Hv3 Hr2 ds) as (k & log2 & Hd & Hdel); [intros x; apply Hds|].
  exists log2. split; [done|]. rewrite (delivered_all _ _ _ Hf Hv3 Hr2 _ _ _ Hdel) by (intros x; apply Hds).
  unfold grown at 1. rewrite foldl_app. by apply same_head_grown.
Qed.

(** ** Proposals *)

(** The batch of a pool does not depend on the order in which its proposals arrived:
    if one order is admitted then so is every other, the batches list the same transition
    keys with the same command hashes, and their batch hashes are equal. *)
Theorem canonical_batch blake3 m directory epoch ps ps' pool b : ps ≡ₚ ps' → admit_all m directory ps = Ok pool →
  candidate_from_pool blake3 epoch pool = Ok b →
  ∃ pool' b', admit_all m directory ps' = Ok pool' ∧ candidate_from_pool blake3 epoch pool' = Ok b' ∧
    batch_hash b = batch_hash b' ∧ proposal_entry <$> rb_proposals b = proposal_entry <$> rb_proposals b'.
Proof.
  intros Hperm Ha Hb. destruct (admit_all_order _ _ _ _ _ Hperm Ha) as (pool' & Ha' & Hview).
  pose proof (admit_all_pooled _ _ _ _ Ha) as [[Hk _ _] _]. pose proof (admit_all_pooled _ _ _ _ Ha') as [[Hk' _ _] _].
  unfold candidate_from_pool in *. destruct (length pool =? 0) eqn:Hl; [done|]. injection Hb as <-.
  pose proof (f_equal length Hview) as Hlen. unfold pool_view in Hlen. rewrite !length_fmap in Hlen.
  exists pool'. rewrite <-Hlen, Hl. eexists. split; [done|]. split; [done|]. cbn. split; [by apply batch_hash_view|].
  by rewrite !entries_view.
Qed.

(** What a quorum certifies applies: an event certified on a log over a batch of admitted
    proposals passes every check of that log, which then stands at the event. *)
Theorem certified_applies blake3 log directory ps pool b signers next e :
  admit_all (membership log) directory ps = Ok pool → candidate_from_pool blake3 (rm_epoch (membership log)) pool = Ok b →
  certify_event blake3 log b signers next = Ok e → apply_next blake3 e log = (with_committed log e, Ok tt).
Proof.
  intros [[Hk Hasc _] _]%admit_all_pooled Hb Hc. unfold candidate_from_pool in Hb. destruct (length pool =? 0) eqn:Hl; [done|].
  injection Hb as <-. unfold certify_event in Hc. destruct (_ || _)%bool eqn:Hs in Hc; [done|].
  apply orb_false_iff in Hs as [[Hsort Hin]%orb_false_iff Hq]. cbn [rb_membership_epoch] in Hc. rewrite Z.eqb_refl in Hc. cbn [negb] in Hc.
  apply bind_Ok in Hc as ([] & Hj & [= <-]).
  unfold apply_next, mbind, M_bind, read, lift, update. cbv beta iota. unfold check_next, validate_certified_event.
  cbn [ce_membership_epoch ce_height ce_parent_event_hash batch signer_players next_membership ce_successor_state_hash
    ce_event_hash rb_membership_epoch rb_proposals batch_hash]. rewrite !Z.eqb_refl, Hsort, Hin, Hq, length_fmap, Hl.
  pose proof (proj2 (strict_sorted_ascending _) (pooled_keys_ascending _ Hk Hasc)) as Hw. unfold strict_sorted_unique in Hw.
  rewrite (windows2_fmap transition_key ltb), Hw.
  rewrite !bool_decide_false by (intros []; done). cbn [negb orb mbind outcome_bind]. by rewrite Hj.
Qed.

(** ** Concrete instances *)

(** A digest of 32 bytes for the witnesses *)
Definition small_digest (input : list Z) : list Z :=
  rev (be_bytes 32 (foldl (λ acc b, Z.land (acc * 33 + b + 1) (Z.ones 40)) 7 input)%Z).

Definition sample_membership : RuntimeMembership := {| rm_epoch := 1; rm_active_players := ["alice"; "bob"; "carol"] |}.

Definition sample_directory : list RuntimeDeviceAuthority :=
  [{| rd_device_id := "phone"; rd_player_id := "alice"; valid_from_epoch := 1; revoked_from_epoch := None |};
   {| rd_device_id := "tablet"; rd_player_id := "alice"; valid_from_epoch := 1; revoked_from_epoch := None |};
   {| rd_device_id := "laptop"; rd_player_id := "bob"; valid_from_epoch := 1; revoked_from_epoch := Some 2%Z |}].

Definition sample_proposals (key : string) : list RuntimeSemanticProposal :=
  [scenario_proposal "bob" "laptop" 1 key 2; scenario_proposal "alice" "tablet" 1 "chat" 3; scenario_proposal "alice" "phone" 1 key 2].

Definition sample_log : outcome ReplicatedRuntimeError ReplicatedRuntimeLog := runtime_log_new sample_membership.

Definition sample_event (log : ReplicatedRuntimeLog) (ps : list RuntimeSemanticProposal) (next : option RuntimeMembership) :
    outcome ReplicatedRuntimeError CertifiedRuntimeEvent :=
  pool ← admit_all (membership log) sample_directory ps;
  b ← candidate_from_pool small_digest (rm_epoch (membership log)) pool;
  certify_event small_digest log b ["bob"; "alice"] next.

(** Three events, each certified on the log that applied the earlier ones *)
Definition sample_chain : outcome ReplicatedRuntimeError (ReplicatedRuntimeLog * list CertifiedRuntimeEvent) :=
  log ← sample_log;
  e1 ← sample_event log (sample_proposals "one") None;
  e2 ← sample_event (with_committed log e1) (sample_proposals "two") None;
  e3 ← sample_event (grown log [e1; e2]) (sample_proposals "three")
         (Some {| rm_epoch := 2; rm_active_players := ["alice"; "bob"] |});
  Ok (log, [e1; e2; e3]).

Definition chain_facts (x : outcome ReplicatedRuntimeError (ReplicatedRuntimeLog * list CertifiedRuntimeEvent)) : bool :=
  match x with
  | Ok (log, (e1 :: [e2; e3]) as chain) => chain_ok small_digest log chain && negb (bool_decide (ce_event_hash e2 = SemanticHashOf (repeat 0%Z 32))) &&
      negb (bool_decide (certificate_hash small_digest e2 = SemanticHashOf (repeat 0%Z 32))) && (height log =? 0)%Z &&
      bool_decide (committed log = []) && bool_decide (buffered log = ∅) && negb (forked log)
  | _ => false
  end.

Lemma delivery_converges_witness : ∃ log e1 e2 e3, sample_chain = Ok (log, [e1; e2; e3]) ∧
  deliver small_digest [e3; e2; e3; e1; e2] log = (grown log [e1; e2; e3], Ok tt).
Proof.
  assert (chain_facts sample_chain = true) as Hc by (vm_compute; reflexivity).
  destruct sample_chain as [[log chain]| |] eqn:Hs; [|discriminate Hc..].
  destruct chain as [|e1 [|e2 [|e3 [|? ?]]]]; try discriminate Hc. unfold chain_facts in Hc.
  apply andb_true_iff in Hc as [[[[[[Hok _]%andb_true_iff _]%andb_true_iff Hh]%andb_true_iff H1]%andb_true_iff H2]%andb_true_iff H3].
  exists log, e1, e2, e3. split; [reflexivity|].
  destruct (delivery_converges small_digest log [e1; e2; e3] [e3; e2; e3; e1; e2]) as (k & buf & _ & _ & _ & _ & Hall).
  - split_and!; [by apply bool_decide_eq_true in H1|by apply bool_decide_eq_true in H2|by destruct (forked log)].
  - by apply chain_ok_valid.
  - unfold in_range. cbn [length]. lia.
  - intros e. rewrite !elem_of_cons, elem_of_nil. tauto.
  - apply Hall. intros e. rewrite !elem_of_cons, elem_of_nil. tauto.
Defined.

Lemma snapshot_tail_witness : ∃ log e1 e2 e3, sample_chain = Ok (log, [e1; e2; e3]) ∧
  ∃ s log1, snapshot small_digest (grown log [e1; e2]) = Ok s ∧ from_snapshot s = Ok log1 ∧
    ∃ log2, deliver small_digest [e3; e3] log1 = (log2, Ok tt) ∧ same_head (grown log [e1; e2; e3]) log2.
Proof.
  assert (chain_facts sample_chain = true) as Hc by (vm_compute; reflexivity).
  destruct sample_chain as [[log chain]| |] eqn:Hs; [|discriminate Hc..].
  destruct chain as [|e1 [|e2 [|e3 [|? ?]]]]; try discriminate Hc. unfold chain_facts in Hc.
  apply andb_true_iff in Hc as [[[[[[Hok Ha]%andb_true_iff Hb]%andb_true_iff Hh]%andb_true_iff H1]%andb_true_iff H2]%andb_true_iff H3].
  exists log, e1, e2, e3. split; [reflexivity|].
  destruct (snapshot_tail small_digest sample_membership log [e1] e2 [e3]) as (s & log1 & Hsn & Hf & Hd).
  - unfold sample_chain in Hs. by apply bind_Ok in Hs as (l & Hl & (? & _ & (? & _ & (? & _ & [= <- _ _ _])%bind_Ok)%bind_Ok)%bind_Ok).
  - by apply chain_ok_valid.
  - unfold in_range. cbn [length app]. lia.
  - by apply negb_true_iff, bool_decide_eq_false in Ha.
  - by apply negb_true_iff, bool_decide_eq_false in Hb.
  - exists s, log1. split; [exact Hsn|]. split; [exact Hf|]. apply Hd. intros x. rewrite !elem_of_cons, elem_of_nil. tauto.
Defined.

Lemma canonical_batch_witness : ∃ pool pool' b b', admit_all sample_membership sample_directory (sample_proposals "one") = Ok pool ∧
  admit_all sample_membership sample_directory (rev (sample_proposals "one")) = Ok pool' ∧
  candidate_from_pool small_digest 1 pool = Ok b ∧ candidate_from_pool small_digest 1 pool' = Ok b' ∧ batch_hash b = batch_hash b'.
Proof.
  assert (match admit_all sample_membership sample_directory (sample_proposals "one") with
    Ok pool => match candidate_from_pool small_digest 1 pool with Ok _ => true | _ => false end | _ => false end = true) as Hc
    by (vm_compute; reflexivity).
  destruct (admit_all _ _ _) as [pool| |] eqn:Hp; [|discriminate Hc..].
  destruct (candidate_from_pool _ _ _) as [b| |] eqn:Hb; [|discriminate Hc..].
  destruct (canonical_batch small_digest sample_membership sample_directory 1 (sample_proposals "one") (rev (sample_proposals "one")) pool b)
    as (pool' & b' & Hp' & Hb' & Hh & _); [apply Permutation_rev|exact Hp|exact Hb|].
  exists pool, pool', b, b'. repeat (split; [first [assumption|reflexivity]|]). assumption.
Defined.

Lemma certified_applies_witness : ∃ log e, sample_log = Ok log ∧ sample_event log (sample_proposals "one") None = Ok e ∧
  apply_next small_digest e log = (with_committed log e, Ok tt).
Proof.
  assert (match sample_log with Ok log => match admit_all (membership log) sample_directory (sample_proposals "one") with
    Ok pool => match candidate_from_pool small_digest (rm_epoch (membership log)) pool with
      Ok b => match certify_event small_digest log b ["bob"; "alice"] None with Ok _ => true | _ => false end
    | _ => false end | _ => false end | _ => false end = true) as Hc by (vm_compute; reflexivity).
  destruct sample_log as [log| |] eqn:Hl; [|discriminate Hc..]. exists log. unfold sample_event.
  destruct (admit_all _ _ _) as [pool| |] eqn:Hp; [|discriminate Hc..]. cbn [mbind outcome_bind].
  destruct (candidate_from_pool _ _ _) as [b| |] eqn:Hb; [|discriminate Hc..]. cbn [mbind outcome_bind].
  destruct (certify_event _ _ _ _ _) as [e| |] eqn:He; [|discriminate Hc..]. exists e.
  split; [reflexivity|]. split; [reflexivity|]. exact (certified_applies small_digest log sample_directory _ pool b _ None e Hp Hb He).
Defined.

(** ** Two ways to halt *)

(** Certified events over the same commands, proposed by other devices, share their event
    hash, and yet the second halts a log that has applied the first. *)
Example same_hash_halts : match sample_log with
  | Ok log =>
      match sample_event log (sample_proposals "one") None, sample_event log (rev (sample_proposals "one")) None with
      | Ok e, Ok e' => bool_decide (ce_event_hash e = ce_event_hash e') &&
          match deliver small_digest [e; e'] log with (log, Err CertifiedFork) => forked log | _ => false end
      | _, _ => false
      end
  | _ => false
  end = true.
Proof. vm_compute. reflexivity. Qed.

(** An event of a future height is buffered without any check: with no signer at all, it
    halts the log when the certified events arrive. *)
Example unsigned_future_halts : match sample_chain with
  | Ok (log, [e1; e2; e3]) =>
      let forged := {| ce_height := 2; ce_membership_epoch := 1; ce_parent_event_hash := SemanticHashOf []; batch := batch e1;
        signer_players := []; next_membership := None; ce_successor_state_hash := SemanticHashOf []; ce_event_hash := SemanticHashOf [] |} in
      match deliver small_digest [forged; e2; e1] log with (log, Err CertifiedFork) => forked log | _ => false end
  | _ => false
  end = true.
Proof. vm_compute. reflexivity. Qed.

(** The scenario's report *)
Example scenario_report : match run_replicated_micro_check small_digest with
  | Ok r => (mr_committed_events r =? 4)%Z && (mr_proposal_attempts r =? 9) && (mr_unique_proposals r =? 5) &&
      (mr_duplicate_deliveries r =? 1) && (mr_buffered_reorders r =? 2) && (mr_final_membership_epoch r =? 2)%Z && mr_convergence r
  | _ => false
  end = true.
Proof. vm_compute. reflexivity. Qed.
