(* ===== verification/DeviceWire.v ===== *)
(** * Cooperation between devices on the wire (crates/poche-protocol, device_cooperation.rs)

    Provider advertisements, capture requests, consents, progress, responses,
    completions and cancellations, unsigned and signed, each with its validation, the
    bytes that are signed and the hash that binds a request.  Serde's JSON text and
    BLAKE3 are parameters. *)

From stdpp Require Import base strings numbers option list gmap.
From S2P Require Import Prelude Protocol Bytes Replication.

Notation CaptureRequestId := string (only parsing).
Notation CaptureArtifactId := string (only parsing).
Notation CaptureTransferId := string (only parsing).

Definition DEVICE_COOPERATION_SCHEMA_VERSION_V1 : Z := 1.
Definition DEVICE_COOPERATION_SIGNATURE_DOMAIN_V1 : Z := 1.
Definition MAX_CAPTURE_ARTIFACT_BYTES : Z := 64 * 1024 * 1024.
Definition MAX_CAPTURE_TRANSFER_CHUNK_BYTES : Z := 24 * 1024.
Definition MAX_CAPTURE_ARTIFACTS : nat := 4.

Definition CAPTURE_REQUEST_DOMAIN : list Z := signing_domain "CAPTURE-REQUEST".
Definition CAPTURE_PROVIDER_DOMAIN : list Z := signing_domain "CAPTURE-PROVIDER".
Definition CAPTURE_CONSENT_DOMAIN : list Z := signing_domain "CAPTURE-CONSENT".
Definition CAPTURE_PROGRESS_DOMAIN : list Z := signing_domain "CAPTURE-PROGRESS".
Definition CAPTURE_RESPONSE_DOMAIN : list Z := signing_domain "CAPTURE-RESPONSE".
Definition CAPTURE_COMPLETION_DOMAIN : list Z := signing_domain "CAPTURE-COMPLETION".
Definition CAPTURE_CANCEL_DOMAIN : list Z := signing_domain "CAPTURE-CANCEL".

(** ** Data *)

Inductive CaptureRepresentationWire : Type := Png | SemanticHtml | AccessibilityTreeJson | LayoutJson.

Inductive CapturePrivacyWire : Type := PublicRoom | ExactPlayerView.

Inductive CaptureProviderKindWire : Type := NativeBevy | BrowserHarness | BrowserInteractive | HeadlessSemantic.

Inductive CaptureConsentPolicyWire : Type := Automatic | UserConfirmation | HarnessOnly.

Inductive CaptureDenialReasonWire : Type :=
  | ProviderUnavailable | ConsentRequired | ConsentDenied | DenyWrongRoom | DenyWrongPlayer | DenyRevokedDevice
  | DenyStaleRevision | CapabilityDenied | UnsupportedFormat | UnsupportedPrivacy | DenyExpired | DenyCancelled | Busy
  | Oversize | IntegrityFailure.

Record CaptureViewportWire : Type := { width_pixels : Z; height_pixels : Z }.

Record CaptureTransferDescriptorWire : Type := {
  ct_transfer_id : CaptureTransferId; byte_length : Z; chunk_bytes : Z; chunk_count : Z; content_hash : SemanticHash;
}.

Record CaptureArtifactDescriptorWire : Type := {
  cd_artifact_id : CaptureArtifactId; representation : CaptureRepresentationWire; cd_provider_kind : CaptureProviderKindWire;
  captured_revision : Z; projection_hash : SemanticHash; scene_hash : option SemanticHash;
  cd_viewport : option CaptureViewportWire; transfer : CaptureTransferDescriptorWire;
}.

Inductive CaptureConsentDecisionWire : Type := NotRequired | ConsentGranted | ConsentRefused.

Inductive CaptureProgressStageWire : Type := AwaitingConsent | Capturing | EncodingStage | Transferring.

Inductive CaptureResponseOutcomeWire : Type :=
  | Accepted (artifacts : list CaptureArtifactDescriptorWire)
  | Denied (reason : CaptureDenialReasonWire).

Record CaptureCompletionArtifactWire : Type := {
  ca_artifact_id : CaptureArtifactId; ca_transfer_id : CaptureTransferId; ca_byte_length : Z; ca_content_hash : SemanticHash;
}.

Inductive CaptureCompletionOutcomeWire : Type :=
  | Completed (artifacts : list CaptureCompletionArtifactWire)
  | Failed (reason : CaptureDenialReasonWire).

Record UnsignedCaptureProviderAdvertisementWire : Type := {
  ua_schema_version : Z; ua_room_id : RoomId; ua_membership_epoch : Z; ua_player_id : PrincipalId;
  ua_provider_device_id : DeviceId; ua_provider_kind : CaptureProviderKindWire;
  ua_representations : list CaptureRepresentationWire; ua_privacy_scopes : list CapturePrivacyWire;
  ua_consent_policy : CaptureConsentPolicyWire; ua_max_total_bytes : Z; ua_advertisement_sequence : Z;
  ua_expires_at_unix_ms : Z; ua_signature_intent : DeviceSignatureIntentWire;
}.

Record CaptureProviderAdvertisementWire : Type := {
  pa_schema_version : Z; pa_room_id : RoomId; pa_membership_epoch : Z; pa_player_id : PrincipalId;
  pa_provider_device_id : DeviceId; pa_provider_kind : CaptureProviderKindWire;
  pa_representations : list CaptureRepresentationWire; pa_privacy_scopes : list CapturePrivacyWire;
  pa_consent_policy : CaptureConsentPolicyWire; pa_max_total_bytes : Z; pa_advertisement_sequence : Z;
  pa_expires_at_unix_ms : Z; pa_signature : DeviceSignatureMetadataWire;
}.

Record UnsignedCaptureRequestWire : Type := {
  uq_schema_version : Z; uq_request_id : CaptureRequestId; uq_room_id : RoomId; uq_membership_epoch : Z;
  uq_player_id : PrincipalId; uq_requester_device_id : DeviceId; uq_provider_device_id : DeviceId;
  uq_observed_revision : Z; uq_expires_at_unix_ms : Z; uq_replay_nonce : string; uq_privacy : CapturePrivacyWire;
  uq_provider_kind : CaptureProviderKindWire; uq_representations : list CaptureRepresentationWire;
  uq_viewport : option CaptureViewportWire; uq_label : string; uq_max_total_bytes : Z;
  uq_signature_intent : DeviceSignatureIntentWire;
}.

Record CaptureRequestWire : Type := {
  rq_schema_version : Z; rq_request_id : CaptureRequestId; rq_room_id : RoomId; rq_membership_epoch : Z;
  rq_player_id : PrincipalId; rq_requester_device_id : DeviceId; rq_provider_device_id : DeviceId;
  rq_observed_revision : Z; rq_expires_at_unix_ms : Z; rq_replay_nonce : string; rq_privacy : CapturePrivacyWire;
  rq_provider_kind : CaptureProviderKindWire; rq_representations : list CaptureRepresentationWire;
  rq_viewport : option CaptureViewportWire; rq_label : string; rq_max_total_bytes : Z;
  rq_signature : DeviceSignatureMetadataWire;
}.

Record UnsignedCaptureConsentWire : Type := {
  uo_schema_version : Z; uo_request_id : CaptureRequestId; uo_request_hash : SemanticHash; uo_room_id : RoomId;
  uo_membership_epoch : Z; uo_player_id : PrincipalId; uo_requester_device_id : DeviceId;
  uo_provider_device_id : DeviceId; uo_decision : CaptureConsentDecisionWire; uo_decided_at_unix_ms : Z;
  uo_signature_intent : DeviceSignatureIntentWire;
}.

Record CaptureConsentWire : Type := {
  co_schema_version : Z; co_request_id : CaptureRequestId; co_request_hash : SemanticHash; co_room_id : RoomId;
  co_membership_epoch : Z; co_player_id : PrincipalId; co_requester_device_id : DeviceId;
  co_provider_device_id : DeviceId; co_decision : CaptureConsentDecisionWire; co_decided_at_unix_ms : Z;
  co_signature : DeviceSignatureMetadataWire;
}.

Record UnsignedCaptureProgressWire : Type := {
  ug_schema_version : Z; ug_request_id : CaptureRequestId; ug_request_hash : SemanticHash; ug_room_id : RoomId;
  ug_membership_epoch : Z; ug_player_id : PrincipalId; ug_requester_device_id : DeviceId;
  ug_provider_device_id : DeviceId; ug_sequence : Z; ug_stage : CaptureProgressStageWire; ug_completed_bytes : Z;
  ug_total_bytes : option Z; ug_signature_intent : DeviceSignatureIntentWire;
}.

Record CaptureProgressWire : Type := {
  cg_schema_version : Z; cg_request_id : CaptureRequestId; cg_request_hash : SemanticHash; cg_room_id : RoomId;
  cg_membership_epoch : Z; cg_player_id : PrincipalId; cg_requester_device_id : DeviceId;
  cg_provider_device_id : DeviceId; cg_sequence : Z; cg_stage : CaptureProgressStageWire; cg_completed_bytes : Z;
  cg_total_bytes : option Z; cg_signature : DeviceSignatureMetadataWire;
}.

Record UnsignedCaptureResponseWire : Type := {
  us_schema_version : Z; us_request_id : CaptureRequestId; us_request_hash : SemanticHash; us_room_id : RoomId;
  us_membership_epoch : Z; us_player_id : PrincipalId; us_requester_device_id : DeviceId;
  us_provider_device_id : DeviceId; us_outcome : CaptureResponseOutcomeWire;
  us_signature_intent : DeviceSignatureIntentWire;
}.

Record CaptureResponseWire : Type := {
  cs_schema_version : Z; cs_request_id : CaptureRequestId; cs_request_hash : SemanticHash; cs_room_id : RoomId;
  cs_membership_epoch : Z; cs_player_id : PrincipalId; cs_requester_device_id : DeviceId;
  cs_provider_device_id : DeviceId; cs_outcome : CaptureResponseOutcomeWire; cs_signature : DeviceSignatureMetadataWire;
}.

Record UnsignedCaptureCompletionWire : Type := {
  um_schema_version : Z; um_request_id : CaptureRequestId; um_request_hash : SemanticHash; um_room_id : RoomId;
  um_membership_epoch : Z; um_player_id : PrincipalId; um_requester_device_id : DeviceId;
  um_provider_device_id : DeviceId; um_final_sequence : Z; um_outcome : CaptureCompletionOutcomeWire;
  um_signature_intent : DeviceSignatureIntentWire;
}.

Record CaptureCompletionWire : Type := {
  cm_schema_version : Z; cm_request_id : CaptureRequestId; cm_request_hash : SemanticHash; cm_room_id : RoomId;
  cm_membership_epoch : Z; cm_player_id : PrincipalId; cm_requester_device_id : DeviceId;
  cm_provider_device_id : DeviceId; cm_final_sequence : Z; cm_outcome : CaptureCompletionOutcomeWire;
  cm_signature : DeviceSignatureMetadataWire;
}.

Record UnsignedCaptureCancelWire : Type := {
  ux_schema_version : Z; ux_request_id : CaptureRequestId; ux_request_hash : SemanticHash; ux_room_id : RoomId;
  ux_membership_epoch : Z; ux_player_id : PrincipalId; ux_requester_device_id : DeviceId;
  ux_provider_device_id : DeviceId; ux_signature_intent : DeviceSignatureIntentWire;
}.

Record CaptureCancelWire : Type := {
  cx_schema_version : Z; cx_request_id : CaptureRequestId; cx_request_hash : SemanticHash; cx_room_id : RoomId;
  cx_membership_epoch : Z; cx_player_id : PrincipalId; cx_requester_device_id : DeviceId;
  cx_provider_device_id : DeviceId; cx_signature : DeviceSignatureMetadataWire;
}.

Inductive DeviceCooperationWireError : Type :=
  | DcUnknownVersion | InvalidAdvertisement | InvalidRequest | InvalidConsent | InvalidProgress | InvalidResponse
  | InvalidCompletion | InvalidCancel | InvalidArtifact | InvalidTransfer | InvalidSignatureIntent | DcInvalidSignature
  | DcEncoding.

#[export] Instance CaptureRepresentationWire_eq_dec : EqDecision CaptureRepresentationWire.
Proof. solve_decision. Defined.
#[export] Instance CaptureProviderKindWire_eq_dec : EqDecision CaptureProviderKindWire.
Proof. solve_decision. Defined.
#[export] Instance DeviceSignatureIntentWire_eq_dec : EqDecision DeviceSignatureIntentWire.
Proof. solve_decision. Defined.

(** The derived orders: declaration order *)
Definition representation_index (r : CaptureRepresentationWire) : Z :=
  match r with Png => 0 | SemanticHtml => 1 | AccessibilityTreeJson => 2 | LayoutJson => 3 end.

#[export] Program Instance representation_order : StrictOrder CaptureRepresentationWire :=
  {| ltb a b := (representation_index a <? representation_index b)%Z |}.
Next Obligation. intros. apply Z.ltb_irrefl. Qed.
Next Obligation. intros x y z. rewrite !Z.ltb_lt. lia. Qed.
Next Obligation. by intros [] []. Qed.

Definition privacy_index (p : CapturePrivacyWire) : Z := match p with PublicRoom => 0 | ExactPlayerView => 1 end.

#[export] Program Instance privacy_order : StrictOrder CapturePrivacyWire :=
  {| ltb a b := (privacy_index a <? privacy_index b)%Z |}.
Next Obligation. intros. apply Z.ltb_irrefl. Qed.
Next Obligation. intros x y z. rewrite !Z.ltb_lt. lia. Qed.
Next Obligation. by intros [] []. Qed.

(** ** Validation *)

Local Notation E T := (outcome DeviceCooperationWireError T).

(** [str::chars().any(char::is_control)] on UTF-8 text: U+0000 to U+001F, U+007F, and
    U+0080 to U+009F, which are the bytes C2 80 to C2 9F *)
Fixpoint has_control (bytes : list Z) : bool :=
  match bytes with
  | [] => false
  | x :: rest =>
      ((x <? 32) || (x =? 127))%Z ||
      ((x =? 194)%Z && match rest with y :: _ => ((128 <=? y) && (y <=? 159))%Z | [] => false end) || has_control rest
  end.

Definition valid_nonce (value : string) : bool :=
  negb (String.length value =? 0) && (String.length value <=? 128) &&
  forallb (λ byte, is_ascii_alphanumeric byte || ((byte =? 45) || (byte =? 95))%Z) (text_bytes value).

Definition validate_device_intent (sig : DeviceSignatureIntentWire) (expected : DeviceId) : E unit :=
  if (di_domain_version sig =? DEVICE_COOPERATION_SIGNATURE_DOMAIN_V1)%Z && match di_algorithm sig with Ed25519 => true end &&
     bool_decide (di_key_id sig = expected)
  then Ok tt else Err InvalidSignatureIntent.

Definition validate_request_binding (schema_version : Z) (request_id : CaptureRequestId) (room_id : RoomId)
    (membership_epoch : Z) (player_id : PrincipalId) (requester_device_id provider_device_id : DeviceId)
    (error : DeviceCooperationWireError) : E unit :=
  if negb (schema_version =? DEVICE_COOPERATION_SCHEMA_VERSION_V1)%Z then Err DcUnknownVersion
  else if negb (is_valid_identifier request_id) || negb (is_valid_identifier room_id) || (membership_epoch =? 0)%Z ||
          negb (is_valid_identifier player_id) || negb (is_valid_identifier requester_device_id) ||
          negb (is_valid_identifier provider_device_id)
  then Err error else Ok tt.

Definition validate_signature_text (text : SignatureBytes) : E unit := map_err (λ _, DcInvalidSignature) (signature_validate text).

Definition validate_signature (signature : DeviceSignatureMetadataWire) : E unit := validate_signature_text (ds_signature signature).

Definition viewport_validate (self : CaptureViewportWire) : E unit :=
  if ((width_pixels self =? 0) || (height_pixels self =? 0) || (16384 <? width_pixels self) || (16384 <? height_pixels self))%Z
  then Err InvalidRequest else Ok tt.

(** [u64::div_ceil] *)
Definition div_ceil (n d : Z) : Z := (n + d - 1) / d.

Definition transfer_validate (self : CaptureTransferDescriptorWire) : E unit :=
  if negb (is_valid_identifier (ct_transfer_id self)) || (byte_length self =? 0)%Z ||
     (MAX_CAPTURE_ARTIFACT_BYTES <? byte_length self)%Z || (chunk_bytes self =? 0)%Z ||
     (MAX_CAPTURE_TRANSFER_CHUNK_BYTES <? chunk_bytes self)%Z
  then Err InvalidTransfer
  else if negb (chunk_count self =? div_ceil (byte_length self) (chunk_bytes self))%Z then Err InvalidTransfer
  else Ok tt.

Definition artifact_validate (self : CaptureArtifactDescriptorWire) : E unit :=
  if negb (is_valid_identifier (cd_artifact_id self)) then Err InvalidArtifact
  else
    _ ← (match cd_viewport self with
         | Some viewport => map_err (λ _, InvalidArtifact) (viewport_validate viewport)
         | None => Ok tt
         end);
    if bool_decide (representation self = Png) && match cd_viewport self with Some _ => false | None => true end
    then Err InvalidArtifact
    else map_err (λ _, InvalidArtifact) (transfer_validate (transfer self)).

Definition completion_artifact_validate (self : CaptureCompletionArtifactWire) : E unit :=
  if negb (is_valid_identifier (ca_artifact_id self)) || negb (is_valid_identifier (ca_transfer_id self)) ||
     (ca_byte_length self =? 0)%Z || (MAX_CAPTURE_ARTIFACT_BYTES <? ca_byte_length self)%Z
  then Err InvalidCompletion else Ok tt.

Definition unsigned_advertisement_validate (self : UnsignedCaptureProviderAdvertisementWire) : E unit :=
  if negb (ua_schema_version self =? DEVICE_COOPERATION_SCHEMA_VERSION_V1)%Z then Err DcUnknownVersion
  else if negb (is_valid_identifier (ua_room_id self)) || negb (is_valid_identifier (ua_player_id self)) ||
          negb (is_valid_identifier (ua_provider_device_id self)) || (ua_membership_epoch self =? 0)%Z ||
          (length (ua_representations self) =? 0) || (MAX_CAPTURE_ARTIFACTS <? length (ua_representations self)) ||
          negb (strict_sorted_unique (ua_representations self)) || (length (ua_privacy_scopes self) =? 0) ||
          negb (strict_sorted_unique (ua_privacy_scopes self)) || (ua_max_total_bytes self =? 0)%Z ||
          (MAX_CAPTURE_ARTIFACT_BYTES <? ua_max_total_bytes self)%Z || (ua_advertisement_sequence self =? 0)%Z ||
          (ua_expires_at_unix_ms self =? 0)%Z
  then Err InvalidAdvertisement
  else validate_device_intent (ua_signature_intent self) (ua_provider_device_id self).

Definition advertisement_unsigned (self : CaptureProviderAdvertisementWire) : UnsignedCaptureProviderAdvertisementWire :=
  {|
    ua_schema_version := pa_schema_version self; ua_room_id := pa_room_id self;
    ua_membership_epoch := pa_membership_epoch self; ua_player_id := pa_player_id self;
    ua_provider_device_id := pa_provider_device_id self; ua_provider_kind := pa_provider_kind self;
    ua_representations := pa_representations self; ua_privacy_scopes := pa_privacy_scopes self;
    ua_consent_policy := pa_consent_policy self; ua_max_total_bytes := pa_max_total_bytes self;
    ua_advertisement_sequence := pa_advertisement_sequence self; ua_expires_at_unix_ms := pa_expires_at_unix_ms self;
    ua_signature_intent := device_intent (pa_signature self)
  |}.

Definition advertisement_validate (self : CaptureProviderAdvertisementWire) : E unit :=
  _ ← unsigned_advertisement_validate (advertisement_unsigned self); validate_signature (pa_signature self).

Definition advertisement_attach_signature (self : UnsignedCaptureProviderAdvertisementWire) (text : SignatureBytes) : E CaptureProviderAdvertisementWire :=
  _ ← unsigned_advertisement_validate self;
  _ ← validate_signature_text text;
  Ok {|
    pa_schema_version := ua_schema_version self; pa_room_id := ua_room_id self;
    pa_membership_epoch := ua_membership_epoch self; pa_player_id := ua_player_id self;
    pa_provider_device_id := ua_provider_device_id self; pa_provider_kind := ua_provider_kind self;
    pa_representations := ua_representations self; pa_privacy_scopes := ua_privacy_scopes self;
    pa_consent_policy := ua_consent_policy self; pa_max_total_bytes := ua_max_total_bytes self;
    pa_advertisement_sequence := ua_advertisement_sequence self; pa_expires_at_unix_ms := ua_expires_at_unix_ms self;
    pa_signature := attach_device (ua_signature_intent self) text
  |}.

Definition unsigned_request_validate (self : UnsignedCaptureRequestWire) : E unit :=
  if negb (uq_schema_version self =? DEVICE_COOPERATION_SCHEMA_VERSION_V1)%Z then Err DcUnknownVersion
  else if negb (is_valid_identifier (uq_request_id self)) || negb (is_valid_identifier (uq_room_id self)) ||
          negb (is_valid_identifier (uq_player_id self)) || negb (is_valid_identifier (uq_requester_device_id self)) ||
          negb (is_valid_identifier (uq_provider_device_id self)) || (uq_membership_epoch self =? 0)%Z ||
          (uq_expires_at_unix_ms self =? 0)%Z || negb (valid_nonce (uq_replay_nonce self)) ||
          (String.length (uq_label self) =? 0) || (80 <? String.length (uq_label self)) ||
          has_control (text_bytes (uq_label self)) || (length (uq_representations self) =? 0) ||
          (MAX_CAPTURE_ARTIFACTS <? length (uq_representations self)) ||
          negb (strict_sorted_unique (uq_representations self)) || (uq_max_total_bytes self =? 0)%Z ||
          (MAX_CAPTURE_ARTIFACT_BYTES <? uq_max_total_bytes self)%Z
  then Err InvalidRequest
  else
    _ ← (match uq_viewport self with Some viewport => viewport_validate viewport | None => Ok tt end);
    validate_device_intent (uq_signature_intent self) (uq_requester_device_id self).

Definition request_unsigned (self : CaptureRequestWire) : UnsignedCaptureRequestWire :=
  {|
    uq_schema_version := rq_schema_version self; uq_request_id := rq_request_id self; uq_room_id := rq_room_id self;
    uq_membership_epoch := rq_membership_epoch self; uq_player_id := rq_player_id self;
    uq_requester_device_id := rq_requester_device_id self; uq_provider_device_id := rq_provider_device_id self;
    uq_observed_revision := rq_observed_revision self; uq_expires_at_unix_ms := rq_expires_at_unix_ms self;
    uq_replay_nonce := rq_replay_nonce self; uq_privacy := rq_privacy self; uq_provider_kind := rq_provider_kind self;
    uq_representations := rq_representations self; uq_viewport := rq_viewport self; uq_label := rq_label self;
    uq_max_total_bytes := rq_max_total_bytes self; uq_signature_intent := device_intent (rq_signature self)
  |}.

Definition request_validate (self : CaptureRequestWire) : E unit :=
  _ ← unsigned_request_validate (request_unsigned self); validate_signature (rq_signature self).

Definition request_attach_signature (self : UnsignedCaptureRequestWire) (text : SignatureBytes) : E CaptureRequestWire :=
  _ ← unsigned_request_validate self;
  _ ← validate_signature_text text;
  Ok {|
    rq_schema_version := uq_schema_version self; rq_request_id := uq_request_id self; rq_room_id := uq_room_id self;
    rq_membership_epoch := uq_membership_epoch self; rq_player_id := uq_player_id self;
    rq_requester_device_id := uq_requester_device_id self; rq_provider_device_id := uq_provider_device_id self;
    rq_observed_revision := uq_observed_revision self; rq_expires_at_unix_ms := uq_expires_at_unix_ms self;
    rq_replay_nonce := uq_replay_nonce self; rq_privacy := uq_privacy self; rq_provider_kind := uq_provider_kind self;
    rq_representations := uq_representations self; rq_viewport := uq_viewport self; rq_label := uq_label self;
    rq_max_total_bytes := uq_max_total_bytes self; rq_signature := attach_device (uq_signature_intent self) text
  |}.

Definition unsigned_consent_validate (self : UnsignedCaptureConsentWire) : E unit :=
  _ ← validate_request_binding (uo_schema_version self) (uo_request_id self) (uo_room_id self) (uo_membership_epoch self)
        (uo_player_id self) (uo_requester_device_id self) (uo_provider_device_id self) InvalidConsent;
  if (uo_decided_at_unix_ms self =? 0)%Z then Err InvalidConsent
  else validate_device_intent (uo_signature_intent self) (uo_provider_device_id self).

Definition consent_unsigned (self : CaptureConsentWire) : UnsignedCaptureConsentWire :=
  {|
    uo_schema_version := co_schema_version self; uo_request_id := co_request_id self;
    uo_request_hash := co_request_hash self; uo_room_id := co_room_id self;
    uo_membership_epoch := co_membership_epoch self; uo_player_id := co_player_id self;
    uo_requester_device_id := co_requester_device_id self; uo_provider_device_id := co_provider_device_id self;
    uo_decision := co_decision self; uo_decided_at_unix_ms := co_decided_at_unix_ms self;
    uo_signature_intent := device_intent (co_signature self)
  |}.

Definition consent_validate (self : CaptureConsentWire) : E unit :=
  _ ← unsigned_consent_validate (consent_unsigned self); validate_signature (co_signature self).

Definition consent_attach_signature (self : UnsignedCaptureConsentWire) (text : SignatureBytes) : E CaptureConsentWire :=
  _ ← unsigned_consent_validate self;
  _ ← validate_signature_text text;
  Ok {|
    co_schema_version := uo_schema_version self; co_request_id := uo_request_id self;
    co_request_hash := uo_request_hash self; co_room_id := uo_room_id self;
    co_membership_epoch := uo_membership_epoch self; co_player_id := uo_player_id self;
    co_requester_device_id := uo_requester_device_id self; co_provider_device_id := uo_provider_device_id self;
    co_decision := uo_decision self; co_decided_at_unix_ms := uo_decided_at_unix_ms self;
    co_signature := attach_device (uo_signature_intent self) text
  |}.

Definition unsigned_progress_validate (self : UnsignedCaptureProgressWire) : E unit :=
  _ ← validate_request_binding (ug_schema_version self) (ug_request_id self) (ug_room_id self) (ug_membership_epoch self)
        (ug_player_id self) (ug_requester_device_id self) (ug_provider_device_id self) InvalidProgress;
  if (ug_sequence self =? 0)%Z || (MAX_CAPTURE_ARTIFACT_BYTES <? ug_completed_bytes self)%Z ||
     is_some_and (ug_total_bytes self)
       (λ total, (total =? 0) || (MAX_CAPTURE_ARTIFACT_BYTES <? total) || (total <? ug_completed_bytes self))%Z
  then Err InvalidProgress
  else validate_device_intent (ug_signature_intent self) (ug_provider_device_id self).

Definition progress_unsigned (self : CaptureProgressWire) : UnsignedCaptureProgressWire :=
  {|
    ug_schema_version := cg_schema_version self; ug_request_id := cg_request_id self;
    ug_request_hash := cg_request_hash self; ug_room_id := cg_room_id self;
    ug_membership_epoch := cg_membership_epoch self; ug_player_id := cg_player_id self;
    ug_requester_device_id := cg_requester_device_id self; ug_provider_device_id := cg_provider_device_id self;
    ug_sequence := cg_sequence self; ug_stage := cg_stage self; ug_completed_bytes := cg_completed_bytes self;
    ug_total_bytes := cg_total_bytes self; ug_signature_intent := device_intent (cg_signature self)
  |}.

Definition progress_validate (self : CaptureProgressWire) : E unit :=
  _ ← unsigned_progress_validate (progress_unsigned self); validate_signature (cg_signature self).

Definition progress_attach_signature (self : UnsignedCaptureProgressWire) (text : SignatureBytes) : E CaptureProgressWire :=
  _ ← unsigned_progress_validate self;
  _ ← validate_signature_text text;
  Ok {|
    cg_schema_version := ug_schema_version self; cg_request_id := ug_request_id self;
    cg_request_hash := ug_request_hash self; cg_room_id := ug_room_id self;
    cg_membership_epoch := ug_membership_epoch self; cg_player_id := ug_player_id self;
    cg_requester_device_id := ug_requester_device_id self; cg_provider_device_id := ug_provider_device_id self;
    cg_sequence := ug_sequence self; cg_stage := ug_stage self; cg_completed_bytes := ug_completed_bytes self;
    cg_total_bytes := ug_total_bytes self; cg_signature := attach_device (ug_signature_intent self) text
  |}.

Definition unsigned_response_validate (self : UnsignedCaptureResponseWire) : E unit :=
  if negb (us_schema_version self =? DEVICE_COOPERATION_SCHEMA_VERSION_V1)%Z then Err DcUnknownVersion
  else if negb (is_valid_identifier (us_request_id self)) || negb (is_valid_identifier (us_room_id self)) ||
          negb (is_valid_identifier (us_player_id self)) || negb (is_valid_identifier (us_requester_device_id self)) ||
          negb (is_valid_identifier (us_provider_device_id self)) || (us_membership_epoch self =? 0)%Z
  then Err InvalidResponse
  else
    _ ← (match us_outcome self with
         | Accepted artifacts =>
             let artifact_ids : gset string := list_to_set (cd_artifact_id <$> artifacts) in
             let transfer_ids : gset string := list_to_set (ct_transfer_id ∘ transfer <$> artifacts) in
             if (length artifacts =? 0) || (MAX_CAPTURE_ARTIFACTS <? length artifacts) ||
                negb (size artifact_ids =? length artifacts) || negb (size transfer_ids =? length artifacts) ||
                negb (windows2 (λ a b, ltb (representation a) (representation b)) artifacts)
             then Err InvalidResponse
             else foldM (λ _, artifact_validate) artifacts tt
         | Denied _ => Ok tt
         end);
    validate_device_intent (us_signature_intent self) (us_provider_device_id self).

Definition response_unsigned (self : CaptureResponseWire) : UnsignedCaptureResponseWire :=
  {|
    us_schema_version := cs_schema_version self; us_request_id := cs_request_id self;
    us_request_hash := cs_request_hash self; us_room_id := cs_room_id self;
    us_membership_epoch := cs_membership_epoch self; us_player_id := cs_player_id self;
    us_requester_device_id := cs_requester_device_id self; us_provider_device_id := cs_provider_device_id self;
    us_outcome := cs_outcome self; us_signature_intent := device_intent (cs_signature self)
  |}.

Definition response_validate (self : CaptureResponseWire) : E unit :=
  _ ← unsigned_response_validate (response_unsigned self); validate_signature (cs_signature self).

Definition response_attach_signature (self : UnsignedCaptureResponseWire) (text : SignatureBytes) : E CaptureResponseWire :=
  _ ← unsigned_response_validate self;
  _ ← validate_signature_text text;
  Ok {|
    cs_schema_version := us_schema_version self; cs_request_id := us_request_id self;
    cs_request_hash := us_request_hash self; cs_room_id := us_room_id self;
    cs_membership_epoch := us_membership_epoch self; cs_player_id := us_player_id self;
    cs_requester_device_id := us_requester_device_id self; cs_provider_device_id := us_provider_device_id self;
    cs_outcome := us_outcome self; cs_signature := attach_device (us_signature_intent self) text
  |}.

Definition unsigned_completion_validate (self : UnsignedCaptureCompletionWire) : E unit :=
  _ ← validate_request_binding (um_schema_version self) (um_request_id self) (um_room_id self) (um_membership_epoch self)
        (um_player_id self) (um_requester_device_id self) (um_provider_device_id self) InvalidCompletion;
  if (um_final_sequence self =? 0)%Z then Err InvalidCompletion
  else
    _ ← (match um_outcome self with
         | Completed artifacts =>
             if (length artifacts =? 0) || (MAX_CAPTURE_ARTIFACTS <? length artifacts) ||
                negb (windows2 (λ a b, ltb (ca_artifact_id a) (ca_artifact_id b)) artifacts)
             then Err InvalidCompletion
             else foldM (λ _, completion_artifact_validate) artifacts tt
         | Failed _ => Ok tt
         end);
    validate_device_intent (um_signature_intent self) (um_provider_device_id self).

Definition completion_unsigned (self : CaptureCompletionWire) : UnsignedCaptureCompletionWire :=
  {|
    um_schema_version := cm_schema_version self; um_request_id := cm_request_id self;
    um_request_hash := cm_request_hash self; um_room_id := cm_room_id self;
    um_membership_epoch := cm_membership_epoch self; um_player_id := cm_player_id self;
    um_requester_device_id := cm_requester_device_id self; um_provider_device_id := cm_provider_device_id self;
    um_final_sequence := cm_final_sequence self; um_outcome := cm_outcome self;
    um_signature_intent := device_intent (cm_signature self)
  |}.

Definition completion_validate (self : CaptureCompletionWire) : E unit :=
  _ ← unsigned_completion_validate (completion_unsigned self); validate_signature (cm_signature self).

Definition completion_attach_signature (self : UnsignedCaptureCompletionWire) (text : SignatureBytes) : E CaptureCompletionWire :=
  _ ← unsigned_completion_validate self;
  _ ← validate_signature_text text;
  Ok {|
    cm_schema_version := um_schema_version self; cm_request_id := um_request_id self;
    cm_request_hash := um_request_hash self; cm_room_id := um_room_id self;
    cm_membership_epoch := um_membership_epoch self; cm_player_id := um_player_id self;
    cm_requester_device_id := um_requester_device_id self; cm_provider_device_id := um_provider_device_id self;
    cm_final_sequence := um_final_sequence self; cm_outcome := um_outcome self;
    cm_signature := attach_device (um_signature_intent self) text
  |}.

Definition unsigned_cancel_validate (self : UnsignedCaptureCancelWire) : E unit :=
  if negb (ux_schema_version self =? DEVICE_COOPERATION_SCHEMA_VERSION_V1)%Z then Err DcUnknownVersion
  else if negb (is_valid_identifier (ux_request_id self)) || negb (is_valid_identifier (ux_room_id self)) ||
          negb (is_valid_identifier (ux_player_id self)) || negb (is_valid_identifier (ux_requester_device_id self)) ||
          negb (is_valid_identifier (ux_provider_device_id self)) || (ux_membership_epoch self =? 0)%Z
  then Err InvalidCancel
  else validate_device_intent (ux_signature_intent self) (ux_requester_device_id self).

Definition cancel_unsigned (self : CaptureCancelWire) : UnsignedCaptureCancelWire :=
  {|
    ux_schema_version := cx_schema_version self; ux_request_id := cx_request_id self;
    ux_request_hash := cx_request_hash self; ux_room_id := cx_room_id self;
    ux_membership_epoch := cx_membership_epoch self; ux_player_id := cx_player_id self;
    ux_requester_device_id := cx_requester_device_id self; ux_provider_device_id := cx_provider_device_id self;
    ux_signature_intent := device_intent (cx_signature self)
  |}.

Definition cancel_validate (self : CaptureCancelWire) : E unit :=
  _ ← unsigned_cancel_validate (cancel_unsigned self); validate_signature (cx_signature self).

Definition cancel_attach_signature (self : UnsignedCaptureCancelWire) (text : SignatureBytes) : E CaptureCancelWire :=
  _ ← unsigned_cancel_validate self;
  _ ← validate_signature_text text;
  Ok {|
    cx_schema_version := ux_schema_version self; cx_request_id := ux_request_id self;
    cx_request_hash := ux_request_hash self; cx_room_id := ux_room_id self;
    cx_membership_epoch := ux_membership_epoch self; cx_player_id := ux_player_id self;
    cx_requester_device_id := ux_requester_device_id self; cx_provider_device_id := ux_provider_device_id self;
    cx_signature := attach_device (ux_signature_intent self) text
  |}.

(** ** Canonical bytes *)

(** [serde_json::to_vec] of the signed shapes *)
Class CaptureSerde : Type := {
  advertisement_json : UnsignedCaptureProviderAdvertisementWire → option (list Z);
  request_json : UnsignedCaptureRequestWire → option (list Z);
  consent_json : UnsignedCaptureConsentWire → option (list Z);
  progress_json : UnsignedCaptureProgressWire → option (list Z);
  response_json : UnsignedCaptureResponseWire → option (list Z);
  completion_json : UnsignedCaptureCompletionWire → option (list Z);
  cancel_json : UnsignedCaptureCancelWire → option (list Z);
}.

Definition capture_json_domain (domain : list Z) (json : option (list Z)) : E (list Z) :=
  json ← ok_or json DcEncoding;
  length ← ok_or (checked 64 (Z.of_nat (length json))) DcEncoding;
  Ok (domain ++ be_bytes 8 length ++ json).

Section Bytes.
Context `{CaptureSerde} (blake3 : list Z → list Z).

Definition canonical_capture_provider_advertisement_bytes (self : UnsignedCaptureProviderAdvertisementWire) : E (list Z) :=
  _ ← unsigned_advertisement_validate self; capture_json_domain CAPTURE_PROVIDER_DOMAIN (advertisement_json self).

Definition canonical_capture_request_bytes (self : UnsignedCaptureRequestWire) : E (list Z) :=
  _ ← unsigned_request_validate self; capture_json_domain CAPTURE_REQUEST_DOMAIN (request_json self).

Definition canonical_capture_consent_bytes (self : UnsignedCaptureConsentWire) : E (list Z) :=
  _ ← unsigned_consent_validate self; capture_json_domain CAPTURE_CONSENT_DOMAIN (consent_json self).

Definition canonical_capture_progress_bytes (self : UnsignedCaptureProgressWire) : E (list Z) :=
  _ ← unsigned_progress_validate self; capture_json_domain CAPTURE_PROGRESS_DOMAIN (progress_json self).

Definition canonical_capture_response_bytes (self : UnsignedCaptureResponseWire) : E (list Z) :=
  _ ← unsigned_response_validate self; capture_json_domain CAPTURE_RESPONSE_DOMAIN (response_json self).

Definition canonical_capture_completion_bytes (self : UnsignedCaptureCompletionWire) : E (list Z) :=
  _ ← unsigned_completion_validate self; capture_json_domain CAPTURE_COMPLETION_DOMAIN (completion_json self).

Definition canonical_capture_cancel_bytes (self : UnsignedCaptureCancelWire) : E (list Z) :=
  _ ← unsigned_cancel_validate self; capture_json_domain CAPTURE_CANCEL_DOMAIN (cancel_json self).

Definition capture_request_hash (request : UnsignedCaptureRequestWire) : E SemanticHash :=
  bytes ← canonical_capture_request_bytes request;
  Ok (SemanticHashOf (blake3 bytes)).
End Bytes.
