(* ===== verification/DeviceAction.v ===== *)
(** * Actions and reads of certified devices (crates/poche-protocol, device_action.rs)

    What a certified device signs to act, to observe and to change its route, with the
    validation of each and its signing bytes.  Serde's JSON text is a parameter. *)

From stdpp Require Import base strings numbers option list gmap.
From S2P Require Import Prelude Protocol Bytes Replication.

Definition DEVICE_ACTION_SCHEMA_VERSION_V1 : Z := 1.
Definition DEVICE_ACTION_SIGNATURE_DOMAIN_V1 : Z := 1.

Definition DEVICE_ACTION_DOMAIN : list Z := signing_domain "DEVICE-ACTION".
Definition DEVICE_OBSERVATION_REQUEST_DOMAIN : list Z := signing_domain "DEVICE-OBSERVATION-REQUEST".
Definition DEVICE_ROUTE_REQUEST_DOMAIN : list Z := signing_domain "DEVICE-ROUTE-REQUEST".
Definition MAX_ACTION_ID_BYTES : nat := 96.

(** ** Data *)

Inductive DeviceObservationModeWire : Type := ReadSnapshot | Wait (after_revision : Z).

Inductive DeviceRouteOperationWire : Type := RouteDisconnect | RouteRebind.

Record UnsignedDeviceActionWire : Type := {
  ud_schema_version : Z; ud_certificate : DeviceCertificateWire; ud_room_id : RoomId; ud_session_epoch : Z;
  ud_command_id : CommandId; ud_player_id : PrincipalId; ud_device_id : DeviceId; ud_expected_revision : Z;
  ud_expected_projection_hash : SemanticHash; ud_action_id : string; ud_payload : CommandPayload;
  ud_signature_intent : DeviceSignatureIntentWire;
}.

Record DeviceActionWire : Type := {
  da_schema_version : Z; da_certificate : DeviceCertificateWire; da_room_id : RoomId; da_session_epoch : Z;
  da_command_id : CommandId; da_player_id : PrincipalId; da_device_id : DeviceId; da_expected_revision : Z;
  da_expected_projection_hash : SemanticHash; da_action_id : string; da_payload : CommandPayload;
  da_signature : DeviceSignatureMetadataWire;
}.

Record UnsignedDeviceObservationRequestWire : Type := {
  ub_schema_version : Z; ub_certificate : DeviceCertificateWire; ub_room_id : RoomId; ub_session_epoch : Z;
  ub_request_id : CorrelationId; ub_player_id : PrincipalId; ub_device_id : DeviceId;
  ub_mode : DeviceObservationModeWire; ub_join_invite : option InviteProof;
  ub_signature_intent : DeviceSignatureIntentWire;
}.

Record DeviceObservationRequestWire : Type := {
  do_schema_version : Z; do_certificate : DeviceCertificateWire; do_room_id : RoomId; do_session_epoch : Z;
  do_request_id : CorrelationId; do_player_id : PrincipalId; do_device_id : DeviceId;
  do_mode : DeviceObservationModeWire; do_join_invite : option InviteProof; do_signature : DeviceSignatureMetadataWire;
}.

Record UnsignedDeviceRouteRequestWire : Type := {
  ut_schema_version : Z; ut_certificate : DeviceCertificateWire; ut_room_id : RoomId; ut_session_epoch : Z;
  ut_request_id : CorrelationId; ut_player_id : PrincipalId; ut_device_id : DeviceId;
  ut_operation : DeviceRouteOperationWire; ut_signature_intent : DeviceSignatureIntentWire;
}.

Record DeviceRouteRequestWire : Type := {
  dt_schema_version : Z; dt_certificate : DeviceCertificateWire; dt_room_id : RoomId; dt_session_epoch : Z;
  dt_request_id : CorrelationId; dt_player_id : PrincipalId; dt_device_id : DeviceId;
  dt_operation : DeviceRouteOperationWire; dt_signature : DeviceSignatureMetadataWire;
}.

Record DeviceRouteResultWire : Type := {
  dr_result_schema_version : Z; dr_result_room_id : RoomId; dr_result_session_epoch : Z; dr_result_player_id : PrincipalId;
  dr_result_device_id : DeviceId; dr_result_operation : DeviceRouteOperationWire; authoritative_revision : Z;
  route_connected : bool; member_connected : bool;
}.

Inductive DeviceActionWireError : Type :=
  | DaUnknownVersion | DaInvalidCertificate | InvalidBinding | DaInvalidSignatureIntent | DaInvalidSignature | DaEncoding.

(** ** Validation *)

Local Notation E T := (outcome DeviceActionWireError T).

Definition valid_action_id (value : string) : bool :=
  negb (String.length value =? 0) && (String.length value <=? MAX_ACTION_ID_BYTES) &&
  forallb (λ byte, is_ascii_alphanumeric byte || ((byte =? 45) || (byte =? 95) || (byte =? 46))%Z) (text_bytes value).

(** The end of every [validate]: the intent names the device *)
Definition validate_action_intent (sig : DeviceSignatureIntentWire) (device : DeviceId) : E unit :=
  if negb (di_domain_version sig =? DEVICE_ACTION_SIGNATURE_DOMAIN_V1)%Z || match di_algorithm sig with Ed25519 => false end ||
     bool_decide (di_key_id sig ≠ device)
  then Err DaInvalidSignatureIntent else Ok tt.

Definition action_signature_text (text : SignatureBytes) : E unit := map_err (λ _, DaInvalidSignature) (signature_validate text).

Definition action_bootstrap (self : UnsignedDeviceActionWire) : bool :=
  (ud_session_epoch self =? 0)%Z && (ud_expected_revision self =? 0)%Z &&
  match ud_payload self with CreateRoom => true | _ => false end &&
  (valid_from_membership_epoch (ud_certificate self) =? 1)%Z.

Definition unsigned_action_validate (self : UnsignedDeviceActionWire) : E unit :=
  _ ← map_err (λ _, DaInvalidCertificate) (certificate_validate (ud_certificate self));
  if negb (ud_schema_version self =? DEVICE_ACTION_SCHEMA_VERSION_V1)%Z then Err DaUnknownVersion
  else if negb (is_valid_identifier (ud_room_id self)) || negb (is_valid_identifier (ud_command_id self)) ||
          bool_decide (ud_player_id self ≠ dc_player_id (ud_certificate self)) ||
          bool_decide (ud_device_id self ≠ device_id (ud_certificate self)) ||
          negb (action_bootstrap self) && negb (is_valid_at (ud_certificate self) (ud_session_epoch self)) ||
          negb (device_has (ud_certificate self) Propose) || negb (valid_action_id (ud_action_id self))
  then Err InvalidBinding
  else validate_action_intent (ud_signature_intent self) (ud_device_id self).

Definition action_unsigned (self : DeviceActionWire) : UnsignedDeviceActionWire :=
  {|
    ud_schema_version := da_schema_version self; ud_certificate := da_certificate self; ud_room_id := da_room_id self;
    ud_session_epoch := da_session_epoch self; ud_command_id := da_command_id self; ud_player_id := da_player_id self;
    ud_device_id := da_device_id self; ud_expected_revision := da_expected_revision self;
    ud_expected_projection_hash := da_expected_projection_hash self; ud_action_id := da_action_id self;
    ud_payload := da_payload self; ud_signature_intent := device_intent (da_signature self)
  |}.

Definition action_validate (self : DeviceActionWire) : E unit :=
  _ ← unsigned_action_validate (action_unsigned self); action_signature_text (ds_signature (da_signature self)).

Definition action_attach_signature (self : UnsignedDeviceActionWire) (text : SignatureBytes) : E DeviceActionWire :=
  _ ← unsigned_action_validate self;
  _ ← action_signature_text text;
  Ok {|
    da_schema_version := ud_schema_version self; da_certificate := ud_certificate self; da_room_id := ud_room_id self;
    da_session_epoch := ud_session_epoch self; da_command_id := ud_command_id self; da_player_id := ud_player_id self;
    da_device_id := ud_device_id self; da_expected_revision := ud_expected_revision self;
    da_expected_projection_hash := ud_expected_projection_hash self; da_action_id := ud_action_id self;
    da_payload := ud_payload self; da_signature := attach_device (ud_signature_intent self) text
  |}.

Definition is_snapshot_mode (mode : DeviceObservationModeWire) : bool := match mode with ReadSnapshot => true | Wait _ => false end.

Definition observation_bootstrap (self : UnsignedDeviceObservationRequestWire) : bool :=
  (ub_session_epoch self =? 0)%Z && is_snapshot_mode (ub_mode self) &&
  match ub_join_invite self with None => true | Some _ => false end &&
  (valid_from_membership_epoch (ub_certificate self) =? 1)%Z.

Definition valid_join_discovery (self : UnsignedDeviceObservationRequestWire) : bool :=
  match ub_join_invite self with
  | None => true
  | Some invite => (0 <? ub_session_epoch self)%Z && is_snapshot_mode (ub_mode self) &&
      negb (String.length invite =? 0) && (String.length invite <=? 256)
  end.

Definition unsigned_observation_validate (self : UnsignedDeviceObservationRequestWire) : E unit :=
  _ ← map_err (λ _, DaInvalidCertificate) (certificate_validate (ub_certificate self));
  if negb (ub_schema_version self =? DEVICE_ACTION_SCHEMA_VERSION_V1)%Z then Err DaUnknownVersion
  else if negb (is_valid_identifier (ub_room_id self)) || negb (is_valid_identifier (ub_request_id self)) ||
          bool_decide (ub_player_id self ≠ dc_player_id (ub_certificate self)) ||
          bool_decide (ub_device_id self ≠ device_id (ub_certificate self)) ||
          negb (observation_bootstrap self) && negb (is_valid_at (ub_certificate self) (ub_session_epoch self)) ||
          negb (valid_join_discovery self) || negb (device_has (ub_certificate self) ReceivePrivateProjection)
  then Err InvalidBinding
  else validate_action_intent (ub_signature_intent self) (ub_device_id self).

Definition observation_unsigned (self : DeviceObservationRequestWire) : UnsignedDeviceObservationRequestWire :=
  {|
    ub_schema_version := do_schema_version self; ub_certificate := do_certificate self; ub_room_id := do_room_id self;
    ub_session_epoch := do_session_epoch self; ub_request_id := do_request_id self; ub_player_id := do_player_id self;
    ub_device_id := do_device_id self; ub_mode := do_mode self; ub_join_invite := do_join_invite self;
    ub_signature_intent := device_intent (do_signature self)
  |}.

Definition observation_validate (self : DeviceObservationRequestWire) : E unit :=
  _ ← unsigned_observation_validate (observation_unsigned self); action_signature_text (ds_signature (do_signature self)).

Definition observation_attach_signature (self : UnsignedDeviceObservationRequestWire) (text : SignatureBytes) : E DeviceObservationRequestWire :=
  _ ← unsigned_observation_validate self;
  _ ← action_signature_text text;
  Ok {|
    do_schema_version := ub_schema_version self; do_certificate := ub_certificate self; do_room_id := ub_room_id self;
    do_session_epoch := ub_session_epoch self; do_request_id := ub_request_id self; do_player_id := ub_player_id self;
    do_device_id := ub_device_id self; do_mode := ub_mode self; do_join_invite := ub_join_invite self;
    do_signature := attach_device (ub_signature_intent self) text
  |}.

Definition unsigned_route_validate (self : UnsignedDeviceRouteRequestWire) : E unit :=
  _ ← map_err (λ _, DaInvalidCertificate) (certificate_validate (ut_certificate self));
  if negb (ut_schema_version self =? DEVICE_ACTION_SCHEMA_VERSION_V1)%Z then Err DaUnknownVersion
  else if negb (is_valid_identifier (ut_room_id self)) || (ut_session_epoch self =? 0)%Z ||
          negb (is_valid_identifier (ut_request_id self)) || bool_decide (ut_player_id self ≠ dc_player_id (ut_certificate self)) ||
          bool_decide (ut_device_id self ≠ device_id (ut_certificate self)) ||
          negb (is_valid_at (ut_certificate self) (ut_session_epoch self)) ||
          negb (device_has (ut_certificate self) ReceivePrivateProjection)
  then Err InvalidBinding
  else validate_action_intent (ut_signature_intent self) (ut_device_id self).

Definition route_unsigned (self : DeviceRouteRequestWire) : UnsignedDeviceRouteRequestWire :=
  {|
    ut_schema_version := dt_schema_version self; ut_certificate := dt_certificate self; ut_room_id := dt_room_id self;
    ut_session_epoch := dt_session_epoch self; ut_request_id := dt_request_id self; ut_player_id := dt_player_id self;
    ut_device_id := dt_device_id self; ut_operation := dt_operation self;
    ut_signature_intent := device_intent (dt_signature self)
  |}.

Definition route_validate (self : DeviceRouteRequestWire) : E unit :=
  _ ← unsigned_route_validate (route_unsigned self); action_signature_text (ds_signature (dt_signature self)).

Definition route_attach_signature (self : UnsignedDeviceRouteRequestWire) (text : SignatureBytes) : E DeviceRouteRequestWire :=
  _ ← unsigned_route_validate self;
  _ ← action_signature_text text;
  Ok {|
    dt_schema_version := ut_schema_version self; dt_certificate := ut_certificate self; dt_room_id := ut_room_id self;
    dt_session_epoch := ut_session_epoch self; dt_request_id := ut_request_id self; dt_player_id := ut_player_id self;
    dt_device_id := ut_device_id self; dt_operation := ut_operation self;
    dt_signature := attach_device (ut_signature_intent self) text
  |}.

Definition route_result_validate (self : DeviceRouteResultWire) : E unit :=
  let expected_route := match dr_result_operation self with RouteRebind => true | RouteDisconnect => false end in
  if negb (dr_result_schema_version self =? DEVICE_ACTION_SCHEMA_VERSION_V1)%Z then Err DaUnknownVersion
  else if negb (is_valid_identifier (dr_result_room_id self)) || (dr_result_session_epoch self =? 0)%Z ||
          negb (is_valid_identifier (dr_result_player_id self)) || negb (is_valid_identifier (dr_result_device_id self)) ||
          negb (Bool.eqb (route_connected self) expected_route)
  then Err InvalidBinding else Ok tt.

(** ** Canonical bytes *)

(** [serde_json::to_vec] of the signed shapes *)
Class ActionSerde : Type := {
  action_json : UnsignedDeviceActionWire → option (list Z);
  observation_json : UnsignedDeviceObservationRequestWire → option (list Z);
  route_json : UnsignedDeviceRouteRequestWire → option (list Z);
}.

Definition action_json_domain (domain : list Z) (json : option (list Z)) : E (list Z) :=
  json ← ok_or json DaEncoding;
  length ← ok_or (checked 64 (Z.of_nat (length json))) DaEncoding;
  Ok (domain ++ be_bytes 8 length ++ json).

Section Bytes.
Context `{ActionSerde}.

Definition canonical_device_action_bytes (self : UnsignedDeviceActionWire) : E (list Z) :=
  _ ← unsigned_action_validate self; action_json_domain DEVICE_ACTION_DOMAIN (action_json self).

Definition canonical_device_observation_request_bytes (self : UnsignedDeviceObservationRequestWire) : E (list Z) :=
  _ ← unsigned_observation_validate self; action_json_domain DEVICE_OBSERVATION_REQUEST_DOMAIN (observation_json self).

Definition canonical_device_route_request_bytes (self : UnsignedDeviceRouteRequestWire) : E (list Z) :=
  _ ← unsigned_route_validate self; action_json_domain DEVICE_ROUTE_REQUEST_DOMAIN (route_json self).
End Bytes.
