(* ===== verification/Cooperation.v ===== *)
(** * Cooperation between devices (crates/poche-session, device_cooperation.rs)

    Who may ask which device for a capture, what the answers must be bound to, and the
    bounded memory of accepted requests. *)

From stdpp Require Import base strings numbers option list gmap.
From S2P Require Import Prelude Methods Protocol Bytes Replication DeviceWire.

Record CaptureAuthorizationContext : Type := {
  ac_room_id : RoomId; ac_membership_epoch : Z; ac_current_revision : Z; ac_now_unix_ms : Z;
  requester_certificate : DeviceCertificateWire; ac_provider_certificate : DeviceCertificateWire;
  requester_revoked : bool; ac_provider_revoked : bool;
}.

Record CaptureProviderAuthorizationContext : Type := {
  pc_room_id : RoomId; pc_membership_epoch : Z; pc_now_unix_ms : Z; pc_provider_certificate : DeviceCertificateWire;
  pc_provider_revoked : bool;
}.

Inductive CaptureAuthorizationError : Type :=
  | InvalidWire | WrongRoom | WrongMembershipEpoch | WrongPlayer | WrongDevice | RevokedDevice | ExpiredCertificate
  | MissingCapability | ExpiredRequest | StaleRevision | ResponseMismatch | ArtifactMismatch | AdvertisementMismatch
  | ProgressMismatch | CompletionMismatch | ReplayedRequest | ConflictingReplay | ReplayWindowFull.

#[export] Instance CaptureAuthorizationError_eq_dec : EqDecision CaptureAuthorizationError.
Proof. solve_decision. Defined.

Local Notation E T := (outcome CaptureAuthorizationError T).

(** [map_err(|_| InvalidWire)] *)
Definition valid_wire {E' A} (m : outcome E' A) : E A := map_err (λ _, InvalidWire) m.

Section Cooperation.
Context `{CaptureSerde} (blake3 : list Z → list Z).

Definition request_hash_of (request : CaptureRequestWire) : E SemanticHash :=
  valid_wire (capture_request_hash blake3 (request_unsigned request)).

Definition authorize_capture_provider (advertisement : CaptureProviderAdvertisementWire)
    (context : CaptureProviderAuthorizationContext) : E unit :=
  _ ← valid_wire (advertisement_validate advertisement);
  _ ← valid_wire (certificate_validate (pc_provider_certificate context));
  if bool_decide (pa_room_id advertisement ≠ pc_room_id context) then Err WrongRoom
  else if negb (pa_membership_epoch advertisement =? pc_membership_epoch context)%Z then Err WrongMembershipEpoch
  else if bool_decide (pa_player_id advertisement ≠ dc_player_id (pc_provider_certificate context)) then Err WrongPlayer
  else if bool_decide (pa_provider_device_id advertisement ≠ device_id (pc_provider_certificate context)) then Err WrongDevice
  else if pc_provider_revoked context then Err RevokedDevice
  else if negb (is_valid_at (pc_provider_certificate context) (pc_membership_epoch context)) then Err ExpiredCertificate
  else if negb (device_has (pc_provider_certificate context) ProvideCapture) then Err MissingCapability
  else if (pa_expires_at_unix_ms advertisement <? pc_now_unix_ms context)%Z then Err ExpiredRequest
  else Ok tt.

Definition authorize_capture_request (request : CaptureRequestWire) (context : CaptureAuthorizationContext) : E unit :=
  _ ← valid_wire (request_validate request);
  _ ← valid_wire (certificate_validate (requester_certificate context));
  _ ← valid_wire (certificate_validate (ac_provider_certificate context));
  if bool_decide (rq_room_id request ≠ ac_room_id context) then Err WrongRoom
  else if negb (rq_membership_epoch request =? ac_membership_epoch context)%Z then Err WrongMembershipEpoch
  else if bool_decide (rq_player_id request ≠ dc_player_id (requester_certificate context)) ||
          bool_decide (rq_player_id request ≠ dc_player_id (ac_provider_certificate context)) then Err WrongPlayer
  else if bool_decide (rq_requester_device_id request ≠ device_id (requester_certificate context)) ||
          bool_decide (rq_provider_device_id request ≠ device_id (ac_provider_certificate context)) then Err WrongDevice
  else if requester_revoked context || ac_provider_revoked context then Err RevokedDevice
  else if negb (is_valid_at (requester_certificate context) (ac_membership_epoch context)) ||
          negb (is_valid_at (ac_provider_certificate context) (ac_membership_epoch context)) then Err ExpiredCertificate
  else if negb (device_has (requester_certificate context) RequestCapture) ||
          negb (device_has (ac_provider_certificate context) ProvideCapture) then Err MissingCapability
  else if (rq_expires_at_unix_ms request <? ac_now_unix_ms context)%Z then Err ExpiredRequest
  else if negb (rq_observed_revision request =? ac_current_revision context)%Z then Err StaleRevision
  else Ok tt.

Definition authorize_capture_request_with_provider (advertisement : CaptureProviderAdvertisementWire)
    (request : CaptureRequestWire) (context : CaptureAuthorizationContext) : E unit :=
  _ ← authorize_capture_request request context;
  _ ← authorize_capture_provider advertisement {|
        pc_room_id := ac_room_id context; pc_membership_epoch := ac_membership_epoch context;
        pc_now_unix_ms := ac_now_unix_ms context; pc_provider_certificate := ac_provider_certificate context;
        pc_provider_revoked := ac_provider_revoked context |};
  if bool_decide (pa_player_id advertisement ≠ rq_player_id request) ||
     bool_decide (pa_provider_device_id advertisement ≠ rq_provider_device_id request) ||
     bool_decide (pa_provider_kind advertisement ≠ rq_provider_kind request) ||
     (pa_max_total_bytes advertisement <? rq_max_total_bytes request)%Z ||
     (pa_expires_at_unix_ms advertisement <? rq_expires_at_unix_ms request)%Z ||
     negb (search_ok (rq_privacy request) (pa_privacy_scopes advertisement)) ||
     existsb (λ r, negb (search_ok r (pa_representations advertisement))) (rq_representations request)
  then Err AdvertisementMismatch else Ok tt.

Definition authorize_provider_binding (request : CaptureRequestWire) (request_id : CaptureRequestId)
    (request_hash : SemanticHash) (room_id : RoomId) (membership_epoch : Z) (player_id : PrincipalId)
    (requester_device_id provider_device_id : DeviceId) (mismatch : CaptureAuthorizationError) : E unit :=
  expected_hash ← request_hash_of request;
  if bool_decide (request_id ≠ rq_request_id request) || bool_decide (request_hash ≠ expected_hash) ||
     bool_decide (room_id ≠ rq_room_id request) || negb (membership_epoch =? rq_membership_epoch request)%Z ||
     bool_decide (player_id ≠ rq_player_id request) ||
     bool_decide (requester_device_id ≠ rq_requester_device_id request) ||
     bool_decide (provider_device_id ≠ rq_provider_device_id request)
  then Err mismatch else Ok tt.

Definition authorize_capture_consent (request : CaptureRequestWire) (consent : CaptureConsentWire)
    (context : CaptureAuthorizationContext) : E unit :=
  _ ← authorize_capture_request request context;
  _ ← valid_wire (consent_validate consent);
  _ ← authorize_provider_binding request (co_request_id consent) (co_request_hash consent) (co_room_id consent)
        (co_membership_epoch consent) (co_player_id consent) (co_requester_device_id consent)
        (co_provider_device_id consent) ResponseMismatch;
  if (rq_expires_at_unix_ms request <? co_decided_at_unix_ms consent)%Z ||
     (ac_now_unix_ms context <? co_decided_at_unix_ms consent)%Z
  then Err ResponseMismatch else Ok tt.

Definition authorize_capture_progress (request : CaptureRequestWire) (progress : CaptureProgressWire)
    (context : CaptureAuthorizationContext) : E unit :=
  _ ← authorize_capture_request request context;
  _ ← valid_wire (progress_validate progress);
  _ ← authorize_provider_binding request (cg_request_id progress) (cg_request_hash progress) (cg_room_id progress)
        (cg_membership_epoch progress) (cg_player_id progress) (cg_requester_device_id progress)
        (cg_provider_device_id progress) ProgressMismatch;
  if (rq_max_total_bytes request <? cg_completed_bytes progress)%Z ||
     is_some_and (cg_total_bytes progress) (λ total, rq_max_total_bytes request <? total)%Z
  then Err ProgressMismatch else Ok tt.

(** [try_fold(0, checked_add)] *)
Definition total_bytes (artifacts : list CaptureArtifactDescriptorWire) : option Z :=
  foldl (λ total artifact, total ← total; checked 64 (total + byte_length (transfer artifact))) (Some 0%Z) artifacts.

Definition authorize_capture_response (request : CaptureRequestWire) (response : CaptureResponseWire)
    (context : CaptureAuthorizationContext) : E unit :=
  _ ← authorize_capture_request request context;
  _ ← valid_wire (response_validate response);
  expected_hash ← request_hash_of request;
  if bool_decide (cs_request_id response ≠ rq_request_id request) || bool_decide (cs_request_hash response ≠ expected_hash) ||
     bool_decide (cs_room_id response ≠ rq_room_id request) ||
     negb (cs_membership_epoch response =? rq_membership_epoch request)%Z ||
     bool_decide (cs_player_id response ≠ rq_player_id request) ||
     bool_decide (cs_requester_device_id response ≠ rq_requester_device_id request) ||
     bool_decide (cs_provider_device_id response ≠ rq_provider_device_id request)
  then Err ResponseMismatch
  else match cs_outcome response with
       | Accepted artifacts =>
           if match total_bytes artifacts with Some total => (rq_max_total_bytes request <? total)%Z | None => true end ||
              existsb (λ artifact, negb (search_ok (representation artifact) (rq_representations request)) ||
                bool_decide (cd_provider_kind artifact ≠ rq_provider_kind request) ||
                negb (captured_revision artifact =? rq_observed_revision request)%Z) artifacts
           then Err ArtifactMismatch else Ok tt
       | Denied _ => Ok tt
       end.

(** A receipt that no offer answers *)
Definition receipt_mismatch (offered : list CaptureArtifactDescriptorWire) (receipt : CaptureCompletionArtifactWire) : bool :=
  match List.find (λ offer, bool_decide (cd_artifact_id offer = ca_artifact_id receipt)) offered with
  | Some offer =>
      bool_decide (ct_transfer_id (transfer offer) ≠ ca_transfer_id receipt) ||
      negb (byte_length (transfer offer) =? ca_byte_length receipt)%Z ||
      bool_decide (content_hash (transfer offer) ≠ ca_content_hash receipt)
  | None => true
  end.

Definition authorize_capture_completion (request : CaptureRequestWire) (response : CaptureResponseWire)
    (completion : CaptureCompletionWire) (context : CaptureAuthorizationContext) : E unit :=
  _ ← authorize_capture_response request response context;
  _ ← valid_wire (completion_validate completion);
  _ ← authorize_provider_binding request (cm_request_id completion) (cm_request_hash completion) (cm_room_id completion)
        (cm_membership_epoch completion) (cm_player_id completion) (cm_requester_device_id completion)
        (cm_provider_device_id completion) CompletionMismatch;
  match cs_outcome response, cm_outcome completion with
  | Accepted offered, Completed completed =>
      if negb (length offered =? length completed) || existsb (receipt_mismatch offered) completed
      then Err CompletionMismatch else Ok tt
  | _, _ => Err CompletionMismatch
  end.

(** ** The replay window *)

Record CaptureReplayWindow : Type := { window_capacity : nat; accepted : gmap CaptureRequestId SemanticHash }.

Definition window_new (capacity : nat) : CaptureReplayWindow := {| window_capacity := capacity; accepted := ∅ |}.

Definition authorize_once (request : CaptureRequestWire) (context : CaptureAuthorizationContext) :
    M CaptureReplayWindow CaptureAuthorizationError unit :=
  _ ← lift (authorize_capture_request request context);
  hash ← lift (request_hash_of request);
  self ← read (λ self, self);
  match accepted self !! rq_request_id request with
  | Some known => throw (if bool_decide (known = hash) then ReplayedRequest else ConflictingReplay)
  | None =>
      if window_capacity self <=? size (accepted self) then throw ReplayWindowFull
      else update (λ self, {| window_capacity := window_capacity self; accepted := <[rq_request_id request := hash]> (accepted self) |})
  end.
End Cooperation.
