(* ===== verification/CooperationTheorems.v ===== *)
(** * What cooperation between devices promises

    Exactly which requests are authorized, what an accepted completion delivers, that a
    request is accepted once, and that nothing a device signs for one purpose can be
    taken for another. *)

From Stdlib Require Import ZifyBool.
From stdpp Require Import base strings numbers option list gmap.
From S2P Require Import Prelude Methods Protocol Bytes ProtocolTheorems Replication DeviceWire DeviceAction Cooperation.

(** ** Authorized requests *)

Lemma valid_wire_Ok {E A} (m : outcome E A) a : valid_wire m = Ok a ↔ m = Ok a.
Proof. unfold valid_wire. apply map_err_Ok. Qed.

Lemma device_has_elem d c : certificate_validate d = Ok tt → device_has d c = true ↔ c ∈ dc_capabilities d.
Proof.
  unfold certificate_validate, unsigned_certificate_validate. destruct (negb _); [done|]. destruct (_ || _)%bool; [done|].
  intros ([] & Hc & _)%bind_Ok. unfold validate_capabilities in Hc. destruct (_ || _)%bool eqn:Hw; [done|].
  apply orb_false_iff in Hw as [_ Hw%negb_false_iff]. unfold device_has. apply search_ok_spec. by apply strict_sorted_ascending.
Qed.

(** The rule a request is judged by *)
Record request_allowed (request : CaptureRequestWire) (context : CaptureAuthorizationContext) : Prop := {
  ra_wire : request_validate request = Ok tt;
  ra_requester_wire : certificate_validate (requester_certificate context) = Ok tt;
  ra_provider_wire : certificate_validate (ac_provider_certificate context) = Ok tt;
  ra_room : rq_room_id request = ac_room_id context;
  ra_epoch : rq_membership_epoch request = ac_membership_epoch context;
  ra_player : rq_player_id request = dc_player_id (requester_certificate context) ∧
    rq_player_id request = dc_player_id (ac_provider_certificate context);
  ra_devices : rq_requester_device_id request = device_id (requester_certificate context) ∧
    rq_provider_device_id request = device_id (ac_provider_certificate context);
  ra_live : requester_revoked context = false ∧ ac_provider_revoked context = false;
  ra_valid : is_valid_at (requester_certificate context) (ac_membership_epoch context) = true ∧
    is_valid_at (ac_provider_certificate context) (ac_membership_epoch context) = true;
  ra_capable : RequestCapture ∈ dc_capabilities (requester_certificate context) ∧
    ProvideCapture ∈ dc_capabilities (ac_provider_certificate context);
  ra_time : (ac_now_unix_ms context <= rq_expires_at_unix_ms request)%Z;
  ra_revision : rq_observed_revision request = ac_current_revision context;
}.

Ltac guards := repeat match goal with
  | H : (if ?b then Err _ else _) = Ok _ |- _ => let Hb := fresh "Hb" in destruct b eqn:Hb; [discriminate H|]
  | H : (_ || _)%bool = false |- _ => apply orb_false_iff in H as [? ?]
  | H : negb _ = false |- _ => apply negb_false_iff in H
  | H : bool_decide (_ ≠ _) = false |- _ => apply bool_decide_eq_false, dec_stable in H
  | H : valid_wire _ = Ok _ |- _ => apply (proj1 (valid_wire_Ok _ _)) in H
  end.

(** A capture request is authorized exactly when it and both certificates are well
    formed, it names this room, epoch and revision, requester and provider are the exact
    certified devices of one player, neither is revoked or out of its epochs, each has its
    capability, and the request has not expired. *)
Theorem request_authorized_exact request context :
  authorize_capture_request request context = Ok tt ↔ request_allowed request context.
Proof.
  unfold authorize_capture_request. split.
  - intros ([] & Hq & ([] & Hr & ([] & Hp & H)%bind_Ok)%bind_Ok)%bind_Ok. guards. split; try done; try lia.
    by rewrite <-!device_has_elem.
  - intros [Hw Hr Hp Hroom Hepoch [Hp1 Hp2] [Hd1 Hd2] [Hl1 Hl2] [Hv1 Hv2] Hc Ht Hrev].
    rewrite <-!device_has_elem in Hc by done. destruct Hc as [Hc1 Hc2].
    rewrite (proj2 (valid_wire_Ok _ _) Hw), (proj2 (valid_wire_Ok _ _) Hr), (proj2 (valid_wire_Ok _ _) Hp). cbn.
    rewrite (proj2 (Z.eqb_eq _ _) Hepoch), (proj2 (Z.eqb_eq _ _) Hrev), (proj2 (Z.ltb_ge _ _) Ht), Hl1, Hl2, Hv1, Hv2, Hc1, Hc2.
    by rewrite !bool_decide_false by (intros Hn; by apply Hn).
Qed.

(** ** Completions *)

(** The receipt of an offered artifact *)
Definition receipt_of (offer : CaptureArtifactDescriptorWire) : CaptureCompletionArtifactWire :=
  {| ca_artifact_id := cd_artifact_id offer; ca_transfer_id := ct_transfer_id (transfer offer);
     ca_byte_length := byte_length (transfer offer); ca_content_hash := content_hash (transfer offer) |}.

Definition sum_bytes (receipts : list CaptureCompletionArtifactWire) : Z := foldr Z.add 0%Z (ca_byte_length <$> receipts).

Lemma sum_bytes_perm l k : l ≡ₚ k → sum_bytes l = sum_bytes k.
Proof. unfold sum_bytes. induction 1; cbn in *; lia. Qed.

Lemma total_bytes_sum offered total : total_bytes offered = Some total → total = sum_bytes (receipt_of <$> offered).
Proof.
  revert total. induction offered as [|x l IH] using rev_ind; intros total Ht; [by injection Ht as <-|].
  unfold total_bytes in *. rewrite foldl_app in Ht. cbn in Ht. apply bind_Some in Ht as (t & Ht & [<- _]%checked_Some).
  apply IH in Ht as ->. rewrite fmap_app. unfold sum_bytes. rewrite fmap_app, foldr_app. cbn.
  induction (ca_byte_length <$> (receipt_of <$> l)) as [|y k IHk]; cbn; lia.
Qed.

Lemma receipt_mismatch_false offered receipt : receipt_mismatch offered receipt = false → receipt ∈ receipt_of <$> offered.
Proof.
  unfold receipt_mismatch. destruct (List.find _ _) as [o|] eqn:Hf; [|done]. apply List_find_Some in Hf as [Ho Hid].
  apply bool_decide_eq_true in Hid. intros Hm. guards. apply list_elem_of_fmap. exists o. split; [|done].
  destruct receipt as [id tid len hash]. unfold receipt_of. cbn in *. f_equal; try congruence. lia.
Qed.

Lemma unsigned_request_facts q : unsigned_request_validate q = Ok tt →
  ascending (uq_representations q) ∧ (uq_max_total_bytes q <= MAX_CAPTURE_ARTIFACT_BYTES)%Z.
Proof. unfold unsigned_request_validate. intros H. guards. split; [by apply strict_sorted_ascending|lia]. Qed.

Lemma completed_NoDup c completed : completion_validate c = Ok tt → cm_outcome c = Completed completed → NoDup completed.
Proof.
  unfold completion_validate, unsigned_completion_validate. intros ([] & H & _)%bind_Ok Ho. apply bind_Ok in H as ([] & _ & H).
  destruct (_ =? _)%Z; [done|]. change (um_outcome (completion_unsigned c)) with (cm_outcome c) in H. rewrite Ho in H. apply bind_Ok in H as ([] & H & _). guards.
  match goal with H : windows2 _ _ = true |- _ => rewrite (windows2_fmap ca_artifact_id ltb) in H; apply strict_sorted_ascending, ascending_NoDup in H end.
  by eapply NoDup_fmap_1.
Qed.

Lemma response_offer (E : CaptureSerde) blake3 request response context offered :
  authorize_capture_response blake3 request response context = Ok tt → cs_outcome response = Accepted offered →
  ∃ hash, request_hash_of blake3 request = Ok hash ∧ cs_request_hash response = hash ∧ cs_request_id response = rq_request_id request ∧
    (∀ o, o ∈ offered → representation o ∈ rq_representations request ∧ cd_provider_kind o = rq_provider_kind request ∧
      captured_revision o = rq_observed_revision request) ∧
    (sum_bytes (receipt_of <$> offered) <= rq_max_total_bytes request)%Z.
Proof.
  unfold authorize_capture_response. intros ([] & Ha & ([] & _ & (hash & Hh & H)%bind_Ok)%bind_Ok)%bind_Ok Ho.
  apply request_authorized_exact, ra_wire in Ha. unfold request_validate in Ha.
  apply bind_Ok in Ha as ([] & [Hasc _]%unsigned_request_facts & _). exists hash. guards. rewrite Ho in H. guards.
  split_and!; try done.
  - intros o Hin. match goal with H : existsb _ _ = false |- _ => pose proof (proj1 (Forall_forall _ _) (proj1 (existsb_false_iff _ _) H) o Hin) as Hone end. cbv beta in Hone. guards.
    split_and!; [|done|lia]. by apply search_ok_spec.
  - destruct (total_bytes offered) as [total|] eqn:Ht; [|done]. apply total_bytes_sum in Ht as <-. lia.
Qed.

(** An accepted completion delivers what was asked for: its receipts are exactly the
    artifacts the provider offered, each in a representation, from a kind of provider and
    at the revision that were requested; together they stay within the requested size;
    and response and completion carry the hash of this request. *)
Theorem completion_matches_offer (E : CaptureSerde) blake3 request response completion context :
  authorize_capture_completion blake3 request response completion context = Ok tt →
  ∃ offered completed hash, cs_outcome response = Accepted offered ∧ cm_outcome completion = Completed completed ∧
    completed ≡ₚ receipt_of <$> offered ∧
    (sum_bytes completed <= rq_max_total_bytes request <= MAX_CAPTURE_ARTIFACT_BYTES)%Z ∧
    (∀ o, o ∈ offered → representation o ∈ rq_representations request ∧ cd_provider_kind o = rq_provider_kind request ∧
      captured_revision o = ac_current_revision context) ∧
    request_hash_of blake3 request = Ok hash ∧ cs_request_hash response = hash ∧ cm_request_hash completion = hash.
Proof.
  unfold authorize_capture_completion. intros ([] & Hr & ([] & Hw%valid_wire_Ok & ([] & Hb & H)%bind_Ok)%bind_Ok)%bind_Ok.
  destruct (cs_outcome response) as [offered|] eqn:Ho; [|done]. destruct (cm_outcome completion) as [completed|] eqn:Hc; [|done].
  guards. destruct (response_offer _ _ _ _ _ _ Hr Ho) as (hash & Hh & Hrh & _ & Hoff & Hsum).
  assert (completed ≡ₚ receipt_of <$> offered) as Hperm.
  { apply submseteq_length_Permutation; [|rewrite length_fmap; lia]. apply NoDup_submseteq; [by eapply completed_NoDup|].
    intros x Hx. apply receipt_mismatch_false. apply (proj1 (Forall_forall _ _) (proj1 (existsb_false_iff _ _) ltac:(eassumption)) x Hx). }
  unfold authorize_capture_response in Hr. apply bind_Ok in Hr as ([] & Ha%request_authorized_exact & _).
  pose proof (ra_wire _ _ Ha) as Hq. unfold request_validate in Hq. apply bind_Ok in Hq as ([] & [_ Hmax]%unsigned_request_facts & _).
  unfold authorize_provider_binding in Hb. rewrite Hh in Hb. cbn in Hb. guards.
  exists offered, completed, hash. rewrite (sum_bytes_perm _ _ Hperm). split_and!; try done.
  intros o Hin. rewrite <-(ra_revision _ _ Ha). by apply Hoff.
Qed.

(** ** The replay window *)

Section Window.
Context `{CaptureSerde} (blake3 : list Z → list Z).

(** Calls one after the other, with the requests that were accepted, latest first *)
Definition call_step (acc : CaptureReplayWindow * list (CaptureRequestId * SemanticHash))
    (call : CaptureRequestWire * CaptureAuthorizationContext) : CaptureReplayWindow * list (CaptureRequestId * SemanticHash) :=
  match authorize_once blake3 call.1 call.2 acc.1, request_hash_of blake3 call.1 with
  | (w, Ok _), Ok hash => (w, (rq_request_id call.1, hash) :: acc.2)
  | (w, _), _ => (w, acc.2)
  end.

Definition serve_calls (capacity : nat) (calls : list (CaptureRequestWire * CaptureAuthorizationContext)) :
    CaptureReplayWindow * list (CaptureRequestId * SemanticHash) :=
  foldl call_step (window_new capacity, []) calls.

(** The verdict on a call, from the calls accepted before it *)
Definition verdict (capacity : nat) (history : list (CaptureRequestId * SemanticHash)) (id : CaptureRequestId) (hash : SemanticHash) :
    outcome CaptureAuthorizationError unit :=
  match (list_to_map history : gmap _ _) !! id with
  | Some known => Err (if bool_decide (known = hash) then ReplayedRequest else ConflictingReplay)
  | None => if length history <? capacity then Ok tt else Err ReplayWindowFull
  end.

Record window_inv (capacity : nat) (w : CaptureReplayWindow) (history : list (CaptureRequestId * SemanticHash)) : Prop := {
  wi_capacity : window_capacity w = capacity;
  wi_accepted : accepted w = list_to_map history;
  wi_once : NoDup history.*1;
  wi_bound : length history <= capacity;
}.

Lemma authorize_once_verdict capacity w history request context hash : window_inv capacity w history →
  authorize_capture_request request context = Ok tt → request_hash_of blake3 request = Ok hash →
  authorize_once blake3 request context w =
    (match verdict capacity history (rq_request_id request) hash with
     | Ok _ => {| window_capacity := window_capacity w; accepted := <[rq_request_id request := hash]> (accepted w) |}
     | _ => w
     end, verdict capacity history (rq_request_id request) hash).
Proof.
  destruct w as [c a]. intros [Hc Ha Ho Hb] Hq Hh. cbn in Hc, Ha. subst c a. unfold authorize_once, mbind, M_bind, lift, read, throw, update, verdict. rewrite Hq, Hh. cbn [accepted window_capacity].
 
  destruct (list_to_map history !! _); [done|]. rewrite map_size_list_to_map by done.
  destruct (capacity <=? length history) eqn:Hl; [|by replace (length history <? capacity) with true by lia].
  by replace (length history <? capacity) with false by lia.
Qed.

Lemma authorize_once_refused request context w :
  authorize_capture_request request context ≠ Ok tt ∨ (∀ hash, request_hash_of blake3 request ≠ Ok hash) → (authorize_once blake3 request context w).1 = w ∧ (authorize_once blake3 request context w).2 ≠ Ok tt.
Proof.
  unfold authorize_once, mbind, M_bind, lift. destruct (authorize_capture_request _ _) as [[]| |]; [|done..].
  intros [|Hr]; [done|]. by destruct (request_hash_of _ _); [destruct (Hr _ eq_refl)|..].
Qed.

Lemma call_step_inv capacity w history call : window_inv capacity w history →
  window_inv capacity (call_step (w, history) call).1 (call_step (w, history) call).2.
Proof.
  intros Hi. destruct call as [request context]. unfold call_step. cbn [fst snd].
  destruct (decide (authorize_capture_request request context = Ok tt)) as [Hq|Hq].
  - destruct (request_hash_of blake3 request) as [hash|e|] eqn:Hh.
    + rewrite (authorize_once_verdict _ _ _ _ _ _ Hi Hq Hh). unfold verdict. destruct Hi as [Hc Ha Ho Hb].
      destruct (list_to_map history !! _) as [known|] eqn:Hl; [done|]. destruct (_ <? _) eqn:Hlt; [|done].
      split; cbn; [done|by rewrite Ha| |lia]. constructor; [|done]. by apply not_elem_of_list_to_map.
    + destruct (authorize_once_refused request context w) as [Hw Hr]; [right; by rewrite Hh|].
      by destruct (authorize_once _ _ _ _) as [w' [[]| |]]; cbn in *; subst.
    + destruct (authorize_once_refused request context w) as [Hw Hr]; [right; by rewrite Hh|].
      by destruct (authorize_once _ _ _ _) as [w' [[]| |]]; cbn in *; subst.
  - destruct (authorize_once_refused request context w (or_introl Hq)) as [Hw Hr].
    destruct (authorize_once _ _ _ _) as [w' [[]| |]]; cbn in *; subst; [done|..]; by destruct (request_hash_of blake3 request).
Qed.

Lemma serve_calls_inv capacity calls : window_inv capacity (serve_calls capacity calls).1 (serve_calls capacity calls).2.
Proof.
  unfold serve_calls. assert (window_inv capacity (window_new capacity) []) as Hi by (split; [done|done|constructor|cbn; lia]).
  revert Hi. generalize (window_new capacity), (@nil (CaptureRequestId * SemanticHash)). induction calls as [|call calls IH]; intros w history Hi; [done|].
  cbn [foldl]. destruct (call_step (w, history) call) as [w' history'] eqn:Hs. apply IH.
  pose proof (call_step_inv _ _ _ call Hi) as Hi'. by rewrite Hs in Hi'.
Qed.
End Window.

(** However a replay window is used, each request identifier is accepted at most
    once and at most [capacity] requests are.  The next authorized call is answered from
    the accepted requests alone: a repetition as a replay, another request under a used
    identifier as a conflict, a new one unless the window is full; and a call that is not
    authorized changes nothing. *)
Theorem replay_window_exact (E : CaptureSerde) blake3 capacity calls w history : serve_calls blake3 capacity calls = (w, history) →
  NoDup history.*1 ∧ length history <= capacity ∧
  (∀ request context hash, authorize_capture_request request context = Ok tt → request_hash_of blake3 request = Ok hash →
    (authorize_once blake3 request context w).2 = verdict capacity history (rq_request_id request) hash) ∧
  (∀ request context, authorize_capture_request request context ≠ Ok tt → (authorize_once blake3 request context w).1 = w).
Proof.
  intros Hs. pose proof (serve_calls_inv blake3 capacity calls) as Hi. rewrite Hs in Hi. cbn in Hi. split_and!; [apply Hi|apply Hi|..].
  - intros request context hash Hq Hh. by rewrite (authorize_once_verdict _ _ _ _ _ _ _ Hi Hq Hh).
  - intros request context Hq. by apply (authorize_once_refused blake3 request context w); left.
Qed.

(** ** Signed bytes *)

(** Everything a device signs to cooperate, act, observe or change its route *)
Inductive DeviceMessage : Type :=
  | MsgAdvertisement (m : UnsignedCaptureProviderAdvertisementWire)
  | MsgRequest (m : UnsignedCaptureRequestWire)
  | MsgConsent (m : UnsignedCaptureConsentWire)
  | MsgProgress (m : UnsignedCaptureProgressWire)
  | MsgResponse (m : UnsignedCaptureResponseWire)
  | MsgCompletion (m : UnsignedCaptureCompletionWire)
  | MsgCancel (m : UnsignedCaptureCancelWire)
  | MsgAction (m : UnsignedDeviceActionWire)
  | MsgObservation (m : UnsignedDeviceObservationRequestWire)
  | MsgRoute (m : UnsignedDeviceRouteRequestWire).

Definition message_kind (m : DeviceMessage) : string :=
  match m with
  | MsgAdvertisement _ => "CAPTURE-PROVIDER" | MsgRequest _ => "CAPTURE-REQUEST" | MsgConsent _ => "CAPTURE-CONSENT"
  | MsgProgress _ => "CAPTURE-PROGRESS" | MsgResponse _ => "CAPTURE-RESPONSE" | MsgCompletion _ => "CAPTURE-COMPLETION"
  | MsgCancel _ => "CAPTURE-CANCEL" | MsgAction _ => "DEVICE-ACTION" | MsgObservation _ => "DEVICE-OBSERVATION-REQUEST"
  | MsgRoute _ => "DEVICE-ROUTE-REQUEST"
  end.

Section Signed.
Context `{CaptureSerde, ActionSerde}.

Definition message_json (m : DeviceMessage) : option (list Z) :=
  match m with
  | MsgAdvertisement m => advertisement_json m | MsgRequest m => request_json m | MsgConsent m => consent_json m
  | MsgProgress m => progress_json m | MsgResponse m => response_json m | MsgCompletion m => completion_json m
  | MsgCancel m => cancel_json m | MsgAction m => action_json m | MsgObservation m => observation_json m
  | MsgRoute m => route_json m
  end.

(** [Result::ok] *)
Definition to_option {E A} (m : outcome E A) : option A := match m with Ok a => Some a | _ => None end.

Lemma to_option_Some {E A} (m : outcome E A) a : to_option m = Some a → m = Ok a.
Proof using Type. by destruct m; intros [= ->]. Qed.

Definition message_bytes (m : DeviceMessage) : option (list Z) :=
  match m with
  | MsgAdvertisement m => to_option (canonical_capture_provider_advertisement_bytes m)
  | MsgRequest m => to_option (canonical_capture_request_bytes m)
  | MsgConsent m => to_option (canonical_capture_consent_bytes m)
  | MsgProgress m => to_option (canonical_capture_progress_bytes m)
  | MsgResponse m => to_option (canonical_capture_response_bytes m)
  | MsgCompletion m => to_option (canonical_capture_completion_bytes m)
  | MsgCancel m => to_option (canonical_capture_cancel_bytes m)
  | MsgAction m => to_option (canonical_device_action_bytes m)
  | MsgObservation m => to_option (canonical_device_observation_request_bytes m)
  | MsgRoute m => to_option (canonical_device_route_request_bytes m)
  end.

Lemma capture_json_domain_Ok domain json bytes : capture_json_domain domain json = Ok bytes →
  ∃ text len, json = Some text ∧ bytes = domain ++ be_bytes 8 len ++ text.
Proof using Type. unfold capture_json_domain. intros (text & Ht%ok_or_Ok & (len & _ & [= <-])%bind_Ok)%bind_Ok. eauto. Qed.

Lemma action_json_domain_Ok domain json bytes : action_json_domain domain json = Ok bytes →
  ∃ text len, json = Some text ∧ bytes = domain ++ be_bytes 8 len ++ text.
Proof using Type. unfold action_json_domain. intros (text & Ht%ok_or_Ok & (len & _ & [= <-])%bind_Ok)%bind_Ok. eauto. Qed.

Lemma message_bytes_shape m bytes : message_bytes m = Some bytes →
  ∃ text len, message_json m = Some text ∧ bytes = signing_domain (message_kind m) ++ be_bytes 8 len ++ text.
Proof using Type.
  destruct m; cbn; intros (_ & _ & Hb)%to_option_Some%bind_Ok; first [exact (capture_json_domain_Ok _ _ _ Hb)|exact (action_json_domain_Ok _ _ _ Hb)].
Qed.
End Signed.

(** A name up to the first zero byte *)
Lemma zero_terminated_inj (l k r s : list Z) : 0%Z ∉ l → 0%Z ∉ k → l ++ 0%Z :: r = k ++ 0%Z :: s → l = k ∧ r = s.
Proof.
  revert k. induction l as [|x l IH]; intros [|y k] Hl Hk Heq; cbn in Heq.
  - by injection Heq as <-.
  - injection Heq as <- _. destruct Hk. left.
  - injection Heq as -> _. destruct Hl. left.
  - injection Heq as <- Heq. destruct (IH k) as [-> ->]; [by intros ?; apply Hl; right|by intros ?; apply Hk; right|done..].
Qed.

Lemma signing_domain_inj name name' r s : 0%Z ∉ text_bytes name → 0%Z ∉ text_bytes name' →
  signing_domain name ++ r = signing_domain name' ++ s → name = name' ∧ r = s.
Proof.
  unfold signing_domain. intros Hn Hn' Heq. rewrite <-!app_assoc in Heq. apply app_inv_head in Heq. cbn in Heq.
  injection Heq as Heq. apply zero_terminated_inj in Heq as [Hname Heq]; [|done..]. split; [by apply (inj text_bytes)|].
  by injection Heq.
Qed.

Lemma message_kind_zero m : 0%Z ∉ text_bytes (message_kind m).
Proof. destruct m; vm_compute; intros Hx; repeat (apply elem_of_cons in Hx as [Hx|Hx]; [discriminate Hx|]); by apply elem_of_nil in Hx. Qed.

(** [C18] What a device signs for one purpose cannot be taken for another: among the seven
    cooperation messages, actions, observations and route changes, two messages with the
    same signed bytes are of one kind and have the same JSON text. *)
Theorem device_messages_separate (E : CaptureSerde) (F : ActionSerde) m m' bytes :
  message_bytes m = Some bytes → message_bytes m' = Some bytes → message_kind m = message_kind m' ∧ message_json m = message_json m'.
Proof.
  intros (text & len & Ht & ->)%message_bytes_shape (text' & len' & Ht' & Heq)%message_bytes_shape.
  apply signing_domain_inj in Heq as [Hk Heq]; [|apply message_kind_zero..]. split; [done|]. rewrite Ht, Ht'.
  apply app_inj_1 in Heq as [_ ->]; [done|]. by rewrite !be_bytes_length.
Qed.

(** ** Concrete instances *)

#[export] Instance sample_capture_serde : CaptureSerde := {|
  advertisement_json m := Some (text_bytes (ua_provider_device_id m));
  request_json m := Some (text_bytes (uq_request_id m) ++ [uq_observed_revision m] ++ text_bytes (uq_label m));
  consent_json m := Some (text_bytes (uo_request_id m)); progress_json m := Some (text_bytes (ug_request_id m));
  response_json m := Some (text_bytes (us_request_id m)); completion_json m := Some (text_bytes (um_request_id m));
  cancel_json m := Some (text_bytes (ux_request_id m));
|}.

#[export] Instance sample_action_serde : ActionSerde := {|
  action_json m := Some (text_bytes (ud_action_id m)); observation_json m := Some (text_bytes (ub_request_id m));
  route_json m := Some (text_bytes (ut_request_id m));
|}.

Definition sample_hash (input : list Z) : list Z := take 32 (rev input).

Definition sample_certificate (seed : string) (capability : DeviceCapabilityWire) : DeviceCertificateWire :=
  let key := text_repeat seed 32 in
  {| dc_schema_version := 1; certificate_id := "cert"; dc_player_id := text_repeat "01" 32; device_id := key;
     device_signing_public_key := key; device_encryption_public_key := text_repeat "ee" 32; dc_sequence := 1;
     valid_from_membership_epoch := 1; valid_through_membership_epoch := None; dc_capabilities := [capability];
     custody := NativeLocal;
     dc_signature := {| domain_version := 1; algorithm := Ed25519; key_id := text_repeat "01" 32; signature_text := text_repeat "00" 64 |} |}.

Definition sample_context : CaptureAuthorizationContext := {|
  ac_room_id := "room-1"; ac_membership_epoch := 1; ac_current_revision := 12; ac_now_unix_ms := 11000;
  requester_certificate := sample_certificate "02" RequestCapture; ac_provider_certificate := sample_certificate "03" ProvideCapture;
  requester_revoked := false; ac_provider_revoked := false |}.

Definition device_signed (seed : string) : DeviceSignatureMetadataWire :=
  {| ds_domain_version := 1; ds_algorithm := Ed25519; ds_key_id := text_repeat seed 32; ds_signature := text_repeat "11" 64 |}.

Definition sample_request (id label : string) : CaptureRequestWire := {|
  rq_schema_version := 1; rq_request_id := id; rq_room_id := "room-1"; rq_membership_epoch := 1;
  rq_player_id := text_repeat "01" 32; rq_requester_device_id := text_repeat "02" 32; rq_provider_device_id := text_repeat "03" 32;
  rq_observed_revision := 12; rq_expires_at_unix_ms := 20000; rq_replay_nonce := "nonce-1"; rq_privacy := ExactPlayerView;
  rq_provider_kind := NativeBevy; rq_representations := [Png; LayoutJson]; rq_viewport := None; rq_label := label;
  rq_max_total_bytes := 60000; rq_signature := device_signed "02" |}.

Definition sample_artifact (id : string) (r : CaptureRepresentationWire) : CaptureArtifactDescriptorWire := {|
  cd_artifact_id := id; representation := r; cd_provider_kind := NativeBevy; captured_revision := 12;
  projection_hash := SemanticHashOf []; scene_hash := None; cd_viewport := Some {| width_pixels := 640; height_pixels := 480 |};
  transfer := {| ct_transfer_id := "transfer-" +:+ id; byte_length := 25000; chunk_bytes := 24576; chunk_count := 2; content_hash := SemanticHashOf [7%Z] |} |}.

Definition sample_offer : list CaptureArtifactDescriptorWire := [sample_artifact "picture" Png; sample_artifact "layout" LayoutJson].

Definition sample_response (hash : SemanticHash) : CaptureResponseWire := {|
  cs_schema_version := 1; cs_request_id := "capture-1"; cs_request_hash := hash; cs_room_id := "room-1"; cs_membership_epoch := 1;
  cs_player_id := text_repeat "01" 32; cs_requester_device_id := text_repeat "02" 32; cs_provider_device_id := text_repeat "03" 32;
  cs_outcome := Accepted sample_offer; cs_signature := device_signed "03" |}.

Definition sample_completion (hash : SemanticHash) : CaptureCompletionWire := {|
  cm_schema_version := 1; cm_request_id := "capture-1"; cm_request_hash := hash; cm_room_id := "room-1"; cm_membership_epoch := 1;
  cm_player_id := text_repeat "01" 32; cm_requester_device_id := text_repeat "02" 32; cm_provider_device_id := text_repeat "03" 32;
  cm_final_sequence := 3; cm_outcome := Completed (receipt_of <$> rev sample_offer); cm_signature := device_signed "03" |}.

Lemma completion_matches_offer_witness : ∃ hash completed,
  authorize_capture_completion sample_hash (sample_request "capture-1" "playing") (sample_response hash) (sample_completion hash) sample_context = Ok tt ∧
  cm_outcome (sample_completion hash) = Completed completed ∧ completed ≡ₚ receipt_of <$> sample_offer.
Proof.
  destruct (request_hash_of sample_hash (sample_request "capture-1" "playing")) as [hash| |] eqn:Hh; [|vm_compute in Hh; discriminate Hh..].
  assert (authorize_capture_completion sample_hash (sample_request "capture-1" "playing") (sample_response hash) (sample_completion hash)
    sample_context = Ok tt) as Ha.
  { vm_compute in Hh. injection Hh as <-. vm_compute. reflexivity. }
  destruct (completion_matches_offer _ _ _ _ _ _ Ha) as (offered & completed & h & Ho & Hc & Hp & _).
  injection Ho as <-. exists hash, completed. exact (conj Ha (conj Hc Hp)).
Defined.

Lemma request_authorized_exact_witness : request_allowed (sample_request "capture-1" "playing") sample_context.
Proof. apply request_authorized_exact. vm_compute. reflexivity. Defined.

Lemma replay_window_exact_witness : ∃ w history,
  serve_calls sample_hash 2 [(sample_request "capture-1" "playing", sample_context); (sample_request "capture-1" "again", sample_context);
    (sample_request "capture-2" "playing", sample_context)] = (w, history) ∧ NoDup history.*1 ∧ history.*1 = ["capture-2"; "capture-1"] ∧
  (authorize_once sample_hash (sample_request "capture-3" "late") sample_context w).2 = Err ReplayWindowFull.
Proof.
  destruct (serve_calls _ _ _) as [w history] eqn:Hs. exists w, history.
  destruct (replay_window_exact _ _ _ _ _ _ Hs) as (Hn & _ & Hv & _).
  assert (history.*1 = ["capture-2"; "capture-1"]) as Hids.
  { apply (f_equal (λ x, x.2.*1)) in Hs. cbn in Hs. rewrite <-Hs. vm_compute. reflexivity. }
  split; [reflexivity|]. split; [exact Hn|]. split; [exact Hids|].
  destruct (request_hash_of sample_hash (sample_request "capture-3" "late")) as [hash| |] eqn:Hh; [|vm_compute in Hh; discriminate Hh..].
  rewrite (Hv _ sample_context hash); [|vm_compute; reflexivity|exact Hh].
  apply (f_equal snd) in Hs. cbn [snd] in Hs. rewrite <-Hs. vm_compute. reflexivity.
Defined.

Lemma device_messages_separate_witness : ∃ bytes,
  message_bytes (MsgRequest (request_unsigned (sample_request "capture-1" "playing"))) = Some bytes ∧
  message_bytes (MsgRequest (request_unsigned (sample_request "capture-1" "playing"))) = Some bytes ∧
  message_json (MsgRequest (request_unsigned (sample_request "capture-1" "playing"))) =
  message_json (MsgRequest (request_unsigned (sample_request "capture-1" "playing"))).
Proof.
  destruct (message_bytes (MsgRequest (request_unsigned (sample_request "capture-1" "playing")))) as [bytes|] eqn:Hb; [|vm_compute in Hb; discriminate Hb].
  exists bytes. exact (conj eq_refl (conj eq_refl (proj2 (device_messages_separate _ _ _ _ _ Hb Hb)))).
Defined.
