(* ===== verification/Gateway.v ===== *)
(** * What a browser gateway discloses (crates/poche-protocol, gateway.rs)

    The inventory of what a gateway can see and do in each supported profile, its
    validation against the profile, its canonical codec, and what a disclosure promises.  Serde's JSON text is a
    parameter with the laws of [GatewaySerde]. *)

From stdpp Require Import base strings numbers option list gmap.
From S2P Require Import Prelude Protocol Bytes Replication.

Definition GATEWAY_DISCLOSURE_VERSION_V1 : Z := 1.
Definition MAX_GATEWAY_DISCLOSURE_BYTES : nat := 2048.

Inductive GatewayAuthorityModeWire : Type := HostAuthoritative | ReplicatedFacilitator.
Inductive GatewayProjectionProtectionWire : Type := GatewayPlaintext | DeviceEndToEndEncrypted.
Inductive GatewayCustodyRecoveryWire : Type := RotateBrowserDevice | ExportRotateRevokeGateway.
Inductive GatewayVisibilityWire : Type := Visible | Opaque.
Inductive GatewayAbilityWire : Type := Present | Absent.
Inductive GatewayQuorumWire : Type := Required | QuorumNotRequired.

Record GatewayTrustDisclosureWire : Type := {
  gd_schema_version : Z; authority_mode : GatewayAuthorityModeWire; device_custody : DeviceCustodyWire;
  projection_protection : GatewayProjectionProtectionWire; transport_metadata : GatewayVisibilityWire;
  signed_command_plaintext : GatewayVisibilityWire; projection_plaintext : GatewayVisibilityWire;
  censor_delay_reorder : GatewayAbilityWire; replay_transport_bytes : GatewayAbilityWire;
  impersonate_this_device : GatewayAbilityWire; impersonate_other_devices : GatewayAbilityWire;
  player_root_access : GatewayAbilityWire; unilateral_room_ordering : GatewayAbilityWire;
  consensus_quorum : GatewayQuorumWire; host_hidden_state : GatewayVisibilityWire;
  custody_recovery : GatewayCustodyRecoveryWire;
}.

Inductive GatewayDisclosureError : Type :=
  | GdUnknownVersion | UnsupportedProfile | InconsistentClaims | InvalidJson | GdNonCanonical | GdOversize.

#[export] Instance GatewayAuthorityModeWire_eq_dec : EqDecision GatewayAuthorityModeWire.
Proof. solve_decision. Defined.
#[export] Instance GatewayProjectionProtectionWire_eq_dec : EqDecision GatewayProjectionProtectionWire.
Proof. solve_decision. Defined.
#[export] Instance GatewayTrustDisclosureWire_eq_dec : EqDecision GatewayTrustDisclosureWire.
Proof.
  intros x y. unfold Decision.
  repeat decide equality; first [apply GatewayAuthorityModeWire_eq_dec|apply GatewayProjectionProtectionWire_eq_dec].
Defined.

Local Notation E T := (outcome GatewayDisclosureError T).

Definition visibility (value : bool) : GatewayVisibilityWire := if value then Visible else Opaque.
Definition ability (value : bool) : GatewayAbilityWire := if value then Present else Absent.

Definition browser_custody (custody : DeviceCustodyWire) : bool :=
  match custody with BrowserLocal | GatewayCustodied => true | _ => false end.

Definition for_browser_unchecked (mode : GatewayAuthorityModeWire) (custody : DeviceCustodyWire)
    (protection : GatewayProjectionProtectionWire) : E GatewayTrustDisclosureWire :=
  if negb (browser_custody custody) || (bool_decide (mode = HostAuthoritative) && bool_decide (protection ≠ GatewayPlaintext))
  then Err UnsupportedProfile
  else
    let gateway_custodied := bool_decide (custody = GatewayCustodied) in
    let host := bool_decide (mode = HostAuthoritative) in
    Ok {| gd_schema_version := GATEWAY_DISCLOSURE_VERSION_V1; authority_mode := mode; device_custody := custody;
          projection_protection := protection; transport_metadata := Visible; signed_command_plaintext := Visible;
          projection_plaintext := visibility (host || bool_decide (protection = GatewayPlaintext) || gateway_custodied);
          censor_delay_reorder := Present; replay_transport_bytes := Present;
          impersonate_this_device := ability gateway_custodied; impersonate_other_devices := Absent;
          player_root_access := Absent; unilateral_room_ordering := ability host;
          consensus_quorum := if host then QuorumNotRequired else Required; host_hidden_state := visibility host;
          custody_recovery := if gateway_custodied then ExportRotateRevokeGateway else RotateBrowserDevice |}.

Definition disclosure_validate (self : GatewayTrustDisclosureWire) : E unit :=
  if negb (gd_schema_version self =? GATEWAY_DISCLOSURE_VERSION_V1)%Z then Err GdUnknownVersion
  else
    expected ← for_browser_unchecked (authority_mode self) (device_custody self) (projection_protection self);
    if bool_decide (self = expected) then Ok tt else Err InconsistentClaims.

Definition for_browser (mode : GatewayAuthorityModeWire) (custody : DeviceCustodyWire)
    (protection : GatewayProjectionProtectionWire) : E GatewayTrustDisclosureWire :=
  if negb (browser_custody custody) then Err UnsupportedProfile
  else if bool_decide (mode = HostAuthoritative) && bool_decide (protection ≠ GatewayPlaintext) then Err UnsupportedProfile
  else
    let gateway_custodied := bool_decide (custody = GatewayCustodied) in
    let host := bool_decide (mode = HostAuthoritative) in
    let sees_projection_plaintext := host || bool_decide (protection = GatewayPlaintext) || gateway_custodied in
    let result := {| gd_schema_version := GATEWAY_DISCLOSURE_VERSION_V1; authority_mode := mode; device_custody := custody;
          projection_protection := protection; transport_metadata := Visible; signed_command_plaintext := Visible;
          projection_plaintext := visibility sees_projection_plaintext;
          censor_delay_reorder := Present; replay_transport_bytes := Present;
          impersonate_this_device := ability gateway_custodied; impersonate_other_devices := Absent;
          player_root_access := Absent; unilateral_room_ordering := ability host;
          consensus_quorum := if host then QuorumNotRequired else Required; host_hidden_state := visibility host;
          custody_recovery := if gateway_custodied then ExportRotateRevokeGateway else RotateBrowserDevice |} in
    _ ← disclosure_validate result;
    Ok result.

(** [serde_json] of a disclosure; a parsed object prints to one text *)
Class GatewaySerde : Type := {
  disclosure_json : GatewayTrustDisclosureWire → option (list Z);
  disclosure_parse : list Z → option GatewayTrustDisclosureWire;
}.

Section Codec.
Context `{GatewaySerde}.

Definition encode_gateway_disclosure (disclosure : GatewayTrustDisclosureWire) : E (list Z) :=
  _ ← disclosure_validate disclosure;
  bytes ← ok_or (disclosure_json disclosure) InvalidJson;
  if MAX_GATEWAY_DISCLOSURE_BYTES <? length bytes then Err GdOversize else Ok bytes.

Definition decode_gateway_disclosure (bytes : list Z) : E GatewayTrustDisclosureWire :=
  if MAX_GATEWAY_DISCLOSURE_BYTES <? length bytes then Err GdOversize
  else
    value ← ok_or (disclosure_parse bytes) InvalidJson;
    _ ← disclosure_validate value;
    canonical ← encode_gateway_disclosure value;
    if bool_decide (canonical ≠ bytes) then Err GdNonCanonical else Ok value.
End Codec.

(** ** What a gateway disclosure promises
    A disclosure is accepted exactly when it is the inventory of a supported profile,
    one accepted text stands for each, and nothing is claimed opaque that the gateway
    can read. *)

(** Validation accepts the inventories the constructor makes, and nothing else. *)
Lemma disclosure_validate_exact d :
  disclosure_validate d = Ok tt ↔ for_browser (authority_mode d) (device_custody d) (projection_protection d) = Ok d.
Proof.
  unfold disclosure_validate. split.
  - destruct (negb _) eqn:Hs; [done|]. intros (e & He & Hd)%bind_Ok. case_bool_decide as Heq; [|done]. subst e.
    revert He Hs. destruct d as [v [] [] [] ? ? ? ? ? ? ? ? ? ? ? ?]; cbn; try done; intros [= <- <- <- <- <- <- <- <- <- <- <- <- <-] _; done.
  - intros Hb. unfold for_browser in Hb. destruct (negb _); [done|]. destruct (_ && _)%bool; [done|].
    apply bind_Ok in Hb as ([] & Hv & [= Heq]). rewrite <-Heq. unfold disclosure_validate in Hv. exact Hv.
Qed.

(** What the gateway can do in a profile is what it says it can *)
Record honest (d : GatewayTrustDisclosureWire) : Prop := {
  ho_projection : projection_plaintext d = Opaque →
    authority_mode d = ReplicatedFacilitator ∧ device_custody d = BrowserLocal ∧ projection_protection d = DeviceEndToEndEncrypted;
  ho_device : impersonate_this_device d = Absent → device_custody d = BrowserLocal;
  ho_order : unilateral_room_ordering d = Absent ↔ authority_mode d = ReplicatedFacilitator;
  ho_quorum : consensus_quorum d = Required ↔ authority_mode d = ReplicatedFacilitator;
  ho_hidden : host_hidden_state d = Opaque ↔ authority_mode d = ReplicatedFacilitator;
  ho_recovery : custody_recovery d = ExportRotateRevokeGateway ↔ device_custody d = GatewayCustodied;
}.

Lemma for_browser_honest mode custody protection d : for_browser mode custody protection = Ok d → honest d.
Proof. destruct mode, custody, protection; cbn; intros [= <-]; by split. Qed.

(** Decoding accepts the one text that encoding gives, and only honest claims. *)
Theorem gateway_disclosure_exact (S : GatewaySerde) bytes d :
  decode_gateway_disclosure bytes = Ok d ↔ disclosure_parse bytes = Some d ∧ encode_gateway_disclosure d = Ok bytes.
Proof.
  unfold decode_gateway_disclosure. split.
  - destruct (_ <? _); [done|]. intros (v & Hv%ok_or_Ok & ([] & _ & (c & Hc & H)%bind_Ok)%bind_Ok)%bind_Ok.
    case_bool_decide as Heq; [done|]. injection H as <-. subst c. done.
  - intros [Hp He]. pose proof He as He'. unfold encode_gateway_disclosure in He. apply bind_Ok in He as ([] & Hv & He).
    apply bind_Ok in He as (b & _ & He). destruct (_ <? _) eqn:Hl; [done|]. injection He as ->. rewrite Hl, Hp. cbn. rewrite Hv. cbn.
    rewrite He'. cbn. by rewrite bool_decide_false by (intros Hn; by apply Hn).
Qed.

Lemma decoded_honest (S : GatewaySerde) bytes d : decode_gateway_disclosure bytes = Ok d → honest d.
Proof.
  intros [_ He]%gateway_disclosure_exact. unfold encode_gateway_disclosure in He. apply bind_Ok in He as ([] & Hv & _).
  by eapply for_browser_honest, disclosure_validate_exact.
Qed.
