(* ===== verification/Formal.v ===== *)
(** * The finite expression dialect

    poche-formal/src/lib.rs: finite types and their values, the graph builder, lowering
    to stack code, and the evaluator.  Node identifiers, lengths and enumeration
    ordinals are [usize] offsets into vectors in memory and are [nat] here; [i32] values
    are [Z] with their bounds written out.  The text of a message is not modelled: a
    constructor of [Message] or [SchemaError] carries what the text is made of.  Weavy,
    which runs the lowered code, is the class [Weavy] of its documented behaviour on
    straight-line code. *)

From Stdlib Require Import Ascii.
From stdpp Require Import base strings numbers option list.
From S2P Require Import Prelude Methods Protocol Bytes.

Module Formal.

(** ** Schemas *)

(** The bytes of a string that [str::trim] removes: the encodings of the code points with the property White_Space. *)
Fixpoint blank_bytes (bytes : list Z) : bool :=
  match bytes with
  | [] => true
  | b :: rest =>
      if ((9 <=? b) && (b <=? 13) || (b =? 32))%Z then blank_bytes rest
      else match rest with
           | [] => false
           | c :: rest =>
               if ((b =? 194) && ((c =? 133) || (c =? 160)))%Z then blank_bytes rest
               else match rest with
                    | [] => false
                    | d :: rest =>
                        if ((b =? 225) && (c =? 154) && (d =? 128)
                            || (b =? 226) && (c =? 128) && ((128 <=? d) && (d <=? 138) || (d =? 168) || (d =? 169) || (d =? 175))
                            || (b =? 226) && (c =? 129) && (d =? 159)
                            || (b =? 227) && (c =? 128) && (d =? 128))%Z
                        then blank_bytes rest
                        else false
                    end
           end
  end.

(** [name.trim().is_empty()] *)
Definition blank (name : string) : bool := blank_bytes (text_bytes name).

Inductive SchemaError :=
  | EmptyRange (min max : Z)
  | EmptyName (kind : string)
  | NoVariants (name : string)
  | RepeatedVariant (name variant : string)
  | RepeatedField (name field : string).

Record IntRange := mkIntRange { range_min : Z; range_max : Z }.

Definition IntRange_new (min max : Z) : outcome SchemaError IntRange :=
  if (max <? min)%Z then Err (EmptyRange min max) else Ok {| range_min := min; range_max := max |}.

Definition range_contains (self : IntRange) (value : Z) : bool := (range_min self <=? value)%Z && (value <=? range_max self)%Z.

Definition ensure_name (kind name : string) : outcome SchemaError unit :=
  if blank name then Err (EmptyName kind) else Ok tt.

Record EnumType := mkEnumType { enum_name : string; variants : list string }.

Definition EnumType_new (name : string) (variants : list string) : outcome SchemaError EnumType :=
  _ ← ensure_name "enum" name;
  if bool_decide (variants = []) then Err (NoVariants name)
  else
    _ ← foldM (λ seen variant,
      _ ← ensure_name "enum variant" variant;
      if bool_decide (variant ∈ seen) then Err (RepeatedVariant name variant) else Ok (btree_insert variant seen)) variants [];
    Ok {| enum_name := name; variants := variants |}.

Definition variant_ordinal (self : EnumType) (variant : string) : option nat :=
  fst <$> list_find (λ candidate, candidate = variant) (variants self).

Record FieldTypeOf (T : Type) := mkFieldType { field_name : string; field_ty : T }.
Arguments mkFieldType {_} _ _.
Arguments field_name {_} _.
Arguments field_ty {_} _.

Record RecordTypeOf (T : Type) := mkRecordType { record_name : string; record_fields : list (FieldTypeOf T) }.
Arguments mkRecordType {_} _ _.
Arguments record_name {_} _.
Arguments record_fields {_} _.

Inductive Ty :=
  | TBool
  | TInteger (range : IntRange)
  | TEnumeration (schema : EnumType)
  | TRecord (schema : RecordTypeOf Ty)
  | TFixedArray (element : Ty) (len : nat).

Notation FieldType := (FieldTypeOf Ty).
Notation RecordType := (RecordTypeOf Ty).

Definition FieldType_new (name : string) (ty : Ty) : outcome SchemaError FieldType :=
  _ ← ensure_name "record field" name; Ok {| field_name := name; field_ty := ty |}.

Definition RecordType_new (name : string) (fields : list FieldType) : outcome SchemaError RecordType :=
  _ ← ensure_name "record" name;
  _ ← foldM (λ seen field,
    if bool_decide (field_name field ∈ seen) then Err (RepeatedField name (field_name field))
    else Ok (btree_insert (field_name field) seen)) fields [];
  Ok {| record_name := name; record_fields := fields |}.

Definition field_index (self : RecordType) (name : string) : option nat :=
  fst <$> list_find (λ field, field_name field = name) (record_fields self).

Inductive Value :=
  | VBool (b : bool)
  | VInteger (i : Z)
  | VEnumeration (type_name : string) (ordinal : nat)
  | VRecord (type_name : string) (fields : list Value)
  | VFixedArray (values : list Value).

(** [iter().zip(..).all(..)]: stops at the end of the shorter list *)
Fixpoint zip_all {A B} (f : A → B → bool) (l : list A) (k : list B) : bool :=
  match l, k with x :: l, y :: k => f x y && zip_all f l k | _, _ => true end.

Fixpoint accepts (self : Ty) (value : Value) : bool :=
  match self, value with
  | TBool, VBool _ => true
  | TInteger range, VInteger value => range_contains range value
  | TEnumeration schema, VEnumeration type_name ordinal =>
      bool_decide (type_name = enum_name schema) && (ordinal <? length (variants schema))%nat
  | TRecord schema, VRecord type_name fields =>
      bool_decide (type_name = record_name schema) && (length fields =? length (record_fields schema))%nat &&
      zip_all (λ field value, accepts (field_ty field) value) (record_fields schema) fields
  | TFixedArray element len, VFixedArray values => (length values =? len)%nat && forallb (accepts element) values
  | _, _ => false
  end.

(** ** Decidable equality of types and values *)

Fixpoint all2 {A B} (f : A → B → bool) (l : list A) (k : list B) : bool :=
  match l, k with [], [] => true | x :: l, y :: k => f x y && all2 f l k | _, _ => false end.

#[export] Instance IntRange_eq_dec : EqDecision IntRange.
Proof. solve_decision. Defined.
#[export] Instance EnumType_eq_dec : EqDecision EnumType.
Proof. solve_decision. Defined.
#[export] Instance SchemaError_eq_dec : EqDecision SchemaError.
Proof. solve_decision. Defined.

Fixpoint Ty_eqb (t u : Ty) : bool :=
  match t, u with
  | TBool, TBool => true
  | TInteger r, TInteger r' => bool_decide (r = r')
  | TEnumeration s, TEnumeration s' => bool_decide (s = s')
  | TRecord s, TRecord s' =>
      bool_decide (record_name s = record_name s') &&
      all2 (λ f f', bool_decide (field_name f = field_name f') && Ty_eqb (field_ty f) (field_ty f')) (record_fields s) (record_fields s')
  | TFixedArray e n, TFixedArray e' n' => Ty_eqb e e' && (n =? n')%nat
  | _, _ => false
  end.

Fixpoint Value_eqb (v w : Value) : bool :=
  match v, w with
  | VBool b, VBool b' => eqb b b'
  | VInteger i, VInteger i' => (i =? i')%Z
  | VEnumeration t o, VEnumeration t' o' => bool_decide (t = t') && (o =? o')%nat
  | VRecord t vs, VRecord t' vs' => bool_decide (t = t') && all2 Value_eqb vs vs'
  | VFixedArray vs, VFixedArray vs' => all2 Value_eqb vs vs'
  | _, _ => false
  end.

Lemma all2_eq {A} (f : A → A → bool) l : Forall (λ x, ∀ y, f x y = true ↔ x = y) l → ∀ k, all2 f l k = true ↔ l = k.
Proof.
  induction 1 as [|x l Hx _ IH]; intros [|y k]; cbn; [done..|]. rewrite andb_true_iff, Hx, IH. naive_solver.
Qed.

(** Induction that reaches the types of fields. *)
Lemma Ty_ind' (P : Ty → Prop) :
  P TBool → (∀ r, P (TInteger r)) → (∀ s, P (TEnumeration s)) →
  (∀ s, Forall (λ f, P (field_ty f)) (record_fields s) → P (TRecord s)) →
  (∀ e n, P e → P (TFixedArray e n)) → ∀ t, P t.
Proof.
  intros Hb Hi He Hr Ha. fix IH 1. intros [|r|s|[name fields]|e n]; [apply Hb|apply Hi|apply He| |by apply Ha].
  apply Hr. cbn. induction fields as [|f fields IHf]; constructor; [apply IH|exact IHf].
Qed.

Lemma Value_ind' (P : Value → Prop) :
  (∀ b, P (VBool b)) → (∀ i, P (VInteger i)) → (∀ t o, P (VEnumeration t o)) →
  (∀ t vs, Forall P vs → P (VRecord t vs)) → (∀ vs, Forall P vs → P (VFixedArray vs)) → ∀ v, P v.
Proof.
  intros Hb Hi He Hr Ha. fix IH 1.
  intros [b|i|t o|t vs|vs]; [apply Hb|apply Hi|apply He|apply Hr|apply Ha]; induction vs; constructor; auto.
Qed.

Lemma Ty_eqb_eq t : ∀ u, Ty_eqb t u = true ↔ t = u.
Proof.
  induction t as [|r|s|[name fields] IH|e n IH] using Ty_ind'; intros [|r'|s'|[name' fields']|e' n']; cbn; try done.
  - rewrite bool_decide_eq_true. naive_solver.
  - rewrite bool_decide_eq_true. naive_solver.
  - rewrite andb_true_iff, bool_decide_eq_true. cbn in IH. rewrite all2_eq; [naive_solver|].
    eapply Forall_impl; [exact IH|]. intros [f t] Hf [f' t']. cbn in *. rewrite andb_true_iff, bool_decide_eq_true, Hf. naive_solver.
  - rewrite andb_true_iff, IH, Nat.eqb_eq. naive_solver.
Qed.

Lemma Value_eqb_eq v : ∀ w, Value_eqb v w = true ↔ v = w.
Proof.
  induction v as [b|i|t o|t vs IH|vs IH] using Value_ind'; intros [b'|i'|t' o'|t' vs'|vs']; cbn; try done.
  - rewrite eqb_true_iff. naive_solver.
  - rewrite Z.eqb_eq. naive_solver.
  - rewrite andb_true_iff, bool_decide_eq_true, Nat.eqb_eq. naive_solver.
  - rewrite andb_true_iff, bool_decide_eq_true, all2_eq by done. naive_solver.
  - rewrite all2_eq by done. naive_solver.
Qed.

Definition dec_of_eqb {A} (f : A → A → bool) (Hf : ∀ x y, f x y = true ↔ x = y) (x y : A) : Decision (x = y) :=
  match f x y as b return (b = true ↔ x = y) → Decision (x = y) with
  | true => λ H, left (proj1 H eq_refl)
  | false => λ H, right (λ Hxy, diff_false_true (proj2 H Hxy))
  end (Hf x y).

#[export] Instance Ty_eq_dec : EqDecision Ty := dec_of_eqb Ty_eqb Ty_eqb_eq.
#[export] Instance Value_eq_dec : EqDecision Value := dec_of_eqb Value_eqb Value_eqb_eq.

(** ** Origins and diagnostics *)

Inductive ComputationKind := KState | KObservation | KLegalAction | KTransition | KScoring | KProperty.

Record SourceRef := mkSourceRef { document : string; line : Z; clause : string }.

Record Origin := mkOrigin { rule_id : string; origin_source : SourceRef; computation : ComputationKind }.

Inductive UnsupportedFeature :=
  | OpaqueHostCall | Effect | DynamicAllocation | UnboundedIteration | HiddenRandomness | UnsupportedArithmetic.

Definition description (self : UnsupportedFeature) : string :=
  match self with
  | OpaqueHostCall => "opaque host call"
  | Effect => "effectful operation"
  | DynamicAllocation => "dynamic allocation"
  | UnboundedIteration => "unbounded iteration"
  | HiddenRandomness => "hidden randomness"
  | UnsupportedArithmetic => "unsupported arithmetic"
  end.

Notation NodeId := nat (only parsing).

Inductive Message :=
  | ConstantOutsideType
  | InputNameEmpty
  | InputRedeclared (name : string)
  | NoVariant (enum variant : string)
  | OrdinalNeedsEnumeration
  | BoundNotI32 (operation : string) (value : nat)
  | RecordFieldCount (record : string) (expected received : nat)
  | RecordFieldType (field : string)
  | FieldNeedsRecord
  | NoField (record field : string)
  | ArrayElementType
  | IndexNeedsArray
  | IndexNeedsInteger
  | IndexOutsideArray (min max : Z) (len : nat)
  | SumNeedsInteger
  | SumLowerOverflow
  | SumUpperOverflow
  | Unsupported (feature : UnsupportedFeature)
  | RootAbsent (node : nat)
  | NodeAbsent (node : nat)
  | ChildAbsent (node child : nat)
  | InputUndeclared (name : string)
  | RefersToAbsent (operation : string) (node : nat)
  | OperandType (operation : string)
  | OperandsDiffer (operation : string)
  | NotOrdered (operation : string)
  | InputMissing (name : string)
  | InputOutsideType (name : string)
  | InputExtra (name : string)
  | MissingWeavyBlock
  | WrongStackSize (len : nat)
  | LostValue
  | OutputOutsideType
  | StackUnderflow
  | NeedsOperands (needed available : nat)
  | ExpectedBoolean
  | OrdinalNotI32
  | ExpectedOrdered
  | InputDisappeared (name : string)
  | OrdinalOfNonEnum
  | OrdinalOutsideSchema
  | FieldOfNonRecord
  | FieldAbsent (index : nat)
  | ArrayIllTyped
  | IndexNotInteger
  | IndexNegative
  | IndexOfNonArray
  | IndexOutOfBounds (index : nat)
  | SumOfNonInteger
  | SumOverflow
  | SumEscapedRange.

Record Diagnostic := mkDiagnostic { message : Message; diagnostic_origin : Origin; diagnostic_instruction : option nat }.

Definition at_origin (m : Message) (origin : Origin) : Diagnostic :=
  {| message := m; diagnostic_origin := origin; diagnostic_instruction := None |}.

Definition at_instruction (m : Message) (origin : Origin) (instruction : nat) : Diagnostic :=
  {| message := m; diagnostic_origin := origin; diagnostic_instruction := Some instruction |}.

Definition unknown_origin : Origin :=
  {| rule_id := "INTERNAL"; computation := KProperty;
     origin_source := {| document := "<formal-graph>"; line := 0; clause := "unavailable origin" |} |}.

(** [i32::try_from] of a [usize] *)
Definition i32_of_usize (value : nat) : option Z := if (Z.of_nat value <=? i32_max)%Z then Some (Z.of_nat value) else None.

Definition usize_to_i32 (value : nat) (origin : Origin) (operation : string) : outcome Diagnostic Z :=
  ok_or (i32_of_usize value) (at_origin (BoundNotI32 operation value) origin).

(** ** The expression graph *)

Inductive NodeKind :=
  | NConstant (value : Value)
  | NInput (name : string)
  | NEnumeration (schema : EnumType) (ordinal : nat)
  | NEnumerationOrdinal (value : NodeId) (variant_count : nat)
  | NRecord (schema : RecordType) (fields : list NodeId)
  | NField (record : NodeId) (index : nat)
  | NArray (element_type : Ty) (elements : list NodeId)
  | NIndex (array index : NodeId)
  | NEqual (l r : NodeId)
  | NLess (l r : NodeId)
  | NLessEqual (l r : NodeId)
  | NNot (value : NodeId)
  | NAll (values : list NodeId)
  | NAny (values : list NodeId)
  | NSelect (condition when_true when_false : NodeId)
  | NSum (values : list NodeId) (range : IntRange).

Definition children (self : NodeKind) : list NodeId :=
  match self with
  | NConstant _ | NInput _ | NEnumeration _ _ => []
  | NEnumerationOrdinal value _ | NNot value | NField value _ => [value]
  | NRecord _ fields | NArray _ fields | NAll fields | NAny fields | NSum fields _ => fields
  | NIndex l r | NEqual l r | NLess l r | NLessEqual l r => [l; r]
  | NSelect condition when_true when_false => [condition; when_true; when_false]
  end.

Record Node := mkNode { kind : NodeKind; ty : Ty; origin : Origin }.

Record GraphBuilder := mkGraphBuilder { nodes : list Node; graph_inputs : list (string * Ty) }.

Definition GraphBuilder_new : GraphBuilder := {| nodes := []; graph_inputs := [] |}.

Notation Build A := (M GraphBuilder Diagnostic A).

(** A method on [&self] that may fail, called from one on [&mut self]. *)
Definition on_self {A} (f : GraphBuilder → outcome Diagnostic A) : Build A := λ g, (g, f g).

Definition push_node (kind : NodeKind) (ty : Ty) (origin : Origin) : Build NodeId := λ g,
  ({| nodes := nodes g ++ [{| kind := kind; ty := ty; origin := origin |}]; graph_inputs := graph_inputs g |},
   Ok (length (nodes g))).

Definition node_type (self : GraphBuilder) (node : NodeId) (origin : Origin) (operation : string) : outcome Diagnostic Ty :=
  ok_or (ty <$> nodes self !! node) (at_origin (RefersToAbsent operation node) origin).

Definition require_type (self : GraphBuilder) (node : NodeId) (expected : Ty) (origin : Origin) (operation : string)
    : outcome Diagnostic unit :=
  t ← node_type self node origin operation;
  if bool_decide (t = expected) then Ok tt else Err (at_origin (OperandType operation) origin).

Definition require_all (self : GraphBuilder) (nodes : list NodeId) (expected : Ty) (origin : Origin) (operation : string)
    : outcome Diagnostic unit :=
  foldM (λ _ node, require_type self node expected origin operation) nodes tt.

Definition require_same_type (self : GraphBuilder) (l r : NodeId) (origin : Origin) (operation : string)
    : outcome Diagnostic Ty :=
  left_type ← node_type self l origin operation;
  right_type ← node_type self r origin operation;
  if bool_decide (left_type = right_type) then Ok left_type else Err (at_origin (OperandsDiffer operation) origin).

Definition require_ordered (self : GraphBuilder) (l r : NodeId) (origin : Origin) (operation : string)
    : outcome Diagnostic unit :=
  t ← require_same_type self l r origin operation;
  match t with
  | TInteger _ | TEnumeration _ => Ok tt
  | _ => Err (at_origin (NotOrdered operation) origin)
  end.

(** ** Operations of the builder *)

Definition constant (ty : Ty) (value : Value) (origin : Origin) : Build NodeId :=
  if negb (accepts ty value) then throw (at_origin ConstantOutsideType origin)
  else push_node (NConstant value) ty origin.

Definition input (name : string) (ty : Ty) (origin : Origin) : Build NodeId :=
  if blank name then throw (at_origin InputNameEmpty origin)
  else
    existing ← read (λ g, map_get name (graph_inputs g));
    _ ← match existing with
        | Some existing =>
            if bool_decide (existing ≠ ty) then throw (at_origin (InputRedeclared name) origin) else mret tt
        | None => update (λ g, {| nodes := nodes g; graph_inputs := map_insert name ty (graph_inputs g) |})
        end;
    push_node (NInput name) ty origin.

Definition enumeration (schema : EnumType) (variant : string) (origin : Origin) : Build NodeId :=
  match variant_ordinal schema variant with
  | None => throw (at_origin (NoVariant (enum_name schema) variant) origin)
  | Some ordinal => push_node (NEnumeration schema ordinal) (TEnumeration schema) origin
  end.

Definition enumeration_ordinal (value : NodeId) (origin : Origin) : Build NodeId :=
  t ← on_self (λ g, node_type g value origin "enum ordinal");
  match t with
  | TEnumeration schema =>
      let variant_count := length (variants schema) in
      last ← lift (expect (match variant_count with O => None | S n => Some n end));
      max ← lift (usize_to_i32 last origin "enum ordinal");
      push_node (NEnumerationOrdinal value variant_count) (TInteger {| range_min := 0; range_max := max |}) origin
  | _ => throw (at_origin OrdinalNeedsEnumeration origin)
  end.

Definition record (schema : RecordType) (fields : list NodeId) (origin : Origin) : Build NodeId :=
  if negb (length fields =? length (record_fields schema))%nat then
    throw (at_origin (RecordFieldCount (record_name schema) (length (record_fields schema)) (length fields)) origin)
  else
    _ ← on_self (λ g, foldM (λ _ '(node, field),
          t ← node_type g node origin "record construction";
          if bool_decide (t ≠ field_ty field) then Err (at_origin (RecordFieldType (field_name field)) origin) else Ok tt)
        (zip fields (record_fields schema)) tt);
    push_node (NRecord schema fields) (TRecord schema) origin.

Definition field (record : NodeId) (field : string) (origin : Origin) : Build NodeId :=
  t ← on_self (λ g, node_type g record origin "record field");
  match t with
  | TRecord schema =>
      match field_index schema field with
      | None => throw (at_origin (NoField (record_name schema) field) origin)
      | Some index =>
          f ← lift (expect (record_fields schema !! index));
          push_node (NField record index) (field_ty f) origin
      end
  | _ => throw (at_origin FieldNeedsRecord origin)
  end.

Definition fixed_array (element_type : Ty) (elements : list NodeId) (origin : Origin) : Build NodeId :=
  _ ← on_self (λ g, foldM (λ _ element,
        t ← node_type g element origin "fixed array";
        if bool_decide (t ≠ element_type) then Err (at_origin ArrayElementType origin) else Ok tt) elements tt);
  push_node (NArray element_type elements) (TFixedArray element_type (length elements)) origin.

Definition index (array index : NodeId) (origin : Origin) : Build NodeId :=
  t ← on_self (λ g, node_type g array origin "index");
  match t with
  | TFixedArray element len =>
      t ← on_self (λ g, node_type g index origin "index");
      match t with
      | TInteger range =>
          len_i32 ← lift (usize_to_i32 len origin "index");
          if ((range_min range <? 0) || (len_i32 <=? range_max range))%Z then
            throw (at_origin (IndexOutsideArray (range_min range) (range_max range) len) origin)
          else push_node (NIndex array index) element origin
      | _ => throw (at_origin IndexNeedsInteger origin)
      end
  | _ => throw (at_origin IndexNeedsArray origin)
  end.

Definition equal (l r : NodeId) (origin : Origin) : Build NodeId :=
  _ ← on_self (λ g, require_same_type g l r origin "equality"); push_node (NEqual l r) TBool origin.

Definition less (l r : NodeId) (origin : Origin) : Build NodeId :=
  _ ← on_self (λ g, require_ordered g l r origin "less-than"); push_node (NLess l r) TBool origin.

Definition less_equal (l r : NodeId) (origin : Origin) : Build NodeId :=
  _ ← on_self (λ g, require_ordered g l r origin "less-than-or-equal"); push_node (NLessEqual l r) TBool origin.

Definition graph_not (value : NodeId) (origin : Origin) : Build NodeId :=
  _ ← on_self (λ g, require_type g value TBool origin "not"); push_node (NNot value) TBool origin.

Definition fixed_all (values : list NodeId) (origin : Origin) : Build NodeId :=
  _ ← on_self (λ g, require_all g values TBool origin "fixed all"); push_node (NAll values) TBool origin.

Definition fixed_any (values : list NodeId) (origin : Origin) : Build NodeId :=
  _ ← on_self (λ g, require_all g values TBool origin "fixed any"); push_node (NAny values) TBool origin.

Definition select (condition when_true when_false : NodeId) (origin : Origin) : Build NodeId :=
  _ ← on_self (λ g, require_type g condition TBool origin "conditional");
  t ← on_self (λ g, require_same_type g when_true when_false origin "conditional");
  push_node (NSelect condition when_true when_false) t origin.

(** The bounds of a sum, operand by operand. *)
Definition sum_bounds (self : GraphBuilder) (values : list NodeId) (origin : Origin) : outcome Diagnostic (Z * Z) :=
  foldM (λ '(min, max) value,
    t ← node_type self value origin "fixed sum";
    match t with
    | TInteger range =>
        min ← ok_or (i32_checked_add min (range_min range)) (at_origin SumLowerOverflow origin);
        max ← ok_or (i32_checked_add max (range_max range)) (at_origin SumUpperOverflow origin);
        Ok (min, max)
    | _ => Err (at_origin SumNeedsInteger origin)
    end) values (0, 0)%Z.

Definition fixed_sum (values : list NodeId) (origin : Origin) : Build NodeId :=
  '(min, max) ← on_self (λ g, sum_bounds g values origin);
  let range := {| range_min := min; range_max := max |} in
  push_node (NSum values range) (TInteger range) origin.

Definition reject_unsupported (feature : UnsupportedFeature) (origin : Origin) : outcome Diagnostic unit :=
  Err (at_origin (Unsupported feature) origin).

(** ** Lowering *)

Inductive Op :=
  | OPush (value : Value)
  | OLoadInput (name : string)
  | OEnumeration (type_name : string) (ordinal : nat)
  | OEnumerationOrdinal (variant_count : nat)
  | ORecord (type_name : string) (field_count : nat)
  | OField (index : nat)
  | OArray (element_type : Ty) (len : nat)
  | OIndex
  | OEqual
  | OLess
  | OLessEqual
  | ONot
  | OAll (count : nat)
  | OAny (count : nat)
  | OSelect
  | OSum (len : nat) (range : IntRange).

Record LocatedOp := mkLocatedOp { op : Op; op_origin : Origin }.

Definition from_node (node : Node) : Op :=
  match kind node with
  | NConstant value => OPush value
  | NInput name => OLoadInput name
  | NEnumeration schema ordinal => OEnumeration (enum_name schema) ordinal
  | NEnumerationOrdinal _ variant_count => OEnumerationOrdinal variant_count
  | NRecord schema fields => ORecord (record_name schema) (length fields)
  | NField _ index => OField index
  | NArray element_type elements => OArray element_type (length elements)
  | NIndex _ _ => OIndex
  | NEqual _ _ => OEqual
  | NLess _ _ => OLess
  | NLessEqual _ _ => OLessEqual
  | NNot _ => ONot
  | NAll values => OAll (length values)
  | NAny values => OAny (length values)
  | NSelect _ _ _ => OSelect
  | NSum values range => OSum (length values) range
  end.

Definition located (node : Node) : LocatedOp := {| op := from_node node; op_origin := origin node |}.

(** [entry(name).or_insert_with(..)] for an input node *)
Definition note_input (node : Node) (origins : list (string * Origin)) : list (string * Origin) :=
  match kind node with
  | NInput name => match map_get name origins with Some _ => origins | None => map_insert name (origin node) origins end
  | _ => origins
  end.

(** The [while let] of [lower], with the vectors [work] (its end first) and [ops], and
    the map of input origins.  [None]: still running when the fuel is spent. *)
Fixpoint lower_loop (self : GraphBuilder) (root_origin : Origin) (fuel : nat) (work : list (NodeId * bool))
    (ops : list LocatedOp) (origins : list (string * Origin))
    : option (outcome Diagnostic (list LocatedOp * list (string * Origin))) :=
  match work with
  | [] => Some (Ok (ops, origins))
  | (node_id, emit) :: work =>
      match fuel with
      | O => None
      | S fuel =>
          match nodes self !! node_id with
          | None => Some (Err (at_origin (NodeAbsent node_id) root_origin))
          | Some node =>
              if emit then lower_loop self root_origin fuel work (ops ++ [located node]) (note_input node origins)
              else
                match foldM (λ work child,
                  _ ← ok_or (nodes self !! child) (at_origin (ChildAbsent node_id child) (origin node));
                  Ok ((child, false) :: work)) (reverse (children (kind node))) ((node_id, true) :: work) with
                | Ok work => lower_loop self root_origin fuel work ops origins
                | Err e => Some (Err e)
                | Panic => Some Panic
                end
          end
      end
  end.

Record FormalProgram := mkFormalProgram
  { program : list LocatedOp; inputs : list (string * Ty); input_origins : list (string * Origin); output_type : Ty }.

Definition lower (fuel : nat) (self : GraphBuilder) (root : NodeId) : option (outcome Diagnostic FormalProgram) :=
  match nodes self !! root with
  | None => Some (Err (at_origin (RootAbsent root) unknown_origin))
  | Some root_node =>
      match lower_loop self (origin root_node) fuel [(root, false)] [] [] with
      | None => None
      | Some r => Some (
          '(ops, input_origins) ← r;
          inputs ← foldM (λ inputs name,
            ty ← ok_or (map_get name (graph_inputs self)) (at_origin (InputUndeclared name) (origin root_node));
            Ok (map_insert name ty inputs)) (input_origins.*1) [];
          Ok {| program := ops; inputs := inputs; input_origins := input_origins; output_type := ty root_node |})
      end
  end.

(** ** Evaluation *)

(** The vector [stack] is kept with its end first. *)
Record Evaluator := mkEvaluator { stack : list Value; instruction : nat }.

Notation Eval A := (M Evaluator Diagnostic A).

Definition fail {A} (m : Message) (origin : Origin) : Eval A := λ s, (s, Err (at_instruction m origin (instruction s))).

Definition some_or_fail {A} (o : option A) (m : Message) (origin : Origin) : Eval A :=
  match o with Some a => mret a | None => fail m origin end.

Definition push_value (v : Value) : Eval unit := update (λ s, {| stack := v :: stack s; instruction := instruction s |}).

Definition pop (origin : Origin) : Eval Value := λ s,
  match stack s with
  | v :: rest => ({| stack := rest; instruction := instruction s |}, Ok v)
  | [] => fail StackUnderflow origin s
  end.

Definition pop_n (count : nat) (origin : Origin) : Eval (list Value) := λ s,
  if (length (stack s) <? count)%nat then fail (NeedsOperands count (length (stack s))) origin s
  else ({| stack := drop count (stack s); instruction := instruction s |}, Ok (reverse (take count (stack s)))).

Definition boolean (value : Value) (origin : Origin) : Eval bool :=
  match value with VBool b => mret b | _ => fail ExpectedBoolean origin end.

Definition ordinal (value : Value) (origin : Origin) : Eval Z :=
  match value with
  | VInteger i => mret i
  | VEnumeration _ o => some_or_fail (i32_of_usize o) OrdinalNotI32 origin
  | _ => fail ExpectedOrdered origin
  end.

Fixpoint booleans (values : list Value) (origin : Origin) : Eval (list bool) :=
  match values with
  | [] => mret []
  | value :: values => b ← boolean value origin; bs ← booleans values origin; mret (b :: bs)
  end.

Fixpoint sum_values (values : list Value) (total : Z) (origin : Origin) : Eval Z :=
  match values with
  | [] => mret total
  | VInteger value :: values =>
      total ← some_or_fail (i32_checked_add total value) SumOverflow origin;
      sum_values values total origin
  | _ :: _ => fail SumOfNonInteger origin
  end.

Definition execute_op (values : list (string * Value)) (l : LocatedOp) : Eval unit :=
  let origin := op_origin l in
  match op l with
  | OPush value => push_value value
  | OLoadInput name =>
      value ← some_or_fail (map_get name values) (InputDisappeared name) origin;
      push_value value
  | OEnumeration type_name ordinal => push_value (VEnumeration type_name ordinal)
  | OEnumerationOrdinal variant_count =>
      value ← pop origin;
      match value with
      | VEnumeration _ ordinal =>
          if (variant_count <=? ordinal)%nat then fail OrdinalOutsideSchema origin
          else
            ordinal ← some_or_fail (i32_of_usize ordinal) OrdinalNotI32 origin;
            push_value (VInteger ordinal)
      | _ => fail OrdinalOfNonEnum origin
      end
  | ORecord type_name field_count =>
      fields ← pop_n field_count origin;
      push_value (VRecord type_name fields)
  | OField index =>
      value ← pop origin;
      match value with
      | VRecord _ fields =>
          field ← some_or_fail (fields !! index) (FieldAbsent index) origin;
          push_value field
      | _ => fail FieldOfNonRecord origin
      end
  | OArray element_type len =>
      values ← pop_n len origin;
      if existsb (λ value, negb (accepts element_type value)) values then fail ArrayIllTyped origin
      else push_value (VFixedArray values)
  | OIndex =>
      index ← pop origin;
      array ← pop origin;
      match index with
      | VInteger index =>
          if (index <? 0)%Z then fail IndexNegative origin
          else
            match array with
            | VFixedArray values =>
                value ← some_or_fail (values !! Z.to_nat index) (IndexOutOfBounds (Z.to_nat index)) origin;
                push_value value
            | _ => fail IndexOfNonArray origin
            end
      | _ => fail IndexNotInteger origin
      end
  | OEqual =>
      r ← pop origin;
      l ← pop origin;
      push_value (VBool (bool_decide (l = r)))
  | OLess | OLessEqual =>
      r ← pop origin;
      l' ← pop origin;
      l' ← ordinal l' origin;
      r ← ordinal r origin;
      push_value (VBool (match op l with OLess => (l' <? r)%Z | _ => (l' <=? r)%Z end))
  | ONot =>
      value ← pop origin;
      value ← boolean value origin;
      push_value (VBool (negb value))
  | OAll count | OAny count =>
      values ← pop_n count origin;
      bs ← booleans values origin;
      push_value (VBool (match op l with OAll _ => forallb id bs | _ => existsb id bs end))
  | OSelect =>
      when_false ← pop origin;
      when_true ← pop origin;
      condition ← pop origin;
      condition ← boolean condition origin;
      push_value (if (condition : bool) then when_true else when_false)
  | OSum len range =>
      values ← pop_n len origin;
      total ← sum_values values 0 origin;
      if negb (range_contains range total) then fail SumEscapedRange origin
      else push_value (VInteger total)
  end.

(** [Step::step], which always continues *)
Definition step_op (values : list (string * Value)) (l : LocatedOp) : Eval unit :=
  _ ← execute_op values l;
  update (λ s, {| stack := stack s; instruction := S (instruction s) |}).

Inductive RunError := RunStep (error : Diagnostic) | MissingBlock.

(** What is relied on of Weavy: a program without blocks whose steps all continue is
    run step by step, until the first step that fails. *)
Class Weavy : Type := {
  weavy_run : (LocatedOp → Eval unit) → list LocatedOp → Evaluator → Evaluator * outcome RunError unit;
  weavy_run_nil f s : weavy_run f [] s = (s, Ok tt);
  weavy_run_cons f l ops s : weavy_run f (l :: ops) s =
    match f l s with
    | (s', Ok _) => weavy_run f ops s'
    | (s', Err e) => (s', Err (RunStep e))
    | (s', Panic) => (s', Panic)
    end;
}.

Section Evaluate.
Context `{Weavy}.

(** The check of the declared inputs, in the order of their names. *)
Definition check_inputs (self : FormalProgram) (fallback_origin : Origin) (values : list (string * Value))
    : outcome Diagnostic unit :=
  foldM (λ _ '(name, ty),
    let input_origin := default fallback_origin (map_get name (input_origins self)) in
    value ← ok_or (map_get name values) (at_origin (InputMissing name) input_origin);
    if negb (accepts ty value) then Err (at_origin (InputOutsideType name) input_origin) else Ok tt) (inputs self) tt.

Definition evaluate (self : FormalProgram) (values : list (string * Value)) : outcome Diagnostic Value :=
  let fallback_origin := match last (program self) with Some l => op_origin l | None => unknown_origin end in
  _ ← check_inputs self fallback_origin values;
  match List.find (λ name, bool_decide (map_get name (inputs self) = None)) values.*1 with
  | Some extra => Err (at_origin (InputExtra extra) fallback_origin)
  | None =>
      let '(evaluator, result) := weavy_run (step_op values) (program self) {| stack := []; instruction := 0 |} in
      match result with
      | Err (RunStep error) => Err error
      | Err MissingBlock => Err (at_origin MissingWeavyBlock fallback_origin)
      | Panic => Panic
      | Ok _ =>
          if negb (length (stack evaluator) =? 1)%nat
          then Err (at_origin (WrongStackSize (length (stack evaluator))) fallback_origin)
          else
            value ← ok_or (head (stack evaluator)) (at_origin LostValue fallback_origin);
            if negb (accepts (output_type self) value) then Err (at_origin OutputOutsideType fallback_origin) else Ok value
      end
  end.

End Evaluate.

(** Running step by step, an instance of the class. *)
Fixpoint sequential_run (f : LocatedOp → Eval unit) (ops : list LocatedOp) (s : Evaluator) : Evaluator * outcome RunError unit :=
  match ops with
  | [] => (s, Ok tt)
  | l :: ops =>
      match f l s with
      | (s', Ok _) => sequential_run f ops s'
      | (s', Err e) => (s', Err (RunStep e))
      | (s', Panic) => (s', Panic)
      end
  end.

Definition sequential_weavy : Weavy := {|
  weavy_run := sequential_run; weavy_run_nil f s := eq_refl; weavy_run_cons f l ops s := eq_refl |}.

End Formal.
