(* ===== verification/FormalTyping.v ===== *)
(** * The dialect's types

    A declarative typing of expression graphs, the meaning of a graph, and the proof
    that the builder of Formal.v only makes graphs that are well typed. *)

From stdpp Require Import base strings numbers option list.
From S2P Require Import Prelude Methods Protocol Bytes Formal.
Import Formal.

(** ** Schemas the constructors make *)

Definition range_ok (r : IntRange) : bool := in_i32 (range_min r) && in_i32 (range_max r) && (range_min r <=? range_max r)%Z.

(** An enumeration has variants, and no more than the ordinals of an [i32]. *)
Definition enum_ok (s : EnumType) : bool := negb (bool_decide (variants s = [])) && (Z.of_nat (length (variants s)) <=? i32_max + 1)%Z.

Fixpoint ty_ok (t : Ty) : bool :=
  match t with
  | TBool => true
  | TInteger r => range_ok r
  | TEnumeration s => enum_ok s
  | TRecord s => forallb (λ f, ty_ok (field_ty f)) (record_fields s)
  | TFixedArray e _ => ty_ok e
  end.

Lemma IntRange_new_ok min max r : in_i32 min = true → in_i32 max = true → IntRange_new min max = Ok r → ty_ok (TInteger r) = true.
Proof.
  intros Hmin Hmax. unfold IntRange_new. destruct (max <? min)%Z eqn:Hlt; [done|]. intros [= <-]. cbn. unfold range_ok. cbn.
  rewrite Hmin, Hmax. cbn. lia.
Qed.

Lemma EnumType_new_ok name vs s : EnumType_new name vs = Ok s →
  s = {| enum_name := name; variants := vs |} ∧ blank name = false ∧ vs ≠ [] ∧ NoDup vs ∧ Forall (λ v, blank v = false) vs.
Proof.
  unfold EnumType_new, ensure_name. destruct (blank name) eqn:Hn; [done|]. cbn [mbind outcome_bind].
  case_bool_decide as Hvs; [done|]. intros (seen & Hf & [= <-])%bind_Ok. split_and!; [done..| |].
  - cut (∀ acc seen, foldM (λ seen variant, _ ← (if blank variant then Err (EmptyName "enum variant") else Ok ());
      if bool_decide (variant ∈ seen) then Err (RepeatedVariant name variant) else Ok (btree_insert variant seen)) vs acc = Ok seen →
      NoDup vs ∧ (∀ v, v ∈ vs → v ∉ acc)); [intros Hc; by apply (Hc [] seen)|].
    clear Hf seen Hvs. induction vs as [|v vs IH]; intros acc seen; cbn [foldM].
    { intros _. split; [constructor|]. by intros v ?%elem_of_nil. }
    destruct (blank v); [done|]. cbn [mbind outcome_bind]. case_bool_decide as Hv; [done|]. cbn [mbind outcome_bind].
    intros [Hnd Hout]%IH. split.
    + constructor; [|done]. intros Hin. apply (Hout v Hin). apply elem_of_btree_insert. by left.
    + intros w [->|Hw]%elem_of_cons; [done|]. intros Hin. apply (Hout w Hw). apply elem_of_btree_insert. by right.
  - revert Hf. generalize (@nil string) as acc. clear Hvs. induction vs as [|v vs IH]; intros acc; [constructor|]. cbn [foldM].
    destruct (blank v) eqn:Hb; [done|]. cbn [mbind outcome_bind]. case_bool_decide; [done|]. cbn [mbind outcome_bind].
    intros Hf. constructor; [done|]. by eapply IH.
Qed.

(** ** Typing *)

Definition ordered (t : Ty) : bool := match t with TInteger _ | TEnumeration _ => true | _ => false end.

(** The range of a sum, when no prefix of it leaves [i32]. *)
Fixpoint sum_ranges (lo hi : Z) (rs : list IntRange) : option IntRange :=
  match rs with
  | [] => Some {| range_min := lo; range_max := hi |}
  | r :: rs =>
      if in_i32 (lo + range_min r) && in_i32 (hi + range_max r)
      then sum_ranges (lo + range_min r) (hi + range_max r) rs else None
  end.

(** [typed types inputs kind t]: a node of this kind has type [t] where the nodes below
    it have the types [types] and inputs are declared by [inputs]. *)
Inductive typed (types : nat → option Ty) (inputs : string → option Ty) : NodeKind → Ty → Prop :=
  | typed_constant t v : accepts t v = true → typed types inputs (NConstant v) t
  | typed_input name t : inputs name = Some t → typed types inputs (NInput name) t
  | typed_enumeration s o : (o < length (variants s)) → typed types inputs (NEnumeration s o) (TEnumeration s)
  | typed_ordinal v s max : types v = Some (TEnumeration s) → i32_of_usize (length (variants s) - 1) = Some max →
      typed types inputs (NEnumerationOrdinal v (length (variants s))) (TInteger {| range_min := 0; range_max := max |})
  | typed_record s fs : Forall2 (λ c f, types c = Some (field_ty f)) fs (record_fields s) →
      typed types inputs (NRecord s fs) (TRecord s)
  | typed_field r s i f : types r = Some (TRecord s) → record_fields s !! i = Some f → typed types inputs (NField r i) (field_ty f)
  | typed_array e cs : Forall (λ c, types c = Some e) cs → typed types inputs (NArray e cs) (TFixedArray e (length cs))
  | typed_index a i e len r : types a = Some (TFixedArray e len) → types i = Some (TInteger r) →
      (0 ≤ range_min r)%Z → (range_max r < Z.of_nat len)%Z → typed types inputs (NIndex a i) e
  | typed_equal l r t : types l = Some t → types r = Some t → typed types inputs (NEqual l r) TBool
  | typed_less l r t : types l = Some t → types r = Some t → ordered t = true → typed types inputs (NLess l r) TBool
  | typed_less_equal l r t : types l = Some t → types r = Some t → ordered t = true → typed types inputs (NLessEqual l r) TBool
  | typed_not v : types v = Some TBool → typed types inputs (NNot v) TBool
  | typed_all vs : Forall (λ c, types c = Some TBool) vs → typed types inputs (NAll vs) TBool
  | typed_any vs : Forall (λ c, types c = Some TBool) vs → typed types inputs (NAny vs) TBool
  | typed_select c a b t : types c = Some TBool → types a = Some t → types b = Some t → typed types inputs (NSelect c a b) t
  | typed_sum vs rs range : Forall2 (λ c r, types c = Some (TInteger r)) vs rs → sum_ranges 0 0 rs = Some range →
      typed types inputs (NSum vs range) (TInteger range).

Lemma typed_mono types inputs types' inputs' k t :
  (∀ c u, types c = Some u → types' c = Some u) → (∀ n u, inputs n = Some u → inputs' n = Some u) →
  typed types inputs k t → typed types' inputs' k t.
Proof.
  intros Ht Hi. assert (∀ cs t, Forall (λ c, types c = Some t) cs → Forall (λ c, types' c = Some t) cs) as Hall.
  { intros cs u Hcs. eapply Forall_impl; [exact Hcs|]. intros c Hc. by apply Ht. }
  assert (∀ A (g : A → Ty) cs l, Forall2 (λ c x, types c = Some (g x)) cs l → Forall2 (λ c x, types' c = Some (g x)) cs l) as Hall2.
  { intros A g cs l Hcs. eapply Forall2_impl; [exact Hcs|]. intros c x Hc. by apply Ht. }
  intros []; try solve [econstructor; eauto].
Qed.

Lemma Forall_is_Some {A B} (f : A → option B) l t : Forall (λ c, f c = Some t) l → Forall (λ c, is_Some (f c)) l.
Proof. intros H. eapply Forall_impl; [exact H|]. intros c ->. eauto. Qed.

Lemma Forall2_is_Some {A B C} (f : A → option B) (g : C → B) l k : Forall2 (λ c x, f c = Some (g x)) l k → Forall (λ c, is_Some (f c)) l.
Proof. induction 1; constructor; eauto. Qed.

Lemma typed_children types inputs k t : typed types inputs k t → Forall (λ c, is_Some (types c)) (children k).
Proof. intros []; cbn [children]; eauto using Forall_is_Some, (Forall2_is_Some types), Forall2_is_Some; repeat constructor; eauto. Qed.

Definition type_of (g : GraphBuilder) (id : nat) : option Ty := ty <$> nodes g !! id.
Definition declared (g : GraphBuilder) (name : string) : option Ty := map_get name (graph_inputs g).

(** A well-typed graph: nodes refer to earlier nodes, and have the types of their kinds. *)
Record graph_ok (g : GraphBuilder) : Prop := {
  ok_typed id node : nodes g !! id = Some node → typed (type_of g) (declared g) (kind node) (ty node);
  ok_below id node : nodes g !! id = Some node → Forall (λ c, c < id) (children (kind node));
  ok_types id node : nodes g !! id = Some node → ty_ok (ty node) = true;
  ok_declared name t : declared g name = Some t → ty_ok t = true;
}.

(** ** Calls of the builder *)

Inductive Call :=
  | CConstant (t : Ty) (v : Value)
  | CInput (name : string) (t : Ty)
  | CEnumeration (s : EnumType) (variant : string)
  | CEnumerationOrdinal (v : nat)
  | CRecord (s : RecordType) (fs : list nat)
  | CField (r : nat) (name : string)
  | CFixedArray (e : Ty) (cs : list nat)
  | CIndex (a i : nat)
  | CEqual (l r : nat)
  | CLess (l r : nat)
  | CLessEqual (l r : nat)
  | CNot (v : nat)
  | CFixedAll (vs : list nat)
  | CFixedAny (vs : list nat)
  | CSelect (c a b : nat)
  | CFixedSum (vs : list nat).

Definition perform (c : Call) (o : Origin) : M GraphBuilder Diagnostic nat :=
  match c with
  | CConstant t v => constant t v o
  | CInput name t => input name t o
  | CEnumeration s variant => enumeration s variant o
  | CEnumerationOrdinal v => enumeration_ordinal v o
  | CRecord s fs => record s fs o
  | CField r name => field r name o
  | CFixedArray e cs => fixed_array e cs o
  | CIndex a i => index a i o
  | CEqual l r => equal l r o
  | CLess l r => less l r o
  | CLessEqual l r => less_equal l r o
  | CNot v => graph_not v o
  | CFixedAll vs => fixed_all vs o
  | CFixedAny vs => fixed_any vs o
  | CSelect c a b => select c a b o
  | CFixedSum vs => fixed_sum vs o
  end.

(** The types a call brings are ones the constructors make. *)
Definition call_ok (c : Call) : bool :=
  match c with
  | CConstant t _ | CInput _ t | CFixedArray t _ => ty_ok t
  | CEnumeration s _ => ty_ok (TEnumeration s)
  | CRecord s _ => ty_ok (TRecord s)
  | _ => true
  end.

Definition calls_ok (calls : list (Call * Origin)) : bool := forallb (λ c, call_ok c.1) calls.

(** The graph after a sequence of calls, some of which may have been refused. *)
Definition build (calls : list (Call * Origin)) : GraphBuilder := foldl (λ g '(c, o), (perform c o g).1) GraphBuilder_new calls.

(** ** Every call keeps the graph well typed *)

Lemma node_type_spec g n o op : node_type g n o op =
  match type_of g n with Some t => Ok t | None => Err (at_origin (RefersToAbsent op n) o) end.
Proof. done. Qed.

Lemma require_same_type_Ok g l r o op t : require_same_type g l r o op = Ok t ↔ type_of g l = Some t ∧ type_of g r = Some t.
Proof.
  unfold require_same_type. rewrite !node_type_spec. destruct (type_of g l) as [tl|], (type_of g r) as [tr|]; cbn; try naive_solver.
  case_bool_decide; naive_solver.
Qed.

Lemma require_ordered_Ok g l r o op u : require_ordered g l r o op = Ok u ↔
  ∃ t, type_of g l = Some t ∧ type_of g r = Some t ∧ ordered t = true.
Proof.
  unfold require_ordered. rewrite bind_Ok. setoid_rewrite require_same_type_Ok. destruct u. split.
  - intros (t & [Hl Hr] & Ht). exists t. destruct t; naive_solver.
  - intros (t & Hl & Hr & Ht). exists t. destruct t; naive_solver.
Qed.

Lemma require_type_Ok g n t o op u : require_type g n t o op = Ok u ↔ type_of g n = Some t.
Proof.
  unfold require_type. rewrite node_type_spec. destruct u, (type_of g n) as [tn|]; cbn; [|naive_solver]. case_bool_decide; naive_solver.
Qed.

(** A loop that checks each element. *)
Lemma foldM_check {E A} (f : A → outcome E unit) (l : list A) u : foldM (λ _ x, f x) l tt = Ok u ↔ Forall (λ x, f x = Ok tt) l.
Proof.
  destruct u. induction l as [|x l IH]; cbn; [split; [constructor|done]|]. rewrite bind_Ok, Forall_cons, <-IH. split.
  - intros ([] & Hx & Hl). done.
  - intros [Hx Hl]. by exists tt.
Qed.

Lemma foldM_no_panic {E A B} (f : A → B → outcome E A) l a : (∀ a x, f a x ≠ Panic) → foldM f l a ≠ Panic.
Proof.
  intros Hf. revert a. induction l as [|x l IH]; intros a; cbn; [done|]. destruct (f a x) eqn:Hx; cbn; [apply IH|done|by apply Hf in Hx].
Qed.

Lemma sum_bounds_spec g values o lo hi :
  sum_bounds g values o = Ok (lo, hi) →
  ∃ rs, Forall2 (λ c r, type_of g c = Some (TInteger r)) values rs ∧ sum_ranges 0 0 rs = Some {| range_min := lo; range_max := hi |}.
Proof.
  unfold sum_bounds. generalize 0%Z at 1 3 as a. generalize 0%Z as b. induction values as [|v values IH]; intros b a; cbn [foldM].
  { intros [= <- <-]. by exists []. }
  intros ([lo' hi'] & Hv & Hf)%bind_Ok. rewrite node_type_spec in Hv. destruct (type_of g v) as [[|r| | |]|] eqn:Ht; cbn in Hv; try done.
  unfold i32_checked_add in Hv. destruct (in_i32 (a + range_min r)) eqn:H1; [|done]. cbn in Hv.
  destruct (in_i32 (b + range_max r)) eqn:H2; [|done]. injection Hv as <- <-. apply IH in Hf as (rs & Hrs & Hsum).
  exists (r :: rs). split; [by constructor|]. cbn. by rewrite H1, H2.
Qed.

Lemma sum_ranges_ok lo hi rs r : in_i32 lo = true → in_i32 hi = true → (lo ≤ hi)%Z → Forall (λ r, range_ok r = true) rs →
  sum_ranges lo hi rs = Some r → range_ok r = true.
Proof.
  revert lo hi. induction rs as [|x rs IH]; intros lo hi Hlo Hhi Hle Hrs; cbn.
  { intros [= <-]. unfold range_ok. cbn. rewrite Hlo, Hhi. cbn. lia. }
  apply Forall_cons in Hrs as [Hx Hrs]. unfold range_ok in Hx. destruct (in_i32 (lo + range_min x)) eqn:H1; [|done].
  destruct (in_i32 (hi + range_max x)) eqn:H2; [|done]. cbn. apply IH; [done..| |done]. lia.
Qed.

(** What a call does: it adds a well-typed node, or leaves the graph alone. *)
Definition extends (g g' : GraphBuilder) (r : outcome Diagnostic nat) : Prop :=
  match r with
  | Ok id => id = length (nodes g) ∧ ∃ node, nodes g' = nodes g ++ [node] ∧
      (∀ name t, declared g name = Some t → declared g' name = Some t) ∧
      (∀ name t, declared g' name = Some t → declared g name = Some t ∨ ty_ok t = true) ∧
      typed (type_of g) (declared g') (kind node) (ty node) ∧ ty_ok (ty node) = true
  | Err _ => g' = g
  | Panic => False
  end.

Lemma extends_push g k t o : typed (type_of g) (declared g) k t → ty_ok t = true → extends g (push_node k t o g).1 (push_node k t o g).2.
Proof. intros Hk Ht. split; [done|]. eexists. split; [done|]. split_and!; cbn; eauto. Qed.

Lemma extends_throw g e : extends g (throw (A := nat) e g).1 (throw (A := nat) e g).2.
Proof. done. Qed.

(** A check on the graph before the rest of the call. *)
Lemma extends_bind {A} g (f : GraphBuilder → outcome Diagnostic A) (k : A → M GraphBuilder Diagnostic nat) :
  f g ≠ Panic → (∀ a, f g = Ok a → extends g (k a g).1 (k a g).2) → extends g ((on_self f ≫= k) g).1 ((on_self f ≫= k) g).2.
Proof. intros Hp Hk. unfold on_self, mbind, M_bind. destruct (f g) as [a|e|]; [by apply Hk|done|by destruct Hp]. Qed.

Lemma extends_lift {A} g (m : outcome Diagnostic A) (k : A → M GraphBuilder Diagnostic nat) :
  m ≠ Panic → (∀ a, m = Ok a → extends g (k a g).1 (k a g).2) → extends g ((lift m ≫= k) g).1 ((lift m ≫= k) g).2.
Proof. intros Hp Hk. unfold lift, mbind, M_bind. destruct m as [a|e|]; [by apply Hk|done|by destruct Hp]. Qed.

Lemma usize_to_i32_no_panic v o op : usize_to_i32 v o op ≠ Panic.
Proof. unfold usize_to_i32. by destruct (i32_of_usize v). Qed.

Lemma usize_to_i32_Ok v o op z : usize_to_i32 v o op = Ok z ↔ i32_of_usize v = Some z.
Proof. apply ok_or_Ok. Qed.

Lemma i32_of_usize_Some v z : i32_of_usize v = Some z ↔ z = Z.of_nat v ∧ (Z.of_nat v ≤ i32_max)%Z.
Proof. unfold i32_of_usize. destruct (Z.of_nat v <=? i32_max)%Z eqn:Hv; split; intros H; naive_solver lia. Qed.

Lemma node_type_no_panic g n o op : node_type g n o op ≠ Panic.
Proof. rewrite node_type_spec. by destruct (type_of g n). Qed.

Lemma require_same_type_no_panic g l r o op : require_same_type g l r o op ≠ Panic.
Proof.
  unfold require_same_type. rewrite !node_type_spec. destruct (type_of g l), (type_of g r); cbn; try done. by case_bool_decide.
Qed.

Lemma require_ordered_no_panic g l r o op : require_ordered g l r o op ≠ Panic.
Proof.
  unfold require_ordered. pose proof (require_same_type_no_panic g l r o op). destruct (require_same_type g l r o op) as [t| |]; [|done..].
  by destruct t.
Qed.

Lemma require_type_no_panic g n t o op : require_type g n t o op ≠ Panic.
Proof. unfold require_type. rewrite node_type_spec. destruct (type_of g n); cbn; [|done]. by case_bool_decide. Qed.

Lemma require_all_no_panic g ns t o op : require_all g ns t o op ≠ Panic.
Proof. apply foldM_no_panic. intros _ n. apply require_type_no_panic. Qed.

Lemma require_all_Ok g ns t o op u : require_all g ns t o op = Ok u ↔ Forall (λ n, type_of g n = Some t) ns.
Proof.
  unfold require_all. rewrite foldM_check. split; intros H; (eapply Forall_impl; [exact H|]); intros n; cbn; by rewrite require_type_Ok.
Qed.

Lemma type_of_ok g n t : graph_ok g → type_of g n = Some t → ty_ok t = true.
Proof. intros Hg (node & Hn & ->)%fmap_Some. by eapply ok_types. Qed.

(** A check of one operand against a type. *)
Lemma check_Ok g n t o op (e : Diagnostic) u :
  (t' ← node_type g n o op; if bool_decide (t' ≠ t) then Err e else Ok ()) = Ok u → type_of g n = Some t.
Proof. rewrite node_type_spec. destruct (type_of g n) as [t'|]; cbn; [|done]. case_bool_decide as Ht; [done|]. intros _. by rewrite Ht. Qed.

Lemma check_no_panic g n t o op (e : Diagnostic) : (t' ← node_type g n o op; if bool_decide (t' ≠ t) then Err e else Ok ()) ≠ Panic.
Proof. rewrite node_type_spec. destruct (type_of g n) as [t'|]; cbn; [|done]. by case_bool_decide. Qed.

Section Calls.
Context (g : GraphBuilder) (Hg : graph_ok g) (o : Origin).

Lemma input_extends name t : ty_ok t = true → extends g (input name t o g).1 (input name t o g).2.
Proof using Type.
  intros Ht. unfold input. destruct (blank name); [done|]. unfold read, mbind, M_bind. destruct (map_get name (graph_inputs g)) as [u|] eqn:Hn.
  - case_bool_decide as Hu; [done|]. cbn. split; [done|]. eexists. split; [done|]. split_and!; [by eauto|by eauto| |done].
    apply typed_input. change (map_get name (graph_inputs g) = Some t). by rewrite Hn, Hu.
  - match goal with |- extends _ ?h _ =>
      assert (∀ n, declared h n = if decide (n = name) then Some t else declared g n) as Hd by (intros n; apply map_get_insert) end.
    split; [done|]. exists {| kind := NInput name; ty := t; origin := o |}. split; [done|].
    split_and!; [| |by apply typed_input; rewrite Hd, decide_True|done]; intros n u; rewrite Hd; case_decide as Hn'; [|done| |by left].
    + unfold declared. by rewrite Hn', Hn.
    + intros [= <-]. by right.
Qed.

Lemma enumeration_extends s variant : ty_ok (TEnumeration s) = true → extends g (enumeration s variant o g).1 (enumeration s variant o g).2.
Proof using Type.
  intros Hs. unfold enumeration, variant_ordinal. destruct (list_find _ _) as [[i v]|] eqn:Hf; [|done]. cbn.
  apply list_find_Some in Hf as (Hi & _ & _). apply extends_push; [|done]. apply typed_enumeration. by eapply lookup_lt_Some.
Qed.

Lemma ordinal_extends v : extends g (enumeration_ordinal v o g).1 (enumeration_ordinal v o g).2.
Proof using Hg.
  apply extends_bind; [apply node_type_no_panic|]. intros t. rewrite node_type_spec. destruct (type_of g v) as [u|] eqn:Hv; [|done].
  intros [= <-]. destruct u as [| |s| |]; try done. apply type_of_ok in Hv as Hs; [|done]. cbn in Hs. unfold enum_ok in Hs.
  destruct (length (variants s)) as [|n] eqn:Hl.
  { apply andb_true_iff in Hs as [Hs _]. apply nil_length_inv in Hl. by rewrite Hl in Hs. }
  apply andb_true_iff in Hs as [_ Hs%Z.leb_le].
  apply extends_lift; [done|]. intros last [= <-].
  apply extends_lift; [apply usize_to_i32_no_panic|]. intros max Hmax%usize_to_i32_Ok. rewrite <-Hl. apply extends_push.
  - eapply typed_ordinal; [done|]. rewrite Hl. by replace (S n - 1) with n by lia.
  - apply i32_of_usize_Some in Hmax as [-> Hn]. cbn. unfold range_ok, in_i32, i32_min, i32_max in *. cbn. lia.
Qed.

Lemma record_extends s fs : ty_ok (TRecord s) = true → extends g (record s fs o g).1 (record s fs o g).2.
Proof using Hg.
  intros Hs. unfold record. destruct (length fs =? _) eqn:Hl; [|done]. apply Nat.eqb_eq in Hl. cbn [negb]. apply extends_bind.
  { apply foldM_no_panic. intros _ [n f]. apply check_no_panic. }
  intros [] Hf. apply extends_push; [|done]. apply typed_record. apply (Forall2_same_length_lookup_2 _ _ _ Hl).
  intros i n f Hn Hfi. change (foldM (λ _ x, (λ '(node, field), t ← node_type g node o "record construction";
    if bool_decide (t ≠ field_ty field) then Err (at_origin (RecordFieldType (field_name field)) o) else Ok ()) x)
    (zip fs (record_fields s)) () = Ok ()) in Hf. rewrite foldM_check in Hf.
  pose proof (proj1 (Forall_lookup _ _) Hf i (n, f)) as Hi. cbn in Hi. eapply check_Ok, Hi.
  apply lookup_zip_with_Some. eauto.
Qed.

Lemma field_extends r name : extends g (field r name o g).1 (field r name o g).2.
Proof using Hg.
  apply extends_bind; [apply node_type_no_panic|]. intros t. rewrite node_type_spec. destruct (type_of g r) as [u|] eqn:Hr; [|done].
  intros [= <-]. destruct u as [| | |s|]; try done. unfold field_index. destruct (list_find _ _) as [[i f]|] eqn:Hf; [|done]. cbn.
  apply list_find_Some in Hf as (Hi & _ & _). rewrite Hi. cbn. apply extends_push; [by eapply typed_field|].
  apply type_of_ok in Hr; [|done]. cbn in Hr. rewrite forallb_forall in Hr. apply Hr, list_elem_of_In. by eapply list_elem_of_lookup_2.
Qed.

Lemma fixed_array_extends e cs : ty_ok e = true → extends g (fixed_array e cs o g).1 (fixed_array e cs o g).2.
Proof using Type.
  intros He. apply extends_bind; [apply foldM_no_panic; intros _ n; apply check_no_panic|]. intros [] Hf.
  apply extends_push; [|done]. apply typed_array. rewrite foldM_check in Hf. eapply Forall_impl; [exact Hf|]. intros n. apply check_Ok.
Qed.

Lemma index_extends a i : extends g (index a i o g).1 (index a i o g).2.
Proof using Hg.
  apply extends_bind; [apply node_type_no_panic|]. intros t. rewrite node_type_spec. destruct (type_of g a) as [u|] eqn:Ha; [|done].
  intros [= <-]. destruct u as [| | | |e len]; try done.
  apply extends_bind; [apply node_type_no_panic|]. intros t. rewrite node_type_spec. destruct (type_of g i) as [u|] eqn:Hi; [|done].
  intros [= <-]. destruct u as [|r| | |]; try done. apply extends_lift; [apply usize_to_i32_no_panic|].
  intros len' [-> Hlen]%usize_to_i32_Ok%i32_of_usize_Some.
  destruct ((range_min r <? 0)%Z || (Z.of_nat len <=? range_max r)%Z) eqn:Hr; [done|]. apply orb_false_iff in Hr as [H1 H2].
  apply extends_push; [eapply typed_index; [done..|lia|lia]|]. apply type_of_ok in Ha; done.
Qed.

Lemma fixed_sum_extends vs : extends g (fixed_sum vs o g).1 (fixed_sum vs o g).2.
Proof using Hg.
  apply extends_bind.
  { apply foldM_no_panic. intros [a b] v. rewrite node_type_spec. destruct (type_of g v) as [[|r| | |]|]; try done. cbn.
    destruct (i32_checked_add a _); [|done]. cbn. by destruct (i32_checked_add b _). }
  intros [lo hi] (rs & Hrs & Hsum)%sum_bounds_spec. apply extends_push; [by eapply typed_sum|].
  eapply (sum_ranges_ok 0 0 rs); [done..| |done]. clear Hsum.
  induction Hrs as [|c r vs' rs' Hc]; constructor; [exact (type_of_ok _ _ _ Hg Hc)|done].
Qed.

Lemma perform_extends c : call_ok c = true → extends g (perform c o g).1 (perform c o g).2.
Proof using Hg.
  destruct c as [t v|name t|s variant|v|s fs|r name|e cs|a i|l r|l r|l r|v|vs|vs|c a b|vs]; intros Hc; cbn in Hc; cbn [perform].
  - unfold constant. destruct (accepts t v) eqn:Ha; [|done]. apply extends_push; [by apply typed_constant|done].
  - by apply input_extends.
  - by apply enumeration_extends.
  - apply ordinal_extends.
  - by apply record_extends.
  - apply field_extends.
  - by apply fixed_array_extends.
  - apply index_extends.
  - apply extends_bind; [apply require_same_type_no_panic|]. intros t [Hl Hr]%require_same_type_Ok.
    apply extends_push; [by eapply typed_equal|done].
  - apply extends_bind; [apply require_ordered_no_panic|]. intros u (t & Hl & Hr & Ht)%require_ordered_Ok.
    apply extends_push; [by eapply typed_less|done].
  - apply extends_bind; [apply require_ordered_no_panic|]. intros u (t & Hl & Hr & Ht)%require_ordered_Ok.
    apply extends_push; [by eapply typed_less_equal|done].
  - apply extends_bind; [apply require_type_no_panic|]. intros u Ht%require_type_Ok. apply extends_push; [by apply typed_not|done].
  - apply extends_bind; [apply require_all_no_panic|]. intros u Ht%require_all_Ok. apply extends_push; [by apply typed_all|done].
  - apply extends_bind; [apply require_all_no_panic|]. intros u Ht%require_all_Ok. apply extends_push; [by apply typed_any|done].
  - apply extends_bind; [apply require_type_no_panic|]. intros u Hc'%require_type_Ok.
    apply extends_bind; [apply require_same_type_no_panic|]. intros t [Ha Hb]%require_same_type_Ok.
    apply extends_push; [by apply typed_select|]. apply type_of_ok in Ha; done.
  - apply fixed_sum_extends.
Qed.
End Calls.

Lemma type_of_app g g' node : nodes g' = nodes g ++ [node] → ∀ c u, type_of g c = Some u → type_of g' c = Some u.
Proof. intros Hn c u Hc. unfold type_of in *. rewrite Hn. apply fmap_Some in Hc as (n & Hc & ->). by rewrite (lookup_app_l_Some _ _ _ _ Hc). Qed.

Lemma graph_ok_extends g g' r : graph_ok g → extends g g' r → graph_ok g'.
Proof.
  intros Hg Hx. destruct r as [id|e|]; [|by rewrite Hx|done]. destruct Hx as (_ & node & Hn & Hd & Hd' & Ht & Hty).
  assert (∀ id n, nodes g' !! id = Some n → nodes g !! id = Some n ∨ id = length (nodes g) ∧ n = node) as Hcase.
  { intros i n. rewrite Hn, lookup_app_Some. intros [?|[Hi Hl]]; [by left|]. right. apply list_lookup_singleton_Some in Hl as [H0 <-]. split; [lia|done]. }
  split.
  - intros i n [Hi|[-> ->]]%Hcase; (eapply typed_mono; [by eapply type_of_app| |]); [exact Hd|by apply (ok_typed _ Hg i)|exact (λ _ _ H, H)|exact Ht].
  - intros i n [Hi|[-> ->]]%Hcase; [by apply (ok_below _ Hg)|]. eapply Forall_impl; [exact (typed_children _ _ _ _ Ht)|].
    intros c [t (m & Hm & _)%fmap_Some]. by eapply lookup_lt_Some.
  - intros i n [Hi|[-> ->]]%Hcase; [by apply (ok_types _ Hg i)|done].
  - intros n t [Ho|?]%Hd'; [|done]. by apply (ok_declared _ Hg n).
Qed.

Lemma build_app calls c o : build (calls ++ [(c, o)]) = (perform c o (build calls)).1.
Proof. unfold build. by rewrite foldl_app. Qed.

Lemma build_ok calls : calls_ok calls = true → graph_ok (build calls).
Proof.
  unfold calls_ok. induction calls as [|[c o] calls IH] using rev_ind; intros Hc.
  { split; [intros [] ? Hi; discriminate Hi..|intros ? ? Hi; discriminate Hi]. }
  rewrite forallb_app in Hc. apply andb_true_iff in Hc as [Hcs Hc]. rewrite build_app. eapply graph_ok_extends; [by apply IH|].
  apply perform_extends; [by apply IH|]. cbn in Hc. by rewrite andb_true_r in Hc.
Qed.
