(* ===== verification/FormalEvaluation.v ===== *)
(** * Lowering and evaluation

    The order in which a graph is computed, and the proof that the work list of
    [lower] ends and emits the nodes in this order; then what the emitted code computes. *)

From Stdlib Require Import ZifyBool.
From stdpp Require Import base strings numbers option list.
From S2P Require Import Prelude Methods Protocol Bytes Formal FormalTyping.

Import Formal.

(** ** The order of evaluation *)

(** A node comes after the orders of its children, which are repeated where a node is shared. *)
Fixpoint order_upto (fuel : nat) (g : GraphBuilder) (id : nat) : list Node :=
  match fuel with
  | O => []
  | S fuel =>
      match nodes g !! id with
      | None => []
      | Some node => concat (order_upto fuel g <$> children (kind node)) ++ [node]
      end
  end.

Definition order (g : GraphBuilder) (id : nat) : list Node := order_upto (S id) g id.

(** ** What a graph means *)

Definition as_bool (v : Value) : option bool := match v with VBool b => Some b | _ => None end.
Definition as_rank (v : Value) : option Z := match v with VInteger i => Some i | VEnumeration _ o => Some (Z.of_nat o) | _ => None end.
Definition as_integer (v : Value) : option Z := match v with VInteger i => Some i | _ => None end.

Definition sum_list (l : list Z) : Z := foldr Z.add 0%Z l.

(** The value of a node from the values of its children: no stack, no range checks. *)
Definition meaning (values : list (string * Value)) (k : NodeKind) (vs : list Value) : option Value :=
  match k, vs with
  | NConstant v, [] => Some v
  | NInput name, [] => map_get name values
  | NEnumeration s o, [] => Some (VEnumeration (enum_name s) o)
  | NEnumerationOrdinal _ _, [VEnumeration _ o] => Some (VInteger (Z.of_nat o))
  | NRecord s _, fs => Some (VRecord (record_name s) fs)
  | NField _ i, [VRecord _ fs] => fs !! i
  | NArray _ _, vs => Some (VFixedArray vs)
  | NIndex _ _, [VFixedArray vs; VInteger i] => vs !! Z.to_nat i
  | NEqual _ _, [a; b] => Some (VBool (bool_decide (a = b)))
  | NLess _ _, [a; b] => a ← as_rank a; b ← as_rank b; Some (VBool (a <? b)%Z)
  | NLessEqual _ _, [a; b] => a ← as_rank a; b ← as_rank b; Some (VBool (a <=? b)%Z)
  | NNot _, [a] => a ← as_bool a; Some (VBool (negb a))
  | NAll _, vs => bs ← mapM as_bool vs; Some (VBool (forallb id bs))
  | NAny _, vs => bs ← mapM as_bool vs; Some (VBool (existsb id bs))
  | NSelect _ _ _, [c; a; b] => c ← as_bool c; Some (if (c : bool) then a else b)
  | NSum _ _, vs => zs ← mapM as_integer vs; Some (VInteger (sum_list zs))
  | _, _ => None
  end.

Fixpoint denote_upto (fuel : nat) (g : GraphBuilder) (values : list (string * Value)) (id : nat) : option Value :=
  match fuel with
  | O => None
  | S fuel => node ← nodes g !! id; vs ← mapM (denote_upto fuel g values) (children (kind node)); meaning values (kind node) vs
  end.

Definition denote (g : GraphBuilder) (values : list (string * Value)) (id : nat) : option Value := denote_upto (S id) g values id.

Lemma mapM_ext_in {A B} (f f' : A → option B) l : (∀ x, x ∈ l → f x = f' x) → mapM f l = mapM f' l.
Proof.
  induction l as [|x l IH]; intros H; [done|]. cbn. rewrite (H x) by left. rewrite IH; [done|]. intros y Hy. apply H. by right.
Qed.

Lemma elem_of_concat {A} (x : A) ls : x ∈ concat ls ↔ ∃ l, x ∈ l ∧ l ∈ ls.
Proof. rewrite list_elem_of_In, in_concat. setoid_rewrite <-list_elem_of_In. naive_solver. Qed.

Section Graph.
Context (g : GraphBuilder) (Hg : graph_ok g).

Lemma type_of_Some id : is_Some (type_of g id) ↔ ∃ node, nodes g !! id = Some node.
Proof using Type. unfold type_of. destruct (nodes g !! id) as [n|]; split; [by eauto|by cbn; eauto|by intros [? ?]|by intros [? ?]]. Qed.

Lemma child_below id node c : nodes g !! id = Some node → c ∈ children (kind node) → c < id ∧ ∃ child, nodes g !! c = Some child.
Proof using Hg.
  intros Hn Hc. pose proof (ok_below _ Hg _ _ Hn) as Hb. rewrite Forall_forall in Hb. split; [by apply Hb|].
  pose proof (typed_children _ _ _ _ (ok_typed _ Hg _ _ Hn)) as Ht. rewrite Forall_forall in Ht. by apply type_of_Some, Ht.
Qed.

Lemma order_enough fuel id : id < fuel → order_upto fuel g id = order g id.
Proof using Hg.
  unfold order. revert fuel. induction (lt_wf id) as [id _ IH]. intros [|fuel] Hf; [lia|]. cbn [order_upto].
  destruct (nodes g !! id) as [node|] eqn:Hn; [|done]. do 2 f_equal. apply list_fmap_ext. intros i c Hi.
  apply list_elem_of_lookup_2 in Hi as Hc. pose proof (child_below _ _ _ Hn Hc) as [Hlt _].
  rewrite (IH c Hlt fuel), (IH c Hlt id) by lia. done.
Qed.

Lemma order_node id node : nodes g !! id = Some node → order g id = concat (order g <$> children (kind node)) ++ [node].
Proof using Hg.
  intros Hn. unfold order at 1. cbn [order_upto]. rewrite Hn. do 2 f_equal. apply list_fmap_ext. intros i c Hi.
  apply order_enough. apply list_elem_of_lookup_2 in Hi as Hc. by destruct (child_below _ _ _ Hn Hc).
Qed.

Lemma denote_enough values fuel id : id < fuel → denote_upto fuel g values id = denote g values id.
Proof using Hg.
  unfold denote. revert fuel. induction (lt_wf id) as [id _ IH]. intros [|fuel] Hf; [lia|]. cbn [denote_upto].
  destruct (nodes g !! id) as [node|] eqn:Hn; [|done]. cbn [mbind option_bind].
  assert (mapM (denote_upto fuel g values) (children (kind node)) = mapM (denote_upto id g values) (children (kind node))) as ->; [|done].
  apply mapM_ext_in. intros c Hc. pose proof (child_below _ _ _ Hn Hc) as [Hlt _]. rewrite (IH c Hlt fuel), (IH c Hlt id) by lia. done.
Qed.

Lemma denote_node values id node : nodes g !! id = Some node →
  denote g values id = (vs ← mapM (denote g values) (children (kind node)); meaning values (kind node) vs).
Proof using Hg.
  intros Hn. unfold denote at 1. cbn [denote_upto]. rewrite Hn. cbn [mbind option_bind].
  assert (mapM (denote_upto id g values) (children (kind node)) = mapM (denote g values) (children (kind node))) as ->; [|done].
  apply mapM_ext_in. intros c Hc. apply denote_enough. by destruct (child_below _ _ _ Hn Hc).
Qed.

(** Every node of an order is a node of the graph. *)
Lemma order_nodes id n : n ∈ order g id → ∃ i, nodes g !! i = Some n.
Proof using Hg.
  induction (lt_wf id) as [id _ IH]. destruct (nodes g !! id) as [node|] eqn:Hn.
  - rewrite (order_node _ _ Hn), elem_of_app, list_elem_of_singleton, elem_of_concat. intros [(l & Hl & Hin)| ->]; [|by eauto].
    apply list_elem_of_fmap in Hin as (c & -> & Hc). pose proof (child_below _ _ _ Hn Hc) as [Hlt _]. by apply (IH c).
  - unfold order. cbn. rewrite Hn. by intros ?%elem_of_nil.
Qed.

(** ** The work list *)

Definition note_all (ns : list Node) (origins : list (string * Origin)) : list (string * Origin) :=
  foldl (λ origins n, note_input n origins) origins ns.

Lemma note_all_app ns ms origins : note_all (ns ++ ms) origins = note_all ms (note_all ns origins).
Proof using Type. apply foldl_app. Qed.

Lemma push_children id o cs work : (∀ c, c ∈ cs → ∃ n, nodes g !! c = Some n) →
  foldM (λ work child, _ ← ok_or (nodes g !! child) (at_origin (ChildAbsent id child) o); Ok ((child, false) :: work)) (reverse cs) work
  = Ok (((λ c, (c, false)) <$> cs) ++ work).
Proof using Type.
  revert work. induction cs as [|c cs IH] using rev_ind; intros work Hcs; [done|].
  rewrite reverse_snoc, foldM_cons. destruct (Hcs c) as [n ->]; [apply elem_of_app; right; by apply list_elem_of_singleton|].
  cbn [ok_or mbind outcome_bind]. rewrite IH by (intros c' Hc'; apply Hcs, elem_of_app; by left).
  by rewrite fmap_app, <-app_assoc.
Qed.

(** Lowering a node takes two turns for each node of its order. *)
Lemma lower_loop_order ro id : (∃ n, nodes g !! id = Some n) → ∀ fuel work ops origins,
  lower_loop g ro (2 * length (order g id) + fuel) ((id, false) :: work) ops origins =
  lower_loop g ro fuel work (ops ++ (located <$> order g id)) (note_all (order g id) origins).
Proof using Hg.
  induction (lt_wf id) as [id _ IH]. intros [node Hn] fuel work ops origins. rewrite (order_node _ _ Hn).
  set (cs := children (kind node)). rewrite length_app. cbn [length].
  replace (2 * (length (concat (order g <$> cs)) + 1) + fuel) with (S (2 * length (concat (order g <$> cs)) + S fuel)) by lia.
  cbn [lower_loop]. rewrite Hn, push_children by (intros c Hc; by destruct (child_below _ _ _ Hn Hc)). cbn [mbind].
  assert (∀ c, c ∈ cs → c < id ∧ ∃ n, nodes g !! c = Some n) as Hcs by (intros c; by apply child_below).
  cut (∀ fuel ops origins, lower_loop g ro (2 * length (concat (order g <$> cs)) + fuel) (((λ c, (c, false)) <$> cs) ++ (id, true) :: work) ops origins
    = lower_loop g ro fuel ((id, true) :: work) (ops ++ (located <$> concat (order g <$> cs))) (note_all (concat (order g <$> cs)) origins)).
  { intros Hc. rewrite Hc. cbn [lower_loop]. rewrite Hn, fmap_app, app_assoc, note_all_app. done. }
  fold cs. clear Hn fuel ops origins. induction cs as [|c cs IHcs]; intros fuel ops origins; cbn [fmap list_fmap concat].
  { cbn [length Nat.mul Nat.add app]. by rewrite app_nil_r. }
  destruct (Hcs c) as [Hlt Hex]; [left|]. rewrite length_app. cbn [app].
  replace (2 * (length (order g c) + length (concat (order g <$> cs))) + fuel)
    with (2 * length (order g c) + (2 * length (concat (order g <$> cs)) + fuel)) by lia.
  rewrite (IH c Hlt Hex), IHcs by (intros c' Hc'; apply Hcs; by right).
  by rewrite fmap_app, app_assoc, note_all_app.
Qed.

(** The inputs a program declares: those of the input nodes of its order. *)
Definition used (ns : list Node) (name : string) : Prop := ∃ n, n ∈ ns ∧ kind n = NInput name.

Lemma note_all_keys ns origins name : name ∈ (note_all ns origins).*1 ↔ used ns name ∨ name ∈ origins.*1.
Proof using Type.
  revert origins. induction ns as [|n ns IH]; intros origins; cbn [note_all foldl].
  { split; [by right|]. intros [(n & ?%elem_of_nil & _)|?]; done. }
  fold (note_all ns (note_input n origins)). rewrite IH.
  assert (name ∈ (note_input n origins).*1 ↔ kind n = NInput name ∨ name ∈ origins.*1) as ->.
  { unfold note_input. destruct (kind n) as [|m| | | | | | | | | | | | | |] eqn:Hk; try (split; [by right|by intros [?|?]]).
    destruct (map_get m origins) eqn:Hm.
    - split; [by right|]. intros [[= <-]|?]; [|done]. apply map_get_elem_keys. by eauto.
    - rewrite !map_get_elem_keys, map_get_insert. case_decide as Hd; [subst; split; [by left|by eauto]|].
      split; [by right|]. intros [[= <-]|?]; done. }
  unfold used. split.
  - intros [(n' & Hn' & Hk)|[Hk|Hin]]; [left; exists n'; split; [by right|done]|left; exists n; split; [left|done]|by right].
  - intros [(n' & [-> |Hn']%elem_of_cons & Hk)|Hin]; [by right; left|by left; exists n'|by right; right].
Qed.

(** The declarations collected for a list of names. *)
Lemma collect_spec (decls : list (string * Ty)) (e : string → Diagnostic) names acc : (∀ name, name ∈ names → is_Some (map_get name decls)) →
  ∃ m, foldM (λ inputs name, ty ← ok_or (map_get name decls) (e name); Ok (map_insert name ty inputs)) names acc = Ok m ∧
  (∀ name, map_get name m = if bool_decide (name ∈ names) then map_get name decls else map_get name acc) ∧
  (ascending acc.*1 → ascending m.*1).
Proof using Type.
  revert acc. induction names as [|n names IH]; intros acc Hd; cbn [foldM].
  { exists acc. split_and!; [done| |done]. intros name. by rewrite bool_decide_false by (by intros ?%elem_of_nil). }
  destruct (Hd n) as [t Ht]; [left|]. rewrite Ht. cbn [ok_or mbind outcome_bind].
  destruct (IH (map_insert n t acc)) as (m & Hm & Hget & Hasc); [intros; apply Hd; by right|]. exists m. split; [done|]. split.
  - intros name. rewrite Hget, map_get_insert. repeat case_bool_decide; try case_decide; subst; try done; rewrite elem_of_cons in *; naive_solver.
  - intros Ha. by apply Hasc, map_insert_ascending.
Qed.

Definition lower_fuel (root : nat) : nat := 2 * length (order g root).

Lemma lower_node root node fuel : nodes g !! root = Some node → lower_fuel root ≤ fuel →
  ∃ p, lower fuel g root = Some (Ok p) ∧
    program p = located <$> order g root ∧ output_type p = ty node ∧
    (∀ name t, map_get name (inputs p) = Some t ↔ used (order g root) name ∧ declared g name = Some t) ∧
    (∀ name, is_Some (map_get name (inputs p)) ↔ used (order g root) name) ∧ ascending (inputs p).*1.
Proof using Hg.
  intros Hn Hfuel. unfold lower. rewrite Hn. replace fuel with (2 * length (order g root) + (fuel - lower_fuel root)) by (unfold lower_fuel in *; lia).
  rewrite lower_loop_order by eauto. cbn [app]. set (origins := note_all (order g root) []).
  assert (∀ k, lower_loop g (origin node) k [] (located <$> order g root) origins = Some (Ok (located <$> order g root, origins))) as ->
    by (by intros []). cbn [mbind outcome_bind].
  assert (∀ name, name ∈ origins.*1 ↔ used (order g root) name) as Hkeys.
  { intros name. unfold origins. rewrite note_all_keys. split; [intros [?|?%elem_of_nil]; done|by left]. }
  assert (∀ name, name ∈ origins.*1 → is_Some (map_get name (graph_inputs g))) as Hdecl.
  { intros name (n & Hin & Hk)%Hkeys. apply order_nodes in Hin as [i Hi]. pose proof (ok_typed _ Hg _ _ Hi) as Ht. rewrite Hk in Ht.
    inversion Ht as [|? ? Hd| | | | | | | | | | | | | |]. by eauto. }
  destruct (collect_spec (graph_inputs g) (λ name, at_origin (InputUndeclared name) (origin node)) origins.*1 [] Hdecl) as (m & -> & Hget & Hasc).
  eexists. split; [done|]. cbn [program output_type inputs]. split_and!; [done..| | |].
  - intros name t. rewrite Hget. case_bool_decide as Hin; rewrite Hkeys in Hin; naive_solver.
  - intros name. rewrite Hget. case_bool_decide as Hin; rewrite <-Hkeys; split; [done|auto|by intros [? ?]|done].
  - apply Hasc, ascending_nil.
Qed.
End Graph.

(** ** Evaluation
    The stack code of a well-typed graph computes the meaning of its root: no step fails
    on inputs of the declared types, and the result has the declared type. *)

(** ** Values of a type *)

Lemma accepts_bool v : accepts TBool v = true ↔ ∃ b, v = VBool b.
Proof. destruct v; cbn; split; naive_solver. Qed.

Lemma accepts_integer r v : accepts (TInteger r) v = true ↔ ∃ i, v = VInteger i ∧ range_contains r i = true.
Proof. destruct v; cbn; split; naive_solver. Qed.

Lemma accepts_enumeration s v : accepts (TEnumeration s) v = true ↔ ∃ o, v = VEnumeration (enum_name s) o ∧ o < length (variants s).
Proof.
  destruct v as [| |t o| |]; try (split; [done|by intros (? & ? & ?)]). cbn [accepts]. rewrite andb_true_iff, bool_decide_eq_true, Nat.ltb_lt. naive_solver.
Qed.

Lemma zip_all_Forall2 {A B} (f : A → B → bool) l k : length l = length k → zip_all f l k = true ↔ Forall2 (λ x y, f x y = true) l k.
Proof.
  revert k. induction l as [|x l IH]; intros [|y k] Hl; cbn; [done..|].
  injection Hl as Hl. rewrite andb_true_iff, (IH k Hl), Forall2_cons. done.
Qed.

Lemma accepts_record s v : accepts (TRecord s) v = true ↔
  ∃ fs, v = VRecord (record_name s) fs ∧ Forall2 (λ f x, accepts (field_ty f) x = true) (record_fields s) fs.
Proof.
  destruct v as [| | |t fs|]; try (split; [done|by intros (? & ? & ?)]). cbn [accepts]. rewrite !andb_true_iff, bool_decide_eq_true, Nat.eqb_eq. split.
  - intros [[-> Hl] Hz]. exists fs. split; [done|]. by apply zip_all_Forall2 in Hz.
  - intros (fs' & [= -> ->] & Hf). pose proof (Forall2_length _ _ _ Hf) as Hl. split; [done|]. by apply zip_all_Forall2.
Qed.

Lemma accepts_array e n v : accepts (TFixedArray e n) v = true ↔ ∃ vs, v = VFixedArray vs ∧ length vs = n ∧ Forall (λ x, accepts e x = true) vs.
Proof.
  destruct v as [| | | |vs]; try (split; [done|by intros (? & ? & ?)]). cbn [accepts]. rewrite andb_true_iff, Nat.eqb_eq.
  assert (forallb (accepts e) vs = true ↔ Forall (λ x, accepts e x = true) vs) as ->.
  { rewrite forallb_forall, Forall_forall. by setoid_rewrite list_elem_of_In. }
  split; [intros ?; by exists vs|]. by intros (? & [= ->] & ?).
Qed.

Lemma accepts_rank t v : ty_ok t = true → ordered t = true → accepts t v = true →
  ∃ z, as_rank v = Some z ∧ ∀ o (s : Evaluator), ordinal v o s = (s, Ok z).
Proof.
  intros Ht Ho Hv. destruct t as [|r|s| |]; try done.
  - apply accepts_integer in Hv as (i & -> & _). by exists i.
  - apply accepts_enumeration in Hv as (o & -> & Hlt). exists (Z.of_nat o). split; [done|]. intros og st. cbn.
    cbn in Ht. apply andb_true_iff in Ht as [_ Hle%Z.leb_le].
    assert (i32_of_usize o = Some (Z.of_nat o)) as -> by (apply i32_of_usize_Some; split; [done|lia]). done.
Qed.

Lemma accepts_bools vs : Forall (λ v, accepts TBool v = true) vs →
  ∃ bs, mapM as_bool vs = Some bs ∧ ∀ o (s : Evaluator), booleans vs o s = (s, Ok bs).
Proof.
  induction 1 as [|v vs Hv _ (bs & Hm & Hb)]; [by exists []|]. apply accepts_bool in Hv as [b ->].
  exists (b :: bs). split; [cbn; by rewrite Hm|]. intros o s. cbn. unfold mbind, M_bind. cbn. by rewrite Hb.
Qed.

Lemma sum_values_in rs : ∀ vs lo hi total range, Forall2 (λ v r, accepts (TInteger r) v = true) vs rs →
  sum_ranges lo hi rs = Some range → in_i32 total = true → (lo ≤ total ≤ hi)%Z →
  ∃ zs, mapM as_integer vs = Some zs ∧ range_contains range (total + sum_list zs) = true ∧
  ∀ o (s : Evaluator), sum_values vs total o s = (s, Ok (total + sum_list zs)%Z).
Proof.
  induction rs as [|r rs IH]; intros vs lo hi total range Hvs Hr Ht Hle.
  { apply Forall2_nil_inv_r in Hvs as ->. exists []. cbn in Hr. injection Hr as <-. unfold range_contains. cbn. rewrite Z.add_0_r.
    split_and!; [done|lia|done]. }
  apply Forall2_cons_inv_r in Hvs as (v & vs' & Hv & Hvs & ->). apply accepts_integer in Hv as (i & -> & Hi). unfold range_contains in Hi.
  cbn [sum_ranges] in Hr. destruct (in_i32 (lo + range_min r)) eqn:H1; [|done]. destruct (in_i32 (hi + range_max r)) eqn:H2; [|done]. cbn in Hr.
  assert (in_i32 (total + i) = true) as Hti by (unfold in_i32 in *; lia).
  destruct (IH vs' _ _ (total + i)%Z range Hvs Hr) as (zs & Hm & Hc & Hs); [done|lia|].
  exists (i :: zs). cbn [sum_list foldr]. fold (sum_list zs). rewrite Z.add_assoc. split_and!; [cbn; by rewrite Hm|done|].
  intros o s. cbn [sum_values]. unfold i32_checked_add. rewrite Hti. cbn. apply Hs.
Qed.

(** ** One step *)

Section Step.
Context (values : list (string * Value)) (o : Origin) (st : list Value) (n : nat).

Let ev (st : list Value) : Evaluator := {| stack := st; instruction := n |}.

Lemma pop_n_run vs count : count = length vs → pop_n count o (ev (reverse vs ++ st)) = (ev st, Ok vs).
Proof using Type.
  intros ->. unfold pop_n, ev. cbn [stack instruction]. rewrite length_app, length_reverse.
  rewrite (proj2 (Nat.ltb_ge _ _)) by lia.
  rewrite drop_app_length', take_app_length' by (by rewrite length_reverse). by rewrite reverse_involutive.
Qed.
End Step.

Section Graph.
Context (g : GraphBuilder) (Hg : graph_ok g) (values : list (string * Value)).

(** A value of the type of a node. *)
Definition fits (c : nat) (v : Value) : Prop := ∃ t, type_of g c = Some t ∧ accepts t v = true.

Lemma fits_type c v t : fits c v → type_of g c = Some t → accepts t v = true.
Proof using Type. intros (u & Hu & Ha) Ht. by replace t with u by congruence. Qed.

Lemma fits_all cs vs t : Forall2 fits cs vs → Forall (λ c, type_of g c = Some t) cs → Forall (λ v, accepts t v = true) vs.
Proof using Type.
  induction 1 as [|c v cs vs Hf _ IH]; [by constructor|]. intros [Ht Hts]%Forall_cons. constructor; [by eapply fits_type|by apply IH].
Qed.

Lemma fits_each {A} (f : A → Ty) cs vs l : Forall2 fits cs vs → Forall2 (λ c x, type_of g c = Some (f x)) cs l →
  Forall2 (λ x v, accepts (f x) v = true) l vs.
Proof using Type.
  intros Hf. revert l. induction Hf as [|c v cs vs Hf _ IH]; intros l Hl.
  - apply Forall2_nil_inv_l in Hl as ->. constructor.
  - apply Forall2_cons_inv_l in Hl as (x & l' & Hx & Hl & ->). constructor; [by eapply fits_type|by apply IH].
Qed.

Definition input_fits (node : Node) : Prop :=
  ∀ name, kind node = NInput name → ∃ v, map_get name values = Some v ∧ accepts (ty node) v = true.

Ltac children_are H :=
  repeat match type of H with
  | Forall2 fits (_ :: _) _ => let v := fresh "v" in let vs := fresh "vs" in let Hv := fresh "Hv" in
      apply Forall2_cons_inv_l in H as (v & vs & Hv & H & ->)
  | Forall2 fits [] _ => apply Forall2_nil_inv_l in H as ->
  end.

Lemma execute_node node vs st n : typed (type_of g) (declared g) (kind node) (ty node) → input_fits node →
  Forall2 fits (children (kind node)) vs →
  ∃ v, meaning values (kind node) vs = Some v ∧ accepts (ty node) v = true ∧
    execute_op values (located node) {| stack := reverse vs ++ st; instruction := n |} = ({| stack := v :: st; instruction := n |}, Ok ()).
Proof using Hg.
  destruct node as [k t o]. cbn [kind ty]. intros Ht Hin Hvs. unfold execute_op, located, from_node. cbn [op op_origin kind origin].
  destruct Ht; cbn [children] in Hvs; children_are Hvs.
  - by exists v.
  - destruct (Hin name eq_refl) as (v & Hv & Ha). exists v. cbn. split_and!; [done..|]. by rewrite Hv.
  - eexists. split; [done|]. split; [|done]. apply accepts_enumeration. eauto.
  - eapply fits_type in Hv; [|done]. apply accepts_enumeration in Hv as (i & -> & Hi). exists (VInteger (Z.of_nat i)).
    apply i32_of_usize_Some in H0 as [-> Hmax]. split; [done|]. split. { cbn [accepts]. unfold range_contains. cbn [range_min range_max]. lia. }
    unfold mbind, M_bind, pop. cbn [stack instruction reverse app rev_append].
    rewrite (proj2 (Nat.leb_gt _ _)) by lia.
    assert (i32_of_usize i = Some (Z.of_nat i)) as -> by (apply i32_of_usize_Some; split; [done|lia]). done.
  - eexists. split; [done|]. split; [apply accepts_record; exists vs; split; [done|by eapply fits_each]|].
    unfold mbind, M_bind. by rewrite pop_n_run by (by eapply Forall2_length).
  - eapply fits_type in Hv; [|done]. apply accepts_record in Hv as (fs & -> & Hfs).
    destruct (Forall2_lookup_l _ _ _ _ _ Hfs H0) as (x & Hx & Ha). exists x. split; [done|]. split; [done|]. cbn. unfold mbind, M_bind. cbn.
    by rewrite Hx.
  - pose proof (fits_all _ _ _ Hvs H) as Hall. pose proof (Forall2_length _ _ _ Hvs) as Hl.
    eexists. split; [done|]. split; [apply accepts_array; by exists vs|]. unfold mbind, M_bind. rewrite pop_n_run by done.
    replace (existsb _ vs) with false; [done|]. symmetry. apply existsb_false_iff. eapply Forall_impl; [exact Hall|]. by intros x ->.
  - eapply fits_type in Hv, Hv0; [|done..]. apply accepts_array in Hv as (l & -> & Hl & Hall). apply accepts_integer in Hv0 as (z & -> & Hz).
    unfold range_contains in Hz. destruct (lookup_lt_is_Some_2 l (Z.to_nat z)) as [x Hx]; [lia|]. exists x. split; [done|].
    split; [rewrite Forall_forall in Hall; apply Hall; by eapply list_elem_of_lookup_2|]. cbn. unfold mbind, M_bind. cbn.
    replace (z <? 0)%Z with false by lia. cbn. by rewrite Hx.
  - by eexists.
  - eapply fits_type in Hv, Hv0; [|done..]. assert (ty_ok t = true) as Hok by by eapply type_of_ok.
    destruct (accepts_rank t v) as (a & Ha & Hra), (accepts_rank t v0) as (b & Hb & Hrb); [done..|].
    eexists. cbn. rewrite Ha, Hb. split; [done|]. split; [done|]. unfold mbind, M_bind. cbn. by rewrite Hra, Hrb.
  - eapply fits_type in Hv, Hv0; [|done..]. assert (ty_ok t = true) as Hok by by eapply type_of_ok.
    destruct (accepts_rank t v) as (a & Ha & Hra), (accepts_rank t v0) as (b & Hb & Hrb); [done..|].
    eexists. cbn. rewrite Ha, Hb. split; [done|]. split; [done|]. unfold mbind, M_bind. cbn. by rewrite Hra, Hrb.
  - eapply fits_type in Hv; [|done]. apply accepts_bool in Hv as [b ->]. by exists (VBool (negb b)).
  - destruct (accepts_bools vs) as (bs & Hm & Hb); [by eapply fits_all|]. exists (VBool (forallb id bs)). cbn. rewrite Hm.
    split; [done|]. split; [done|]. unfold mbind, M_bind. rewrite pop_n_run by (by eapply Forall2_length). by rewrite Hb.
  - destruct (accepts_bools vs) as (bs & Hm & Hb); [by eapply fits_all|]. exists (VBool (existsb id bs)). cbn. rewrite Hm.
    split; [done|]. split; [done|]. unfold mbind, M_bind. rewrite pop_n_run by (by eapply Forall2_length). by rewrite Hb.
  - eapply fits_type in Hv, Hv0, Hv1; [|done..]. apply accepts_bool in Hv as [b' ->]. exists (if b' then v0 else v1).
    split; [done|]. split; [by destruct b'|done].
  - pose proof (fits_each TInteger _ _ _ Hvs H) as Hr. apply Forall2_flip in Hr.
    destruct (sum_values_in rs vs 0 0 0 range) as (zs & Hm & Hc & Hs); [done|done|done|lia|]. rewrite Z.add_0_l in Hc.
    exists (VInteger (sum_list zs)). cbn [meaning]. rewrite Hm. split; [done|]. split; [done|]. unfold mbind, M_bind.
    rewrite pop_n_run by (by eapply Forall2_length). rewrite Hs, Z.add_0_l, Hc. done.
Qed.
End Graph.

(** ** A whole program *)

Section Program.
Context `{Weavy} (g : GraphBuilder) (Hg : graph_ok g) (values : list (string * Value)).

(** The code of a node leaves its value on the stack. *)
Lemma run_order id node : nodes g !! id = Some node → (∀ n, n ∈ order g id → input_fits values n) →
  ∃ v, denote g values id = Some v ∧ accepts (ty node) v = true ∧ ∀ rest st n,
    weavy_run (step_op values) ((located <$> order g id) ++ rest) {| stack := st; instruction := n |} =
    weavy_run (step_op values) rest {| stack := v :: st; instruction := n + length (order g id) |}.
Proof using Hg.
  revert node. induction (lt_wf id) as [id _ IH]. intros node Hn Hin. set (cs := children (kind node)).
  pose proof (λ c, child_below g Hg id node c Hn) as Hcs. fold cs in Hcs.
  assert (∀ c n, c ∈ cs → n ∈ order g c → n ∈ order g id) as Hsub.
  { intros c n Hc Hnc. rewrite (order_node g Hg _ _ Hn), elem_of_app, elem_of_concat. left. exists (order g c). split; [done|].
    apply list_elem_of_fmap. by exists c. }
  assert (∃ vs, Forall2 (λ c v, denote g values c = Some v) cs vs ∧ Forall2 (fits g) cs vs ∧ ∀ rest st n,
    weavy_run (step_op values) ((located <$> concat (order g <$> cs)) ++ rest) {| stack := st; instruction := n |} =
    weavy_run (step_op values) rest {| stack := reverse vs ++ st; instruction := n + length (concat (order g <$> cs)) |})
    as (vs & Hvs & Hfit & Hrun).
  { clear Hn. induction cs as [|c cs IHcs]; [exists []; split_and!; [constructor..|]; intros; cbn; by rewrite Nat.add_0_r|].
    destruct (Hcs c) as [Hlt [child Hchild]]; [left|]. destruct (IH c Hlt child Hchild) as (v & Hv & Ha & Hr).
    { intros n Hnc. apply Hin. eapply Hsub; [left|done]. }
    destruct IHcs as (vs & Hvs & Hfit & Hrun); [intros c' Hc'; apply Hcs; by right|intros c' n Hc'; apply Hsub; by right|].
    exists (v :: vs). split_and!; [by constructor| |].
    - constructor; [|done]. exists (ty child). split; [unfold type_of; by rewrite Hchild|done].
    - intros rest st n. cbn [fmap list_fmap concat]. rewrite fmap_app, <-app_assoc, Hr, Hrun, reverse_cons, <-app_assoc, length_app, Nat.add_assoc. done. }
  assert (input_fits values node) as Hnode.
  { apply Hin. rewrite (order_node g Hg _ _ Hn), elem_of_app. right. by apply list_elem_of_singleton. }
  rewrite (denote_node g Hg _ _ _ Hn). fold cs. rewrite (mapM_Some_2 _ _ _ Hvs). cbn [mbind option_bind].
  pose proof (λ st n, execute_node g Hg values node vs st n (ok_typed _ Hg _ _ Hn) Hnode Hfit) as Hex.
  destruct (Hex [] 0) as (v & Hv & Ha & _). exists v. split_and!; [done..|]. intros rest st n.
  rewrite (order_node g Hg _ _ Hn), fmap_app, <-app_assoc. fold cs. rewrite Hrun. cbn [fmap list_fmap app]. rewrite weavy_run_cons.
  destruct (Hex st (n + length (concat (order g <$> cs)))) as (v' & Hv' & _ & Hstep). replace v' with v in Hstep by congruence.
  unfold step_op at 1. unfold mbind, M_bind. rewrite Hstep. cbn. f_equal. f_equal. rewrite length_app. cbn. lia.
Qed.

(** The inputs a program accepts: one of its type for each declaration, and no other. *)
Definition inputs_match (p : FormalProgram) : bool :=
  forallb (λ '(name, t), match map_get name values with Some v => accepts t v | None => false end) (inputs p) &&
  forallb (λ name, bool_decide (is_Some (map_get name (inputs p)))) values.*1.

Lemma check_inputs_exact p fallback : check_inputs p fallback values = Ok () ∨ (∃ e, check_inputs p fallback values = Err e) ∧
  forallb (λ '(name, t), match map_get name values with Some v => accepts t v | None => false end) (inputs p) = false.
Proof using Type.
  unfold check_inputs. induction (inputs p) as [|[name t] l IH]; [by left|]. cbn [foldM forallb].
  destruct (map_get name values) as [v|]; [|right; split; [by eexists|done]]. cbn [ok_or mbind outcome_bind].
  destruct (accepts t v); [|right; split; [by eexists|done]]. cbn [negb andb mbind outcome_bind]. exact IH.
Qed.

Lemma check_inputs_Ok p fallback : check_inputs p fallback values = Ok () ↔
  forallb (λ '(name, t), match map_get name values with Some v => accepts t v | None => false end) (inputs p) = true.
Proof using Type.
  unfold check_inputs. induction (inputs p) as [|[name t] l IH]; [done|]. cbn [foldM forallb].
  destruct (map_get name values) as [v|]; [|done]. cbn [ok_or mbind outcome_bind]. by destruct (accepts t v).
Qed.

Lemma find_extra_None p : List.find (λ name, bool_decide (map_get name (inputs p) = None)) values.*1 = None ↔
  forallb (λ name, bool_decide (is_Some (map_get name (inputs p)))) values.*1 = true.
Proof using Type.
  induction values.*1 as [|name l IH]; [done|]. cbn [List.find forallb].
  destruct (map_get name (inputs p)) as [t|]; [|done]. by rewrite bool_decide_false, bool_decide_true by eauto.
Qed.

Lemma ascending_map_get {K A} `{StrictOrder K} (l : list (K * A)) k x : ascending l.*1 → (k, x) ∈ l → map_get k l = Some x.
Proof using Type.
  clear Hg. induction l as [|[k' y] l IH]; [by intros _ ?%elem_of_nil|]. rewrite fmap_cons, map_get_cons, elem_of_cons. cbn [fst].
  intros Hl [[= <- <-]|Hin]; [by rewrite (proj2 (cmp_Eq k k))|]. apply ascending_cons in Hl as [Hlt Hl].
  destruct (cmp k' k) eqn:Hc; [|by apply IH..]. apply cmp_Eq in Hc as ->.
  assert (k ∈ l.*1) as Hk by (apply list_elem_of_fmap; by exists (k, x)). apply Hlt in Hk. by rewrite ltb_irrefl in Hk.
Qed.

(** A program gives the meaning of its root exactly for the inputs it accepts, and an error otherwise. *)
Lemma evaluate_lowered root node fuel p : nodes g !! root = Some node → lower_fuel g root ≤ fuel → lower fuel g root = Some (Ok p) →
  if inputs_match p then ∃ v, denote g values root = Some v ∧ accepts (ty node) v = true ∧ evaluate p values = Ok v
  else ∃ e, evaluate p values = Err e.
Proof using Hg.
  intros Hn Hfuel Hp. destruct (lower_node g Hg root node fuel Hn Hfuel) as (p' & Hp' & Hcode & Hout & Hget & Hsome & Hasc).
  replace p' with p in * by congruence. unfold evaluate.
  set (fallback := match last (program p) with Some l => op_origin l | None => unknown_origin end).
  unfold inputs_match. pose proof (check_inputs_exact p fallback) as [Hc|[[e Hc] ->]]; rewrite Hc; [|by exists e].
  pose proof Hc as Hall%check_inputs_Ok. rewrite Hall. cbn [andb mbind outcome_bind].
  pose proof (find_extra_None p) as Hx. destruct (List.find _ values.*1) as [extra|] eqn:Hfind.
  { destruct (forallb (λ name, bool_decide (is_Some (map_get name (inputs p)))) values.*1); [discriminate (proj2 Hx eq_refl)|by eexists]. }
  rewrite (proj1 Hx eq_refl).
  destruct (run_order root node Hn) as (v & Hv & Ha & Hrun).
  { intros n Hin name Hk. destruct (order_nodes g Hg _ _ Hin) as [i Hi]. pose proof (ok_typed _ Hg _ _ Hi) as Ht. rewrite Hk in Ht.
    inversion Ht as [|? ? Hd| | | | | | | | | | | | | |]; subst.
    assert (map_get name (inputs p) = Some (ty n)) as Hm by (apply Hget; split; [by exists n|done]).
    apply map_get_elem, list_elem_of_In in Hm. rewrite forallb_forall in Hall. specialize (Hall _ Hm). cbn in Hall.
    destruct (map_get name values) as [v|]; [by exists v|done]. }
  exists v. split; [done|]. split; [done|]. specialize (Hrun [] [] 0). rewrite app_nil_r in Hrun.
  rewrite Hcode, Hrun, weavy_run_nil. cbn. by rewrite Hout, Ha.
Qed.
End Program.
