(* ===== verification/FormalProperties.v ===== *)
(** * Properties of the expression dialect

    Every graph the builder makes is well typed, its lowering ends, and the lowered
    program computes the graph's meaning.  The sample is the expression of the crate's
    test that uses every operation. *)

From stdpp Require Import base strings numbers option list.
From S2P Require Import Prelude Methods Protocol Bytes Formal FormalTyping FormalEvaluation.
Import Formal.

(** ** A sample *)

Module Sample.

Definition here : Origin :=
  {| rule_id := "P-FOLLOW-SUIT"; origin_source := {| document := "docs/main.typ"; line := 100; clause := "test clause" |};
     computation := KProperty |}.

Definition int (min max : Z) : Ty := TInteger {| range_min := min; range_max := max |}.
Definition phase_type : EnumType := {| enum_name := "Phase"; variants := ["Bid"; "Play"; "Score"] |}.
Definition player : RecordType := {| record_name := "Player"; record_fields :=
  [{| field_name := "bid"; field_ty := int 0 3 |}; {| field_name := "phase_type"; field_ty := TEnumeration phase_type |}] |}.

Definition calls : list (Call * Origin) := (λ c, (c, here)) <$>
  [ CEnumeration phase_type "Play" (* 0 *); CEnumerationOrdinal 0 (* 1 *); CConstant (int 0 2) (VInteger 2) (* 2 *);
    CConstant (int 0 3) (VInteger 1) (* 3 *); CConstant (int 0 3) (VInteger 2) (* 4 *); CConstant (int 0 3) (VInteger 3) (* 5 *);
    CRecord player [3; 0] (* 6 *); CField 6 "bid" (* 7 *); CFixedArray (int 0 3) [3; 4; 5] (* 8 *);
    CInput "chosen-index" (int 0 2) (* 9 *); CIndex 8 9 (* 10 *); CEqual 7 3 (* 11 *); CLess 10 5 (* 12 *);
    CLessEqual 1 2 (* 13 *); CNot 11 (* 14 *); CFixedAny [14; 12] (* 15 *); CFixedAll [11; 12; 13; 15] (* 16 *);
    CFixedSum [7; 10; 1] (* 17 *); CConstant (int 0 8) (VInteger 0) (* 18 *); CSelect 16 17 18 (* 19 *);
    CNot 0 (* refused *); CIndex 8 3 (* refused *) ].

Definition graph : GraphBuilder := build calls.

Definition lowered : option FormalProgram := match lower 200 graph 19 with Some (Ok p) => Some p | _ => None end.

(** The schemas are ones the constructors accept. *)
Example schemas_ok : EnumType_new "Phase" ["Bid"; "Play"; "Score"] = Ok phase_type ∧ RecordType_new "Player" (record_fields player) = Ok player ∧
  calls_ok calls = true ∧ length (nodes graph) = 20.
Proof. vm_compute. done. Qed.

Example names_refused : EnumType_new "Phase" ["Bid"; "Bid"] = Err (RepeatedVariant "Phase" "Bid") ∧
  EnumType_new "  " ["Bid"] = Err (EmptyName "enum") ∧ EnumType_new "Phase" [] = Err (NoVariants "Phase") ∧
  IntRange_new 2 1 = Err (EmptyRange 2 1).
Proof. vm_compute. done. Qed.

Example evaluates : (λ p, evaluate (H := sequential_weavy) p [("chosen-index", VInteger 1)]) <$> lowered = Some (Ok (VInteger 4)) ∧
  (λ p, evaluate (H := sequential_weavy) p []) <$> lowered = Some (Err (at_origin (InputMissing "chosen-index") here)) ∧
  (λ p, evaluate (H := sequential_weavy) p [("chosen-index", VInteger 3)]) <$> lowered
    = Some (Err (at_origin (InputOutsideType "chosen-index") here)) ∧
  (λ p, evaluate (H := sequential_weavy) p [("chosen-index", VInteger 1); ("other", VBool true)]) <$> lowered
    = Some (Err (at_origin (InputExtra "other") here)).
Proof. vm_compute. done. Qed.

(** A corrupted instruction is reported at its place and source. *)
Example corrupted : evaluate (H := sequential_weavy)
    {| program := [{| op := ONot; op_origin := here |}]; inputs := []; input_origins := []; output_type := TBool |} []
  = Err (at_instruction StackUnderflow here 0).
Proof. vm_compute. done. Qed.

End Sample.

(** ** Properties *)

(** Whatever calls are made with types that the constructors accept, the graph is
    well typed: every node refers to earlier nodes and has the type its operation gives.
    A further call either adds one well-typed node or refuses and leaves the graph as it
    was; it does not panic. *)
Theorem graphs_well_typed calls : calls_ok calls = true →
  graph_ok (build calls) ∧
  ∀ c o, call_ok c = true → extends (build calls) (perform c o (build calls)).1 (perform c o (build calls)).2.
Proof. intros Hc. pose proof (build_ok _ Hc) as Hg. split; [done|]. intros c o. by apply perform_extends. Qed.

Lemma graphs_well_typed_witness : graph_ok Sample.graph ∧
  extends Sample.graph (perform (CNot 16) Sample.here Sample.graph).1 (perform (CNot 16) Sample.here Sample.graph).2.
Proof.
  assert (calls_ok Sample.calls = true) as Hc by (vm_compute; reflexivity).
  destruct (graphs_well_typed Sample.calls Hc) as [Hg Hx]. split; [exact Hg|]. exact (Hx (CNot 16) Sample.here eq_refl).
Defined.

(** Lowering ends.  For a root in the graph, a number of turns linear in the emitted
    code is enough and no error is possible: the code is the nodes the root needs, each
    after its children, and the declared inputs are those these nodes read.  A root
    outside the graph is refused. *)
Theorem lowering_terminates calls root fuel : calls_ok calls = true → lower_fuel (build calls) root ≤ fuel →
  match nodes (build calls) !! root with
  | None => lower fuel (build calls) root = Some (Err (at_origin (RootAbsent root) unknown_origin))
  | Some node => ∃ p, lower fuel (build calls) root = Some (Ok p) ∧
      program p = located <$> order (build calls) root ∧ output_type p = ty node ∧
      ∀ name t, map_get name (inputs p) = Some t ↔ used (order (build calls) root) name ∧ declared (build calls) name = Some t
  end.
Proof.
  intros Hc Hfuel. pose proof (build_ok _ Hc) as Hg. destruct (nodes (build calls) !! root) as [node|] eqn:Hn.
  - destruct (lower_node _ Hg root node fuel Hn Hfuel) as (p & Hp & Hcode & Hout & Hget & _). by exists p.
  - unfold lower. by rewrite Hn.
Qed.

Lemma lowering_terminates_witness : ∃ p, lower 200 Sample.graph 19 = Some (Ok p) ∧ output_type p = Sample.int 0 8 ∧
  map_get "chosen-index" (inputs p) = Some (Sample.int 0 2).
Proof.
  assert (calls_ok Sample.calls = true) as Hc by (vm_compute; reflexivity).
  assert (lower_fuel Sample.graph 19 ≤ 200) as Hf by (apply Nat.leb_le; vm_compute; reflexivity).
  pose proof (lowering_terminates Sample.calls 19 200 Hc Hf) as H. change (build Sample.calls) with Sample.graph in H.
  assert (∃ n, nodes Sample.graph !! 19 = Some n ∧ ty n = Sample.int 0 8) as (n & Hn & Ht) by (eexists; split; vm_compute; reflexivity).
  rewrite Hn in H. destruct H as (p & Hp & Hcode & Hout & Hget). exists p. split; [exact Hp|]. split; [rewrite Hout; exact Ht|].
  assert (Some p = Sample.lowered) as Hpp by (unfold Sample.lowered; rewrite Hp; reflexivity).
  assert (map_get "chosen-index" <$> (inputs <$> Sample.lowered) = Some (Some (Sample.int 0 2))) as Hm by (vm_compute; reflexivity).
  rewrite <-Hpp in Hm. cbn in Hm. injection Hm as Hm. exact Hm.
Defined.

(** [C28] A lowered program is total and right: on one value of its type for each declared
    input and no other, it ends with the meaning of the root, which belongs to the
    declared output type; on anything else it ends with an error before running.  It never
    panics, and no check inside the evaluator fails. *)
Theorem evaluation_exact `{Weavy} calls root fuel p values : calls_ok calls = true →
  lower_fuel (build calls) root ≤ fuel → lower fuel (build calls) root = Some (Ok p) →
  if inputs_match values p
  then ∃ v, denote (build calls) values root = Some v ∧ accepts (output_type p) v = true ∧ evaluate p values = Ok v
  else ∃ e, evaluate p values = Err e.
Proof.
  intros Hc Hfuel Hp. pose proof (build_ok _ Hc) as Hg. destruct (nodes (build calls) !! root) as [node|] eqn:Hn.
  - pose proof (evaluate_lowered _ Hg values root node fuel p Hn Hfuel Hp) as He.
    destruct (lower_node _ Hg root node fuel Hn Hfuel) as (p' & Hp' & _ & Hout & _). replace (output_type p) with (ty node) by congruence. done.
  - unfold lower in Hp. by rewrite Hn in Hp.
Qed.

Definition sample_facts : bool :=
  match Sample.lowered with
  | Some p => inputs_match [("chosen-index", VInteger 1)] p &&
      bool_decide (denote Sample.graph [("chosen-index", VInteger 1)] 19 = Some (VInteger 4))
  | None => false
  end.

Lemma evaluation_exact_witness : ∃ p, lower 200 Sample.graph 19 = Some (Ok p) ∧
  evaluate (H := sequential_weavy) p [("chosen-index", VInteger 1)] = Ok (VInteger 4).
Proof.
  assert (calls_ok Sample.calls = true) as Hc by (vm_compute; reflexivity).
  assert (lower_fuel Sample.graph 19 ≤ 200) as Hf by (apply Nat.leb_le; vm_compute; reflexivity).
  assert (sample_facts = true) as Hs by (vm_compute; reflexivity). unfold sample_facts, Sample.lowered in Hs.
  destruct (lower 200 Sample.graph 19) as [[p|e|]|] eqn:Hp; [|discriminate Hs..].
  exists p. split; [reflexivity|]. apply andb_true_iff in Hs as [Hm Hd]. apply bool_decide_eq_true in Hd.
  pose proof (evaluation_exact (H := sequential_weavy) Sample.calls 19 200 p [("chosen-index", VInteger 1)] Hc Hf Hp) as He.
  rewrite Hm in He. destruct He as (v & Hv & _ & He). change (build Sample.calls) with Sample.graph in Hv.
  rewrite Hd in Hv. injection Hv as Hv. rewrite Hv. exact He.
Defined.
