(* ===== verification/ModelFinite.v ===== *)
(** * The six-card scope: values

    poche-model/src/finite.rs: players, cards, card sets, deals, rounds, bids, trick
    counts, scores and the pot.  An array of two is a pair indexed by a player; a card
    set is its [u8]. *)

From stdpp Require Import base strings numbers option list.
From S2P Require Import Prelude Domain Formal.

Local Open Scope Z_scope.

(** ** Players and pairs *)

Inductive Player := PlayerZero | PlayerOne.

#[export] Instance Player_eq_dec : EqDecision Player.
Proof. solve_decision. Defined.

Definition Player_ALL : list Player := [PlayerZero; PlayerOne].

Definition left_of (self : Player) : Player := match self with PlayerZero => PlayerOne | PlayerOne => PlayerZero end.

(** [[T; 2]] indexed by [Player::index] *)
Notation Two A := (A * A)%type.
Definition at_ {A} (a : Two A) (p : Player) : A := match p with PlayerZero => a.1 | PlayerOne => a.2 end.
Definition set_at {A} (a : Two A) (p : Player) (x : A) : Two A := match p with PlayerZero => (x, a.2) | PlayerOne => (a.1, x) end.
Definition both {A} (x : A) : Two A := (x, x).
Definition items {A} (a : Two A) : list A := [a.1; a.2].

Definition Player_encode (p : Player) : Z := match p with PlayerZero => 0 | PlayerOne => 1 end.

Definition Player_decode (code : Z) : outcome DecodeError Player :=
  match code with 0 => Ok PlayerZero | 1 => Ok PlayerOne | _ => Err (OutOfRange code 2 "Player") end.

#[export] Instance Player_domain : FiniteDomain Player := {|
  cardinality := Ok 2; encode := λ p, Ok (Player_encode p); decode := Player_decode |}.

(** ** Cards *)

Inductive Card := S0R0 | S0R1 | S0R2 | S1R0 | S1R1 | S1R2.

#[export] Instance Card_eq_dec : EqDecision Card.
Proof. solve_decision. Defined.

Definition Card_ALL : list Card := [S0R0; S0R1; S0R2; S1R0; S1R1; S1R2].

(** [self as u8] *)
Definition card_code (c : Card) : Z :=
  match c with S0R0 => 0 | S0R1 => 1 | S0R2 => 2 | S1R0 => 3 | S1R1 => 4 | S1R2 => 5 end.

Definition suit (c : Card) : Z := card_code c / 3.
Definition rank (c : Card) : Z := card_code c mod 3.

Definition Card_decode (code : Z) : outcome DecodeError Card :=
  ok_or (if (0 <=? code) && (code <? 6) then Card_ALL !! Z.to_nat code else None) (OutOfRange code 6 "Card").

#[export] Instance Card_domain : FiniteDomain Card := {|
  cardinality := Ok 6; encode := λ c, Ok (card_code c); decode := Card_decode |}.

(** ** Rounds and bids *)

Inductive RoundId := OneAscending | TwoCards | OneDescending.

#[export] Instance RoundId_eq_dec : EqDecision RoundId.
Proof. solve_decision. Defined.

Definition RoundId_ALL : list RoundId := [OneAscending; TwoCards; OneDescending].
Definition round_code (r : RoundId) : Z := match r with OneAscending => 0 | TwoCards => 1 | OneDescending => 2 end.

Definition hand_size (r : RoundId) : Z := match r with OneAscending | OneDescending => 1 | TwoCards => 2 end.

Definition next_round (r : RoundId) : option RoundId :=
  match r with OneAscending => Some TwoCards | TwoCards => Some OneDescending | OneDescending => None end.

Definition RoundId_decode (code : Z) : outcome DecodeError RoundId :=
  ok_or (if (0 <=? code) && (code <? 3) then RoundId_ALL !! Z.to_nat code else None) (OutOfRange code 3 "RoundId").

#[export] Instance RoundId_domain : FiniteDomain RoundId := {|
  cardinality := Ok 3; encode := λ r, Ok (round_code r); decode := RoundId_decode |}.

Inductive Bid := BidZero | BidOne | BidTwo.

#[export] Instance Bid_eq_dec : EqDecision Bid.
Proof. solve_decision. Defined.

Definition Bid_ALL : list Bid := [BidZero; BidOne; BidTwo].
Definition bid_get (b : Bid) : Z := match b with BidZero => 0 | BidOne => 1 | BidTwo => 2 end.
Definition legal_for (b : Bid) (r : RoundId) : bool := bid_get b <=? hand_size r.

Definition Bid_decode (code : Z) : outcome DecodeError Bid :=
  ok_or (if (0 <=? code) && (code <? 3) then Bid_ALL !! Z.to_nat code else None) (OutOfRange code 3 "Bid").

#[export] Instance Bid_domain : FiniteDomain Bid := {|
  cardinality := Ok 3; encode := λ b, Ok (bid_get b); decode := Bid_decode |}.

(** ** Errors *)

Inductive ModelError :=
  | ValueOutOfRange (domain : string) (value : Z)
  | DuplicateCard (card : Card)
  | IncompletePartition
  | CardAbsent (card : Card)
  | BidExceedsHand (bid : Bid) (hand_size : Z)
  | DealHandMismatch (expected actual : Z)
  | WrongPhase
  | WrongActor (expected actual : Player)
  | MustFollowSuit (suit : Z)
  | FormalError (error : Formal.Diagnostic)
  | Invariant (name : string).

(** ** Card sets *)

Record CardSet := CardSetOf { bits : Z }.

#[export] Instance CardSet_eq_dec : EqDecision CardSet.
Proof. solve_decision. Defined.

Definition ALL_BITS : Z := 63.
Definition EMPTY : CardSet := CardSetOf 0.

(** [1 << card as u8] *)
Definition bit_of (c : Card) : Z := Z.shiftl 1 (card_code c).

Definition holds (self : CardSet) (c : Card) : bool := negb (Z.land (bits self) (bit_of c) =? 0).

Definition insert_card (self : CardSet) (c : Card) : CardSet := CardSetOf (Z.lor (bits self) (bit_of c)).

Definition from_cards (cards : list Card) : outcome ModelError CardSet :=
  foldM (λ result c, if holds result c then Err (DuplicateCard c) else Ok (insert_card result c)) cards EMPTY.

(** [u8::count_ones] *)
Definition count_ones (x : Z) : Z := Z.of_nat (length (List.filter (Z.testbit x) (seqZ 0 8))).

Definition card_count (self : CardSet) : Z := count_ones (bits self).

Definition is_empty (self : CardSet) : bool := bits self =? 0.

Definition cards_of (self : CardSet) : list Card := List.filter (holds self) Card_ALL.

Definition contains_suit (self : CardSet) (s : Z) : bool := existsb (λ c, suit c =? s) (cards_of self).

Definition without (self : CardSet) (c : Card) : outcome ModelError CardSet :=
  if negb (holds self c) then Err (CardAbsent c) else Ok (CardSetOf (Z.land (bits self) (Z.lxor 255 (bit_of c)))).

Definition with_card (self : CardSet) (c : Card) : outcome ModelError CardSet :=
  if holds self c then Err (DuplicateCard c) else Ok (insert_card self c).

Definition union_set (self other : CardSet) : outcome ModelError CardSet :=
  if negb (Z.land (bits self) (bits other) =? 0)
  then Err (DuplicateCard (default S0R0 (List.find (holds self) (cards_of other))))
  else Ok (CardSetOf (Z.lor (bits self) (bits other))).

Definition CardSet_decode (code : Z) : outcome DecodeError CardSet :=
  if code <? 64 then Ok (CardSetOf code) else Err (OutOfRange code 64 "CardSet").

#[export] Instance CardSet_domain : FiniteDomain CardSet := {|
  cardinality := Ok 64; encode := λ s, Ok (bits s); decode := CardSet_decode |}.

(** ** Deals *)

Record TwoCardDeal := TwoCardDealOf { two_hands : Two CardSet; two_trump : Card; two_undealt : CardSet }.

#[export] Instance TwoCardDeal_eq_dec : EqDecision TwoCardDeal.
Proof. solve_decision. Defined.

(** The loop over the zones shared by the two constructors. *)
Definition disjoint_zones (trump : Card) (zones : list CardSet) : outcome ModelError Z :=
  foldM (λ seen zone,
    if negb (Z.land seen (bits zone) =? 0)
    then Err (DuplicateCard (default S0R0 (List.find (λ c, negb (Z.land seen (bit_of c) =? 0)) (cards_of zone))))
    else Ok (Z.lor seen (bits zone))) zones (bit_of trump).

Definition TwoCardDeal_new (hands : Two CardSet) (trump : Card) (undealt : CardSet) : outcome ModelError TwoCardDeal :=
  if negb (card_count hands.1 =? 2) || negb (card_count hands.2 =? 2) || negb (card_count undealt =? 1)
  then Err IncompletePartition
  else
    seen ← disjoint_zones trump [hands.1; hands.2; undealt];
    if negb (seen =? ALL_BITS) then Err IncompletePartition
    else Ok {| two_hands := hands; two_trump := trump; two_undealt := undealt |}.

(** [from_partition]: the zones of the cards, one insertion per card; a partition without trump panics *)
Definition from_partition {E} (partition : MicroPartition) : outcome E TwoCardDeal :=
  let '(hands, trump, undealt) := foldl (λ '(hands, trump, undealt) '(c, zone),
    match zone with
    | ZonePlayer0 => ((insert_card hands.1 c, hands.2), trump, undealt)
    | ZonePlayer1 => ((hands.1, insert_card hands.2 c), trump, undealt)
    | ZoneTrump => (hands, Some c, undealt)
    | ZoneUndealt => (hands, trump, insert_card undealt c)
    end) (both EMPTY, None, EMPTY) (zip Card_ALL (zones partition)) in
  trump ← expect trump;
  Ok {| two_hands := hands; two_trump := trump; two_undealt := undealt |}.

Definition TwoCardDeal_all {E} : outcome E (list TwoCardDeal) :=
  partitions ← expect_ok (enumerate MicroPartition); mapM from_partition partitions.

Definition partition_of_deal (self : TwoCardDeal) : outcome DecodeError MicroPartition :=
  expect_ok (E := DecodeError) (MicroPartition_new ((λ c,
    if holds (two_hands self).1 c then ZonePlayer0
    else if holds (two_hands self).2 c then ZonePlayer1
    else if bool_decide (two_trump self = c) then ZoneTrump
    else ZoneUndealt) <$> Card_ALL)).

Definition TwoCardDeal_encode (self : TwoCardDeal) : outcome DecodeError Z := p ← partition_of_deal self; encode p.

Definition TwoCardDeal_decode (code : Z) : outcome DecodeError TwoCardDeal := p ← decode (A := MicroPartition) code; from_partition p.

#[export] Instance TwoCardDeal_domain : FiniteDomain TwoCardDeal := {|
  cardinality := cardinality MicroPartition; encode := TwoCardDeal_encode; decode := TwoCardDeal_decode |}.

Record OneCardDeal := OneCardDealOf { one_hands : Two Card; one_trump : Card; one_undealt : CardSet }.

#[export] Instance OneCardDeal_eq_dec : EqDecision OneCardDeal.
Proof. solve_decision. Defined.

Definition OneCardDeal_new (hands : Two Card) (trump : Card) (undealt : CardSet) : outcome ModelError OneCardDeal :=
  if negb (card_count undealt =? 3) then Err IncompletePartition
  else
    h0 ← from_cards [hands.1];
    h1 ← from_cards [hands.2];
    seen ← disjoint_zones trump [h0; h1; undealt];
    if negb (seen =? ALL_BITS) then Err IncompletePartition
    else Ok {| one_hands := hands; one_trump := trump; one_undealt := undealt |}.

Definition one_hand (self : OneCardDeal) (player : Player) : CardSet := CardSetOf (bit_of (at_ (one_hands self) player)).

(** The three nested loops over the deck, with their [continue]s. *)
Definition OneCardDeal_all : list OneCardDeal :=
  first ← Card_ALL;
  second ← Card_ALL;
  if bool_decide (second = first) then []
  else
    trump ← Card_ALL;
    if bool_decide (trump = first) || bool_decide (trump = second) then []
    else [{| one_hands := (first, second); one_trump := trump;
             one_undealt := foldl (λ undealt c, if bool_decide (c ∈ [first; second; trump]) then undealt else insert_card undealt c)
               EMPTY Card_ALL |}].

Definition OneCardDeal_encode (self : OneCardDeal) : outcome DecodeError Z :=
  i ← expect (list_find (λ candidate, candidate = self) OneCardDeal_all); Ok (Z.of_nat i.1).

Definition OneCardDeal_decode (code : Z) : outcome DecodeError OneCardDeal :=
  if 120 <=? code then Err (OutOfRange code 120 "OneCardDeal") else expect (OneCardDeal_all !! Z.to_nat code).

#[export] Instance OneCardDeal_domain : FiniteDomain OneCardDeal := {|
  cardinality := Ok 120; encode := OneCardDeal_encode; decode := OneCardDeal_decode |}.

Inductive Deal := DealOne (deal : OneCardDeal) | DealTwo (deal : TwoCardDeal).

#[export] Instance Deal_eq_dec : EqDecision Deal.
Proof. solve_decision. Defined.

Definition all_for {E} (round : RoundId) : outcome E (list Deal) :=
  if hand_size round =? 1 then Ok (map DealOne OneCardDeal_all) else deals ← TwoCardDeal_all (E := E); Ok (map DealTwo deals).

Definition deal_hands (self : Deal) : Two CardSet :=
  match self with DealOne deal => (one_hand deal PlayerZero, one_hand deal PlayerOne) | DealTwo deal => two_hands deal end.

Definition deal_trump (self : Deal) : Card := match self with DealOne deal => one_trump deal | DealTwo deal => two_trump deal end.

Definition deal_undealt (self : Deal) : CardSet := match self with DealOne deal => one_undealt deal | DealTwo deal => two_undealt deal end.

Definition deal_hand_size (self : Deal) : Z := match self with DealOne _ => 1 | DealTwo _ => 2 end.

Definition validate_round (self : Deal) (round : RoundId) : outcome ModelError unit :=
  if deal_hand_size self =? hand_size round then Ok tt
  else Err (DealHandMismatch (hand_size round) (deal_hand_size self)).

Definition Deal_cardinality : outcome DecodeError Z :=
  one ← cardinality OneCardDeal; two ← cardinality TwoCardDeal; u_add 128 one two.

Definition Deal_encode (self : Deal) : outcome DecodeError Z :=
  match self with
  | DealOne deal => encode deal
  | DealTwo deal => one ← cardinality OneCardDeal; code ← encode deal; u_add 128 one code
  end.

Definition Deal_decode (code : Z) : outcome DecodeError Deal :=
  one ← cardinality OneCardDeal;
  if code <? one then DealOne <$> decode (A := OneCardDeal) code
  else DealTwo <$> decode (A := TwoCardDeal) (code - one).

#[export] Instance Deal_domain : FiniteDomain Deal := {|
  cardinality := Deal_cardinality; encode := Deal_encode; decode := Deal_decode |}.

(** ** Counters *)

Record Tricks := TricksOf { tricks_get : Z }.
Record Score := ScoreOf { score_get : Z }.
Record Pot := PotOf { pot_misses : Z }.

#[export] Instance Tricks_eq_dec : EqDecision Tricks.
Proof. solve_decision. Defined.
#[export] Instance Score_eq_dec : EqDecision Score.
Proof. solve_decision. Defined.
#[export] Instance Pot_eq_dec : EqDecision Pot.
Proof. solve_decision. Defined.

Definition Tricks_new (value : Z) : outcome ModelError Tricks :=
  if value <=? 2 then Ok (TricksOf value) else Err (ValueOutOfRange "Tricks" value).

Definition increment {E} (self : Tricks) : outcome E Tricks := n ← u_add 8 (tricks_get self) 1; Ok (TricksOf n).

Definition score_add (self : Score) (points : Z) : outcome ModelError Score :=
  value ← ok_or (checked 8 (score_get self + points)) (ValueOutOfRange "Score" (score_get self + points));
  if value <=? 64 then Ok (ScoreOf value) else Err (ValueOutOfRange "Score" value).

Definition OPENING : Pot := PotOf 0.

(** [50 + (self.0 as u16) * 10], at most 2600 *)
Definition cents (self : Pot) : Z := 50 + pot_misses self * 10.

Definition add_miss (self : Pot) : outcome ModelError Pot :=
  if pot_misses self <? 6 then Ok (PotOf (pot_misses self + 1)) else Err (ValueOutOfRange "Pot" (pot_misses self + 1)).
