(* ===== verification/ModelKernels.v ===== *)
(** * The six-card scope: decision kernels

    poche-model/src/formal.rs: six decisions of the rules, each written as a graph of the
    expression dialect, lowered once and evaluated on the facts of a state.  The static
    caches only remember results: [cached_evaluation] is modelled with its table and shown
    to give what the evaluation gives, and the kernels are then the evaluations. *)

From stdpp Require Import base strings numbers option list.
From S2P Require Import Prelude Methods Domain Protocol Bytes Formal ModelFinite.
Import Formal.

Local Open Scope Z_scope.

Inductive KernelId := BidLegal | FollowSuitLegal | SecondCardWins | RoundScore | FinalRound | WinnerMask.

#[export] Instance KernelId_eq_dec : EqDecision KernelId.
Proof. solve_decision. Defined.

(** ** Caches *)

(** [cached_evaluation] on the table of its kernel *)
Definition cached_evaluation {K V} `{EqDecision K} (key : K) (evaluate : outcome ModelError V)
    (cache : list (K * outcome ModelError V)) : list (K * outcome ModelError V) * outcome ModelError V :=
  match List.find (λ e, bool_decide (e.1 = key)) cache with
  | Some e => (cache, e.2)
  | None => ((key, evaluate) :: cache, evaluate)
  end.

(** ** Building programs *)

(** A graph is built from an empty builder and its root lowered; the work list of every
    kernel is empty well before [kernel_fuel] turns. *)
Definition kernel_fuel : nat := 300.

Definition build_program (build : M GraphBuilder Diagnostic nat) : outcome Diagnostic FormalProgram :=
  let '(graph, root) := build GraphBuilder_new in
  root ← root;
  default Panic (lower kernel_fuel graph root).

Definition rule_origin (id : string) (l : Z) (c : string) (k : ComputationKind) : Origin :=
  {| rule_id := id; origin_source := {| document := "docs/main.typ"; line := l; clause := c |}; computation := k |}.

(** [Type::Integer(IntRange::new(min, max).expect(..))] *)
Definition int_type (min max : Z) : M GraphBuilder Diagnostic Ty :=
  r ← lift (expect_ok (IntRange_new min max)); mret (TInteger r).

Definition build_bid_legal : outcome Diagnostic FormalProgram := build_program (
  let origin := rule_origin "R-BID-002" 275 "whole-number bid from zero through hand size" KLegalAction in
  bounded ← int_type 0 2;
  bid ← input "bid" bounded origin;
  hand ← input "hand-size" bounded origin;
  less_equal bid hand origin).

Definition build_follow_suit : outcome Diagnostic FormalProgram := build_program (
  let origin := rule_origin "R-TRICK-005" 292 "follower holding lead suit must follow" KLegalAction in
  suit ← int_type 0 1;
  has_lead ← input "hand-has-lead" TBool origin;
  selected ← input "selected-suit" suit origin;
  lead ← input "lead-suit" suit origin;
  not_required ← graph_not has_lead origin;
  follows ← equal selected lead origin;
  fixed_any [not_required; follows] origin).

Definition build_second_wins : outcome Diagnostic FormalProgram := build_program (
  let origin := rule_origin "R-TRICK-007" 296 "trump, then lead suit, then rank determines winner" KTransition in
  let rank_origin := rule_origin "R-TRICK-010" 301 "ranks ascend within eligible suits" KTransition in
  suit ← int_type 0 1;
  rank ← int_type 0 2;
  lead_suit ← input "lead-suit" suit origin;
  lead_rank ← input "lead-rank" rank rank_origin;
  second_suit ← input "second-suit" suit origin;
  second_rank ← input "second-rank" rank rank_origin;
  trump_suit ← input "trump-suit" suit origin;
  lead_trump ← equal lead_suit trump_suit origin;
  second_trump ← equal second_suit trump_suit origin;
  lead_not_trump ← graph_not lead_trump origin;
  trump_advantage ← fixed_all [second_trump; lead_not_trump] origin;
  same_suit ← equal second_suit lead_suit origin;
  higher ← less lead_rank second_rank rank_origin;
  same_suit_higher ← fixed_all [same_suit; higher] origin;
  fixed_any [trump_advantage; same_suit_higher] origin).

(** [FieldType::new(name, ty).expect(..)] and its kin *)
Definition static_field (name : string) (t : Ty) : M GraphBuilder Diagnostic (FieldTypeOf Ty) := lift (expect_ok (FieldType_new name t)).
Definition static_enum (name : string) (vs : list string) : M GraphBuilder Diagnostic EnumType := lift (expect_ok (EnumType_new name vs)).
Definition static_record (name : string) (fs : list (FieldTypeOf Ty)) : M GraphBuilder Diagnostic (RecordTypeOf Ty) :=
  lift (expect_ok (RecordType_new name fs)).

Definition build_round_score : outcome Diagnostic FormalProgram := build_program (
  let compare := rule_origin "R-SCORE-001" 311 "compare fixed bid with trick count" KScoring in
  let miss := rule_origin "R-SCORE-002" 317 "missed bid scores zero" KScoring in
  let exact := rule_origin "R-SCORE-003" 317 "exact partial bid scores ten plus bid" KScoring in
  let all := rule_origin "R-SCORE-004" 317 "all tricks scores twenty plus bid" KScoring in
  let payment := rule_origin "R-MONEY-001" 350 "missed bid pays ten cents" KScoring in
  let output := rule_origin "R-SCORE-005" 323 "round score contributes to cumulative score" KScoring in
  small ← int_type 0 2;
  point ← int_type 0 22;
  cents ← int_type 0 10;
  outcome ← static_enum "RoundOutcome" ["Miss"; "Exact"; "AllTricks"];
  outcome_field ← static_field "outcome" (TEnumeration outcome);
  points_field ← static_field "points" point;
  payment_field ← static_field "payment-cents" cents;
  result ← static_record "RoundScore" [outcome_field; points_field; payment_field];
  bid ← input "bid" small compare;
  tricks ← input "tricks" small compare;
  hand ← input "hand-size" small all;
  is_exact ← equal bid tricks compare;
  is_all ← equal tricks hand all;
  zero_small ← constant small (VInteger 0) exact;
  one_small ← constant small (VInteger 1) exact;
  bid_zero ← equal bid zero_small exact;
  bid_one ← equal bid one_small exact;
  p0 ← constant point (VInteger 0) miss;
  p10 ← constant point (VInteger 10) exact;
  p11 ← constant point (VInteger 11) exact;
  p12 ← constant point (VInteger 12) exact;
  p20 ← constant point (VInteger 20) all;
  p21 ← constant point (VInteger 21) all;
  p22 ← constant point (VInteger 22) all;
  exact_nonzero ← select bid_one p11 p12 exact;
  exact_points ← select bid_zero p10 exact_nonzero exact;
  all_nonzero ← select bid_one p21 p22 all;
  all_points ← select bid_zero p20 all_nonzero all;
  successful_points ← select is_all all_points exact_points all;
  points ← select is_exact successful_points p0 output;
  c0 ← constant cents (VInteger 0) payment;
  c10 ← constant cents (VInteger 10) payment;
  payment_cents ← select is_exact c0 c10 payment;
  miss_value ← enumeration outcome "Miss" miss;
  exact_value ← enumeration outcome "Exact" exact;
  all_value ← enumeration outcome "AllTricks" all;
  successful_outcome ← select is_all all_value exact_value all;
  outcome_value ← select is_exact successful_outcome miss_value exact;
  record result [outcome_value; points; payment_cents] output).

Definition build_final_round : outcome Diagnostic FormalProgram := build_program (
  let origin := rule_origin "R-ADVANCE-003" 363 "finish after the descending one-card round" KTransition in
  round ← int_type 0 2;
  value ← input "round" round origin;
  final_value ← constant round (VInteger 2) origin;
  equal value final_value origin).

Definition build_winner_mask : outcome Diagnostic FormalProgram := build_program (
  let origin := rule_origin "R-FINISH-003" 369 "all maximum-score players win" KProperty in
  score ← int_type 0 64;
  zero_field ← static_field "zero" TBool;
  one_field ← static_field "one" TBool;
  result ← static_record "WinnerMask" [zero_field; one_field];
  zero ← input "score-zero" score origin;
  one ← input "score-one" score origin;
  zero_less ← less zero one origin;
  one_less ← less one zero origin;
  zero_wins ← graph_not zero_less origin;
  one_wins ← graph_not one_less origin;
  record result [zero_wins; one_wins] origin).

(** ** The catalog *)

Record FormalKernelInfo := mkFormalKernelInfo
  { kernel_id : KernelId; kernel_output : Ty; rule_ids : list string; instruction_count : nat }.

Definition formal_kernel_catalog : outcome Diagnostic (list FormalKernelInfo) :=
  mapM (λ '(id, build),
    p ← build;
    let origins := op_origin <$> program p in
    Ok {| kernel_id := id; kernel_output := output_type p;
          rule_ids := foldr btree_insert [] (rule_id <$> origins); instruction_count := length origins |})
  [(BidLegal, build_bid_legal); (FollowSuitLegal, build_follow_suit); (SecondCardWins, build_second_wins);
   (RoundScore, build_round_score); (FinalRound, build_final_round); (WinnerMask, build_winner_mask)].

(** ** Evaluation *)

(** [BTreeMap::from] *)
Definition btree_from {V} (entries : list (string * V)) : list (string * V) :=
  foldl (λ m '(k, v), map_insert k v m) [] entries.

Definition integer_inputs (inputs : list (string * Z)) : list (string * Value) :=
  btree_from ((λ '(name, value), (name, VInteger value)) <$> inputs).

Definition value_bool (value : Value) : outcome ModelError bool :=
  match value with VBool b => Ok b | _ => Err (Invariant "formal Boolean output") end.

(** [u8::try_from] *)
Definition u8_of (value : Z) : option Z := checked 8 value.

Section Kernels.
Context `{Weavy}.

(** [From<Diagnostic>] at each [?] *)
Definition run_kernel (p : outcome Diagnostic FormalProgram) (inputs : list (string * Value)) : outcome ModelError Value :=
  p ← map_err FormalError p; map_err FormalError (evaluate p inputs).

Definition evaluate_bool (p : outcome Diagnostic FormalProgram) (inputs : list (string * Z)) : outcome ModelError bool :=
  value ← run_kernel p (integer_inputs inputs); value_bool value.

Definition bid_legal (bid : Bid) (round : RoundId) : outcome ModelError bool :=
  evaluate_bool build_bid_legal [("bid", bid_get bid); ("hand-size", hand_size round)].

Definition follow_suit_legal (hand_has_lead : bool) (selected lead : Card) : outcome ModelError bool :=
  value ← run_kernel build_follow_suit (btree_from
    [("hand-has-lead", VBool hand_has_lead); ("selected-suit", VInteger (suit selected)); ("lead-suit", VInteger (suit lead))]);
  value_bool value.

Definition second_card_wins (lead second trump : Card) : outcome ModelError bool :=
  value ← run_kernel build_second_wins (btree_from
    [("lead-suit", VInteger (suit lead)); ("lead-rank", VInteger (rank lead)); ("second-suit", VInteger (suit second));
     ("second-rank", VInteger (rank second)); ("trump-suit", VInteger (suit trump))]);
  value_bool value.

Definition round_score (bid : Bid) (tricks : Z) (round : RoundId) : outcome ModelError (Z * Z * Z) :=
  value ← run_kernel build_round_score (integer_inputs [("bid", bid_get bid); ("tricks", tricks); ("hand-size", hand_size round)]);
  match value with
  | VRecord _ fields =>
      match fields with
      | [outcome; points; payment] =>
          match outcome with
          | VEnumeration _ ordinal =>
              match points with
              | VInteger points =>
                  match payment with
                  | VInteger payment =>
                      ordinal ← ok_or (u8_of (Z.of_nat ordinal)) (Invariant "score outcome ordinal");
                      points ← ok_or (u8_of points) (Invariant "score points range");
                      payment ← ok_or (u8_of payment) (Invariant "score payment range");
                      Ok (ordinal, points, payment)
                  | _ => Err (Invariant "formal score payment integer")
                  end
              | _ => Err (Invariant "formal score points integer")
              end
          | _ => Err (Invariant "formal score outcome enum")
          end
      | _ => Err (Invariant "formal score output arity")
      end
  | _ => Err (Invariant "formal score output record")
  end.

Definition final_round (round : RoundId) : outcome ModelError bool :=
  evaluate_bool build_final_round [("round", round_code round)].

Definition winner_mask (scores : Two Z) : outcome ModelError (Two bool) :=
  value ← run_kernel build_winner_mask (integer_inputs [("score-zero", scores.1); ("score-one", scores.2)]);
  match value with
  | VRecord _ fields =>
      match fields with
      | [zero; one] => zero ← value_bool zero; one ← value_bool one; Ok (zero, one)
      | _ => Err (Invariant "formal winner output arity")
      end
  | _ => Err (Invariant "formal winner output record")
  end.

End Kernels.

(** ** What the kernels decide *)

Lemma weavy_run_sequential `{Weavy} f ops s : weavy_run f ops s = sequential_run f ops s.
Proof.
  revert s. induction ops as [|l ops IH]; intros s; [apply weavy_run_nil|]. rewrite weavy_run_cons. cbn.
  destruct (f l s) as [s' [u|e|]]; auto.
Qed.

Lemma evaluate_any_weavy `{W : Weavy} p values : evaluate (H := W) p values = evaluate (H := sequential_weavy) p values.
Proof. unfold evaluate. by rewrite !weavy_run_sequential. Qed.

Lemma run_kernel_any_weavy `{W : Weavy} p values : run_kernel (H := W) p values = run_kernel (H := sequential_weavy) p values.
Proof. unfold run_kernel. destruct p; [|done..]. cbn. by rewrite evaluate_any_weavy. Qed.

(** The rules, directly. *)
Definition must_follow (has_lead : bool) (selected lead : Card) : bool := negb has_lead || (suit selected =? suit lead).

Definition beats (lead second trump : Card) : bool :=
  (suit second =? suit trump) && negb (suit lead =? suit trump) || (suit second =? suit lead) && (rank lead <? rank second).

Definition score_of (bid : Bid) (tricks : Z) (round : RoundId) : Z * Z * Z :=
  if bid_get bid =? tricks
  then if tricks =? hand_size round then (2, 20 + bid_get bid, 0) else (1, 10 + bid_get bid, 0)
  else (0, 0, 10).

Section Exact.
Context `{W : Weavy}.

Lemma bid_legal_exact bid round : bid_legal bid round = Ok (legal_for bid round).
Proof using Type.
  unfold bid_legal, evaluate_bool. rewrite run_kernel_any_weavy. by destruct bid, round; vm_compute.
Qed.

Lemma follow_suit_exact has selected lead : follow_suit_legal has selected lead = Ok (must_follow has selected lead).
Proof using Type.
  unfold follow_suit_legal. rewrite run_kernel_any_weavy. by destruct has, selected, lead; vm_compute.
Qed.

Lemma second_card_wins_exact lead second trump : second_card_wins lead second trump = Ok (beats lead second trump).
Proof using Type.
  unfold second_card_wins. rewrite run_kernel_any_weavy. by destruct lead, second, trump; vm_compute.
Qed.

Lemma round_score_exact bid tricks round : 0 ≤ tricks ≤ 2 → round_score bid tricks round = Ok (score_of bid tricks round).
Proof using Type.
  intros Ht. unfold round_score. rewrite run_kernel_any_weavy. assert (tricks = 0 ∨ tricks = 1 ∨ tricks = 2) as [-> |[-> | ->]] by lia;
    by destruct bid, round; vm_compute.
Qed.

Lemma final_round_exact round : final_round round = Ok (bool_decide (round = OneDescending)).
Proof using Type. unfold final_round, evaluate_bool. rewrite run_kernel_any_weavy. by destruct round; vm_compute. Qed.

Lemma winner_mask_table : forallb (λ a, forallb (λ b,
  match winner_mask (H := sequential_weavy) (a, b) with
  | Ok (zero, one) => eqb zero (b <=? a) && eqb one (a <=? b) | _ => false end) (seqZ 0 65)) (seqZ 0 65) = true.
Proof using Type. by vm_compute. Qed.

Lemma winner_mask_exact a b : 0 ≤ a ≤ 64 → 0 ≤ b ≤ 64 → winner_mask (a, b) = Ok (b <=? a, a <=? b).
Proof using Type.
  intros Ha Hb. pose proof winner_mask_table as Ht. rewrite forallb_forall in Ht. specialize (Ht a).
  rewrite <-list_elem_of_In, elem_of_seqZ in Ht. specialize (Ht ltac:(lia)). rewrite forallb_forall in Ht. specialize (Ht b).
  rewrite <-list_elem_of_In, elem_of_seqZ in Ht. specialize (Ht ltac:(lia)).
  unfold winner_mask in *. rewrite run_kernel_any_weavy. destruct (value ← run_kernel _ _; _) as [[zero one]| |]; [|done..].
  apply andb_true_iff in Ht as [->%eqb_prop ->%eqb_prop]. done.
Qed.

(** A memo table that holds evaluations gives evaluations. *)
Definition remembers {K V} (table : list (K * outcome ModelError V)) (evaluate : K → outcome ModelError V) : Prop :=
  ∀ k r, (k, r) ∈ table → r = evaluate k.

Lemma cached_transparent {K V} `{EqDecision K} (evaluate : K → outcome ModelError V) table key : remembers table evaluate →
  (cached_evaluation key (evaluate key) table).2 = evaluate key ∧ remembers (cached_evaluation key (evaluate key) table).1 evaluate.
Proof using Type.
  intros Ht. unfold cached_evaluation. destruct (List.find _ table) as [[k r]|] eqn:Hf; cbn [fst snd].
  - apply List.find_some in Hf as [Hin Hk]. apply bool_decide_eq_true in Hk. cbn in Hk. subst k. split; [|done]. by apply Ht, list_elem_of_In.
  - split; [done|]. intros k r [[= -> ->]|Hin]%elem_of_cons; [done|by apply Ht].
Qed.

(** A count of tricks outside the domain is refused as an input outside its type. *)
Example tricks_outside : round_score BidZero 3 TwoCards =
  Err (FormalError (at_origin (InputOutsideType "tricks") (rule_origin "R-SCORE-001" 311 "compare fixed bid with trick count" KScoring))).
Proof using Type. unfold round_score. rewrite run_kernel_any_weavy. by vm_compute. Qed.
End Exact.

Example catalog_complete : match formal_kernel_catalog with
  | Ok infos => bool_decide (kernel_id <$> infos = [BidLegal; FollowSuitLegal; SecondCardWins; RoundScore; FinalRound; WinnerMask]) &&
      forallb (λ i, 0 <? Z.of_nat (instruction_count i)) infos
  | _ => false end = true.
Proof. by vm_compute. Qed.
