(* ===== verification/ModelState.v ===== *)
(** * The six-card scope: states

    poche-model/src/state.rs: the state of each phase, whose turn it is, what a viewer
    observes and which actions are offered. *)

From stdpp Require Import base strings numbers option list.
From S2P Require Import Prelude Methods Domain Protocol Bytes Formal ModelFinite ModelKernels.

Local Open Scope Z_scope.

Inductive Phase := PhAwaitingDeal | PhBidding | PhPlaying | PhScoring | PhFinished.

Inductive TurnOwner := OwnerChance | OwnerPlayer (player : Player) | OwnerEnvironment | OwnerFinished.

Record Ledger := mkLedger { dealer : Player; round : RoundId; scores : Two Score; pot : Pot }.

Record AwaitingDeal := mkAwaitingDeal { aw_ledger : Ledger }.

Inductive BidProgress := BidFirst | DealerLast (bid : Bid).

Record Bidding := mkBidding
  { bi_ledger : Ledger; bi_hands : Two CardSet; bi_trump : Card; bi_undealt : CardSet; bi_progress : BidProgress }.

Record PlayedCard := mkPlayedCard { played_by : Player; played : Card }.

Inductive TrickProgress := Lead (player : Player) | Follow (lead : PlayedCard).

Record Playing := mkPlaying
  { pl_ledger : Ledger; pl_hands : Two CardSet; pl_trump : Card; pl_undealt : CardSet; pl_bids : Two Bid; pl_trick : TrickProgress;
    pl_captured : Two CardSet; pl_tricks_won : Two Tricks }.

Record Scoring := mkScoring
  { sc_ledger : Ledger; sc_trump : Card; sc_undealt : CardSet; sc_bids : Two Bid; sc_captured : Two CardSet; sc_tricks_won : Two Tricks }.

Record Finished := mkFinished { fi_scores : Two Score; fi_pot : Pot; fi_winners : Two bool }.

Inductive Game :=
  | GAwaitingDeal (state : AwaitingDeal)
  | GBidding (state : Bidding)
  | GPlaying (state : Playing)
  | GScoring (state : Scoring)
  | GFinished (state : Finished).

#[export] Instance Phase_eq_dec : EqDecision Phase.
Proof. solve_decision. Defined.
#[export] Instance TurnOwner_eq_dec : EqDecision TurnOwner.
Proof. solve_decision. Defined.
#[export] Instance Ledger_eq_dec : EqDecision Ledger.
Proof. solve_decision. Defined.
#[export] Instance AwaitingDeal_eq_dec : EqDecision AwaitingDeal.
Proof. solve_decision. Defined.
#[export] Instance BidProgress_eq_dec : EqDecision BidProgress.
Proof. solve_decision. Defined.
#[export] Instance Bidding_eq_dec : EqDecision Bidding.
Proof. solve_decision. Defined.
#[export] Instance PlayedCard_eq_dec : EqDecision PlayedCard.
Proof. solve_decision. Defined.
#[export] Instance TrickProgress_eq_dec : EqDecision TrickProgress.
Proof. solve_decision. Defined.
#[export] Instance Playing_eq_dec : EqDecision Playing.
Proof. solve_decision. Defined.
#[export] Instance Scoring_eq_dec : EqDecision Scoring.
Proof. solve_decision. Defined.
#[export] Instance Finished_eq_dec : EqDecision Finished.
Proof. solve_decision. Defined.
#[export] Instance Game_eq_dec : EqDecision Game.
Proof. solve_decision. Defined.

(** ** Actors and public facts *)

Definition bidding_actor (self : Bidding) : Player :=
  match bi_progress self with BidFirst => left_of (dealer (bi_ledger self)) | DealerLast _ => dealer (bi_ledger self) end.

Definition bids_so_far (self : Bidding) : Two (option Bid) :=
  match bi_progress self with
  | BidFirst => both None
  | DealerLast bid => set_at (both None) (left_of (dealer (bi_ledger self))) (Some bid)
  end.

Definition trick_actor (self : TrickProgress) : Player := match self with Lead player => player | Follow lead => left_of (played_by lead) end.
Definition trick_leader (self : TrickProgress) : Player := match self with Lead player => player | Follow lead => played_by lead end.
Definition trick_lead (self : TrickProgress) : option PlayedCard := match self with Lead _ => None | Follow lead => Some lead end.

Definition playing_actor (self : Playing) : Player := trick_actor (pl_trick self).

Definition some_bids (bids : Two Bid) : Two (option Bid) := (Some bids.1, Some bids.2).

Definition Game_new (first_dealer : Player) : Game :=
  GAwaitingDeal {| aw_ledger := {| dealer := first_dealer; round := OneAscending; scores := both (ScoreOf 0); pot := OPENING |} |}.

Definition game_phase (self : Game) : Phase :=
  match self with
  | GAwaitingDeal _ => PhAwaitingDeal | GBidding _ => PhBidding | GPlaying _ => PhPlaying | GScoring _ => PhScoring | GFinished _ => PhFinished
  end.

Definition turn_owner (self : Game) : TurnOwner :=
  match self with
  | GAwaitingDeal _ => OwnerChance
  | GBidding state => OwnerPlayer (bidding_actor state)
  | GPlaying state => OwnerPlayer (playing_actor state)
  | GScoring _ => OwnerEnvironment
  | GFinished _ => OwnerFinished
  end.

(** ** Observations *)

Record Observation := mkObservation
  { ob_phase : Phase; ob_viewer : Player; ob_dealer : option Player; ob_actor : TurnOwner; ob_round : option RoundId;
    ob_private_hand : CardSet; ob_hand_counts : Two Z; ob_trump : option Card; ob_current_trick : option PlayedCard;
    ob_bids : Two (option Bid); ob_tricks_won : Two Tricks; ob_scores : Two Score; ob_pot : Pot }.

Definition empty_observation (ph : Phase) (viewer : Player) (ledger : option Ledger) (actor : TurnOwner) : Observation :=
  {| ob_phase := ph; ob_viewer := viewer; ob_dealer := dealer <$> ledger; ob_actor := actor; ob_round := round <$> ledger;
     ob_private_hand := EMPTY; ob_hand_counts := both 0; ob_trump := None; ob_current_trick := None; ob_bids := both None;
     ob_tricks_won := both (TricksOf 0);
     ob_scores := match ledger with Some l => scores l | None => both (ScoreOf 0) end;
     ob_pot := match ledger with Some l => pot l | None => OPENING end |}.

Definition hand_counts (hands : Two CardSet) : Two Z := (card_count hands.1, card_count hands.2).

Definition observe (self : Game) (viewer : Player) : Observation :=
  match self with
  | GAwaitingDeal state => empty_observation PhAwaitingDeal viewer (Some (aw_ledger state)) OwnerChance
  | GBidding state =>
      {| ob_phase := PhBidding; ob_viewer := viewer; ob_dealer := Some (dealer (bi_ledger state));
         ob_actor := OwnerPlayer (bidding_actor state); ob_round := Some (round (bi_ledger state));
         ob_private_hand := at_ (bi_hands state) viewer; ob_hand_counts := hand_counts (bi_hands state);
         ob_trump := Some (bi_trump state); ob_current_trick := None; ob_bids := bids_so_far state;
         ob_tricks_won := both (TricksOf 0); ob_scores := scores (bi_ledger state); ob_pot := pot (bi_ledger state) |}
  | GPlaying state =>
      {| ob_phase := PhPlaying; ob_viewer := viewer; ob_dealer := Some (dealer (pl_ledger state));
         ob_actor := OwnerPlayer (playing_actor state); ob_round := Some (round (pl_ledger state));
         ob_private_hand := at_ (pl_hands state) viewer; ob_hand_counts := hand_counts (pl_hands state);
         ob_trump := Some (pl_trump state); ob_current_trick := trick_lead (pl_trick state); ob_bids := some_bids (pl_bids state);
         ob_tricks_won := pl_tricks_won state; ob_scores := scores (pl_ledger state); ob_pot := pot (pl_ledger state) |}
  | GScoring state =>
      {| ob_phase := PhScoring; ob_viewer := viewer; ob_dealer := Some (dealer (sc_ledger state)); ob_actor := OwnerEnvironment;
         ob_round := Some (round (sc_ledger state)); ob_private_hand := EMPTY; ob_hand_counts := both 0;
         ob_trump := Some (sc_trump state); ob_current_trick := None; ob_bids := some_bids (sc_bids state);
         ob_tricks_won := sc_tricks_won state; ob_scores := scores (sc_ledger state); ob_pot := pot (sc_ledger state) |}
  | GFinished state =>
      {| ob_phase := PhFinished; ob_viewer := viewer; ob_dealer := None; ob_actor := OwnerFinished; ob_round := None;
         ob_private_hand := EMPTY; ob_hand_counts := both 0; ob_trump := None; ob_current_trick := None; ob_bids := both None;
         ob_tricks_won := both (TricksOf 0); ob_scores := fi_scores state; ob_pot := fi_pot state |}
  end.

(** ** Actions *)

Inductive PlayerAction := PlaceBid (player : Player) (bid : Bid) | PlayCard (player : Player) (card : Card).

Inductive LegalActions :=
  | LegalChance (deals : list Deal)
  | LegalPlayer (actions : list PlayerAction)
  | LegalEnvironment
  | LegalFinished.

#[export] Instance PlayerAction_eq_dec : EqDecision PlayerAction.
Proof. solve_decision. Defined.

(** [.unwrap_or(false)] *)
Definition or_false {E} (r : outcome E bool) : outcome E bool := match r with Err _ => Ok false | r => r end.

(** [iter().filter(..)] with a closure that may panic *)
Definition filter_with {E A} (f : A → outcome E bool) (l : list A) : outcome E (list A) :=
  filter_mapM (λ x, b ← f x; Ok (if (b : bool) then Some x else None)) l.

Section Legal.
Context `{Formal.Weavy}.

Definition legal_actions (self : Game) : outcome ModelError LegalActions :=
  match self with
  | GAwaitingDeal state => deals ← all_for (round (aw_ledger state)); Ok (LegalChance deals)
  | GBidding state =>
      bids ← filter_with (λ bid, or_false (bid_legal bid (round (bi_ledger state)))) Bid_ALL;
      Ok (LegalPlayer (PlaceBid (bidding_actor state) <$> bids))
  | GPlaying state =>
      let actor := playing_actor state in
      let hand := at_ (pl_hands state) actor in
      cards ← filter_with (λ c,
        match trick_lead (pl_trick state) with
        | None => Ok true
        | Some lead => or_false (follow_suit_legal (contains_suit hand (suit (played lead))) c (played lead))
        end) (cards_of hand);
      Ok (LegalPlayer (PlayCard actor <$> cards))
  | GScoring _ => Ok LegalEnvironment
  | GFinished _ => Ok LegalFinished
  end.

End Legal.

(** ** The size of the state space *)

Record StateSpaceMeasure := mkStateSpaceMeasure { upper_bound : Z; exact : bool }.

Definition state_space_measure : StateSpaceMeasure :=
  let players := 2 in
  let rounds := 3 in
  let all_scores := 65 * 65 in
  let pots := 7 in
  let ledgers := players * rounds * all_scores * pots in
  let card_sets := 64 in
  let cards := 6 in
  let bids := 3 in
  let tricks := 3 in
  let awaiting := ledgers in
  let bidding := ledgers * card_sets ^ 3 * cards * (1 + bids) in
  let playing := ledgers * card_sets ^ 5 * cards * bids ^ 2 * (players + players * cards) * tricks ^ 2 in
  let scoring := ledgers * card_sets ^ 3 * cards * bids ^ 2 * tricks ^ 2 in
  let finished := all_scores * pots * 4 in
  {| upper_bound := awaiting + bidding + playing + scoring + finished; exact := false |}.
