(* ===== verification/ModelSemantics.v ===== *)
(** * The six-card scope: transitions

    poche-model/src/semantics.rs: the transition function of the strict model, its
    validation of states before and after, settlement and the final outcome.  A semantic
    difference holds the projected values where the code holds their derived [Debug]
    texts, which print every field and so differ exactly when the values do. *)

From stdpp Require Import base strings numbers option list.
From S2P Require Import Prelude Methods Domain Protocol Bytes Formal ModelFinite ModelKernels ModelState.

Local Open Scope Z_scope.

Record RuleOrigin := mkRuleOrigin { origin_rule : string; origin_anchor : string }.

Inductive RoundOutcome := Miss | Exact | AllTricks.

Record RoundScoreEvent := mkRoundScoreEvent
  { ev_player : Player; ev_bid : Bid; ev_tricks_won : Z; ev_outcome : RoundOutcome; ev_points : Z; ev_payment_cents : Z }.

Record PotDivision := mkPotDivision { winner_count : Z; cents_per_winner : Z; remainder_cents : Z }.

Record GameOutcome := mkGameOutcome { out_scores : Two Score; out_pot : Pot; out_winners : Two bool; pot_division : PotDivision }.

Inductive ModelAction := ActDeal (deal : Deal) | ActPlayer (action : PlayerAction) | ActSettle | ActAbsorb.

#[export] Instance RoundOutcome_eq_dec : EqDecision RoundOutcome.
Proof. solve_decision. Defined.
#[export] Instance ModelAction_eq_dec : EqDecision ModelAction.
Proof. solve_decision. Defined.

(** A projected value of a state *)
Inductive DiffValue :=
  | DPhase (p : Phase)
  | DRound (r : option RoundId)
  | DDealer (d : option Player)
  | DActor (t : TurnOwner)
  | DHands (h : option (Two CardSet))
  | DTrump (c : option Card)
  | DUndealt (s : option CardSet)
  | DBids (b : option (Two (option Bid)))
  | DTrick (c : option PlayedCard)
  | DCaptured (s : option (Two CardSet))
  | DTricks (t : option (Two Tricks))
  | DScores (s : Two Score)
  | DPot (p : Pot).

#[export] Instance DiffValue_eq_dec : EqDecision DiffValue.
Proof. solve_decision. Defined.

Record SemanticDiff := mkSemanticDiff { path : string; before : DiffValue; after : DiffValue; diff_origins : list RuleOrigin }.

Record Transition := mkTransition
  { action : ModelAction; next : Game; round_scores : option (Two RoundScoreEvent); game_outcome : option GameOutcome;
    origins : list RuleOrigin; diffs : list SemanticDiff }.

(** ** Projections and differences *)

Definition ledger_of (game : Game) : option Ledger :=
  match game with
  | GAwaitingDeal s => Some (aw_ledger s) | GBidding s => Some (bi_ledger s) | GPlaying s => Some (pl_ledger s)
  | GScoring s => Some (sc_ledger s) | GFinished _ => None
  end.

Definition round_of (game : Game) : option RoundId := round <$> ledger_of game.
Definition dealer_of (game : Game) : option Player := dealer <$> ledger_of game.

Definition hands_of (game : Game) : option (Two CardSet) :=
  match game with GBidding s => Some (bi_hands s) | GPlaying s => Some (pl_hands s) | _ => None end.

Definition trump_of (game : Game) : option Card :=
  match game with GBidding s => Some (bi_trump s) | GPlaying s => Some (pl_trump s) | GScoring s => Some (sc_trump s) | _ => None end.

Definition undealt_of (game : Game) : option CardSet :=
  match game with GBidding s => Some (bi_undealt s) | GPlaying s => Some (pl_undealt s) | GScoring s => Some (sc_undealt s) | _ => None end.

Definition bids_of (game : Game) : option (Two (option Bid)) :=
  match game with
  | GBidding s => Some (bids_so_far s) | GPlaying s => Some (some_bids (pl_bids s)) | GScoring s => Some (some_bids (sc_bids s))
  | _ => None
  end.

Definition trick_of (game : Game) : option PlayedCard := match game with GPlaying s => trick_lead (pl_trick s) | _ => None end.

Definition captured_of (game : Game) : option (Two CardSet) :=
  match game with GPlaying s => Some (pl_captured s) | GScoring s => Some (sc_captured s) | _ => None end.

Definition tricks_of (game : Game) : option (Two Tricks) :=
  match game with GPlaying s => Some (pl_tricks_won s) | GScoring s => Some (sc_tricks_won s) | _ => None end.

Definition scores_of (game : Game) : Two Score :=
  match game with
  | GAwaitingDeal s => scores (aw_ledger s) | GBidding s => scores (bi_ledger s) | GPlaying s => scores (pl_ledger s)
  | GScoring s => scores (sc_ledger s) | GFinished s => fi_scores s
  end.

Definition pot_of (game : Game) : Pot :=
  match game with
  | GAwaitingDeal s => pot (aw_ledger s) | GBidding s => pot (bi_ledger s) | GPlaying s => pot (pl_ledger s)
  | GScoring s => pot (sc_ledger s) | GFinished s => fi_pot s
  end.

Definition project (p : string) (game : Game) : option DiffValue :=
  if bool_decide (p = "phase") then Some (DPhase (game_phase game))
  else if bool_decide (p = "round") then Some (DRound (round_of game))
  else if bool_decide (p = "dealer") then Some (DDealer (dealer_of game))
  else if bool_decide (p = "actor") then Some (DActor (turn_owner game))
  else if bool_decide (p = "hands") then Some (DHands (hands_of game))
  else if bool_decide (p = "trump") then Some (DTrump (trump_of game))
  else if bool_decide (p = "undealt") then Some (DUndealt (undealt_of game))
  else if bool_decide (p = "bids") then Some (DBids (bids_of game))
  else if bool_decide (p = "current-trick") then Some (DTrick (trick_of game))
  else if bool_decide (p = "captured") then Some (DCaptured (captured_of game))
  else if bool_decide (p = "tricks-won") then Some (DTricks (tricks_of game))
  else if bool_decide (p = "scores") then Some (DScores (scores_of game))
  else if bool_decide (p = "pot") then Some (DPot (pot_of game))
  else None.

Definition semantic_diff (p : string) (g g' : Game) (origins : list RuleOrigin) : option SemanticDiff :=
  b ← project p g;
  a ← project p g';
  if bool_decide (b ≠ a) then Some {| path := p; before := b; after := a; diff_origins := origins |} else None.

Definition build_transition (g : Game) (a : ModelAction) (g' : Game) (outcome : option GameOutcome) (origins : list RuleOrigin)
    (paths : list string) : Transition :=
  {| action := a; next := g'; round_scores := None; game_outcome := outcome; origins := origins;
     diffs := omap (λ p, semantic_diff p g g' origins) paths |}.

(** ** Provenance *)

Definition deal_origins : list RuleOrigin :=
  [mkRuleOrigin "R-DEAL-001" "docs/main.typ:261-265"; mkRuleOrigin "R-DEAL-002" "docs/main.typ:265,417-431";
   mkRuleOrigin "R-DEAL-003" "docs/main.typ:267-269"; mkRuleOrigin "R-DEAL-004" "docs/main.typ:270"].

Definition bid_origins : list RuleOrigin :=
  [mkRuleOrigin "R-BID-001" "docs/main.typ:273-280"; mkRuleOrigin "R-BID-002" "docs/main.typ:275-277";
   mkRuleOrigin "R-BID-003" "docs/main.typ:278"; mkRuleOrigin "R-BID-004" "docs/main.typ:279";
   mkRuleOrigin "R-BID-005" "docs/main.typ:280"].

Definition play_origins : list RuleOrigin :=
  [mkRuleOrigin "R-TRICK-001" "docs/main.typ:282-284"; mkRuleOrigin "R-TRICK-002" "docs/main.typ:286-288";
   mkRuleOrigin "R-TRICK-003" "docs/main.typ:288"; mkRuleOrigin "R-TRICK-004" "docs/main.typ:290";
   mkRuleOrigin "R-TRICK-005" "docs/main.typ:292-294"; mkRuleOrigin "R-TRICK-006" "docs/main.typ:294";
   mkRuleOrigin "R-TRICK-007" "docs/main.typ:296-302"; mkRuleOrigin "R-TRICK-008" "docs/main.typ:296-302";
   mkRuleOrigin "R-TRICK-009" "docs/main.typ:300"; mkRuleOrigin "R-TRICK-010" "docs/main.typ:301";
   mkRuleOrigin "R-TRICK-011" "docs/main.typ:302"; mkRuleOrigin "R-TRICK-012" "docs/main.typ:304"].

Definition score_origins : list RuleOrigin :=
  [mkRuleOrigin "R-SCORE-001" "docs/main.typ:311-313"; mkRuleOrigin "R-SCORE-002" "docs/main.typ:317-323";
   mkRuleOrigin "R-SCORE-003" "docs/main.typ:317-323"; mkRuleOrigin "R-SCORE-004" "docs/main.typ:317-323";
   mkRuleOrigin "R-SCORE-005" "docs/main.typ:323"; mkRuleOrigin "R-MONEY-001" "docs/main.typ:350-353";
   mkRuleOrigin "R-MONEY-002" "docs/main.typ:354"; mkRuleOrigin "R-ADVANCE-001" "docs/main.typ:357-363";
   mkRuleOrigin "R-ADVANCE-002" "docs/main.typ:362"; mkRuleOrigin "R-ADVANCE-003" "docs/main.typ:363";
   mkRuleOrigin "R-FINISH-001" "docs/main.typ:365-368"; mkRuleOrigin "R-FINISH-002" "docs/main.typ:368";
   mkRuleOrigin "R-FINISH-003" "docs/main.typ:369"; mkRuleOrigin "R-FINISH-004" "docs/main.typ:370"].

Definition finished_origins : list RuleOrigin :=
  [mkRuleOrigin "R-GAME-003" "docs/main.typ:46-52"; mkRuleOrigin "R-FINISH-001" "docs/main.typ:365-368"].

(** ** Validation *)

(** The zones are united one by one: a card in two of them is refused, and the union must be the deck. *)
Definition validate_partition (hands : Two CardSet) (trump : Card) (undealt : CardSet) (current : option Card)
    (captured : list CardSet) : outcome ModelError unit :=
  current ← match current with Some c => s ← with_card EMPTY c; Ok [s] | None => Ok [] end;
  trump ← with_card EMPTY trump;
  all ← foldM union_set ([hands.1; hands.2; undealt] ++ captured ++ current ++ [trump]) EMPTY;
  if card_count all =? 6 then Ok tt else Err IncompletePartition.

(** [iter().sum()] of [u8]s *)
Definition u8_sum {E} (l : list Z) : outcome E Z := foldM (λ a x, u_add 8 a x) l 0.

Definition owns_captured (captured : Two CardSet) (tricks : Two Tricks) (name : string) : outcome ModelError unit :=
  foldM (λ _ player,
    twice ← u_mul 8 2 (tricks_get (at_ tricks player));
    if negb (card_count (at_ captured player) =? twice) then Err (Invariant name) else Ok tt) Player_ALL tt.

Definition bids_in_bounds (bids : Two Bid) (r : RoundId) : outcome ModelError unit :=
  foldM (λ _ bid, if negb (legal_for bid r) then Err (Invariant "fixed bid bounds") else Ok tt) (items bids) tt.

Section Semantics.
Context `{Formal.Weavy}.

Definition validate (self : Game) : outcome ModelError unit :=
  match self with
  | GAwaitingDeal _ => Ok tt
  | GBidding state =>
      let size := hand_size (round (bi_ledger state)) in
      if existsb (λ hand, negb (card_count hand =? size)) (items (bi_hands state)) || negb (card_count (bi_undealt state) =? 5 - 2 * size)
      then Err (Invariant "bidding zone cardinalities")
      else validate_partition (bi_hands state) (bi_trump state) (bi_undealt state) None []
  | GPlaying state =>
      _ ← bids_in_bounds (pl_bids state) (round (pl_ledger state));
      let lead := played <$> trick_lead (pl_trick state) in
      _ ← validate_partition (pl_hands state) (pl_trump state) (pl_undealt state) lead (items (pl_captured state));
      completed ← u8_sum (tricks_get <$> items (pl_tricks_won state));
      captured ← u8_sum (card_count <$> items (pl_captured state));
      let current := if decide (is_Some lead) then 1 else 0 in
      remaining ← u8_sum (card_count <$> items (pl_hands state));
      twice ← u_mul 8 2 completed;
      total ← u8_sum [remaining; current; captured];
      if negb (captured =? twice) || negb (total =? 2 * hand_size (round (pl_ledger state)))
      then Err (Invariant "trick/card-count conservation")
      else owns_captured (pl_captured state) (pl_tricks_won state) "captured pile ownership"
  | GScoring state =>
      _ ← bids_in_bounds (sc_bids state) (round (sc_ledger state));
      _ ← validate_partition (both EMPTY) (sc_trump state) (sc_undealt state) None (items (sc_captured state));
      completed ← u8_sum (tricks_get <$> items (sc_tricks_won state));
      if negb (completed =? hand_size (round (sc_ledger state))) then Err (Invariant "round trick count")
      else owns_captured (sc_captured state) (sc_tricks_won state) "scoring captured pile ownership"
  | GFinished state =>
      expected ← winner_mask (score_get (fi_scores state).1, score_get (fi_scores state).2);
      if bool_decide (expected = fi_winners state) then Ok tt else Err (Invariant "final maximum-score winner mask")
  end.

(** ** Outcomes *)

(** [outcome]: dividing by no winner panics *)
Definition final_outcome {E} (state : Finished) : outcome E GameOutcome :=
  let count := Z.of_nat (length (List.filter id (items (fi_winners state)))) in
  if count =? 0 then Panic
  else Ok {| out_scores := fi_scores state; out_pot := fi_pot state; out_winners := fi_winners state;
             pot_division := {| winner_count := count; cents_per_winner := cents (fi_pot state) / count;
                                remainder_cents := cents (fi_pot state) mod count |} |}.

Definition terminal_outcome {E} (self : Game) : outcome E (option GameOutcome) :=
  match self with GFinished state => o ← final_outcome state; Ok (Some o) | _ => Ok None end.

(** ** Settlement *)

Definition score_player (state : Scoring) (acc : Two Score * Pot * list RoundScoreEvent) (player : Player)
    : outcome ModelError (Two Score * Pot * list RoundScoreEvent) :=
  let '(sc, p, events) := acc in
  let bid := at_ (sc_bids state) player in
  let tricks := tricks_get (at_ (sc_tricks_won state) player) in
  '(outcome, points, payment_cents) ← round_score bid tricks (round (sc_ledger state));
  outcome ← ok_or (match outcome with 0 => Some Miss | 1 => Some Exact | 2 => Some AllTricks | _ => None end)
    (Invariant "round score outcome ordinal");
  score ← score_add (at_ sc player) points;
  p ← (if payment_cents =? 0 then Ok p
       else if negb (payment_cents =? 10) then Err (Invariant "missed-payment amount")
       else add_miss p);
  Ok (set_at sc player score, p,
      events ++ [{| ev_player := player; ev_bid := bid; ev_tricks_won := tricks; ev_outcome := outcome; ev_points := points;
                    ev_payment_cents := payment_cents |}]).

(** [events] is filled at both indices, so the array is the two events in order. *)
Definition settle (g : Game) (a : ModelAction) (state : Scoring) : outcome ModelError Transition :=
  '(sc, p, events) ← foldM (score_player state) Player_ALL (scores (sc_ledger state), pot (sc_ledger state), []);
  events ← expect (match events with [e0; e1] => Some (e0, e1) | _ => None end);
  last ← final_round (round (sc_ledger state));
  g' ← (if (last : bool)
        then
          winners ← winner_mask (score_get sc.1, score_get sc.2);
          Ok (GFinished {| fi_scores := sc; fi_pot := p; fi_winners := winners |})
        else
          r ← ok_or (next_round (round (sc_ledger state))) (Invariant "nonfinal round has successor");
          Ok (GAwaitingDeal {| aw_ledger := {| dealer := left_of (dealer (sc_ledger state)); round := r; scores := sc; pot := p |} |}));
  outcome ← terminal_outcome g';
  let t := build_transition g a g' outcome score_origins ["phase"; "round"; "dealer"; "scores"; "pot"] in
  Ok {| action := action t; next := next t; round_scores := Some events; game_outcome := game_outcome t; origins := origins t; diffs := diffs t |}.

Definition ensure_actor (expected actual : Player) : outcome ModelError unit :=
  if bool_decide (expected = actual) then Ok tt else Err (WrongActor expected actual).

(** ** Transitions *)

Definition deal_next (state : AwaitingDeal) (deal : Deal) : outcome ModelError Game :=
  _ ← validate_round deal (round (aw_ledger state));
  Ok (GBidding {| bi_ledger := aw_ledger state; bi_hands := deal_hands deal; bi_trump := deal_trump deal;
                  bi_undealt := deal_undealt deal; bi_progress := BidFirst |}).

Definition bid_next (state : Bidding) (player : Player) (bid : Bid) : outcome ModelError Game :=
  _ ← ensure_actor (bidding_actor state) player;
  legal ← bid_legal bid (round (bi_ledger state));
  if negb legal then Err (BidExceedsHand bid (hand_size (round (bi_ledger state))))
  else
    Ok (match bi_progress state with
        | BidFirst =>
            GBidding {| bi_ledger := bi_ledger state; bi_hands := bi_hands state; bi_trump := bi_trump state;
                        bi_undealt := bi_undealt state; bi_progress := DealerLast bid |}
        | DealerLast first_bid =>
            let first := left_of (dealer (bi_ledger state)) in
            GPlaying {| pl_ledger := bi_ledger state; pl_hands := bi_hands state; pl_trump := bi_trump state;
                        pl_undealt := bi_undealt state;
                        pl_bids := set_at (set_at (both BidZero) first first_bid) (dealer (bi_ledger state)) bid;
                        pl_trick := Lead first; pl_captured := both EMPTY; pl_tricks_won := both (TricksOf 0) |}
        end).

Definition play_next (state : Playing) (player : Player) (card : Card) : outcome ModelError Game :=
  _ ← ensure_actor (playing_actor state) player;
  let hand := at_ (pl_hands state) player in
  if negb (holds hand card) then Err (CardAbsent card)
  else
    _ ← match trick_lead (pl_trick state) with
        | None => Ok tt
        | Some lead =>
            let has_lead := contains_suit hand (suit (played lead)) in
            legal ← follow_suit_legal has_lead card (played lead);
            if negb legal then Err (MustFollowSuit (suit (played lead))) else Ok tt
        end;
    rest ← without hand card;
    let hands := set_at (pl_hands state) player rest in
    match pl_trick state with
    | Lead _ =>
        Ok (GPlaying {| pl_ledger := pl_ledger state; pl_hands := hands; pl_trump := pl_trump state; pl_undealt := pl_undealt state;
                        pl_bids := pl_bids state; pl_trick := Follow {| played_by := player; played := card |};
                        pl_captured := pl_captured state; pl_tricks_won := pl_tricks_won state |})
    | Follow lead =>
        second_wins ← second_card_wins (played lead) card (pl_trump state);
        let winner := if (second_wins : bool) then player else played_by lead in
        pile ← with_card (at_ (pl_captured state) winner) (played lead);
        pile ← with_card pile card;
        let captured := set_at (pl_captured state) winner pile in
        won ← increment (at_ (pl_tricks_won state) winner);
        let tricks_won := set_at (pl_tricks_won state) winner won in
        if forallb is_empty (items hands)
        then Ok (GScoring {| sc_ledger := pl_ledger state; sc_trump := pl_trump state; sc_undealt := pl_undealt state;
                             sc_bids := pl_bids state; sc_captured := captured; sc_tricks_won := tricks_won |})
        else Ok (GPlaying {| pl_ledger := pl_ledger state; pl_hands := hands; pl_trump := pl_trump state; pl_undealt := pl_undealt state;
                             pl_bids := pl_bids state; pl_trick := Lead winner; pl_captured := captured; pl_tricks_won := tricks_won |})
    end.

Definition transition (self : Game) (a : ModelAction) : outcome ModelError Transition :=
  _ ← validate self;
  t ← match self, a with
      | GAwaitingDeal state, ActDeal deal =>
          g' ← deal_next state deal;
          Ok (build_transition self a g' None deal_origins ["phase"; "hands"; "trump"; "undealt"])
      | GBidding state, ActPlayer (PlaceBid player bid) =>
          g' ← bid_next state player bid;
          Ok (build_transition self a g' None bid_origins ["phase"; "bids"; "actor"])
      | GPlaying state, ActPlayer (PlayCard player card) =>
          g' ← play_next state player card;
          Ok (build_transition self a g' None play_origins ["phase"; "hands"; "current-trick"; "captured"; "tricks-won"])
      | GScoring state, ActSettle => settle self a state
      | GFinished state, ActAbsorb =>
          outcome ← final_outcome state;
          Ok (build_transition self a self (Some outcome) finished_origins [])
      | _, _ => Err WrongPhase
      end;
  _ ← validate (next t);
  if negb (bool_decide (game_phase self = PhFinished)) && bool_decide (next t = self)
  then Err (Invariant "nonterminal no-stuttering") else Ok t.

End Semantics.
