(* ===== verification/ModelDeals.v ===== *)
(** * The six-card scope: laws of the values

    Card sets as the sets of the cards they hold, the zones that partition the deck, the
    enumeration of deals and the codes of every value. *)

From Stdlib Require Import ZifyBool.
From stdpp Require Import base strings numbers option list.
From S2P Require Import Prelude Domain DomainLaws Formal ModelFinite.

Local Open Scope Z_scope.

(** ** Card sets *)

Definition set_ok (s : CardSet) : bool := (0 <=? bits s) && (bits s <? 64).

Definition all_sets : list CardSet := CardSetOf <$> seqZ 0 64.

Lemma set_ok_all s : set_ok s = true ↔ s ∈ all_sets.
Proof.
  destruct s as [b]. unfold set_ok, all_sets. rewrite list_elem_of_fmap. setoid_rewrite elem_of_seqZ. cbn [bits]. split.
  - intros Hb. exists b. split; [done|]. lia.
  - intros (b' & [= ->] & Hb'). lia.
Qed.

Lemma card_all c : c ∈ Card_ALL.
Proof. destruct c; by apply (bool_decide_eq_true_1 (_ ∈ _)); vm_compute. Qed.

(** A decidable fact of every card set, card or pair of them is checked once and for all. *)
Lemma forall_sets (P : CardSet → bool) : forallb P all_sets = true → ∀ s, set_ok s = true → P s = true.
Proof. intros HP s Hs%set_ok_all. rewrite forallb_forall in HP. by apply HP, list_elem_of_In. Qed.

Lemma forall_cards (P : Card → bool) : forallb P Card_ALL = true → ∀ c, P c = true.
Proof. intros HP c. rewrite forallb_forall in HP. apply HP, list_elem_of_In, card_all. Qed.

Lemma sets_cards (P : CardSet → Card → bool) : forallb (λ s, forallb (P s) Card_ALL) all_sets = true →
  ∀ s c, set_ok s = true → P s c = true.
Proof. intros HP s c Hs. apply forall_cards. by apply (forall_sets (λ s, forallb (P s) Card_ALL)). Qed.

Lemma sets_cards2 (P : CardSet → Card → Card → bool) : forallb (λ s, forallb (λ c, forallb (P s c) Card_ALL) Card_ALL) all_sets = true →
  ∀ s c d, set_ok s = true → P s c d = true.
Proof. intros HP s c d Hs. apply forall_cards. by apply (sets_cards (λ s c, forallb (P s c) Card_ALL)). Qed.

Lemma sets2 (P : CardSet → CardSet → bool) : forallb (λ s, forallb (P s) all_sets) all_sets = true →
  ∀ s t, set_ok s = true → set_ok t = true → P s t = true.
Proof. intros HP s t Hs Ht. apply forall_sets; [|done]. by apply (forall_sets (λ s, forallb (P s) all_sets)). Qed.

Lemma holds_EMPTY c : holds EMPTY c = false.
Proof. by destruct c. Qed.

Lemma insert_ok s c : set_ok s = true → set_ok (insert_card s c) = true.
Proof. apply (sets_cards (λ s c, set_ok (insert_card s c))). by vm_compute. Qed.

Lemma holds_insert s c d : set_ok s = true → holds (insert_card s c) d = bool_decide (d = c) || holds s d.
Proof.
  intros Hs. apply eqb_prop. revert s c d Hs.
  apply (sets_cards2 (λ s c d, eqb (holds (insert_card s c) d) (bool_decide (d = c) || holds s d))). by vm_compute.
Qed.

(** How often a set holds a card, as a number. *)
Definition occ (c : Card) (s : CardSet) : Z := if holds s c then 1 else 0.

Definition size_of (s : CardSet) : Z := occ S0R0 s + occ S0R1 s + occ S0R2 s + occ S1R0 s + occ S1R1 s + occ S1R2 s.

Lemma card_count_occ s : set_ok s = true → card_count s = size_of s.
Proof. intros Hs. apply Z.eqb_eq. revert s Hs. apply (forall_sets (λ s, card_count s =? size_of s)). by vm_compute. Qed.

Lemma set_ext s t : set_ok s = true → set_ok t = true → (∀ c, holds s c = holds t c) → s = t.
Proof.
  intros Hs Ht Hst. apply (bool_decide_eq_true_1 (s = t)).
  pose proof (sets2 (λ s t, implb (forallb (λ c, eqb (holds s c) (holds t c)) Card_ALL) (bool_decide (s = t))) ltac:(by vm_compute) s t Hs Ht) as H.
  assert (forallb (λ c, eqb (holds s c) (holds t c)) Card_ALL = true) as Hf.
  { apply forallb_forall. intros c _. rewrite Hst. apply eqb_reflx. }
  cbn beta in H. by rewrite Hf in H.
Qed.

Lemma occ_insert c d s : set_ok s = true → holds s c = false → occ d (insert_card s c) = occ d s + occ d (insert_card EMPTY c).
Proof.
  intros Hs Hc. unfold occ. rewrite !holds_insert, holds_EMPTY by done. destruct (bool_decide_reflect (d = c)) as [->|Hd]; cbn; [by rewrite Hc|].
  by destruct (holds s d).
Qed.

Lemma with_card_spec s c r : set_ok s = true → with_card s c = Ok r ↔ holds s c = false ∧ r = insert_card s c.
Proof. intros Hs. unfold with_card. destruct (holds s c); naive_solver. Qed.

Lemma without_spec s c : set_ok s = true → holds s c = true → ∃ r, without s c = Ok r ∧ set_ok r = true ∧ ∀ d, occ d s = occ d r + occ d (insert_card EMPTY c).
Proof.
  intros Hs Hc. unfold without. rewrite Hc. cbn [negb]. eexists. split; [done|].
  set (r := CardSetOf _). assert (set_ok r = true ∧ ∀ d, holds r d = holds s d && negb (bool_decide (d = c))) as [Hr Hd].
  { unfold r. clear r. split.
    - revert s c Hs Hc. cut (∀ s c, set_ok s = true → set_ok (CardSetOf (Z.land (bits s) (Z.lxor 255 (bit_of c)))) = true); [by eauto|].
      apply (sets_cards (λ s c, set_ok (CardSetOf (Z.land (bits s) (Z.lxor 255 (bit_of c)))))). by vm_compute.
    - intros d. apply eqb_prop. clear Hc. revert s c d Hs.
      apply (sets_cards2 (λ s c d, eqb (holds (CardSetOf (Z.land (bits s) (Z.lxor 255 (bit_of c)))) d) (holds s d && negb (bool_decide (d = c))))).
      by vm_compute. }
  split; [done|]. intros d. unfold occ. rewrite Hd, holds_insert, holds_EMPTY by done.
  destruct (bool_decide_reflect (d = c)) as [->|Hn]; [by rewrite Hc|]. by destruct (holds s d).
Qed.

Lemma union_spec s t : set_ok s = true → set_ok t = true →
  if forallb (λ c, negb (holds s c && holds t c)) Card_ALL
  then ∃ u, union_set s t = Ok u ∧ set_ok u = true ∧ ∀ c, occ c u = occ c s + occ c t
  else ∃ e, union_set s t = Err e.
Proof.
  intros Hs Ht.
  pose proof (sets2 (λ s t, eqb (Z.land (bits s) (bits t) =? 0) (forallb (λ c, negb (holds s c && holds t c)) Card_ALL)) ltac:(by vm_compute) s t Hs Ht) as H.
  cbn beta in H. apply eqb_prop in H. unfold union_set. rewrite H. destruct (forallb _ Card_ALL) eqn:Hf; [|by eexists].
  eexists. split; [done|]. split.
  - exact (sets2 (λ s t, set_ok (CardSetOf (Z.lor (bits s) (bits t)))) ltac:(by vm_compute) s t Hs Ht).
  - intros c. pose proof (sets2 (λ s t, forallb (λ c, eqb (holds (CardSetOf (Z.lor (bits s) (bits t))) c) (holds s c || holds t c)) Card_ALL) ltac:(by vm_compute) s t Hs Ht) as Hu.
    cbn beta in Hu. pose proof (forall_cards _ Hu c) as Hc. cbn beta in Hc. apply eqb_prop in Hc. pose proof (forall_cards _ Hf c) as Hd. cbn beta in Hd.
    unfold occ. rewrite Hc. by destruct (holds s c), (holds t c).
Qed.

Lemma occ_bounds c s : 0 ≤ occ c s ≤ 1.
Proof. unfold occ. destruct (holds s c); lia. Qed.

Lemma occ_EMPTY c : occ c EMPTY = 0.
Proof. unfold occ. by rewrite holds_EMPTY. Qed.

Lemma occ_one c d : occ d (insert_card EMPTY c) = if bool_decide (d = c) then 1 else 0.
Proof. unfold occ. rewrite holds_insert, holds_EMPTY, orb_false_r by done. done. Qed.

Lemma elem_of_cards_of c s : c ∈ cards_of s ↔ holds s c = true.
Proof. unfold cards_of. rewrite list_elem_of_In, filter_In, <-list_elem_of_In. pose proof (card_all c). naive_solver. Qed.

Lemma is_empty_occ s : set_ok s = true → is_empty s = (card_count s =? 0).
Proof. intros Hs. apply eqb_prop. revert s Hs. apply (forall_sets (λ s, eqb (is_empty s) (card_count s =? 0))). by vm_compute. Qed.

(** ** Zones *)

(** How many of the zones hold a card. *)
Definition zone_occ (c : Card) (zs : list CardSet) : Z := foldr (λ z n, occ c z + n) 0 zs.

Lemma zone_occ_cons c z zs : zone_occ c (z :: zs) = occ c z + zone_occ c zs.
Proof. done. Qed.

Lemma zone_occ_app c zs zs' : zone_occ c (zs ++ zs') = zone_occ c zs + zone_occ c zs'.
Proof. induction zs as [|z zs IH]; [done|]. cbn [app]. rewrite !zone_occ_cons, IH. lia. Qed.

Lemma zone_occ_nonneg c zs : 0 ≤ zone_occ c zs.
Proof. induction zs as [|z zs IH]; [done|]. rewrite zone_occ_cons. pose proof (occ_bounds c z). lia. Qed.

Lemma unite_zones zs acc : set_ok acc = true → Forall (λ z, set_ok z = true) zs →
  (∃ u, foldM union_set zs acc = Ok u ∧ set_ok u = true ∧ ∀ c, occ c u = occ c acc + zone_occ c zs) ∨
  (∃ e, foldM union_set zs acc = Err e) ∧ ∃ c, 1 < occ c acc + zone_occ c zs.
Proof.
  intros Hacc Hzs. revert acc Hacc. induction Hzs as [|z zs Hz _ IH]; intros acc Hacc; cbn [foldM].
  { left. exists acc. split_and!; [done..|]. intros c. cbn. lia. }
  setoid_rewrite zone_occ_cons.
  pose proof (union_spec acc z Hacc Hz) as Hu. destruct (forallb _ Card_ALL) eqn:Hf.
  - destruct Hu as (u & -> & Hok & Hocc). cbn [mbind outcome_bind]. destruct (IH u Hok) as [(w & Hw & Hwok & Hwocc)|[[e He] [c Hc]]].
    + left. exists w. split_and!; [done..|]. intros c. rewrite Hwocc, Hocc. lia.
    + right. split; [by exists e|]. exists c. rewrite Hocc in Hc. lia.
  - destruct Hu as [e ->]. right. split; [by exists e|].
    assert (∃ c, holds acc c = true ∧ holds z c = true) as (c & Ha & Hc).
    { clear -Hf. induction Card_ALL as [|c l IHl]; [done|]. cbn [forallb] in Hf. destruct (holds acc c) eqn:Ha, (holds z c) eqn:Hc; [by exists c|by apply IHl..]. }
    exists c. pose proof (zone_occ_nonneg c zs) as Hn. unfold occ. rewrite Ha, Hc. lia.
Qed.

Lemma full_set u : set_ok u = true → card_count u = 6 ↔ ∀ c, occ c u = 1.
Proof.
  intros Hu. rewrite card_count_occ by done. unfold size_of. split.
  - intros Hs c. pose proof (occ_bounds S0R0 u). pose proof (occ_bounds S0R1 u). pose proof (occ_bounds S0R2 u).
    pose proof (occ_bounds S1R0 u). pose proof (occ_bounds S1R1 u). pose proof (occ_bounds S1R2 u). destruct c; lia.
  - intros Hc. by rewrite !Hc.
Qed.

(** The zones make the deck exactly when each card is in one of them. *)
Lemma unite_deck zs : Forall (λ z, set_ok z = true) zs →
  (∃ u, foldM union_set zs EMPTY = Ok u ∧ card_count u = 6) ↔ ∀ c, zone_occ c zs = 1.
Proof.
  intros Hzs. destruct (unite_zones zs EMPTY eq_refl Hzs) as [(u & Hu & Hok & Hocc)|[[e He] [c Hc]]].
  - rewrite Hu. setoid_rewrite occ_EMPTY in Hocc. split.
    + intros (u' & [= <-] & H6) c. pose proof (proj1 (full_set u Hok) H6 c) as H7. rewrite Hocc in H7. lia.
    + intros Hz. exists u. split; [done|]. apply full_set; [done|]. intros c. rewrite Hocc, Hz. done.
  - split; [intros (u & Hu & _); congruence|]. intros Hz. rewrite occ_EMPTY, Hz in Hc. lia.
Qed.

(** The sizes of zones that make the deck add up to six. *)
Lemma deck_size zs : Forall (λ z, set_ok z = true) zs → (∀ c, zone_occ c zs = 1) → foldr (λ z n, card_count z + n) 0 zs = 6.
Proof.
  intros Hzs Hz. cut (foldr (λ z n, card_count z + n) 0 zs =
    zone_occ S0R0 zs + zone_occ S0R1 zs + zone_occ S0R2 zs + zone_occ S1R0 zs + zone_occ S1R1 zs + zone_occ S1R2 zs); [by rewrite !Hz|].
  clear Hz. induction Hzs as [|z zs Hok _ IH]; [done|]. cbn [foldr]. rewrite IH, !zone_occ_cons, card_count_occ by done. unfold size_of. lia.
Qed.

(** ** Deals and codes
    The enumerations of deals list exactly the deals the constructors make, and every
    value of the scope has a dense code. *)

(** ** Deals the constructors make *)

Definition one_ok (d : OneCardDeal) : bool :=
  set_ok (one_undealt d) && is_ok (OneCardDeal_new (one_hands d) (one_trump d) (one_undealt d)).

Definition two_ok (d : TwoCardDeal) : bool :=
  set_ok (two_hands d).1 && set_ok (two_hands d).2 && set_ok (two_undealt d) &&
  is_ok (TwoCardDeal_new (two_hands d) (two_trump d) (two_undealt d)).

Definition deal_ok (d : Deal) : bool := match d with DealOne d => one_ok d | DealTwo d => two_ok d end.

Lemma one_deals_complete d : one_ok d = true → d ∈ OneCardDeal_all.
Proof.
  destruct d as [[h0 h1] t u]. intros Hd. apply (bool_decide_eq_true_1 (_ ∈ _)).
  assert (set_ok u = true) as Hu by (unfold one_ok in Hd; cbn [one_undealt] in Hd; by destruct (set_ok u)).
  pose proof (forall_sets (λ u, forallb (λ h0, forallb (λ h1, forallb (λ t,
    implb (one_ok (OneCardDealOf (h0, h1) t u)) (bool_decide (OneCardDealOf (h0, h1) t u ∈ OneCardDeal_all))) Card_ALL) Card_ALL) Card_ALL)
    ltac:(by vm_compute) u Hu) as H. cbn beta in H.
  pose proof (forall_cards _ (forall_cards _ (forall_cards _ H h0) h1) t) as Ht. cbn beta in Ht. by rewrite Hd in Ht.
Qed.

Lemma one_deals_sound d : d ∈ OneCardDeal_all → one_ok d = true.
Proof.
  intros Hd. assert (forallb one_ok OneCardDeal_all = true) as H by by vm_compute.
  rewrite forallb_forall in H. by apply H, list_elem_of_In.
Qed.

Lemma one_deals_distinct : NoDup OneCardDeal_all.
Proof. apply (bool_decide_eq_true_1 (NoDup OneCardDeal_all)). by vm_compute. Qed.

(** *** Two-card deals and partitions *)

Definition result_or {E A} (d : A) (m : outcome E A) : A := match m with Ok a => a | _ => d end.

Definition partitions : list MicroPartition := result_or [] raw_partitions.

Lemma partitions_spec : raw_partitions = Ok partitions ∧ NoDup partitions ∧ length partitions = 180%nat ∧
  ∀ p, p ∈ partitions ↔ MicroPartition_valid p.
Proof. unfold partitions. destruct raw_partitions_spec as (ps & -> & H). split; [reflexivity|exact H]. Qed.

Lemma deal_of_partition p : MicroPartition_valid p → ∃ d, (∀ E, from_partition (E := E) p = Ok d) ∧ two_ok d = true ∧ partition_of_deal d = Ok p.
Proof.
  intros Hp%partitions_spec.
  assert (forallb (λ p, match from_partition (E := DecodeError) p with
    | Ok d => two_ok d && bool_decide (partition_of_deal d = Ok p) | _ => false end) partitions = true) as H by by vm_compute.
  rewrite forallb_forall in H. specialize (H p (proj1 (list_elem_of_In _ _) Hp)). cbn beta in H.
  destruct (from_partition p) as [d| |] eqn:Hd; [|done..]. apply andb_true_iff in H as [Hok Hpart%bool_decide_eq_true].
  exists d. split_and!; [|done..]. intros E. unfold from_partition in *. destruct (foldl _ _ _) as [[hands [t|]] u]; [|done].
  cbn in *. congruence.
Qed.

(** The deals whose zones have the right sizes, checked size by size. *)
Lemma partition_of_two d : two_ok d = true → ∃ p, partition_of_deal d = Ok p ∧ MicroPartition_valid p ∧ ∀ E, from_partition (E := E) p = Ok d.
Proof.
  destruct d as [[h0 h1] t u]. intros Hd. pose proof Hd as Hok. unfold two_ok in Hok. cbn [two_hands two_undealt two_trump fst snd] in Hok.
  destruct (set_ok h0) eqn:H0; [|done]. destruct (set_ok h1) eqn:H1; [|done]. destruct (set_ok u) eqn:Hu; [|done]. cbn [andb] in Hok.
  assert (card_count h0 = 2 ∧ card_count h1 = 2 ∧ card_count u = 1) as (Hc0 & Hc1 & Hcu).
  { unfold TwoCardDeal_new in Hok. cbn [fst snd] in Hok.
    destruct (card_count h0 =? 2) eqn:?, (card_count h1 =? 2) eqn:?, (card_count u =? 1) eqn:?; try done. lia. }
  pose (good := λ d, match partition_of_deal d with
    | Ok p => bool_decide (p ∈ partitions) && bool_decide (from_partition (E := DecodeError) p = Ok d) | _ => false end).
  assert (good (TwoCardDealOf (h0, h1) t u) = true) as Hg.
  { pose (twos := List.filter (λ s, card_count s =? 2) all_sets). pose (ones := List.filter (λ s, card_count s =? 1) all_sets).
    assert (forallb (λ h0, forallb (λ h1, if Z.land (bits h0) (bits h1) =? 0 then forallb (λ u, forallb (λ t,
      implb (two_ok (TwoCardDealOf (h0, h1) t u)) (good (TwoCardDealOf (h0, h1) t u))) Card_ALL) ones else true) twos) twos = true) as H
      by by vm_compute.
    assert (∀ s n, set_ok s = true → card_count s = n → In s (List.filter (λ s, card_count s =? n) all_sets)) as Hin.
    { intros s n Hs Hn. apply filter_In. split; [by apply list_elem_of_In, set_ok_all|lia]. }
    rewrite forallb_forall in H. specialize (H h0 (Hin _ _ H0 Hc0)). cbn beta in H. rewrite forallb_forall in H.
    specialize (H h1 (Hin _ _ H1 Hc1)). cbn beta in H. destruct (Z.land (bits h0) (bits h1) =? 0) eqn:Hdis.
    - rewrite forallb_forall in H. specialize (H u (Hin _ _ Hu Hcu)). pose proof (forall_cards _ H t) as Ht. cbn beta in Ht. by rewrite Hd in Ht.
    - exfalso. clear -Hok Hdis Hc0 Hc1 Hcu. unfold TwoCardDeal_new in Hok. cbn [fst snd] in Hok. rewrite Hc0, Hc1, Hcu in Hok. cbn [Z.eqb negb orb Pos.eqb] in Hok.
      unfold disjoint_zones in Hok. cbn [foldM] in Hok. destruct (negb (Z.land (bit_of t) (bits h0) =? 0)) eqn:Ht; [done|]. cbn [mbind outcome_bind] in Hok.
      rewrite Z.land_lor_distr_l in Hok. destruct (Z.lor (Z.land (bit_of t) (bits h1)) (Z.land (bits h0) (bits h1)) =? 0) eqn:Hl; [|done].
      apply Z.eqb_eq, Z.lor_eq_0_iff in Hl. lia. }
  unfold good in Hg. destruct (partition_of_deal _) as [p| |] eqn:Hp; [|done..]. exists p. split; [done|].
  apply andb_true_iff in Hg as [Hin%bool_decide_eq_true Hf%bool_decide_eq_true]. apply partitions_spec in Hin as Hv. split; [done|].
  destruct (deal_of_partition p Hv) as (d & Hd' & _). intros E. rewrite Hd' in Hf |- *. congruence.
Qed.

(** ** Codes *)

Definition two_deals : list TwoCardDeal := result_or [] (TwoCardDeal_all (E := DecodeError)).

Lemma mapM_from_partition {E} ps : Forall MicroPartition_valid ps → ∃ ds, mapM (from_partition (E := E)) ps = Ok ds ∧
  Forall2 (λ p d, ∀ E', from_partition (E := E') p = Ok d) ps ds.
Proof.
  induction 1 as [|p ps Hp _ (ds & Hds & Hf)]; [by exists []|]. destruct (deal_of_partition p Hp) as (d & Hd & _ & _).
  exists (d :: ds). split; [cbn; by rewrite Hd; cbn; rewrite Hds|]. by constructor.
Qed.

Lemma two_deals_all : (∀ E, TwoCardDeal_all (E := E) = Ok two_deals) ∧ NoDup two_deals ∧ length two_deals = 180%nat ∧
  ∀ d, d ∈ two_deals ↔ two_ok d = true.
Proof.
  destruct (enumerate_Ok (A := MicroPartition)) as (vs & Hvs & _). pose proof (enumerate_NoDup vs Hvs) as Hnd.
  assert (∀ p, p ∈ vs ↔ MicroPartition_valid p) as Hmem by (intros p; exact (elem_of_enumerate vs p Hvs)).
  assert (Forall MicroPartition_valid vs) as Hall by (apply Forall_forall; intros p; apply Hmem).
  assert (∀ E, ∃ ds, TwoCardDeal_all (E := E) = Ok ds ∧ Forall2 (λ p d, ∀ E', from_partition (E := E') p = Ok d) vs ds) as Heach.
  { intros E. destruct (mapM_from_partition (E := E) vs Hall) as (ds & Hds & Hf). exists ds. split; [|exact Hf]. unfold TwoCardDeal_all. rewrite Hvs. exact Hds. }
  destruct (Heach DecodeError) as (ds & Hds & Hf).
  assert (two_deals = ds) as Heq by (unfold two_deals; rewrite Hds; reflexivity). rewrite Heq.
  assert (∀ ds', Forall2 (λ p d, ∀ E', from_partition (E := E') p = Ok d) vs ds' → ds' = ds) as Huniq.
  { clear -Hf. intros ds' Hf'. revert ds' Hf'. induction Hf as [|p d ps ds Hd _ IH]; intros ds' Hf'.
    - by apply Forall2_nil_inv_l in Hf'.
    - apply Forall2_cons_inv_l in Hf' as (d' & ds0 & Hd' & Hf' & ->). f_equal; [|by apply IH].
      specialize (Hd DecodeError). specialize (Hd' DecodeError). congruence. }
  split_and!.
  - intros E. destruct (Heach E) as (ds' & -> & Hf'). f_equal. by apply Huniq.
  - clear -Hf Hnd Hall. induction Hf as [|p d ps ds Hd Hf IH]; [constructor|]. apply NoDup_cons in Hnd as [Hp Hnd].
    apply Forall_cons in Hall as [Hv Hall]. constructor; [|by apply IH]. intros (i & Hi)%list_elem_of_lookup. apply Hp.
    destruct (Forall2_lookup_r _ _ _ _ _ Hf Hi) as (p' & Hp' & Hd'). rewrite Forall_lookup in Hall. specialize (Hall _ _ Hp').
    destruct (deal_of_partition p Hv) as (e & He & _ & Hpe), (deal_of_partition p' Hall) as (e' & He' & _ & Hpe').
    replace e with d in * by (specialize (Hd DecodeError); specialize (He DecodeError); congruence).
    replace e' with d in * by (specialize (Hd' DecodeError); specialize (He' DecodeError); congruence).
    replace p with p' by congruence. by eapply list_elem_of_lookup_2.
  - rewrite <-(Forall2_length _ _ _ Hf). pose proof (enumerate_length vs Hvs) as Hl. cbn in Hl. lia.
  - intros d. rewrite list_elem_of_lookup. split.
    + intros (i & Hi). destruct (Forall2_lookup_r _ _ _ _ _ Hf Hi) as (p & Hp & Hd). apply list_elem_of_lookup_2, Hmem in Hp.
      destruct (deal_of_partition p Hp) as (e & He & Hok & _). specialize (Hd DecodeError). specialize (He DecodeError). congruence.
    + intros (p & _ & Hp & Hd)%partition_of_two. apply Hmem in Hp as Hin. apply list_elem_of_lookup in Hin as (i & Hi).
      destruct (Forall2_lookup_l _ _ _ _ _ Hf Hi) as (d' & Hd' & Hf'). exists i. rewrite Hd'. specialize (Hd DecodeError). specialize (Hf' DecodeError). congruence.
Qed.

#[global] Opaque two_deals partitions.

#[export] Instance Player_lawful : LawfulDomain Player.
Proof. lawful (λ _ : Player, True) 2; solve_enum. Defined.

Lemma lookup_code {A} (l : list A) (n : Z) (c : Z) (e : DecodeError) :
  0 ≤ c < n → n = Z.of_nat (length l) → ∃ a, ok_or (if (0 <=? c) && (c <? n) then l !! Z.to_nat c else None) e = Ok a ∧ l !! Z.to_nat c = Some a.
Proof.
  intros Hc ->. destruct (lookup_lt_is_Some_2 l (Z.to_nat c)) as [a Ha]; [lia|]. exists a.
  replace ((0 <=? c) && (c <? Z.of_nat (length l))) with true by lia. by rewrite Ha.
Qed.

#[export] Instance Card_lawful : LawfulDomain Card.
Proof.
  lawful (λ _ : Card, True) 6; [done|done|..].
  - intros [] _; (eexists; split; [done|split; [by vm_compute|by vm_compute]]).
  - intros c Hc. assert (c = 0 ∨ c = 1 ∨ c = 2 ∨ c = 3 ∨ c = 4 ∨ c = 5) as [-> |[-> |[-> |[-> |[-> | ->]]]]] by lia; by eexists.
  - intros c Hc _. change (decode c) with (Card_decode c). unfold Card_decode. replace ((0 <=? c) && (c <? 6)) with false by lia. eauto.
Defined.

#[export] Instance RoundId_lawful : LawfulDomain RoundId.
Proof.
  lawful (λ _ : RoundId, True) 3; [done|done|..].
  - intros [] _; (eexists; split; [done|split; [by vm_compute|by vm_compute]]).
  - intros c Hc. assert (c = 0 ∨ c = 1 ∨ c = 2) as [-> |[-> | ->]] by lia; by eexists.
  - intros c Hc _. change (decode c) with (RoundId_decode c). unfold RoundId_decode. replace ((0 <=? c) && (c <? 3)) with false by lia. eauto.
Defined.

#[export] Instance ModelBid_lawful : LawfulDomain Bid.
Proof.
  lawful (λ _ : Bid, True) 3; [done|done|..].
  - intros [] _; (eexists; split; [done|split; [by vm_compute|by vm_compute]]).
  - intros c Hc. assert (c = 0 ∨ c = 1 ∨ c = 2) as [-> |[-> | ->]] by lia; by eexists.
  - intros c Hc _. change (decode c) with (Bid_decode c). unfold Bid_decode. replace ((0 <=? c) && (c <? 3)) with false by lia. eauto.
Defined.

#[export] Instance CardSet_lawful : LawfulDomain CardSet.
Proof.
  lawful (λ s : CardSet, set_ok s = true) 64; [done|done|..].
  - intros s Hs. unfold set_ok in Hs. exists (bits s). split; [done|]. split; [lia|].
    change (decode (bits s)) with (CardSet_decode (bits s)). unfold CardSet_decode. replace (bits s <? 64) with true by lia. by destruct s.
  - intros c Hc. exists (CardSetOf c). change (decode c) with (CardSet_decode c). unfold CardSet_decode, set_ok. cbn [bits].
    replace (c <? 64) with true by lia. split; [done|]. split; [lia|done].
  - intros c Hc _. change (decode c) with (CardSet_decode c). unfold CardSet_decode. replace (c <? 64) with false by lia. eauto.
Defined.

#[export] Instance TwoCardDeal_lawful : LawfulDomain TwoCardDeal.
Proof.
  lawful (λ d : TwoCardDeal, two_ok d = true) 180; [done|done|..].
  - intros d (p & Hp & Hv & Hd)%partition_of_two. assert (valid p) as Hv' by exact Hv. destruct (encode_valid p Hv') as (c & Hc & Hr & Hdec). exists c.
    change (encode d) with (TwoCardDeal_encode d). change (decode c) with (TwoCardDeal_decode c).
    unfold TwoCardDeal_encode, TwoCardDeal_decode. rewrite Hp, Hdec. split; [exact Hc|]. split; [exact Hr|]. apply Hd.
  - intros c Hc. destruct (decode_valid (A := MicroPartition) c) as (p & Hp & Hv & He); [exact Hc|]. destruct (deal_of_partition p Hv) as (d & Hd & Hok & Hpart).
    exists d. change (encode d) with (TwoCardDeal_encode d). change (decode c) with (TwoCardDeal_decode c).
    unfold TwoCardDeal_encode, TwoCardDeal_decode. rewrite Hpart, Hp. split; [apply Hd|]. split; [exact Hok|exact He].
  - intros c Hc Hw. destruct (decode_spare (A := MicroPartition) c) as (card & name & He); [exact Hc|exact Hw|]. exists card, name.
    change (decode c) with (TwoCardDeal_decode c). unfold TwoCardDeal_decode. by rewrite He.
Defined.

#[export] Instance OneCardDeal_lawful : LawfulDomain OneCardDeal.
Proof.
  lawful (λ d : OneCardDeal, one_ok d = true) 120; [done|done|..].
  - intros d Hd%one_deals_complete. apply list_elem_of_lookup in Hd as (i & Hi). pose proof (lookup_lt_Some _ _ _ Hi) as Hlt.
    change (length OneCardDeal_all) with 120%nat in Hlt. exists (Z.of_nat i). change (encode d) with (OneCardDeal_encode d).
    change (decode (Z.of_nat i)) with (OneCardDeal_decode (Z.of_nat i)). unfold OneCardDeal_encode, OneCardDeal_decode.
    assert (list_find (λ c, c = d) OneCardDeal_all = Some (i, d)) as ->.
    { apply list_find_Some. split_and!; [done..|]. intros j y Hj Hy ->. pose proof (NoDup_lookup _ _ _ _ one_deals_distinct Hi Hj). lia. }
    split; [done|]. split; [lia|]. replace (120 <=? Z.of_nat i) with false by lia. by rewrite Nat2Z.id, Hi.
  - intros c Hc. destruct (lookup_lt_is_Some_2 OneCardDeal_all (Z.to_nat c)) as [d Hi]; [change (length OneCardDeal_all) with 120%nat; lia|].
    exists d. change (encode d) with (OneCardDeal_encode d). change (decode c) with (OneCardDeal_decode c). unfold OneCardDeal_encode, OneCardDeal_decode.
    replace (120 <=? c) with false by lia. rewrite Hi. split; [done|]. split; [apply one_deals_sound; by eapply list_elem_of_lookup_2|].
    assert (list_find (λ c, c = d) OneCardDeal_all = Some (Z.to_nat c, d)) as ->.
    { apply list_find_Some. split_and!; [done..|]. intros j y Hj Hy ->. pose proof (NoDup_lookup _ _ _ _ one_deals_distinct Hi Hj). lia. }
    cbn. f_equal. lia.
  - intros c Hc _. change (decode c) with (OneCardDeal_decode c). unfold OneCardDeal_decode. replace (120 <=? c) with true by lia. eauto.
Defined.

#[local] Instance DealOne_inj : Inj (=) (=) DealOne.
Proof. by intros ? ? [= ->]. Qed.
#[local] Instance DealTwo_inj : Inj (=) (=) DealTwo.
Proof. by intros ? ? [= ->]. Qed.

(** The deals of a round: each deal the constructors make with this hand size, once. *)
Lemma all_for_exact round : ∃ deals, (∀ E, all_for (E := E) round = Ok deals) ∧ NoDup deals ∧
  length deals = (if (hand_size round =? 1)%Z then 120 else 180)%nat ∧
  ∀ d, d ∈ deals ↔ deal_ok d = true ∧ deal_hand_size d = hand_size round.
Proof.
  destruct two_deals_all as (Hall & Hnd & Hlen & Hmem). unfold all_for. destruct (hand_size round =? 1) eqn:Hr.
  - exists (map DealOne OneCardDeal_all). split; [reflexivity|]. split; [|split; [by rewrite length_map|]].
    + apply (NoDup_fmap_2 DealOne), one_deals_distinct.
    + intros d. rewrite list_elem_of_In, in_map_iff. setoid_rewrite <-list_elem_of_In. split.
      * intros (x & <- & Hx). split; [by apply one_deals_sound|]. cbn. lia.
      * intros [Hok Hs]. destruct d as [x|x]; [exists x; split; [done|by apply one_deals_complete]|]. cbn in Hs. lia.
  - assert (hand_size round = 2) as H2 by (destruct round; done). exists (map DealTwo two_deals). split; [intros E; by rewrite Hall|].
    split; [|split; [by rewrite length_map|]].
    + by apply (NoDup_fmap_2 DealTwo).
    + intros d. rewrite list_elem_of_In, in_map_iff. setoid_rewrite <-list_elem_of_In. setoid_rewrite Hmem.
      clear Hall Hlen Hnd. split; [intros (x & <- & Hx); split; [exact Hx|symmetry; exact H2]|].
      intros [Hok Hs]. destruct d as [x|x]; [cbn in Hs; lia|]. exists x. split; [reflexivity|exact Hok].
Qed.

(** The codes of deals are dense and one to one. *)
Lemma deal_codes : cardinality Deal = Ok 300 ∧
  (∀ d, deal_ok d = true → ∃ c, encode d = Ok c ∧ 0 ≤ c < 300 ∧ decode c = Ok d) ∧
  (∀ c, 0 ≤ c < 300 → ∃ d, decode c = Ok d ∧ deal_ok d = true ∧ encode d = Ok c) ∧
  (∀ c, 300 ≤ c → in_width 128 c → decode (A := Deal) c = Err (OutOfRange (c - 120) 180 "MicroPartition")).
Proof.
  split; [reflexivity|]. split; [|split].
  - intros [d|d] Hd.
    + assert (valid d) as Hd' by exact Hd. destruct (encode_valid d Hd') as (c & Hc & Hr & Hdec). change (dom_size OneCardDeal) with 120 in Hr. exists c.
      change (encode (DealOne d)) with (encode d). change (decode c) with (Deal_decode c). unfold Deal_decode. cbn [cardinality mbind outcome_bind OneCardDeal_domain].
      replace (c <? 120) with true by lia. rewrite Hdec. split; [exact Hc|]. split; [lia|done].
    + assert (valid d) as Hd' by exact Hd. destruct (encode_valid d Hd') as (c & Hc & Hr & Hdec). change (dom_size TwoCardDeal) with 180 in Hr. exists (120 + c).
      change (encode (DealTwo d)) with (code ← encode d; u_add (E := DecodeError) 128 120 code). rewrite Hc. cbn [mbind outcome_bind].
      unfold u_add, checked, in_widthb. replace ((0 <=? 120 + c) && (120 + c <? 2 ^ 128)) with true by lia. split; [done|]. split; [lia|].
      change (decode (120 + c)) with (Deal_decode (120 + c)). unfold Deal_decode. cbn [cardinality mbind outcome_bind OneCardDeal_domain].
      replace (120 + c <? 120) with false by lia. replace (120 + c - 120) with c by lia. by rewrite Hdec.
  - intros c Hc. change (decode c) with (Deal_decode c). unfold Deal_decode. cbn [cardinality mbind outcome_bind OneCardDeal_domain].
    destruct (c <? 120) eqn:Hlt.
    + destruct (decode_valid (A := OneCardDeal) c) as (d & Hd & Hv & He); [change (dom_size OneCardDeal) with 120; lia|]. rewrite Hd. by exists (DealOne d).
    + destruct (decode_valid (A := TwoCardDeal) (c - 120)) as (d & Hd & Hv & He); [change (dom_size TwoCardDeal) with 180; lia|]. rewrite Hd.
      exists (DealTwo d). split; [done|]. split; [done|].
      change (encode (DealTwo d)) with (code ← encode d; u_add (E := DecodeError) 128 120 code). rewrite He. cbn [mbind outcome_bind].
      unfold u_add, checked, in_widthb. replace ((0 <=? 120 + (c - 120)) && (120 + (c - 120) <? 2 ^ 128)) with true by lia. cbn. f_equal. lia.
  - intros c Hc Hw. change (decode c) with (Deal_decode c). unfold Deal_decode. cbn [cardinality mbind outcome_bind OneCardDeal_domain].
    replace (c <? 120) with false by lia.
    change (decode (A := TwoCardDeal) (c - 120)) with (TwoCardDeal_decode (c - 120)). unfold TwoCardDeal_decode.
    change (decode (A := MicroPartition) (c - 120)) with (MicroPartition_decode (c - 120)). unfold MicroPartition_decode.
    by replace (180 <=? c - 120) with true by lia.
Qed.

(** A rejected code is reported less the one-card deals, as a code of partitions. *)
Example rejection_shifted : decode (A := Deal) 300 = Err (OutOfRange 180 180 "MicroPartition").
Proof. by vm_compute. Qed.
