(* ===== verification/ModelInvariant.v ===== *)
(** * The six-card scope: reachable states

    The invariant of every phase, that a state with the invariant passes the model's own
    validation, and what each transition does to it. *)

From Stdlib Require Import ZifyBool.
From stdpp Require Import base strings numbers option list.
From S2P Require Import Prelude Domain DomainLaws Formal ModelFinite ModelKernels ModelState ModelSemantics ModelDeals.

Local Open Scope Z_scope.

(** ** The invariant *)

(** The most a player can have scored, and the most missed bids, before a round. *)
Definition score_bound (r : RoundId) : Z := match r with OneAscending => 0 | TwoCards => 21 | OneDescending => 43 end.

Record ledger_ok (l : Ledger) : Prop := {
  lo_score p : 0 ≤ score_get (at_ (scores l) p) ≤ score_bound (round l);
  lo_pot : 0 ≤ pot_misses (pot l) ≤ 2 * round_code (round l);
}.

Definition single (c : Card) : CardSet := insert_card EMPTY c.

Definition zones_of (hands : Two CardSet) (trump : Card) (undealt : CardSet) (current : option Card) (captured : list CardSet) : list CardSet :=
  [hands.1; hands.2; undealt] ++ captured ++ match current with Some c => [single c] | None => [] end ++ [single trump].

(** The zones are card sets and each card of the deck is in exactly one. *)
Definition deck (zs : list CardSet) : Prop := Forall (λ z, set_ok z = true) zs ∧ ∀ c, zone_occ c zs = 1.

Record bidding_ok (s : Bidding) : Prop := {
  bo_ledger : ledger_ok (bi_ledger s);
  bo_deck : deck (zones_of (bi_hands s) (bi_trump s) (bi_undealt s) None []);
  bo_hands p : card_count (at_ (bi_hands s) p) = hand_size (round (bi_ledger s));
  bo_undealt : card_count (bi_undealt s) = 5 - 2 * hand_size (round (bi_ledger s));
  bo_bid b : bi_progress s = DealerLast b → legal_for b (round (bi_ledger s)) = true;
}.

(** Hands are level when a trick starts, and the leader is one card short until it is answered. *)
Definition balanced (s : Playing) : Prop :=
  match pl_trick s with
  | Lead _ => card_count (pl_hands s).1 = card_count (pl_hands s).2 ∧ 0 < card_count (pl_hands s).1
  | Follow lead => card_count (at_ (pl_hands s) (left_of (played_by lead))) = card_count (at_ (pl_hands s) (played_by lead)) + 1
  end.

Definition on_table (t : TrickProgress) : option Card := played <$> trick_lead t.

Record playing_ok (s : Playing) : Prop := {
  po_ledger : ledger_ok (pl_ledger s);
  po_deck : deck (zones_of (pl_hands s) (pl_trump s) (pl_undealt s) (on_table (pl_trick s)) (items (pl_captured s)));
  po_bid p : legal_for (at_ (pl_bids s) p) (round (pl_ledger s)) = true;
  po_balanced : balanced s;
  po_tricks p : card_count (at_ (pl_captured s) p) = 2 * tricks_get (at_ (pl_tricks_won s) p);
  po_total : card_count (pl_hands s).1 + card_count (pl_hands s).2 + (if decide (is_Some (on_table (pl_trick s))) then 1 else 0)
    + (card_count (pl_captured s).1 + card_count (pl_captured s).2) = 2 * hand_size (round (pl_ledger s));
}.

Record scoring_ok (s : Scoring) : Prop := {
  so_ledger : ledger_ok (sc_ledger s);
  so_deck : deck (zones_of (both EMPTY) (sc_trump s) (sc_undealt s) None (items (sc_captured s)));
  so_bid p : legal_for (at_ (sc_bids s) p) (round (sc_ledger s)) = true;
  so_tricks p : card_count (at_ (sc_captured s) p) = 2 * tricks_get (at_ (sc_tricks_won s) p);
  so_total : tricks_get (sc_tricks_won s).1 + tricks_get (sc_tricks_won s).2 = hand_size (round (sc_ledger s));
}.

Record finished_ok (s : Finished) : Prop := {
  fo_score p : 0 ≤ score_get (at_ (fi_scores s) p) ≤ 64;
  fo_pot : 0 ≤ pot_misses (fi_pot s) ≤ 6;
  fo_winners : fi_winners s = (score_get (fi_scores s).2 <=? score_get (fi_scores s).1, score_get (fi_scores s).1 <=? score_get (fi_scores s).2);
}.

Definition game_ok (g : Game) : Prop :=
  match g with
  | GAwaitingDeal s => ledger_ok (aw_ledger s)
  | GBidding s => bidding_ok s
  | GPlaying s => playing_ok s
  | GScoring s => scoring_ok s
  | GFinished s => finished_ok s
  end.

(** ** Counting cards *)

Lemma card_count_nonneg s : 0 ≤ card_count s.
Proof. unfold card_count, count_ones. lia. Qed.

Lemma single_ok c : set_ok (single c) = true.
Proof. by apply insert_ok. Qed.

Lemma single_count c : card_count (single c) = 1.
Proof. by destruct c; vm_compute. Qed.

Lemma occ_single c d : occ d (single c) = if bool_decide (d = c) then 1 else 0.
Proof. apply occ_one. Qed.

Lemma count_split s r t : set_ok s = true → set_ok r = true → set_ok t = true → (∀ c, occ c s = occ c r + occ c t) →
  card_count s = card_count r + card_count t.
Proof. intros Hs Hr Ht Hc. rewrite !card_count_occ by done. unfold size_of. rewrite !Hc. lia. Qed.

Lemma empty_occ s c : set_ok s = true → card_count s = 0 → occ c s = 0.
Proof.
  intros Hs. rewrite card_count_occ by done. unfold size_of. pose proof (occ_bounds S0R0 s). pose proof (occ_bounds S0R1 s).
  pose proof (occ_bounds S0R2 s). pose proof (occ_bounds S1R0 s). pose proof (occ_bounds S1R1 s). pose proof (occ_bounds S1R2 s).
  destruct c; lia.
Qed.

Lemma holds_occ s c : holds s c = true ↔ occ c s = 1.
Proof. unfold occ. destruct (holds s c); split; done. Qed.

Lemma not_holds_occ s c : holds s c = false ↔ occ c s = 0.
Proof. unfold occ. destruct (holds s c); split; done. Qed.

(** Putting a card that is elsewhere on a pile. *)
Lemma with_card_fresh s c : set_ok s = true → occ c s = 0 →
  ∃ r, with_card s c = Ok r ∧ set_ok r = true ∧ card_count r = card_count s + 1 ∧ ∀ d, occ d r = occ d s + occ d (single c).
Proof.
  intros Hs Hc. apply not_holds_occ in Hc. exists (insert_card s c). split; [by apply with_card_spec|]. split; [by apply insert_ok|].
  assert (∀ d, occ d (insert_card s c) = occ d s + occ d (single c)) as Ho by (intros d; by apply occ_insert).
  split; [|done]. rewrite <-(single_count c). apply count_split; [by apply insert_ok|done|apply single_ok|done].
Qed.

Lemma without_held s c : set_ok s = true → holds s c = true →
  ∃ r, without s c = Ok r ∧ set_ok r = true ∧ card_count s = card_count r + 1 ∧ ∀ d, occ d s = occ d r + occ d (single c).
Proof.
  intros Hs Hc. destruct (without_spec s c Hs Hc) as (r & Hr & Hok & Ho). exists r. split_and!; [done..| |done].
  rewrite <-(single_count c). apply count_split; [done..|apply single_ok|done].
Qed.

(** ** Validation *)

Lemma validate_partition_deck hands trump undealt current captured :
  Forall (λ z, set_ok z = true) (zones_of hands trump undealt current captured) →
  validate_partition hands trump undealt current captured = Ok tt ↔ ∀ c, zone_occ c (zones_of hands trump undealt current captured) = 1.
Proof.
  intros Hok. unfold validate_partition.
  assert (∀ c, with_card EMPTY c = Ok (single c)) as Hw by by intros [].
  assert (match current with Some c => s ← with_card EMPTY c; Ok [s] | None => Ok [] end
    = Ok (E := ModelError) (match current with Some c => [single c] | None => [] end)) as -> by (destruct current; [by rewrite Hw|done]).
  rewrite Hw. cbn [mbind outcome_bind]. rewrite <-(unite_deck _ Hok). unfold zones_of.
  destruct (foldM union_set _ EMPTY) as [u| |]; cbn [mbind outcome_bind]; [|naive_solver..].
  split.
  - intros Hu. exists u. split; [done|]. destruct (card_count u =? 6) eqn:H6; [lia|done].
  - intros (u' & [= <-] & ->). done.
Qed.

Lemma deck_valid hands trump undealt current captured : deck (zones_of hands trump undealt current captured) →
  validate_partition hands trump undealt current captured = Ok tt.
Proof. intros [Hok Hz]. by apply validate_partition_deck. Qed.

Lemma u8_sum_Ok {E} (l : list Z) : Forall (λ x, 0 ≤ x) l → foldr Z.add 0 l < 256 → u8_sum (E := E) l = Ok (foldr Z.add 0 l).
Proof.
  intros Hl Hs. unfold u8_sum. cut (∀ a, 0 ≤ a → a + foldr Z.add 0 l < 256 → foldM (λ a x, u_add (E := E) 8 a x) l a = Ok (a + foldr Z.add 0 l)).
  { intros Hc. rewrite Hc by lia. f_equal. }
  clear Hs. induction Hl as [|x l Hx Hl IH]; intros a Ha Hs; cbn [foldM foldr] in *; [f_equal; lia|].
  assert (0 ≤ foldr Z.add 0 l) by (clear -Hl; induction Hl; cbn; lia).
  unfold u_add, checked, in_widthb. change (2 ^ 8) with 256. replace ((0 <=? a + x) && (a + x <? 256)) with true by lia. cbn [expect mbind outcome_bind].
  rewrite IH by lia. f_equal. lia.
Qed.

Lemma u8_mul_Ok {E} a b : 0 ≤ a * b < 256 → u_mul (E := E) 8 a b = Ok (a * b).
Proof. intros H. unfold u_mul, checked, in_widthb. change (2 ^ 8) with 256. by replace ((0 <=? a * b) && (a * b <? 256)) with true by lia. Qed.

Lemma bids_in_bounds_Ok bids r : (∀ p, legal_for (at_ bids p) r = true) → bids_in_bounds bids r = Ok tt.
Proof.
  intros Hb. unfold bids_in_bounds, items. cbn [foldM]. pose proof (Hb PlayerZero) as H0. pose proof (Hb PlayerOne) as H1. cbn [at_] in H0, H1.
  by rewrite H0, H1.
Qed.

Lemma owns_captured_Ok captured tricks name : (∀ p, card_count (at_ captured p) = 2 * tricks_get (at_ tricks p)) →
  (∀ p, 0 ≤ tricks_get (at_ tricks p) < 128) → owns_captured captured tricks name = Ok tt.
Proof.
  intros Hc Ht. unfold owns_captured, Player_ALL. cbn [foldM]. pose proof (Ht PlayerZero). pose proof (Ht PlayerOne).
  rewrite !u8_mul_Ok by lia. cbn [mbind outcome_bind]. rewrite !Hc, !Z.eqb_refl. done.
Qed.

(** A part of a deck is small. *)
Lemma deck_parts zs : deck zs → foldr (λ z n, card_count z + n) 0 zs = 6.
Proof. intros [Hok Hz]. by apply deck_size. Qed.

Lemma playing_sizes s : playing_ok s → ∀ p, 0 ≤ tricks_get (at_ (pl_tricks_won s) p) ≤ 3.
Proof.
  intros Hs p. pose proof (deck_parts _ (po_deck _ Hs)) as Hd. unfold zones_of, items in Hd. cbn [app foldr] in Hd.
  rewrite foldr_app in Hd. pose proof (po_tricks _ Hs p) as Ht.
  assert (∀ l : list CardSet, 0 ≤ foldr (λ z n, card_count z + n) 0 l) as Hnn.
  { intros l. induction l as [|z l IH]; cbn; [done|]. pose proof (card_count_nonneg z). lia. }
  assert (∀ (l : list CardSet) a, 0 ≤ a → 0 ≤ foldr (λ z n, card_count z + n) a l) as Hnn'.
  { intros l a Ha. induction l as [|z l IH]; cbn; [done|]. pose proof (card_count_nonneg z). lia. }
  match type of Hd with context [foldr ?f ?a (match ?o with Some c => _ | None => _ end)] => pose proof (Hnn' (match o with Some c => [single c] | None => [] end) a (Hnn _)) end.
  pose proof (card_count_nonneg (pl_hands s).1). pose proof (card_count_nonneg (pl_hands s).2). pose proof (card_count_nonneg (pl_undealt s)).
  pose proof (card_count_nonneg (pl_captured s).1). pose proof (card_count_nonneg (pl_captured s).2). destruct p; cbn [at_] in *; lia.
Qed.

Lemma scoring_sizes s : scoring_ok s → ∀ p, 0 ≤ tricks_get (at_ (sc_tricks_won s) p) ≤ 3.
Proof.
  intros Hs p. pose proof (deck_parts _ (so_deck _ Hs)) as Hd. unfold zones_of, items in Hd. cbn [app foldr option_list fmap option_fmap option_map] in Hd.
  pose proof (so_tricks _ Hs p) as Ht. rewrite single_count in Hd. pose proof (card_count_nonneg (sc_undealt s)).
  change (card_count (both EMPTY).1) with 0 in Hd. change (card_count (both EMPTY).2) with 0 in Hd.
  pose proof (card_count_nonneg (sc_captured s).1). pose proof (card_count_nonneg (sc_captured s).2). destruct p; cbn [at_] in *; lia.
Qed.

Section Valid.
Context `{Formal.Weavy}.

Lemma bidding_valid s : bidding_ok s → validate (GBidding s) = Ok tt.
Proof using Type.
  intros Hs. cbn [validate]. unfold items. cbn [existsb]. pose proof (bo_hands _ Hs PlayerZero) as H0. pose proof (bo_hands _ Hs PlayerOne) as H1.
  cbn [at_] in H0, H1. rewrite H0, H1, (bo_undealt _ Hs), !Z.eqb_refl. cbn [negb orb]. apply deck_valid, (bo_deck _ Hs).
Qed.

Lemma playing_valid s : playing_ok s → validate (GPlaying s) = Ok tt.
Proof using Type.
  intros Hs. cbn [validate]. rewrite bids_in_bounds_Ok by apply (po_bid _ Hs). cbn [mbind outcome_bind].
  change (played <$> trick_lead (pl_trick s)) with (on_table (pl_trick s)).
  rewrite (deck_valid _ _ _ _ _ (po_deck _ Hs)). cbn [mbind outcome_bind].
  pose proof (playing_sizes _ Hs) as Hsz. pose proof (Hsz PlayerZero) as Ht0. pose proof (Hsz PlayerOne) as Ht1.
  pose proof (po_tricks _ Hs PlayerZero) as Hc0. pose proof (po_tricks _ Hs PlayerOne) as Hc1. pose proof (po_total _ Hs) as Htot.
  set (cur := if decide (is_Some (on_table (pl_trick s))) then 1 else 0) in *.
  assert (0 ≤ cur ≤ 1) as Hcur by (unfold cur; case_decide; lia).
  pose proof (card_count_nonneg (pl_hands s).1). pose proof (card_count_nonneg (pl_hands s).2).
  assert (1 ≤ hand_size (round (pl_ledger s)) ≤ 2) by (destruct (round (pl_ledger s)); cbn; lia).
  cbn [at_] in *. unfold items. cbn [fmap list_fmap].
  rewrite !u8_sum_Ok by (repeat constructor; cbn; lia). cbn [mbind outcome_bind foldr]. rewrite u8_mul_Ok by lia. cbn [mbind outcome_bind].
  rewrite u8_sum_Ok by (repeat constructor; cbn; lia). cbn [mbind outcome_bind foldr].
  match goal with |- (if ?b then _ else _) = _ => replace b with false by lia end.
  apply owns_captured_Ok; [apply (po_tricks _ Hs)|]. intros p. specialize (Hsz p). lia.
Qed.

Lemma scoring_valid s : scoring_ok s → validate (GScoring s) = Ok tt.
Proof using Type.
  intros Hs. cbn [validate]. rewrite bids_in_bounds_Ok by apply (so_bid _ Hs). cbn [mbind outcome_bind].
  rewrite (deck_valid _ _ _ _ _ (so_deck _ Hs)). cbn [mbind outcome_bind].
  pose proof (scoring_sizes _ Hs) as Hsz. pose proof (Hsz PlayerZero) as Ht0. pose proof (Hsz PlayerOne) as Ht1. cbn [at_] in Ht0, Ht1.
  unfold items. cbn [fmap list_fmap]. rewrite u8_sum_Ok by (repeat constructor; cbn; lia). cbn [mbind outcome_bind foldr].
  pose proof (so_total _ Hs) as Htot. rewrite Z.add_0_r, Htot, Z.eqb_refl. cbn [negb].
  apply owns_captured_Ok; [apply (so_tricks _ Hs)|]. intros p. specialize (Hsz p). lia.
Qed.

Lemma finished_valid s : finished_ok s → validate (GFinished s) = Ok tt.
Proof using Type.
  intros Hs. cbn [validate]. pose proof (fo_score _ Hs PlayerZero) as H0. pose proof (fo_score _ Hs PlayerOne) as H1. cbn [at_] in H0, H1.
  rewrite winner_mask_exact by done. cbn [mbind outcome_bind]. by rewrite (fo_winners _ Hs), bool_decide_true.
Qed.

Lemma game_valid g : game_ok g → validate g = Ok tt.
Proof using Type. destruct g; [done|apply bidding_valid|apply playing_valid|apply scoring_valid|apply finished_valid]. Qed.
End Valid.

(** ** Deals *)

Definition deal_facts (d : Deal) : bool :=
  set_ok (deal_hands d).1 && set_ok (deal_hands d).2 && set_ok (deal_undealt d) &&
  (card_count (deal_hands d).1 =? deal_hand_size d) && (card_count (deal_hands d).2 =? deal_hand_size d) &&
  (card_count (deal_undealt d) =? 5 - 2 * deal_hand_size d) &&
  is_ok (validate_partition (deal_hands d) (deal_trump d) (deal_undealt d) None []).

Lemma deal_zones d : deal_ok d = true → deal_facts d = true.
Proof.
  assert (forallb (λ d, deal_facts (DealOne d)) OneCardDeal_all && forallb (λ d, deal_facts (DealTwo d)) two_deals = true) as H by by vm_compute.
  apply andb_true_iff in H as [H1 H2]. rewrite forallb_forall in H1, H2. destruct d as [d|d]; cbn [deal_ok]; intros Hd.
  - exact (H1 d (proj1 (list_elem_of_In _ _) (one_deals_complete d Hd))).
  - destruct two_deals_all as (_ & _ & _ & Hmem). exact (H2 d (proj1 (list_elem_of_In _ _) (proj2 (Hmem d) Hd))).
Qed.

Lemma deal_next_ok s d : ledger_ok (aw_ledger s) → deal_ok d = true → deal_hand_size d = hand_size (round (aw_ledger s)) →
  ∃ g, deal_next s d = Ok (GBidding g) ∧ bidding_ok g ∧ bi_ledger g = aw_ledger s.
Proof.
  intros Hl Hd Hs. unfold deal_next, validate_round. rewrite Hs, Z.eqb_refl. cbn [mbind outcome_bind]. eexists. split; [done|]. split; [|done].
  pose proof (deal_zones d Hd) as Hf. unfold deal_facts in Hf. rewrite !andb_true_iff in Hf. destruct Hf as [[[[[[H1 H2] H3] H4] H5] H6] H7].
  rewrite Hs in *. split; cbn [bi_ledger bi_hands bi_trump bi_undealt bi_progress]; [done| |intros []; cbn [at_]; lia|lia|done].
  assert (Forall (λ z, set_ok z = true) (zones_of (deal_hands d) (deal_trump d) (deal_undealt d) None [])) as Hok.
  { unfold zones_of. cbn. repeat constructor; [done..|apply single_ok]. }
  split; [done|]. apply (validate_partition_deck _ _ _ _ _ Hok).
  destruct (validate_partition (deal_hands d) (deal_trump d) (deal_undealt d) None []) as [[]| |]; done.
Qed.

(** ** Moving cards between zones *)

Definition zone_sum (c : Card) (hands : Two CardSet) (trump : Card) (undealt : CardSet) (current : option Card) (captured : Two CardSet) : Z :=
  occ c hands.1 + occ c hands.2 + occ c undealt + (occ c captured.1 + occ c captured.2)
  + match current with Some l => occ c (single l) | None => 0 end + occ c (single trump).

Definition sets_ok (a : Two CardSet) : Prop := set_ok a.1 = true ∧ set_ok a.2 = true.

Lemma deck_sum hands trump undealt current captured : deck (zones_of hands trump undealt current (items captured)) ↔
  (sets_ok hands ∧ set_ok undealt = true ∧ sets_ok captured) ∧ ∀ c, zone_sum c hands trump undealt current captured = 1.
Proof.
  unfold deck, zones_of, items, sets_ok, zone_sum. pose proof single_ok as Hs. split.
  - intros [Hok Hz]. destruct current; cbn [app] in *; rewrite !Forall_cons in Hok; (split; [naive_solver|]);
      intros c'; specialize (Hz c'); rewrite !zone_occ_cons in Hz; cbn [zone_occ foldr] in Hz; lia.
  - intros [((? & ?) & ? & (? & ?)) Hz]. split; [destruct current; cbn [app]; repeat constructor; done || apply Hs|].
    intros c. specialize (Hz c). destruct current; cbn [app]; rewrite !zone_occ_cons; cbn [zone_occ foldr]; lia.
Qed.

Lemma at_set_at {A} (a : Two A) p q (x : A) : at_ (set_at a p x) q = if bool_decide (q = p) then x else at_ a q.
Proof. by destruct p, q. Qed.

Lemma pair_sum (f : CardSet → Z) (a : Two CardSet) p x : f (set_at a p x).1 + f (set_at a p x).2 = f a.1 + f a.2 - f (at_ a p) + f x.
Proof. destruct p; cbn; lia. Qed.

Lemma sets_ok_at a p : sets_ok a → set_ok (at_ a p) = true.
Proof. by intros [? ?]; destruct p. Qed.

Lemma sets_ok_set a p x : sets_ok a → set_ok x = true → sets_ok (set_at a p x).
Proof. by intros [? ?] ?; destruct p. Qed.

Lemma pair_at_le (f : CardSet → Z) (a : Two CardSet) p : (∀ s, 0 ≤ f s) → f (at_ a p) ≤ f a.1 + f a.2.
Proof. intros Hf. pose proof (Hf a.1). pose proof (Hf a.2). destruct p; cbn; lia. Qed.

(** A card in a hand is on no pile, and is not the card on the table. *)
Lemma held_elsewhere hands trump undealt current captured p c w : deck (zones_of hands trump undealt current (items captured)) →
  holds (at_ hands p) c = true → occ c (at_ captured w) = 0 ∧ current ≠ Some c.
Proof.
  intros [_ Hz]%deck_sum Hc%holds_occ. specialize (Hz c). unfold zone_sum in Hz. pose proof (λ s, occ_bounds c s) as Hb.
  pose proof (pair_at_le (occ c) hands p (λ s, proj1 (Hb s))). pose proof (pair_at_le (occ c) captured w (λ s, proj1 (Hb s))).
  pose proof (Hb undealt). pose proof (Hb (single trump)). pose proof (Hb (at_ captured w)). pose proof (Hb captured.1). pose proof (Hb captured.2).
  destruct current as [l|]; [|split; [lia|done]]. pose proof (Hb (single l)). split; [lia|]. intros [= ->].
  rewrite occ_single, bool_decide_true in Hz by done. lia.
Qed.

Lemma table_elsewhere hands trump undealt l captured w : deck (zones_of hands trump undealt (Some l) (items captured)) → occ l (at_ captured w) = 0.
Proof.
  intros [_ Hz]%deck_sum. specialize (Hz l). unfold zone_sum in Hz. rewrite (occ_single l l), bool_decide_true in Hz by done.
  pose proof (λ s, occ_bounds l s) as Hb. pose proof (pair_at_le (occ l) captured w (λ s, proj1 (Hb s))).
  pose proof (Hb hands.1). pose proof (Hb hands.2). pose proof (Hb undealt). pose proof (Hb (single trump)). pose proof (Hb (at_ captured w)). lia.
Qed.

(** A card leaves a hand for the table. *)
Lemma deck_lead hands trump undealt captured p c rest : deck (zones_of hands trump undealt None (items captured)) → set_ok rest = true →
  (∀ d, occ d (at_ hands p) = occ d rest + occ d (single c)) → deck (zones_of (set_at hands p rest) trump undealt (Some c) (items captured)).
Proof.
  intros [(Hh & Hu & Hk) Hz]%deck_sum Hr Ho. apply deck_sum. split; [split; [by apply sets_ok_set|done]|]. intros d. specialize (Hz d).
  unfold zone_sum in *. pose proof (pair_sum (occ d) hands p rest). specialize (Ho d). lia.
Qed.

(** A card leaves a hand, and with the card on the table goes to a pile. *)
Lemma deck_take hands trump undealt captured p c l rest w pile : deck (zones_of hands trump undealt (Some l) (items captured)) →
  set_ok rest = true → set_ok pile = true → (∀ d, occ d (at_ hands p) = occ d rest + occ d (single c)) →
  (∀ d, occ d pile = occ d (at_ captured w) + occ d (single l) + occ d (single c)) →
  deck (zones_of (set_at hands p rest) trump undealt None (items (set_at captured w pile))).
Proof.
  intros [(Hh & Hu & Hk) Hz]%deck_sum Hr Hp Ho Hpo. apply deck_sum. split; [split; [by apply sets_ok_set|split; [done|by apply sets_ok_set]]|].
  intros d. specialize (Hz d). unfold zone_sum in *. pose proof (pair_sum (occ d) hands p rest). pose proof (pair_sum (occ d) captured w pile).
  specialize (Ho d). specialize (Hpo d). lia.
Qed.

(** Empty hands may be left out. *)
Lemma deck_no_hands hands trump undealt captured : deck (zones_of hands trump undealt None (items captured)) →
  card_count hands.1 = 0 → card_count hands.2 = 0 → deck (zones_of (both EMPTY) trump undealt None (items captured)).
Proof.
  intros [((H0 & H1) & Hu & Hk) Hz]%deck_sum Hc0 Hc1. apply deck_sum. split; [done|]. intros d. specialize (Hz d). unfold zone_sum in *.
  rewrite (empty_occ _ d H0 Hc0), (empty_occ _ d H1 Hc1) in Hz. cbn [both fst snd]. rewrite !occ_EMPTY. lia.
Qed.

(** The two cards of a trick go to a pile that holds neither. *)
Lemma take_trick pile a b : set_ok pile = true → occ a pile = 0 → occ b pile = 0 → a ≠ b →
  ∃ p1 p2, with_card pile a = Ok p1 ∧ with_card p1 b = Ok p2 ∧ set_ok p2 = true ∧ card_count p2 = card_count pile + 2 ∧
    ∀ d, occ d p2 = occ d pile + occ d (single a) + occ d (single b).
Proof.
  intros Hok Ha Hb Hab. destruct (with_card_fresh pile a Hok Ha) as (p1 & H1 & Hok1 & Hc1 & Ho1).
  assert (occ b p1 = 0) as Hb1 by (rewrite Ho1, Hb, occ_single, bool_decide_false; [done|congruence]).
  destruct (with_card_fresh p1 b Hok1 Hb1) as (p2 & H2 & Hok2 & Hc2 & Ho2). exists p1, p2. split_and!; [done..|lia|].
  intros d. rewrite Ho2, Ho1. lia.
Qed.

Lemma increment_Ok {E} t : 0 ≤ tricks_get t ≤ 3 → increment (E := E) t = Ok (TricksOf (tricks_get t + 1)).
Proof.
  intros Ht. unfold increment, u_add, checked, in_widthb. change (2 ^ 8) with 256.
  by replace ((0 <=? tricks_get t + 1) && (tricks_get t + 1 <? 256)) with true by lia.
Qed.

(** ** Bids *)

Section Steps.
Context `{Formal.Weavy}.

Lemma bid_next_ok s player bid : bidding_ok s → player = bidding_actor s → legal_for bid (round (bi_ledger s)) = true →
  ∃ g, bid_next s player bid = Ok g ∧ game_ok g.
Proof using Type.
  intros Hs -> Hb. unfold bid_next, ensure_actor. rewrite bool_decide_true by done. cbn [mbind outcome_bind].
  rewrite bid_legal_exact, Hb. cbn [mbind outcome_bind negb]. eexists. split; [done|]. destruct (bi_progress s) as [|first] eqn:Hp.
  - split; cbn; [apply Hs|apply Hs|apply (bo_hands _ Hs)|apply Hs|]. by intros b [= <-].
  - pose proof (bo_bid _ Hs first Hp) as Hf. pose proof (bo_hands _ Hs PlayerZero) as H0. pose proof (bo_hands _ Hs PlayerOne) as H1. cbn [at_] in H0, H1.
    assert (1 ≤ hand_size (round (bi_ledger s))) by (destruct (round (bi_ledger s)); cbn; lia).
    split; cbn [pl_ledger pl_hands pl_trump pl_undealt pl_bids pl_trick pl_captured pl_tricks_won].
    + apply Hs.
    + pose proof (bo_deck _ Hs) as [Hok Hz]. unfold zones_of in *. cbn [app items both fst snd on_table trick_lead fmap option_fmap option_map] in *.
      split.
      * rewrite !Forall_cons in Hok |- *. naive_solver.
      * intros c. specialize (Hz c). rewrite !zone_occ_cons in *. rewrite !occ_EMPTY. lia.
    + destruct (dealer (bi_ledger s)); intros []; cbn; done.
    + cbn. lia.
    + intros []; done.
    + unfold on_table. cbn [trick_lead fmap option_fmap option_map]. rewrite decide_False by (by intros [? ?]).
      change (card_count (both EMPTY).1) with 0. change (card_count (both EMPTY).2) with 0. lia.
Qed.

(** ** Plays *)

Definition may_play (s : Playing) (card : Card) : bool :=
  holds (at_ (pl_hands s) (playing_actor s)) card &&
  match trick_lead (pl_trick s) with
  | None => true
  | Some lead => must_follow (contains_suit (at_ (pl_hands s) (playing_actor s)) (suit (played lead))) card (played lead)
  end.

Lemma lead_next_ok s player card : playing_ok s → pl_trick s = Lead player → may_play s card = true →
  ∃ g, play_next s player card = Ok (GPlaying g) ∧ playing_ok g ∧ pl_trick g = Follow {| played_by := player; played := card |} ∧
    pl_ledger g = pl_ledger s ∧ pl_bids g = pl_bids s ∧ card_count (pl_hands s).1 + card_count (pl_hands s).2 = card_count (pl_hands g).1 + card_count (pl_hands g).2 + 1.
Proof using Type.
  intros Hs Ht Hplay. unfold may_play, playing_actor in Hplay. rewrite Ht in Hplay. cbn [trick_actor trick_lead] in Hplay. rewrite andb_true_r in Hplay.
  unfold play_next, ensure_actor, playing_actor. rewrite Ht. cbn [trick_actor trick_lead]. rewrite bool_decide_true by done. cbn [mbind outcome_bind].
  rewrite Hplay. cbn [negb]. destruct Hs as [Hl Hdeck Hbid Hbal Htr Htot]. unfold on_table, balanced in *. rewrite Ht in Hdeck, Hbal, Htot.
  cbn [trick_lead fmap option_fmap option_map] in *. rewrite decide_False in Htot by (by intros [? ?]).
  pose proof Hdeck as [(Hh & _ & _) _]%deck_sum.
  destruct (without_held _ _ (sets_ok_at _ player Hh) Hplay) as (rest & Hrest & Hrok & Hcount & Hocc). rewrite Hrest. cbn [mbind outcome_bind].
  pose proof (pair_sum card_count (pl_hands s) player rest) as Hsum. clear Hrest Hh.
  eexists. split; [done|]. split; [|cbn [pl_trick pl_ledger pl_bids pl_hands]; split_and!; [done..|lia]].
  split; unfold balanced, on_table; cbn [pl_ledger pl_hands pl_trump pl_undealt pl_bids pl_trick pl_captured pl_tricks_won trick_lead fmap option_fmap option_map played played_by];
    [done|by apply deck_lead|done| |done|rewrite decide_True by eauto; lia].
  clear -Hbal Hcount. destruct player; cbn [left_of at_ set_at fst snd] in *; lia.
Qed.

Definition winner_of (s : Playing) (lead : PlayedCard) (card : Card) : Player :=
  if beats (played lead) card (pl_trump s) then left_of (played_by lead) else played_by lead.

(** What completing a trick leads to: the winner takes both cards and the trick, and leads the next one if any. *)
Definition trick_done (s : Playing) (w : Player) (g : Game) : Prop :=
  match g with
  | GPlaying g => pl_trick g = Lead w ∧ pl_ledger g = pl_ledger s ∧ pl_bids g = pl_bids s ∧
      (∀ p, tricks_get (at_ (pl_tricks_won g) p) = tricks_get (at_ (pl_tricks_won s) p) + (if bool_decide (p = w) then 1 else 0)) ∧
      card_count (pl_hands s).1 + card_count (pl_hands s).2 = card_count (pl_hands g).1 + card_count (pl_hands g).2 + 1
  | GScoring g => sc_ledger g = pl_ledger s ∧ sc_bids g = pl_bids s ∧
      (∀ p, tricks_get (at_ (sc_tricks_won g) p) = tricks_get (at_ (pl_tricks_won s) p) + (if bool_decide (p = w) then 1 else 0)) ∧
      card_count (pl_hands s).1 + card_count (pl_hands s).2 = 1
  | _ => False
  end.

Lemma follow_next_ok s lead card : playing_ok s → pl_trick s = Follow lead → may_play s card = true →
  ∃ g, play_next s (left_of (played_by lead)) card = Ok g ∧ game_ok g ∧ trick_done s (winner_of s lead card) g.
Proof using Type.
  intros Hs Ht Hplay. unfold may_play, playing_actor in Hplay. rewrite Ht in Hplay. cbn [trick_actor trick_lead] in Hplay.
  apply andb_true_iff in Hplay as [Hheld Hfollow].
  unfold play_next, ensure_actor, playing_actor. rewrite Ht. cbn [trick_actor trick_lead]. rewrite bool_decide_true by done. cbn [mbind outcome_bind].
  rewrite Hheld. cbn [negb]. rewrite follow_suit_exact, Hfollow. cbn [mbind outcome_bind negb]. clear Hfollow.
  pose proof (playing_sizes _ Hs) as Hsz. destruct Hs as [Hl Hdeck Hbid Hbal Htr Htot]. unfold on_table, balanced in *. rewrite Ht in Hdeck, Hbal, Htot.
  cbn [trick_lead fmap option_fmap option_map] in *. rewrite decide_True in Htot by eauto.
  set (player := left_of (played_by lead)) in *. set (w := winner_of s lead card).
  pose proof Hdeck as [(Hh & _ & Hk) _]%deck_sum.
  destruct (without_held _ _ (sets_ok_at _ player Hh) Hheld) as (rest & Hrest & Hrok & Hcount & Hocc). rewrite Hrest. cbn [mbind outcome_bind].
  rewrite second_card_wins_exact. cbn [mbind outcome_bind]. change (if beats (played lead) card (pl_trump s) then player else played_by lead) with w.
  destruct (held_elsewhere _ _ _ _ _ player card w Hdeck Hheld) as [Hcw Hne]. pose proof (table_elsewhere _ _ _ _ _ w Hdeck) as Hlw.
  destruct (take_trick _ _ _ (sets_ok_at _ w Hk) Hlw Hcw ltac:(congruence)) as (p1 & p2 & Hp1 & Hp2 & Hpok & Hpc & Hpo).
  rewrite Hp1. cbn [mbind outcome_bind]. rewrite Hp2. cbn [mbind outcome_bind]. rewrite increment_Ok by apply Hsz. cbn [mbind outcome_bind].
  set (hands := set_at (pl_hands s) player rest). set (captured := set_at (pl_captured s) w p2).
  set (won := set_at (pl_tricks_won s) w (TricksOf (tricks_get (at_ (pl_tricks_won s) w) + 1))).
  pose proof (deck_take _ _ _ _ player card (played lead) rest w p2 Hdeck Hrok Hpok Hocc Hpo) as Hdeck'. fold hands captured in Hdeck'.
  pose proof (pair_sum card_count (pl_hands s) player rest) as Hph. pose proof (pair_sum card_count (pl_captured s) w p2) as Hpk. fold hands in Hph. fold captured in Hpk.
  clear Hrest Hp1 Hp2 Hheld Hcw Hlw Hne Hocc Hpo Hh Hk Hdeck.
  assert (card_count hands.1 = card_count hands.2) as Hlevel.
  { unfold hands, player in *. clear -Hbal Hcount. destruct (played_by lead); cbn [left_of at_ set_at fst snd] in *; lia. }
  assert (∀ p, tricks_get (at_ won p) = tricks_get (at_ (pl_tricks_won s) p) + (if bool_decide (p = w) then 1 else 0)) as Hwon.
  { intros p. unfold won. rewrite at_set_at. case_bool_decide as Hp; [by subst p|lia]. }
  assert (∀ p, card_count (at_ captured p) = 2 * tricks_get (at_ won p)) as Hown.
  { intros p. rewrite Hwon. unfold captured. rewrite at_set_at. specialize (Htr p). case_bool_decide as Hp; [subst p; lia|lia]. }
  clearbody hands captured won. pose proof Hdeck' as [((Hh0 & Hh1) & _) _]%deck_sum. unfold items. cbn [forallb].
  rewrite (is_empty_occ _ Hh0), (is_empty_occ _ Hh1), andb_true_r, <-Hlevel, andb_diag. pose proof (card_count_nonneg hands.1) as Hnn. clear Hh0 Hh1.
  destruct (card_count hands.1 =? 0) eqn:Hend; eexists; (split; [done|]).
  - apply Z.eqb_eq in Hend. split; [|cbn [trick_done sc_ledger sc_bids sc_tricks_won]; split_and!; [done..|lia]].
    split; cbn [sc_ledger sc_trump sc_undealt sc_bids sc_captured sc_tricks_won]; [done|apply (deck_no_hands hands); [done|lia|lia]|done..|].
    pose proof (Hown PlayerZero). pose proof (Hown PlayerOne). cbn [at_] in *. lia.
  - apply Z.eqb_neq in Hend. split; [|cbn [trick_done pl_trick pl_ledger pl_bids pl_tricks_won pl_hands]; split_and!; [done..|lia]].
    split; unfold balanced, on_table; cbn [pl_ledger pl_hands pl_trump pl_undealt pl_bids pl_trick pl_captured pl_tricks_won trick_lead fmap option_fmap option_map];
      [done..|lia|done|rewrite decide_False by (by intros [? ?]); lia].
Qed.
End Steps.
