(* ===== verification/ModelRules.v ===== *)
(** * The six-card scope: settlement and legal actions

    What settling a round does, which actions are offered, and that exactly the offered
    actions are accepted. *)

From Stdlib Require Import ZifyBool.
From stdpp Require Import base strings numbers option list.
From S2P Require Import Prelude Domain DomainLaws Formal ModelFinite ModelKernels ModelState ModelSemantics ModelDeals ModelInvariant.

Local Open Scope Z_scope.

(** ** Settlement *)

Definition outcome_of (bid : Bid) (tricks : Z) (r : RoundId) : RoundOutcome :=
  if bid_get bid =? tricks then if tricks =? hand_size r then AllTricks else Exact else Miss.

Definition points_of (bid : Bid) (tricks : Z) (r : RoundId) : Z := (score_of bid tricks r).1.2.
Definition missed (bid : Bid) (tricks : Z) : Z := if bid_get bid =? tricks then 0 else 1.

Definition event_of (s : Scoring) (p : Player) : RoundScoreEvent :=
  let bid := at_ (sc_bids s) p in
  let tricks := tricks_get (at_ (sc_tricks_won s) p) in
  {| ev_player := p; ev_bid := bid; ev_tricks_won := tricks; ev_outcome := outcome_of bid tricks (round (sc_ledger s));
     ev_points := points_of bid tricks (round (sc_ledger s)); ev_payment_cents := 10 * missed bid tricks |}.

(** The scores and the pot after a round. *)
Definition settled_score (s : Scoring) (p : Player) : Score :=
  ScoreOf (score_get (at_ (scores (sc_ledger s)) p) + ev_points (event_of s p)).

Definition settled_scores (s : Scoring) : Two Score := (settled_score s PlayerZero, settled_score s PlayerOne).

Definition misses (s : Scoring) : Z :=
  missed (sc_bids s).1 (tricks_get (sc_tricks_won s).1) + missed (sc_bids s).2 (tricks_get (sc_tricks_won s).2).

Definition settled_pot (s : Scoring) : Pot := PotOf (pot_misses (pot (sc_ledger s)) + misses s).

Definition settled_game (s : Scoring) : Game :=
  match next_round (round (sc_ledger s)) with
  | Some r => GAwaitingDeal {| aw_ledger := {| dealer := left_of (dealer (sc_ledger s)); round := r; scores := settled_scores s; pot := settled_pot s |} |}
  | None =>
      let '(a, b) := (score_get (settled_score s PlayerZero), score_get (settled_score s PlayerOne)) in
      GFinished {| fi_scores := settled_scores s; fi_pot := settled_pot s; fi_winners := (b <=? a, a <=? b) |}
  end.

Lemma points_bounds bid tricks r : legal_for bid r = true → 0 ≤ points_of bid tricks r ≤ 20 + hand_size r.
Proof.
  unfold legal_for, points_of, score_of. intros Hb. assert (0 ≤ bid_get bid) by (destruct bid; cbn; lia).
  destruct (bid_get bid =? tricks); [destruct (tricks =? hand_size r)|]; cbn [fst snd]; destruct r; cbn [hand_size] in *; lia.
Qed.

Lemma missed_bounds bid tricks : 0 ≤ missed bid tricks ≤ 1.
Proof. unfold missed. destruct (bid_get bid =? tricks); lia. Qed.

Lemma bound_step r : score_bound r + 20 + hand_size r = match next_round r with Some r' => score_bound r' | None => 64 end.
Proof. by destruct r. Qed.

Lemma winner_exists (a b : Z) : (b <=? a) || (a <=? b) = true.
Proof. lia. Qed.

Section Settle.
Context `{Formal.Weavy}.

Lemma scoring_tricks s p : scoring_ok s → 0 ≤ tricks_get (at_ (sc_tricks_won s) p) ≤ 2.
Proof using Type.
  intros Hs. pose proof (so_total _ Hs) as Ht. pose proof (scoring_sizes _ Hs PlayerZero) as H0. pose proof (scoring_sizes _ Hs PlayerOne) as H1.
  cbn [at_] in *. assert (hand_size (round (sc_ledger s)) ≤ 2) by (destruct (round (sc_ledger s)); cbn; lia). destruct p; cbn [at_]; lia.
Qed.

Lemma score_player_Ok s p sc q ev : scoring_ok s → at_ sc p = at_ (scores (sc_ledger s)) p → 0 ≤ pot_misses q ≤ 5 →
  score_player s (sc, q, ev) p = Ok (set_at sc p (settled_score s p),
    PotOf (pot_misses q + missed (at_ (sc_bids s) p) (tricks_get (at_ (sc_tricks_won s) p))), ev ++ [event_of s p]).
Proof using Type.
  intros Hs Hsc Hq. pose proof (scoring_tricks s p Hs) as Ht. unfold score_player. rewrite Hsc, round_score_exact by lia.
  pose proof (lo_score _ (so_ledger _ Hs) p) as Hl. pose proof (so_bid _ Hs p) as Hb.
  pose proof (points_bounds _ (tricks_get (at_ (sc_tricks_won s) p)) _ Hb) as Hp. unfold points_of in Hp.
  pose proof (bound_step (round (sc_ledger s))) as Hstep.
  assert (score_bound (round (sc_ledger s)) + 20 + hand_size (round (sc_ledger s)) ≤ 64) as H64 by (destruct (round (sc_ledger s)); cbn; lia).
  unfold settled_score, event_of, missed, outcome_of, points_of in *. cbn [ev_points].
  set (bid := at_ (sc_bids s) p) in *. set (tricks := tricks_get (at_ (sc_tricks_won s) p)) in *. set (r := round (sc_ledger s)) in *.
  set (old := score_get (at_ (scores (sc_ledger s)) p)) in *.
  assert (∀ points, 0 ≤ points ≤ 20 + hand_size r → score_add (at_ (scores (sc_ledger s)) p) points = Ok (ScoreOf (old + points))) as Hadd.
  { intros points Hpt. unfold score_add, checked, in_widthb. fold old. change (2 ^ 8) with 256.
    replace ((0 <=? old + points) && (old + points <? 256)) with true by lia. cbn [ok_or mbind outcome_bind].
    by replace (old + points <=? 64) with true by lia. }
  assert (1 ≤ hand_size r) as Hsize by (destruct r; cbn; lia). clear Hsc Hs.
  assert (0 ≤ bid_get bid ≤ 2) as Hbg by (destruct bid; cbn; lia).
  unfold score_of in *. destruct (bid_get bid =? tricks).
  - destruct (tricks =? hand_size r); cbn [mbind outcome_bind ok_or fst snd] in *; rewrite Hadd by lia; cbn; rewrite Z.add_0_r; by destruct q.
  - cbn [mbind outcome_bind ok_or fst snd] in *. rewrite Hadd by lia. cbn. unfold add_miss. by replace (pot_misses q <? 6) with true by lia.
Qed.

Lemma settled_ok s : scoring_ok s → game_ok (settled_game s).
Proof using Type.
  intros Hs. pose proof (so_ledger _ Hs) as [Hl Hp]. pose proof (so_bid _ Hs) as Hb. pose proof (bound_step (round (sc_ledger s))) as Hstep.
  assert (∀ p, 0 ≤ score_get (settled_score s p) ≤ score_bound (round (sc_ledger s)) + 20 + hand_size (round (sc_ledger s))) as Hsc.
  { intros p. unfold settled_score, event_of. cbn [score_get ev_points].
    pose proof (points_bounds _ (tricks_get (at_ (sc_tricks_won s) p)) _ (Hb p)). specialize (Hl p). lia. }
  assert (∀ p, at_ (settled_scores s) p = settled_score s p) as Hat by by intros [].
  pose proof (missed_bounds (sc_bids s).1 (tricks_get (sc_tricks_won s).1)). pose proof (missed_bounds (sc_bids s).2 (tricks_get (sc_tricks_won s).2)).
  unfold settled_game, settled_pot, misses. revert Hp Hstep Hsc. destruct (round (sc_ledger s)) eqn:Hr; intros Hp Hstep Hsc; clear Hr Hl Hb; cbn [next_round round_code score_bound hand_size] in *;
    (split; cbn [aw_ledger scores round pot fi_scores fi_pot fi_winners pot_misses round_code score_bound]; [intros p; rewrite Hat; specialize (Hsc p); lia|lia|..]).
  done.
Qed.

(** The outcome of a finished game always has a winner to divide the pot among. *)
Lemma final_outcome_Ok {E} s : finished_ok s → ∃ o, final_outcome (E := E) s = Ok o ∧ out_scores o = fi_scores s ∧ out_pot o = fi_pot s ∧
  out_winners o = fi_winners s ∧ winner_count (pot_division o) = Z.of_nat (length (List.filter id (items (fi_winners s)))) ∧
  1 ≤ winner_count (pot_division o) ∧
  cents (fi_pot s) = winner_count (pot_division o) * cents_per_winner (pot_division o) + remainder_cents (pot_division o) ∧
  0 ≤ remainder_cents (pot_division o) < winner_count (pot_division o).
Proof using Type.
  intros Hs. unfold final_outcome. pose proof (fo_winners _ Hs) as Hw. pose proof (winner_exists (score_get (fi_scores s).1) (score_get (fi_scores s).2)) as Hex.
  set (n := Z.of_nat (length (List.filter id (items (fi_winners s))))).
  assert (1 ≤ n) as Hn.
  { unfold n. rewrite Hw. unfold items. cbn [List.filter fst snd]. unfold id.
    destruct (score_get (fi_scores s).2 <=? score_get (fi_scores s).1), (score_get (fi_scores s).1 <=? score_get (fi_scores s).2); cbn; done || lia. }
  replace (n =? 0) with false by lia. eexists. split; [done|]. cbn. split_and!; try done; try lia;
    pose proof (Z.div_mod (cents (fi_pot s)) n); pose proof (Z.mod_pos_bound (cents (fi_pot s)) n); lia.
Qed.

Lemma settle_Ok s g a : scoring_ok s → ∃ t, settle g a s = Ok t ∧ action t = a ∧ next t = settled_game s ∧
  round_scores t = Some (event_of s PlayerZero, event_of s PlayerOne) ∧ origins t = score_origins ∧
  (∀ o, game_outcome t = Some o → ∃ f, settled_game s = GFinished f ∧ final_outcome (E := ModelError) f = Ok o) ∧
  (∀ f, settled_game s = GFinished f → is_Some (game_outcome t)).
Proof using Type.
  intros Hs. unfold settle, Player_ALL. cbn [foldM]. pose proof (lo_pot _ (so_ledger _ Hs)) as Hp.
  assert (round_code (round (sc_ledger s)) ≤ 2) by (destruct (round (sc_ledger s)); cbn; lia).
  pose proof (missed_bounds (at_ (sc_bids s) PlayerZero) (tricks_get (at_ (sc_tricks_won s) PlayerZero))) as Hm.
  rewrite (score_player_Ok s PlayerZero) by (done || lia). cbn [mbind outcome_bind].
  rewrite (score_player_Ok s PlayerOne) by (done || (cbn [pot_misses]; lia)). cbn [mbind outcome_bind app expect pot_misses].
  rewrite final_round_exact. cbn [mbind outcome_bind].
  change (set_at (set_at (scores (sc_ledger s)) PlayerZero (settled_score s PlayerZero)) PlayerOne (settled_score s PlayerOne)) with (settled_scores s).
  rewrite <-Z.add_assoc. change (PotOf _) with (settled_pot s). pose proof (settled_ok s Hs) as Hok. unfold settled_game in *.
  destruct (round (sc_ledger s)) eqn:Hr; cbn [next_round] in *; match goal with |- context [bool_decide (?x = OneDescending)] => let b := eval vm_compute in (bool_decide (x = OneDescending)) in change (bool_decide (x = OneDescending)) with b end; cbn [ok_or mbind outcome_bind terminal_outcome].
  1,2: eexists; split; [done|]; cbn; split_and!; done.
  pose proof (fo_score _ Hok PlayerZero) as HA. pose proof (fo_score _ Hok PlayerOne) as HB. cbn [fi_scores at_] in HA, HB.
  cbn [settled_scores fst snd] in *. rewrite winner_mask_exact by done. cbn [mbind outcome_bind terminal_outcome].
  destruct (final_outcome_Ok (E := ModelError) _ Hok) as (o & Ho & _).
  change (settled_score s PlayerZero, settled_score s PlayerOne) with (settled_scores s) in *.
  rewrite Ho. cbn [mbind outcome_bind]. eexists. split; [done|]. cbn. split_and!; [done..| |by eauto].
  intros o' [= <-]. eauto.
Qed.
End Settle.

(** ** What is refused, and what is offered *)

(** Why a phase refuses an action, if it does: the checks in the order of the code. *)
Definition deal_refusal (s : AwaitingDeal) (d : Deal) : option ModelError :=
  if deal_hand_size d =? hand_size (round (aw_ledger s)) then None
  else Some (DealHandMismatch (hand_size (round (aw_ledger s))) (deal_hand_size d)).

Definition bid_refusal (s : Bidding) (player : Player) (bid : Bid) : option ModelError :=
  if bool_decide (bidding_actor s = player) then
    if legal_for bid (round (bi_ledger s)) then None else Some (BidExceedsHand bid (hand_size (round (bi_ledger s))))
  else Some (WrongActor (bidding_actor s) player).

Definition play_refusal (s : Playing) (player : Player) (card : Card) : option ModelError :=
  if bool_decide (playing_actor s = player) then
    if holds (at_ (pl_hands s) player) card then
      match trick_lead (pl_trick s) with
      | None => None
      | Some lead =>
          if must_follow (contains_suit (at_ (pl_hands s) player) (suit (played lead))) card (played lead) then None
          else Some (MustFollowSuit (suit (played lead)))
      end
    else Some (CardAbsent card)
  else Some (WrongActor (playing_actor s) player).

Definition refusal (g : Game) (a : ModelAction) : option ModelError :=
  match g, a with
  | GAwaitingDeal s, ActDeal d => deal_refusal s d
  | GBidding s, ActPlayer (PlaceBid player bid) => bid_refusal s player bid
  | GPlaying s, ActPlayer (PlayCard player card) => play_refusal s player card
  | GScoring _, ActSettle | GFinished _, ActAbsorb => None
  | _, _ => Some WrongPhase
  end.

Definition accepted_by (g : Game) (a : ModelAction) : bool := bool_decide (refusal g a = None).

(** The actions of a listing *)
Definition offers (l : LegalActions) (a : ModelAction) : bool :=
  match l, a with
  | LegalChance deals, ActDeal d => bool_decide (d ∈ deals)
  | LegalPlayer actions, ActPlayer p => bool_decide (p ∈ actions)
  | LegalEnvironment, ActSettle | LegalFinished, ActAbsorb => true
  | _, _ => false
  end.

(** A deal is one that the constructors make. *)
Definition action_ok (a : ModelAction) : bool := match a with ActDeal d => deal_ok d | _ => true end.

(** ** How far the game is from its end *)

(** The transitions a round takes, and those after it. *)
Definition after_round (r : RoundId) : Z := match r with OneAscending => 14 | TwoCards => 6 | OneDescending => 0 end.

Definition steps_left (g : Game) : Z :=
  match g with
  | GAwaitingDeal s => after_round (round (aw_ledger s)) + 4 + 2 * hand_size (round (aw_ledger s))
  | GBidding s => after_round (round (bi_ledger s)) + 1 + 2 * hand_size (round (bi_ledger s)) + match bi_progress s with BidFirst => 2 | DealerLast _ => 1 end
  | GPlaying s => after_round (round (pl_ledger s)) + 1 + card_count (pl_hands s).1 + card_count (pl_hands s).2
  | GScoring s => after_round (round (sc_ledger s)) + 1
  | GFinished _ => 0
  end.

Lemma filter_with_total {E A} (f : A → outcome E bool) (p : A → bool) l : (∀ x, f x = Ok (p x)) → filter_with f l = Ok (List.filter p l).
Proof.
  intros Hf. unfold filter_with. induction l as [|x l IH]; [done|]. cbn [filter_mapM List.filter]. rewrite Hf. cbn [mbind outcome_bind].
  rewrite IH. cbn [mbind outcome_bind]. by destruct (p x).
Qed.

Lemma all_bids b : b ∈ Bid_ALL.
Proof. destruct b; by apply (bool_decide_eq_true_1 (_ ∈ _)); vm_compute. Qed.

Lemma elem_of_filter_map {A B} `{EqDecision A, EqDecision B} (f : A → B) (p : A → bool) (l : list A) (x : A) : (∀ y, f y = f x → y = x) →
  bool_decide (f x ∈ f <$> List.filter p l) = bool_decide (x ∈ l) && p x.
Proof.
  intros Hf. apply eq_bool_prop_intro. rewrite andb_True, !bool_decide_spec, list_elem_of_fmap. setoid_rewrite list_elem_of_In.
  setoid_rewrite filter_In. rewrite Is_true_true. split.
  - intros (y & Hy & Hin). by rewrite (Hf y (eq_sym Hy)) in Hin.
  - intros [Hin Hp]. by exists x.
Qed.

Section Legality.
Context `{Formal.Weavy}.

(** Exactly the actions that are not refused are offered. *)
Lemma offered_exact g : game_ok g → ∃ l, legal_actions g = Ok l ∧ ∀ a, action_ok a = true → offers l a = accepted_by g a.
Proof using Type.
  destruct g as [s|s|s|s|s]; cbn [legal_actions game_ok]; intros Hg; unfold accepted_by.
  - destruct (all_for_exact (round (aw_ledger s))) as (deals & Hd & _ & _ & Hmem). rewrite Hd. eexists. split; [done|].
    intros [d| | |]; try done. cbn [offers refusal action_ok]. intros Hok. apply bool_decide_ext. rewrite Hmem. unfold deal_refusal.
    destruct (deal_hand_size d =? hand_size (round (aw_ledger s))) eqn:He; split; intros Hx; try done; [split; [done|lia]|destruct Hx; lia].
  - rewrite (filter_with_total _ (λ b, legal_for b (round (bi_ledger s)))) by (intros b; by rewrite bid_legal_exact). eexists. split; [done|].
    intros [|[p b|p c]| |] _; try done; cbn [offers refusal]; [|apply bool_decide_false; by intros (? & ? & _)%list_elem_of_fmap].
    unfold bid_refusal. destruct (bool_decide_reflect (bidding_actor s = p)) as [<-|Hp].
    + rewrite (elem_of_filter_map (PlaceBid _)) by (by intros ? [= ->]). rewrite bool_decide_true by apply all_bids. by destruct (legal_for b _).
    + rewrite !bool_decide_false; [done..|]. intros (? & [= ->] & _)%list_elem_of_fmap. done.
  - set (p := λ c, match trick_lead (pl_trick s) with
        | None => true | Some lead => must_follow (contains_suit (at_ (pl_hands s) (playing_actor s)) (suit (played lead))) c (played lead) end).
    rewrite (filter_with_total _ p) by (intros c; unfold p; destruct (trick_lead (pl_trick s)); [by rewrite follow_suit_exact|done]).
    eexists. split; [done|]. intros [|[q b|q c]| |] _; try done; cbn [offers refusal]; [apply bool_decide_false; by intros (? & ? & _)%list_elem_of_fmap|].
    unfold play_refusal. destruct (bool_decide_reflect (playing_actor s = q)) as [<-|Hq].
    + rewrite (elem_of_filter_map (PlayCard _)) by (by intros ? [= ->]). rewrite (bool_decide_ext _ (holds (at_ (pl_hands s) (playing_actor s)) c = true)) by apply elem_of_cards_of.
      unfold p. destruct (holds _ c); [|done]. destruct (trick_lead (pl_trick s)); [|done]. by destruct (must_follow _ c _).
    + rewrite !bool_decide_false; [done..|]. intros (? & [= ->] & _)%list_elem_of_fmap. done.
  - eexists. split; [done|]. by intros [| [] | |].
  - eexists. split; [done|]. by intros [| [] | |].
Qed.

(** ** Transitions *)

Lemma accepted_bid s player bid : bidding_ok s → bid_refusal s player bid = None →
  ∃ g, bid_next s player bid = Ok g ∧ game_ok g ∧ steps_left g = steps_left (GBidding s) - 1.
Proof using Type.
  intros Hs. unfold bid_refusal. case_bool_decide as Hp; [|done]. destruct (legal_for bid _) eqn:Hb; [|done]. intros _.
  destruct (bid_next_ok s player bid Hs (eq_sym Hp) Hb) as (g & Hg & Hok). exists g. split_and!; [done..|].
  unfold bid_next, ensure_actor in Hg. rewrite bool_decide_true in Hg by done. cbn [mbind outcome_bind] in Hg. rewrite bid_legal_exact, Hb in Hg.
  cbn [mbind outcome_bind negb] in Hg. injection Hg as <-. cbn [steps_left]. pose proof (bo_hands _ Hs PlayerZero). pose proof (bo_hands _ Hs PlayerOne).
  cbn [at_] in *. destruct (bi_progress s); cbn [steps_left bi_ledger bi_progress pl_ledger pl_hands]; lia.
Qed.

Lemma refused_bid s player bid e : bid_refusal s player bid = Some e → bid_next s player bid = Err e.
Proof using Type.
  unfold bid_refusal, bid_next, ensure_actor. case_bool_decide as Hp; [|by intros [= ->]]. cbn [mbind outcome_bind]. rewrite bid_legal_exact. cbn [mbind outcome_bind].
  destruct (legal_for bid _); [done|]. by intros [= ->].
Qed.

Lemma trick_done_steps s w g : trick_done s w g → steps_left g = steps_left (GPlaying s) - 1.
Proof using Type. destruct g as [| |g|g|]; cbn [trick_done steps_left]; [done..| | |done]; [intros (_ & -> & _ & _ & Hc)|intros (-> & _ & _ & Hc)]; lia. Qed.

Lemma accepted_play s player card : playing_ok s → play_refusal s player card = None →
  ∃ g, play_next s player card = Ok g ∧ game_ok g ∧ steps_left g = steps_left (GPlaying s) - 1.
Proof using Type.
  intros Hs. unfold play_refusal. case_bool_decide as Hp; [|done]. destruct (holds _ card) eqn:Hh; [|done]. intros Hf.
  assert (may_play s card = true) as Hmay.
  { unfold may_play. rewrite Hp, Hh. cbn [andb]. destruct (trick_lead (pl_trick s)); [|done]. by destruct (must_follow _ card _). }
  unfold playing_actor in Hp. destruct (pl_trick s) as [q|lead] eqn:Ht; cbn [trick_actor] in Hp; subst player.
  - destruct (lead_next_ok s q card Hs Ht Hmay) as (g & Hg & Hok & _ & Hl & _ & Hc). exists (GPlaying g). split_and!; [done..|]. cbn [steps_left]. rewrite Hl. lia.
  - destruct (follow_next_ok s lead card Hs Ht Hmay) as (g & Hg & Hok & Hd). exists g. split_and!; [done..|]. by apply (trick_done_steps s _ g Hd).
Qed.

Lemma refused_play s player card e : play_refusal s player card = Some e → play_next s player card = Err e.
Proof using Type.
  unfold play_refusal, play_next, ensure_actor. case_bool_decide as Hp; [|by intros [= ->]]. cbn [mbind outcome_bind].
  destruct (holds _ card); cbn [negb]; [|by intros [= ->]]. destruct (trick_lead (pl_trick s)) as [lead|]; [|done]. rewrite follow_suit_exact. cbn [mbind outcome_bind].
  destruct (must_follow _ card _); [done|]. by intros [= ->].
Qed.

(** What a transition produces from its action and its state. *)
Definition step_body (g : Game) (a : ModelAction) : outcome ModelError Transition :=
  match g, a with
  | GAwaitingDeal state, ActDeal deal => g' ← deal_next state deal; Ok (build_transition g a g' None deal_origins ["phase"; "hands"; "trump"; "undealt"])
  | GBidding state, ActPlayer (PlaceBid player bid) => g' ← bid_next state player bid; Ok (build_transition g a g' None bid_origins ["phase"; "bids"; "actor"])
  | GPlaying state, ActPlayer (PlayCard player card) =>
      g' ← play_next state player card; Ok (build_transition g a g' None play_origins ["phase"; "hands"; "current-trick"; "captured"; "tricks-won"])
  | GScoring state, ActSettle => settle g a state
  | GFinished state, ActAbsorb => outcome ← final_outcome state; Ok (build_transition g a g (Some outcome) finished_origins [])
  | _, _ => Err WrongPhase
  end.

(** What an accepted action does to the game. *)
Definition steps_to (g g' : Game) : Prop := game_ok g' ∧ match g with GFinished _ => g' = g | _ => steps_left g' = steps_left g - 1 end.

Lemma settled_steps s : steps_left (settled_game s) = steps_left (GScoring s) - 1.
Proof using Type. unfold settled_game. cbn [steps_left]. by destruct (round (sc_ledger s)). Qed.

Lemma step_body_accepted g a : game_ok g → action_ok a = true → refusal g a = None →
  ∃ t, step_body g a = Ok t ∧ action t = a ∧ steps_to g (next t).
Proof using Type.
  unfold steps_to. destruct g as [s|s|s|s|s], a as [d|[player bid|player card]| |]; cbn [refusal game_ok action_ok step_body]; try done; intros Hg Ha Href.
  - unfold deal_refusal in Href. destruct (deal_hand_size d =? _) eqn:Hd; [|done]. apply Z.eqb_eq in Hd.
    destruct (deal_next_ok s d Hg Ha Hd) as (g & Hg' & Hok & Hl). pose proof Hg' as Hg''. rewrite Hg'. eexists. split; [done|]. split_and!; [done..|].
    cbn [build_transition next steps_left]. unfold deal_next, validate_round in Hg''. rewrite Hd, Z.eqb_refl in Hg''. injection Hg'' as <-.
    cbn [bi_ledger bi_progress]. lia.
  - destruct (accepted_bid s player bid Hg Href) as (g & -> & Hok & Hst). by eexists.
  - destruct (accepted_play s player card Hg Href) as (g & -> & Hok & Hst). by eexists.
  - destruct (settle_Ok s (GScoring s) ActSettle Hg) as (t & -> & Hact & Hn & _). exists t. rewrite Hn. split_and!; [done..|by apply settled_ok|apply settled_steps].
  - destruct (final_outcome_Ok (E := ModelError) s Hg) as (o & -> & _). by eexists.
Qed.

Lemma step_body_refused g a e : refusal g a = Some e → step_body g a = Err e.
Proof using Type.
  destruct g as [s|s|s|s|s], a as [d|[player bid|player card]| |]; cbn [refusal step_body]; try (by intros [= ->]).
  - unfold deal_refusal, deal_next, validate_round. destruct (deal_hand_size d =? _); [done|]. by intros [= ->].
  - intros He. by rewrite (refused_bid _ _ _ _ He).
  - intros He. by rewrite (refused_play _ _ _ _ He).
Qed.

Lemma transition_body g a : game_ok g → transition g a = t ← step_body g a; _ ← validate (next t);
  if negb (bool_decide (game_phase g = PhFinished)) && bool_decide (next t = g) then Err (Invariant "nonterminal no-stuttering") else Ok t.
Proof using Type. intros Hg. unfold transition. by rewrite (game_valid g Hg). Qed.

(** An accepted action makes its transition; a refused one is the refusal. *)
Lemma transition_accepted g a : game_ok g → action_ok a = true → refusal g a = None →
  ∃ t, transition g a = Ok t ∧ step_body g a = Ok t ∧ action t = a ∧ steps_to g (next t).
Proof using Type.
  intros Hg Ha Href. destruct (step_body_accepted g a Hg Ha Href) as (t & Ht & Hact & Hto). exists t. split_and!; [|done..].
  rewrite (transition_body g a Hg), Ht. cbn [mbind outcome_bind]. destruct Hto as [Hok Hst]. rewrite (game_valid _ Hok). cbn [mbind outcome_bind].
  destruct (bool_decide_reflect (next t = g)) as [Heq|]; [|by rewrite andb_false_r]. rewrite andb_true_r.
  destruct g; cbn [game_phase] in *; try (rewrite bool_decide_true by done; done); exfalso; rewrite Heq in Hst; lia.
Qed.

Lemma transition_refused g a e : game_ok g → refusal g a = Some e → transition g a = Err e.
Proof using Type. intros Hg He. by rewrite (transition_body g a Hg), (step_body_refused g a e He). Qed.
End Legality.
