(* ===== verification/ModelProperty.v ===== *)
(** * The six-card scope: the property catalog

    poche-model/src/property.rs: the identities and the catalog of the strict model's
    claims, and the predicates that evaluate them on a state or on a transition.  The
    theorems that the predicates hold wherever the game can get to are in
    ModelTheorems.v. *)

From stdpp Require Import base strings numbers option list.
From S2P Require Import Prelude Domain Formal ModelFinite ModelKernels ModelState ModelSemantics.

Local Open Scope Z_scope.

Inductive PropertyId :=
  | CardConservation | LegalActor | ObservationConfidentiality | FixedBids | FollowSuit | TrickWinner | WinnerLeads
  | TrickCountConservation | ScoringAndPot | PhaseProgress | DeadlockFreedom | UniversalTermination | FinishedAbsorbing
  | FinalWinnerSemantics.

#[export] Instance PropertyId_eq_dec : EqDecision PropertyId.
Proof. solve_decision. Defined.

Inductive PropertyClass := ClassStructural | ClassReachableState | ClassTransition | ClassTemporal.

Inductive PropertyExpression :=
  | ExprStructural (text : string)
  | ExprKernel (kernel : KernelId)
  | StatePredicate (name : string)
  | TransitionPredicate (name : string)
  | ExprTemporal (formula : string).

Inductive VerificationStrategy :=
  | StrategyStructural | KernelExhaustive | ReachableStateExhaustive | TransitionExhaustive | DeadlockSearch | SccTermination.

Record NativeCheckRef := mkNativeCheckRef { backend : string; check_id : string }.

Record PropertySpec := mkPropertySpec
  { property_id : PropertyId; stable_id : string; property_class : PropertyClass; expression : PropertyExpression;
    strategy : VerificationStrategy; explanation : string; property_rules : list RuleOrigin; native_checks : list NativeCheckRef }.

Definition spec (id : PropertyId) (stable_id : string) (class : PropertyClass) (expression : PropertyExpression)
    (strategy : VerificationStrategy) (explanation : string) (rules : list RuleOrigin) (checks : list NativeCheckRef) : PropertySpec :=
  {| property_id := id; stable_id := stable_id; property_class := class; expression := expression; strategy := strategy;
     explanation := explanation; property_rules := rules; native_checks := checks |}.

Definition property_catalog : list PropertySpec :=
  [
   spec CardConservation "card-conservation" ClassReachableState (StatePredicate "state_card_partition") ReachableStateExhaustive
     "Each of six cards occurs in exactly one hand, trump, undealt, current-trick, or captured zone."
     [mkRuleOrigin "R-GAME-002" "docs/main.typ:54-62,301-302"; mkRuleOrigin "R-DEAL-004" "docs/main.typ:270"; mkRuleOrigin "R-TRICK-012" "docs/main.typ:304"; mkRuleOrigin "R-ADVANCE-001" "docs/main.typ:357-363"]
     [mkNativeCheckRef "alloy" "CardConservationAndPartition"; mkNativeCheckRef "nusmv" "card_total"; mkNativeCheckRef "prolog" "valid_round_state/1"];
   spec LegalActor "legal-actor" ClassReachableState (StatePredicate "state_legal_actor_and_actions") ReachableStateExhaustive
     "Every enumerated player action belongs to the unique acting seat; chance and settlement remain disjoint."
     [mkRuleOrigin "R-GAME-003" "docs/main.typ:46-52"; mkRuleOrigin "R-GAME-004" "docs/main.typ:70-79"; mkRuleOrigin "R-BID-001" "docs/main.typ:273-280"; mkRuleOrigin "R-TRICK-004" "docs/main.typ:290"]
     [mkNativeCheckRef "alloy" "DealerBidsLastInClockwiseOrder"; mkNativeCheckRef "nusmv" "actor invariants"; mkNativeCheckRef "prolog" "legal_action/2"];
   spec ObservationConfidentiality "observation-confidentiality" ClassStructural (ExprStructural "Observation has one private_hand field indexed only by viewer") StrategyStructural
     "A player's observation carries that player's cards and only public counts/cards from every other zone."
     [mkRuleOrigin "R-GAME-004" "docs/main.typ:70-79"; mkRuleOrigin "R-BID-003" "docs/main.typ:278"; mkRuleOrigin "R-TRICK-004" "docs/main.typ:290"]
     [mkNativeCheckRef "rust-oracle" "replay_is_deterministic_and_observation_hides_other_hands"; mkNativeCheckRef "shared" "private-observation-does-not-leak"];
   spec FixedBids "fixed-bids" ClassTransition (TransitionPredicate "transition_preserves_announced_bids") TransitionExhaustive
     "Once announced, each bid remains unchanged through every play and scoring state."
     [mkRuleOrigin "R-BID-002" "docs/main.typ:275-277"; mkRuleOrigin "R-BID-003" "docs/main.typ:278"]
     [mkNativeCheckRef "alloy" "immutable Round.bid snapshot"; mkNativeCheckRef "nusmv" "bid persistence invariants"; mkNativeCheckRef "prolog" "immutable bid list"];
   spec FollowSuit "follow-suit" ClassTransition (ExprKernel FollowSuitLegal) KernelExhaustive
     "A follower with lead suit may select only lead-suit cards; a void follower may select any hand card."
     [mkRuleOrigin "R-TRICK-005" "docs/main.typ:292-294"; mkRuleOrigin "R-TRICK-006" "docs/main.typ:294"]
     [mkNativeCheckRef "alloy" "FollowSuitIsEnforced"; mkNativeCheckRef "nusmv" "follow-suit TRANS"; mkNativeCheckRef "prolog" "follow_suit corpus"];
   spec TrickWinner "trick-winner" ClassTransition (ExprKernel SecondCardWins) KernelExhaustive
     "Trump eligibility dominates lead-suit eligibility, then rank uniquely determines the two-card trick winner."
     [mkRuleOrigin "R-TRICK-007" "docs/main.typ:296-302"; mkRuleOrigin "R-TRICK-008" "docs/main.typ:296-302"; mkRuleOrigin "R-TRICK-009" "docs/main.typ:300"; mkRuleOrigin "R-TRICK-010" "docs/main.typ:301"; mkRuleOrigin "R-TRICK-011" "docs/main.typ:302"]
     [mkNativeCheckRef "alloy" "WinnerIsEligibleAndHighest"; mkNativeCheckRef "nusmv" "expected_winner"; mkNativeCheckRef "prolog" "card_strength/5"];
   spec WinnerLeads "winner-leads-next-trick" ClassTransition (TransitionPredicate "transition_winner_becomes_leader") TransitionExhaustive
     "The resolved trick winner receives the cards/credit and leads the next trick when one remains."
     [mkRuleOrigin "R-TRICK-002" "docs/main.typ:286-288"; mkRuleOrigin "R-TRICK-012" "docs/main.typ:304"]
     [mkNativeCheckRef "alloy" "TrickWinnerAndCapture"; mkNativeCheckRef "nusmv" "winner-leads CTL"; mkNativeCheckRef "prolog" "collect_cards/4"];
   spec TrickCountConservation "trick-count-conservation" ClassReachableState (StatePredicate "state_trick_credit_matches_captured_cards") ReachableStateExhaustive
     "Each completed trick contributes two captured cards and exactly one trick credit."
     [mkRuleOrigin "R-TRICK-001" "docs/main.typ:282-284"; mkRuleOrigin "R-TRICK-012" "docs/main.typ:304"]
     [mkNativeCheckRef "alloy" "TrickWinnerAndCapture"; mkNativeCheckRef "nusmv" "captured counts"; mkNativeCheckRef "prolog" "valid_round_state/1"];
   spec ScoringAndPot "scoring-and-pot" ClassTransition (ExprKernel RoundScore) KernelExhaustive
     "Round points, missed-bid payment, cumulative score, and pot updates agree while score and money stay distinct."
     [mkRuleOrigin "R-SCORE-001" "docs/main.typ:311-313"; mkRuleOrigin "R-SCORE-002" "docs/main.typ:317-323"; mkRuleOrigin "R-SCORE-003" "docs/main.typ:317-323"; mkRuleOrigin "R-SCORE-004" "docs/main.typ:317-323"; mkRuleOrigin "R-SCORE-005" "docs/main.typ:323"; mkRuleOrigin "R-MONEY-001" "docs/main.typ:350-353"; mkRuleOrigin "R-MONEY-002" "docs/main.typ:354"]
     [mkNativeCheckRef "alloy" "ScoreAndPaymentAgree"; mkNativeCheckRef "nusmv" "expected_round_score"; mkNativeCheckRef "prolog" "round_score/6"];
   spec PhaseProgress "phase-progress" ClassTransition (TransitionPredicate "nonterminal_transition_changes_state") TransitionExhaustive
     "Every nonterminal action consumes a bid/card/round boundary; no nonterminal self-loop exists."
     [mkRuleOrigin "R-GAME-003" "docs/main.typ:46-52"; mkRuleOrigin "R-ADVANCE-003" "docs/main.typ:363"]
     [mkNativeCheckRef "alloy" "PhaseTraceShape"; mkNativeCheckRef "nusmv" "phase CTL properties"; mkNativeCheckRef "prolog" "step/3"];
   spec DeadlockFreedom "deadlock-freedom" ClassTemporal (ExprTemporal "AG EX TRUE; only Finished uses the absorbing edge") DeadlockSearch
     "Every reachable nonterminal state has at least one legal transition and Finished has its explicit absorbing edge."
     [mkRuleOrigin "R-GAME-003" "docs/main.typ:46-52"]
     [mkNativeCheckRef "nusmv" "AG EX TRUE"; mkNativeCheckRef "rust-explicit" "nonterminal deadlock search"];
   spec UniversalTermination "universal-termination" ClassTemporal (ExprTemporal "AF Finished from every prepared initial state, without fairness") SccTermination
     "No reachable nonterminal strongly connected component can avoid Finished forever."
     [mkRuleOrigin "R-ADVANCE-003" "docs/main.typ:363"; mkRuleOrigin "R-FINISH-001" "docs/main.typ:365-368"]
     [mkNativeCheckRef "nusmv" "AF finished"; mkNativeCheckRef "rust-explicit" "nonterminal SCC search"];
   spec FinishedAbsorbing "finished-absorbing" ClassTransition (TransitionPredicate "finished_has_only_absorb_self_loop") TransitionExhaustive
     "Finished has exactly its total-transition self-loop and rejects every gameplay action."
     [mkRuleOrigin "R-GAME-003" "docs/main.typ:46-52"; mkRuleOrigin "R-FINISH-001" "docs/main.typ:365-368"]
     [mkNativeCheckRef "nusmv" "absorbing terminal state"; mkNativeCheckRef "rust-explicit" "finished successor check"];
   spec FinalWinnerSemantics "final-winner-semantics" ClassReachableState (ExprKernel WinnerMask) KernelExhaustive
     "Every and only maximum-score seat is marked a winner; ties remain shared victories."
     [mkRuleOrigin "R-GAME-005" "docs/main.typ:64-68"; mkRuleOrigin "R-FINISH-003" "docs/main.typ:369"; mkRuleOrigin "R-FINISH-004" "docs/main.typ:370"]
     [mkNativeCheckRef "alloy" "FinalWinnersAreExactlyTheMaxima"; mkNativeCheckRef "nusmv" "winner maximum definitions"; mkNativeCheckRef "prolog" "game_winners/2"]].

(** ** Predicates *)

(** [.is_ok()] *)
Definition succeeds {E E' A} (r : outcome E A) : outcome E' bool :=
  match r with Ok _ => Ok true | Err _ => Ok false | Panic => Panic end.

Definition action_player (action : PlayerAction) : Player := match action with PlaceBid player _ | PlayCard player _ => player end.

Definition action_matches_turn (action : ModelAction) (owner : TurnOwner) : bool :=
  match action, owner with
  | ActDeal _, OwnerChance | ActSettle, OwnerEnvironment | ActAbsorb, OwnerFinished => true
  | ActPlayer action, OwnerPlayer actor => bool_decide (action_player action = actor)
  | _, _ => false
  end.

Definition private_hand (state : Game) (viewer : Player) : CardSet :=
  match state with
  | GBidding state => at_ (bi_hands state) viewer
  | GPlaying state => at_ (pl_hands state) viewer
  | _ => EMPTY
  end.

Definition catalog_bids (state : Game) : Two (option Bid) :=
  match state with
  | GBidding state => bids_so_far state
  | GPlaying state => some_bids (pl_bids state)
  | GScoring state => some_bids (sc_bids state)
  | _ => both None
  end.

Definition fixed_bids_preserved (g g' : Game) : bool :=
  match g with
  | GScoring _ => true
  | _ => forallb (λ '(old, new), bool_decide (old = None) || bool_decide (old = new)) (zip (items (catalog_bids g)) (items (catalog_bids g')))
  end.

Definition outcome_code (o : RoundOutcome) : Z := match o with Miss => 0 | Exact => 1 | AllTricks => 2 end.

Section Catalog.
Context `{Formal.Weavy}.

Definition actions_match_owner (state : Game) : outcome ModelError bool :=
  actions ← legal_actions state;
  Ok (match turn_owner state, actions with
      | OwnerChance, LegalChance deals => negb (bool_decide (deals = []))
      | OwnerPlayer player, LegalPlayer actions =>
          negb (bool_decide (actions = [])) && forallb (λ a, bool_decide (action_player a = player)) actions
      | OwnerEnvironment, LegalEnvironment | OwnerFinished, LegalFinished => true
      | _, _ => false
      end).

Definition evaluate_state_property (id : PropertyId) (state : Game) : outcome ModelError bool :=
  match id with
  | CardConservation | TrickCountConservation | FinalWinnerSemantics => succeeds (validate state)
  | LegalActor => actions_match_owner state
  | ObservationConfidentiality =>
      Ok (forallb (λ viewer, bool_decide (ob_private_hand (observe state viewer) = private_hand state viewer)) Player_ALL)
  | DeadlockFreedom =>
      actions ← legal_actions state;
      Ok (match actions with
          | LegalChance deals => negb (bool_decide (deals = []))
          | LegalPlayer actions => negb (bool_decide (actions = []))
          | LegalEnvironment | LegalFinished => true
          end)
  | FinishedAbsorbing =>
      if bool_decide (game_phase state = PhFinished) then t ← transition state ActAbsorb; Ok (bool_decide (next t = state)) else Ok true
  | FixedBids | FollowSuit | TrickWinner | WinnerLeads | ScoringAndPot | PhaseProgress | UniversalTermination => Ok true
  end.

Definition follow_suit_transition (g : Game) (t : Transition) : outcome ModelError bool :=
  match g, action t with
  | GPlaying state, ActPlayer (PlayCard player card) =>
      match trick_lead (pl_trick state) with
      | None => Ok true
      | Some lead => follow_suit_legal (contains_suit (at_ (pl_hands state) player) (suit (played lead))) card (played lead)
      end
  | _, _ => Ok true
  end.

Definition winner_transition (id : PropertyId) (g : Game) (t : Transition) : outcome ModelError bool :=
  match g, action t with
  | GPlaying state, ActPlayer (PlayCard player card) =>
      match pl_trick state with
      | Follow lead =>
          wins ← second_card_wins (played lead) card (pl_trump state);
          let winner := if (wins : bool) then player else played_by lead in
          if bool_decide (id = TrickWinner) then
            let before_count := tricks_get (at_ (pl_tricks_won state) winner) in
            match next t with
            | GPlaying after => n ← u_add 8 before_count 1; Ok (tricks_get (at_ (pl_tricks_won after) winner) =? n)
            | GScoring after => n ← u_add 8 before_count 1; Ok (tricks_get (at_ (sc_tricks_won after) winner) =? n)
            | _ => Ok false
            end
          else
            Ok (match next t with
                | GPlaying after => bool_decide (pl_trick after = Lead winner)
                | GScoring _ => true
                | _ => false
                end)
      | Lead _ => Ok true
      end
  | _, _ => Ok true
  end.

(** The loop over the players stops at the first event that does not match. *)
Fixpoint all_players (check : Player → outcome ModelError bool) (players : list Player) : outcome ModelError bool :=
  match players with
  | [] => Ok true
  | player :: players => ok ← check player; if (ok : bool) then all_players check players else Ok false
  end.

Definition scoring_transition (g : Game) (t : Transition) : outcome ModelError bool :=
  match g with
  | GScoring state =>
      if negb (bool_decide (action t = ActSettle)) then Ok false
      else
        match round_scores t with
        | None => Ok false
        | Some events =>
            all_players (λ player,
              '(outcome, points, payment) ← round_score (at_ (sc_bids state) player) (tricks_get (at_ (sc_tricks_won state) player)) (round (sc_ledger state));
              let event := at_ events player in
              Ok ((outcome_code (ev_outcome event) =? outcome) && (ev_points event =? points) && (ev_payment_cents event =? payment))) Player_ALL
        end
  | _ => Ok true
  end.

Definition evaluate_transition_property (id : PropertyId) (g : Game) (t : Transition) : outcome ModelError bool :=
  let after := next t in
  let finished := bool_decide (game_phase g = PhFinished) in
  match id with
  | CardConservation | TrickCountConservation =>
      before_ok ← succeeds (validate g); if (before_ok : bool) then succeeds (validate after) else Ok false
  | LegalActor => Ok (action_matches_turn (action t) (turn_owner g))
  | ObservationConfidentiality =>
      before_ok ← evaluate_state_property id g; after_ok ← evaluate_state_property id after; Ok (before_ok && after_ok)
  | FixedBids => Ok (fixed_bids_preserved g after)
  | FollowSuit => follow_suit_transition g t
  | TrickWinner | WinnerLeads => winner_transition id g t
  | ScoringAndPot => scoring_transition g t
  | PhaseProgress => Ok (if finished then bool_decide (after = g) else negb (bool_decide (after = g)))
  | DeadlockFreedom | UniversalTermination => Ok true
  | FinishedAbsorbing =>
      Ok (if finished then bool_decide (action t = ActAbsorb) && bool_decide (after = g) else negb (bool_decide (action t = ActAbsorb)))
  | FinalWinnerSemantics => evaluate_state_property id after
  end.

End Catalog.

(** ** The catalog is complete *)

Definition all_properties : list PropertyId :=
  [CardConservation; LegalActor; ObservationConfidentiality; FixedBids; FollowSuit; TrickWinner; WinnerLeads; TrickCountConservation;
   ScoringAndPot; PhaseProgress; DeadlockFreedom; UniversalTermination; FinishedAbsorbing; FinalWinnerSemantics].

Lemma all_properties_complete id : id ∈ all_properties.
Proof. destruct id; by apply (bool_decide_eq_true_1 (_ ∈ _)); vm_compute. Qed.

Lemma catalog_lists_all : property_id <$> property_catalog = all_properties ∧ NoDup (stable_id <$> property_catalog) ∧
  forallb (λ p, negb (bool_decide (explanation p = EmptyString)) && negb (bool_decide (length (property_rules p) = 0%nat))
    && negb (bool_decide (length (native_checks p) = 0%nat))) property_catalog = true.
Proof. split_and!; [done| |by vm_compute]. by apply (bool_decide_eq_true_1 (NoDup _)); vm_compute. Qed.
