(* ===== verification/ModelTheorems.v ===== *)
(** * The six-card scope: theorems

    The games that transitions reach keep the invariant, offer exactly what they accept,
    satisfy every claim of the property catalog and finish after twenty transitions. *)

From Stdlib Require Import ZifyBool.
From stdpp Require Import base strings numbers option list.
From S2P Require Import Prelude Domain DomainLaws Formal ModelFinite ModelKernels ModelState ModelSemantics ModelDeals ModelInvariant ModelRules ModelProperty.

Local Open Scope Z_scope.

Section Reachable.
Context `{Formal.Weavy}.

(** The games reached from an initial one; the deals are those the constructors make. *)
Inductive reachable : Game → Prop :=
  | reach_new first_dealer : reachable (Game_new first_dealer)
  | reach_step g a t : reachable g → action_ok a = true → transition g a = Ok t → reachable (next t).

Lemma transition_Ok g a t : game_ok g → action_ok a = true → transition g a = Ok t →
  refusal g a = None ∧ step_body g a = Ok t ∧ action t = a ∧ steps_to g (next t).
Proof using Type.
  intros Hg Ha Ht. destruct (refusal g a) as [e|] eqn:Href; [by rewrite (transition_refused g a e Hg Href) in Ht|]. split; [done|].
  destruct (transition_accepted g a Hg Ha Href) as (t' & Ht' & Hs). by replace t with t' by congruence.
Qed.

Lemma new_ok d : game_ok (Game_new d).
Proof using Type. split; [intros []|]; cbn; lia. Qed.

Lemma reachable_ok g : reachable g → game_ok g.
Proof using Type.
  induction 1 as [d|g a t _ IH Ha Ht]; [apply new_ok|]. destruct (transition_Ok g a t IH Ha Ht) as (_ & _ & _ & Hok & _). done.
Qed.

(** ** Some action is always accepted *)

Lemma some_card s : set_ok s = true → 0 < card_count s → ∃ c, holds s c = true.
Proof using Type.
  intros Hs Hc. rewrite card_count_occ in Hc by done. unfold size_of in Hc.
  destruct (holds s S0R0) eqn:H0; [by eexists|]. destruct (holds s S0R1) eqn:H1; [by eexists|]. destruct (holds s S0R2) eqn:H2; [by eexists|].
  destruct (holds s S1R0) eqn:H3; [by eexists|]. destruct (holds s S1R1) eqn:H4; [by eexists|]. destruct (holds s S1R2) eqn:H5; [by eexists|].
  unfold occ in Hc. rewrite H0, H1, H2, H3, H4, H5 in Hc. lia.
Qed.

Lemma playable s : playing_ok s → ∃ c, play_refusal s (playing_actor s) c = None.
Proof using Type.
  intros Hs. unfold play_refusal. rewrite bool_decide_true by done. set (hand := at_ (pl_hands s) (playing_actor s)).
  pose proof (po_deck _ Hs) as [(Hh & _ & _) _]%deck_sum. pose proof (sets_ok_at _ (playing_actor s) Hh) as Hok. fold hand in Hok.
  assert (0 < card_count hand) as Hpos.
  { pose proof (po_balanced _ Hs) as Hb. unfold balanced, hand, playing_actor in *. pose proof (card_count_nonneg (pl_hands s).1). pose proof (card_count_nonneg (pl_hands s).2).
    destruct (pl_trick s) as [p|l]; cbn [trick_actor]; [destruct p; cbn [at_]; lia|]. destruct (played_by l); cbn [left_of at_] in *; lia. }
  destruct (trick_lead (pl_trick s)) as [lead|].
  - destruct (contains_suit hand (suit (played lead))) eqn:Hsuit.
    + unfold contains_suit in Hsuit. apply existsb_exists in Hsuit as (c & Hc & Hcs). apply list_elem_of_In, elem_of_cards_of in Hc.
      exists c. rewrite Hc. unfold must_follow. by rewrite Hcs, orb_true_r.
    + destruct (some_card hand Hok Hpos) as [c Hc]. exists c. by rewrite Hc.
  - destruct (some_card hand Hok Hpos) as [c Hc]. exists c. by rewrite Hc.
Qed.

Lemma some_accepted g : game_ok g → ∃ a, action_ok a = true ∧ refusal g a = None.
Proof using Type.
  destruct g as [s|s|s|s|s]; cbn [game_ok]; intros Hg.
  - destruct (all_for_exact (round (aw_ledger s))) as (deals & _ & _ & Hlen & Hmem). destruct deals as [|d deals].
    { by destruct (hand_size (round (aw_ledger s)) =? 1). }
    exists (ActDeal d). cbn [action_ok refusal]. destruct (proj1 (Hmem d) ltac:(left)) as [Hok Hsz]. split; [done|]. unfold deal_refusal. by rewrite Hsz, Z.eqb_refl.
  - exists (ActPlayer (PlaceBid (bidding_actor s) BidZero)). split; [done|]. cbn [refusal]. unfold bid_refusal. rewrite bool_decide_true by done.
    by destruct (round (bi_ledger s)).
  - destruct (playable s Hg) as [c Hc]. by exists (ActPlayer (PlayCard (playing_actor s) c)).
  - by exists ActSettle.
  - by exists ActAbsorb.
Qed.

(** ** What is offered is what is accepted *)

(** [C29] In every game that can be reached, [legal_actions] lists exactly the actions that [transition] accepted_by: an action outside
    the list is answered with the error of the first check it fails, and an action of the list makes a transition of that action to
    a game that can be reached again.  Nothing panics, and the list is never empty. *)
Theorem model_actions_exact g : reachable g → ∃ l, legal_actions g = Ok l ∧ (∃ a, action_ok a = true ∧ offers l a = true) ∧
  ∀ a, action_ok a = true →
    match refusal g a with
    | Some e => offers l a = false ∧ transition g a = Err e
    | None => offers l a = true ∧ ∃ t, transition g a = Ok t ∧ action t = a ∧ reachable (next t)
    end.
Proof using Type.
  intros Hr. pose proof (reachable_ok g Hr) as Hg. destruct (offered_exact g Hg) as (l & Hl & Hof). unfold accepted_by in Hof.
  exists l. split; [done|]. split.
  - destruct (some_accepted g Hg) as (a & Ha & Href). exists a. split; [done|]. by rewrite (Hof a Ha), Href.
  - intros a Ha. rewrite (Hof a Ha). destruct (refusal g a) as [e|] eqn:Href; (split; [done|]).
    + by apply transition_refused.
    + destruct (transition_accepted g a Hg Ha Href) as (t & Ht & _ & Hact & _). exists t. split_and!; [done..|]. by apply (reach_step g a).
Qed.

(** ** The catalog *)

Lemma succeeds_Ok {E E' A} (x : A) : succeeds (E := E) (E' := E') (Ok x) = Ok true.
Proof using Type. done. Qed.

Lemma offered_nonempty g l : game_ok g → legal_actions g = Ok l →
  (∀ deals, l = LegalChance deals → deals ≠ []) ∧ (∀ actions, l = LegalPlayer actions → actions ≠ []).
Proof using Type.
  intros Hg Hl. destruct (offered_exact g Hg) as (l' & Hl' & Hof). replace l' with l in Hof by congruence.
  destruct (some_accepted g Hg) as (a & Ha & Href). specialize (Hof a Ha). unfold accepted_by in Hof. rewrite Href, bool_decide_true in Hof by done.
  split; intros actions -> ->; destruct a; cbn in Hof; done.
Qed.

Lemma offered_actor g actions p : game_ok g → legal_actions g = Ok (LegalPlayer actions) → p ∈ actions → turn_owner g = OwnerPlayer (action_player p).
Proof using Type.
  intros Hg Hl Hp. destruct (offered_exact g Hg) as (l' & Hl' & Hof). replace l' with (LegalPlayer actions) in Hof by congruence.
  specialize (Hof (ActPlayer p) eq_refl). cbn [offers] in Hof. rewrite bool_decide_true in Hof by done. unfold accepted_by in Hof. symmetry in Hof. apply bool_decide_eq_true in Hof.
  destruct g as [s|s|s|s|s], p as [q b|q c]; cbn [refusal turn_owner action_player] in *; try done.
  - unfold bid_refusal in Hof. case_bool_decide as Hq; [by rewrite Hq|done].
  - unfold play_refusal in Hof. case_bool_decide as Hq; [by rewrite Hq|done].
Qed.

Lemma legal_shape g l : legal_actions g = Ok l → match turn_owner g, l with
  | OwnerChance, LegalChance _ | OwnerPlayer _, LegalPlayer _ | OwnerEnvironment, LegalEnvironment | OwnerFinished, LegalFinished => True | _, _ => False end.
Proof using Type.
  destruct g as [s|s|s|s|s]; cbn [legal_actions turn_owner].
  - destruct (all_for _); [|done..]. by intros [= <-].
  - destruct (filter_with _ _); [|done..]. by intros [= <-].
  - destruct (filter_with _ _); [|done..]. by intros [= <-].
  - by intros [= <-].
  - by intros [= <-].
Qed.

Lemma actions_match g : game_ok g → actions_match_owner g = Ok true.
Proof using Type.
  intros Hg. unfold actions_match_owner. destruct (offered_exact g Hg) as (l & Hl & _). rewrite Hl. cbn [mbind outcome_bind].
  pose proof (legal_shape g l Hl) as Hsh. destruct (offered_nonempty g l Hg Hl) as [Hch Hpl]. destruct (turn_owner g) as [|player| |] eqn:Ht, l as [deals|actions| |]; try done.
  - by rewrite bool_decide_false by by apply Hch.
  - rewrite bool_decide_false by by apply Hpl. cbn [negb andb]. f_equal. apply forallb_forall. intros a Ha. apply bool_decide_eq_true.
    pose proof (offered_actor g actions a Hg Hl (proj2 (list_elem_of_In _ _) Ha)) as Ho. congruence.
Qed.

Lemma state_property id g : game_ok g → evaluate_state_property id g = Ok true.
Proof using Type.
  intros Hg. destruct id; cbn [evaluate_state_property]; try done; rewrite ?(game_valid g Hg); try done.
  - by apply actions_match.
  - by destruct g; cbn [observe ob_private_hand private_hand empty_observation]; unfold Player_ALL; cbn [forallb]; rewrite !bool_decide_true by done.
  - destruct (offered_exact g Hg) as (l & Hl & _). rewrite Hl. cbn [mbind outcome_bind]. destruct (offered_nonempty g l Hg Hl) as [Hch Hpl].
    destruct l; try done; rewrite bool_decide_false; [done| |done|]; [by apply Hch|by apply Hpl].
  - case_bool_decide as Hf; [|done]. destruct g as [s|s|s|s|s]; try done. destruct (transition_accepted (GFinished s) ActAbsorb Hg eq_refl eq_refl) as (t & -> & _ & _ & _ & Hn).
    cbn [mbind outcome_bind]. by rewrite Hn, bool_decide_true.
Qed.
End Reachable.

(** ** Transition claims *)

Section Steps.
Context `{Formal.Weavy}.

Lemma bid_next_bids s player bid g : bid_next s player bid = Ok g → fixed_bids_preserved (GBidding s) g = true.
Proof using Type.
  unfold bid_next, ensure_actor. case_bool_decide; [|done]. cbn [mbind outcome_bind]. rewrite bid_legal_exact. cbn [mbind outcome_bind].
  destruct (legal_for bid _); [|done]. cbn [negb]. intros [= <-]. unfold fixed_bids_preserved, bids_so_far. cbn [catalog_bids].
  destruct (bi_progress s) as [|b] eqn:Hp; unfold bids_so_far; cbn [bi_progress bi_ledger pl_bids]; rewrite ?Hp.
  - by destruct (dealer (bi_ledger s)).
  - by destruct (dealer (bi_ledger s)), b, bid; vm_compute.
Qed.

Lemma same_bids bids : forallb (λ '(old, new), bool_decide (old = None) || bool_decide (old = new)) (zip (items (some_bids bids)) (items (some_bids bids))) = true.
Proof using Type. by destruct bids as [[] []]; vm_compute. Qed.

(** What playing a card leads to, in either half of a trick. *)
Lemma play_next_exact s player card : playing_ok s → play_refusal s player card = None →
  match pl_trick s with
  | Lead q => player = q ∧ ∃ g, play_next s player card = Ok (GPlaying g) ∧ pl_bids g = pl_bids s ∧ pl_ledger g = pl_ledger s
  | Follow lead => player = left_of (played_by lead) ∧ ∃ g, play_next s player card = Ok g ∧ trick_done s (winner_of s lead card) g
  end ∧ match trick_lead (pl_trick s) with
        | Some lead => must_follow (contains_suit (at_ (pl_hands s) player) (suit (played lead))) card (played lead) = true | None => True end.
Proof using Type.
  intros Hs. unfold play_refusal. case_bool_decide as Hp; [|done]. destruct (holds _ card) eqn:Hh; [|done]. intros Hf.
  assert (match trick_lead (pl_trick s) with
        | Some lead => must_follow (contains_suit (at_ (pl_hands s) player) (suit (played lead))) card (played lead) = true | None => True end) as Hfollow.
  { destruct (trick_lead (pl_trick s)); [|done]. by destruct (must_follow _ card _). }
  split; [|done]. assert (may_play s card = true) as Hmay.
  { unfold may_play. rewrite Hp, Hh. cbn [andb]. by destruct (trick_lead (pl_trick s)). }
  unfold playing_actor in Hp. destruct (pl_trick s) as [q|lead] eqn:Ht; cbn [trick_actor] in Hp; subst player; (split; [done|]).
  - destruct (lead_next_ok s q card Hs Ht Hmay) as (g & Hg & _ & _ & Hl & Hb & _). by exists g.
  - destruct (follow_next_ok s lead card Hs Ht Hmay) as (g & Hg & _ & Hd). by exists g.
Qed.

Lemma play_next_bids s player card g : playing_ok s → play_refusal s player card = None → play_next s player card = Ok g →
  fixed_bids_preserved (GPlaying s) g = true.
Proof using Type.
  intros Hs Href Hg. destruct (play_next_exact s player card Hs Href) as [Hx _]. unfold fixed_bids_preserved. cbn [catalog_bids].
  destruct (pl_trick s) as [q|lead]; destruct Hx as [_ (g' & Hg' & Hx)]; rewrite Hg in Hg'.
  - injection Hg' as ->. destruct Hx as [Hb _]. cbn [catalog_bids]. rewrite Hb. apply same_bids.
  - injection Hg' as <-. destruct g as [| |g|g|]; cbn [trick_done catalog_bids] in *; try done; destruct Hx as (? & Hx).
    + destruct Hx as (_ & -> & _). apply same_bids.
    + destruct Hx as (-> & _). apply same_bids.
Qed.

Lemma fixed_bids g a t : game_ok g → refusal g a = None → step_body g a = Ok t → fixed_bids_preserved g (next t) = true.
Proof using Type.
  destruct g as [s|s|s|s|s], a as [d|[player bid|player card]| |]; cbn [refusal game_ok step_body]; try done; intros Hg Href.
  - destruct (bid_next s player bid) as [g'| |] eqn:Hb; [|done..]. intros [= <-]. by apply (bid_next_bids _ _ _ _ Hb).
  - destruct (play_next s player card) as [g'| |] eqn:Hb; [|done..]. intros [= <-]. by apply (play_next_bids _ _ _ _ Hg Href Hb).
Qed.

Lemma follows_suit g a t : game_ok g → action t = a → refusal g a = None → follow_suit_transition g t = Ok true.
Proof using Type.
  unfold follow_suit_transition. intros Hg -> Href. destruct g as [s|s|s|s|s], a as [d|[player bid|player card]| |]; try done.
  destruct (play_next_exact s player card Hg Href) as [_ Hf]. destruct (trick_lead (pl_trick s)); [|done]. by rewrite follow_suit_exact, Hf.
Qed.

Lemma winner_next id g a t : game_ok g → action t = a → refusal g a = None → step_body g a = Ok t → winner_transition id g t = Ok true.
Proof using Type.
  unfold winner_transition. intros Hg -> Href Hb. destruct g as [s|s|s|s|s], a as [d|[player bid|player card]| |]; try done.
  cbn [refusal game_ok step_body] in *. destruct (play_next_exact s player card Hg Href) as [Hx _]. destruct (pl_trick s) as [q|lead] eqn:Ht; [done|].
  destruct Hx as [-> (g & Hnext & Hd)]. rewrite Hnext in Hb. cbn [mbind outcome_bind] in Hb. injection Hb as <-.
  rewrite second_card_wins_exact. cbn [mbind outcome_bind build_transition next].
  change (if beats (played lead) card (pl_trump s) then left_of (played_by lead) else played_by lead) with (winner_of s lead card).
  set (w := winner_of s lead card) in *. pose proof (playing_sizes _ Hg w) as Hsz.
  assert (u_add (E := ModelError) 8 (tricks_get (at_ (pl_tricks_won s) w)) 1 = Ok (tricks_get (at_ (pl_tricks_won s) w) + 1)) as Hadd.
  { unfold u_add, checked, in_widthb. change (2 ^ 8) with 256. by replace ((0 <=? tricks_get (at_ (pl_tricks_won s) w) + 1) && (tricks_get (at_ (pl_tricks_won s) w) + 1 <? 256)) with true by lia. }
  rewrite Hadd. cbn [mbind outcome_bind]. destruct g as [| |g|g|]; cbn [trick_done] in Hd; try done.
  - destruct Hd as (Hl & _ & _ & Hw & _). specialize (Hw w). rewrite bool_decide_true in Hw by reflexivity. rewrite Hw, Z.eqb_refl, Hl, (bool_decide_true (Lead w = Lead w)) by reflexivity.
    clear. destruct (bool_decide (id = TrickWinner)); reflexivity.
  - destruct Hd as (_ & _ & Hw & _). specialize (Hw w). rewrite bool_decide_true in Hw by reflexivity. rewrite Hw, Z.eqb_refl. clear. destruct (bool_decide (id = TrickWinner)); reflexivity.
Qed.

Lemma scores_match g a t : game_ok g → action t = a → refusal g a = None → step_body g a = Ok t → scoring_transition g t = Ok true.
Proof using Type.
  intros Hg Ha Href Hb. destruct g as [s|s|s|s|s]; try done. cbn [scoring_transition]. destruct a as [d|[player bid|player card]| |]; try discriminate Href.
  rewrite Ha, bool_decide_true by reflexivity. cbn [negb]. cbn [step_body game_ok] in *.
  destruct (settle_Ok s (GScoring s) ActSettle Hg) as (t' & Ht' & _ & _ & He & _). replace t with t' by congruence. rewrite He. unfold Player_ALL.
  assert (∀ p, round_score (at_ (sc_bids s) p) (tricks_get (at_ (sc_tricks_won s) p)) (round (sc_ledger s)) = Ok
    (outcome_code (ev_outcome (event_of s p)), ev_points (event_of s p), ev_payment_cents (event_of s p))) as Hr.
  { intros p. rewrite round_score_exact by by apply scoring_tricks. unfold event_of, outcome_of, points_of, missed, score_of.
    cbn [ev_outcome ev_points ev_payment_cents]. destruct (bid_get _ =? _); [|done]. by destruct (_ =? hand_size _). }
  cbn [all_players]. rewrite !Hr. cbn [mbind outcome_bind at_ fst snd]. by rewrite !Z.eqb_refl.
Qed.

Lemma turn_matches g a : refusal g a = None → action_matches_turn a (turn_owner g) = true.
Proof using Type.
  destruct g as [s|s|s|s|s], a as [d|[player bid|player card]| |]; try done; cbn [refusal action_matches_turn turn_owner action_player].
  - unfold bid_refusal. case_bool_decide; [|done]. intros _. by rewrite bool_decide_true.
  - unfold play_refusal. case_bool_decide; [|done]. intros _. by rewrite bool_decide_true.
Qed.

Lemma transition_property id g a t : game_ok g → action_ok a = true → transition g a = Ok t → evaluate_transition_property id g t = Ok true.
Proof using Type.
  intros Hg Ha Ht. destruct (transition_Ok g a t Hg Ha Ht) as (Href & Hb & Hact & Hok & Hst).
  assert ((game_phase g = PhFinished ∧ a = ActAbsorb ∧ next t = g) ∨ (game_phase g ≠ PhFinished ∧ a ≠ ActAbsorb ∧ next t ≠ g)) as Hfin.
  { clear Ht Hb Hact. destruct g as [s|s|s|s|s]; [right..|left]; cbn [game_phase].
    1-4: destruct a; try done; (split_and!; [done..|]; intros Hn; rewrite Hn in Hst; lia). by destruct a. }
  destruct id; cbn [evaluate_transition_property]; rewrite ?(game_valid g Hg), ?(game_valid _ Hok); try done.
  - rewrite Hact. by rewrite (turn_matches g a Href).
  - by rewrite (state_property ObservationConfidentiality g Hg), (state_property ObservationConfidentiality _ Hok).
  - by rewrite (fixed_bids g a t Hg Href Hb).
  - by apply (follows_suit g a t).
  - by apply (winner_next _ g a t).
  - by apply (winner_next _ g a t).
  - by apply (scores_match g a t).
  - destruct Hfin as [(Hp & _ & Hn)|(Hp & _ & Hn)]; [by rewrite !bool_decide_true|by rewrite !bool_decide_false].
  - rewrite Hact. destruct Hfin as [(Hp & Hx & Hn)|(Hp & Hx & Hn)]; [by rewrite !bool_decide_true|by rewrite !bool_decide_false].
  - by apply (state_property FinalWinnerSemantics).
Qed.

(** [C30] Every claim of the property catalog holds of every game that can be reached and of every transition out of it: the
    evaluators answer true, and no claim's evaluation fails. *)
Theorem catalog_holds id g : reachable g → evaluate_state_property id g = Ok true ∧
  ∀ a t, action_ok a = true → transition g a = Ok t → evaluate_transition_property id g t = Ok true.
Proof using Type.
  intros Hr%reachable_ok. split; [by apply state_property|]. intros a t Ha Ht. by apply (transition_property id g a).
Qed.

(** ** Termination *)

(** A play-through *)
Definition run (g : Game) (actions : list ModelAction) : outcome ModelError Game := foldM (λ g a, t ← transition g a; Ok (next t)) actions g.

Lemma steps_left_nonneg g : game_ok g → 0 ≤ steps_left g ∧ (steps_left g = 0 ↔ game_phase g = PhFinished).
Proof using Type.
  assert (∀ r, 0 ≤ after_round r) as Ha by by intros []. assert (∀ r, 1 ≤ hand_size r) as Hh by by intros [].
  destruct g as [s|s|s|s|s]; cbn [steps_left game_phase]; intros _.
  - specialize (Ha (round (aw_ledger s))). specialize (Hh (round (aw_ledger s))). split; [lia|]. split; [lia|done].
  - specialize (Ha (round (bi_ledger s))). specialize (Hh (round (bi_ledger s))). destruct (bi_progress s); (split; [lia|]; split; [lia|done]).
  - specialize (Ha (round (pl_ledger s))). pose proof (card_count_nonneg (pl_hands s).1). pose proof (card_count_nonneg (pl_hands s).2). split; [lia|]. split; [lia|done].
  - specialize (Ha (round (sc_ledger s))). split; [lia|]. split; [lia|done].
  - done.
Qed.

Lemma model_run_steps actions : ∀ g g', game_ok g → Forall (λ a, action_ok a = true) actions → run g actions = Ok g' →
  game_ok g' ∧ steps_left g' = Z.max 0 (steps_left g - Z.of_nat (length actions)).
Proof using Type.
  induction actions as [|a actions IH]; intros g g' Hg Ha; cbn [run foldM].
  - intros [= <-]. split; [done|]. pose proof (steps_left_nonneg g Hg). cbn [length]. lia.
  - apply Forall_cons in Ha as [Ha Has]. destruct (transition g a) as [t| |] eqn:Ht; [|done..]. cbn [mbind outcome_bind]. intros Hr.
    destruct (transition_Ok g a t Hg Ha Ht) as (_ & _ & _ & Hok & Hst). destruct (IH _ _ Hok Has Hr) as [Hok' Hn]. split; [done|]. cbn [length].
    pose proof (steps_left_nonneg g Hg) as [Hnn _]. assert (steps_left (next t) = Z.max 0 (steps_left g - 1)) as Hnext; [|lia].
    pose proof (steps_left_nonneg _ Hok) as [Hnn' _]. destruct g; try lia. rewrite Hst. cbn. done.
Qed.

Lemma run_exists n : ∀ g, game_ok g → ∃ actions g', length actions = n ∧ Forall (λ a, action_ok a = true) actions ∧ run g actions = Ok g'.
Proof using Type.
  induction n as [|n IH]; intros g Hg; [by exists [], g|]. destruct (some_accepted g Hg) as (a & Ha & Href).
  destruct (transition_accepted g a Hg Ha Href) as (t & Ht & _ & _ & Hok & _). destruct (IH _ Hok) as (actions & g' & Hlen & Has & Hr).
  exists (a :: actions), g'. split_and!; [cbn; lia|by constructor|]. cbn [run foldM]. rewrite Ht. exact Hr.
Qed.

(** Every play-through of a new game finishes with its twentieth transition and no sooner, whatever is played, and stays
    finished; and no play gets stuck: from every game that can be reached, play can go on for any number of transitions. *)
Theorem model_run_finishes first_dealer actions g : Forall (λ a, action_ok a = true) actions → run (Game_new first_dealer) actions = Ok g →
  (game_phase g = PhFinished ↔ (20 ≤ length actions)%nat) ∧
  ∀ n, ∃ more g', length more = n ∧ Forall (λ a, action_ok a = true) more ∧ run g more = Ok g'.
Proof using Type.
  intros Ha Hr. destruct (model_run_steps actions _ _ (new_ok first_dealer) Ha Hr) as [Hok Hn]. split.
  - rewrite <-(proj2 (steps_left_nonneg g Hok)), Hn. change (steps_left (Game_new first_dealer)) with 20. lia.
  - intros n. by apply run_exists.
Qed.

(** Settling a round of a game that can be reached adds each player's points, ten plus the bid or twenty plus the bid when
    the bid was made, and ten cents to the pot for each bid that was missed, and goes to the next round's deal with the dealer
    moved left; after the last round it finishes the game with the players of the highest score as winners, and the outcome
    divides the whole pot among them with less than one cent each left over. *)
Theorem settlement_exact s : reachable (GScoring s) → ∃ t, transition (GScoring s) ActSettle = Ok t ∧
  next t = settled_game s ∧ round_scores t = Some (event_of s PlayerZero, event_of s PlayerOne) ∧
  match game_outcome t with
  | None => ∃ r, next_round (round (sc_ledger s)) = Some r
  | Some o => next_round (round (sc_ledger s)) = None ∧ out_scores o = settled_scores s ∧ out_pot o = settled_pot s ∧
      (let '(a, b) := (score_get (settled_score s PlayerZero), score_get (settled_score s PlayerOne)) in out_winners o = (b <=? a, a <=? b)) ∧
      cents (settled_pot s) = winner_count (pot_division o) * cents_per_winner (pot_division o) + remainder_cents (pot_division o) ∧
      0 ≤ remainder_cents (pot_division o) < winner_count (pot_division o)
  end.
Proof using Type.
  intros Hg%reachable_ok. destruct (transition_accepted (GScoring s) ActSettle Hg eq_refl eq_refl) as (t & Ht & Hb & _). exists t. split; [done|].
  cbn [step_body game_ok] in *. destruct (settle_Ok s (GScoring s) ActSettle Hg) as (t' & Ht' & _ & Hn & He & _ & Ho & Hsome). replace t' with t in * by congruence.
  split; [done|]. split; [done|]. pose proof (settled_ok s Hg) as Hok. unfold settled_game in Ho, Hsome, Hok. destruct (game_outcome t) as [o|].
  - destruct (Ho o eq_refl) as (f & Hf & Hfin). destruct (next_round (round (sc_ledger s))); [done|]. split; [done|]. injection Hf as <-. cbn [game_ok] in Hok.
    destruct (final_outcome_Ok (E := ModelError) _ Hok) as (o' & Ho' & Hs & Hp & Hw & _ & _ & Hc & Hr). assert (Ok (E := ModelError) o' = Ok o) as [= ->] by (rewrite <-Ho', <-Hfin; reflexivity).
    clear -Hs Hp Hw Hc Hr. cbn [fi_scores fi_pot fi_winners] in *. rewrite Hs, Hp, Hw. split_and!; [reflexivity..|exact Hc|apply Hr|apply Hr].
  - destruct (next_round (round (sc_ledger s))) as [r|]; [by exists r|]. by destruct (Hsome _ eq_refl).
Qed.
End Steps.

(** ** What a deal tells a player *)

(** The deals a player cannot tell from [d]: the player holds the same cards and the same trump is turned up. *)
Definition same_view (viewer : Player) (d d' : Deal) : bool :=
  bool_decide (at_ (deal_hands d') viewer = at_ (deal_hands d) viewer) && bool_decide (deal_trump d' = deal_trump d).

Definition alternatives (viewer : Player) (d : Deal) (deals : list Deal) : list Deal := List.filter (same_view viewer d) deals.

Definition alternatives_count (size : Z) : nat := if size =? 1 then 4%nat else 3%nat.

Lemma alternatives_table : forallb (λ r, let deals := result_or [] (all_for (E := ModelError) r) in
  forallb (λ d, forallb (λ v, Nat.eqb (length (alternatives v d deals)) (alternatives_count (hand_size r))) Player_ALL) deals) RoundId_ALL = true.
Proof. vm_compute. reflexivity. Qed.

Lemma alternatives_exact r deals d viewer : all_for (E := ModelError) r = Ok deals → d ∈ deals →
  length (alternatives viewer d deals) = alternatives_count (hand_size r).
Proof.
  intros Hd Hin. pose proof alternatives_table as Ht. rewrite forallb_forall in Ht. assert (In r RoundId_ALL) as Hr by (destruct r; cbn; tauto).
  specialize (Ht r Hr). rewrite Hd in Ht. cbn [result_or] in Ht. rewrite forallb_forall in Ht. specialize (Ht d (proj1 (list_elem_of_In _ _) Hin)).
  rewrite forallb_forall in Ht. specialize (Ht viewer ltac:(destruct viewer; cbn; tauto)). by apply Nat.eqb_eq in Ht.
Qed.

Lemma deal_counts d p : deal_ok d = true → card_count (at_ (deal_hands d) p) = deal_hand_size d.
Proof.
  intros Hd%deal_zones. unfold deal_facts in Hd. rewrite !andb_true_iff in Hd. destruct Hd as [[[[[[_ _] _] H4] H5] _] _]. destruct p; cbn [at_]; lia.
Qed.

Section Secrecy.
Context `{Formal.Weavy}.

Lemma dealt_next s d t : ledger_ok (aw_ledger s) → deal_ok d = true → transition (GAwaitingDeal s) (ActDeal d) = Ok t →
  deal_hand_size d = hand_size (round (aw_ledger s)) ∧
  next t = GBidding {| bi_ledger := aw_ledger s; bi_hands := deal_hands d; bi_trump := deal_trump d; bi_undealt := deal_undealt d; bi_progress := BidFirst |}.
Proof using Type.
  intros Hg Hd Ht. destruct (transition_Ok (GAwaitingDeal s) (ActDeal d) t Hg Hd Ht) as (Href & Hb & _). cbn [refusal step_body] in *. clear Ht.
  unfold deal_refusal, deal_next, validate_round in *. destruct (deal_hand_size d =? hand_size (round (aw_ledger s))) eqn:He; [|done].
  cbn [mbind outcome_bind] in Hb. injection Hb as <-. split; [lia|done].
Qed.

(** [C31] After a deal a player's observation tells the player's own hand and the trump and nothing else of the cards: it is the
    same after another deal exactly when that deal gives the player the same hand and turns up the same trump, and four deals of a
    one-card round, three of a two-card round, are such deals. *)
Theorem deal_secrecy s d viewer : reachable (GAwaitingDeal s) → deal_ok d = true → deal_hand_size d = hand_size (round (aw_ledger s)) →
  ∃ t deals, transition (GAwaitingDeal s) (ActDeal d) = Ok t ∧ legal_actions (GAwaitingDeal s) = Ok (LegalChance deals) ∧
    (∀ d' t', deal_ok d' = true → transition (GAwaitingDeal s) (ActDeal d') = Ok t' →
      observe (next t') viewer = observe (next t) viewer ↔ same_view viewer d d' = true) ∧
    length (alternatives viewer d deals) = alternatives_count (hand_size (round (aw_ledger s))).
Proof using Type.
  intros Hg%reachable_ok Hd Hs. assert (refusal (GAwaitingDeal s) (ActDeal d) = None) as Href.
  { cbn [refusal]. unfold deal_refusal. by rewrite Hs, Z.eqb_refl. }
  destruct (transition_accepted (GAwaitingDeal s) (ActDeal d) Hg Hd Href) as (t & Ht & _). destruct (dealt_next s d t Hg Hd Ht) as [_ Hn].
  destruct (all_for_exact (round (aw_ledger s))) as (deals & Hall & _ & _ & Hmem). exists t, deals. split; [done|]. split; [by cbn [legal_actions]; rewrite Hall|].
  split; [|apply alternatives_exact; [apply Hall|by apply Hmem]].
  intros d' t' Hd' Ht'. destruct (dealt_next s d' t' Hg Hd' Ht') as [Hs' Hn']. rewrite Hn, Hn'. clear Ht Ht' Hall Hmem Hn Hn'. unfold same_view.
  rewrite andb_true_iff, !bool_decide_eq_true. cbn [observe bi_ledger bi_hands bi_trump bi_undealt bi_progress bidding_actor bids_so_far]. split.
  - intros Ho. split; [exact (f_equal ob_private_hand Ho)|]. pose proof (f_equal ob_trump Ho) as Htr. cbn [ob_trump] in Htr. congruence.
  - intros [Hh Htr]. rewrite Hh, Htr. unfold hand_counts.
    pose proof (deal_counts d PlayerZero Hd) as E1. pose proof (deal_counts d PlayerOne Hd) as E2. pose proof (deal_counts d' PlayerZero Hd') as E3.
    pose proof (deal_counts d' PlayerOne Hd') as E4. cbn [at_] in E1, E2, E3, E4. rewrite E1, E2, E3, E4, Hs, Hs'. reflexivity.
Qed.

(** [C32] The six rule kernels, evaluated as lowered programs, compute the rules of the game whatever executor of the program ABI
    runs them: the bid bound, following suit, which of two cards wins, the score table, the last round and the highest scores. *)
Theorem kernels_exact : (∀ bid r, bid_legal bid r = Ok (legal_for bid r)) ∧
  (∀ has selected lead, follow_suit_legal has selected lead = Ok (must_follow has selected lead)) ∧
  (∀ lead second trump, second_card_wins lead second trump = Ok (beats lead second trump)) ∧
  (∀ bid tricks r, 0 ≤ tricks ≤ 2 → round_score bid tricks r = Ok (score_of bid tricks r)) ∧
  (∀ r, final_round r = Ok (bool_decide (r = OneDescending))) ∧
  (∀ a b, 0 ≤ a ≤ 64 → 0 ≤ b ≤ 64 → winner_mask (a, b) = Ok (b <=? a, a <=? b)).
Proof using Type.
  split_and!; [exact bid_legal_exact|exact follow_suit_exact|exact second_card_wins_exact|exact round_score_exact|exact final_round_exact|exact winner_mask_exact].
Qed.

(** The enumeration of deals for a round lists every deal that the constructors make and no other, once each, a hundred and
    twenty or a hundred and eighty; every deal has a code below three hundred that decodes to it, every such code is a deal's,
    and a larger code is refused. *)
Theorem deals_exact : (∀ r, ∃ deals, all_for (E := ModelError) r = Ok deals ∧ NoDup deals ∧
    length deals = (if (hand_size r =? 1)%Z then 120 else 180)%nat ∧ ∀ d, d ∈ deals ↔ deal_ok d = true ∧ deal_hand_size d = hand_size r) ∧
  (∀ d, deal_ok d = true → ∃ c, encode d = Ok c ∧ 0 ≤ c < 300 ∧ decode c = Ok d) ∧
  (∀ c, 0 ≤ c < 300 → ∃ d, decode c = Ok d ∧ deal_ok d = true ∧ encode d = Ok c) ∧
  (∀ c, 300 ≤ c → in_width 128 c → ∃ e, decode (A := Deal) c = Err e).
Proof using Type.
  split.
  - intros r. destruct (all_for_exact r) as (deals & Hd & Hnd & Hlen & Hmem). by exists deals.
  - destruct deal_codes as (_ & H1 & H2 & H3). split; [exact H1|]. split; [exact H2|]. intros c Hc Hw. eexists. exact (H3 c Hc Hw).
Qed.

Lemma run_reachable actions : ∀ g g', reachable g → Forall (λ a, action_ok a = true) actions → run g actions = Ok g' → reachable g'.
Proof using Type.
  induction actions as [|a actions IH]; intros g g' Hg Ha; cbn [run foldM]; [by intros [= <-]|]. apply Forall_cons in Ha as [Ha Has].
  destruct (transition g a) as [t| |] eqn:Ht; [|done..]. cbn [mbind outcome_bind]. apply IH; [by apply (reach_step g a)|done].
Qed.

(** A play-through that takes the last action offered each time. *)
Definition last_offered (g : Game) : option ModelAction :=
  match legal_actions g with
  | Ok (LegalChance deals) => ActDeal <$> last deals
  | Ok (LegalPlayer actions) => ActPlayer <$> last actions
  | Ok LegalEnvironment => Some ActSettle
  | Ok LegalFinished => Some ActAbsorb
  | _ => None
  end.

Fixpoint play_last (n : nat) (g : Game) : list ModelAction :=
  match n with
  | O => []
  | S n => match last_offered g with
           | Some a => a :: play_last n (next (result_or (build_transition g a g None [] []) (transition g a)))
           | None => []
           end
  end.
End Secrecy.

(** ** Witnesses *)

Module Sample.
Definition start : Game := Game_new PlayerZero.
Definition play (n : nat) : list ModelAction := play_last (H := Formal.sequential_weavy) n start.
Definition after (n : nat) : Game := result_or start (run (H := Formal.sequential_weavy) start (play n)).

Definition runs_to (n : nat) (g : Game) : bool :=
  forallb action_ok (play n) && bool_decide (length (play n) = n) &&
  match run (H := Formal.sequential_weavy) start (play n) with Ok g' => bool_decide (g' = g) | _ => false end.

Lemma runs_to_run n g : runs_to n g = true → Forall (λ a, action_ok a = true) (play n) ∧ length (play n) = n ∧ run (H := Formal.sequential_weavy) start (play n) = Ok g.
Proof.
  unfold runs_to. rewrite !andb_true_iff. intros [[Ha Hl] Hr]. apply bool_decide_eq_true in Hl. split; [|split; [exact Hl|]].
  - apply Forall_forall. intros a Hin. rewrite forallb_forall in Ha. apply Ha, list_elem_of_In, Hin.
  - destruct (run _ _) as [g'| |]; [|discriminate Hr..]. apply bool_decide_eq_true in Hr. by rewrite Hr.
Qed.

Lemma runs_to_reachable n g : runs_to n g = true → reachable (H := Formal.sequential_weavy) g.
Proof. intros (Ha & _ & Hr)%runs_to_run. exact (run_reachable (H := Formal.sequential_weavy) _ _ _ (reach_new (H := Formal.sequential_weavy) PlayerZero) Ha Hr). Qed.

Definition scoring_of (g : Game) : option Scoring := match g with GScoring s => Some s | _ => None end.
Definition awaiting_of (g : Game) : option AwaitingDeal := match g with GAwaitingDeal s => Some s | _ => None end.
Definition awaiting : AwaitingDeal := default (mkAwaitingDeal (mkLedger PlayerZero OneAscending (both (ScoreOf 0)) OPENING)) (awaiting_of (after 6)).
Definition a_deal : Deal := DealTwo (result_or (TwoCardDealOf (both EMPTY) S0R0 EMPTY) (TwoCardDeal_new (CardSetOf 3, CardSetOf 12) S1R1 (CardSetOf 32))).
End Sample.

Module Samples.
Definition following : Game := Sample.after 10.
Definition off_suit : ModelAction := ActPlayer (PlayCard PlayerOne S0R2).
Definition on_suit : ModelAction := ActPlayer (PlayCard PlayerOne S1R0).
Definition scoring : Scoring :=
  {| sc_ledger := {| dealer := PlayerZero; round := OneAscending; scores := both (ScoreOf 0); pot := OPENING |};
     sc_trump := S1R0; sc_undealt := CardSetOf 7; sc_bids := (BidOne, BidOne); sc_captured := (CardSetOf 48, EMPTY); sc_tricks_won := (TricksOf 1, TricksOf 0) |}.
Definition played : Transition :=
  result_or (build_transition following on_suit following None [] []) (transition (H := Formal.sequential_weavy) following on_suit).
End Samples.

(** After a lead of the player's suit the other suit is refused and not offered. *)
Lemma model_actions_exact_witness : ∃ l, legal_actions (H := Formal.sequential_weavy) Samples.following = Ok l ∧
  (offers l Samples.off_suit = false ∧ transition (H := Formal.sequential_weavy) Samples.following Samples.off_suit = Err (MustFollowSuit 1)) ∧
  offers l Samples.on_suit = true.
Proof.
  assert (Sample.runs_to 10 Samples.following = true) as Hr by (vm_compute; reflexivity).
  assert (refusal Samples.following Samples.off_suit = Some (MustFollowSuit 1)) as Hoff by (vm_compute; reflexivity).
  assert (refusal Samples.following Samples.on_suit = None) as Hon by (vm_compute; reflexivity).
  destruct (model_actions_exact (H := Formal.sequential_weavy) Samples.following (Sample.runs_to_reachable 10 _ Hr)) as (l & Hl & _ & Hx).
  exists l. split; [exact Hl|]. pose proof (Hx Samples.off_suit eq_refl) as H1. pose proof (Hx Samples.on_suit eq_refl) as H2. rewrite Hoff in H1. rewrite Hon in H2.
  split; [exact H1|exact (proj1 H2)].
Defined.

Lemma catalog_holds_witness : evaluate_state_property (H := Formal.sequential_weavy) DeadlockFreedom Samples.following = Ok true ∧
  evaluate_transition_property (H := Formal.sequential_weavy) FollowSuit Samples.following Samples.played = Ok true ∧
  evaluate_transition_property (H := Formal.sequential_weavy) TrickWinner Samples.following Samples.played = Ok true.
Proof.
  assert (Sample.runs_to 10 Samples.following = true) as Hr by (vm_compute; reflexivity).
  assert (bool_decide (next Samples.played = Samples.following) = false) as Hne by (vm_compute; reflexivity).
  assert (transition (H := Formal.sequential_weavy) Samples.following Samples.on_suit = Ok Samples.played) as Ht by (vm_compute; reflexivity).
  pose proof (λ id, catalog_holds (H := Formal.sequential_weavy) id Samples.following (Sample.runs_to_reachable 10 _ Hr)) as Hc.
  split; [exact (proj1 (Hc DeadlockFreedom))|]. split; [exact (proj2 (Hc FollowSuit) Samples.on_suit Samples.played eq_refl Ht)|exact (proj2 (Hc TrickWinner) Samples.on_suit Samples.played eq_refl Ht)].
Defined.

Lemma model_run_finishes_witness : (game_phase (Sample.after 20) = PhFinished ↔ (20 ≤ length (Sample.play 20))%nat) ∧
  length (Sample.play 20) = 20%nat ∧ game_phase (Sample.after 20) = PhFinished.
Proof.
  assert (Sample.runs_to 20 (Sample.after 20) = true) as Hr by (vm_compute; reflexivity). destruct (Sample.runs_to_run _ _ Hr) as (Ha & Hl & Hrun).
  pose proof (proj1 (model_run_finishes (H := Formal.sequential_weavy) PlayerZero (Sample.play 20) (Sample.after 20) Ha Hrun)) as Hf.
  split; [exact Hf|]. split; [exact Hl|]. apply (proj2 Hf). rewrite Hl. apply Nat.le_refl.
Defined.

Lemma settlement_exact_witness : ∃ t, transition (H := Formal.sequential_weavy) (GScoring Samples.scoring) ActSettle = Ok t ∧
  next t = GAwaitingDeal {| aw_ledger := {| dealer := PlayerOne; round := TwoCards; scores := (ScoreOf 21, ScoreOf 0); pot := PotOf 1 |} |} ∧
  round_scores t = Some (event_of Samples.scoring PlayerZero, event_of Samples.scoring PlayerOne).
Proof.
  assert (Sample.runs_to 5 (GScoring Samples.scoring) = true) as Hr by (vm_compute; reflexivity).
  destruct (settlement_exact (H := Formal.sequential_weavy) Samples.scoring (Sample.runs_to_reachable 5 _ Hr)) as (t & Ht & Hn & He & _).
  exists t. split; [exact Ht|]. split; [rewrite Hn; vm_compute; reflexivity|exact He].
Defined.

Lemma deal_secrecy_witness : ∃ t deals, transition (H := Formal.sequential_weavy) (GAwaitingDeal Sample.awaiting) (ActDeal Sample.a_deal) = Ok t ∧
  legal_actions (H := Formal.sequential_weavy) (GAwaitingDeal Sample.awaiting) = Ok (LegalChance deals) ∧
  length (alternatives PlayerZero Sample.a_deal deals) = 3%nat.
Proof.
  assert (Sample.runs_to 6 (GAwaitingDeal Sample.awaiting) = true) as Hr by (vm_compute; reflexivity).
  assert (deal_ok Sample.a_deal = true) as Hd by (vm_compute; reflexivity).
  assert (deal_hand_size Sample.a_deal = hand_size (round (aw_ledger Sample.awaiting))) as Hs by (vm_compute; reflexivity).
  destruct (deal_secrecy (H := Formal.sequential_weavy) Sample.awaiting Sample.a_deal PlayerZero (Sample.runs_to_reachable 6 _ Hr) Hd Hs) as (t & deals & Ht & Hl & _ & Hn).
  exists t, deals. split; [exact Ht|]. split; [exact Hl|]. rewrite Hn. vm_compute. reflexivity.
Defined.
