(* ===== verification/Explore.v ===== *)
(** * Explicit-state exploration

    poche-check/src/lib.rs: the breadth-first explorer, its graph and its traces, for any
    transition system with listed actions; the strict six-card model is the system the
    code explores.  A state table is its columns; the hash map of canonical states is an
    association list that is only extended.  Counters of [usize] that never exceed the
    length of a vector are unbounded. *)

From stdpp Require Import base strings numbers option list.
From S2P Require Import Prelude Domain Formal ModelFinite ModelKernels ModelState ModelSemantics.

Local Open Scope Z_scope.

Inductive CheckScope := Micro.

Definition scope_id (self : CheckScope) : string := match self with Micro => "micro-2p-2s-3r-6c-schedule-1-2-1" end.

Definition scope_initial_states (self : CheckScope) : list Game := match self with Micro => [Game_new PlayerZero; Game_new PlayerOne] end.

Record StateId := StateIdOf { id_get : Z }.

#[export] Instance StateId_eq_dec : EqDecision StateId.
Proof. solve_decision. Defined.

(** [usize::try_from(self.0)] of a [u32] *)
Definition index (self : StateId) : nat := Z.to_nat (id_get self).

Inductive TerminationReason := ReachableStateSpaceExhausted | StateLimitReached.

#[export] Instance TerminationReason_eq_dec : EqDecision TerminationReason.
Proof. solve_decision. Defined.

Record ExplorationStats := mkExplorationStats
  { stat_states : Z; stat_transitions : Z; stat_duplicate_state_hits : Z; stat_maximum_depth : Z; stat_initial_states : Z;
    stat_finished_states : Z; stat_termination : TerminationReason }.

Record ExplorerConfig := mkExplorerConfig { state_limit : option Z }.

Section Explorer.
Context {St Act Rej : Type} `{EqDecision St}.

Record Edge := mkEdge { from : StateId; label : Act; to : StateId }.

Record Predecessor := mkPredecessor { pre_state : StateId; pre_action : Act }.

Record Counterexample := mkCounterexample { target : StateId; depth : Z; ce_states : list St; ce_actions : list Act }.

Inductive CheckError := LegalTransition (state : St) (action : Act) (source : Rej) | StateIdOverflow.

(** ** The state table *)

Record Columns := mkColumns
  { c_states : list St; c_depths : list Z; c_predecessors : list (option Predecessor); c_canonical : list (St * StateId) }.

Definition no_states : Columns := {| c_states := []; c_depths := []; c_predecessors := []; c_canonical := [] |}.

Definition find_state (c : Columns) (state : St) : option StateId := snd <$> List.find (λ e, bool_decide (e.1 = state)) (c_canonical c).

Definition insert_state (state : St) (d : Z) (predecessor : option Predecessor) (c : Columns) : outcome CheckError (StateId * Columns) :=
  raw_id ← ok_or (checked 32 (Z.of_nat (length (c_states c)))) StateIdOverflow;
  let id := StateIdOf raw_id in
  Ok (id, {| c_states := c_states c ++ [state]; c_depths := c_depths c ++ [d]; c_predecessors := c_predecessors c ++ [predecessor];
             c_canonical := (state, id) :: c_canonical c |}).

(** ** Traces *)

(** The walk back along predecessors.  It ends because a predecessor has a smaller identifier; fuel that runs out stands for a
    walk that would not end, and is never the result on a table of the explorer. *)
Fixpoint trace_back (fuel : nat) (states : list St) (predecessors : list (option Predecessor)) (cursor : StateId) (s : list St) (a : list Act)
    : outcome CheckError (option (list St * list Act)) :=
  match fuel with
  | O => Panic
  | S fuel =>
      match mjoin (predecessors !! index cursor) with
      | Some p =>
          match states !! index (pre_state p) with
          | Some state => trace_back fuel states predecessors (pre_state p) (state :: s) (pre_action p :: a)
          | None => Ok None
          end
      | None => Ok (Some (s, a))
      end
  end.

Definition reconstruct_counterexample (goal : StateId) (states : list St) (depths : list Z) (predecessors : list (option Predecessor))
    : outcome CheckError (option Counterexample) :=
  match states !! index goal with
  | None => Ok None
  | Some state =>
      walked ← trace_back (S (length states)) states predecessors goal [state] [];
      match walked with
      | None => Ok None
      | Some (s, a) => d ← expect (depths !! index goal); Ok (Some {| target := goal; depth := d; ce_states := s; ce_actions := a |})
      end
  end.

(** ** Breadth-first search *)

Variable acts : St → outcome CheckError (list Act).
Variable step : St → Act → outcome Rej St.

Record Search := mkSearch
  { columns : Columns; queue : list StateId; found_edges : list Edge; duplicate_state_hits : Z; maximum_depth : Z; termination : TerminationReason }.

Fixpoint insert_initial (inits : list St) (c : Columns) (ids : list StateId) : outcome CheckError (Columns * list StateId) :=
  match inits with
  | [] => Ok (c, ids)
  | state :: inits => '(id, c) ← insert_state state 0 None c; insert_initial inits c (ids ++ [id])
  end.

Definition limit_reached (config : ExplorerConfig) (c : Columns) : bool :=
  match state_limit config with Some limit => limit <=? Z.of_nat (length (c_states c)) | None => false end.

(** The loop over the actions of a state; [true] is [break 'bfs]. *)
Fixpoint explore_actions (config : ExplorerConfig) (source : StateId) (state : St) (actions : list Act) (s : Search)
    : outcome CheckError (Search * bool) :=
  match actions with
  | [] => Ok (s, false)
  | action :: actions =>
      next ← map_err (LegalTransition state action) (step state action);
      match find_state (columns s) next with
      | Some id =>
          explore_actions config source state actions
            {| columns := columns s; queue := queue s; found_edges := found_edges s ++ [{| from := source; label := action; to := id |}];
               duplicate_state_hits := duplicate_state_hits s + 1; maximum_depth := maximum_depth s; termination := termination s |}
      | None =>
          if limit_reached config (columns s)
          then Ok ({| columns := columns s; queue := queue s; found_edges := found_edges s; duplicate_state_hits := duplicate_state_hits s;
                      maximum_depth := maximum_depth s; termination := StateLimitReached |}, true)
          else
            parent ← expect (c_depths (columns s) !! index source);
            d ← u_add 32 parent 1;
            '(id, c) ← insert_state next d (Some {| pre_state := source; pre_action := action |}) (columns s);
            explore_actions config source state actions
              {| columns := c; queue := queue s ++ [id]; found_edges := found_edges s ++ [{| from := source; label := action; to := id |}];
                 duplicate_state_hits := duplicate_state_hits s; maximum_depth := Z.max (maximum_depth s) d; termination := termination s |}
      end
  end.

(** The search loop; [None] is fuel that ran out. *)
Fixpoint bfs (fuel : nat) (config : ExplorerConfig) (s : Search) : option (outcome CheckError Search) :=
  match fuel with
  | O => None
  | S fuel =>
      match queue s with
      | [] => Some (Ok s)
      | source :: rest =>
          match (state ← expect (c_states (columns s) !! index source);
                 actions ← acts state;
                 explore_actions config source state actions
                   {| columns := columns s; queue := rest; found_edges := found_edges s; duplicate_state_hits := duplicate_state_hits s;
                      maximum_depth := maximum_depth s; termination := termination s |}) with
          | Ok (s, true) => Some (Ok s)
          | Ok (s, false) => bfs fuel config s
          | Err e => Some (Err e)
          | Panic => Some Panic
          end
      end
  end.

Definition search_from (inits : list St) (fuel : nat) (config : ExplorerConfig) : option (outcome CheckError (Search * list StateId)) :=
  match insert_initial inits no_states [] with
  | Ok (c, ids) =>
      (λ r, s ← r; Ok (s, ids)) <$> bfs fuel config
        {| columns := c; queue := ids; found_edges := []; duplicate_state_hits := 0; maximum_depth := 0; termination := ReachableStateSpaceExhausted |}
  | Err e => Some (Err e)
  | Panic => Some Panic
  end.

(** ** Search for a violation *)

Section Invariant.
Variable invariant : St → bool.

Definition report (c : Columns) (id : StateId) : outcome CheckError (option Counterexample) :=
  reconstruct_counterexample id (c_states c) (c_depths c) (c_predecessors c).

(** [inl] is an answer, [inr] the state of the search. *)
Fixpoint seek_initial (inits : list St) (c : Columns) (q : list StateId) : outcome CheckError (option Counterexample + Columns * list StateId) :=
  match inits with
  | [] => Ok (inr (c, q))
  | state :: inits =>
      '(id, c) ← insert_state state 0 None c;
      if negb (invariant state) then answer ← report c id; Ok (inl answer) else seek_initial inits c (q ++ [id])
  end.

Fixpoint seek_actions (source : StateId) (state : St) (actions : list Act) (c : Columns) (q : list StateId)
    : outcome CheckError (option Counterexample + Columns * list StateId) :=
  match actions with
  | [] => Ok (inr (c, q))
  | action :: actions =>
      next ← map_err (LegalTransition state action) (step state action);
      match find_state c next with
      | Some _ => seek_actions source state actions c q
      | None =>
          parent ← expect (c_depths c !! index source);
          d ← u_add 32 parent 1;
          '(id, c) ← insert_state next d (Some {| pre_state := source; pre_action := action |}) c;
          if negb (invariant next) then answer ← report c id; Ok (inl answer) else seek_actions source state actions c (q ++ [id])
      end
  end.

Fixpoint seek (fuel : nat) (c : Columns) (q : list StateId) : option (outcome CheckError (option Counterexample)) :=
  match fuel with
  | O => None
  | S fuel =>
      match q with
      | [] => Some (Ok None)
      | source :: rest =>
          match (state ← expect (c_states c !! index source); actions ← acts state; seek_actions source state actions c rest) with
          | Ok (inl answer) => Some (Ok answer)
          | Ok (inr (c, q)) => seek fuel c q
          | Err e => Some (Err e)
          | Panic => Some Panic
          end
      end
  end.

Definition counterexample_from (inits : list St) (fuel : nat) : option (outcome CheckError (option Counterexample)) :=
  match seek_initial inits no_states [] with
  | Ok (inl answer) => Some (Ok answer)
  | Ok (inr (c, q)) => seek fuel c q
  | Err e => Some (Err e)
  | Panic => Some Panic
  end.
End Invariant.
End Explorer.

Arguments Edge : clear implicits.
Arguments Predecessor : clear implicits.
Arguments Counterexample : clear implicits.
Arguments CheckError : clear implicits.
Arguments Columns : clear implicits.
Arguments Search : clear implicits.

(** ** The strict model *)

Definition GameError : Type := CheckError Game ModelAction ModelError.

Record ExplicitGraph := mkExplicitGraph
  { g_scope : CheckScope; g_states : list Game; g_edges : list (Edge ModelAction); g_depths : list Z;
    g_predecessors : list (option (Predecessor ModelAction)); g_initial_states : list StateId; g_stats : ExplorationStats }.

Definition graph_state (self : ExplicitGraph) (id : StateId) : option Game := g_states self !! index id.

Definition shortest_trace (self : ExplicitGraph) (goal : StateId) : outcome GameError (option (Counterexample Game ModelAction)) :=
  reconstruct_counterexample goal (g_states self) (g_depths self) (g_predecessors self).

Definition trace_through_edge (self : ExplicitGraph) (edge : Edge ModelAction) : outcome GameError (option (Counterexample Game ModelAction)) :=
  trace ← shortest_trace self (from edge);
  match trace with
  | None => Ok None
  | Some trace =>
      match graph_state self (to edge) with
      | None => Ok None
      | Some state =>
          d ← u_add 32 (depth trace) 1;
          Ok (Some {| target := to edge; depth := d; ce_states := ce_states trace ++ [state]; ce_actions := ce_actions trace ++ [label edge] |})
      end
  end.

Section Model.
Context `{Formal.Weavy}.

Definition model_actions (state : Game) : outcome GameError (list ModelAction) :=
  l ← expect_ok (legal_actions state);
  Ok (match l with
      | LegalChance actions => ActDeal <$> actions
      | LegalPlayer actions => ActPlayer <$> actions
      | LegalEnvironment => [ActSettle]
      | LegalFinished => [ActAbsorb]
      end).

Definition model_step (state : Game) (action : ModelAction) : outcome ModelError Game := t ← transition state action; Ok (next t).

Definition finished_count (states : list Game) : Z :=
  Z.of_nat (length (List.filter (λ g, match g with GFinished _ => true | _ => false end) states)).

Definition graph_of (scope : CheckScope) (s : Search Game ModelAction) (ids : list StateId) : ExplicitGraph :=
  let c := columns s in
  {| g_scope := scope; g_states := c_states c; g_edges := found_edges s; g_depths := c_depths c; g_predecessors := c_predecessors c;
     g_initial_states := ids;
     g_stats := {| stat_states := Z.of_nat (length (c_states c)); stat_transitions := Z.of_nat (length (found_edges s));
                   stat_duplicate_state_hits := duplicate_state_hits s; stat_maximum_depth := maximum_depth s;
                   stat_initial_states := Z.of_nat (length ids); stat_finished_states := finished_count (c_states c);
                   stat_termination := termination s |} |}.

Definition explore_with_config (fuel : nat) (scope : CheckScope) (config : ExplorerConfig) : option (outcome GameError ExplicitGraph) :=
  (λ r, '(s, ids) ← r; Ok (graph_of scope s ids)) <$> search_from model_actions model_step (scope_initial_states scope) fuel config.

Definition explore (fuel : nat) (scope : CheckScope) : option (outcome GameError ExplicitGraph) :=
  explore_with_config fuel scope {| state_limit := None |}.

Definition shortest_counterexample (fuel : nat) (scope : CheckScope) (invariant : Game → bool)
    : option (outcome GameError (option (Counterexample Game ModelAction))) :=
  counterexample_from model_actions model_step invariant (scope_initial_states scope) fuel.
End Model.
