(* ===== verification/ExploreTheorems.v ===== *)
(** * Explicit-state exploration: the search

    The table of the breadth-first search, for any transition system: the states are
    those that are reached, the depths their distances and the predecessors a tree of
    shortest paths. *)

From stdpp Require Import base strings numbers option list.
From S2P Require Import Prelude Explore.

Definition id_of (n : nat) : StateId := StateIdOf (Z.of_nat n).

Lemma index_id_of n : index (id_of n) = n.
Proof. unfold index, id_of. cbn. lia. Qed.

#[export] Instance id_of_inj : Inj (=) (=) id_of.
Proof. intros m n [= H]. lia. Qed.

Lemma last_default {A} (x y : A) l : default x (last (y :: l)) = default y (last l).
Proof.
  destruct l as [|z l]; [done|]. rewrite last_cons_cons. destruct (last (z :: l)) eqn:Hl; [done|]. by apply last_None in Hl.
Qed.

Lemma find_canonical {St} `{EqDecision St} (states : list St) x :
  snd <$> List.find (λ e, bool_decide (e.1 = x)) (reverse (imap (λ i s, (s, id_of i)) states)) = None ∧ x ∉ states ∨
  ∃ i, snd <$> List.find (λ e, bool_decide (e.1 = x)) (reverse (imap (λ i s, (s, id_of i)) states)) = Some (id_of i) ∧ states !! i = Some x.
Proof.
  induction states as [|y states IH] using rev_ind; [left; split; [done|apply not_elem_of_nil]|].
  rewrite imap_app. cbn [imap]. rewrite reverse_snoc. cbn [List.find fst compose]. rewrite Nat.add_0_r. destruct (bool_decide_reflect (y = x)) as [->|Hy].
  - right. exists (length states). split; [done|]. rewrite lookup_app_r, Nat.sub_diag by lia. done.
  - destruct IH as [[Hf Hx]|(i & Hf & Hx)].
    + left. split; [exact Hf|]. rewrite elem_of_app, list_elem_of_singleton. naive_solver.
    + right. exists i. split; [exact Hf|]. by apply lookup_app_l_Some.
Qed.

Section Systems.
Context {St Act Rej : Type} `{EqDecision St}.
Variable acts : St → outcome (CheckError St Act Rej) (list Act).
Variable step : St → Act → outcome Rej St.
Variable inits : list St.

(** ** Paths *)

Definition offered (s : St) (a : Act) : Prop := ∃ l, acts s = Ok l ∧ a ∈ l.

Inductive path : nat → St → Prop :=
  | path_init s : s ∈ inits → path 0 s
  | path_step n s a s' : path n s → offered s a → step s a = Ok s' → path (S n) s'.

Definition reached (s : St) : Prop := ∃ n, path n s.

(** A run from a state: its actions and the states after each. *)
Fixpoint follows (s : St) (actions : list Act) (ss : list St) : Prop :=
  match actions, ss with
  | [], [] => True
  | a :: actions, s' :: ss => offered s a ∧ step s a = Ok s' ∧ follows s' actions ss
  | _, _ => False
  end.

Lemma follows_length s actions ss : follows s actions ss → length ss = length actions.
Proof using Type. revert s ss. induction actions as [|a actions IH]; intros s [|s' ss]; cbn; [done..|]. intros (_ & _ & H). f_equal. by apply (IH s'). Qed.

Lemma follows_app s actions ss actions' ss' : follows s actions ss → follows (default s (last ss)) actions' ss' → follows s (actions ++ actions') (ss ++ ss').
Proof using Type.
  revert s ss. induction actions as [|a actions IH]; intros s [|s' ss]; cbn; [done..|]. intros (Ho & Hs & Hf) Hf'. split; [done|]. split; [done|].
  apply IH; [done|]. by rewrite last_default in Hf'.
Qed.

(** ** The table *)

Record table (c : Columns St Act) : Prop := {
  t_nodup : NoDup (c_states c);
  t_canonical : c_canonical c = reverse (imap (λ i s, (s, id_of i)) (c_states c));
  t_depths : length (c_depths c) = length (c_states c);
  t_predecessors : length (c_predecessors c) = length (c_states c);
  t_small : (Z.of_nat (length (c_states c)) ≤ 2 ^ 32)%Z;
  t_inits : ∃ rest, c_states c = inits ++ rest;
  t_roots i : i < length inits → c_depths c !! i = Some 0%Z ∧ c_predecessors c !! i = Some None;
  t_tree i s : length inits ≤ i → c_states c !! i = Some s → ∃ p sp a d, p < i ∧ c_predecessors c !! i = Some (Some (mkPredecessor (id_of p) a)) ∧
    c_states c !! p = Some sp ∧ offered sp a ∧ step sp a = Ok s ∧ c_depths c !! p = Some d ∧ c_depths c !! i = Some (d + 1)%Z;
  t_sorted i j di dj : i ≤ j → c_depths c !! i = Some di → c_depths c !! j = Some dj → (di ≤ dj)%Z;
}.

Lemma find_state_spec c x : table c →
  match find_state c x with Some id => ∃ i, id = id_of i ∧ c_states c !! i = Some x | None => x ∉ c_states c end.
Proof using Type.
  intros Hc. unfold find_state. rewrite (t_canonical _ Hc). destruct (find_canonical (c_states c) x) as [[-> Hx]|(i & -> & Hi)]; [done|]. by exists i.
Qed.

Lemma table_depth c i s : table c → c_states c !! i = Some s → ∃ d, c_depths c !! i = Some d ∧ (0 ≤ d)%Z.
Proof using Type.
  intros Hc. revert s. induction (lt_wf i) as [i _ IH]. intros s Hs. destruct (decide (i < length inits)) as [Hi|Hi].
  - exists 0%Z. split; [by apply (t_roots _ Hc)|done].
  - destruct (t_tree _ Hc i s ltac:(lia) Hs) as (p & sp & a & d & Hp & _ & Hsp & _ & _ & Hd & Hdi). destruct (IH p Hp sp Hsp) as (d' & Hd' & Hnn).
    assert (d' = d) as -> by congruence. exists (d + 1)%Z. split; [done|lia].
Qed.

(** With two roots a depth is small, and a path of that length leads to the state. *)
Lemma table_depth_small c i s d : 2 ≤ length inits → table c → c_states c !! i = Some s → c_depths c !! i = Some d → (d ≤ Z.max 0 (Z.of_nat i - 1))%Z.
Proof using Type.
  intros H2 Hc. revert s d. induction (lt_wf i) as [i _ IH]. intros s d Hs Hd. destruct (decide (i < length inits)) as [Hi|Hi].
  - destruct (t_roots _ Hc i Hi) as [Hd' _]. assert (d = 0%Z) as -> by congruence. lia.
  - destruct (t_tree _ Hc i s ltac:(lia) Hs) as (p & sp & a & d' & Hp & _ & Hsp & _ & _ & Hd' & Hdi). pose proof (IH p Hp sp d' Hsp Hd').
    assert (d = (d' + 1)%Z) as -> by congruence. lia.
Qed.

Lemma table_path c i s d : table c → c_states c !! i = Some s → c_depths c !! i = Some d → path (Z.to_nat d) s.
Proof using Type.
  intros Hc. revert s d. induction (lt_wf i) as [i _ IH]. intros s d Hs Hd. destruct (decide (i < length inits)) as [Hi|Hi].
  - destruct (t_roots _ Hc i Hi) as [Hd' _]. assert (d = 0%Z) as -> by congruence. apply path_init.
    destruct (t_inits _ Hc) as [rest Hr]. rewrite Hr, lookup_app_l in Hs by done. by apply list_elem_of_lookup_2 in Hs.
  - destruct (t_tree _ Hc i s ltac:(lia) Hs) as (p & sp & a & d' & Hp & _ & Hsp & Ho & Hst & Hd' & Hdi). assert (d = (d' + 1)%Z) as -> by congruence.
    destruct (table_depth c p sp Hc Hsp) as (d'' & Hd'' & Hnn). assert (d'' = d') as -> by congruence.
    replace (Z.to_nat (d' + 1)) with (S (Z.to_nat d')) by lia. eapply path_step; [by apply (IH p Hp)|done..].
Qed.

Lemma table_reached c s : table c → s ∈ c_states c → reached s.
Proof using Type.
  intros Hc [i Hi]%list_elem_of_lookup. destruct (table_depth c i s Hc Hi) as (d & Hd & _). exists (Z.to_nat d). by apply (table_path c i).
Qed.

(** ** Traces *)

(** A trace: it starts at an initial state, follows its actions and ends at the state it is to. *)
Definition trace_to (goal : St) (d : Z) (ce : Counterexample St Act) : Prop :=
  ∃ s0 rest, ce_states ce = s0 :: rest ∧ s0 ∈ inits ∧ follows s0 (ce_actions ce) rest ∧ default s0 (last rest) = goal ∧
    Z.of_nat (length (ce_actions ce)) = d ∧ depth ce = d.

Lemma trace_back_spec c : table c → ∀ i s d fuel ss aa, c_states c !! i = Some s → c_depths c !! i = Some d → i < fuel → follows s aa ss →
  ∃ s0 rest actions, trace_back (Rej := Rej) fuel (c_states c) (c_predecessors c) (id_of i) (s :: ss) aa = Ok (Some (s0 :: rest, actions)) ∧
    s0 ∈ inits ∧ follows s0 actions rest ∧ default s0 (last rest) = default s (last ss) ∧ Z.of_nat (length actions) = (d + Z.of_nat (length aa))%Z.
Proof using Type.
  intros Hc i. induction (lt_wf i) as [i _ IH]. intros s d [|fuel] ss aa Hs Hd Hfuel Hf; [lia|]. cbn [trace_back]. rewrite index_id_of.
  destruct (decide (i < length inits)) as [Hi|Hi].
  - destruct (t_roots _ Hc i Hi) as [Hd' ->]. cbn [mjoin option_join]. exists s, ss, aa. split; [done|]. split; [|split; [done|split; [done|]]].
    + destruct (t_inits _ Hc) as [rest Hr]. rewrite Hr, lookup_app_l in Hs by done. by apply list_elem_of_lookup_2 in Hs.
    + assert (d = 0%Z) by congruence. lia.
  - destruct (t_tree _ Hc i s ltac:(lia) Hs) as (p & sp & a & d' & Hp & -> & Hsp & Ho & Hst & Hd' & Hdi). cbn [mjoin option_join pre_state pre_action].
    rewrite index_id_of, Hsp. assert (d = (d' + 1)%Z) as -> by congruence.
    destruct (IH p Hp sp d' fuel (s :: ss) (a :: aa) Hsp Hd' ltac:(lia) (conj Ho (conj Hst Hf))) as (s0 & rest & actions & Ht & Hin & Hfol & Hl & Hlen).
    exists s0, rest, actions. split; [done|]. split; [done|]. split; [done|]. split; [by rewrite Hl, last_default|]. cbn [length] in Hlen. lia.
Qed.

Lemma trace_spec c i s d : table c → c_states c !! i = Some s → c_depths c !! i = Some d →
  ∃ ce, reconstruct_counterexample (Rej := Rej) (id_of i) (c_states c) (c_depths c) (c_predecessors c) = Ok (Some ce) ∧ target ce = id_of i ∧ trace_to s d ce.
Proof using Type.
  intros Hc Hs Hd. unfold reconstruct_counterexample. rewrite index_id_of, Hs. pose proof (lookup_lt_Some _ _ _ Hs) as Hlt.
  destruct (trace_back_spec c Hc i s d (S (length (c_states c))) [] [] Hs Hd ltac:(lia) I) as (s0 & rest & actions & Ht & Hin & Hf & Hl & Hlen).
  rewrite Ht. cbn [mbind outcome_bind]. rewrite Hd. cbn [expect mbind outcome_bind]. eexists. split; [done|]. split; [done|].
  exists s0, rest. cbn. split_and!; try done. cbn in Hlen. lia.
Qed.

(** ** Insertion *)

Definition extend (c : Columns St Act) (x : St) (d : Z) (p : option (Predecessor Act)) : Columns St Act :=
  {| c_states := c_states c ++ [x]; c_depths := c_depths c ++ [d]; c_predecessors := c_predecessors c ++ [p];
     c_canonical := (x, id_of (length (c_states c))) :: c_canonical c |}.

Lemma insert_state_Ok x d p (c : Columns St Act) : (Z.of_nat (length (c_states c)) ≤ 2 ^ 32)%Z →
  insert_state (Rej := Rej) x d p c = if (Z.of_nat (length (c_states c)) =? 2 ^ 32)%Z then Err StateIdOverflow else Ok (id_of (length (c_states c)), extend c x d p).
Proof using Type.
  intros Hc. unfold insert_state, checked, in_widthb. destruct (Z.eqb_spec (Z.of_nat (length (c_states c))) (2 ^ 32)) as [->|Hne]; [done|].
  by replace ((0 <=? Z.of_nat (length (c_states c))) && (Z.of_nat (length (c_states c)) <? 2 ^ 32))%Z with true by lia.
Qed.

Lemma lookup_snoc {A} (l : list A) x i y : (l ++ [x]) !! i = Some y ↔ l !! i = Some y ∨ i = length l ∧ x = y.
Proof using Type. rewrite lookup_app_Some, list_lookup_singleton_Some. split; intros [H|H]; [by left|right; lia || (destruct H as (H1 & H2 & H3); split; [lia|done])|by left|right; destruct H as [-> H]; split; [lia|split; [lia|done]]]. Qed.

Lemma table_insert c k sp a x dk : table c → x ∉ c_states c → (Z.of_nat (length (c_states c)) < 2 ^ 32)%Z → c_states c !! k = Some sp → offered sp a → step sp a = Ok x →
  c_depths c !! k = Some dk → (∀ j dj, c_depths c !! j = Some dj → (dj ≤ dk + 1)%Z) → table (extend c x (dk + 1) (Some (mkPredecessor (id_of k) a))).
Proof using Type.
  intros Hc Hx Hn Hk Ho Hst Hd Hmax. pose proof (t_depths _ Hc) as Hdl. pose proof (t_predecessors _ Hc) as Hpl. destruct (t_inits _ Hc) as [rest Hrest].
  split; cbn [extend c_states c_depths c_predecessors c_canonical].
  - apply NoDup_app. split; [apply Hc|]. split; [|apply NoDup_singleton]. intros y Hy ->%list_elem_of_singleton. done.
  - rewrite imap_app. cbn [imap]. rewrite reverse_snoc, Nat.add_0_r, (t_canonical _ Hc). done.
  - rewrite !length_app, Hdl. done.
  - rewrite !length_app, Hpl. done.
  - rewrite length_app. cbn [length]. lia.
  - exists (rest ++ [x]). by rewrite Hrest, app_assoc.
  - intros i Hi. destruct (t_roots _ Hc i Hi) as [H1 H2]. split; by apply lookup_app_l_Some.
  - intros i s Hi Hs%lookup_snoc. destruct Hs as [Hs|[-> <-]].
    + destruct (t_tree _ Hc i s Hi Hs) as (p & sp' & a' & d & Hp & H1 & H2 & H3 & H4 & H5 & H6). exists p, sp', a', d. split_and!; try done; by apply lookup_app_l_Some.
    + exists k, sp, a, dk. split_and!; [by apply lookup_lt_Some in Hk| |by apply lookup_app_l_Some|done|done|by apply lookup_app_l_Some|].
      * rewrite <-Hpl. apply lookup_snoc. by right.
      * rewrite <-Hdl. apply lookup_snoc. by right.
  - intros i j di dj Hij Hi%lookup_snoc Hj%lookup_snoc. destruct Hi as [Hi|[-> <-]], Hj as [Hj|[-> <-]]; [by apply (t_sorted _ Hc i j)|by apply (Hmax i)| |lia].
    apply lookup_lt_Some in Hj. lia.
Qed.

(** ** The search *)

(** An action of a state is answered: its successor is in the table, at most one step deeper. *)
Definition answered (c : Columns St Act) (i : nat) (a : Act) : Prop := ∀ s s', c_states c !! i = Some s → step s a = Ok s' →
  ∃ j, c_states c !! j = Some s' ∧ ∀ di dj, c_depths c !! i = Some di → c_depths c !! j = Some dj → (dj ≤ di + 1)%Z.

(** Every state before the [k]th is expanded, and the [k]th for the actions [dn]. *)
Record progress (c : Columns St Act) (k : nat) (dn : list Act) : Prop := {
  p_table : table c;
  p_index : k ≤ length (c_states c);
  p_frontier dk j dj : c_depths c !! k = Some dk → c_depths c !! j = Some dj → (dj ≤ dk + 1)%Z;
  p_expanded i s a : i < k → c_states c !! i = Some s → offered s a → answered c i a;
  p_partial a : a ∈ dn → answered c k a;
}.

Lemma answered_extend c i a x d p : table c → (∃ s, c_states c !! i = Some s) → answered c i a → answered (extend c x d p) i a.
Proof using Type.
  intros Hc [s0 Hs0] Ha s s' Hs Hst. cbn in *. pose proof (lookup_lt_Some _ _ _ Hs0) as Hlt. pose proof (t_depths _ Hc) as Hdl.
  rewrite lookup_app_l in Hs by done. destruct (Ha s s' Hs Hst) as (j & Hj & Hd). pose proof (lookup_lt_Some _ _ _ Hj). exists j.
  split; [by apply lookup_app_l_Some|]. intros di dj. rewrite !lookup_app_l by lia. apply Hd.
Qed.

Lemma progress_found c k dn s a x : progress c k dn → c_states c !! k = Some s → step s a = Ok x → x ∈ c_states c → progress c k (dn ++ [a]).
Proof using Type.
  intros [Ht Hk Hf He Hp] Hs Hst Hx. split; [done..|]. intros a' [Ha'| ->%list_elem_of_singleton]%elem_of_app; [by apply Hp|].
  intros s1 s' Hs1 Hst'. assert (s' = x) as -> by congruence. apply list_elem_of_lookup in Hx as [j Hj]. exists j. split; [done|]. intros di dj. apply Hf.
Qed.

Lemma progress_insert c k dn s a x dk : progress c k dn → c_states c !! k = Some s → offered s a → step s a = Ok x → x ∉ c_states c →
  (Z.of_nat (length (c_states c)) < 2 ^ 32)%Z → c_depths c !! k = Some dk → progress (extend c x (dk + 1) (Some (mkPredecessor (id_of k) a))) k (dn ++ [a]).
Proof using Type.
  intros [Ht Hk Hf He Hp] Hs Ho Hst Hx Hn Hd. pose proof (t_depths _ Ht) as Hdl. pose proof (lookup_lt_Some _ _ _ Hs) as Hlt.
  assert (table (extend c x (dk + 1) (Some (mkPredecessor (id_of k) a)))) as Ht'.
  { apply (table_insert c k s); [done..|]. intros j dj. by apply Hf. }
  assert (∀ j dj, c_depths c !! j = Some dj ∨ j = length (c_depths c) ∧ (dk + 1)%Z = dj → (dj ≤ dk + 1)%Z) as Hmax.
  { intros j dj [Hj|[_ <-]]; [by apply (Hf dk j)|lia]. }
  split; [done|cbn; rewrite length_app; lia|..]; cbn [extend c_states c_depths].
  - intros dk' j dj. rewrite lookup_app_l by lia. intros Hk' Hj%lookup_snoc. assert (dk' = dk) as -> by congruence. by apply (Hmax j).
  - intros i s1 a1 Hi. rewrite lookup_app_l by lia. intros Hs1 Ho1. apply answered_extend; [done|by exists s1|by apply (He i s1)].
  - intros a' [Ha'| ->%list_elem_of_singleton]%elem_of_app; [apply answered_extend; [done|by exists s|by apply Hp]|].
    intros s1 s'. cbn [extend c_states c_depths]. rewrite !lookup_app_l by lia. intros Hs1 Hst'. assert (s1 = s) as -> by congruence. assert (s' = x) as -> by congruence.
    exists (length (c_states c)). split; [apply lookup_snoc; by right|]. intros di dj Hdi Hdj%lookup_snoc. assert (di = dk) as -> by congruence. by apply (Hmax _ _ Hdj).
Qed.

Lemma progress_next c k dn s l : progress c k dn → c_states c !! k = Some s → acts s = Ok l → (∀ a, a ∈ l → a ∈ dn) → progress c (S k) [].
Proof using Type.
  intros [Ht Hk Hf He Hp] Hs Hl Hdn. pose proof (lookup_lt_Some _ _ _ Hs) as Hlt. split; [done|lia| | |by intros a ?%elem_of_nil].
  - intros dk j dj Hk' Hj. destruct (table_depth c k s Ht Hs) as (d & Hd & _). pose proof (Hf d j dj Hd Hj). pose proof (t_sorted _ Ht k (S k) d dk ltac:(lia) Hd Hk'). lia.
  - intros i s1 a Hi Hs1 Ho. destruct (decide (i = k)) as [->|Hne]; [|apply (He i s1); [lia|done..]].
    assert (s1 = s) as -> by congruence. destruct Ho as (l' & Hl' & Ha). assert (l' = l) as -> by congruence. by apply Hp, Hdn.
Qed.

(** All states at a distance below that of the state being expanded are in the table, at their distance or before. *)
Lemma progress_near c k dn dk : progress c k dn → c_depths c !! k = Some dk →
  ∀ n s, path n s → (Z.of_nat n ≤ dk)%Z → ∃ i d, c_states c !! i = Some s ∧ c_depths c !! i = Some d ∧ (d ≤ Z.of_nat n)%Z.
Proof using Type.
  intros [Ht Hk Hf He Hp] Hd n s Hpath. induction Hpath as [s Hs|n s a s' Hpath IH Ho Hst]; intros Hn.
  - destruct (t_inits _ Ht) as [rest Hr]. apply list_elem_of_lookup in Hs as [i Hi]. exists i, 0%Z. pose proof (lookup_lt_Some _ _ _ Hi).
    split; [rewrite Hr; by apply lookup_app_l_Some|]. split; [by apply (t_roots _ Ht)|lia].
  - destruct (IH ltac:(lia)) as (i & d & Hi & Hdi & Hle). assert (i < k) as Hik.
    { destruct (decide (i < k)) as [|Hge]; [done|]. pose proof (t_sorted _ Ht k i dk d ltac:(lia) Hd Hdi). lia. }
    destruct (He i s a Hik Hi Ho s s' Hi Hst) as (j & Hj & Hle'). destruct (table_depth c j s' Ht Hj) as (dj & Hdj & _).
    exists j, dj. split; [done|]. split; [done|]. specialize (Hle' d dj Hdi Hdj). lia.
Qed.

Lemma answers c k l s : progress c k l → c_states c !! k = Some s → acts s = Ok l → progress c (S k) [].
Proof using Type. intros Hp Hs Hl. by apply (progress_next c k l s l). Qed.

(** The edges of the expanded states, in order *)
Definition acts_of (s : St) : list Act := match acts s with Ok l => l | _ => [] end.

Definition labels (c : Columns St Act) (k : nat) (dn : list Act) : list (StateId * Act) :=
  mjoin (imap (λ i s, pair (id_of i) <$> acts_of s) (take k (c_states c))) ++ (pair (id_of k) <$> dn).

Definition edge_ok (c : Columns St Act) (e : Edge Act) : Prop :=
  from e = id_of (index (from e)) ∧ to e = id_of (index (to e)) ∧
  ∃ s s', c_states c !! index (from e) = Some s ∧ offered s (label e) ∧ step s (label e) = Ok s' ∧ c_states c !! index (to e) = Some s'.

Definition bound (config : ExplorerConfig) : Z :=
  match state_limit config with Some limit => Z.max limit (Z.of_nat (length inits)) | None => 2 ^ 32 end%Z.

(** What holds of the result of any search *)
Record sound (config : ExplorerConfig) (s : Search St Act) : Prop := {
  s_table : table (columns s);
  s_edges : Forall (edge_ok (columns s)) (found_edges s);
  s_count : (duplicate_state_hits s + Z.of_nat (length (c_states (columns s))) = Z.of_nat (length (found_edges s)) + Z.of_nat (length inits))%Z;
  s_deepest : maximum_depth s = default 0%Z (last (c_depths (columns s)));
  s_bound : (Z.of_nat (length (c_states (columns s))) ≤ bound config)%Z;
}.

Record searching (config : ExplorerConfig) (s : Search St Act) (k : nat) (dn : list Act) (pos : nat) : Prop := {
  s_sound : sound config s;
  s_progress : progress (columns s) k dn;
  s_queue : queue s = id_of <$> seq pos (length (c_states (columns s)) - pos);
  s_labels : (λ e, (from e, label e)) <$> found_edges s = labels (columns s) k dn;
  s_exhausted : termination s = ReachableStateSpaceExhausted;
}.

Definition stopped (config : ExplorerConfig) (s : Search St Act) : Prop :=
  sound config s ∧ termination s = StateLimitReached ∧ ∃ limit, state_limit config = Some limit ∧ (limit ≤ Z.of_nat (length (c_states (columns s))))%Z.

(** There are more states than identifiers. *)
Definition too_many : Prop := ∃ l, NoDup l ∧ Forall reached l ∧ (2 ^ 32 < Z.of_nat (length l))%Z.

Lemma labels_snoc c k dn a : labels c k (dn ++ [a]) = labels c k dn ++ [(id_of k, a)].
Proof using Type. unfold labels. by rewrite fmap_app, app_assoc. Qed.

Lemma labels_extend c k dn x d p : k ≤ length (c_states c) → labels (extend c x d p) k dn = labels c k dn.
Proof using Type. intros Hk. unfold labels. cbn [extend c_states]. by rewrite take_app_le. Qed.

Lemma labels_next c k s : c_states c !! k = Some s → labels c (S k) [] = labels c k (acts_of s).
Proof using Type.
  intros Hs. unfold labels. rewrite (take_S_r _ _ _ Hs), imap_app, join_app, app_nil_r. cbn [imap mjoin list_join]. rewrite app_nil_r, length_take_le, Nat.add_0_r; [done|].
  apply lookup_lt_Some in Hs. lia.
Qed.

Lemma edge_ok_extend c x d p e : edge_ok c e → edge_ok (extend c x d p) e.
Proof using Type. intros (Hf & Ht & s & s' & H1 & H2 & H3 & H4). split; [done|]. split; [done|]. exists s, s'. cbn. split_and!; [by apply lookup_app_l_Some|done..|by apply lookup_app_l_Some]. Qed.

Lemma reached_step s a s' : reached s → offered s a → step s a = Ok s' → reached s'.
Proof using Type. intros [n Hn] Ho Hs. exists (S n). by eapply path_step. Qed.

Lemma too_many_states c k s a x : table c → c_states c !! k = Some s → offered s a → step s a = Ok x → x ∉ c_states c →
  (Z.of_nat (length (c_states c)) = 2 ^ 32)%Z → too_many.
Proof using Type.
  intros Ht Hk Ho Hst Hx Hn. exists (c_states c ++ [x]). split; [|split].
  - apply NoDup_app. split; [apply Ht|]. split; [|apply NoDup_singleton]. by intros y Hy ->%list_elem_of_singleton.
  - apply Forall_app. split; [apply Forall_forall; intros y Hy; by apply (table_reached c)|]. apply Forall_singleton.
    apply (reached_step s a); [|done..]. apply (table_reached c); [done|]. by apply list_elem_of_lookup_2 in Hk.
  - rewrite length_app. cbn [length]. lia.
Qed.

Lemma last_depth c k dk : table c → c_depths c !! k = Some dk → (dk ≤ default 0 (last (c_depths c)))%Z.
Proof using Type.
  intros Hc Hk. pose proof (lookup_lt_Some _ _ _ Hk). rewrite last_lookup. destruct (c_depths c !! pred (length (c_depths c))) as [d|] eqn:Hd; cbn.
  - by apply (t_sorted _ Hc k (pred (length (c_depths c)))); [lia|..].
  - apply lookup_ge_None in Hd. lia.
Qed.

(** ** The initial states *)

Definition roots (l : list St) : Columns St Act :=
  {| c_states := l; c_depths := replicate (length l) 0%Z; c_predecessors := replicate (length l) None;
     c_canonical := reverse (imap (λ i s, (s, id_of i)) l) |}.

Lemma extend_roots l x : extend (roots l) x 0 None = roots (l ++ [x]).
Proof using Type.
  unfold extend, roots. cbn [c_states c_depths c_predecessors c_canonical]. rewrite length_app, imap_app. cbn [imap length].
  rewrite reverse_snoc, !replicate_add, Nat.add_0_r. done.
Qed.

Lemma insert_initial_Ok l : ∀ l0, (Z.of_nat (length (l0 ++ l)) ≤ 2 ^ 32)%Z →
  insert_initial (Rej := Rej) l (roots l0) (id_of <$> seq 0 (length l0)) = Ok (roots (l0 ++ l), id_of <$> seq 0 (length (l0 ++ l))).
Proof using Type.
  induction l as [|x l IH]; intros l0 Hl; cbn [insert_initial]; [by rewrite app_nil_r|]. rewrite length_app in Hl. cbn [length] in Hl.
  rewrite insert_state_Ok by (cbn; lia). cbn [c_states roots]. destruct (Z.eqb_spec (Z.of_nat (length l0)) (2 ^ 32)); [lia|]. cbn [mbind outcome_bind].
  change (extend {| c_states := l0; c_depths := _; c_predecessors := _; c_canonical := _ |} x 0 None) with (extend (roots l0) x 0 None).
  rewrite extend_roots. replace ((id_of <$> seq 0 (length l0)) ++ [id_of (length l0)]) with (id_of <$> seq 0 (length (l0 ++ [x]))).
  - rewrite IH by (rewrite <-app_assoc, length_app; cbn [app length]; lia). by rewrite <-app_assoc.
  - rewrite length_app, Nat.add_1_r, seq_S, fmap_app. done.
Qed.

Lemma lookup_replicate_0 {A} (x y : A) n i : replicate n x !! i = Some y → y = x.
Proof using Type. by intros [-> _]%lookup_replicate_1. Qed.

Lemma roots_table : NoDup inits → (Z.of_nat (length inits) ≤ 2 ^ 32)%Z → table (roots inits).
Proof using Type.
  intros Hnd Hn. split; cbn [roots c_states c_depths c_predecessors c_canonical]; [done|done|by rewrite length_replicate|by rewrite length_replicate|done| | | |].
  - exists []. by rewrite app_nil_r.
  - intros i Hi. by rewrite !lookup_replicate_2.
  - intros i s Hi Hs%lookup_lt_Some. lia.
  - intros i j di dj _ Hi%lookup_replicate_0 Hj%lookup_replicate_0. lia.
Qed.

Definition start_of : Search St Act :=
  {| columns := roots inits; queue := id_of <$> seq 0 (length inits); found_edges := []; duplicate_state_hits := 0; maximum_depth := 0;
     termination := ReachableStateSpaceExhausted |}.

Lemma start_progress : NoDup inits → (Z.of_nat (length inits) ≤ 2 ^ 32)%Z → progress (roots inits) 0 [].
Proof using Type.
  intros Hnd Hn. split; [by apply roots_table|lia| |lia|by intros a ?%elem_of_nil].
  intros dk j dj Hk%lookup_replicate_0 Hj%lookup_replicate_0. lia.
Qed.

Lemma start_searching config : NoDup inits → (Z.of_nat (length inits) ≤ 2 ^ 32)%Z → searching config start_of 0 [] 0.
Proof using Type.
  intros Hnd Hn. split; cbn [start_of columns queue found_edges duplicate_state_hits maximum_depth termination roots c_states];
    [split; cbn [columns queue found_edges duplicate_state_hits maximum_depth termination roots c_states c_depths]|by apply start_progress|by rewrite Nat.sub_0_r|done|done].
  - by apply roots_table.
  - constructor.
  - cbn. lia.
  - rewrite last_lookup. destruct (_ !! _) as [d|] eqn:Hd; [|done]. by apply lookup_replicate_0 in Hd as ->.
  - cbn [start_of columns roots c_states]. unfold bound. destruct (state_limit config); lia.
Qed.

(** ** The result *)

(** The complete graph: the states that are reached, at their distances, and their edges in order. *)
Record complete (s : Search St Act) : Prop := {
  cm_states x : x ∈ c_states (columns s) ↔ reached x;
  cm_depths i x d : c_states (columns s) !! i = Some x → c_depths (columns s) !! i = Some d → path (Z.to_nat d) x ∧ ∀ n, path n x → (d ≤ Z.of_nat n)%Z;
  cm_edges : (λ e, (from e, label e)) <$> found_edges s = labels (columns s) (length (c_states (columns s))) [];
}.

Lemma near_all c n s : progress c (length (c_states c)) [] → path n s → ∃ i d, c_states c !! i = Some s ∧ c_depths c !! i = Some d ∧ (d ≤ Z.of_nat n)%Z.
Proof using Type.
  intros [Ht Hk Hf He Hp] Hpath. induction Hpath as [s Hs|n s a s' Hpath IH Ho Hst].
  - destruct (t_inits _ Ht) as [rest Hr]. apply list_elem_of_lookup in Hs as [i Hi]. exists i, 0%Z. pose proof (lookup_lt_Some _ _ _ Hi).
    split; [rewrite Hr; by apply lookup_app_l_Some|]. split; [by apply (t_roots _ Ht)|lia].
  - destruct IH as (i & d & Hi & Hdi & Hle). pose proof (lookup_lt_Some _ _ _ Hi) as Hlt.
    destruct (He i s a Hlt Hi Ho s s' Hi Hst) as (j & Hj & Hle'). destruct (table_depth c j s' Ht Hj) as (dj & Hdj & _).
    exists j, dj. split; [done|]. split; [done|]. specialize (Hle' d dj Hdi Hdj). lia.
Qed.

Lemma table_unique c i j s : table c → c_states c !! i = Some s → c_states c !! j = Some s → i = j.
Proof using Type. intros Hc. apply NoDup_lookup, Hc. Qed.

Lemma searching_complete config s : searching config s (length (c_states (columns s))) [] (length (c_states (columns s))) → complete s.
Proof using Type.
  intros [Hsd Hp Hq Hlab _]. pose proof (s_table _ _ Hsd) as Ht. split; [| |done].
  - intros x. split; [by apply table_reached|]. intros [n Hn]. destruct (near_all _ n x Hp Hn) as (i & _ & Hi & _). by apply list_elem_of_lookup_2 in Hi.
  - intros i x d Hi Hd. split; [by apply (table_path (columns s) i)|]. intros n Hn. destruct (near_all _ n x Hp Hn) as (j & dj & Hj & Hdj & Hle).
    assert (i = j) as -> by by apply (table_unique (columns s) i j x). by assert (dj = d) as -> by congruence.
Qed.

(** ** The loop *)

Section Total.
Hypothesis two_inits : 2 ≤ length inits.
(** In a state that is reached every action that is listed has a successor. *)
Hypothesis total : ∀ s, reached s → ∃ l, acts s = Ok l ∧ ∀ a, a ∈ l → ∃ s', step s a = Ok s'.

Lemma depth_step c k s dk : table c → c_states c !! k = Some s → c_depths c !! k = Some dk → u_add (E := CheckError St Act Rej) 32 dk 1 = Ok (dk + 1)%Z.
Proof using two_inits.
  intros Hc Hs Hd. pose proof (table_depth_small c k s dk two_inits Hc Hs Hd). destruct (table_depth c k s Hc Hs) as (d & Hd' & Hnn). assert (d = dk) as -> by congruence.
  pose proof (lookup_lt_Some _ _ _ Hs). pose proof (t_small _ Hc). unfold u_add, checked, in_widthb.
  by replace ((0 <=? dk + 1) && (dk + 1 <? 2 ^ 32))%Z with true by lia.
Qed.

Definition expanded (config : ExplorerConfig) (k : nat) (sp : St) (l : list Act) (r : outcome (CheckError St Act Rej) (Search St Act * bool)) : Prop :=
  match r with
  | Ok (s, false) => searching config s k l (S k) ∧ c_states (columns s) !! k = Some sp
  | Ok (s, true) => stopped config s
  | Err e => e = StateIdOverflow ∧ too_many
  | Panic => False
  end.

Lemma explore_actions_spec config k sp : ∀ actions dn s, searching config s k dn (S k) → c_states (columns s) !! k = Some sp → acts sp = Ok (dn ++ actions) →
  (∀ a, a ∈ actions → ∃ x, step sp a = Ok x) → expanded config k sp (dn ++ actions) (explore_actions step config (id_of k) sp actions s).
Proof using two_inits.
  induction actions as [|a actions IH]; intros dn s Hs Hk Hl Hst; [by rewrite app_nil_r|]. cbn [explore_actions].
  destruct (Hst a ltac:(left)) as [x Hx]. rewrite Hx. cbn [map_err mbind outcome_bind].
  assert (offered sp a) as Ho by (exists (dn ++ a :: actions); split; [done|]; rewrite elem_of_app; right; left).
  pose proof Hs as [[Ht He Hc Hdeep Hb] Hp Hq Hlab Hex]. pose proof (lookup_lt_Some _ _ _ Hk) as Hlt. pose proof (find_state_spec (columns s) x Ht) as Hf.
  replace (dn ++ a :: actions) with ((dn ++ [a]) ++ actions) in * by (by rewrite <-app_assoc).
  destruct (find_state (columns s) x) as [id|].
  - destruct Hf as (i & -> & Hi). apply IH; [|done|done|intros a' Ha'; apply Hst; by right].
    split; cbn [columns queue found_edges duplicate_state_hits maximum_depth termination]; [split; cbn; [done| |rewrite length_app; cbn [length]; lia|done|done]| |done| |done].
    + apply Forall_app. split; [done|]. apply Forall_singleton. unfold edge_ok. cbn. rewrite !index_id_of. split; [done|]. split; [done|]. by exists sp, x.
    + apply (progress_found _ k dn sp a x); [done..|]. by apply list_elem_of_lookup_2 in Hi.
    + rewrite fmap_app, Hlab, labels_snoc. done.
  - unfold limit_reached. assert (∃ b, match state_limit config with Some limit => (limit <=? Z.of_nat (length (c_states (columns s))))%Z | None => false end = b ∧
      (b = true → ∃ limit, state_limit config = Some limit ∧ (limit ≤ Z.of_nat (length (c_states (columns s))))%Z) ∧
      (b = false → (Z.of_nat (length (c_states (columns s))) < bound config ∨ Z.of_nat (length (c_states (columns s))) = 2 ^ 32)%Z)) as (b & -> & Hbt & Hbf).
    { unfold bound. destruct (state_limit config) as [limit|]; (eexists; split; [done|]).
      - split; [intros; exists limit; split; [done|lia]|intros; left; lia].
      - split; [done|]. intros _. pose proof (t_small _ Ht). lia. }
    destruct b; [split; [done|split; [done|by apply Hbt]]|].
    destruct (table_depth _ k sp Ht Hk) as (dk & Hdk & Hnn). rewrite index_id_of, Hdk. cbn [expect mbind outcome_bind]. rewrite (depth_step _ k sp dk Ht Hk Hdk). cbn [mbind outcome_bind].
    rewrite insert_state_Ok by apply Ht. destruct (Z.eqb_spec (Z.of_nat (length (c_states (columns s)))) (2 ^ 32)) as [Heq|Hne]; cbn [mbind outcome_bind].
    + split; [done|]. apply (too_many_states (columns s) k sp a x); done.
    + assert (Z.of_nat (length (c_states (columns s))) < 2 ^ 32)%Z as Hsmall by (pose proof (t_small _ Ht); lia).
      specialize (Hbf eq_refl). pose proof (progress_insert _ k dn sp a x dk Hp Hk Ho Hx Hf Hsmall Hdk) as Hp'.
      set (c' := extend (columns s) x (dk + 1) (Some (mkPredecessor (id_of k) a))) in *.
      apply IH; cbn [columns queue found_edges duplicate_state_hits maximum_depth termination]; [|unfold c'; cbn [extend c_states]; by apply lookup_app_l_Some|done|intros a' Ha'; apply Hst; by right].
      split; cbn [columns queue found_edges duplicate_state_hits maximum_depth termination]; [split; cbn [columns queue found_edges duplicate_state_hits maximum_depth termination]| | | |].
      * apply Hp'.
      * apply Forall_app. split; [apply (Forall_impl _ _ _ He); intros e; apply edge_ok_extend|]. apply Forall_singleton. unfold edge_ok. cbn [from label to].
        rewrite !index_id_of. unfold c'. cbn [extend c_states]. split; [done|]. split; [done|]. exists sp, x. split; [by apply lookup_app_l_Some|]. split; [done|]. split; [done|]. apply lookup_snoc. by right.
      * unfold c'. cbn [extend c_states]. rewrite !length_app. cbn [length]. lia.
      * unfold c'. cbn [extend c_depths]. rewrite last_snoc. cbn [default]. rewrite Hdeep. pose proof (p_frontier _ _ _ Hp dk) as Hfr.
        rewrite last_lookup. destruct (c_depths (columns s) !! pred (length (c_depths (columns s)))) as [d|] eqn:Hlast; cbn; [specialize (Hfr _ d Hdk Hlast); lia|lia].
      * unfold c'. cbn [extend c_states]. rewrite length_app. cbn [length]. lia.
      * exact Hp'.
      * rewrite Hq. unfold c'. cbn [extend c_states]. rewrite length_app. cbn [length].
        replace (length (c_states (columns s)) + 1 - S k) with (S (length (c_states (columns s)) - S k)) by lia. rewrite seq_S, fmap_app. cbn.
        f_equal. do 2 f_equal. lia.
      * rewrite fmap_app, Hlab, labels_snoc. unfold c'. rewrite labels_extend by lia. done.
      * done.
Qed.

Definition searched (config : ExplorerConfig) (r : outcome (CheckError St Act Rej) (Search St Act)) : Prop :=
  match r with
  | Ok s => searching config s (length (c_states (columns s))) [] (length (c_states (columns s))) ∨ stopped config s
  | Err e => e = StateIdOverflow ∧ too_many
  | Panic => False
  end.

Lemma bfs_spec config : ∀ fuel k s, searching config s k [] k → (bound config - Z.of_nat k < Z.of_nat fuel)%Z →
  ∃ r, bfs acts step fuel config s = Some r ∧ searched config r.
Proof using two_inits total.
  induction fuel as [|fuel IH]; intros k s Hs Hfuel.
  { pose proof (s_bound _ _ (s_sound _ _ _ _ _ Hs)). pose proof (p_index _ _ _ (s_progress _ _ _ _ _ Hs)). lia. }
  cbn [bfs]. pose proof Hs as [Hsd Hp Hq Hlab Hex]. pose proof (s_table _ _ Hsd) as Ht. rewrite Hq.
  destruct (length (c_states (columns s)) - k) as [|m] eqn:Hm; cbn [seq fmap list_fmap].
  { eexists. split; [done|]. left. replace (length (c_states (columns s))) with k; [done|]. pose proof (p_index _ _ _ Hp). lia. }
  destruct (lookup_lt_is_Some_2 (c_states (columns s)) k ltac:(lia)) as [sp Hk]. rewrite index_id_of, Hk. cbn [expect mbind outcome_bind].
  destruct (total sp) as (l & Hl & Hst); [apply (table_reached (columns s)); [done|by apply list_elem_of_lookup_2 in Hk]|]. rewrite Hl. cbn [mbind outcome_bind].
  match goal with |- context [explore_actions step config (id_of k) sp l ?s1] => set (s' := s1) end.
  assert (searching config s' k [] (S k)) as Hs'.
  { split; cbn [s' columns queue found_edges termination]; [|done| |done|done].
    - destruct Hsd as [H1 H2 H3 H4 H5]. by split.
    - replace (length (c_states (columns s)) - S k) with m by lia. done. }
  pose proof (explore_actions_spec config k sp l [] s' Hs' Hk Hl Hst) as Hx. unfold expanded in Hx. cbn [app] in Hx.
  destruct (explore_actions _ _ _ _ _ _) as [[s2 []]|e|]; [|  |by eexists|done].
  - eexists. split; [done|]. by right.
  - destruct Hx as [[H1 H2 H3 H4 H5] Hk2]. apply (IH (S k)); [|lia].
    split; [done|by apply (progress_next _ k l sp l)|done| |done]. rewrite H4, (labels_next _ k sp Hk2). unfold acts_of. by rewrite Hl.
Qed.

(** The search answers with enough fuel.  Unless there are too many states to number, it finds the complete graph, or a part of
    it when it stops at its limit. *)
Lemma search_exact config fuel : NoDup inits → (Z.of_nat (length inits) ≤ 2 ^ 32)%Z → (bound config < Z.of_nat fuel)%Z →
  ∃ r, search_from acts step inits fuel config = Some r ∧
    match r with
    | Ok (s, ids) => ids = id_of <$> seq 0 (length inits) ∧ sound config s ∧
        match termination s with
        | ReachableStateSpaceExhausted => complete s
        | StateLimitReached => ∃ limit, state_limit config = Some limit ∧ (limit ≤ Z.of_nat (length (c_states (columns s))))%Z
        end
    | Err e => e = StateIdOverflow ∧ too_many
    | Panic => False
    end.
Proof using two_inits total.
  intros Hnd Hn Hfuel. unfold search_from. change (no_states (St := St) (Act := Act)) with (roots []). change (@nil StateId) with (id_of <$> seq 0 (length (@nil St))).
  rewrite insert_initial_Ok by done. cbn [app]. change (mkSearch _ _ _ _ _ _) with start_of.
  destruct (bfs_spec config fuel 0 start_of) as (r & -> & Hr); [by apply start_searching|lia|]. eexists. split; [done|]. destruct r as [s|e|]; cbn [mbind outcome_bind]; [|done|done].
  split; [done|]. destruct Hr as [Hs|(Hsd & Htm & Hl)].
  - split; [apply Hs|]. rewrite (s_exhausted _ _ _ _ _ Hs). by apply (searching_complete config).
  - split; [done|]. by rewrite Htm.
Qed.
(** ** Search for a violation *)

Section Violation.
Variable invariant : St → bool.

Record seeking (c : Columns St Act) (q : list StateId) (k : nat) (dn : list Act) (pos : nat) : Prop := {
  k_progress : progress c k dn;
  k_queue : q = id_of <$> seq pos (length (c_states c) - pos);
  k_fine x : x ∈ c_states c → invariant x = true;
}.

(** A shortest violation *)
Definition violated (ce : Counterexample St Act) : Prop :=
  ∃ x d, invariant x = false ∧ trace_to x d ce ∧ ∀ n y, path n y → invariant y = false → (d ≤ Z.of_nat n)%Z.

Definition sought (k : nat) (sp : St) (l : list Act) (r : outcome (CheckError St Act Rej) (option (Counterexample St Act) + Columns St Act * list StateId)) : Prop :=
  match r with
  | Ok (inl (Some ce)) => violated ce
  | Ok (inl None) => False
  | Ok (inr (c, q)) => seeking c q k l (S k) ∧ c_states c !! k = Some sp
  | Err e => e = StateIdOverflow ∧ too_many
  | Panic => False
  end.

Lemma seek_actions_spec k sp : ∀ actions dn c q, seeking c q k dn (S k) → c_states c !! k = Some sp → acts sp = Ok (dn ++ actions) →
  (∀ a, a ∈ actions → ∃ x, step sp a = Ok x) → sought k sp (dn ++ actions) (seek_actions step invariant (id_of k) sp actions c q).
Proof using two_inits.
  induction actions as [|a actions IH]; intros dn c q Hs Hk Hl Hst; [by rewrite app_nil_r|]. cbn [seek_actions].
  destruct (Hst a ltac:(left)) as [x Hx]. rewrite Hx. cbn [map_err mbind outcome_bind].
  assert (offered sp a) as Ho by (exists (dn ++ a :: actions); split; [done|]; rewrite elem_of_app; right; left).
  pose proof Hs as [Hp Hq Hfine]. pose proof (p_table _ _ _ Hp) as Ht. pose proof (lookup_lt_Some _ _ _ Hk) as Hlt. pose proof (find_state_spec c x Ht) as Hf.
  replace (dn ++ a :: actions) with ((dn ++ [a]) ++ actions) in * by (by rewrite <-app_assoc).
  destruct (find_state c x) as [id|].
  { destruct Hf as (i & -> & Hi). apply IH; [|done|done|intros a' Ha'; apply Hst; by right]. split; [|done|done].
    apply (progress_found _ k dn sp a x); [done..|]. by apply list_elem_of_lookup_2 in Hi. }
  destruct (table_depth _ k sp Ht Hk) as (dk & Hdk & Hnn). rewrite index_id_of, Hdk. cbn [expect mbind outcome_bind]. rewrite (depth_step _ k sp dk Ht Hk Hdk). cbn [mbind outcome_bind].
  rewrite insert_state_Ok by apply Ht. destruct (Z.eqb_spec (Z.of_nat (length (c_states c))) (2 ^ 32)) as [Heq|Hne]; cbn [mbind outcome_bind].
  { split; [done|]. apply (too_many_states c k sp a x); done. }
  assert (Z.of_nat (length (c_states c)) < 2 ^ 32)%Z as Hsmall by (pose proof (t_small _ Ht); lia).
  pose proof (progress_insert _ k dn sp a x dk Hp Hk Ho Hx Hf Hsmall Hdk) as Hp'.
  assert (c_states (extend c x (dk + 1) (Some (mkPredecessor (id_of k) a))) !! length (c_states c) = Some x) as Hnew.
  { cbn [extend c_states]. apply lookup_snoc. by right. }
  assert (c_depths (extend c x (dk + 1) (Some (mkPredecessor (id_of k) a))) !! length (c_states c) = Some (dk + 1)%Z) as Hnewd.
  { cbn [extend c_depths]. rewrite <-(t_depths _ Ht). apply lookup_snoc. by right. }
  destruct (invariant x) eqn:Hinv; cbn [negb].
  - set (c' := extend c x (dk + 1) (Some (mkPredecessor (id_of k) a))) in *. apply IH; [|unfold c'; cbn [extend c_states]; by apply lookup_app_l_Some|done|intros a' Ha'; apply Hst; by right].
    split; [exact Hp'| |].
    + rewrite Hq. unfold c'. cbn [extend c_states]. rewrite length_app. cbn [length].
      replace (length (c_states c) + 1 - S k) with (S (length (c_states c) - S k)) by lia. rewrite seq_S, fmap_app. cbn. f_equal. do 2 f_equal. lia.
    + unfold c'. cbn [extend c_states]. intros y [Hy| ->%list_elem_of_singleton]%elem_of_app; [by apply Hfine|done].
  - unfold report. set (c' := extend c x (dk + 1) (Some (mkPredecessor (id_of k) a))) in *.
    destruct (trace_spec c' _ x (dk + 1)%Z (p_table _ _ _ Hp') Hnew Hnewd) as (ce & Hce & _ & Htr).
    rewrite Hce. cbn [mbind outcome_bind sought]. exists x, (dk + 1)%Z. split; [done|]. split; [done|]. intros n y Hn Hy.
    destruct (decide (dk + 1 ≤ Z.of_nat n)%Z) as [|Hlow]; [done|]. destruct (progress_near c k dn dk Hp Hdk n y Hn ltac:(lia)) as (i & _ & Hi & _).
    apply list_elem_of_lookup_2 in Hi. by rewrite (Hfine y Hi) in Hy.
Qed.

Definition found (r : outcome (CheckError St Act Rej) (option (Counterexample St Act))) : Prop :=
  match r with
  | Ok (Some ce) => violated ce
  | Ok None => ∀ x, reached x → invariant x = true
  | Err e => e = StateIdOverflow ∧ too_many
  | Panic => False
  end.

Lemma seek_spec : ∀ fuel k c q, seeking c q k [] k → (2 ^ 32 - Z.of_nat k < Z.of_nat fuel)%Z → ∃ r, seek acts step invariant fuel c q = Some r ∧ found r.
Proof using two_inits total.
  induction fuel as [|fuel IH]; intros k c q [Hp Hq Hfine] Hfuel; pose proof (p_table _ _ _ Hp) as Ht.
  { pose proof (t_small _ Ht). pose proof (p_index _ _ _ Hp). lia. }
  cbn [seek]. rewrite Hq. destruct (length (c_states c) - k) as [|m] eqn:Hm; cbn [seq fmap list_fmap].
  { eexists. split; [done|]. cbn [found]. intros x [n Hn]. assert (k = length (c_states c)) as -> by (pose proof (p_index _ _ _ Hp); lia).
    destruct (near_all c n x Hp Hn) as (i & _ & Hi & _). apply Hfine. by apply list_elem_of_lookup_2 in Hi. }
  destruct (lookup_lt_is_Some_2 (c_states c) k ltac:(lia)) as [sp Hk]. rewrite index_id_of, Hk. cbn [expect mbind outcome_bind].
  destruct (total sp) as (l & Hl & Hst); [apply (table_reached c); [done|by apply list_elem_of_lookup_2 in Hk]|]. rewrite Hl. cbn [mbind outcome_bind].
  assert (seeking c (id_of <$> seq (S k) m) k [] (S k)) as Hs' by (split; [done|replace (length (c_states c) - S k) with m by lia; done|done]).
  pose proof (seek_actions_spec k sp l [] c _ Hs' Hk Hl Hst) as Hx. unfold sought in Hx. cbn [app] in Hx.
  destruct (seek_actions _ _ _ _ _ _ _) as [[[ce|]|[c' q']]|e|]; [by eexists|done| |by eexists|done].
  destruct Hx as [[H1 H2 H3] Hk2]. apply (IH (S k)); [|lia]. split; [by apply (progress_next _ k l sp l)|done|done].
Qed.

Lemma root_trace (l : list St) (x : St) : reconstruct_counterexample (Rej := Rej) (Act := Act) (id_of (length l)) (l ++ [x]) (replicate (length (l ++ [x])) 0%Z) (replicate (length (l ++ [x])) None)
  = Ok (Some {| target := id_of (length l); depth := 0; ce_states := [x]; ce_actions := [] |}).
Proof using two_inits.
  unfold reconstruct_counterexample. rewrite index_id_of, lookup_app_r, Nat.sub_diag by lia. cbn [lookup list_lookup trace_back].
  rewrite index_id_of, !lookup_replicate_2 by (rewrite length_app; cbn; lia). done.
Qed.

Lemma seek_initial_spec l : ∀ l0, (Z.of_nat (length (l0 ++ l)) ≤ 2 ^ 32)%Z → (∀ x, x ∈ l0 → invariant x = true) → (∀ x, x ∈ l → x ∈ inits) →
  match seek_initial (Rej := Rej) invariant l (roots l0) (id_of <$> seq 0 (length l0)) with
  | Ok (inl (Some ce)) => violated ce
  | Ok (inr (c, q)) => c = roots (l0 ++ l) ∧ q = id_of <$> seq 0 (length (l0 ++ l)) ∧ ∀ x, x ∈ l0 ++ l → invariant x = true
  | _ => False
  end.
Proof using two_inits.
  induction l as [|x l IH]; intros l0 Hl Hfine Hin; cbn [seek_initial]; [by rewrite app_nil_r|]. rewrite length_app in Hl. cbn [length] in Hl.
  rewrite insert_state_Ok by (cbn; lia). cbn [c_states roots]. destruct (Z.eqb_spec (Z.of_nat (length l0)) (2 ^ 32)); [lia|]. cbn [mbind outcome_bind].
  change (extend {| c_states := l0; c_depths := _; c_predecessors := _; c_canonical := _ |} x 0 None) with (extend (roots l0) x 0 None). rewrite extend_roots.
  destruct (invariant x) eqn:Hinv; cbn [negb].
  - replace ((id_of <$> seq 0 (length l0)) ++ [id_of (length l0)]) with (id_of <$> seq 0 (length (l0 ++ [x]))) by (rewrite length_app, Nat.add_1_r, seq_S, fmap_app; done).
    replace (l0 ++ x :: l) with ((l0 ++ [x]) ++ l) by by rewrite <-app_assoc. apply IH.
    + rewrite <-app_assoc, length_app. cbn [app length]. lia.
    + intros y [Hy| ->%list_elem_of_singleton]%elem_of_app; [by apply Hfine|done].
    + intros y Hy. apply Hin. by right.
  - unfold report. cbn [roots c_states c_depths c_predecessors]. rewrite root_trace. cbn [mbind outcome_bind]. exists x, 0%Z. split; [done|].
    split; [|intros; lia]. exists x, []. cbn. split_and!; try done. apply Hin. left.
Qed.

Lemma violation_exact fuel : NoDup inits → (Z.of_nat (length inits) ≤ 2 ^ 32)%Z → (2 ^ 32 < Z.of_nat fuel)%Z →
  ∃ r, counterexample_from acts step invariant inits fuel = Some r ∧ found r.
Proof using two_inits total.
  intros Hnd Hn Hfuel. unfold counterexample_from. change (no_states (St := St) (Act := Act)) with (roots []). change (@nil StateId) with (id_of <$> seq 0 (length (@nil St))).
  pose proof (seek_initial_spec inits [] Hn ltac:(by intros x ?%elem_of_nil) ltac:(done)) as Hi. cbn [app] in Hi.
  destruct (seek_initial _ _ _ _) as [[[ce|]|[c q]]|e|]; [by eexists|done| |done..]. destruct Hi as (-> & -> & Hfine).
  apply (seek_spec fuel 0); [|lia]. split; [by apply start_progress|cbn [roots c_states]; by rewrite Nat.sub_0_r|done].
Qed.
End Violation.
End Total.
End Systems.

(** ** Fuel *)

Section Fuel.
Context {St Act Rej : Type} `{EqDecision St}.
Variable acts : St → outcome (CheckError St Act Rej) (list Act).
Variable step : St → Act → outcome Rej St.

Lemma bfs_more config fuel fuel' s r : bfs acts step fuel config s = Some r → fuel ≤ fuel' → bfs acts step fuel' config s = Some r.
Proof using Type.
  revert fuel' s. induction fuel as [|fuel IH]; intros [|fuel'] s; cbn [bfs]; [done..|lia|]. intros Hr Hle. destruct (queue s) as [|source rest]; [done|].
  destruct (state ← expect _; _) as [[s' []]|e|]; [done| |done..]. apply IH; [done|lia].
Qed.

Lemma search_more config inits fuel fuel' r : search_from acts step inits fuel config = Some r → fuel ≤ fuel' → search_from acts step inits fuel' config = Some r.
Proof using Type.
  unfold search_from. destruct (insert_initial _ _ _) as [[c ids]|e|]; [|done..]. intros (r' & Hr & ->)%fmap_Some Hle. by rewrite (bfs_more config fuel fuel' _ r' Hr Hle).
Qed.

Lemma seek_more invariant fuel fuel' c q r : seek acts step invariant fuel c q = Some r → fuel ≤ fuel' → seek acts step invariant fuel' c q = Some r.
Proof using Type.
  revert fuel' c q. induction fuel as [|fuel IH]; intros [|fuel'] c q; cbn [seek]; [done..|lia|]. intros Hr Hle. destruct q as [|source rest]; [done|].
  destruct (state ← expect _; _) as [[a|[c' q']]|e|]; [done| |done..]. apply IH; [done|lia].
Qed.

Lemma counterexample_more invariant inits fuel fuel' r :
  counterexample_from acts step invariant inits fuel = Some r → fuel ≤ fuel' → counterexample_from acts step invariant inits fuel' = Some r.
Proof using Type.
  unfold counterexample_from. destruct (seek_initial _ _ _ _) as [[a|[c q]]|e|]; [done| |done..]. apply seek_more.
Qed.
End Fuel.
