(* ===== verification/ExploreModel.v ===== *)
(** * Explicit-state exploration: the six-card model

    The strict model as the system that is explored: its paths are the games play
    reaches, every listed action is taken, and there are few enough games to number. *)

From Stdlib Require Import ZifyBool.
From stdpp Require Import base strings numbers option list.
From S2P Require Import Prelude Domain DomainLaws Formal ModelFinite ModelKernels ModelState ModelSemantics ModelDeals ModelInvariant ModelRules ModelProperty ModelTheorems Explore ExploreTheorems.

Local Open Scope Z_scope.

Section Model.
Context `{Formal.Weavy}.

Notation inits := (scope_initial_states Micro).

(** ** Actions and paths *)

Lemma listed_offers g l a : legal_actions g = Ok l →
  (a ∈ match l with
       | LegalChance actions => ActDeal <$> actions | LegalPlayer actions => ActPlayer <$> actions | LegalEnvironment => [ActSettle] | LegalFinished => [ActAbsorb]
       end) ↔ offers l a = true.
Proof using Type.
  intros _. destruct l as [deals|actions| |]; cbn [offers].
  - rewrite list_elem_of_fmap. destruct a; try (split; [by intros (? & ? & _)|done]). rewrite bool_decide_eq_true. split; [by intros (? & [= ->] & ?)|by eexists].
  - rewrite list_elem_of_fmap. destruct a; try (split; [by intros (? & ? & _)|done]). rewrite bool_decide_eq_true. split; [by intros (? & [= ->] & ?)|by eexists].
  - rewrite list_elem_of_singleton. by destruct a.
  - rewrite list_elem_of_singleton. by destruct a.
Qed.

(** The listed actions are those that are not refused, deals those the constructors make. *)
Lemma model_actions_Ok g : game_ok g → ∃ l, model_actions g = Ok l ∧ l ≠ [] ∧ ∀ a, a ∈ l ↔ action_ok a = true ∧ refusal g a = None.
Proof using Type.
  intros Hg. destruct (offered_exact g Hg) as (l & Hl & Hof). unfold model_actions. rewrite Hl. cbn [expect_ok mbind outcome_bind]. eexists. split; [done|].
  assert (∀ a, offers l a = true → action_ok a = true) as Hok.
  { intros a Ha. pose proof (legal_shape g l Hl) as Hsh. destruct g as [s|s|s|s|s], l as [deals|actions| |]; try done; try (by destruct a).
    destruct (all_for_exact (round (aw_ledger s))) as (deals' & Hd & _ & _ & Hmem). cbn [legal_actions] in Hl. rewrite Hd in Hl. injection Hl as <-.
    destruct a as [d| | |]; try done. cbn [offers] in Ha. apply bool_decide_eq_true in Ha. by apply Hmem. }
  assert (∀ a, (a ∈ match l with
       | LegalChance actions => ActDeal <$> actions | LegalPlayer actions => ActPlayer <$> actions | LegalEnvironment => [ActSettle] | LegalFinished => [ActAbsorb]
       end) ↔ action_ok a = true ∧ refusal g a = None) as Hin.
  { intros a. rewrite (listed_offers g l a Hl). split.
    - intros Ha. split; [by apply Hok|]. rewrite (Hof a (Hok a Ha)) in Ha. unfold accepted_by in Ha. by apply bool_decide_eq_true in Ha.
    - intros [Ha Hr]. rewrite (Hof a Ha). unfold accepted_by. by apply bool_decide_eq_true. }
  split; [|exact Hin]. intros Hnil. destruct (some_accepted g Hg) as (a & Ha & Hr). pose proof (proj2 (Hin a) (conj Ha Hr)) as Hx. rewrite Hnil in Hx. by apply elem_of_nil in Hx.
Qed.

Lemma model_step_Ok g a : game_ok g → action_ok a = true → refusal g a = None → ∃ g', model_step g a = Ok g' ∧ steps_to g g'.
Proof using Type.
  intros Hg Ha Hr. destruct (transition_accepted g a Hg Ha Hr) as (t & Ht & _ & _ & Hto). exists (next t). unfold model_step. by rewrite Ht.
Qed.

Lemma offered_accepted g a : game_ok g → offered model_actions g a ↔ action_ok a = true ∧ refusal g a = None.
Proof using Type.
  intros Hg. destruct (model_actions_Ok g Hg) as (l & Hl & _ & Hin). unfold offered. rewrite Hl, <-Hin. split; [by intros (? & [= <-] & ?)|by exists l].
Qed.

Lemma path_reachable n g : path model_actions model_step inits n g → reachable g.
Proof using Type.
  induction 1 as [g Hg|n g a g' _ IH Ho Hst].
  - apply elem_of_cons in Hg as [->|Hg]; [apply reach_new|]. apply list_elem_of_singleton in Hg as ->. apply reach_new.
  - apply (offered_accepted g a (reachable_ok g IH)) in Ho as [Ha _]. unfold model_step in Hst. destruct (transition g a) as [t| |] eqn:Ht; [|done..].
    injection Hst as <-. by apply (reach_step g a).
Qed.

Lemma reachable_reached g : reachable g → reached model_actions model_step inits g.
Proof using Type.
  induction 1 as [d|g a t Hg [n Hn] Ha Ht].
  - exists 0%nat. apply path_init. destruct d; [left|right; left].
  - exists (S n). pose proof (reachable_ok g Hg) as Hok. apply (path_step model_actions model_step inits n g a); [done| |unfold model_step; by rewrite Ht].
    apply offered_accepted; [done|]. split; [done|]. by destruct (transition_Ok g a t Hok Ha Ht).
Qed.

Lemma reached_reachable g : reached model_actions model_step inits g ↔ reachable g.
Proof using Type. split; [intros [n Hn]; by apply (path_reachable n)|apply reachable_reached]. Qed.

Lemma model_total g : reached model_actions model_step inits g → ∃ l, model_actions g = Ok l ∧ ∀ a, a ∈ l → ∃ g', model_step g a = Ok g'.
Proof using Type.
  intros Hg%reached_reachable%reachable_ok. destruct (model_actions_Ok g Hg) as (l & Hl & _ & Hin). exists l. split; [done|]. intros a [Ha Hr]%Hin.
  destruct (model_step_Ok g a Hg Ha Hr) as (g' & Hg' & _). by exists g'.
Qed.

Lemma inits_distinct : NoDup inits.
Proof using Type. apply (bool_decide_eq_true_1 (NoDup _)). by vm_compute. Qed.

(** ** Distances *)

(** A path is as long as the steps it has used, until the game is finished. *)
Lemma path_steps n g : path model_actions model_step inits n g → steps_left g = Z.max 0 (20 - Z.of_nat n).
Proof using Type.
  induction 1 as [g Hg|n g a g' Hp IH Ho Hst].
  - apply elem_of_cons in Hg as [->|Hg]; [done|]. by apply list_elem_of_singleton in Hg as ->.
  - pose proof (reachable_ok g (path_reachable n g Hp)) as Hg. apply (offered_accepted g a Hg) in Ho as [Ha Hr].
    destruct (model_step_Ok g a Hg Ha Hr) as (g2 & Hst2 & Hok & Hto). assert (g2 = g') as -> by congruence. pose proof (steps_left_nonneg g' Hok) as [Hnn _].
    destruct g; try lia. rewrite Hto. cbn [steps_left] in *. lia.
Qed.

(** ** Few enough games

    Every game play reaches is within a round's distance of a state that awaits a deal
    with possible scores, or is finished with possible scores. *)

Definition possible_ledgers (r : RoundId) : list Ledger :=
  d ← Player_ALL; a ← seqZ 0 (score_bound r + 1); b ← seqZ 0 (score_bound r + 1); p ← seqZ 0 (2 * round_code r + 1);
  [{| dealer := d; round := r; scores := (ScoreOf a, ScoreOf b); pot := PotOf p |}].

Definition possible_ends : list Game :=
  a ← seqZ 0 65; b ← seqZ 0 65; p ← seqZ 0 7;
  [GFinished {| fi_scores := (ScoreOf a, ScoreOf b); fi_pot := PotOf p; fi_winners := (b <=? a, a <=? b) |}].

Definition successors (g : Game) : list Game :=
  match model_actions g with Ok l => omap (λ a, match model_step g a with Ok g' => Some g' | _ => None end) l | _ => [] end.

Fixpoint level (r : RoundId) (k : nat) : list Game :=
  match k with
  | O => (λ l, GAwaitingDeal {| aw_ledger := l |}) <$> possible_ledgers r
  | S k => g ← level r k; successors g
  end.

(** The transitions of a round before its settlement *)
Definition round_length (r : RoundId) : nat := Z.to_nat (3 + 2 * hand_size r).

Definition possible : list Game := possible_ends ++ (r ← RoundId_ALL; k ← seq 0 (S (round_length r)); level r k).

Definition within (r : RoundId) (k : nat) (g : Game) : Prop :=
  game_ok g ∧ round_of g = Some r ∧ steps_left g = after_round r + 4 + 2 * hand_size r - Z.of_nat k.

Lemma bind_length {A B} (f : A → list B) (b : A → Z) (l : list A) : (∀ x, x ∈ l → Z.of_nat (length (f x)) ≤ b x) →
  Z.of_nat (length (l ≫= f)) ≤ foldr (λ x n, b x + n) 0 l.
Proof using Type.
  intros Hf. induction l as [|x l IH]; [done|]. change ((x :: l) ≫= f) with (f x ++ (l ≫= f)). rewrite length_app. cbn [foldr].
  pose proof (Hf x ltac:(left)). specialize (IH ltac:(intros y Hy; apply Hf; by right)). lia.
Qed.

Lemma elem_of_successors g g' : g' ∈ successors g ↔ ∃ a, offered model_actions g a ∧ model_step g a = Ok g'.
Proof using Type.
  unfold successors, offered. destruct (model_actions g) as [l| |].
  - rewrite list_elem_of_omap. split.
    + intros (a & Ha & Hs). exists a. split; [by exists l|]. destruct (model_step g a); congruence.
    + intros (a & (l' & [= <-] & Ha) & Hs). exists a. by rewrite Hs.
  - split; [by intros ?%elem_of_nil|by intros (? & (? & ? & _) & _)].
  - split; [by intros ?%elem_of_nil|by intros (? & (? & ? & _) & _)].
Qed.

Lemma elem_of_ledgers l : ledger_ok l → l ∈ possible_ledgers (round l).
Proof using Type.
  intros [Hs Hp]. destruct l as [d r [[a] [b]] [p]]. cbn [round scores pot] in *. pose proof (Hs PlayerZero) as H0. pose proof (Hs PlayerOne) as H1. cbn [at_ fst snd score_get pot_misses] in *.
  unfold possible_ledgers. apply list_elem_of_bind. exists d. split; [|destruct d; [left|right; left]]. apply list_elem_of_bind. exists a. split; [|rewrite elem_of_seqZ; lia].
  apply list_elem_of_bind. exists b. split; [|rewrite elem_of_seqZ; lia]. apply list_elem_of_bind. exists p. split; [by left|rewrite elem_of_seqZ; lia].
Qed.

Lemma ledgers_ok r l : l ∈ possible_ledgers r → ledger_ok l ∧ round l = r.
Proof using Type.
  unfold possible_ledgers. intros (d & (a & (b & (p & Hl%list_elem_of_singleton & Hp)%list_elem_of_bind & Hb)%list_elem_of_bind & Ha)%list_elem_of_bind & _)%list_elem_of_bind.
  rewrite elem_of_seqZ in Ha, Hb, Hp. subst l. split; [|done]. split; [intros []; cbn [at_ scores fst snd score_get round]; lia|cbn [pot pot_misses round]; lia].
Qed.

Lemma elem_of_ends s : finished_ok s → GFinished s ∈ possible_ends.
Proof using Type.
  intros [Hs Hp Hw]. destruct s as [[[a] [b]] [p] w]. cbn [fi_scores fi_pot fi_winners fst snd] in *. pose proof (Hs PlayerZero) as H0. pose proof (Hs PlayerOne) as H1. cbn [at_ fst snd score_get pot_misses] in *.
  subst w. unfold possible_ends. apply list_elem_of_bind. exists a. split; [|rewrite elem_of_seqZ; lia].
  apply list_elem_of_bind. exists b. split; [|rewrite elem_of_seqZ; lia]. apply list_elem_of_bind. exists p. split; [by left|rewrite elem_of_seqZ; lia].
Qed.

(** Within a round the round stays, and a state that has steps of the round left is not settled. *)
Lemma within_step r k g a g' : within r k g → (k < round_length r)%nat → offered model_actions g a → model_step g a = Ok g' → within r (S k) g'.
Proof using Type.
  intros (Hg & Hr & Hs) Hk Ho Hst. pose proof (proj1 (offered_accepted g a Hg) Ho) as [Ha Href].
  destruct (model_step_Ok g a Hg Ha Href) as (g2 & Hst2 & Hok & Hto). assert (g2 = g') as -> by congruence. unfold round_length in Hk.
  assert (0 ≤ after_round r ∧ 1 ≤ hand_size r) as [Hr0 Hh] by by destruct r.
  assert (round_of g' = round_of g) as Hsame; [|split; [done|]; split; [by rewrite Hsame|]; destruct g; [lia..|done]].
  clear Hto Hst2. unfold model_step in Hst. destruct (transition g a) as [t| |] eqn:Ht; [|done..]. injection Hst as <-.
  destruct (transition_Ok g a t Hg Ha Ht) as (_ & Hb & _ & _). clear Ht. destruct g as [s|s|s|s|s], a as [d|[player bid|player card]| |]; try discriminate Href; cbn [step_body game_ok refusal] in *.
  - unfold deal_next, validate_round in Hb. destruct (_ =? _); [|done]. injection Hb as <-. done.
  - destruct (bid_next s player bid) as [g1| |] eqn:Hn; [|done..]. injection Hb as <-. unfold bid_next, ensure_actor in Hn. case_bool_decide; [|done].
    cbn [mbind outcome_bind] in Hn. rewrite bid_legal_exact in Hn. cbn [mbind outcome_bind] in Hn. destruct (legal_for bid _); [|done]. injection Hn as <-. by destruct (bi_progress s).
  - destruct (play_next s player card) as [g1| |] eqn:Hn; [|done..]. injection Hb as <-. destruct (play_next_exact s player card Hg Href) as [Hx _].
    destruct (pl_trick s) as [q|lead]; destruct Hx as [_ (g2 & Hg2 & Hx)]; rewrite Hn in Hg2; injection Hg2 as Hg2; cbn [next build_transition].
    + subst g1. destruct Hx as [_ Hl]. cbn [round_of ledger_of fmap option_fmap option_map]. by rewrite Hl.
    + subst g1. destruct g2 as [| |g2|g2|]; cbn [trick_done] in Hx; try done; cbn [round_of ledger_of fmap option_fmap option_map].
      * destruct Hx as (_ & -> & _). done.
      * destruct Hx as (-> & _). done.
  - exfalso. cbn [round_of ledger_of fmap option_fmap option_map steps_left] in *. injection Hr as Hr. rewrite Hr in Hs. lia.
  - done.
Qed.

Lemma level_within r k g : (k ≤ round_length r)%nat → g ∈ level r k → within r k g.
Proof using Type.
  revert g. induction k as [|k IH]; intros g Hk; cbn [level].
  - intros (l & -> & [Hl Hr]%ledgers_ok)%list_elem_of_fmap. split; [done|]. cbn [round_of ledger_of fmap option_fmap option_map aw_ledger steps_left]. rewrite Hr. split; [done|lia].
  - intros (g0 & (a & Ho & Hs)%elem_of_successors & Hg0)%list_elem_of_bind. by apply (within_step r k g0 a); [apply IH; [lia|]| |..].
Qed.

(** At the end of a round's levels there is a round to settle. *)
Lemma last_level r g : within r (round_length r) g → ∃ s, g = GScoring s.
Proof using Type.
  intros (Hg & Hr & Hs). assert (1 ≤ hand_size r ∧ Z.of_nat (round_length r) = 3 + 2 * hand_size r) as [Hh Hl] by by destruct r. rewrite Hl in Hs.
  destruct g as [s|s|s|s|s]; cbn [round_of ledger_of fmap option_fmap option_map steps_left game_ok] in *; try (injection Hr as Hr; rewrite Hr in Hs).
  - lia.
  - destruct (bi_progress s); lia.
  - pose proof (po_balanced _ Hg) as Hb. unfold balanced in Hb. pose proof (card_count_nonneg (pl_hands s).1). pose proof (card_count_nonneg (pl_hands s).2).
    destruct (pl_trick s) as [q|lead]; [lia|]. destruct (played_by lead); cbn [left_of at_] in Hb; lia.
  - by exists s.
  - done.
Qed.

Lemma settled_shape s : match settled_game s with GAwaitingDeal _ | GFinished _ => True | _ => False end.
Proof using Type. unfold settled_game. by destruct (next_round _). Qed.

Lemma ended_possible g : game_ok g → match g with GAwaitingDeal _ | GFinished _ => True | _ => False end →
  g ∈ possible_ends ∨ ∃ r k, (k ≤ round_length r)%nat ∧ g ∈ level r k.
Proof using Type.
  intros Hg. destruct g as [s|s|s|s|s]; try done; intros _.
  - right. exists (round (aw_ledger s)), 0%nat. split; [lia|]. cbn [level]. apply list_elem_of_fmap. exists (aw_ledger s). split; [by destruct s|]. by apply elem_of_ledgers.
  - left. by apply elem_of_ends.
Qed.

Lemma reachable_placed g : reachable g → g ∈ possible_ends ∨ ∃ r k, (k ≤ round_length r)%nat ∧ g ∈ level r k.
Proof using Type.
  induction 1 as [d|g a t Hr IH Ha Ht]; [apply ended_possible; [apply new_ok|done]|]. pose proof (reachable_ok g Hr) as Hg.
  destruct (transition_Ok g a t Hg Ha Ht) as (Href & Hb & _ & Hok & Hto). assert ((∃ f, g = GFinished f) ∨ ¬ ∃ f, g = GFinished f) as [[f ->]|Hnf] by (destruct g; [right; by intros [? ?]..|left; by eexists]).
  { rewrite Hto. by apply ended_possible. }
  destruct IH as [He|(r & k & Hk & Hin)].
  { exfalso. apply Hnf. unfold possible_ends in He. apply list_elem_of_bind in He as (? & (? & (? & ->%list_elem_of_singleton & _)%list_elem_of_bind & _)%list_elem_of_bind & _). by eexists. }
  destruct (decide (k < round_length r)%nat) as [Hlt|Hge].
  - right. exists r, (S k). split; [lia|]. cbn [level]. apply list_elem_of_bind. exists g. split; [|done]. apply elem_of_successors. exists a. split.
    + by apply offered_accepted.
    + unfold model_step. by rewrite Ht.
  - assert (k = round_length r) as -> by lia. destruct (last_level r g (level_within r (round_length r) g (Nat.le_refl _) Hin)) as [s ->]. destruct a as [d|[]| |]; try discriminate Href.
    cbn [step_body game_ok] in *. destruct (settle_Ok s (GScoring s) ActSettle Hg) as (t' & Ht' & _ & Hn & _). assert (t' = t) as -> by congruence.
    rewrite Hn in *. apply ended_possible; [done|apply settled_shape].
Qed.

Lemma reachable_possible g : reachable g → g ∈ possible.
Proof using Type.
  intros [He|(r & k & Hk & Hin)]%reachable_placed; unfold possible; apply elem_of_app; [by left|right].
  apply list_elem_of_bind. exists r. split; [|destruct r; [left|right; left|right; right; left]]. apply list_elem_of_bind. exists k. split; [done|].
  rewrite elem_of_seq. lia.
Qed.

(** ** Counting *)

Definition branch (k : nat) : Z := match k with O => 180 | S O | S (S O) => 3 | _ => 2 end.

Fixpoint level_size (k : nat) : Z := match k with O => 1 | S k => level_size k * branch k end.

Lemma filter_length {A} (p : A → bool) l : (length (List.filter p l) ≤ length l)%nat.
Proof using Type. induction l as [|x l IH]; [done|]. cbn. destruct (p x); cbn; lia. Qed.

Lemma omap_length {A B} (f : A → option B) l : (length (omap f l) ≤ length l)%nat.
Proof using Type. induction l as [|x l IH]; [done|]. cbn. destruct (f x); cbn; lia. Qed.

Lemma cards_of_count s : set_ok s = true → Z.of_nat (length (cards_of s)) = card_count s.
Proof using Type. intros Hs. apply Z.eqb_eq. revert s Hs. apply (forall_sets (λ s, Z.of_nat (length (cards_of s)) =? card_count s)). by vm_compute. Qed.

Lemma hand_small s p : playing_ok s → card_count (at_ (pl_hands s) p) ≤ 2.
Proof using Type.
  intros Hs. pose proof (po_total _ Hs) as Ht. pose proof (po_balanced _ Hs) as Hb. unfold balanced in Hb.
  pose proof (card_count_nonneg (pl_captured s).1). pose proof (card_count_nonneg (pl_captured s).2). assert (hand_size (round (pl_ledger s)) ≤ 2) by (by destruct (round (pl_ledger s))).
  unfold on_table in Ht. destruct (pl_trick s) as [q|lead]; cbn [trick_lead fmap option_fmap option_map] in Ht.
  - rewrite decide_False in Ht by (by intros [? ?]). destruct p; cbn [at_]; lia.
  - rewrite decide_True in Ht by eauto. destruct (played_by lead), p; cbn [left_of at_] in *; lia.
Qed.

Lemma actions_width g : game_ok g → ∃ l, model_actions g = Ok l ∧
  Z.of_nat (length l) ≤ match g with GAwaitingDeal _ => 180 | GBidding _ => 3 | GPlaying _ => 2 | _ => 1 end.
Proof using Type.
  intros Hg. unfold model_actions. destruct g as [s|s|s|s|s]; cbn [legal_actions game_ok] in *.
  - destruct (all_for_exact (round (aw_ledger s))) as (deals & Hd & _ & Hlen & _). rewrite Hd. cbn [mbind outcome_bind expect_ok]. eexists. split; [done|].
    rewrite length_fmap, Hlen. by destruct (_ =? 1).
  - rewrite (filter_with_total _ (λ b, legal_for b (round (bi_ledger s)))) by (intros b; by rewrite bid_legal_exact). cbn [mbind outcome_bind expect_ok]. eexists. split; [done|].
    rewrite !length_fmap. pose proof (filter_length (λ b, legal_for b (round (bi_ledger s))) Bid_ALL) as Hf. unfold Bid_ALL in Hf at 2. cbn [length] in Hf. lia.
  - set (p := λ c, match trick_lead (pl_trick s) with
        | None => true | Some lead => must_follow (contains_suit (at_ (pl_hands s) (playing_actor s)) (suit (played lead))) c (played lead) end).
    rewrite (filter_with_total _ p) by (intros c; unfold p; destruct (trick_lead (pl_trick s)); [by rewrite follow_suit_exact|done]).
    cbn [mbind outcome_bind expect_ok]. eexists. split; [done|]. rewrite !length_fmap. pose proof (filter_length p (cards_of (at_ (pl_hands s) (playing_actor s)))) as Hf.
    pose proof (po_deck _ Hg) as [(Hh & _) _]%deck_sum. pose proof (cards_of_count _ (sets_ok_at _ (playing_actor s) Hh)). pose proof (hand_small s (playing_actor s) Hg). lia.
  - eexists. split; [done|]. done.
  - eexists. split; [done|]. done.
Qed.

Lemma width r k g : (k < round_length r)%nat → within r k g → Z.of_nat (length (successors g)) ≤ branch k.
Proof using Type.
  intros Hk (Hg & Hr & Hs). destruct (actions_width g Hg) as (l & Hl & Hw). unfold successors. rewrite Hl.
  pose proof (omap_length (λ a, match model_step g a with Ok g' => Some g' | _ => None end) l) as Ho.
  assert (2 ≤ branch k) as H2 by (destruct k as [|[|[|k]]]; cbn; lia). assert (0 ≤ after_round r ∧ 1 ≤ hand_size r) as [Hr0 Hh] by by destruct r. unfold round_length in Hk.
  set (n := length (omap _ _)) in *. clearbody n. clear Hl.
  destruct g as [s|s|s|s|s]; cbn [round_of ledger_of fmap option_fmap option_map steps_left] in *; try (injection Hr as Hr; rewrite Hr in Hs); try lia.
  - assert (k = 0)%nat as -> by lia. cbn [branch]. lia.
  - assert (k = 1 ∨ k = 2)%nat as [-> | ->] by (destruct (bi_progress s); lia); cbn [branch]; lia.
Qed.

Lemma level_length r k : (k ≤ round_length r)%nat → Z.of_nat (length (level r k)) ≤ Z.of_nat (length (possible_ledgers r)) * level_size k.
Proof using Type.
  induction k as [|k IH]; intros Hk; cbn [level level_size]; [rewrite length_fmap; lia|].
  pose proof (bind_length successors (λ _, branch k) (level r k) (λ g Hg, width r k g Hk (level_within r k g (Nat.lt_le_incl _ _ Hk) Hg))) as Hb.
  assert (∀ (l : list Game), foldr (λ _ n, branch k + n) 0 l = Z.of_nat (length l) * branch k) as Hsum.
  { intros l. induction l as [|x l IHl]; [done|]. cbn [foldr length]. lia. }
  rewrite Hsum in Hb. specialize (IH ltac:(lia)). eapply Z.le_trans; [exact Hb|].
  rewrite Z.mul_assoc. apply Z.mul_le_mono_nonneg_r; [destruct k as [|[|[|k']]]; cbn; lia|exact IH].
Qed.

Definition possible_bound : Z :=
  Z.of_nat (length possible_ends) +
  foldr (λ r n, foldr (λ k m, Z.of_nat (length (possible_ledgers r)) * level_size k + m) 0 (seq 0 (S (round_length r))) + n) 0 RoundId_ALL.

Lemma possible_small : (possible_bound <? 2 ^ 32) = true.
Proof using Type. by vm_compute. Qed.

Lemma possible_length : Z.of_nat (length possible) < 2 ^ 32.
Proof using Type.
  pose proof possible_small as Hs. apply Z.ltb_lt in Hs. eapply Z.le_lt_trans; [|exact Hs]. unfold possible, possible_bound. rewrite length_app, Nat2Z.inj_add. apply Z.add_le_mono_l.
  apply (bind_length _ (λ r, foldr (λ k m, Z.of_nat (length (possible_ledgers r)) * level_size k + m) 0 (seq 0 (S (round_length r))))). intros r _.
  apply bind_length. intros k Hk%elem_of_seq. apply level_length. lia.
Qed.

(** There are fewer than 2^32 games to reach. *)
Lemma enough_identifiers : ¬ too_many model_actions model_step inits.
Proof using Type.
  intros (l & Hnd & Hl & Hlen). assert (length l ≤ length possible)%nat as Hle.
  { apply submseteq_length, NoDup_submseteq; [done|]. intros g Hg. apply reachable_possible, reached_reachable. by apply (proj1 (Forall_forall _ _) Hl). }
  pose proof possible_length. lia.
Qed.
End Model.
