(* ===== verification/Safety.v ===== *)
(** * Explicit-state exploration: the safety pass

    poche-check/src/safety.rs: every state and every edge of a graph against the catalog.
    The text of a failure is a constructor with its parameters. *)

From stdpp Require Import base strings numbers option list.
From S2P Require Import Prelude Domain Bytes Formal ModelFinite ModelKernels ModelState ModelSemantics ModelProperty Explore.

Local Open Scope Z_scope.

(** [derive(Ord)] of [PropertyId]: the order of the declaration *)
Definition property_code (id : PropertyId) : Z :=
  match id with
  | CardConservation => 0 | LegalActor => 1 | ObservationConfidentiality => 2 | FixedBids => 3 | FollowSuit => 4 | TrickWinner => 5 | WinnerLeads => 6
  | TrickCountConservation => 7 | ScoringAndPot => 8 | PhaseProgress => 9 | DeadlockFreedom => 10 | UniversalTermination => 11 | FinishedAbsorbing => 12
  | FinalWinnerSemantics => 13
  end.

#[export] Program Instance PropertyId_order : StrictOrder PropertyId := {| ltb x y := property_code x <? property_code y |}.
Next Obligation. intros x. apply Z.ltb_irrefl. Qed.
Next Obligation. intros x y z H1%Z.ltb_lt H2%Z.ltb_lt. apply Z.ltb_lt. lia. Qed.
Next Obligation. intros x y H1 H2. by destruct x, y. Qed.

Definition STATE_PROPERTIES : list PropertyId :=
  [CardConservation; LegalActor; ObservationConfidentiality; TrickCountConservation; DeadlockFreedom; FinishedAbsorbing; FinalWinnerSemantics].

Definition TRANSITION_PROPERTIES : list PropertyId :=
  [FixedBids; FollowSuit; TrickWinner; WinnerLeads; ScoringAndPot; PhaseProgress; FinishedAbsorbing].

Record PropertyMeasurements := mkPropertyMeasurements { measured : PropertyId; state_evaluations : Z; transition_evaluations : Z }.

Record SafetyReport := mkSafetyReport { report_properties : list PropertyMeasurements; report_states : Z; report_transitions : Z }.

Inductive SafetyDetail :=
  | StateFalse
  | StateEvaluationFailed (error : ModelError)
  | EdgeReplayFailed (error : ModelError)
  | TransitionFalse
  | TransitionEvaluationFailed (error : ModelError).

Record SafetyFailure := mkSafetyFailure
  { failed_property : PropertyId; failed_rules : list RuleOrigin; failed_trace : Counterexample Game ModelAction; failed_detail : SafetyDetail }.

(** ** Counts *)

Definition Counts : Type := list (PropertyId * PropertyMeasurements).

Definition no_evaluations (id : PropertyId) : PropertyMeasurements := {| measured := id; state_evaluations := 0; transition_evaluations := 0 |}.

(** [counts.entry(property).or_insert(..)], then the increment *)
Definition count_state (id : PropertyId) (counts : Counts) : Counts :=
  let m := default (no_evaluations id) (map_get id counts) in
  map_insert id {| measured := measured m; state_evaluations := state_evaluations m + 1; transition_evaluations := transition_evaluations m |} counts.

Definition count_transition (id : PropertyId) (counts : Counts) : Counts :=
  let m := default (no_evaluations id) (map_get id counts) in
  map_insert id {| measured := measured m; state_evaluations := state_evaluations m; transition_evaluations := transition_evaluations m + 1 |} counts.

(** ** Failures *)

Definition specs_of (catalog : list PropertySpec) : list (PropertyId * PropertySpec) :=
  foldl (λ m spec, map_insert (property_id spec) spec m) [] catalog.

Definition failure {A} (graph : ExplicitGraph) (specs : list (PropertyId * PropertySpec)) (property : PropertyId) (state : StateId)
    (detail : SafetyDetail) : outcome SafetyFailure A :=
  spec ← expect (map_get property specs);
  trace ← expect_ok (shortest_trace graph state);
  trace ← expect trace;
  Err {| failed_property := property; failed_rules := property_rules spec; failed_trace := trace; failed_detail := detail |}.

Definition edge_failure {A} (graph : ExplicitGraph) (specs : list (PropertyId * PropertySpec)) (property : PropertyId) (edge : Edge ModelAction)
    (detail : SafetyDetail) : outcome SafetyFailure A :=
  spec ← expect (map_get property specs);
  trace ← expect_ok (trace_through_edge graph edge);
  trace ← expect trace;
  Err {| failed_property := property; failed_rules := property_rules spec; failed_trace := trace; failed_detail := detail |}.

Section Safety.
Context `{Formal.Weavy}.

Definition check_state_property (graph : ExplicitGraph) (specs : list (PropertyId * PropertySpec)) (id : StateId) (state : Game) (counts : Counts)
    (property : PropertyId) : outcome SafetyFailure Counts :=
  let counts := count_state property counts in
  match evaluate_state_property property state with
  | Ok true => Ok counts
  | Ok false => failure graph specs property id StateFalse
  | Err error => failure graph specs property id (StateEvaluationFailed error)
  | Panic => Panic
  end.

Fixpoint check_states (graph : ExplicitGraph) (specs : list (PropertyId * PropertySpec)) (i : nat) (states : list Game) (counts : Counts)
    : outcome SafetyFailure Counts :=
  match states with
  | [] => Ok counts
  | state :: states =>
      id ← expect (checked 32 (Z.of_nat i));
      counts ← foldM (check_state_property graph specs (StateIdOf id) state) STATE_PROPERTIES counts;
      check_states graph specs (S i) states counts
  end.

Definition check_transition_property (graph : ExplicitGraph) (specs : list (PropertyId * PropertySpec)) (edge : Edge ModelAction) (g : Game) (t : Transition)
    (counts : Counts) (property : PropertyId) : outcome SafetyFailure Counts :=
  let counts := count_transition property counts in
  match evaluate_transition_property property g t with
  | Ok true => Ok counts
  | Ok false => edge_failure graph specs property edge TransitionFalse
  | Err error => edge_failure graph specs property edge (TransitionEvaluationFailed error)
  | Panic => Panic
  end.

Definition check_edge (graph : ExplicitGraph) (specs : list (PropertyId * PropertySpec)) (counts : Counts) (edge : Edge ModelAction)
    : outcome SafetyFailure Counts :=
  g ← expect (graph_state graph (from edge));
  t ← match transition g (label edge) with
      | Ok t => Ok t
      | Err error => edge_failure graph specs PhaseProgress edge (EdgeReplayFailed error)
      | Panic => Panic
      end;
  foldM (check_transition_property graph specs edge g t) TRANSITION_PROPERTIES counts.

(** [counts.remove(&spec.id).unwrap_or(..)] for each spec of the report *)
Fixpoint take_counts (specs : list PropertySpec) (counts : Counts) : list PropertyMeasurements :=
  match specs with
  | [] => []
  | spec :: specs =>
      default (no_evaluations (property_id spec)) (map_get (property_id spec) counts)
      :: take_counts specs (List.filter (λ e, negb (bool_decide (e.1 = property_id spec))) counts)
  end.

Definition check_safety_catalog (graph : ExplicitGraph) : outcome SafetyFailure SafetyReport :=
  let specs := specs_of property_catalog in
  counts ← check_states graph specs 0 (g_states graph) [];
  counts ← foldM (check_edge graph specs) (g_edges graph) counts;
  Ok {| report_properties := take_counts (List.filter (λ spec, negb (bool_decide (property_id spec = UniversalTermination))) property_catalog) counts;
        report_states := Z.of_nat (length (g_states graph)); report_transitions := Z.of_nat (length (g_edges graph)) |}.

End Safety.
