(* ===== verification/Liveness.v ===== *)
(** * Explicit-state exploration: the liveness pass

    poche-check/src/liveness.rs: deadlocks, progress, Tarjan's components and lassos over
    the compressed adjacency of a graph.  A [Vec] is a list whose reads and writes panic
    out of range; the stack of the component search has its top first.  Ranks are at most
    31, well inside a [u8]. *)

From stdpp Require Import base strings numbers option list.
From S2P Require Import Prelude Domain Formal ModelFinite ModelKernels ModelState ModelSemantics Explore.

Local Open Scope Z_scope.

Record TemporalEdge := mkTemporalEdge { te_from : StateId; te_to : StateId; te_action : option ModelAction }.

Record Lasso := mkLasso { prefix : Counterexample Game ModelAction; cycle_states : list StateId; cycle_edges : list TemporalEdge }.

Record LivenessReport := mkLivenessReport
  { nonterminal_deadlocks : list StateId; terminal_edge_violations : list StateId; strongly_connected_components : Z; cyclic_components : Z;
    nonterminal_cyclic_components : Z; progress_violations : list TemporalEdge; maximum_progress_rank : Z; universal_termination : bool;
    lasso : option Lasso }.

Record LivenessError := LivenessErrorOf { liveness_message : string }.

Definition absent {A} (message : string) : outcome LivenessError A := Err (LivenessErrorOf message).

(** [v[i]], [v[i] = x] *)
Definition vec_get {E A} (v : list A) (i : nat) : outcome E A := expect (v !! i).
Definition vec_set {E A} (v : list A) (i : nat) (x : A) : outcome E (list A) := if decide (i < length v)%nat then Ok (<[i := x]> v) else Panic.

Definition state_id (i : nat) : outcome LivenessError StateId :=
  raw ← ok_or (checked 32 (Z.of_nat i)) (LivenessErrorOf "state index exceeds u32"); Ok (StateIdOf raw).

(** ** Ranks *)

Definition future_round_actions (r : RoundId) : Z := match r with OneAscending => 14 | TwoCards => 6 | OneDescending => 0 end.

Definition bool_z (b : bool) : Z := if b then 1 else 0.

Definition progress_rank (game : Game) : Z :=
  match game with
  | GAwaitingDeal s => future_round_actions (round (aw_ledger s)) + 4 + 2 * hand_size (round (aw_ledger s))
  | GBidding s =>
      let bids := bids_so_far s in
      let bids_remaining := bool_z (bool_decide (bids.1 = None)) + bool_z (bool_decide (bids.2 = None)) in
      future_round_actions (round (bi_ledger s)) + bids_remaining + 2 * hand_size (round (bi_ledger s)) + 1
  | GPlaying s => future_round_actions (round (pl_ledger s)) + card_count (at_ (pl_hands s) PlayerZero) + card_count (at_ (pl_hands s) PlayerOne) + 1
  | GScoring s => future_round_actions (round (sc_ledger s)) + 1
  | GFinished _ => 0
  end.

(** ** Adjacency *)

Record Csr := mkCsr { offsets : list Z; targets : list StateId }.

(** The edges that are kept *)
Definition removed (removed_successors : option StateId) (e : Edge ModelAction) : bool := bool_decide (Some (from e) = removed_successors).

Definition count_edge (removed_successors : option StateId) (counts : list Z) (e : Edge ModelAction) : outcome LivenessError (list Z) :=
  if removed removed_successors e then Ok counts
  else
    count ← ok_or (counts !! index (from e)) (LivenessErrorOf "edge source is absent");
    count ← ok_or (checked 64 (count + 1)) (LivenessErrorOf "edge count overflow");
    vec_set counts (index (from e)) count.

(** [offsets[index + 1] = offsets[index] + counts[index]], as the list of the offsets *)
Fixpoint offsets_from (start : Z) (counts : list Z) : outcome LivenessError (list Z) :=
  match counts with
  | [] => Ok [start]
  | count :: counts =>
      next ← ok_or (checked 64 (start + count)) (LivenessErrorOf "CSR offset overflow");
      rest ← offsets_from next counts;
      Ok (start :: rest)
  end.

Definition place_edge (removed_successors : option StateId) (acc : list StateId * list Z) (e : Edge ModelAction) : outcome LivenessError (list StateId * list Z) :=
  let '(targets, cursors) := acc in
  if removed removed_successors e then Ok (targets, cursors)
  else
    cursor ← vec_get cursors (index (from e));
    targets ← vec_set targets (Z.to_nat cursor) (to e);
    cursor ← u_add 64 cursor 1;
    cursors ← vec_set cursors (index (from e)) cursor;
    Ok (targets, cursors).

Definition from_counts_and_edges (counts : list Z) (edges : list (Edge ModelAction)) (injected : option (StateId * StateId))
    (removed_successors : option StateId) : outcome LivenessError Csr :=
  offsets ← offsets_from 0 counts;
  total ← vec_get offsets (length counts);
  '(targets, cursors) ← foldM (place_edge removed_successors) edges (replicate (Z.to_nat total) (StateIdOf 0), take (length counts) offsets);
  targets ← match injected with
            | Some (source, goal) => cursor ← vec_get cursors (index source); vec_set targets (Z.to_nat cursor) goal
            | None => Ok targets
            end;
  Ok {| offsets := offsets; targets := targets |}.

Definition csr_from_graph (graph : ExplicitGraph) (injected : option (StateId * StateId)) (removed_successors : option StateId)
    : outcome LivenessError Csr :=
  let states := length (g_states graph) in
  counts ← foldM (count_edge removed_successors) (g_edges graph) (replicate states 0);
  counts ← match injected with
           | Some (source, goal) =>
               if (bool_decide (states ≤ index source) || bool_decide (states ≤ index goal))%nat then absent "injected edge endpoint is absent"
               else count ← vec_get counts (index source); count ← u_add 64 count 1; vec_set counts (index source) count
           | None => Ok counts
           end;
  from_counts_and_edges counts (g_edges graph) injected removed_successors.

Definition csr_states (self : Csr) : nat := pred (length (offsets self)).

Definition neighbors {E} (self : Csr) (state : StateId) : outcome E (list StateId) :=
  first ← vec_get (offsets self) (index state);
  last ← vec_get (offsets self) (S (index state));
  if (first <=? last) && (last <=? Z.of_nat (length (targets self)))
  then Ok (take (Z.to_nat (last - first)) (drop (Z.to_nat first) (targets self))) else Panic.

(** ** Strongly connected components *)

Record Tarjan := mkTarjan
  { next_index : Z; indices : list Z; low_links : list Z; stack : list StateId; on_stack : list bool; component_of : list Z; sizes : list Z }.

Record SccResult := mkSccResult { scc_component_of : list Z; scc_sizes : list Z }.

(** [usize::MAX] *)
Definition unvisited : Z := 2 ^ 64 - 1.

(** The loop that pops a component off the stack *)
Fixpoint pop_component {E} (state : StateId) (component : Z) (st : list StateId) (on : list bool) (comp : list Z) (size : Z)
    : outcome E (list StateId * list bool * list Z * Z) :=
  match st with
  | [] => Panic
  | member :: st =>
      on ← vec_set on (index member) false;
      comp ← vec_set comp (index member) component;
      if bool_decide (member = state) then Ok (st, on, comp, size + 1) else pop_component state component st on comp (size + 1)
  end.

Definition lower {E} (t : Tarjan) (i : nat) (x : Z) : outcome E Tarjan :=
  low ← vec_get (low_links t) i;
  lows ← vec_set (low_links t) i (Z.min low x);
  Ok {| next_index := next_index t; indices := indices t; low_links := lows; stack := stack t; on_stack := on_stack t;
        component_of := component_of t; sizes := sizes t |}.

(** The loop over the successors of a visited state; [go] is the nested visit. *)
Definition look_at {E} (go : StateId → Tarjan → outcome E Tarjan) (i : nat) (t : Tarjan) (next : StateId) : outcome E Tarjan :=
  found ← vec_get (indices t) (index next);
  if found =? unvisited
  then
    t ← go next t;
    low ← vec_get (low_links t) (index next);
    lower t i low
  else
    on ← vec_get (on_stack t) (index next);
    if (on : bool) then lower t i found else Ok t.

(** [Tarjan::visit].  A nested visit is of a state not visited before, so nesting is at most the number of states; fuel that runs
    out stands for nesting without end. *)
Fixpoint visit {E} (fuel : nat) (adjacency : Csr) (state : StateId) (t : Tarjan) : outcome E Tarjan :=
  match fuel with
  | O => Panic
  | S fuel =>
      let i := index state in
      inds ← vec_set (indices t) i (next_index t);
      lows ← vec_set (low_links t) i (next_index t);
      ons ← vec_set (on_stack t) i true;
      out ← neighbors adjacency state;
      t ← foldM (look_at (visit fuel adjacency) i) out
          {| next_index := next_index t + 1; indices := inds; low_links := lows; stack := state :: stack t; on_stack := ons;
             component_of := component_of t; sizes := sizes t |};
      low ← vec_get (low_links t) i;
      ind ← vec_get (indices t) i;
      if low =? ind
      then
        '(st, on, comp, size) ← pop_component state (Z.of_nat (length (sizes t))) (stack t) (on_stack t) (component_of t) 0;
        Ok {| next_index := next_index t; indices := indices t; low_links := low_links t; stack := st; on_stack := on;
              component_of := comp; sizes := sizes t ++ [size] |}
      else Ok t
  end.

Definition tarjan_start (states : nat) : Tarjan :=
  {| next_index := 0; indices := replicate states unvisited; low_links := replicate states 0; stack := []; on_stack := replicate states false;
     component_of := replicate states unvisited; sizes := [] |}.

Definition visit_state {E} (adjacency : Csr) (t : Tarjan) (state : nat) : outcome E Tarjan :=
  found ← vec_get (indices t) state;
  if found =? unvisited
  then id ← expect (checked 32 (Z.of_nat state)); visit (S (csr_states adjacency)) adjacency (StateIdOf id) t
  else Ok t.

Definition components {E} (adjacency : Csr) : outcome E SccResult :=
  t ← foldM (visit_state adjacency) (seq 0 (csr_states adjacency)) (tarjan_start (csr_states adjacency));
  Ok {| scc_component_of := component_of t; scc_sizes := sizes t |}.

(** ** Lassos *)

Definition find_action (graph : ExplicitGraph) (source goal : StateId) : option ModelAction :=
  label <$> List.find (λ e, bool_decide (from e = source) && bool_decide (to e = goal)) (g_edges graph).

(** The walk back from the goal; predecessors were found later than their successors, so it ends within the states. *)
Fixpoint walk_back (fuel : nat) (predecessors : list (option StateId)) (start cursor : StateId) (path : list StateId) : outcome LivenessError (list StateId) :=
  match fuel with
  | O => Panic
  | S fuel =>
      if bool_decide (cursor = start) then Ok path
      else
        p ← vec_get predecessors (index cursor);
        p ← ok_or p (LivenessErrorOf "cycle path predecessor absent");
        walk_back fuel predecessors start p (p :: path)
  end.

(** The loop over the successors of a state *)
Definition discover (scc : SccResult) (component : Z) (state : StateId) (acc : list (option StateId) * list StateId) (next : StateId)
    : outcome LivenessError (list (option StateId) * list StateId) :=
  let '(predecessors, q) := acc in
  c ← vec_get (scc_component_of scc) (index next);
  p ← vec_get predecessors (index next);
  if (c =? component) && bool_decide (p = None)
  then predecessors ← vec_set predecessors (index next) (Some state); Ok (predecessors, q ++ [next])
  else Ok (predecessors, q).

Fixpoint path_search (fuel : nat) (adjacency : Csr) (scc : SccResult) (component : Z) (start goal : StateId) (predecessors : list (option StateId))
    (q : list StateId) : outcome LivenessError (list StateId) :=
  match fuel with
  | O => Panic
  | S fuel =>
      match q with
      | [] => absent "strong component did not contain a return path"
      | state :: q =>
          if bool_decide (state = goal) then walk_back (S (csr_states adjacency)) predecessors start goal [goal]
          else
            out ← neighbors adjacency state;
            '(predecessors, q) ← foldM (discover scc component state) out (predecessors, q);
            path_search fuel adjacency scc component start goal predecessors q
      end
  end.

(** A state joins the queue at most once. *)
Definition path_within_component (adjacency : Csr) (scc : SccResult) (component : Z) (start goal : StateId) : outcome LivenessError (list StateId) :=
  predecessors ← vec_set (replicate (csr_states adjacency) None) (index start) (Some start);
  path_search (S (csr_states adjacency)) adjacency scc component start goal predecessors [start].

(** [windows(2)] as edges *)
Fixpoint cycle_edges_of (graph : ExplicitGraph) (states : list StateId) : list TemporalEdge :=
  match states with
  | a :: ((b :: _) as rest) => {| te_from := a; te_to := b; te_action := find_action graph a b |} :: cycle_edges_of graph rest
  | _ => []
  end.

(** [find] of a successor in the component *)
Fixpoint find_inside (scc : SccResult) (component : Z) (out : list StateId) : outcome LivenessError (option StateId) :=
  match out with
  | [] => Ok None
  | target :: out => c ← vec_get (scc_component_of scc) (index target); if c =? component then Ok (Some target) else find_inside scc component out
  end.

Definition build_lasso (graph : ExplicitGraph) (adjacency : Csr) (scc : SccResult) (component : Z) : outcome LivenessError Lasso :=
  entry ← ok_or (list_find (λ c, c = component) (scc_component_of scc)) (LivenessErrorOf "cyclic component has no member");
  entry ← state_id entry.1;
  out ← neighbors adjacency entry;
  cycle ← (if bool_decide (entry ∈ out) then Ok [entry; entry]
           else
             inside ← find_inside scc component out;
             next ← ok_or inside (LivenessErrorOf "SCC entry has no internal edge");
             path ← path_within_component adjacency scc component next entry;
             Ok (entry :: path));
  trace ← expect_ok (shortest_trace graph entry);
  trace ← ok_or trace (LivenessErrorOf "cycle entry is not reachable");
  Ok {| prefix := trace; cycle_states := cycle; cycle_edges := cycle_edges_of graph cycle |}.

(** ** The analysis *)

Record Findings := mkFindings { deadlocks : list StateId; terminal_violations : list StateId; rank_violations : list TemporalEdge; top_rank : Z }.

Definition is_finished (game : Game) : bool := bool_decide (game_phase game = PhFinished).

(** The loop over the successors of a state *)
Definition rank_violation (graph : ExplicitGraph) (game : Game) (id : StateId) (acc : list TemporalEdge) (goal : StateId) : outcome LivenessError (list TemporalEdge) :=
  after ← ok_or (graph_state graph goal) (LivenessErrorOf "edge target is absent");
  let valid := if is_finished game then bool_decide (goal = id) && (progress_rank game =? 0) && (progress_rank after =? 0)
               else progress_rank game =? progress_rank after + 1 in
  Ok (if valid then acc else acc ++ [{| te_from := id; te_to := goal; te_action := find_action graph id goal |}]).

Definition inspect (graph : ExplicitGraph) (adjacency : Csr) (i : nat) (game : Game) (f : Findings) : outcome LivenessError Findings :=
  id ← state_id i;
  outgoing ← neighbors adjacency id;
  let top := Z.max (top_rank f) (progress_rank game) in
  let absorbs := existsb (λ e, bool_decide (from e = id) && bool_decide (to e = id) && bool_decide (label e = ActAbsorb)) (g_edges graph) in
  let terminal := if is_finished game && negb (bool_decide (outgoing = [id]) && absorbs) then terminal_violations f ++ [id] else terminal_violations f in
  let dead := if negb (is_finished game) && bool_decide (outgoing = []) then deadlocks f ++ [id] else deadlocks f in
  ranks ← foldM (rank_violation graph game id) outgoing (rank_violations f);
  Ok {| deadlocks := dead; terminal_violations := terminal; rank_violations := ranks; top_rank := top |}.

Fixpoint inspect_all (graph : ExplicitGraph) (adjacency : Csr) (i : nat) (games : list Game) (f : Findings) : outcome LivenessError Findings :=
  match games with
  | [] => Ok f
  | game :: games => f ← inspect graph adjacency i game f; inspect_all graph adjacency (S i) games f
  end.

(** The loop that marks the components with a cycle and those with a state that is not finished *)
Fixpoint mark (adjacency : Csr) (scc : SccResult) (i : nat) (games : list Game) (cyclic live : list bool) : outcome LivenessError (list bool * list bool) :=
  match games with
  | [] => Ok (cyclic, live)
  | game :: games =>
      component ← vec_get (scc_component_of scc) i;
      old ← vec_get live (Z.to_nat component);
      live ← vec_set live (Z.to_nat component) (old || negb (is_finished game));
      id ← state_id i;
      out ← neighbors adjacency id;
      cyclic ← (if bool_decide (id ∈ out) then vec_set cyclic (Z.to_nat component) true else Ok cyclic);
      mark adjacency scc (S i) games cyclic live
  end.

Definition count_true (l : list bool) : Z := Z.of_nat (length (List.filter id l)).

Definition analyze (graph : ExplicitGraph) (injected_edge : option (StateId * StateId)) (removed_successors : option StateId)
    : outcome LivenessError LivenessReport :=
  adjacency ← csr_from_graph graph injected_edge removed_successors;
  f ← inspect_all graph adjacency 0 (g_states graph) {| deadlocks := []; terminal_violations := []; rank_violations := []; top_rank := 0 |};
  scc ← components adjacency;
  '(cyclic, live) ← mark adjacency scc 0 (g_states graph) ((λ size, 1 <? size) <$> scc_sizes scc) (replicate (length (scc_sizes scc)) false);
  let both := zip_with andb cyclic live in
  l ← match list_find (λ b, b = true) both with
      | Some (component, _) => l ← build_lasso graph adjacency scc (Z.of_nat component); Ok (Some l)
      | None => Ok None
      end;
  Ok {| nonterminal_deadlocks := deadlocks f; terminal_edge_violations := terminal_violations f;
        strongly_connected_components := Z.of_nat (length (scc_sizes scc)); cyclic_components := count_true cyclic;
        nonterminal_cyclic_components := count_true both; progress_violations := rank_violations f; maximum_progress_rank := top_rank f;
        universal_termination := bool_decide (deadlocks f = []) && bool_decide (terminal_violations f = []) && (count_true both =? 0);
        lasso := l |}.

Definition analyze_liveness (graph : ExplicitGraph) : outcome LivenessError LivenessReport := analyze graph None None.

Definition analyze_with_nonterminal_stutter (graph : ExplicitGraph) (state : StateId) : outcome LivenessError LivenessReport :=
  game ← ok_or (graph_state graph state) (LivenessErrorOf "stutter state is absent");
  if is_finished game then absent "controlled stutter must target a nonterminal state"
  else analyze graph (Some (state, state)) None.

Definition analyze_with_nonterminal_deadlock (graph : ExplicitGraph) (state : StateId) : outcome LivenessError LivenessReport :=
  game ← ok_or (graph_state graph state) (LivenessErrorOf "deadlock state is absent");
  if is_finished game then absent "controlled deadlock must target a nonterminal state"
  else analyze graph None (Some state).
