(* ===== verification/ExploreProperties.v ===== *)
(** * Explicit-state exploration: properties

    What the explorer, its shortest counterexamples and the safety pass give on the
    six-card model. *)

From Stdlib Require Import ZifyBool.
From stdpp Require Import base strings numbers option list.
From S2P Require Import Prelude Domain DomainLaws Bytes Formal ModelFinite ModelKernels ModelState ModelSemantics ModelDeals ModelInvariant ModelRules ModelProperty ModelTheorems Explore ExploreTheorems ExploreModel Safety.

Local Open Scope Z_scope.

Section Model.
Context `{Formal.Weavy}.

Notation inits := (scope_initial_states Micro).
Notation model_path := (path model_actions model_step inits).

(** ** Distances *)

(** A longer path to a game goes on after the end of the game. *)
Lemma path_short n g : model_path n g → ∃ m, (m ≤ n)%nat ∧ (m ≤ 20)%nat ∧ model_path m g.
Proof using Type.
  induction 1 as [g Hg|n g a g' Hp (m & Hmn & Hm & Hpm) Ho Hst]; [exists 0%nat; split_and!; [lia..|by apply path_init]|].
  destruct (decide (m < 20)%nat) as [Hlt|Hge]; [exists (S m); split_and!; [lia..|by apply (path_step _ _ _ m g a)]|].
  exists m. split_and!; [lia..|]. pose proof (path_steps m g Hpm) as Hs. pose proof (reachable_ok g (path_reachable m g Hpm)) as Hg.
  apply (offered_accepted g a Hg) in Ho as [Ha Hr]. destruct (model_step_Ok g a Hg Ha Hr) as (g2 & Hst2 & _ & Hto). assert (g2 = g') as -> by congruence.
  pose proof (steps_left_nonneg g Hg) as [_ Hfin]. replace (Z.max 0 (20 - Z.of_nat m)) with 0 in Hs by lia. apply Hfin in Hs.
  destruct g; try discriminate Hs. by rewrite Hto.
Qed.

(** The distance of a game from the start is the number of steps it has used. *)
Lemma distance d g : 0 ≤ d → model_path (Z.to_nat d) g → (∀ n, model_path n g → d ≤ Z.of_nat n) → d = 20 - steps_left g.
Proof using Type.
  intros Hd Hp Hmin. destruct (path_short _ g Hp) as (m & Hmd & Hm & Hpm). specialize (Hmin m Hpm). pose proof (path_steps _ g Hpm). lia.
Qed.

Lemma reachable_near g : reachable g → ∃ n, model_path n g ∧ Z.of_nat n = 20 - steps_left g.
Proof using Type.
  intros [n Hn]%reached_reachable. destruct (path_short n g Hn) as (m & _ & Hm & Hpm). exists m. split; [done|]. pose proof (path_steps m g Hpm). lia.
Qed.

Lemma follows_path s actions ss n : model_path n s → follows model_actions model_step s actions ss → model_path (n + length actions) (default s (last ss)).
Proof using Type.
  revert s ss n. induction actions as [|a actions IH]; intros s [|s' ss] n Hp; cbn [follows length]; try done.
  - intros _. by rewrite Nat.add_0_r.
  - intros (Ho & Hs & Hf). rewrite last_default, <-Nat.add_succ_comm. apply IH; [by apply (path_step _ _ _ n s a)|done].
Qed.

Lemma trace_path g d ce : trace_to model_actions model_step inits g d ce → model_path (Z.to_nat d) g.
Proof using Type.
  intros (s0 & rest & _ & Hin & Hf & <- & Hd & _). rewrite <-Hd, Nat2Z.id. apply (follows_path s0 _ rest 0); [by apply path_init|done].
Qed.

Lemma finished_reachable : ∃ g, reachable g ∧ steps_left g = 0.
Proof using Type.
  destruct (run_exists 20 (Game_new PlayerZero) (new_ok PlayerZero)) as (actions & g & Hlen & Ha & Hr). exists g.
  split; [apply (run_reachable actions _ g (reach_new PlayerZero) Ha Hr)|]. destruct (model_run_steps actions _ _ (new_ok PlayerZero) Ha Hr) as [_ Hs].
  rewrite Hs, Hlen. done.
Qed.

(** ** The graph *)

(** The graph of everything play reaches *)
Record whole (graph : ExplicitGraph) : Prop := {
  w_distinct : NoDup (g_states graph);
  w_states g : g ∈ g_states graph ↔ reachable g;
  w_small : Z.of_nat (length (g_states graph)) ≤ 2 ^ 32;
  w_initial : g_initial_states graph = [StateIdOf 0; StateIdOf 1] ∧ take 2 (g_states graph) = inits;
  w_edges : (λ e, (from e, label e)) <$> g_edges graph = mjoin (imap (λ i g, pair (StateIdOf (Z.of_nat i)) <$> acts_of model_actions g) (g_states graph));
  w_targets e : e ∈ g_edges graph →
    ∃ i j g g', from e = StateIdOf (Z.of_nat i) ∧ to e = StateIdOf (Z.of_nat j) ∧ g_states graph !! i = Some g ∧ model_step g (label e) = Ok g' ∧ g_states graph !! j = Some g';
  w_depths : g_depths graph = (λ g, 20 - steps_left g) <$> g_states graph;
  w_traces i g : g_states graph !! i = Some g → ∃ ce, shortest_trace graph (StateIdOf (Z.of_nat i)) = Ok (Some ce) ∧ target ce = StateIdOf (Z.of_nat i) ∧
    trace_to model_actions model_step inits g (20 - steps_left g) ce;
  w_stats : g_stats graph =
    {| stat_states := Z.of_nat (length (g_states graph)); stat_transitions := Z.of_nat (length (g_edges graph));
       stat_duplicate_state_hits := Z.of_nat (length (g_edges graph)) + 2 - Z.of_nat (length (g_states graph)); stat_maximum_depth := 20;
       stat_initial_states := 2; stat_finished_states := Z.of_nat (length (List.filter (λ g, bool_decide (game_phase g = PhFinished)) (g_states graph)));
       stat_termination := ReachableStateSpaceExhausted |};
}.

(** What a result of the search gives, whatever the fuel that gave it *)
Lemma explored fuel config r : explore_with_config fuel Micro config = Some r →
  ∃ s, r = Ok (graph_of Micro s [StateIdOf 0; StateIdOf 1]) ∧ sound model_actions model_step inits config s ∧
    match termination s with
    | ReachableStateSpaceExhausted => complete model_actions model_step inits s
    | StateLimitReached => ∃ limit, state_limit config = Some limit ∧ limit ≤ Z.of_nat (length (c_states (columns s)))
    end.
Proof using Type.
  unfold explore_with_config. intros (r' & Hr & ->)%fmap_Some.
  destruct (search_exact model_actions model_step inits (Nat.le_refl 2) model_total config (Nat.max fuel (S (Z.to_nat (bound inits config)))) inits_distinct)
    as (r2 & Hr2 & Hspec); [by vm_compute|lia|].
  pose proof (search_more _ _ config inits fuel (Nat.max fuel (S (Z.to_nat (bound inits config)))) r' Hr ltac:(lia)) as Hr'. rewrite Hr2 in Hr'. injection Hr' as ->.
  destruct r' as [[s ids]|e|]; [|by destruct Hspec as [_ ?%enough_identifiers]|done]. destruct Hspec as (-> & Hs & Ht). exists s. cbn [mbind outcome_bind]. split; [done|]. by split.
Qed.

Lemma explore_answers fuel : 2 ^ 32 < Z.of_nat fuel → ∃ r, explore fuel Micro = Some r.
Proof using Type.
  intros Hf. destruct (search_exact model_actions model_step inits (Nat.le_refl 2) model_total {| state_limit := None |} fuel inits_distinct) as (r & Hr & _); [by vm_compute|done|].
  unfold explore, explore_with_config. change (scope_initial_states Micro) with inits. rewrite Hr. by eexists.
Qed.

Lemma finished_filter states : finished_count states = Z.of_nat (length (List.filter (λ g, bool_decide (game_phase g = PhFinished)) states)).
Proof using Type. unfold finished_count. do 2 f_equal. apply List.filter_ext. by intros []. Qed.

Lemma table_distance s i g d : sound model_actions model_step inits {| state_limit := None |} s → complete model_actions model_step inits s →
  c_states (columns s) !! i = Some g → c_depths (columns s) !! i = Some d → d = 20 - steps_left g.
Proof using Type.
  intros Hs Hc Hg Hd. destruct (cm_depths _ _ _ _ Hc i g d Hg Hd) as [Hp Hmin]. apply distance; [|done..].
  destruct (table_depth _ _ _ _ i g (s_table _ _ _ _ _ Hs) Hg) as (d' & Hd' & Hnn). congruence.
Qed.

Lemma explored_whole s : sound model_actions model_step inits {| state_limit := None |} s → complete model_actions model_step inits s →
  termination s = ReachableStateSpaceExhausted → whole (graph_of Micro s [StateIdOf 0; StateIdOf 1]).
Proof using Type.
  intros Hs Hc Ht. pose proof (s_table _ _ _ _ _ Hs) as Htab. pose proof (t_depths _ _ _ _ Htab) as Hlen.
  assert (g_depths (graph_of Micro s [StateIdOf 0; StateIdOf 1]) = (λ g, 20 - steps_left g) <$> c_states (columns s)) as Hdepths.
  { cbn [graph_of g_depths]. apply list_eq_same_length with (n := length (c_states (columns s))); [by rewrite length_fmap|done|].
    intros i d1 d2 Hi Hd1. rewrite list_lookup_fmap. intros (g & Hg & ->)%fmap_Some. by apply (table_distance s i). }
  split; cbn [graph_of g_states g_edges g_initial_states g_stats].
  - apply Htab.
  - intros g. rewrite (cm_states _ _ _ _ Hc). apply reached_reachable.
  - apply Htab.
  - split; [done|]. destruct (t_inits _ _ _ _ Htab) as [rest ->]. done.
  - rewrite (cm_edges _ _ _ _ Hc). unfold labels. rewrite firstn_all. cbn [fmap list_fmap]. by rewrite app_nil_r.
  - intros e He. pose proof (proj1 (Forall_forall _ _) (s_edges _ _ _ _ _ Hs) e He) as (Hf & Hto & g & g' & Hg & _ & Hst & Hg').
    exists (index (from e)), (index (to e)), g, g'. by split_and!.
  - exact Hdepths.
  - intros i g Hg. destruct (table_depth _ _ _ _ i g Htab Hg) as (d & Hd & _). pose proof (table_distance s i g d Hs Hc Hg Hd) as ->.
    destruct (trace_spec model_actions model_step inits (columns s) i g _ Htab Hg Hd) as (ce & Hce & Htarget & Htr). exists ce.
    split; [exact Hce|]. by split.
  - rewrite finished_filter, Ht. f_equal.
    + pose proof (s_count _ _ _ _ _ Hs) as Hcount. change (Z.of_nat (length inits)) with 2 in Hcount. lia.
    + rewrite (s_deepest _ _ _ _ _ Hs). change (c_depths (columns s)) with (g_depths (graph_of Micro s [StateIdOf 0; StateIdOf 1])). rewrite Hdepths.
      destruct finished_reachable as (g & Hg%reached_reachable & Hz). apply (cm_states _ _ _ _ Hc), list_elem_of_lookup in Hg as [i Hi].
      assert (c_depths (columns s) !! i = Some 20) as H20.
      { change (c_depths (columns s)) with (g_depths (graph_of Micro s [StateIdOf 0; StateIdOf 1])). rewrite Hdepths, list_lookup_fmap, Hi. cbn. by rewrite Hz. }
      pose proof (last_depth _ _ _ _ i 20 Htab H20) as Hle. cbn [graph_of g_depths] in Hdepths. rewrite Hdepths, fmap_last in Hle. rewrite fmap_last.
      destruct (last (c_states (columns s))) as [g'|] eqn:Hlast; unfold id in *; cbn [fmap option_fmap option_map default] in *; [|lia].
      rewrite last_lookup in Hlast. apply list_elem_of_lookup_2, (cm_states _ _ _ _ Hc), reached_reachable, reachable_ok in Hlast.
      pose proof (proj1 (steps_left_nonneg g' Hlast)). lia.
Qed.

Lemma explore_whole fuel r : explore fuel Micro = Some r → ∃ graph, r = Ok graph ∧ whole graph.
Proof using Type.
  intros Hr. destruct (explored fuel _ r Hr) as (s & -> & Hs & Hc). eexists. split; [done|].
  destruct (termination s) eqn:Ht; [by apply explored_whole|]. by destruct Hc as (limit & ? & _).
Qed.

Lemma explore_ends fuel : 2 ^ 32 < Z.of_nat fuel → ∃ graph, explore fuel Micro = Some (Ok graph).
Proof using Type. intros [r Hr]%explore_answers. destruct (explore_whole fuel r Hr) as (graph & -> & _). by exists graph. Qed.

(** [C33] Exploring the six-card model ends, without an error, with every game that play can reach, each once; with every action
    offered in each of them, in order, as an edge to the game it leads to; with the distance of each game from the start, twenty
    less the steps it has left, and a trace of that length that play can take; and its statistics count them. *)
Theorem explore_exact : (∀ fuel, 2 ^ 32 < Z.of_nat fuel → ∃ graph, explore fuel Micro = Some (Ok graph)) ∧
  ∀ fuel r, explore fuel Micro = Some r → ∃ graph, r = Ok graph ∧ whole graph.
Proof using Type. split; [exact explore_ends|exact explore_whole]. Qed.

(** ** Counterexamples *)

(** [C34] The search for a counterexample ends without an error: either it finds none, and every game that play can reach satisfies
    the predicate; or it gives a trace that play can take to a game that does not, and no violating game is nearer the start. *)
Theorem counterexample_shortest violates : (∀ fuel, 2 ^ 32 < Z.of_nat fuel → is_Some (shortest_counterexample fuel Micro violates)) ∧
  ∀ fuel r, shortest_counterexample fuel Micro violates = Some r →
    (r = Ok None ∧ ∀ g, reachable g → violates g = true) ∨
    ∃ ce g, r = Ok (Some ce) ∧ violates g = false ∧ reachable g ∧ trace_to model_actions model_step inits g (20 - steps_left g) ce ∧
      ∀ g', reachable g' → violates g' = false → steps_left g' ≤ steps_left g.
Proof using Type.
  assert (∀ fuel, 2 ^ 32 < Z.of_nat fuel → ∃ r, shortest_counterexample fuel Micro violates = Some r ∧ found model_actions model_step inits violates r) as Hs.
  { intros fuel Hf. apply (violation_exact model_actions model_step inits (Nat.le_refl 2) model_total violates fuel inits_distinct); [by vm_compute|done]. }
  split; [intros fuel (r & Hr & _)%Hs; by exists r|]. intros fuel r Hr.
  destruct (Hs (Nat.max fuel (S (Z.to_nat (2 ^ 32)))) ltac:(lia)) as (r' & Hr' & Hfound).
  pose proof (counterexample_more _ _ violates inits fuel (Nat.max fuel (S (Z.to_nat (2 ^ 32)))) r Hr ltac:(lia)) as Hm. unfold shortest_counterexample in Hr'.
  rewrite Hr' in Hm. injection Hm as ->. destruct r as [[ce|]|e|]; cbn [found] in Hfound; [|left|by destruct Hfound as [_ ?%enough_identifiers]|done].
  - right. destruct Hfound as (g & d & Hg & Htr & Hmin). pose proof (trace_path g d ce Htr) as Hp. exists ce, g. split; [done|]. split; [done|].
    assert (0 ≤ d) as Hd by (destruct Htr as (? & ? & _ & _ & _ & _ & <- & _); lia).
    assert (d = 20 - steps_left g) as -> by (apply distance; [done..|]; intros n Hn; by apply (Hmin n g)).
    split; [by apply (path_reachable _ g Hp)|]. split; [done|]. intros g' (n & Hn & Hlen)%reachable_near Hg'. specialize (Hmin n g' Hn Hg'). lia.
  - split; [done|]. intros g Hg. by apply Hfound, reached_reachable.
Qed.

(** ** The safety pass *)

(** The measurements of a property, zero when it has none *)
Definition tally (counts : Counts) (id : PropertyId) : PropertyMeasurements := default (no_evaluations id) (map_get id counts).

Definition tallies (counts : Counts) (s t : PropertyId → Z) : Prop :=
  ∀ id, tally counts id = {| measured := id; state_evaluations := s id; transition_evaluations := t id |}.

(** How often a property occurs in a list *)
Definition times (l : list PropertyId) (id : PropertyId) : Z := Z.of_nat (length (List.filter (λ p, bool_decide (p = id)) l)).

Lemma times_cons p l id : times (p :: l) id = times l id + if bool_decide (p = id) then 1 else 0.
Proof using Type. unfold times. cbn [List.filter]. case_bool_decide; cbn [length]; lia. Qed.

Lemma tally_of_insert counts p m id : tally (map_insert p m counts) id = if decide (id = p) then m else tally counts id.
Proof using Type. unfold tally. rewrite map_get_insert. by destruct (decide (id = p)). Qed.

Lemma tallies_state counts p s t : tallies counts s t → tallies (count_state p counts) (λ id, s id + if bool_decide (p = id) then 1 else 0) t.
Proof using Type.
  intros Hc id. unfold count_state. rewrite tally_of_insert. fold (tally counts p). rewrite (Hc p), (Hc id). cbn [measured state_evaluations transition_evaluations].
  destruct (decide (id = p)) as [->|Hne]; [by rewrite bool_decide_true|]. rewrite bool_decide_false by congruence. by rewrite Z.add_0_r.
Qed.

Lemma tallies_transition counts p s t : tallies counts s t → tallies (count_transition p counts) s (λ id, t id + if bool_decide (p = id) then 1 else 0).
Proof using Type.
  intros Hc id. unfold count_transition. rewrite tally_of_insert. fold (tally counts p). rewrite (Hc p), (Hc id). cbn [measured state_evaluations transition_evaluations].
  destruct (decide (id = p)) as [->|Hne]; [by rewrite bool_decide_true|]. rewrite bool_decide_false by congruence. by rewrite Z.add_0_r.
Qed.

Lemma tallies_ext counts s t s' t' : (∀ id, s id = s' id) → (∀ id, t id = t' id) → tallies counts s t → tallies counts s' t'.
Proof using Type. intros Hs Ht Hc id. by rewrite (Hc id), Hs, Ht. Qed.

Lemma states_counted graph specs id g ps : game_ok g → ∀ counts s t, tallies counts s t →
  ∃ counts', foldM (check_state_property graph specs id g) ps counts = Ok counts' ∧ tallies counts' (λ p, s p + times ps p) t.
Proof using Type.
  intros Hg. induction ps as [|p ps IH]; intros counts s t Hc; cbn [foldM].
  - eexists. split; [done|]. eapply tallies_ext; [..|exact Hc]; intros q; [|done]. change (times [] q) with 0. lia.
  - assert (check_state_property graph specs id g counts p = Ok (count_state p counts)) as -> by (unfold check_state_property; by rewrite (state_property p g Hg)).
    cbn [mbind outcome_bind].
    destruct (IH _ _ _ (tallies_state counts p s t Hc)) as (counts' & -> & Hc'). eexists. split; [done|].
    eapply tallies_ext; [..|exact Hc']; intros q; [|done]. cbn beta. rewrite times_cons. lia.
Qed.

Lemma transitions_counted graph specs e g a t ps : game_ok g → action_ok a = true → transition g a = Ok t → ∀ counts s n, tallies counts s n →
  ∃ counts', foldM (check_transition_property graph specs e g t) ps counts = Ok counts' ∧ tallies counts' s (λ p, n p + times ps p).
Proof using Type.
  intros Hg Ha Ht. induction ps as [|p ps IH]; intros counts s n Hc; cbn [foldM].
  - eexists. split; [done|]. eapply tallies_ext; [..|exact Hc]; intros q; [done|]. change (times [] q) with 0. lia.
  - assert (check_transition_property graph specs e g t counts p = Ok (count_transition p counts)) as ->
      by (unfold check_transition_property; by rewrite (transition_property p g a t Hg Ha Ht)).
    cbn [mbind outcome_bind].
    destruct (IH _ _ _ (tallies_transition counts p s n Hc)) as (counts' & -> & Hc'). eexists. split; [done|].
    eapply tallies_ext; [..|exact Hc']; intros q; [done|]. cbn beta. rewrite times_cons. lia.
Qed.

Lemma check_states_Ok graph specs states : Forall game_ok states → ∀ i counts s t, Z.of_nat (i + length states) ≤ 2 ^ 32 → tallies counts s t →
  ∃ counts', check_states graph specs i states counts = Ok counts' ∧ tallies counts' (λ p, s p + Z.of_nat (length states) * times STATE_PROPERTIES p) t.
Proof using Type.
  induction 1 as [|g states Hg _ IH]; intros i counts s t Hn Hc; cbn [check_states length] in *.
  - eexists. split; [done|]. eapply tallies_ext; [..|exact Hc]; intros q; [|done]. lia.
  - unfold checked, in_widthb. replace ((0 <=? Z.of_nat i) && (Z.of_nat i <? 2 ^ 32)) with true by lia. cbn [expect mbind outcome_bind].
    destruct (states_counted graph specs (StateIdOf (Z.of_nat i)) g STATE_PROPERTIES Hg counts s t Hc) as (c1 & -> & Hc1). cbn [mbind outcome_bind].
    destruct (IH (S i) c1 _ _ ltac:(lia) Hc1) as (c2 & -> & Hc2). eexists. split; [done|]. eapply tallies_ext; [..|exact Hc2]; intros q; [|done]. cbn beta. lia.
Qed.

(** The edges of a graph are steps the model takes from games that play reaches. *)
Definition edges_taken (graph : ExplicitGraph) : Prop := ∀ e, e ∈ g_edges graph →
  ∃ g t, graph_state graph (from e) = Some g ∧ reachable g ∧ action_ok (label e) = true ∧ transition g (label e) = Ok t.

Lemma check_edges_Ok graph specs edges : (∀ e, e ∈ edges → ∃ g t, graph_state graph (from e) = Some g ∧ reachable g ∧ action_ok (label e) = true ∧ transition g (label e) = Ok t) →
  ∀ counts s n, tallies counts s n →
  ∃ counts', foldM (check_edge graph specs) edges counts = Ok counts' ∧ tallies counts' s (λ p, n p + Z.of_nat (length edges) * times TRANSITION_PROPERTIES p).
Proof using Type.
  induction edges as [|e edges IH]; intros He counts s n Hc; cbn [foldM length].
  - eexists. split; [done|]. eapply tallies_ext; [..|exact Hc]; intros q; [done|]. lia.
  - destruct (He e ltac:(left)) as (g & t & Hg & Hok%reachable_ok & Ha & Ht).
    destruct (transitions_counted graph specs e g (label e) t TRANSITION_PROPERTIES Hok Ha Ht counts s n Hc) as (c1 & Hone & Hc1).
    assert (check_edge graph specs counts e = Ok c1) as -> by (unfold check_edge; rewrite Hg; cbn [expect mbind outcome_bind]; by rewrite Ht).
    cbn [mbind outcome_bind].
    destruct (IH ltac:(intros e' ?; apply He; by right) c1 _ _ Hc1) as (c2 & -> & Hc2). eexists. split; [done|].
    eapply tallies_ext; [..|exact Hc2]; intros q; [done|]. cbn beta. lia.
Qed.

Lemma map_get_other counts p id : id ≠ p → map_get id (List.filter (λ e : PropertyId * PropertyMeasurements, negb (bool_decide (e.1 = p))) counts) = map_get id counts.
Proof using Type.
  intros Hne. induction counts as [|[k m] counts IH]; [done|]. cbn [List.filter fst]. destruct (bool_decide_reflect (k = p)) as [->|Hk]; cbn [negb].
  - rewrite IH, map_get_cons. destruct (cmp p id) eqn:Hc; [|done..]. by apply cmp_Eq in Hc.
  - by rewrite !map_get_cons, IH.
Qed.

Lemma take_counts_tally specs : NoDup (property_id <$> specs) → ∀ counts, take_counts specs counts = (λ spec, tally counts (property_id spec)) <$> specs.
Proof using Type.
  induction specs as [|spec specs IH]; intros Hnd counts; [done|]. cbn [take_counts fmap list_fmap] in *. apply NoDup_cons in Hnd as [Hx Hnd]. f_equal.
  rewrite (IH Hnd). apply list_fmap_ext. intros i spec' Hs. unfold tally. rewrite map_get_other; [done|]. intros Heq. apply Hx. rewrite <-Heq.
  apply list_elem_of_fmap. exists spec'. split; [done|]. by apply list_elem_of_lookup_2 in Hs.
Qed.

(** The claims that are not about whole runs *)
Definition safety_claims : list PropertySpec := List.filter (λ spec, negb (bool_decide (property_id spec = UniversalTermination))) property_catalog.

(** Each state property once for each of [n] states, each transition property once for each of [m] edges *)
Definition evaluations (n m : nat) (spec : PropertySpec) : PropertyMeasurements :=
  {| measured := property_id spec; state_evaluations := if bool_decide (property_id spec ∈ STATE_PROPERTIES) then Z.of_nat n else 0;
     transition_evaluations := if bool_decide (property_id spec ∈ TRANSITION_PROPERTIES) then Z.of_nat m else 0 |}.

Lemma safety_sound graph : Forall reachable (g_states graph) → Z.of_nat (length (g_states graph)) ≤ 2 ^ 32 → edges_taken graph →
  check_safety_catalog graph = Ok {| report_properties := evaluations (length (g_states graph)) (length (g_edges graph)) <$> safety_claims;
                                     report_states := Z.of_nat (length (g_states graph)); report_transitions := Z.of_nat (length (g_edges graph)) |}.
Proof using Type.
  intros Hr Hn He. unfold check_safety_catalog.
  assert (tallies [] (λ _, 0) (λ _, 0)) as H0 by done.
  destruct (check_states_Ok graph (specs_of property_catalog) (g_states graph) (Forall_impl _ _ _ Hr reachable_ok) 0 [] _ _ Hn H0) as (c1 & -> & Hc1). cbn [mbind outcome_bind].
  destruct (check_edges_Ok graph (specs_of property_catalog) (g_edges graph) He c1 _ _ Hc1) as (c2 & -> & Hc2). cbn [mbind outcome_bind].
  f_equal. f_equal. fold safety_claims. rewrite take_counts_tally by (apply (bool_decide_eq_true_1 (NoDup _)); by vm_compute).
  apply list_fmap_ext. intros i spec _. rewrite (Hc2 (property_id spec)). unfold evaluations.
  set (n := length (g_states graph)). set (m := length (g_edges graph)). clearbody n m. clear. destruct (property_id spec);
    (repeat match goal with |- context [bool_decide (?p ∈ ?l)] => let k := eval vm_compute in (bool_decide (p ∈ l)) in change (bool_decide (p ∈ l)) with k end;
     repeat match goal with |- context [times ?l ?p] => let k := eval vm_compute in (times l p) in change (times l p) with k end; f_equal; lia).
Qed.

(** [C35] The safety pass accepts every graph the explorer makes, with or without a limit on its states: it evaluates each property
    of states once for each state and each property of transitions once for each edge, none is false and none fails, and its report
    counts them. *)
Theorem safety_pass fuel config graph : explore_with_config fuel Micro config = Some (Ok graph) →
  check_safety_catalog graph = Ok {| report_properties := evaluations (length (g_states graph)) (length (g_edges graph)) <$> safety_claims;
                                     report_states := Z.of_nat (length (g_states graph)); report_transitions := Z.of_nat (length (g_edges graph)) |}.
Proof using Type.
  intros (s & [= ->] & Hs & _)%explored. pose proof (s_table _ _ _ _ _ Hs) as Htab.
  assert (Forall reachable (c_states (columns s))) as Hr by (apply Forall_forall; intros g Hg; by apply reached_reachable, (table_reached _ _ _ (columns s))).
  apply safety_sound; cbn [graph_of g_states]; [done|apply Htab|]. intros e He.
  pose proof (proj1 (Forall_forall _ _) (s_edges _ _ _ _ _ Hs) e He) as (_ & _ & g & g' & Hg & Ho & Hst & _).
  pose proof (proj1 (Forall_forall _ _) Hr g (list_elem_of_lookup_2 _ _ _ Hg)) as Hgr. apply (offered_accepted g _ (reachable_ok g Hgr)) in Ho as [Ha _].
  unfold model_step in Hst. destruct (transition g (label e)) as [t| |] eqn:Ht; [|done..]. by exists g, t.
Qed.
End Model.

(** ** Concrete cases *)

Lemma explore_exact_witness : ∃ graph, explore (H := Formal.sequential_weavy) (Z.to_nat (2 ^ 32 + 1)) Micro = Some (Ok graph) ∧ whole (H := Formal.sequential_weavy) graph.
Proof.
  destruct (explore_exact (H := Formal.sequential_weavy)) as [Hends Hexact]. assert (2 ^ 32 < Z.of_nat (Z.to_nat (2 ^ 32 + 1))) as Hf by lia.
  destruct (Hends _ Hf) as (graph & Hg). destruct (Hexact _ _ Hg) as (graph' & Heq & Hw). exists graph. split; [exact Hg|]. injection Heq as ->. exact Hw.
Defined.

Module CheckSample.
(** Play has not left the deal. *)
Definition undealt (g : Game) : bool := bool_decide (game_phase g = PhAwaitingDeal).
Definition one_step : option (outcome GameError (option (Counterexample Game ModelAction))) := shortest_counterexample (H := Formal.sequential_weavy) 2 Micro undealt.
Definition graph_or_empty : ExplicitGraph :=
  match explore_with_config (H := Formal.sequential_weavy) 2 Micro {| state_limit := Some 10 |} with
  | Some (Ok graph) => graph
  | _ => mkExplicitGraph Micro [] [] [] [] [] (mkExplorationStats 0 0 0 0 0 0 StateLimitReached)
  end.
End CheckSample.

Lemma counterexample_shortest_witness : ∃ ce g, CheckSample.one_step = Some (Ok (Some ce)) ∧ depth ce = 1 ∧ CheckSample.undealt g = false ∧
  trace_to (model_actions (H := Formal.sequential_weavy)) (model_step (H := Formal.sequential_weavy)) (scope_initial_states Micro) g (20 - steps_left g) ce.
Proof.
  destruct (counterexample_shortest (H := Formal.sequential_weavy) CheckSample.undealt) as [_ Hexact].
  assert (match CheckSample.one_step with Some (Ok (Some ce)) => depth ce =? 1 | _ => false end = true) as Hc by (vm_compute; reflexivity).
  destruct CheckSample.one_step as [[[ce|]|e|]|] eqn:Ha; try discriminate Hc.
  destruct (Hexact 2%nat _ Ha) as [[Hn _]|(ce' & g & Heq & Hg & _ & Ht & _)]; [discriminate Hn|]. injection Heq as ->. exists ce', g.
  split; [reflexivity|]. split; [exact (proj1 (Z.eqb_eq _ _) Hc)|]. split; [exact Hg|exact Ht].
Defined.

Lemma safety_pass_witness : length (g_states CheckSample.graph_or_empty) = 10%nat ∧ length (g_edges CheckSample.graph_or_empty) = 8%nat ∧
  check_safety_catalog (H := Formal.sequential_weavy) CheckSample.graph_or_empty =
    Ok {| report_properties := evaluations 10 8 <$> safety_claims; report_states := 10; report_transitions := 8 |}.
Proof.
  assert (explore_with_config (H := Formal.sequential_weavy) 2 Micro {| state_limit := Some 10 |} = Some (Ok CheckSample.graph_or_empty)) as Hg by (vm_compute; reflexivity).
  assert (length (g_states CheckSample.graph_or_empty) = 10%nat) as Hn by (vm_compute; reflexivity). assert (length (g_edges CheckSample.graph_or_empty) = 8%nat) as Hm by (vm_compute; reflexivity).
  pose proof (safety_pass (H := Formal.sequential_weavy) 2 {| state_limit := Some 10 |} CheckSample.graph_or_empty Hg) as Hs. rewrite Hn, Hm in Hs.
  split; [exact Hn|]. split; [exact Hm|]. exact Hs.
Defined.
