(* ===== verification/LivenessCsr.v ===== *)
(** * The liveness pass: adjacency and components

    The compressed rows hold the successors of each state in order; on a graph whose
    edges descend a rank, apart from loops, every component is a single state. *)

From Stdlib Require Import ZifyBool.
From stdpp Require Import base strings numbers option list.
From S2P Require Import Prelude Domain Formal ModelFinite ModelKernels ModelState ModelSemantics Explore ExploreTheorems Liveness.

Local Open Scope Z_scope.

Lemma vec_set_Ok {E A} (v : list A) i x : (i < length v)%nat → vec_set (E := E) v i x = Ok (<[i := x]> v).
Proof. intros Hi. unfold vec_set. by rewrite decide_True. Qed.

Lemma vec_get_Ok {E A} (v : list A) i x : v !! i = Some x → vec_get (E := E) v i = Ok x.
Proof. intros Hi. unfold vec_get. by rewrite Hi. Qed.

(** ** Rows *)

(** The successors of a state among pairs of a state and a successor *)
Definition row (pairs : list (StateId * StateId)) (i : nat) : list StateId :=
  snd <$> List.filter (λ p, bool_decide (p.1 = id_of i)) pairs.

Definition row_sizes (pairs : list (StateId * StateId)) (n : nat) : list nat := (λ i, length (row pairs i)) <$> seq 0 n.

(** The pairs a graph is analysed with: its edges but those of the state whose successors are removed, then the injected one. *)
Definition edge_pairs (removed_successors : option StateId) (edges : list (Edge ModelAction)) : list (StateId * StateId) :=
  (λ e, (from e, to e)) <$> List.filter (λ e, negb (removed removed_successors e)) edges.

Definition pairs_of (edges : list (Edge ModelAction)) (injected : option (StateId * StateId)) (removed_successors : option StateId) : list (StateId * StateId) :=
  edge_pairs removed_successors edges ++ option_list injected.

Definition inside (n : nat) (p : StateId * StateId) : Prop := ∃ i j, p = (id_of i, id_of j) ∧ (i < n)%nat ∧ (j < n)%nat.

Lemma row_snoc pairs i j k : row (pairs ++ [(id_of i, j)]) k = row pairs k ++ (if decide (k = i) then [j] else []).
Proof.
  unfold row. rewrite List.filter_app, fmap_app. f_equal. cbn [List.filter fst]. case_decide as Hk; [subst k; by rewrite bool_decide_true|].
  by rewrite bool_decide_false by by intros ?%(inj id_of).
Qed.

Lemma row_sizes_lookup pairs n i : (i < n)%nat → row_sizes pairs n !! i = Some (length (row pairs i)).
Proof. intros Hi. unfold row_sizes. by rewrite list_lookup_fmap, lookup_seq_lt. Qed.

Lemma row_sizes_length pairs n : length (row_sizes pairs n) = n.
Proof. unfold row_sizes. by rewrite length_fmap, length_seq. Qed.

Lemma row_sizes_snoc pairs n i j : (i < n)%nat → row_sizes (pairs ++ [(id_of i, j)]) n = <[i := S (length (row pairs i))]> (row_sizes pairs n).
Proof.
  intros Hi. apply list_eq. intros k. destruct (decide (k < n)%nat) as [Hk|Hk].
  - rewrite row_sizes_lookup by done. rewrite row_snoc. destruct (decide (k = i)) as [->|Hne].
    + rewrite list_lookup_insert_eq by (by rewrite row_sizes_length). rewrite length_app. cbn. f_equal. lia.
    + rewrite list_lookup_insert_ne, row_sizes_lookup by done. by rewrite app_nil_r.
  - rewrite !lookup_ge_None_2; [done| |]; rewrite ?length_insert, row_sizes_length; lia.
Qed.

(** The sizes of the rows add up to the pairs. *)
Lemma sum_insert (l : list nat) i x : l !! i = Some x → sum_list (<[i := S x]> l) = S (sum_list l).
Proof.
  revert i. induction l as [|y l IH]; intros [|i]; [done..|by intros [= ->]|]. intros Hi. change (<[S i := S x]> (y :: l)) with (y :: <[i := S x]> l).
  cbn [sum_list_with id]. rewrite (IH i Hi). lia.
Qed.

Lemma sum_sizes pairs n : Forall (inside n) pairs → sum_list (row_sizes pairs n) = length pairs.
Proof.
  induction pairs as [|p pairs IH] using rev_ind; intros Hp.
  - unfold row_sizes, row. cbn. induction (seq 0 n) as [|i l IHl]; [done|]. cbn. by rewrite IHl.
  - apply Forall_app in Hp as [Hp (i & j & -> & Hi & Hj)%Forall_inv]. rewrite row_sizes_snoc by done.
    rewrite (sum_insert _ i _ (row_sizes_lookup pairs n i Hi)), IH, length_app by done. cbn. lia.
Qed.

Lemma length_row_le pairs i : (length (row pairs i) ≤ length pairs)%nat.
Proof. unfold row. rewrite length_fmap. induction pairs as [|p pairs IH]; [done|]. cbn. destruct (bool_decide _); cbn; lia. Qed.

(** ** Counting *)

Definition z_sizes (pairs : list (StateId * StateId)) (n : nat) : list Z := Z.of_nat <$> row_sizes pairs n.

Lemma z_sizes_insert pairs n i j : (i < n)%nat → z_sizes (pairs ++ [(id_of i, j)]) n = <[i := Z.of_nat (length (row pairs i)) + 1]> (z_sizes pairs n).
Proof. intros Hi. unfold z_sizes. rewrite row_sizes_snoc by done. rewrite list_fmap_insert. do 2 f_equal. lia. Qed.

Lemma z_sizes_length pairs n : length (z_sizes pairs n) = n.
Proof. unfold z_sizes. by rewrite length_fmap, row_sizes_length. Qed.

Lemma z_sizes_lookup pairs n i : (i < n)%nat → z_sizes pairs n !! i = Some (Z.of_nat (length (row pairs i))).
Proof. intros Hi. unfold z_sizes. by rewrite list_lookup_fmap, row_sizes_lookup. Qed.

Lemma edge_pairs_cons r e edges : edge_pairs r (e :: edges) = (if removed r e then [] else [(from e, to e)]) ++ edge_pairs r edges.
Proof. unfold edge_pairs. cbn. by destruct (removed r e). Qed.

Lemma count_kept r n pairs e i j : removed r e = false → from e = id_of i → to e = id_of j → (i < n)%nat → Z.of_nat (length pairs) + 1 < 2 ^ 64 →
  count_edge r (z_sizes pairs n) e = Ok (z_sizes (pairs ++ [(from e, to e)]) n).
Proof.
  intros Hr Hf Ht Hi Hlen. unfold count_edge. rewrite Hr, Hf, Ht, index_id_of, z_sizes_lookup by done. cbn [ok_or mbind outcome_bind]. pose proof (length_row_le pairs i).
  unfold checked, in_widthb. replace ((0 <=? Z.of_nat (length (row pairs i)) + 1) && (Z.of_nat (length (row pairs i)) + 1 <? 2 ^ 64)) with true by lia.
  cbn [ok_or mbind outcome_bind]. rewrite vec_set_Ok by by rewrite z_sizes_length. by rewrite (z_sizes_insert _ _ _ (id_of j)).
Qed.

Lemma count_edges r n : ∀ edges pairs, Forall (inside n) (edge_pairs r edges) → (Z.of_nat (length (pairs ++ edge_pairs r edges)) < 2 ^ 64) →
  foldM (count_edge r) edges (z_sizes pairs n) = Ok (z_sizes (pairs ++ edge_pairs r edges) n).
Proof.
  induction edges as [|e edges IH]; intros pairs Hin Hlen; cbn [foldM]; [by rewrite app_nil_r|]. rewrite edge_pairs_cons in *.
  destruct (removed r e) eqn:Hr.
  - assert (count_edge r (z_sizes pairs n) e = Ok (z_sizes pairs n)) as -> by (unfold count_edge; by rewrite Hr). by apply IH.
  - apply Forall_app in Hin as [(i & j & Heq & Hi & Hj)%Forall_inv Hin]. injection Heq as Hf Ht. rewrite app_assoc in *.
    rewrite (count_kept r n pairs e i j); [cbn [mbind outcome_bind]; by apply IH|done..|]. rewrite !length_app in Hlen. cbn [length] in Hlen. lia.
Qed.

(** ** Offsets *)

Definition offset (sizes : list nat) (i : nat) : nat := sum_list (take i sizes).

Lemma sum_list_app (l l' : list nat) : sum_list (l ++ l') = (sum_list l + sum_list l')%nat.
Proof. induction l as [|x l IH]; [done|]. cbn. rewrite IH. lia. Qed.

Lemma offset_succ sizes i x : sizes !! i = Some x → offset sizes (S i) = (offset sizes i + x)%nat.
Proof. intros Hi. unfold offset. rewrite (take_S_r _ _ _ Hi), sum_list_app. cbn. lia. Qed.

Lemma offset_mono sizes i j : (i ≤ j)%nat → (offset sizes i ≤ offset sizes j)%nat.
Proof. intros Hij. unfold offset. replace j with (i + (j - i))%nat by lia. rewrite <-take_take_drop, sum_list_app. lia. Qed.

Lemma offset_total sizes i : (offset sizes i ≤ sum_list sizes)%nat.
Proof. unfold offset. rewrite <-(take_drop i sizes) at 2. rewrite sum_list_app. lia. Qed.

Lemma offsets_from_Ok sizes : ∀ start, Z.of_nat start + Z.of_nat (sum_list sizes) < 2 ^ 64 →
  offsets_from (Z.of_nat start) (Z.of_nat <$> sizes) = Ok ((λ i, Z.of_nat (start + offset sizes i)) <$> seq 0 (S (length sizes))).
Proof.
  induction sizes as [|x sizes IH]; intros start Hs; cbn [fmap list_fmap offsets_from]; [cbn; do 2 f_equal; unfold offset; cbn; lia|].
  change (sum_list (x :: sizes)) with (x + sum_list sizes)%nat in Hs. unfold checked, in_widthb.
  replace ((0 <=? Z.of_nat start + Z.of_nat x) && (Z.of_nat start + Z.of_nat x <? 2 ^ 64)) with true by lia. cbn [ok_or mbind outcome_bind].
  rewrite <-Nat2Z.inj_add, IH by lia. cbn [mbind outcome_bind]. f_equal. cbn [length].
  change (seq 0 (S (S (length sizes)))) with (0%nat :: seq 1 (S (length sizes))). cbn [fmap list_fmap]. f_equal; [unfold offset; cbn; lia|].
  rewrite <-(fmap_S_seq 0), <-list_fmap_compose. apply list_fmap_ext. intros k i _. cbn [compose]. unfold offset. cbn [take].
  change (sum_list (x :: take i sizes)) with (x + sum_list (take i sizes))%nat. lia.
Qed.

(** ** Placing *)

(** The rows that hold [placed] of all the pairs *)
Record rows (pairs placed : list (StateId * StateId)) (n : nat) (ts : list StateId) (cs : list Z) : Prop := {
  r_total : length ts = sum_list (row_sizes pairs n);
  r_cursors : cs = (λ i, Z.of_nat (offset (row_sizes pairs n) i + length (row placed i))) <$> seq 0 n;
  r_entries i k x : (i < n)%nat → row placed i !! k = Some x → ts !! (offset (row_sizes pairs n) i + k)%nat = Some x;
}.

Lemma row_app pairs pairs' i : row (pairs ++ pairs') i = row pairs i ++ row pairs' i.
Proof. unfold row. by rewrite List.filter_app, fmap_app. Qed.

Lemma cursor_lookup (f : nat → Z) n i : (i < n)%nat → (f <$> seq 0 n) !! i = Some (f i).
Proof. intros Hi. by rewrite list_lookup_fmap, lookup_seq_lt. Qed.

Lemma cursor_insert (f g : nat → Z) n i x : (i < n)%nat → g i = x → (∀ j, j ≠ i → g j = f j) → <[i := x]> (f <$> seq 0 n) = g <$> seq 0 n.
Proof.
  intros Hi Hx Hg. apply list_eq. intros k. destruct (decide (k < n)%nat) as [Hk|Hk].
  - rewrite (cursor_lookup g) by done. destruct (decide (k = i)) as [->|Hne].
    + rewrite list_lookup_insert_eq by (by rewrite length_fmap, length_seq). by rewrite Hx.
    + rewrite list_lookup_insert_ne, cursor_lookup by done. by rewrite Hg.
  - rewrite !lookup_ge_None_2; [done| |]; rewrite ?length_insert, length_fmap, length_seq; lia.
Qed.

(** A place in a row is before the next row, and in no other. *)
Lemma place_bound pairs n i k : (i < n)%nat → (k < length (row pairs i))%nat →
  (offset (row_sizes pairs n) i + k < offset (row_sizes pairs n) (S i) ∧ offset (row_sizes pairs n) (S i) ≤ sum_list (row_sizes pairs n))%nat.
Proof. intros Hi Hk. rewrite (offset_succ _ i _ (row_sizes_lookup pairs n i Hi)). pose proof (offset_total (row_sizes pairs n) (S i)) as Ht. rewrite (offset_succ _ i _ (row_sizes_lookup pairs n i Hi)) in Ht. lia. Qed.

Lemma place_apart pairs n i k j l : (i < n)%nat → (j < n)%nat → (k < length (row pairs i))%nat → (l < length (row pairs j))%nat →
  (offset (row_sizes pairs n) i + k)%nat = (offset (row_sizes pairs n) j + l)%nat → i = j ∧ k = l.
Proof.
  intros Hi Hj Hk Hl Heq. pose proof (place_bound pairs n i k Hi Hk) as [Hb _]. pose proof (place_bound pairs n j l Hj Hl) as [Hb' _].
  destruct (decide (i < j)%nat) as [Hlt|Hge]; [pose proof (offset_mono (row_sizes pairs n) (S i) j ltac:(lia)); lia|].
  destruct (decide (j < i)%nat) as [Hlt|Hge']; [pose proof (offset_mono (row_sizes pairs n) (S j) i ltac:(lia)); lia|].
  assert (i = j) as -> by lia. lia.
Qed.

Lemma rows_place pairs placed rest n ts cs i x : pairs = placed ++ (id_of i, x) :: rest → (i < n)%nat → rows pairs placed n ts cs →
  ∃ c, cs !! i = Some (Z.of_nat c) ∧ (c < length ts)%nat ∧ rows pairs (placed ++ [(id_of i, x)]) n (<[c := x]> ts) (<[i := Z.of_nat (c + 1)]> cs).
Proof.
  intros Hpairs Hi [Ht -> He]. set (c := (offset (row_sizes pairs n) i + length (row placed i))%nat). exists c.
  assert (∀ j, row pairs j = row placed j ++ (if decide (j = i) then [x] else []) ++ row rest j) as Hrow.
  { intros j. rewrite Hpairs, cons_middle, app_assoc, row_app, row_snoc. by rewrite <-app_assoc. }
  assert (length (row placed i) < length (row pairs i))%nat as Hlt by (rewrite Hrow, decide_True, !length_app by done; cbn; lia).
  pose proof (place_bound pairs n i _ Hi Hlt) as [Hb Hb']. split; [by rewrite (cursor_lookup _ n i Hi)|]. split; [subst c; lia|].
  split; [by rewrite length_insert| |].
  - apply cursor_insert; [done|rewrite row_snoc, decide_True, length_app by done; subst c; cbn; lia|]. intros j Hj. by rewrite row_snoc, decide_False, app_nil_r by done.
  - intros j k y Hj Hk. rewrite row_snoc in Hk. apply lookup_app_Some in Hk as [Hk|[Hge Hk]].
    + rewrite list_lookup_insert_ne; [by apply He|]. intros Heq. apply lookup_lt_Some in Hk.
      assert (k < length (row pairs j))%nat by (rewrite Hrow, length_app; lia). destruct (place_apart pairs n i _ j k Hi Hj Hlt ltac:(lia) Heq) as [Hij Hkl]. subst j. lia.
    + case_decide as Hji; [subst j|by apply elem_of_nil in Hk || (exfalso; destruct (k - _)%nat; discriminate Hk)].
      destruct (k - length (row placed i))%nat as [|?] eqn:Hki; [|by destruct n0]. cbn in Hk. injection Hk as ->.
      replace (offset (row_sizes pairs n) i + k)%nat with c by (subst c; lia). apply list_lookup_insert_eq. subst c. lia.
Qed.

Lemma place_kept r pairs placed rest n ts cs e i j : removed r e = false → from e = id_of i → to e = id_of j → (i < n)%nat →
  pairs = placed ++ (from e, to e) :: rest → Z.of_nat (length ts) < 2 ^ 64 → rows pairs placed n ts cs →
  ∃ ts' cs', place_edge r (ts, cs) e = Ok (ts', cs') ∧ length ts' = length ts ∧ rows pairs (placed ++ [(from e, to e)]) n ts' cs'.
Proof.
  intros Hr Hf Ht Hi Hpairs Hlen Hrows. rewrite Hf in Hpairs |- *. destruct (rows_place pairs placed rest n ts cs i (to e) Hpairs Hi Hrows) as (c & Hc & Hlt & Hrows').
  eexists _, _. split; [|split; [|exact Hrows']]; [|by rewrite length_insert].
  unfold place_edge. rewrite Hr, Hf, index_id_of, (vec_get_Ok _ _ _ Hc). cbn [mbind outcome_bind]. rewrite Nat2Z.id, vec_set_Ok by done. cbn [mbind outcome_bind].
  unfold u_add, checked, in_widthb. replace ((0 <=? Z.of_nat c + 1) && (Z.of_nat c + 1 <? 2 ^ 64)) with true by lia. cbn [expect mbind outcome_bind].
  rewrite vec_set_Ok by (by apply lookup_lt_Some in Hc). cbn [mbind outcome_bind]. do 3 f_equal. lia.
Qed.

Lemma place_edges r pairs n : Forall (inside n) pairs → ∀ edges placed rest ts cs, pairs = placed ++ edge_pairs r edges ++ rest →
  Z.of_nat (length ts) < 2 ^ 64 → rows pairs placed n ts cs →
  ∃ ts' cs', foldM (place_edge r) edges (ts, cs) = Ok (ts', cs') ∧ rows pairs (placed ++ edge_pairs r edges) n ts' cs'.
Proof.
  intros Hin. induction edges as [|e edges IH]; intros placed rest ts cs Hpairs Hlen Hrows; cbn [foldM].
  { exists ts, cs. split; [done|]. by rewrite app_nil_r. }
  rewrite edge_pairs_cons in *. destruct (removed r e) eqn:Hr.
  - assert (place_edge r (ts, cs) e = Ok (ts, cs)) as -> by (unfold place_edge; by rewrite Hr). by apply (IH placed rest).
  - cbn [app] in *. assert (inside n (from e, to e)) as (i & j & [= Hf Ht] & Hi & Hj).
    { apply (proj1 (Forall_forall _ _) Hin). rewrite Hpairs, elem_of_app. right. left. }
    destruct (place_kept r pairs placed (edge_pairs r edges ++ rest) n ts cs e i j Hr Hf Ht Hi Hpairs Hlen Hrows) as (ts' & cs' & -> & Hts & Hrows').
    cbn [mbind outcome_bind]. destruct (IH (placed ++ [(from e, to e)]) rest ts' cs') as (ts2 & cs2 & H2 & Hrows2); [by rewrite <-app_assoc|by rewrite Hts|done|].
    exists ts2, cs2. split; [exact H2|]. by rewrite <-app_assoc in Hrows2.
Qed.

(** ** The adjacency of a graph *)

(** An adjacency whose rows are those of the pairs *)
Definition adjacent (pairs : list (StateId * StateId)) (n : nat) (adjacency : Csr) : Prop :=
  csr_states adjacency = n ∧ ∀ i E, (i < n)%nat → neighbors (E := E) adjacency (id_of i) = Ok (row pairs i).

Lemma rows_neighbors pairs n ts cs : rows pairs pairs n ts cs →
  adjacent pairs n {| offsets := (λ i, Z.of_nat (offset (row_sizes pairs n) i)) <$> seq 0 (S n); targets := ts |}.
Proof.
  intros [Ht _ He]. split; [unfold csr_states; cbn [offsets]; by rewrite length_fmap, length_seq|]. intros i E Hi. unfold neighbors. cbn [offsets targets]. rewrite index_id_of.
  rewrite (vec_get_Ok _ _ _ (cursor_lookup (λ i, Z.of_nat (offset (row_sizes pairs n) i)) (S n) i ltac:(lia))). cbn [mbind outcome_bind].
  rewrite (vec_get_Ok _ _ _ (cursor_lookup (λ i, Z.of_nat (offset (row_sizes pairs n) i)) (S n) (S i) ltac:(lia))). cbn [mbind outcome_bind].
  pose proof (offset_succ _ i _ (row_sizes_lookup pairs n i Hi)) as Hs. pose proof (offset_total (row_sizes pairs n) (S i)) as Htot. rewrite <-Ht in Htot.
  replace ((Z.of_nat (offset (row_sizes pairs n) i) <=? Z.of_nat (offset (row_sizes pairs n) (S i))) && (Z.of_nat (offset (row_sizes pairs n) (S i)) <=? Z.of_nat (length ts))) with true by lia.
  f_equal. rewrite <-Nat2Z.inj_sub, !Nat2Z.id by lia. replace (offset (row_sizes pairs n) (S i) - offset (row_sizes pairs n) i)%nat with (length (row pairs i)) by lia.
  apply list_eq_same_length with (n := length (row pairs i)); [done|rewrite length_take, length_drop; lia|]. intros k x y Hk Hx Hy.
  rewrite lookup_take_lt in Hx by done. rewrite lookup_drop in Hx. rewrite (He i k y Hi Hy) in Hx. congruence.
Qed.

Lemma z_sizes_nil n : z_sizes [] n = replicate n 0.
Proof.
  unfold z_sizes, row_sizes. rewrite <-list_fmap_compose. assert (∀ k, (Z.of_nat ∘ λ i, length (row [] i)) <$> seq k n = replicate n 0) as Hk; [|apply Hk].
  induction n as [|n IH]; intros k; [done|]. cbn [seq fmap list_fmap replicate]. by rewrite IH.
Qed.

Lemma csr_Ok graph injected r : let pairs := pairs_of (g_edges graph) injected r in let n := length (g_states graph) in
  Forall (inside n) pairs → Z.of_nat (length pairs) < 2 ^ 64 → ∃ adjacency, csr_from_graph graph injected r = Ok adjacency ∧ adjacent pairs n adjacency.
Proof.
  intros pairs n Hin Hlen. unfold csr_from_graph. fold n.
  rewrite <-z_sizes_nil.
  pose proof Hlen as Hlen'. pose proof Hin as Hin'. unfold pairs, pairs_of in Hin'. apply Forall_app in Hin' as [He Hinj]. unfold pairs, pairs_of in Hlen. rewrite length_app in Hlen.
  rewrite count_edges by (try done; cbn [app]; lia). cbn [app mbind outcome_bind].
  assert ((match injected with
           | Some (source, goal) =>
               if (bool_decide (n ≤ index source) || bool_decide (n ≤ index goal))%nat then absent "injected edge endpoint is absent"
               else count ← vec_get (z_sizes (edge_pairs r (g_edges graph)) n) (index source); count ← u_add 64 count 1; vec_set (z_sizes (edge_pairs r (g_edges graph)) n) (index source) count
           | None => Ok (z_sizes (edge_pairs r (g_edges graph)) n)
           end : outcome LivenessError (list Z)) = Ok (z_sizes pairs n)) as ->.
  { unfold pairs, pairs_of. destruct injected as [[source goal]|]; cbn [option_list option_rect] in *; [|by rewrite app_nil_r]. apply Forall_inv in Hinj as (i & j & [= -> ->] & Hi & Hj).
    rewrite !index_id_of, !bool_decide_false by lia. cbn [orb]. rewrite (vec_get_Ok _ _ _ (z_sizes_lookup _ n i Hi)). cbn [mbind outcome_bind].
    pose proof (length_row_le (edge_pairs r (g_edges graph)) i) as Hle. cbn [length] in Hlen. unfold u_add, checked, in_widthb.
    replace ((0 <=? Z.of_nat (length (row (edge_pairs r (g_edges graph)) i)) + 1) && (Z.of_nat (length (row (edge_pairs r (g_edges graph)) i)) + 1 <? 2 ^ 64)) with true by lia.
    cbn [expect mbind outcome_bind]. rewrite vec_set_Ok by by rewrite z_sizes_length. by rewrite (z_sizes_insert _ _ _ (id_of j)). }
  cbn [mbind outcome_bind]. unfold from_counts_and_edges. rewrite z_sizes_length. unfold z_sizes. pose proof (sum_sizes pairs n Hin) as Hsum.
  change (offsets_from 0) with (offsets_from (Z.of_nat 0)). rewrite offsets_from_Ok by lia. rewrite row_sizes_length. cbn [mbind outcome_bind].
  rewrite (vec_get_Ok _ _ _ (cursor_lookup (λ i, Z.of_nat (0 + offset (row_sizes pairs n) i)) (S n) n ltac:(lia))). cbn [mbind outcome_bind]. rewrite Nat2Z.id.
  assert (offset (row_sizes pairs n) n = sum_list (row_sizes pairs n)) as Htot by (unfold offset; by rewrite take_ge by (rewrite row_sizes_length; lia)).
  assert (rows pairs [] n (replicate (0 + offset (row_sizes pairs n) n) (StateIdOf 0)) (take n ((λ i, Z.of_nat (0 + offset (row_sizes pairs n) i)) <$> seq 0 (S n)))) as H0.
  { split; [by rewrite length_replicate| |by intros i k x _ Hk; destruct k; discriminate Hk].
    rewrite seq_S, fmap_app, take_app_length' by (by rewrite length_fmap, length_seq). apply list_fmap_ext. intros k i _. change (length (row [] i)) with 0%nat. f_equal. lia. }
  assert (Z.of_nat (length (replicate (0 + offset (row_sizes pairs n) n) (StateIdOf 0))) < 2 ^ 64) as Hts by (rewrite length_replicate; lia).
  destruct (place_edges r pairs n Hin (g_edges graph) [] (option_list injected) _ _ eq_refl Hts H0) as (ts & cs & -> & Hrows). cbn [app mbind outcome_bind] in *.
  destruct injected as [[source goal]|]; cbn [option_list option_rect] in *.
  - apply Forall_inv in Hinj as (i & j & [= -> ->] & Hi & Hj). destruct (rows_place pairs _ [] n ts cs i (id_of j) eq_refl Hi Hrows) as (c & Hc & Hlt & Hrows').
    rewrite index_id_of, (vec_get_Ok _ _ _ Hc). cbn [mbind outcome_bind]. rewrite Nat2Z.id, vec_set_Ok by done. cbn [mbind outcome_bind]. eexists. split; [done|].
    by apply (rows_neighbors pairs n _ _ Hrows').
  - eexists. split; [done|]. apply (rows_neighbors pairs n ts cs). unfold pairs at 2, pairs_of. cbn [option_list option_rect]. by rewrite app_nil_r.
Qed.
