(* ===== verification/LivenessScc.v ===== *)
(** * The liveness pass: components

    Tarjan's search gives two states the same component exactly when each can reach
    the other.  The invariant is stated over three classes of states: those not seen,
    those on the stack, and those whose component is known. *)

From Stdlib Require Import ZifyBool.
From stdpp Require Import base strings numbers option list relations.
From S2P Require Import Prelude Domain Formal ModelFinite ModelState Explore ExploreTheorems Liveness LivenessCsr.

Local Open Scope Z_scope.

(** ** Arrays *)

Lemma lookup_set {A} (l : list A) i j x : (i < length l)%nat → <[i := x]> l !! j = if decide (j = i) then Some x else l !! j.
Proof. intros Hi. destruct (decide (j = i)) as [->|Hne]; [by apply list_lookup_insert_eq|by apply list_lookup_insert_ne]. Qed.

(** ** Popping a component *)

Lemma pop_Ok {E} x c st : ∀ s on comp size, x ∉ s → (∀ v, v ∈ s ++ [x] → (v < length on)%nat ∧ (v < length comp)%nat) →
  ∃ on' comp', pop_component (E := E) (id_of x) c (id_of <$> (s ++ x :: st)) on comp size = Ok (id_of <$> st, on', comp', size + Z.of_nat (S (length s))) ∧
    length on' = length on ∧ length comp' = length comp ∧ (∀ v, on' !! v = if decide (v ∈ s ++ [x]) then Some false else on !! v) ∧
    (∀ v, comp' !! v = if decide (v ∈ s ++ [x]) then Some c else comp !! v).
Proof.
  induction s as [|w s IH]; intros on comp size Hx Hb.
  - destruct (Hb x ltac:(left)) as [H1 H2]. exists (<[x := false]> on), (<[x := c]> comp). cbn [app fmap list_fmap pop_component]. rewrite index_id_of, !vec_set_Ok by done.
    cbn [mbind outcome_bind]. rewrite bool_decide_true by done. rewrite !length_insert. split; [done|]. split; [done|]. split; [done|].
    split; intros v; rewrite lookup_set by done; destruct (decide (v = x)) as [->|Hne]; [by rewrite decide_True by left|by rewrite decide_False by by rewrite list_elem_of_singleton
      |by rewrite decide_True by left|by rewrite decide_False by by rewrite list_elem_of_singleton].
  - apply not_elem_of_cons in Hx as [Hwx Hx]. destruct (Hb w ltac:(left)) as [H1 H2]. cbn [app fmap list_fmap pop_component]. rewrite index_id_of, !vec_set_Ok by done.
    cbn [mbind outcome_bind]. rewrite bool_decide_false by by intros ?%(inj id_of).
    destruct (IH (<[w := false]> on) (<[w := c]> comp) (size + 1) Hx) as (on' & comp' & Hp & Hlo & Hlc & Ho & Hc).
    { intros v Hv. rewrite !length_insert. apply Hb. by right. }
    rewrite length_insert in Hlo. rewrite length_insert in Hlc. exists on', comp'. split; [|split; [done|split; [done|]]].
    + etrans; [exact Hp|]. cbn [length]. do 2 f_equal. lia.
    + split; intros v; [rewrite Ho|rewrite Hc]; rewrite lookup_set by done; destruct (decide (v ∈ s ++ [x])) as [Hv|Hv].
      1,3: by rewrite decide_True by by right.
      all: destruct (decide (v = w)) as [->|Hne]; [by rewrite decide_True by left|by rewrite decide_False by (rewrite elem_of_cons; naive_solver)].
Qed.

Section Components.
Variable n : nat.
Variable adjacency : Csr.
Variable out : nat → list nat.

Notation edge := (λ a b, b ∈ out a).
Notation reach := (rtc edge).

Definition ix (t : Tarjan) (v : nat) : Z := default unvisited (indices t !! v).
Definition lw (t : Tarjan) (v : nat) : Z := default 0 (low_links t !! v).
Definition cp (t : Tarjan) (v : nat) : Z := default unvisited (component_of t !! v).
Definition seen (t : Tarjan) (v : nat) : Prop := ix t v ≠ unvisited.
Definition placed (t : Tarjan) (v : nat) : Prop := cp t v ≠ unvisited.

Definition seen_count (t : Tarjan) : nat := length (List.filter (λ v, negb (ix t v =? unvisited)) (seq 0 n)).
Definition size_of (t : Tarjan) (c : Z) : Z := Z.of_nat (length (List.filter (λ v, cp t v =? c) (seq 0 n))).

(** [st] is the stack as indices; [gray] the states whose visit has not ended. *)
Record inv (t : Tarjan) (st gray : list nat) : Prop := {
  i_lengths : length (indices t) = n ∧ length (low_links t) = n ∧ length (on_stack t) = n ∧ length (component_of t) = n;
  i_stack : stack t = id_of <$> st;
  i_bounded v : v ∈ st → (v < n)%nat;
  i_on v : (v < n)%nat → on_stack t !! v = Some (bool_decide (v ∈ st));
  i_seen v : (v < n)%nat → seen t v ↔ v ∈ st ∨ placed t v;
  i_apart v : v ∈ st → ¬ placed t v;
  i_next : next_index t = Z.of_nat (seen_count t);
  i_index v : seen t v → 0 ≤ ix t v < next_index t;
  i_sorted i j v w : (i < j)%nat → st !! i = Some v → st !! j = Some w → ix t w < ix t v;
  i_closed v w : placed t v → w ∈ out v → placed t w;
  i_same v w : placed t v → placed t w → cp t v = cp t w ↔ reach v w ∧ reach w v;
  i_sizes c x : sizes t !! c = Some x → x = size_of t (Z.of_nat c);
  i_component v : placed t v → 0 ≤ cp t v < Z.of_nat (length (sizes t));
  i_inhabited c : (c < length (sizes t))%nat → ∃ v, (v < n)%nat ∧ cp t v = Z.of_nat c;
  i_few : (length (sizes t) + length st ≤ seen_count t)%nat;
  i_black v w : seen t v → v ∉ gray → w ∈ out v → seen t w;
  i_order v w : v ∈ st → w ∈ st → ix t v ≤ ix t w → reach v w;
  i_gray v : v ∈ st → ∃ g, g ∈ gray ∧ g ∈ st ∧ ix t g ≤ ix t v ∧ reach v g;
  i_grays g : g ∈ gray → g ∈ st;
}.

Lemma ix_seen_bound t st gray v : inv t st gray → seen t v → (v < n)%nat.
Proof using Type.
  intros Hi Hs. destruct (i_lengths _ _ _ Hi) as (Hl & _). destruct (decide (v < n)%nat) as [|Hge]; [done|]. exfalso. apply Hs. unfold ix. by rewrite lookup_ge_None_2 by lia.
Qed.

Lemma placed_bound t st gray v : inv t st gray → placed t v → (v < n)%nat.
Proof using Type.
  intros Hi Hs. destruct (i_lengths _ _ _ Hi) as (_ & _ & _ & Hl). destruct (decide (v < n)%nat) as [|Hge]; [done|]. exfalso. apply Hs. unfold cp. by rewrite lookup_ge_None_2 by lia.
Qed.

Lemma stack_seen t st gray v : inv t st gray → v ∈ st → seen t v.
Proof using Type. intros Hi Hv. apply (i_seen _ _ _ Hi); [by apply (i_bounded _ _ _ Hi)|by left]. Qed.

Lemma placed_seen t st gray v : inv t st gray → placed t v → seen t v.
Proof using Type. intros Hi Hv. apply (i_seen _ _ _ Hi); [by apply (placed_bound t st gray)|by right]. Qed.

Lemma ix_get {E} t st gray v : inv t st gray → (v < n)%nat → vec_get (E := E) (indices t) v = Ok (ix t v).
Proof using Type. intros Hi Hv. destruct (i_lengths _ _ _ Hi) as (Hl & _). destruct (lookup_lt_is_Some_2 (indices t) v ltac:(lia)) as [z Hz]. unfold ix. by rewrite (vec_get_Ok _ _ _ Hz), Hz. Qed.

Lemma lw_get {E} t st gray v : inv t st gray → (v < n)%nat → vec_get (E := E) (low_links t) v = Ok (lw t v).
Proof using Type. intros Hi Hv. destruct (i_lengths _ _ _ Hi) as (_ & Hl & _). destruct (lookup_lt_is_Some_2 (low_links t) v ltac:(lia)) as [z Hz]. unfold lw. by rewrite (vec_get_Ok _ _ _ Hz), Hz. Qed.

(** ** Counting *)

Lemma filter_more (p q : nat → bool) x l : NoDup l → x ∈ l → p x = false → (∀ v, q v = (v =? x)%nat || p v) → length (List.filter q l) = S (length (List.filter p l)).
Proof using Type.
  intros Hnd Hx Hp Hq. induction l as [|v l IH]; [by apply elem_of_nil in Hx|]. apply NoDup_cons in Hnd as [Hv Hnd]. cbn [List.filter]. rewrite (Hq v).
  apply elem_of_cons in Hx as [<-|Hx].
  - rewrite Nat.eqb_refl, Hp. cbn [orb length]. f_equal. f_equal. apply List.filter_ext_in. intros w Hw%list_elem_of_In. rewrite Hq.
    destruct (Nat.eqb_spec w x) as [->|]; [done|done].
  - destruct (Nat.eqb_spec v x) as [->|Hne]; [done|]. cbn [orb]. destruct (p v); cbn [length]; rewrite IH; done.
Qed.

Lemma seen_count_le t : (seen_count t ≤ n)%nat.
Proof using Type. unfold seen_count. rewrite <-(length_seq n 0) at 2. generalize (seq 0 n). intros l. induction l as [|v l IH]; [done|]. cbn. destruct (negb _); cbn; lia. Qed.

Lemma seen_dec t v : seen t v ∨ ix t v = unvisited.
Proof using Type. unfold seen. destruct (decide (ix t v = unvisited)); [by right|by left]. Qed.

Lemma seen_count_lt t v : (v < n)%nat → ix t v = unvisited → (seen_count t < n)%nat.
Proof using Type.
  intros Hv Hx. pose proof (filter_more (λ v, negb (ix t v =? unvisited)) (λ w, (w =? v)%nat || negb (ix t w =? unvisited)) v (seq 0 n) (NoDup_seq 0 n)) as Hf.
  cbn beta in Hf. rewrite Hx, Z.eqb_refl in Hf. specialize (Hf ltac:(rewrite elem_of_seq; lia) eq_refl ltac:(done)). unfold seen_count.
  assert (length (List.filter (λ w, (w =? v)%nat || negb (ix t w =? unvisited)%Z) (seq 0 n)) ≤ n)%nat as Hle; [|lia].
  rewrite <-(length_seq n 0) at 2. generalize (seq 0 n). intros l. induction l as [|w l IH]; [done|]. cbn. destruct (_ || _); cbn; lia.
Qed.

(** ** Visiting a state *)

Definition pushed (t : Tarjan) (x : nat) : Tarjan :=
  {| next_index := next_index t + 1; indices := <[x := next_index t]> (indices t); low_links := <[x := next_index t]> (low_links t);
     stack := id_of x :: stack t; on_stack := <[x := true]> (on_stack t); component_of := component_of t; sizes := sizes t |}.

Lemma pushed_ix t st gray x v : inv t st gray → (x < n)%nat → ix (pushed t x) v = if decide (v = x) then next_index t else ix t v.
Proof using Type. intros Hi Hx. destruct (i_lengths _ _ _ Hi) as (Hl & _). unfold ix. cbn [pushed indices]. rewrite lookup_set by lia. by destruct (decide (v = x)). Qed.

Lemma pushed_lw t st gray x v : inv t st gray → (x < n)%nat → lw (pushed t x) v = if decide (v = x) then next_index t else lw t v.
Proof using Type. intros Hi Hx. destruct (i_lengths _ _ _ Hi) as (_ & Hl & _). unfold lw. cbn [pushed low_links]. rewrite lookup_set by lia. by destruct (decide (v = x)). Qed.

Hypothesis small : (Z.of_nat n ≤ 2 ^ 32).
Hypothesis out_bounded : ∀ v w, (v < n)%nat → w ∈ out v → (w < n)%nat.

Lemma next_fresh t st gray : inv t st gray → next_index t ≠ unvisited.
Proof using small. intros Hi. rewrite (i_next _ _ _ Hi). pose proof (seen_count_le t). unfold unvisited. lia. Qed.

Lemma pushed_seen t st gray x v : inv t st gray → (x < n)%nat → seen (pushed t x) v ↔ v = x ∨ seen t v.
Proof using small.
  intros Hi Hx. unfold seen. rewrite (pushed_ix t st gray x v Hi Hx). destruct (decide (v = x)) as [->|Hne]; [|naive_solver]. pose proof (next_fresh t st gray Hi). naive_solver.
Qed.

Lemma pushed_count t st gray x : inv t st gray → (x < n)%nat → ix t x = unvisited → seen_count (pushed t x) = S (seen_count t).
Proof using small.
  intros Hi Hx Hu. unfold seen_count. apply (filter_more _ _ x); [apply NoDup_seq|rewrite elem_of_seq; lia|by rewrite Hu, Z.eqb_refl|].
  intros v. rewrite (pushed_ix t st gray x v Hi Hx). pose proof (next_fresh t st gray Hi). destruct (decide (v = x)) as [->|Hne].
  - rewrite Nat.eqb_refl. cbn [orb]. by destruct (Z.eqb_spec (next_index t) unvisited).
  - by destruct (Nat.eqb_spec v x).
Qed.

Lemma unseen_off t st gray x : inv t st gray → ix t x = unvisited → x ∉ st ∧ ¬ placed t x.
Proof using Type. intros Hi Hu. split; intros Hx; [by apply (stack_seen t st gray x Hi) in Hx|by apply (placed_seen t st gray x Hi) in Hx]. Qed.

Lemma push_inv t st gray x : inv t st gray → (x < n)%nat → ix t x = unvisited → (∀ g, g ∈ gray → reach g x) → inv (pushed t x) (x :: st) (x :: gray).
Proof using small.
  intros Hi Hx Hu Hg. pose proof (unseen_off t st gray x Hi Hu) as [Hoff Hunp]. pose proof (pushed_ix t st gray x) as Hix. pose proof (i_next _ _ _ Hi) as Hnext.
  destruct (i_lengths _ _ _ Hi) as (Hl1 & Hl2 & Hl3 & Hl4).
  assert (∀ v, v ∈ st → v ≠ x) as Hne by (intros v Hv ->; done).
  assert (∀ v, v ∈ st → ix t v < next_index t) as Hlt by (intros v Hv; apply (i_index _ _ _ Hi); by apply (stack_seen t st gray)).
  assert (∀ v, v ∈ st → reach v x) as Hreach by (intros v Hv; destruct (i_gray _ _ _ Hi v Hv) as (g & Hgg & _ & _ & Hr); by etrans; [exact Hr|apply Hg]).
  split; cbn [pushed indices low_links on_stack component_of sizes stack next_index].
  - by rewrite !length_insert.
  - by rewrite (i_stack _ _ _ Hi).
  - intros v [->|Hv]%elem_of_cons; [done|by apply (i_bounded _ _ _ Hi)].
  - intros v Hv. rewrite lookup_set by lia. destruct (decide (v = x)) as [->|Hvx]; [by rewrite bool_decide_true by left|]. rewrite (i_on _ _ _ Hi v Hv). f_equal.
    apply bool_decide_ext. rewrite elem_of_cons. naive_solver.
  - intros v Hv. rewrite (pushed_seen t st gray x v Hi Hx), (i_seen _ _ _ Hi v Hv), elem_of_cons. unfold placed, cp. cbn [pushed component_of]. naive_solver.
  - intros v [->|Hv]%elem_of_cons; [done|by apply (i_apart _ _ _ Hi)].
  - rewrite (pushed_count t st gray x Hi Hx Hu). lia.
  - intros v [->|Hv]%(pushed_seen t st gray x v Hi Hx); rewrite Hix by done; [rewrite decide_True by done; lia|].
    pose proof (i_index _ _ _ Hi v Hv). destruct (decide (v = x)); lia.
  - intros i j v w Hij Hv Hw. rewrite !Hix by done. destruct i as [|i], j as [|j]; cbn in Hv, Hw; [lia| |lia|].
    + injection Hv as <-. apply list_elem_of_lookup_2 in Hw. rewrite decide_False by by apply Hne. rewrite decide_True by done. by apply Hlt.
    + pose proof (list_elem_of_lookup_2 _ _ _ Hv). pose proof (list_elem_of_lookup_2 _ _ _ Hw). rewrite !decide_False by by apply Hne. apply (i_sorted _ _ _ Hi i j); [lia|done..].
  - apply (i_closed _ _ _ Hi).
  - apply (i_same _ _ _ Hi).
  - apply (i_sizes _ _ _ Hi).
  - apply (i_component _ _ _ Hi).
  - apply (i_inhabited _ _ _ Hi).
  - rewrite (pushed_count t st gray x Hi Hx Hu). cbn [length]. pose proof (i_few _ _ _ Hi). lia.
  - intros v w [->|Hv]%(pushed_seen t st gray x v Hi Hx) Hng Hw; [by destruct Hng; left|]. apply (pushed_seen t st gray x w Hi Hx). right.
    apply (i_black _ _ _ Hi v w); [done| |done]. intros Hvg. apply Hng. by right.
  - intros v w Hv Hw Hle. rewrite !Hix in Hle by done. apply elem_of_cons in Hv as [->|Hv], Hw as [->|Hw]; [done| |by apply Hreach|].
    + rewrite decide_True, decide_False in Hle by auto. pose proof (Hlt w Hw). lia.
    + rewrite !decide_False in Hle by auto. by apply (i_order _ _ _ Hi).
  - intros v [->|Hv]%elem_of_cons; [exists x; split_and!; [left|left|lia|done]|].
    destruct (i_gray _ _ _ Hi v Hv) as (g & Hgg & Hgs & Hle & Hr). exists g. rewrite !Hix, !decide_False by auto. split_and!; [by right|by right|done|done].
  - intros g [->|Hgg]%elem_of_cons; [left|right; by apply (i_grays _ _ _ Hi)].
Qed.

(** ** Low links are not part of the invariant *)

Definition with_low (t : Tarjan) (l : list Z) : Tarjan :=
  {| next_index := next_index t; indices := indices t; low_links := l; stack := stack t; on_stack := on_stack t; component_of := component_of t; sizes := sizes t |}.

Lemma with_low_inv t st gray l : inv t st gray → length l = n → inv (with_low t l) st gray.
Proof using Type.
  intros Hi Hl. destruct (i_lengths _ _ _ Hi) as (Hl1 & Hl2 & Hl3 & Hl4). destruct Hi. by split.
Qed.

Lemma lower_Ok {E} t st gray i x : inv t st gray → (i < n)%nat →
  ∃ l, lower (E := E) t i x = Ok (with_low t l) ∧ inv (with_low t l) st gray ∧ lw (with_low t l) i = Z.min (lw t i) x ∧
    ∀ v, v ≠ i → lw (with_low t l) v = lw t v.
Proof using Type.
  intros Hi Hn. destruct (i_lengths _ _ _ Hi) as (_ & Hl & _). exists (<[i := Z.min (lw t i) x]> (low_links t)). unfold lower. rewrite (lw_get t st gray i Hi Hn). cbn [mbind outcome_bind].
  rewrite vec_set_Ok by lia. split; [done|]. split; [apply (with_low_inv t st gray); [done|by rewrite length_insert]|].
  split; [unfold lw at 1; cbn [with_low low_links]; by rewrite list_lookup_insert_eq by lia|]. intros v Hv. unfold lw. cbn [with_low low_links]. by rewrite list_lookup_insert_ne.
Qed.

(** ** The loop over the successors *)

(** [x] is being visited: [t0] is the state before its visit, with stack [st]; [dn] are the successors looked at, [s] what is on
    the stack above [x]. *)
Record looking (t0 : Tarjan) (st gray : list nat) (x : nat) (dn : list nat) (t : Tarjan) (s : list nat) : Prop := {
  l_inv : inv t (s ++ x :: st) (x :: gray);
  l_frame v : seen t0 v → ix t v = ix t0 v ∧ lw t v = lw t0 v;
  l_self : ix t x = next_index t0;
  l_new v : v ∈ s → ¬ seen t0 v;
  l_count : (S (seen_count t0) ≤ seen_count t)%nat;
  l_low : lw t x ≤ ix t x ∧ ∃ y, y ∈ s ++ x :: st ∧ ix t y = lw t x ∧ reach x y;
  l_cross z y : z ∈ s → y ∈ st → y ∈ out z → lw t x ≤ ix t0 y;
  l_cross_x y : y ∈ dn → y ∈ st → lw t x ≤ ix t0 y;
  l_done y : y ∈ dn → seen t y;
}.

(** What a visit of [x] does *)
Record visited (t : Tarjan) (st gray : list nat) (x : nat) (t' : Tarjan) (s : list nat) : Prop := {
  d_inv : inv t' (s ++ st) gray;
  d_seen : seen t' x;
  d_frame v : seen t v → ix t' v = ix t v ∧ lw t' v = lw t v;
  d_new v : v ∈ s → ¬ seen t v;
  d_count : (seen_count t < seen_count t')%nat;
  d_low : next_index t ≤ lw t' x ∨ ∃ y, y ∈ s ++ st ∧ ix t' y = lw t' x ∧ reach x y;
  d_cross z y : z ∈ s → y ∈ st → y ∈ out z → lw t' x ≤ ix t y;
}.

Lemma start_looking t st gray x : inv t st gray → (x < n)%nat → ix t x = unvisited → (∀ g, g ∈ gray → reach g x) → looking t st gray x [] (pushed t x) [].
Proof using small.
  intros Hi Hx Hu Hg. pose proof (pushed_ix t st gray x) as Hix. pose proof (pushed_lw t st gray x) as Hlw. split; cbn [app].
  - by apply push_inv.
  - intros v Hv. rewrite Hix, Hlw by done. by rewrite !decide_False by by intros ->.
  - by rewrite Hix, decide_True.
  - by intros v ?%elem_of_nil.
  - by rewrite (pushed_count t st gray).
  - rewrite Hix, Hlw, !decide_True by done. split; [lia|]. exists x. rewrite Hix, decide_True by done. split_and!; [left|done|done].
  - by intros z y ?%elem_of_nil.
  - by intros y ?%elem_of_nil.
  - by intros y ?%elem_of_nil.
Qed.

Lemma looking_x_seen t0 st gray x dn t s : looking t0 st gray x dn t s → x ∈ s ++ x :: st ∧ seen t x ∧ (x < n)%nat.
Proof using Type.
  intros Hl. pose proof (l_inv _ _ _ _ _ _ _ Hl) as Hi. assert (x ∈ s ++ x :: st) as Hin by (rewrite elem_of_app; right; left).
  split; [done|]. split; [by apply (stack_seen t _ _ x Hi)|by apply (i_bounded _ _ _ Hi)].
Qed.

(** A successor that was seen *)
Lemma look_seen {E} (go : StateId → Tarjan → outcome E Tarjan) t0 st gray x dn t s w : inv t0 st gray → looking t0 st gray x dn t s → w ∈ out x → seen t w →
  ∃ t', look_at go x t (id_of w) = Ok t' ∧ looking t0 st gray x (dn ++ [w]) t' s.
Proof using out_bounded.
  intros Hi0 Hl Hw Hs. pose proof (l_inv _ _ _ _ _ _ _ Hl) as Hi. pose proof (looking_x_seen _ _ _ _ _ _ _ Hl) as (Hxin & Hxs & Hx).
  pose proof (ix_seen_bound t _ _ w Hi Hs) as Hwn. unfold look_at. rewrite index_id_of, (ix_get t _ _ w Hi Hwn). cbn [mbind outcome_bind].
  destruct (Z.eqb_spec (ix t w) unvisited) as [Hu|_]; [by destruct Hs|]. rewrite (vec_get_Ok _ _ _ (i_on _ _ _ Hi w Hwn)). cbn [mbind outcome_bind].
  destruct Hl as [_ Hframe Hself Hnew Hcount Hlow Hcross Hcrossx Hdone].
  case_bool_decide as Hon.
  - destruct (lower_Ok (E := E) t _ _ x (ix t w) Hi Hx) as (l & Hlo & Hi' & Hmin & Hoth). exists (with_low t l). split; [exact Hlo|]. split; try done.
    + intros v Hv. destruct (Hframe v Hv) as [Hv1 Hv2]. split; [exact Hv1|]. rewrite Hoth; [done|]. intros ->. rewrite Hself in Hv1. pose proof (i_index _ _ _ Hi0 x Hv). lia.
    + rewrite Hmin. change (ix (with_low t l)) with (ix t). destruct Hlow as [Hle (y & Hy & Hiy & Hr)]. split; [lia|].
      destruct (Z.min_spec (lw t x) (ix t w)) as [[_ ->]|[_ ->]]; [by exists y|]. exists w. split; [done|]. split; [done|]. by apply rtc_once.
    + intros z y Hz Hy Hzy. rewrite Hmin. pose proof (Hcross z y Hz Hy Hzy). lia.
    + rewrite Hmin. intros y [Hy| ->%list_elem_of_singleton]%elem_of_app Hyst; [pose proof (Hcrossx y Hy Hyst); lia|].
      destruct (Hframe w (stack_seen t0 st gray w Hi0 Hyst)) as [-> _]. lia.
    + intros y [Hy| ->%list_elem_of_singleton]%elem_of_app; [by apply Hdone|done].
  - exists t. split; [done|]. split; try done.
    + intros y [Hy| ->%list_elem_of_singleton]%elem_of_app Hyst; [by apply Hcrossx|]. destruct Hon. rewrite elem_of_app. right. by right.
    + intros y [Hy| ->%list_elem_of_singleton]%elem_of_app; [by apply Hdone|done].
Qed.

(** A successor that was not *)
Lemma look_unseen {E} (go : StateId → Tarjan → outcome E Tarjan) t0 st gray x dn t s w t1 s1 : inv t0 st gray → looking t0 st gray x dn t s → w ∈ out x → ix t w = unvisited →
  go (id_of w) t = Ok t1 → visited t (s ++ x :: st) (x :: gray) w t1 s1 →
  ∃ t', look_at go x t (id_of w) = Ok t' ∧ looking t0 st gray x (dn ++ [w]) t' (s1 ++ s).
Proof using out_bounded.
  intros Hi0 Hl Hw Hu Hgo [Hi1 Hseen Hfr1 Hnew1 Hcount1 Hlow1 Hcross1]. pose proof (l_inv _ _ _ _ _ _ _ Hl) as Hi. pose proof (looking_x_seen _ _ _ _ _ _ _ Hl) as (Hxin & Hxs & Hx).
  pose proof (out_bounded x w Hx Hw) as Hwn. unfold look_at. rewrite index_id_of, (ix_get t _ _ w Hi Hwn). cbn [mbind outcome_bind]. rewrite Hu, Z.eqb_refl, Hgo. cbn [mbind outcome_bind].
  rewrite (lw_get t1 _ _ w Hi1 Hwn). cbn [mbind outcome_bind]. destruct (lower_Ok (E := E) t1 _ _ x (lw t1 w) Hi1 Hx) as (l & Hlo & Hi' & Hmin & Hoth).
  exists (with_low t1 l). split; [exact Hlo|]. destruct Hl as [_ Hframe Hself Hnew Hcount Hlow Hcross Hcrossx Hdone].
  pose proof (Hfr1 x Hxs) as [Hx1 Hlx1]. assert (∀ v, seen t0 v → seen t v) as Hmono by (intros v Hv; unfold seen; by rewrite (proj1 (Hframe v Hv))).
  assert (∀ v, v ∈ st → v ∈ s ++ x :: st) as Hin by (intros v Hv; rewrite elem_of_app; right; by right).
  split.
  - by rewrite <-app_assoc.
  - intros v Hv. destruct (Hframe v Hv) as [Hv1 Hv2]. destruct (Hfr1 v (Hmono v Hv)) as [Hv3 Hv4]. change (ix (with_low t1 l)) with (ix t1). split; [congruence|].
    rewrite Hoth; [congruence|]. intros ->. pose proof (i_index _ _ _ Hi0 x Hv). lia.
  - change (ix (with_low t1 l)) with (ix t1). congruence.
  - intros v [Hv|Hv]%elem_of_app; [|by apply Hnew]. intros Hs. by apply (Hnew1 v Hv), Hmono.
  - change (seen_count (with_low t1 l)) with (seen_count t1). lia.
  - change (ix (with_low t1 l)) with (ix t1). rewrite Hmin, Hlx1, Hx1. destruct Hlow as [Hle (y & Hy & Hiy & Hr)]. split; [lia|].
    destruct (Z.min_spec (lw t x) (lw t1 w)) as [[_ ->]|[Hlt ->]].
    + exists y. split; [rewrite <-app_assoc, elem_of_app; by right|]. split; [|done]. rewrite (proj1 (Hfr1 y (stack_seen t _ _ y Hi Hy))). done.
    + destruct Hlow1 as [Hge|(y' & Hy' & Hiy' & Hr')]; [pose proof (i_index _ _ _ Hi x Hxs); lia|]. exists y'. rewrite <-app_assoc. split; [done|]. split; [done|].
      by eapply rtc_l; [exact Hw|].
  - intros z y [Hz|Hz]%elem_of_app Hy Hzy; rewrite Hmin, Hlx1.
    + pose proof (Hcross1 z y Hz (Hin y Hy) Hzy) as Hc. rewrite (proj1 (Hframe y (stack_seen t0 st gray y Hi0 Hy))) in Hc. lia.
    + pose proof (Hcross z y Hz Hy Hzy). lia.
  - intros y [Hy| ->%list_elem_of_singleton]%elem_of_app Hyst; rewrite Hmin, Hlx1; [pose proof (Hcrossx y Hy Hyst); lia|].
    exfalso. apply Hmono in Hu; [done|]. by apply (stack_seen t0 st gray).
  - intros y [Hy| ->%list_elem_of_singleton]%elem_of_app; [|done]. unfold seen. change (ix (with_low t1 l)) with (ix t1). rewrite (proj1 (Hfr1 y (Hdone y Hy))). by apply Hdone.
Qed.

(** ** The end of a visit *)

Lemma stack_NoDup t st gray : inv t st gray → NoDup st.
Proof using Type.
  intros Hi. apply NoDup_alt. intros i j v Hv Hw. destruct (decide (i < j)%nat) as [Hlt|Hge]; [pose proof (i_sorted _ _ _ Hi i j v v Hlt Hv Hw); lia|].
  destruct (decide (j < i)%nat) as [Hlt|Hge']; [pose proof (i_sorted _ _ _ Hi j i v v Hlt Hw Hv); lia|lia].
Qed.

Lemma above_below t s x st gray : inv t (s ++ x :: st) gray → (∀ v, v ∈ st → ix t v < ix t x) ∧ (∀ v, v ∈ s → ix t x < ix t v).
Proof using Type.
  intros Hi. split; intros v [i Hv]%list_elem_of_lookup.
  - apply (i_sorted _ _ _ Hi (length s) (length s + S i)); [lia|by rewrite lookup_app_r, Nat.sub_diag by lia|]. rewrite lookup_app_r by lia. by replace (length s + S i - length s)%nat with (S i) by lia.
  - pose proof (lookup_lt_Some _ _ _ Hv). apply (i_sorted _ _ _ Hi i (length s)); [done|by apply lookup_app_l_Some|by rewrite lookup_app_r, Nat.sub_diag by lia].
Qed.

Lemma filter_members (p : nat → bool) l : NoDup l → (∀ v, v ∈ l → (v < n)%nat) → (∀ v, (v < n)%nat → p v = true ↔ v ∈ l) → length (List.filter p (seq 0 n)) = length l.
Proof using Type.
  intros Hnd Hb Hp. apply Permutation_length, NoDup_Permutation; [|done|].
  - apply NoDup_ListNoDup, List.NoDup_filter, NoDup_ListNoDup, NoDup_seq.
  - intros v. rewrite list_elem_of_In, List.filter_In, <-list_elem_of_In, elem_of_seq. split; [intros [Hv Hpv]; apply (Hp v); [lia|done]|]. intros Hv. split; [split; [lia|by apply Hb]|].
    apply Hp; [by apply Hb|done].
Qed.

Lemma placed_reach t st gray v w : inv t st gray → placed t v → reach v w → placed t w.
Proof using Type. intros Hi Hv Hr. induction Hr as [|v u w Hu _ IH]; [done|]. apply IH. by apply (i_closed _ _ _ Hi v). Qed.

Section Finish.
Variables (t0 : Tarjan) (st gray : list nat) (x : nat) (t : Tarjan) (s : list nat).
Hypothesis inv0 : inv t0 st gray.
Hypothesis unseen0 : ix t0 x = unvisited.
Hypothesis looked : looking t0 st gray x (out x) t s.

Let Hi := l_inv _ _ _ _ _ _ _ looked.

Lemma group_new v : v ∈ s ++ [x] → ¬ seen t0 v.
Proof using looked unseen0. intros [Hv| ->%list_elem_of_singleton]%elem_of_app; [by apply (l_new _ _ _ _ _ _ _ looked)|]. intros Hs. by apply Hs. Qed.

Lemma group_stack v : v ∈ s ++ x :: st ↔ v ∈ s ++ [x] ∨ v ∈ st.
Proof using Type. rewrite cons_middle, app_assoc, elem_of_app. done. Qed.

Lemma group_off v : v ∈ s ++ [x] → v ∉ st ∧ v ∉ gray.
Proof using looked unseen0 inv0.
  intros Hv%group_new. split; intros Hs; apply Hv; [by apply (stack_seen t0 st gray)|]. apply (stack_seen t0 st gray _ inv0). by apply (i_grays _ _ _ inv0).
Qed.

Lemma group_black v w : seen t v → v ∉ gray → w ∈ out v → seen t w.
Proof using looked.
  intros Hv Hg Hw. destruct (decide (v = x)) as [->|Hne]; [by apply (l_done _ _ _ _ _ _ _ looked)|].
  apply (i_black _ _ _ Hi v w); [exact Hv| |exact Hw]. by intros [?|?]%elem_of_cons.
Qed.

Lemma old_index v : v ∈ st → ix t v = ix t0 v.
Proof using looked inv0. intros Hv. apply (l_frame _ _ _ _ _ _ _ looked). by apply (stack_seen t0 st gray). Qed.

Lemma finish_keep : lw t x ≠ ix t x → visited t0 st gray x t (s ++ [x]).
Proof using looked inv0 unseen0.
  intros Hne. pose proof looked as [_ Hframe Hself Hnew Hcount [Hle (y0 & Hy0 & Hiy0 & Hr0)] Hcross Hcrossx Hdone].
  pose proof (above_below t s x st _ Hi) as [Hbelow Habove]. destruct (looking_x_seen _ _ _ _ _ _ _ looked) as (Hxin & Hxs & Hx).
  assert (∀ v, v ∈ s ++ x :: st → ix t v < ix t x → ∃ g, g ∈ gray ∧ g ∈ s ++ x :: st ∧ ix t g ≤ ix t v ∧ reach v g) as Hold.
  { intros v Hv Hlt. destruct (i_gray _ _ _ Hi v Hv) as (g & [->|Hg]%elem_of_cons & Hgs & Hgi & Hgr); [lia|by exists g]. }
  split.
  - rewrite <-app_assoc. cbn [app]. pose proof Hi as Hi'. destruct Hi' as [A1 A2 A3 A4 A5 A6 A7 A8 A9 A10 A11 A12 A13 A14 A15 A16 A17 A18 A19]. split; try assumption.
    + exact group_black.
    + intros v Hv. destruct (A18 v Hv) as (g & [->|Hg]%elem_of_cons & Hgs & Hgi & Hgr); [|by exists g].
      destruct (Hold y0 Hy0 ltac:(lia)) as (g & Hg & Hgs' & Hgi' & Hgr'). exists g. split; [exact Hg|]. split; [exact Hgs'|]. split; [lia|]. etrans; [exact Hgr|]. by etrans.
    + intros g Hg. apply A19. by right.
  - exact Hxs.
  - exact Hframe.
  - exact group_new.
  - lia.
  - right. exists y0. rewrite <-app_assoc. by split.
  - intros z y [Hz| ->%list_elem_of_singleton]%elem_of_app Hy Hzy; [by apply (Hcross z)|by apply Hcrossx].
Qed.

Hypothesis root : lw t x = ix t x.

(** The group and the placed states are closed under edges. *)
Lemma group_closed v w : v ∈ s ++ [x] ∨ placed t v → w ∈ out v → w ∈ s ++ [x] ∨ placed t w.
Proof using looked inv0 unseen0 root out_bounded.
  intros [Hv|Hv] Hw; [|right; by apply (i_closed _ _ _ Hi v)]. pose proof (above_below t s x st _ Hi) as [Hbelow Habove].
  assert (v ∈ s ++ x :: st) as Hvst by (apply group_stack; by left).
  pose proof (group_black v w (stack_seen t _ _ v Hi Hvst) (proj2 (group_off v Hv)) Hw) as Hws.
  pose proof (out_bounded v w (i_bounded _ _ _ Hi v Hvst) Hw) as Hwn. apply (i_seen _ _ _ Hi w Hwn) in Hws as [Hws|Hws]; [|by right].
  apply group_stack in Hws as [Hws|Hws]; [by left|]. exfalso. pose proof (Hbelow w Hws) as Hlt. rewrite (old_index w Hws) in Hlt.
  apply elem_of_app in Hv as [Hv| ->%list_elem_of_singleton].
  - pose proof (l_cross _ _ _ _ _ _ _ looked v w Hv Hws Hw). lia.
  - pose proof (l_cross_x _ _ _ _ _ _ _ looked w Hw Hws). lia.
Qed.

Lemma group_reach v w : v ∈ s ++ [x] ∨ placed t v → reach v w → w ∈ s ++ [x] ∨ placed t w.
Proof using looked inv0 unseen0 root out_bounded. intros Hv Hr. induction Hr as [|v u w Hu _ IH]; [done|]. apply IH. by apply (group_closed v u). Qed.

Lemma group_root v : v ∈ s ++ [x] → reach x v ∧ reach v x.
Proof using looked inv0 unseen0 root out_bounded.
  intros Hv. pose proof (above_below t s x st _ Hi) as [Hbelow Habove]. assert (v ∈ s ++ x :: st) as Hvst by (apply group_stack; by left).
  destruct (looking_x_seen _ _ _ _ _ _ _ looked) as (Hxin & Hxs & Hx). split.
  - apply (i_order _ _ _ Hi); [done|done|]. apply elem_of_app in Hv as [Hv| ->%list_elem_of_singleton]; [pose proof (Habove v Hv)|]; lia.
  - destruct (i_gray _ _ _ Hi v Hvst) as (g & [->|Hg]%elem_of_cons & Hgs & Hgi & Hgr); [exact Hgr|]. exfalso.
    destruct (group_reach v g (or_introl Hv) Hgr) as [Hgg|Hgp]; [by apply (group_off g)|by apply (i_apart _ _ _ Hi g)].
Qed.

Lemma group_bounded v : v ∈ s ++ [x] → (v < n)%nat.
Proof using looked. intros Hv. apply (i_bounded _ _ _ Hi), group_stack. by left. Qed.

Lemma group_unplaced v : v ∈ s ++ [x] → ¬ placed t v.
Proof using looked. intros Hv. apply (i_apart _ _ _ Hi), group_stack. by left. Qed.

Lemma group_NoDup : NoDup (s ++ [x]).
Proof using looked. pose proof (stack_NoDup _ _ _ Hi) as Hnd. rewrite cons_middle, app_assoc in Hnd. by apply NoDup_app in Hnd as [Hnd _]. Qed.

Lemma few_components : Z.of_nat (length (sizes t)) < unvisited.
Proof using looked small. pose proof (i_few _ _ _ Hi). pose proof (seen_count_le t). unfold unvisited. lia. Qed.

(** The state after the group is popped *)
Variables (ons : list bool) (comps : list Z).
Notation t' := (mkTarjan (next_index t) (indices t) (low_links t) (id_of <$> st) ons comps (sizes t ++ [Z.of_nat (S (length s))])).
Hypothesis ons_length : length ons = n.
Hypothesis comps_length : length comps = n.
Hypothesis ons_at : ∀ v, ons !! v = if decide (v ∈ s ++ [x]) then Some false else on_stack t !! v.
Hypothesis comps_at : ∀ v, comps !! v = if decide (v ∈ s ++ [x]) then Some (Z.of_nat (length (sizes t))) else component_of t !! v.

Lemma new_component v : cp t' v = if decide (v ∈ s ++ [x]) then Z.of_nat (length (sizes t)) else cp t v.
Proof using comps_at. unfold cp. cbn [component_of]. rewrite comps_at. by destruct (decide _). Qed.

Lemma new_placed v : placed t' v ↔ v ∈ s ++ [x] ∨ placed t v.
Proof using looked small comps_at comps_length ons_length ons_at inv0 unseen0 root out_bounded. unfold placed. rewrite new_component. pose proof few_components. destruct (decide _); [|naive_solver]. split; [by left|lia]. Qed.

Lemma new_same v w : placed t' v → placed t' w → cp t' v = cp t' w ↔ reach v w ∧ reach w v.
Proof using looked small comps_at comps_length ons_length ons_at inv0 unseen0 root out_bounded.
  intros Hv%new_placed Hw%new_placed. rewrite !new_component. destruct (decide (v ∈ s ++ [x])) as [Hv1|Hv1], (decide (w ∈ s ++ [x])) as [Hw1|Hw1].
  - split; [intros _|done]. destruct (group_root v Hv1), (group_root w Hw1). by split; etrans.
  - destruct Hw as [Hw|Hw]; [done|]. split; [intros Heq; pose proof (i_component _ _ _ Hi w Hw); lia|]. intros [_ Hr]. exfalso. apply (group_unplaced v Hv1).
    by apply (placed_reach t _ _ w v Hi).
  - destruct Hv as [Hv|Hv]; [done|]. split; [intros Heq; pose proof (i_component _ _ _ Hi v Hv); lia|]. intros [Hr _]. exfalso. apply (group_unplaced w Hw1).
    by apply (placed_reach t _ _ v w Hi).
  - apply (i_same _ _ _ Hi); naive_solver.
Qed.

Lemma new_sizes c z : sizes t' !! c = Some z → z = size_of t' (Z.of_nat c).
Proof using looked small comps_at comps_length ons_length ons_at inv0 unseen0 root out_bounded.
  cbn [sizes]. intros [Hc|[Hge Hc]]%lookup_app_Some.
  - rewrite (i_sizes _ _ _ Hi c z Hc). apply lookup_lt_Some in Hc. unfold size_of. do 2 f_equal. apply List.filter_ext. intros v. rewrite new_component. pose proof few_components.
    destruct (decide (v ∈ s ++ [x])) as [Hv|Hv]; [|reflexivity]. pose proof (group_unplaced v Hv) as Hu. unfold placed in Hu. lia.
  - destruct (c - length (sizes t))%nat as [|k] eqn:Hk; [|by destruct k]. cbn in Hc. injection Hc as <-. assert (c = length (sizes t)) as -> by lia. unfold size_of.
    rewrite (filter_members _ (s ++ [x]) group_NoDup group_bounded); [rewrite length_app; cbn [length]; lia|]. intros v _. rewrite new_component, Z.eqb_eq.
    destruct (decide (v ∈ s ++ [x])) as [Hv|Hv]; [done|]. split; [|done]. intros Heq. exfalso.
    pose proof few_components. assert (placed t v) as Hp by (unfold placed; lia). pose proof (i_component _ _ _ Hi v Hp). lia.
Qed.

Lemma finish_pop : visited t0 st gray x t' [].
Proof using looked small comps_at comps_length ons_length ons_at inv0 unseen0 root out_bounded.
  pose proof (above_below t s x st _ Hi) as [Hbelow Habove]. destruct (looking_x_seen _ _ _ _ _ _ _ looked) as (Hxin & Hxs & Hx).
  destruct (i_lengths _ _ _ Hi) as (Hl1 & Hl2 & Hl3 & Hl4). assert (∀ v, v ∈ st → v ∈ s ++ x :: st) as Hsub by (intros v Hv; apply group_stack; by right).
  pose proof looked as [_ Hframe Hself Hnew Hcount _ _ _ _].
  split; cbn [app]; [|exact Hxs|exact Hframe|by intros v ?%elem_of_nil|exact Hcount|left; change (lw t' x) with (lw t x); lia|by intros z y ?%elem_of_nil].
  split; cbn [indices low_links on_stack component_of sizes stack next_index].
  - done.
  - done.
  - intros v Hv. by apply (i_bounded _ _ _ Hi), Hsub.
  - intros v Hv. rewrite ons_at. destruct (decide (v ∈ s ++ [x])) as [Hvs|Hvs]; [by rewrite bool_decide_false by exact (proj1 (group_off v Hvs))|].
    rewrite (i_on _ _ _ Hi v Hv). f_equal. apply bool_decide_ext. rewrite group_stack. naive_solver.
  - intros v Hv. rewrite new_placed. change (seen t' v) with (seen t v). rewrite (i_seen _ _ _ Hi v Hv), group_stack. naive_solver.
  - intros v Hv. rewrite new_placed. intros [Hs|Hp]; [exact (proj1 (group_off v Hs) Hv)|]. by apply (i_apart _ _ _ Hi v); [apply Hsub|].
  - apply (i_next _ _ _ Hi).
  - apply (i_index _ _ _ Hi).
  - intros i j v w Hij Hv Hw. apply (i_sorted _ _ _ Hi (length s + S i) (length s + S j)); [lia| |]; (rewrite lookup_app_r by lia).
    + by replace (length s + S i - length s)%nat with (S i) by lia.
    + by replace (length s + S j - length s)%nat with (S j) by lia.
  - intros v w Hv%new_placed Hw. apply new_placed. by apply (group_closed v).
  - exact new_same.
  - exact new_sizes.
  - intros v Hv%new_placed. rewrite new_component, length_app. cbn [length]. destruct (decide (v ∈ s ++ [x])) as [Hs|Hs]; [lia|]. destruct Hv as [Hv|Hv]; [done|].
    pose proof (i_component _ _ _ Hi v Hv). lia.
  - intros c Hc. rewrite length_app in Hc. cbn [length] in Hc. destruct (decide (c = length (sizes t))) as [->|Hne].
    + exists x. split; [done|]. rewrite new_component, decide_True; [done|]. rewrite elem_of_app. right. left.
    + destruct (i_inhabited _ _ _ Hi c ltac:(lia)) as (v & Hv & Hc'). exists v. split; [done|]. rewrite new_component, decide_False; [done|]. intros Hs.
      pose proof (group_unplaced v Hs) as Hu. pose proof few_components. unfold placed in Hu. lia.
  - change (seen_count t') with (seen_count t). pose proof (i_few _ _ _ Hi) as Hf. rewrite !length_app in *. cbn [length] in *. lia.
  - exact group_black.
  - intros v w Hv Hw. apply (i_order _ _ _ Hi); by apply Hsub.
  - intros v Hv. destruct (i_gray _ _ _ Hi v (Hsub v Hv)) as (g & [->|Hg]%elem_of_cons & Hgs & Hgi & Hgr); [pose proof (Hbelow v Hv); lia|].
    exists g. split; [done|]. split; [by apply (i_grays _ _ _ inv0)|]. by split.
  - apply (i_grays _ _ _ inv0).
Qed.
End Finish.

(** ** The search *)

Lemma start_inv : inv (tarjan_start n) [] [].
Proof using Type.
  assert (∀ v, ix (tarjan_start n) v = unvisited) as Hix.
  { intros v. unfold ix. cbn [tarjan_start indices]. destruct (decide (v < n)%nat) as [Hv|Hv]; [by rewrite lookup_replicate_2|by rewrite lookup_ge_None_2 by (rewrite length_replicate; lia)]. }
  assert (∀ v, cp (tarjan_start n) v = unvisited) as Hcp.
  { intros v. unfold cp. cbn [tarjan_start component_of]. destruct (decide (v < n)%nat) as [Hv|Hv]; [by rewrite lookup_replicate_2|by rewrite lookup_ge_None_2 by (rewrite length_replicate; lia)]. }
  assert (seen_count (tarjan_start n) = 0%nat) as Hcount.
  { unfold seen_count. induction (seq 0 n) as [|v l IH]; [done|]. cbn [List.filter]. by rewrite Hix, Z.eqb_refl. }
  assert (∀ v, ¬ seen (tarjan_start n) v) as Hns by (intros v Hs; by apply Hs). assert (∀ v, ¬ placed (tarjan_start n) v) as Hnp by (intros v Hs; by apply Hs).
  split; cbn [tarjan_start indices low_links on_stack component_of sizes stack next_index].
  - by rewrite !length_replicate.
  - done.
  - by intros v ?%elem_of_nil.
  - intros v Hv. by rewrite lookup_replicate_2.
  - intros v _. split; [by intros ?%Hns|]. by intros [?%elem_of_nil|?%Hnp].
  - by intros v ?%elem_of_nil.
  - by rewrite Hcount.
  - by intros v ?%Hns.
  - by intros i j v w _ ?.
  - by intros v w ?%Hnp.
  - by intros v w ?%Hnp.
  - by intros c x ?.
  - by intros v ?%Hnp.
  - intros c Hc. cbn in Hc. lia.
  - rewrite Hcount. done.
  - by intros v w ?%Hns.
  - by intros v w ?%elem_of_nil.
  - by intros v ?%elem_of_nil.
  - by intros g ?%elem_of_nil.
Qed.

Hypothesis adjacent_out : csr_states adjacency = n ∧ ∀ v E, (v < n)%nat → neighbors (E := E) adjacency (id_of v) = Ok (id_of <$> out v).

Definition visits {E} (fuel : nat) : Prop := ∀ t st gray x, inv t st gray → (x < n)%nat → ix t x = unvisited → (∀ g, g ∈ gray → reach g x) → (n ≤ seen_count t + fuel)%nat →
  ∃ t' s, visit (E := E) fuel adjacency (id_of x) t = Ok t' ∧ visited t st gray x t' s.

Lemma loop_Ok {E} fuel t0 st gray x : visits (E := E) fuel → inv t0 st gray → (n ≤ S (seen_count t0) + fuel)%nat → (∀ g, g ∈ gray → reach g x) →
  ∀ rest dn t s, dn ++ rest = out x → looking t0 st gray x dn t s →
  ∃ t' s', foldM (look_at (visit (E := E) fuel adjacency) x) (id_of <$> rest) t = Ok t' ∧ looking t0 st gray x (out x) t' s'.
Proof using out_bounded adjacent_out.
  intros Hv Hi0 Hfuel Hg. induction rest as [|w rest IH]; intros dn t s Hdn Hl; [exists t, s; rewrite app_nil_r in Hdn; by subst dn|]. cbn [fmap list_fmap foldM].
  assert (w ∈ out x) as Hw by (rewrite <-Hdn, elem_of_app; right; left). assert ((dn ++ [w]) ++ rest = out x) as Hdn' by (by rewrite <-app_assoc).
  pose proof (l_inv _ _ _ _ _ _ _ Hl) as Hi. pose proof (looking_x_seen _ _ _ _ _ _ _ Hl) as (_ & _ & Hx).
  destruct (seen_dec t w) as [Hs|Hu].
  - destruct (look_seen (visit (E := E) fuel adjacency) t0 st gray x dn t s w Hi0 Hl Hw Hs) as (t' & -> & Hl'). cbn [mbind outcome_bind]. by apply (IH (dn ++ [w]) t' s).
  - destruct (Hv t (s ++ x :: st) (x :: gray) w Hi (out_bounded x w Hx Hw) Hu) as (t1 & s1 & H1 & Hd).
    { intros g [->|Hgg]%elem_of_cons; [by apply rtc_once|]. by eapply rtc_r; [apply Hg|]. }
    { pose proof (l_count _ _ _ _ _ _ _ Hl). lia. }
    destruct (look_unseen (visit (E := E) fuel adjacency) t0 st gray x dn t s w t1 s1 Hi0 Hl Hw Hu H1 Hd) as (t' & -> & Hl'). cbn [mbind outcome_bind].
    by apply (IH (dn ++ [w]) t' (s1 ++ s)).
Qed.

Lemma visit_Ok {E} fuel : visits (E := E) fuel.
Proof using small out_bounded adjacent_out.
  induction fuel as [|fuel IH]; intros t0 st gray x Hi0 Hx Hu Hg Hfuel; [pose proof (seen_count_lt t0 x Hx Hu); lia|].
  destruct (i_lengths _ _ _ Hi0) as (Hl1 & Hl2 & Hl3 & Hl4). cbn [visit]. rewrite index_id_of, !vec_set_Ok by lia. cbn [mbind outcome_bind].
  rewrite (proj2 adjacent_out) by done. cbn [mbind outcome_bind]. change (mkTarjan (next_index t0 + 1) _ _ _ _ _ _) with (pushed t0 x).
  destruct (loop_Ok fuel t0 st gray x IH Hi0 ltac:(lia) Hg (out x) [] (pushed t0 x) [] eq_refl (start_looking t0 st gray x Hi0 Hx Hu Hg)) as (t & s & -> & Hl). cbn [mbind outcome_bind].
  pose proof (l_inv _ _ _ _ _ _ _ Hl) as Hi. rewrite (lw_get t _ _ x Hi Hx), (ix_get t _ _ x Hi Hx). cbn [mbind outcome_bind].
  destruct (Z.eqb_spec (lw t x) (ix t x)) as [Hroot|Hroot].
  - rewrite (i_stack _ _ _ Hi). destruct (i_lengths _ _ _ Hi) as (Hm1 & Hm2 & Hm3 & Hm4).
    destruct (pop_Ok (E := E) x (Z.of_nat (length (sizes t))) st s (on_stack t) (component_of t) 0) as (ons & comps & -> & Hol & Hcl & Ho & Hc).
    { pose proof (group_NoDup _ _ _ _ _ _ Hl) as [_ [Hnd _]]%NoDup_app. intros Hxs. apply (Hnd x Hxs). left. }
    { intros v Hv. pose proof (group_bounded _ _ _ _ _ _ Hl v Hv). lia. }
    cbn [mbind outcome_bind]. eexists _, []. split; [done|]. replace (0 + Z.of_nat (S (length s))) with (Z.of_nat (S (length s))) by lia.
    apply (finish_pop t0 st gray x t s Hi0 Hu Hl Hroot); [lia|lia|exact Ho|exact Hc].
  - exists t, (s ++ [x]). split; [done|]. by apply finish_keep.
Qed.

Lemma visit_state_Ok {E} t v : inv t [] [] → (v < n)%nat → ∃ t', visit_state (E := E) adjacency t v = Ok t' ∧ inv t' [] [] ∧ seen t' v ∧ ∀ w, seen t w → seen t' w.
Proof using small out_bounded adjacent_out.
  intros Hi Hv. unfold visit_state. rewrite (ix_get t _ _ v Hi Hv). cbn [mbind outcome_bind]. destruct (Z.eqb_spec (ix t v) unvisited) as [Hu|Hu]; [|by exists t].
  unfold checked, in_widthb. replace ((0 <=? Z.of_nat v) && (Z.of_nat v <? 2 ^ 32)) with true by lia. cbn [expect mbind outcome_bind]. rewrite (proj1 adjacent_out).
  destruct (visit_Ok (E := E) (S n) t [] [] v Hi Hv Hu ltac:(by intros g ?%elem_of_nil) ltac:(lia)) as (t' & s & Ht & Hd). exists t'. split; [exact Ht|].
  pose proof (d_inv _ _ _ _ _ _ Hd) as Hi'. rewrite app_nil_r in Hi'. destruct s as [|w s]; [|by destruct (i_gray _ _ _ Hi' w ltac:(left)) as (g & ?%elem_of_nil & _)].
  split; [done|]. split; [apply (d_seen _ _ _ _ _ _ Hd)|]. intros w Hw. unfold seen. by rewrite (proj1 (d_frame _ _ _ _ _ _ Hd w Hw)).
Qed.

(** What the search for components gives: the states have the same component exactly when each reaches the other, and the sizes
    count the members. *)
Record partitioned (scc : SccResult) : Prop := {
  p_length : length (scc_component_of scc) = n;
  p_component v : (v < n)%nat → ∃ c, scc_component_of scc !! v = Some (Z.of_nat c) ∧ (c < length (scc_sizes scc))%nat;
  p_same v w : (v < n)%nat → (w < n)%nat → scc_component_of scc !! v = scc_component_of scc !! w ↔ reach v w ∧ reach w v;
  p_sizes c z : scc_sizes scc !! c = Some z →
    z = Z.of_nat (length (List.filter (λ v, bool_decide (scc_component_of scc !! v = Some (Z.of_nat c))) (seq 0 n)));
  p_inhabited c : (c < length (scc_sizes scc))%nat → ∃ v, (v < n)%nat ∧ scc_component_of scc !! v = Some (Z.of_nat c);
}.

Lemma placed_all {E} l : ∀ t, inv t [] [] → (∀ v, v ∈ l → (v < n)%nat) → ∃ t', foldM (visit_state (E := E) adjacency) l t = Ok t' ∧ inv t' [] [] ∧ (∀ v, v ∈ l → seen t' v) ∧ ∀ v, seen t v → seen t' v.
Proof using small out_bounded adjacent_out.
  induction l as [|v l IH]; intros t Hi Hl; cbn [foldM]; [exists t; split_and!; [done|done|by intros v ?%elem_of_nil|done]|].
  destruct (visit_state_Ok (E := E) t v Hi (Hl v ltac:(left))) as (t1 & -> & Hi1 & Hs1 & Hm1). cbn [mbind outcome_bind].
  destruct (IH t1 Hi1) as (t2 & -> & Hi2 & Hs2 & Hm2); [intros w Hw; apply Hl; by right|]. exists t2. split; [done|]. split; [done|].
  split; [|by intros w Hw; apply Hm2, Hm1]. intros w [->|Hw]%elem_of_cons; [by apply Hm2|by apply Hs2].
Qed.

Lemma components_exact {E} : ∃ scc, components (E := E) adjacency = Ok scc ∧ partitioned scc.
Proof using small out_bounded adjacent_out.
  unfold components. rewrite (proj1 adjacent_out). destruct (placed_all (E := E) (seq 0 n) (tarjan_start n) start_inv) as (t & -> & Hi & Hs & _); [intros v Hv%elem_of_seq; lia|].
  cbn [mbind outcome_bind]. eexists. split; [done|]. destruct (i_lengths _ _ _ Hi) as (_ & _ & _ & Hl).
  assert (∀ v, (v < n)%nat → placed t v) as Hp.
  { intros v Hv. pose proof (Hs v ltac:(rewrite elem_of_seq; lia)) as Hsv. by apply (i_seen _ _ _ Hi v Hv) in Hsv as [?%elem_of_nil|?]. }
  assert (∀ v, (v < n)%nat → component_of t !! v = Some (cp t v)) as Hc by (intros v Hv; unfold cp; by destruct (lookup_lt_is_Some_2 (component_of t) v ltac:(lia)) as [z ->]).
  split; cbn [scc_component_of scc_sizes].
  - done.
  - intros v Hv. pose proof (i_component _ _ _ Hi v (Hp v Hv)) as Hb. exists (Z.to_nat (cp t v)). rewrite Hc, Z2Nat.id by (done || lia). split; [done|lia].
  - intros v w Hv Hw. rewrite !Hc by done. rewrite <-(i_same _ _ _ Hi v w (Hp v Hv) (Hp w Hw)). split; [by intros [= ->]|by intros ->].
  - intros c z Hz. rewrite (i_sizes _ _ _ Hi c z Hz). unfold size_of. do 2 f_equal. apply List.filter_ext_in. intros v Hv%list_elem_of_In%elem_of_seq. rewrite Hc by lia.
    apply eq_true_iff_eq. rewrite Z.eqb_eq, bool_decide_eq_true. split; [by intros ->|by intros [=]].
  - intros c Hcl. destruct (i_inhabited _ _ _ Hi c Hcl) as (v & Hv & Hcv). exists v. split; [done|]. by rewrite Hc, Hcv.
Qed.
End Components.
