(* ===== verification/LivenessAnalysis.v ===== *)
(** * The liveness pass: lassos and reports

    The search for a way back within a component finds one, and the walk along its
    predecessors is a path of edges.  What a report says of the graph it was made from. *)

From Stdlib Require Import ZifyBool.
From stdpp Require Import base strings numbers option list relations.
From S2P Require Import Prelude Domain Formal ModelFinite ModelState ModelSemantics Explore ExploreTheorems Liveness LivenessCsr LivenessScc.

Local Open Scope Z_scope.

(** Consecutive elements are related. *)
Fixpoint linked {A} (R : A → A → Prop) (l : list A) : Prop :=
  match l with a :: ((b :: _) as rest) => R a b ∧ linked R rest | _ => True end.

Lemma linked_cons {A} (R : A → A → Prop) a b l : linked R (a :: b :: l) ↔ R a b ∧ linked R (b :: l).
Proof. done. Qed.

Section Lasso.
Variable n : nat.
Variable adjacency : Csr.
Variable out : nat → list nat.
Variable scc : SccResult.

Notation edge := (λ a b, b ∈ out a).
Notation reach := (rtc edge).

Hypothesis out_bounded : ∀ v w, (v < n)%nat → w ∈ out v → (w < n)%nat.
Hypothesis adjacent_out : csr_states adjacency = n ∧ ∀ v E, (v < n)%nat → neighbors (E := E) adjacency (id_of v) = Ok (id_of <$> out v).
Hypothesis parts : partitioned n out scc.

Lemma component_get {E} v : (v < n)%nat → ∃ c, vec_get (E := E) (scc_component_of scc) v = Ok (Z.of_nat c) ∧ scc_component_of scc !! v = Some (Z.of_nat c).
Proof using parts. intros Hv. destruct (p_component _ _ _ parts v Hv) as (c & Hc & _). exists c. split; [by apply vec_get_Ok|done]. Qed.

Section Search.
Variables (c : Z) (start goal : nat).
Hypothesis start_bounded : (start < n)%nat.
Hypothesis goal_bounded : (goal < n)%nat.
Hypothesis start_in : scc_component_of scc !! start = Some c.
Hypothesis goal_in : scc_component_of scc !! goal = Some c.

(** [order] lists the states that were found: the predecessor of each is an earlier one. *)
Record found_in (predecessors : list (option StateId)) (order : list nat) : Prop := {
  f_length : length predecessors = n;
  f_nodup : NoDup order;
  f_start : order !! 0%nat = Some start;
  f_member v : v ∈ order → (v < n)%nat ∧ scc_component_of scc !! v = Some c;
  f_known v : (v < n)%nat → v ∉ order → predecessors !! v = Some None;
  f_before j v : order !! j = Some v → ∃ i u, (i ≤ j)%nat ∧ (v ≠ start → (i < j)%nat ∧ v ∈ out u) ∧ order !! i = Some u ∧ predecessors !! v = Some (Some (id_of u));
}.

Lemma walk_back_Ok predecessors order : found_in predecessors order → ∀ j v fuel path, order !! j = Some v → (j < fuel)%nat →
  linked edge (v :: path) →
  ∃ front, walk_back fuel predecessors (id_of start) (id_of v) (id_of <$> (v :: path)) = Ok (id_of <$> (front ++ path)) ∧
    head front = Some start ∧ last front = Some v ∧ linked edge (front ++ path).
Proof using All.
  intros Hf j. induction (lt_wf j) as [j _ IH]. intros v [|fuel] path Hv Hfuel Hl; [lia|]. cbn [walk_back].
  destruct (decide (v = start)) as [->|Hne].
  - rewrite bool_decide_true by done. exists [start]. by split_and!.
  - rewrite bool_decide_false by by intros ?%(inj id_of). rewrite index_id_of. destruct (f_before _ _ Hf j v Hv) as (i & u & _ & Hiu & Hu & Hp). destruct (Hiu Hne) as [Hij Huv].
    rewrite (vec_get_Ok _ _ _ Hp). cbn [mbind outcome_bind ok_or].
    destruct (IH i Hij u fuel (v :: path) Hu ltac:(lia)) as (front & Hw & Hh & Hla & Hli); [by split|]. exists (front ++ [v]). rewrite <-app_assoc. cbn [app].
    split; [exact Hw|]. split; [by destruct front|]. split; [by rewrite last_snoc|done].
Qed.

Lemma found_insert predecessors order i u w : found_in predecessors order → order !! i = Some u → w ∈ out u → (w < n)%nat → scc_component_of scc !! w = Some c → w ∉ order →
  found_in (<[w := Some (id_of u)]> predecessors) (order ++ [w]).
Proof using All.
  intros [Hlen Hnd Hst Hm Hk Hb] Hu Hw Hwn Hwc Hnew. pose proof (lookup_lt_Some _ _ _ Hu) as Hlt. split.
  - by rewrite length_insert.
  - apply NoDup_app. split; [done|]. split; [|apply NoDup_singleton]. by intros v Hv ->%list_elem_of_singleton.
  - by apply lookup_app_l_Some.
  - intros v [Hv| ->%list_elem_of_singleton]%elem_of_app; [by apply Hm|done].
  - intros v Hv Hn. rewrite elem_of_app, list_elem_of_singleton in Hn. rewrite list_lookup_insert_ne by naive_solver. apply Hk; [done|]. naive_solver.
  - intros j v Hv. destruct (proj1 (lookup_snoc _ _ _ _) Hv) as [Hv'|[-> <-]].
    + destruct (Hb j v Hv') as (i' & u' & H1 & H2 & H3 & H4). exists i', u'. split; [done|]. split; [done|]. split; [by apply lookup_app_l_Some|].
      rewrite list_lookup_insert_ne; [done|]. intros ->. apply Hnew. by apply list_elem_of_lookup_2 in Hv'.
    + exists i, u. split; [lia|]. split; [done|]. split; [by apply lookup_app_l_Some|]. apply list_lookup_insert_eq. lia.
Qed.

Lemma discover_all predecessors order i u : found_in predecessors order → order !! i = Some u → ∀ l q, (∀ w, w ∈ l → w ∈ out u) →
  ∃ predecessors' more, foldM (discover scc c (id_of u)) (id_of <$> l) (predecessors, q) = Ok (predecessors', q ++ (id_of <$> more)) ∧ found_in predecessors' (order ++ more) ∧
    ∀ w, w ∈ l → scc_component_of scc !! w = Some c → w ∈ order ++ more.
Proof using All.
  intros Hf Hu l. revert predecessors order Hf Hu. induction l as [|w l IH]; intros predecessors order Hf Hu q Hl; cbn [fmap list_fmap foldM].
  { exists predecessors, []. rewrite !app_nil_r. split; [done|]. split; [done|]. by intros w ?%elem_of_nil. }
  destruct (f_member _ _ Hf u (list_elem_of_lookup_2 _ _ _ Hu)) as [Hun _]. pose proof (Hl w ltac:(left)) as Hw. pose proof (out_bounded u w Hun Hw) as Hwn.
  assert (∀ v, v ∈ l → v ∈ out u) as Hl' by (intros v Hv; apply Hl; by right).
  destruct (component_get (E := LivenessError) w Hwn) as (k & Hkg & Hk). destruct (lookup_lt_is_Some_2 predecessors w) as [p Hp]; [by rewrite (f_length _ _ Hf)|].
  assert (discover scc c (id_of u) (predecessors, q) (id_of w) = if (Z.of_nat k =? c) && bool_decide (p = None) then Ok (<[w := Some (id_of u)]> predecessors, q ++ [id_of w]) else Ok (predecessors, q)) as ->.
  { unfold discover. rewrite index_id_of, Hkg. cbn [mbind outcome_bind]. rewrite (vec_get_Ok _ _ _ Hp). cbn [mbind outcome_bind]. destruct (_ && _); [|done].
    rewrite vec_set_Ok; [done|]. by rewrite (f_length _ _ Hf). }
  destruct (Z.eqb_spec (Z.of_nat k) c) as [Hkc|Hkc]; cbn [andb].
  - destruct (decide (w ∈ order)) as [Hin|Hnin].
    + apply list_elem_of_lookup in Hin as [j Hj]. destruct (f_before _ _ Hf j w Hj) as (_ & u' & _ & _ & _ & Hpw). rewrite Hpw in Hp. injection Hp as <-.
      rewrite bool_decide_false by done. cbn [mbind outcome_bind]. destruct (IH predecessors order Hf Hu q Hl') as (p' & more & He & Hf' & Hc). exists p', more.
      split; [done|]. split; [done|]. intros v [->|Hv]%elem_of_cons Hvc; [|by apply Hc]. rewrite elem_of_app. left. by apply list_elem_of_lookup_2 in Hj.
    + rewrite (f_known _ _ Hf w Hwn Hnin) in Hp. injection Hp as <-. rewrite bool_decide_true by done. cbn [mbind outcome_bind].
      assert (scc_component_of scc !! w = Some c) as Hwc by (rewrite Hk; by f_equal). pose proof (found_insert predecessors order i u w Hf Hu Hw Hwn Hwc Hnin) as Hf1.
      destruct (IH _ (order ++ [w]) Hf1 ltac:(by apply lookup_app_l_Some) (q ++ [id_of w]) Hl') as (p' & more & He & Hf' & Hc). exists p', (w :: more).
      rewrite <-app_assoc in He, Hf'. split; [exact He|]. split; [exact Hf'|]. intros v [->|Hv]%elem_of_cons Hvc; [rewrite elem_of_app; right; left|].
      specialize (Hc v Hv Hvc). by rewrite <-app_assoc in Hc.
  - cbn [mbind outcome_bind]. destruct (IH predecessors order Hf Hu q Hl') as (p' & more & He & Hf' & Hc). exists p', more.
    split; [done|]. split; [done|]. intros v [->|Hv]%elem_of_cons Hvc; [|by apply Hc]. rewrite Hk in Hvc. by injection Hvc.
Qed.

Lemma leave v : reach v goal → scc_component_of scc !! v = Some c → (v < n)%nat → v ≠ goal → ∃ u, u ∈ out v ∧ scc_component_of scc !! u = Some c ∧ (u < n)%nat ∧ reach u goal.
Proof using All.
  intros Hr Hc Hv Hne. pose proof Hr as Hr'. inversion Hr as [|? u ? Hu Hug]; subst; [done|]. pose proof (out_bounded v u Hv Hu) as Hun. exists u. split; [done|].
  split; [|by split]. rewrite <-Hc. apply (p_same _ _ _ parts); [done|done|]. split; [|by apply rtc_once]. etrans; [exact Hug|].
  apply (proj1 (p_same _ _ _ parts goal v goal_bounded Hv)). congruence.
Qed.

Definition searching_in (predecessors : list (option StateId)) (dn qs : list nat) : Prop :=
  found_in predecessors (dn ++ qs) ∧ goal ∉ dn ∧ ∀ v w, v ∈ dn → w ∈ out v → scc_component_of scc !! w = Some c → w ∈ dn ++ qs.

Lemma not_exhausted predecessors dn : searching_in predecessors dn [] → False.
Proof using All.
  unfold searching_in. rewrite app_nil_r. intros (Hf & Hg & Hcl). apply Hg.
  assert (∀ v g, reach v g → g = goal → v ∈ dn → goal ∈ dn) as Hgo.
  { intros v g Hr. induction Hr as [v|v u g Hu Hr IH]; intros -> Hv; [done|]. destruct (f_member _ _ Hf v Hv) as [Hvn Hvc].
    apply IH; [done|]. apply (Hcl v); [done|done|]. pose proof (out_bounded v u Hvn Hu) as Hun. rewrite <-Hvc. apply (p_same _ _ _ parts); [done|done|]. split; [|by apply rtc_once].
    etrans; [exact Hr|]. apply (proj1 (p_same _ _ _ parts goal v goal_bounded Hvn)). congruence. }
  apply (Hgo start goal); [|done|apply list_elem_of_lookup_2 with 0%nat, (f_start _ _ Hf)].
  apply (proj1 (p_same _ _ _ parts start goal start_bounded goal_bounded)). congruence.
Qed.

Lemma path_search_Ok : ∀ fuel predecessors dn qs, searching_in predecessors dn qs → (n < length dn + fuel)%nat →
  ∃ path, path_search fuel adjacency scc c (id_of start) (id_of goal) predecessors (id_of <$> qs) = Ok (id_of <$> path) ∧
    head path = Some start ∧ last path = Some goal ∧ linked edge path.
Proof using All.
  induction fuel as [|fuel IH]; intros predecessors dn qs Hs Hfuel.
  { destruct Hs as (Hf & _ & _). assert (length dn ≤ n)%nat; [|lia]. rewrite <-(length_seq n 0). apply submseteq_length, NoDup_submseteq.
    - exact (proj1 (proj1 (NoDup_app _ _) (f_nodup _ _ Hf))).
    - intros v Hv. rewrite elem_of_seq. destruct (f_member _ _ Hf v); [rewrite elem_of_app; by left|lia]. }
  cbn [path_search]. destruct qs as [|v qs]; [by destruct (not_exhausted predecessors dn)|]. cbn [fmap list_fmap]. destruct Hs as (Hf & Hg & Hcl).
  assert ((dn ++ v :: qs) !! length dn = Some v) as Hv by by rewrite lookup_app_r, Nat.sub_diag.
  destruct (f_member _ _ Hf v (list_elem_of_lookup_2 _ _ _ Hv)) as [Hvn Hvc]. destruct (decide (v = goal)) as [->|Hne].
  - rewrite bool_decide_true by done. rewrite (proj1 adjacent_out). assert (length dn < n)%nat as Hlen.
    { assert (length (dn ++ goal :: qs) ≤ n)%nat as Hle; [|rewrite length_app in Hle; cbn in Hle; lia]. rewrite <-(length_seq n 0). apply submseteq_length, NoDup_submseteq; [apply Hf|].
      intros w Hw. rewrite elem_of_seq. destruct (f_member _ _ Hf w Hw). lia. }
    destruct (walk_back_Ok predecessors _ Hf (length dn) goal (S n) [] Hv ltac:(lia) I) as (front & Hw & Hh & Hl & Hli). rewrite app_nil_r in *. by exists front.
  - rewrite bool_decide_false by by intros ?%(inj id_of). rewrite (proj2 adjacent_out) by done. cbn [mbind outcome_bind].
    destruct (discover_all predecessors _ (length dn) v Hf Hv (out v) (id_of <$> qs) ltac:(done)) as (p' & more & -> & Hf' & Hc). cbn [mbind outcome_bind]. rewrite <-fmap_app.
    apply (IH p' (dn ++ [v]) (qs ++ more)); [|rewrite length_app; cbn; lia]. rewrite <-app_assoc in Hf', Hc. cbn [app] in Hf', Hc. unfold searching_in. rewrite <-app_assoc. cbn [app].
    split; [done|]. split; [rewrite elem_of_app, list_elem_of_singleton; naive_solver|]. intros u w [Hu| ->%list_elem_of_singleton]%elem_of_app Hw Hwc; [|by apply Hc].
    specialize (Hcl u w Hu Hw Hwc). rewrite app_comm_cons, app_assoc, elem_of_app. by left.
Qed.

Lemma path_within_Ok : ∃ path, path_within_component adjacency scc c (id_of start) (id_of goal) = Ok (id_of <$> path) ∧ head path = Some start ∧ last path = Some goal ∧ linked edge path.
Proof using All.
  unfold path_within_component. rewrite (proj1 adjacent_out), index_id_of, vec_set_Ok by by rewrite length_replicate. cbn [mbind outcome_bind].
  apply (path_search_Ok (S n) _ [] [start]); [|cbn; lia]. split; [|split; [apply not_elem_of_nil|by intros v w ?%elem_of_nil]]. cbn [app]. split.
  - by rewrite length_insert, length_replicate.
  - apply NoDup_singleton.
  - done.
  - by intros v ->%list_elem_of_singleton.
  - intros v Hv Hne. rewrite list_elem_of_singleton in Hne. rewrite list_lookup_insert_ne by done. by apply lookup_replicate_2.
  - intros [|j] v Hj; [|by destruct j]. injection Hj as <-. exists 0%nat, start. split; [lia|]. split; [done|]. split; [done|].
    apply list_lookup_insert_eq. by rewrite length_replicate.
Qed.
End Search.
End Lasso.

(** ** What a report says
    The report of an analysis, for any graph and with or without an injected edge or
    removed successors: each list and count is the one its name promises. *)

(** ** What is reported *)

Section Report.
Variable graph : ExplicitGraph.
Variable out : nat → list nat.

Notation n := (length (g_states graph)).
Notation edge := (λ a b, b ∈ out a).
Notation reach := (rtc edge).

Definition holds_at (p : Game → bool) (v : nat) : bool := match g_states graph !! v with Some g => p g | None => false end.

Definition unfinished : nat → bool := holds_at (λ g, negb (is_finished g)).

(** The only successor is the state itself, by the action that absorbs. *)
Definition absorbed (v : nat) : bool :=
  bool_decide (out v = [v]) && existsb (λ e, bool_decide (from e = id_of v) && bool_decide (to e = id_of v) && bool_decide (label e = ActAbsorb)) (g_edges graph).

(** A step lowers the rank by one, or loops at rank zero. *)
Definition descends (v w : nat) : bool :=
  holds_at (λ g, holds_at (λ h, if is_finished g then bool_decide (w = v) && (progress_rank g =? 0) && (progress_rank h =? 0) else progress_rank g =? progress_rank h + 1) w) v.

Definition edge_of (v w : nat) : TemporalEdge := {| te_from := id_of v; te_to := id_of w; te_action := find_action graph (id_of v) (id_of w) |}.

Definition violations (v : nat) : list TemporalEdge := edge_of v <$> List.filter (λ w, negb (descends v w)) (out v).

Definition dead (v : nat) : bool := unfinished v && bool_decide (out v = []).

Definition astray (v : nat) : bool := holds_at is_finished v && negb (absorbed v).

(** A way to a state and a cycle through it, in a component with a game that is not finished *)
Definition lasso_of (l : Lasso) : Prop :=
  ∃ entry cycle v, cycle_states l = id_of <$> cycle ∧ head cycle = Some entry ∧ last cycle = Some entry ∧ (2 ≤ length cycle)%nat ∧ linked edge cycle ∧
    cycle_edges l = cycle_edges_of graph (cycle_states l) ∧ shortest_trace graph (id_of entry) = Ok (Some (prefix l)) ∧
    (entry ∈ out entry → cycle = [entry; entry]) ∧ unfinished v = true ∧ reach entry v ∧ reach v entry.

(** [comp] numbers the classes of states that reach each other by the numbers below [k]. *)
Record classes (comp : nat → nat) (k : nat) : Prop := {
  cl_below v : (v < n)%nat → (comp v < k)%nat;
  cl_onto c : (c < k)%nat → ∃ v, (v < n)%nat ∧ comp v = c;
  cl_same v w : (v < n)%nat → (w < n)%nat → comp v = comp w ↔ reach v w ∧ reach w v;
}.

Definition cyclic_at (comp : nat → nat) (c : nat) : Prop := ∃ v, (v < n)%nat ∧ comp v = c ∧ tc edge v v.

Definition live_at (comp : nat → nat) (c : nat) : Prop := ∃ v, (v < n)%nat ∧ comp v = c ∧ unfinished v = true.

Record analysed (r : LivenessReport) : Prop := {
  a_deadlocks : nonterminal_deadlocks r = id_of <$> List.filter dead (seq 0 n);
  a_terminal : terminal_edge_violations r = id_of <$> List.filter astray (seq 0 n);
  a_progress : progress_violations r = mjoin (violations <$> seq 0 n);
  a_rank : maximum_progress_rank r = foldr Z.max 0 (progress_rank <$> g_states graph);
  a_classes : ∃ comp k cyclic live, classes comp k ∧ strongly_connected_components r = Z.of_nat k ∧
    (∀ c, (c < k)%nat → cyclic c = true ↔ cyclic_at comp c) ∧ (∀ c, (c < k)%nat → live c = true ↔ live_at comp c) ∧
    cyclic_components r = Z.of_nat (length (List.filter cyclic (seq 0 k))) ∧
    nonterminal_cyclic_components r = Z.of_nat (length (List.filter (λ c, cyclic c && live c) (seq 0 k)));
  a_universal : universal_termination r = true ↔
    nonterminal_deadlocks r = [] ∧ terminal_edge_violations r = [] ∧ ∀ v, unfinished v = true → ¬ tc edge v v;
  a_lasso : match lasso r with None => ∀ v, unfinished v = true → ¬ tc edge v v | Some l => lasso_of l ∧ ∃ v, unfinished v = true ∧ tc edge v v end;
}.

Lemma holds_at_bound p v : holds_at p v = true → (v < n)%nat.
Proof using Type. unfold holds_at. destruct (g_states graph !! v) eqn:Hv; [|done]. intros _. by apply lookup_lt_Some in Hv. Qed.
End Report.

(** ** Marks *)

Lemma count_true_seq l : count_true l = Z.of_nat (length (List.filter (λ c, default false (l !! c)) (seq 0 (length l)))).
Proof.
  unfold count_true. f_equal. induction l as [|b l IH] using rev_ind; [done|]. rewrite length_app, Nat.add_1_r, seq_S, !List.filter_app, !length_app. cbn [Nat.add].
  f_equal.
  - rewrite IH. f_equal. apply List.filter_ext_in. intros c Hc%list_elem_of_In%elem_of_seq. by rewrite lookup_app_l by lia.
  - cbn [List.filter]. rewrite lookup_app_r, Nat.sub_diag by lia. cbn. by destruct b.
Qed.

Lemma foldr_max_nonneg l : 0 ≤ foldr Z.max 0 l.
Proof. induction l as [|x l IH]; cbn; lia. Qed.

Lemma filter_length_ext {A} (p q : A → bool) l : (∀ x, x ∈ l → p x = q x) → length (List.filter p l) = length (List.filter q l).
Proof. intros H. f_equal. apply List.filter_ext_in. intros x Hx. by apply H, list_elem_of_In. Qed.

Lemma state_id_Ok n v : Z.of_nat n ≤ 2 ^ 32 → (v < n)%nat → state_id v = Ok (id_of v).
Proof. intros Hn Hv. unfold state_id, checked, in_widthb. by replace ((0 <=? Z.of_nat v) && (Z.of_nat v <? 2 ^ 32)) with true by lia. Qed.

Section Classes.
Variable graph : ExplicitGraph.
Variable out : nat → list nat.
Variable scc : SccResult.

Notation n := (length (g_states graph)).
Notation edge := (λ a b, b ∈ out a).
Notation reach := (rtc edge).

Hypothesis parts : partitioned n out scc.

Definition comp (v : nat) : nat := Z.to_nat (default 0 (scc_component_of scc !! v)).

Notation k := (length (scc_sizes scc)).

Lemma comp_at v : (v < n)%nat → scc_component_of scc !! v = Some (Z.of_nat (comp v)) ∧ (comp v < k)%nat.
Proof using parts. intros Hv. destruct (p_component _ _ _ parts v Hv) as (c & Hc & Hk). unfold comp. rewrite Hc. cbn [default]. unfold id. by rewrite Nat2Z.id. Qed.

Lemma comp_classes : classes graph out comp k.
Proof using parts.
  split.
  - intros v Hv. by apply comp_at.
  - intros c Hc. destruct (p_inhabited _ _ _ parts c Hc) as (v & Hv & Hcv). exists v. split; [done|]. unfold comp. rewrite Hcv. cbn [default]. unfold id. by rewrite Nat2Z.id.
  - intros v w Hv Hw. rewrite <-(p_same _ _ _ parts v w Hv Hw). destruct (comp_at v Hv) as [-> _], (comp_at w Hw) as [-> _]. split; [by intros ->|intros [=]; lia].
Qed.

(** A component with several states has a cycle through each of them. *)
Lemma several c z : scc_sizes scc !! c = Some z → 1 < z → ∃ v w, (v < n)%nat ∧ (w < n)%nat ∧ comp v = c ∧ comp w = c ∧ v ≠ w.
Proof using parts.
  intros Hz H1. rewrite (p_sizes _ _ _ parts c z Hz) in H1. remember (List.filter (λ v, bool_decide (scc_component_of scc !! v = Some (Z.of_nat c))) (seq 0 n)) as l eqn:Hl.
  assert (∀ v, v ∈ l → (v < n)%nat ∧ comp v = c) as Hin.
  { intros v Hv. subst l. apply list_elem_of_In, List.filter_In in Hv as [Hv Hd]. apply list_elem_of_In, elem_of_seq in Hv. apply bool_decide_eq_true in Hd. split; [lia|].
    unfold comp. rewrite Hd. cbn [default]. unfold id. apply Nat2Z.id. }
  assert (NoDup l) as Hnd by (subst l; apply NoDup_ListNoDup, List.NoDup_filter, NoDup_ListNoDup, NoDup_seq).
  destruct l as [|v [|w l]]; [cbn in H1; lia..|]. apply NoDup_cons in Hnd as [Hvw _]. destruct (Hin v ltac:(left)), (Hin w ltac:(right; left)). exists v, w. split_and!; [done..|].
  intros ->. apply Hvw. left.
Qed.

Lemma single c z v w : scc_sizes scc !! c = Some z → (v < n)%nat → (w < n)%nat → comp v = c → comp w = c → v ≠ w → 1 < z.
Proof using parts.
  intros Hz Hv Hw Hvc Hwc Hne. rewrite (p_sizes _ _ _ parts c z Hz).
  assert (length [v; w] ≤ length (List.filter (λ v, bool_decide (scc_component_of scc !! v = Some (Z.of_nat c))) (seq 0 n)))%nat as Hle; [|cbn in Hle; lia].
  apply submseteq_length, NoDup_submseteq.
  - apply NoDup_cons. split; [by rewrite list_elem_of_singleton|apply NoDup_singleton].
  - intros u Hu. apply list_elem_of_In, List.filter_In. rewrite <-list_elem_of_In, elem_of_seq. assert ((u < n)%nat ∧ comp u = c) as [Hun <-] by (apply elem_of_cons in Hu as [->| ->%list_elem_of_singleton]; done).
    split; [lia|]. apply bool_decide_eq_true. by destruct (comp_at u Hun) as [-> _].
Qed.

Hypothesis out_bounded : ∀ v w, (v < n)%nat → w ∈ out v → (w < n)%nat.

Lemma on_cycle v : (v < n)%nat → tc edge v v ↔ v ∈ out v ∨ ∃ w, (w < n)%nat ∧ comp w = comp v ∧ v ≠ w.
Proof using parts out_bounded.
  intros Hv. split.
  - intros Ht. inversion Ht as [? ? Hs|? u ? Hs Hr]; subst; [by left|]. destruct (decide (u = v)) as [->|Hne]; [by left|right]. exists u.
    pose proof (out_bounded v u Hv Hs) as Hu. split; [done|]. split; [|done]. apply (cl_same _ _ _ _ comp_classes); [done..|]. split; [by apply tc_rtc|by apply rtc_once].
  - intros [Hs|(w & Hw & Hc & Hne)]; [by apply tc_once|]. apply (cl_same _ _ _ _ comp_classes) in Hc as [Hwv Hvw]; [|done..].
    destruct Hvw as [v|v u w Hs Hr]; [done|]. eapply tc_rtc_r; [by apply tc_once|]. by etrans.
Qed.
End Classes.

Section Analysis.
Variable graph : ExplicitGraph.
Variable out : nat → list nat.
Variable adjacency : Csr.

Notation n := (length (g_states graph)).
Notation edge := (λ a b, b ∈ out a).
Notation reach := (rtc edge).

Hypothesis small : (Z.of_nat n ≤ 2 ^ 32).
Hypothesis out_bounded : ∀ v w, (v < n)%nat → w ∈ out v → (w < n)%nat.
Hypothesis adjacent_out : csr_states adjacency = n ∧ ∀ v E, (v < n)%nat → neighbors (E := E) adjacency (id_of v) = Ok (id_of <$> out v).

Lemma rank_violations_Ok v g : g_states graph !! v = Some g → ∀ l acc, (∀ w, w ∈ l → (w < n)%nat) →
  foldM (rank_violation graph g (id_of v)) (id_of <$> l) acc = Ok (acc ++ (edge_of graph v <$> List.filter (λ w, negb (descends graph v w)) l)).
Proof using Type.
  intros Hg. induction l as [|w l IH]; intros acc Hl; cbn [fmap list_fmap foldM List.filter]; [by rewrite app_nil_r|].
  destruct (lookup_lt_is_Some_2 (g_states graph) w (Hl w ltac:(left))) as [h Hh].
  assert (rank_violation graph g (id_of v) acc (id_of w) = Ok (if descends graph v w then acc else acc ++ [edge_of graph v w])) as ->.
  { unfold rank_violation, graph_state. rewrite index_id_of, Hh. cbn [ok_or mbind outcome_bind]. unfold descends, holds_at. rewrite Hg, Hh.
    replace (bool_decide (id_of w = id_of v)) with (bool_decide (w = v)) by (apply bool_decide_ext; split; [by intros ->|by intros ?%(inj id_of)]). done. }
  cbn [mbind outcome_bind]. rewrite IH by (intros u Hu; apply Hl; by right). destruct (descends graph v w); cbn [negb fmap list_fmap]; [done|]. by rewrite <-app_assoc.
Qed.

Lemma inspect_all_Ok : ∀ games i f, games = drop i (g_states graph) → 0 ≤ top_rank f →
  inspect_all graph adjacency i games f = Ok
    {| deadlocks := deadlocks f ++ (id_of <$> List.filter (dead graph out) (seq i (length games)));
       terminal_violations := terminal_violations f ++ (id_of <$> List.filter (astray graph out) (seq i (length games)));
       rank_violations := rank_violations f ++ mjoin (violations graph out <$> seq i (length games));
       top_rank := Z.max (top_rank f) (foldr Z.max 0 (progress_rank <$> games)) |}.
Proof using small out_bounded adjacent_out.
  induction games as [|g games IH]; intros i f Hd Ht; cbn [inspect_all length seq List.filter fmap list_fmap mjoin list_join foldr].
  { rewrite !app_nil_r. destruct f as [d t r m]. cbn [deadlocks terminal_violations rank_violations top_rank] in *. do 2 f_equal. lia. }
  assert (g_states graph !! i = Some g) as Hg by (rewrite <-(Nat.add_0_r i), <-lookup_drop, <-Hd; done). pose proof (lookup_lt_Some _ _ _ Hg) as Hi.
  assert (games = drop (S i) (g_states graph)) as Hd' by (rewrite (drop_S _ _ _ Hg) in Hd; by injection Hd).
  assert (inspect graph adjacency i g f = Ok
    {| deadlocks := deadlocks f ++ (if dead graph out i then [id_of i] else []); terminal_violations := terminal_violations f ++ (if astray graph out i then [id_of i] else []);
       rank_violations := rank_violations f ++ violations graph out i; top_rank := Z.max (top_rank f) (progress_rank g) |}) as ->.
  { unfold inspect. rewrite (state_id_Ok n i small Hi). cbn [mbind outcome_bind]. rewrite (proj2 adjacent_out) by done. cbn [mbind outcome_bind].
    rewrite (rank_violations_Ok i g Hg) by (intros w; by apply out_bounded). cbn [mbind outcome_bind]. do 2 f_equal.
    - unfold dead, unfinished, holds_at. rewrite Hg. replace (bool_decide (id_of <$> out i = [])) with (bool_decide (out i = [])); [by destruct (_ && _); rewrite ?app_nil_r|].
      apply bool_decide_ext. by destruct (out i).
    - unfold astray, holds_at, absorbed. rewrite Hg. replace (bool_decide (id_of <$> out i = [id_of i])) with (bool_decide (out i = [i])); [by destruct (_ && _); rewrite ?app_nil_r|].
      apply bool_decide_ext. split; [by intros ->|]. change [id_of i] with (id_of <$> [i]). by intros ?%(inj (fmap id_of)). }
  cbn [mbind outcome_bind]. rewrite (IH (S i)) by (cbn [top_rank]; done || lia). cbn [deadlocks terminal_violations rank_violations top_rank]. do 2 f_equal.
  - rewrite <-app_assoc. by destruct (dead graph out i).
  - rewrite <-app_assoc. by destruct (astray graph out i).
  - by rewrite <-app_assoc.
  - lia.
Qed.

Section Components.
Variable scc : SccResult.
Hypothesis parts : partitioned n out scc.

Notation k := (length (scc_sizes scc)).
Notation comp := (comp scc).

Lemma mark_Ok : ∀ games i cyclic live, games = drop i (g_states graph) → length cyclic = k → length live = k →
  ∃ cyclic' live', mark adjacency scc i games cyclic live = Ok (cyclic', live') ∧ length cyclic' = k ∧ length live' = k ∧
    (∀ c, cyclic' !! c = Some true ↔ cyclic !! c = Some true ∨ ∃ v, (i ≤ v < n)%nat ∧ comp v = c ∧ v ∈ out v) ∧
    (∀ c, live' !! c = Some true ↔ live !! c = Some true ∨ ∃ v, (i ≤ v < n)%nat ∧ comp v = c ∧ unfinished graph v = true).
Proof using small adjacent_out parts.
  induction games as [|g games IH]; intros i cyclic live Hd Hc Hl; cbn [mark].
  { exists cyclic, live. assert (n ≤ i)%nat as Hi by (apply (f_equal length) in Hd; rewrite length_drop in Hd; cbn [length] in Hd; lia).
    split_and!; [done..| |]; intros c; (split; [by left|]; intros [?|(v & ? & _)]; [done|lia]). }
  assert (g_states graph !! i = Some g) as Hg by (rewrite <-(Nat.add_0_r i), <-lookup_drop, <-Hd; done). pose proof (lookup_lt_Some _ _ _ Hg) as Hi.
  assert (games = drop (S i) (g_states graph)) as Hd' by (rewrite (drop_S _ _ _ Hg) in Hd; by injection Hd).
  destruct (comp_at graph out scc parts i Hi) as [Hci Hck]. rewrite (vec_get_Ok _ _ _ Hci). cbn [mbind outcome_bind]. rewrite Nat2Z.id.
  destruct (lookup_lt_is_Some_2 live (comp i) ltac:(lia)) as [old Hold]. rewrite (vec_get_Ok _ _ _ Hold). cbn [mbind outcome_bind]. rewrite (vec_set_Ok live) by lia. cbn [mbind outcome_bind].
  rewrite (state_id_Ok n i small Hi). cbn [mbind outcome_bind]. rewrite (proj2 adjacent_out) by done. cbn [mbind outcome_bind].
  assert (bool_decide (id_of i ∈ id_of <$> out i) = bool_decide (i ∈ out i)) as ->.
  { apply bool_decide_ext. rewrite list_elem_of_fmap. split; [by intros (j & ->%(inj id_of) & Hj)|]. intros Hj. by exists i. }
  assert (∀ c, <[comp i := old || negb (is_finished g)]> live !! c = Some true ↔ live !! c = Some true ∨ comp i = c ∧ unfinished graph i = true) as Hlive.
  { intros c. rewrite lookup_set by lia. unfold unfinished, holds_at. rewrite Hg. destruct (decide (c = comp i)) as [->|Hne]; [|naive_solver]. rewrite Hold.
    destruct old, (is_finished g); cbn; naive_solver. }
  assert (∃ cyc, (if bool_decide (i ∈ out i) then vec_set cyclic (comp i) true else Ok cyclic : outcome LivenessError (list bool)) = Ok cyc ∧ length cyc = k ∧
    ∀ c, cyc !! c = Some true ↔ cyclic !! c = Some true ∨ comp i = c ∧ i ∈ out i) as (cyc & -> & Hcl & Hcyc).
  { case_bool_decide as Hself; [|exists cyclic; naive_solver]. rewrite vec_set_Ok by lia. eexists. split; [done|]. rewrite length_insert. split; [done|]. intros c.
    rewrite lookup_set by lia. destruct (decide (c = comp i)) as [->|Hne]; naive_solver. }
  cbn [mbind outcome_bind].
  destruct (IH (S i) cyc (<[comp i := old || negb (is_finished g)]> live) Hd' Hcl ltac:(by rewrite length_insert)) as (cyclic' & live' & -> & H1 & H2 & H3 & H4).
  exists cyclic', live'. split; [done|]. split; [done|]. split; [done|].
  assert (∀ (P : nat → Prop) c, (∃ v, (i ≤ v < n)%nat ∧ comp v = c ∧ P v) ↔ (comp i = c ∧ P i) ∨ ∃ v, (S i ≤ v < n)%nat ∧ comp v = c ∧ P v) as Hsplit.
  { intros P c. split.
    - intros (v & Hv & Hvc & HP). destruct (decide (v = i)) as [->|Hne]; [by left|right; exists v; split; [lia|done]].
    - intros [[Hvc HP]|(v & Hv & Hvc & HP)]; [exists i; split; [lia|done]|exists v; split; [lia|done]]. }
  split; intros c.
  - rewrite H3, Hcyc, (Hsplit (λ v, v ∈ out v)). tauto.
  - rewrite H4, Hlive, (Hsplit (λ v, unfinished graph v = true)). tauto.
Qed.


(** ** Lassos *)

Hypothesis traced : ∀ v, (v < n)%nat → ∃ ce, shortest_trace graph (id_of v) = Ok (Some ce).

Lemma find_inside_Ok c l w : (∀ v, v ∈ l → (v < n)%nat) → w ∈ l → comp w = c →
  ∃ v, find_inside scc (Z.of_nat c) (id_of <$> l) = Ok (Some (id_of v)) ∧ v ∈ l ∧ comp v = c.
Proof using parts.
  induction l as [|v l IH]; intros Hl Hw Hc; [by apply elem_of_nil in Hw|]. cbn [fmap list_fmap find_inside]. rewrite index_id_of.
  destruct (comp_at graph out scc parts v (Hl v ltac:(left))) as [Hv _]. rewrite (vec_get_Ok _ _ _ Hv). cbn [mbind outcome_bind].
  destruct (Z.eqb_spec (Z.of_nat (comp v)) (Z.of_nat c)) as [Heq|Hne].
  - exists v. split; [done|]. split; [left|]. by apply Nat2Z.inj.
  - apply elem_of_cons in Hw as [->|Hw]; [by rewrite Hc in Hne|]. destruct (IH ltac:(intros u Hu; apply Hl; by right) Hw Hc) as (u & Hu & Hin & Huc). exists u. split; [done|]. split; [by right|done].
Qed.

Lemma build_lasso_Ok c v : cyclic_at graph out comp c → (v < n)%nat → comp v = c → unfinished graph v = true →
  ∃ l, build_lasso graph adjacency scc (Z.of_nat c) = Ok l ∧ lasso_of graph out l.
Proof using parts traced out_bounded adjacent_out small.
  intros (u & Hu & Huc & Ht) Hv Hvc Hlive. unfold build_lasso. destruct (comp_at graph out scc parts v Hv) as [Hvz _]. rewrite Hvc in Hvz.
  destruct (list_find (λ c0, c0 = Z.of_nat c) (scc_component_of scc)) as [[entry z]|] eqn:Hfind.
  2:{ exfalso. apply list_find_None in Hfind. by apply (proj1 (Forall_forall _ _) Hfind _ (list_elem_of_lookup_2 _ _ _ Hvz)). }
  apply list_find_Some in Hfind as (He & -> & _). cbn [ok_or mbind outcome_bind fst].
  assert (entry < n)%nat as Hen by (apply lookup_lt_Some in He; by rewrite (p_length _ _ _ parts) in He). rewrite (state_id_Ok n entry small Hen). cbn [mbind outcome_bind].
  rewrite (proj2 adjacent_out) by done. cbn [mbind outcome_bind]. assert (comp entry = c) as Hec by (unfold comp; rewrite He; cbn [default]; unfold id; apply Nat2Z.id).
  destruct (traced entry Hen) as [ce Hce].
  assert (reach entry v ∧ reach v entry) as [Hev Hve] by (apply (cl_same _ _ _ _ (comp_classes graph out scc parts)); congruence).
  replace (bool_decide (id_of entry ∈ id_of <$> out entry)) with (bool_decide (entry ∈ out entry))
    by (apply bool_decide_ext; rewrite list_elem_of_fmap; split; [intros Hj; by exists entry|by intros (j & ->%(inj id_of) & Hj)]).
  case_bool_decide as Hself.
  - cbn [mbind outcome_bind]. rewrite Hce. cbn [expect_ok ok_or mbind outcome_bind]. eexists. split; [done|]. exists entry, [entry; entry], v. cbn [cycle_states cycle_edges prefix].
    split_and!; try done; cbn; lia.
  - assert (∃ w, (w < n)%nat ∧ comp w = comp entry ∧ entry ≠ w) as (w & Hw & Hwc & Hne).
    { destruct (decide (u = entry)) as [->|Hue]; [|exists u; split; [done|]; split; congruence]. by apply (on_cycle graph out scc parts out_bounded entry Hen) in Ht as [?|?]. }
    apply (cl_same _ _ _ _ (comp_classes graph out scc parts)) in Hwc as [Hwe Hew]; [|done..].
    inversion Hew as [|? x ? Hx Hxw]; subst; [done|]. pose proof (out_bounded entry x Hen Hx) as Hxn.
    assert (comp x = comp entry) as Hxc by (apply (cl_same _ _ _ _ (comp_classes graph out scc parts)); [done..|]; split; [by etrans|by apply rtc_once]).
    destruct (find_inside_Ok (comp u) (out entry) x ltac:(intros y; by apply out_bounded) Hx ltac:(congruence)) as (y & -> & Hy & Hyc). cbn [ok_or mbind outcome_bind].
    pose proof (out_bounded entry y Hen Hy) as Hyn. destruct (comp_at graph out scc parts y Hyn) as [Hyz _]. rewrite Hyc in Hyz.
    destruct (path_within_Ok n adjacency out scc out_bounded adjacent_out parts (Z.of_nat (comp u)) y entry Hyn Hen Hyz He) as (path & -> & Hh & Hl & Hli). cbn [mbind outcome_bind].
    rewrite Hce. cbn [expect_ok ok_or mbind outcome_bind]. eexists. split; [done|]. exists entry, (entry :: path), v. cbn [cycle_states cycle_edges prefix].
    destruct path as [|p path]; [done|]. injection Hh as ->. split_and!; try done; cbn; lia.
Qed.
End Components.

(** ** The report *)

Hypothesis traced : ∀ v, (v < n)%nat → ∃ ce, shortest_trace graph (id_of v) = Ok (Some ce).

Lemma analysed_Ok injected r : csr_from_graph graph injected r = Ok adjacency → ∃ report, analyze graph injected r = Ok report ∧ analysed graph out report.
Proof using small out_bounded adjacent_out traced.
  intros Hcsr. unfold analyze. rewrite Hcsr. cbn [mbind outcome_bind].
  rewrite (inspect_all_Ok (g_states graph) 0) by (done || cbn; lia). cbn [mbind outcome_bind deadlocks terminal_violations rank_violations top_rank app].
  destruct (components_exact n adjacency out small out_bounded adjacent_out (E := LivenessError)) as (scc & -> & parts). cbn [mbind outcome_bind].
  pose proof (comp_classes graph out scc parts) as Hcl.
  destruct (mark_Ok scc parts (g_states graph) 0 ((λ size, 1 <? size) <$> scc_sizes scc) (replicate (length (scc_sizes scc)) false) eq_refl) as (cyclic & live & -> & Hcyl & Hlil & Hcy & Hli);
    [by rewrite length_fmap|by rewrite length_replicate|]. cbn [mbind outcome_bind]. set (k := length (scc_sizes scc)) in *.
  assert (∀ c, (c < k)%nat → default false (cyclic !! c) = true ↔ cyclic_at graph out (comp scc) c) as Hcyclic.
  { intros c Hc. assert (default false (cyclic !! c) = true ↔ cyclic !! c = Some true) as -> by (destruct (cyclic !! c) as [[]|]; naive_solver). rewrite Hcy, list_lookup_fmap.
    destruct (lookup_lt_is_Some_2 (scc_sizes scc) c Hc) as [z Hz]. rewrite Hz. cbn [fmap option_fmap option_map]. split.
    - intros [[= Hb%Z.ltb_lt]|(v & Hv & Hvc & Hself)].
      + destruct (several graph out scc parts c z Hz Hb) as (v & w & Hv & Hw & Hvc & Hwc & Hne). exists v. split; [done|]. split; [done|].
        apply (on_cycle graph out scc parts out_bounded v Hv). right. exists w. split; [done|]. split; [congruence|done].
      + exists v. split; [lia|]. split; [done|]. by apply tc_once.
    - intros (v & Hv & Hvc & Ht). apply (on_cycle graph out scc parts out_bounded v Hv) in Ht as [Hself|(w & Hw & Hwc & Hne)].
      + right. exists v. split; [lia|done].
      + left. f_equal. apply Z.ltb_lt. apply (single graph out scc parts c z v w); congruence. }
  assert (∀ c, (c < k)%nat → default false (live !! c) = true ↔ live_at graph (comp scc) c) as Hlive.
  { intros c Hc. assert (default false (live !! c) = true ↔ live !! c = Some true) as -> by (destruct (live !! c) as [[]|]; naive_solver). rewrite Hli. split.
    - intros [Hr|(v & Hv & Hvc & Hu)]; [|exists v; split; [lia|done]]. rewrite lookup_replicate_2 in Hr by done. done.
    - intros (v & Hv & Hvc & Hu). right. exists v. split; [lia|done]. }
  assert (∀ c b, zip_with andb cyclic live !! c = Some b → (c < k)%nat ∧ b = default false (cyclic !! c) && default false (live !! c)) as Hboth.
  { intros c b. rewrite lookup_zip_with_Some. intros (x & y & -> & Hx & Hy). rewrite Hx, Hy. split; [|done]. apply lookup_lt_Some in Hx. lia. }
  assert (length (zip_with andb cyclic live) = k) as Hbl by (rewrite length_zip_with; lia).
  assert (∀ v, unfinished graph v = true → tc edge v v → ∃ c, (c < k)%nat ∧ zip_with andb cyclic live !! c = Some true) as Hbad.
  { intros v Hu Ht. pose proof (holds_at_bound graph _ v Hu) as Hv. pose proof (cl_below _ _ _ _ Hcl v Hv) as Hck. exists (comp scc v). split; [done|].
    destruct (lookup_lt_is_Some_2 (zip_with andb cyclic live) (comp scc v) ltac:(lia)) as [b Hb]. rewrite Hb. destruct (Hboth _ _ Hb) as [_ ->]. f_equal. apply andb_true_iff. split.
    - apply Hcyclic; [done|]. by exists v.
    - apply Hlive; [done|]. by exists v. }
  assert (∀ c, zip_with andb cyclic live !! c = Some true → cyclic_at graph out (comp scc) c ∧ live_at graph (comp scc) c) as Hgood.
  { intros c Hb. destruct (Hboth _ _ Hb) as [Hc Heq]. symmetry in Heq. apply andb_true_iff in Heq as [H1 H2]. split; [by apply Hcyclic|by apply Hlive]. }
  assert (∀ c, cyclic_at graph out (comp scc) c → live_at graph (comp scc) c → ∃ v, unfinished graph v = true ∧ tc edge v v) as Hwit.
  { intros c (u & Hu & Huc & Ht) (v & Hv & Hvc & Hun). exists v. split; [done|]. destruct (decide (u = v)) as [->|Hne]; [done|].
    apply (on_cycle graph out scc parts out_bounded v Hv). right. exists u. split; [done|]. split; [congruence|done]. }
  assert (count_true (zip_with andb cyclic live) = 0 ↔ ∀ v, unfinished graph v = true → ¬ tc edge v v) as Hzero.
  { rewrite count_true_seq, Hbl. split.
    - intros H0 v Hu Ht. destruct (Hbad v Hu Ht) as (c & Hc & Hb). assert (c ∈ List.filter (λ c, default false (zip_with andb cyclic live !! c)) (seq 0 k)) as Hin.
      { apply list_elem_of_In, List.filter_In. rewrite <-list_elem_of_In, elem_of_seq, Hb. split; [lia|done]. }
      destruct (List.filter _ _); [by apply elem_of_nil in Hin|cbn in H0; lia].
    - intros Hno. assert (List.filter (λ c, default false (zip_with andb cyclic live !! c)) (seq 0 k) = []) as ->; [|done].
      apply elem_of_nil_inv. intros c Hin. apply list_elem_of_In, List.filter_In in Hin as [_ Hb]. destruct (zip_with andb cyclic live !! c) as [[]|] eqn:Hz; try done.
      destruct (Hgood c Hz) as [Hc Hl]. destruct (Hwit c Hc Hl) as (v & Hu & Ht). by apply (Hno v). }
  assert (∃ o, match list_find (λ b, b = true) (zip_with andb cyclic live) with
               | Some (component, _) => l ← build_lasso graph adjacency scc (Z.of_nat component); Ok (Some l)
               | None => Ok None
               end = Ok o ∧ match o with None => ∀ v, unfinished graph v = true → ¬ tc edge v v | Some l => lasso_of graph out l ∧ ∃ v, unfinished graph v = true ∧ tc edge v v end) as (o & -> & Ho).
  { destruct (list_find _ _) as [[c b]|] eqn:Hfind.
    - apply list_find_Some in Hfind as (Hb & -> & _). destruct (Hgood c Hb) as [Hc Hl]. pose proof Hl as (v & Hv & Hvc & Hu).
      destruct (build_lasso_Ok scc parts traced c v Hc Hv Hvc Hu) as (l & -> & Hlo). exists (Some l). split; [done|]. split; [done|]. by apply (Hwit c).
    - exists None. split; [done|]. apply list_find_None in Hfind. intros v Hu Ht. destruct (Hbad v Hu Ht) as (c & _ & Hb).
      by apply (proj1 (Forall_forall _ _) Hfind _ (list_elem_of_lookup_2 _ _ _ Hb)). }
  cbn [mbind outcome_bind]. eexists. split; [done|]. split; cbn.
  - done.
  - done.
  - done.
  - by rewrite Z.max_r by apply foldr_max_nonneg.
  - exists (comp scc), k, (λ c, default false (cyclic !! c)), (λ c, default false (live !! c)). split; [done|]. split; [done|]. split; [done|]. split; [done|].
    rewrite !count_true_seq, Hbl, Hcyl. split; [done|]. f_equal. apply filter_length_ext. intros c Hc%elem_of_seq.
    destruct (lookup_lt_is_Some_2 (zip_with andb cyclic live) c ltac:(lia)) as [b Hb]. rewrite Hb. by destruct (Hboth _ _ Hb) as [_ ->].
  - rewrite !andb_true_iff, !bool_decide_eq_true, Z.eqb_eq, Hzero. tauto.
  - done.
Qed.
End Analysis.
