(* ===== verification/LivenessTheorems.v ===== *)
(** * The liveness pass: properties

    What an analysis reports of any graph, and what it reports of the six-card model, as
    it is, with an edge injected and with the successors of a state removed. *)

From Stdlib Require Import ZifyBool.
From stdpp Require Import base strings numbers option list relations.
From S2P Require Import Prelude Domain DomainLaws Formal ModelFinite ModelKernels ModelState ModelSemantics ModelDeals ModelInvariant ModelRules ModelProperty ModelTheorems Explore ExploreTheorems ExploreModel ExploreProperties Liveness LivenessCsr LivenessScc LivenessAnalysis.

Local Open Scope Z_scope.

(** ** Any graph *)

(** The successors an analysis sees *)
Definition out_of (graph : ExplicitGraph) (injected : option (StateId * StateId)) (r : option StateId) (v : nat) : list nat :=
  index <$> row (pairs_of (g_edges graph) injected r) v.

(** A graph whose edges join its states, with a trace to each state *)
Record sane (graph : ExplicitGraph) : Prop := {
  n_small : Z.of_nat (length (g_states graph)) ≤ 2 ^ 32;
  n_few : Z.of_nat (length (g_edges graph)) + 1 < 2 ^ 64;
  n_inside e : e ∈ g_edges graph → inside (length (g_states graph)) (from e, to e);
  n_traced v : (v < length (g_states graph))%nat → ∃ ce, shortest_trace graph (id_of v) = Ok (Some ce);
}.

Lemma sane_pairs graph injected r : sane graph → (∀ p, injected = Some p → inside (length (g_states graph)) p) →
  Forall (inside (length (g_states graph))) (pairs_of (g_edges graph) injected r) ∧ Z.of_nat (length (pairs_of (g_edges graph) injected r)) < 2 ^ 64.
Proof.
  intros Hs Hi. split.
  - apply Forall_app. split.
    + apply Forall_forall. intros p (e & -> & He)%list_elem_of_fmap. apply list_elem_of_In, List.filter_In in He as [He _]. apply (n_inside _ Hs). by apply list_elem_of_In.
    + destruct injected as [p|]; [|done]. apply Forall_singleton. by apply Hi.
  - pose proof (n_few _ Hs). unfold pairs_of, edge_pairs. rewrite length_app, length_fmap. pose proof (filter_length (λ e, negb (removed r e)) (g_edges graph)).
    destruct injected; cbn [option_list option_rect length]; lia.
Qed.

Lemma row_index pairs n v : Forall (inside n) pairs → row pairs v = id_of <$> (index <$> row pairs v) ∧ ∀ w, w ∈ index <$> row pairs v → (w < n)%nat.
Proof.
  intros Hp. assert (∀ x, x ∈ row pairs v → ∃ j, x = id_of j ∧ (j < n)%nat) as Hrow.
  { intros x (p & -> & Hin)%list_elem_of_fmap. apply list_elem_of_In, List.filter_In in Hin as [Hin _]. apply list_elem_of_In in Hin.
    destruct (proj1 (Forall_forall _ _) Hp p Hin) as (i & j & -> & _ & Hj). by exists j. }
  split.
  - rewrite <-list_fmap_compose. symmetry. rewrite <-(list_fmap_id (row pairs v)) at 2. apply list_fmap_ext. intros k x Hx. apply list_elem_of_lookup_2 in Hx.
    destruct (Hrow x Hx) as (j & -> & _). cbn. by rewrite index_id_of.
  - intros w (x & -> & Hx)%list_elem_of_fmap. destruct (Hrow x Hx) as (j & -> & Hj). by rewrite index_id_of.
Qed.

Lemma analysis_Ok graph injected r : sane graph → (∀ p, injected = Some p → inside (length (g_states graph)) p) →
  ∃ report, analyze graph injected r = Ok report ∧ analysed graph (out_of graph injected r) report.
Proof.
  intros Hs Hi. destruct (sane_pairs graph injected r Hs Hi) as [Hin Hlen]. destruct (csr_Ok graph injected r Hin Hlen) as (adjacency & Hcsr & Hst & Hnb).
  apply (analysed_Ok graph (out_of graph injected r) adjacency); [apply (n_small _ Hs)| | |apply (n_traced _ Hs)|exact Hcsr].
  - intros v w _. apply (row_index _ _ v Hin).
  - split; [done|]. intros v E Hv. unfold out_of. rewrite <-(proj1 (row_index _ _ v Hin)). by apply Hnb.
Qed.

(** [C36] On every graph whose edges join its states, with or without an injected edge or removed successors, the analysis ends without
    an error and reports exactly the states that are stuck before the end, those that are finished but do not absorb, and the edges
    that do not descend the rank; it counts the classes of states that reach each other, those with a cycle and those where a game
    that is not finished is on one; it calls the graph terminating exactly when no state is stuck, every finished one absorbs and no
    game that is not finished is on a cycle; and it gives a lasso, a trace and a real cycle, exactly when such a game is on one. *)
Theorem analysis_exact graph injected r : sane graph → (∀ p, injected = Some p → inside (length (g_states graph)) p) →
  ∃ report, analyze graph injected r = Ok report ∧ analysed graph (out_of graph injected r) report.
Proof. apply analysis_Ok. Qed.

(** ** Ranked graphs *)

Section Ranked.
Variable graph : ExplicitGraph.
Variable out : nat → list nat.
Variable rank : nat → Z.

Notation n := (length (g_states graph)).
Notation edge := (λ a b, b ∈ out a).
Notation reach := (rtc edge).

Hypothesis ranked : ∀ v w, w ∈ out v → w = v ∨ rank w < rank v.

Lemma ranked_reach v w : reach v w → v = w ∨ rank w < rank v.
Proof using ranked.
  intros Hr. induction Hr as [v|v u w Hu _ [->|IH]]; [by left| |]; (destruct (ranked _ _ Hu) as [->|?]; [|right; lia]); [by left|by right].
Qed.

Lemma ranked_same v w : reach v w → reach w v → v = w.
Proof using ranked. intros [|H1]%ranked_reach [|H2]%ranked_reach; [done..|lia]. Qed.

Lemma ranked_cycle v : tc edge v v ↔ v ∈ out v.
Proof using ranked.
  split; [|intros Hs; by apply tc_once]. intros Ht. inversion Ht as [? ? Hs|? u ? Hs Hr]; subst; [done|]. assert (u = v) as ->; [|done].
  apply ranked_same; [by apply tc_rtc|by apply rtc_once].
Qed.

Section Count.
Variables (comp : nat → nat) (k : nat).
Hypothesis cl : classes graph out comp k.

Lemma classes_permutation : comp <$> seq 0 n ≡ₚ seq 0 k.
Proof using cl ranked.
  assert (∀ v w, v ∈ seq 0 n → w ∈ seq 0 n → comp v = comp w → v = w) as Hinj.
  { intros v w Hv%elem_of_seq Hw%elem_of_seq [H1 H2]%(cl_same _ _ _ _ cl); [by apply ranked_same|lia..]. }
  apply NoDup_Permutation; [|apply NoDup_seq|].
  - apply NoDup_fmap_2_strong; [intros v w Hv Hw; by apply Hinj|apply NoDup_seq].
  - intros c. rewrite list_elem_of_fmap, elem_of_seq. split.
    + intros (v & -> & Hv%elem_of_seq). split; [lia|]. apply (cl_below _ _ _ _ cl). lia.
    + intros [_ Hc]. destruct (cl_onto _ _ _ _ cl c Hc) as (v & Hv & <-). exists v. split; [done|]. rewrite elem_of_seq. lia.
Qed.

Lemma classes_number : k = n.
Proof using cl ranked. pose proof (Permutation_length classes_permutation) as Hl. by rewrite length_fmap, !length_seq in Hl. Qed.

Lemma Permutation_filter {A} (p : A → bool) l l' : l ≡ₚ l' → length (List.filter p l) = length (List.filter p l').
Proof using Type. induction 1 as [|x l l' _ IH|x y l|l l' l'' _ IH _ IH']; cbn; [done|destruct (p x); cbn; by rewrite ?IH|by destruct (p x), (p y)|by rewrite IH]. Qed.

Lemma classes_count (p q : nat → bool) : (∀ v, (v < n)%nat → p (comp v) = q v) → length (List.filter p (seq 0 k)) = length (List.filter q (seq 0 n)).
Proof using cl ranked.
  intros Hpq. rewrite <-(Permutation_filter p _ _ classes_permutation). assert (∀ v, v ∈ seq 0 n → p (comp v) = q v) as Hin by (intros v Hv%elem_of_seq; apply Hpq; lia).
  revert Hin. generalize (seq 0 n). intros l. induction l as [|v l IH]; intros Hin; [done|]. cbn [fmap list_fmap List.filter]. rewrite (Hin v ltac:(left)).
  destruct (q v); cbn [length]; rewrite IH; try done; intros w Hw; apply Hin; by right.
Qed.

Lemma alone c v : (v < n)%nat → comp v = c → ∀ w, (w < n)%nat → comp w = c → w = v.
Proof using cl ranked. intros Hv Hc w Hw Hwc. apply ranked_same; apply (cl_same _ _ _ _ cl w v Hw Hv); congruence. Qed.

Lemma cyclic_alone (cyclic : nat → bool) v : (∀ c, (c < k)%nat → cyclic c = true ↔ cyclic_at graph out comp c) → (v < n)%nat → cyclic (comp v) = bool_decide (v ∈ out v).
Proof using cl ranked.
  intros Hc Hv. apply eq_true_iff_eq. rewrite Hc, bool_decide_eq_true by by apply (cl_below _ _ _ _ cl). split.
  - intros (w & Hw & Hwc & Ht). rewrite <-(alone (comp v) v Hv eq_refl w Hw Hwc). by apply ranked_cycle.
  - intros Hs. exists v. split; [done|]. split; [done|]. by apply tc_once.
Qed.

Lemma live_alone (live : nat → bool) v : (∀ c, (c < k)%nat → live c = true ↔ live_at graph comp c) → (v < n)%nat → live (comp v) = unfinished graph v.
Proof using cl ranked.
  intros Hc Hv. apply eq_true_iff_eq. rewrite Hc by by apply (cl_below _ _ _ _ cl). split.
  - intros (w & Hw & Hwc & Ht). by rewrite <-(alone (comp v) v Hv eq_refl w Hw Hwc).
  - intros Hs. by exists v.
Qed.
End Count.

(** Every state is a class of its own. *)
Lemma ranked_counts report : analysed graph out report →
  strongly_connected_components report = Z.of_nat n ∧
  cyclic_components report = Z.of_nat (length (List.filter (λ v, bool_decide (v ∈ out v)) (seq 0 n))) ∧
  nonterminal_cyclic_components report = Z.of_nat (length (List.filter (λ v, bool_decide (v ∈ out v) && unfinished graph v) (seq 0 n))).
Proof using ranked.
  intros Ha. destruct (a_classes _ _ _ Ha) as (comp & k & cyclic & live & Hcl & -> & Hc & Hl & -> & ->). split; [by rewrite (classes_number comp k Hcl)|]. split; f_equal.
  - apply (classes_count comp k Hcl). intros v Hv. by apply (cyclic_alone comp k Hcl).
  - apply (classes_count comp k Hcl). intros v Hv. by rewrite (cyclic_alone comp k Hcl cyclic v Hc Hv), (live_alone comp k Hcl live v Hl Hv).
Qed.

Lemma linked_reach l a b : linked edge (a :: l) → last (a :: l) = Some b → reach a b.
Proof using Type.
  revert a. induction l as [|c l IH]; intros a Hl Hb; [by injection Hb as ->|]. destruct Hl as [Hac Hl]. eapply rtc_l; [exact Hac|]. apply IH; [done|]. by rewrite last_cons_cons in Hb.
Qed.

(** A lasso goes around one state. *)
Lemma ranked_lasso l : lasso_of graph out l → ∃ v, cycle_states l = [id_of v; id_of v] ∧ cycle_edges l = [edge_of graph v v] ∧ v ∈ out v ∧ unfinished graph v = true ∧
  shortest_trace graph (id_of v) = Ok (Some (prefix l)).
Proof using ranked.
  intros (entry & cycle & v & Hcs & Hh & Hla & Hlen & Hli & Hce & Htr & Hone & Hu & Hev & Hve). pose proof (ranked_same entry v Hev Hve) as ->.
  destruct cycle as [|a [|b cycle]]; [done|cbn in Hlen; lia|]. injection Hh as ->. destruct Hli as [Hvb Hli]. rewrite last_cons_cons in Hla.
  assert (b = v) as -> by (apply ranked_same; [by apply (linked_reach cycle)|by apply rtc_once]). specialize (Hone Hvb). exists v. rewrite Hce, Hcs, Hone. by split_and!.
Qed.
End Ranked.

(** ** Blocks of edges *)

Section Blocks.
Context {A B : Type}.
Variable f : A → list B.

Definition blocks (k : nat) (l : list A) : list (StateId * B) := mjoin (imap (λ i y, pair (id_of (k + i)) <$> f y) l).

Lemma blocks_cons k y l : blocks k (y :: l) = (pair (id_of k) <$> f y) ++ blocks (S k) l.
Proof using Type.
  unfold blocks. cbn [imap mjoin list_join]. rewrite Nat.add_0_r. f_equal. f_equal. apply imap_ext. intros i x _. cbn. by rewrite <-Nat.add_succ_comm.
Qed.

Lemma filter_block k j l : List.filter (λ p : StateId * B, bool_decide (p.1 = id_of j)) (pair (id_of k) <$> l) = if decide (k = j) then pair (id_of k) <$> l else [].
Proof using Type.
  induction l as [|x l IH]; cbn [fmap list_fmap List.filter fst]; [by destruct (decide (k = j))|]. rewrite IH. destruct (decide (k = j)) as [->|Hne]; [by rewrite bool_decide_true|].
  by rewrite bool_decide_false by by intros ?%(inj id_of).
Qed.

Lemma blocks_before k j l : (j < k)%nat → List.filter (λ p : StateId * B, bool_decide (p.1 = id_of j)) (blocks k l) = [].
Proof using Type.
  revert k. induction l as [|y l IH]; intros k Hj; [done|]. rewrite blocks_cons, List.filter_app, filter_block, decide_False by lia. apply IH. lia.
Qed.

Lemma blocks_at k v l x : l !! v = Some x → List.filter (λ p : StateId * B, bool_decide (p.1 = id_of (k + v))) (blocks k l) = pair (id_of (k + v)) <$> f x.
Proof using Type.
  revert k v. induction l as [|y l IH]; intros k [|v] Hv; [done|done| |]; rewrite blocks_cons, List.filter_app, filter_block.
  - injection Hv as ->. rewrite Nat.add_0_r, decide_True by done. rewrite blocks_before by lia. by rewrite app_nil_r.
  - rewrite decide_False by lia. rewrite <-Nat.add_succ_comm. by apply IH.
Qed.

Lemma blocks_length k b l : (∀ x, x ∈ l → (length (f x) ≤ b)%nat) → (length (blocks k l) ≤ b * length l)%nat.
Proof using Type.
  revert k. induction l as [|y l IH]; intros k Hb; [cbn; lia|]. rewrite blocks_cons, length_app, length_fmap. cbn [length]. pose proof (Hb y ltac:(left)).
  specialize (IH (S k) ltac:(intros x Hx; apply Hb; by right)). lia.
Qed.
End Blocks.

Lemma join_none {A B} (f : A → list B) l : (∀ x, f x = []) → mjoin (f <$> l) = [].
Proof. intros Hf. induction l as [|x l IH]; [done|]. change (mjoin (f <$> x :: l)) with (f x ++ mjoin (f <$> l)). by rewrite Hf, IH. Qed.

Lemma join_one {B} (f : nat → list B) (s : nat) y l : NoDup l → (∀ x, f x = if decide (x = s) then y else []) → mjoin (f <$> l) = if decide (s ∈ l) then y else [].
Proof.
  intros Hnd Hf. induction l as [|x l IH]; [done|]. change (mjoin (f <$> x :: l)) with (f x ++ mjoin (f <$> l)). apply NoDup_cons in Hnd as [Hx Hnd]. rewrite Hf, IH by done.
  destruct (decide (x = s)) as [->|Hne].
  - rewrite (decide_False (P := s ∈ l)) by done. rewrite decide_True by left. apply app_nil_r.
  - destruct (decide (s ∈ l)) as [Hin|Hin]; [by rewrite decide_True by by right|]. by rewrite decide_False by (rewrite elem_of_cons; naive_solver).
Qed.

(** ** The six-card model *)

Section Model.
Context `{Formal.Weavy}.

Lemma progress_rank_steps g : progress_rank g = steps_left g.
Proof using Type.
  assert (∀ r, future_round_actions r = after_round r) as Hr by by intros []. destruct g as [s|s|s|s|s]; cbn [progress_rank steps_left at_]; rewrite ?Hr; try lia.
  unfold bids_so_far. destruct (bi_progress s) as [|b]; cbn [both fst snd]; [rewrite !bool_decide_true by done; cbn [bool_z]; lia|].
  destruct (left_of (dealer (bi_ledger s))); cbn [set_at both fst snd]; repeat first [rewrite bool_decide_true by done|rewrite bool_decide_false by done]; cbn [bool_z]; lia.
Qed.

Section Whole.
Variable graph : ExplicitGraph.
Hypothesis all : whole graph.

Notation n := (length (g_states graph)).

Lemma state_ok v g : g_states graph !! v = Some g → game_ok g.
Proof using all. intros Hg. apply reachable_ok, (w_states _ all). by apply list_elem_of_lookup_2 in Hg. Qed.

Lemma edge_labels : (λ e, (from e, label e)) <$> g_edges graph = blocks (acts_of model_actions) 0 (g_states graph).
Proof using all. exact (w_edges _ all). Qed.

Lemma labels_from v g : g_states graph !! v = Some g → label <$> List.filter (λ e, bool_decide (from e = id_of v)) (g_edges graph) = acts_of model_actions g.
Proof using all.
  intros Hg. pose proof (blocks_at (acts_of model_actions) 0 v _ g Hg) as Hb. rewrite <-edge_labels in Hb. cbn [Nat.add] in Hb. apply (f_equal (fmap snd)) in Hb.
  rewrite <-list_fmap_compose in Hb. cbn [compose snd] in Hb. rewrite list_fmap_id in Hb. rewrite <-Hb. generalize (g_edges graph). intros l.
  induction l as [|e l IH]; [done|]. cbn [fmap list_fmap List.filter fst]. destruct (bool_decide (from e = id_of v)); cbn [fmap list_fmap snd]; by rewrite IH.
Qed.

Lemma acts_few g : game_ok g → (length (acts_of model_actions g) ≤ 180)%nat.
Proof using Type. intros Hg. destruct (actions_width g Hg) as (l & Hl & Hw). unfold acts_of. rewrite Hl. destruct g; lia. Qed.

Lemma whole_sane : sane graph.
Proof using all.
  split.
  - apply (w_small _ all).
  - pose proof (blocks_length (acts_of model_actions) 0 180 (g_states graph)) as Hb. rewrite <-edge_labels, length_fmap in Hb.
    pose proof (w_small _ all). specialize (Hb ltac:(intros g [v Hg]%list_elem_of_lookup; by apply acts_few, (state_ok v))). lia.
  - intros e He. destruct (w_targets _ all e He) as (i & j & g & g' & -> & -> & Hi & _ & Hj). exists i, j. split; [done|]. split; by eapply lookup_lt_Some.
  - intros v Hv. destruct (lookup_lt_is_Some_2 _ _ Hv) as [g Hg]. destruct (w_traces _ all v g Hg) as (ce & Hce & _). by exists ce.
Qed.

(** An edge from a state is a step of the model. *)
Definition steps_at (v w : nat) : Prop := ∃ e g g', e ∈ g_edges graph ∧ from e = id_of v ∧ to e = id_of w ∧ g_states graph !! v = Some g ∧ label e ∈ acts_of model_actions g ∧
  model_step g (label e) = Ok g' ∧ g_states graph !! w = Some g' ∧ steps_to g g'.

Lemma edge_steps e v : e ∈ g_edges graph → from e = id_of v → ∃ w, to e = id_of w ∧ steps_at v w.
Proof using all.
  intros He Hf. destruct (w_targets _ all e He) as (i & j & g & g' & Hi & Hj & Hg & Hst & Hg'). change (StateIdOf (Z.of_nat i)) with (id_of i) in Hi. rewrite Hf in Hi. apply (inj id_of) in Hi as <-.
  exists j. split; [exact Hj|]. exists e, g, g'. assert (label e ∈ acts_of model_actions g) as Hl.
  { rewrite <-(labels_from v g Hg). apply list_elem_of_fmap. exists e. split; [done|]. apply list_elem_of_In, List.filter_In. split; [by apply list_elem_of_In|]. by rewrite bool_decide_true. }
  pose proof (state_ok v g Hg) as Hok. destruct (model_actions_Ok g Hok) as (l & Hl' & _ & Hin). unfold acts_of in Hl. rewrite Hl' in Hl. pose proof (proj1 (Hin _) Hl) as [Ha Hr].
  destruct (model_step_Ok g _ Hok Ha Hr) as (g2 & Hst2 & Hto). assert (g2 = g') as -> by congruence. unfold acts_of. rewrite Hl'. by split_and!.
Qed.

Lemma elem_of_row pairs v w : w ∈ index <$> row pairs v ↔ ∃ p, p ∈ pairs ∧ p.1 = id_of v ∧ index p.2 = w.
Proof using Type.
  unfold row. rewrite list_elem_of_fmap. split.
  - intros (x & -> & (p & -> & Hp)%list_elem_of_fmap). apply list_elem_of_In, List.filter_In in Hp as [Hp Hv]. apply bool_decide_eq_true in Hv. exists p. split_and!; [by apply list_elem_of_In|done|done].
  - intros (p & Hp & Hv & <-). exists p.2. split; [done|]. apply list_elem_of_fmap. exists p. split; [done|]. apply list_elem_of_In, List.filter_In. split; [by apply list_elem_of_In|]. by rewrite bool_decide_true.
Qed.

(** What an analysis sees: the steps of the model, but for the injected edge and the removed ones. *)
Lemma elem_of_out injected r v w : w ∈ out_of graph injected r v ↔ (r ≠ Some (id_of v) ∧ steps_at v w) ∨ ∃ x, injected = Some (id_of v, x) ∧ index x = w.
Proof using all.
  unfold out_of. rewrite elem_of_row. unfold pairs_of. split.
  - intros (p & [Hp|Hp]%elem_of_app & Hv & Hw).
    + left. apply list_elem_of_fmap in Hp as (e & -> & He). apply list_elem_of_In, List.filter_In in He as [He Hr]. apply list_elem_of_In in He. cbn [fst snd] in *.
      unfold removed in Hr. rewrite Hv in Hr. apply negb_true_iff, bool_decide_eq_false in Hr. split; [congruence|]. destruct (edge_steps e v He Hv) as (w' & Hw' & Hs). by rewrite Hw', index_id_of in Hw; subst w'.
    + right. destruct injected as [q|]; [|by apply elem_of_nil in Hp]. apply list_elem_of_singleton in Hp as ->. exists q.2. split; [|done]. destruct q as [q1 q2]. cbn in *. by subst q1.
  - intros [[Hr (e & g & g' & He & Hf & Ht & _)]|(x & -> & Hx)].
    + exists (from e, to e). cbn [fst snd]. rewrite Ht, index_id_of. split; [|done]. apply elem_of_app. left. apply list_elem_of_fmap. exists e. rewrite <-Ht. split; [done|].
      apply list_elem_of_In, List.filter_In. split; [by apply list_elem_of_In|]. unfold removed. rewrite Hf, bool_decide_false by congruence. done.
    + exists (id_of v, x). split; [apply elem_of_app; right; left|done].
Qed.

Definition rank_of (v : nat) : Z := default 0 (steps_left <$> g_states graph !! v).

Lemma steps_rank v w : steps_at v w → (w = v ∧ holds_at graph is_finished v = true) ∨ (rank_of v = rank_of w + 1 ∧ unfinished graph v = true).
Proof using all.
  intros (e & g & g' & _ & _ & _ & Hg & _ & _ & Hg' & Hok & Hto). unfold unfinished, holds_at, rank_of. rewrite Hg, Hg'. cbn [fmap option_fmap option_map default]. unfold id.
  destruct g as [s|s|s|s|s]; cbn [is_finished game_phase] in *; [right; split; [lia|done]..|left]. subst g'. split; [|done].
  apply (NoDup_lookup (g_states graph) w v (GFinished s)); [apply (w_distinct _ all)|done..].
Qed.

Lemma some_step v : (v < n)%nat → ∃ w, steps_at v w.
Proof using all.
  intros Hv. destruct (lookup_lt_is_Some_2 _ _ Hv) as [g Hg]. destruct (model_actions_Ok g (state_ok v g Hg)) as (l & Hl & Hne & _). pose proof (labels_from v g Hg) as Hlab.
  unfold acts_of in Hlab. rewrite Hl in Hlab. destruct (List.filter _ _) as [|e rest] eqn:Hf; [by rewrite <-Hlab in Hne|].
  assert (e ∈ e :: rest) as He by left. rewrite <-Hf in He. apply list_elem_of_In, List.filter_In in He as [He Hfe]. apply bool_decide_eq_true in Hfe. apply list_elem_of_In in He.
  destruct (edge_steps e v He Hfe) as (w & _ & Hs). by exists w.
Qed.

Lemma finished_steps v w : holds_at graph is_finished v = true → steps_at v w → w = v.
Proof using all. intros Hf Hs. destruct (steps_rank v w Hs) as [[-> _]|[_ Hu]]; [done|]. unfold unfinished, holds_at in *. by destruct (g_states graph !! v) as [g|]; [destruct (is_finished g)|]. Qed.

Lemma unfinished_finished v : unfinished graph v = true → holds_at graph is_finished v = false.
Proof using Type. unfold unfinished, holds_at. destruct (g_states graph !! v) as [g|]; [|done]. by destruct (is_finished g). Qed.

Lemma bounded_cases v : (v < n)%nat → holds_at graph is_finished v = true ∨ unfinished graph v = true.
Proof using Type. intros Hv. unfold unfinished, holds_at. destruct (lookup_lt_is_Some_2 _ _ Hv) as [g ->]. destruct (is_finished g); [by left|by right]. Qed.

(** ** The three analyses *)

Definition base (v : nat) : list nat := (λ e, index (to e)) <$> List.filter (λ e, bool_decide (from e = id_of v)) (g_edges graph).

Lemma row_edge_pairs r edges v : row (edge_pairs r edges) v = if decide (r = Some (id_of v)) then [] else to <$> List.filter (λ e : Edge ModelAction, bool_decide (from e = id_of v)) edges.
Proof using Type.
  induction edges as [|e edges IH]; [by destruct (decide (r = Some (id_of v)))|]. rewrite edge_pairs_cons, row_app, IH. cbn [List.filter]. unfold removed, row.
  destruct (decide (r = Some (id_of v))) as [->|Hr].
  - rewrite app_nil_r. destruct (bool_decide_reflect (Some (from e) = Some (id_of v))) as [Heq|Hne]; [done|]. cbn [List.filter fst]. by rewrite bool_decide_false by congruence.
  - destruct (bool_decide_reflect (from e = id_of v)) as [Heq|Hne].
    + rewrite bool_decide_false by congruence. cbn [List.filter fst]. by rewrite bool_decide_true.
    + case_bool_decide; [done|]. cbn [List.filter fst]. by rewrite bool_decide_false.
Qed.

Lemma out_of_base injected r v : out_of graph injected r v =
  (if decide (r = Some (id_of v)) then [] else base v) ++ match injected with Some (a, x) => if decide (a = id_of v) then [index x] else [] | None => [] end.
Proof using Type.
  unfold out_of, pairs_of. rewrite row_app, fmap_app, row_edge_pairs. f_equal; [destruct (decide _); [done|by rewrite <-list_fmap_compose]|].
  destruct injected as [[a x]|]; [|done]. unfold row. cbn [option_list option_rect List.filter fst]. destruct (decide (a = id_of v)) as [->|Hne]; [by rewrite bool_decide_true|by rewrite bool_decide_false].
Qed.

Lemma base_steps v w : w ∈ base v ↔ steps_at v w.
Proof using all. pose proof (elem_of_out None None v w) as He. rewrite out_of_base, decide_False, app_nil_r in He by done. rewrite He. naive_solver. Qed.

Lemma base_finished v : holds_at graph is_finished v = true → base v = [v] ∧ ∃ e, e ∈ g_edges graph ∧ from e = id_of v ∧ to e = id_of v ∧ label e = ActAbsorb.
Proof using all.
  intros Hf. pose proof (holds_at_bound graph _ v Hf) as Hv. destruct (lookup_lt_is_Some_2 _ _ Hv) as [g Hg]. pose proof (labels_from v g Hg) as Hl.
  unfold holds_at in Hf. rewrite Hg in Hf. destruct g; try discriminate Hf. unfold base. change (acts_of model_actions (GFinished state)) with [ActAbsorb] in Hl.
  destruct (List.filter (λ e, bool_decide (from e = id_of v)) (g_edges graph)) as [|e [|e' rest]] eqn:Hfe; try discriminate Hl. injection Hl as Hl.
  assert (e ∈ List.filter (λ e, bool_decide (from e = id_of v)) (g_edges graph)) as He by (rewrite Hfe; left).
  apply list_elem_of_In, List.filter_In in He as [He Hfr]. apply list_elem_of_In in He. apply bool_decide_eq_true in Hfr.
  destruct (edge_steps e v He Hfr) as (w & Hw & Hs). assert (w = v) as -> by (apply finished_steps; [unfold holds_at; by rewrite Hg|done]).
  cbn [fmap list_fmap]. rewrite Hw, index_id_of. split; [done|]. by exists e.
Qed.

Lemma base_nonempty v : (v < n)%nat → base v ≠ [].
Proof using all. intros Hv Hb. destruct (some_step v Hv) as (w & Hs). apply base_steps in Hs. rewrite Hb in Hs. by apply elem_of_nil in Hs. Qed.

Lemma steps_descend v w : steps_at v w → descends graph v w = true.
Proof using all.
  intros (e & g & g' & _ & _ & _ & Hg & _ & _ & Hg' & Hok & Hto). unfold descends, holds_at. rewrite Hg, Hg', !progress_rank_steps.
  destruct g as [s|s|s|s|s]; [change (is_finished _) with false; lia..|]. change (is_finished (GFinished s)) with true. cbn beta iota. subst g'. cbn [steps_left].
  rewrite bool_decide_true; [done|]. apply (NoDup_lookup (g_states graph) w v (GFinished s)); [apply (w_distinct _ all)|done..].
Qed.

Lemma no_loop v : unfinished graph v = true → ¬ steps_at v v.
Proof using all. intros Hu Hs. destruct (steps_rank v v Hs) as [[_ Hf]|[Hr _]]; [by rewrite (unfinished_finished v Hu) in Hf|lia]. Qed.

Lemma no_action v : unfinished graph v = true → find_action graph (id_of v) (id_of v) = None.
Proof using all.
  intros Hu. unfold find_action. destruct (List.find _ _) as [e|] eqn:Hf; [|done]. exfalso. apply List_find_Some in Hf as [He Hb].
  apply andb_true_iff in Hb as [Hb1%bool_decide_eq_true Hb2%bool_decide_eq_true]. destruct (edge_steps e v He Hb1) as (w & Hw & Hs). rewrite Hb2 in Hw. apply (inj id_of) in Hw as <-.
  by apply (no_loop v).
Qed.

Lemma top_rank_20 : foldr Z.max 0 (progress_rank <$> g_states graph) = 20.
Proof using all.
  assert (∀ l, (∀ g, g ∈ l → steps_left g ≤ 20) → foldr Z.max 0 (progress_rank <$> l) ≤ 20) as Hle.
  { intros l. induction l as [|g l IH]; intros Hl; cbn [fmap list_fmap foldr]; [lia|]. rewrite progress_rank_steps. pose proof (Hl g ltac:(left)). specialize (IH ltac:(intros h Hh; apply Hl; by right)). lia. }
  assert (∀ l g, g ∈ l → steps_left g ≤ foldr Z.max 0 (progress_rank <$> l)) as Hge.
  { intros l g. induction l as [|h l IH]; [by intros ?%elem_of_nil|]. cbn [fmap list_fmap foldr]. rewrite progress_rank_steps. intros [->|Hg]%elem_of_cons; [lia|]. specialize (IH Hg). lia. }
  specialize (Hle (g_states graph)). specialize (Hge (g_states graph) (Game_new PlayerZero) ltac:(apply (w_states _ all), reach_new)). change (steps_left (Game_new PlayerZero)) with 20 in Hge.
  assert (∀ g, g ∈ g_states graph → steps_left g ≤ 20) as Hb; [|specialize (Hle Hb); lia].
  intros g Hg. apply (w_states _ all), reached_reachable in Hg as [m Hm]. pose proof (path_steps m g Hm). lia.
Qed.

Lemma out_ranked injected r : (∀ a x, injected = Some (a, x) → a = x) → ∀ v w, w ∈ out_of graph injected r v → w = v ∨ rank_of w < rank_of v.
Proof using all.
  intros Hloop v w. rewrite elem_of_out. intros [[_ Hs]|(x & -> & <-)].
  - destruct (steps_rank v w Hs) as [[-> _]|[Hr _]]; [by left|right; lia].
  - rewrite <-(Hloop _ _ eq_refl), index_id_of. by left.
Qed.

Lemma finished_seq : length (List.filter (holds_at graph is_finished) (seq 0 n)) = length (List.filter (λ g, bool_decide (game_phase g = PhFinished)) (g_states graph)).
Proof using Type.
  unfold holds_at. generalize (g_states graph). intros l. induction l as [|g l IH] using rev_ind; [done|]. rewrite length_app, Nat.add_1_r, seq_S, !List.filter_app, !length_app. f_equal.
  - rewrite <-IH. apply filter_length_ext. intros v Hv%elem_of_seq. by rewrite lookup_app_l by lia.
  - cbn [List.filter Nat.add]. rewrite lookup_app_r, Nat.sub_diag by lia. cbn [lookup list_lookup]. unfold is_finished. by destruct (bool_decide _).
Qed.

Lemma filter_none {A} (p : A → bool) l : (∀ x, x ∈ l → p x = false) → List.filter p l = [].
Proof using Type. induction l as [|x l IH]; intros Hp; [done|]. cbn. rewrite (Hp x ltac:(left)). apply IH. intros y Hy. apply Hp. by right. Qed.

Lemma filter_one (p : nat → bool) s l : NoDup l → s ∈ l → (∀ x, x ∈ l → p x = true ↔ x = s) → List.filter p l = [s].
Proof using Type.
  induction l as [|x l IH]; intros Hnd Hs Hp; [by apply elem_of_nil in Hs|]. apply NoDup_cons in Hnd as [Hx Hnd]. cbn. destruct (decide (x = s)) as [->|Hne].
  - rewrite (proj2 (Hp s ltac:(left)) eq_refl). f_equal. apply filter_none. intros y Hy. apply not_true_iff_false. intros Hpy%Hp; [by subst y|by right].
  - apply elem_of_cons in Hs as [->|Hs]; [done|]. destruct (p x) eqn:Hpx; [apply Hp in Hpx; [done|left]|]. apply IH; [done|done|]. intros y Hy. apply Hp. by right.
Qed.

(** No loop but those of finished games, no edge but those of the model: nothing is astray and nothing but a loop fails to descend. *)
Lemma none_astray injected r : (∀ a x, injected = Some (a, x) → ∃ s, a = id_of s ∧ unfinished graph s = true) → (∀ a, r = Some a → ∃ s, a = id_of s ∧ unfinished graph s = true) →
  List.filter (astray graph (out_of graph injected r)) (seq 0 n) = [].
Proof using all.
  intros Hi Hr. apply filter_none. intros v _. unfold astray. destruct (holds_at graph is_finished v) eqn:Hf; [|done]. apply negb_false_iff. unfold absorbed.
  assert (∀ s, id_of s = id_of v → unfinished graph s = true → False) as Hno by (intros s ->%(inj id_of) Hu; by rewrite (unfinished_finished v Hu) in Hf).
  destruct (base_finished v Hf) as (Hb & e & He & H1 & H2 & H3). rewrite out_of_base, decide_False, Hb by (intros Hx; destruct (Hr _ Hx) as (s & Hs & Hu); by apply (Hno s)).
  apply andb_true_iff. split.
  - destruct injected as [[a x]|]; [|by rewrite app_nil_r, bool_decide_true]. rewrite decide_False, app_nil_r; [by rewrite bool_decide_true|]. intros ->.
    destruct (Hi _ _ eq_refl) as (s & Hs & Hu). by apply (Hno s).
  - apply existsb_exists. exists e. split; [by apply list_elem_of_In|]. by rewrite !bool_decide_true.
Qed.

Lemma base_no_violations v : List.filter (λ w, negb (descends graph v w)) (base v) = [].
Proof using all. apply filter_none. intros w Hw%base_steps. by rewrite (steps_descend v w Hw). Qed.

Lemma finished_count_eq : stat_finished_states (g_stats graph) = Z.of_nat (length (List.filter (holds_at graph is_finished) (seq 0 n))).
Proof using all. rewrite (w_stats _ all). cbn [stat_finished_states]. by rewrite finished_seq. Qed.

(** The states with a loop of their own *)
Lemma loops_counted injected r : (∀ a x, injected = Some (a, x) → ∃ s, a = id_of s ∧ unfinished graph s = true) → (∀ a, r = Some a → ∃ s, a = id_of s ∧ unfinished graph s = true) →
  ∀ v, (v < n)%nat → v ∈ out_of graph injected r v ↔ holds_at graph is_finished v = true ∨ injected = Some (id_of v, id_of v) ∨ (∃ x, injected = Some (id_of v, x) ∧ index x = v).
Proof using all.
  intros Hi Hr v Hv. rewrite elem_of_out. split.
  - intros [[_ Hs]|Hx]; [|by right; right]. left. destruct (bounded_cases v Hv) as [|Hu]; [done|]. by destruct (no_loop v Hu).
  - intros [Hf|[->|Hx]]; [left|right; exists (id_of v); by rewrite index_id_of|by right]. split.
    + intros Hrv. destruct (Hr _ Hrv) as (s & ->%(inj id_of) & Hu). by rewrite (unfinished_finished s Hu) in Hf.
    + destruct (some_step v Hv) as (w & Hs). by rewrite (finished_steps v w Hf Hs) in Hs.
Qed.

Lemma reported_pass report : analysed graph (out_of graph None None) report → report =
  {| nonterminal_deadlocks := []; terminal_edge_violations := []; strongly_connected_components := Z.of_nat n;
     cyclic_components := stat_finished_states (g_stats graph); nonterminal_cyclic_components := 0; progress_violations := []; maximum_progress_rank := 20;
     universal_termination := true; lasso := None |}.
Proof using all.
  intros Ha. pose proof (out_ranked None None ltac:(done)) as Hranked. destruct (ranked_counts graph _ rank_of Hranked report Ha) as (Hscc & Hcyc & Hncyc).
  destruct Ha as [Hd Ht Hp Hr _ Hu Hl].
  assert (∀ v, (v < n)%nat → v ∈ out_of graph None None v ↔ holds_at graph is_finished v = true) as Hloops by (intros v Hv; rewrite (loops_counted None None) by done; naive_solver).
  assert (∀ v, unfinished graph v = true → ¬ tc (λ a b, b ∈ out_of graph None None a) v v) as Hno.
  { intros v Hv Hc. apply (ranked_cycle _ rank_of Hranked), Hloops in Hc; [by rewrite (unfinished_finished v Hv) in Hc|by apply (holds_at_bound graph _ v Hv)]. }
  assert (List.filter (dead graph (out_of graph None None)) (seq 0 n) = []) as Hnd.
  { apply filter_none. intros v Hv%elem_of_seq. unfold dead. rewrite out_of_base, decide_False, app_nil_r by done. rewrite (bool_decide_false (base v = [])) by (apply base_nonempty; lia). apply andb_false_r. }
  rewrite Hnd in Hd. rewrite none_astray in Ht by done. rewrite top_rank_20 in Hr.
  assert (progress_violations report = []) as Hp'.
  { rewrite Hp. apply join_none. intros v. unfold violations. rewrite out_of_base, decide_False, app_nil_r by done. by rewrite base_no_violations. }
  assert (universal_termination report = true) as Hu' by (apply Hu; rewrite Hd, Ht; by split_and!).
  assert (lasso report = None) as Hl' by (destruct (lasso report) as [l|]; [|done]; destruct Hl as [_ (v & Hv & Hc)]; by destruct (Hno v)).
  assert (length (List.filter (λ v, bool_decide (v ∈ out_of graph None None v)) (seq 0 n)) = length (List.filter (holds_at graph is_finished) (seq 0 n))) as Hcl.
  { apply filter_length_ext. intros v Hv%elem_of_seq. apply eq_true_iff_eq. rewrite bool_decide_eq_true. apply Hloops. lia. }
  rewrite Hcl, <-finished_count_eq in Hcyc.
  rewrite filter_none in Hncyc by (intros v Hv%elem_of_seq; apply andb_false_iff; destruct (unfinished graph v) eqn:Huv; [left|by right];
    apply bool_decide_eq_false; rewrite Hloops by lia; by rewrite (unfinished_finished v Huv)).
  clear Hp. destruct report. cbn in *. by subst.
Qed.

Lemma reported_stutter s report : unfinished graph s = true → analysed graph (out_of graph (Some (id_of s, id_of s)) None) report →
  nonterminal_deadlocks report = [] ∧ terminal_edge_violations report = [] ∧ progress_violations report = [edge_of graph s s] ∧ strongly_connected_components report = Z.of_nat n ∧
  nonterminal_cyclic_components report = 1 ∧ universal_termination report = false ∧
  ∃ l, lasso report = Some l ∧ cycle_states l = [id_of s; id_of s] ∧ cycle_edges l = [edge_of graph s s] ∧ shortest_trace graph (id_of s) = Ok (Some (prefix l)).
Proof using all.
  intros Hs Ha. set (injected := Some (id_of s, id_of s)) in *. pose proof (holds_at_bound graph _ s Hs) as Hsn.
  pose proof (out_ranked injected None ltac:(by intros a x [= <- <-])) as Hranked. destruct (ranked_counts graph _ rank_of Hranked report Ha) as (Hscc & _ & Hncyc).
  assert (∀ a x, injected = Some (a, x) → ∃ s, a = id_of s ∧ unfinished graph s = true) as Hinj by (intros a x [= <- <-]; by exists s).
  destruct Ha as [Hd Ht Hp Hr _ Hu Hl].
  assert (∀ v, (v < n)%nat → v ∈ out_of graph injected None v ↔ holds_at graph is_finished v = true ∨ v = s) as Hloops.
  { intros v Hv. rewrite (loops_counted injected None) by done. split; [|by intros [?| ->]; [left|right; left]]. intros [?|[[= ?%Nat2Z.inj]|(x & [= ?%Nat2Z.inj] & _)]]; [by left|by right..]. }
  assert (s ∈ out_of graph injected None s) as Hself by (apply Hloops; [done|by right]).
  assert (List.filter (dead graph (out_of graph injected None)) (seq 0 n) = []) as Hnd.
  { apply filter_none. intros v Hv%elem_of_seq. unfold dead. rewrite bool_decide_false; [apply andb_false_r|]. rewrite out_of_base, decide_False by done.
    intros [Hb _]%app_eq_nil. apply (base_nonempty v); [lia|done]. }
  rewrite Hnd in Hd. rewrite none_astray in Ht by done. split; [done|]. split; [done|]. split; [|split; [done|split; [|split]]].
  - rewrite Hp. assert (∀ v, violations graph (out_of graph injected None) v = if decide (v = s) then [edge_of graph s s] else []) as Hv.
    { intros v. unfold violations. rewrite out_of_base, decide_False, List.filter_app, base_no_violations by done. cbn [app injected]. destruct (decide (v = s)) as [->|Hne].
      - rewrite decide_True by done. cbn [List.filter]. rewrite index_id_of. assert (descends graph s s = false) as ->; [|done].
        unfold descends, unfinished, holds_at in *. destruct (g_states graph !! s) as [g|]; [|done]. destruct (is_finished g); [done|]. lia.
      - by rewrite decide_False by by intros ?%(inj id_of). }
    rewrite (join_one _ s _ _ (NoDup_seq 0 n) Hv). rewrite decide_True; [done|]. rewrite elem_of_seq. lia.
  - rewrite Hncyc. rewrite (filter_one _ s); [done|apply NoDup_seq|rewrite elem_of_seq; lia|]. intros v Hv%elem_of_seq. rewrite andb_true_iff, bool_decide_eq_true, Hloops by lia. split.
    + intros [[Hf|Hvs] Huv]; [by rewrite (unfinished_finished v Huv) in Hf|done].
    + intros ->. split; [by right|done].
  - apply not_true_iff_false. rewrite Hu. intros (_ & _ & Hno). apply (Hno s Hs). by apply tc_once.
  - destruct (lasso report) as [l|]; [|by destruct (Hl s Hs); apply tc_once]. exists l. split; [done|]. destruct Hl as [Hlo _].
    destruct (ranked_lasso graph _ rank_of Hranked l Hlo) as (v & Hc & He & Hv & Huv & Htr). pose proof (holds_at_bound graph _ v Huv) as Hvn.
    apply Hloops in Hv as [Hf| ->]; [by rewrite (unfinished_finished v Huv) in Hf|by split_and!|done].
Qed.

Lemma reported_deadlock s report : unfinished graph s = true → analysed graph (out_of graph None (Some (id_of s))) report →
  nonterminal_deadlocks report = [id_of s] ∧ terminal_edge_violations report = [] ∧ progress_violations report = [] ∧ strongly_connected_components report = Z.of_nat n ∧
  nonterminal_cyclic_components report = 0 ∧ universal_termination report = false ∧ lasso report = None.
Proof using all.
  intros Hs Ha. set (r := Some (id_of s)) in *. pose proof (holds_at_bound graph _ s Hs) as Hsn.
  pose proof (out_ranked None r ltac:(done)) as Hranked. destruct (ranked_counts graph _ rank_of Hranked report Ha) as (Hscc & _ & Hncyc).
  assert (∀ a, r = Some a → ∃ s, a = id_of s ∧ unfinished graph s = true) as Hrem by (intros a [= <-]; by exists s).
  destruct Ha as [Hd Ht Hp Hr _ Hu Hl].
  assert (∀ v, (v < n)%nat → v ∈ out_of graph None r v ↔ holds_at graph is_finished v = true) as Hloops.
  { intros v Hv. rewrite (loops_counted None r) by done. naive_solver. }
  assert (List.filter (dead graph (out_of graph None r)) (seq 0 n) = [s]) as Hnd.
  { apply filter_one; [apply NoDup_seq|rewrite elem_of_seq; lia|]. intros v Hv%elem_of_seq. unfold dead. rewrite out_of_base, app_nil_r, andb_true_iff, bool_decide_eq_true. subst r. split.
    - intros [_ Hb]. destruct (decide (Some (id_of s) = Some (id_of v))) as [Heq|Hne]; [by injection Heq as ?%Nat2Z.inj|]. by destruct (base_nonempty v ltac:(lia)).
    - intros ->. by rewrite decide_True. }
  rewrite Hnd in Hd. rewrite none_astray in Ht by done.
  assert (∀ v, unfinished graph v = true → ¬ tc (λ a b, b ∈ out_of graph None r a) v v) as Hno.
  { intros v Hv Hc. apply (ranked_cycle _ rank_of Hranked), Hloops in Hc; [by rewrite (unfinished_finished v Hv) in Hc|by apply (holds_at_bound graph _ v Hv)]. }
  split_and!; [done|done| |done| | |].
  - rewrite Hp. apply join_none. intros v. unfold violations. rewrite out_of_base, app_nil_r. destruct (decide _); [done|]. by rewrite base_no_violations.
  - rewrite Hncyc. by rewrite filter_none by (intros v Hv%elem_of_seq; apply andb_false_iff; destruct (unfinished graph v) eqn:Huv; [left|by right];
      apply bool_decide_eq_false; rewrite Hloops by lia; by rewrite (unfinished_finished v Huv)).
  - apply not_true_iff_false. rewrite Hu, Hd. by intros (? & _).
  - destruct (lasso report) as [l|]; [|done]. destruct Hl as [_ (v & Hv & Hc)]. by destruct (Hno v).
Qed.
End Whole.

(** ** What the passes show *)

(** [C37] On the graph of the six-card model the liveness pass finds no state that is stuck, none that is finished and goes on, no edge
    that does not descend the rank, and no cycle of games that are not finished; every state is a class of its own, the classes
    with a cycle are the finished games, the highest rank is twenty, and it reports that every play terminates. *)
Theorem liveness_pass fuel graph : explore fuel Micro = Some (Ok graph) → analyze_liveness graph = Ok
  {| nonterminal_deadlocks := []; terminal_edge_violations := []; strongly_connected_components := Z.of_nat (length (g_states graph));
     cyclic_components := stat_finished_states (g_stats graph); nonterminal_cyclic_components := 0; progress_violations := []; maximum_progress_rank := 20;
     universal_termination := true; lasso := None |}.
Proof using Type.
  intros (graph' & [= <-] & Hg)%explore_whole. destruct (sane_pairs graph None None (whole_sane graph Hg) ltac:(done)) as [Hin Hlen].
  destruct (analysis_Ok graph None None (whole_sane graph Hg) ltac:(done)) as (report & Hr & Ha). unfold analyze_liveness. rewrite Hr. f_equal. by apply reported_pass.
Qed.

(** Both injected faults at a state are reported as what they are. *)
Definition noticed (graph : ExplicitGraph) (s : nat) : Prop :=
  (∃ report l, analyze_with_nonterminal_stutter graph (id_of s) = Ok report ∧ universal_termination report = false ∧ nonterminal_deadlocks report = [] ∧
     progress_violations report = [mkTemporalEdge (id_of s) (id_of s) None] ∧ nonterminal_cyclic_components report = 1 ∧ lasso report = Some l ∧
     cycle_states l = [id_of s; id_of s] ∧ cycle_edges l = [mkTemporalEdge (id_of s) (id_of s) None] ∧ shortest_trace graph (id_of s) = Ok (Some (prefix l))) ∧
  ∃ report, analyze_with_nonterminal_deadlock graph (id_of s) = Ok report ∧ universal_termination report = false ∧ nonterminal_deadlocks report = [id_of s] ∧
     progress_violations report = [] ∧ nonterminal_cyclic_components report = 0 ∧ lasso report = None.

(** The pass would notice: with a loop injected at any state of the graph whose game is not finished, it reports that one edge as a
    failure to descend and as a lasso around it, with a trace to the state, and no termination; with the successors of the state
    removed, it reports exactly that state as stuck, and no termination; and it refuses a state that is finished or not there. *)
Theorem liveness_detects fuel graph s : explore fuel Micro = Some (Ok graph) →
  match g_states graph !! s with
  | None => analyze_with_nonterminal_stutter graph (id_of s) = absent "stutter state is absent" ∧
            analyze_with_nonterminal_deadlock graph (id_of s) = absent "deadlock state is absent"
  | Some (GFinished _) => analyze_with_nonterminal_stutter graph (id_of s) = absent "controlled stutter must target a nonterminal state" ∧
            analyze_with_nonterminal_deadlock graph (id_of s) = absent "controlled deadlock must target a nonterminal state"
  | Some _ =>
      noticed graph s
  end.
Proof using Type.
  intros (graph' & [= <-] & Hg)%explore_whole. unfold analyze_with_nonterminal_stutter, analyze_with_nonterminal_deadlock, graph_state. rewrite index_id_of.
  destruct (g_states graph !! s) as [g|] eqn:Hs; [|done]. cbn [ok_or mbind outcome_bind]. pose proof (lookup_lt_Some _ _ _ Hs) as Hsn.
  destruct (is_finished g) eqn:Hf; [by destruct g|]. assert (noticed graph s) as Hn; [|by destruct g].
  unfold noticed, analyze_with_nonterminal_stutter, analyze_with_nonterminal_deadlock, graph_state. rewrite index_id_of, Hs. cbn [ok_or mbind outcome_bind]. rewrite Hf.
  assert (unfinished graph s = true) as Hu by (unfold unfinished, holds_at; by rewrite Hs, Hf).
  destruct (analysis_Ok graph (Some (id_of s, id_of s)) None (whole_sane graph Hg) ltac:(intros p [= <-]; by exists s, s)) as (report & Hr & Ha).
  destruct (analysis_Ok graph None (Some (id_of s)) (whole_sane graph Hg) ltac:(done)) as (report' & Hr' & Ha').
  destruct (reported_stutter graph Hg s report Hu Ha) as (H1 & _ & H3 & _ & H5 & H6 & l & Hl & Hc & He & Htr).
  destruct (reported_deadlock graph Hg s report' Hu Ha') as (K1 & _ & K3 & _ & K5 & K6 & K7). unfold edge_of in H3, He. rewrite (no_action graph Hg s Hu) in H3, He.
  split; [exists report, l; by split_and!|exists report'; by split_and!].
Qed.
End Model.

(** ** Concrete cases *)

Module LivenessSample.
(** Two games that lead to each other, and one that is over *)
Definition over : Game := GFinished {| fi_scores := (ScoreOf 0, ScoreOf 0); fi_pot := PotOf 0; fi_winners := (true, true) |}.

Definition round_trip : ExplicitGraph :=
  {| g_scope := Micro; g_states := [Game_new PlayerZero; Game_new PlayerOne; over];
     g_edges := [mkEdge (id_of 0) ActSettle (id_of 1); mkEdge (id_of 1) ActSettle (id_of 0); mkEdge (id_of 1) ActSettle (id_of 2); mkEdge (id_of 2) ActAbsorb (id_of 2)];
     g_depths := [0; 0; 1]; g_predecessors := [None; None; Some (mkPredecessor (id_of 1) ActSettle)]; g_initial_states := [id_of 0; id_of 1];
     g_stats := mkExplorationStats 3 4 0 1 2 1 ReachableStateSpaceExhausted |}.

Lemma round_trip_sane : sane round_trip.
Proof.
  split; [vm_compute; discriminate|vm_compute; reflexivity| |].
  - intros e He. cbn [round_trip g_edges] in He. repeat (apply elem_of_cons in He as [->|He]); [| | | |by apply elem_of_nil in He].
    + exists 0%nat, 1%nat. cbn. split_and!; [done|lia|lia].
    + exists 1%nat, 0%nat. cbn. split_and!; [done|lia|lia].
    + exists 1%nat, 2%nat. cbn. split_and!; [done|lia|lia].
    + exists 2%nat, 2%nat. cbn. split_and!; [done|lia|lia].
  - intros [|[|[|v]]] Hv; [eexists; reflexivity..|]. cbn in Hv. lia.
Qed.

Definition cycle_of (r : outcome LivenessError LivenessReport) : option (list StateId) :=
  match r with Ok report => cycle_states <$> lasso report | _ => None end.
End LivenessSample.

Lemma analysis_exact_witness : ∃ report, analyze LivenessSample.round_trip None None = Ok report ∧ analysed LivenessSample.round_trip (out_of LivenessSample.round_trip None None) report ∧
  cycle_states <$> lasso report = Some [id_of 0; id_of 1; id_of 0].
Proof.
  assert (LivenessSample.cycle_of (analyze LivenessSample.round_trip None None) = Some [id_of 0; id_of 1; id_of 0]) as Hc by (vm_compute; reflexivity).
  assert (∀ p, @None (StateId * StateId) = Some p → inside (length (g_states LivenessSample.round_trip)) p) as Hn by (intros p Hp; discriminate Hp).
  destruct (analysis_exact LivenessSample.round_trip None None LivenessSample.round_trip_sane Hn) as (report & Hr & Ha). exists report. split; [exact Hr|]. split; [exact Ha|].
  rewrite Hr in Hc. exact Hc.
Defined.

Lemma liveness_pass_witness : ∃ graph, explore (H := Formal.sequential_weavy) (Z.to_nat (2 ^ 32 + 1)) Micro = Some (Ok graph) ∧ ∃ report, analyze_liveness graph = Ok report ∧
  universal_termination report = true ∧ lasso report = None.
Proof.
  assert (2 ^ 32 < Z.of_nat (Z.to_nat (2 ^ 32 + 1))) as Hf by lia. destruct (explore_ends (H := Formal.sequential_weavy) _ Hf) as (graph & Hg).
  exists graph. split; [exact Hg|]. pose proof (liveness_pass (H := Formal.sequential_weavy) _ graph Hg) as Hp. eexists. split; [exact Hp|]. split; reflexivity.
Defined.

Lemma liveness_detects_witness : ∃ graph, explore (H := Formal.sequential_weavy) (Z.to_nat (2 ^ 32 + 1)) Micro = Some (Ok graph) ∧
  g_states graph !! 0%nat = Some (Game_new PlayerZero) ∧ noticed graph 0.
Proof.
  assert (2 ^ 32 < Z.of_nat (Z.to_nat (2 ^ 32 + 1))) as Hf by lia. destruct (explore_ends (H := Formal.sequential_weavy) _ Hf) as (graph & Hg).
  exists graph. split; [exact Hg|]. destruct (explore_whole (H := Formal.sequential_weavy) _ _ Hg) as (graph' & Heq & Hw). injection Heq as <-. destruct (w_initial graph Hw) as [_ Hi].
  assert (g_states graph !! 0%nat = Some (Game_new PlayerZero)) as H0.
  { rewrite <-(take_drop 2 (g_states graph)), Hi. reflexivity. }
  split; [exact H0|]. pose proof (liveness_detects (H := Formal.sequential_weavy) _ graph 0%nat Hg) as Hd. rewrite H0 in Hd. exact Hd.
Defined.
