(* ===== verification/Spatial.v ===== *)
(** * Spatial layout (poche-spatial: units.rs, identity.rs, scene.rs, layout.rs)

    Exact table-local geometry in millimetres, the identities of what lies on the
    table, the scene a viewer is shown and its validation, and the registered layouts
    for two to eight players with the classification of a released object.

    Coordinates are [i32]: arithmetic that the source does not check panics when it
    leaves that range.  Ordinals and counts of type [u8], [u16] and [usize] that number
    things in memory are [nat]; a [HashSet] is the list of its members. *)

From stdpp Require Import base strings numbers option list.
From S2P Require Import Prelude.

Definition SPATIAL_SCHEMA_VERSION : nat := 1.
Definition MIN_LAYOUT_PLAYERS : nat := 2.
Definition MAX_LAYOUT_PLAYERS : nat := 8.
Definition MAX_ABS_TABLE_COORDINATE_MM : Z := 10000.

(** ** Units *)

(** [i32] arithmetic, which panics on overflow *)
Definition i32_op {E} (x : Z) : outcome E Z := if in_i32 x then Ok x else Panic.

(** [i32::midpoint], which rounds towards zero and cannot overflow *)
Definition i32_midpoint (a b : Z) : Z := ((a + b) ÷ 2)%Z.

Record Point3Mm : Type := point { p_x : Z; p_y : Z; p_z : Z }.
#[export] Instance Point3Mm_eq_dec : EqDecision Point3Mm.
Proof. solve_decision. Defined.

Definition coordinate_is_bounded (x : Z) : bool :=
  ((- MAX_ABS_TABLE_COORDINATE_MM <=? x) && (x <=? MAX_ABS_TABLE_COORDINATE_MM))%Z.

Definition point_is_within_table_bounds (self : Point3Mm) : bool :=
  coordinate_is_bounded (p_x self) && coordinate_is_bounded (p_y self) && coordinate_is_bounded (p_z self).

Definition FULL_TURN : Z := 360000.

(** [YawMilliDegrees::new] *)
Definition yaw_new (value : Z) : Z := (value mod FULL_TURN)%Z.

Record PoseMm : Type := { translation : Point3Mm; yaw : Z }.
#[export] Instance PoseMm_eq_dec : EqDecision PoseMm.
Proof. solve_decision. Defined.

Definition pose_is_within_table_bounds (self : PoseMm) : bool := point_is_within_table_bounds (translation self).

Definition pose_checked (translation : Point3Mm) (yaw : Z) : option PoseMm :=
  if point_is_within_table_bounds translation then Some {| translation := translation; yaw := yaw |} else None.

Record HalfExtentsMm : Type := half_extents_new { h_x : Z; h_y : Z; h_z : Z }.
#[export] Instance HalfExtentsMm_eq_dec : EqDecision HalfExtentsMm.
Proof. solve_decision. Defined.

Record AabbMm : Type := { box_min : Point3Mm; box_max : Point3Mm }.
#[export] Instance AabbMm_eq_dec : EqDecision AabbMm.
Proof. solve_decision. Defined.

Definition aabb_new (min max : Point3Mm) : option AabbMm :=
  if ((p_x min <=? p_x max) && (p_y min <=? p_y max) && (p_z min <=? p_z max))%Z
  then Some {| box_min := min; box_max := max |} else None.

Definition contains (self : AabbMm) (point : Point3Mm) : bool :=
  ((p_x (box_min self) <=? p_x point) && (p_x point <=? p_x (box_max self)) &&
   (p_y (box_min self) <=? p_y point) && (p_y point <=? p_y (box_max self)) &&
   (p_z (box_min self) <=? p_z point) && (p_z point <=? p_z (box_max self)))%Z.

(** [i32::try_from] of a [u32], and the checked operations *)
Definition i32_checked (x : Z) : option Z := if in_i32 x then Some x else None.

Definition aabb_from_center (center : Point3Mm) (half_extents : HalfExtentsMm) : option AabbMm :=
  x ← i32_checked (h_x half_extents);
  y ← i32_checked (h_y half_extents);
  z ← i32_checked (h_z half_extents);
  min_x ← i32_checked (p_x center - x)%Z;
  min_y ← i32_checked (p_y center - y)%Z;
  min_z ← i32_checked (p_z center - z)%Z;
  max_x ← i32_checked (p_x center + x)%Z;
  max_y ← i32_checked (p_y center + y)%Z;
  max_z ← i32_checked (p_z center + z)%Z;
  let min := point min_x min_y min_z in
  let max := point max_x max_y max_z in
  if point_is_within_table_bounds min && point_is_within_table_bounds max then aabb_new min max else None.

Definition contains_aabb (self other : AabbMm) : bool :=
  contains self (box_min other) && contains self (box_max other).

Definition intersects (self other : AabbMm) : bool :=
  ((p_x (box_min self) <=? p_x (box_max other)) && (p_x (box_min other) <=? p_x (box_max self)) &&
   (p_y (box_min self) <=? p_y (box_max other)) && (p_y (box_min other) <=? p_y (box_max self)) &&
   (p_z (box_min self) <=? p_z (box_max other)) && (p_z (box_min other) <=? p_z (box_max self)))%Z.

Definition aabb_is_within_table_bounds (self : AabbMm) : bool :=
  point_is_within_table_bounds (box_min self) && point_is_within_table_bounds (box_max self).

(** ** Identities *)

Record LayoutId : Type := { l_players : nat; l_revision : nat }.
#[export] Instance LayoutId_eq_dec : EqDecision LayoutId.
Proof. solve_decision. Defined.

Definition layout_id_new (players revision : nat) : option LayoutId :=
  if (MIN_LAYOUT_PLAYERS <=? players) && (players <=? MAX_LAYOUT_PLAYERS) && (0 <? revision)
  then Some {| l_players := players; l_revision := revision |} else None.

(** The [u8] inside a [SeatId] *)
Definition SeatId : Type := nat.

Definition seat_id_new (value : nat) (layout : LayoutId) : option SeatId :=
  if value <? l_players layout then Some value else None.

Record CardObjectId : Type := { projection_epoch : Z; ordinal : nat }.
#[export] Instance CardObjectId_eq_dec : EqDecision CardObjectId.
Proof. solve_decision. Defined.

Inductive ZoneId : Type :=
  | ZoneDeck | ZoneTrump | ZoneHand (seat : SeatId) | ZonePlay | ZoneWon (seat : SeatId).
#[export] Instance ZoneId_eq_dec : EqDecision ZoneId.
Proof. solve_decision. Defined.

Inductive ObjectId : Type :=
  | IdTable | IdSeat (seat : SeatId) | IdPlayer (seat : SeatId) | IdZone (zone : ZoneId) | IdScoreSheet
  | IdCard (card : CardObjectId).
#[export] Instance ObjectId_eq_dec : EqDecision ObjectId.
Proof. solve_decision. Defined.

Inductive SurfaceKind : Type := SurfaceFace | SurfaceBack | SurfaceTop.
#[export] Instance SurfaceKind_eq_dec : EqDecision SurfaceKind.
Proof. solve_decision. Defined.

Record SurfaceId : Type := { on_object : ObjectId; surface_kind : SurfaceKind }.
#[export] Instance SurfaceId_eq_dec : EqDecision SurfaceId.
Proof. solve_decision. Defined.

(** The [u16] inside a [TextRunId] *)
Definition TextRunId : Type := nat.

(** ** Scenes *)

(** The [u8] inside a [CardFace] *)
Definition CardFace : Type := nat.

Definition card_face_new (code : nat) : option CardFace := if code <? 52 then Some code else None.

Definition RANKS : list string :=
  ["2"; "3"; "4"; "5"; "6"; "7"; "8"; "9"; "10"; "J"; "Q"; "K"; "A"].
Definition SUITS : list string := ["♣"; "♦"; "♥"; "♠"].

Definition label {E} (self : CardFace) : outcome E string :=
  rank ← expect (RANKS !! (self `mod` 13));
  suit ← expect (SUITS !! (self `div` 13));
  Ok (rank +:+ suit).

Inductive CardLocation : Type :=
  | LocDeck (index_from_bottom : nat)
  | LocTrump
  | LocHand (seat : SeatId) (index_from_left : nat)
  | LocPlay (seat : SeatId)
  | LocWon (seat : SeatId) (trick index : nat).
#[export] Instance CardLocation_eq_dec : EqDecision CardLocation.
Proof. solve_decision. Defined.

Definition location_zone (self : CardLocation) : ZoneId :=
  match self with
  | LocDeck _ => ZoneDeck
  | LocTrump => ZoneTrump
  | LocHand seat _ => ZoneHand seat
  | LocPlay _ => ZonePlay
  | LocWon seat _ _ => ZoneWon seat
  end.

Inductive SceneObjectKind : Type := KindTable | KindSeat | KindPlayer | KindZone | KindScoreSheet.
#[export] Instance SceneObjectKind_eq_dec : EqDecision SceneObjectKind.
Proof. solve_decision. Defined.

Record SceneObject : Type := {
  object_id : ObjectId; object_kind : SceneObjectKind; object_pose : PoseMm; object_extents : HalfExtentsMm }.
#[export] Instance SceneObject_eq_dec : EqDecision SceneObject.
Proof. solve_decision. Defined.

Record CardObject : Type := {
  card_id : CardObjectId; card_location : CardLocation; card_at : PoseMm; card_extents : HalfExtentsMm;
  card_face : option CardFace }.
#[export] Instance CardObject_eq_dec : EqDecision CardObject.
Proof. solve_decision. Defined.

Inductive TextBinding : Type :=
  | BindFace (card : CardObjectId) | BindName (seat : SeatId) | BindScore (seat : SeatId).
#[export] Instance TextBinding_eq_dec : EqDecision TextBinding.
Proof. solve_decision. Defined.

Record TextRun : Type := {
  text_id : TextRunId; binding : TextBinding; attached_to : SurfaceId; local_pose : PoseMm; content : string }.
#[export] Instance TextRun_eq_dec : EqDecision TextRun.
Proof. solve_decision. Defined.

Record SpatialScene : Type := {
  scene_schema_version : nat; scene_table_id : Z; scene_layout : LayoutId; scene_epoch : Z;
  scene_objects : list SceneObject; scene_cards : list CardObject; scene_text : list TextRun }.
#[export] Instance SpatialScene_eq_dec : EqDecision SpatialScene.
Proof. solve_decision. Defined.

Inductive SceneError : Type :=
  | UnknownSchema | DuplicateObject | DuplicateText | ObjectKind | CardEpoch | SeatOutsideLayout
  | MissingAttachment | InvalidAttachment | HiddenFaceText | MissingFaceText | FaceTextMismatch | PoseOutsideTable.
#[export] Instance SceneError_eq_dec : EqDecision SceneError.
Proof. solve_decision. Defined.

(** [HashSet::insert] that must find the value new *)
Definition insert_new {E A} `{EqDecision A} (set : list A) (value : A) (e : E) : outcome E (list A) :=
  if bool_decide (value ∈ set) then Err e else Ok (value :: set).

Definition object_kind_matches_id (object : SceneObject) : bool :=
  match object_kind object, object_id object with
  | KindTable, IdTable | KindSeat, IdSeat _ | KindPlayer, IdPlayer _ | KindZone, IdZone _
  | KindScoreSheet, IdScoreSheet => true
  | _, _ => false
  end.

Definition validate_seat (seat : SeatId) (layout : LayoutId) : outcome SceneError unit :=
  ensure (seat <? l_players layout) SeatOutsideLayout.

Definition validate_object_seat (id : ObjectId) (layout : LayoutId) : outcome SceneError unit :=
  match id with
  | IdSeat seat | IdPlayer seat | IdZone (ZoneHand seat) | IdZone (ZoneWon seat) => validate_seat seat layout
  | IdTable | IdScoreSheet | IdZone ZoneDeck | IdZone ZoneTrump | IdZone ZonePlay => Ok tt
  | IdCard _ => Err ObjectKind
  end.

Definition validate_location_seats (location : CardLocation) (layout : LayoutId) : outcome SceneError unit :=
  match location with
  | LocHand seat _ | LocPlay seat | LocWon seat _ _ => validate_seat seat layout
  | LocDeck _ | LocTrump => Ok tt
  end.

(** [pose.is_within_table_bounds()] and [AabbMm::from_center(..).is_some()] *)
Definition placed_within_table (pose : PoseMm) (extents : HalfExtentsMm) : bool :=
  pose_is_within_table_bounds pose && bool_decide (is_Some (aabb_from_center (translation pose) extents)).

Definition validate_object (layout : LayoutId) (object_ids : list ObjectId) (object : SceneObject) :
    outcome SceneError (list ObjectId) :=
  object_ids ← insert_new object_ids (object_id object) DuplicateObject;
  _ ← ensure (object_kind_matches_id object) ObjectKind;
  _ ← validate_object_seat (object_id object) layout;
  _ ← ensure (placed_within_table (object_pose object) (object_extents object)) PoseOutsideTable;
  Ok object_ids.

Definition validate_card (layout : LayoutId) (epoch : Z) (object_ids : list ObjectId) (card : CardObject) :
    outcome SceneError (list ObjectId) :=
  object_ids ← insert_new object_ids (IdCard (card_id card)) DuplicateObject;
  _ ← ensure (projection_epoch (card_id card) =? epoch)%Z CardEpoch;
  _ ← validate_location_seats (card_location card) layout;
  _ ← ensure (placed_within_table (card_at card) (card_extents card)) PoseOutsideTable;
  Ok object_ids.

Definition validate_face_text (cards : list CardObject) (face_text_cards : list CardObjectId) (text : TextRun)
    (id : CardObjectId) : outcome SceneError (list CardObjectId) :=
  card ← ok_or (List.find (λ card, bool_decide (card_id card = id)) cards) MissingAttachment;
  _ ← ensure (bool_decide (attached_to text = {| on_object := IdCard id; surface_kind := SurfaceFace |})) InvalidAttachment;
  face ← ok_or (card_face card) HiddenFaceText;
  face_label ← label face;
  _ ← ensure (String.eqb (content text) face_label) FaceTextMismatch;
  insert_new face_text_cards id DuplicateText.

Definition validate_score_text (layout : LayoutId) (text : TextRun) (seat : SeatId) : outcome SceneError unit :=
  _ ← validate_seat seat layout;
  ensure (bool_decide (attached_to text = {| on_object := IdScoreSheet; surface_kind := SurfaceFace |})) InvalidAttachment.

Definition validate_text (layout : LayoutId) (object_ids : list ObjectId) (cards : list CardObject)
    (seen : list TextRunId * list CardObjectId) (text : TextRun) :
    outcome SceneError (list TextRunId * list CardObjectId) :=
  let '(text_ids, face_text_cards) := seen in
  text_ids ← insert_new text_ids (text_id text) DuplicateText;
  _ ← ensure (negb (String.eqb (content text) EmptyString) &&
        bool_decide (on_object (attached_to text) ∈ object_ids)) MissingAttachment;
  _ ← ensure (pose_is_within_table_bounds (local_pose text)) PoseOutsideTable;
  match binding text with
  | BindFace id =>
      face_text_cards ← validate_face_text cards face_text_cards text id;
      Ok (text_ids, face_text_cards)
  | BindName seat | BindScore seat =>
      _ ← validate_score_text layout text seat;
      Ok (text_ids, face_text_cards)
  end.

(** [SpatialScene::validate] *)
Definition scene_validate (self : SpatialScene) : outcome SceneError unit :=
  _ ← ensure (scene_schema_version self =? SPATIAL_SCHEMA_VERSION) UnknownSchema;
  object_ids ← foldM (validate_object (scene_layout self)) (scene_objects self) [];
  object_ids ← foldM (validate_card (scene_layout self) (scene_epoch self)) (scene_cards self) object_ids;
  seen ← foldM (validate_text (scene_layout self) object_ids (scene_cards self)) (scene_text self) ([], []);
  ensure (negb (existsb (λ card, bool_decide (is_Some (card_face card)) && negb (bool_decide (card_id card ∈ seen.2)))
    (scene_cards self))) MissingFaceText.

(** ** Layouts *)

Definition LAYOUT_REVISION : nat := 1.
Definition DIRECTION_RADIUS : Z := 720.

Record SeatPlacement : Type := { placed_seat : SeatId; seat_pose : PoseMm; player_pose : PoseMm }.
#[export] Instance SeatPlacement_eq_dec : EqDecision SeatPlacement.
Proof. solve_decision. Defined.

Record ZoneVolume : Type := { zone_id : ZoneId; inner : AabbMm; outer : AabbMm }.
#[export] Instance ZoneVolume_eq_dec : EqDecision ZoneVolume.
Proof. solve_decision. Defined.

Definition zone_volume_new (id : ZoneId) (inner outer : AabbMm) : option ZoneVolume :=
  if contains_aabb outer inner then Some {| zone_id := id; inner := inner; outer := outer |} else None.

Inductive ZoneClassification : Type :=
  | Snapped (zone : ZoneId) | DeadBand (zone : ZoneId) | Free | OutOfBounds | Ambiguous (zones : list ZoneId).
#[export] Instance ZoneClassification_eq_dec : EqDecision ZoneClassification.
Proof. solve_decision. Defined.

Record SpatialLayout : Type := {
  table_id : Z; layout_id : LayoutId; table : SceneObject; score_sheet : SceneObject;
  seats : list SeatPlacement; zones : list ZoneVolume }.
#[export] Instance SpatialLayout_eq_dec : EqDecision SpatialLayout.
Proof. solve_decision. Defined.

Inductive LayoutError : Type :=
  | UnsupportedRevision | LayoutObjectKind | LayoutPoseOutsideTable | SeatCardinality | ZoneSet | InnerOutsideOuter
  | OverlappingInnerZones | OverlappingOuterZones | GeometryOverflow.
#[export] Instance LayoutError_eq_dec : EqDecision LayoutError.
Proof. solve_decision. Defined.

Definition midpoint {E} (min max : Z) : outcome E Z :=
  span ← i32_op (max - min)%Z;
  i32_op (min + span ÷ 2)%Z.

Definition half_extent {E} (min max : Z) : outcome E Z :=
  span ← i32_op (max - min)%Z;
  expect (checked 32 (span ÷ 2)%Z).

Definition pose_at_box_center {E} (bounds : AabbMm) : outcome E PoseMm :=
  x ← midpoint (p_x (box_min bounds)) (p_x (box_max bounds));
  y ← midpoint (p_y (box_min bounds)) (p_y (box_max bounds));
  z ← midpoint (p_z (box_min bounds)) (p_z (box_max bounds));
  Ok {| translation := point x y z; yaw := yaw_new 0 |}.

Definition half_extents {E} (bounds : AabbMm) : outcome E HalfExtentsMm :=
  x ← half_extent (p_x (box_min bounds)) (p_x (box_max bounds));
  y ← half_extent (p_y (box_min bounds)) (p_y (box_max bounds));
  z ← half_extent (p_z (box_min bounds)) (p_z (box_max bounds));
  Ok (half_extents_new x y z).

Definition seat_objects (placement : SeatPlacement) : list SceneObject :=
  [{| object_id := IdSeat (placed_seat placement); object_kind := KindSeat; object_pose := seat_pose placement;
      object_extents := half_extents_new 220 220 220 |};
   {| object_id := IdPlayer (placed_seat placement); object_kind := KindPlayer; object_pose := player_pose placement;
      object_extents := half_extents_new 120 240 120 |}].

Definition zone_object {E} (zone : ZoneVolume) : outcome E SceneObject :=
  pose ← pose_at_box_center (inner zone);
  extents ← half_extents (inner zone);
  Ok {| object_id := IdZone (zone_id zone); object_kind := KindZone; object_pose := pose; object_extents := extents |}.

(** [SpatialLayout::scene_objects] *)
Definition layout_objects {E} (self : SpatialLayout) : outcome E (list SceneObject) :=
  zone_objects ← filter_mapM (λ zone, object ← zone_object zone; Ok (Some object)) (zones self);
  Ok (table self :: score_sheet self :: flat_map seat_objects (seats self) ++ zone_objects).

(** The ids of [outer] that [inner] does not hold yet, appended in order *)
Definition unique_zone_ids (inner outer : list ZoneId) : list ZoneId :=
  fold_left (λ ids id, if bool_decide (id ∈ ids) then ids else ids ++ [id]) outer inner.

Definition classify_bounds (self : SpatialLayout) (bounds : AabbMm) : ZoneClassification :=
  if negb (aabb_is_within_table_bounds bounds) then OutOfBounds else
  let inner := zone_id <$> List.filter (λ zone, contains_aabb (inner zone) bounds) (zones self) in
  let outer := zone_id <$> List.filter (λ zone, intersects (outer zone) bounds) (zones self) in
  match inner, outer with
  | [inner_id], [outer_id] =>
      if bool_decide (inner_id = outer_id) then Snapped inner_id else Ambiguous (unique_zone_ids inner outer)
  | [], [] => Free
  | [], [id] => DeadBand id
  | _, _ => Ambiguous (unique_zone_ids inner outer)
  end.

Definition classify_point (self : SpatialLayout) (point : Point3Mm) : ZoneClassification :=
  match aabb_from_center point (half_extents_new 0 0 0) with
  | None => OutOfBounds
  | Some bounds => classify_bounds self bounds
  end.

Definition object_is_bounded (object : SceneObject) : bool :=
  placed_within_table (object_pose object) (object_extents object).

Definition expected_zones {E} (layout : LayoutId) : outcome E (list ZoneId) :=
  foldM (λ zones ordinal,
    seat ← expect (seat_id_new ordinal layout);
    Ok (ZoneWon seat :: ZoneHand seat :: zones)) (seq 0 (l_players layout)) [ZoneDeck; ZoneTrump; ZonePlay].

(** Equality of two [HashSet]s *)
Definition same_set {A} `{EqDecision A} (a b : list A) : bool :=
  forallb (λ x, bool_decide (x ∈ b)) a && forallb (λ x, bool_decide (x ∈ a)) b.

Definition validate_placement (id : LayoutId) (seat_ids : list SeatId) (placement : SeatPlacement) :
    outcome LayoutError (list SeatId) :=
  _ ← ensure (placed_seat placement <? l_players id) SeatCardinality;
  seat_ids ← insert_new seat_ids (placed_seat placement) SeatCardinality;
  _ ← ensure (pose_is_within_table_bounds (seat_pose placement) && pose_is_within_table_bounds (player_pose placement))
        LayoutPoseOutsideTable;
  Ok seat_ids.

Definition validate_zone (_ : unit) (zone : ZoneVolume) : outcome LayoutError unit :=
  _ ← ensure (aabb_is_within_table_bounds (inner zone) && aabb_is_within_table_bounds (outer zone)) LayoutPoseOutsideTable;
  ensure (contains_aabb (outer zone) (inner zone)) InnerOutsideOuter.

Definition validate_apart (one two : ZoneVolume) : outcome LayoutError unit :=
  _ ← ensure (negb (intersects (inner one) (inner two))) OverlappingInnerZones;
  ensure (negb (intersects (outer one) (outer two))) OverlappingOuterZones.

(** The loop over every zone and every later one *)
Fixpoint validate_overlaps (zones : list ZoneVolume) : outcome LayoutError unit :=
  match zones with
  | [] => Ok tt
  | one :: rest => _ ← foldM (λ _ two, validate_apart one two) rest tt; validate_overlaps rest
  end.

(** [SpatialLayout::validate] *)
Definition layout_validate (self : SpatialLayout) : outcome LayoutError unit :=
  _ ← ensure (l_revision (layout_id self) =? LAYOUT_REVISION) UnsupportedRevision;
  _ ← ensure (bool_decide (object_id (table self) = IdTable) && bool_decide (object_kind (table self) = KindTable))
        LayoutObjectKind;
  _ ← ensure (bool_decide (object_id (score_sheet self) = IdScoreSheet) &&
        bool_decide (object_kind (score_sheet self) = KindScoreSheet)) LayoutObjectKind;
  _ ← ensure (object_is_bounded (table self) && object_is_bounded (score_sheet self)) LayoutPoseOutsideTable;
  _ ← ensure (length (seats self) =? l_players (layout_id self)) SeatCardinality;
  _ ← foldM (validate_placement (layout_id self)) (seats self) [];
  expected ← expected_zones (layout_id self);
  let actual := remove_dups (zone_id <$> zones self) in
  _ ← ensure (same_set expected actual && (length actual =? length (zones self))) ZoneSet;
  _ ← foldM validate_zone (zones self) tt;
  validate_overlaps (zones self).

(** [SpatialLayout::try_new] *)
Definition layout_try_new (table_id : Z) (id : LayoutId) (table score_sheet : SceneObject)
    (seats : list SeatPlacement) (zones : list ZoneVolume) : outcome LayoutError SpatialLayout :=
  let layout := {| table_id := table_id; layout_id := id; table := table; score_sheet := score_sheet;
                   seats := seats; zones := zones |} in
  _ ← layout_validate layout;
  Ok layout.

(** [zone]: both volumes around one centre *)
Definition make_zone (id : ZoneId) (center : Point3Mm)
    (inner_horizontal inner_vertical outer_horizontal outer_vertical : Z) : outcome LayoutError ZoneVolume :=
  inner ← ok_or (aabb_from_center center (half_extents_new inner_horizontal inner_vertical inner_horizontal)) GeometryOverflow;
  outer ← ok_or (aabb_from_center center (half_extents_new outer_horizontal outer_vertical outer_horizontal)) GeometryOverflow;
  ok_or (zone_volume_new id inner outer) InnerOutsideOuter.

(** [pose] *)
Definition make_pose (x y z yaw : Z) : outcome LayoutError PoseMm :=
  ok_or (pose_checked (point x y z) (yaw_new yaw)) LayoutPoseOutsideTable.

Definition scale_direction (direction : Z * Z) (radius y : Z) : outcome LayoutError Point3Mm :=
  x ← ok_or (i32_checked (direction.1 * radius)%Z) GeometryOverflow;
  z ← ok_or (i32_checked (direction.2 * radius)%Z) GeometryOverflow;
  Ok (point (x ÷ DIRECTION_RADIUS)%Z y (z ÷ DIRECTION_RADIUS)%Z).

Definition directions (players : nat) : list (Z * Z) :=
  (match players with
   | 2%nat => [(0, 720); (0, -720)]
   | 3%nat => [(0, 720); (-624, -360); (624, -360)]
   | 4%nat => [(0, 720); (-720, 0); (0, -720); (720, 0)]
   | 5%nat => [(0, 720); (-685, 222); (-423, -582); (423, -582); (685, 222)]
   | 6%nat => [(0, 720); (-624, 360); (-624, -360); (0, -720); (624, -360); (624, 360)]
   | 7%nat => [(0, 720); (-563, 449); (-702, -160); (-312, -649); (312, -649); (702, -160); (563, 449)]
   | 8%nat => [(0, 720); (-509, 509); (-720, 0); (-509, -509); (0, -720); (509, -509); (720, 0); (509, 509)]
   | _ => []
   end)%Z.

(** One turn of the loop of [registered_layout] *)
Definition place_seat (id : LayoutId) (placed : list SeatPlacement * list ZoneVolume)
    (item : nat * (Z * Z)) : outcome LayoutError (list SeatPlacement * list ZoneVolume) :=
  let '(ordinal, direction) := item in
  value ← ok_or (checked 8 (Z.of_nat ordinal)) GeometryOverflow;
  seat ← ok_or (seat_id_new (Z.to_nat value) id) SeatCardinality;
  turn ← ok_or (checked 32 (Z.of_nat ordinal)) GeometryOverflow;
  turn ← ok_or (checked 32 (turn * FULL_TURN)%Z) GeometryOverflow;
  outward_yaw ← (if l_players id =? 0 then Panic else Ok (turn / Z.of_nat (l_players id))%Z);
  sum ← u_add 32 outward_yaw 180000;
  let inward_yaw := (sum mod FULL_TURN)%Z in
  seat_point ← scale_direction direction 750 0;
  seat_pose ← ok_or (pose_checked seat_point (yaw_new inward_yaw)) LayoutPoseOutsideTable;
  player_pose ← ok_or (pose_checked (point (p_x seat_point) 240 (p_z seat_point)) (yaw_new inward_yaw)) LayoutPoseOutsideTable;
  hand_center ← scale_direction direction 520 40;
  hand ← make_zone (ZoneHand seat) hand_center 75 20 95 30;
  won_center ← scale_direction direction 300 40;
  won ← make_zone (ZoneWon seat) won_center 45 20 55 30;
  Ok (placed.1 ++ [{| placed_seat := seat; seat_pose := seat_pose; player_pose := player_pose |}],
      placed.2 ++ [hand; won]).

Definition registered_layout (table_id : Z) (id : LayoutId) : outcome LayoutError SpatialLayout :=
  _ ← ensure (l_revision id =? LAYOUT_REVISION) UnsupportedRevision;
  table_pose ← make_pose 0 0 0 0;
  sheet_pose ← make_pose 265 24 0 0;
  let table := {| object_id := IdTable; object_kind := KindTable; object_pose := table_pose;
                  object_extents := half_extents_new 650 20 650 |} in
  let score_sheet := {| object_id := IdScoreSheet; object_kind := KindScoreSheet; object_pose := sheet_pose;
                        object_extents := half_extents_new 100 1 145 |} in
  deck ← make_zone ZoneDeck (point (-190) 125 0) 45 40 50 50;
  trump ← make_zone ZoneTrump (point (-70) 125 0) 45 40 50 50;
  play ← make_zone ZonePlay (point 0 40 0) 100 20 130 30;
  let ways := directions (l_players id) in
  placed ← foldM (place_seat id) (zip (seq 0 (length ways)) ways) ([], [deck; trump; play]);
  layout_try_new table_id id table score_sheet placed.1 placed.2.
