(* ===== verification/SpatialRealize.v ===== *)
(** * Realization and abstraction (poche-spatial: realization.rs, abstraction.rs)

    A viewer's projection becomes a scene of fifty-two cards with the text that may be
    read on them; a scene is read back into the projection it shows. *)

From Stdlib Require Import Ascii.
From stdpp Require Import base strings numbers option list pretty.
From S2P Require Import Prelude Spatial.

Definition STANDARD_DECK_SIZE : nat := 52.
Definition MAX_HAND_SIZE : nat := 7.
Definition CARD_HALF_EXTENTS : HalfExtentsMm := half_extents_new 32 1 44.

(** ** Projections *)

Record PlayerSpatialProjection : Type := {
  seat : SeatId; display_name : string; score : N; hand_count : nat;
  visible_hand : option (list CardFace); tricks_won : nat }.

Record PlayedCardProjection : Type := { played_seat : SeatId; played_face : CardFace }.

Record RevealedWonCard : Type := {
  winner : SeatId; trick : nat; index : nat; won_face : CardFace }.

Record ViewerSpatialProjection : Type := {
  view_epoch : Z; players : list PlayerSpatialProjection; trump : option CardFace;
  current_trick : list PlayedCardProjection; revealed_won_cards : list RevealedWonCard }.

#[export] Instance PlayerSpatialProjection_eq_dec : EqDecision PlayerSpatialProjection.
Proof. solve_decision. Defined.
#[export] Instance PlayedCardProjection_eq_dec : EqDecision PlayedCardProjection.
Proof. solve_decision. Defined.
#[export] Instance RevealedWonCard_eq_dec : EqDecision RevealedWonCard.
Proof. solve_decision. Defined.
#[export] Instance ViewerSpatialProjection_eq_dec : EqDecision ViewerSpatialProjection.
Proof. solve_decision. Defined.

Inductive RealizationError : Type :=
  | PlayerSet | HandCardinality | CurrentTrick | RevealedWonCardError | RealizeCardConservation | DuplicateKnownFace
  | Geometry | RealizedScene (e : SceneError).

(** ** Validating a projection *)

Definition ordered_player (layout : SpatialLayout) (projection : ViewerSpatialProjection)
    (ordered : list PlayerSpatialProjection) (ordinal : nat) : outcome RealizationError (list PlayerSpatialProjection) :=
  candidate ← expect (seat_id_new ordinal (layout_id layout));
  match List.filter (λ player, seat player =? candidate) (players projection) with
  | [player] =>
      if String.eqb (display_name player) EmptyString then Err PlayerSet else Ok (ordered ++ [player])
  | _ => Err PlayerSet
  end.

Definition ordered_players (layout : SpatialLayout) (projection : ViewerSpatialProjection) :
    outcome RealizationError (list PlayerSpatialProjection) :=
  ordered ← foldM (ordered_player layout projection) (seq 0 (l_players (layout_id layout))) [];
  _ ← ensure (length ordered =? length (players projection)) PlayerSet;
  Ok ordered.

(** [<] on the slots [(winner, trick, index)] of two captured cards *)
Definition slot_lt (one two : RevealedWonCard) : bool :=
  (winner one <? winner two) ||
  (winner one =? winner two) && ((trick one <? trick two) ||
  (trick one =? trick two) && (index one <? index two)).

(** No two neighbours out of order: [windows(2).any(..)] *)
Fixpoint slots_increase (cards : list RevealedWonCard) : bool :=
  match cards with
  | one :: ((two :: _) as rest) => slot_lt one two && slots_increase rest
  | _ => true
  end.

Definition known_face (known : list CardFace) (face : CardFace) : outcome RealizationError (list CardFace) :=
  insert_new known face DuplicateKnownFace.

Definition account_player (layout : SpatialLayout) (state : list CardFace * nat) (player : PlayerSpatialProjection) :
    outcome RealizationError (list CardFace * nat) :=
  let '(known, accounted) := state in
  _ ← ensure (hand_count player <=? MAX_HAND_SIZE) HandCardinality;
  known ← match visible_hand player with
          | None => Ok known
          | Some hand => _ ← ensure (length hand =? hand_count player) HandCardinality; foldM known_face hand known
          end;
  Ok (known, accounted + hand_count player + tricks_won player * l_players (layout_id layout)).

Definition account_played (layout : SpatialLayout) (state : list SeatId * list CardFace) (played : PlayedCardProjection) :
    outcome RealizationError (list SeatId * list CardFace) :=
  let '(trick_seats, known) := state in
  _ ← ensure (played_seat played <? l_players (layout_id layout)) CurrentTrick;
  trick_seats ← insert_new trick_seats (played_seat played) CurrentTrick;
  known ← known_face known (played_face played);
  Ok (trick_seats, known).

Definition account_won (layout : SpatialLayout) (ordered : list PlayerSpatialProjection)
    (state : list (SeatId * nat * nat) * list CardFace) (revealed : RevealedWonCard) :
    outcome RealizationError (list (SeatId * nat * nat) * list CardFace) :=
  let '(won_slots, known) := state in
  player ← ok_or (List.find (λ player, seat player =? winner revealed) ordered) RevealedWonCardError;
  _ ← ensure ((trick revealed <? tricks_won player) && (index revealed <? l_players (layout_id layout))) RevealedWonCardError;
  won_slots ← insert_new won_slots (winner revealed, trick revealed, index revealed) RevealedWonCardError;
  known ← known_face known (won_face revealed);
  Ok (won_slots, known).

Definition validate_projection (layout : SpatialLayout) (projection : ViewerSpatialProjection) :
    outcome RealizationError unit :=
  ordered ← ordered_players layout projection;
  _ ← ensure (bool_decide (seat <$> players projection = seq 0 (length (players projection)))) PlayerSet;
  _ ← ensure (slots_increase (revealed_won_cards projection)) RevealedWonCardError;
  let known := option_list (trump projection) in
  let accounted := length known in
  state ← foldM (account_player layout) ordered (known, accounted);
  _ ← ensure (length (current_trick projection) <? l_players (layout_id layout)) CurrentTrick;
  played ← foldM (account_played layout) (current_trick projection) ([], state.1);
  let accounted := state.2 + length (current_trick projection) in
  _ ← foldM (account_won layout ordered) (revealed_won_cards projection) ([], played.2);
  _ ← ensure (bool_decide (is_Some (trump projection)) || (accounted =? 0)) RealizeCardConservation;
  ensure (accounted <=? STANDARD_DECK_SIZE) RealizeCardConservation.

(** ** Cards *)

Definition push_card (cards : list CardObject) (epoch : Z) (location : CardLocation) (pose : PoseMm)
    (face : option CardFace) : outcome RealizationError (list CardObject) :=
  value ← ok_or (checked 8 (Z.of_nat (length cards))) RealizeCardConservation;
  Ok (cards ++ [{| card_id := {| projection_epoch := epoch; ordinal := Z.to_nat value |};
                   card_location := location; card_at := pose; card_extents := CARD_HALF_EXTENTS;
                   card_face := face |}]).

(** The centre of the zone a card lies in *)
Definition zone_center (zone : ZoneVolume) : Point3Mm :=
  let min := box_min (inner zone) in
  let max := box_max (inner zone) in
  point (i32_midpoint (p_x min) (p_x max)) (i32_midpoint (p_y min) (p_y max)) (i32_midpoint (p_z min) (p_z max)).

(** Where the source adds up [i32]s *)
Definition card_point (layout : SpatialLayout) (center : Point3Mm) (location : CardLocation) (location_count : nat) :
    outcome RealizationError Point3Mm :=
  match location with
  | LocDeck index_from_bottom =>
      raised ← i32_op (p_y center + Z.of_nat index_from_bottom)%Z;
      y ← i32_op (raised - Z.of_nat location_count ÷ 2)%Z;
      Ok (point (p_x center) y (p_z center))
  | LocTrump => Ok center
  | LocHand _ index_from_left =>
      let offset := ((2 * Z.of_nat index_from_left + 1 - Z.of_nat location_count) * 7)%Z in
      x ← i32_op (p_x center + offset)%Z;
      Ok (point x (p_y center) (p_z center))
  | LocPlay seat =>
      placement ← ok_or (List.find (λ placement, placed_seat placement =? seat) (seats layout)) Geometry;
      dx ← i32_op (p_x (translation (seat_pose placement)) * 50)%Z;
      x ← i32_op (p_x center + dx ÷ 750)%Z;
      dz ← i32_op (p_z (translation (seat_pose placement)) * 50)%Z;
      z ← i32_op (p_z center + dz ÷ 750)%Z;
      Ok (point x (p_y center) z)
  | LocWon _ trick index =>
      let offset := ((Z.of_nat index - Z.of_nat (l_players (layout_id layout)) ÷ 2) * 2)%Z in
      x ← i32_op (p_x center + offset)%Z;
      y ← i32_op (p_y center + Z.of_nat trick)%Z;
      Ok (point x y (p_z center))
  end.

Definition card_pose (layout : SpatialLayout) (location : CardLocation) (location_count : nat) :
    outcome RealizationError PoseMm :=
  zone ← ok_or (List.find (λ zone, bool_decide (zone_id zone = location_zone location)) (zones layout)) Geometry;
  at_point ← card_point layout (zone_center zone) location location_count;
  ok_or (pose_checked at_point (yaw_new 0)) Geometry.

(** [push_card] at the pose of its location, the body of every loop below *)
Definition place_card (layout : SpatialLayout) (epoch : Z) (location_count : nat) (cards : list CardObject)
    (item : CardLocation * option CardFace) : outcome RealizationError (list CardObject) :=
  pose ← card_pose layout item.1 location_count;
  push_card cards epoch item.1 pose item.2.

Definition hand_face (player : PlayerSpatialProjection) (index : nat) : option CardFace :=
  hand ← visible_hand player; hand !! index.

Definition realize_hands (layout : SpatialLayout) (epoch : Z) (ordered : list PlayerSpatialProjection)
    (cards : list CardObject) : outcome RealizationError (list CardObject) :=
  foldM (λ cards player,
    foldM (λ cards index,
      place_card layout epoch (hand_count player) cards (LocHand (seat player) index, hand_face player index))
      (seq 0 (hand_count player)) cards) ordered cards.

Definition realize_current_trick (layout : SpatialLayout) (projection : ViewerSpatialProjection)
    (cards : list CardObject) : outcome RealizationError (list CardObject) :=
  foldM (λ cards played,
    place_card layout (view_epoch projection) 1 cards (LocPlay (played_seat played), Some (played_face played)))
    (current_trick projection) cards.

Definition revealed_face (projection : ViewerSpatialProjection) (owner : SeatId) (t i : nat) : option CardFace :=
  won_face <$> List.find (λ revealed, (winner revealed =? owner) && (trick revealed =? t) && (index revealed =? i))
    (revealed_won_cards projection).

Definition realize_won_cards (layout : SpatialLayout) (projection : ViewerSpatialProjection)
    (ordered : list PlayerSpatialProjection) (cards : list CardObject) : outcome RealizationError (list CardObject) :=
  foldM (λ cards player,
    foldM (λ cards trick,
      foldM (λ cards index,
        place_card layout (view_epoch projection) 1 cards
          (LocWon (seat player) trick index, revealed_face projection (seat player) trick index))
        (seq 0 (l_players (layout_id layout))) cards)
      (seq 0 (tricks_won player)) cards) ordered cards.

Definition realize_deck (layout : SpatialLayout) (epoch : Z) (cards : list CardObject) :
    outcome RealizationError (list CardObject) :=
  deck_count ← (if length cards <=? STANDARD_DECK_SIZE then Ok (STANDARD_DECK_SIZE - length cards)
                else Err RealizeCardConservation);
  location_count ← ok_or (checked 8 (Z.of_nat deck_count)) RealizeCardConservation;
  foldM (λ cards index,
    index_from_bottom ← ok_or (checked 8 (Z.of_nat index)) RealizeCardConservation;
    place_card layout epoch (Z.to_nat location_count) cards (LocDeck (Z.to_nat index_from_bottom), None))
    (seq 0 deck_count) cards.

Definition realize_cards (layout : SpatialLayout) (projection : ViewerSpatialProjection)
    (ordered : list PlayerSpatialProjection) : outcome RealizationError (list CardObject) :=
  cards ← match trump projection with
          | Some face => place_card layout (view_epoch projection) 1 [] (LocTrump, Some face)
          | None => Ok []
          end;
  cards ← realize_hands layout (view_epoch projection) ordered cards;
  cards ← realize_current_trick layout projection cards;
  cards ← realize_won_cards layout projection ordered cards;
  realize_deck layout (view_epoch projection) cards.

(** ** Text *)

(** [u16::to_string] *)
Definition to_decimal (value : N) : string := pretty value.

Definition next_text_id (text : list TextRun) : outcome RealizationError TextRunId :=
  value ← ok_or (checked 16 (Z.of_nat (length text))) Geometry;
  Ok (Z.to_nat value).

Definition local_text_pose (x y z : Z) : outcome RealizationError PoseMm :=
  ok_or (pose_checked (point x y z) (yaw_new 0)) Geometry.

(** The new run, appended; its fields are evaluated in order *)
Definition push_text (text : list TextRun) (binding : TextBinding) (object : ObjectId) (x y z : Z)
    (content : outcome RealizationError string) : outcome RealizationError (list TextRun) :=
  id ← next_text_id text;
  pose ← local_text_pose x y z;
  content ← content;
  Ok (text ++ [{| text_id := id; binding := binding;
                  attached_to := {| on_object := object; surface_kind := SurfaceFace |};
                  local_pose := pose; content := content |}]).

Definition realize_face_text (text : list TextRun) (card : CardObject) : outcome RealizationError (list TextRun) :=
  match card_face card with
  | None => Ok text
  | Some face => push_text text (BindFace (card_id card)) (IdCard (card_id card)) 0 2 0 (label face)
  end.

Definition realize_player_text (layout : SpatialLayout) (text : list TextRun) (item : nat * PlayerSpatialProjection) :
    outcome RealizationError (list TextRun) :=
  let '(ordinal, player) := item in
  row ← ok_or (i32_checked (Z.of_nat ordinal)) Geometry;
  doubled ← i32_op (2 * row)%Z;
  next ← i32_op (doubled + 1)%Z;
  centred ← i32_op (next - Z.of_nat (l_players (layout_id layout)))%Z;
  z ← i32_op (centred * 14)%Z;
  text ← push_text text (BindName (seat player)) IdScoreSheet (-45) 2 z (Ok (display_name player));
  push_text text (BindScore (seat player)) IdScoreSheet 55 2 z (Ok (to_decimal (score player))).

Definition realize_text (layout : SpatialLayout) (ordered : list PlayerSpatialProjection) (cards : list CardObject) :
    outcome RealizationError (list TextRun) :=
  text ← foldM realize_face_text cards [];
  foldM (realize_player_text layout) (zip (seq 0 (length ordered)) ordered) text.

Definition realize_viewer_scene (layout : SpatialLayout) (projection : ViewerSpatialProjection) :
    outcome RealizationError SpatialScene :=
  _ ← validate_projection layout projection;
  ordered ← ordered_players layout projection;
  cards ← realize_cards layout projection ordered;
  text ← realize_text layout ordered cards;
  objects ← layout_objects layout;
  let scene := {| scene_schema_version := SPATIAL_SCHEMA_VERSION; scene_table_id := table_id layout;
                  scene_layout := layout_id layout; scene_epoch := view_epoch projection;
                  scene_objects := objects; scene_cards := cards; scene_text := text |} in
  _ ← map_err RealizedScene (scene_validate scene);
  Ok scene.

(** ** The score sheet *)

Inductive ScoreSheetError : Type := SheetScene (e : SceneError) | ScoreCardinality | InvalidScore.

Definition decimal_digit (c : ascii) : option N :=
  if ((48 <=? N_of_ascii c) && (N_of_ascii c <=? 57))%N then Some (N_of_ascii c - 48)%N else None.

(** The digits of [parse::<u16>], with its checked multiplication and addition *)
Fixpoint parse_digits (value : N) (text : string) : option N :=
  match text with
  | EmptyString => Some value
  | String c rest =>
      digit ← decimal_digit c;
      let value := (value * 10 + digit)%N in
      if (value <? 65536)%N then parse_digits value rest else None
  end.

(** [parse::<u16>]: digits after an optional plus sign *)
Definition parse_u16 (text : string) : option N :=
  match text with
  | EmptyString => None
  | String "+" EmptyString => None
  | String "+" rest => parse_digits 0 rest
  | _ => parse_digits 0 text
  end.

Definition interpret_score (scene : SpatialScene) (scores : list (SeatId * N)) (ordinal : nat) :
    outcome ScoreSheetError (list (SeatId * N)) :=
  owner ← ok_or (seat_id_new ordinal (scene_layout scene)) ScoreCardinality;
  match List.filter (λ text, bool_decide (binding text = BindScore owner)) (scene_text scene) with
  | [cell] =>
      value ← ok_or (parse_u16 (content cell)) InvalidScore;
      if String.eqb (to_decimal value) (content cell) then Ok (scores ++ [(owner, value)]) else Err InvalidScore
  | _ => Err ScoreCardinality
  end.

Definition interpret_score_sheet (scene : SpatialScene) : outcome ScoreSheetError (list (SeatId * N)) :=
  _ ← map_err SheetScene (scene_validate scene);
  foldM (interpret_score scene) (seq 0 (l_players (scene_layout scene))) [].

(** ** Abstraction *)

Inductive AbstractionError : Type :=
  | LayoutMismatch | AbstractedScene (e : SceneError) | CardConservation | CardSlots | MixedHandVisibility
  | MissingPublicFace | UnexpectedDeckFace | PlayerName | PlayerScore.

Fixpoint require_contiguous_from (expected : nat) (indices : list nat) : outcome AbstractionError unit :=
  match indices with
  | [] => Ok tt
  | actual :: rest => if actual =? expected then require_contiguous_from (S expected) rest else Err CardSlots
  end.

Definition require_contiguous (indices : list nat) : outcome AbstractionError unit := require_contiguous_from 0 indices.

Definition hand_slot (owner : SeatId) (card : CardObject) : option (nat * option CardFace) :=
  match card_location card with
  | LocHand seat index => if seat =? owner then Some (index, card_face card) else None
  | _ => None
  end.

Definition won_slot (owner : SeatId) (card : CardObject) : option (nat * nat * option CardFace) :=
  match card_location card with
  | LocWon seat trick index => if seat =? owner then Some (trick, index, card_face card) else None
  | _ => None
  end.

Definition deck_slot (card : CardObject) : option (nat * option CardFace) :=
  match card_location card with LocDeck index => Some (index, card_face card) | _ => None end.

Definition name_text (owner : SeatId) (text : TextRun) : option string :=
  match binding text with
  | BindName seat => if seat =? owner then Some (content text) else None
  | _ => None
  end.

Definition won_le (one two : nat * nat * option CardFace) : bool :=
  (one.1.1 <? two.1.1) || (one.1.1 =? two.1.1) && (one.1.2 <=? two.1.2).

(** Every face of a hand, or none of them *)
Definition abstract_hand (hand : list (nat * option CardFace)) : outcome AbstractionError (option (list CardFace)) :=
  match length (List.filter (λ slot, bool_decide (is_Some slot.2)) hand) with
  | O => Ok None
  | visible =>
      if visible =? length hand
      then faces ← filter_mapM (λ slot, face ← ok_or slot.2 MixedHandVisibility; Ok (Some face)) hand; Ok (Some faces)
      else Err MixedHandVisibility
  end.

(** The slot at [ordinal] is the next card of its trick *)
Definition check_won_slot (per_trick : nat) (_ : unit) (item : nat * (nat * nat * option CardFace)) :
    outcome AbstractionError unit :=
  ensure ((item.2.1.1 =? item.1 `div` per_trick) && (item.2.1.2 =? item.1 `mod` per_trick)) CardSlots.

Definition validate_won_slots (layout : SpatialLayout) (won : list (nat * nat * option CardFace)) :
    outcome AbstractionError nat :=
  match won with
  | [] => Ok 0
  | _ =>
      let per_trick := l_players (layout_id layout) in
      _ ← ensure (length won `mod` per_trick =? 0) CardSlots;
      _ ← foldM (check_won_slot per_trick) (zip (seq 0 (length won)) won) tt;
      tricks ← ok_or (checked 8 (Z.of_nat (length won `div` per_trick))) CardSlots;
      Ok (Z.to_nat tricks)
  end.

Definition abstract_won (owner : SeatId) (slot : nat * nat * option CardFace) : option RevealedWonCard :=
  face ← slot.2;
  Some {| winner := owner; trick := slot.1.1; index := slot.1.2; won_face := face |}.

(** The body of the loop of [abstract_players] *)
Definition abstract_player (layout : SpatialLayout) (scene : SpatialScene) (scores : list (SeatId * N))
    (state : list PlayerSpatialProjection * list RevealedWonCard) (ordinal : nat) :
    outcome AbstractionError (list PlayerSpatialProjection * list RevealedWonCard) :=
  owner ← ok_or (seat_id_new ordinal (layout_id layout)) CardSlots;
  name ← match omap (name_text owner) (scene_text scene) with [name] => Ok name | _ => Err PlayerName end;
  let hand := sort_by (λ one two, one.1 <=? two.1) (omap (hand_slot owner) (scene_cards scene)) in
  _ ← require_contiguous (fst <$> hand);
  visible ← abstract_hand hand;
  let won := sort_by won_le (omap (won_slot owner) (scene_cards scene)) in
  tricks ← validate_won_slots layout won;
  let revealed := state.2 ++ omap (abstract_won owner) won in
  entry ← expect (scores !! ordinal);
  count ← ok_or (checked 8 (Z.of_nat (length hand))) CardSlots;
  Ok (state.1 ++ [{| seat := owner; display_name := name; score := entry.2; hand_count := Z.to_nat count;
                     visible_hand := visible; tricks_won := tricks |}], revealed).

Definition abstract_players (layout : SpatialLayout) (scene : SpatialScene) :
    outcome AbstractionError (list PlayerSpatialProjection * list RevealedWonCard) :=
  scores ← map_err (λ _, PlayerScore) (interpret_score_sheet scene);
  foldM (abstract_player layout scene scores) (seq 0 (l_players (layout_id layout))) ([], []).

Definition abstract_trump (scene : SpatialScene) : outcome AbstractionError (option CardFace) :=
  match List.filter (λ card, bool_decide (card_location card = LocTrump)) (scene_cards scene) with
  | [] => Ok None
  | [card] => face ← ok_or (card_face card) MissingPublicFace; Ok (Some face)
  | _ => Err CardSlots
  end.

Definition abstract_played (card : CardObject) : outcome AbstractionError (option PlayedCardProjection) :=
  match card_location card with
  | LocPlay owner =>
      face ← ok_or (card_face card) MissingPublicFace;
      Ok (Some {| played_seat := owner; played_face := face |})
  | _ => Ok None
  end.

Definition validate_deck (scene : SpatialScene) : outcome AbstractionError unit :=
  let deck := sort_by (λ one two, one.1 <=? two.1) (omap deck_slot (scene_cards scene)) in
  _ ← require_contiguous (fst <$> deck);
  ensure (negb (existsb (λ slot, bool_decide (is_Some slot.2)) deck)) UnexpectedDeckFace.

Definition abstract_viewer_scene (layout : SpatialLayout) (scene : SpatialScene) :
    outcome AbstractionError ViewerSpatialProjection :=
  _ ← ensure (bool_decide (layout_id layout = scene_layout scene) && (table_id layout =? scene_table_id scene)%Z)
        LayoutMismatch;
  _ ← ensure (length (scene_cards scene) =? STANDARD_DECK_SIZE) CardConservation;
  _ ← map_err AbstractedScene (scene_validate scene);
  abstracted ← abstract_players layout scene;
  trump ← abstract_trump scene;
  current_trick ← filter_mapM abstract_played (scene_cards scene);
  _ ← validate_deck scene;
  Ok {| view_epoch := scene_epoch scene; players := abstracted.1; trump := trump; current_trick := current_trick;
        revealed_won_cards := abstracted.2 |}.
