(* ===== verification/SpatialPlay.v ===== *)
(** * Playing a card on the table (poche-spatial: interaction.rs, hash.rs,
      manipulation.rs, physical_identity.rs; poche-runtime: spatial.rs)

    A named face or a dragged card becomes the one game action it stands for, with the
    record a renderer replays; the fingerprint of a scene; the shared pose of a card in
    someone's hand, and the durable handles of the physical cards. *)

From stdpp Require Import base strings numbers option list.
From S2P Require Import Prelude Methods Protocol Bytes Spatial SpatialRealize.

(** ** Interaction *)

Definition DEFAULT_TWEEN_MILLISECONDS : Z := 300.

Inductive InteractionFinding : Type :=
  | PlayLayoutMismatch | MissingCard | HiddenCard | UnauthorizedCard | DuplicateCard | UnknownObject | WrongZone
  | PlayDeadBand | PlayAmbiguous | PlayFree | PlayOutOfBounds | IllegalAction | PlayGeometry.

Inductive AnimationEasing : Type := Linear | SmoothStep.

Record SpatialPlayRecord : Type := {
  record_object : CardObjectId; record_face : CardFace; source : CardLocation; destination : CardLocation;
  source_pose : PoseMm; duration_milliseconds : Z; easing : AnimationEasing }.

Record AnimationEndpoint : Type := {
  animated : ObjectId; animate_from : PoseMm; animate_to : PoseMm; animation_milliseconds : Z;
  animation_easing : AnimationEasing }.

Record ResolvedCardPlay : Type := { resolved_face : CardFace; record : SpatialPlayRecord }.

Definition validate_layout (layout : SpatialLayout) (scene : SpatialScene) : outcome InteractionFinding unit :=
  ensure (bool_decide (layout_id layout = scene_layout scene) && (table_id layout =? scene_table_id scene)%Z)
    PlayLayoutMismatch.

Definition reconstruct_animation_endpoint (layout : SpatialLayout) (record : SpatialPlayRecord) :
    outcome InteractionFinding AnimationEndpoint :=
  match source record, destination record with
  | LocHand from _, LocPlay to =>
      _ ← ensure (from =? to) PlayGeometry;
      pose ← map_err (λ _, PlayGeometry) (card_pose layout (destination record) 1);
      Ok {| animated := IdCard (record_object record); animate_from := source_pose record; animate_to := pose;
            animation_milliseconds := duration_milliseconds record; animation_easing := easing record |}
  | _, _ => Err PlayGeometry
  end.

(** [matches!(location, CardLocation::Hand { seat, .. } if seat == issuing_seat)] *)
Definition in_hand_of (issuing_seat : SeatId) (card : CardObject) : bool :=
  match card_location card with LocHand seat _ => seat =? issuing_seat | _ => false end.

Definition resolved_play (layout : SpatialLayout) (card : CardObject) (issuing_seat : SeatId) :
    outcome InteractionFinding ResolvedCardPlay :=
  match card_face card with
  | None => Err HiddenCard
  | Some face =>
      _ ← ensure (in_hand_of issuing_seat card) UnauthorizedCard;
      let record := {| record_object := card_id card; record_face := face; source := card_location card;
                       destination := LocPlay issuing_seat; source_pose := card_at card;
                       duration_milliseconds := DEFAULT_TWEEN_MILLISECONDS; easing := SmoothStep |} in
      _ ← reconstruct_animation_endpoint layout record;
      Ok {| resolved_face := face; record := record |}
  end.

Definition resolve_card_play (layout : SpatialLayout) (scene : SpatialScene) (issuing_seat : SeatId) (face : CardFace) :
    outcome InteractionFinding ResolvedCardPlay :=
  _ ← validate_layout layout scene;
  let face_matches := List.filter (λ card, bool_decide (card_face card = Some face)) (scene_cards scene) in
  match List.filter (in_hand_of issuing_seat) face_matches with
  | [card] => resolved_play layout card issuing_seat
  | _ :: _ :: _ => Err DuplicateCard
  | [] =>
      match face_matches with
      | _ :: _ => Err UnauthorizedCard
      | [] =>
          if existsb (λ card, bool_decide (card_face card = None) && in_hand_of issuing_seat card) (scene_cards scene)
          then Err HiddenCard else Err MissingCard
      end
  end.

Definition resolve_drag_play (layout : SpatialLayout) (scene : SpatialScene) (issuing_seat : SeatId)
    (object : CardObjectId) (released_bounds : AabbMm) : outcome InteractionFinding ResolvedCardPlay :=
  _ ← validate_layout layout scene;
  card ← ok_or (List.find (λ card, bool_decide (card_id card = object)) (scene_cards scene)) UnknownObject;
  _ ← ensure (in_hand_of issuing_seat card) UnauthorizedCard;
  _ ← ensure (bool_decide (is_Some (card_face card))) HiddenCard;
  match classify_bounds layout released_bounds with
  | Snapped ZonePlay => resolved_play layout card issuing_seat
  | Snapped _ => Err WrongZone
  | DeadBand _ => Err PlayDeadBand
  | Ambiguous _ => Err PlayAmbiguous
  | Free => Err PlayFree
  | OutOfBounds => Err PlayOutOfBounds
  end.

(** ** The command a play becomes (poche-runtime) *)

Record SpatialPlayCommand : Type := { command_payload : CommandPayload; spatial_record : SpatialPlayRecord }.

(** [From<ResolvedCardPlay>] *)
Definition command_of_play (value : ResolvedCardPlay) : SpatialPlayCommand :=
  {| command_payload := GameAction (WirePlay (resolved_face value)); spatial_record := record value |}.

Definition checked_command (command : SpatialPlayCommand) (legal_actions : list GameActionWire) :
    outcome InteractionFinding SpatialPlayCommand :=
  match command_payload command with
  | GameAction action => if bool_decide (action ∈ legal_actions) then Ok command else Err IllegalAction
  | _ => Err IllegalAction
  end.

Definition resolve_spatial_card_command (layout : SpatialLayout) (scene : SpatialScene) (issuing_seat : SeatId)
    (face : CardFace) (legal_actions : list GameActionWire) : outcome InteractionFinding SpatialPlayCommand :=
  resolved ← resolve_card_play layout scene issuing_seat face;
  checked_command (command_of_play resolved) legal_actions.

Definition resolve_spatial_drag_command (layout : SpatialLayout) (scene : SpatialScene) (issuing_seat : SeatId)
    (object : CardObjectId) (released_bounds : AabbMm) (legal_actions : list GameActionWire) :
    outcome InteractionFinding SpatialPlayCommand :=
  resolved ← resolve_drag_play layout scene issuing_seat object released_bounds;
  checked_command (command_of_play resolved) legal_actions.

(** ** The fingerprint of a scene

    What the hasher is fed, field by field. *)

Definition len_field (value : nat) : list Z := be_bytes 8 (default (umax 64) (checked 64 (Z.of_nat value))).
Definition bytes_field (value : list Z) : list Z := len_field (length value) ++ value.
Definition u8_field (value : nat) : list Z := [Z.of_nat value].
Definition u16_field (value : nat) : list Z := be_bytes 2 (Z.of_nat value).
Definition u32_field (value : Z) : list Z := be_bytes 4 value.
Definition u64_field (value : Z) : list Z := be_bytes 8 value.

(** [i32::to_be_bytes], in two's complement *)
Definition i32_field (value : Z) : list Z := be_bytes 4 (value mod 2 ^ 32)%Z.

Definition point_field (value : Point3Mm) : list Z :=
  i32_field (p_x value) ++ i32_field (p_y value) ++ i32_field (p_z value).

Definition pose_field (value : PoseMm) : list Z := point_field (translation value) ++ u32_field (yaw value).

Definition extents_field (value : HalfExtentsMm) : list Z :=
  u32_field (h_x value) ++ u32_field (h_y value) ++ u32_field (h_z value).

Definition zone_field (zone : ZoneId) : list Z :=
  match zone with
  | ZoneDeck => u8_field 0
  | ZoneTrump => u8_field 1
  | ZoneHand owner => u8_field 2 ++ u8_field owner
  | ZonePlay => u8_field 3
  | ZoneWon owner => u8_field 4 ++ u8_field owner
  end.

Definition card_id_field (card : CardObjectId) : list Z := u64_field (projection_epoch card) ++ u8_field (ordinal card).

Definition object_id_field (id : ObjectId) : list Z :=
  match id with
  | IdTable => u8_field 0
  | IdSeat owner => u8_field 1 ++ u8_field owner
  | IdPlayer owner => u8_field 2 ++ u8_field owner
  | IdZone value => u8_field 3 ++ zone_field value
  | IdScoreSheet => u8_field 4
  | IdCard card => u8_field 5 ++ card_id_field card
  end.

Definition card_location_field (value : CardLocation) : list Z :=
  match value with
  | LocDeck index_from_bottom => u8_field 0 ++ u8_field index_from_bottom
  | LocTrump => u8_field 1
  | LocHand owner index_from_left => u8_field 2 ++ u8_field owner ++ u8_field index_from_left
  | LocPlay owner => u8_field 3 ++ u8_field owner
  | LocWon owner trick index => u8_field 4 ++ u8_field owner ++ u8_field trick ++ u8_field index
  end.

Definition surface_field (value : SurfaceId) : list Z :=
  object_id_field (on_object value) ++
  u8_field match surface_kind value with SurfaceFace => 0 | SurfaceBack => 1 | SurfaceTop => 2 end.

Definition text_binding_field (value : TextBinding) : list Z :=
  match value with
  | BindFace card => u8_field 0 ++ card_id_field card
  | BindName owner => u8_field 1 ++ u8_field owner
  | BindScore owner => u8_field 2 ++ u8_field owner
  end.

Definition object_field (object : SceneObject) : list Z :=
  object_id_field (object_id object) ++
  u8_field match object_kind object with
           | KindTable => 0 | KindSeat => 1 | KindPlayer => 2 | KindZone => 3 | KindScoreSheet => 4
           end ++
  pose_field (object_pose object) ++ extents_field (object_extents object).

Definition card_field (card : CardObject) : list Z :=
  card_id_field (card_id card) ++ card_location_field (card_location card) ++ pose_field (card_at card) ++
  extents_field (card_extents card) ++
  match card_face card with Some face => u8_field 1 ++ u8_field face | None => u8_field 0 end.

Definition text_field (run : TextRun) : list Z :=
  u16_field (text_id run) ++ text_binding_field (binding run) ++ surface_field (attached_to run) ++
  pose_field (local_pose run) ++ bytes_field (text_bytes (content run)).

(** b"poche-spatial-scene-hash-v1\0" *)
Definition SCENE_HASH_DOMAIN : list Z := text_bytes "poche-spatial-scene-hash-v1" ++ [0%Z].

Definition scene_hash_bytes (scene : SpatialScene) : list Z :=
  SCENE_HASH_DOMAIN ++ u16_field (scene_schema_version scene) ++ u64_field (scene_table_id scene) ++
  u8_field (l_players (scene_layout scene)) ++ u16_field (l_revision (scene_layout scene)) ++
  u64_field (scene_epoch scene) ++
  len_field (length (scene_objects scene)) ++ flat_map object_field (scene_objects scene) ++
  len_field (length (scene_cards scene)) ++ flat_map card_field (scene_cards scene) ++
  len_field (length (scene_text scene)) ++ flat_map text_field (scene_text scene).

Section Hash.
Context (blake3 : list Z → list Z).

Definition spatial_scene_hash (scene : SpatialScene) : outcome SceneError (list Z) :=
  _ ← scene_validate scene;
  Ok (blake3 (scene_hash_bytes scene)).

Definition spatial_scene_hash_hex (scene : SpatialScene) : outcome SceneError string :=
  hash ← spatial_scene_hash scene;
  Ok (hex hash).
End Hash.

(** ** Physical cards *)

Section PhysicalIdentity.
Context (blake3_keyed : list Z → list Z → list Z).

(** b"poche.physical-card.v1\0" *)
Definition PHYSICAL_CARD_DOMAIN : list Z := text_bytes "poche.physical-card.v1" ++ [0%Z].

(** [u64::to_le_bytes] *)
Definition le_bytes (n : nat) (value : Z) : list Z := rev (be_bytes n value).

(** What is hashed, under [secret], for one face *)
Definition physical_card_bytes (round_epoch : Z) (face : CardFace) : list Z :=
  PHYSICAL_CARD_DOMAIN ++ le_bytes 8 round_epoch ++ [Z.of_nat face].

(** [PhysicalDeckIdentity::new] *)
Definition physical_deck_new (secret : list Z) (round_epoch : Z) : list (list Z) :=
  (λ face, blake3_keyed secret (physical_card_bytes round_epoch face)) <$> seq 0 52.

(** [PhysicalDeckIdentity::card] *)
Definition physical_card {E} (ids : list (list Z)) (face : CardFace) : outcome E (list Z) := expect (ids !! face).
End PhysicalIdentity.

(** ** Manipulation *)

Record RotationMilliDegrees : Type := { rot_yaw : Z; pitch : Z; roll : Z }.
Record ManipulationPose : Type := { m_translation : Point3Mm; rotation : RotationMilliDegrees }.

(** [From<PoseMm>] *)
Definition manipulation_pose_of (pose : PoseMm) : ManipulationPose :=
  {| m_translation := translation pose; rotation := {| rot_yaw := yaw pose; pitch := 0; roll := 0 |} |}.

Inductive ManipulationError : Type := OutsideWorld | WrongLease | StaleSequence | StaleLease.

(** The state of one card, for any identity [I] *)
Record CardManipulation (I : Type) : Type := {
  manipulated : I; m_pose : ManipulationPose; lease_epoch : Z; sequence : Z; inside_play : bool }.
Arguments manipulated {_} _.
Arguments m_pose {_} _.
Arguments lease_epoch {_} _.
Arguments sequence {_} _.
Arguments inside_play {_} _.

Definition card_manipulation_new {I} (card : I) (pose : ManipulationPose) (lease_epoch : Z) :
    outcome ManipulationError (CardManipulation I) :=
  _ ← ensure (point_is_within_table_bounds (m_translation pose)) OutsideWorld;
  Ok {| manipulated := card; m_pose := pose; lease_epoch := lease_epoch; sequence := 0; inside_play := false |}.

(** [CardManipulation::update]: whether this sample is an attempt to play *)
Definition manipulation_update {I} (lease sequence' : Z) (pose : ManipulationPose) (inside : bool) :
    M (CardManipulation I) ManipulationError bool :=
  self ← read id;
  _ ← lift (ensure (lease =? lease_epoch self)%Z WrongLease);
  _ ← lift (ensure (sequence self <? sequence')%Z StaleSequence);
  _ ← lift (ensure (point_is_within_table_bounds (m_translation pose)) OutsideWorld);
  let attempt := inside && negb (inside_play self) in
  _ ← update (λ self, {| manipulated := manipulated self; m_pose := pose; lease_epoch := lease_epoch self;
                         sequence := sequence'; inside_play := inside |});
  mret attempt.

Definition change_lease {I} (lease : Z) : M (CardManipulation I) ManipulationError unit :=
  self ← read id;
  _ ← lift (ensure (lease_epoch self <? lease)%Z StaleLease);
  update (λ self, {| manipulated := manipulated self; m_pose := m_pose self; lease_epoch := lease; sequence := 0;
                     inside_play := inside_play self |}).

Definition hand_owner (location : CardLocation) : option SeatId :=
  match location with LocHand seat _ => Some seat | _ => None end.
