(* ===== verification/SpatialRound.v ===== *)
(** * Realized scenes

    What the realization of a validated projection on a registered layout is, card by
    card and text by text; that it is a valid scene; and what its abstraction gives. *)

From Stdlib Require Import Ascii ZifyBool.
From stdpp Require Import base strings numbers option list sorting pretty.
From S2P Require Import Prelude Spatial SpatialRealize.

(** ** Layouts on which every card has a pose *)

Definition near (x : Z) : bool := ((-1000 <=? x) && (x <=? 1000))%Z.
Definition near_point (p : Point3Mm) : bool := near (p_x p) && near (p_y p) && near (p_z p).

Definition layout_zone_ids (n : nat) : list ZoneId :=
  [ZoneDeck; ZoneTrump; ZonePlay] ++ (ZoneHand <$> seq 0 n) ++ (ZoneWon <$> seq 0 n).

Definition zone_ready (layout : SpatialLayout) (id : ZoneId) : bool :=
  is_some_and (List.find (λ zone, bool_decide (zone_id zone = id)) (zones layout)) (λ zone, near_point (zone_center zone)).

Definition seat_ready (layout : SpatialLayout) (seat : SeatId) : bool :=
  is_some_and (List.find (λ placement, placed_seat placement =? seat) (seats layout))
    (λ placement, near_point (translation (seat_pose placement))).

Definition is_card_id (id : ObjectId) : bool := match id with IdCard _ => true | _ => false end.

Definition objects_ready (layout : SpatialLayout) : bool :=
  match layout_objects (E := RealizationError) layout with
  | Ok objects =>
      match foldM (validate_object (layout_id layout)) objects [] with
      | Ok ids => bool_decide (IdScoreSheet ∈ ids) && forallb (λ id, negb (is_card_id id)) ids
      | _ => false
      end
  | _ => false
  end.

Definition ready (layout : SpatialLayout) : bool :=
  let n := l_players (layout_id layout) in
  (2 <=? n) && (n <=? 8) && forallb (zone_ready layout) (layout_zone_ids n) && forallb (seat_ready layout) (seq 0 n) &&
  objects_ready layout.

Definition at_table (t : Z) (layout : SpatialLayout) : SpatialLayout :=
  {| table_id := t; layout_id := layout_id layout; table := table layout; score_sheet := score_sheet layout;
     seats := seats layout; zones := zones layout |}.

Lemma bind_assoc_eq {E A B C} (m : outcome E A) (f : A → outcome E B) (g : B → C) (h : A → outcome E C) :
  (∀ a, h a = g <$> f a) → m ≫= h = g <$> (m ≫= f).
Proof. intros Hh. destruct m; [apply Hh|done|done]. Qed.

Lemma registered_layout_table t id : registered_layout t id = at_table t <$> registered_layout 0 id.
Proof.
  unfold registered_layout. do 7 (apply bind_assoc_eq; intros ?).
  unfold layout_try_new. change (layout_validate ?a) with (layout_validate (at_table 0 a)) at 1. unfold at_table.
  cbn [layout_id table score_sheet seats zones table_id].
  by destruct (layout_validate _).
Qed.

(** The registered layouts exist, and are ready *)
Lemma registered_layouts_exist t players : 2 <= players <= 8 →
  is_ok (registered_layout t {| l_players := players; l_revision := 1 |}) = true.
Proof.
  intros Hp. rewrite registered_layout_table. destruct (registered_layout 0 _) as [l| |] eqn:Hl; [done|exfalso..];
  (do 9 (destruct players as [|players]; [try lia; vm_compute in Hl; discriminate|])); lia.
Qed.

Lemma registered_layout_ready t id layout : registered_layout t id = Ok layout → 2 <= l_players id <= 8 →
  layout_id layout = id ∧ table_id layout = t ∧ ready layout = true ∧ layout_validate layout = Ok tt.
Proof.
  intros Hl Hp. assert (l_revision id = 1) as Hr.
  { unfold registered_layout in Hl. inv_ok. unfold LAYOUT_REVISION in *. by apply Nat.eqb_eq. }
  assert (layout_validate layout = Ok tt ∧ layout_id layout = id ∧ table_id layout = t) as (Hv & Hid & Ht).
  { unfold registered_layout, layout_try_new in Hl. inv_ok. repeat match goal with u : unit |- _ => destruct u end. done. }
  split_and!; [done|done| |done]. rewrite registered_layout_table in Hl. destruct id as [players rev]. cbn in *. subst rev.
  destruct (registered_layout 0 _) as [l0| |] eqn:H0; cbn in Hl; [|done..]. injection Hl as <-.
  change (ready (at_table t l0)) with (ready l0). clear -H0 Hp.
  do 9 (destruct players as [|players]; [try lia; vm_compute in H0; injection H0 as <-; by vm_compute|]). lia.
Qed.

(** ** Poses *)

Ltac zquot := Z.to_euclidean_division_equations; lia.


Definition location_fits (n : nat) (location : CardLocation) : Prop :=
  match location with
  | LocDeck i => i < 256
  | LocTrump => True
  | LocHand s i => s < n ∧ i < 256
  | LocPlay s => s < n
  | LocWon s t i => s < n ∧ t < 256 ∧ i < 256
  end.

Definition inside (r : Z) (p : Point3Mm) : Prop :=
  (- r ≤ p_x p ≤ r ∧ - r ≤ p_y p ≤ r ∧ - r ≤ p_z p ≤ r)%Z.

Lemma near_point_inside p : near_point p = true ↔ inside 1000 p.
Proof. unfold near_point, near, inside. lia. Qed.

Lemma i32_op_ok {E} x : (-1000000 ≤ x ≤ 1000000)%Z → i32_op (E := E) x = Ok x.
Proof. intros Hx. unfold i32_op, in_i32, i32_min, i32_max. by rewrite (proj2 (andb_true_iff _ _)) by lia. Qed.

(** Runs a chain of [i32] operations that stay in range *)
Ltac run_i32 := cbn [mbind outcome_bind ok_or]; repeat (rewrite i32_op_ok by zquot; cbn [mbind outcome_bind]).

Lemma i32_checked_ok x : (-1000000 ≤ x ≤ 1000000)%Z → i32_checked x = Some x.
Proof. intros Hx. unfold i32_checked, in_i32, i32_min, i32_max. by rewrite (proj2 (andb_true_iff _ _)) by lia. Qed.

Lemma point_bounds_inside p : point_is_within_table_bounds p = true ↔ inside 10000 p.
Proof. unfold point_is_within_table_bounds, coordinate_is_bounded, MAX_ABS_TABLE_COORDINATE_MM, inside. lia. Qed.

Lemma inside_mono r r' p : (r ≤ r')%Z → inside r p → inside r' p.
Proof. unfold inside. lia. Qed.

Lemma pose_checked_ok p w : inside 10000 p → pose_checked p w = Some {| translation := p; yaw := w |}.
Proof. intros Hp%point_bounds_inside. unfold pose_checked. by rewrite Hp. Qed.

(** A card whose centre is within five metres of the origin lies on the table *)
Lemma card_box_ok p w : inside 5000 p → placed_within_table {| translation := p; yaw := w |} CARD_HALF_EXTENTS = true.
Proof.
  intros Hp. assert (inside 10000 p) as Hq by (by eapply inside_mono, Hp).
  unfold placed_within_table, pose_is_within_table_bounds. cbn [translation]. rewrite (proj2 (point_bounds_inside p) Hq). cbn [andb].
  apply bool_decide_eq_true. unfold aabb_from_center, CARD_HALF_EXTENTS, h_x, h_y, h_z. unfold inside in Hp.
  rewrite !i32_checked_ok by lia. cbn [mbind option_bind]. rewrite !i32_checked_ok by lia. cbn [mbind option_bind].
  rewrite (proj2 (andb_true_iff _ _)) by (rewrite !point_bounds_inside; unfold inside; cbn; lia).
  unfold aabb_new. cbn. rewrite (proj2 (andb_true_iff _ _)) by lia. by eexists.
Qed.

Lemma location_zone_listed n location : location_fits n location → location_zone location ∈ layout_zone_ids n.
Proof.
  unfold layout_zone_ids. intros Hf. destruct location; cbn in *; rewrite !elem_of_cons, elem_of_app, !list_elem_of_fmap;
    setoid_rewrite elem_of_seq; naive_solver lia.
Qed.

Section Ready.
Context (layout : SpatialLayout) (Hready : ready layout = true).
Local Notation n := (l_players (layout_id layout)).

Lemma ready_players : 2 <= n <= 8.
Proof using Hready. unfold ready in Hready. lia. Qed.

Lemma ready_zone location : location_fits n location → ∃ zone,
  List.find (λ zone, bool_decide (zone_id zone = location_zone location)) (zones layout) = Some zone ∧
  inside 1000 (zone_center zone).
Proof using Hready.
  intros Hl%location_zone_listed. unfold ready in Hready. rewrite !andb_true_iff in Hready. destruct Hready as ((((_ & _) & Hz) & _) & _).
  rewrite forallb_forall in Hz. apply list_elem_of_In, Hz in Hl. unfold zone_ready in Hl.
  destruct (List.find _ _) as [zone|]; [|done]. exists zone. split; [done|]. by apply near_point_inside.
Qed.

Lemma ready_seat s : s < n → ∃ placement,
  List.find (λ placement, placed_seat placement =? s) (seats layout) = Some placement ∧
  inside 1000 (translation (seat_pose placement)).
Proof using Hready.
  intros Hs. unfold ready in Hready. rewrite !andb_true_iff in Hready. destruct Hready as ((_ & Hz) & _).
  rewrite forallb_forall in Hz. assert (s ∈ seq 0 n) as Hin by (apply elem_of_seq; lia).
  apply list_elem_of_In, Hz in Hin. unfold seat_ready in Hin.
  destruct (List.find _ _) as [placement|]; [|done]. exists placement. split; [done|]. by apply near_point_inside.
Qed.

Lemma card_point_ready center location count : inside 1000 center → location_fits n location → count < 256 → ∃ p,
  card_point layout center location count = Ok p ∧ inside 5000 p.
Proof using Hready.
  intros Hc Hf Hn. pose proof ready_players as Hp. unfold inside in Hc.
  destruct location as [i| |s i|s|s t i]; cbn [card_point location_fits] in *.
  - run_i32. eexists. split; [done|]. unfold inside. cbn [p_x p_y p_z]. zquot.
  - eexists. split; [done|]. unfold inside. lia.
  - run_i32. eexists. split; [done|]. unfold inside. cbn [p_x p_y p_z]. lia.
  - destruct (ready_seat s Hf) as (placement & Hfind & Hs). rewrite Hfind. cbn [ok_or]. unfold inside in Hs.
    run_i32. eexists. split; [done|]. unfold inside. cbn [p_x p_y p_z]. zquot.
  - run_i32. eexists. split; [done|]. unfold inside. cbn [p_x p_y p_z]. zquot.
Qed.

Lemma card_pose_ready location count : location_fits n location → count < 256 → ∃ pose,
  card_pose layout location count = Ok pose ∧ placed_within_table pose CARD_HALF_EXTENTS = true.
Proof using Hready.
  intros Hf Hn. destruct (ready_zone _ Hf) as (zone & Hz & Hc).
  destruct (card_point_ready _ _ _ Hc Hf Hn) as (p & Hp & Hin). unfold card_pose. rewrite Hz. cbn. rewrite Hp. cbn.
  rewrite pose_checked_ok by (by eapply inside_mono, Hin). eexists. split; [done|]. by apply card_box_ok.
Qed.
End Ready.

(** ** Steps that append

    A loop that pushes onto a list: what it appends, seen through [view], and the
    invariant [good] of the list, as long as the list stays within [bound]. *)

Section Appends.
Context {E A B : Type} (view : A → B) (good : list A → Prop) (bound : nat).

Definition appends (m : list A → outcome E (list A)) (items : list B) : Prop :=
  ∀ l, good l → length l + length items <= bound → ∃ new,
    m l = Ok (l ++ new) ∧ view <$> new = items ∧ good (l ++ new).

Lemma appends_app m1 m2 items1 items2 : appends m1 items1 → appends m2 items2 →
  appends (λ l, l ← m1 l; m2 l) (items1 ++ items2).
Proof.
  intros H1 H2 l Hg Hl. rewrite length_app in Hl. destruct (H1 l) as (new1 & -> & <- & Hg1); [done|lia|].
  cbn [mbind outcome_bind]. destruct (H2 (l ++ new1)) as (new2 & -> & <- & Hg2); [done|rewrite length_app; rewrite length_fmap in Hl; lia|].
  exists (new1 ++ new2). rewrite app_assoc, fmap_app. done.
Qed.

Lemma appends_nil : appends Ok [].
Proof. intros l Hg _. exists []. by rewrite app_nil_r. Qed.

Lemma appends_loop {C} (f : list A → C → outcome E (list A)) (items : C → list B) l :
  (∀ x, x ∈ l → appends (λ k, f k x) (items x)) → appends (foldM f l) (flat_map items l).
Proof.
  induction l as [|x l IH]; intros Hf; [apply appends_nil|]. cbn [foldM flat_map].
  apply (appends_app (λ k, f k x)); [apply Hf; left|]. apply IH. intros y Hy. apply Hf. by right.
Qed.
End Appends.

(** ** The cards of a scene *)

Definition item : Type := CardLocation * option CardFace.
Definition item_of (card : CardObject) : item := (card_location card, card_face card).

Definition hand_items (player : PlayerSpatialProjection) : list item :=
  (λ i, (LocHand (seat player) i, hand_face player i)) <$> seq 0 (hand_count player).

Definition trick_item (played : PlayedCardProjection) : item := (LocPlay (played_seat played), Some (played_face played)).

Definition won_items (n : nat) (projection : ViewerSpatialProjection) (player : PlayerSpatialProjection) : list item :=
  flat_map (λ t, (λ i, (LocWon (seat player) t i, revealed_face projection (seat player) t i)) <$> seq 0 n)
    (seq 0 (tricks_won player)).

Definition trump_items (projection : ViewerSpatialProjection) : list item :=
  match trump projection with Some face => [(LocTrump, Some face)] | None => [] end.

Definition deck_items (k : nat) : list item := (λ i, (LocDeck i, None)) <$> seq 0 k.

(** Every card that is not in the deck *)
Definition front_items (n : nat) (projection : ViewerSpatialProjection) : list item :=
  trump_items projection ++ flat_map hand_items (players projection) ++ (trick_item <$> current_trick projection) ++
  flat_map (won_items n projection) (players projection).

Definition scene_items (n : nat) (projection : ViewerSpatialProjection) : list item :=
  front_items n projection ++ deck_items (STANDARD_DECK_SIZE - length (front_items n projection)).

Lemma flat_map_singletons {A B} (f : A → B) l : flat_map (λ x, [f x]) l = f <$> l.
Proof. induction l as [|x l IH]; [done|]. cbn. by rewrite IH. Qed.

Lemma checked_ok w x : in_width w x → checked w x = Some x.
Proof. intros Hx. by apply checked_Some. Qed.

Lemma u8_ok m : m < 256 → checked 8 (Z.of_nat m) = Some (Z.of_nat m).
Proof. intros Hm. apply checked_ok. unfold in_width. lia. Qed.

Section Deal.
Context (layout : SpatialLayout) (epoch : Z).
Local Notation n := (l_players (layout_id layout)).

(** Cards numbered by their position, each with a pose on the table *)
Definition dealt (cards : list CardObject) : Prop := ∀ i c, cards !! i = Some c →
  card_id c = {| projection_epoch := epoch; ordinal := i |} ∧ card_extents c = CARD_HALF_EXTENTS ∧
  location_fits n (card_location c) ∧ placed_within_table (card_at c) CARD_HALF_EXTENTS = true.

(** A step that appends cards at these locations with these faces *)
Definition deals : (list CardObject → outcome RealizationError (list CardObject)) → list item → Prop :=
  appends item_of dealt 256.

Lemma dealt_snoc cards c : dealt cards → card_id c = {| projection_epoch := epoch; ordinal := length cards |} →
  card_extents c = CARD_HALF_EXTENTS → location_fits n (card_location c) →
  placed_within_table (card_at c) CARD_HALF_EXTENTS = true → dealt (cards ++ [c]).
Proof.
  intros Hd Hid Hex Hf Hp i c' [Hi|[Hi Hc]]%lookup_app_Some; [by apply Hd|].
  destruct (i - length cards) as [|k] eqn:Hk; [|by destruct k]. cbn in Hc. injection Hc as <-.
  assert (i = length cards) as -> by lia. done.
Qed.

Context (Hready : ready layout = true).

Lemma place_card_deals count (it : item) : location_fits n it.1 → count < 256 →
  deals (λ cards, place_card layout epoch count cards it) [it].
Proof using Hready.
  intros Hf Hn cards Hd Hl. cbn in Hl. unfold place_card. destruct (card_pose_ready layout Hready _ _ Hf Hn) as (pose & -> & Hp).
  cbn [mbind outcome_bind]. unfold push_card. rewrite u8_ok by lia. cbn [mbind outcome_bind ok_or]. eexists [_]. split_and!; [done|..].
  - by destruct it.
  - apply dealt_snoc; cbn; [done| |done|done|done]. by rewrite Nat2Z.id.
Qed.

Lemma hands_deal ordered : (∀ player, player ∈ ordered → seat player < n ∧ hand_count player < 256) →
  deals (realize_hands layout epoch ordered) (flat_map hand_items ordered).
Proof using Hready.
  intros Hp. apply appends_loop. intros player [Hs Hc]%Hp. unfold hand_items.
  rewrite <-(flat_map_singletons (λ i, (LocHand (seat player) i, hand_face player i))).
  apply (appends_loop _ _ _ (λ cards i, place_card layout epoch (hand_count player) cards (LocHand (seat player) i, hand_face player i))).
  intros i Hi%elem_of_seq. apply place_card_deals; [cbn; lia|done].
Qed.

Lemma trick_deals projection : view_epoch projection = epoch → (∀ played, played ∈ current_trick projection → played_seat played < n) →
  deals (realize_current_trick layout projection) (trick_item <$> current_trick projection).
Proof using Hready.
  intros He Hp. unfold realize_current_trick. rewrite He, <-flat_map_singletons. apply (appends_loop _ _ _ (λ cards played,
    place_card layout epoch 1 cards (trick_item played))). intros played Hin%Hp. apply place_card_deals; [done|lia].
Qed.

Lemma won_deals projection ordered : view_epoch projection = epoch →
  (∀ player, player ∈ ordered → seat player < n ∧ tricks_won player < 256) →
  deals (realize_won_cards layout projection ordered) (flat_map (won_items n projection) ordered).
Proof using Hready.
  intros He Hp. pose proof (ready_players layout Hready). unfold realize_won_cards. rewrite He. apply appends_loop. intros player [Hs Ht]%Hp.
  apply (appends_loop _ _ _ (λ cards t, foldM (λ cards i, place_card layout epoch 1 cards
    (LocWon (seat player) t i, revealed_face projection (seat player) t i)) (seq 0 n) cards)).
  intros t Hin%elem_of_seq.
  rewrite <-(flat_map_singletons (λ i, (LocWon (seat player) t i, revealed_face projection (seat player) t i))).
  apply (appends_loop _ _ _ (λ cards i, place_card layout epoch 1 cards
    (LocWon (seat player) t i, revealed_face projection (seat player) t i))).
  intros i Hi%elem_of_seq. apply place_card_deals; [cbn; lia|lia].
Qed.

Lemma deck_deals cards : dealt cards → length cards <= STANDARD_DECK_SIZE → ∃ new,
  realize_deck layout epoch cards = Ok (cards ++ new) ∧ item_of <$> new = deck_items (STANDARD_DECK_SIZE - length cards) ∧
  dealt (cards ++ new).
Proof using Hready.
  intros Hd Hl. unfold realize_deck. rewrite (proj2 (Nat.leb_le _ _) Hl). cbn [mbind outcome_bind]. unfold STANDARD_DECK_SIZE in *.
  rewrite u8_ok by lia. cbn [mbind outcome_bind ok_or]. rewrite Nat2Z.id. unfold deck_items.
  rewrite <-(flat_map_singletons (λ i, (LocDeck i, None : option CardFace))).
  apply (appends_loop _ _ 256 (λ cards' index, index_from_bottom ← ok_or (checked 8 (Z.of_nat index)) RealizeCardConservation;
    place_card layout epoch (52 - length cards) cards' (LocDeck (Z.to_nat index_from_bottom), None))); [|done|].
  - intros i Hi%elem_of_seq cards' Hd' Hl'. rewrite u8_ok by lia. cbn [mbind outcome_bind ok_or]. rewrite Nat2Z.id.
    apply place_card_deals; [cbn; lia|lia|done|done].
  - rewrite flat_map_singletons, length_fmap, length_seq. lia.
Qed.
End Deal.

(** ** What validation establishes *)

Definition hand_faces (player : PlayerSpatialProjection) : list CardFace := default [] (visible_hand player).

(** Every face the projection knows *)
Definition known_faces (projection : ViewerSpatialProjection) : list CardFace :=
  option_list (trump projection) ++ flat_map hand_faces (players projection) ++
  (played_face <$> current_trick projection) ++ (won_face <$> revealed_won_cards projection).

Definition revealed_ok (n : nat) (projection : ViewerSpatialProjection) (revealed : RevealedWonCard) : Prop :=
  ∃ player, players projection !! winner revealed = Some player ∧ trick revealed < tricks_won player ∧ index revealed < n.

Record sound (n : nat) (projection : ViewerSpatialProjection) : Prop := {
  sound_seats : seat <$> players projection = seq 0 n;
  sound_names : ∀ player, player ∈ players projection → display_name player ≠ EmptyString;
  sound_hands : ∀ player, player ∈ players projection → hand_count player <= MAX_HAND_SIZE ∧
    ∀ hand, visible_hand player = Some hand → length hand = hand_count player;
  sound_trick : ∀ played, played ∈ current_trick projection → played_seat played < n;
  sound_trick_seats : NoDup (played_seat <$> current_trick projection);
  sound_slots : slots_increase (revealed_won_cards projection) = true;
  sound_revealed : ∀ revealed, revealed ∈ revealed_won_cards projection → revealed_ok n projection revealed;
  sound_faces : NoDup (known_faces projection);
  sound_deck : length (front_items n projection) <= STANDARD_DECK_SIZE }.

Lemma insert_new_Ok {E A} `{EqDecision A} (set : list A) x (e : E) set' :
  insert_new set x e = Ok set' ↔ x ∉ set ∧ set' = x :: set.
Proof. unfold insert_new. case_bool_decide; naive_solver. Qed.

Lemma insert_new_ok {E A} `{EqDecision A} (set : list A) x (e : E) : x ∉ set → insert_new set x e = Ok (x :: set).
Proof. intros Hx. by apply insert_new_Ok. Qed.

Lemma known_faces_fold faces known known' : foldM known_face faces known = Ok known' → NoDup known →
  NoDup known' ∧ known' ≡ₚ known ++ faces.
Proof.
  revert known. induction faces as [|face faces IH]; cbn [foldM]; intros known Hf Hn.
  { injection Hf as <-. by rewrite app_nil_r. }
  apply bind_Ok in Hf as (k & Hk & Hf). apply insert_new_Ok in Hk as [Hnew ->].
  apply IH in Hf as [Hn' Hp]; [|by constructor]. split; [done|]. rewrite Hp. apply Permutation_middle.
Qed.

Lemma nth_seat (l : list PlayerSpatialProjection) (i : nat) player : seat <$> l = seq 0 (length l) → l !! i = Some player → seat player = i.
Proof.
  intros Hs Hi. pose proof (lookup_lt_Some _ _ _ Hi) as Hlt.
  assert ((seat <$> l) !! i = Some (seat player)) as Hx by (by rewrite list_lookup_fmap, Hi).
  rewrite Hs, lookup_seq_lt in Hx by done. by injection Hx.
Qed.

Lemma filter_seat (l : list PlayerSpatialProjection) (i : nat) : seat <$> l = seq 0 (length l) → List.filter (λ player, seat player =? i) l = option_list (l !! i).
Proof.
  intros Hs. cut (∀ k m, seat <$> m = seq k (length m) →
    List.filter (λ player, seat player =? i) m = if k <=? i then option_list (m !! (i - k)) else []).
  { intros Hc. specialize (Hc 0 l Hs). cbn in Hc. by rewrite Nat.sub_0_r in Hc. }
  intros k m. revert k. induction m as [|player m IH]; intros k Hm; [by destruct (k <=? i)|].
  cbn in Hm. injection Hm as Hk Hm. cbn [List.filter]. rewrite (IH (S k) Hm), Hk.
  destruct (Nat.eqb_spec k i) as [->|Hne].
  - rewrite (proj2 (Nat.leb_le i i)), (proj2 (Nat.leb_gt (S i) i)), Nat.sub_diag by lia. done.
  - destruct (Nat.leb_spec k i).
    + rewrite (proj2 (Nat.leb_le (S k) i)) by lia. by replace (i - k) with (S (i - S k)) by lia.
    + by rewrite (proj2 (Nat.leb_gt (S k) i)) by lia.
Qed.

Lemma find_seat (l : list PlayerSpatialProjection) (i : nat) : seat <$> l = seq 0 (length l) → List.find (λ player, seat player =? i) l = l !! i.
Proof.
  intros Hs. pose proof (filter_seat l i Hs) as Hf. destruct (l !! i) as [player|] eqn:Hi; cbn in Hf.
  - clear -Hf. induction l as [|x l IH]; [done|]. cbn in *. destruct (seat x =? i); [by injection Hf as ->|by apply IH].
  - apply List_find_None. intros x Hx. destruct (seat x =? i) eqn:He; [|done].
    assert (In x (List.filter (λ player, seat player =? i) l)) as Hin by (apply List.filter_In; split; [by apply list_elem_of_In|done]).
    by rewrite Hf in Hin.
Qed.

Section Validated.
Context (layout : SpatialLayout) (projection : ViewerSpatialProjection).
Local Notation n := (l_players (layout_id layout)).

Lemma account_players_fold l known a known' a' : foldM (account_player layout) l (known, a) = Ok (known', a') → NoDup known →
  NoDup known' ∧ known' ≡ₚ known ++ flat_map hand_faces l ∧
  a' = a + sum_list ((λ player, hand_count player + tricks_won player * n) <$> l) ∧
  ∀ player, player ∈ l → hand_count player <= MAX_HAND_SIZE ∧ ∀ hand, visible_hand player = Some hand → length hand = hand_count player.
Proof.
  revert known a. induction l as [|player l IH]; cbn [foldM]; intros known a Hf Hn.
  { injection Hf as <- <-. cbn. split_and!; [done|by rewrite app_nil_r|lia|]. by intros ? ?%elem_of_nil. }
  apply bind_Ok in Hf as ([k1 a1] & H1 & Hf). unfold account_player in H1. inv_ok. apply Nat.leb_le in H.
  assert (NoDup k1 ∧ k1 ≡ₚ known ++ hand_faces player ∧ ∀ hand, visible_hand player = Some hand → length hand = hand_count player)
    as (Hn1 & Hp1 & Hlen).
  { unfold hand_faces. destruct (visible_hand player) as [hand|]; cbn.
    - apply bind_Ok in H0 as ([] & Hlen%ensure_Ok & Hk). apply known_faces_fold in Hk as [? ?]; [|done].
      apply Nat.eqb_eq in Hlen. split_and!; [done|done|]. by intros ? [= <-].
    - injection H0 as <-. by rewrite app_nil_r. }
  apply IH in Hf as (Hn' & Hp & -> & Hall); [|done]. cbn [flat_map fmap list_fmap sum_list foldr]. split_and!; [done| |cbn; lia|].
  - by rewrite Hp, Hp1, app_assoc.
  - intros player' [->|Hin]%elem_of_cons; [|by apply Hall]. split; [lia|done].
Qed.

Lemma account_played_fold l seen known seen' known' : foldM (account_played layout) l (seen, known) = Ok (seen', known') →
  NoDup known → NoDup seen → NoDup known' ∧ known' ≡ₚ known ++ (played_face <$> l) ∧
  NoDup seen' ∧ seen' ≡ₚ seen ++ (played_seat <$> l) ∧ ∀ played, played ∈ l → played_seat played < n.
Proof.
  revert seen known. induction l as [|played l IH]; cbn [foldM]; intros seen known Hf Hn Hs.
  { injection Hf as <- <-. cbn. rewrite !app_nil_r. split_and!; [done..|]. by intros ? ?%elem_of_nil. }
  apply bind_Ok in Hf as ([s1 k1] & H1 & Hf). unfold account_played in H1. inv_ok. apply Nat.ltb_lt in H.
  apply insert_new_Ok in H0 as [Hnew ->]. apply insert_new_Ok in H2 as [Hnew' ->].
  apply IH in Hf as (Hn' & Hp & Hs' & Hps & Hall); [|by constructor..]. split_and!; [done| |done| |].
  - rewrite Hp. apply Permutation_middle.
  - rewrite Hps. apply Permutation_middle.
  - intros played' [->|Hin]%elem_of_cons; [lia|by apply Hall].
Qed.

Lemma account_won_fold ordered l slots known slots' known' :
  foldM (account_won layout ordered) l (slots, known) = Ok (slots', known') → NoDup known →
  NoDup known' ∧ known' ≡ₚ known ++ (won_face <$> l) ∧
  ∀ revealed, revealed ∈ l → ∃ player, List.find (λ player, seat player =? winner revealed) ordered = Some player ∧
    trick revealed < tricks_won player ∧ index revealed < n.
Proof.
  revert slots known. induction l as [|revealed l IH]; cbn [foldM]; intros slots known Hf Hn.
  { injection Hf as <- <-. cbn. rewrite app_nil_r. split_and!; [done..|]. by intros ? ?%elem_of_nil. }
  apply bind_Ok in Hf as ([s1 k1] & H1 & Hf). unfold account_won in H1. inv_ok.
  apply insert_new_Ok in H2 as [Hnew ->]. apply insert_new_Ok in H3 as [Hnew' ->]. apply andb_true_iff in H0 as [Ht Hi].
  apply IH in Hf as (Hn' & Hp & Hall); [|by constructor]. split_and!; [done| |].
  - rewrite Hp. apply Permutation_middle.
  - intros revealed' [->|Hin]%elem_of_cons; [|by apply Hall]. apply Nat.ltb_lt in Ht, Hi. eauto.
Qed.
Lemma ordered_players_Ok ordered : ordered_players layout projection = Ok ordered →
  seat <$> players projection = seq 0 (length (players projection)) →
  ordered = players projection ∧ length (players projection) = n ∧
  ∀ player, player ∈ players projection → display_name player ≠ EmptyString.
Proof.
  intros Ho Hs. unfold ordered_players in Ho. inv_ok. apply Nat.eqb_eq in H0.
  assert (∀ m, m <= n → ∀ o, foldM (ordered_player layout projection) (seq 0 m) [] = Ok o →
    o = take m (players projection) ∧ length o = m ∧ ∀ player, player ∈ o → display_name player ≠ EmptyString) as Hfold.
  { induction m as [|m IH]; intros Hm o Hf.
    { injection Hf as <-. split_and!; [by rewrite take_0|done|]. by intros ? ?%elem_of_nil. }
    rewrite seq_S, foldM_snoc in Hf. apply bind_Ok in Hf as (o' & Hf & Hstep). cbn in Hstep.
    destruct (IH ltac:(lia) _ Hf) as (-> & Hlen & Hnames). unfold ordered_player in Hstep. inv_ok.
    unfold seat_id_new in H1. case_in H1; [|done]. injection H1 as <-. rewrite filter_seat in Hstep by done.
    destruct (players projection !! m) as [player|] eqn:Hp; cbn in Hstep; [|done].
    destruct (String.eqb_spec (display_name player) EmptyString); [done|]. injection Hstep as <-.
    split_and!; [by rewrite (take_S_r _ _ _ Hp)|rewrite length_app; cbn; lia|].
    intros x [Hx| ->%list_elem_of_singleton]%elem_of_app; auto. }
  destruct (Hfold n ltac:(lia) _ H) as (-> & Hlen & Hnames).
  rewrite take_ge in * by (rewrite length_take in *; lia). done.
Qed.

Lemma hands_length l : length (flat_map hand_items l) + length (flat_map (won_items n projection) l) =
  sum_list ((λ player, hand_count player + tricks_won player * n) <$> l).
Proof.
  induction l as [|player l IH]; [done|]. cbn [flat_map fmap list_fmap]. rewrite !length_app. cbn [sum_list foldr].
  assert (length (hand_items player) = hand_count player) as -> by (unfold hand_items; by rewrite length_fmap, length_seq).
  assert (length (won_items n projection player) = tricks_won player * n) as ->; [|cbn in IH |- *; lia].
  unfold won_items. rewrite (List.flat_map_constant_length (c := n)); [by rewrite length_seq|].
  intros t _. by rewrite length_fmap, length_seq.
Qed.

Lemma validated_sound : validate_projection layout projection = Ok tt →
  ordered_players layout projection = Ok (players projection) ∧ sound n projection.
Proof.
  intros Hv. unfold validate_projection in Hv. apply bind_Ok in Hv as (ordered & Ho & Hv).
  apply bind_Ok in Hv as (? & Hs%ensure_Ok%bool_decide_eq_true & Hv).
  destruct (ordered_players_Ok _ Ho Hs) as (-> & Hlen & Hnames).
  apply bind_Ok in Hv as (? & Hslots%ensure_Ok & Hv). apply bind_Ok in Hv as ([k1 a1] & H1 & Hv).
  apply bind_Ok in Hv as (? & Hshort%ensure_Ok & Hv). apply bind_Ok in Hv as ([s2 k2] & H2 & Hv). cbn [fst snd] in *.
  apply bind_Ok in Hv as ([s3 k3] & H3 & Hv). apply bind_Ok in Hv as (? & Hnone%ensure_Ok & Hall%ensure_Ok).
  apply account_players_fold in H1 as (Hn1 & Hp1 & -> & Hhands); [|destruct (trump projection); cbn; repeat constructor; by intros ?%elem_of_nil].
  apply account_played_fold in H2 as (Hn2 & Hp2 & Hns & Hps & Htrick); [|done|constructor].
  apply account_won_fold in H3 as (Hn3 & Hp3 & Hwon); [|done]. split; [done|]. split; [by rewrite <-Hlen|done|done|done| |done| | |].
  - by rewrite <-Hps.
  - intros revealed Hin. apply Hwon in Hin as (player & Hf & Ht & Hi). rewrite find_seat in Hf by done. by exists player.
  - revert Hn3. rewrite Hp3, Hp2, Hp1. unfold known_faces. by rewrite <-!app_assoc.
  - unfold front_items. rewrite !length_app, length_fmap. pose proof (hands_length (players projection)) as Hh.
    apply Nat.leb_le in Hall. unfold trump_items. destruct (trump projection); cbn in *; lia.
Qed.
End Validated.

(** ** The text of a scene *)

(** What a run says, about what, and where *)
Definition saying : Type := TextBinding * ObjectId * string.
Definition saying_of (run : TextRun) : saying := (binding run, on_object (attached_to run), content run).

Definition label_of (face : CardFace) : string :=
  match label (E := RealizationError) face with Ok text => text | _ => EmptyString end.

Lemma labels_exist : forallb (λ face,
  match label (E := RealizationError) face with Ok text => negb (String.eqb text EmptyString) | _ => false end) (seq 0 52) = true.
Proof. by vm_compute. Qed.

Lemma label_ok {E} face : face < 52 → label (E := E) face = Ok (label_of face) ∧ label_of face ≠ EmptyString.
Proof.
  intros Hf. pose proof labels_exist as Hall. rewrite forallb_forall in Hall.
  assert (In face (seq 0 52)) as Hin by (apply List.in_seq; lia). specialize (Hall _ Hin). unfold label_of.
  unfold label in *. destruct (RANKS !! _); cbn in *; [|done]. destruct (SUITS !! _); cbn in *; [|done].
  split; [done|]. intros Hz. by rewrite Hz in Hall.
Qed.

Definition face_sayings (card : CardObject) : list saying :=
  match card_face card with
  | Some face => [(BindFace (card_id card), IdCard (card_id card), label_of face)]
  | None => []
  end.

Definition player_sayings (player : PlayerSpatialProjection) : list saying :=
  [(BindName (seat player), IdScoreSheet, display_name player);
   (BindScore (seat player), IdScoreSheet, to_decimal (score player))].

(** Runs numbered by their position, on the face of something, within the table *)
Definition written (text : list TextRun) : Prop := ∀ i run, text !! i = Some run →
  text_id run = i ∧ surface_kind (attached_to run) = SurfaceFace ∧ pose_is_within_table_bounds (local_pose run) = true.

Definition writes : (list TextRun → outcome RealizationError (list TextRun)) → list saying → Prop :=
  appends saying_of written 1000.

Lemma u16_ok m : m < 1000 → checked 16 (Z.of_nat m) = Some (Z.of_nat m).
Proof. intros Hm. apply checked_ok. unfold in_width. lia. Qed.

Lemma push_text_writes b object x y z text : inside 10000 (point x y z) →
  writes (λ runs, push_text runs b object x y z (Ok text)) [(b, object, text)].
Proof.
  intros Hp runs Hw Hl. cbn in Hl. unfold push_text, next_text_id, local_text_pose. rewrite u16_ok by lia. cbn [ok_or mbind outcome_bind].
  rewrite pose_checked_ok by done. cbn [ok_or mbind outcome_bind]. eexists [_]. split_and!; [done|done|].
  intros i run [Hi|[Hi Hr]]%lookup_app_Some; [by apply Hw|]. destruct (i - length runs) as [|k] eqn:Hk; [|by destruct k].
  cbn in Hr. injection Hr as <-. cbn. split_and!; [lia|done|]. by apply point_bounds_inside.
Qed.

Definition typed_faces (cards : list CardObject) : Prop :=
  ∀ card face, card ∈ cards → card_face card = Some face → face < 52.

Lemma face_text_writes cards : typed_faces cards → writes (foldM realize_face_text cards) (flat_map face_sayings cards).
Proof.
  intros Ht. apply appends_loop. intros card Hin. unfold realize_face_text, face_sayings.
  destruct (card_face card) as [face|] eqn:Hf; [|apply appends_nil].
  rewrite (proj1 (label_ok face (Ht _ _ Hin Hf))). apply push_text_writes. unfold inside. cbn. lia.
Qed.

Lemma flat_map_zip {A B} (f : A → list B) l k : flat_map (λ it, f it.2) (zip (seq k (length l)) l) = flat_map f l.
Proof. revert k. induction l as [|x l IH]; intros k; [done|]. cbn. by rewrite IH. Qed.

Lemma elem_of_zip_seq {A} (l : list A) k i x : (i, x) ∈ zip (seq k (length l)) l → k <= i < k + length l ∧ x ∈ l.
Proof. intros Hin. split; [apply elem_of_zip_l, elem_of_seq in Hin; lia|by apply elem_of_zip_r in Hin]. Qed.

Lemma player_text_writes layout ordered : l_players (layout_id layout) <= 8 → length ordered <= 8 →
  writes (foldM (realize_player_text layout) (zip (seq 0 (length ordered)) ordered)) (flat_map player_sayings ordered).
Proof.
  intros Hn Hl. rewrite <-(flat_map_zip player_sayings ordered 0). apply appends_loop.
  intros [i player] [Hi Hin]%elem_of_zip_seq. cbn [snd]. unfold realize_player_text. rewrite i32_checked_ok by lia. run_i32.
  apply (appends_app _ _ _ (λ runs, push_text runs (BindName (seat player)) _ _ _ _ _)
    (λ runs, push_text runs (BindScore (seat player)) _ _ _ _ _) [_] [_]); apply push_text_writes; unfold inside; cbn [p_x p_y p_z]; lia.
Qed.

Lemma realize_text_written layout ordered cards : l_players (layout_id layout) <= 8 → length ordered <= 8 →
  length cards <= 52 → typed_faces cards → ∃ text, realize_text layout ordered cards = Ok text ∧
  saying_of <$> text = flat_map face_sayings cards ++ flat_map player_sayings ordered ∧ written text.
Proof.
  intros Hn Hl Hc Ht. apply (appends_app _ _ _ _ _ _ _ (face_text_writes cards Ht) (player_text_writes layout ordered Hn Hl) []).
  { intros i run Hi. by rewrite lookup_nil in Hi. }
  rewrite length_app. assert (length (flat_map face_sayings cards) <= length cards).
  { clear. induction cards as [|c cards IH]; [done|]. cbn. rewrite length_app. unfold face_sayings at 1. destruct (card_face c); cbn; lia. }
  assert (length (flat_map player_sayings ordered) = length ordered * 2) as ->; [|cbn; lia].
  by apply List.flat_map_constant_length.
Qed.

(** ** A scene so made is valid *)

Definition face_bound (s : saying) : option CardObjectId := match s.1.1 with BindFace id => Some id | _ => None end.

(** What a run may say *)
Definition saying_ok (n : nat) (cards : list CardObject) (s : saying) : Prop :=
  match s.1.1 with
  | BindFace id => ∃ card face, card ∈ cards ∧ card_id card = id ∧ card_face card = Some face ∧ face < 52 ∧
      s = (BindFace id, IdCard id, label_of face)
  | BindName owner | BindScore owner => owner < n ∧ s.1.2 = IdScoreSheet ∧ s.2 ≠ EmptyString
  end.

Section Validity.
Context (layout : SpatialLayout) (epoch : Z).
Local Notation n := (l_players (layout_id layout)).
Local Notation dealt := (dealt layout epoch).

Lemma dealt_app_l cards more : dealt (cards ++ more) → dealt cards.
Proof. intros Hd i c Hi. apply (Hd i c). by apply lookup_app_l_Some. Qed.

Lemma dealt_inj cards i j c c' : dealt cards → cards !! i = Some c → cards !! j = Some c' → card_id c = card_id c' → i = j.
Proof.
  intros Hd Hi Hj He. destruct (Hd _ _ Hi) as (H1 & _), (Hd _ _ Hj) as (H2 & _). rewrite H1, H2 in He. by injection He.
Qed.

Lemma dealt_find cards c : dealt cards → c ∈ cards → List.find (λ card, bool_decide (card_id card = card_id c)) cards = Some c.
Proof.
  intros Hd [i Hi]%list_elem_of_lookup. destruct (List.find _ cards) as [c'|] eqn:Hf.
  - apply List_find_Some in Hf as [[j Hj]%list_elem_of_lookup He%bool_decide_eq_true].
    pose proof (dealt_inj _ _ _ _ _ Hd Hj Hi He) as ->. congruence.
  - rewrite List_find_None in Hf. specialize (Hf c (list_elem_of_lookup_2 _ _ _ Hi)). by rewrite bool_decide_eq_true_2 in Hf.
Qed.

Lemma dealt_NoDup cards : dealt cards → NoDup (card_id <$> cards).
Proof.
  intros Hd. apply NoDup_alt. intros i j id Hi Hj. rewrite list_lookup_fmap in Hi, Hj.
  destruct (cards !! i) as [c|] eqn:Hci, (cards !! j) as [c'|] eqn:Hcj; cbn in *; try done.
  apply (dealt_inj cards i j c c'); [done..|congruence].
Qed.

Lemma location_seats_ok location : location_fits n location → validate_location_seats location (layout_id layout) = Ok tt.
Proof. destruct location; cbn; [done|done|..]; intros Hs; apply ensure_Ok, Nat.ltb_lt; lia. Qed.

Lemma cards_valid ids cards : dealt cards → (∀ id, id ∈ ids → is_card_id id = false) → ∃ ids',
  foldM (validate_card (layout_id layout) epoch) cards ids = Ok ids' ∧
  ∀ id, id ∈ ids' ↔ id ∈ ids ∨ ∃ c, c ∈ cards ∧ id = IdCard (card_id c).
Proof.
  intros Hd Hids. induction cards as [|c cards IH] using rev_ind.
  { exists ids. split; [done|]. intros id. split; [by left|]. intros [?|(c & ?%elem_of_nil & _)]; done. }
  destruct (IH (dealt_app_l _ _ Hd)) as (ids' & Hf & Hmem). rewrite foldM_snoc, Hf. cbn [mbind outcome_bind].
  assert ((cards ++ [c]) !! length cards = Some c) as Hlast by (by rewrite lookup_app_r, Nat.sub_diag).
  destruct (Hd _ _ Hlast) as (Hid & Hex & Hfit & Hplace). unfold validate_card.
  rewrite insert_new_ok.
  - cbn [mbind outcome_bind]. rewrite Hid, location_seats_ok, Hex, Hplace by done. cbn [projection_epoch]. rewrite Z.eqb_refl. cbn.
    eexists. split; [done|]. intros id. rewrite elem_of_cons, Hmem. setoid_rewrite elem_of_app. setoid_rewrite list_elem_of_singleton.
    split.
    + intros [->|[?|(c' & ? & ->)]]; [right; exists c; rewrite Hid; auto|by left|right; eauto].
    + intros [?|(c' & [?| ->] & ->)]; [auto|right; right; eauto|left; by rewrite Hid].
  - rewrite Hmem. intros [Hin%Hids|(c' & [j Hj]%list_elem_of_lookup & Heq)]; [done|]. injection Heq as Heq.
    assert ((cards ++ [c]) !! j = Some c') as Hj' by (by apply lookup_app_l_Some).
    pose proof (dealt_inj _ _ _ _ _ Hd Hlast Hj' Heq). apply lookup_lt_Some in Hj. lia.
Qed.

Lemma score_text_ok run owner : owner < n → attached_to run = {| on_object := IdScoreSheet; surface_kind := SurfaceFace |} →
  validate_score_text (layout_id layout) run owner = Ok tt.
Proof.
  intros Hs Ha. unfold validate_score_text, validate_seat. rewrite (proj2 (Nat.ltb_lt _ _) Hs), Ha. cbn [ensure mbind outcome_bind].
  by rewrite bool_decide_eq_true_2.
Qed.

Lemma text_valid ids cards text : dealt cards → (∀ c, c ∈ cards → IdCard (card_id c) ∈ ids) → IdScoreSheet ∈ ids →
  written text → Forall (saying_ok n cards) (saying_of <$> text) → NoDup (omap face_bound (saying_of <$> text)) →
  ∃ seen, foldM (validate_text (layout_id layout) ids cards) text ([], []) = Ok seen ∧ (∀ k, k ∈ seen.1 → k < length text) ∧
    ∀ id, id ∈ seen.2 ↔ id ∈ omap face_bound (saying_of <$> text).
Proof.
  intros Hd Hcards Hsheet. induction text as [|run text IH] using rev_ind; intros Hw Hall Hnd.
  { exists ([], []). split_and!; [done| |done]. by intros ? ?%elem_of_nil. }
  rewrite fmap_app, omap_app in Hnd. apply NoDup_app in Hnd as (Hnd & Hfresh & _).
  rewrite fmap_app in Hall. apply Forall_app in Hall as [Hall [Hok _]%Forall_cons].
  destruct IH as ([seen faces] & Hf & Hk & Hmem); [|done|done|].
  { intros i r Hi. apply (Hw i r). by apply lookup_app_l_Some. }
  rewrite foldM_snoc, Hf. cbn [mbind outcome_bind fst snd] in *. unfold validate_text.
  assert ((text ++ [run]) !! length text = Some run) as Hlast by (by rewrite lookup_app_r, Nat.sub_diag).
  destruct (Hw _ _ Hlast) as (Hid & Hface & Hpose). rewrite insert_new_ok; [|intros Hin%Hk; lia]. cbn [mbind outcome_bind].
  rewrite fmap_app, omap_app. destruct run as [id b [obj kind] lp text']. unfold saying_of, saying_ok in Hok. cbn in *. subst kind.
  assert (∀ j : nat, j ∈ id :: seen → j < length (text ++ [{| text_id := id; binding := b; attached_to := {| on_object := obj; surface_kind := SurfaceFace |};
    local_pose := lp; content := text' |}])) as Hbound.
  { intros j. rewrite length_app, elem_of_cons. cbn. intros [->|Hin%Hk]; lia. }
  destruct b as [cid|owner|owner].
  - destruct Hok as (card & face & Hin & <- & Hcf & Hlt & [= -> ->]). destruct (label_ok (E := SceneError) face Hlt) as [Hl Hne].
    rewrite (proj2 (String.eqb_neq _ _) Hne), bool_decide_eq_true_2, Hpose by auto. cbn.
    unfold validate_face_text. rewrite dealt_find by done. cbn. rewrite bool_decide_eq_true_2 by done. cbn. rewrite Hcf. cbn.
    rewrite Hl. cbn. rewrite String.eqb_refl. cbn. rewrite insert_new_ok.
    + cbn. eexists. split_and!; [done|done|]. intros id'. cbn. rewrite elem_of_cons, elem_of_app, Hmem, list_elem_of_singleton. tauto.
    + rewrite Hmem. intros Hin'. apply (Hfresh _ Hin'). cbn. by apply list_elem_of_singleton.
  - destruct Hok as (Hs & -> & Hne). rewrite (proj2 (String.eqb_neq _ _) Hne), bool_decide_eq_true_2, Hpose by auto. cbn.
    rewrite score_text_ok by done. cbn.
    eexists. split_and!; [done|done|]. intros id'. cbn. by rewrite app_nil_r.
  - destruct Hok as (Hs & -> & Hne). rewrite (proj2 (String.eqb_neq _ _) Hne), bool_decide_eq_true_2, Hpose by auto. cbn.
    rewrite score_text_ok by done. cbn.
    eexists. split_and!; [done|done|]. intros id'. cbn. by rewrite app_nil_r.
Qed.
End Validity.

(** ** Decimal scores *)

Lemma decimal_digit_char d : (d < 10)%N → decimal_digit (pretty_N_char d) = Some d.
Proof. intros Hd. destruct d as [|p]; [done|]. do 4 (destruct p as [p|p|]; try done; try lia). Qed.

Definition starts_with_digit (text : string) : Prop := ∃ c rest d, text = String c rest ∧ decimal_digit c = Some d.

Lemma pretty_N_go_starts x s : (0 < x)%N ∨ starts_with_digit s → starts_with_digit (pretty_N_go x s).
Proof.
  revert s. induction (N.lt_wf_0 x) as [x _ IH]. intros s Hs. destruct (decide (0 < x)%N) as [Hx|Hx].
  - rewrite pretty_N_go_step by done. apply IH; [by apply N.div_lt|]. right. eexists _, _, _. split; [done|].
    apply decimal_digit_char. by apply N.mod_lt.
  - assert (x = 0)%N as -> by lia. rewrite pretty_N_go_0. destruct Hs as [|Hs]; [lia|done].
Qed.

Lemma to_decimal_starts v : starts_with_digit (to_decimal v).
Proof.
  unfold to_decimal, pretty, pretty_N. case_decide as Hv; [by eexists _, _, _|]. apply pretty_N_go_starts. left. lia.
Qed.

Lemma to_decimal_nonempty v : to_decimal v ≠ EmptyString.
Proof. destruct (to_decimal_starts v) as (c & rest & d & -> & _). done. Qed.

Lemma parse_pretty_N_go x s : (x < 65536)%N → parse_digits 0 (pretty_N_go x s) = parse_digits x s.
Proof.
  revert s. induction (N.lt_wf_0 x) as [x _ IH]. intros s Hx. destruct (decide (0 < x)%N) as [Hp|Hp].
  - rewrite pretty_N_go_step by done. rewrite IH; [|by apply N.div_lt|].
    + cbn [parse_digits]. rewrite decimal_digit_char by (by apply N.mod_lt). cbn [mbind option_bind].
      replace (x `div` 10 * 10 + x `mod` 10)%N with x by (rewrite (N.div_mod' x 10) at 1; lia).
      by rewrite (proj2 (N.ltb_lt _ _) Hx).
    + apply N.le_lt_trans with x; [by apply N.Div0.div_le_upper_bound; lia|done].
  - assert (x = 0)%N as -> by lia. by rewrite pretty_N_go_0.
Qed.

Lemma parse_u16_digits text : starts_with_digit text → parse_u16 text = parse_digits 0 text.
Proof.
  intros (c & rest & d & -> & Hd). destruct c as [b0 b1 b2 b3 b4 b5 b6 b7].
  by destruct b0, b1, b2, b3, b4, b5, b6, b7.
Qed.

Lemma parse_to_decimal v : (v < 65536)%N → parse_u16 (to_decimal v) = Some v.
Proof.
  intros Hv. rewrite parse_u16_digits by apply to_decimal_starts. unfold to_decimal, pretty, pretty_N.
  case_decide as Hz; [by subst|]. by rewrite parse_pretty_N_go.
Qed.

(** ** Realization *)

(** The ranges of the source's types *)
Record typed (projection : ViewerSpatialProjection) : Prop := {
  typed_known : ∀ face, face ∈ known_faces projection → face < 52;
  typed_scores : ∀ player, player ∈ players projection → (score player < 65536)%N }.

(** A scene that shows the projection *)
Record shows (layout : SpatialLayout) (projection : ViewerSpatialProjection) (scene : SpatialScene) : Prop := {
  shows_table : scene_table_id scene = table_id layout;
  shows_layout : scene_layout scene = layout_id layout;
  shows_epoch : scene_epoch scene = view_epoch projection;
  shows_dealt : dealt layout (view_epoch projection) (scene_cards scene);
  shows_items : item_of <$> scene_cards scene = scene_items (l_players (layout_id layout)) projection;
  shows_sayings : saying_of <$> scene_text scene =
    flat_map face_sayings (scene_cards scene) ++ flat_map player_sayings (players projection);
  shows_valid : scene_validate scene = Ok tt }.

Lemma scene_item_face n projection it face : it ∈ scene_items n projection → it.2 = Some face → face ∈ known_faces projection.
Proof.
  unfold scene_items, front_items, known_faces, trump_items, deck_items. rewrite !elem_of_app, !list_elem_of_fmap.
  intros [[Hin|[Hin|[(played & -> & Hin)|Hin]]]|(i & -> & _)] Hf; cbn in Hf; simplify_eq.
  - left. destruct (trump projection) as [t|]; [|by apply elem_of_nil in Hin]. apply list_elem_of_singleton in Hin as ->. cbn in Hf.
    simplify_eq. by left.
  - right. left. apply list_elem_of_In, in_flat_map in Hin as (player & Hp & Hin). apply list_elem_of_In, list_elem_of_fmap in Hin as (i & -> & _).
    apply list_elem_of_In, in_flat_map. exists player. split; [done|]. cbn in Hf. unfold hand_face in Hf. unfold hand_faces.
    destruct (visible_hand player) as [hand|]; [|done]. cbn in *. apply list_elem_of_In. by apply list_elem_of_lookup_2 in Hf.
  - right. right. left. by exists played.
  - right. right. right. apply list_elem_of_In, in_flat_map in Hin as (player & _ & Hin). unfold won_items in Hin.
    apply in_flat_map in Hin as (t & _ & Hin). apply list_elem_of_In, list_elem_of_fmap in Hin as (i & -> & _). cbn in Hf.
    unfold revealed_face in Hf. destruct (List.find _ _) as [r|] eqn:Hr; [|done]. cbn in Hf. simplify_eq.
    apply List_find_Some in Hr as [Hr _]. by exists r.
Qed.

Lemma flat_map_length_ge {A B} (f : A → list B) l x : x ∈ l → length (f x) <= length (flat_map f l).
Proof. induction 1; cbn; rewrite length_app; lia. Qed.

Section Realize.
Context (layout : SpatialLayout) (projection : ViewerSpatialProjection).
Local Notation n := (l_players (layout_id layout)).
Local Notation epoch := (view_epoch projection).

Hypothesis (Hready : ready layout = true) (Hvalid : validate_projection layout projection = Ok tt) (Htyped : typed projection).

Lemma realize_sound : sound n projection.
Proof using Hready Hvalid. by apply validated_sound. Qed.

Lemma sound_seat player : player ∈ players projection → seat player < n.
Proof using Hready Hvalid.
  intros Hin. assert (seat player ∈ seq 0 n) as Hs; [|apply elem_of_seq in Hs; lia].
  rewrite <-(sound_seats _ _ realize_sound). apply list_elem_of_fmap. by exists player.
Qed.

Lemma sound_length : length (players projection) = n.
Proof using Hready Hvalid. by rewrite <-(length_fmap seat), (sound_seats _ _ realize_sound), length_seq. Qed.

Lemma won_items_length player : length (won_items n projection player) = tricks_won player * n.
Proof using.
  unfold won_items. rewrite (List.flat_map_constant_length (c := n)); [by rewrite length_seq|].
  intros t _. by rewrite length_fmap, length_seq.
Qed.

Lemma sound_tricks player : player ∈ players projection → tricks_won player <= 26.
Proof using Hready Hvalid.
  intros Hin. pose proof (sound_deck _ _ realize_sound) as Hd. unfold front_items in Hd. rewrite !length_app in Hd.
  pose proof (flat_map_length_ge (won_items n projection) _ _ Hin) as Hw. rewrite won_items_length in Hw.
  pose proof (ready_players _ Hready). unfold STANDARD_DECK_SIZE in Hd. nia.
Qed.

Lemma realize_cards_ok : ∃ cards, realize_cards layout projection (players projection) = Ok cards ∧
  dealt layout epoch cards ∧ item_of <$> cards = scene_items n projection.
Proof using All.
  assert (∃ c0, match trump projection with
      | Some face => place_card layout epoch 1 [] (LocTrump, Some face) | None => Ok [] end = Ok c0 ∧
      item_of <$> c0 = trump_items projection ∧ dealt layout epoch c0) as (c0 & H0 & Hi0 & Hd0).
  { assert (dealt layout epoch []) as Hnil by (intros i c Hi; by rewrite lookup_nil in Hi).
    unfold trump_items. destruct (trump projection) as [face|]; [|by exists []].
    destruct (place_card_deals layout epoch Hready 1 (LocTrump, Some face)) with (l := @nil CardObject)
      as (new & Hnew & Hv & Hd); [done|lia|done|cbn; lia|]. by exists new. }
  pose proof (sound_deck _ _ realize_sound) as Hdeck. unfold STANDARD_DECK_SIZE in Hdeck.
  assert (deals layout epoch (λ cards, cards ← realize_hands layout epoch (players projection) cards;
      cards ← realize_current_trick layout projection cards; realize_won_cards layout projection (players projection) cards)
    (flat_map hand_items (players projection) ++ (trick_item <$> current_trick projection) ++ flat_map (won_items n projection) (players projection)))
    as Hall.
  { apply (appends_app _ _ _ (realize_hands layout epoch (players projection))); [|apply (appends_app _ _ _ (realize_current_trick layout projection))].
    - apply hands_deal; [done|]. intros player Hin. split; [by apply sound_seat|].
      pose proof (proj1 (sound_hands _ _ realize_sound _ Hin)). unfold MAX_HAND_SIZE in *. lia.
    - apply trick_deals; [done..|]. apply (sound_trick _ _ realize_sound).
    - apply won_deals; [done..|]. intros player Hin. split; [by apply sound_seat|]. pose proof (sound_tricks _ Hin). lia. }
  assert (length (trump_items projection) = length c0) as Hl0 by (rewrite <-Hi0; apply length_fmap).
  destruct (Hall c0) as (new & Hnew & Hv & Hd); [done| |].
  { unfold front_items in Hdeck. rewrite length_app in Hdeck. lia. }
  assert (item_of <$> c0 ++ new = front_items n projection) as Hfront by (rewrite fmap_app, Hi0, Hv; done).
  assert (length (c0 ++ new) = length (front_items n projection)) as Hlen by (rewrite <-Hfront; by rewrite length_fmap).
  destruct (deck_deals layout epoch Hready (c0 ++ new)) as (deck & Hdk & Hdv & Hdd); [done|unfold STANDARD_DECK_SIZE; lia|].
  exists ((c0 ++ new) ++ deck). split_and!; [|done|].
  - unfold realize_cards. rewrite H0. cbn [mbind outcome_bind].
    destruct (realize_hands _ _ _ _) as [c1| |]; cbn [mbind outcome_bind] in *; [|done..].
    destruct (realize_current_trick _ _ _) as [c2| |]; cbn [mbind outcome_bind] in *; [|done..]. by rewrite Hnew.
  - rewrite fmap_app, Hfront, Hdv, Hlen. done.
Qed.
Lemma scene_items_length : length (scene_items n projection) = STANDARD_DECK_SIZE.
Proof using Hready Hvalid.
  pose proof (sound_deck _ _ realize_sound). unfold scene_items, deck_items. rewrite length_app, length_fmap, length_seq. lia.
Qed.

Lemma cards_typed cards : item_of <$> cards = scene_items n projection → typed_faces cards.
Proof using Htyped.
  intros Hi card face Hin Hf. apply (typed_known _ Htyped). apply (scene_item_face n projection (item_of card)); [|done].
  rewrite <-Hi. apply list_elem_of_fmap. by exists card.
Qed.

Lemma sayings_ok cards : item_of <$> cards = scene_items n projection →
  Forall (saying_ok n cards) (flat_map face_sayings cards ++ flat_map player_sayings (players projection)).
Proof using Hready Hvalid Htyped.
  intros Hi. pose proof (cards_typed _ Hi) as Ht. apply Forall_app. split; apply Forall_forall; intros s Hs.
  - apply list_elem_of_In, in_flat_map in Hs as (card & Hc%list_elem_of_In & Hs). unfold face_sayings in Hs.
    destruct (card_face card) as [face|] eqn:Hf; [|done]. destruct Hs as [<-|[]]. cbn.
    exists card, face. split_and!; [done..|by apply (Ht card face)|done].
  - apply list_elem_of_In, in_flat_map in Hs as (player & Hp%list_elem_of_In & Hs). pose proof (sound_seat _ Hp).
    destruct Hs as [<-|[<-|[]]]; cbn; split_and!; [done|done|by apply (sound_names _ _ realize_sound)|done|done|apply to_decimal_nonempty].
Qed.

Lemma face_bounds cards : omap face_bound (flat_map face_sayings cards ++ flat_map player_sayings (players projection)) =
  omap (λ card, (λ _, card_id card) <$> card_face card) cards.
Proof using.
  rewrite omap_app. assert (∀ l, omap face_bound (flat_map player_sayings l) = []) as -> by (induction l; [done|by cbn]).
  rewrite app_nil_r. induction cards as [|card cards IH]; [done|]. cbn [flat_map]. rewrite omap_app, IH. unfold face_sayings. cbn.
  by destruct (card_face card).
Qed.

Lemma face_bounds_NoDup cards : NoDup (card_id <$> cards) → NoDup (omap (λ card, (λ _, card_id card) <$> card_face card) cards).
Proof using.
  induction cards as [|card cards IH]; cbn; [done|]. intros [Hnew Hnd]%NoDup_cons. destruct (card_face card) as [face|]; cbn; [|by apply IH].
  constructor; [|by apply IH]. intros (c & Hc & He)%list_elem_of_omap. apply Hnew. apply list_elem_of_fmap. exists c.
  destruct (card_face c); cbn in He; [|done]. by simplify_eq.
Qed.

(** Realization of a validated projection succeeds *)
Lemma realize_total : ∃ scene, realize_viewer_scene layout projection = Ok scene ∧ shows layout projection scene.
Proof using All.
  pose proof (ready_players _ Hready) as Hn. destruct realize_cards_ok as (cards & Hcards & Hd & Hitems).
  pose proof (cards_typed _ Hitems) as Ht.
  assert (length cards = 52) as Hlen by (rewrite <-(length_fmap item_of), Hitems; apply scene_items_length).
  destruct (realize_text_written layout (players projection) cards) as (text & Htext & Hs & Hw); [lia|rewrite sound_length; lia|lia|done|].
  pose proof Hready as Hr. unfold ready in Hr. rewrite !andb_true_iff in Hr. destruct Hr as [_ Hobj]. unfold objects_ready in Hobj.
  destruct (layout_objects layout) as [objects| |] eqn:Ho; [|done..].
  destruct (foldM _ objects []) as [ids| |] eqn:Hids; [|done..]. apply andb_true_iff in Hobj as [Hsheet%bool_decide_eq_true Hnc].
  rewrite forallb_forall in Hnc.
  destruct (cards_valid layout epoch ids cards Hd) as (ids' & Hids' & Hmem).
  { intros id Hin%list_elem_of_In%Hnc. by apply negb_true_iff. }
  destruct (text_valid layout epoch ids' cards text Hd) as (seen & Hseen & _ & Hfaces).
  { intros c Hc. apply Hmem. right. by exists c. }
  { apply Hmem. by left. }
  { done. }
  { rewrite Hs. by apply sayings_ok. }
  { rewrite Hs, face_bounds. by apply face_bounds_NoDup, (dealt_NoDup layout epoch). }
  set (scene := {| scene_schema_version := SPATIAL_SCHEMA_VERSION; scene_table_id := table_id layout; scene_layout := layout_id layout;
    scene_epoch := epoch; scene_objects := objects; scene_cards := cards; scene_text := text |}).
  assert (scene_validate scene = Ok tt) as Hval.
  { unfold scene_validate. cbn [scene_schema_version scene_layout scene_objects scene_cards scene_text scene_epoch scene].
    rewrite Nat.eqb_refl. cbn [ensure mbind outcome_bind]. rewrite Hids. cbn [mbind outcome_bind]. rewrite Hids'. cbn [mbind outcome_bind].
    rewrite Hseen. cbn [mbind outcome_bind]. apply ensure_Ok. apply negb_true_iff, existsb_false_iff, Forall_forall. intros card Hin.
    destruct (card_face card) as [face|] eqn:Hf; [|done]. rewrite bool_decide_eq_true_2 by (by eexists). cbn. apply negb_false_iff.
    apply bool_decide_eq_true, Hfaces. rewrite Hs, face_bounds. apply list_elem_of_omap. exists card. by rewrite Hf. }
  exists scene. split; [|by split].
  unfold realize_viewer_scene. rewrite Hvalid. cbn [mbind outcome_bind].
  rewrite (proj1 (validated_sound _ _ Hvalid)). cbn [mbind outcome_bind]. rewrite Hcards. cbn [mbind outcome_bind].
  rewrite Htext. cbn [mbind outcome_bind]. rewrite Ho. cbn [mbind outcome_bind]. fold scene. by rewrite Hval.
Qed.
End Realize.

(** ** Abstraction of realized scenes
    A scene that shows a projection is read back as that projection. *)

(** ** Lists *)

Lemma omap_fmap_comp {A B C} (f : B → option C) (g : A → B) (l : list A) : omap f (g <$> l) = omap (λ x, f (g x)) l.
Proof. induction l as [|x l IH]; [done|]. cbn. by rewrite IH. Qed.

Lemma omap_flat_map {A B C} (g : B → option C) (f : A → list B) l : omap g (flat_map f l) = flat_map (λ x, omap g (f x)) l.
Proof. induction l as [|x l IH]; [done|]. cbn [flat_map]. by rewrite omap_app, IH. Qed.

Lemma omap_ext_in {A B} (f g : A → option B) (l : list A) : (∀ x, x ∈ l → f x = g x) → omap f l = omap g l.
Proof.
  induction l as [|x l IH]; intros He; [done|]. cbn. rewrite (He x) by left. destruct (g x); rewrite IH; try done; intros y Hy; apply He; by right.
Qed.

Lemma omap_none {A B} (f : A → option B) (l : list A) : (∀ x, x ∈ l → f x = None) → omap f l = [].
Proof. intros He. rewrite (omap_ext_in f (λ _, None)) by done. clear. by induction l. Qed.

Lemma omap_some {A B} (f : A → B) (l : list A) : omap (λ x, Some (f x)) l = f <$> l.
Proof. induction l as [|x l IH]; [done|]. cbn. by rewrite IH. Qed.

Lemma flat_map_filtered {A B} (P : A → bool) (f : A → list B) l : (∀ x, x ∈ l → P x = false → f x = []) →
  flat_map f l = flat_map f (List.filter P l).
Proof.
  induction l as [|x l IH]; intros Hf; [done|]. cbn. rewrite IH by (intros y Hy; apply Hf; by right).
  destruct (P x) eqn:HP; [done|]. by rewrite Hf by (done || left).
Qed.

(** What is collected for one seat only *)
Lemma flat_map_seat {B} (f : PlayerSpatialProjection → list B) l (owner : nat) :
  seat <$> l = seq 0 (length l) → (∀ player, seat player ≠ owner → f player = []) →
  flat_map f l = match l !! owner with Some player => f player | None => [] end.
Proof.
  intros Hs Hf. rewrite (flat_map_filtered (λ player, seat player =? owner)).
  - rewrite filter_seat by done. destruct (l !! owner); cbn; [by rewrite app_nil_r|done].
  - intros player _ Hne. by apply Hf, Nat.eqb_neq.
Qed.

Lemma filter_mapM_fmap {E A B} (f : A → B) (l : list A) : filter_mapM (E := E) (λ x, Ok (Some (f x))) l = Ok (f <$> l).
Proof. induction l as [|x l IH]; [done|]. cbn. by rewrite IH. Qed.

Lemma filter_mapM_app {E A B} (f : A → outcome E (option B)) l k :
  filter_mapM f (l ++ k) = x ← filter_mapM f l; y ← filter_mapM f k; Ok (x ++ y).
Proof.
  induction l as [|a l IH]; cbn; [by destruct (filter_mapM f k)|]. destruct (f a); cbn; [|done..]. rewrite IH.
  destruct (filter_mapM f l); cbn; [|done..]. destruct (filter_mapM f k); cbn; [|done..]. by rewrite app_assoc.
Qed.

Lemma filter_mapM_view {E A B C} (view : A → B) (f : B → outcome E (option C)) l :
  filter_mapM (λ x, f (view x)) l = filter_mapM f (view <$> l).
Proof. induction l as [|x l IH]; [done|]. cbn. by rewrite IH. Qed.

Lemma filter_mapM_none {E A B} (f : A → outcome E (option B)) l : (∀ x, x ∈ l → f x = Ok None) → filter_mapM f l = Ok [].
Proof.
  induction l as [|x l IH]; intros Hf; [done|]. cbn. rewrite Hf by left. cbn. rewrite IH; [done|]. intros y Hy. apply Hf. by right.
Qed.

Lemma sort_by_done {A} (le : A → A → bool) l : StronglySorted (λ x y, le x y = true) l → sort_by le l = l.
Proof.
  induction 1 as [|x l Hs IH Hx]; [done|]. cbn [sort_by]. rewrite IH. destruct l as [|y l]; [done|].
  cbn. apply Forall_cons in Hx as [Hxy _]. by rewrite Hxy.
Qed.

Lemma StronglySorted_seq {A} (R : A → A → Prop) (f : nat → A) k m :
  (∀ i j, k <= i → i < j → j < k + m → R (f i) (f j)) → StronglySorted R (f <$> seq k m).
Proof.
  revert k. induction m as [|m IH]; intros k Hf; cbn; constructor.
  - apply IH. intros i j ???. apply Hf; lia.
  - apply Forall_fmap, Forall_forall. intros j Hj%elem_of_seq. apply Hf; lia.
Qed.

(** Rows of equal length, numbered through *)
Lemma rows_numbered {A} (f : nat → nat → A) n m : 0 < n →
  flat_map (λ t, f t <$> seq 0 n) (seq 0 m) = (λ k, f (k `div` n) (k `mod` n)) <$> seq 0 (m * n).
Proof.
  intros Hn. induction m as [|m IH]; [done|]. rewrite seq_S, flat_map_app, IH. cbn [flat_map]. rewrite app_nil_r. cbn [Nat.add].
  replace (S m * n) with (m * n + n) by lia. rewrite seq_app, fmap_app. f_equal. cbn [Nat.add].
  replace (seq (m * n) n) with (Nat.add (m * n) <$> seq 0 n) by (rewrite fmap_add_seq; by rewrite Nat.add_0_r).
  rewrite <-list_fmap_compose. apply list_fmap_ext. intros i j Hj. cbn. apply lookup_seq in Hj as [-> Hi]. cbn.
  assert ((m * n + i) `div` n = m) as -> by (rewrite Nat.div_add_l, Nat.div_small; lia).
  assert ((m * n + i) `mod` n = i) as -> by (rewrite Nat.add_comm, Nat.Div0.mod_add, Nat.mod_small; lia). done.
Qed.

(** ** Reading the cards *)

(** The projection without the distinction between an empty visible hand and a hidden one *)
Definition canonical_hand (hand : option (list CardFace)) : option (list CardFace) :=
  match hand with Some [] => None | _ => hand end.

Definition canonical_player (player : PlayerSpatialProjection) : PlayerSpatialProjection :=
  {| seat := seat player; display_name := display_name player; score := score player; hand_count := hand_count player;
     visible_hand := canonical_hand (visible_hand player); tricks_won := tricks_won player |}.

Definition canonical (projection : ViewerSpatialProjection) : ViewerSpatialProjection :=
  {| view_epoch := view_epoch projection; players := canonical_player <$> players projection; trump := trump projection;
     current_trick := current_trick projection; revealed_won_cards := revealed_won_cards projection |}.

Definition hand_of (owner : nat) (it : item) : option (nat * option CardFace) :=
  match it.1 with LocHand seat i => if seat =? owner then Some (i, it.2) else None | _ => None end.

Definition won_of (owner : nat) (it : item) : option (nat * nat * option CardFace) :=
  match it.1 with LocWon seat t i => if seat =? owner then Some (t, i, it.2) else None | _ => None end.

Definition deck_of (it : item) : option (nat * option CardFace) :=
  match it.1 with LocDeck i => Some (i, it.2) | _ => None end.

Section Items.
Context (n : nat) (projection : ViewerSpatialProjection) (Hseats : seat <$> players projection = seq 0 (length (players projection))).

Lemma hand_items_in player it : it ∈ hand_items player → ∃ i, it = (LocHand (seat player) i, hand_face player i).
Proof. unfold hand_items. intros (i & -> & _)%list_elem_of_fmap. by exists i. Qed.

Lemma won_items_in player it : it ∈ won_items n projection player → ∃ t i,
  it = (LocWon (seat player) t i, revealed_face projection (seat player) t i).
Proof.
  unfold won_items. intros (t & _ & Hin)%list_elem_of_In%in_flat_map. apply list_elem_of_In, list_elem_of_fmap in Hin as (i & -> & _).
  by exists t, i.
Qed.

Lemma trump_items_in it : it ∈ trump_items projection → ∃ face, it = (LocTrump, Some face).
Proof. unfold trump_items. destruct (trump projection) as [f|]; [|by intros ?%elem_of_nil]. intros ->%list_elem_of_singleton. by exists f. Qed.

Lemma trick_items_in it : it ∈ trick_item <$> current_trick projection → ∃ owner face, it = (LocPlay owner, Some face).
Proof. intros (played & -> & _)%list_elem_of_fmap. by eexists _, _. Qed.

Lemma deck_items_in k it : it ∈ deck_items k → ∃ i, it = (LocDeck i, None).
Proof. intros (i & -> & _)%list_elem_of_fmap. by exists i. Qed.

Ltac on_no_item := apply omap_none; let it := fresh in intros it;
  first [intros (?&?&->)%won_items_in | intros (?&->)%hand_items_in | intros (?&->)%trump_items_in | intros (?&?&->)%trick_items_in
        | intros (?&->)%deck_items_in]; cbn; first [done | by rewrite (proj2 (Nat.eqb_neq _ _))].

Lemma scene_hand owner player : players projection !! owner = Some player →
  omap (hand_of owner) (scene_items n projection) = (λ i, (i, hand_face player i)) <$> seq 0 (hand_count player).
Proof using Hseats.
  intros Hp. unfold scene_items, front_items. rewrite !omap_app, !omap_flat_map.
  assert (omap (hand_of owner) (trump_items projection) = []) as -> by on_no_item.
  assert (omap (hand_of owner) (trick_item <$> current_trick projection) = []) as -> by on_no_item.
  assert (∀ k, omap (hand_of owner) (deck_items k) = []) as -> by (intros; on_no_item).
  assert (∀ l, flat_map (λ x, omap (hand_of owner) (won_items n projection x)) l = []) as ->.
  { intros l. induction l as [|x l IH]; [done|]. cbn. rewrite IH, app_nil_r. on_no_item. }
  rewrite (flat_map_seat _ _ owner), Hp by (done || (intros; on_no_item)). cbn [app]. rewrite !app_nil_r.
  unfold hand_items. rewrite omap_fmap_comp. rewrite <-omap_some. apply omap_ext_in. intros i _.
  cbn. by rewrite (nth_seat _ _ _ Hseats Hp), Nat.eqb_refl.
Qed.

Lemma scene_won owner player : 0 < n → players projection !! owner = Some player →
  omap (won_of owner) (scene_items n projection) =
  (λ k, (k `div` n, k `mod` n, revealed_face projection owner (k `div` n) (k `mod` n))) <$> seq 0 (tricks_won player * n).
Proof using Hseats.
  intros Hn Hp. unfold scene_items, front_items. rewrite !omap_app, !omap_flat_map.
  assert (omap (won_of owner) (trump_items projection) = []) as -> by on_no_item.
  assert (omap (won_of owner) (trick_item <$> current_trick projection) = []) as -> by on_no_item.
  assert (∀ k, omap (won_of owner) (deck_items k) = []) as -> by (intros; on_no_item).
  assert (∀ l, flat_map (λ x, omap (won_of owner) (hand_items x)) l = []) as ->.
  { intros l. induction l as [|x l IH]; [done|]. cbn. rewrite IH, app_nil_r. on_no_item. }
  rewrite (flat_map_seat _ _ owner), Hp by (done || (intros; on_no_item)). cbn [app]. rewrite !app_nil_r.
  rewrite <-(rows_numbered (λ t i, (t, i, revealed_face projection owner t i))) by done. unfold won_items. rewrite omap_flat_map.
  apply flat_map_ext. intros t. rewrite omap_fmap_comp, <-omap_some. apply omap_ext_in. intros i _.
  cbn. by rewrite (nth_seat _ _ _ Hseats Hp), Nat.eqb_refl.
Qed.

Lemma scene_deck : ∃ k, omap deck_of (scene_items n projection) = (λ i, (i, None)) <$> seq 0 k.
Proof.
  exists (STANDARD_DECK_SIZE - length (front_items n projection)). unfold scene_items. rewrite omap_app.
  assert (omap deck_of (front_items n projection) = []) as ->.
  { unfold front_items. rewrite !omap_app, !omap_flat_map. assert (omap deck_of (trump_items projection) = []) as -> by on_no_item.
    assert (omap deck_of (trick_item <$> current_trick projection) = []) as -> by on_no_item.
    assert (∀ l, flat_map (λ x, omap deck_of (hand_items x)) l = []) as ->.
    { intros l. induction l as [|x l IH]; [done|]. cbn. rewrite IH, app_nil_r. on_no_item. }
    assert (∀ l, flat_map (λ x, omap deck_of (won_items n projection x)) l = []) as ->; [|done].
    intros l. induction l as [|x l IH]; [done|]. cbn. rewrite IH, app_nil_r. on_no_item. }
  unfold deck_items. cbn [app]. by rewrite omap_fmap_comp, <-omap_some.
Qed.

Definition is_trump_item (it : item) : bool := bool_decide (it.1 = LocTrump).

Lemma scene_trump : List.filter is_trump_item (scene_items n projection) = trump_items projection.
Proof.
  assert (∀ l, (∀ it, it ∈ l → it.1 ≠ LocTrump) → List.filter is_trump_item l = []) as Hnone.
  { intros l. induction l as [|it l IH]; intros Hl; [done|]. cbn. unfold is_trump_item at 1. rewrite bool_decide_eq_false_2 by (apply Hl; left).
    apply IH. intros it' Hin. apply Hl. by right. }
  unfold scene_items, front_items. rewrite !List.filter_app.
  rewrite (Hnone (deck_items _)), (Hnone (flat_map (won_items _ _) _)), (Hnone (trick_item <$> _)), (Hnone (flat_map hand_items _)).
  - unfold trump_items. by destruct (trump projection).
  - intros it (x & _ & Hin)%list_elem_of_In%in_flat_map. by apply list_elem_of_In, hand_items_in in Hin as (i & ->).
  - by intros it (o & f & ->)%trick_items_in.
  - intros it (x & _ & Hin)%list_elem_of_In%in_flat_map. by apply list_elem_of_In, won_items_in in Hin as (t & i & ->).
  - by intros it (i & ->)%deck_items_in.
Qed.

Definition played_of (it : item) : outcome AbstractionError (option PlayedCardProjection) :=
  match it.1 with
  | LocPlay owner => face ← ok_or it.2 MissingPublicFace; Ok (Some {| played_seat := owner; played_face := face |})
  | _ => Ok None
  end.

Lemma scene_trick : filter_mapM played_of (scene_items n projection) = Ok (current_trick projection).
Proof.
  unfold scene_items, front_items. rewrite !filter_mapM_app.
  rewrite (filter_mapM_none _ (trump_items projection)) by (by intros it (f & ->)%trump_items_in).
  rewrite (filter_mapM_none _ (flat_map hand_items _)) by
    (intros it (x & _ & Hin)%list_elem_of_In%in_flat_map; by apply list_elem_of_In, hand_items_in in Hin as (i & ->)).
  rewrite (filter_mapM_none _ (flat_map (won_items n projection) _)) by
    (intros it (x & _ & Hin)%list_elem_of_In%in_flat_map; by apply list_elem_of_In, won_items_in in Hin as (t & i & ->)).
  rewrite (filter_mapM_none _ (deck_items _)) by (by intros it (i & ->)%deck_items_in).
  rewrite <-filter_mapM_view. assert (filter_mapM (λ x, played_of (trick_item x)) (current_trick projection) = Ok (current_trick projection)) as ->.
  { induction (current_trick projection) as [|[s f] l IH]; [done|]. cbn in IH |- *. by rewrite IH. }
  cbn. by rewrite !app_nil_r.
Qed.
End Items.

(** ** Reading the text *)

Lemma filter_flat_map_in {A B} (P : B → bool) (f : A → list B) l : List.filter P (flat_map f l) = flat_map (λ x, List.filter P (f x)) l.
Proof. induction l as [|x l IH]; [done|]. cbn [flat_map]. by rewrite List.filter_app, IH. Qed.

Definition is_score (owner : nat) (s : saying) : bool := bool_decide (s.1.1 = BindScore owner).
Definition name_of (owner : nat) (s : saying) : option string :=
  match s.1.1 with BindName seat => if seat =? owner then Some s.2 else None | _ => None end.

Section Sayings.
Context (l : list PlayerSpatialProjection) (Hseats : seat <$> l = seq 0 (length l)) (cards : list CardObject).

Lemma sayings_score owner player : l !! owner = Some player →
  List.filter (is_score owner) (flat_map face_sayings cards ++ flat_map player_sayings l) =
  [(BindScore owner, IdScoreSheet, to_decimal (score player))].
Proof using Hseats.
  intros Hp. rewrite List.filter_app, !filter_flat_map_in.
  assert (flat_map (λ x, List.filter (is_score owner) (face_sayings x)) cards = []) as ->.
  { clear. induction cards as [|c cs IH]; [done|]. cbn [flat_map]. rewrite IH, app_nil_r. unfold face_sayings.
    destruct (card_face c); [|done]. cbn. unfold is_score. by rewrite bool_decide_eq_false_2. }
  rewrite (flat_map_seat _ _ owner), Hp; [|done|].
  - cbn. unfold is_score. cbn. rewrite (nth_seat _ _ _ Hseats Hp), bool_decide_eq_false_2, bool_decide_eq_true_2 by done. done.
  - intros x Hne. cbn. unfold is_score. cbn. rewrite !bool_decide_eq_false_2; [done|congruence|done].
Qed.

Lemma sayings_name owner player : l !! owner = Some player →
  omap (name_of owner) (flat_map face_sayings cards ++ flat_map player_sayings l) = [display_name player].
Proof using Hseats.
  intros Hp. rewrite omap_app, !omap_flat_map.
  assert (flat_map (λ x, omap (name_of owner) (face_sayings x)) cards = []) as ->.
  { clear. induction cards as [|c cs IH]; [done|]. cbn [flat_map]. rewrite IH, app_nil_r. unfold face_sayings. by destruct (card_face c). }
  rewrite (flat_map_seat _ _ owner), Hp; [|done|].
  - cbn. by rewrite (nth_seat _ _ _ Hseats Hp), Nat.eqb_refl.
  - intros x Hne. cbn. by rewrite (proj2 (Nat.eqb_neq _ _) Hne).
Qed.
End Sayings.

(** A loop over the ordinals of a list that meets its elements in turn *)
Lemma foldM_ordinals {E S A} (f : S → nat → outcome E S) (step : S → A → S) (l : list A) s :
  (∀ s i x, l !! i = Some x → f s i = Ok (step s x)) → foldM f (seq 0 (length l)) s = Ok (fold_left step l s).
Proof.
  intros Hf. revert s. induction l as [|x l IH] using rev_ind; intros s; [done|].
  rewrite length_app. cbn [length]. rewrite Nat.add_1_r, seq_S, foldM_snoc, fold_left_app, IH.
  - cbn. by rewrite (Hf _ _ x) by (by rewrite lookup_app_r, Nat.sub_diag).
  - intros s' i y Hi. apply Hf. by apply lookup_app_l_Some.
Qed.

Lemma fold_left_snoc {A B} (g : A → B) l acc : fold_left (λ acc x, acc ++ [g x]) l acc = acc ++ (g <$> l).
Proof. revert acc. induction l as [|x l IH]; intros acc; cbn; [by rewrite app_nil_r|]. rewrite IH. by rewrite <-app_assoc. Qed.

(** ** The captured cards, in the order of their slots *)

Definition key : Type := nat * nat * nat.
Definition key_of (r : RevealedWonCard) : key := (winner r, trick r, index r).
Definition key_lt (a b : key) : Prop :=
  a.1.1 < b.1.1 ∨ a.1.1 = b.1.1 ∧ (a.1.2 < b.1.2 ∨ a.1.2 = b.1.2 ∧ a.2 < b.2).

Lemma key_lt_trans a b c : key_lt a b → key_lt b c → key_lt a c.
Proof. unfold key_lt. lia. Qed.

Lemma key_lt_irrefl a : ¬ key_lt a a.
Proof. unfold key_lt. lia. Qed.

Lemma slot_lt_key r r' : slot_lt r r' = true ↔ key_lt (key_of r) (key_of r').
Proof.
  unfold slot_lt, key_lt, key_of. cbn [fst snd]. rewrite !orb_true_iff, !andb_true_iff, orb_true_iff, andb_true_iff, !Nat.ltb_lt, !Nat.eqb_eq. done.
Qed.

Lemma slots_sorted l : slots_increase l = true → StronglySorted (λ r r', key_lt (key_of r) (key_of r')) l.
Proof.
  intros Hs. apply Sorted_StronglySorted; [intros a b c; apply key_lt_trans|]. induction l as [|r l IH]; [constructor|].
  destruct l as [|r' l]; [by repeat constructor|]. cbn [slots_increase] in Hs. apply andb_true_iff in Hs as [Hr Hs].
  constructor; [by apply IH|]. constructor. by apply slot_lt_key.
Qed.

Lemma StronglySorted_flat_map {A B} (R : B → B → Prop) (R' : A → A → Prop) (f : A → list B) l :
  (∀ x, StronglySorted R (f x)) → (∀ x y a b, R' x y → a ∈ f x → b ∈ f y → R a b) → StronglySorted R' l →
  StronglySorted R (flat_map f l).
Proof.
  intros Hf HR. induction 1 as [|x l Hl IH Hx]; [constructor|]. cbn.
  assert (Forall (λ a, Forall (R a) (flat_map f l)) (f x)) as Hall.
  { apply Forall_forall. intros a Ha. apply Forall_forall. intros b (y & Hy%list_elem_of_In & Hb%list_elem_of_In)%list_elem_of_In%in_flat_map.
    rewrite Forall_forall in Hx. eapply HR; eauto. }
  specialize (Hf x). induction Hf as [|a k Hk IHk Ha]; [done|]. cbn. apply Forall_cons in Hall as [Haf Hall].
  constructor; [by apply IHk|]. by apply Forall_app.
Qed.

Definition find_key (l : list RevealedWonCard) (k : key) : option RevealedWonCard := List.find (λ r, bool_decide (key_of r = k)) l.

(** Looking up every slot in order gives the cards back *)
Lemma find_keys_sorted keys l : StronglySorted key_lt keys → StronglySorted (λ r r', key_lt (key_of r) (key_of r')) l →
  (∀ r, r ∈ l → key_of r ∈ keys) → omap (find_key l) keys = l.
Proof.
  intros Hk. revert l. induction Hk as [|k keys Hk IH Hlt]; intros l Hl Hin.
  { destruct l as [|r l]; [done|]. specialize (Hin r ltac:(left)). by apply elem_of_nil in Hin. }
  rewrite Forall_forall in Hlt. destruct Hl as [|r l Hl Hr].
  { cbn. clear. by induction keys. }
  rewrite Forall_forall in Hr. cbn. unfold find_key at 1. cbn.
  assert (∀ r', r' ∈ r :: l → key_of r' ≠ k → key_of r' ∈ keys) as Hrest.
  { intros r' Hr' Hne. specialize (Hin r' Hr'). apply elem_of_cons in Hin as [?|?]; done. }
  destruct (bool_decide_reflect (key_of r = k)) as [He|Hne].
  - f_equal. subst k. transitivity (omap (find_key l) keys); [|apply IH; [done|]].
    + apply omap_ext_in. intros k Hkin. unfold find_key. cbn. rewrite bool_decide_eq_false_2; [done|].
      intros <-. by apply (key_lt_irrefl (key_of r)), Hlt.
    + intros r' Hr'. apply Hrest; [by right|]. intros He. apply (key_lt_irrefl (key_of r)). rewrite <-He at 2. by apply Hr.
  - destruct (List.find _ l) as [r'|] eqn:Hf.
    + exfalso. apply List_find_Some in Hf as [Hr' He%bool_decide_eq_true]. apply (key_lt_irrefl k).
      apply (key_lt_trans k (key_of r) k); [by apply Hlt, Hrest; [left|]|]. rewrite <-He. by apply Hr.
    + apply IH; [constructor; [done|by apply Forall_forall]|]. intros r' Hr'. apply Hrest; [done|].
      intros He. destruct (proj1 (elem_of_cons _ _ _) Hr') as [->|Hr2]; [done|].
      rewrite List_find_None in Hf. specialize (Hf _ Hr2). by rewrite bool_decide_eq_true_2 in Hf.
Qed.

(** ** Abstraction *)

Lemma require_contiguous_seq k m : require_contiguous_from k (seq k m) = Ok tt.
Proof. revert k. induction m as [|m IH]; intros k; [done|]. cbn. by rewrite Nat.eqb_refl. Qed.

Lemma zip_seq_fmap {A} (f : nat → A) k m : zip (seq k m) (f <$> seq k m) = (λ i, (i, f i)) <$> seq k m.
Proof. revert k. induction m as [|m IH]; intros k; [done|]. cbn. by rewrite IH. Qed.

Lemma foldM_unit {E A} (f : unit → A → outcome E unit) l : (∀ x, x ∈ l → f tt x = Ok tt) → foldM f l tt = Ok tt.
Proof. induction l as [|x l IH]; intros Hf; [done|]. cbn. rewrite Hf by left. apply IH. intros y Hy. apply Hf. by right. Qed.

(** The hand of a player, face by face, read back *)
Lemma abstract_hand_canonical player : (∀ hand, visible_hand player = Some hand → length hand = hand_count player) →
  abstract_hand ((λ i, (i, hand_face player i)) <$> seq 0 (hand_count player)) = Ok (canonical_hand (visible_hand player)).
Proof.
  intros Hlen. unfold abstract_hand. rewrite filter_fmap, !length_fmap, length_seq. unfold hand_face.
  destruct (visible_hand player) as [hand|]; cbn [mbind option_bind snd].
  - specialize (Hlen hand eq_refl). rewrite <-Hlen.
    assert (List.filter (λ x, bool_decide (is_Some (hand !! x))) (seq 0 (length hand)) = seq 0 (length hand)) as ->.
    { apply List.forallb_filter_id, forallb_forall. intros i Hi%List.in_seq. apply bool_decide_eq_true, lookup_lt_is_Some. lia. }
    rewrite length_seq. destruct hand as [|face hand]; [done|]. cbn [length]. rewrite Nat.eqb_refl.
    change (S (length hand)) with (length (face :: hand)). set (h := face :: hand).
    assert (filter_mapM (λ slot : nat * option CardFace, face ← ok_or slot.2 MixedHandVisibility; Ok (Some face))
      ((λ i, (i, h !! i)) <$> seq 0 (length h)) = Ok h) as ->; [|done].
    clearbody h. clear. induction h as [|x h IH] using rev_ind; [done|]. rewrite length_app, Nat.add_1_r, seq_S, fmap_app, filter_mapM_app.
    assert ((λ i, (i, (h ++ [x]) !! i)) <$> seq 0 (length h) = (λ i, (i, h !! i)) <$> seq 0 (length h)) as ->.
    { apply list_fmap_ext. intros i j [-> Hj]%lookup_seq. by rewrite lookup_app_l. }
    rewrite IH. cbn [mbind outcome_bind fmap list_fmap Nat.add]. cbn. by rewrite lookup_app_r, Nat.sub_diag by done.
  - assert (List.filter (λ _ : nat, bool_decide (is_Some (@None CardFace))) (seq 0 (hand_count player)) = []) as ->; [|done].
    clear Hlen. generalize 0. induction (hand_count player) as [|m IH]; intros k; [done|]. cbn. apply IH.
Qed.

Section Abstract.
Context (layout : SpatialLayout) (projection : ViewerSpatialProjection) (scene : SpatialScene).
Local Notation n := (l_players (layout_id layout)).
Hypothesis (Hready : ready layout = true) (Hsound : sound n projection) (Htyped : typed projection)
  (Hshows : shows layout projection scene) (Htricks : ∀ player, player ∈ players projection → tricks_won player <= 26).

Lemma players_length : length (players projection) = n.
Proof using Hsound. by rewrite <-(length_fmap seat), (sound_seats _ _ Hsound), length_seq. Qed.

Lemma players_seats : seat <$> players projection = seq 0 (length (players projection)).
Proof using Hsound. rewrite players_length. apply (sound_seats _ _ Hsound). Qed.

Lemma score_sheet_read : interpret_score_sheet scene = Ok ((λ player, (seat player, score player)) <$> players projection).
Proof using Hready Hsound Htyped Hshows.
  unfold interpret_score_sheet. rewrite (shows_valid _ _ _ Hshows), (shows_layout _ _ _ Hshows). cbn [map_err mbind outcome_bind].
  rewrite <-players_length at 1.
  rewrite (foldM_ordinals _ (λ acc player, acc ++ [(seat player, score player)]) (players projection)); [by rewrite fold_left_snoc|].
  intros acc i player Hp. pose proof (lookup_lt_Some _ _ _ Hp) as Hi. rewrite players_length in Hi.
  unfold interpret_score, seat_id_new. rewrite (shows_layout _ _ _ Hshows), (proj2 (Nat.ltb_lt _ _) Hi). cbn [ok_or mbind outcome_bind].
  pose proof (sayings_score _ players_seats (scene_cards scene) i player Hp) as Hs. rewrite <-(shows_sayings _ _ _ Hshows), filter_fmap in Hs.
  change (λ text : TextRun, bool_decide (binding text = BindScore i)) with (λ text, is_score i (saying_of text)).
  destruct (List.filter _ _) as [|cell [|c cs]]; [done| |done]. cbn in Hs. injection Hs as _ _ Hc. rewrite Hc.
  rewrite parse_to_decimal by (apply (typed_scores _ Htyped); by apply list_elem_of_lookup_2 in Hp). cbn [ok_or mbind outcome_bind].
  by rewrite String.eqb_refl, (nth_seat _ _ _ players_seats Hp).
Qed.

(** The slots won by one seat *)
Definition won_slots (owner tricks : nat) : list (nat * nat * option CardFace) :=
  (λ k, (k `div` n, k `mod` n, revealed_face projection owner (k `div` n) (k `mod` n))) <$> seq 0 (tricks * n).

Definition revealed_of (player : PlayerSpatialProjection) : list RevealedWonCard :=
  omap (abstract_won (seat player)) (won_slots (seat player) (tricks_won player)).

Lemma won_slots_sorted owner tricks : sort_by won_le (won_slots owner tricks) = won_slots owner tricks.
Proof using Hready.
  pose proof (ready_players _ Hready). apply sort_by_done, StronglySorted_seq. intros i j _ Hij _. unfold won_le. cbn [fst snd].
  pose proof (Nat.div_mod_eq i n). pose proof (Nat.div_mod_eq j n). pose proof (Nat.mod_upper_bound i n). pose proof (Nat.mod_upper_bound j n).
  destruct (Nat.ltb_spec (i `div` n) (j `div` n)); [done|]. cbn.
  assert (i `div` n = j `div` n) as He by nia. rewrite He, Nat.eqb_refl. cbn. apply Nat.leb_le. nia.
Qed.

Lemma won_slots_valid owner tricks : tricks <= 26 → validate_won_slots layout (won_slots owner tricks) = Ok tricks.
Proof using Hready.
  intros Ht. pose proof (ready_players _ Hready). unfold validate_won_slots.
  assert (length (won_slots owner tricks) = tricks * n) as Hl by (unfold won_slots; by rewrite length_fmap, length_seq).
  destruct (won_slots owner tricks) as [|x l] eqn:Hw; [cbn in Hl; f_equal; nia|]. rewrite <-Hw in *. rewrite Hl, Nat.Div0.mod_mul.
  cbn [Nat.eqb ensure mbind outcome_bind]. unfold won_slots at 1. rewrite zip_seq_fmap. rewrite foldM_unit.
  - cbn [mbind outcome_bind]. rewrite Nat.div_mul by lia. rewrite u8_ok by lia. cbn. by rewrite Nat2Z.id.
  - intros it (k & -> & _)%list_elem_of_fmap. unfold check_won_slot. cbn [fst snd]. by rewrite !Nat.eqb_refl.
Qed.

(** Every captured card is read back, in the order of its slot *)
Lemma revealed_read : flat_map revealed_of (players projection) = revealed_won_cards projection.
Proof using Hready Hsound.
  pose proof (ready_players _ Hready) as Hn.
  set (keys := flat_map (λ player, (λ k, (seat player, k `div` n, k `mod` n)) <$> seq 0 (tricks_won player * n)) (players projection)).
  transitivity (omap (find_key (revealed_won_cards projection)) keys).
  - unfold keys. rewrite omap_flat_map. apply flat_map_ext. intros player. unfold revealed_of, won_slots. rewrite !omap_fmap_comp.
    apply omap_ext_in. intros k _. unfold abstract_won, revealed_face, find_key. cbn [fst snd].
    assert (∀ r, bool_decide (key_of r = (seat player, k `div` n, k `mod` n)) =
      (winner r =? seat player) && (trick r =? k `div` n) && (index r =? k `mod` n)) as He.
    { intros r. apply eq_true_iff_eq. rewrite bool_decide_eq_true, !andb_true_iff, !Nat.eqb_eq. unfold key_of.
      split; [intros [= -> -> ->]; done|intros [[-> ->] ->]; done]. }
    induction (revealed_won_cards projection) as [|r l IH]; [done|]. cbn [List.find]. rewrite He.
    destruct (_ && _) eqn:Hr; [|apply IH]. cbn. rewrite !andb_true_iff, !Nat.eqb_eq in Hr. destruct Hr as [[Hw Ht] Hi].
    f_equal. destruct r; cbn in *; by subst.
  - apply find_keys_sorted; [|apply slots_sorted, (sound_slots _ _ Hsound)|].
    + unfold keys. apply (StronglySorted_flat_map _ (λ x y, seat x < seat y)).
      * intros player. apply StronglySorted_seq. intros i j _ Hij _. right. cbn [fst snd]. split; [done|].
        pose proof (Nat.div_mod_eq i n). pose proof (Nat.div_mod_eq j n). pose proof (Nat.mod_upper_bound i n). pose proof (Nat.mod_upper_bound j n).
        nia.
      * intros x y a b Hxy (i & -> & _)%list_elem_of_fmap (j & -> & _)%list_elem_of_fmap. by left.
      * pose proof (StronglySorted_seq lt id 0 n ltac:(intros; cbn; lia)) as Hs. rewrite list_fmap_id in Hs.
        rewrite <-(sound_seats _ _ Hsound) in Hs. clear -Hs. induction (players projection) as [|x l IH]; [constructor|].
        cbn in Hs. apply StronglySorted_inv in Hs as [Hs Hx]. constructor; [by apply IH|]. rewrite Forall_forall in Hx.
        apply Forall_forall. intros y Hy. apply Hx, list_elem_of_fmap. by exists y.
    + intros r Hr. destruct (sound_revealed _ _ Hsound r Hr) as (player & Hp & Ht & Hi). unfold keys.
      apply list_elem_of_In, in_flat_map. exists player. split; [by apply list_elem_of_In; apply list_elem_of_lookup_2 in Hp|].
      apply list_elem_of_In, list_elem_of_fmap. exists (trick r * n + index r). split.
      * unfold key_of. rewrite (nth_seat _ _ _ players_seats Hp). rewrite Nat.div_add_l, Nat.div_small, Nat.add_0_r by lia.
        by rewrite Nat.add_comm, Nat.Div0.mod_add, Nat.mod_small.
      * apply elem_of_seq. nia.
Qed.
Definition read_step (state : list PlayerSpatialProjection * list RevealedWonCard) (player : PlayerSpatialProjection) :
    list PlayerSpatialProjection * list RevealedWonCard :=
  (state.1 ++ [canonical_player player], state.2 ++ revealed_of player).

Lemma read_steps l a b : fold_left read_step l (a, b) = (a ++ (canonical_player <$> l), b ++ flat_map revealed_of l).
Proof using.
  revert a b. induction l as [|x l IH]; intros a b; cbn [fold_left flat_map fmap list_fmap]; [by rewrite !app_nil_r|].
  unfold read_step at 2. cbn [fst snd]. by rewrite IH, <-!app_assoc.
Qed.

Lemma player_read state i player : players projection !! i = Some player →
  abstract_player layout scene ((λ player, (seat player, score player)) <$> players projection) state i = Ok (read_step state player).
Proof using All.
  intros Hp. pose proof (lookup_lt_Some _ _ _ Hp) as Hi. rewrite players_length in Hi. pose proof (ready_players _ Hready) as Hn.
  pose proof (list_elem_of_lookup_2 _ _ _ Hp) as Hin. destruct (sound_hands _ _ Hsound _ Hin) as [Hcount Hlen]. unfold MAX_HAND_SIZE in Hcount.
  pose proof (nth_seat _ _ _ players_seats Hp) as Hseat. unfold abstract_player, seat_id_new.
  rewrite (proj2 (Nat.ltb_lt _ _) Hi). cbn [ok_or mbind outcome_bind].
  assert (omap (name_text i) (scene_text scene) = [display_name player]) as ->.
  { rewrite <-(sayings_name _ players_seats (scene_cards scene) i player Hp), <-(shows_sayings _ _ _ Hshows). by rewrite omap_fmap_comp. }
  cbn [mbind outcome_bind].
  assert (omap (hand_slot i) (scene_cards scene) = (λ j, (j, hand_face player j)) <$> seq 0 (hand_count player)) as ->.
  { rewrite <-(scene_hand n _ players_seats i player Hp), <-(shows_items _ _ _ Hshows). by rewrite omap_fmap_comp. }
  assert (omap (won_slot i) (scene_cards scene) = won_slots i (tricks_won player)) as ->.
  { unfold won_slots. rewrite <-(scene_won n _ players_seats i player) by (done || lia). rewrite <-(shows_items _ _ _ Hshows). by rewrite omap_fmap_comp. }
  rewrite (sort_by_done (λ one two : nat * option CardFace, one.1 <=? two.1)) by (apply StronglySorted_seq; intros; cbn; apply Nat.leb_le; lia).
  rewrite <-list_fmap_compose. change (fst ∘ (λ j, (j, hand_face player j))) with (λ j : nat, j). rewrite list_fmap_id.
  unfold require_contiguous. rewrite require_contiguous_seq. cbn [mbind outcome_bind].
  rewrite abstract_hand_canonical by done. cbn [mbind outcome_bind].
  rewrite won_slots_sorted, won_slots_valid by (by apply Htricks). cbn [mbind outcome_bind].
  rewrite list_lookup_fmap, Hp. cbn [fmap option_fmap option_map expect mbind outcome_bind snd].
  rewrite length_fmap, length_seq, u8_ok by lia. cbn [ok_or mbind outcome_bind]. rewrite Nat2Z.id.
  unfold read_step, canonical_player, revealed_of. by rewrite Hseat.
Qed.

Lemma shown_read : abstract_viewer_scene layout scene = Ok (canonical projection).
Proof using All.
  unfold abstract_viewer_scene. rewrite (shows_layout _ _ _ Hshows), (shows_table _ _ _ Hshows), Z.eqb_refl, bool_decide_eq_true_2 by done.
  cbn [andb ensure mbind outcome_bind].
  assert (length (scene_cards scene) = 52) as ->.
  { rewrite <-(length_fmap item_of), (shows_items _ _ _ Hshows). pose proof (sound_deck _ _ Hsound). unfold scene_items, deck_items, STANDARD_DECK_SIZE in *.
    rewrite length_app, length_fmap, length_seq. lia. }
  rewrite (shows_valid _ _ _ Hshows). cbn [STANDARD_DECK_SIZE Nat.eqb ensure map_err mbind outcome_bind].
  unfold abstract_players. rewrite score_sheet_read. cbn [map_err mbind outcome_bind]. rewrite <-players_length.
  rewrite (foldM_ordinals _ read_step) by (intros; by apply player_read). rewrite read_steps. cbn [mbind outcome_bind app fst snd].
  assert (abstract_trump scene = Ok (trump projection)) as ->.
  { unfold abstract_trump. pose proof (scene_trump n projection) as Ht. rewrite <-(shows_items _ _ _ Hshows), filter_fmap in Ht.
    change (λ card, bool_decide (card_location card = LocTrump)) with (λ card, is_trump_item (item_of card)). unfold trump_items in Ht.
    destruct (List.filter _ _) as [|card [|c cs]]; cbn in Ht; destruct (trump projection) as [face|]; cbn in Ht; try done.
    injection Ht as Hl Hf. by rewrite Hf. }
  cbn [mbind outcome_bind].
  assert (filter_mapM abstract_played (scene_cards scene) = Ok (current_trick projection)) as ->.
  { rewrite <-(scene_trick n projection), <-(shows_items _ _ _ Hshows), <-filter_mapM_view. done. }
  cbn [mbind outcome_bind].
  assert (validate_deck scene = Ok tt) as ->.
  { unfold validate_deck. destruct (scene_deck n projection) as [k Hk]. rewrite <-(shows_items _ _ _ Hshows), omap_fmap_comp in Hk.
    change (λ x, deck_of (item_of x)) with deck_slot in Hk. rewrite Hk.
    rewrite sort_by_done by (apply StronglySorted_seq; intros; cbn; apply Nat.leb_le; lia).
    rewrite <-list_fmap_compose. change (fst ∘ (λ i : nat, (i, @None CardFace))) with (λ j : nat, j). rewrite list_fmap_id.
    unfold require_contiguous. rewrite require_contiguous_seq. cbn [mbind outcome_bind]. apply ensure_Ok, negb_true_iff, existsb_false_iff, Forall_fmap, Forall_forall.
    intros x _. done. }
  cbn [mbind outcome_bind]. rewrite revealed_read, (shows_epoch _ _ _ Hshows). done.
Qed.
End Abstract.
