(* ===== verification/SpatialTheorems.v ===== *)
(** * Properties of the spatial refinement

    Classification of a released object, the round trip of realization and abstraction,
    typed and dragged plays, the fingerprint of a scene, the shared pose of a card. *)

From Stdlib Require Import ZifyBool.
From stdpp Require Import base strings numbers option list sorting.
From S2P Require Import Prelude Methods Protocol ProtocolTheorems Bytes Spatial SpatialRealize SpatialRound SpatialPlay.

(** ** Classification *)

(** A box whose corners are in order, as [AabbMm::new] makes them *)
Definition box_ordered (b : AabbMm) : Prop :=
  (p_x (box_min b) ≤ p_x (box_max b) ∧ p_y (box_min b) ≤ p_y (box_max b) ∧ p_z (box_min b) ≤ p_z (box_max b))%Z.

(** Two volumes that both meet a box inside one of them meet each other *)
Lemma contained_meets a b c : box_ordered c → contains_aabb a c = true → intersects b c = true → intersects a b = true.
Proof. unfold box_ordered, contains_aabb, contains, intersects. lia. Qed.

Lemma contains_trans a b c : box_ordered c → contains_aabb a b = true → contains_aabb b c = true → contains_aabb a c = true.
Proof. unfold box_ordered, contains_aabb, contains. lia. Qed.

Lemma contained_intersects a c : box_ordered c → contains_aabb a c = true → intersects a c = true.
Proof. unfold box_ordered, contains_aabb, contains, intersects. lia. Qed.

Lemma intersects_sym a b : intersects a b = intersects b a.
Proof. apply eq_true_iff_eq. unfold intersects. lia. Qed.

Record layout_sound (layout : SpatialLayout) : Prop := {
  ls_distinct : NoDup (zone_id <$> zones layout);
  ls_nested : ∀ zone, zone ∈ zones layout → contains_aabb (outer zone) (inner zone) = true;
  ls_bounded : ∀ zone, zone ∈ zones layout → aabb_is_within_table_bounds (inner zone) = true;
  ls_apart : ∀ i j a b, zones layout !! i = Some a → zones layout !! j = Some b → i ≠ j → intersects (outer a) (outer b) = false }.

Lemma overlaps_apart l : validate_overlaps l = Ok tt → ∀ i j a b, i < j → l !! i = Some a → l !! j = Some b →
  intersects (outer a) (outer b) = false.
Proof.
  induction l as [|x l IH]; cbn [validate_overlaps]; intros Hv i j a b Hij Hi Hj; [done|].
  apply bind_Ok in Hv as ([] & Hx & Hv). destruct j as [|j]; [lia|]. destruct i as [|i]; [|apply (IH Hv i j); [lia|done..]].
  cbn in Hi, Hj. injection Hi as <-. clear -Hx Hj. revert j Hj. induction l as [|y l IH]; intros j Hj; [done|].
  cbn in Hx. apply bind_Ok in Hx as ([] & Hy & Hx). destruct j as [|j]; [|by apply (IH Hx j)].
  cbn in Hj. injection Hj as <-. unfold validate_apart in Hy. apply bind_Ok in Hy as (_ & _ & Hy%ensure_Ok). by apply negb_true_iff.
Qed.

Lemma zones_nested l : foldM validate_zone l tt = Ok tt → ∀ zone, zone ∈ l →
  contains_aabb (outer zone) (inner zone) = true ∧ aabb_is_within_table_bounds (inner zone) = true.
Proof.
  induction l as [|x l IH]; intros Hf zone Hin; [by apply elem_of_nil in Hin|]. cbn in Hf. apply bind_Ok in Hf as ([] & Hx & Hf).
  apply elem_of_cons in Hin as [->|Hin]; [|by apply IH]. unfold validate_zone in Hx.
  by apply bind_Ok in Hx as (_ & [Hi _]%ensure_Ok%andb_true_iff & Hx%ensure_Ok).
Qed.

(** What lies in a box within the table bounds is within them *)
Lemma contained_bounded a b : contains_aabb a b = true → aabb_is_within_table_bounds a = true → aabb_is_within_table_bounds b = true.
Proof.
  unfold contains_aabb, contains, aabb_is_within_table_bounds, point_is_within_table_bounds, coordinate_is_bounded. lia.
Qed.

Lemma remove_dups_length {A} `{EqDecision A} (l : list A) : length (remove_dups l) = length l → NoDup l.
Proof.
  assert (∀ k : list A, length (remove_dups k) <= length k) as Hle.
  { induction k as [|x k IH]; [done|]. cbn. case_decide; cbn; lia. }
  induction l as [|x l IH]; [constructor|]. cbn. case_decide as Hx; cbn; intros Hl.
  - specialize (Hle l). lia.
  - constructor; [done|]. apply IH. lia.
Qed.

Lemma validated_layout layout : layout_validate layout = Ok tt → layout_sound layout.
Proof.
  intros Hv. unfold layout_validate in Hv. do 6 (apply bind_Ok in Hv as (? & _ & Hv)). apply bind_Ok in Hv as (expected & _ & Hv).
  apply bind_Ok in Hv as (? & [_ Hlen%Nat.eqb_eq]%ensure_Ok%andb_true_iff & Hv). apply bind_Ok in Hv as ([] & Hn & Ho). split.
  - apply remove_dups_length. by rewrite Hlen, length_fmap.
  - intros zone Hz. by apply (zones_nested _ Hn).
  - intros zone Hz. by apply (zones_nested _ Hn).
  - intros i j a b Hi Hj Hne. destruct (Nat.lt_total i j) as [Hlt|[Heq|Hlt]]; [|done|].
    + by apply (overlaps_apart _ Ho i j).
    + rewrite intersects_sym. by apply (overlaps_apart _ Ho j i).
Qed.

(** The zones whose outer volume a box touches *)
Definition touched (layout : SpatialLayout) (bounds : AabbMm) : list ZoneVolume :=
  List.filter (λ zone, intersects (outer zone) bounds) (zones layout).

Lemma unique_zone_ids_nil l : NoDup l → unique_zone_ids [] l = l.
Proof.
  intros Hn. unfold unique_zone_ids. cut (∀ acc, NoDup (acc ++ l) → fold_left (λ ids id, if bool_decide (id ∈ ids) then ids else ids ++ [id]) l acc = acc ++ l).
  { intros Hc. by apply (Hc []). }
  clear Hn. induction l as [|x l IH]; intros acc Hn; cbn; [by rewrite app_nil_r|].
  rewrite bool_decide_eq_false_2.
  - rewrite IH; by rewrite <-app_assoc.
  - apply NoDup_app in Hn as (_ & Hd & _). intros Hin. apply (Hd x Hin). left.
Qed.

Lemma touched_alone layout bounds zone : layout_sound layout → box_ordered bounds → zone ∈ zones layout →
  contains_aabb (inner zone) bounds = true → touched layout bounds = [zone].
Proof.
  intros Hs Hb [i Hi]%list_elem_of_lookup Hc.
  assert (contains_aabb (outer zone) bounds = true) as Ho.
  { apply contains_trans with (inner zone); [done| |done]. apply (ls_nested _ Hs). by apply list_elem_of_lookup_2 in Hi. }
  assert (∀ j b, zones layout !! j = Some b → intersects (outer b) bounds = true → j = i) as Honly.
  { intros j b Hj Ht. destruct (decide (j = i)) as [|Hne]; [done|exfalso].
    pose proof (ls_apart _ Hs i j zone b Hi Hj (not_eq_sym Hne)) as Ha. rewrite (contained_meets _ _ bounds) in Ha; done. }
  unfold touched. apply list_elem_of_split_length in Hi as (l1 & l2 & Hz & Hl). rewrite Hz, List.filter_app. cbn.
  rewrite (contained_intersects _ _ Hb Ho).
  assert (∀ l, (∀ b, b ∈ l → intersects (outer b) bounds = false) → List.filter (λ zone, intersects (outer zone) bounds) l = []) as Hnone.
  { clear. intros l. induction l as [|b l IH]; intros Hf; [done|]. cbn. rewrite Hf by left. apply IH. intros c Hc. apply Hf. by right. }
  rewrite !Hnone; [done|..]; intros b [j Hj]%list_elem_of_lookup; destruct (intersects (outer b) bounds) eqn:Ht; try done; exfalso.
  - assert (S (i + j) = i) as Hbad; [|lia]. apply (Honly _ b); [|done]. rewrite Hz, lookup_app_r by lia.
    replace (S (i + j) - length l1) with (S j) by lia. done.
  - assert (j = i) as Hbad; [|apply lookup_lt_Some in Hj; lia]. apply (Honly _ b); [|done]. rewrite Hz. by apply lookup_app_l_Some.
Qed.

Lemma touched_NoDup layout bounds : layout_sound layout → NoDup (zone_id <$> touched layout bounds).
Proof.
  intros Hs. pose proof (ls_distinct _ Hs) as Hn. unfold touched. revert Hn. generalize (zones layout). intros l.
  induction l as [|x l IH]; cbn; [done|]. intros [Hx Hn]%NoDup_cons. destruct (intersects _ _); cbn; [|by apply IH].
  constructor; [|by apply IH]. intros (y & He & Hy)%list_elem_of_fmap. apply Hx, list_elem_of_fmap. exists y. split; [done|].
  apply list_elem_of_In, List.filter_In in Hy as [Hy _]. by apply list_elem_of_In.
Qed.

(** A point cannot touch two outer volumes *)
Lemma touched_point layout p : layout_sound layout → length (touched layout {| box_min := p; box_max := p |}) <= 1.
Proof.
  intros Hs. destruct (touched layout _) as [|a [|b l]] eqn:Ht; [cbn; lia..|exfalso].
  assert (∃ i j, i ≠ j ∧ zones layout !! i = Some a ∧ zones layout !! j = Some b ∧
    intersects (outer a) {| box_min := p; box_max := p |} = true ∧ intersects (outer b) {| box_min := p; box_max := p |} = true) as (i & j & Hne & Hi & Hj & Ha & Hb).
  { pose proof (touched_NoDup layout {| box_min := p; box_max := p |} Hs) as Hn. rewrite Ht in Hn.
    assert (a ∈ touched layout {| box_min := p; box_max := p |} ∧ b ∈ touched layout {| box_min := p; box_max := p |}) as [Ha Hb].
    { rewrite Ht. split; [left|right; left]. }
    apply list_elem_of_In, List.filter_In in Ha as [Ha Hia], Hb as [Hb Hib]. apply list_elem_of_In, list_elem_of_lookup in Ha as [i Hi], Hb as [j Hj].
    exists i, j. split_and!; [|done..]. intros ->. rewrite Hi in Hj. injection Hj as ->. cbn in Hn. apply NoDup_cons in Hn as [Hx _]. apply Hx. left. }
  pose proof (ls_apart _ Hs i j a b Hi Hj Hne) as Hapart. clear -Ha Hb Hapart. unfold intersects in *. cbn in *. lia.
Qed.

Lemma i32_checked_Some x y : i32_checked x = Some y → y = x.
Proof. unfold i32_checked. destruct (in_i32 x); naive_solver. Qed.

Lemma point_box p b : aabb_from_center p (half_extents_new 0 0 0) = Some b →
  b = {| box_min := p; box_max := p |} ∧ aabb_is_within_table_bounds b = true.
Proof.
  intros Hc. unfold aabb_from_center, aabb_new in Hc. cbn [h_x h_y h_z] in Hc.
  repeat (apply bind_Some in Hc as (? & ->%i32_checked_Some & Hc)).
  rewrite !Z.sub_0_r, !Z.add_0_r, !Z.leb_refl in Hc. destruct p as [x y z]. cbn [p_x p_y p_z andb] in Hc.
  destruct (point_is_within_table_bounds (point x y z)) eqn:Hin; cbn [andb] in Hc; [|done]. injection Hc as <-.
  split; [done|]. unfold aabb_is_within_table_bounds. cbn [box_min box_max]. by rewrite Hin.
Qed.

Lemma aabb_new_ordered low high b : aabb_new low high = Some b → box_ordered b.
Proof. unfold aabb_new, box_ordered. destruct (_ && _)%bool eqn:Ho; [|done]. intros [= <-]. cbn. lia. Qed.

(** [C40] A released card's box, as its constructor makes it, is classified by the zones
    of a validated layout without an arbitrary choice: out of bounds exactly when it
    leaves the table bounds; otherwise free when it touches no outer volume, in the dead
    band of the one it touches, snapped when it lies wholly in that zone's inner volume,
    ambiguous with exactly the touched zones, in order, when there are several.  A box
    inside an inner volume, even one not known to be on the table, snaps to that zone,
    and a point is never ambiguous. *)
Theorem classification_exact layout low high bounds : layout_validate layout = Ok tt → aabb_new low high = Some bounds →
  classify_bounds layout bounds =
    (if aabb_is_within_table_bounds bounds then
       match touched layout bounds with
       | [] => Free
       | [zone] => if contains_aabb (inner zone) bounds then Snapped (zone_id zone) else DeadBand (zone_id zone)
       | several => Ambiguous (zone_id <$> several)
       end
     else OutOfBounds) ∧
  (∀ zone, zone ∈ zones layout → contains_aabb (inner zone) bounds = true → classify_bounds layout bounds = Snapped (zone_id zone)) ∧
  (∀ point zones, classify_point layout point ≠ Ambiguous zones).
Proof.
  intros Hv%validated_layout Hb%aabb_new_ordered.
  assert (∀ b, box_ordered b → aabb_is_within_table_bounds b = true → classify_bounds layout b =
    match touched layout b with
    | [] => Free
    | [zone] => if contains_aabb (inner zone) b then Snapped (zone_id zone) else DeadBand (zone_id zone)
    | several => Ambiguous (zone_id <$> several)
    end) as Hclass.
  { clear bounds Hb. intros b Hb Hin. unfold classify_bounds. rewrite Hin. cbn [negb].
    change (List.filter (λ zone, intersects (outer zone) b) (zones layout)) with (touched layout b).
    destruct (List.filter (λ zone, contains_aabb (inner zone) b) (zones layout)) as [|zone rest] eqn:Hi.
    - assert (∀ zone, zone ∈ touched layout b → contains_aabb (inner zone) b = false) as Hnone.
      { intros zone Hz%list_elem_of_In. apply List.filter_In in Hz as [Hz _]. destruct (contains_aabb (inner zone) b) eqn:Hc; [|done].
        assert (In zone (List.filter (λ zone, contains_aabb (inner zone) b) (zones layout))) as Hx by (by apply List.filter_In).
        by rewrite Hi in Hx. }
      pose proof (touched_NoDup layout b Hv) as Hn. destruct (touched layout b) as [|x [|y l]]; cbn [fmap list_fmap]; [done| |].
      + by rewrite Hnone by left.
      + f_equal. by apply unique_zone_ids_nil.
    - assert (In zone (List.filter (λ zone, contains_aabb (inner zone) b) (zones layout))) as Hz by (rewrite Hi; by left).
      apply List.filter_In in Hz as [Hz%list_elem_of_In Hc]. pose proof (touched_alone layout b zone Hv Hb Hz Hc) as Ht. rewrite Ht, Hc.
      destruct rest as [|other rest]; [by cbn; rewrite bool_decide_eq_true_2|exfalso].
      assert (In other (List.filter (λ zone, contains_aabb (inner zone) b) (zones layout))) as Ho by (rewrite Hi; right; by left).
      apply List.filter_In in Ho as [Ho%list_elem_of_In Hco]. pose proof (touched_alone layout b other Hv Hb Ho Hco) as Ht'.
      rewrite Ht in Ht'. injection Ht' as <-.
      assert (NoDup (zone :: zone :: rest)) as Hn.
      { rewrite <-Hi. apply NoDup_ListNoDup, List.NoDup_filter, NoDup_ListNoDup. eapply NoDup_fmap_1, (ls_distinct _ Hv). }
      apply NoDup_cons in Hn as [Hx _]. apply Hx. left. }
  split_and!.
  - destruct (aabb_is_within_table_bounds bounds) eqn:Hin; [by apply Hclass|]. unfold classify_bounds. by rewrite Hin.
  - intros zone Hz Hc. pose proof (contained_bounded _ _ Hc (ls_bounded _ Hv zone Hz)) as Hin. rewrite (Hclass _ Hb Hin), (touched_alone layout bounds zone) by done. by rewrite Hc.
  - intros p zs. unfold classify_point. destruct (aabb_from_center _ _) as [b|] eqn:Hc; [|done].
    assert (b = {| box_min := p; box_max := p |} ∧ aabb_is_within_table_bounds b = true) as [-> Hbounds].
    { by apply point_box. }
    rewrite Hclass; [|unfold box_ordered; cbn; lia|done]. pose proof (touched_point layout p Hv).
    destruct (touched layout _) as [|x [|y l]]; [done| |cbn in *; lia]. by case_match.
Qed.

(** ** Realization and abstraction *)

Lemma foldM_no_Panic {E A B} (f : A → B → outcome E A) l a : (∀ a x, x ∈ l → f a x ≠ Panic) → foldM f l a ≠ Panic.
Proof.
  revert a. induction l as [|x l IH]; intros a Hf; [done|]. cbn. destruct (f a x) as [a'| |] eqn:Hx; [|done|].
  - apply IH. intros b y Hy. apply Hf. by right.
  - exfalso. by apply (Hf a x ltac:(left)).
Qed.

Lemma bind_no_Panic {E A B} (m : outcome E A) (f : A → outcome E B) : m ≠ Panic → (∀ a, m = Ok a → f a ≠ Panic) → m ≫= f ≠ Panic.
Proof. intros Hm Hf. destruct m; [by apply Hf|done|done]. Qed.

Lemma ensure_no_Panic {E} b (e : E) : ensure b e ≠ Panic.
Proof. by destruct b. Qed.

Lemma ok_or_no_Panic {E A} (m : option A) (e : E) : ok_or m e ≠ Panic.
Proof. by destruct m. Qed.

Lemma insert_new_no_Panic {E A} `{EqDecision A} (set : list A) x (e : E) : insert_new set x e ≠ Panic.
Proof. unfold insert_new. by case_bool_decide. Qed.

Ltac no_panic := repeat match goal with
  | |- mbind _ _ ≠ Panic => apply bind_no_Panic; [|intros ? ?]
  | |- ensure _ _ ≠ Panic => apply ensure_no_Panic
  | |- ok_or _ _ ≠ Panic => apply ok_or_no_Panic
  | |- insert_new _ _ _ ≠ Panic => apply insert_new_no_Panic
  | |- foldM _ _ _ ≠ Panic => apply foldM_no_Panic; intros ? ? ?
  | |- Ok _ ≠ Panic => done
  end.

Lemma ordered_players_no_Panic layout projection : ordered_players layout projection ≠ Panic.
Proof.
  unfold ordered_players. no_panic. unfold ordered_player. no_panic.
  - apply elem_of_seq in H. unfold seat_id_new. by rewrite (proj2 (Nat.ltb_lt _ _)) by lia.
  - repeat case_match; done.
Qed.

Lemma validate_projection_no_Panic layout projection : validate_projection layout projection ≠ Panic.
Proof.
  unfold validate_projection. no_panic; [apply ordered_players_no_Panic|..].
  - unfold account_player. case_match. no_panic. case_match; no_panic. unfold known_face. no_panic.
  - unfold account_played, known_face. case_match. no_panic.
  - unfold account_won, known_face. case_match. no_panic.
Qed.

(** The identifier of a registered layout: its players and revision one *)
Definition layout_of (players : nat) : LayoutId := {| l_players := players; l_revision := 1 |}.

Lemma registered_ready t players layout : registered_layout t (layout_of players) = Ok layout → 2 <= players <= 8 →
  layout_id layout = layout_of players ∧ table_id layout = t ∧ ready layout = true ∧ layout_validate layout = Ok tt.
Proof. intros Hl Hp. by apply (registered_layout_ready t (layout_of players)). Qed.

(** [C38] Every table of two to eight players has a registered, valid layout.  On it a
    viewer's projection is realized exactly when it validates, as a valid scene of
    fifty-two cards, and reading that scene back gives the projection; only an empty hand
    reads as a hidden one.  A projection that does not validate is refused with the
    validation's error, without a panic. *)
Theorem realization_round_trip t players projection : 2 <= players <= 8 → typed projection → ∃ layout,
  registered_layout t (layout_of players) = Ok layout ∧ layout_validate layout = Ok tt ∧
  match validate_projection layout projection with
  | Ok _ => ∃ scene, realize_viewer_scene layout projection = Ok scene ∧ scene_validate scene = Ok tt ∧
      length (scene_cards scene) = STANDARD_DECK_SIZE ∧ abstract_viewer_scene layout scene = Ok (canonical projection)
  | Err e => realize_viewer_scene layout projection = Err e
  | Panic => False
  end.
Proof.
  intros Hp Ht. pose proof (registered_layouts_exist t players Hp) as He. change {| l_players := players; l_revision := 1 |} with (layout_of players) in He.
  destruct (registered_layout t (layout_of players)) as [layout| |] eqn:Hl; [|done..]. exists layout.
  destruct (registered_ready _ _ _ Hl Hp) as (Hid & _ & Hready & Hvalid). split_and!; [done|done|].
  pose proof (validate_projection_no_Panic layout projection) as Hno.
  destruct (validate_projection layout projection) as [[]|e|] eqn:Hv; [|unfold realize_viewer_scene; by rewrite Hv|done].
  destruct (realize_total layout projection Hready Hv Ht) as (scene & Hs & Hshows). exists scene. split_and!; [done|apply Hshows| |].
  - rewrite <-(length_fmap item_of), (shows_items _ _ _ Hshows). by apply scene_items_length.
  - apply shown_read; [done|by apply validated_sound|done|done|]. intros player Hin. by apply (sound_tricks layout projection Hready Hv).
Qed.

(** ** Plays *)

Lemma fmap_flat_map {A B C} (f : B → C) (g : A → list B) l : f <$> flat_map g l = flat_map (λ x, f <$> g x) l.
Proof. induction l as [|x l IH]; [done|]. cbn [flat_map]. by rewrite fmap_app, IH. Qed.

Lemma NoDup_omap_inj {A B} (f : A → option B) (l : list A) x y b : NoDup (omap f l) → x ∈ l → y ∈ l → f x = Some b → f y = Some b → x = y.
Proof.
  induction l as [|a l IH]; cbn; intros Hn Hx Hy Hfx Hfy; [by apply elem_of_nil in Hx|].
  assert (∀ z, z ∈ l → f z = Some b → b ∈ omap f l) as Hin by (intros z ??; apply list_elem_of_omap; by exists z).
  apply elem_of_cons in Hx as [->|Hx], Hy as [->|Hy]; [done|..].
  - rewrite Hfx in Hn. apply NoDup_cons in Hn as [Hn _]. destruct Hn. eauto.
  - rewrite Hfy in Hn. apply NoDup_cons in Hn as [Hn _]. destruct Hn. eauto.
  - apply IH; [|done..]. destruct (f a); [by apply NoDup_cons in Hn as [_ Hn]|done].
Qed.

Lemma filter_unique {A} (P : A → bool) (l : list A) x : NoDup l → x ∈ l → P x = true → (∀ y, y ∈ l → P y = true → y = x) → List.filter P l = [x].
Proof.
  induction l as [|a l IH]; intros Hn Hx HP Hu; [by apply elem_of_nil in Hx|]. apply NoDup_cons in Hn as [Ha Hn]. cbn.
  assert (∀ l', (∀ y, y ∈ l' → y ≠ x) → (∀ y, y ∈ l' → P y = true → y = x) → List.filter P l' = []) as Hnone.
  { clear. induction l' as [|b l' IH]; intros Hne Hu; [done|]. cbn. destruct (P b) eqn:Hb.
    - destruct (Hne b); [left|]. apply Hu; [left|done].
    - apply IH; intros y Hy; [apply Hne|apply Hu]; by right. }
  apply elem_of_cons in Hx as [<-|Hx].
  - rewrite HP. f_equal. apply Hnone; intros y Hy; [intros ->; done|apply Hu; by right].
  - destruct (P a) eqn:Hpa; [|apply IH; [done..|intros y Hy; apply Hu; by right]].
    assert (a = x) as -> by (apply Hu; [left|done]). done.
Qed.

Section Plays.
Context (layout : SpatialLayout) (projection : ViewerSpatialProjection) (scene : SpatialScene).
Local Notation n := (l_players (layout_id layout)).
Hypothesis (Hready : ready layout = true) (Hvalid : validate_projection layout projection = Ok tt) (Hshows : shows layout projection scene).

Lemma hand_items_faces player : (∀ hand, visible_hand player = Some hand → length hand = hand_count player) →
  omap snd (hand_items player) = hand_faces player.
Proof using.
  clear. intros Hlen. unfold hand_items, hand_faces, hand_face. rewrite omap_fmap_comp. cbn [snd].
  destruct (visible_hand player) as [hand|]; cbn [mbind option_bind default].
  - rewrite <-(Hlen hand eq_refl). clear. induction hand as [|x hand IH] using rev_ind; [done|].
    rewrite length_app, Nat.add_1_r, seq_S, omap_app. cbn. rewrite lookup_app_r, Nat.sub_diag by done. cbn.
    rewrite <-IH at 2. f_equal. apply omap_ext_in. intros i [_ Hi]%elem_of_seq. by rewrite lookup_app_l.
  - by apply omap_none.
Qed.

(** The faces a scene shows are those the projection knows, each once *)
Lemma scene_faces : NoDup (omap card_face (scene_cards scene)).
Proof using Hready Hvalid Hshows.
  pose proof (realize_sound layout projection Hready Hvalid) as Hs. pose proof (ready_players _ Hready) as Hn.
  assert (omap card_face (scene_cards scene) = known_faces projection) as ->; [|apply (sound_faces _ _ Hs)].
  transitivity (omap snd (item_of <$> scene_cards scene)); [by rewrite omap_fmap_comp|].
  rewrite (shows_items _ _ _ Hshows). unfold scene_items, front_items, known_faces. rewrite !omap_app, !omap_flat_map.
  assert (∀ k, omap snd (deck_items k) = []) as -> by (intros k; unfold deck_items; rewrite omap_fmap_comp; by apply omap_none).
  rewrite app_nil_r. f_equal; [unfold trump_items; by destruct (trump projection)|]. f_equal; [|f_equal].
  - pose proof (sound_hands _ _ Hs) as Hh. clear -Hh. induction (players projection) as [|x l IH]; [done|]. cbn [flat_map].
    rewrite hand_items_faces by (apply Hh; left). f_equal. apply IH. intros y Hy. apply Hh. by right.
  - rewrite omap_fmap_comp. apply omap_some.
  - rewrite <-(revealed_read layout projection Hready Hs). rewrite fmap_flat_map. apply flat_map_ext. intros player.
    unfold revealed_of, won_slots, won_items. rewrite rows_numbered by lia. rewrite !omap_fmap_comp. cbn [snd].
    generalize (seq 0 (tricks_won player * n)). intros ks. induction ks as [|k ks IH]; [done|]. cbn.
    destruct (revealed_face _ _ _ _); cbn; by rewrite IH.
Qed.
Lemma face_card_unique c c' face : c ∈ scene_cards scene → c' ∈ scene_cards scene → card_face c = Some face → card_face c' = Some face → c = c'.
Proof using Hready Hvalid Hshows. apply NoDup_omap_inj, scene_faces. Qed.

Lemma filter_face c face : c ∈ scene_cards scene → card_face c = Some face →
  List.filter (λ card, bool_decide (card_face card = Some face)) (scene_cards scene) = [c].
Proof using Hready Hvalid Hshows.
  intros Hc Hf. apply filter_unique; [|done|by apply bool_decide_eq_true|].
  - eapply NoDup_fmap_1, (dealt_NoDup layout (view_epoch projection)), (shows_dealt _ _ _ Hshows).
  - intros c' Hc' Hf'%bool_decide_eq_true. by apply (face_card_unique c' c face).
Qed.

Lemma validate_layout_ok : validate_layout layout scene = Ok tt.
Proof using Hshows.
  unfold validate_layout. rewrite (shows_layout _ _ _ Hshows), (shows_table _ _ _ Hshows), Z.eqb_refl. by rewrite bool_decide_eq_true_2.
Qed.

(** The play a card of a hand becomes *)
Definition play_of (owner : SeatId) (card : CardObject) (face : CardFace) : ResolvedCardPlay :=
  {| resolved_face := face;
     record := {| record_object := card_id card; record_face := face; source := card_location card; destination := LocPlay owner;
                  source_pose := card_at card; duration_milliseconds := DEFAULT_TWEEN_MILLISECONDS; easing := SmoothStep |} |}.

Lemma resolved_play_ok owner card face : card ∈ scene_cards scene → in_hand_of owner card = true → card_face card = Some face →
  resolved_play layout card owner = Ok (play_of owner card face).
Proof using Hready Hshows.
  intros [i Hi]%list_elem_of_lookup Hh Hf. destruct (shows_dealt _ _ _ Hshows _ _ Hi) as (_ & _ & Hfit & _).
  unfold resolved_play. rewrite Hf, Hh. cbn [ensure mbind outcome_bind]. unfold in_hand_of in Hh.
  unfold reconstruct_animation_endpoint. cbn [source destination].
  destruct (card_location card) as [| |s j| |] eqn:Hl; try done. apply Nat.eqb_eq in Hh. subst s. cbn in Hfit.
  rewrite Nat.eqb_refl. cbn [ensure mbind outcome_bind].
  destruct (card_pose_ready layout Hready (LocPlay owner) 1) as (pose & Hpose & _); [cbn; lia|lia|].
  rewrite Hpose. cbn [map_err mbind outcome_bind]. unfold play_of. by rewrite Hl.
Qed.

Lemma card_play_exact owner face play : resolve_card_play layout scene owner face = Ok play ↔
  ∃ card, card ∈ scene_cards scene ∧ in_hand_of owner card = true ∧ card_face card = Some face ∧ play = play_of owner card face.
Proof using Hready Hvalid Hshows.
  unfold resolve_card_play. rewrite validate_layout_ok. cbn [mbind outcome_bind]. split.
  - destruct (List.filter (in_hand_of owner) _) as [|card [|c cs]] eqn:Hf; [repeat case_match; done| |done].
    assert (In card (List.filter (in_hand_of owner) (List.filter (λ card, bool_decide (card_face card = Some face)) (scene_cards scene)))) as Hin
      by (rewrite Hf; by left).
    apply List.filter_In in Hin as [[Hin%list_elem_of_In Hface%bool_decide_eq_true]%List.filter_In Hh].
    rewrite (resolved_play_ok owner card face) by done. intros [= <-]. by exists card.
  - intros (card & Hin & Hh & Hface & ->). rewrite (filter_face card) by done. cbn [List.filter]. rewrite Hh. by apply resolved_play_ok.
Qed.

Lemma drag_play_exact owner object bounds play : resolve_drag_play layout scene owner object bounds = Ok play ↔
  classify_bounds layout bounds = Snapped ZonePlay ∧
  ∃ card face, card ∈ scene_cards scene ∧ card_id card = object ∧ in_hand_of owner card = true ∧ card_face card = Some face ∧
    play = play_of owner card face.
Proof using Hready Hvalid Hshows.
  unfold resolve_drag_play. rewrite validate_layout_ok. cbn [mbind outcome_bind]. split.
  - intros Hd. apply bind_Ok in Hd as (card & [Hin Hid%bool_decide_eq_true]%ok_or_Ok%List_find_Some & Hd).
    apply bind_Ok in Hd as (? & Hh%ensure_Ok & Hd). apply bind_Ok in Hd as (? & [face Hface]%ensure_Ok%bool_decide_eq_true & Hd).
    rewrite (resolved_play_ok owner card face) in Hd by done. destruct (classify_bounds layout bounds) as [[| | | |]| | | |]; try done.
    injection Hd as <-. split; [done|]. by exists card, face.
  - intros (Hc & card & face & Hin & <- & Hh & Hface & ->).
    rewrite (dealt_find layout (view_epoch projection)) by (done || apply (shows_dealt _ _ _ Hshows)). cbn [ok_or mbind outcome_bind].
    rewrite Hh, Hface, Hc. cbn [ensure mbind outcome_bind]. rewrite bool_decide_eq_true_2 by (by eexists). by apply resolved_play_ok.
Qed.

(** The slots of a hand hold the faces its viewer sees there *)
Lemma hand_slots owner player : players projection !! owner = Some player →
  omap (hand_slot owner) (scene_cards scene) = (λ j, (j, hand_face player j)) <$> seq 0 (hand_count player).
Proof using Hready Hvalid Hshows.
  intros Hp. pose proof (realize_sound layout projection Hready Hvalid) as Hs.
  rewrite <-(scene_hand n _ (players_seats layout projection Hs) owner player Hp), <-(shows_items _ _ _ Hshows). by rewrite omap_fmap_comp.
Qed.

(** A card of a hand that shows its face lies in the slot of that face *)
Lemma hand_card_slot owner card face : card ∈ scene_cards scene → in_hand_of owner card = true → card_face card = Some face →
  ∃ slot player hand, card_location card = LocHand owner slot ∧ players projection !! owner = Some player ∧
    visible_hand player = Some hand ∧ hand !! slot = Some face.
Proof using Hready Hvalid Hshows.
  intros Hin Hh Hface. pose proof Hin as [i Hi]%list_elem_of_lookup.
  destruct (shows_dealt _ _ _ Hshows _ _ Hi) as (_ & _ & Hfit & _). unfold in_hand_of in Hh.
  destruct (card_location card) as [| |s j| |] eqn:Hl; try done. apply Nat.eqb_eq in Hh. subst s. cbn in Hfit.
  destruct (lookup_lt_is_Some_2 (players projection) owner) as [player Hp]; [rewrite (sound_length layout projection Hready Hvalid); lia|].
  assert ((j, Some face) ∈ omap (hand_slot owner) (scene_cards scene)) as Hslot.
  { apply list_elem_of_omap. exists card. split; [done|]. unfold hand_slot. by rewrite Hl, Nat.eqb_refl, Hface. }
  rewrite (hand_slots _ _ Hp) in Hslot. apply list_elem_of_fmap in Hslot as (k & [= -> Hf] & _). unfold hand_face in Hf.
  destruct (visible_hand player) as [hand|] eqn:Hv; [|done]. cbn in Hf. by exists k, player, hand.
Qed.

(** The cards a seat can play are the faces its viewer sees in that hand *)
Lemma hand_card_exact owner face :
  (∃ card, card ∈ scene_cards scene ∧ in_hand_of owner card = true ∧ card_face card = Some face) ↔
  ∃ player hand, players projection !! owner = Some player ∧ visible_hand player = Some hand ∧ face ∈ hand.
Proof using Hready Hvalid Hshows.
  split.
  - intros (card & Hin & Hh & Hface). destruct (hand_card_slot owner card face Hin Hh Hface) as (slot & player & hand & _ & Hp & Hv & Hj).
    exists player, hand. split_and!; [done..|]. by eapply list_elem_of_lookup_2.
  - intros (player & hand & Hp & Hv & [j Hj]%list_elem_of_lookup). pose proof (realize_sound layout projection Hready Hvalid) as Hs.
    assert ((j, Some face) ∈ omap (hand_slot owner) (scene_cards scene)) as Hslot.
    { rewrite (hand_slots _ _ Hp). apply list_elem_of_fmap. exists j. unfold hand_face. rewrite Hv. cbn. rewrite Hj. split; [done|].
      apply elem_of_seq. apply list_elem_of_lookup_2 in Hp. rewrite <-(proj2 (sound_hands _ _ Hs _ Hp) _ Hv). apply lookup_lt_Some in Hj. lia. }
    apply list_elem_of_omap in Hslot as (card & Hin & Hc). unfold hand_slot in Hc. destruct (card_location card) as [| |s k| |] eqn:Hl; try done.
    destruct (s =? owner) eqn:Hse; [|done]. injection Hc as _ Hf. exists card. split_and!; [done| |done]. unfold in_hand_of. by rewrite Hl.
Qed.
End Plays.

(** [C39] In a realized scene a seat can name exactly the faces its viewer sees in that
    seat's hand and the rules allow; the command is then the play of that face, and its
    record names the one object that shows the face, the pose it has in the scene, the
    slot of the hand at which the viewer sees the face, and the play zone.  Dragging a card gives the very
    same command, exactly when the card is released wholly inside the play zone; an
    object stands for one face only. *)
Theorem drag_is_named_play t players layout projection scene owner : registered_layout t (layout_of players) = Ok layout →
  2 <= players <= 8 → typed projection → realize_viewer_scene layout projection = Ok scene →
  (∀ face legal, (∃ command, resolve_spatial_card_command layout scene owner face legal = Ok command) ↔
    WirePlay face ∈ legal ∧ ∃ player hand, SpatialRealize.players projection !! owner = Some player ∧ visible_hand player = Some hand ∧ face ∈ hand) ∧
  (∀ face legal command, resolve_spatial_card_command layout scene owner face legal = Ok command →
    command_payload command = GameAction (WirePlay face) ∧ record_face (spatial_record command) = face ∧
    destination (spatial_record command) = LocPlay owner ∧
    (∃ player hand slot, SpatialRealize.players projection !! owner = Some player ∧ visible_hand player = Some hand ∧
       hand !! slot = Some face ∧ source (spatial_record command) = LocHand owner slot) ∧
    ∃ card, card ∈ scene_cards scene ∧ record_object (spatial_record command) = card_id card ∧ card_face card = Some face ∧
      card_location card = source (spatial_record command) ∧ card_at card = source_pose (spatial_record command) ∧
      ∀ other, other ∈ scene_cards scene → card_face other = Some face → other = card) ∧
  (∀ object bounds legal command, resolve_spatial_drag_command layout scene owner object bounds legal = Ok command ↔
    classify_bounds layout bounds = Snapped ZonePlay ∧ record_object (spatial_record command) = object ∧
    resolve_spatial_card_command layout scene owner (record_face (spatial_record command)) legal = Ok command).
Proof.
  intros Hl Hp Ht Hr. destruct (registered_ready _ _ _ Hl Hp) as (Hid & _ & Hready & _).
  assert (validate_projection layout projection = Ok tt) as Hvalid.
  { unfold realize_viewer_scene in Hr. destruct (validate_projection layout projection) as [[]| |]; [done|discriminate..]. }
  destruct (realize_total layout projection Hready Hvalid Ht) as (scene' & Hr' & Hshows). rewrite Hr in Hr'. injection Hr' as <-.
  assert (∀ face legal command, resolve_spatial_card_command layout scene owner face legal = Ok command ↔
    ∃ card, card ∈ scene_cards scene ∧ in_hand_of owner card = true ∧ card_face card = Some face ∧ WirePlay face ∈ legal ∧
      command = command_of_play (play_of owner card face)) as Hcard.
  { intros face legal command. unfold resolve_spatial_card_command, checked_command. rewrite bind_Ok.
    setoid_rewrite (card_play_exact layout projection scene Hready Hvalid Hshows). split.
    - intros (play & (card & Hin & Hh & Hf & ->) & Hc). cbn in Hc. case_bool_decide; [|done]. injection Hc as <-. by exists card.
    - intros (card & Hin & Hh & Hf & Hlegal & ->). eexists. split; [by exists card|]. cbn. by rewrite bool_decide_eq_true_2. }
  split_and!.
  - intros face legal. setoid_rewrite Hcard. rewrite <-(hand_card_exact layout projection scene Hready Hvalid Hshows). split.
    + intros (command & card & Hin & Hh & Hf & Hlegal & _). split; [done|]. by exists card.
    + intros (Hlegal & card & Hin & Hh & Hf). eexists. by exists card.
  - intros face legal command (card & Hin & Hh & Hf & _ & ->)%Hcard. cbn. split_and!; [done..| |].
    + destruct (hand_card_slot layout projection scene Hready Hvalid Hshows owner card face Hin Hh Hf) as (slot & player & hand & Hloc & Hpl & Hv & Hj).
      by exists player, hand, slot.
    + exists card. split_and!; [done..|]. intros other Ho Hof.
      by apply (face_card_unique layout projection scene Hready Hvalid Hshows other card face).
  - intros object bounds legal command. rewrite Hcard. unfold resolve_spatial_drag_command, checked_command. rewrite bind_Ok.
    setoid_rewrite (drag_play_exact layout projection scene Hready Hvalid Hshows). split.
    + intros (play & (Hc & card & face & Hin & <- & Hh & Hf & ->) & Hk). cbn in Hk. case_bool_decide; [|done]. injection Hk as <-.
      split_and!; [done|done|]. by exists card.
    + intros (Hc & <- & card & Hin & Hh & Hf & Hlegal & Heq). eexists. split.
      * split; [done|]. exists card, (record_face (spatial_record command)). split_and!; [done| |done..]. by rewrite Heq.
      * cbn. rewrite bool_decide_eq_true_2 by done. f_equal. symmetry. exact Heq.
Qed.

(** ** The fingerprint *)

(** An encoding that can be told apart from what follows it *)
Definition self_delimiting {A} (ok : A → Prop) (field : A → list Z) : Prop :=
  ∀ a b r s, ok a → ok b → field a ++ r = field b ++ s → a = b ∧ r = s.

Section Fields.
Definition u8_typed (x : nat) : Prop := x < 256.
Definition i32_typed (x : Z) : Prop := in_i32 x = true.
Definition point_typed (p : Point3Mm) : Prop := i32_typed (p_x p) ∧ i32_typed (p_y p) ∧ i32_typed (p_z p).
Definition pose_typed (p : PoseMm) : Prop := point_typed (translation p) ∧ in_width 32 (yaw p).
Definition extents_typed (e : HalfExtentsMm) : Prop := in_width 32 (h_x e) ∧ in_width 32 (h_y e) ∧ in_width 32 (h_z e).
Definition card_id_typed (c : CardObjectId) : Prop := in_width 64 (projection_epoch c) ∧ u8_typed (ordinal c).
Definition zone_typed (z : ZoneId) : Prop := match z with ZoneHand s | ZoneWon s => u8_typed s | _ => True end.
Definition object_id_typed (i : ObjectId) : Prop :=
  match i with IdSeat s | IdPlayer s => u8_typed s | IdZone z => zone_typed z | IdCard c => card_id_typed c | _ => True end.
Definition location_typed (l : CardLocation) : Prop :=
  match l with
  | LocDeck i => u8_typed i | LocTrump => True | LocHand s i => u8_typed s ∧ u8_typed i | LocPlay s => u8_typed s
  | LocWon s t i => u8_typed s ∧ u8_typed t ∧ u8_typed i
  end.
Definition binding_typed (b : TextBinding) : Prop :=
  match b with BindFace c => card_id_typed c | BindName s | BindScore s => u8_typed s end.
Definition object_typed (o : SceneObject) : Prop :=
  object_id_typed (object_id o) ∧ pose_typed (object_pose o) ∧ extents_typed (object_extents o).
Definition card_typed (c : CardObject) : Prop :=
  card_id_typed (card_id c) ∧ location_typed (card_location c) ∧ pose_typed (card_at c) ∧ extents_typed (card_extents c) ∧
  ∀ face, card_face c = Some face → u8_typed face.
Definition text_typed (t : TextRun) : Prop :=
  in_width 16 (Z.of_nat (text_id t)) ∧ binding_typed (binding t) ∧ object_id_typed (on_object (attached_to t)) ∧
  pose_typed (local_pose t) ∧ in_width 64 (Z.of_nat (length (text_bytes (content t)))).

(** A scene whose fields are in the ranges of their types *)
Definition scene_typed (s : SpatialScene) : Prop :=
  in_width 16 (Z.of_nat (scene_schema_version s)) ∧ in_width 64 (scene_table_id s) ∧
  u8_typed (l_players (scene_layout s)) ∧ in_width 16 (Z.of_nat (l_revision (scene_layout s))) ∧ in_width 64 (scene_epoch s) ∧
  in_width 64 (Z.of_nat (length (scene_objects s))) ∧ in_width 64 (Z.of_nat (length (scene_cards s))) ∧
  in_width 64 (Z.of_nat (length (scene_text s))) ∧
  Forall object_typed (scene_objects s) ∧ Forall card_typed (scene_cards s) ∧ Forall text_typed (scene_text s).

Lemma be_delimits k : self_delimiting (in_width (8 * Z.of_nat k)) (be_bytes k).
Proof. intros a b r s Ha Hb He. by apply be_bytes_app_inj in He. Qed.

Lemma u8_delimits : self_delimiting u8_typed u8_field.
Proof. intros a b r s _ _ He. cbn in He. injection He as He ->. split; [lia|done]. Qed.

Lemma u16_delimits : self_delimiting (λ x, in_width 16 (Z.of_nat x)) u16_field.
Proof. intros a b r s Ha Hb He. apply (be_delimits 2) in He as [He ->]; [|done..]. split; [lia|done]. Qed.

Lemma i32_delimits : self_delimiting i32_typed i32_field.
Proof.
  intros a b r s Ha Hb He. unfold i32_field in He. apply (be_delimits 4) in He as [He ->]; [|by apply Z.mod_pos_bound..]. split; [|done].
  unfold i32_typed, in_i32, i32_min, i32_max in Ha, Hb. pose proof (Z.div_mod a (2 ^ 32) ltac:(done)) as H1. pose proof (Z.div_mod b (2 ^ 32) ltac:(done)) as H2.
  rewrite He in H1. change (2 ^ 32)%Z with 4294967296%Z in *. lia.
Qed.

Lemma len_delimits : self_delimiting (λ x, in_width 64 (Z.of_nat x)) len_field.
Proof.
  intros a b r s Ha Hb He. unfold len_field in He. rewrite !checked_ok in He by done. apply (be_delimits 8) in He as [He ->]; [|done..].
  split; [by apply Nat2Z.inj|done].
Qed.

(** Reads the fields of an equation between two encodings off, one by one *)
Ltac take lemma H := rewrite <-?app_assoc in H; apply lemma in H as [? H]; [|solve [done | naive_solver]..].

Lemma point_delimits : self_delimiting point_typed point_field.
Proof.
  intros [x y z] [x' y' z'] r s (?&?&?) (?&?&?) He. unfold point_field in He. cbn in *.
  do 3 take i32_delimits He. by subst.
Qed.

Lemma pose_delimits : self_delimiting pose_typed pose_field.
Proof.
  intros [t y] [t' y'] r s (?&?) (?&?) He. unfold pose_field in He. cbn [translation yaw] in *.
  take point_delimits He. take (be_delimits 4) He. by subst.
Qed.

Lemma extents_delimits : self_delimiting extents_typed extents_field.
Proof.
  intros [x y z] [x' y' z'] r s (?&?&?) (?&?&?) He. unfold extents_field in He. cbn [h_x h_y h_z] in *.
  do 3 take (be_delimits 4) He. by subst.
Qed.

Lemma card_id_delimits : self_delimiting card_id_typed card_id_field.
Proof.
  intros [e o] [e' o'] r s (?&?) (?&?) He. unfold card_id_field in He. cbn [projection_epoch ordinal] in *.
  take (be_delimits 8) He. take u8_delimits He. by subst.
Qed.
Ltac take_u8 H := take u8_delimits H.

Lemma zone_delimits : self_delimiting zone_typed zone_field.
Proof.
  intros a b r s Ha Hb He. destruct a, b; cbn in He; try discriminate; injection He; intros; subst; try (split; [f_equal; lia|done]); done.
Qed.

Lemma object_id_delimits : self_delimiting object_id_typed object_id_field.
Proof.
  intros a b r s Ha Hb He. destruct a, b; cbn [object_id_field] in He; try discriminate He; cbn in Ha, Hb.
  - injection He as ->. done.
  - cbn in He. injection He as He ->. split; [f_equal; lia|done].
  - cbn in He. injection He as He ->. split; [f_equal; lia|done].
  - rewrite <-!app_assoc in He. apply app_inv_head in He. apply zone_delimits in He as [-> ->]; done.
  - injection He as ->. done.
  - rewrite <-!app_assoc in He. apply app_inv_head in He. apply card_id_delimits in He as [-> ->]; done.
Qed.

Lemma location_delimits : self_delimiting location_typed card_location_field.
Proof.
  intros a b r s Ha Hb He. destruct a, b; cbn in He; try discriminate; injection He; intros; subst; split; try done; f_equal; lia.
Qed.

Lemma binding_delimits : self_delimiting binding_typed text_binding_field.
Proof.
  intros a b r s Ha Hb He. destruct a, b; cbn [text_binding_field] in He; try discriminate He; cbn in Ha, Hb.
  - rewrite <-!app_assoc in He. apply app_inv_head in He. apply card_id_delimits in He as [-> ->]; done.
  - cbn in He. injection He as He ->. split; [f_equal; lia|done].
  - cbn in He. injection He as He ->. split; [f_equal; lia|done].
Qed.

Lemma surface_delimits : self_delimiting (λ v, object_id_typed (on_object v)) surface_field.
Proof.
  intros [o k] [o' k'] r s Ha Hb He. unfold surface_field in He. cbn [on_object surface_kind] in *. take object_id_delimits He.
  destruct k, k'; cbn in He; try discriminate He; injection He as ->; by subst.
Qed.

Lemma text_bytes_delimits : self_delimiting (λ t, in_width 64 (Z.of_nat (length (text_bytes t)))) (λ t, bytes_field (text_bytes t)).
Proof.
  intros a b r s Ha Hb He. unfold bytes_field in He. take len_delimits He. apply app_inj_1 in He as [He ->]; [|done].
  by apply text_bytes_inj in He.
Qed.

Lemma object_delimits : self_delimiting object_typed object_field.
Proof.
  intros [i k p e] [i' k' p' e'] r s (?&?&?) (?&?&?) He. unfold object_field in He. cbn [object_id object_kind object_pose object_extents] in *.
  take object_id_delimits He. assert (∀ k, u8_typed match k with KindTable => 0 | KindSeat => 1 | KindPlayer => 2 | KindZone => 3 | KindScoreSheet => 4 end)
    as Hk by (intros []; unfold u8_typed; lia).
  take u8_delimits He. take pose_delimits He. take extents_delimits He. subst. split; [|done]. f_equal. by destruct k, k'.
Qed.

Lemma card_delimits : self_delimiting card_typed card_field.
Proof.
  intros [i l p e f] [i' l' p' e' f'] r s (?&?&?&?&Hf) (?&?&?&?&Hf') He. unfold card_field in He. cbn [card_id card_location card_at card_extents card_face] in *.
  take card_id_delimits He. take location_delimits He. take pose_delimits He. take extents_delimits He. subst.
  destruct f as [f|], f' as [f'|]; cbn in He; try discriminate He; injection He; intros; subst; [|done].
  split; [|done]. do 2 f_equal. lia.
Qed.

Lemma text_delimits : self_delimiting text_typed text_field.
Proof.
  intros [i b a p c] [i' b' a' p' c'] r s (?&?&?&?&?) (?&?&?&?&?) He. unfold text_field in He. cbn [text_id binding attached_to local_pose content] in *.
  take u16_delimits He. take binding_delimits He. take surface_delimits He. take pose_delimits He. take text_bytes_delimits He. by subst.
Qed.

Lemma list_delimits {A} (ok : A → Prop) (field : A → list Z) l l' r s : self_delimiting ok field → length l = length l' →
  Forall ok l → Forall ok l' → flat_map field l ++ r = flat_map field l' ++ s → l = l' ∧ r = s.
Proof.
  intros Hd. revert l'. induction l as [|x l IH]; intros [|x' l'] Hlen Hl Hl' He; try done.
  apply Forall_cons in Hl as [Hx Hl], Hl' as [Hx' Hl']. cbn [flat_map] in He. rewrite <-!app_assoc in He.
  apply Hd in He as [-> He]; [|done..]. injection Hlen as Hlen. by apply IH in He as [-> ->].
Qed.

Lemma scene_bytes_inj a b : scene_typed a → scene_typed b → scene_hash_bytes a = scene_hash_bytes b → a = b.
Proof.
  destruct a as [v t [pl rv] e os cs ts], b as [v' t' [pl' rv'] e' os' cs' ts'].
  intros (?&?&?&?&?&?&?&?&Ho&Hc&Ht) (?&?&?&?&?&?&?&?&Ho'&Hc'&Ht') He. unfold scene_hash_bytes in He.
  cbn [scene_schema_version scene_table_id scene_layout l_players l_revision scene_epoch scene_objects scene_cards scene_text] in *.
  apply app_inv_head in He. apply (f_equal (λ l, l ++ [])) in He. take u16_delimits He. take (be_delimits 8) He. take u8_delimits He. take u16_delimits He.
  take (be_delimits 8) He. take len_delimits He. rewrite <-?app_assoc in He. apply (list_delimits object_typed) in He as [? He]; [|apply object_delimits|done..].
  take len_delimits He. rewrite <-?app_assoc in He. apply (list_delimits card_typed) in He as [? He]; [|apply card_delimits|done..].
  take len_delimits He. rewrite <-?app_assoc in He. apply (list_delimits text_typed) in He as [? He]; [|apply text_delimits|done..]. by subst.
Qed.
End Fields.

(** The fingerprint covers every field of a scene: unless the hash collides on what
    it is fed, two scenes with one fingerprint are the same scene, and only a valid scene
    has a fingerprint. *)
Theorem scene_hash_determines blake3 a b hash : spatial_scene_hash blake3 a = Ok hash → spatial_scene_hash blake3 b = Ok hash →
  scene_typed a → scene_typed b →
  (blake3 (scene_hash_bytes a) = blake3 (scene_hash_bytes b) → scene_hash_bytes a = scene_hash_bytes b) →
  a = b ∧ scene_validate a = Ok tt.
Proof.
  unfold spatial_scene_hash. intros Ha Hb Ta Tb Hno. apply bind_Ok in Ha as ([] & Hv & [= Ha]), Hb as ([] & _ & [= Hb]).
  split; [|done]. apply scene_bytes_inj; [done..|]. apply Hno. congruence.
Qed.

(** ** The shared pose of a card *)

Section Manipulation.
Context {I : Type}.

Inductive manipulation : Type :=
  | Sample (lease sequence : Z) (pose : ManipulationPose) (inside : bool)
  | Handoff (lease : Z).

(** One message: the new state, and whether it is an attempt to play *)
Definition manipulate (op : manipulation) : M (CardManipulation I) ManipulationError bool :=
  match op with
  | Sample lease sequence pose inside => manipulation_update lease sequence pose inside
  | Handoff lease => _ ← change_lease lease; mret false
  end.

Definition manipulation_advances (s s' : CardManipulation I) : Prop :=
  (lease_epoch s < lease_epoch s')%Z ∨ lease_epoch s = lease_epoch s' ∧ (sequence s < sequence s')%Z.

(** An accepted message advances the lease or, within it, the sequence, keeps the card
    and the table's bounds, and is an attempt exactly when the card enters the play
    region; a refused one changes nothing *)
Lemma manipulate_step op s s' r : manipulate op s = (s', r) →
  match r with
  | Ok attempt => manipulation_advances s s' ∧ manipulated s' = manipulated s ∧
      attempt = inside_play s' && negb (inside_play s) ∧
      (point_is_within_table_bounds (m_translation (m_pose s)) = true → point_is_within_table_bounds (m_translation (m_pose s')) = true)
  | Err _ => s' = s
  | Panic => False
  end.
Proof.
  destruct op as [lease k pose inside|lease]; cbn [manipulate]; unfold manipulation_update, change_lease, mbind, M_bind, read, lift, update, mret, M_ret, id, ensure.
  - destruct (lease =? lease_epoch s)%Z; [|by intros [= <- <-]]. destruct (sequence s <? k)%Z eqn:Hk; [|by intros [= <- <-]].
    destruct (point_is_within_table_bounds (m_translation pose)) eqn:Hp; intros [= <- <-]; [|done]. cbn. split_and!; [right; cbn; lia|done..].
  - destruct (lease_epoch s <? lease)%Z eqn:Hk; intros [= <- <-]; [|done]. cbn. split_and!; [left; cbn; lia|done| |done]. by destruct (inside_play s).
Qed.

(** A run of messages, with the attempts it makes and the times the card leaves the region *)
Fixpoint manipulate_all (ops : list manipulation) (s : CardManipulation I) : CardManipulation I * nat * nat :=
  match ops with
  | [] => (s, 0, 0)
  | op :: ops =>
      let '(s1, r) := manipulate op s in
      let '(s2, attempts, exits) := manipulate_all ops s1 in
      (s2, (if r is Ok true then S attempts else attempts), (if inside_play s && negb (inside_play s1) then S exits else exits))
  end.

(** Repetition, reordering and handoffs make no attempt of their own: there is one for
    each stay in the play region *)
Lemma attempts_are_entries ops s s' attempts exits : manipulate_all ops s = (s', attempts, exits) →
  attempts + Nat.b2n (inside_play s) = exits + Nat.b2n (inside_play s').
Proof.
  revert s attempts exits. induction ops as [|op ops IH]; intros s attempts exits; cbn [manipulate_all]; [intros [= <- <- <-]; done|].
  destruct (manipulate op s) as [s1 r] eqn:Hop. destruct (manipulate_all ops s1) as [[s2 a] e] eqn:Hall. intros [= <- <- <-].
  apply IH in Hall. apply manipulate_step in Hop. destruct r as [attempt|err|]; [|subst s1|done].
  - destruct Hop as (_ & _ & -> & _). destruct (inside_play s), (inside_play s1), (inside_play s2); cbn in *; lia.
  - destruct (inside_play s), (inside_play s2); cbn in *; lia.
Qed.
End Manipulation.

(** ** Demonstrations *)

Definition demo_nothing : SceneObject :=
  {| object_id := IdTable; object_kind := KindTable; object_pose := {| translation := point 0 0 0; yaw := 0 |};
     object_extents := half_extents_new 0 0 0 |}.

Definition demo_layout : SpatialLayout :=
  Eval vm_compute in match registered_layout 7 (layout_of 2) with
                     | Ok layout => layout
                     | _ => {| table_id := 0; layout_id := layout_of 2; table := demo_nothing; score_sheet := demo_nothing;
                               seats := []; zones := [] |}
                     end.

(** Two seats in the middle of a round: one hand shown, one card played, a trick won *)
Definition demo_projection : ViewerSpatialProjection :=
  {| view_epoch := 9;
     players := [{| seat := 0; display_name := "alice"; score := 120; hand_count := 2; visible_hand := Some [5; 18]; tricks_won := 1 |};
                 {| seat := 1; display_name := "bob"; score := 65535; hand_count := 1; visible_hand := None; tricks_won := 0 |}];
     trump := Some 40; current_trick := [{| played_seat := 1; played_face := 20 |}];
     revealed_won_cards := [{| winner := 0; trick := 0; index := 1; won_face := 51 |}] |}.

Definition demo_scene : SpatialScene :=
  Eval vm_compute in match realize_viewer_scene demo_layout demo_projection with
                     | Ok scene => scene
                     | _ => {| scene_schema_version := 0; scene_table_id := 0; scene_layout := layout_of 2; scene_epoch := 0;
                               scene_objects := []; scene_cards := []; scene_text := [] |}
                     end.

Lemma demo_typed : typed demo_projection.
Proof. split; apply Forall_forall, (bool_decide_unpack _); by vm_compute. Qed.

(** A box around the centre of the play zone *)
Definition demo_release : AabbMm := {| box_min := point (-32) 39 (-44); box_max := point 32 41 44 |}.

(** A box one millimetre beyond the table bounds *)
Definition demo_outside : AabbMm :=
  {| box_min := point 0 0 0; box_max := point (MAX_ABS_TABLE_COORDINATE_MM + 1) 0 0 |}.

Lemma classification_exact_witness : classify_bounds demo_layout demo_release = Snapped ZonePlay ∧
  classify_bounds demo_layout demo_outside = OutOfBounds ∧
  ∀ point zones, classify_point demo_layout point ≠ Ambiguous zones.
Proof.
  destruct (classification_exact demo_layout (box_min demo_release) (box_max demo_release) demo_release) as (Hc & _ & Hp);
    [by vm_compute|by vm_compute|].
  destruct (classification_exact demo_layout (box_min demo_outside) (box_max demo_outside) demo_outside) as (Ho & _);
    [by vm_compute|by vm_compute|].
  split; [rewrite Hc; by vm_compute|]. split; [rewrite Ho; by vm_compute|exact Hp].
Defined.

Lemma realization_round_trip_witness : ∃ scene, realize_viewer_scene demo_layout demo_projection = Ok scene ∧
  abstract_viewer_scene demo_layout scene = Ok demo_projection.
Proof.
  destruct (realization_round_trip 7 2 demo_projection ltac:(lia) demo_typed) as (layout & Hl & _ & Hr).
  assert (registered_layout 7 (layout_of 2) = Ok demo_layout) as Hd by (by vm_compute). rewrite Hd in Hl. injection Hl as <-.
  assert (validate_projection demo_layout demo_projection = Ok tt) as Hv by (by vm_compute). rewrite Hv in Hr.
  destruct Hr as (scene & Hs & _ & _ & Ha). exists scene. split; [exact Hs|]. rewrite Ha. reflexivity.
Defined.

Lemma drag_is_named_play_witness : ∃ command, resolve_spatial_card_command demo_layout demo_scene 0 18 [WirePlay 18; WirePlay 5] = Ok command ∧
  source (spatial_record command) = LocHand 0 1 ∧
  resolve_spatial_drag_command demo_layout demo_scene 0 (record_object (spatial_record command)) demo_release [WirePlay 18; WirePlay 5] = Ok command.
Proof.
  destruct (drag_is_named_play 7 2 demo_layout demo_projection demo_scene 0) as (Hnamed & Hrecord & Hdrag);
    [by vm_compute|lia|exact demo_typed|by vm_compute|].
  destruct (proj2 (Hnamed 18 [WirePlay 18; WirePlay 5])) as (command & Hc).
  { split; [left|]. eexists _, [5; 18]. split; [reflexivity|]. split; [reflexivity|]. right. left. }
  destruct (Hrecord _ _ _ Hc) as (_ & Hf & _ & (player & hand & slot & Hp & Hv & Hs & Hsrc) & _).
  exists command. split; [exact Hc|]. split.
  - cbn in Hp. injection Hp as <-. cbn in Hv. injection Hv as <-. rewrite Hsrc.
    destruct slot as [|[|slot]]; [discriminate Hs|reflexivity|discriminate Hs].
  - apply Hdrag. split; [by vm_compute|]. split; [reflexivity|]. rewrite Hf. exact Hc.
Defined.

(** A table with one card face down *)
Definition demo_table (epoch : Z) : SpatialScene :=
  {| scene_schema_version := 1; scene_table_id := 7; scene_layout := layout_of 2; scene_epoch := epoch; scene_objects := [];
     scene_cards := [{| card_id := {| projection_epoch := epoch; ordinal := 0 |}; card_location := LocDeck 0;
                        card_at := {| translation := point 0 0 (-5); yaw := 0 |}; card_extents := CARD_HALF_EXTENTS; card_face := None |}];
     scene_text := [] |}.

Lemma scene_hash_determines_witness : ∃ hash, spatial_scene_hash id (demo_table 3) = Ok hash ∧ demo_table 3 = demo_table 3 ∧
  scene_validate (demo_table 3) = Ok tt.
Proof.
  exists (scene_hash_bytes (demo_table 3)). split; [by vm_compute|].
  assert (scene_typed (demo_table 3)) as Ht.
  { unfold scene_typed, u8_typed, in_width. cbn [demo_table scene_schema_version scene_table_id scene_layout layout_of l_players l_revision
      scene_epoch scene_objects scene_cards scene_text length].
    split_and!; try lia; [constructor| |constructor]. constructor; [|constructor].
    unfold card_typed, card_id_typed, pose_typed, point_typed, extents_typed, u8_typed, in_width. cbn. split_and!; try lia; try reflexivity; try done; unfold u8_typed; lia. }
  apply (scene_hash_determines id (demo_table 3) (demo_table 3) (scene_hash_bytes (demo_table 3)));
    [by vm_compute|by vm_compute|exact Ht|exact Ht|done].
Defined.

(** A hand that is shown and empty is read back as hidden *)
Lemma empty_hand_reads_hidden :
  let projection := {| view_epoch := 9;
    players := [{| seat := 0; display_name := "alice"; score := 0; hand_count := 0; visible_hand := Some []; tricks_won := 0 |};
                {| seat := 1; display_name := "bob"; score := 0; hand_count := 0; visible_hand := None; tricks_won := 0 |}];
    trump := None; current_trick := []; revealed_won_cards := [] |} in
  match realize_viewer_scene demo_layout projection with
  | Ok scene => abstract_viewer_scene demo_layout scene = Ok (canonical projection) ∧ canonical projection ≠ projection
  | _ => False
  end.
Proof. vm_compute. by split. Qed.
